(* ===== verification/_CoqProject ===== *)
-Q . S2P
Prelude.v
Ordered.v
Decimal.v
MarketTypes.v
MarketEvents.v
Ledger.v
LedgerFacts.v
LedgerTheorems.v
Valuation.v
Risk.v
Book.v
BookFacts.v
BookMatch.v
BookTheorems.v
Auction.v
AuctionPrice.v
Uncross.v
BookEffects.v
Calendar.v
Latency.v
Sequencer.v
Digest.v
Transition.v
Simulation.v
Scenario.v
Engine.v
EngineFrame.v
EngineInvariant.v
EngineFills.v
EngineSubmit.v
EngineRun.v
EngineRetire.v
EngineReach.v
EngineTheorems.v
Origin.v
OriginTheorems.v
Venue.v
Hoare.v
FixWire.v
FixFrames.v
FixSession.v
FixSessionFacts.v
FixResend.v
FixSessionTheorems.v
Execution.v
ExecutionFacts.v
ExecutionTheorems.v
Adapter.v
MarketFeed.v
FeedSession.v
Publishing.v
FeedTheorems.v
FixMapping.v
Application.v
FixApplication.v
FixApplicationTheorems.v
ApplicationTheorems.v
Competition.v
RunClock.v
BnpBytes.v
BnpWire.v
BnpChain.v
BnpCodec.v
BnpCodecFacts.v
BnpTheorems.v
BnpInvite.v
BnpMapping.v
BnpMappingTheorems.v
WalFrames.v
FileOrigin.v
FileOriginTheorems.v
Durability.v
SessionStore.v
SessionStoreTheorems.v
Distributor.v
Tape.v
Admission.v
SessionHost.v
HostTheorems.v
SessionJobs.v
