(* ===== verification/Prelude.v ===== *)
(** * Bunting: a verification library for the venue core

    Bunting is a simulated trading venue: a deterministic matching engine
    with a ledger, pre-trade risk, call auctions, a trading calendar and a
    simulation domain, driven through a journalling store and fed by an
    admission sequencer that simulates network geography.  This library
    models the core crates under [src/packages/] as executable functions and
    proves what makes them correct.

    ** Parts of the program and the files that model them

    - [market-types] and [market-events]: [MarketTypes] (the fixed-point
      newtypes with their widths, identifiers, listing keys and their text
      form, on the decimal conversions of [Decimal]) and [MarketEvents]
      (commands, events, reject codes as inductive types with the source's
      constructors).
    - [ledger]: [Ledger] has the operations of [Ledger] in the order of the
      source, each as a computation [M Ledger LedgerError A] that threads the
      ledger and may fail; [LedgerFacts] (what every operation changes, the
      well-formedness invariant and its preservation, and what an order claims
      of a ledger, the interface the engine uses), [LedgerTheorems] and [Valuation] (net liquidation and reporting values).
    - [risk-engine]: [Risk], the admission checks and their soundness for the
      ledger.
    - [bunting-engine/src/book.rs]: [Book] (continuous trading and the
      persisted form), [Auction] (call auctions); [BookFacts] (the book
      invariant and the abstract price-time queue of a side), [BookMatch] (the
      abstract matching of a queue, the refinement, and what matching leaves),
      [BookTheorems], [AuctionPrice], [Uncross]
      and [BookEffects] (what the engine needs to know of one operation).
    - [bunting-engine/src/calendar.rs]: [Calendar].
    - [bunting-engine/src/simulation.rs]: [Simulation], one definition per
      command of [SimulationState::apply], the clock, scheduled actions and
      projections; then which operations leave the claims of orders, the
      terms and the policy version alone.
    - [bunting-engine/src/lib.rs]: [Scenario] (scenario definitions, their
      validation and the catalog), [Engine] (the run state, both in-place
      transitions [apply] and [apply_simulation], run creation, snapshots).
      The invariant of a run is developed in [EngineFrame] (which fields an
      operation leaves alone), [EngineInvariant] (the invariant and its first
      lemmas), [EngineFills], [EngineSubmit], [EngineRun], [EngineRetire] and
      [EngineReach] (one file per group of handlers, up to
      every reachable run); [EngineTheorems] has the results.
    - [admission-sequencer]: [Latency] (latency map, jitter streams, the
      admission record) and [Sequencer] (the release queue).
    - [origin-store]: [Transition] states, as the class [Engine], what the
      store requires of the engine; [Origin] is the store written against that
      class (live run, hash chain, checkpoints, recovery, in-memory store),
      [OriginTheorems] its properties and a concrete engine that meets the
      class; [Digest] has bytes, hexadecimal and the class of the digest.
      [Venue] runs the modelled engine in the store.
    - [simfix-wire]: [FixWire] (encoding, the incremental decoder, frame
      parsing, repeating groups and the competition profile), [FixFrames]
      (frames and streams of frames).
    - [simfix-session]: [FixSession], one definition per method;
      [FixSessionFacts] (the invariant of a session and the order of
      delivery, by the weakest preconditions of [Hoare]), [FixResend] (what a
      resend covers and what the peer makes of it), [FixSessionTheorems].
    - [quarcc-execution-engine]: [Execution] (intents, reports, reconciliation,
      positions and risk), [ExecutionFacts] (what reports change, indices and
      bounds), [ExecutionTheorems];
      [quarcc-bunting-adapter]: [Adapter].
    - Public market data, across four crates: [MarketFeed] (differences
      between committed views, [bunting-application/src/lib.rs]; the feeds of
      a session, [bunting-server/src/public_feed.rs] and [bnp_feeds.rs]; the
      client's copy, [bunting-client/src/book.rs]), [Publishing] (the public
      projection and the publishing origin,
      [bunting-server/src/distributor.rs], and the snapshots; that the engine
      announces what it moves and the caches follow the books);
      [FeedSession] (the feeds of a session, the life of a subscription),
      [FeedTheorems].  [Distributor] has the bounded queues of the
      subscriptions and the batches retained for resuming sessions; [Tape]
      the consolidated tape's processor
      ([bunting-server/src/consolidated.rs]) and the client's copy of it
      ([bunting-client/src/tape.rs]).
    - [bnp-wire]: [BnpBytes] (readers and writers of little-endian integers,
      strings, groups and enumerations), [BnpWire] (the messages of both
      directions), [BnpCodec] (their bodies, frames and the stream decoder);
      [BnpChain] (the class [Codec] of a writer and the reader of its bytes,
      with a rule per construct of the code), [BnpCodecFacts] (every structure
      and message is one; frames and streams), [BnpTheorems];
      [BnpInvite] (enrolment invites).
    - [simfix-mapping]: [FixMapping] (FIX application messages to intents and
      requests, reports and market data to FIX messages).
    - [command-transaction] and [bunting-application/src/lib.rs]:
      [Application] (verified actors, the authority checks, the service over
      the store and its clock tick, the projections), [ApplicationTheorems];
      [FixApplication] (the application of one FIX session: its order manager,
      the namespace of its identities, messages to commands and committed
      events to reports), [FixApplicationTheorems].
    - [bunting-application/src/competition.rs]: [Competition] (what an actor
      may see); [bunting-application/src/bnp.rs]: [BnpMapping] (BNP messages
      to commands, events and state to BNP messages), [BnpMappingTheorems].
    - [bunting-server/src/run_clock.rs]: [RunClock] (run time and venue time,
      and the timer's polls, with what they guarantee).
    - [bunting-server/src/commit_journal.rs] and [storage.rs]: [WalFrames]
      (frames of a log and the scan that cuts a crash tail), [FileOrigin] (the
      store on disk; a disk says of each call which of its bytes arrive),
      [FileOriginTheorems] (the invariant that ties the files to the live
      runs, for any engine with the laws it names), [Durability] (the modelled
      engine meets them).
    - [bunting-server/src/session_store.rs] and [delivery.rs]: [SessionStore]
      (the log of a FIX session: checkpoints, deltas, what is owed and
      replayed), [SessionStoreTheorems].
    - [bunting-server/src/admission.rs]: [Admission] (what sessions, the timer
      and the sequencer's thread do on the admission service);
      [session_host.rs] and [outbound.rs]: [SessionHost] (logging on, the
      messages held for their departure, and one definition per turn of the
      session loop, over the session, its store, its probes and its socket),
      [HostTheorems], [SessionJobs] (the admission of a request, the job it
      becomes, competition requests and reports, the feeds of the session).
    - [Prelude] (this file): machine integers, the result and state-and-error
      monads, their inversion tactics, the hint databases and lemmas on lists,
      options and integers; [Ordered]: the ordered view of maps ([BTreeMap]
      iteration, ranges, first and last), sorting and deduplication.

    ** How the code is represented

    Integers are [Z] and every operation names the width it is checked,
    wrapped or saturated at.  [BTreeMap] and [BTreeSet] are [gmap] and [gset],
    with iteration always through the sorted view of [Ordered]; vectors are
    lists.  [Result] is [result]; a method on [&mut self] is a function in
    [M S E A], which returns the state also on failure, so that a mutation
    before an error is visible and the difference between a refused transition
    that changed nothing ([Unchanged]) and one that failed half way
    ([Poisoned]) is part of the model.  Panics of indexing expressions are the
    error [IndexPanic].  Loops that are not structural take fuel: the matching
    loop the incoming quantity, the auction loops the number of levels and of
    orders, the boundary loop the number of boundaries the calendar has left,
    the expiry loop the number of expiries; the theorems show that the results
    are those of the unbounded loops (the loops end with nothing left to do),
    not only that they are right if the fuel suffices.

    ** What the theorems show

    - Ledger: refused operations change nothing; every reachable ledger is
      well formed; settlement conserves cash, fees and holdings, satisfies the
      accounting identity and never leaves a naked short position;
      reservations release exactly; conversions conserve cost basis; the net
      liquidation value is an exact sum.
    - Risk: an admitted order always opens and stays within its limits, and an
      admitted cash-constrained buy is funded at every price it can trade.
    - Book: matching refines price-time priority on an abstract queue, fills
      exactly what the limit permits, accounts for every lot, keeps the book
      uncrossed; the aggregate fill-or-kill test is exact; the persisted form
      is lossless.
    - Auctions: the linear sweep equals the quadratic definition, its price is
      optimal, uncrossing executes exactly the smaller of demand and supply.
    - Calendar, latency and sequencer: boundaries are total and within their
      day; validated geographies are complete; jitter streams are independent
      of other traffic; releases are totally ordered, never early, never lost.
    - Engine: in every run reachable from a scenario by committed inputs, the
      books show exactly the live orders, the ledger holds exactly what they
      reserve, snapshots verify, live orders can always be canceled, the kill
      switch leaves none, the clock leaves nothing due, events are numbered
      without gaps, immediate orders never rest and fill-or-kill is all or
      nothing.
    - Store: a live run is always the re-execution of its journal, refused
      inputs commit nothing, committed inputs are idempotent and recovery is
      exact.
    - Venue: the engine in the store; a journalled run of engine inputs
      satisfies the run invariant and recovers to itself.
    - FIX framing: any cutting of a stream of encoded messages decodes to
      those messages (a frame cut within its first 13 bytes is refused, a
      defect), and a single corrupted byte never passes as the same message.
    - FIX session: delivery is in strictly increasing sequence order under any
      calls, every reachable snapshot restores, answering a resend request
      brings the peer up to date with everything retained (when that and the
      peer's buffer hold no resend request and no logout); a buffered message
      that a gap fill overtakes disables recovery for good (a defect).
    - Participant: the order indices are exact, snapshots restore (unless a
      reconciliation overfilled the table, a defect), positions move exactly
      with the filled quantities, retries end (but drop what follows a refused
      report, a defect), the kill switch is final; the adapter's reports are
      about its own orders (but a foreign reject silences an order, and a
      self trade is reported on one side only: defects).
    - Market data: the engine's events name every book a commit moves; a
      subscriber that applies the snapshot and the messages of its session
      holds the venue's book after every commit; a projection that failed is
      always met as a gap, never as a silently stale book.
    - Native protocol: every message of both directions survives encoding,
      any cutting of the stream and decoding; a server frame decodes exactly
      when it is an encoding; no frame that decodes is a proper prefix of
      another; a client message is refused only for a string that is too
      long; invites are read back as printed.
    - Application: the journal of a run is, record for record, the calls that
      were answered with a fresh transaction: what the caller sent, which its
      own identity may ask for, or the tick of a poll of the timer; a tick
      leaves nothing due, and the timer queues it at the very microsecond it
      falls due; the consolidated quote is the best of all listings.
    - FIX application: commands of a session are authorised and stay in the
      session's namespace, an order is acknowledged under its client's name;
      a replace request leaves an order that cannot be canceled (a defect).
    - BNP application: requests are authorised, messages of a participant
      depend on nothing of others, all of them are encoded and decoded by the
      client, and the fills of a call auction's self-trade name one order
      twice (a defect).
    - Durable store: whatever bytes of a call's write reach the disk, a restart
      succeeds and serves everything that was acknowledged, and of the
      unacknowledged call all or nothing.
    - Session log: whatever bytes of a write reach the log, it opens again, on
      the state that was acknowledged or, of an unacknowledged write, on the
      state before or after it, owing exactly the reports not yet written.
    - Admission: of two tasks of one session for one destination the second
      is released only after the first, whatever the jitter of the paths.
    - Distributor and tape: a subscription is handed everything since it was
      made or fails; the client's copy of the tape mirrors the processor's
      quotes; without jitter the processor ends on every venue's last quote;
      in general it and its copies show the change that arrived last, which
      over a jittery path can be an older one (a defect).
    - Session host: a logon needs the credential of its entry; held messages
      leave in the order of their departure; whatever the disk and the socket
      do, the log resumes at a point from which on nothing more was put on the
      socket; a restored session applies each batch it missed exactly once.
    - Session jobs: a command is committed at most once however often it is
      resent; a competition request commits in its own actor's name or nothing
      (but two sessions' decisions of one number collide, a defect); a
      discovery report lists every listing; a session with market data is, for
      its host, the run of exactly the host calls that its calls stand for.

    ** What is not modelled

    JSON and SHA-256 are parameters, given as classes ([Sha256],
    [ScenarioCodec], [RunCodec], [JournalCodec], [StoreCodec], [SessionCodec],
    [CompetitionCodec]) with only their documented
    behaviour as laws (a digest has 32 bytes; equal values have equal
    encodings; the store's files are parsed back); the witnesses instantiate them.  The binary heap of the
    sequencer is a list in release order, duplicate detection by sorting is
    [NoDup], and the mutex of the in-memory store and its poisoning are left
    out.  Accessors that return a field have no definition of their own.
    The server's sockets and threads, the clients and user interfaces, the
    agents and the language bindings are input/output and presentation around
    this core.  Of the durable store, the writer's lock file and the creation
    of directories are left out, and of a session's log the self-check of debug
    builds.
    The embedded FIX dictionaries are generated tables, a class parameter
    ([FixDictionary]) without laws.
    Of the FIX session host, the reader's thread and the sleep between turns
    are left out, and the clocks are arguments.  In [SessionHost] what the
    feeds and the admission service answer to a mapped message is an argument
    of the turn; [SessionJobs] supplies it. *)

From Stdlib Require Export ZArith Lia Sorted.
From stdpp Require Export sorting gmap sets strings.

#[global] Open Scope Z_scope.

(** ** Machine integers

    A Rust integer is a [Z] together with the type that bounds it; the
    arithmetic of the source is always one of the checked, wrapping or
    saturating operations, written out here at their width. *)

Inductive int_ty : Type := I64 | I128 | U8 | U16 | U32 | U64 | U128 | Usize.

Definition int_min (t : int_ty) : Z :=
  match t with
  | I64 => - 2 ^ 63
  | I128 => - 2 ^ 127
  | U8 | U16 | U32 | U64 | U128 | Usize => 0
  end.

Definition int_max (t : int_ty) : Z :=
  match t with
  | I64 => 2 ^ 63 - 1
  | I128 => 2 ^ 127 - 1
  | U8 => 2 ^ 8 - 1
  | U16 => 2 ^ 16 - 1
  | U32 => 2 ^ 32 - 1
  | U64 | Usize => 2 ^ 64 - 1
  | U128 => 2 ^ 128 - 1
  end.

#[global] Arguments int_min : simpl never.
#[global] Arguments int_max : simpl never.

Definition in_range (t : int_ty) (z : Z) : bool :=
  (int_min t <=? z) && (z <=? int_max t).

(** [checked t z] is the result of a checked operation whose exact result
    is [z]: [None] on overflow of the type. *)
Definition checked (t : int_ty) (z : Z) : option Z :=
  if in_range t z then Some z else None.

Definition checked_add (t : int_ty) (a b : Z) : option Z := checked t (a + b).
Definition checked_sub (t : int_ty) (a b : Z) : option Z := checked t (a - b).
Definition checked_mul (t : int_ty) (a b : Z) : option Z := checked t (a * b).
Definition checked_neg (t : int_ty) (a : Z) : option Z := checked t (- a).

(** Rust's signed division truncates towards zero; it fails on a zero
    divisor and on [MIN / -1]. *)
Definition checked_div (t : int_ty) (a b : Z) : option Z :=
  if b =? 0 then None else checked t (Z.quot a b).

(** Wrapping and saturating arithmetic of unsigned types. *)
Definition wrap (t : int_ty) (z : Z) : Z := z mod (int_max t + 1).
Definition wrapping_add (t : int_ty) (a b : Z) : Z := wrap t (a + b).
Definition wrapping_mul (t : int_ty) (a b : Z) : Z := wrap t (a * b).
Definition saturating_add (t : int_ty) (a b : Z) : Z := Z.min (a + b) (int_max t).

(** ** Fallible computations

    [result E A] is Rust's [Result<A, E>]; [M S E A] is a method taking
    [&mut self] of type [S] and returning [Result<A, E>]: it returns the
    state it leaves behind on the error path too, so that partial mutation
    before an early return is visible in the model. *)

Inductive result (E A : Type) : Type :=
  | Ok (a : A)
  | Err (e : E).
Arguments Ok {E A} a.
Arguments Err {E A} e.

#[export] Instance result_ret E : MRet (result E) := fun _ a => Ok a.
#[export] Instance result_bind E : MBind (result E) :=
  fun _ _ f r => match r with Ok a => f a | Err e => Err e end.

Definition ok_or {E A} (o : option A) (e : E) : result E A :=
  match o with Some a => Ok a | None => Err e end.

Definition map_err {E F A} (f : E -> F) (r : result E A) : result F A :=
  match r with Ok a => Ok a | Err e => Err (f e) end.

Definition is_ok {E A} (r : result E A) : bool :=
  match r with Ok _ => true | Err _ => false end.

(** [if b { return Err(e); }] and [for x in l { f(x)?; }] in a function that
    does not mutate. *)
Definition err_if {E} (b : bool) (e : E) : result E unit := if b then Err e else Ok tt.
Fixpoint check_all {E A} (f : A -> result E unit) (l : list A) : result E unit :=
  match l with [] => Ok tt | x :: l => _ ← f x; check_all f l end.

Definition M (S E A : Type) : Type := S -> S * result E A.

#[export] Instance M_ret S E : MRet (M S E) := fun _ a s => (s, Ok a).
#[export] Instance M_bind S E : MBind (M S E) :=
  fun _ _ f m s =>
    match m s with
    | (s', Ok a) => f a s'
    | (s', Err e) => (s', Err e)
    end.

Definition gets {S E A} (f : S -> A) : M S E A := fun s => (s, Ok (f s)).
Definition modify {S E} (f : S -> S) : M S E unit := fun s => (f s, Ok tt).
Definition lift {S E A} (r : result E A) : M S E A := fun s => (s, r).
Definition throw {S E A} (e : E) : M S E A := fun s => (s, Err e).

(** [refuse_if b e] is the source's [if b { return Err(e); }]. *)
Definition refuse_if {S E} (b : bool) (e : E) : M S E unit :=
  if b then throw e else mret tt.

(** [for x in l { f(x)?; }] *)
Fixpoint for_each {S E A} (f : A -> M S E unit) (l : list A) : M S E unit :=
  match l with [] => mret tt | x :: l => f x;; for_each f l end.

(** ** Inversion of fallible computations *)

Section inversion.
Context {S E : Type}.

Lemma bind_Ok_inv {A B} (m : M S E A) (f : A -> M S E B) s s' b :
  (m ≫= f) s = (s', Ok b) ->
  exists s1 a, m s = (s1, Ok a) /\ f a s1 = (s', Ok b).
Proof.
  unfold mbind, M_bind. destruct (m s) as [s1 [a|e]]; [eauto | discriminate].
Qed.

Lemma bind_Err_inv {A B} (m : M S E A) (f : A -> M S E B) s s' e :
  (m ≫= f) s = (s', Err e) ->
  m s = (s', Err e) \/ exists s1 a, m s = (s1, Ok a) /\ f a s1 = (s', Err e).
Proof.
  unfold mbind, M_bind. destruct (m s) as [s1 [a|e']]; [eauto |].
  intros [= <- <-]. by left.
Qed.

Lemma bind_run {A B} (m : M S E A) (f : A -> M S E B) s s1 a :
  m s = (s1, Ok a) -> (m ≫= f) s = f a s1.
Proof. unfold mbind, M_bind. by intros ->. Qed.

Lemma lift_Ok_inv {A} (r : result E A) (s s' : S) a :
  lift r s = (s', Ok a) -> s' = s /\ r = Ok a.
Proof. unfold lift. by intros [= -> ->]. Qed.

Lemma refuse_if_Ok_inv b (e : E) (s s' : S) u :
  refuse_if b e s = (s', Ok u) -> s' = s /\ b = false.
Proof. by destruct b; intros [= ->]. Qed.

(** [m] does not change the state when it fails. *)
Definition fails_clean {A} (m : M S E A) : Prop :=
  forall s s' e, m s = (s', Err e) -> s' = s.

(** [m] never changes the state. *)
Definition reads {A} (m : M S E A) : Prop := forall s, (m s).1 = s.

(** [m] never fails. *)
Definition infallible {A} (m : M S E A) : Prop := forall s, is_ok (m s).2 = true.

Lemma reads_lift {A} (r : result E A) : reads (lift r).
Proof. done. Qed.
Lemma reads_gets {A} (f : S -> A) : reads (gets f).
Proof. done. Qed.
Lemma reads_ret {A} (a : A) : reads (mret a).
Proof. done. Qed.
Lemma reads_throw {A} (e : E) : reads (throw (A := A) e).
Proof. done. Qed.
Lemma reads_refuse_if b (e : E) : reads (refuse_if b e).
Proof. by destruct b. Qed.
Lemma reads_bind {A B} (m : M S E A) (f : A -> M S E B) :
  reads m -> (forall a, reads (f a)) -> reads (m ≫= f).
Proof.
  intros Hm Hf s. specialize (Hm s). unfold mbind, M_bind.
  destruct (m s) as [s1 [a|e]]; simpl in *; subst; [apply Hf | done].
Qed.

Lemma infallible_ret {A} (a : A) : infallible (mret a).
Proof. done. Qed.
Lemma infallible_modify (f : S -> S) : infallible (modify f).
Proof. done. Qed.
Lemma infallible_bind {A B} (m : M S E A) (f : A -> M S E B) :
  infallible m -> (forall a, infallible (f a)) -> infallible (m ≫= f).
Proof.
  intros Hm Hf s. specialize (Hm s). unfold mbind, M_bind.
  destruct (m s) as [s1 [a|e]]; [apply Hf | done].
Qed.

Lemma fails_clean_reads {A} (m : M S E A) : reads m -> fails_clean m.
Proof. intros Hr s s' e H. specialize (Hr s). by rewrite H in Hr. Qed.
Lemma fails_clean_infallible {A} (m : M S E A) : infallible m -> fails_clean m.
Proof. intros Hi s s' e H. specialize (Hi s). by rewrite H in Hi. Qed.
(** Checks first, writes last: the staging discipline of the source. *)
Lemma fails_clean_bind {A B} (m : M S E A) (f : A -> M S E B) :
  reads m -> (forall a, fails_clean (f a)) -> fails_clean (m ≫= f).
Proof.
  intros Hm Hf s s' e H. specialize (Hm s). unfold mbind, M_bind in H.
  destruct (m s) as [s1 [a|e']]; simpl in *; subst; [by eapply Hf | by inversion H].
Qed.

End inversion.

Create HintDb staging.
#[export] Hint Resolve reads_lift reads_gets reads_ret reads_throw reads_refuse_if
  infallible_ret infallible_modify : staging.

(** [run_inv] turns a hypothesis that a computation returned [Ok] into the
    facts of each of its steps. *)
Ltac run_inv :=
  repeat match goal with
  | H : mbind (M := M _ _) _ _ _ = (_, Ok _) |- _ =>
      apply bind_Ok_inv in H as (? & ? & ? & ?)
  | H : lift _ _ = (_, Ok _) |- _ => apply lift_Ok_inv in H as [-> ?]
  | H : refuse_if _ _ _ = (_, Ok _) |- _ => apply refuse_if_Ok_inv in H as [-> ?]
  | H : gets _ _ = (_, Ok _) |- _ => unfold gets in H; simplify_eq
  | H : mret _ _ = (_, Ok _) |- _ => unfold mret, M_ret in H; simplify_eq
  | H : throw _ _ = (_, Ok _) |- _ => discriminate H
  | H : modify _ _ = (_, Ok _) |- _ => unfold modify in H; simplify_eq
  | H : (let '(_, _) := ?x in _) _ = (_, Ok _) |- _ => destruct x
  end.

Lemma bind_lift {S E A B} (r : result E A) (f : A -> M S E B) s a :
  r = Ok a -> (lift r ≫= f) s = f a s.
Proof. by intros ->. Qed.
Lemma bind_gets {S E A B} (g : S -> A) (f : A -> M S E B) s : (gets g ≫= f) s = f (g s) s.
Proof. done. Qed.
Lemma bind_ret {S E A B} (a : A) (f : A -> M S E B) s : (mret a ≫= f) s = f a s.
Proof. done. Qed.
Lemma bind_modify {S E B} (g : S -> S) (f : unit -> M S E B) s :
  (modify g ≫= f) s = f tt (g s).
Proof. done. Qed.
Lemma bind_refuse {S E B} b (e : E) (f : unit -> M S E B) s :
  b = false -> (refuse_if b e ≫= f) s = f tt s.
Proof. by intros ->. Qed.
Lemma bind_assoc {S E A B C} (m : M S E A) (f : A -> M S E B) (g : B -> M S E C) s :
  ((m ≫= f) ≫= g) s = (m ≫= (fun a => f a ≫= g)) s.
Proof. unfold mbind, M_bind. by destruct (m s) as [s1 [a|e]]. Qed.

(** ** Relations kept by a computation *)

(** Inverts a computation that only returns. *)
Ltac ret_inv H := unfold mret, M_ret in H; simplify_eq.

(** Whatever [m] returns, the state it leaves is related to the one it
    started from. *)
Definition keeps {S E A} (R : relation S) (m : M S E A) : Prop := forall s, R s (m s).1.

Section keeps.
Context {S E : Type} (R : relation S) `{!PreOrder R}.

Lemma keeps_reads {A} (m : M S E A) : reads m -> keeps R m.
Proof. intros Hm s. by rewrite Hm. Qed.
Lemma keeps_modify (f : S -> S) : (forall s, R s (f s)) -> keeps (E := E) R (modify f).
Proof. intros Hf s. apply Hf. Qed.
Lemma keeps_bind {A B} (m : M S E A) (f : A -> M S E B) :
  keeps R m -> (forall a, keeps R (f a)) -> keeps R (m ≫= f).
Proof.
  intros Hm Hf s. specialize (Hm s). unfold mbind, M_bind.
  destruct (m s) as [s1 [a|e]]; simpl in *; [| done]. etrans; [exact Hm | apply Hf].
Qed.
Lemma keeps_for_each {A} (f : A -> M S E unit) l :
  (forall x, keeps R (f x)) -> keeps R (for_each f l).
Proof.
  intros Hf. induction l as [|x l IH]; [by apply keeps_reads |].
  apply keeps_bind; [apply Hf | by intros _].
Qed.
End keeps.

#[export] Hint Extern 1 (reads (gets _)) => apply reads_gets : staging.

Lemma filter_all {A} (P : A -> Prop) `{!forall x, Decision (P x)} l :
  Forall P l -> filter P l = l.
Proof. induction 1; [done |]. rewrite filter_cons_True by done. by f_equal. Qed.
Lemma filter_none {A} (P : A -> Prop) `{!forall x, Decision (P x)} l :
  Forall (fun x => ~ P x) l -> filter P l = [].
Proof. induction 1; [done |]. by rewrite filter_cons_False. Qed.

Lemma for_each_ext {S E A} (f g : A -> M S E unit) l s :
  (forall x s, f x s = g x s) -> for_each f l s = for_each g l s.
Proof.
  intros Hfg. revert s. induction l as [|x l IH]; intros s; [done |]. simpl.
  unfold mbind, M_bind. rewrite Hfg. destruct (g x s) as [s1 [u|e]]; [apply IH | done].
Qed.

(** [for_each] preserves an invariant that each step preserves. *)
Lemma for_each_inv {S E A} (P : S -> Prop) (f : A -> M S E unit) l s s' u :
  (forall x s s' u, x ∈ l -> P s -> f x s = (s', Ok u) -> P s') ->
  P s -> for_each f l s = (s', Ok u) -> P s'.
Proof.
  revert s. induction l as [|x l IH]; intros s Hf Hs H; simpl in H.
  - unfold mret, M_ret in H. by simplify_eq.
  - apply bind_Ok_inv in H as (s1 & [] & H1 & H2). apply (IH s1); [| | exact H2].
    + intros y ? ? ? Hy. apply Hf. by right.
    + eapply Hf; [left | exact Hs | exact H1].
Qed.

(** ** Checked arithmetic *)

Lemma in_range_spec t z : in_range t z = true <-> int_min t <= z <= int_max t.
Proof. unfold in_range. rewrite andb_true_iff, !Z.leb_le. done. Qed.

Lemma checked_Some t z r : checked t z = Some r <-> r = z /\ int_min t <= z <= int_max t.
Proof.
  unfold checked. destruct (in_range t z) eqn:H.
  - apply in_range_spec in H. naive_solver.
  - split; [done |]. intros [_ Hr%in_range_spec]. congruence.
Qed.

Lemma checked_in t z : int_min t <= z <= int_max t -> checked t z = Some z.
Proof. intros H. by apply checked_Some. Qed.

Lemma checked_None t z : checked t z = None <-> z < int_min t \/ int_max t < z.
Proof.
  unfold checked. destruct (in_range t z) eqn:H.
  - apply in_range_spec in H. split; [done | lia].
  - split; [| done]. intros _. destruct (decide (int_min t <= z <= int_max t)) as [Hr|Hr].
    + apply in_range_spec in Hr. congruence.
    + lia.
Qed.

Lemma checked_div_Some t a b r :
  checked_div t a b = Some r -> b <> 0 /\ r = Z.quot a b.
Proof.
  unfold checked_div. destruct (Z.eqb_spec b 0); [done |].
  intros [-> _]%checked_Some. done.
Qed.

Lemma ok_or_Ok {E A} (o : option A) (e : E) a : ok_or o e = Ok a <-> o = Some a.
Proof. destruct o; naive_solver. Qed.

Lemma map_err_Ok {E F A} (f : E -> F) (r : result E A) a :
  map_err f r = Ok a <-> r = Ok a.
Proof. destruct r; naive_solver. Qed.

Lemma result_bind_Ok {E A B} (r : result E A) (f : A -> result E B) b :
  (r ≫= f) = Ok b <-> exists a, r = Ok a /\ f a = Ok b.
Proof. destruct r; unfold mbind, result_bind; naive_solver. Qed.

Lemma if_err_Ok {E A} (c : bool) (e : E) (x y : A) :
  (if c then Err e else Ok x) = Ok y -> c = false /\ y = x.
Proof. destruct c; naive_solver. Qed.

Lemma wrap_range t z : int_min t = 0 -> int_min t <= wrap t z <= int_max t.
Proof.
  intros H0. unfold wrap. rewrite H0.
  assert (0 < int_max t + 1) by (destruct t; unfold int_min, int_max in *; lia).
  pose proof (Z.mod_pos_bound z (int_max t + 1)). lia.
Qed.

(** [chk] exposes every checked operation in the context as an equation
    with its range. *)
Ltac chk :=
  repeat match goal with
  | H : ok_or _ _ = Ok _ |- _ => apply ok_or_Ok in H
  | H : map_err _ _ = Ok _ |- _ => apply map_err_Ok in H
  | H : @mbind (result _) _ _ _ _ _ = Ok _ |- _ => apply result_bind_Ok in H as (? & ? & ?)
  | H : @mbind option _ _ _ _ _ = Some _ |- _ => apply bind_Some in H as (? & ? & ?)
  | H : checked_add _ _ _ = Some _ |- _ => unfold checked_add in H
  | H : checked_sub _ _ _ = Some _ |- _ => unfold checked_sub in H
  | H : checked_mul _ _ _ = Some _ |- _ => unfold checked_mul in H
  | H : checked_neg _ _ = Some _ |- _ => unfold checked_neg in H
  | H : checked_div _ _ _ = Some _ |- _ => apply checked_div_Some in H as [? ->]
  | H : checked _ _ = Some _ |- _ => apply checked_Some in H as [-> ?]
  | H : Ok _ = Ok _ |- _ => injection H as H
  end.

(** Boolean guards of the source as propositions. *)
Ltac guards :=
  repeat match goal with
  | H : (_ || _) = false |- _ => apply orb_false_iff in H as [? ?]
  | H : (_ && _) = true |- _ => apply andb_true_iff in H as [? ?]
  | H : negb _ = false |- _ => apply negb_false_iff in H
  | H : negb _ = true |- _ => apply negb_true_iff in H
  | H : (_ <=? _) = false |- _ => apply Z.leb_gt in H
  | H : (_ <? _) = false |- _ => apply Z.ltb_ge in H
  | H : (_ <=? _) = true |- _ => apply Z.leb_le in H
  | H : (_ <? _) = true |- _ => apply Z.ltb_lt in H
  | H : (_ =? _) = true |- _ => apply Z.eqb_eq in H
  | H : (_ =? _) = false |- _ => apply Z.eqb_neq in H
  end.

(** ** Sums over finite maps *)

Section map_sum.
Context {K V : Type} `{Countable K}.

Definition map_sum (f : K -> V -> Z) (m : gmap K V) : Z :=
  map_fold (fun k v acc => f k v + acc) 0 m.

Lemma map_sum_empty f : map_sum f ∅ = 0.
Proof. apply map_fold_empty. Qed.

Lemma map_sum_insert f m k v :
  m !! k = None -> map_sum f (<[k := v]> m) = f k v + map_sum f m.
Proof. intros Hk. unfold map_sum.
  apply (map_fold_insert_L (fun k v acc => f k v + acc)); [intros; lia | done].
Qed.

Lemma map_sum_delete f m k v :
  m !! k = Some v -> map_sum f (delete k m) = map_sum f m - f k v.
Proof.
  intros Hk. rewrite <- (insert_delete_id m k v Hk) at 2.
  rewrite map_sum_insert by apply lookup_delete_eq. lia.
Qed.

(** The value of [f] at [k], zero when the key is absent. *)
Definition at_key (f : K -> V -> Z) (m : gmap K V) (k : K) : Z :=
  match m !! k with Some v => f k v | None => 0 end.

Lemma map_sum_delete_at f m k : map_sum f (delete k m) = map_sum f m - at_key f m k.
Proof.
  unfold at_key. destruct (m !! k) as [v|] eqn:Hk.
  - by apply map_sum_delete.
  - rewrite delete_id by done. lia.
Qed.

Lemma map_sum_insert_any f m k v :
  map_sum f (<[k := v]> m) = map_sum f m - at_key f m k + f k v.
Proof.
  rewrite <- insert_delete_eq, map_sum_insert by apply lookup_delete_eq.
  rewrite map_sum_delete_at. lia.
Qed.

Lemma map_sum_ext f g m :
  (forall k v, m !! k = Some v -> f k v = g k v) -> map_sum f m = map_sum g m.
Proof.
  induction m as [|k v m Hk IH] using map_ind; intros Hfg; [done |].
  rewrite !map_sum_insert by done.
  rewrite (Hfg k v) by apply lookup_insert_eq. f_equal. apply IH.
  intros k' v' Hk'. apply Hfg. rewrite lookup_insert_ne; [done | congruence].
Qed.

Lemma map_sum_nonneg f m :
  (forall k v, m !! k = Some v -> 0 <= f k v) -> 0 <= map_sum f m.
Proof.
  induction m as [|k v m Hk IH] using map_ind; intros Hf; [done |].
  rewrite map_sum_insert by done.
  pose proof (Hf k v (lookup_insert_eq _ _ _)).
  enough (0 <= map_sum f m) by lia. apply IH.
  intros k' v' Hk'. apply (Hf k'). rewrite lookup_insert_ne; [done | congruence].
Qed.

Lemma map_sum_le_elem f m k v :
  (forall k' v', m !! k' = Some v' -> 0 <= f k' v') -> m !! k = Some v ->
  f k v <= map_sum f m.
Proof.
  intros Hf Hk. pose proof (map_sum_delete f m k v Hk).
  enough (0 <= map_sum f (delete k m)) by lia. apply map_sum_nonneg.
  intros k' v' [_ ?]%lookup_delete_Some. eauto.
Qed.

Lemma map_sum_zero f m :
  (forall k v, m !! k = Some v -> f k v = 0) -> map_sum f m = 0.
Proof.
  intros Hf. rewrite (map_sum_ext f (fun _ _ => 0)) by done.
  induction m as [|k v m Hk IH] using map_ind; [done |].
  rewrite map_sum_insert by done. rewrite IH; [done |].
  intros k' v' Hk'. apply (Hf k'). rewrite lookup_insert_ne; [done | congruence].
Qed.

Lemma map_sum_subseteq f m1 m2 :
  (forall k v, m2 !! k = Some v -> 0 <= f k v) -> m1 ⊆ m2 -> map_sum f m1 <= map_sum f m2.
Proof.
  revert m2. induction m1 as [|k v m1 Hk IH] using map_ind; intros m2 Hf Hsub.
  - rewrite map_sum_empty. by apply map_sum_nonneg.
  - rewrite map_sum_insert by done.
    assert (m2 !! k = Some v) as Hk2
      by (eapply lookup_weaken; [apply lookup_insert_eq | exact Hsub]).
    pose proof (map_sum_delete f m2 k v Hk2) as Hd.
    enough (map_sum f m1 <= map_sum f (delete k m2)) by lia. apply IH.
    + intros k' v' [_ ?]%lookup_delete_Some. eauto.
    + apply map_subseteq_spec. intros k' v' Hk'. apply lookup_delete_Some.
      split; [congruence |]. eapply lookup_weaken; [| exact Hsub].
      rewrite lookup_insert_ne; [done | congruence].
Qed.

Lemma map_sum_add f g m :
  map_sum (fun k v => f k v + g k v) m = map_sum f m + map_sum g m.
Proof.
  induction m as [|k v m Hk IH] using map_ind; [done |].
  rewrite !map_sum_insert, IH by done. lia.
Qed.

End map_sum.

Arguments at_key : simpl never.

(** ** Sums over lists *)

Definition sumZ (l : list Z) : Z := foldr Z.add 0 l.

Lemma sumZ_cons x l : sumZ (x :: l) = x + sumZ l.
Proof. done. Qed.

Lemma sumZ_app l1 l2 : sumZ (l1 ++ l2) = sumZ l1 + sumZ l2.
Proof. induction l1; simpl; lia. Qed.

Lemma sumZ_perm l1 l2 : l1 ≡ₚ l2 -> sumZ l1 = sumZ l2.
Proof. induction 1; simpl; lia. Qed.

#[export] Instance sumZ_proper : Proper ((≡ₚ) ==> eq) sumZ.
Proof. intros l1 l2. apply sumZ_perm. Qed.

Lemma map_sum_size {K V} `{Countable K} (m : gmap K V) : map_sum (fun _ _ => 1) m = Z.of_nat (size m).
Proof.
  induction m as [|k v m Hk IH] using map_ind; [done |].
  rewrite map_sum_insert, map_size_insert_None, IH by done. lia.
Qed.

(** Summing over two maps in either order. *)
Lemma map_sum_swap {K V K' V'} `{Countable K} `{Countable K'} (f : K -> V -> K' -> V' -> Z)
    (m : gmap K V) (m' : gmap K' V') :
  map_sum (fun k v => map_sum (f k v) m') m = map_sum (fun k' v' => map_sum (fun k v => f k v k' v') m) m'.
Proof.
  induction m as [|k v m Hk IH] using map_ind.
  - rewrite map_sum_empty, map_sum_zero; [done |]. intros k' v' _. apply map_sum_empty.
  - rewrite map_sum_insert, IH, <- map_sum_add by done. apply map_sum_ext. intros k' v' _.
    by rewrite map_sum_insert.
Qed.

(** Counting the entries that satisfy a predicate. *)
Lemma map_sum_count {K V} `{Countable K} (P : K * V -> Prop) `{forall x, Decision (P x)} (m : gmap K V) :
  map_sum (fun k v => if bool_decide (P (k, v)) then 1 else 0) m = Z.of_nat (size (filter P m)).
Proof.
  induction m as [|k v m Hk IH] using map_ind; [done |].
  rewrite map_sum_insert, IH, map_filter_insert by done. rewrite bool_decide_decide.
  destruct (decide (P (k, v))).
  - rewrite map_size_insert_None; [lia |]. apply map_lookup_filter_None. by left.
  - by rewrite delete_id by done.
Qed.

Lemma map_sum_list {K V} `{Countable K} (f : K -> V -> Z) (m : gmap K V) :
  map_sum f m = sumZ ((fun kv => f kv.1 kv.2) <$> map_to_list m).
Proof.
  unfold map_sum. rewrite map_fold_foldr. induction (map_to_list m) as [|[k v] l IH]; [done |].
  simpl. by rewrite IH.
Qed.

(** ** Strictly sorted lists *)

Section strict_sorted.
Context {A : Type} (R : relation A) `{!Irreflexive R} `{!Transitive R}.

Lemma strict_sorted_NoDup l : StronglySorted R l -> NoDup l.
Proof.
  induction 1 as [|x l Hs IH Hall]; constructor; [| done].
  rewrite Forall_forall in Hall. intros Hin%Hall. by apply (irreflexivity R x).
Qed.

(** A strictly sorted list is determined by its elements. *)
Lemma strict_sorted_ext l1 l2 :
  StronglySorted R l1 -> StronglySorted R l2 -> (forall x, x ∈ l1 <-> x ∈ l2) -> l1 = l2.
Proof.
  intros H1. revert l2. induction H1 as [|x l1 Hs1 IH Hall1]; intros l2 H2 Hmem.
  - destruct l2 as [|y l2]; [done |]. specialize (Hmem y). set_solver.
  - destruct l2 as [|y l2]; [specialize (Hmem x); set_solver |].
    apply StronglySorted_inv in H2 as [Hs2 Hall2]. rewrite Forall_forall in Hall1, Hall2.
    assert (x = y) as ->.
    { assert (x ∈ y :: l2) as [->|Hx]%elem_of_cons by (apply Hmem; left); [done |].
      assert (y ∈ x :: l1) as [->|Hy]%elem_of_cons by (apply Hmem; left); [done |].
      exfalso. apply (irreflexivity R x). trans y; auto. }
    f_equal. apply IH; [done |]. intros z. split; intros Hz.
    + assert (z ∈ y :: l2) as [->|]%elem_of_cons by (apply Hmem; by right); [| done].
      apply Hall1 in Hz. by apply irreflexivity in Hz.
    + assert (z ∈ y :: l1) as [->|]%elem_of_cons by (apply Hmem; by right); [| done].
      apply Hall2 in Hz. by apply irreflexivity in Hz.
Qed.

End strict_sorted.

Lemma strongly_sorted_reverse {A} (R : relation A) l :
  StronglySorted R l -> StronglySorted (flip R) (reverse l).
Proof.
  induction 1 as [|x l Hs IH Hall]; [constructor |]. rewrite reverse_cons.
  apply StronglySorted_app. split_and!; [| done | repeat constructor].
  intros y z Hy ->%list_elem_of_singleton. rewrite elem_of_reverse in Hy.
  rewrite Forall_forall in Hall. by apply Hall.
Qed.
