(* ===== verification/Ordered.v ===== *)
(** * Ordered containers

    Rust's [BTreeMap<K, V>] and [BTreeSet<K>] iterate in key order.  The
    model stores a map as a stdpp [gmap] (so that maps with the same
    contents are equal) and recovers the iteration order by sorting the
    entries with the key type's order, given by an instance of [RustOrd]
    (the source's [Ord] trait). *)

From S2P Require Import Prelude.

(** The [Ord] trait: a decidable total order. *)
Class RustOrd (K : Type) : Type := {
  ord_le : relation K;
  ord_le_dec :: RelDecision ord_le;
  ord_le_trans :: Transitive ord_le;
  ord_le_antisymm :: AntiSymm (=) ord_le;
  ord_le_total :: Total ord_le
}.

Definition ord_lt {K} `{RustOrd K} (a b : K) : Prop := ord_le a b /\ a <> b.

Lemma ord_le_refl {K} `{RustOrd K} (a : K) : ord_le a a.
Proof. by destruct (total ord_le a a). Qed.

Lemma ord_not_le {K} `{RustOrd K} (a b : K) : ~ ord_le a b -> ord_lt b a.
Proof.
  intros Hn. destruct (total ord_le a b) as [|Hba]; [done |].
  split; [done |]. intros ->. by apply Hn.
Qed.

Lemma ord_lt_le_trans {K} `{RustOrd K} (a b c : K) : ord_lt a b -> ord_le b c -> ord_lt a c.
Proof.
  intros [Hab Hne] Hbc. split; [by trans b |]. intros ->.
  apply Hne. by apply (anti_symm ord_le).
Qed.

(** Integers and identifiers. *)
#[export] Instance Z_RustOrd : RustOrd Z := {| ord_le := Z.le |}.

(** Tuples compare lexicographically. *)
Definition lex_le {A B} `{RustOrd A} `{RustOrd B} (x y : A * B) : Prop :=
  ord_lt x.1 y.1 \/ (x.1 = y.1 /\ ord_le x.2 y.2).

#[export] Instance lex_le_dec {A B} `{EqDecision A} `{RustOrd A} `{RustOrd B} :
  RelDecision (lex_le (A := A) (B := B)).
Proof. intros x y. unfold lex_le, ord_lt. apply _. Defined.

#[export] Instance prod_RustOrd {A B} `{EqDecision A} `{RustOrd A} `{RustOrd B} :
  RustOrd (A * B).
Proof.
  refine {| ord_le := lex_le; ord_le_dec := lex_le_dec |}.
  - intros [a1 b1] [a2 b2] [a3 b3] [H1|[H1 H1']] [H2|[H2 H2']]; simpl in *; subst.
    + left. simpl. eapply ord_lt_le_trans; [done |]. apply H2.
    + by left.
    + by left.
    + right. split; [done |]. by trans b2.
  - intros [a1 b1] [a2 b2] [[H1 Hn]|[H1 H1']] [[H2 Hn2]|[H2 H2']]; simpl in *; subst;
      try done.
    + destruct Hn. by apply (anti_symm ord_le).
    + f_equal. by apply (anti_symm ord_le).
  - intros [a1 b1] [a2 b2]. unfold lex_le. simpl.
    destruct (decide (a1 = a2)) as [->|Hne].
    + destruct (total ord_le b1 b2); auto.
    + destruct (total ord_le a1 a2); [left | right]; left; split; done.
Defined.

(** [Iterator::take_while] *)
Fixpoint take_while {A} (f : A -> bool) (l : list A) : list A :=
  match l with
  | [] => []
  | x :: l => if f x then x :: take_while f l else []
  end.

(** ** Entries in key order *)

Section entries.
Context {K V : Type} `{Countable K} `{!RustOrd K}.
Implicit Types m : gmap K V.

Definition entry_le (a b : K * V) : Prop := ord_le a.1 b.1.

#[local] Instance entry_le_dec : RelDecision entry_le.
Proof. intros a b. unfold entry_le. apply _. Defined.
#[local] Instance entry_le_trans : Transitive entry_le.
Proof. intros a b c. unfold entry_le. apply transitivity. Qed.
#[local] Instance entry_le_total : Total entry_le.
Proof. intros a b. apply (total ord_le). Qed.

(** [map.iter()] *)
Definition entries (m : gmap K V) : list (K * V) := merge_sort entry_le (map_to_list m).
(** [map.keys()] *)
Definition keys (m : gmap K V) : list K := (entries m).*1.
(** [map.values()] *)
Definition values (m : gmap K V) : list V := (entries m).*2.
(** [map.iter().next()] and [map.iter().next_back()] *)
Definition first_entry (m : gmap K V) : option (K * V) := head (entries m).
Definition last_entry (m : gmap K V) : option (K * V) := last (entries m).

Lemma entries_perm m : entries m ≡ₚ map_to_list m.
Proof. apply merge_sort_Permutation. Qed.

Lemma elem_of_entries m k v : (k, v) ∈ entries m <-> m !! k = Some v.
Proof. by rewrite entries_perm, elem_of_map_to_list. Qed.

Lemma elem_of_keys m k : k ∈ keys m <-> is_Some (m !! k).
Proof.
  unfold keys. rewrite list_elem_of_fmap. split.
  - intros ([k' v] & -> & Hv%elem_of_entries). simpl. eauto.
  - intros [v Hv]. exists (k, v). by rewrite elem_of_entries.
Qed.

Lemma elem_of_values m v : v ∈ values m <-> exists k, m !! k = Some v.
Proof.
  unfold values. rewrite list_elem_of_fmap. split.
  - intros ([k v'] & -> & Hv%elem_of_entries). simpl. eauto.
  - intros [k Hv]. exists (k, v). by rewrite elem_of_entries.
Qed.

Lemma NoDup_keys m : NoDup (keys m).
Proof. unfold keys. rewrite entries_perm. apply NoDup_fst_map_to_list. Qed.

Lemma entries_sorted m : StronglySorted entry_le (entries m).
Proof. apply StronglySorted_merge_sort; apply _. Qed.

Lemma keys_sorted m : StronglySorted ord_lt (keys m).
Proof.
  pose proof (NoDup_keys m) as Hnd. pose proof (entries_sorted m) as Hs. unfold keys in *.
  induction Hs as [|[k v] l Hs IH Hall]; simpl in *; [constructor |].
  apply NoDup_cons in Hnd as [Hk Hnd]. constructor; [auto |].
  apply Forall_fmap. eapply Forall_impl; [apply Forall_and; split; [exact Hall |] |].
  - apply Forall_forall. intros x Hx. exact Hx.
  - intros [k' v'] [Hle Hin]. split; [exact Hle |]. simpl. intros ->.
    apply Hk. apply list_elem_of_fmap. by exists (k', v').
Qed.

Lemma entries_empty : entries (∅ : gmap K V) = [].
Proof. unfold entries. by rewrite map_to_list_empty. Qed.

Lemma entries_nil m : entries m = [] <-> m = ∅.
Proof.
  split; [| intros ->; apply entries_empty].
  intros Hm. apply map_empty. intros k. destruct (m !! k) as [v|] eqn:Hk; [| done].
  apply elem_of_entries in Hk. rewrite Hm in Hk. by apply elem_of_nil in Hk.
Qed.

Lemma first_entry_Some m k v :
  first_entry m = Some (k, v) <->
  m !! k = Some v /\ forall k', is_Some (m !! k') -> ord_le k k'.
Proof.
  unfold first_entry. pose proof (entries_sorted m) as Hs. split.
  - intros Hh. destruct (entries m) as [|[k0 v0] l] eqn:He; [done |].
    simpl in Hh. simplify_eq. split.
    + apply elem_of_entries. rewrite He. left.
    + intros k' [v' Hk']. apply elem_of_entries in Hk'. rewrite He in Hk'.
      apply elem_of_cons in Hk' as [[= -> ->]|Hin]; [apply ord_le_refl |].
      apply StronglySorted_inv in Hs as [_ Hall]. rewrite Forall_forall in Hall.
      apply (Hall _ Hin).
  - intros [Hk Hmin]. destruct (entries m) as [|[k0 v0] l] eqn:He.
    + apply entries_nil in He. subst. by rewrite lookup_empty in Hk.
    + simpl. apply elem_of_entries in Hk as Hin. rewrite He in Hin.
      apply elem_of_cons in Hin as [->|Hin]; [done |].
      assert (Hk0 : m !! k0 = Some v0) by (apply elem_of_entries; rewrite He; left).
      apply StronglySorted_inv in Hs as [_ Hall]. rewrite Forall_forall in Hall.
      specialize (Hall _ Hin). unfold entry_le in Hall. simpl in Hall.
      assert (k0 = k) as -> by (apply (anti_symm ord_le); [done | apply Hmin; eauto]).
      congruence.
Qed.

Lemma first_entry_None m : first_entry m = None <-> m = ∅.
Proof.
  rewrite <- entries_nil. unfold first_entry. destruct (entries m); naive_solver.
Qed.

Lemma last_entry_Some m k v :
  last_entry m = Some (k, v) <->
  m !! k = Some v /\ forall k', is_Some (m !! k') -> ord_le k' k.
Proof.
  unfold last_entry. pose proof (entries_sorted m) as Hs. split.
  - intros Hl. apply last_Some in Hl as [l Hl]. split.
    + apply elem_of_entries. rewrite Hl. set_solver.
    + intros k' [v' Hk']. apply elem_of_entries in Hk'. rewrite Hl in *.
      apply elem_of_app in Hk' as [Hin|[= -> ->]%list_elem_of_singleton];
        [| apply ord_le_refl].
      apply (StronglySorted_app_1_elem_of entry_le l [(k, v)] (k', v') (k, v) Hs); set_solver.
  - intros [Hk Hmax]. destruct (last (entries m)) as [[k0 v0]|] eqn:He.
    + apply last_Some in He as [l He].
      assert (Hk0 : m !! k0 = Some v0) by (apply elem_of_entries; rewrite He; set_solver).
      apply elem_of_entries in Hk as Hin. rewrite He in Hin, Hs.
      apply elem_of_app in Hin as [Hin|Hin]; [| by apply list_elem_of_singleton in Hin as ->].
      assert (ord_le k k0) as Hle
        by (apply (StronglySorted_app_1_elem_of entry_le l [(k0, v0)] (k, v) (k0, v0) Hs);
            set_solver).
      assert (k0 = k) as -> by (apply (anti_symm ord_le); [apply Hmax; eauto | done]).
      congruence.
    + apply last_None in He. apply entries_nil in He. subst. by rewrite lookup_empty in Hk.
Qed.

Lemma last_entry_None m : last_entry m = None <-> m = ∅.
Proof. rewrite <- entries_nil. apply last_None. Qed.

(** A strictly sorted list with the map's contents is its iteration. *)
Lemma entries_unique m l :
  StronglySorted ord_lt l.*1 -> (forall k v, (k, v) ∈ l <-> m !! k = Some v) -> entries m = l.
Proof.
  intros Hl Hm.
  assert (Hnd : NoDup l.*1).
  { clear Hm. induction Hl as [|k ks Hl IH Hall]; constructor; [| done].
    rewrite Forall_forall in Hall. intros Hin. by destruct (Hall _ Hin). }
  assert (m = list_to_map l) as ->.
  { apply map_eq. intros k. destruct (list_to_map (M := gmap K V) l !! k) as [v|] eqn:Hk.
    - apply Hm. by apply elem_of_list_to_map_2.
    - destruct (m !! k) as [v|] eqn:Hv; [| done].
      apply Hm in Hv. apply elem_of_list_to_map_1 in Hv; [congruence | done]. }
  assert (Hperm : entries (list_to_map (M := gmap K V) l) ≡ₚ l)
    by (rewrite entries_perm; by apply map_to_list_to_map).
  pose proof (entries_sorted (list_to_map (M := gmap K V) l)) as Hs.
  apply (StronglySorted_unique_strong entry_le); [| done | | done].
  - intros [k v] [k' v'] Hin Hin' Hle Hle'.
    rewrite Hperm in Hin.
    assert (k = k') as <- by (by apply (anti_symm ord_le)).
    apply elem_of_list_to_map_1 in Hin; [| done].
    apply elem_of_list_to_map_1 in Hin'; [congruence | done].
  - clear -Hl. induction l as [|[k v] l IH]; [constructor |].
    simpl in Hl. apply StronglySorted_inv in Hl as [Hl Hall]. constructor; [auto |].
    apply Forall_forall. intros [k' v'] Hin.
    apply (proj1 (Forall_forall _ _) Hall k').
    apply list_elem_of_fmap. by exists (k', v').
Qed.

Lemma sum_entries (f : K -> V -> Z) m :
  sumZ ((fun kv => f kv.1 kv.2) <$> entries m) = map_sum f m.
Proof. rewrite map_sum_list. apply sumZ_perm. by rewrite entries_perm. Qed.

Lemma entries_length m : length (entries m) = size m.
Proof. rewrite entries_perm. apply length_map_to_list. Qed.

End entries.

Lemma entries_fmap {A B} (f : A -> B) (m : gmap Z A) : entries (f <$> m) = (fun e => (e.1, f e.2)) <$> entries m.
Proof.
  apply entries_unique.
  - rewrite <- list_fmap_compose. change (fst ∘ _) with (fst (A := Z) (B := A)). apply keys_sorted.
  - intros k v. rewrite list_elem_of_fmap, lookup_fmap, fmap_Some. split.
    + intros ([k' x] & [= -> ->] & Hin%elem_of_entries). by exists x.
    + intros (x & Hx & ->). exists (k, x). split; [done |]. by apply elem_of_entries.
Qed.
(** The keys of a map are strictly ordered, as binary search needs them. *)
Lemma keys_increasing {V} (m : gmap Z V) : StronglySorted Z.lt (keys m).
Proof.
  induction (keys_sorted m) as [|k ks _ IH Hall]; constructor; [done |].
  eapply Forall_impl; [exact Hall |]. intros x [Hle Hne]. simpl in Hle. lia.
Qed.

(** ** Writing a staged map into another map

    [for (k, v) in staged { map.insert(f(k), v); }] *)

Section insert_all.
Context {K K' V : Type} `{Countable K} `{!RustOrd K} `{Countable K'}.
Context (f : K -> K') `{!Inj (=) (=) f}.

Definition insert_all (staged : gmap K V) (m : gmap K' V) : gmap K' V :=
  foldl (fun m kv => <[f kv.1 := kv.2]> m) m (entries staged).

Lemma foldl_insert_lookup (l : list (K * V)) (m : gmap K' V) k :
  NoDup l.*1 ->
  foldl (fun m kv => <[f kv.1 := kv.2]> m) m l !! f k =
  match list_to_map (M := gmap K V) l !! k with Some v => Some v | None => m !! f k end.
Proof.
  revert m. induction l as [|[k0 v0] l IH]; intros m Hnd; [done |].
  simpl in *. apply NoDup_cons in Hnd as [Hk0 Hnd]. rewrite IH by done.
  destruct (decide (k = k0)) as [->|Hne].
  - rewrite (not_elem_of_list_to_map_1 l k0) by done.
    by rewrite !lookup_insert_eq.
  - rewrite (lookup_insert_ne _ k0 k) by done.
    rewrite (lookup_insert_ne m) by (intros ->%(inj f); done). done.
Qed.

Lemma insert_all_lookup staged m k :
  insert_all staged m !! f k =
  match staged !! k with Some v => Some v | None => m !! f k end.
Proof.
  unfold insert_all. rewrite foldl_insert_lookup by apply NoDup_keys.
  assert (list_to_map (M := gmap K V) (entries staged) = staged) as ->; [| done].
  rewrite <- (list_to_map_to_list staged) at 2.
  apply list_to_map_proper; [apply NoDup_keys | apply entries_perm].
Qed.

Lemma insert_all_lookup_other staged m k' :
  (forall k, f k <> k') -> insert_all staged m !! k' = m !! k'.
Proof.
  intros Hk. unfold insert_all. generalize (entries staged) as l. intros l. revert m.
  induction l as [|[k0 v0] l IH]; intros m; [done |].
  simpl. rewrite IH. by rewrite lookup_insert_ne.
Qed.

End insert_all.

(** ** Sorting and removing duplicates *)

(** [Vec::sort_unstable] followed by [Vec::dedup] on identifiers. *)
Fixpoint dedup (l : list Z) : list Z :=
  match l with
  | [] => []
  | x :: l' =>
      match l' with
      | [] => [x]
      | y :: _ => if x =? y then dedup l' else x :: dedup l'
      end
  end.

Definition sort_dedup (l : list Z) : list Z := dedup (merge_sort Z.le l).

Lemma dedup_cons y z l :
  dedup (y :: z :: l) = if y =? z then dedup (z :: l) else y :: dedup (z :: l).
Proof. done. Qed.

Lemma elem_of_dedup l x : x ∈ dedup l <-> x ∈ l.
Proof.
  induction l as [|y [|z l] IH]; [done.. |].
  rewrite dedup_cons. destruct (Z.eqb_spec y z) as [->|Hne].
  - rewrite IH, !elem_of_cons. naive_solver.
  - by rewrite (elem_of_cons _ x y), IH, <- elem_of_cons.
Qed.

Lemma dedup_sorted l : StronglySorted Z.le l -> StronglySorted Z.lt (dedup l).
Proof.
  induction 1 as [|y l Hs IH Hall]; [constructor |].
  destruct l as [|z l]; [repeat constructor |].
  rewrite dedup_cons. destruct (Z.eqb_spec y z) as [->|Hne]; [done |].
  constructor; [done |]. apply Forall_forall. intros x Hx. rewrite elem_of_dedup in Hx.
  apply StronglySorted_inv in Hs as [_ Hz]. rewrite Forall_forall in Hall, Hz.
  pose proof (Hall z (list_elem_of_here _ _)).
  apply elem_of_cons in Hx as [->|Hx]; [lia |]. specialize (Hz _ Hx). lia.
Qed.

Lemma elem_of_sort_dedup l x : x ∈ sort_dedup l <-> x ∈ l.
Proof. unfold sort_dedup. by rewrite elem_of_dedup, merge_sort_Permutation. Qed.

Lemma sort_dedup_sorted l : StronglySorted Z.lt (sort_dedup l).
Proof. apply dedup_sorted, StronglySorted_merge_sort; [intros x y z; lia | intros x y; lia]. Qed.

Lemma NoDup_sort_dedup l : NoDup (sort_dedup l).
Proof.
  induction (sort_dedup_sorted l) as [|x xs Hs IH Hall]; constructor; [| done].
  rewrite Forall_forall in Hall. intros Hin%Hall. lia.
Qed.


(** ** Binary search

    [slice::binary_search_by_key]: the standard library's bisection, which
    narrows [[base, base + size)] to one element and compares it. *)

Section binary_search.
Context {A : Type} (key : A -> Z).

Fixpoint bisect (fuel : nat) (l : list A) (k : Z) (base size : nat) : nat :=
  match fuel with
  | O => base
  | S fuel =>
      if (size <=? 1)%nat then base
      else
        let half := (size / 2)%nat in
        let mid := (base + half)%nat in
        let base :=
          match l !! mid with
          | Some x => if k <? key x then base else mid
          | None => base
          end in
        bisect fuel l k base (size - half)%nat
  end.

Definition binary_search_by_key (l : list A) (k : Z) : option nat :=
  let i := bisect (length l) l k 0 (length l) in
  x ← l !! i;
  if key x =? k then Some i else None.

Definition strictly_keyed (l : list A) : Prop := StronglySorted Z.lt (key <$> l).

Lemma strictly_keyed_lt l i j x y :
  strictly_keyed l -> l !! i = Some x -> l !! j = Some y -> (i < j)%nat -> key x < key y.
Proof.
  unfold strictly_keyed. revert i j. induction l as [|z l IH]; intros i j Hs Hi Hj Hij; [done |].
  rewrite fmap_cons in Hs. apply StronglySorted_inv in Hs as [Hs Hall].
  destruct j as [|j]; [lia |]. destruct i as [|i]; simpl in *.
  - injection Hi as ->. rewrite Forall_forall in Hall. apply Hall.
    apply list_elem_of_fmap. exists y. split; [done |]. by eapply list_elem_of_lookup_2.
  - by apply (IH i j); [| | | lia].
Qed.

Lemma bisect_finds fuel l k base size j x :
  strictly_keyed l -> l !! j = Some x -> key x = k -> (base <= j < base + size)%nat ->
  (base + size <= length l)%nat -> (size <= fuel)%nat -> bisect fuel l k base size = j.
Proof.
  intros Hs Hj Hk. revert base size. induction fuel as [|fuel IH]; intros base size Hr Hl Hf; [lia |].
  cbn [bisect]. destruct (Nat.leb_spec size 1); [lia |].
  pose proof (Nat.div_lt size 2 ltac:(lia) ltac:(lia)).
  assert (1 <= size / 2)%nat by (apply Nat.div_le_lower_bound; lia).
  pose proof (Nat.mul_div_le size 2 ltac:(lia)).
  destruct (lookup_lt_is_Some_2 l (base + size / 2)) as [y Hy]; [lia |]. rewrite Hy.
  destruct (Z.ltb_spec k (key y)) as [Hlt|Hge].
  - apply IH; [| lia | lia]. split; [lia |].
    destruct (le_lt_dec (base + size / 2) j) as [Hle|]; [| lia].
    destruct (decide (base + size / 2 = j)%nat) as [Heq|Hne]; [rewrite Heq in Hy; simplify_eq; lia |].
    pose proof (strictly_keyed_lt l (base + size / 2) j y x Hs Hy Hj). lia.
  - apply IH; [| lia | lia]. split; [| lia].
    destruct (le_lt_dec (base + size / 2) j) as [Hle|Hlt']; [done |].
    pose proof (strictly_keyed_lt l j (base + size / 2) x y Hs Hj Hy Hlt'). lia.
Qed.

Lemma binary_search_Some l k i :
  strictly_keyed l ->
  binary_search_by_key l k = Some i <-> exists x, l !! i = Some x /\ key x = k.
Proof.
  intros Hs. unfold binary_search_by_key. split.
  - intros H. apply bind_Some in H as (x & Hx & H).
    destruct (Z.eqb_spec (key x) k); [| done]. injection H as <-. eauto.
  - intros (x & Hx & Hk). apply lookup_lt_Some in Hx as Hlt.
    rewrite (bisect_finds (length l) l k 0 (length l) i x) by (done || lia).
    rewrite Hx. simpl. by rewrite (proj2 (Z.eqb_eq _ _)).
Qed.

End binary_search.

(** Deleting a list of keys. *)
Lemma foldl_delete_lookup {V} (m : gmap Z V) ks k :
  foldl (fun j k => delete k j) m ks !! k = if decide (k ∈ ks) then None else m !! k.
Proof.
  revert m. induction ks as [|x ks IH]; intros m; [by rewrite decide_False by apply not_elem_of_nil |].
  cbn [foldl]. rewrite IH. destruct (decide (k ∈ ks)) as [Hin|Hni]; [by rewrite decide_True by (by right) |].
  destruct (decide (k = x)) as [->|Hne]; [rewrite decide_True by left; apply lookup_delete_eq |].
  rewrite decide_False by (by intros [|]%elem_of_cons). by apply lookup_delete_ne.
Qed.
