(* ===== verification/Decimal.v ===== *)
(** * Decimal text

    Rust's [Display] for unsigned integers and [str::parse::<uN>()], used
    by the listing-key text form and by FIX framing.  A string is the list
    of its bytes. *)

From S2P Require Import Prelude.
From Stdlib Require Import Ascii.

Definition ascii_code (c : ascii) : Z := Z.of_N (N_of_ascii c).
Definition digit_char (d : Z) : ascii := ascii_of_N (Z.to_N (48 + d)).

(** [n.to_string()]: forty digits are enough for every type up to [u128]
    (2^128 < 10^39). *)
Fixpoint digits_go (fuel : nat) (n : Z) (acc : list ascii) : list ascii :=
  match fuel with
  | O => acc
  | S fuel =>
      let acc' := digit_char (n mod 10) :: acc in
      if n <? 10 then acc' else digits_go fuel (n / 10) acc'
  end.

Definition display_uint (n : Z) : list ascii := digits_go 40 n [].

Definition char_digit (c : ascii) : option Z :=
  let d := ascii_code c - 48 in
  if (0 <=? d) && (d <=? 9) then Some d else None.

Fixpoint parse_go (t : int_ty) (acc : Z) (s : list ascii) : option Z :=
  match s with
  | [] => Some acc
  | c :: s' =>
      d ← char_digit c;
      m ← checked_mul t acc 10;
      acc' ← checked_add t m d;
      parse_go t acc' s'
  end.

(** [s.parse::<uN>()]: an optional leading [+], then at least one digit;
    [None] stands for any [ParseIntError]. *)
Definition parse_uint (t : int_ty) (s : list ascii) : option Z :=
  match s with
  | [] => None
  | c :: s' =>
      if bool_decide (c = "+"%char) then
        match s' with [] => None | _ => parse_go t 0 s' end
      else parse_go t 0 s
  end.

(** [s.split_once(c)]: the text before and after the first [c]. *)
Fixpoint split_once (c : ascii) (s : list ascii) : option (list ascii * list ascii) :=
  match s with
  | [] => None
  | c' :: s' =>
      if bool_decide (c' = c) then Some ([], s')
      else '(a, b) ← split_once c s'; Some (c' :: a, b)
  end.

(** ** Properties *)

Definition is_digit (c : ascii) : Prop := 48 <= ascii_code c <= 57.

Lemma ascii_code_digit d : 0 <= d <= 9 -> ascii_code (digit_char d) = 48 + d.
Proof.
  intros Hd. unfold ascii_code, digit_char. rewrite N_ascii_embedding by lia. lia.
Qed.

Lemma char_digit_char d : 0 <= d <= 9 -> char_digit (digit_char d) = Some d.
Proof.
  intros Hd. unfold char_digit. rewrite ascii_code_digit by done.
  replace (48 + d - 48) with d by lia.
  by rewrite (proj2 (Z.leb_le 0 d)), (proj2 (Z.leb_le d 9)) by lia.
Qed.

Lemma digits_go_digits fuel n acc :
  0 <= n -> Forall is_digit acc -> Forall is_digit (digits_go fuel n acc).
Proof.
  revert n acc. induction fuel as [|fuel IH]; intros n acc Hn Hacc; simpl; [done |].
  assert (Forall is_digit (digit_char (n mod 10) :: acc)).
  { constructor; [| done]. unfold is_digit.
    pose proof (Z.mod_pos_bound n 10). rewrite ascii_code_digit; lia. }
  destruct (n <? 10); [done |]. apply IH; [| done]. apply Z.div_pos; lia.
Qed.

Lemma display_uint_digits n : 0 <= n -> Forall is_digit (display_uint n).
Proof. intros Hn. by apply digits_go_digits. Qed.

Lemma digits_go_cons fuel n acc :
  exists c l, digits_go (S fuel) n acc = c :: l.
Proof.
  revert n acc. induction fuel as [|fuel IH]; intros n acc.
  - simpl. destruct (n <? 10); eauto.
  - change (digits_go (S (S fuel)) n acc) with
      (let acc' := digit_char (n mod 10) :: acc in
       if n <? 10 then acc' else digits_go (S fuel) (n / 10) acc').
    simpl. destruct (n <? 10); [eauto | apply IH].
Qed.

Lemma display_uint_nonempty n : display_uint n <> [].
Proof. destruct (digits_go_cons 39 n []) as (c & l & H). unfold display_uint. by rewrite H. Qed.

Lemma parse_go_digits t fuel n acc :
  int_min t <= 0 -> 0 <= n <= int_max t -> n < 10 ^ Z.of_nat (S fuel) ->
  parse_go t 0 (digits_go (S fuel) n acc) = parse_go t n acc.
Proof.
  intros Ht. revert n acc. induction fuel as [|fuel IH]; intros n acc Hn Hlt.
  - change (10 ^ Z.of_nat 1) with 10 in Hlt.
    cbn [digits_go]. rewrite (proj2 (Z.ltb_lt n 10)) by lia.
    cbn [parse_go]. rewrite Z.mod_small, char_digit_char by lia.
    simpl. unfold checked_mul, checked_add.
    rewrite (checked_in t (0 * 10)) by lia. simpl.
    by rewrite (checked_in t (0 * 10 + n)) by lia.
  - rewrite Nat2Z.inj_succ, Z.pow_succ_r in Hlt by lia.
    change (digits_go (S (S fuel)) n acc) with
      (if n <? 10 then digit_char (n mod 10) :: acc
       else digits_go (S fuel) (n / 10) (digit_char (n mod 10) :: acc)).
    pose proof (Z.div_mod n 10 ltac:(lia)) as Hdm.
    pose proof (Z.mod_pos_bound n 10 ltac:(lia)) as Hm.
    assert (Hstep : forall q, 0 <= q -> q * 10 + n mod 10 = n ->
      parse_go t q (digit_char (n mod 10) :: acc) = parse_go t n acc).
    { intros q Hq Heq. cbn [parse_go]. rewrite char_digit_char by lia. simpl.
      unfold checked_mul, checked_add.
      rewrite (checked_in t (q * 10)) by lia. simpl.
      rewrite (checked_in t (q * 10 + n mod 10)) by lia. simpl. by rewrite Heq. }
    destruct (Z.ltb_spec n 10).
    + apply Hstep; [done |]. rewrite Z.mod_small; lia.
    + rewrite IH; [apply Hstep; lia | | ].
      * split; [apply Z.div_pos; lia |]. apply Z.le_trans with n; [| lia].
        apply Z.div_le_upper_bound; lia.
      * apply Z.div_lt_upper_bound; lia.
Qed.

Lemma digit_not_char c c' : is_digit c -> ascii_code c' < 48 \/ 57 < ascii_code c' -> c <> c'.
Proof. intros Hc Hc' ->. unfold is_digit in Hc. lia. Qed.

(** Printing then parsing an unsigned integer gives it back. *)
Lemma parse_display t n :
  int_min t = 0 -> 0 <= n <= int_max t -> parse_uint t (display_uint n) = Some n.
Proof.
  intros Ht Hn. unfold parse_uint.
  pose proof (display_uint_digits n ltac:(lia)) as Hd.
  destruct (display_uint n) as [|c l] eqn:He; [by apply display_uint_nonempty in He |].
  inversion Hd as [|? ? Hc _]; subst.
  rewrite bool_decide_false by (apply digit_not_char; [done | by left]).
  rewrite <- He. unfold display_uint. rewrite (parse_go_digits t 39); [done | lia | lia |].
  apply Z.le_lt_trans with (int_max U128); [| done].
  etrans; [apply Hn |]. by destruct t.
Qed.

Lemma split_once_app c a b : c ∉ a -> split_once c (a ++ c :: b) = Some (a, b).
Proof.
  induction a as [|x a IH]; intros Hc; simpl.
  - by rewrite bool_decide_true.
  - rewrite bool_decide_false by set_solver. rewrite IH by set_solver. done.
Qed.

Lemma display_uint_no c n :
  0 <= n -> ascii_code c < 48 \/ 57 < ascii_code c -> c ∉ display_uint n.
Proof.
  intros Hn Hc Hin. pose proof (display_uint_digits n Hn) as Hd.
  rewrite Forall_forall in Hd. by apply (digit_not_char c c (Hd c Hin) Hc).
Qed.
