(* ===== verification/MarketTypes.v ===== *)
(** * market-types: identifiers and fixed-point values

    Models [packages/market-types/src/lib.rs].  [PriceTicks] and
    [QuantityLots] wrap [i64], [MoneyMinor] wraps [i128], [LogicalTimeNs]
    and [EventSequence] wrap [u64] and every identifier wraps [u128]; the
    model uses [Z] for all of them and writes the width at each operation
    (the macro [integer_newtype!] gives every wrapper the checked addition
    and subtraction of its inner type, [checked_add] and [checked_sub]). *)

From S2P Require Import Prelude Ordered Decimal.
From Stdlib Require Import Ascii.

Inductive NumericError : Type :=
  | NonPositiveQuantity
  | InvalidPriceBounds
  | NumPriceOutOfBounds
  | Overflow.

Inductive IdentifierError : Type := ZeroId.

#[export] Instance NumericError_eq_dec : EqDecision NumericError.
Proof. solve_decision. Defined.

(** The inner type of each newtype. *)
Definition PriceTicks_ty : int_ty := I64.
Definition QuantityLots_ty : int_ty := I64.
Definition MoneyMinor_ty : int_ty := I128.
Definition LogicalTimeNs_ty : int_ty := U64.
Definition EventSequence_ty : int_ty := U64.
Definition Identifier_ty : int_ty := U128.

(** [checked_identifier!]: the external boundary refuses zero. *)
Definition try_new (value : Z) : result IdentifierError Z :=
  if value =? 0 then Err ZeroId else Ok value.

(** Venue-specific identity of one tradable listing. *)
Record ListingKey : Type := mkListingKey {
  lk_venue_id : Z;
  lk_instrument_id : Z
}.

#[export] Instance ListingKey_eq_dec : EqDecision ListingKey.
Proof. solve_decision. Defined.

#[export] Instance ListingKey_countable : Countable ListingKey.
Proof.
  refine (inj_countable' (fun k => (lk_venue_id k, lk_instrument_id k))
                         (fun p => mkListingKey p.1 p.2) _).
  by intros [].
Defined.

(** The derived order: venue first, then instrument. *)
Definition listing_pair (k : ListingKey) : Z * Z := (lk_venue_id k, lk_instrument_id k).
#[export] Program Instance ListingKey_RustOrd : RustOrd ListingKey :=
  {| ord_le := fun a b => ord_le (listing_pair a) (listing_pair b) |}.
Next Obligation. intros a b. apply _. Defined.
Next Obligation. intros a b c. apply transitivity. Qed.
Next Obligation. intros [] [] H1 H2. pose proof (anti_symm ord_le _ _ H1 H2) as H.
  unfold listing_pair in H. simpl in H. congruence. Qed.
Next Obligation. intros a b. apply (total ord_le). Qed.

(** [Serialize for ListingKey]: ["{venue}:{instrument}"]. *)
Definition serialize_listing_key (k : ListingKey) : list ascii :=
  display_uint (lk_venue_id k) ++ ":"%char :: display_uint (lk_instrument_id k).

(** [Deserialize for ListingKey]; [None] stands for the custom serde error. *)
Definition deserialize_listing_key (value : list ascii) : option ListingKey :=
  '(venue, instrument) ← split_once ":"%char value;
  venue_id ← parse_uint U128 venue;
  instrument_id ← parse_uint U128 instrument;
  Some (mkListingKey venue_id instrument_id).

Record PriceBounds : Type := mkPriceBounds { pb_min : Z; pb_max : Z }.

(** [PriceBounds::new] *)
Definition PriceBounds_new (min max : Z) : result NumericError PriceBounds :=
  if (min <=? 0) || (max <? min) then Err InvalidPriceBounds
  else Ok (mkPriceBounds min max).

(** [PriceBounds::validate] *)
Definition PriceBounds_validate (b : PriceBounds) (price : Z) : result NumericError unit :=
  if (price <? pb_min b) || (pb_max b <? price) then Err NumPriceOutOfBounds else Ok tt.

(** [QuantityLots::positive] *)
Definition QuantityLots_positive (value : Z) : result NumericError Z :=
  if value <=? 0 then Err NonPositiveQuantity else Ok value.

(** [MoneyMinor::checked_mul_price_quantity] *)
Definition checked_mul_price_quantity (price quantity : Z) : result NumericError Z :=
  ok_or (checked_mul I128 price quantity) Overflow.

(** ** Properties *)

Definition is_i64 (z : Z) : Prop := int_min I64 <= z <= int_max I64.
Definition is_i128 (z : Z) : Prop := int_min I128 <= z <= int_max I128.
Definition is_u32 (z : Z) : Prop := 0 <= z <= int_max U32.
Definition is_u64 (z : Z) : Prop := 0 <= z <= int_max U64.
Definition is_u128 (z : Z) : Prop := 0 <= z <= int_max U128.

#[export] Hint Unfold is_i64 is_i128 is_u32 is_u64 is_u128 : core.

(** Exposes the bounds of the machine types. *)
Ltac ranges := unfold is_i64, is_i128, is_u32, is_u64, is_u128 in *; unfold int_min, int_max in *.

(** The product of two 64-bit values always fits 128 bits. *)
Lemma i64_mul_fits_i128 a b : is_i64 a -> is_i64 b -> is_i128 (a * b).
Proof.
  unfold is_i64, is_i128. unfold int_min, int_max. intros Ha Hb.
  assert (Z.abs (a * b) <= 2 ^ 63 * 2 ^ 63).
  { rewrite Z.abs_mul. apply Z.mul_le_mono_nonneg; lia. }
  lia.
Qed.

Lemma PriceBounds_new_Ok min max b :
  PriceBounds_new min max = Ok b -> b = mkPriceBounds min max /\ 0 < min <= max.
Proof.
  unfold PriceBounds_new. destruct (_ || _) eqn:H; intros [= <-]. guards. split; [done | lia].
Qed.

Lemma PriceBounds_validate_Ok b price :
  PriceBounds_validate b price = Ok tt <-> pb_min b <= price <= pb_max b.
Proof.
  unfold PriceBounds_validate. destruct (_ || _) eqn:H; split; intros Hb; try done.
  - apply orb_true_iff in H as [H|H]; guards; lia.
  - guards. lia.
Qed.

(** the text form of a listing key is lossless: for every pair of
    128-bit identifiers, serializing the key and deserializing the text
    gives the same key back. *)
Theorem listing_key_round_trip k :
  is_u128 (lk_venue_id k) -> is_u128 (lk_instrument_id k) ->
  deserialize_listing_key (serialize_listing_key k) = Some k.
Proof.
  intros Hv Hi. unfold deserialize_listing_key, serialize_listing_key.
  rewrite split_once_app by (apply display_uint_no; [apply Hv | by right]).
  simpl. rewrite !parse_display by done. by destruct k.
Qed.

Lemma listing_key_round_trip_witness :
  deserialize_listing_key (serialize_listing_key (mkListingKey 7 340282366920938463463374607431768211455))
  = Some (mkListingKey 7 340282366920938463463374607431768211455).
Proof. apply listing_key_round_trip; split; vm_compute; discriminate. Defined.
