(* ===== verification/MarketEvents.v ===== *)
(** * market-events: commands, events and envelopes

    Models [packages/market-events/src/lib.rs]: the protocol-neutral
    commands accepted by a run and the durable facts it emits.  Each enum
    whose variant names are shared with other enums lives in a module of
    its name, so that [RejectCode.InsufficientCash] reads as in the source. *)

From S2P Require Import Prelude MarketTypes.

Definition EVENT_SCHEMA_VERSION : Z := 1.

Inductive Side : Type := Buy | Sell.

#[export] Instance Side_eq_dec : EqDecision Side.
Proof. solve_decision. Defined.

(** [Side::opposite] *)
Definition opposite (s : Side) : Side :=
  match s with Buy => Sell | Sell => Buy end.

(** Lifetime of a limit order on the run's logical clock. *)
Inductive TimeInForcePolicy : Type :=
  | Gtc
  | Ioc
  | Fok
  | Gtd (expires_at : Z)
  | Day.

#[export] Instance TimeInForcePolicy_eq_dec : EqDecision TimeInForcePolicy.
Proof. solve_decision. Defined.

Inductive OrderKind : Type :=
  | Limit (price : Z)
  | Market
  | LimitWithPolicy (price : Z) (time_in_force : TimeInForcePolicy)
      (post_only : bool) (display_quantity : option Z).

#[export] Instance OrderKind_eq_dec : EqDecision OrderKind.
Proof. solve_decision. Defined.

(** [OrderKind::limit_price] *)
Definition limit_price (k : OrderKind) : option Z :=
  match k with
  | Limit price | LimitWithPolicy price _ _ _ => Some price
  | Market => None
  end.

(** [OrderKind::is_market] *)
Definition is_market (k : OrderKind) : bool :=
  match k with Market => true | _ => false end.

Record SubmitOrder : Type := mkSubmitOrder {
  so_order_id : Z;
  so_instrument_id : Z;
  so_participant_id : Z;
  so_side : Side;
  so_quantity : Z;
  so_kind : OrderKind;
  so_anonymous : bool
}.

Record CancelOrder : Type := mkCancelOrder {
  co_order_id : Z;
  co_participant_id : Z
}.

Inductive ClockMode : Type :=
  | Lockstep
  | Accelerated (max_steps_per_advance : Z)
  | Paced (step_interval_ns : Z).

Inductive NewsAudience : Type :=
  | Public
  | AudienceParticipant (id : Z)
  | Team (id : Z)
  | Role (role : string).

Module TenderDecision.
Inductive TenderDecision : Type := Accept | Decline.
End TenderDecision.

Module OtcDecision.
Inductive OtcDecision : Type := Accept | Reject | Break.
End OtcDecision.

Inductive CompositePolicy : Type :=
  | BestEffort
  | MinimumFill
  | AllOrNone
  | AtomicConversion.

Record CompositeLeg : Type := mkCompositeLeg {
  cl_instrument_id : Z;
  cl_side : Side;
  cl_quantity : Z;
  cl_limit_price : Z
}.

(** Simulation-domain commands sharing the authoritative run sequence. *)
Inductive SimulationCommand : Type :=
  | StartRun
  | PauseRun
  | ResumeRun
  | Advance (steps : Z)
  | ClockTick
  | SetPacing (mode : ClockMode) (reason : string)
  | Terminate (reason : string)
  | SetListingHalt (instrument_id : Z) (halted : bool) (reason : string)
  | MassCancel (participant_id instrument_id : option Z)
  | PublishNews (news_id : Z) (audience : NewsAudience) (headline body : string)
  | OpenTender (tender_id participant_id instrument_id : Z) (side : Side)
      (quantity price expires_at : Z)
  | DecideTender (tender_id : Z) (decision : TenderDecision.TenderDecision)
  | OpenOtc (negotiation_id counterparty_id instrument_id : Z) (side : Side)
      (quantity price expires_at : Z)
  | CounterOtc (negotiation_id quantity price : Z)
  | DecideOtc (negotiation_id : Z) (decision : OtcDecision.OtcDecision)
  | SubmitComposite (policy : CompositePolicy) (minimum_fill : Z) (legs : list CompositeLeg)
  | ScheduleCashflow (participant_id currency_id amount effective_at : Z) (reason : string)
  | ApplyFine (participant_id currency_id amount : Z) (reason : string)
  | ScheduleFacilityJob (facility_id participant_id input_quantity output_quantity
      completes_at : Z)
  | ScoreIteration.

Inductive CommandPayload : Type :=
  | PSubmitOrder (order : SubmitOrder)
  | PSubmitOrderAtListing (listing_key : ListingKey) (order : SubmitOrder)
  | PCancelOrder (cancel : CancelOrder)
  | ActivateKillSwitch
  | ResetKillSwitch.

(** Administrator/simulation command envelope. *)
Record SimulationCommandRequest : Type := mkSimulationCommandRequest {
  sr_run_id : Z;
  sr_command_id : Z;
  sr_correlation_id : Z;
  sr_logical_time : Z;
  sr_expected_sequence : Z;
  sr_actor : Z;
  sr_payload : SimulationCommand
}.

Record Command : Type := mkCommand {
  cmd_run_id : Z;
  cmd_command_id : Z;
  cmd_correlation_id : Z;
  cmd_logical_time : Z;
  cmd_expected_sequence : Z;
  cmd_actor : Z;
  cmd_payload : CommandPayload
}.

Module RejectCode.
Inductive RejectCode : Type :=
  | DuplicateOrderId
  | InvalidOrderId
  | UnknownOrder
  | NotOrderOwner
  | KillSwitchActive
  | RunNotActive
  | ListingHalted
  | ParticipantDisabled
  | InvalidQuantity
  | InvalidInstrument
  | PriceOutOfBounds
  | MaxOrderQuantity
  | MaxOpenOrderQuantity
  | MaxLiveOrders
  | PositionLimit
  | InsufficientCash
  | InsufficientInventory
  | InsufficientLiquidity
  | PostOnlyWouldCross
  | InvalidTimeInForce
  | MarketClosed
  | CallPhaseOrderType
  | LogicalTimeRegression
  | SequenceConflict
  | ArithmeticOverflow
  | PriceNotOnTick.
#[export] Instance RejectCode_eq_dec : EqDecision RejectCode.
Proof. solve_decision. Defined.
End RejectCode.

Module CancelReason.
Inductive CancelReason : Type :=
  | Requested
  | KillSwitch
  | MarketRemainder
  | MassCancel
  | Expired
  | Halt.
End CancelReason.

(** A venue's trading-session phase. *)
Module SessionPhase.
Inductive SessionPhase : Type := Closed | PreOpen | Continuous | ClosingCall.
#[export] Instance SessionPhase_eq_dec : EqDecision SessionPhase.
Proof. solve_decision. Defined.
End SessionPhase.

Record InstrumentMark : Type := mkInstrumentMark {
  im_instrument_id : Z;
  im_price : Z
}.

Record DayScore : Type := mkDayScore {
  ds_participant_id : Z;
  ds_net_liquidation_value : Z;
  ds_rank : Z
}.

Record ClosingPrice : Type := mkClosingPrice {
  cp_listing_key : ListingKey;
  cp_price : Z
}.

(** Durable simulation facts applied during replay. *)
Inductive SimulationEvent : Type :=
  | LifecycleChanged (status : string)
  | ClockAdvanced (from to : Z)
  | PacingChanged (mode : ClockMode) (reason : string)
  | AdministratorChangeRecorded (reason : string)
  | ListingHaltChanged (instrument_id : Z) (halted : bool)
  | MassCancelCompleted (canceled_orders : list Z)
  | NewsPublished (news_id : Z) (audience : NewsAudience)
  | TenderChanged (tender_id : Z) (status : string)
  | TenderSettled (tender_id participant_id instrument_id : Z) (side : Side) (quantity price : Z)
  | OtcSettled (negotiation_id buyer_id seller_id instrument_id quantity price : Z)
  | OtcChanged (negotiation_id : Z) (status : string)
  | CompositeCompleted (policy : CompositePolicy) (accepted_legs : Z)
  | CashflowScheduled (participant_id currency_id amount : Z)
  | FineApplied (participant_id currency_id amount policy_version : Z)
  | FacilityJobScheduled (facility_id participant_id : Z)
  | ScheduledActionApplied (action_id : Z)
  | IterationScored (participant_count : Z)
  | SessionPhaseChanged (venue_id day : Z) (phase : SessionPhase.SessionPhase)
  | AuctionUncrossed (listing_key : ListingKey) (price quantity : Z)
  | DayClosed (venue_id day : Z) (closes : list ClosingPrice)
  | DaySettled (day : Z) (marks : list InstrumentMark) (scores : list DayScore).

Inductive EventPayload : Type :=
  | OrderReceived (order : SubmitOrder) (listing_key : option ListingKey)
  | OrderAccepted (order_id : Z)
  | OrderRejected (order_id : option Z) (code : RejectCode.RejectCode)
  | OrderRested (order_id participant_id instrument_id : Z) (listing_key : option ListingKey)
      (side : Side) (price remaining : Z)
  | OrderReduced (order_id remaining : Z)
  | OrderCompleted (order_id : Z)
  | OrderCanceled (order_id participant_id instrument_id : Z) (listing_key : option ListingKey)
      (remaining : Z) (reason : CancelReason.CancelReason)
  | TradeExecuted (instrument_id : Z) (listing_key : option ListingKey)
      (maker_order_id taker_order_id buyer_id seller_id price quantity buyer_fee seller_fee : Z)
  | PositionChanged (participant_id instrument_id delta : Z)
  | BalanceChanged (participant_id delta : Z)
  | KillSwitchActivated
  | KillSwitchReset
  | Simulation (event : SimulationEvent).

Record EventEnvelope : Type := mkEventEnvelope {
  ev_schema_version : Z;
  ev_run_id : Z;
  ev_event_id : Z;
  ev_sequence : Z;
  ev_logical_time : Z;
  ev_actor : Z;
  ev_command_id : Z;
  ev_correlation_id : Z;
  ev_causation_sequence : option Z;
  ev_payload : EventPayload
}.

Lemma opposite_involutive s : opposite (opposite s) = s.
Proof. by destruct s. Qed.

Lemma opposite_ne s : opposite s <> s.
Proof. by destruct s. Qed.

(** ** Decidable equality *)

#[export] Existing Instance SessionPhase.SessionPhase_eq_dec.
#[export] Existing Instance RejectCode.RejectCode_eq_dec.
#[export] Instance ClockMode_eq_dec : EqDecision ClockMode.
Proof. solve_decision. Defined.
#[export] Instance NewsAudience_eq_dec : EqDecision NewsAudience.
Proof. solve_decision. Defined.
#[export] Instance TenderDecision_eq_dec : EqDecision TenderDecision.TenderDecision.
Proof. solve_decision. Defined.
#[export] Instance OtcDecision_eq_dec : EqDecision OtcDecision.OtcDecision.
Proof. solve_decision. Defined.
#[export] Instance CompositePolicy_eq_dec : EqDecision CompositePolicy.
Proof. solve_decision. Defined.
#[export] Instance CompositeLeg_eq_dec : EqDecision CompositeLeg.
Proof. solve_decision. Defined.
#[export] Instance SubmitOrder_eq_dec : EqDecision SubmitOrder.
Proof. solve_decision. Defined.
#[export] Instance CancelOrder_eq_dec : EqDecision CancelOrder.
Proof. solve_decision. Defined.
#[export] Instance CancelReason_eq_dec : EqDecision CancelReason.CancelReason.
Proof. solve_decision. Defined.
#[export] Instance InstrumentMark_eq_dec : EqDecision InstrumentMark.
Proof. solve_decision. Defined.
#[export] Instance DayScore_eq_dec : EqDecision DayScore.
Proof. solve_decision. Defined.
#[export] Instance ClosingPrice_eq_dec : EqDecision ClosingPrice.
Proof. solve_decision. Defined.
#[export] Instance SimulationCommand_eq_dec : EqDecision SimulationCommand.
Proof. solve_decision. Defined.
#[export] Instance SimulationEvent_eq_dec : EqDecision SimulationEvent.
Proof. solve_decision. Defined.
#[export] Instance CommandPayload_eq_dec : EqDecision CommandPayload.
Proof. solve_decision. Defined.
#[export] Instance EventPayload_eq_dec : EqDecision EventPayload.
Proof. solve_decision. Defined.
#[export] Instance Command_eq_dec : EqDecision Command.
Proof. solve_decision. Defined.
#[export] Instance SimulationCommandRequest_eq_dec : EqDecision SimulationCommandRequest.
Proof. solve_decision. Defined.
#[export] Instance EventEnvelope_eq_dec : EqDecision EventEnvelope.
Proof. solve_decision. Defined.
