(* ===== verification/Ledger.v ===== *)
(** * ledger: the economic ledger of one run

    Models [packages/ledger/src/lib.rs].  Every [&mut self] method is a
    computation [M Ledger LedgerError unit]: reads, checks and writes in the
    order of the source, returning the ledger it leaves behind on failure
    too.  [BTreeMap]s are [gmap]s; keys that are tuples stay tuples. *)

From S2P Require Import Prelude Ordered MarketTypes MarketEvents.

Module LedgerError.
Inductive LedgerError : Type :=
  | ArithmeticOverflow
  | InvalidRelease
  | InvalidPosting
  | UnknownInstrument
  | InsufficientCash
  | InsufficientInventory
  | MissingFxRate.
#[export] Instance LedgerError_eq_dec : EqDecision LedgerError.
Proof. solve_decision. Defined.
End LedgerError.
Export LedgerError (LedgerError).

(** ** Data *)

Record InstrumentTerms : Type := mkInstrumentTerms {
  it_currency : Z;
  it_multiplier : Z;
  it_shortable : bool
}.

Record FxRate : Type := mkFxRate {
  fx_currency : Z;
  fx_instrument_id : Z;
  fx_minor_units_per_lot : Z
}.

Record CashBalance : Type := mkCashBalance {
  cb_balance : Z;
  cb_reserved : Z;
  cb_fees : Z
}.

(** [CashBalance::default()] *)
Definition CashBalance_default : CashBalance := mkCashBalance 0 0 0.

(** [CashBalance::available] *)
Definition cash_available (c : CashBalance) : option Z :=
  checked_sub I128 (cb_balance c) (cb_reserved c).

Record Position : Type := mkPosition {
  pos_quantity : Z;
  pos_reserved : Z;
  pos_open_buy : Z;
  pos_open_sell : Z;
  pos_cost_basis : Z;
  pos_realized_pnl : Z;
  pos_traded : Z
}.

(** [Position::default()] *)
Definition Position_default : Position := mkPosition 0 0 0 0 0 0 0.

(** [Position::available] *)
Definition position_available (p : Position) : option Z :=
  checked_sub I64 (pos_quantity p) (pos_reserved p).

Record Reservation : Type := mkReservation {
  rs_cash_per_lot : Z;
  rs_inventory : bool
}.

(** [Reservation::NONE] *)
Definition Reservation_NONE : Reservation := mkReservation 0 false.

Record FillParty : Type := mkFillParty {
  fp_participant : Z;
  fp_fee : Z;
  fp_order : option Reservation;
  fp_enforce_funding : bool
}.

Record Fill : Type := mkFill {
  fl_instrument : Z;
  fl_price : Z;
  fl_quantity : Z;
  fl_buyer : option FillParty;
  fl_seller : option FillParty;
  fl_set_mark : bool
}.

Record Ledger : Type := mkLedger {
  lg_terms : gmap Z InstrumentTerms;
  lg_cash : gmap (Z * Z) CashBalance;
  lg_positions : gmap (Z * Z) Position;
  lg_marks : gmap Z Z
}.

(** Assignments to single fields of a [Copy] record. *)
Definition with_open_buy (p : Position) (v : Z) : Position :=
  mkPosition (pos_quantity p) (pos_reserved p) v (pos_open_sell p)
             (pos_cost_basis p) (pos_realized_pnl p) (pos_traded p).
Definition with_open_sell (p : Position) (v : Z) : Position :=
  mkPosition (pos_quantity p) (pos_reserved p) (pos_open_buy p) v
             (pos_cost_basis p) (pos_realized_pnl p) (pos_traded p).
Definition with_reserved (p : Position) (v : Z) : Position :=
  mkPosition (pos_quantity p) v (pos_open_buy p) (pos_open_sell p)
             (pos_cost_basis p) (pos_realized_pnl p) (pos_traded p).
Definition with_quantity_basis (p : Position) (q b : Z) : Position :=
  mkPosition q (pos_reserved p) (pos_open_buy p) (pos_open_sell p)
             b (pos_realized_pnl p) (pos_traded p).
Definition with_realized_pnl (p : Position) (v : Z) : Position :=
  mkPosition (pos_quantity p) (pos_reserved p) (pos_open_buy p) (pos_open_sell p)
             (pos_cost_basis p) v (pos_traded p).
Definition with_traded (p : Position) (v : Z) : Position :=
  mkPosition (pos_quantity p) (pos_reserved p) (pos_open_buy p) (pos_open_sell p)
             (pos_cost_basis p) (pos_realized_pnl p) v.
Definition with_cash_reserved (c : CashBalance) (v : Z) : CashBalance :=
  mkCashBalance (cb_balance c) v (cb_fees c).
Definition with_balance (c : CashBalance) (v : Z) : CashBalance :=
  mkCashBalance v (cb_reserved c) (cb_fees c).
Definition with_fees (c : CashBalance) (v : Z) : CashBalance :=
  mkCashBalance (cb_balance c) (cb_reserved c) v.

(** Writes to the ledger's maps. *)
Definition put_terms (i : Z) (t : InstrumentTerms) (l : Ledger) : Ledger :=
  mkLedger (<[i := t]> (lg_terms l)) (lg_cash l) (lg_positions l) (lg_marks l).
Definition put_cash (p c : Z) (b : CashBalance) (l : Ledger) : Ledger :=
  mkLedger (lg_terms l) (<[(p, c) := b]> (lg_cash l)) (lg_positions l) (lg_marks l).
Definition put_position (p i : Z) (x : Position) (l : Ledger) : Ledger :=
  mkLedger (lg_terms l) (lg_cash l) (<[(p, i) := x]> (lg_positions l)) (lg_marks l).
Definition put_mark (i m : Z) (l : Ledger) : Ledger :=
  mkLedger (lg_terms l) (lg_cash l) (lg_positions l) (<[i := m]> (lg_marks l)).

(** ** Arithmetic helpers *)

(** [fn overflow] *)
Definition overflow {A} (value : option A) : result LedgerError A :=
  ok_or value LedgerError.ArithmeticOverflow.

(** [fn negate] *)
Definition negate (value : Z) : result LedgerError Z := overflow (checked_neg I128 value).

(** [fn notional]: exact [price * quantity * multiplier]. *)
Definition notional (price quantity multiplier : Z) : result LedgerError Z :=
  overflow (value ← checked_mul I128 price quantity; checked_mul I128 value multiplier).

(** [fn per_lot_total] *)
Definition per_lot_total (per_lot quantity : Z) : result LedgerError Z :=
  overflow (checked_mul I128 per_lot quantity).

(** ** Reads *)

(** [Ledger::new] *)
Definition Ledger_new : Ledger := mkLedger ∅ ∅ ∅ ∅.

(** [Ledger::terms] *)
Definition terms (l : Ledger) (instrument : Z) : result LedgerError InstrumentTerms :=
  ok_or (lg_terms l !! instrument) LedgerError.UnknownInstrument.

(** [Ledger::cash] *)
Definition cash (l : Ledger) (participant currency : Z) : CashBalance :=
  default CashBalance_default (lg_cash l !! (participant, currency)).

(** [Ledger::position] *)
Definition position (l : Ledger) (participant instrument : Z) : Position :=
  default Position_default (lg_positions l !! (participant, instrument)).

(** The entries [(participant, 0) ..= (participant, u128::MAX)] of a map
    keyed by pairs, as (second component, value), in key order. *)
Definition range_of {V} (m : gmap (Z * Z) V) (participant : Z) : list (Z * V) :=
  (fun kv => (kv.1.2, kv.2)) <$>
  filter (fun kv => kv.1.1 = participant /\ 0 <= kv.1.2 <= int_max U128) (entries m).

(** [Ledger::cash_balances] *)
Definition cash_balances (l : Ledger) (participant : Z) : list (Z * CashBalance) :=
  range_of (lg_cash l) participant.

(** [Ledger::positions] *)
Definition positions (l : Ledger) (participant : Z) : list (Z * Position) :=
  range_of (lg_positions l) participant.

(** [Ledger::mark] *)
Definition mark (l : Ledger) (instrument : Z) : option Z := lg_marks l !! instrument.

(** ** Postings *)

(** [Ledger::configure_instrument] *)
Definition configure_instrument (instrument : Z) (t : InstrumentTerms)
    : M Ledger LedgerError unit :=
  refuse_if ((instrument =? 0) || (it_currency t =? 0) || (it_multiplier t <=? 0))
            LedgerError.InvalidPosting;;
  modify (put_terms instrument t).

(** [Ledger::set_mark] *)
Definition set_mark (instrument price : Z) : M Ledger LedgerError unit :=
  l ← gets id;
  _ ← lift (terms l instrument);
  refuse_if (price <=? 0) LedgerError.InvalidPosting;;
  modify (put_mark instrument price).

(** [Ledger::post_cash] *)
Definition post_cash (participant currency amount : Z) : M Ledger LedgerError unit :=
  refuse_if (currency =? 0) LedgerError.InvalidPosting;;
  entry ← gets (fun l => cash l participant currency);
  balance ← lift (overflow (checked_add I128 (cb_balance entry) amount));
  modify (put_cash participant currency (with_balance entry balance)).

(** [Ledger::seed_position] *)
Definition seed_position (participant instrument quantity cost_basis : Z)
    : M Ledger LedgerError unit :=
  l ← gets id;
  _ ← lift (terms l instrument);
  let entry := position l participant instrument in
  modify (put_position participant instrument (with_quantity_basis entry quantity cost_basis)).

(** [Ledger::cash_per_lot] *)
Definition cash_per_lot (l : Ledger) (instrument price fee_per_lot : Z)
    : result LedgerError Z :=
  t ← terms l instrument;
  lot ← notional price 1 (it_multiplier t);
  overflow (checked_add I128 lot (Z.max fee_per_lot 0)).

(** [Ledger::change_open] *)
Definition change_open (participant instrument : Z) (side : Side) (quantity : Z)
    (reservation : Reservation) (open : bool) : M Ledger LedgerError unit :=
  l ← gets id;
  t ← lift (terms l instrument);
  refuse_if (quantity <=? 0) LedgerError.InvalidPosting;;
  let position := position l participant instrument in
  let cash := cash l participant (it_currency t) in
  delta ← lift (overflow (if open then Some quantity else checked_sub I64 0 quantity));
  '(position, cash) ←
    match side with
    | Buy =>
        open_buy ← lift (overflow (checked_add I64 (pos_open_buy position) delta));
        let position := with_open_buy position open_buy in
        amount ← lift (per_lot_total (rs_cash_per_lot reservation) quantity);
        reserved ← lift (overflow (if open then checked_add I128 (cb_reserved cash) amount
                                   else checked_sub I128 (cb_reserved cash) amount));
        let cash := with_cash_reserved cash reserved in
        refuse_if (cb_reserved cash <? 0) LedgerError.InvalidRelease;;
        (if open then
           available ← lift (overflow (cash_available cash));
           refuse_if (available <? 0) LedgerError.InsufficientCash
         else mret tt);;
        mret (position, cash)
    | Sell =>
        open_sell ← lift (overflow (checked_add I64 (pos_open_sell position) delta));
        let position := with_open_sell position open_sell in
        (if rs_inventory reservation then
           reserved ← lift (overflow (checked_add I64 (pos_reserved position) delta));
           let position := with_reserved position reserved in
           refuse_if (pos_reserved position <? 0) LedgerError.InvalidRelease;;
           (if open then
              available ← lift (overflow (position_available position));
              refuse_if (available <? 0) LedgerError.InsufficientInventory
            else mret tt);;
           mret (position, cash)
         else mret (position, cash))
    end;
  refuse_if ((pos_open_buy position <? 0) || (pos_open_sell position <? 0))
            LedgerError.InvalidRelease;;
  modify (put_position participant instrument position);;
  modify (put_cash participant (it_currency t) cash).

(** [Ledger::open_order] and [Ledger::close_order] *)
Definition open_order (participant instrument : Z) (side : Side) (quantity : Z)
    (reservation : Reservation) : M Ledger LedgerError unit :=
  change_open participant instrument side quantity reservation true.

Definition close_order (participant instrument : Z) (side : Side) (quantity : Z)
    (reservation : Reservation) : M Ledger LedgerError unit :=
  change_open participant instrument side quantity reservation false.

(** ** Fills *)

(** [fn apply_fill]: signed execution with proportional average-cost
    realization; integer division truncates toward zero. *)
Definition apply_fill (position : Position) (delta price multiplier : Z)
    : result LedgerError Position :=
  let old_qty := pos_quantity position in
  let change := delta in
  next_qty ← overflow (checked_add I64 (pos_quantity position) delta);
  let opposite := ((0 <? old_qty) && (change <? 0)) || ((old_qty <? 0) && (0 <? change)) in
  let closed := if opposite then Z.min (Z.abs old_qty) (Z.abs change) else 0 in
  let closed_delta := if 0 <? old_qty then - closed else closed in
  unit ← overflow (checked_mul I128 price multiplier);
  let old_basis := pos_cost_basis position in
  removed_basis ←
    (if closed =? 0 then Ok 0
     else product ← overflow (checked_mul I128 old_basis closed);
          Ok (Z.quot product (Z.abs old_qty)));
  realized ← overflow (
    flow ← checked_mul I128 closed_delta unit;
    flow ← checked_neg I128 flow;
    checked_sub I128 flow removed_basis);
  opened_delta ← overflow (checked_sub I128 change closed_delta);
  opened_basis ← overflow (checked_mul I128 opened_delta unit);
  new_basis ← overflow (
    value ← checked_sub I128 old_basis removed_basis;
    checked_add I128 value opened_basis);
  realized_pnl ← overflow (checked_add I128 (pos_realized_pnl position) realized);
  Ok (with_realized_pnl (with_quantity_basis position next_qty new_basis) realized_pnl).

(** The release of the filled part of the party's open order, first block
    of the loop of [Ledger::settle]. *)
Definition release_filled (side : Side) (party : FillParty) (quantity : Z)
    (balance : CashBalance) (position : Position)
    : result LedgerError (CashBalance * Position) :=
  match fp_order party with
  | None => Ok (balance, position)
  | Some order =>
      '(balance, position) ←
        match side with
        | Buy =>
            open_buy ← overflow (checked_sub I64 (pos_open_buy position) quantity);
            let position := with_open_buy position open_buy in
            total ← per_lot_total (rs_cash_per_lot order) quantity;
            reserved ← overflow (checked_sub I128 (cb_reserved balance) total);
            Ok (with_cash_reserved balance reserved, position)
        | Sell =>
            open_sell ← overflow (checked_sub I64 (pos_open_sell position) quantity);
            let position := with_open_sell position open_sell in
            if rs_inventory order then
              reserved ← overflow (checked_sub I64 (pos_reserved position) quantity);
              Ok (balance, with_reserved position reserved)
            else Ok (balance, position)
        end;
      if (pos_open_buy position <? 0) || (pos_open_sell position <? 0)
         || (pos_reserved position <? 0) || (cb_reserved balance <? 0)
      then Err LedgerError.InvalidRelease
      else Ok (balance, position)
  end.

(** The body of the loop of [Ledger::settle] for one party: the new balance
    and position of that party. *)
Definition settle_party (t : InstrumentTerms) (fill : Fill) (value : Z) (side : Side)
    (party : FillParty) (balance : CashBalance) (position : Position)
    : result LedgerError (CashBalance * Position) :=
  '(balance, position) ← release_filled side party (fl_quantity fill) balance position;
  '(flow, delta) ←
    match side with
    | Buy => flow ← negate value; Ok (flow, fl_quantity fill)
    | Sell => delta ← overflow (checked_sub I64 0 (fl_quantity fill)); Ok (value, delta)
    end;
  amount ← overflow (value ← checked_add I128 (cb_balance balance) flow;
                     checked_sub I128 value (fp_fee party));
  let balance := with_balance balance amount in
  fees ← overflow (checked_add I128 (cb_fees balance) (fp_fee party));
  let balance := with_fees balance fees in
  position ← apply_fill position delta (fl_price fill) (it_multiplier t);
  traded ← overflow (checked_add I64 (pos_traded position) (fl_quantity fill));
  let position := with_traded position traded in
  _ ← (if bool_decide (side = Buy) && fp_enforce_funding party then
         available ← overflow (cash_available balance);
         if available <? 0 then Err LedgerError.InsufficientCash else Ok tt
       else Ok tt);
  _ ← (if bool_decide (side = Sell) && negb (it_shortable t) then
         available ← overflow (position_available position);
         if available <? 0 then Err LedgerError.InsufficientInventory else Ok tt
       else Ok tt);
  Ok (balance, position).

(** Balances and positions staged by participant before any write. *)
Definition Staged : Type := gmap Z CashBalance * gmap Z Position.

Definition settle_side (t : InstrumentTerms) (fill : Fill) (value : Z)
    (party : option FillParty) (side : Side) (staged : Staged)
    : M Ledger LedgerError Staged :=
  match party with
  | None => mret staged
  | Some party =>
      let participant := fp_participant party in
      l ← gets id;
      let balance := default (cash l participant (it_currency t)) (staged.1 !! participant) in
      let position :=
        default (position l participant (fl_instrument fill)) (staged.2 !! participant) in
      '(balance, position) ← lift (settle_party t fill value side party balance position);
      mret (<[participant := balance]> staged.1, <[participant := position]> staged.2)
  end.

Definition put_all_cash (currency : Z) (staged : gmap Z CashBalance) (l : Ledger) : Ledger :=
  mkLedger (lg_terms l) (insert_all (fun p => (p, currency)) staged (lg_cash l))
           (lg_positions l) (lg_marks l).

Definition put_all_positions (instrument : Z) (staged : gmap Z Position) (l : Ledger) : Ledger :=
  mkLedger (lg_terms l) (lg_cash l)
           (insert_all (fun p => (p, instrument)) staged (lg_positions l)) (lg_marks l).

(** [Ledger::settle] *)
Definition settle (fill : Fill) : M Ledger LedgerError unit :=
  l ← gets id;
  t ← lift (terms l (fl_instrument fill));
  refuse_if ((fl_quantity fill <=? 0) || (fl_price fill <=? 0)) LedgerError.InvalidPosting;;
  value ← lift (notional (fl_price fill) (fl_quantity fill) (it_multiplier t));
  staged ← settle_side t fill value (fl_buyer fill) Buy (∅, ∅);
  staged ← settle_side t fill value (fl_seller fill) Sell staged;
  modify (put_all_cash (it_currency t) staged.1);;
  modify (put_all_positions (fl_instrument fill) staged.2);;
  if fl_set_mark fill then modify (put_mark (fl_instrument fill) (fl_price fill)) else mret tt.

(** The input block of [Ledger::convert]: the transferred basis and the
    staged position. *)
Definition convert_stage_input (l : Ledger) (participant : Z) (input : option (Z * Z))
    : result LedgerError (Z * list (Z * Position)) :=
  match input with
  | None => Ok (0, [])
  | Some (instrument, quantity) =>
      _ ← terms l instrument;
      let position := position l participant instrument in
      refuse ← (if quantity <=? 0 then Ok true
                else available ← overflow (position_available position);
                     Ok (available <? quantity));
      if (refuse : bool) then Err LedgerError.InsufficientInventory
      else
        transferred ←
          (if 0 <? pos_quantity position then
             overflow (
               value ← checked_mul I128 (pos_cost_basis position) quantity;
               checked_div I128 value (pos_quantity position))
           else Ok 0);
        cost_basis ← overflow (checked_sub I128 (pos_cost_basis position) transferred);
        next ← overflow (checked_sub I64 (pos_quantity position) quantity);
        Ok (transferred, [(instrument, with_quantity_basis position next cost_basis)])
  end.

(** The output block of [Ledger::convert]. *)
Definition convert_stage_output (l : Ledger) (participant : Z) (output : option (Z * Z))
    (transferred : Z) (staged : list (Z * Position))
    : result LedgerError (list (Z * Position)) :=
  match output with
  | None => Ok staged
  | Some (instrument, quantity) =>
      _ ← terms l instrument;
      if quantity <=? 0 then Err LedgerError.InvalidPosting
      else
        let position :=
          match list_find (fun entry : Z * Position => entry.1 = instrument) staged with
          | Some (_, (_, value)) => value
          | None => position l participant instrument
          end in
        next ← overflow (checked_add I64 (pos_quantity position) quantity);
        cost_basis ← overflow (checked_add I128 (pos_cost_basis position) transferred);
        Ok (filter (fun entry => entry.1 <> instrument) staged
            ++ [(instrument, with_quantity_basis position next cost_basis)])
  end.

(** [Ledger::convert] *)
Definition convert (participant : Z) (input output : option (Z * Z))
    : M Ledger LedgerError unit :=
  l ← gets id;
  '(transferred, staged) ← lift (convert_stage_input l participant input);
  staged ← lift (convert_stage_output l participant output transferred staged);
  modify (fun l => foldl (fun l entry => put_position participant entry.1 entry.2 l) l staged).

(** ** Valuation *)

(** [Ledger::position_value] *)
Definition position_value (l : Ledger) (instrument : Z) (p : Position) : result LedgerError Z :=
  t ← terms l instrument;
  match mark l instrument with
  | None => Ok (pos_cost_basis p)
  | Some price => notional price (pos_quantity p) (it_multiplier t)
  end.

(** [Ledger::unrealized_pnl] *)
Definition unrealized_pnl (l : Ledger) (participant instrument : Z) : result LedgerError Z :=
  let p := position l participant instrument in
  value ← position_value l instrument p;
  overflow (checked_sub I128 value (pos_cost_basis p)).

(** [Ledger::net_liquidation_value] *)
Definition net_liquidation_value (l : Ledger) (participant currency : Z)
    : result LedgerError Z :=
  foldl
    (fun total entry =>
       total ← total;
       t ← terms l entry.1;
       if it_currency t =? currency then
         value ← position_value l entry.1 entry.2;
         overflow (checked_add I128 total value)
       else Ok total)
    (Ok (cb_balance (cash l participant currency)))
    (positions l participant).

(** Conversion of one currency's value into the reporting currency. *)
Definition convert_currency (l : Ledger) (reporting : Z) (rates : list FxRate)
    (currency value : Z) : result LedgerError Z :=
  if currency =? reporting then Ok value
  else if value =? 0 then Ok 0
  else
    rate ← ok_or (snd <$> list_find (fun r => fx_currency r = currency) rates)
                 LedgerError.MissingFxRate;
    price ← ok_or (mark l (fx_instrument_id rate)) LedgerError.MissingFxRate;
    if fx_minor_units_per_lot rate <=? 0 then Err LedgerError.MissingFxRate
    else overflow (amount ← checked_mul I128 value price;
                   checked_div I128 amount (fx_minor_units_per_lot rate)).

(** [Ledger::reporting_value] *)
Definition reporting_value (l : Ledger) (participant reporting : Z) (rates : list FxRate)
    : result LedgerError Z :=
  let cash_currencies := (cash_balances l participant).*1 in
  currencies ←
    foldl (fun acc entry => acc ← acc; t ← terms l entry.1; Ok (acc ++ [it_currency t]))
          (Ok cash_currencies) (positions l participant);
  foldl
    (fun total currency =>
       total ← total;
       value ← net_liquidation_value l participant currency;
       converted ← convert_currency l reporting rates currency value;
       overflow (checked_add I128 total converted))
    (Ok 0) (sort_dedup currencies).

(** [Ledger::participants] *)
Definition participants (l : Ledger) : list Z :=
  sort_dedup (dedup ((keys (lg_cash l)).*1 ++ (keys (lg_positions l)).*1)).
