(* ===== verification/LedgerFacts.v ===== *)
(** * Ledger: atomicity, invariant, conservation

    Theorems about the operations of [Ledger]: a failed operation changes
    nothing, every operation keeps the ledger well formed, settlement
    conserves cash and holdings, reservations release exactly, and the
    accounting identity between cash, cost basis and realized P&L. *)

From S2P Require Import Prelude Ordered MarketTypes MarketEvents Ledger.

(** ** The mutating operations *)

Inductive LedgerOp : Type :=
  | OpConfigure (instrument : Z) (t : InstrumentTerms)
  | OpSetMark (instrument price : Z)
  | OpPostCash (participant currency amount : Z)
  | OpSeedPosition (participant instrument quantity cost_basis : Z)
  | OpOpenOrder (participant instrument : Z) (side : Side) (quantity : Z) (r : Reservation)
  | OpCloseOrder (participant instrument : Z) (side : Side) (quantity : Z) (r : Reservation)
  | OpSettle (fill : Fill)
  | OpConvert (participant : Z) (input output : option (Z * Z)).

Definition run_op (op : LedgerOp) : M Ledger LedgerError unit :=
  match op with
  | OpConfigure i t => configure_instrument i t
  | OpSetMark i p => set_mark i p
  | OpPostCash p c a => post_cash p c a
  | OpSeedPosition p i q b => seed_position p i q b
  | OpOpenOrder p i s q r => open_order p i s q r
  | OpCloseOrder p i s q r => close_order p i s q r
  | OpSettle f => settle f
  | OpConvert p i o => convert p i o
  end.

(** Splits a computation into the reads and checks before its writes. *)
Ltac writes_only :=
  apply fails_clean_infallible;
  repeat first
    [ apply infallible_bind; [| intros ?]
    | match goal with |- infallible (match ?x with _ => _ end) => destruct x end
    | solve [auto with staging] ].

Ltac staging :=
  repeat first
    [ solve [writes_only]
    | apply fails_clean_bind; [| intros ?]
    | apply reads_bind; [| intros ?]
    | match goal with
      | |- fails_clean (let '(_, _) := ?x in _) => destruct x
      | |- reads (let '(_, _) := ?x in _) => destruct x
      | |- reads (match ?x with _ => _ end) => destruct x
      | |- fails_clean (match ?x with _ => _ end) => destruct x
      end
    | solve [auto with staging] ].

Lemma reads_settle_side t fill value party side staged :
  reads (settle_side t fill value party side staged).
Proof. unfold settle_side. staging. Qed.
#[export] Hint Resolve reads_settle_side : staging.

Lemma fails_clean_change_open p i s q r o : fails_clean (change_open p i s q r o).
Proof.
  unfold change_open. staging.
Qed.

Lemma fails_clean_settle f : fails_clean (settle f).
Proof.
  unfold settle. staging.
Qed.

Lemma fails_clean_convert p i o : fails_clean (convert p i o).
Proof. unfold convert. staging. Qed.

#[export] Hint Resolve fails_clean_change_open fails_clean_settle fails_clean_convert : staging.

(** ** Lookups after writes *)

Lemma cash_put_cash l p c b p' c' :
  cash (put_cash p c b l) p' c' = if bool_decide ((p, c) = (p', c')) then b else cash l p' c'.
Proof.
  unfold cash, put_cash. simpl. case_bool_decide as H.
  - simplify_eq. by rewrite lookup_insert_eq.
  - by rewrite lookup_insert_ne.
Qed.

Lemma position_put_position l p i x p' i' :
  position (put_position p i x l) p' i' =
  if bool_decide ((p, i) = (p', i')) then x else position l p' i'.
Proof.
  unfold position, put_position. simpl. case_bool_decide as H.
  - simplify_eq. by rewrite lookup_insert_eq.
  - by rewrite lookup_insert_ne.
Qed.

Lemma cash_put_position l p i x p' c' : cash (put_position p i x l) p' c' = cash l p' c'.
Proof. done. Qed.
Lemma position_put_cash l p c b p' i' : position (put_cash p c b l) p' i' = position l p' i'.
Proof. done. Qed.

#[export] Instance pair_inj_l {A} (c : A) : Inj (=) (=) (fun p : Z => (p, c)).
Proof. by intros p p' [= ->]. Qed.

Section staged.
Context (t : InstrumentTerms) (fill : Fill).

Definition write_staged (s : Staged) (l : Ledger) : Ledger :=
  put_all_positions (fl_instrument fill) s.2 (put_all_cash (it_currency t) s.1 l).

Lemma insert_all_empty {V} (c : Z) (m : gmap (Z * Z) V) :
  insert_all (fun p : Z => (p, c)) (∅ : gmap Z V) m = m.
Proof. unfold insert_all. by rewrite entries_empty. Qed.

Lemma insert_all_insert {V} (c p : Z) (v : V) (s : gmap Z V) (m : gmap (Z * Z) V) :
  insert_all (fun p : Z => (p, c)) (<[p := v]> s) m =
  <[(p, c) := v]> (insert_all (fun p : Z => (p, c)) s m).
Proof.
  apply map_eq. intros [p' c']. destruct (decide (c' = c)) as [->|Hc].
  - rewrite (insert_all_lookup (fun p : Z => (p, c))).
    destruct (decide (p' = p)) as [->|Hp].
    + by rewrite !lookup_insert_eq.
    + rewrite !lookup_insert_ne by congruence.
      by rewrite (insert_all_lookup (fun p : Z => (p, c))).
  - rewrite (insert_all_lookup_other (fun p : Z => (p, c))) by congruence.
    rewrite lookup_insert_ne by congruence.
    by rewrite (insert_all_lookup_other (fun p : Z => (p, c))) by congruence.
Qed.

Lemma write_staged_empty l : write_staged (∅, ∅) l = l.
Proof.
  unfold write_staged, put_all_positions, put_all_cash. simpl.
  rewrite !insert_all_empty. by destruct l.
Qed.

Lemma write_staged_insert s p b x l :
  write_staged (<[p := b]> s.1, <[p := x]> s.2) l =
  put_position p (fl_instrument fill) x (put_cash p (it_currency t) b (write_staged s l)).
Proof.
  unfold write_staged, put_all_positions, put_all_cash, put_position, put_cash. simpl.
  by rewrite !insert_all_insert.
Qed.

Lemma cash_write_staged s l p :
  cash (write_staged s l) p (it_currency t) = default (cash l p (it_currency t)) (s.1 !! p).
Proof.
  unfold cash, write_staged. simpl.
  rewrite (insert_all_lookup (fun p : Z => (p, it_currency t))). by destruct (s.1 !! p).
Qed.

Lemma position_write_staged s l p :
  position (write_staged s l) p (fl_instrument fill) =
  default (position l p (fl_instrument fill)) (s.2 !! p).
Proof.
  unfold position, write_staged. simpl.
  rewrite (insert_all_lookup (fun p : Z => (p, fl_instrument fill))). by destruct (s.2 !! p).
Qed.

End staged.

(** Settling one party directly on the ledger. *)
Definition party_step (t : InstrumentTerms) (fill : Fill) (value : Z) (side : Side)
    (party : option FillParty) (l l' : Ledger) : Prop :=
  match party with
  | None => l' = l
  | Some party => exists b x,
      settle_party t fill value side party
        (cash l (fp_participant party) (it_currency t))
        (position l (fp_participant party) (fl_instrument fill)) = Ok (b, x) /\
      l' = put_position (fp_participant party) (fl_instrument fill) x
             (put_cash (fp_participant party) (it_currency t) b l)
  end.

Lemma settle_side_step t fill value party side staged staged' l l' :
  settle_side t fill value party side staged l = (l', Ok staged') ->
  l' = l /\
  party_step t fill value side party (write_staged t fill staged l) (write_staged t fill staged' l).
Proof.
  unfold settle_side. destruct party as [party|]; intros H; run_inv; [| done].
  split; [done |]. simpl. eexists _, _.
  rewrite cash_write_staged, position_write_staged, write_staged_insert. done.
Qed.

(** Staging both parties and writing at the end is settling the buyer and
    then the seller on the ledger the buyer left. *)
Lemma settle_steps fill l l' u :
  settle fill l = (l', Ok u) ->
  exists t value l1 l2,
    lg_terms l !! fl_instrument fill = Some t /\
    0 < fl_quantity fill /\ 0 < fl_price fill /\
    notional (fl_price fill) (fl_quantity fill) (it_multiplier t) = Ok value /\
    party_step t fill value Buy (fl_buyer fill) l l1 /\
    party_step t fill value Sell (fl_seller fill) l1 l2 /\
    l' = if fl_set_mark fill then put_mark (fl_instrument fill) (fl_price fill) l2 else l2.
Proof.
  unfold settle. intros H. run_inv.
  match goal with H : terms _ _ = Ok ?t |- _ => rename t into tm; apply ok_or_Ok in H end.
  match goal with H : notional _ _ _ = Ok ?v |- _ => rename v into value end.
  repeat match goal with
  | H : settle_side _ _ _ _ _ _ _ = (_, Ok _) |- _ => apply settle_side_step in H as [-> ?]
  end.
  rewrite write_staged_empty in *. guards.
  exists tm, value. eexists _, _. repeat split; try done.
  destruct (fl_set_mark fill); run_inv; done.
Qed.

(** ** Effects of the pure steps *)

Lemma ok_or_checked {E} ty z (e : E) :
  int_min ty <= z <= int_max ty -> ok_or (checked ty z) e = Ok z.
Proof. intros H. by rewrite checked_in. Qed.

(** Exposes every checked ledger step in the context. *)
Ltac lchk :=
  unfold per_lot_total, negate, cash_available, position_available, overflow in *; chk.

Lemma notional_Ok price q m v :
  notional price q m = Ok v <-> v = price * q * m /\ is_i128 (price * q) /\ is_i128 (price * q * m).
Proof.
  unfold notional, overflow. rewrite ok_or_Ok. unfold checked_mul, is_i128. split.
  - intros H. chk. done.
  - intros (-> & H1 & H2). rewrite (checked_in I128 (price * q)) by done. simpl.
    by rewrite checked_in.
Qed.

Lemma per_lot_total_Ok c q v : per_lot_total c q = Ok v <-> v = c * q /\ is_i128 (c * q).
Proof. unfold per_lot_total, overflow, checked_mul. by rewrite ok_or_Ok, checked_Some. Qed.

(** A fill moves the quantity by the signed delta, touches no reservation or
    open quantity, and never creates or loses value: the change of cost basis
    is the traded notional plus the P&L realized. *)
Lemma apply_fill_Ok p d price m p' :
  apply_fill p d price m = Ok p' ->
  pos_quantity p' = pos_quantity p + d /\ is_i64 (pos_quantity p') /\
  pos_reserved p' = pos_reserved p /\ pos_open_buy p' = pos_open_buy p /\
  pos_open_sell p' = pos_open_sell p /\ pos_traded p' = pos_traded p /\
  is_i128 (pos_cost_basis p') /\ is_i128 (pos_realized_pnl p') /\
  pos_cost_basis p' - pos_realized_pnl p' =
    pos_cost_basis p - pos_realized_pnl p + d * (price * m).
Proof.
  unfold apply_fill. intros H.
  destruct (if _ : bool then Z.min _ _ else 0) as [|c|c] eqn:Hc;
    destruct (0 <? pos_quantity p) eqn:Hpos; unfold overflow in H; cbn [Z.eqb] in H; chk; subst;
    simpl; unfold is_i64, is_i128 in *;
    repeat split; try lia.
Qed.

(** Closing a position completely leaves no cost basis behind. *)
Lemma apply_fill_flat p d price m p' :
  apply_fill p d price m = Ok p' ->
  pos_quantity p <> 0 -> pos_quantity p + d = 0 -> pos_cost_basis p' = 0.
Proof.
  unfold apply_fill. intros H Hne Hz.
  assert (((0 <? pos_quantity p) && (d <? 0) || (pos_quantity p <? 0) && (0 <? d)) = true)
    as Hopp.
  { destruct (Z.ltb_spec 0 (pos_quantity p)); destruct (Z.ltb_spec d 0);
      destruct (Z.ltb_spec (pos_quantity p) 0); destruct (Z.ltb_spec 0 d);
      simpl; try done; lia. }
  rewrite Hopp in H.
  replace (Z.min (Z.abs (pos_quantity p)) (Z.abs d)) with (Z.abs (pos_quantity p)) in H by lia.
  destruct (Z.eqb_spec (Z.abs (pos_quantity p)) 0); [lia |].
  unfold overflow in H. chk. subst. simpl. rewrite Z.quot_mul by done.
  destruct (Z.ltb_spec 0 (pos_quantity p)); lia.
Qed.

Definition signed (side : Side) (q : Z) : Z := match side with Buy => q | Sell => - q end.

(** What one side of a fill releases from the order it fills. *)
Definition released_cash (side : Side) (party : FillParty) (q : Z) : Z :=
  match side, fp_order party with
  | Buy, Some r => rs_cash_per_lot r * q
  | _, _ => 0
  end.
Definition released_buy (side : Side) (party : FillParty) (q : Z) : Z :=
  match side, fp_order party with Buy, Some _ => q | _, _ => 0 end.
Definition released_sell (side : Side) (party : FillParty) (q : Z) : Z :=
  match side, fp_order party with Sell, Some _ => q | _, _ => 0 end.
Definition released_inventory (side : Side) (party : FillParty) (q : Z) : Z :=
  match side, fp_order party with
  | Sell, Some r => if rs_inventory r then q else 0
  | _, _ => 0
  end.

Record party_effect (t : InstrumentTerms) (fill : Fill) (value : Z) (side : Side)
    (party : FillParty) (b : CashBalance) (x : Position) (b' : CashBalance) (x' : Position)
    : Prop := {
  pe_balance : cb_balance b' = cb_balance b - signed side value - fp_fee party;
  pe_fees : cb_fees b' = cb_fees b + fp_fee party;
  pe_reserved : cb_reserved b' = cb_reserved b - released_cash side party (fl_quantity fill);
  pe_quantity : pos_quantity x' = pos_quantity x + signed side (fl_quantity fill);
  pe_open_buy : pos_open_buy x' = pos_open_buy x - released_buy side party (fl_quantity fill);
  pe_open_sell : pos_open_sell x' = pos_open_sell x - released_sell side party (fl_quantity fill);
  pe_pos_reserved :
    pos_reserved x' = pos_reserved x - released_inventory side party (fl_quantity fill);
  pe_traded : pos_traded x' = pos_traded x + fl_quantity fill;
  pe_basis : pos_cost_basis x' - pos_realized_pnl x' =
    pos_cost_basis x - pos_realized_pnl x
    + signed side (fl_quantity fill) * (fl_price fill * it_multiplier t);
  pe_released : fp_order party <> None ->
    0 <= pos_open_buy x' /\ 0 <= pos_open_sell x' /\ 0 <= pos_reserved x' /\
    0 <= cb_reserved b';
  pe_funded : side = Buy -> fp_enforce_funding party = true ->
    0 <= cb_balance b' - cb_reserved b';
  pe_covered : side = Sell -> it_shortable t = false ->
    0 <= pos_quantity x' - pos_reserved x';
  pe_ranges : is_i128 (cb_balance b') /\ is_i128 (cb_fees b') /\
    (is_i128 (cb_reserved b) -> is_i128 (cb_reserved b')) /\
    is_i64 (pos_quantity x') /\ is_i128 (pos_cost_basis x') /\
    is_i128 (pos_realized_pnl x') /\ is_i64 (pos_traded x') /\
    (is_i64 (pos_open_buy x) -> is_i64 (pos_open_buy x')) /\
    (is_i64 (pos_open_sell x) -> is_i64 (pos_open_sell x')) /\
    (is_i64 (pos_reserved x) -> is_i64 (pos_reserved x'))
}.

(** Releasing the filled part of an open order, exactly. *)
Lemma release_filled_Ok side party q b x b' x' :
  release_filled side party q b x = Ok (b', x') ->
  b' = with_cash_reserved b (cb_reserved b - released_cash side party q) /\
  x' = with_reserved (with_open_sell
         (with_open_buy x (pos_open_buy x - released_buy side party q))
         (pos_open_sell x - released_sell side party q))
         (pos_reserved x - released_inventory side party q) /\
  (is_i128 (cb_reserved b) -> is_i128 (cb_reserved b')) /\
  (is_i64 (pos_open_buy x) -> is_i64 (pos_open_buy x')) /\
  (is_i64 (pos_open_sell x) -> is_i64 (pos_open_sell x')) /\
  (is_i64 (pos_reserved x) -> is_i64 (pos_reserved x')) /\
  (fp_order party <> None -> 0 <= pos_open_buy x' /\ 0 <= pos_open_sell x' /\
    0 <= pos_reserved x' /\ 0 <= cb_reserved b').
Proof.
  unfold release_filled, released_cash, released_buy, released_sell, released_inventory.
  destruct b as [bal res fe], x as [q0 r0 ob os cb rp tr].
  destruct (fp_order party) as [r|]; intros H.
  - apply result_bind_Ok in H as ([b1 x1] & H1 & H2).
    destruct (_ || _) eqn:Hneg in H2; [done |]. injection H2 as <- <-. guards.
    destruct side; [| destruct (rs_inventory r)]; lchk;
      simplify_eq; simpl in *; repeat split;
      unfold with_cash_reserved, with_reserved, with_open_sell, with_open_buy, is_i64, is_i128 in *;
      simpl in *; first [done | lia | f_equal; lia].
  - injection H as <- <-.
    destruct side; simpl; repeat split;
      unfold with_cash_reserved, with_reserved, with_open_sell, with_open_buy, is_i64, is_i128 in *;
      simpl in *; first [done | lia | f_equal; lia].
Qed.

Lemma settle_party_Ok t fill value side party b x b' x' :
  settle_party t fill value side party b x = Ok (b', x') ->
  party_effect t fill value side party b x b' x'.
Proof.
  unfold settle_party. intros H.
  apply result_bind_Ok in H as ([b1 x1] & Hrel & H).
  apply release_filled_Ok in Hrel as (-> & -> & Hr1 & Hr2 & Hr3 & Hr4 & Hnn).
  apply result_bind_Ok in H as ([flow delta] & Hflow & H).
  apply result_bind_Ok in H as (amount & Hamount & H).
  apply result_bind_Ok in H as (fees & Hfees & H).
  apply result_bind_Ok in H as (x2 & Hfill & H).
  apply apply_fill_Ok in Hfill as (Hq & Hqr & Hre & Hob & Hos & Htr & Hcb & Hrp & Hbasis).
  apply result_bind_Ok in H as (traded & Htraded & H).
  apply result_bind_Ok in H as ([] & Hfund & H).
  apply result_bind_Ok in H as ([] & Hcov & H). injection H as <- <-.
  assert (flow = - signed side value /\ delta = signed side (fl_quantity fill)) as [-> ->].
  { destruct side; lchk; simplify_eq; simpl; split; lia. }
  lchk. constructor; simpl in *; rewrite ?Hq, ?Hre, ?Hob, ?Hos, ?Htr in *; try done; try lia.
  - intros -> Hen. rewrite Hen in Hfund. simpl in Hfund.
    apply result_bind_Ok in Hfund as (a & Ha & Hc).
    destruct (Z.ltb_spec a 0); [done |]. chk. simpl in *. lia.
  - intros -> Hsh. rewrite Hsh in Hcov. simpl in Hcov.
    apply result_bind_Ok in Hcov as (a & Ha & Hc).
    destruct (Z.ltb_spec a 0); [done |]. chk. simpl in *. lia.
Qed.

(** ** The ledger invariant *)

Record cash_ok (b : CashBalance) : Prop := {
  co_balance : is_i128 (cb_balance b);
  co_reserved : 0 <= cb_reserved b /\ is_i128 (cb_reserved b);
  co_fees : is_i128 (cb_fees b)
}.

Record position_ok (x : Position) : Prop := {
  po_quantity : is_i64 (pos_quantity x);
  po_reserved : 0 <= pos_reserved x /\ is_i64 (pos_reserved x);
  po_open_buy : 0 <= pos_open_buy x /\ is_i64 (pos_open_buy x);
  po_open_sell : 0 <= pos_open_sell x /\ is_i64 (pos_open_sell x);
  po_cost_basis : is_i128 (pos_cost_basis x);
  po_realized : is_i128 (pos_realized_pnl x);
  po_traded : is_i64 (pos_traded x)
}.

Record terms_ok (i : Z) (t : InstrumentTerms) : Prop := {
  to_instrument : i <> 0;
  to_currency : it_currency t <> 0;
  to_multiplier : 0 < it_multiplier t /\ is_i64 (it_multiplier t)
}.

Record ledger_ok (l : Ledger) : Prop := {
  lo_terms : map_Forall terms_ok (lg_terms l);
  lo_cash : map_Forall (fun _ => cash_ok) (lg_cash l);
  lo_positions : map_Forall (fun _ => position_ok) (lg_positions l);
  lo_marks : map_Forall (fun _ m => 0 < m /\ is_i64 m) (lg_marks l)
}.

(** The arguments an operation receives have the types of the source. *)
Definition op_typed (op : LedgerOp) : Prop :=
  match op with
  | OpConfigure _ t => is_i64 (it_multiplier t)
  | OpSetMark _ p => is_i64 p
  | OpPostCash _ _ _ => True
  | OpSeedPosition _ _ q b => is_i64 q /\ is_i128 b
  | OpOpenOrder _ _ _ q _ | OpCloseOrder _ _ _ q _ => is_i64 q
  | OpSettle f => is_i64 (fl_price f)
  | OpConvert _ _ _ => True
  end.

Lemma cash_ok_default : cash_ok CashBalance_default.
Proof. split; simpl; ranges; lia. Qed.
Lemma position_ok_default : position_ok Position_default.
Proof. split; simpl; ranges; lia. Qed.

Lemma ledger_ok_cash l p c : ledger_ok l -> cash_ok (cash l p c).
Proof.
  intros Hl. unfold cash. destruct (lg_cash l !! _) eqn:E; simpl; [| apply cash_ok_default].
  by apply (lo_cash l Hl) in E.
Qed.
Lemma ledger_ok_position l p i : ledger_ok l -> position_ok (position l p i).
Proof.
  intros Hl. unfold position.
  destruct (lg_positions l !! _) eqn:E; simpl; [| apply position_ok_default].
  by apply (lo_positions l Hl) in E.
Qed.
Lemma ledger_ok_terms l i t : ledger_ok l -> terms l i = Ok t -> terms_ok i t.
Proof. intros Hl Ht. apply ok_or_Ok in Ht. by apply (lo_terms l Hl) in Ht. Qed.

Lemma ledger_ok_put_terms l i t : ledger_ok l -> terms_ok i t -> ledger_ok (put_terms i t l).
Proof. intros [] Ht. split; simpl; try done. by apply map_Forall_insert_2. Qed.
Lemma ledger_ok_put_cash l p c b : ledger_ok l -> cash_ok b -> ledger_ok (put_cash p c b l).
Proof. intros [] Hb. split; simpl; try done. by apply map_Forall_insert_2. Qed.
Lemma ledger_ok_put_position l p i x :
  ledger_ok l -> position_ok x -> ledger_ok (put_position p i x l).
Proof. intros [] Hx. split; simpl; try done. by apply map_Forall_insert_2. Qed.
Lemma ledger_ok_put_mark l i m : ledger_ok l -> 0 < m -> is_i64 m -> ledger_ok (put_mark i m l).
Proof. intros [] Hm Hm'. split; simpl; try done. by apply map_Forall_insert_2. Qed.

Create HintDb ledger.
#[export] Hint Resolve cash_ok_default position_ok_default ledger_ok_cash ledger_ok_position
  ledger_ok_terms ledger_ok_put_terms ledger_ok_put_cash ledger_ok_put_position
  ledger_ok_put_mark : ledger.

Lemma party_effect_ok t fill value side party b x b' x' :
  party_effect t fill value side party b x b' x' ->
  cash_ok b -> position_ok x -> cash_ok b' /\ position_ok x'.
Proof.
  intros [] Hb Hx. destruct Hb, Hx.
  destruct pe_ranges0 as (? & ? & ? & ? & ? & ? & ? & ? & ? & ?).
  assert (0 <= pos_open_buy x' /\ 0 <= pos_open_sell x' /\ 0 <= pos_reserved x' /\
    0 <= cb_reserved b') as (? & ? & ? & ?).
  { destruct (fp_order party) eqn:Ho; [by apply pe_released0 |].
    unfold released_cash, released_buy, released_sell, released_inventory in *.
    rewrite Ho in *. destruct side; lia. }
  split; split; try done; try (split; [done |]); naive_solver.
Qed.

Lemma party_step_ok t fill value side party l l' :
  ledger_ok l -> party_step t fill value side party l l' -> ledger_ok l'.
Proof.
  intros Hl. destruct party as [party|]; simpl; [| by intros ->].
  intros (b & x & Hs & ->). apply settle_party_Ok in Hs.
  apply party_effect_ok in Hs as [? ?]; auto with ledger.
Qed.

(** ** Opening and closing orders *)

(** The signed change of open quantity, and the balance and position an
    order on [side] leaves after it. *)
Definition open_delta (open : bool) (q : Z) : Z := if open then q else - q.

Definition opened_cash (side : Side) (r : Reservation) (d : Z) (b : CashBalance) : CashBalance :=
  match side with
  | Buy => with_cash_reserved b (cb_reserved b + rs_cash_per_lot r * d)
  | Sell => b
  end.

Definition opened_position (side : Side) (r : Reservation) (d : Z) (x : Position) : Position :=
  match side with
  | Buy => with_open_buy x (pos_open_buy x + d)
  | Sell =>
      let x := with_open_sell x (pos_open_sell x + d) in
      if rs_inventory r then with_reserved x (pos_reserved x + d) else x
  end.

(** Runs a computation whose steps all succeed. *)
Ltac guard_false := rewrite ?orb_false_iff, ?Z.ltb_ge, ?Z.leb_gt; simpl; ranges; lia.
Ltac run_go :=
  unfold checked_add, per_lot_total, checked_mul, cash_available, position_available,
    checked_sub, overflow;
  repeat first
    [ rewrite bind_assoc | rewrite bind_gets | rewrite bind_ret | rewrite bind_modify
    | erewrite bind_lift by (apply ok_or_checked; simpl; ranges; lia)
    | rewrite bind_refuse by guard_false
    | progress simpl ].

(** When [change_open] succeeds. *)
Record open_guards (side : Side) (q : Z) (r : Reservation) (open : bool)
    (b : CashBalance) (x : Position) : Prop := {
  og_quantity : 0 < q;
  og_delta : is_i64 (open_delta open q);
  og_open : match side with
            | Buy => is_i64 (pos_open_buy x + open_delta open q)
            | Sell => is_i64 (pos_open_sell x + open_delta open q)
            end;
  og_amount : side = Buy -> is_i128 (rs_cash_per_lot r * q);
  og_cash : side = Buy -> is_i128 (cb_reserved (opened_cash side r (open_delta open q) b));
  og_reserved : side = Buy -> 0 <= cb_reserved (opened_cash side r (open_delta open q) b);
  og_available : side = Buy -> open = true ->
    let b' := opened_cash side r (open_delta open q) b in
    0 <= cb_balance b' - cb_reserved b' <= int_max I128;
  og_inventory : side = Sell -> rs_inventory r = true ->
    let x' := opened_position side r (open_delta open q) x in
    0 <= pos_reserved x' <= int_max I64 /\
    (open = true -> 0 <= pos_quantity x' - pos_reserved x' <= int_max I64);
  og_nonneg :
    let x' := opened_position side r (open_delta open q) x in
    0 <= pos_open_buy x' /\ 0 <= pos_open_sell x'
}.

Lemma change_open_Ok p i s q r o l l' u :
  is_i64 q ->
  change_open p i s q r o l = (l', Ok u) <->
  exists t, terms l i = Ok t /\
    open_guards s q r o (cash l p (it_currency t)) (position l p i) /\
    l' = put_cash p (it_currency t)
           (opened_cash s r (open_delta o q) (cash l p (it_currency t)))
           (put_position p i (opened_position s r (open_delta o q) (position l p i)) l).
Proof.
  intros Hq. split.
  - unfold change_open. intros H. run_inv.
    match goal with H : terms _ _ = Ok ?t |- _ => exists t; split; [exact H |] end.
    match goal with H : overflow (if o then _ else _) = Ok ?d |- _ =>
      assert (d = open_delta o q /\ is_i64 (open_delta o q)) as [-> Hd]
        by (destruct o; lchk; simplify_eq; ranges; simpl; lia); clear H end.
    destruct s; run_inv; [| destruct (rs_inventory r) eqn:Hinv; run_inv];
      destruct o; run_inv; lchk; guards; simpl in *; unfold open_delta in *;
      (split; [split |]); try done; simpl in *; rewrite ?Hinv in *; simpl in *; ranges;
      intros; try lia; try (repeat split; lia);
      unfold put_cash, put_position; simpl;
      repeat f_equal; try lia;
      match goal with |- ?b = _ => by destruct b end.
  - intros (t & Ht & [] & ->).
    unfold change_open. rewrite bind_gets, (bind_lift _ _ _ t) by done.
    rewrite bind_refuse by (apply Z.leb_gt; lia).
    rewrite (bind_lift _ _ _ (open_delta o q)).
    2: { destruct o; simpl in *; [done |]. apply ok_or_checked. ranges. lia. }
    destruct u.
    destruct s; simpl in *;
      [ specialize (og_amount0 eq_refl); specialize (og_cash0 eq_refl);
        specialize (og_reserved0 eq_refl); specialize (og_available0 eq_refl)
      | destruct (rs_inventory r); simpl in *;
          [specialize (og_inventory0 eq_refl eq_refl) as [? ?] |] ];
      destruct o; simpl in *; run_go; try done.
    unfold modify. do 3 f_equal. unfold with_cash_reserved. f_equal. lia.
Qed.

Lemma change_open_ok p i s q r o l l' u :
  is_i64 q -> ledger_ok l -> change_open p i s q r o l = (l', Ok u) -> ledger_ok l'.
Proof.
  intros Hq Hl (t & Ht & Hg & ->)%change_open_Ok; [| done].
  pose proof (ledger_ok_cash l p (it_currency t) Hl) as [].
  pose proof (ledger_ok_position l p i Hl) as [].
  destruct Hg.
  apply ledger_ok_put_cash; [apply ledger_ok_put_position; [done |] |];
    split; destruct s; simpl in *; try done; try (by auto);
    destruct (rs_inventory r); simpl in *; try done; try (split; [lia | ranges; lia]).
  - specialize (og_inventory0 eq_refl eq_refl). ranges. lia.
Qed.

Lemma settle_ok f l l' u :
  is_i64 (fl_price f) -> ledger_ok l -> settle f l = (l', Ok u) -> ledger_ok l'.
Proof.
  intros Hp Hl (t & v & l1 & l2 & _ & _ & Hpos & _ & H1 & H2 & ->)%settle_steps.
  pose proof (party_step_ok _ _ _ _ _ _ _ (party_step_ok _ _ _ _ _ _ _ Hl H1) H2).
  destruct (fl_set_mark f); auto with ledger.
Qed.

Lemma ledger_ok_foldl_put p staged l :
  ledger_ok l -> Forall (fun e => position_ok e.2) staged ->
  ledger_ok (foldl (fun l (e : Z * Position) => put_position p e.1 e.2 l) l staged).
Proof.
  intros Hl Hs. revert l Hl. induction Hs; intros l0 Hl; simpl; auto with ledger.
Qed.

Lemma position_ok_with x q b :
  position_ok x -> is_i64 q -> is_i128 b -> position_ok (with_quantity_basis x q b).
Proof. intros [] ??. by split. Qed.

(** ** Physical conversion *)

(** Removing the input: its proportional cost basis is transferred. *)
Definition convert_input (p : Z) (input : option (Z * Z)) (l l1 : Ledger) (tr : Z) : Prop :=
  match input with
  | None => l1 = l /\ tr = 0
  | Some (i, q) =>
      let x := position l p i in
      is_Some (lg_terms l !! i) /\ 0 < q /\ q <= pos_quantity x - pos_reserved x /\
      tr = (if 0 <? pos_quantity x then Z.quot (pos_cost_basis x * q) (pos_quantity x) else 0) /\
      is_i128 (pos_cost_basis x - tr) /\ is_i64 (pos_quantity x - q) /\
      l1 = put_position p i (with_quantity_basis x (pos_quantity x - q) (pos_cost_basis x - tr)) l
  end.

(** Adding the output, which receives the transferred basis. *)
Definition convert_output (p : Z) (output : option (Z * Z)) (tr : Z) (l1 l' : Ledger) : Prop :=
  match output with
  | None => l' = l1
  | Some (i, q) =>
      let x := position l1 p i in
      is_Some (lg_terms l1 !! i) /\ 0 < q /\
      is_i128 (pos_cost_basis x + tr) /\ is_i64 (pos_quantity x + q) /\
      l' = put_position p i (with_quantity_basis x (pos_quantity x + q) (pos_cost_basis x + tr)) l1
  end.

Lemma put_position_twice p i x y l : put_position p i y (put_position p i x l) = put_position p i y l.
Proof. unfold put_position. simpl. by rewrite insert_insert_eq. Qed.

Lemma convert_stage_input_Ok l p input tr staged :
  convert_stage_input l p input = Ok (tr, staged) ->
  convert_input p input l (foldl (fun l e => put_position p e.1 e.2 l) l staged) tr /\
  (staged = [] \/ exists i x, staged = [(i, x)]).
Proof.
  unfold convert_stage_input, convert_input. destruct input as [[i q]|]; intros H.
  2: { injection H as <- <-. by split; [| left]. }
  apply result_bind_Ok in H as (t & Ht%ok_or_Ok & H).
  apply result_bind_Ok in H as (refuse & Hr & H). destruct refuse; [done |].
  destruct (q <=? 0) eqn:Hq; [done |].
  destruct (0 <? pos_quantity (position l p i)); lchk; guards; simplify_eq; simpl;
    (split; [| by eauto]); split_and!; eauto; lia.
Qed.

Lemma convert_Ok p input output l l' u :
  convert p input output l = (l', Ok u) ->
  exists tr l1, convert_input p input l l1 tr /\ convert_output p output tr l1 l'.
Proof.
  intros H. unfold convert in H. rewrite bind_gets in H. cbn [id] in H. run_inv.
  match goal with H : convert_stage_input _ _ _ = _ |- _ =>
    apply convert_stage_input_Ok in H as [Hi Hst] end.
  eexists _, _. split; [exact Hi |].
  unfold convert_stage_output, convert_output in *.
  destruct output as [[j q]|]; [| by simplify_eq].
  match goal with H : _ = Ok _ |- _ => apply result_bind_Ok in H as (t & Ht%ok_or_Ok & H) end.
  destruct (q <=? 0) eqn:Hq; [done |]. lchk. guards. subst.
  destruct Hst as [->|(i & y & ->)]; simpl in *; [by split_and!; eauto |].
  destruct (decide (i = j)) as [->|Hne]; simpl in *.
  - rewrite position_put_position, bool_decide_true in * by done.
    rewrite filter_cons_False, filter_nil by (simpl; tauto). simpl. rewrite put_position_twice. by split_and!; eauto.
  - rewrite position_put_position, bool_decide_false in * by congruence.
    rewrite filter_cons_True, filter_nil by done. simpl. by split_and!; eauto.
Qed.

Lemma convert_ok p i o l l' u :
  ledger_ok l -> convert p i o l = (l', Ok u) -> ledger_ok l'.
Proof.
  intros Hl (tr & l1 & Hi & Ho)%convert_Ok.
  assert (ledger_ok l1).
  { destruct i as [[i q]|]; [| by destruct Hi as [-> _]].
    destruct Hi as (_ & _ & _ & _ & ? & ? & ->).
    auto using position_ok_with with ledger. }
  destruct o as [[j q]|]; [| by rewrite Ho].
  destruct Ho as (_ & _ & ? & ? & ->). auto using position_ok_with with ledger.
Qed.

Lemma run_op_ok op l l' u :
  op_typed op -> ledger_ok l -> run_op op l = (l', Ok u) -> ledger_ok l'.
Proof.
  intros Ht Hl. destruct op; simpl in *; intros H.
  - unfold configure_instrument in H. run_inv. guards. apply ledger_ok_put_terms; [done |].
    by split.
  - unfold set_mark in H. run_inv. guards. auto with ledger.
  - unfold post_cash in H. run_inv. lchk. guards. apply ledger_ok_put_cash; [done |].
    match goal with |- cash_ok (with_balance ?b _) =>
      assert (cash_ok b) as [] by auto with ledger end. by split.
  - unfold seed_position in H. run_inv. destruct Ht.
    auto using position_ok_with with ledger.
  - by eapply change_open_ok.
  - by eapply change_open_ok.
  - by eapply settle_ok.
  - by eapply convert_ok.
Qed.

(** ** Reachable ledgers *)

(** One call of a mutating operation, successful or refused. *)
Definition ledger_step (l l' : Ledger) : Prop :=
  exists op r, op_typed op /\ run_op op l = (l', r).

Lemma run_op_fails_clean op : fails_clean (run_op op).
Proof.
  destruct op; cbn [run_op];
    [ unfold configure_instrument; staging | unfold set_mark; staging
    | unfold post_cash; staging | unfold seed_position; staging
    | unfold open_order; apply fails_clean_change_open
    | unfold close_order; apply fails_clean_change_open
    | apply fails_clean_settle | apply fails_clean_convert ].
Qed.

Lemma ledger_step_ok l l' : ledger_ok l -> ledger_step l l' -> ledger_ok l'.
Proof.
  intros Hl (op & [u|e] & Ht & Hr); [by eapply run_op_ok |].
  by rewrite (run_op_fails_clean op _ _ _ Hr).
Qed.

Lemma ledger_new_ok : ledger_ok Ledger_new.
Proof. split; apply map_Forall_empty. Qed.

(** ** Conservation *)

(** Cash of one currency held by all participants, with the fees they paid. *)
Definition total_cash (c : Z) (l : Ledger) : Z :=
  map_sum (fun k b => if k.2 =? c then cb_balance b + cb_fees b else 0) (lg_cash l).

(** Net holding of one instrument over all participants. *)
Definition total_holding (i : Z) (l : Ledger) : Z :=
  map_sum (fun k x => if k.2 =? i then pos_quantity x else 0) (lg_positions l).

Lemma total_cash_put_cash c l p c' b :
  total_cash c (put_cash p c' b l) =
  total_cash c l +
  (if c' =? c then (cb_balance b + cb_fees b)
                   - (cb_balance (cash l p c') + cb_fees (cash l p c')) else 0).
Proof.
  unfold total_cash, put_cash, cash. simpl. rewrite map_sum_insert_any. unfold at_key. simpl.
  destruct (lg_cash l !! (p, c')); simpl; destruct (c' =? c); lia.
Qed.

Lemma total_holding_put_position i l p i' x :
  total_holding i (put_position p i' x l) =
  total_holding i l +
  (if i' =? i then pos_quantity x - pos_quantity (position l p i') else 0).
Proof.
  unfold total_holding, put_position, position. simpl.
  rewrite map_sum_insert_any. unfold at_key. simpl.
  destruct (lg_positions l !! (p, i')); simpl; destruct (i' =? i); lia.
Qed.

Definition party_flow {A} (party : option A) (v : Z) : Z :=
  match party with Some _ => v | None => 0 end.

Lemma party_step_totals t fill value side party l l' c i :
  party_step t fill value side party l l' ->
  total_cash c l' = total_cash c l
    - (if it_currency t =? c then party_flow party (signed side value) else 0) /\
  total_holding i l' = total_holding i l
    + (if fl_instrument fill =? i then party_flow party (signed side (fl_quantity fill)) else 0).
Proof.
  destruct party as [party|]; simpl; [| intros ->; split; by case_match; lia].
  intros (b & x & [] %settle_party_Ok & ->).
  rewrite total_holding_put_position.
  change (total_cash c (put_position (fp_participant party) (fl_instrument fill) x
    (put_cash (fp_participant party) (it_currency t) b l))) with
    (total_cash c (put_cash (fp_participant party) (it_currency t) b l)).
  rewrite total_cash_put_cash, position_put_cash.
  change (total_holding i (put_cash ?p ?c ?b l)) with (total_holding i l).
  split; case_match; lia.
Qed.

(** ** Errors of the pure steps *)

Lemma result_bind_Err {E A B} (r : result E A) (f : A -> result E B) e :
  (r ≫= f) = Err e <-> r = Err e \/ exists a, r = Ok a /\ f a = Err e.
Proof. destruct r; unfold mbind, result_bind; naive_solver. Qed.

Lemma overflow_Err {A} (o : option A) e :
  overflow o = Err e -> e = LedgerError.ArithmeticOverflow.
Proof. destruct o; naive_solver. Qed.

(** Follows the error of a chain of steps to the step that raised it. *)
Ltac err_inv :=
  repeat match goal with
  | H : @mbind (result _) _ _ _ _ _ = Err _ |- _ =>
      apply result_bind_Err in H as [H|(? & ? & H)]
  | H : overflow _ = Err _ |- _ => apply overflow_Err in H; simplify_eq
  | H : per_lot_total _ _ = Err _ |- _ => apply overflow_Err in H; simplify_eq
  | H : negate _ = Err _ |- _ => apply overflow_Err in H; simplify_eq
  | H : Ok _ = Err _ |- _ => discriminate H
  | H : (let '(_, _) := ?x in _) = Err _ |- _ => destruct x
  | H : (if ?c then _ else _) = Err _ |- _ => destruct c eqn:?
  end; simplify_eq.

Lemma apply_fill_Err p d price m e :
  apply_fill p d price m = Err e -> e = LedgerError.ArithmeticOverflow.
Proof. unfold apply_fill. intros H. by err_inv. Qed.

Lemma release_filled_Err side party q b x e :
  release_filled side party q b x = Err e ->
  e = LedgerError.ArithmeticOverflow \/ e = LedgerError.InvalidRelease.
Proof.
  unfold release_filled. destruct (fp_order party); intros H; [| done].
  err_inv; auto; destruct side; err_inv; auto.
Qed.

(** A buyer can only be refused for cash when the fill would really leave
    it with a negative available balance. *)
Lemma settle_party_unfunded t fill value side party b x :
  settle_party t fill value side party b x = Err LedgerError.InsufficientCash ->
  side = Buy /\
  cb_balance b - value - fp_fee party
    - (cb_reserved b - released_cash side party (fl_quantity fill)) < 0.
Proof.
  unfold settle_party. intros H.
  apply result_bind_Err in H as [[]%release_filled_Err|([b1 x1] & Hrel & H)]; [done.. |].
  apply release_filled_Ok in Hrel as (-> & _).
  apply result_bind_Err in H as [H|([flow delta] & Hf & H)].
  { destruct side; by err_inv. }
  apply result_bind_Err in H as [H|(amount & Ha & H)]; [by err_inv |].
  apply result_bind_Err in H as [H|(fees & _ & H)]; [by err_inv |].
  apply result_bind_Err in H as [H|(x2 & _ & H)]; [by apply apply_fill_Err in H |].
  apply result_bind_Err in H as [H|(traded & _ & H)]; [by err_inv |].
  apply result_bind_Err in H as [H|(? & _ & H)]; [| by err_inv].
  destruct side; [| done]. simpl in H. destruct (fp_enforce_funding party); [| done].
  apply result_bind_Err in H as [H|(av & Hav & H)]; [by err_inv |].
  destruct (Z.ltb_spec av 0); [| done]. lchk. simplify_eq. simpl in *. split; [done | lia].
Qed.

(** ** Lookups of terms after writes *)

Lemma party_step_terms t fill value side party l l' :
  party_step t fill value side party l l' -> lg_terms l' = lg_terms l.
Proof. destruct party; simpl; [intros (b & x & _ & ->) | intros ->]; done. Qed.

(** * What the ledger reserves for open orders

    The four amounts the ledger holds against a participant's open orders
    (open buy and sell quantity, reserved inventory, reserved cash), and how
    each ledger operation changes them: an order adds its weight per lot when
    it opens and gives it back lot by lot when it fills or closes. *)

Inductive Claim : Type :=
  | OpenBuy (instrument : Z)
  | OpenSell (instrument : Z)
  | Inventory (instrument : Z)
  | CashOf (currency : Z).

(** The amount the ledger holds of participant [p]. *)
Definition held (l : Ledger) (p : Z) (k : Claim) : Z :=
  match k with
  | OpenBuy i => pos_open_buy (position l p i)
  | OpenSell i => pos_open_sell (position l p i)
  | Inventory i => pos_reserved (position l p i)
  | CashOf c => cb_reserved (cash l p c)
  end.

(** What one lot of an order adds to each claim. *)
Definition weight (t : InstrumentTerms) (i : Z) (s : Side) (r : Reservation) (k : Claim) : Z :=
  match k, s with
  | OpenBuy j, Buy => if i =? j then 1 else 0
  | OpenSell j, Sell => if i =? j then 1 else 0
  | Inventory j, Sell => if (i =? j) && rs_inventory r then 1 else 0
  | CashOf c, Buy => if it_currency t =? c then rs_cash_per_lot r else 0
  | _, _ => 0
  end.

Lemma held_range l p k : ledger_ok l -> 0 <= held l p k <= int_max I128.
Proof.
  intros Hl. destruct k as [i|i|i|c]; simpl;
    [pose proof (ledger_ok_position l p i Hl) as []..| pose proof (ledger_ok_cash l p c Hl) as []];
    ranges; lia.
Qed.

Lemma weight_nonneg t i s r k : 0 <= rs_cash_per_lot r -> 0 <= weight t i s r k.
Proof. intros Hr. destruct k, s; simpl; repeat case_match; lia. Qed.

(** Writing one balance or position changes only the claims on it. *)
Lemma held_put_cash l p c b p' k :
  held (put_cash p c b l) p' k =
  match k with
  | CashOf c' => if bool_decide (p = p' /\ c = c') then cb_reserved b else held l p' k
  | _ => held l p' k
  end.
Proof.
  destruct k as [i|i|i|c']; simpl; try done. rewrite cash_put_cash.
  repeat case_bool_decide; naive_solver.
Qed.

Lemma held_put_position l p i x p' k :
  held (put_position p i x l) p' k =
  match k with
  | OpenBuy j => if bool_decide (p = p' /\ i = j) then pos_open_buy x else held l p' k
  | OpenSell j => if bool_decide (p = p' /\ i = j) then pos_open_sell x else held l p' k
  | Inventory j => if bool_decide (p = p' /\ i = j) then pos_reserved x else held l p' k
  | CashOf _ => held l p' k
  end.
Proof.
  destruct k as [j|j|j|c']; simpl; try done; rewrite position_put_position;
  repeat case_bool_decide; naive_solver.
Qed.

(** ** Opening and closing *)

Lemma change_open_held p i s q r o l l' u :
  is_i64 q -> change_open p i s q r o l = (l', Ok u) ->
  exists t, lg_terms l !! i = Some t /\ lg_terms l' = lg_terms l /\ 0 < q /\
    forall p' k, held l' p' k =
      held l p' k + (if p =? p' then weight t i s r k * open_delta o q else 0).
Proof.
  intros Hq (t & Ht%ok_or_Ok & Hg & ->)%change_open_Ok; [| done].
  exists t. split_and!; [done | done | apply Hg |]. intros p' k.
  rewrite held_put_cash. destruct (Z.eqb_spec p p') as [->|Hp].
  2: { rewrite held_put_position. destruct k; rewrite ?bool_decide_false by tauto; lia. }
  rewrite held_put_position. destruct k as [j|j|j|c], s; simpl;
    try (destruct (Z.eqb_spec i j) as [->|]);
    try (destruct (Z.eqb_spec (it_currency t) c) as [<-|]);
    rewrite ?bool_decide_true, ?bool_decide_false by tauto; simpl;
    try destruct (rs_inventory r); simpl; try lia.
Qed.

(** An order whose lots the ledger holds can always be closed. *)
Lemma close_order_run p i s q r l t :
  ledger_ok l -> lg_terms l !! i = Some t -> 0 < q -> is_i64 q -> 0 <= rs_cash_per_lot r ->
  (forall k, weight t i s r k * q <= held l p k) ->
  exists l', close_order p i s q r l = (l', Ok tt).
Proof.
  intros Hl Ht Hq Hi Hr Hk. unfold close_order. eexists.
  apply change_open_Ok; [done |]. exists t. split; [by apply ok_or_Ok |]. split; [| reflexivity].
  pose proof (ledger_ok_cash l p (it_currency t) Hl) as [_ Hc _].
  pose proof (ledger_ok_position l p i Hl) as [_ Hpr Hpb Hps _ _ _].
  pose proof (Hk (OpenBuy i)) as H1. pose proof (Hk (OpenSell i)) as H2.
  pose proof (Hk (Inventory i)) as H3. pose proof (Hk (CashOf (it_currency t))) as H4.
  simpl in *. rewrite !Z.eqb_refl in *. simpl in *.
  destruct s; split; simpl; try done; intros; try destruct (rs_inventory r); simpl in *;
    try done; ranges; try nia.
Qed.

(** ** Settlement *)

(** What one party of a fill gives back. *)
Definition party_release (t : InstrumentTerms) (fill : Fill) (s : Side) (party : option FillParty)
    (p : Z) (k : Claim) : Z :=
  match party with
  | Some party =>
      match fp_order party with
      | Some r => if fp_participant party =? p
                  then weight t (fl_instrument fill) s r k * fl_quantity fill else 0
      | None => 0
      end
  | None => 0
  end.

Lemma party_step_held t fill value s party l l' p k :
  party_step t fill value s party l l' ->
  held l' p k = held l p k - party_release t fill s party p k.
Proof.
  destruct party as [party|]; simpl; [| intros ->; lia].
  intros (b & x & []%settle_party_Ok & ->). rewrite held_put_position, held_put_cash.
  unfold released_cash, released_buy, released_sell, released_inventory in *.
  destruct (Z.eqb_spec (fp_participant party) p) as [<-|Hp].
  2: { destruct k, (fp_order party); rewrite ?bool_decide_false by tauto; lia. }
  destruct k as [j|j|j|c]; simpl;
    try (destruct (Z.eqb_spec (fl_instrument fill) j) as [<-|]);
    try (destruct (Z.eqb_spec (it_currency t) c) as [<-|]);
    rewrite ?bool_decide_true, ?bool_decide_false by tauto;
    destruct s, (fp_order party) as [r|]; simpl in *;
    try destruct (rs_inventory r); simpl in *; try lia.
Qed.

Lemma settle_held fill l l' u :
  settle fill l = (l', Ok u) ->
  exists t, lg_terms l !! fl_instrument fill = Some t /\ lg_terms l' = lg_terms l /\
    0 < fl_quantity fill /\ 0 < fl_price fill /\
    forall p k, held l' p k = held l p k - party_release t fill Buy (fl_buyer fill) p k
                              - party_release t fill Sell (fl_seller fill) p k.
Proof.
  intros (t & v & l1 & l2 & Ht & Hq & Hpr & _ & H1 & H2 & ->)%settle_steps.
  exists t. pose proof (party_step_terms _ _ _ _ _ _ _ H1). pose proof (party_step_terms _ _ _ _ _ _ _ H2).
  split_and!; try done.
  - destruct (fl_set_mark fill); simpl; congruence.
  - intros p k. pose proof (party_step_held _ _ _ _ _ _ _ p k H1).
    pose proof (party_step_held _ _ _ _ _ _ _ p k H2).
    assert (held (if fl_set_mark fill then put_mark (fl_instrument fill) (fl_price fill) l2 else l2) p k
      = held l2 p k) as -> by (by destruct (fl_set_mark fill), k). lia.
Qed.

(** ** Operations that touch no open order *)

Definition same_claims (l l' : Ledger) : Prop :=
  lg_terms l' = lg_terms l /\ forall p k, held l' p k = held l p k.

#[export] Instance same_claims_preorder : PreOrder same_claims.
Proof.
  split; [by intros l |]. intros l1 l2 l3 [Ht1 H1] [Ht2 H2].
  split; [congruence |]. intros p k. by rewrite H2, H1.
Qed.

Lemma post_cash_claims p c a l l' u : post_cash p c a l = (l', Ok u) -> same_claims l l'.
Proof.
  unfold post_cash. intros H. run_inv. split; [done |]. intros p' k. rewrite held_put_cash.
  destruct k as [j|j|j|c']; try done. case_bool_decide as Hc; [| done]. by destruct Hc as [-> ->].
Qed.

Lemma set_mark_claims i m l l' u : set_mark i m l = (l', Ok u) -> same_claims l l'.
Proof. unfold set_mark. intros H. run_inv. split; [done |]. by intros p' []. Qed.

Lemma put_quantity_claims p i q b l :
  same_claims l (put_position p i (with_quantity_basis (position l p i) q b) l).
Proof.
  split; [done |]. intros p' k. rewrite held_put_position.
  destruct k as [j|j|j|c]; try done; case_bool_decide as Hc; try done; by destruct Hc as [-> ->].
Qed.

Lemma convert_claims p i o l l' u : convert p i o l = (l', Ok u) -> same_claims l l'.
Proof.
  intros (tr & l1 & Hi & Ho)%convert_Ok. trans l1.
  - destruct i as [[i q]|]; simpl in Hi; [| by destruct Hi as [-> _]].
    destruct Hi as (_ & _ & _ & _ & _ & _ & ->). apply put_quantity_claims.
  - destruct o as [[j q]|]; simpl in Ho; [| by rewrite Ho].
    destruct Ho as (_ & _ & _ & _ & ->). apply put_quantity_claims.
Qed.

(** A fill between parties without orders. *)
Lemma settle_claims fill l l' u :
  (forall party, fl_buyer fill = Some party \/ fl_seller fill = Some party -> fp_order party = None) ->
  settle fill l = (l', Ok u) -> same_claims l l'.
Proof.
  intros Hno (t & _ & Ht & _ & _ & Hk)%settle_held. split; [done |]. intros p k. rewrite Hk.
  unfold party_release. destruct (fl_buyer fill) as [b|] eqn:Hb, (fl_seller fill) as [s|] eqn:Hs;
    rewrite ?Hno by auto; lia.
Qed.
