(* ===== verification/LedgerTheorems.v ===== *)
(** * Ledger: the properties

    The theorems that make the ledger of [packages/ledger] correct, each
    with a concrete run of the operations it speaks about. *)

From S2P Require Import Prelude Ordered MarketTypes MarketEvents Ledger LedgerFacts.

(** ** A concrete ledger

    Two currencies, a cash stock, a shortable bond with multiplier 10, and
    an FX instrument; two participants with cash, one with stock. *)

Definition demo_ops : list LedgerOp :=
  [ OpConfigure 10 (mkInstrumentTerms 1 1 false);
    OpConfigure 11 (mkInstrumentTerms 2 10 true);
    OpConfigure 12 (mkInstrumentTerms 1 1 true);
    OpPostCash 1 1 10000;
    OpPostCash 2 1 10000;
    OpSeedPosition 2 10 10 100 ].

(** Runs a list of operations, ignoring refusals. *)
Definition run_ops (ops : list LedgerOp) (l : Ledger) : Ledger :=
  foldl (fun l op => (run_op op l).1) l ops.

Definition demo : Ledger := run_ops demo_ops Ledger_new.

(** Alice's and Bob's orders and the fill between them. *)
Definition demo_buy : Reservation := mkReservation 22 false.
Definition demo_sell : Reservation := mkReservation 0 true.
Definition demo_open : Ledger :=
  run_ops [OpOpenOrder 1 10 Buy 4 demo_buy; OpOpenOrder 2 10 Sell 4 demo_sell] demo.
Definition demo_fill : Fill :=
  mkFill 10 15 4 (Some (mkFillParty 1 8 (Some demo_buy) true))
    (Some (mkFillParty 2 (-4) (Some demo_sell) true)) true.
Definition demo_filled : Ledger := (settle demo_fill demo_open).1.

Lemma demo_fill_runs : settle demo_fill demo_open = (demo_filled, Ok tt).
Proof. vm_compute. reflexivity. Defined.

(** ** Atomicity *)

(** a refused ledger operation leaves the ledger exactly as it was,
    for every mutating operation (instrument setup, marks, cash postings,
    opening positions, order reservations and releases, settlement and
    conversion) and every error. *)
Theorem ledger_refusal_changes_nothing op l l' e :
  run_op op l = (l', Err e) -> l' = l.
Proof. apply run_op_fails_clean. Qed.

Lemma ledger_refusal_changes_nothing_witness :
  (run_op (OpOpenOrder 1 10 Buy 1000 demo_buy) demo).1 = demo.
Proof.
  apply (ledger_refusal_changes_nothing (OpOpenOrder 1 10 Buy 1000 demo_buy) demo _
    LedgerError.InsufficientCash).
  vm_compute. reflexivity.
Defined.

(** ** Invariant *)

(** every ledger reachable from the empty one by any sequence of
    operations, refused or not, is well formed: every stored amount fits its
    machine type, reservations and open quantities are never negative, terms
    have a positive multiplier and marks are positive. *)
Theorem ledger_reachable_ok l : rtc ledger_step Ledger_new l -> ledger_ok l.
Proof.
  apply (rtc_ind_r (fun l => ledger_ok l)); [apply ledger_new_ok |].
  intros l1 l2 _ Hs Hl. by eapply ledger_step_ok.
Qed.

Lemma ledger_reachable_ok_witness : ledger_ok (run_ops [OpConfigure 10 (mkInstrumentTerms 1 1 false)] Ledger_new).
Proof.
  apply ledger_reachable_ok. apply rtc_once.
  exists (OpConfigure 10 (mkInstrumentTerms 1 1 false)), (Ok tt).
  split; [vm_compute; split; discriminate | reflexivity].
Defined.

(** ** Settlement *)

(** C10: settlement moves value, it never creates it: a fill between two
    participants leaves, for every currency, the total of cash plus fees
    paid unchanged, and for every instrument the total holding unchanged
    (also when a participant trades with itself). *)
Theorem settle_conserves fill l l' u :
  settle fill l = (l', Ok u) ->
  is_Some (fl_buyer fill) -> is_Some (fl_seller fill) ->
  forall c i, total_cash c l' = total_cash c l /\ total_holding i l' = total_holding i l.
Proof.
  intros (t & v & l1 & l2 & _ & _ & _ & _ & H1 & H2 & ->)%settle_steps [b Hb] [s Hs] c i.
  apply (party_step_totals _ _ _ _ _ _ _ c i) in H1 as [H1c H1h], H2 as [H2c H2h].
  rewrite Hb, Hs in *. simpl in *.
  destruct (fl_set_mark fill); unfold total_cash, total_holding, put_mark in *; simpl in *;
    split; repeat case_match; lia.
Qed.

Lemma settle_conserves_witness :
  total_cash 1 demo_filled = total_cash 1 demo_open /\
  total_holding 10 demo_filled = total_holding 10 demo_open.
Proof.
  apply (settle_conserves demo_fill demo_open demo_filled tt demo_fill_runs); by eexists.
Defined.

(** Cash plus fees plus cost basis, less realized P&L: what a participant
    has put into one instrument and its settlement currency. *)
Definition invested (l : Ledger) (p c i : Z) : Z :=
  cb_balance (cash l p c) + cb_fees (cash l p c)
  + pos_cost_basis (position l p i) - pos_realized_pnl (position l p i).

Lemma party_step_invested t fill value side party l l' p :
  value = fl_price fill * fl_quantity fill * it_multiplier t ->
  party_step t fill value side party l l' ->
  invested l' p (it_currency t) (fl_instrument fill) =
  invested l p (it_currency t) (fl_instrument fill).
Proof.
  intros ->. destruct party as [party|]; simpl; [| by intros ->].
  intros (b & x & [] %settle_party_Ok & ->). unfold invested.
  rewrite position_put_position, cash_put_position, cash_put_cash.
  destruct (decide (fp_participant party = p)) as [<-|Hne].
  - rewrite !bool_decide_true by done. destruct side; simpl in *; lia.
  - by rewrite !bool_decide_false by congruence.
Qed.

(** the accounting identity of settlement. For every participant, cash
    plus fees paid plus cost basis minus realized P&L, in the traded
    instrument and its settlement currency, is the same before and after a
    fill: what leaves cash enters the basis or is realized, with no rounding
    loss across partial closes. *)
Theorem settle_accounting_identity fill l l' u t :
  settle fill l = (l', Ok u) -> lg_terms l !! fl_instrument fill = Some t ->
  forall p, invested l' p (it_currency t) (fl_instrument fill) =
            invested l p (it_currency t) (fl_instrument fill).
Proof.
  intros (t' & v & l1 & l2 & Ht & _ & _ & [-> _]%notional_Ok & H1 & H2 & ->)%settle_steps Ht' p.
  rewrite Ht' in Ht. injection Ht as <-.
  rewrite <- (party_step_invested _ _ _ _ _ _ _ p eq_refl H1).
  rewrite <- (party_step_invested _ _ _ _ _ _ _ p eq_refl H2).
  by destruct (fl_set_mark fill).
Qed.

Lemma settle_accounting_identity_witness :
  invested demo_filled 2 1 10 = invested demo_open 2 1 10.
Proof.
  apply (settle_accounting_identity demo_fill demo_open demo_filled tt
    (mkInstrumentTerms 1 1 false) demo_fill_runs).
  vm_compute. reflexivity.
Defined.

(** ** Funding *)

Lemma settle_side_reads t fill value party side staged l l' r :
  settle_side t fill value party side staged l = (l', r) -> l' = l.
Proof. intros H. pose proof (reads_settle_side t fill value party side staged l). by rewrite H in *. Qed.

(** Where the cash error of a settlement comes from: the buyer. *)
Lemma settle_unfunded fill l l' :
  settle fill l = (l', Err LedgerError.InsufficientCash) ->
  exists t value party,
    lg_terms l !! fl_instrument fill = Some t /\
    notional (fl_price fill) (fl_quantity fill) (it_multiplier t) = Ok value /\
    fl_buyer fill = Some party /\
    settle_party t fill value Buy party (cash l (fp_participant party) (it_currency t))
      (position l (fp_participant party) (fl_instrument fill))
    = Err LedgerError.InsufficientCash.
Proof.
  unfold settle. rewrite bind_gets. cbn [id]. intros H.
  apply bind_Err_inv in H as [H|(l0 & t & [-> Ht]%lift_Ok_inv & H)].
  { unfold lift, terms, ok_or in H. by destruct (lg_terms l !! _). }
  apply ok_or_Ok in Ht.
  apply bind_Err_inv in H as [H|(l0 & ? & [-> _]%refuse_if_Ok_inv & H)].
  { unfold refuse_if in H. by destruct (_ || _). }
  apply bind_Err_inv in H as [H|(l0 & value & [-> Hv]%lift_Ok_inv & H)].
  { injection H as _ H. by apply overflow_Err in H. }
  exists t, value.
  apply bind_Err_inv in H as [H|(l0 & st & Hst & H)].
  - unfold settle_side in H. destruct (fl_buyer fill) as [party|]; [| done].
    exists party. rewrite bind_gets in H. cbn [id] in H. split_and!; try done.
    apply bind_Err_inv in H as [H|(? & [] & _ & H)]; [| done].
    injection H as _ H. done.
  - exfalso. apply settle_side_reads in Hst as ->.
    apply bind_Err_inv in H as [H|(l0 & st' & Hst' & H)].
    + unfold settle_side in H. destruct (fl_seller fill) as [party|]; [| done].
      rewrite bind_gets in H. cbn [id] in H.
      apply bind_Err_inv in H as [H|(? & [] & _ & H)]; [| done].
      injection H as _ H. by apply settle_party_unfunded in H as [? _].
    + destruct (fl_set_mark fill); unfold modify, mbind, M_bind in H; discriminate H.
Qed.

(** reserved orders are always funded. If the buyer's open order
    reserved per lot at least the price and fee of the fill and the buyer's
    available cash is not negative, settlement is never refused for lack of
    cash, whatever the price, quantity, fee and counterparty. *)
Theorem settle_reserved_buyer_is_funded fill l l' e t party r :
  settle fill l = (l', Err e) ->
  lg_terms l !! fl_instrument fill = Some t ->
  fl_buyer fill = Some party -> fp_order party = Some r ->
  cb_reserved (cash l (fp_participant party) (it_currency t))
    <= cb_balance (cash l (fp_participant party) (it_currency t)) ->
  fl_price fill * fl_quantity fill * it_multiplier t + fp_fee party
    <= rs_cash_per_lot r * fl_quantity fill ->
  e <> LedgerError.InsufficientCash.
Proof.
  intros H Ht Hb Ho Hav Hres ->.
  apply settle_unfunded in H as (t' & v & party' & Ht' & [-> _]%notional_Ok & Hb' & H).
  rewrite Ht in Ht'. rewrite Hb in Hb'. simplify_eq.
  apply settle_party_unfunded in H as [_ H]. unfold released_cash in H. rewrite Ho in H. lia.
Qed.

(** A reserved buyer against a seller with no stock: the refusal is about
    the seller's inventory. *)
Definition demo_naked_fill : Fill :=
  mkFill 10 15 4 (Some (mkFillParty 1 8 (Some demo_buy) true))
    (Some (mkFillParty 3 0 None true)) true.

Lemma settle_reserved_buyer_is_funded_witness :
  (settle demo_naked_fill demo_open).2 = Err LedgerError.InsufficientInventory /\
  LedgerError.InsufficientInventory <> LedgerError.InsufficientCash.
Proof.
  split; [vm_compute; reflexivity |].
  apply (settle_reserved_buyer_is_funded demo_naked_fill demo_open
    (settle demo_naked_fill demo_open).1 LedgerError.InsufficientInventory
    (mkInstrumentTerms 1 1 false) (mkFillParty 1 8 (Some demo_buy) true) demo_buy);
    vm_compute; try reflexivity; discriminate.
Defined.

(** ** Reservations *)

Lemma is_i64_opp q : 0 < q -> is_i64 q -> is_i64 (- q).
Proof. ranges. lia. Qed.

(** Taking back what an order reserved restores the balance and position. *)
Lemma opened_cash_undo s r d b : opened_cash s r (- d) (opened_cash s r d b) = b.
Proof.
  destruct b. destruct s; simpl; [| done]. unfold with_cash_reserved. simpl. f_equal. lia.
Qed.

Lemma opened_position_undo s r d x : opened_position s r (- d) (opened_position s r d x) = x.
Proof.
  destruct x. destruct s; simpl; [| destruct (rs_inventory r)];
    unfold with_open_buy, with_open_sell, with_reserved; simpl; f_equal; lia.
Qed.

Lemma close_guards s q r b x :
  is_i64 q -> cash_ok b -> position_ok x -> open_guards s q r true b x ->
  open_guards s q r false (opened_cash s r q b) (opened_position s r q x).
Proof.
  intros Hq [] [] []. split; simpl in *; try done.
  - by apply is_i64_opp.
  - destruct s; simpl; [| destruct (rs_inventory r); simpl]; ranges; lia.
  - intros ->. simpl. ranges; lia.
  - intros ->. simpl. lia.
  - intros -> Hinv. simpl in *. rewrite Hinv in *. simpl in *. split; [| done]. ranges; lia.
  - destruct s; simpl; [| destruct (rs_inventory r); simpl]; lia.
Qed.

(** reservations release exactly. On a well-formed ledger, an order that
    was opened can always be closed for the same quantity and reservation,
    and doing so restores every balance and every position (reserved cash,
    reserved inventory and open quantities included). *)
Theorem open_then_close_restores p i s q r l l1 :
  is_i64 q -> ledger_ok l -> open_order p i s q r l = (l1, Ok tt) ->
  exists l2, close_order p i s q r l1 = (l2, Ok tt) /\
    (forall p' c', cash l2 p' c' = cash l p' c') /\
    (forall p' i', position l2 p' i' = position l p' i') /\
    lg_terms l2 = lg_terms l /\ lg_marks l2 = lg_marks l.
Proof.
  unfold open_order, close_order.
  intros Hq Hl (t & Ht & Hg & ->)%change_open_Ok; [| done]. simpl in *.
  eexists. split.
  - apply change_open_Ok; [done |]. exists t. split; [done |]. split; [| reflexivity].
    rewrite position_put_cash, cash_put_cash, bool_decide_true by done.
    rewrite position_put_position, bool_decide_true by done.
    apply close_guards; auto with ledger.
  - rewrite position_put_cash, cash_put_cash, bool_decide_true by done.
    rewrite position_put_position, bool_decide_true by done. simpl.
    rewrite opened_cash_undo, opened_position_undo. split_and!; [| | done | done].
    + intros p' c'. rewrite cash_put_cash. case_bool_decide as Hk; [by simplify_eq |].
      rewrite cash_put_position, cash_put_cash. by rewrite bool_decide_false.
    + intros p' i'. rewrite position_put_cash, position_put_position.
      case_bool_decide as Hk; [by simplify_eq |].
      rewrite position_put_cash, position_put_position. by rewrite bool_decide_false.
Qed.

Lemma demo_ok : ledger_ok demo.
Proof.
  apply run_op_ok with (op := OpSeedPosition 2 10 10 100)
    (l := run_ops (take 5 demo_ops) Ledger_new) (u := tt); [by ranges | | by vm_compute].
  apply run_op_ok with (op := OpPostCash 2 1 10000)
    (l := run_ops (take 4 demo_ops) Ledger_new) (u := tt); [done | | by vm_compute].
  apply run_op_ok with (op := OpPostCash 1 1 10000)
    (l := run_ops (take 3 demo_ops) Ledger_new) (u := tt); [done | | by vm_compute].
  apply run_op_ok with (op := OpConfigure 12 (mkInstrumentTerms 1 1 true))
    (l := run_ops (take 2 demo_ops) Ledger_new) (u := tt); [by ranges | | by vm_compute].
  apply run_op_ok with (op := OpConfigure 11 (mkInstrumentTerms 2 10 true))
    (l := run_ops (take 1 demo_ops) Ledger_new) (u := tt); [by ranges | | by vm_compute].
  apply run_op_ok with (op := OpConfigure 10 (mkInstrumentTerms 1 1 false))
    (l := Ledger_new) (u := tt); [by ranges | | by vm_compute].
  apply ledger_new_ok.
Qed.

Lemma open_then_close_restores_witness :
  exists l2, close_order 1 10 Buy 4 demo_buy (open_order 1 10 Buy 4 demo_buy demo).1 = (l2, Ok tt) /\
    (forall p' c', cash l2 p' c' = cash demo p' c') /\
    (forall p' i', position l2 p' i' = position demo p' i') /\
    lg_terms l2 = lg_terms demo /\ lg_marks l2 = lg_marks demo.
Proof.
  apply open_then_close_restores; [by ranges | apply demo_ok | vm_compute; reflexivity].
Defined.

(** ** Covered sales *)

(** In an instrument that cannot be sold short, nobody has more reserved
    than held; in particular no holding is negative. *)
Definition covered (l : Ledger) : Prop :=
  forall p i t, lg_terms l !! i = Some t -> it_shortable t = false ->
    pos_reserved (position l p i) <= pos_quantity (position l p i).

(** Operations of trading, as opposed to scenario setup (instrument terms
    and opening positions). *)
Definition trading_op (op : LedgerOp) : Prop :=
  match op with OpConfigure _ _ | OpSeedPosition _ _ _ _ => False | _ => True end.

Lemma covered_put_position l p i x :
  covered l ->
  (forall t, lg_terms l !! i = Some t -> it_shortable t = false ->
    pos_reserved (position l p i) <= pos_quantity (position l p i) ->
    pos_reserved x <= pos_quantity x) ->
  covered (put_position p i x l).
Proof.
  intros Hl Hx p' i' t Ht Hs. rewrite position_put_position.
  case_bool_decide; simplify_eq; [| by apply (Hl _ _ t)].
  apply (Hx t); [done.. |]. by apply (Hl _ _ t).
Qed.

Lemma covered_party_step t fill value side party l l' :
  0 < fl_quantity fill -> lg_terms l !! fl_instrument fill = Some t ->
  covered l -> party_step t fill value side party l l' -> covered l'.
Proof.
  intros Hq Ht Hl. destruct party as [party|]; simpl; [| by intros ->].
  intros (b & x & He%settle_party_Ok & ->).
  apply covered_put_position; [exact Hl |]. simpl. intros t' Ht' Hs Hold.
  rewrite Ht in Ht'. injection Ht' as <-. rewrite position_put_cash in Hold.
  destruct side.
  - destruct He. simpl in *. lia.
  - pose proof (pe_covered _ _ _ _ _ _ _ _ _ He eq_refl Hs). lia.
Qed.

Lemma covered_change_open p i s q r o l l' u :
  is_i64 q -> covered l -> change_open p i s q r o l = (l', Ok u) -> covered l'.
Proof.
  intros Hq Hl (t & Ht & Hg & ->)%change_open_Ok; [| done]. destruct Hg.
  apply (covered_put_position l p i); [done |]. intros t' Ht' Hs Hold.
  destruct s; simpl in *; [lia |]. destruct (rs_inventory r) eqn:Hr; simpl in *; [| lia].
  destruct (og_inventory eq_refl eq_refl) as [_ Ho]. destruct o; simpl in *; lia.
Qed.

Lemma covered_convert p input output l l' u :
  covered l -> convert p input output l = (l', Ok u) -> covered l'.
Proof.
  intros Hl (tr & l1 & Hi & Ho)%convert_Ok.
  assert (covered l1) as Hl1.
  { destruct input as [[i q]|]; [| by destruct Hi as [-> _]].
    destruct Hi as (_ & _ & Hav & _ & _ & _ & ->).
    apply covered_put_position; [done |]. simpl. lia. }
  destruct output as [[i q]|]; [| by rewrite Ho].
  destruct Ho as (_ & Hq & _ & _ & ->). apply covered_put_position; [done |]. simpl. lia.
Qed.

(** no naked short sales. Whatever a trading operation does (orders,
    cancels, fills, conversions, cash), a participant's holding of a
    non-shortable instrument always covers what its open sell orders have
    reserved, so it never goes negative. *)
Theorem trading_keeps_covered op l l' r :
  op_typed op -> trading_op op -> covered l -> run_op op l = (l', r) -> covered l'.
Proof.
  intros Ht Htr Hl Hr. destruct r as [u|e];
    [| by rewrite (run_op_fails_clean op _ _ _ Hr)].
  destruct op; simpl in *; try done.
  - unfold set_mark in Hr. by run_inv.
  - unfold post_cash in Hr. by run_inv.
  - unfold open_order in Hr. by eapply covered_change_open.
  - unfold close_order in Hr. by eapply covered_change_open.
  - apply settle_steps in Hr as (t & v & l1 & l2 & Ht' & Hq & _ & _ & H1 & H2 & ->).
    assert (covered l1) by (by eapply covered_party_step).
    assert (covered l2).
    { eapply covered_party_step; [done | | done | done].
      by rewrite (party_step_terms _ _ _ _ _ _ _ H1). }
    by destruct (fl_set_mark fill).
  - by eapply covered_convert.
Qed.

(** Decides [covered] on a concrete ledger. *)
Lemma covered_intro l :
  map_Forall (fun k x => forall t, lg_terms l !! k.2 = Some t -> it_shortable t = false ->
    pos_reserved x <= pos_quantity x) (lg_positions l) ->
  covered l.
Proof.
  intros H p i t Ht Hs. unfold position.
  destruct (lg_positions l !! (p, i)) as [x|] eqn:Hx; simpl; [| done].
  by apply (H (p, i) x Hx t).
Qed.

Lemma trading_keeps_covered_witness : covered demo_filled.
Proof.
  apply (trading_keeps_covered (OpSettle demo_fill) demo_open demo_filled (Ok tt));
    [split; vm_compute; discriminate | done | | exact demo_fill_runs].
  apply covered_intro. intros k x Hx t _ _.
  apply elem_of_map_to_list in Hx. vm_compute in Hx.
  repeat (apply elem_of_cons in Hx as [[= -> ->]|Hx]; [vm_compute; discriminate |]).
  by apply elem_of_nil in Hx.
Defined.

(** ** Cost basis *)

(** A flat position carries no cost basis. *)
Definition flat_clean (l : Ledger) : Prop :=
  forall p i, pos_quantity (position l p i) = 0 -> pos_cost_basis (position l p i) = 0.

Lemma settle_party_flat t fill value side party b x b' x' :
  0 < fl_quantity fill ->
  settle_party t fill value side party b x = Ok (b', x') ->
  pos_quantity x' = 0 -> pos_cost_basis x' = 0.
Proof.
  unfold settle_party. intros Hpos H Hz.
  apply result_bind_Ok in H as ([b1 x1] & Hrel & H).
  apply release_filled_Ok in Hrel as (_ & -> & _).
  apply result_bind_Ok in H as ([flow delta] & Hflow & H).
  assert (delta = signed side (fl_quantity fill)) as ->
    by (destruct side; lchk; simplify_eq; simpl; lia).
  apply result_bind_Ok in H as (amount & _ & H).
  apply result_bind_Ok in H as (fees & _ & H).
  apply result_bind_Ok in H as (x2 & Hfill & H).
  apply result_bind_Ok in H as (traded & _ & H).
  apply result_bind_Ok in H as ([] & _ & H).
  apply result_bind_Ok in H as ([] & _ & H). injection H as <- <-. simpl in *.
  pose proof (apply_fill_Ok _ _ _ _ _ Hfill) as (Hq & _). rewrite Hz in Hq. simpl in Hq.
  eapply apply_fill_flat; [exact Hfill | | done].
  simpl. destruct side; simpl in *; lia.
Qed.

Lemma flat_party_step t fill value side party l l' :
  0 < fl_quantity fill -> flat_clean l -> party_step t fill value side party l l' -> flat_clean l'.
Proof.
  intros Hq Hl. destruct party as [party|]; simpl; [| by intros ->].
  intros (b & x & Hx & ->) p i. rewrite position_put_position.
  case_bool_decide; [| rewrite position_put_cash; apply Hl].
  by eapply settle_party_flat.
Qed.

(** truncating division never strands value. However many partial
    fills opened and closed a position, when settlement brings a position to
    zero its cost basis is exactly zero: the rounding of every partial
    realization is recovered by the last one. *)
Theorem settle_keeps_flat_clean fill l l' u :
  flat_clean l -> settle fill l = (l', Ok u) -> flat_clean l'.
Proof.
  intros Hl (t & v & l1 & l2 & _ & Hq & _ & _ & H1 & H2 & ->)%settle_steps.
  assert (flat_clean l2) by (eauto using flat_party_step).
  by destruct (fl_set_mark fill).
Qed.

Lemma flat_clean_intro l :
  map_Forall (fun _ x => pos_quantity x = 0 -> pos_cost_basis x = 0) (lg_positions l) ->
  flat_clean l.
Proof.
  intros H p i. unfold position.
  destruct (lg_positions l !! (p, i)) as [x|] eqn:Hx; simpl; [| done]. by apply (H (p, i)).
Qed.

Lemma settle_keeps_flat_clean_witness : flat_clean demo_filled.
Proof.
  apply (settle_keeps_flat_clean demo_fill demo_open demo_filled tt); [| exact demo_fill_runs].
  apply flat_clean_intro. intros k x Hx.
  apply elem_of_map_to_list in Hx. vm_compute in Hx.
  repeat (apply elem_of_cons in Hx as [[= -> ->]|Hx]; [vm_compute; congruence |]).
  by apply elem_of_nil in Hx.
Defined.

(** Cost basis of one participant over all its positions. *)
Definition total_basis (p : Z) (l : Ledger) : Z :=
  map_sum (fun k x => if k.1 =? p then pos_cost_basis x else 0) (lg_positions l).

Lemma total_basis_put_position p l i x :
  total_basis p (put_position p i x l) =
  total_basis p l + pos_cost_basis x - pos_cost_basis (position l p i).
Proof.
  unfold total_basis, put_position, position. simpl.
  rewrite map_sum_insert_any. unfold at_key. simpl. rewrite Z.eqb_refl.
  destruct (lg_positions l !! (p, i)); simpl; lia.
Qed.

(** a physical conversion moves cost, it never creates or destroys it:
    turning an input holding into an output holding leaves the
    participant's total cost basis, all cash, all marks and all terms
    unchanged, also when input and output are the same instrument. *)
Theorem convert_conserves_basis p input output l l' u :
  convert p (Some input) (Some output) l = (l', Ok u) ->
  total_basis p l' = total_basis p l /\ lg_cash l' = lg_cash l /\
  lg_marks l' = lg_marks l /\ lg_terms l' = lg_terms l.
Proof.
  destruct input as [i q], output as [j r]. intros (tr & l1 & Hi & Ho)%convert_Ok.
  destruct Hi as (_ & _ & _ & _ & _ & _ & ->). destruct Ho as (_ & _ & _ & _ & ->).
  split_and!; [| done..]. rewrite !total_basis_put_position. simpl. lia.
Qed.

Lemma convert_conserves_basis_witness :
  let l' := fst (convert 2 (Some (10, 3)) (Some (12, 7)) demo) in
  total_basis 2 l' = total_basis 2 demo /\ lg_cash l' = lg_cash demo /\
  lg_marks l' = lg_marks demo /\ lg_terms l' = lg_terms demo.
Proof.
  intros l'. apply (convert_conserves_basis 2 (10, 3) (12, 7) demo l' tt).
  vm_compute. reflexivity.
Defined.
