(* ===== verification/Valuation.v ===== *)
(** * Ledger: valuation

    Net liquidation value and its conversion into a reporting currency
    ([Ledger::net_liquidation_value] and [Ledger::reporting_value] of
    [packages/ledger/src/lib.rs]) against closed-form sums. *)

From S2P Require Import Prelude Ordered MarketTypes MarketEvents Ledger LedgerFacts.
From S2P Require Import LedgerTheorems.

(** ** Fallible folds *)

(** A loop that adds a checked amount per element returns the exact sum. *)
Lemma fold_sum_Ok {A} (step : A -> Z -> result LedgerError Z) (amount : A -> Z -> Prop) xs acc v :
  (forall x total r, step x total = Ok r -> exists a, amount x a /\ r = total + a) ->
  foldl (fun total x => total ← total; step x total) (Ok acc) xs = Ok v ->
  exists amounts, Forall2 amount xs amounts /\ v = acc + sumZ amounts.
Proof.
  intros Hstep. revert acc. induction xs as [|x xs IH]; intros acc H; simpl in H.
  - injection H as <-. exists []. split; [constructor | simpl; lia].
  - destruct (step x acc) as [r|e] eqn:Hx; cbn in H.
    + apply Hstep in Hx as (a & Ha & ->).
      apply IH in H as (amounts & Hall & ->).
      exists (a :: amounts). split; [by constructor | simpl; lia].
    + exfalso. clear -H. induction xs; [done | by apply IHxs].
Qed.

(** ** Net liquidation value *)

(** Value of one position: marked to market, or at cost without a mark. *)
Definition exact_value (l : Ledger) (t : InstrumentTerms) (i : Z) (x : Position) : Z :=
  match mark l i with
  | None => pos_cost_basis x
  | Some price => price * pos_quantity x * it_multiplier t
  end.

(** What one position contributes to the value in currency [c]. *)
Definition contribution (l : Ledger) (c : Z) (e : Z * Position) (a : Z) : Prop :=
  exists t, lg_terms l !! e.1 = Some t /\
    a = if it_currency t =? c then exact_value l t e.1 e.2 else 0.

Lemma position_value_Ok l i x t v :
  lg_terms l !! i = Some t -> position_value l i x = Ok v -> v = exact_value l t i x.
Proof.
  unfold position_value, terms, exact_value. intros ->. cbn.
  destruct (mark l i); [intros [-> _]%notional_Ok | intros [= <-]]; done.
Qed.

(** the net liquidation value of a participant in a currency, when it
    is reported, is the exact integer sum of its cash balance and of the
    value of each of its positions that settle in that currency (marked to
    market, or at cost basis without a mark): nothing is rounded, wrapped
    or skipped. *)
Theorem net_liquidation_value_exact l p c v :
  net_liquidation_value l p c = Ok v ->
  exists amounts, Forall2 (contribution l c) (positions l p) amounts /\
    v = cb_balance (cash l p c) + sumZ amounts.
Proof.
  apply fold_sum_Ok. intros [i x] total r H. simpl in H.
  apply result_bind_Ok in H as (t & Ht%ok_or_Ok & H).
  destruct (it_currency t =? c) eqn:Hc.
  - apply result_bind_Ok in H as (value & Hv & H). lchk.
    apply (position_value_Ok _ _ _ t) in Hv as ->; [| done].
    eexists. split; [exists t; rewrite Hc; done | done].
  - injection H as <-. exists 0. split; [exists t; by rewrite Hc | lia].
Qed.

Lemma net_liquidation_value_exact_witness :
  exists amounts, Forall2 (contribution demo_filled 1) (positions demo_filled 2) amounts /\
    10154 = cb_balance (cash demo_filled 2 1) + sumZ amounts.
Proof. apply net_liquidation_value_exact. vm_compute. reflexivity. Defined.

(** ** Reporting value *)

(** Conversion of [value] of currency [c] into the reporting currency:
    foreign value needs a rate and a mark, and truncates toward zero. *)
Definition converted (l : Ledger) (reporting : Z) (rates : list FxRate) (c value a : Z) : Prop :=
  (c = reporting /\ a = value) \/ (c <> reporting /\ value = 0 /\ a = 0) \/
  (c <> reporting /\ exists rate price, rate ∈ rates /\ fx_currency rate = c /\
     mark l (fx_instrument_id rate) = Some price /\ 0 < fx_minor_units_per_lot rate /\
     a = Z.quot (value * price) (fx_minor_units_per_lot rate)).

Lemma convert_currency_Ok l reporting rates c value a :
  convert_currency l reporting rates c value = Ok a -> converted l reporting rates c value a.
Proof.
  unfold convert_currency, converted. intros H.
  destruct (Z.eqb_spec c reporting); [left; by simplify_eq |]. right.
  destruct (Z.eqb_spec value 0); [left; by simplify_eq |]. right.
  apply result_bind_Ok in H as (rate & Hr%ok_or_Ok & H).
  apply result_bind_Ok in H as (price & Hp%ok_or_Ok & H).
  destruct (Z.leb_spec (fx_minor_units_per_lot rate) 0); [done |]. lchk.
  destruct (list_find _ rates) as [[k r]|] eqn:Hf; [| done]. simpl in Hr. simplify_eq.
  apply list_find_Some in Hf as (Hk & Hc & _). split; [done |].
  exists rate, price. split_and!; try done. by eapply list_elem_of_lookup_2.
Qed.

(** Collecting the settlement currencies of the positions. *)
Lemma collect_currencies l (ps : list (Z * Position)) acc cs :
  foldl (fun acc e => acc ← acc; t ← terms l e.1; Ok (acc ++ [it_currency t])) (Ok acc) ps = Ok cs ->
  forall c, c ∈ cs <-> c ∈ acc \/ exists i x t, (i, x) ∈ ps /\ lg_terms l !! i = Some t /\ it_currency t = c.
Proof.
  revert acc. induction ps as [|[i x] ps IH]; intros acc H c; simpl in H.
  - injection H as <-. split; [auto |]. intros [?|(? & ? & ? & []%elem_of_nil & _)]; done.
  - unfold terms at 2 in H. destruct (lg_terms l !! i) as [t|] eqn:Ht; cbn in H.
    + rewrite (IH _ H c), elem_of_app, list_elem_of_singleton. split.
      * intros [[?| ->]|(i' & x' & t' & ? & ?)]; [by left | |]; right.
        -- exists i, x, t. split; [left | done].
        -- exists i', x', t'. split; [by right | done].
      * intros [?|(i' & x' & t' & [[= -> ->]|?]%elem_of_cons & ? & ?)]; [by left; left | |].
        -- left. right. congruence.
        -- right. by exists i', x', t'.
    + exfalso. clear -H. induction ps; [done | by apply IHps].
Qed.

(** the value of a participant in the reporting currency is the sum,
    over each currency it has cash or a position in and each counted once,
    of that currency's net liquidation value converted at a listed rate and
    its marked price; a foreign value without a rate, a mark or a positive
    lot size is never dropped, the whole valuation is refused instead. *)
Theorem reporting_value_exact l p reporting rates v :
  reporting_value l p reporting rates = Ok v ->
  exists cs amounts,
    NoDup cs /\
    (forall c, c ∈ cs <-> c ∈ (cash_balances l p).*1 \/
       exists i x t, (i, x) ∈ positions l p /\ lg_terms l !! i = Some t /\ it_currency t = c) /\
    Forall2 (fun c a => exists nlv, net_liquidation_value l p c = Ok nlv /\
      converted l reporting rates c nlv a) cs amounts /\
    v = sumZ amounts.
Proof.
  unfold reporting_value. intros H. apply result_bind_Ok in H as (cs & Hcs & H).
  pose proof (collect_currencies _ _ _ _ Hcs) as Hmem.
  apply (fold_sum_Ok _ (fun c a => exists nlv, net_liquidation_value l p c = Ok nlv /\
      converted l reporting rates c nlv a)) in H as (amounts & Hall & ->).
  - exists (sort_dedup cs), amounts. split_and!; [apply NoDup_sort_dedup | | done | lia].
    intros c. by rewrite elem_of_sort_dedup, Hmem.
  - intros c total r Hr. apply result_bind_Ok in Hr as (nlv & Hn & Hr).
    apply result_bind_Ok in Hr as (a & Ha & Hr). lchk.
    exists a. split; [| done]. exists nlv. split; [done |]. by apply convert_currency_Ok.
Qed.

(** Alice also holds currency 2; instrument 12 is its rate in currency 1. *)
Definition demo_fx : Ledger := run_ops [OpSetMark 12 3; OpPostCash 1 2 50] demo_filled.
Definition demo_rates : list FxRate := [mkFxRate 2 12 2].

Lemma reporting_value_exact_witness :
  exists cs amounts,
    NoDup cs /\
    (forall c, c ∈ cs <-> c ∈ (cash_balances demo_fx 1).*1 \/
       exists i x t, (i, x) ∈ positions demo_fx 1 /\ lg_terms demo_fx !! i = Some t /\ it_currency t = c) /\
    Forall2 (fun c a => exists nlv, net_liquidation_value demo_fx 1 c = Ok nlv /\
      converted demo_fx 1 demo_rates c nlv a) cs amounts /\
    10067 = sumZ amounts.
Proof. apply reporting_value_exact. vm_compute. reflexivity. Defined.
