(* ===== verification/Risk.v ===== *)
(** * risk-engine: pre-trade admission

    Models [packages/risk-engine/src/lib.rs] and relates it to the ledger:
    an admitted order can be opened on the ledger it was admitted against,
    stays inside the participant's limits, and its fills are funded. *)

From S2P Require Import Prelude Ordered MarketTypes MarketEvents Ledger LedgerFacts.
From S2P Require Import LedgerTheorems.

(** ** Data *)

(** Per-participant admission limits. *)
Record RiskLimits : Type := mkRiskLimits {
  rl_max_order_quantity : Z;
  rl_max_open_order_quantity : Z;
  rl_max_absolute_position : Z;
  rl_cash_constrained : bool;
  rl_max_live_orders : Z
}.

(** [RiskLimits::new] *)
Definition RiskLimits_new (max_order max_open max_position : Z) : RiskLimits :=
  mkRiskLimits max_order max_open max_position true (int_max U32).

(** [RiskLimits::with_max_live_orders] *)
Definition with_max_live_orders (l : RiskLimits) (max_live_orders : Z) : RiskLimits :=
  mkRiskLimits (rl_max_order_quantity l) (rl_max_open_order_quantity l)
    (rl_max_absolute_position l) (rl_cash_constrained l) max_live_orders.

Record ListingTerms : Type := mkListingTerms {
  lt_price_bounds : PriceBounds;
  lt_fee_bound : Z;
  lt_tick_size : Z
}.

Record Admission : Type := mkAdmission {
  ad_reservation_price : Z;
  ad_reservation : Reservation
}.

(** ** Admission *)

(** [admit_live_order_count] *)
Definition admit_live_order_count (limits : RiskLimits) (live_orders : Z)
    : result RejectCode.RejectCode unit :=
  if rl_max_live_orders limits <=? live_orders then Err RejectCode.MaxLiveOrders else Ok tt.

(** The price that bounds the order's cash use: the match on [order.kind]
    of [admit]. *)
Definition admission_price (order : SubmitOrder) (listing : ListingTerms)
    (market_reservation_price : option Z) : result RejectCode.RejectCode Z :=
  match so_kind order with
  | Limit price | LimitWithPolicy price _ _ _ =>
      _ ← map_err (fun _ => RejectCode.PriceOutOfBounds)
            (PriceBounds_validate (lt_price_bounds listing) price);
      if (1 <? lt_tick_size listing) && negb (Z.rem price (lt_tick_size listing) =? 0)
      then Err RejectCode.PriceNotOnTick
      else Ok price
  | Market => ok_or market_reservation_price RejectCode.InsufficientLiquidity
  end.

(** The reservation of [admit]: the match on [order.side]. *)
Definition admission_reservation (limits : RiskLimits) (order : SubmitOrder)
    (listing : ListingTerms) (ledger : Ledger) (t : InstrumentTerms) (price : Z)
    : result RejectCode.RejectCode Reservation :=
  let position := position ledger (so_participant_id order) (so_instrument_id order) in
  match so_side order with
  | Buy =>
      if rl_cash_constrained limits then
        cash_per_lot ← map_err (fun _ => RejectCode.ArithmeticOverflow)
          (cash_per_lot ledger (so_instrument_id order) price (lt_fee_bound listing));
        required ← ok_or (checked_mul I128 cash_per_lot (so_quantity order))
                         RejectCode.ArithmeticOverflow;
        available ← ok_or (cash_available (cash ledger (so_participant_id order) (it_currency t)))
                          RejectCode.ArithmeticOverflow;
        if available <? required then Err RejectCode.InsufficientCash
        else Ok (mkReservation cash_per_lot false)
      else Ok Reservation_NONE
  | Sell =>
      if it_shortable t then Ok Reservation_NONE
      else
        available ← ok_or (position_available position) RejectCode.ArithmeticOverflow;
        if available <? so_quantity order then Err RejectCode.InsufficientInventory
        else Ok (mkReservation 0 true)
  end.

(** [fn admit] *)
Definition admit_order (limits : RiskLimits) (enabled : bool) (order : SubmitOrder)
    (listing : ListingTerms) (ledger : Ledger) (market_reservation_price : option Z)
    : result RejectCode.RejectCode Admission :=
  if negb enabled then Err RejectCode.ParticipantDisabled
  else if so_quantity order <=? 0 then Err RejectCode.InvalidQuantity
  else
    t ← map_err (fun _ => RejectCode.InvalidInstrument) (terms ledger (so_instrument_id order));
    price ← admission_price order listing market_reservation_price;
    if rl_max_order_quantity limits <? so_quantity order then Err RejectCode.MaxOrderQuantity
    else
      let position := position ledger (so_participant_id order) (so_instrument_id order) in
      open ← ok_or (open ← checked_add I64 (pos_open_buy position) (pos_open_sell position);
                    checked_add I64 open (so_quantity order))
                   RejectCode.ArithmeticOverflow;
      if rl_max_open_order_quantity limits <? open then Err RejectCode.MaxOpenOrderQuantity
      else
        worst_case ← ok_or
          match so_side order with
          | Buy => value ← checked_add I64 (pos_quantity position) (pos_open_buy position);
                   checked_add I64 value (so_quantity order)
          | Sell => value ← checked_sub I64 (pos_quantity position) (pos_open_sell position);
                    checked_sub I64 value (so_quantity order)
          end
          RejectCode.ArithmeticOverflow;
        if Z.abs (rl_max_absolute_position limits) <? Z.abs worst_case
        then Err RejectCode.PositionLimit
        else
          reservation ← admission_reservation limits order listing ledger t price;
          Ok (mkAdmission price reservation).

(** ** What an admission establishes *)

(** The position a side would reach if every open order of it filled. *)
Definition worst_case_position (side : Side) (x : Position) : Z :=
  match side with
  | Buy => pos_quantity x + pos_open_buy x
  | Sell => pos_quantity x - pos_open_sell x
  end.

Definition open_total (x : Position) : Z := pos_open_buy x + pos_open_sell x.

Record admitted (limits : RiskLimits) (order : SubmitOrder) (listing : ListingTerms)
    (l : Ledger) (market : option Z) (a : Admission) (t : InstrumentTerms) : Prop := {
  am_terms : lg_terms l !! so_instrument_id order = Some t;
  am_quantity : 0 < so_quantity order <= rl_max_order_quantity limits;
  am_price : admission_price order listing market = Ok (ad_reservation_price a);
  am_open : let x := position l (so_participant_id order) (so_instrument_id order) in
    is_i64 (open_total x + so_quantity order) /\
    open_total x + so_quantity order <= rl_max_open_order_quantity limits;
  am_worst : let x := position l (so_participant_id order) (so_instrument_id order) in
    Z.abs (worst_case_position (so_side order) x + signed (so_side order) (so_quantity order))
    <= Z.abs (rl_max_absolute_position limits);
  am_reservation :
    admission_reservation limits order listing l t (ad_reservation_price a)
    = Ok (ad_reservation a)
}.

Lemma admit_Ok limits enabled order listing l market a :
  admit_order limits enabled order listing l market = Ok a ->
  exists t, admitted limits order listing l market a t.
Proof.
  unfold admit_order. destruct enabled; [| done]. simpl.
  destruct (_ <=? _) eqn:Hq; [done |]. intros H.
  apply result_bind_Ok in H as (t & Ht%map_err_Ok%ok_or_Ok & H).
  apply result_bind_Ok in H as (price & Hp & H).
  destruct (_ <? _) eqn:Hmax in H; [done |].
  apply result_bind_Ok in H as (open & Ho & H).
  destruct (_ <? _) eqn:Hopen in H; [done |].
  apply result_bind_Ok in H as (worst & Hw & H).
  destruct (_ <? _) eqn:Hworst in H; [done |].
  apply result_bind_Ok in H as (r & Hr & H). injection H as <-. guards.
  exists t. split; simpl; try done.
  - chk. unfold open_total. ranges. lia.
  - destruct (so_side order); chk; simpl; lia.
Qed.

(** The listing terms of a validated scenario: positive prices. *)
Definition listing_positive (listing : ListingTerms) (market : option Z) : Prop :=
  0 < pb_min (lt_price_bounds listing) /\ forall price, market = Some price -> 0 < price.

Lemma admission_price_positive order listing market price :
  listing_positive listing market ->
  admission_price order listing market = Ok price -> 0 < price.
Proof.
  intros [Hb Hm]. unfold admission_price. destruct (so_kind order) as [p| |p]; intros H.
  1,3: apply result_bind_Ok in H as ([] & Hv%map_err_Ok%PriceBounds_validate_Ok & H);
       destruct (_ && _); [done |]; simplify_eq; lia.
  apply ok_or_Ok in H. auto.
Qed.

Lemma cash_per_lot_Ok l i price fee v t :
  lg_terms l !! i = Some t -> cash_per_lot l i price fee = Ok v ->
  v = price * it_multiplier t + Z.max fee 0 /\ is_i128 v.
Proof.
  unfold cash_per_lot, terms. intros ->. cbn. intros H.
  apply result_bind_Ok in H as (lot & [-> _]%notional_Ok & H). lchk. split; [lia | done].
Qed.

(** The cash an admitted order reserves per lot is never negative. *)
Lemma admitted_reservation_nonneg limits order listing l market a t :
  ledger_ok l -> listing_positive listing market ->
  admitted limits order listing l market a t ->
  0 <= rs_cash_per_lot (ad_reservation a).
Proof.
  intros Hl Hpos [Ht _ Hp _ _ Hr]. apply (admission_price_positive _ _ _ _ Hpos) in Hp.
  pose proof (lo_terms l Hl _ _ Ht) as [_ _ [Hm _]]. unfold admission_reservation in Hr.
  destruct (so_side order); [destruct (rl_cash_constrained limits) | destruct (it_shortable t)].
  - apply result_bind_Ok in Hr as (cpl & Hc%map_err_Ok & Hr).
    apply (cash_per_lot_Ok _ _ _ _ _ t) in Hc as [-> _]; [| done].
    chk. match goal with H : (if _ then _ else _) = _ |- _ => apply if_err_Ok in H as [_ ->] end.
    simpl. nia.
  - by injection Hr as <-.
  - by injection Hr as <-.
  - apply result_bind_Ok in Hr as (av & _ & Hr). by apply if_err_Ok in Hr as [_ ->].
Qed.

(** ** Admission promises what the ledger needs *)

(** Cash that [open_order] would find available before the order. *)
Definition solvent (l : Ledger) (p c : Z) : Prop :=
  cb_reserved (cash l p c) <= cb_balance (cash l p c).

Lemma admitted_buy_guards limits order listing l market a t :
  ledger_ok l -> listing_positive listing market ->
  so_side order = Buy ->
  (rl_cash_constrained limits = false -> solvent l (so_participant_id order) (it_currency t)) ->
  admitted limits order listing l market a t ->
  open_guards Buy (so_quantity order) (ad_reservation a) true
    (cash l (so_participant_id order) (it_currency t))
    (position l (so_participant_id order) (so_instrument_id order)).
Proof.
  intros Hl Hpos Hside Hsol Ha.
  pose proof (admitted_reservation_nonneg _ _ _ _ _ _ _ Hl Hpos Ha) as Hnn.
  destruct Ha as [Ht Hq _ [Hoi _] _ Hr].
  pose proof (ledger_ok_cash l (so_participant_id order) (it_currency t) Hl) as [Hcb Hcr _].
  pose proof (ledger_ok_position l (so_participant_id order) (so_instrument_id order) Hl)
    as [_ _ Hob Hos _ _ _].
  unfold open_total in Hoi.
  assert (is_i128 (rs_cash_per_lot (ad_reservation a) * so_quantity order) /\
    rs_cash_per_lot (ad_reservation a) * so_quantity order <=
    cb_balance (cash l (so_participant_id order) (it_currency t)) -
    cb_reserved (cash l (so_participant_id order) (it_currency t))) as [Hfit Hav].
  { unfold admission_reservation in Hr. rewrite Hside in Hr.
    destruct (rl_cash_constrained limits).
    - apply result_bind_Ok in Hr as (cpl & _ & Hr).
      apply result_bind_Ok in Hr as (required & Hreq & Hr).
      apply result_bind_Ok in Hr as (av & Hav & Hr). apply if_err_Ok in Hr as [Hlt ->].
      unfold cash_available in Hav. chk. guards. simpl. split; [by ranges | lia].
    - injection Hr as <-. specialize (Hsol eq_refl). unfold solvent in Hsol. simpl.
      split; [ranges; lia | lia]. }
  assert (0 <= rs_cash_per_lot (ad_reservation a) * so_quantity order) by nia.
  split; simpl; try done; try lia; intros; ranges; lia.
Qed.

Lemma admitted_sell_guards limits order listing l market a t :
  ledger_ok l -> so_side order = Sell ->
  admitted limits order listing l market a t ->
  open_guards Sell (so_quantity order) (ad_reservation a) true
    (cash l (so_participant_id order) (it_currency t))
    (position l (so_participant_id order) (so_instrument_id order)).
Proof.
  intros Hl Hside [Ht Hq _ [Hoi _] _ Hr].
  pose proof (ledger_ok_position l (so_participant_id order) (so_instrument_id order) Hl)
    as [Hpq Hpr Hob Hos _ _ _].
  unfold open_total in Hoi. unfold admission_reservation in Hr. rewrite Hside in Hr.
  destruct (it_shortable t).
  - injection Hr as <-. split; simpl; try done; try lia; intros; ranges; lia.
  - apply result_bind_Ok in Hr as (av & Hav & Hr). apply if_err_Ok in Hr as [Hlt ->].
    unfold position_available in Hav. chk. guards. split; simpl; try done; try lia; intros; ranges; lia.
Qed.

(** admission is sound for the ledger. An order that pre-trade risk
    admits on a well-formed ledger is always accepted by [open_order] with
    the reservation the admission returned, and the participant's open
    quantity and worst-case position are within its limits afterwards;
    an unconstrained buyer must not already be overdrawn. *)
Theorem admitted_order_opens limits order listing l market a :
  ledger_ok l -> listing_positive listing market -> is_i64 (so_quantity order) ->
  (forall t, lg_terms l !! so_instrument_id order = Some t ->
     so_side order = Buy -> rl_cash_constrained limits = false ->
     solvent l (so_participant_id order) (it_currency t)) ->
  admit_order limits true order listing l market = Ok a ->
  exists l', open_order (so_participant_id order) (so_instrument_id order) (so_side order)
      (so_quantity order) (ad_reservation a) l = (l', Ok tt) /\
    let x := position l' (so_participant_id order) (so_instrument_id order) in
    open_total x <= rl_max_open_order_quantity limits /\
    Z.abs (worst_case_position (so_side order) x) <= Z.abs (rl_max_absolute_position limits).
Proof.
  unfold open_order. intros Hl Hpos Hq Hsol (t & Ha)%admit_Ok.
  assert (open_guards (so_side order) (so_quantity order) (ad_reservation a) true
    (cash l (so_participant_id order) (it_currency t))
    (position l (so_participant_id order) (so_instrument_id order))) as Hg.
  { destruct (so_side order) eqn:Hside.
    - eapply admitted_buy_guards; eauto. intros Hc. apply Hsol; auto. apply Ha.
    - eapply admitted_sell_guards; eauto. }
  destruct Ha as [Ht _ _ [_ Hopen] Hworst _].
  eexists. split.
  - apply change_open_Ok; [done |]. exists t. split; [by apply ok_or_Ok |]. by split.
  - rewrite position_put_cash, position_put_position, bool_decide_true by done.
    unfold open_total, worst_case_position in *. simpl.
    destruct (so_side order); simpl in *; [| destruct (rs_inventory _); simpl];
      split; lia.
Qed.

Definition demo_limits : RiskLimits := RiskLimits_new 100 200 150.
Definition demo_order : SubmitOrder := mkSubmitOrder 5 10 1 Buy 4 (Limit 20) false.
Definition demo_listing : ListingTerms := mkListingTerms (mkPriceBounds 1 1000) 2 1.

Lemma demo_listing_positive : listing_positive demo_listing None.
Proof. split; [reflexivity | discriminate]. Qed.

Lemma admitted_order_opens_witness :
  exists l', open_order 1 10 Buy 4 demo_buy demo = (l', Ok tt) /\
    let x := position l' 1 10 in
    open_total x <= 200 /\ Z.abs (worst_case_position Buy x) <= Z.abs 150.
Proof.
  apply (admitted_order_opens demo_limits demo_order demo_listing demo None
    (mkAdmission 20 demo_buy)); [apply demo_ok | apply demo_listing_positive | by ranges | |].
  - intros t _ _ H. discriminate H.
  - vm_compute. reflexivity.
Defined.

(** an admitted, opened, cash-constrained buy is funded at every price
    it can trade. Whatever fill of the order the book later produces, at a
    price no worse than the reservation price, with a fee within the
    listing's per-lot bound, as the next use of that participant's cash,
    settlement is never refused with [InsufficientCash]. *)
Theorem admitted_buy_is_funded limits order listing l market a l1 fill party l2 e :
  ledger_ok l -> is_i64 (so_quantity order) ->
  so_side order = Buy -> rl_cash_constrained limits = true ->
  admit_order limits true order listing l market = Ok a ->
  open_order (so_participant_id order) (so_instrument_id order) Buy
    (so_quantity order) (ad_reservation a) l = (l1, Ok tt) ->
  fl_instrument fill = so_instrument_id order -> fl_buyer fill = Some party ->
  fp_participant party = so_participant_id order ->
  fp_order party = Some (ad_reservation a) ->
  0 < fl_price fill <= ad_reservation_price a -> 0 < fl_quantity fill ->
  fp_fee party <= Z.max (lt_fee_bound listing) 0 * fl_quantity fill ->
  settle fill l1 = (l2, Err e) -> e <> LedgerError.InsufficientCash.
Proof.
  unfold open_order.
  intros Hl Hq Hside Hc (t & [Ht _ _ _ _ Hr])%admit_Ok
    (t' & Ht' & Hg & ->)%change_open_Ok Hfi Hb Hp Ho Hprice Hfq Hfee H ->; [| done].
  apply ok_or_Ok in Ht'. rewrite Ht in Ht'. injection Ht' as <-.
  apply settle_unfunded in H as (t2 & v & party' & Ht2 & [-> _]%notional_Ok & Hb' & H).
  rewrite Hb in Hb'. injection Hb' as <-. simpl in Ht2. rewrite Hfi, Ht in Ht2. injection Ht2 as <-.
  apply settle_party_unfunded in H as [_ H]. unfold released_cash in H. rewrite Ho in H.
  rewrite Hp, cash_put_cash, bool_decide_true in H by done.
  assert (rs_cash_per_lot (ad_reservation a) =
    ad_reservation_price a * it_multiplier t + Z.max (lt_fee_bound listing) 0) as Hcpl.
  { unfold admission_reservation in Hr. rewrite Hside, Hc in Hr.
    apply result_bind_Ok in Hr as (cpl & Hcpl%map_err_Ok & Hr).
    apply (cash_per_lot_Ok _ _ _ _ _ t) in Hcpl as [-> _]; [| done].
    chk. match goal with H : (if _ then _ else _) = _ |- _ => by apply if_err_Ok in H as [_ ->] end. }
  pose proof (lo_terms l Hl _ _ Ht) as [_ _ [Hm _]].
  destruct Hg as [_ _ _ _ _ _ Hav _ _]. specialize (Hav eq_refl eq_refl). simpl in Hav, H.
  enough (fl_price fill * fl_quantity fill * it_multiplier t <=
          ad_reservation_price a * it_multiplier t * fl_quantity fill) by (simpl in *; nia).
  assert (fl_price fill * (fl_quantity fill * it_multiplier t) <=
          ad_reservation_price a * (fl_quantity fill * it_multiplier t)); [| lia].
  apply Z.mul_le_mono_nonneg_r; [nia | lia].
Qed.

(** The seller of the witness's fill has no stock. *)
Lemma admitted_buy_is_funded_witness :
  LedgerError.InsufficientInventory <> LedgerError.InsufficientCash.
Proof.
  apply (admitted_buy_is_funded demo_limits demo_order demo_listing demo None
    (mkAdmission 20 demo_buy) (fst (open_order 1 10 Buy 4 demo_buy demo)) demo_naked_fill
    (mkFillParty 1 8 (Some demo_buy) true)
    (fst (settle demo_naked_fill (fst (open_order 1 10 Buy 4 demo_buy demo)))));
    [apply demo_ok | by ranges | try (vm_compute; reflexivity)..];
    vm_compute; try split; try reflexivity; discriminate.
Defined.

(** ** The overdrawn unconstrained buyer *)

(** A participant without a cash constraint that is overdrawn. *)
Definition overdrawn : Ledger := run_ops [OpPostCash 3 1 (-500)] demo.
Definition unconstrained : RiskLimits := mkRiskLimits 100 200 150 false (int_max U32).
Definition overdrawn_order : SubmitOrder := mkSubmitOrder 6 10 3 Buy 1 (Limit 20) false.

(** the solvency condition of admission soundness is needed. A buyer
    without a cash constraint whose available cash is negative (an earlier
    unconstrained fill leaves it so) is admitted with an empty reservation,
    and the ledger then refuses to open the very order that was admitted. *)
Theorem unconstrained_overdrawn_buy_refused_by_ledger :
  admit_order unconstrained true overdrawn_order demo_listing overdrawn None
    = Ok (mkAdmission 20 Reservation_NONE) /\
  snd (open_order 3 10 Buy 1 Reservation_NONE overdrawn) = Err LedgerError.InsufficientCash.
Proof. split; vm_compute; reflexivity. Qed.
