(* ===== verification/Book.v ===== *)
(** * bunting-engine: the price-time limit order book

    Models [packages/bunting-engine/src/book.rs] up to the auction (which is
    in [Auction]).  A method taking [&mut self] is a computation
    [M Book BookError]: every early return leaves the writes made before it,
    as the source does.  [BTreeMap]s are [gmap]s read in key order. *)

From S2P Require Import Prelude Ordered MarketTypes MarketEvents.

(** ** Data *)

(** One resting order. *)
Record BookOrder : Type := mkBookOrder {
  bo_order_id : Z;
  bo_side : Side;
  bo_price : Z;
  bo_remaining : Z;
  bo_visible : Z;
  bo_display : option Z;
  bo_priority : Z
}.

#[export] Instance BookOrder_eq_dec : EqDecision BookOrder.
Proof. solve_decision. Defined.

(** One execution against a resting order. *)
Record Match : Type := mkMatch {
  mt_maker : Z;
  mt_price : Z;
  mt_quantity : Z;
  mt_maker_remaining : Z
}.

(** One call-auction execution between two resting orders. *)
Record Cross : Type := mkCross {
  cx_buy : Z;
  cx_sell : Z;
  cx_quantity : Z;
  cx_buy_remaining : Z;
  cx_sell_remaining : Z;
  cx_buy_priority : Z;
  cx_sell_priority : Z
}.

Module BookError.
Inductive BookError : Type := DuplicateOrder | InvalidOrder | Overflow.
End BookError.
Export BookError (BookError).

Record Level : Type := mkLevel {
  lv_queue : gmap Z Z;
  lv_visible : Z;
  lv_total : Z
}.

(** [Level::default()] *)
Definition Level_default : Level := mkLevel ∅ 0 0.

Record Book : Type := mkBook {
  bk_bids : gmap Z Level;
  bk_asks : gmap Z Level;
  bk_orders : gmap Z BookOrder;
  bk_next_priority : Z
}.

(** [Book::new] *)
Definition Book_new : Book := mkBook ∅ ∅ ∅ 0.

(** Canonical persisted form. *)
Record BookRecord : Type := mkBookRecord {
  br_next_priority : Z;
  br_orders : list BookOrder
}.

(** Assignments to single fields. *)
Definition with_remaining (o : BookOrder) (v : Z) : BookOrder :=
  mkBookOrder (bo_order_id o) (bo_side o) (bo_price o) v (bo_visible o) (bo_display o)
    (bo_priority o).
Definition with_visible (o : BookOrder) (v : Z) : BookOrder :=
  mkBookOrder (bo_order_id o) (bo_side o) (bo_price o) (bo_remaining o) v (bo_display o)
    (bo_priority o).
Definition with_priority (o : BookOrder) (v : Z) : BookOrder :=
  mkBookOrder (bo_order_id o) (bo_side o) (bo_price o) (bo_remaining o) (bo_visible o)
    (bo_display o) v.

(** [Book::side] and writes through [Book::side_mut]. *)
Definition book_side (b : Book) (s : Side) : gmap Z Level :=
  match s with Buy => bk_bids b | Sell => bk_asks b end.
Definition put_side (s : Side) (levels : gmap Z Level) (b : Book) : Book :=
  match s with
  | Buy => mkBook levels (bk_asks b) (bk_orders b) (bk_next_priority b)
  | Sell => mkBook (bk_bids b) levels (bk_orders b) (bk_next_priority b)
  end.
Definition put_level (s : Side) (price : Z) (level : Level) (b : Book) : Book :=
  put_side s (<[price := level]> (book_side b s)) b.
Definition drop_level (s : Side) (price : Z) (b : Book) : Book :=
  put_side s (delete price (book_side b s)) b.
Definition put_orders (orders : gmap Z BookOrder) (b : Book) : Book :=
  mkBook (bk_bids b) (bk_asks b) orders (bk_next_priority b).
Definition put_next_priority (n : Z) (b : Book) : Book :=
  mkBook (bk_bids b) (bk_asks b) (bk_orders b) n.

(** ** Reads *)

(** [Book::len], [Book::contains] and [Book::order] *)
Definition book_len (b : Book) : nat := size (bk_orders b).
Definition book_contains (b : Book) (order_id : Z) : bool :=
  bool_decide (is_Some (bk_orders b !! order_id)).
Definition book_order (b : Book) (order_id : Z) : option BookOrder := bk_orders b !! order_id.

(** [fn crosses] *)
Definition crosses (taker : Side) (limit resting : Z) : bool :=
  match taker with Buy => resting <=? limit | Sell => limit <=? resting end.

(** [Book::best] *)
Definition best (b : Book) (s : Side) : option Z :=
  match s with
  | Buy => fst <$> last_entry (bk_bids b)
  | Sell => fst <$> first_entry (bk_asks b)
  end.

(** [Book::would_cross] *)
Definition would_cross (b : Book) (taker : Side) (limit : Z) : bool :=
  match best b (opposite taker) with
  | Some price => crosses taker limit price
  | None => false
  end.

(** [limit.is_none_or(|limit| crosses(taker, limit, price))] *)
Definition limit_crosses (taker : Side) (limit : option Z) (price : Z) : bool :=
  match limit with None => true | Some limit => crosses taker limit price end.

(** [Book::executable] *)
Definition executable (b : Book) (taker : Side) (limit : option Z) : Z :=
  let levels := match taker with
                | Buy => entries (bk_asks b)
                | Sell => reverse (entries (bk_bids b))
                end in
  foldl (fun total pl => default (int_max I64) (checked_add I64 total (lv_total pl.2)))
    0 (take_while (fun pl => limit_crosses taker limit pl.1) levels).

(** [Book::depth] *)
Definition depth (b : Book) (s : Side) : list (Z * Z) :=
  let levels := match s with
                | Buy => reverse (entries (bk_bids b))
                | Sell => entries (bk_asks b)
                end in
  (fun pl => (pl.1, lv_visible pl.2)) <$> levels.

(** [Book::orders] *)
Definition book_orders (b : Book) (s : Side) : list BookOrder :=
  let levels := match s with
                | Buy => reverse (values (bk_bids b))
                | Sell => values (bk_asks b)
                end in
  omap (fun order_id => bk_orders b !! order_id)
    (levels ≫= fun level => values (lv_queue level)).

(** ** Writes *)

(** [Book::take_priority] *)
Definition take_priority : M Book BookError Z :=
  priority ← gets bk_next_priority;
  next ← lift (ok_or (checked_add U64 priority 1) BookError.Overflow);
  modify (put_next_priority next);;
  mret priority.

(** [Book::insert] *)
Definition book_insert (order : BookOrder) : M Book BookError unit :=
  refuse_if ((bo_remaining order <=? 0) || (bo_visible order <=? 0)
             || (bo_remaining order <? bo_visible order) || (bo_price order <=? 0))
    BookError.InvalidOrder;;
  b ← gets id;
  refuse_if (book_contains b (bo_order_id order)) BookError.DuplicateOrder;;
  let level := default Level_default (book_side b (bo_side order) !! bo_price order) in
  let previous := lv_queue level !! bo_priority order in
  let level := mkLevel (<[bo_priority order := bo_order_id order]> (lv_queue level))
                       (lv_visible level) (lv_total level) in
  modify (put_level (bo_side order) (bo_price order) level);;
  refuse_if (bool_decide (is_Some previous)) BookError.DuplicateOrder;;
  visible ← lift (ok_or (checked_add I64 (lv_visible level) (bo_visible order))
                        BookError.Overflow);
  let level := mkLevel (lv_queue level) visible (lv_total level) in
  modify (put_level (bo_side order) (bo_price order) level);;
  total ← lift (ok_or (checked_add I64 (lv_total level) (bo_remaining order))
                      BookError.Overflow);
  let level := mkLevel (lv_queue level) (lv_visible level) total in
  modify (put_level (bo_side order) (bo_price order) level);;
  modify (fun b => put_orders (<[bo_order_id order := order]> (bk_orders b)) b).

(** [Book::remove] *)
Definition book_remove (order_id : Z) : M Book BookError unit :=
  b ← gets id;
  order ← lift (ok_or (bk_orders b !! order_id) BookError.InvalidOrder);
  modify (fun b => put_orders (delete order_id (bk_orders b)) b);;
  level ← lift (ok_or (book_side b (bo_side order) !! bo_price order) BookError.InvalidOrder);
  let level := mkLevel (delete (bo_priority order) (lv_queue level))
                       (lv_visible level) (lv_total level) in
  modify (put_level (bo_side order) (bo_price order) level);;
  visible ← lift (ok_or (checked_sub I64 (lv_visible level) (bo_visible order))
                        BookError.Overflow);
  let level := mkLevel (lv_queue level) visible (lv_total level) in
  modify (put_level (bo_side order) (bo_price order) level);;
  total ← lift (ok_or (checked_sub I64 (lv_total level) (bo_remaining order))
                      BookError.Overflow);
  let level := mkLevel (lv_queue level) (lv_visible level) total in
  modify (put_level (bo_side order) (bo_price order) level);;
  if bool_decide (lv_queue level = ∅)
  then modify (drop_level (bo_side order) (bo_price order))
  else mret tt.

(** The first order of a price level. *)
Definition level_head (b : Book) (s : Side) (price : Z) : option Z :=
  level ← book_side b s !! price;
  head (values (lv_queue level)).

(** The block of [Book::execute] that puts a partly filled maker back. *)
Definition restore_maker (maker : BookOrder) : M Book BookError unit :=
  if 0 <? bo_remaining maker then
    maker ←
      (if bo_visible maker =? 0 then
         let peak := default (bo_remaining maker) (bo_display maker) in
         let maker := with_visible maker (Z.min peak (bo_remaining maker)) in
         priority ← take_priority;
         mret (with_priority maker priority)
       else mret maker);
    book_insert maker
  else mret tt.

(** The [while] loop of [Book::execute].  An iteration either leaves the
    loop, fails, or fills at least one lot, so [Z.to_nat remaining]
    iterations always suffice. *)
Fixpoint execute_loop (fuel : nat) (taker : Side) (limit : option Z) (remaining : Z)
    (matches : list Match) : M Book BookError (list Match * Z) :=
  match fuel with
  | O => mret (matches, remaining)
  | S fuel =>
      if remaining <=? 0 then mret (matches, remaining)
      else
        let maker_side := opposite taker in
        b ← gets id;
        match best b maker_side with
        | None => mret (matches, remaining)
        | Some price =>
            if negb (limit_crosses taker limit price) then mret (matches, remaining)
            else
              maker_id ← lift (ok_or (level_head b maker_side price) BookError.InvalidOrder);
              maker ← lift (ok_or (bk_orders b !! maker_id) BookError.InvalidOrder);
              let fill := Z.min remaining (bo_visible maker) in
              refuse_if (fill <=? 0) BookError.InvalidOrder;;
              remaining ← lift (ok_or (checked_sub I64 remaining fill) BookError.Overflow);
              maker_remaining ←
                lift (ok_or (checked_sub I64 (bo_remaining maker) fill) BookError.Overflow);
              maker_visible ←
                lift (ok_or (checked_sub I64 (bo_visible maker) fill) BookError.Overflow);
              let maker := with_visible (with_remaining maker maker_remaining) maker_visible in
              let matches := matches ++ [mkMatch maker_id price fill maker_remaining] in
              book_remove maker_id;;
              restore_maker maker;;
              execute_loop fuel taker limit remaining matches
        end
  end.

(** [Book::execute] *)
Definition execute (taker : Side) (limit : option Z) (quantity : Z)
    : M Book BookError (list Match * Z) :=
  refuse_if (quantity <=? 0) BookError.InvalidOrder;;
  execute_loop (Z.to_nat quantity) taker limit quantity [].

(** [Book::rest] *)
Definition rest (order_id : Z) (s : Side) (price quantity : Z) (display : option Z)
    : M Book BookError unit :=
  refuse_if ((quantity <=? 0) || (price <=? 0)
             || match display with
                | Some peak => (peak <=? 0) || (quantity <? peak)
                | None => false
                end)
    BookError.InvalidOrder;;
  b ← gets id;
  refuse_if (book_contains b order_id) BookError.DuplicateOrder;;
  priority ← take_priority;
  book_insert (mkBookOrder order_id s price quantity (default quantity display) display priority).

(** [Book::cancel] *)
Definition cancel (order_id : Z) (b : Book) : Book * option BookOrder :=
  match bk_orders b !! order_id with
  | None => (b, None)
  | Some order =>
      match book_remove order_id b with
      | (b', Ok _) => (b', Some order)
      | (b', Err _) => (b', None)
      end
  end.

(** ** Persistence *)

(** The sort key [(order.side, order.price, order.priority)]; [Buy] sorts
    before [Sell]. *)
Definition side_rank (s : Side) : Z := match s with Buy => 0 | Sell => 1 end.
Definition record_key (o : BookOrder) : Z * (Z * Z) :=
  (side_rank (bo_side o), (bo_price o, bo_priority o)).
Definition record_le (o1 o2 : BookOrder) : Prop := ord_le (record_key o1) (record_key o2).

#[export] Instance record_le_dec : RelDecision record_le.
Proof. intros o1 o2. unfold record_le. apply _. Defined.

(** [From<Book> for BookRecord] *)
Definition record_of_book (b : Book) : BookRecord :=
  mkBookRecord (bk_next_priority b) (merge_sort record_le (values (bk_orders b))).

(** The error strings of [TryFrom<BookRecord>]. *)
Inductive RecordError : Type := PriorityBeyondSequence | RecordInsert (e : BookError).

(** [TryFrom<BookRecord> for Book] *)
Fixpoint load_orders (next_priority : Z) (orders : list BookOrder) (b : Book)
    : result RecordError Book :=
  match orders with
  | [] => Ok b
  | order :: orders =>
      if next_priority <=? bo_priority order then Err PriorityBeyondSequence
      else match book_insert order b with
           | (b', Ok _) => load_orders next_priority orders b'
           | (_, Err e) => Err (RecordInsert e)
           end
  end.

Definition book_of_record (r : BookRecord) : result RecordError Book :=
  load_orders (br_next_priority r) (br_orders r)
    (put_next_priority (br_next_priority r) Book_new).
