(* ===== verification/BookFacts.v ===== *)
(** * The order book: representation invariant

    The book keeps three redundant views of the resting orders: the order
    map, the per-level queues and the per-level aggregates.  [book_ok] says
    that they agree; [book_insert] and [book_remove] keep them in agreement
    and never fail on a book that satisfies it.  As the levels are then a
    function of the orders, later files reason about the orders alone. *)

From S2P Require Import Prelude Ordered MarketTypes MarketEvents Book.

(** ** The invariant *)

Definition order_at (s : Side) (p : Z) (o : BookOrder) : Prop := bo_side o = s /\ bo_price o = p.

#[export] Instance order_at_dec s p o : Decision (order_at s p o).
Proof. unfold order_at. apply _. Defined.

(** Sum of [f] over the orders of one price level. *)
Definition level_sum (f : BookOrder -> Z) (s : Side) (p : Z) (orders : gmap Z BookOrder) : Z :=
  map_sum (fun _ o => if bool_decide (order_at s p o) then f o else 0) orders.

Record order_ok (next id : Z) (o : BookOrder) : Prop := {
  ok_id : bo_order_id o = id;
  ok_remaining : 0 < bo_remaining o <= int_max I64;
  ok_visible : 0 < bo_visible o <= bo_remaining o;
  ok_price : 0 < bo_price o <= int_max I64;
  ok_priority : 0 <= bo_priority o < next;
  ok_display : forall peak, bo_display o = Some peak -> 0 < peak
}.

Record level_ok (orders : gmap Z BookOrder) (s : Side) (p : Z) (lv : Level) : Prop := {
  lk_queue : forall k id, lv_queue lv !! k = Some id <->
    exists o, orders !! id = Some o /\ order_at s p o /\ bo_priority o = k;
  lk_visible : lv_visible lv = level_sum bo_visible s p orders;
  lk_total : lv_total lv = level_sum bo_remaining s p orders;
  lk_fits : lv_total lv <= int_max I64;
  lk_nonempty : lv_queue lv <> ∅
}.

Record book_ok (b : Book) : Prop := {
  bk_order_ok : map_Forall (order_ok (bk_next_priority b)) (bk_orders b);
  bk_level_ok : forall s p lv, book_side b s !! p = Some lv -> level_ok (bk_orders b) s p lv;
  bk_indexed : forall id o, bk_orders b !! id = Some o ->
    is_Some (book_side b (bo_side o) !! bo_price o);
  bk_sequence : 0 <= bk_next_priority b <= int_max U64
}.

Lemma Book_new_ok : book_ok Book_new.
Proof.
  split; simpl.
  - apply map_Forall_empty.
  - intros [] p lv H; apply (lookup_empty_Some p lv) in H as [].
  - intros id o H. by apply (lookup_empty_Some id o) in H.
  - done.
Qed.

(** ** Level sums *)

Section level_sum.
Context (f : BookOrder -> Z) (s : Side) (p : Z).

Definition level_term (o : BookOrder) : Z := if bool_decide (order_at s p o) then f o else 0.

Lemma level_sum_insert orders id o :
  orders !! id = None -> level_sum f s p (<[id := o]> orders) = level_sum f s p orders + level_term o.
Proof. intros H. unfold level_sum. rewrite map_sum_insert by done. unfold level_term. lia. Qed.

Lemma level_sum_delete orders id o :
  orders !! id = Some o -> level_sum f s p (delete id orders) = level_sum f s p orders - level_term o.
Proof. intros H. unfold level_sum. by rewrite (map_sum_delete _ _ _ o). Qed.

Lemma level_term_at o : order_at s p o -> level_term o = f o.
Proof. intros H. unfold level_term. by rewrite bool_decide_true. Qed.

Lemma level_term_away o : ~ order_at s p o -> level_term o = 0.
Proof. intros H. unfold level_term. by rewrite bool_decide_false. Qed.

Lemma level_sum_nonneg orders :
  (forall id o, orders !! id = Some o -> 0 <= f o) -> 0 <= level_sum f s p orders.
Proof.
  intros H. apply map_sum_nonneg. intros id o Ho. specialize (H _ _ Ho).
  by case_bool_decide.
Qed.

Lemma level_sum_ge orders id o :
  (forall id o, orders !! id = Some o -> 0 <= f o) ->
  orders !! id = Some o -> order_at s p o -> f o <= level_sum f s p orders.
Proof.
  intros H Ho Hat. pose proof (level_sum_delete orders id o Ho) as Hd.
  rewrite (level_term_at o Hat) in Hd.
  enough (0 <= level_sum f s p (delete id orders)) by lia.
  apply level_sum_nonneg. intros id' o' [_ Ho']%lookup_delete_Some. eauto.
Qed.

Lemma level_sum_empty orders :
  (forall id o, orders !! id = Some o -> ~ order_at s p o) -> level_sum f s p orders = 0.
Proof.
  intros H. apply map_sum_zero. intros id o Ho. by rewrite bool_decide_false by eauto.
Qed.

End level_sum.

Lemma level_sum_le (f g : BookOrder -> Z) s p orders :
  (forall id o, orders !! id = Some o -> 0 <= f o <= g o) ->
  0 <= level_sum f s p orders <= level_sum g s p orders.
Proof.
  intros H. split; [apply level_sum_nonneg; intros id o Ho; apply (H _ _ Ho) |].
  unfold level_sum. induction orders as [|id o m Hm IH] using map_ind; [done |].
  rewrite !map_sum_insert by done.
  assert (map_sum (fun _ o => if bool_decide (order_at s p o) then f o else 0) m <=
          map_sum (fun _ o => if bool_decide (order_at s p o) then g o else 0) m).
  { apply IH. intros id' o' Ho'. apply (H id'). rewrite lookup_insert_ne; [done | congruence]. }
  pose proof (H id o (lookup_insert_eq _ _ _)). case_bool_decide; lia.
Qed.

(** ** Writing levels *)

Lemma side_put_level s p lv b s' p' :
  book_side (put_level s p lv b) s' !! p' =
  if bool_decide (s = s' /\ p = p') then Some lv else book_side b s' !! p'.
Proof.
  case_bool_decide as H.
  - destruct H as [<- <-]. destruct s; simpl; by rewrite lookup_insert_eq.
  - destruct s, s'; simpl; try done; rewrite lookup_insert_ne; naive_solver.
Qed.

Lemma side_drop_level s p b s' p' :
  book_side (drop_level s p b) s' !! p' =
  if bool_decide (s = s' /\ p = p') then None else book_side b s' !! p'.
Proof.
  case_bool_decide as H.
  - destruct H as [<- <-]. destruct s; simpl; by rewrite lookup_delete_eq.
  - destruct s, s'; simpl; try done; rewrite lookup_delete_ne; naive_solver.
Qed.

Lemma put_level_twice s p lv1 lv2 b :
  put_level s p lv2 (put_level s p lv1 b) = put_level s p lv2 b.
Proof. destruct s; unfold put_level; simpl; by rewrite insert_insert_eq. Qed.

Lemma drop_put_level s p lv b : drop_level s p (put_level s p lv b) = drop_level s p b.
Proof. destruct s; unfold drop_level, put_level; simpl; by rewrite delete_insert_eq. Qed.

Lemma put_orders_put_level s p lv b m :
  put_orders m (put_level s p lv b) = put_level s p lv (put_orders m b).
Proof. by destruct s. Qed.

Lemma orders_put_level s p lv b : bk_orders (put_level s p lv b) = bk_orders b.
Proof. by destruct s. Qed.
Lemma next_put_level s p lv b : bk_next_priority (put_level s p lv b) = bk_next_priority b.
Proof. by destruct s. Qed.
Lemma orders_drop_level s p b : bk_orders (drop_level s p b) = bk_orders b.
Proof. by destruct s. Qed.
Lemma next_drop_level s p b : bk_next_priority (drop_level s p b) = bk_next_priority b.
Proof. by destruct s. Qed.
Lemma side_put_orders m b s : book_side (put_orders m b) s = book_side b s.
Proof. by destruct s. Qed.
Lemma side_put_next n b s : book_side (put_next_priority n b) s = book_side b s.
Proof. by destruct s. Qed.

Create HintDb book.
#[export] Hint Rewrite orders_put_level next_put_level orders_drop_level next_drop_level
  side_put_orders side_put_next side_put_level side_drop_level : book.

(** ** Levels after an insertion or a removal *)

Lemma level_ok_insert_away orders id o s p lv :
  orders !! id = None -> ~ order_at s p o ->
  level_ok orders s p lv -> level_ok (<[id := o]> orders) s p lv.
Proof.
  intros Hid Hat []. split; try done.
  - intros k id'. rewrite lk_queue0. split; intros (o' & Ho' & Hat' & Hk); exists o'.
    + split_and!; try done. rewrite lookup_insert_ne; [done | congruence].
    + apply lookup_insert_Some in Ho' as [[-> ->]|[_ Ho']]; done.
  - by rewrite level_sum_insert, level_term_away, Z.add_0_r.
  - by rewrite level_sum_insert, level_term_away, Z.add_0_r.
Qed.

(** The level after [book_insert], from the one before ([None] for a price
    with no orders). *)
Definition level_add (o : BookOrder) (lv : Level) : Level :=
  mkLevel (<[bo_priority o := bo_order_id o]> (lv_queue lv))
    (lv_visible lv + bo_visible o) (lv_total lv + bo_remaining o).

Definition level_del (o : BookOrder) (lv : Level) : Level :=
  mkLevel (delete (bo_priority o) (lv_queue lv))
    (lv_visible lv - bo_visible o) (lv_total lv - bo_remaining o).

(** [level_ok] for a price that may have no level yet. *)
Record level_view (orders : gmap Z BookOrder) (s : Side) (p : Z) (lv : Level) : Prop := {
  vw_queue : forall k id, lv_queue lv !! k = Some id <->
    exists o, orders !! id = Some o /\ order_at s p o /\ bo_priority o = k;
  vw_visible : lv_visible lv = level_sum bo_visible s p orders;
  vw_total : lv_total lv = level_sum bo_remaining s p orders
}.

Lemma level_ok_view orders s p lv : level_ok orders s p lv -> level_view orders s p lv.
Proof. by intros []. Qed.

Lemma level_view_insert orders o lv :
  orders !! bo_order_id o = None -> lv_queue lv !! bo_priority o = None ->
  level_view orders (bo_side o) (bo_price o) lv ->
  level_view (<[bo_order_id o := o]> orders) (bo_side o) (bo_price o) (level_add o lv).
Proof.
  intros Hid Hprio [Hq Hv Ht]. assert (order_at (bo_side o) (bo_price o) o) as Hat by done.
  split; simpl.
  - intros k id. rewrite lookup_insert_Some, Hq. split.
    + intros [[<- <-]|[Hk (o' & Ho' & Hat' & Hk')]].
      * exists o. by rewrite lookup_insert_eq.
      * exists o'. rewrite lookup_insert_ne; [done | congruence].
    + intros (o' & Ho' & Hat' & Hk').
      apply lookup_insert_Some in Ho' as [[<- <-]|[Hne Ho']]; [by left |]. right.
      split; [| by eauto]. intros <-.
      assert (lv_queue lv !! bo_priority o = Some id) by (apply Hq; eauto). congruence.
  - rewrite level_sum_insert, level_term_at by done. lia.
  - rewrite level_sum_insert, level_term_at by done. lia.
Qed.

Lemma level_view_delete orders o lv :
  orders !! bo_order_id o = Some o -> level_view orders (bo_side o) (bo_price o) lv ->
  level_view (delete (bo_order_id o) orders) (bo_side o) (bo_price o) (level_del o lv).
Proof.
  intros Hid [Hq Hv Ht]. assert (order_at (bo_side o) (bo_price o) o) as Hat by done.
  assert (Hself : lv_queue lv !! bo_priority o = Some (bo_order_id o)) by (apply Hq; eauto).
  split; simpl.
  - intros k id. rewrite lookup_delete_Some, Hq. split.
    + intros [Hne (o' & Ho' & Hat' & Hk')]. exists o'. split; [| done].
      rewrite lookup_delete_ne; [done |]. intros <-. congruence.
    + intros (o' & [Hne Ho']%lookup_delete_Some & Hat' & Hk'). split; [| by eauto].
      intros <-. assert (lv_queue lv !! bo_priority o = Some id) by (apply Hq; eauto). congruence.
  - rewrite (level_sum_delete _ _ _ _ _ o), level_term_at by done. lia.
  - rewrite (level_sum_delete _ _ _ _ _ o), level_term_at by done. lia.
Qed.

Lemma level_ok_delete_away orders id o s p lv :
  orders !! id = Some o -> ~ order_at s p o ->
  level_ok orders s p lv -> level_ok (delete id orders) s p lv.
Proof.
  intros Hid Hat []. split; try done.
  - intros k id'. rewrite lk_queue0. split; intros (o' & Ho' & Hat' & Hk); exists o'.
    + split_and!; try done. rewrite lookup_delete_ne; [done | congruence].
    + by apply lookup_delete_Some in Ho' as [_ Ho'].
  - by rewrite (level_sum_delete _ _ _ _ _ o), level_term_away, Z.sub_0_r.
  - by rewrite (level_sum_delete _ _ _ _ _ o), level_term_away, Z.sub_0_r.
Qed.

(** ** Insertion *)

(** The view of a price on a well-formed book, level or not. *)
Lemma book_view b s p :
  book_ok b -> level_view (bk_orders b) s p (default Level_default (book_side b s !! p)).
Proof.
  intros Hb. destruct (book_side b s !! p) as [lv|] eqn:Hlv; simpl.
  - apply level_ok_view. by apply (bk_level_ok b Hb).
  - assert (forall id o, bk_orders b !! id = Some o -> ~ order_at s p o) as Hno.
    { intros id o Ho [<- <-]. apply (bk_indexed b Hb) in Ho as [lv Hlv']. congruence. }
    split; simpl; [| by rewrite level_sum_empty..].
    intros k id. rewrite lookup_empty. split; [done |]. intros (o & Ho & Hat & _).
    by destruct (Hno id o).
Qed.

Lemma view_bounds b s p :
  book_ok b -> 0 <= level_sum bo_visible s p (bk_orders b) <= level_sum bo_remaining s p (bk_orders b).
Proof.
  intros Hb. apply level_sum_le. intros id o Ho.
  apply (bk_order_ok b Hb) in Ho as []. lia.
Qed.

Lemma level_sum_fits b s p : book_ok b -> level_sum bo_remaining s p (bk_orders b) <= int_max I64.
Proof.
  intros Hb. pose proof (book_view b s p Hb) as [_ _ <-].
  destruct (book_side b s !! p) as [lv|] eqn:Hlv; simpl; [| done].
  by apply (bk_level_ok b Hb) in Hlv as [].
Qed.

(** The priority [k] is free at price [p]. *)
Definition priority_free (orders : gmap Z BookOrder) (s : Side) (p k : Z) : Prop :=
  forall id o, orders !! id = Some o -> order_at s p o -> bo_priority o <> k.

Definition inserted (o : BookOrder) (b : Book) : Book :=
  put_level (bo_side o) (bo_price o)
    (level_add o (default Level_default (book_side b (bo_side o) !! bo_price o)))
    (put_orders (<[bo_order_id o := o]> (bk_orders b)) b).

Lemma book_insert_run b o :
  book_ok b -> order_ok (bk_next_priority b) (bo_order_id o) o ->
  bk_orders b !! bo_order_id o = None ->
  priority_free (bk_orders b) (bo_side o) (bo_price o) (bo_priority o) ->
  level_sum bo_remaining (bo_side o) (bo_price o) (bk_orders b) + bo_remaining o <= int_max I64 ->
  book_insert o b = (inserted o b, Ok tt).
Proof.
  intros Hb [] Hid Hfree Hfits.
  pose proof (book_view b (bo_side o) (bo_price o) Hb) as [Hq Hv Ht].
  pose proof (view_bounds b (bo_side o) (bo_price o) Hb).
  unfold book_insert, inserted. set (lv := default Level_default _) in *.
  assert (lv_queue lv !! bo_priority o = None) as Hnone.
  { destruct (lv_queue lv !! bo_priority o) as [id|] eqn:Hk; [| done].
    apply Hq in Hk as (o' & Ho' & Hat & Hk). by destruct (Hfree id o'). }
  rewrite bind_refuse by (rewrite !orb_false_iff, !Z.leb_gt, Z.ltb_ge; lia).
  rewrite bind_gets, bind_refuse
    by (unfold book_contains; simpl; rewrite Hid; apply bool_decide_false; by intros []).
  cbn [id]. fold lv. rewrite Hnone. rewrite bind_modify.
  rewrite bind_refuse by (apply bool_decide_false; by intros []). simpl.
  rewrite (bind_lift _ _ _ (lv_visible lv + bo_visible o))
    by (apply ok_or_Ok, checked_in; unfold int_min; lia).
  rewrite bind_modify, put_level_twice. simpl.
  rewrite (bind_lift _ _ _ (lv_total lv + bo_remaining o))
    by (apply ok_or_Ok, checked_in; unfold int_min; lia).
  rewrite bind_modify, put_level_twice. unfold modify.
  by rewrite put_orders_put_level, orders_put_level.
Qed.

Lemma inserted_ok b o :
  book_ok b -> order_ok (bk_next_priority b) (bo_order_id o) o ->
  bk_orders b !! bo_order_id o = None ->
  priority_free (bk_orders b) (bo_side o) (bo_price o) (bo_priority o) ->
  level_sum bo_remaining (bo_side o) (bo_price o) (bk_orders b) + bo_remaining o <= int_max I64 ->
  book_ok (inserted o b).
Proof.
  intros Hb Ho Hid Hfree Hfits. unfold inserted.
  pose proof (book_view b (bo_side o) (bo_price o) Hb) as Hview.
  set (lv := default Level_default _) in *.
  assert (lv_queue lv !! bo_priority o = None) as Hnone.
  { destruct (lv_queue lv !! bo_priority o) as [id|] eqn:Hk; [| done].
    apply (vw_queue _ _ _ _ Hview) in Hk as (o' & Ho' & Hat & Hk). by destruct (Hfree id o'). }
  split; autorewrite with book; simpl.
  - apply map_Forall_insert_2; [done | apply Hb].
  - intros s p lv'. rewrite side_put_level, side_put_orders. case_bool_decide as Hat.
    + destruct Hat as [<- <-]. intros [= <-].
      apply (level_view_insert _ _ _ Hid Hnone) in Hview as [Hq' Hv' Ht'].
      split; try done; simpl in *.
      * rewrite level_sum_insert, level_term_at in Ht' by done. lia.
      * apply insert_non_empty.
    + intros Hlv. apply level_ok_insert_away; [done | naive_solver |]. by apply (bk_level_ok b Hb).
  - intros id o' Ho'. rewrite side_put_level, side_put_orders. case_bool_decide; [done |].
    apply lookup_insert_Some in Ho' as [[_ <-]|[_ Ho']]; [naive_solver |].
    by apply (bk_indexed b Hb) in Ho'.
  - apply Hb.
Qed.

(** ** Removal *)

Definition removed (o : BookOrder) (b : Book) : Book :=
  let lv := level_del o (default Level_default (book_side b (bo_side o) !! bo_price o)) in
  let b := put_orders (delete (bo_order_id o) (bk_orders b)) b in
  if bool_decide (lv_queue lv = ∅) then drop_level (bo_side o) (bo_price o) b
  else put_level (bo_side o) (bo_price o) lv b.

Lemma book_remove_run b id o :
  book_ok b -> bk_orders b !! id = Some o -> book_remove id b = (removed o b, Ok tt).
Proof.
  intros Hb Ho. pose proof (bk_order_ok b Hb _ _ Ho) as [Hid ? ? _ _ _]. subst id.
  destruct (bk_indexed b Hb _ _ Ho) as [lv Hlv].
  pose proof (bk_level_ok b Hb _ _ _ Hlv) as [_ Hv Ht Hf _].
  assert (Hnn : forall id o, bk_orders b !! id = Some o -> 0 <= bo_visible o /\ 0 <= bo_remaining o)
    by (intros id' o' Ho'; apply (bk_order_ok b Hb) in Ho' as []; lia).
  assert (bo_visible o <= lv_visible lv) by 
    (rewrite Hv; eapply level_sum_ge; [intros id' o' Ho'; apply (Hnn _ _ Ho') | exact Ho | done]).
  assert (bo_remaining o <= lv_total lv) by 
    (rewrite Ht; eapply level_sum_ge; [intros id' o' Ho'; apply (Hnn _ _ Ho') | exact Ho | done]).
  pose proof (view_bounds b (bo_side o) (bo_price o) Hb).
  unfold book_remove, removed. rewrite Hlv. simpl.
  rewrite bind_gets. rewrite (bind_lift _ _ _ o) by (by apply ok_or_Ok).
  rewrite bind_modify. rewrite (bind_lift _ _ _ lv) by (by apply ok_or_Ok).
  rewrite bind_modify. simpl.
  rewrite (bind_lift _ _ _ (lv_visible lv - bo_visible o))
    by (apply ok_or_Ok, checked_in; unfold int_min; lia).
  rewrite bind_modify, put_level_twice. simpl.
  rewrite (bind_lift _ _ _ (lv_total lv - bo_remaining o))
    by (apply ok_or_Ok, checked_in; unfold int_min; lia).
  rewrite bind_modify, put_level_twice.
  case_bool_decide; [| done]. unfold modify. by rewrite drop_put_level.
Qed.

Lemma orders_removed o b : bk_orders (removed o b) = delete (bo_order_id o) (bk_orders b).
Proof. unfold removed. case_bool_decide; by autorewrite with book. Qed.
Lemma next_removed o b : bk_next_priority (removed o b) = bk_next_priority b.
Proof. unfold removed. case_bool_decide; by autorewrite with book. Qed.
Lemma orders_inserted o b : bk_orders (inserted o b) = <[bo_order_id o := o]> (bk_orders b).
Proof. unfold inserted. by autorewrite with book. Qed.
Lemma next_inserted o b : bk_next_priority (inserted o b) = bk_next_priority b.
Proof. unfold inserted. by autorewrite with book. Qed.
#[export] Hint Rewrite orders_removed next_removed orders_inserted next_inserted : book.

Lemma removed_side o b s p :
  book_side (removed o b) s !! p =
  if bool_decide (bo_side o = s /\ bo_price o = p) then
    let lv := level_del o (default Level_default (book_side b (bo_side o) !! bo_price o)) in
    if bool_decide (lv_queue lv = ∅) then None else Some lv
  else book_side b s !! p.
Proof.
  unfold removed. cbv zeta. destruct (bool_decide (lv_queue _ = ∅));
    by rewrite ?side_drop_level, ?side_put_level, side_put_orders.
Qed.

Lemma removed_ok b id o : book_ok b -> bk_orders b !! id = Some o -> book_ok (removed o b).
Proof.
  intros Hb Ho. pose proof (bk_order_ok b Hb _ _ Ho) as [Hid ? ? _ _ _]. subst id.
  pose proof (book_view b (bo_side o) (bo_price o) Hb) as Hview.
  pose proof (level_view_delete _ _ _ Ho Hview) as Hview'.
  split; autorewrite with book.
  - apply map_Forall_delete, Hb.
  - intros s p lv'. rewrite removed_side. case_bool_decide as Hat.
    + destruct Hat as [<- <-]. simpl. case_bool_decide as He; [done |]. intros [= <-].
      destruct Hview' as [Hq Hv Ht]. split; try done.
      rewrite Ht. rewrite (level_sum_delete _ _ _ _ _ o), level_term_at by done.
      pose proof (level_sum_fits b (bo_side o) (bo_price o) Hb). lia.
    + intros Hlv. eapply level_ok_delete_away; [done | naive_solver |].
      by apply (bk_level_ok b Hb).
  - intros id o' Ho'. apply lookup_delete_Some in Ho' as Hold. destruct Hold as [_ Hold].
    rewrite removed_side. case_bool_decide as Hat; [| by apply (bk_indexed b Hb) in Hold].
    simpl. case_bool_decide as He; [| done]. exfalso.
    assert (lv_queue (level_del o (default Level_default
      (book_side b (bo_side o) !! bo_price o))) !! bo_priority o' = Some id) as Hin.
    { apply (vw_queue _ _ _ _ Hview'). exists o'. split; [done |]. split; [| done].
      destruct Hat as [-> ->]. done. }
    simpl in He, Hin. rewrite He in Hin. by rewrite lookup_empty in Hin.
  - apply Hb.
Qed.

(** ** Levels are a function of the orders *)

Lemma level_view_unique orders s p lv1 lv2 :
  level_view orders s p lv1 -> level_view orders s p lv2 -> lv1 = lv2.
Proof.
  intros [Hq1 Hv1 Ht1] [Hq2 Hv2 Ht2]. destruct lv1 as [q1 v1 t1], lv2 as [q2 v2 t2].
  simpl in *. subst. f_equal. apply map_eq. intros k.
  destruct (q1 !! k) as [id|] eqn:H1.
  - symmetry. by apply Hq2, Hq1.
  - destruct (q2 !! k) as [id|] eqn:H2; [| done].
    apply Hq2, Hq1 in H2. congruence.
Qed.

Lemma level_ok_order orders s p lv :
  level_ok orders s p lv -> exists id o, orders !! id = Some o /\ order_at s p o.
Proof.
  intros []. destruct (map_choose _ lk_nonempty0) as (k & id & Hk).
  apply lk_queue0 in Hk as (o & Ho & Hat & _). eauto.
Qed.

Lemma book_ok_unique b1 b2 :
  book_ok b1 -> book_ok b2 -> bk_orders b1 = bk_orders b2 ->
  bk_next_priority b1 = bk_next_priority b2 -> b1 = b2.
Proof.
  intros H1 H2 Ho Hn.
  assert (forall b b' s p lv, book_ok b -> book_ok b' -> bk_orders b = bk_orders b' ->
    book_side b s !! p = Some lv -> book_side b' s !! p = Some lv) as Hside.
  { intros b b' s p lv Hb Hb' Hoo Hlv. apply (bk_level_ok b Hb) in Hlv as Hok.
    destruct (level_ok_order _ _ _ _ Hok) as (id & o & Hid & <- & <-).
    rewrite Hoo in Hid. destruct (bk_indexed b' Hb' _ _ Hid) as [lv' Hlv'].
    rewrite Hlv'. f_equal. apply (bk_level_ok b' Hb') in Hlv' as Hok'.
    rewrite Hoo in Hok. eapply level_view_unique; by apply level_ok_view. }
  assert (forall s, book_side b1 s = book_side b2 s) as Heq.
  { intros s. apply map_eq. intros p.
    destruct (book_side b1 s !! p) as [lv|] eqn:E1; [symmetry; by eapply (Hside b1 b2) |].
    destruct (book_side b2 s !! p) as [lv|] eqn:E2; [| done].
    apply (Hside b2 b1) in E2; [congruence | done..]. }
  destruct b1, b2. simpl in *. subst. f_equal; [apply (Heq Buy) | apply (Heq Sell)].
Qed.

(** * The order book as two priority queues

    The abstract specification of the book: each side is the list of its
    resting orders in price-time priority.  This file shows that a
    well-formed [Book] represents exactly one such list per side, the one
    [Book::orders] iterates over, that its head is what [Book::best] and the
    level queues find, and how insertion and removal act on the lists. *)

(** ** Price-time priority *)

(** A better price has a smaller rank. *)
Definition rank (s : Side) (p : Z) : Z := match s with Buy => - p | Sell => p end.

(** [o1] trades before [o2]: at a better price, or earlier at the same. *)
Definition ahead (s : Side) (o1 o2 : BookOrder) : Prop :=
  rank s (bo_price o1) < rank s (bo_price o2) \/
  (bo_price o1 = bo_price o2 /\ bo_priority o1 < bo_priority o2).

#[export] Instance ahead_irreflexive s : Irreflexive (ahead s).
Proof. intros o [|[]]; lia. Qed.
#[export] Instance ahead_transitive s : Transitive (ahead s).
Proof. intros o1 o2 o3. unfold ahead. destruct s; simpl; intros [|[]] [|[]]; lia. Qed.

Lemma rank_inj s p p' : rank s p = rank s p' -> p = p'.
Proof. destruct s; simpl; lia. Qed.

Lemma ahead_rank s o1 o2 : ahead s o1 o2 -> rank s (bo_price o1) <= rank s (bo_price o2).
Proof. intros [|[-> _]]; lia. Qed.

Lemma crosses_rank taker limit p :
  crosses taker limit p = true <-> rank (opposite taker) p <= rank (opposite taker) limit.
Proof. destruct taker; simpl; rewrite Z.leb_le; lia. Qed.

(** A price at least as good as a crossing one crosses too. *)
Lemma limit_crosses_rank taker limit p p' :
  limit_crosses taker limit p = true ->
  rank (opposite taker) p' <= rank (opposite taker) p -> limit_crosses taker limit p' = true.
Proof.
  destruct limit as [limit|]; simpl; [| done]. rewrite !crosses_rank. lia.
Qed.

(** [q] lists the orders of side [s] in price-time priority. *)
Record is_queue (s : Side) (orders : gmap Z BookOrder) (q : list BookOrder) : Prop := {
  iq_sorted : StronglySorted (ahead s) q;
  iq_elem : forall o, o ∈ q <-> orders !! bo_order_id o = Some o /\ bo_side o = s
}.

Lemma is_queue_unique s orders q1 q2 : is_queue s orders q1 -> is_queue s orders q2 -> q1 = q2.
Proof.
  intros [S1 M1] [S2 M2]. apply (strict_sorted_ext (ahead s)); [done.. |].
  intros o. by rewrite M1, M2.
Qed.

(** ** [Book::orders] is the queue *)

Section book_orders.
Context (b : Book) (Hb : book_ok b) (s : Side).

Definition level_orders (lv : Level) : list BookOrder :=
  omap (fun order_id => bk_orders b !! order_id) (values (lv_queue lv)).

Lemma elem_of_level_orders p lv o :
  level_ok (bk_orders b) s p lv ->
  o ∈ level_orders lv <-> bk_orders b !! bo_order_id o = Some o /\ order_at s p o.
Proof.
  intros [Hq _ _ _ _]. unfold level_orders. rewrite list_elem_of_omap. split.
  - intros (id & (k & Hk)%elem_of_values & Ho). apply Hq in Hk as (o' & Ho' & Hat & _).
    rewrite Ho in Ho'. injection Ho' as <-.
    by rewrite (ok_id _ _ _ (bk_order_ok b Hb _ _ Ho)).
  - intros [Ho Hat]. exists (bo_order_id o). split; [| done].
    apply elem_of_values. exists (bo_priority o). apply Hq. eauto.
Qed.

Lemma level_orders_sorted p lv :
  level_ok (bk_orders b) s p lv -> StronglySorted (ahead s) (level_orders lv).
Proof.
  intros Hlv. pose proof (keys_sorted (lv_queue lv)) as Hks. unfold level_orders, values, keys in *.
  assert (Hin : forall k id, (k, id) ∈ entries (lv_queue lv) ->
    exists o, bk_orders b !! id = Some o /\ order_at s p o /\ bo_priority o = k).
  { intros k id Hk%elem_of_entries. by apply Hlv. }
  induction (entries (lv_queue lv)) as [|[k id] l IH]; [constructor |].
  simpl in *. apply StronglySorted_inv in Hks as [Hks Hall].
  destruct (Hin k id) as (o & Ho & Hat & Hk); [left |]. rewrite Ho.
  constructor; [apply IH; [done |]; intros; apply Hin; by right |].
  apply Forall_forall. intros o' (id' & ([k' id''] & -> & Hin')%list_elem_of_fmap & Ho')%list_elem_of_omap.
  simpl in Ho'. destruct (Hin k' id'') as (o'' & Ho'' & Hat' & Hk'); [by right |].
  rewrite Ho' in Ho''. injection Ho'' as <-. right.
  destruct Hat as [_ ->], Hat' as [_ ->]. split; [done |].
  rewrite Forall_forall in Hall. subst.
  destruct (Hall (bo_priority o')) as [Hle Hne]; [| simpl in Hle; lia].
  apply list_elem_of_fmap. by exists (bo_priority o', id'').
Qed.

(** Concatenating the levels in price order sorts all orders. *)
Lemma levels_sorted (ls : list (Z * Level)) :
  StronglySorted (fun p p' => rank s p < rank s p') ls.*1 ->
  (forall p lv, (p, lv) ∈ ls -> level_ok (bk_orders b) s p lv) ->
  StronglySorted (ahead s)
    (omap (fun order_id => bk_orders b !! order_id) (ls.*2 ≫= fun lv => values (lv_queue lv))).
Proof.
  induction ls as [|[p lv] ls IH]; intros Hs Hok; [constructor |].
  simpl in *. apply StronglySorted_inv in Hs as [Hs Hall].
  rewrite omap_app. fold (level_orders lv). apply StronglySorted_app. split_and!.
  - intros o1 o2 H1 H2. apply (elem_of_level_orders p) in H1 as [_ [_ Hp1]]; [| apply Hok; left].
    apply list_elem_of_omap in H2 as (id & (lv' & Hid & Hlv')%list_elem_of_bind & Ho2).
    apply list_elem_of_fmap in Hlv' as ([p' lv''] & -> & Hin). simpl in Hid.
    assert (o2 ∈ level_orders lv'') as Ho2' by (apply list_elem_of_omap; eauto).
    apply (elem_of_level_orders p') in Ho2' as [_ [_ Hp2]]; [| apply Hok; by right].
    left. rewrite Hp1, Hp2. rewrite Forall_forall in Hall. apply Hall.
    apply list_elem_of_fmap. by exists (p', lv'').
  - apply (level_orders_sorted p). apply Hok. left.
  - apply IH; [done |]. intros. apply Hok. by right.
Qed.

(** The levels of one side, best first. *)
Definition levels_best_first : list (Z * Level) :=
  match s with Buy => reverse (entries (bk_bids b)) | Sell => entries (bk_asks b) end.

Lemma elem_of_levels p lv : (p, lv) ∈ levels_best_first <-> book_side b s !! p = Some lv.
Proof.
  unfold levels_best_first. destruct s; simpl; rewrite ?elem_of_reverse; apply elem_of_entries.
Qed.

Lemma levels_rank_sorted :
  StronglySorted (fun p p' => rank s p < rank s p') levels_best_first.*1.
Proof.
  unfold levels_best_first. destruct s; simpl.
  - rewrite fmap_reverse. pose proof (keys_sorted (bk_bids b)) as Hk.
    apply strongly_sorted_reverse in Hk. unfold keys in Hk.
    induction Hk as [|p l Hs IH Hall]; constructor; [done |].
    eapply Forall_impl; [exact Hall |]. intros p' [Hle Hne]. simpl in *. lia.
  - pose proof (keys_sorted (bk_asks b)) as Hk. unfold keys in Hk.
    induction Hk as [|p l Hs IH Hall]; constructor; [done |].
    eapply Forall_impl; [exact Hall |]. intros p' [Hle Hne]. simpl in *. lia.
Qed.

Lemma book_orders_levels :
  book_orders b s = omap (fun order_id => bk_orders b !! order_id)
    (levels_best_first.*2 ≫= fun lv => values (lv_queue lv)).
Proof.
  unfold book_orders, levels_best_first, values. destruct s; [by rewrite fmap_reverse | done].
Qed.

Lemma book_orders_queue : is_queue s (bk_orders b) (book_orders b s).
Proof.
  rewrite book_orders_levels.
  assert (Hok : forall p lv, (p, lv) ∈ levels_best_first -> level_ok (bk_orders b) s p lv)
    by (intros p lv Hlv%elem_of_levels; by apply (bk_level_ok b Hb)).
  split; [apply levels_sorted; [apply levels_rank_sorted | done] |].
  intros o. rewrite list_elem_of_omap. split.
  - intros (id & (lv & Hid & ([p lv'] & -> & Hlv)%list_elem_of_fmap)%list_elem_of_bind & Ho).
    assert (o ∈ level_orders lv') as Hin by (apply list_elem_of_omap; eauto).
    apply (elem_of_level_orders p) in Hin as [? [? _]]; auto.
  - intros [Ho Hs]. destruct (bk_indexed b Hb _ _ Ho) as [lv Hlv]. rewrite Hs in Hlv.
    assert (o ∈ level_orders lv) as (id & Hid & Hi)%list_elem_of_omap.
    { apply (elem_of_level_orders (bo_price o)); [by apply (bk_level_ok b Hb) |]. done. }
    exists id. split; [| done]. apply list_elem_of_bind. exists lv. split; [done |].
    apply list_elem_of_fmap. exists (bo_price o, lv). split; [done |]. by apply elem_of_levels.
Qed.

End book_orders.

(** ** The head of the queue *)

Lemma queue_head_min s orders o q o' :
  is_queue s orders (o :: q) -> orders !! bo_order_id o' = Some o' -> bo_side o' = s ->
  o' = o \/ ahead s o o'.
Proof.
  intros [Hs Hm] Ho' Hs'. assert (o' ∈ o :: q) as [->|Hin]%elem_of_cons by (by apply Hm); [by left |].
  right. apply StronglySorted_inv in Hs as [_ Hall]. rewrite Forall_forall in Hall. by apply Hall.
Qed.

Lemma best_None b s : book_ok b -> book_orders b s = [] -> best b s = None.
Proof.
  intros Hb Hq. pose proof (book_orders_queue b Hb s) as Hiq. rewrite Hq in Hiq.
  assert (book_side b s = ∅) as He.
  { apply map_empty. intros p. destruct (book_side b s !! p) as [lv|] eqn:Hlv; [| done].
    apply (bk_level_ok b Hb) in Hlv as (id & o & Ho & Hat & _)%level_ok_order.
    pose proof (ok_id _ _ _ (bk_order_ok b Hb _ _ Ho)) as Hid. subst id.
    assert (o ∈ @nil BookOrder) as []%elem_of_nil by (by apply (iq_elem _ _ _ Hiq)). }
  destruct s; simpl in *; rewrite He; [by rewrite (proj2 (last_entry_None _)) by done |].
  by rewrite (proj2 (first_entry_None _)) by done.
Qed.

Lemma best_head b s o q :
  book_ok b -> book_orders b s = o :: q ->
  best b s = Some (bo_price o) /\ level_head b s (bo_price o) = Some (bo_order_id o) /\
  bk_orders b !! bo_order_id o = Some o /\ bo_side o = s.
Proof.
  intros Hb Hq. pose proof (book_orders_queue b Hb s) as Hiq. rewrite Hq in Hiq.
  assert (bk_orders b !! bo_order_id o = Some o /\ bo_side o = s) as [Ho Hs]
    by (apply (iq_elem _ _ _ Hiq); left).
  destruct (bk_indexed b Hb _ _ Ho) as [lv Hlv]. rewrite Hs in Hlv.
  assert (Hmin : forall p, is_Some (book_side b s !! p) -> rank s (bo_price o) <= rank s p).
  { intros p [lv' Hlv']. apply (bk_level_ok b Hb) in Hlv' as (id & o' & Ho' & Hs' & <-)%level_ok_order.
    pose proof (ok_id _ _ _ (bk_order_ok b Hb _ _ Ho')) as Hid. subst id.
    destruct (queue_head_min _ _ _ _ o' Hiq Ho' Hs') as [->|Ha]; [done |].
    by apply ahead_rank in Ha. }
  split_and!; [| | done..].
  - destruct s; simpl in *.
    + rewrite (proj2 (last_entry_Some _ (bo_price o) lv)); [done |]. split; [done |].
      intros p Hp%Hmin. simpl. lia.
    + rewrite (proj2 (first_entry_Some _ (bo_price o) lv)); [done |]. split; [done |].
      intros p Hp%Hmin. simpl. lia.
  - unfold level_head. rewrite Hlv. simpl. unfold values.
    assert (first_entry (lv_queue lv) = Some (bo_priority o, bo_order_id o)) as Hf.
    { pose proof (bk_level_ok b Hb _ _ _ Hlv) as [Hlq _ _ _ _]. apply first_entry_Some. split.
      - apply Hlq. by exists o.
      - intros k [id Hk]. apply Hlq in Hk as (o' & Ho' & [Hs' Hp'] & <-).
        pose proof (ok_id _ _ _ (bk_order_ok b Hb _ _ Ho')) as Hid. subst id.
        destruct (queue_head_min _ _ _ _ o' Hiq Ho' Hs') as [->|[Hr|[_ Hlt]]]; simpl; [done | |lia].
        rewrite Hp' in Hr. lia. }
    unfold first_entry in Hf. by destruct (entries (lv_queue lv)) as [|[]]; simplify_eq/=.
Qed.
