(* ===== verification/BookMatch.v ===== *)
(** * Continuous matching refines price-time priority

    [match_queue] is continuous trading on the abstract queue; the
    refinement lemmas show that [Book::execute], [Book::rest] and
    [Book::cancel] act on the book's queues exactly as it says. *)

From S2P Require Import Prelude Ordered MarketTypes MarketEvents Book BookFacts.

(** ** Operations on queues *)

(** Behind every order at the same or a better price. *)
Fixpoint enqueue (s : Side) (o : BookOrder) (q : list BookOrder) : list BookOrder :=
  match q with
  | [] => [o]
  | x :: q' => if rank s (bo_price x) <=? rank s (bo_price o) then x :: enqueue s o q' else o :: q
  end.

(** A maker after [fill] lots: gone, still displaying at its place, or an
    iceberg whose next slice queues behind its level with priority [next]. *)
Definition after_fill (s : Side) (o : BookOrder) (fill next : Z) (q : list BookOrder)
    : list BookOrder * Z :=
  let rem := bo_remaining o - fill in
  let vis := bo_visible o - fill in
  if rem <=? 0 then (q, next)
  else if vis <=? 0 then
    (enqueue s (mkBookOrder (bo_order_id o) (bo_side o) (bo_price o) rem
       (Z.min (default rem (bo_display o)) rem) (bo_display o) next) q, next + 1)
  else (with_visible (with_remaining o rem) vis :: q, next).

Record Outcome : Type := mkOutcome {
  out_matches : list Match;
  out_remaining : Z;
  out_queue : list BookOrder;
  out_next : Z
}.

(** Continuous matching of an aggressor against the opposite queue. *)
Fixpoint match_queue (fuel : nat) (taker : Side) (limit : option Z) (remaining next : Z)
    (q : list BookOrder) : Outcome :=
  match fuel, q with
  | S fuel, o :: q' =>
      if (0 <? remaining) && limit_crosses taker limit (bo_price o) then
        let fill := Z.min remaining (bo_visible o) in
        let '(q'', next') := after_fill (opposite taker) o fill next q' in
        let out := match_queue fuel taker limit (remaining - fill) next' q'' in
        mkOutcome (mkMatch (bo_order_id o) (bo_price o) fill (bo_remaining o - fill) :: out_matches out)
          (out_remaining out) (out_queue out) (out_next out)
      else mkOutcome [] remaining q next
  | _, _ => mkOutcome [] remaining q next
  end.

(** ** Queues under insertion and removal *)

Lemma elem_of_enqueue s o q x : x ∈ enqueue s o q <-> x = o \/ x ∈ q.
Proof.
  induction q as [|y q IH]; simpl; [set_solver |].
  destruct (_ <=? _); [rewrite elem_of_cons, IH | rewrite elem_of_cons]; set_solver.
Qed.

Lemma enqueue_sorted s o q :
  StronglySorted (ahead s) q -> (forall x, x ∈ q -> bo_priority x < bo_priority o) ->
  StronglySorted (ahead s) (enqueue s o q).
Proof.
  induction 1 as [|y q Hs IH Hall]; intros Hprio; simpl; [repeat constructor |].
  rewrite Forall_forall in Hall. destruct (Z.leb_spec (rank s (bo_price y)) (rank s (bo_price o))).
  - constructor; [apply IH; intros; apply Hprio; by right |].
    apply Forall_forall. intros x [->|Hx]%elem_of_enqueue; [| by apply Hall].
    specialize (Hprio y (list_elem_of_here _ _)).
    destruct (decide (rank s (bo_price y) = rank s (bo_price o))) as [He%rank_inj|Hne];
      [by right | left; lia].
  - constructor; [constructor; [done |]; by apply Forall_forall |].
    apply Forall_forall. intros x [->|Hx]%elem_of_cons; [by left |].
    specialize (Hall x Hx) as Hr%ahead_rank. left. lia.
Qed.

Lemma queue_insert_away s orders q o :
  orders !! bo_order_id o = None -> bo_side o <> s ->
  is_queue s orders q -> is_queue s (<[bo_order_id o := o]> orders) q.
Proof.
  intros Hid Hs [Hsort Hm]. split; [done |]. intros x. rewrite Hm, lookup_insert_Some.
  split; [| naive_solver]. intros [Hx Hxs]. split; [| done]. right.
  split; [congruence | done].
Qed.

Lemma queue_delete_away s orders q o :
  bo_side o <> s -> orders !! bo_order_id o = Some o ->
  is_queue s orders q -> is_queue s (delete (bo_order_id o) orders) q.
Proof.
  intros Hs Ho [Hsort Hm]. split; [done |]. intros x. rewrite Hm, lookup_delete_Some.
  split; [| naive_solver]. intros [Hx Hxs]. split; [| done]. split; [congruence | done].
Qed.

Lemma queue_delete_head s orders o q :
  is_queue s orders (o :: q) -> is_queue s (delete (bo_order_id o) orders) q.
Proof.
  intros [Hsort Hm].
  assert (orders !! bo_order_id o = Some o) as Ho by (apply Hm; left).
  pose proof (strict_sorted_NoDup (ahead s) _ Hsort) as [Hnin _]%NoDup_cons.
  apply StronglySorted_inv in Hsort as [Hsort _]. split; [done |].
  intros x. rewrite lookup_delete_Some. specialize (Hm x). rewrite elem_of_cons in Hm.
  split.
  - intros Hx. destruct (proj1 Hm (or_intror Hx)) as [Hx' ?]. split; [| done].
    split; [| done]. intros Heq. rewrite <- Heq in Hx'. congruence.
  - intros [[Hne Hx] Hs]. destruct (proj2 Hm (conj Hx Hs)) as [->|]; done.
Qed.

Lemma queue_enqueue s orders q o :
  orders !! bo_order_id o = None -> bo_side o = s ->
  (forall x, x ∈ q -> bo_priority x < bo_priority o) ->
  is_queue s orders q -> is_queue s (<[bo_order_id o := o]> orders) (enqueue s o q).
Proof.
  intros Hid Hs Hprio [Hsort Hm]. split; [by apply enqueue_sorted |].
  intros x. rewrite elem_of_enqueue, Hm, lookup_insert_Some. split.
  - intros [->|[Hx Hxs]]; [by split; [left |] |]. split; [| done]. right. split; [congruence | done].
  - intros [[[_ ->]|[_ Hx]] Hxs]; [by left | by right].
Qed.

(** The head comes back with the same price and priority. *)
Lemma queue_insert_head s orders q o o' :
  is_queue s orders (o :: q) -> bo_order_id o' = bo_order_id o -> bo_side o' = bo_side o ->
  bo_price o' = bo_price o -> bo_priority o' = bo_priority o ->
  is_queue s (<[bo_order_id o' := o']> (delete (bo_order_id o) orders)) (o' :: q).
Proof.
  intros Hq Hid Hs Hp Hk. pose proof (queue_delete_head _ _ _ _ Hq) as [_ Hm].
  destruct Hq as [Hsort Hm']. assert (bo_side o = s) by (apply Hm'; left).
  apply StronglySorted_inv in Hsort as [Hsort Hall]. split.
  - constructor; [done |]. eapply Forall_impl; [exact Hall |]. intros x. unfold ahead.
    by rewrite Hp, Hk.
  - intros x. rewrite elem_of_cons, Hm, lookup_insert_Some. split.
    + intros [->|[Hx ?]]; [split; [by left | congruence] |]. split; [| done]. right.
      apply lookup_delete_Some in Hx as [? ?]. rewrite Hid. split; [done |].
      by apply lookup_delete_Some.
    + intros [[[_ ->]|[_ Hx]] ?]; [by left | by right].
Qed.

(** ** One fill *)

(** The whole effect of filling the head of a queue, on the book. *)
Definition filled_book (b b' : Book) (s : Side) (q : list BookOrder) (next : Z) : Prop :=
  book_ok b' /\ book_orders b' s = q /\
  book_orders b' (opposite s) = book_orders b (opposite s) /\ bk_next_priority b' = next.

Lemma book_ok_next b n :
  book_ok b -> bk_next_priority b <= n <= int_max U64 -> book_ok (put_next_priority n b).
Proof.
  intros [Ho Hl Hi Hn] Hle. split; simpl.
  - eapply map_Forall_impl; [exact Ho |]. intros id o []. split; try done. lia.
  - intros s p lv. rewrite side_put_next. apply Hl.
  - intros id o. rewrite side_put_next. apply Hi.
  - lia.
Qed.

Lemma take_priority_run b :
  0 <= bk_next_priority b < int_max U64 ->
  take_priority b = (put_next_priority (bk_next_priority b + 1) b, Ok (bk_next_priority b)).
Proof.
  intros H. unfold take_priority. rewrite bind_gets.
  rewrite (bind_lift _ _ _ (bk_next_priority b + 1)); [done |].
  apply ok_or_Ok, checked_in. unfold int_min. lia.
Qed.

Lemma queue_of b s : book_ok b -> forall q, is_queue s (bk_orders b) q -> book_orders b s = q.
Proof. intros Hb q Hq. eapply is_queue_unique; [| exact Hq]. by apply book_orders_queue. Qed.

Lemma removed_queue b o q :
  book_ok b -> book_orders b (bo_side o) = o :: q ->
  filled_book b (removed o b) (bo_side o) q (bk_next_priority b).
Proof.
  intros Hb Hq. pose proof (book_orders_queue b Hb (bo_side o)) as Hiq. rewrite Hq in Hiq.
  assert (bk_orders b !! bo_order_id o = Some o) as Ho by (apply (iq_elem _ _ _ Hiq); left).
  pose proof (removed_ok b _ _ Hb Ho) as Hb'. unfold filled_book.
  split_and!; [done | | | by autorewrite with book].
  - apply (queue_of _ _ Hb'). autorewrite with book. by apply queue_delete_head.
  - apply (queue_of _ _ Hb'). autorewrite with book.
    apply queue_delete_away; [by destruct (bo_side o) | done |]. by apply book_orders_queue.
Qed.

(** Putting back an order that was removed, at most as large as before. *)
Lemma reinsert_fits b o o' :
  book_ok b -> bk_orders b !! bo_order_id o = Some o ->
  bo_side o' = bo_side o -> bo_price o' = bo_price o -> bo_remaining o' <= bo_remaining o ->
  level_sum bo_remaining (bo_side o') (bo_price o') (bk_orders (removed o b)) + bo_remaining o'
    <= int_max I64.
Proof.
  intros Hb Ho -> -> Hle. autorewrite with book.
  rewrite (level_sum_delete _ _ _ _ _ o), level_term_at by done.
  pose proof (level_sum_fits b (bo_side o) (bo_price o) Hb). lia.
Qed.

Lemma reinsert_same b o o' q :
  book_ok b -> book_orders b (bo_side o) = o :: q ->
  bo_order_id o' = bo_order_id o -> bo_side o' = bo_side o ->
  bo_price o' = bo_price o -> bo_priority o' = bo_priority o -> bo_display o' = bo_display o ->
  0 < bo_visible o' <= bo_remaining o' -> bo_remaining o' <= bo_remaining o ->
  exists b', book_insert o' (removed o b) = (b', Ok tt) /\
    filled_book b b' (bo_side o) (o' :: q) (bk_next_priority b).
Proof.
  intros Hb Hq Hid Hs Hp Hk Hd Hv Hr.
  pose proof (book_orders_queue b Hb (bo_side o)) as Hiq. rewrite Hq in Hiq.
  assert (bk_orders b !! bo_order_id o = Some o) as Ho by (apply (iq_elem _ _ _ Hiq); left).
  pose proof (removed_ok b _ _ Hb Ho) as Hb1. pose proof (bk_order_ok b Hb _ _ Ho) as [_ ? ? ? ? ?].
  assert (order_ok (bk_next_priority (removed o b)) (bo_order_id o') o') as Hok.
  { autorewrite with book. split; rewrite ?Hp, ?Hk, ?Hd; try done; lia. }
  assert (bk_orders (removed o b) !! bo_order_id o' = None) as Hnone.
  { autorewrite with book. rewrite Hid. apply lookup_delete_eq. }
  assert (priority_free (bk_orders (removed o b)) (bo_side o') (bo_price o') (bo_priority o'))
    as Hfree.
  { autorewrite with book. intros id x Hx [Hxs Hxp] Hxk.
    apply lookup_delete_Some in Hx as [Hne Hx].
    pose proof (ok_id _ _ _ (bk_order_ok b Hb _ _ Hx)) as Hidx. subst id.
    destruct (queue_head_min _ _ _ _ x Hiq Hx) as [->|[|]]; [congruence | done | |];
      rewrite ?Hxp, ?Hp in *; lia. }
  pose proof (reinsert_fits b o o' Hb Ho Hs Hp Hr) as Hfits.
  exists (inserted o' (removed o b)). split; [by apply book_insert_run |].
  assert (book_ok (inserted o' (removed o b))) as Hb2 by (by apply inserted_ok).
  unfold filled_book. split_and!; [done | | | by autorewrite with book];
    apply (queue_of _ _ Hb2); autorewrite with book.
  - by apply queue_insert_head.
  - apply queue_insert_away; [rewrite Hid; apply lookup_delete_eq | destruct (bo_side o); by rewrite Hs |].
    apply queue_delete_away; [by destruct (bo_side o) | done |]. by apply book_orders_queue.
Qed.

Lemma reinsert_back b o o' q :
  book_ok b -> book_orders b (bo_side o) = o :: q ->
  bo_order_id o' = bo_order_id o -> bo_side o' = bo_side o ->
  bo_price o' = bo_price o -> bo_priority o' = bk_next_priority b -> bo_display o' = bo_display o ->
  0 < bo_visible o' <= bo_remaining o' -> bo_remaining o' <= bo_remaining o ->
  bk_next_priority b < int_max U64 ->
  exists b', book_insert o' (put_next_priority (bk_next_priority b + 1) (removed o b)) = (b', Ok tt) /\
    filled_book b b' (bo_side o) (enqueue (bo_side o) o' q) (bk_next_priority b + 1).
Proof.
  intros Hb Hq Hid Hs Hp Hk Hd Hv Hr Hn.
  pose proof (book_orders_queue b Hb (bo_side o)) as Hiq. rewrite Hq in Hiq.
  assert (bk_orders b !! bo_order_id o = Some o) as Ho by (apply (iq_elem _ _ _ Hiq); left).
  pose proof (removed_ok b _ _ Hb Ho) as Hb1. pose proof (bk_order_ok b Hb _ _ Ho) as [_ ? ? ? ? ?].
  set (b1 := put_next_priority (bk_next_priority b + 1) (removed o b)).
  assert (Hb1' : book_ok b1) by (apply book_ok_next; [done |]; autorewrite with book; lia).
  assert (Hord : bk_orders b1 = delete (bo_order_id o) (bk_orders b)) by (subst b1; simpl; by autorewrite with book).
  assert (Hlow : forall id x, delete (bo_order_id o) (bk_orders b) !! id = Some x ->
    bo_priority x < bk_next_priority b).
  { intros id x [_ Hx]%lookup_delete_Some. apply (bk_order_ok b Hb) in Hx as []. lia. }
  assert (order_ok (bk_next_priority b1) (bo_order_id o') o') as Hok.
  { subst b1. simpl. split; rewrite ?Hp, ?Hk, ?Hd; try done; lia. }
  assert (bk_orders b1 !! bo_order_id o' = None) as Hnone.
  { rewrite Hord, Hid. apply lookup_delete_eq. }
  assert (priority_free (bk_orders b1) (bo_side o') (bo_price o') (bo_priority o')) as Hfree.
  { rewrite Hord, Hk. intros id x Hx%Hlow _. lia. }
  pose proof (reinsert_fits b o o' Hb Ho Hs Hp Hr) as Hfits.
  change (bk_orders (removed o b)) with (bk_orders b1) in Hfits.
  exists (inserted o' b1). split; [by apply book_insert_run |].
  assert (book_ok (inserted o' b1)) as Hb2 by (by apply inserted_ok).
  unfold filled_book. split_and!; [done | | | by autorewrite with book];
    apply (queue_of _ _ Hb2); rewrite orders_inserted, Hord.
  - apply queue_enqueue; [rewrite Hid; apply lookup_delete_eq | done | | by apply queue_delete_head].
    pose proof (queue_delete_head _ _ _ _ Hiq) as [_ Hm]. rewrite Hk.
    intros x [Hx _]%Hm. by apply Hlow in Hx.
  - apply queue_insert_away; [rewrite Hid; apply lookup_delete_eq | destruct (bo_side o); by rewrite Hs |].
    apply queue_delete_away; [by destruct (bo_side o) | done |]. by apply book_orders_queue.
Qed.

Lemma filled_trans b b1 b2 s q1 q2 n1 n2 :
  filled_book b b1 s q1 n1 -> filled_book b1 b2 s q2 n2 -> filled_book b b2 s q2 n2.
Proof. intros (_ & _ & Ho1 & _) (? & ? & Ho2 & ?). unfold filled_book. by rewrite <- Ho1. Qed.

(** [after_fill] never takes a priority without filling a displayed slice. *)
Lemma after_fill_next s o fill next q :
  next <= (after_fill s o fill next q).2 <= next + 1.
Proof. unfold after_fill. repeat case_match; simpl; lia. Qed.

(** A displayed slice that fills up takes a priority: with room for it the
    maker is back in the queue, without room the call fails. *)
Lemma take_priority_full b :
  int_max U64 <= bk_next_priority b -> take_priority b = (b, Err BookError.Overflow).
Proof.
  intros H. unfold take_priority. rewrite bind_gets. cbn [id]. unfold checked_add.
  by rewrite (proj2 (checked_None U64 (bk_next_priority b + 1))) by lia.
Qed.

Lemma bind_fail {S E A B} (m : M S E A) (f : A -> M S E B) s s1 e :
  m s = (s1, Err e) -> (m ≫= f) s = (s1, Err e).
Proof. unfold mbind, M_bind. by intros ->. Qed.

Lemma restore_maker_run b o q fill :
  book_ok b -> book_orders b (bo_side o) = o :: q -> 0 < fill <= bo_visible o ->
  let r := after_fill (bo_side o) o fill (bk_next_priority b) q in
  let restore := restore_maker
    (with_visible (with_remaining o (bo_remaining o - fill)) (bo_visible o - fill)) (removed o b) in
  (r.2 <= int_max U64 ->
   exists b', restore = (b', Ok tt) /\ filled_book b b' (bo_side o) r.1 r.2) /\
  (int_max U64 < r.2 -> exists b', restore = (b', Err BookError.Overflow)).
Proof.
  intros Hb Hq Hfill r restore. subst r restore.
  destruct (best_head b (bo_side o) o q Hb Hq) as (_ & _ & Ho & _).
  pose proof (bk_order_ok b Hb _ _ Ho) as [_ Hrem Hvis _ _ Hdisp].
  pose proof (bk_sequence b Hb).
  unfold restore_maker, after_fill. simpl.
  destruct (Z.ltb_spec 0 (bo_remaining o - fill)), (Z.leb_spec (bo_remaining o - fill) 0); try lia.
  - destruct (Z.eqb_spec (bo_visible o - fill) 0), (Z.leb_spec (bo_visible o - fill) 0); try lia;
      simpl; (split; intros Hn).
    + rewrite bind_assoc, (bind_run _ _ _ _ _ (take_priority_run (removed o b) ltac:(autorewrite with book; lia))).
      rewrite bind_ret. autorewrite with book. apply reinsert_back; simpl; try done; try lia.
      destruct (bo_display o) as [peak|]; simpl; [specialize (Hdisp peak eq_refl) |]; lia.
    + rewrite bind_assoc. erewrite bind_fail; [by eexists |].
      apply take_priority_full. autorewrite with book. lia.
    + rewrite bind_ret. apply reinsert_same; simpl; try done; lia.
    + lia.
  - simpl. split; [| lia]. eexists. split; [reflexivity |]. simpl. by apply removed_queue.
Qed.

(** Matching takes at most one priority per iteration. *)
Lemma match_queue_next fuel taker limit remaining next q :
  next <= out_next (match_queue fuel taker limit remaining next q) <= next + Z.of_nat fuel.
Proof.
  revert remaining next q. induction fuel as [|fuel IH]; intros remaining next q; [simpl; lia |].
  destruct q as [|o q]; [simpl; lia |]. cbn [match_queue]. destruct (_ && _); [| simpl; lia].
  pose proof (after_fill_next (opposite taker) o (Z.min remaining (bo_visible o)) next q).
  destruct (after_fill _ _ _ _ _) as [q1 n1]. cbn [out_next].
  specialize (IH (remaining - Z.min remaining (bo_visible o)) n1 q1). simpl in *. lia.
Qed.

(** [execute_loop] runs [match_queue] on the opposite queue, and fails only
    when the priorities run out. *)
Lemma execute_loop_run fuel taker limit remaining matches b :
  book_ok b -> is_i64 remaining ->
  let out := match_queue fuel taker limit remaining (bk_next_priority b)
               (book_orders b (opposite taker)) in
  (out_next out <= int_max U64 ->
   exists b', execute_loop fuel taker limit remaining matches b
      = (b', Ok (matches ++ out_matches out, out_remaining out)) /\
    filled_book b b' (opposite taker) (out_queue out) (out_next out)) /\
  (int_max U64 < out_next out ->
   exists b', execute_loop fuel taker limit remaining matches b = (b', Err BookError.Overflow)).
Proof.
  revert remaining matches b. induction fuel as [|fuel IH]; intros remaining matches b Hb Hr;
    pose proof (bk_sequence b Hb) as Hseq.
  { simpl. split; [| lia]. exists b. by rewrite app_nil_r. }
  cbn [execute_loop]. destruct (Z.leb_spec remaining 0).
  { assert (Hout : match_queue (S fuel) taker limit remaining (bk_next_priority b)
      (book_orders b (opposite taker)) = mkOutcome [] remaining (book_orders b (opposite taker))
      (bk_next_priority b)).
    { simpl. destruct (book_orders _ _); [done |]. destruct (Z.ltb_spec 0 remaining); [lia |]. done. }
    rewrite Hout. simpl. split; [| lia]. exists b. by rewrite app_nil_r. }
  rewrite bind_gets. cbn [id].
  destruct (book_orders b (opposite taker)) as [|o q] eqn:Hq.
  { rewrite best_None by done. simpl. split; [| lia]. exists b. by rewrite app_nil_r. }
  destruct (best_head b _ o q Hb Hq) as (Hbest & Hlevel & Ho & Hs).
  rewrite Hbest. cbn [match_queue]. rewrite (proj2 (Z.ltb_lt 0 remaining)) by done. cbn [andb].
  destruct (limit_crosses taker limit (bo_price o)); cbn [negb];
    [| simpl; split; [| lia]; exists b; by rewrite app_nil_r].
  pose proof (bk_order_ok b Hb _ _ Ho) as [_ Hrem Hvis _ _ _].
  rewrite (bind_lift _ _ _ (bo_order_id o)) by (by apply ok_or_Ok).
  rewrite (bind_lift _ _ _ o) by (by apply ok_or_Ok).
  rewrite bind_refuse by (apply Z.leb_gt; lia).
  set (fill := Z.min remaining (bo_visible o)) in *. cbv zeta.
  assert (0 < fill <= bo_visible o /\ fill <= remaining) as [Hfill Hle] by lia.
  rewrite (bind_lift _ _ _ (remaining - fill)) by (apply ok_or_Ok, checked_in; ranges; lia).
  rewrite (bind_lift _ _ _ (bo_remaining o - fill)) by (apply ok_or_Ok, checked_in; ranges; lia).
  rewrite (bind_lift _ _ _ (bo_visible o - fill)) by (apply ok_or_Ok, checked_in; ranges; lia).
  rewrite (bind_run _ _ _ _ _ (book_remove_run b _ o Hb Ho)).
  destruct (restore_maker_run b o q fill Hb) as [Hroom Hfull]; [by rewrite Hs | done |].
  rewrite Hs in Hroom, Hfull.
  destruct (after_fill (opposite taker) o fill (bk_next_priority b) q) as [q1 n1]. simpl in Hroom, Hfull.
  cbn [out_next out_matches out_remaining out_queue].
  pose proof (match_queue_next fuel taker limit (remaining - fill) n1 q1) as Hnext.
  destruct (Z.le_gt_cases n1 (int_max U64)) as [Hn1|Hn1].
  2: { split; [lia |]. intros _. destruct (Hfull Hn1) as [b1 Hrun].
       exists b1. by apply bind_fail. }
  destruct (Hroom Hn1) as (b1 & Hrun & Hf1). rewrite (bind_run _ _ _ _ _ Hrun).
  pose proof Hf1 as (Hb1 & Hq1 & Ho1 & Hbn1).
  destruct (IH (remaining - fill)
    (matches ++ [mkMatch (bo_order_id o) (bo_price o) fill (bo_remaining o - fill)]) b1 Hb1)
    as [IHok IHerr]; [ranges; lia |].
  rewrite Hq1, Hbn1 in IHok, IHerr. split; [| done].
  intros Hn. destruct (IHok Hn) as (b2 & Hrun2 & Hf2).
  exists b2. rewrite Hrun2, <- app_assoc. split; [done |]. by eapply filled_trans.
Qed.

Lemma execute_run taker limit quantity b :
  book_ok b -> 0 < quantity -> is_i64 quantity ->
  bk_next_priority b + quantity <= int_max U64 ->
  let out := match_queue (Z.to_nat quantity) taker limit quantity (bk_next_priority b)
               (book_orders b (opposite taker)) in
  exists b',
    execute taker limit quantity b = (b', Ok (out_matches out, out_remaining out)) /\
    filled_book b b' (opposite taker) (out_queue out) (out_next out).
Proof.
  intros Hb Hq Hi Hn. unfold execute. rewrite bind_refuse by (by apply Z.leb_gt).
  apply (execute_loop_run _ _ _ _ [] b Hb Hi).
  pose proof (match_queue_next (Z.to_nat quantity) taker limit quantity (bk_next_priority b)
    (book_orders b (opposite taker))). lia.
Qed.

(** Whatever [execute] returns, it returned what the queue says. *)
Lemma execute_Ok taker limit quantity b b' ms rem :
  book_ok b -> is_i64 quantity -> execute taker limit quantity b = (b', Ok (ms, rem)) ->
  let out := match_queue (Z.to_nat quantity) taker limit quantity (bk_next_priority b)
               (book_orders b (opposite taker)) in
  0 < quantity /\ ms = out_matches out /\ rem = out_remaining out /\
  filled_book b b' (opposite taker) (out_queue out) (out_next out).
Proof.
  intros Hb Hi Hrun out. unfold execute in Hrun. run_inv. guards.
  destruct (execute_loop_run (Z.to_nat quantity) taker limit quantity [] b Hb Hi) as [Hok Herr].
  fold out in Hok, Herr. destruct (Z.le_gt_cases (out_next out) (int_max U64)) as [Hle|Hgt].
  - destruct (Hok Hle) as (b1 & Hrun1 & Hf). simpl in Hrun1.
    match goal with H : execute_loop _ _ _ _ _ _ = (b', _) |- _ => rewrite Hrun1 in H; injection H as <- <- <- end.
    by split_and!.
  - destruct (Herr Hgt) as [b1 Hrun1]. congruence.
Qed.

(** * Facts about continuous matching on queues

    What [match_queue] fills, at which prices, and what it leaves, by
    induction on its iterations. *)

(** ** Queues as multisets of orders *)

Lemma enqueue_perm s o q : enqueue s o q ≡ₚ o :: q.
Proof.
  induction q as [|x q IH]; simpl; [done |]. destruct (_ <=? _); [| done].
  rewrite IH. constructor.
Qed.

(** What a queue needs for matching: orders that display something and do
    not display more than they have, in price order. *)
Definition fillable (o : BookOrder) : Prop :=
  0 < bo_visible o <= bo_remaining o /\ forall peak, bo_display o = Some peak -> 0 < peak.

Record queue_ok (s : Side) (q : list BookOrder) : Prop := {
  qo_fillable : Forall fillable q;
  qo_sorted : StronglySorted (fun o o' => rank s (bo_price o) <= rank s (bo_price o')) q
}.

Lemma ahead_price_sorted s q :
  StronglySorted (ahead s) q ->
  StronglySorted (fun o o' => rank s (bo_price o) <= rank s (bo_price o')) q.
Proof.
  induction 1 as [|o q Hs IH Hall]; constructor; [done |].
  eapply Forall_impl; [exact Hall |]. intros x. apply ahead_rank.
Qed.

Lemma book_queue_ok b s : book_ok b -> queue_ok s (book_orders b s).
Proof.
  intros Hb. pose proof (book_orders_queue b Hb s) as [Hs Hm].
  split; [| by apply ahead_price_sorted].
  apply Forall_forall. intros o [Ho _]%Hm. apply (bk_order_ok b Hb) in Ho as []. by split.
Qed.

Lemma enqueue_price_sorted s o q :
  StronglySorted (fun o o' => rank s (bo_price o) <= rank s (bo_price o')) q ->
  StronglySorted (fun o o' => rank s (bo_price o) <= rank s (bo_price o')) (enqueue s o q).
Proof.
  induction 1 as [|x q Hs IH Hall]; simpl; [repeat constructor |].
  rewrite Forall_forall in Hall.
  destruct (Z.leb_spec (rank s (bo_price x)) (rank s (bo_price o))).
  - constructor; [done |]. apply Forall_forall. intros y [->|Hy]%elem_of_enqueue; [done |].
    by apply Hall.
  - constructor; [by constructor; [| apply Forall_forall] |]. apply Forall_forall.
    intros y [->|Hy]%elem_of_cons; [lia |]. specialize (Hall y Hy). lia.
Qed.

(** ** One fill *)

Section after_fill.
Context (s : Side) (o : BookOrder) (q : list BookOrder) (fill next : Z).
Context (Hq : queue_ok s (o :: q)) (Hfill : 0 < fill <= bo_remaining o).

Lemma after_fill_ok : queue_ok s (after_fill s o fill next q).1.
Proof.
  destruct Hq as [[Ho Hf]%Forall_cons Hs]. apply StronglySorted_inv in Hs as Hs'.
  destruct Hs' as [Hs' Hall]. destruct Ho as [Hv Hd]. unfold after_fill.
  destruct (Z.leb_spec (bo_remaining o - fill) 0); [by split |].
  destruct (Z.leb_spec (bo_visible o - fill) 0); simpl; split.
  - rewrite enqueue_perm. constructor; [| done]. split; simpl; [| done].
    destruct (bo_display o) as [peak|]; simpl; [specialize (Hd peak eq_refl) |]; lia.
  - by apply enqueue_price_sorted.
  - constructor; [| done]. split; simpl; [lia | done].
  - by constructor.
Qed.

(** A fill takes [fill] from every sum of remaining quantities that counts
    orders by identifier, side and price. *)
Lemma after_fill_sum (w : BookOrder -> Z -> Z) :
  (forall o1 o2 r, bo_order_id o1 = bo_order_id o2 -> bo_side o1 = bo_side o2 ->
     bo_price o1 = bo_price o2 -> w o1 r = w o2 r) ->
  (forall x, w x 0 = 0) ->
  sumZ ((fun x => w x (bo_remaining x)) <$> (after_fill s o fill next q).1) =
  w o (bo_remaining o - fill) + sumZ ((fun x => w x (bo_remaining x)) <$> q).
Proof.
  intros Hw H0. destruct Hq as [[[Hv _] _]%Forall_cons _]. unfold after_fill.
  destruct (Z.leb_spec (bo_remaining o - fill) 0); simpl.
  { replace (bo_remaining o - fill) with 0 by lia. by rewrite H0. }
  destruct (Z.leb_spec (bo_visible o - fill) 0); simpl.
  - rewrite enqueue_perm. simpl. f_equal. by apply Hw.
  - f_equal. by apply Hw.
Qed.

Lemma after_fill_elem x :
  x ∈ (after_fill s o fill next q).1 -> x ∈ q \/ (bo_price x = bo_price o /\ bo_side x = bo_side o).
Proof.
  unfold after_fill. repeat case_match; simpl; [by left | |].
  - rewrite elem_of_enqueue. intros [->|]; [by right | by left].
  - rewrite elem_of_cons. intros [->|]; [by right | by left].
Qed.

End after_fill.

(** ** Liquidity within a limit *)

(** Quantity, displayed and hidden, that an aggressor could trade. *)
Definition liquidity (taker : Side) (limit : option Z) (q : list BookOrder) : Z :=
  sumZ ((fun o => if limit_crosses taker limit (bo_price o) then bo_remaining o else 0) <$> q).

Lemma liquidity_nonneg taker limit q : Forall fillable q -> 0 <= liquidity taker limit q.
Proof.
  unfold liquidity. induction 1 as [|o q [Ho _] _ IH]; [done |].
  rewrite fmap_cons, sumZ_cons. case_match; lia.
Qed.

Lemma liquidity_after_fill taker limit s o q fill next :
  queue_ok s (o :: q) -> 0 < fill <= bo_remaining o -> limit_crosses taker limit (bo_price o) = true ->
  liquidity taker limit (after_fill s o fill next q).1 = liquidity taker limit (o :: q) - fill.
Proof.
  intros Hq Hf Hc. unfold liquidity.
  rewrite (after_fill_sum s o q fill next Hq Hf
    (fun o r => if limit_crosses taker limit (bo_price o) then r else 0)).
  - rewrite fmap_cons, sumZ_cons, Hc. lia.
  - by intros o1 o2 r _ _ ->.
  - intros x. by case_match.
Qed.

(** Behind an order that does not cross, none does. *)
Lemma liquidity_stop taker limit o q :
  queue_ok (opposite taker) (o :: q) -> limit_crosses taker limit (bo_price o) = false ->
  liquidity taker limit (o :: q) = 0.
Proof.
  intros [_ [Hs Hall]%StronglySorted_inv] Hc. unfold liquidity.
  assert (Hno : forall x, x ∈ o :: q -> limit_crosses taker limit (bo_price x) = false).
  { intros x [->|Hx]%elem_of_cons; [done |]. rewrite Forall_forall in Hall.
    specialize (Hall x Hx). destruct (limit_crosses taker limit (bo_price x)) eqn:Hx'; [| done].
    rewrite (limit_crosses_rank _ _ _ _ Hx') in Hc; done. }
  clear Hs Hall Hc. induction (o :: q) as [|x l IH]; [done |].
  rewrite fmap_cons, sumZ_cons, (Hno x) by left. apply IH. intros y Hy. apply Hno. by right.
Qed.

(** ** The whole aggression *)

Section match_queue.
Context (taker : Side) (limit : option Z).

Definition traded (out : Outcome) : Z := sumZ (mt_quantity <$> out_matches out).

Record match_spec (remaining : Z) (q : list BookOrder) (out : Outcome) : Prop := {
  ms_remaining : out_remaining out = Z.max 0 (remaining - liquidity taker limit q);
  ms_traded : traded out = remaining - out_remaining out;
  ms_queue : queue_ok (opposite taker) (out_queue out);
  ms_left : liquidity taker limit (out_queue out) = liquidity taker limit q - traded out;
  ms_limit : Forall (fun m => 0 < mt_quantity m /\ limit_crosses taker limit (mt_price m) = true)
    (out_matches out);
  ms_sorted : StronglySorted (fun m m' => rank (opposite taker) (mt_price m)
      <= rank (opposite taker) (mt_price m')) (out_matches out);
  ms_bound : forall r, (forall o, o ∈ q -> r <= rank (opposite taker) (bo_price o)) ->
    forall m, m ∈ out_matches out -> r <= rank (opposite taker) (mt_price m);
  ms_makers : forall x, x ∈ out_queue out ->
    exists y, y ∈ q /\ bo_price y = bo_price x /\ bo_side y = bo_side x
}.

Lemma match_spec_idle remaining next q :
  0 <= remaining -> queue_ok (opposite taker) q ->
  remaining = 0 \/ liquidity taker limit q = 0 ->
  match_spec remaining q (mkOutcome [] remaining q next).
Proof.
  intros Hr Hq Hz. pose proof (liquidity_nonneg taker limit q (qo_fillable _ _ Hq)).
  split; unfold traded; simpl; try constructor; try done; try lia; eauto.
  - apply Hq.
  - apply Hq.
  - by intros r _ m Hm%elem_of_nil.
Qed.

Lemma queue_head_rank s o q x :
  queue_ok s (o :: q) -> x ∈ o :: q -> rank s (bo_price o) <= rank s (bo_price x).
Proof.
  intros [_ [_ Hall]%StronglySorted_inv] [->|Hx]%elem_of_cons; [done |].
  rewrite Forall_forall in Hall. by apply Hall.
Qed.

Lemma match_spec_step remaining o q fill next q1 next1 out :
  queue_ok (opposite taker) (o :: q) -> limit_crosses taker limit (bo_price o) = true ->
  0 < fill <= bo_visible o -> fill <= remaining ->
  after_fill (opposite taker) o fill next q = (q1, next1) ->
  match_spec (remaining - fill) q1 out ->
  match_spec remaining (o :: q) (mkOutcome
    (mkMatch (bo_order_id o) (bo_price o) fill (bo_remaining o - fill) :: out_matches out)
    (out_remaining out) (out_queue out) (out_next out)).
Proof.
  intros Hq Hc Hf Hle Ha [Hr Ht Hqo Hl Hlim Hs Hb Hm].
  pose proof (qo_fillable _ _ Hq) as [[Hv _] _]%Forall_cons.
  assert (Hf' : 0 < fill <= bo_remaining o) by lia.
  pose proof (liquidity_after_fill taker limit _ _ _ fill next Hq Hf' Hc) as Hliq.
  pose proof (after_fill_elem (opposite taker) o q fill next) as Hel.
  rewrite Ha in Hliq, Hel. simpl in Hliq, Hel.
  assert (Hlow : forall r, (forall x, x ∈ o :: q -> r <= rank (opposite taker) (bo_price x)) ->
    forall x, x ∈ q1 -> r <= rank (opposite taker) (bo_price x)).
  { intros r Hlow x [Hx|[-> _]]%Hel; apply Hlow; [by right | left]. }
  assert (Htr : traded (mkOutcome
      (mkMatch (bo_order_id o) (bo_price o) fill (bo_remaining o - fill) :: out_matches out)
      (out_remaining out) (out_queue out) (out_next out)) = fill + traded out) by done.
  split; rewrite ?Htr; simpl; try done; try lia.
  - constructor; [simpl; split; [lia | done] | done].
  - constructor; [done |]. apply Forall_forall. simpl. apply Hb, Hlow.
    intros x. by apply queue_head_rank.
  - intros r Hlo m [->|Hin]%elem_of_cons; [apply Hlo; left |]. by apply (Hb r); [apply Hlow |].
  - intros x Hx. destruct (Hm x Hx) as (y & [Hy|[Hp Hsd]]%Hel & ? & ?).
    + exists y. split; [by right | done].
    + exists o. split; [left |]. split; congruence.
Qed.

Lemma match_queue_spec fuel remaining next q :
  0 <= remaining -> (Z.to_nat remaining <= fuel)%nat -> queue_ok (opposite taker) q ->
  match_spec remaining q (match_queue fuel taker limit remaining next q).
Proof.
  revert remaining next q. induction fuel as [|fuel IH]; intros remaining next q Hr Hfuel Hq.
  { apply match_spec_idle; [done.. | left; lia]. }
  destruct q as [|o q]; [by apply match_spec_idle; [done.. | right] |].
  cbn [match_queue]. destruct (Z.ltb_spec 0 remaining); cbn [andb];
    [| apply match_spec_idle; [done.. | left; lia]].
  destruct (limit_crosses taker limit (bo_price o)) eqn:Hc.
  2: { apply match_spec_idle; [done.. | right]. by apply liquidity_stop. }
  pose proof (qo_fillable _ _ Hq) as [[Hv _] _]%Forall_cons.
  set (fill := Z.min remaining (bo_visible o)).
  assert (0 < fill <= bo_visible o /\ fill <= remaining) as [Hf Hfr] by lia.
  pose proof (after_fill_ok _ _ _ fill next Hq) as Hq1.
  destruct (after_fill (opposite taker) o fill next q) as [q1 n1] eqn:Ha.
  eapply match_spec_step; [done | done | done | done | exact Ha |].
  apply IH; [lia | lia | done].
Qed.

(** ** Accounting per maker *)

Definition maker_filled (id : Z) (ms : list Match) : Z :=
  sumZ ((fun m => if mt_maker m =? id then mt_quantity m else 0) <$> ms).
Definition maker_remaining (id : Z) (q : list BookOrder) : Z :=
  sumZ ((fun o => if bo_order_id o =? id then bo_remaining o else 0) <$> q).

Lemma match_queue_makers fuel remaining next q id :
  queue_ok (opposite taker) q ->
  let out := match_queue fuel taker limit remaining next q in
  maker_filled id (out_matches out) + maker_remaining id (out_queue out) = maker_remaining id q.
Proof.
  revert remaining next q. induction fuel as [|fuel IH]; intros remaining next q Hq; [done |].
  destruct q as [|o q]; [done |]. cbn [match_queue].
  destruct (Z.ltb_spec 0 remaining); cbn [andb]; [| done].
  destruct (limit_crosses taker limit (bo_price o)) eqn:Hc; [| done].
  pose proof (qo_fillable _ _ Hq) as [[Hv _] _]%Forall_cons.
  set (fill := Z.min remaining (bo_visible o)).
  assert (0 < fill <= bo_visible o /\ fill <= remaining) as [Hf Hfr] by lia.
  pose proof (after_fill_ok _ _ _ fill next Hq) as Hq1.
  pose proof (after_fill_sum _ _ _ fill next Hq ltac:(lia)
    (fun o r => if bo_order_id o =? id then r else 0)) as Hsum.
  destruct (after_fill (opposite taker) o fill next q) as [q1 n1]. simpl in *.
  specialize (IH (remaining - fill) n1 q1 Hq1). simpl in IH.
  unfold maker_filled, maker_remaining in *. cbn [out_matches out_queue].
  rewrite !fmap_cons, !sumZ_cons. cbn [mt_maker mt_quantity].
  rewrite Hsum in IH; [| by intros o1 o2 r -> | intros x; simpl; by destruct (bo_order_id x =? id)].
  destruct (bo_order_id o =? id); lia.
Qed.

End match_queue.

(** * Level aggregates and liquidity

    The quantities the book reports from its per-level aggregates
    ([Book::executable], [Book::depth]) against sums over the orders. *)

(** ** Sums over queues and over orders *)

Lemma sum_filter {A} (f : A -> Z) (P : A -> Prop) `{!forall x, Decision (P x)} (l : list A) :
  sumZ (f <$> filter P l) = sumZ ((fun x => if bool_decide (P x) then f x else 0) <$> l).
Proof.
  induction l as [|x l IH]; [done |]. rewrite filter_cons.
  case_decide; rewrite !fmap_cons, !sumZ_cons.
  - rewrite bool_decide_true by done. lia.
  - rewrite bool_decide_false by done. lia.
Qed.

(** Summing over a duplicate-free list of the orders that satisfy [P]. *)
Lemma sum_orders orders next (f : BookOrder -> Z) (P : BookOrder -> Prop)
    `{!forall o, Decision (P o)} q :
  map_Forall (order_ok next) orders -> NoDup q ->
  (forall o, o ∈ q <-> orders !! bo_order_id o = Some o /\ P o) ->
  sumZ (f <$> q) = map_sum (fun _ o => if bool_decide (P o) then f o else 0) orders.
Proof.
  intros Hok Hnd Hm.
  assert (q ≡ₚ filter P (map_to_list orders).*2) as ->.
  { apply NoDup_Permutation; [done | |].
    - apply NoDup_filter. apply (NoDup_fmap_1 bo_order_id).
      assert (bo_order_id <$> (map_to_list orders).*2 = (map_to_list orders).*1) as ->;
        [| apply NoDup_fst_map_to_list].
      rewrite <- list_fmap_compose. apply list_fmap_ext. intros i [id o] Hi. simpl.
      apply list_elem_of_lookup_2 in Hi. apply elem_of_map_to_list in Hi.
      apply (Hok _ _ Hi).
    - intros o. rewrite Hm, list_elem_of_filter, list_elem_of_fmap. split.
      + intros [Ho HP]. split; [done |]. exists (bo_order_id o, o). split; [done |].
        by apply elem_of_map_to_list.
      + intros [HP ([id o'] & -> & Ho)]. split; [| done]. apply elem_of_map_to_list in Ho. simpl in *.
        by rewrite (ok_id _ _ _ (Hok _ _ Ho)). }
  rewrite sum_filter, map_sum_list, <- list_fmap_compose. done.
Qed.

(** Level sums over distinct prices add up to the sum over their orders. *)
Lemma level_sums f s (ps : list Z) orders :
  NoDup ps ->
  sumZ ((fun p => level_sum f s p orders) <$> ps) =
  map_sum (fun _ o => if bool_decide (bo_side o = s /\ bo_price o ∈ ps) then f o else 0) orders.
Proof.
  induction 1 as [|p ps Hp Hnd IH].
  - symmetry. apply map_sum_zero. intros id o _.
    rewrite bool_decide_false; [done |]. by intros [_ []%elem_of_nil].
  - rewrite fmap_cons, sumZ_cons, IH. unfold level_sum. rewrite <- map_sum_add.
    apply map_sum_ext. intros id o _. unfold order_at.
    destruct (decide (bo_side o = s)) as [Hs|Hs].
    2: { rewrite !bool_decide_false by naive_solver. done. }
    destruct (decide (bo_price o = p)) as [<-|Hne].
    + rewrite (bool_decide_true (_ /\ bo_price o = bo_price o)) by done.
      rewrite (bool_decide_false (_ /\ bo_price o ∈ ps)) by tauto.
      rewrite bool_decide_true; [lia |]. split; [done | left].
    + rewrite (bool_decide_false (_ /\ bo_price o = p)) by tauto.
      rewrite (bool_decide_ext (_ /\ bo_price o ∈ ps) (bo_side o = s /\ bo_price o ∈ p :: ps));
        [lia |]. rewrite elem_of_cons. tauto.
Qed.

(** ** [take_while] on sorted lists *)

Lemma take_while_elem {A} (f : A -> bool) (l : list A) (R : relation A) :
  StronglySorted R l -> (forall x y, R x y -> f y = true -> f x = true) ->
  forall x, x ∈ take_while f l <-> x ∈ l /\ f x = true.
Proof.
  intros Hs Hf. induction Hs as [|y l Hs IH Hall]; intros x; simpl.
  { split; [by intros []%elem_of_nil | by intros [[]%elem_of_nil _]]. }
  rewrite Forall_forall in Hall. destruct (f y) eqn:Hy.
  - rewrite !elem_of_cons, IH. naive_solver.
  - split; [by intros []%elem_of_nil |]. rewrite elem_of_cons.
    intros [[->|Hx] Hfx]; [congruence |]. specialize (Hf y x (Hall x Hx) Hfx). congruence.
Qed.

Lemma take_while_sorted {A} (f : A -> bool) (l : list A) (R : relation A) :
  StronglySorted R l -> StronglySorted R (take_while f l).
Proof.
  induction 1 as [|y l Hs IH Hall]; simpl; [constructor |].
  destruct (f y); [| constructor]. constructor; [done |].
  clear IH Hs. induction l as [|x l IH]; simpl; [done |].
  apply Forall_cons in Hall as [Hx Hall]. destruct (f x); [constructor; auto | done].
Qed.

Lemma take_while_fmap {A B} (g : A -> B) (f : B -> bool) l :
  take_while f (g <$> l) = g <$> take_while (fun x => f (g x)) l.
Proof. induction l as [|x l IH]; [done |]. rewrite fmap_cons. simpl. destruct (f (g x)); [by rewrite IH | done]. Qed.

(** ** [Book::executable] *)

Lemma saturating_fold (ls : list (Z * Level)) acc :
  0 <= acc <= int_max I64 -> Forall (fun pl => 0 <= lv_total pl.2) ls ->
  foldl (fun total pl => default (int_max I64) (checked_add I64 total (lv_total pl.2))) acc ls =
  Z.min (acc + sumZ ((fun pl => lv_total pl.2) <$> ls)) (int_max I64).
Proof.
  intros Hacc Hall. revert acc Hacc. induction Hall as [|[p lv] ls Hlv Hall IH]; intros acc Hacc.
  { simpl. lia. }
  assert (0 <= sumZ ((fun pl => lv_total pl.2) <$> ls)) as Hnn.
  { clear -Hall. induction Hall; [done |]. rewrite fmap_cons, sumZ_cons. simpl in *. lia. }
  cbn [foldl]. rewrite fmap_cons, sumZ_cons. unfold checked_add at 2. simpl in *.
  destruct (decide (acc + lv_total lv <= int_max I64)) as [Hle|Hgt].
  - rewrite checked_in by (unfold int_min; lia). simpl. rewrite IH by lia. f_equal. lia.
  - rewrite (proj2 (checked_None _ _)) by lia. simpl. rewrite IH by (unfold int_max; lia). lia.
Qed.

Lemma liquidity_orders b taker limit :
  book_ok b ->
  liquidity taker limit (book_orders b (opposite taker)) =
  map_sum (fun _ o => if bool_decide (bo_side o = opposite taker /\
                           limit_crosses taker limit (bo_price o) = true)
                      then bo_remaining o else 0) (bk_orders b).
Proof.
  intros Hb. pose proof (book_orders_queue b Hb (opposite taker)) as [Hs Hm].
  unfold liquidity.
  rewrite (sum_orders (bk_orders b) (bk_next_priority b) _ (fun o => bo_side o = opposite taker));
    [| apply Hb | by apply (strict_sorted_NoDup (ahead (opposite taker))) | done].
  apply map_sum_ext. intros id o _. destruct (decide (bo_side o = opposite taker)) as [Hsd|Hsd].
  - rewrite (bool_decide_true (bo_side o = _)) by done.
    destruct (limit_crosses taker limit (bo_price o)); case_bool_decide; naive_solver.
  - rewrite !bool_decide_false by tauto. done.
Qed.

Lemma executable_levels b taker limit :
  executable b taker limit =
  foldl (fun total pl => default (int_max I64) (checked_add I64 total (lv_total pl.2))) 0
    (take_while (fun pl => limit_crosses taker limit pl.1) (levels_best_first b (opposite taker))).
Proof. unfold executable, levels_best_first. by destruct taker. Qed.

#[local] Instance rank_irreflexive s : Irreflexive (fun p p' => rank s p < rank s p').
Proof. intros p H. lia. Qed.

Lemma executable_liquidity b taker limit :
  book_ok b ->
  executable b taker limit =
  Z.min (liquidity taker limit (book_orders b (opposite taker))) (int_max I64).
Proof.
  intros Hb. rewrite executable_levels. set (s := opposite taker).
  set (ls := take_while _ _).
  assert (Hls : forall p lv, (p, lv) ∈ ls -> book_side b s !! p = Some lv).
  { intros p lv Hin. apply elem_of_levels. subst ls. revert Hin.
    generalize (levels_best_first b s). induction l as [|x l IH]; simpl; [done |].
    destruct (limit_crosses _ _ _); [| by intros []%elem_of_nil].
    rewrite !elem_of_cons. naive_solver. }
  assert (Htot : (fun pl => lv_total pl.2) <$> ls =
    (fun p => level_sum bo_remaining s p (bk_orders b)) <$> ls.*1).
  { rewrite <- list_fmap_compose. apply list_fmap_ext. intros i [p lv] Hi. simpl.
    apply list_elem_of_lookup_2, Hls, (bk_level_ok b Hb) in Hi. apply Hi. }
  assert (Hps : ls.*1 = take_while (limit_crosses taker limit) (levels_best_first b s).*1)
    by (by rewrite take_while_fmap).
  pose proof (levels_rank_sorted b s) as Hsort.
  rewrite saturating_fold; [| unfold int_max; lia |].
  2: { apply Forall_forall. intros [p lv] Hin. simpl. apply Hls, (bk_level_ok b Hb) in Hin.
       rewrite (lk_total _ _ _ _ Hin). pose proof (view_bounds b s p Hb). lia. }
  rewrite Z.add_0_l, Htot. f_equal. rewrite Hps, level_sums.
  2: { apply (strict_sorted_NoDup (fun p p' => rank s p < rank s p')), take_while_sorted, Hsort. }
  rewrite liquidity_orders by done. apply map_sum_ext. intros id o Ho.
  rewrite (bool_decide_ext _ (bo_side o = opposite taker /\
    limit_crosses taker limit (bo_price o) = true)); [done |].
  fold s. split; intros [Hs Hc]; (split; [done |]).
  - eapply take_while_elem in Hc; [apply Hc | exact Hsort |].
    intros p p' Hr Hc'. simpl in Hr. eapply limit_crosses_rank; [exact Hc' |]. fold s. lia.
  - eapply take_while_elem; [exact Hsort | |].
    + intros p p' Hr Hc'. simpl in Hr. eapply limit_crosses_rank; [exact Hc' |]. fold s. lia.
    + split; [| done]. destruct (bk_indexed b Hb _ _ Ho) as [lv Hlv]. rewrite Hs in Hlv.
      apply list_elem_of_fmap. exists (bo_price o, lv). split; [done |]. by apply elem_of_levels.
Qed.

(** ** [Book::depth] *)

Lemma depth_levels b s :
  book_ok b ->
  depth b s = (fun p => (p, level_sum bo_visible s p (bk_orders b))) <$> (levels_best_first b s).*1.
Proof.
  intros Hb. assert (depth b s = (fun pl => (pl.1, lv_visible pl.2)) <$> levels_best_first b s) as ->
    by (by destruct s).
  rewrite <- list_fmap_compose. apply list_fmap_ext. intros i [p lv] Hi. simpl. f_equal.
  apply list_elem_of_lookup_2, elem_of_levels, (bk_level_ok b Hb) in Hi. apply Hi.
Qed.
