(* ===== verification/BookTheorems.v ===== *)
(** * The order book: the properties

    Price-time priority, exact fills, fill-or-kill and post-only soundness,
    conservation per order, uncrossed books, cancellation, depth and
    persistence of [packages/bunting-engine/src/book.rs]. *)

From S2P Require Import Prelude Ordered MarketTypes MarketEvents Book BookFacts.
From S2P Require Import BookMatch.

(** ** Resting and cancelling *)

Definition valid_rest (b : Book) (id : Z) (s : Side) (price quantity : Z) (display : option Z) : Prop :=
  0 < quantity <= int_max I64 /\ 0 < price <= int_max I64 /\
  (forall peak, display = Some peak -> 0 < peak <= quantity) /\
  bk_orders b !! id = None /\ bk_next_priority b < int_max U64 /\
  level_sum bo_remaining s price (bk_orders b) + quantity <= int_max I64.

Definition rested_order (b : Book) (id : Z) (s : Side) (price quantity : Z) (display : option Z)
    : BookOrder :=
  mkBookOrder id s price quantity (default quantity display) display (bk_next_priority b).

Lemma rest_run b id s price quantity display :
  book_ok b -> valid_rest b id s price quantity display ->
  exists b', rest id s price quantity display b = (b', Ok tt) /\ book_ok b' /\
    bk_orders b' = <[id := rested_order b id s price quantity display]> (bk_orders b) /\
    bk_next_priority b' = bk_next_priority b + 1.
Proof.
  intros Hb (Hq & Hp & Hd & Hid & Hn & Hfits). pose proof (bk_sequence b Hb) as Hseq.
  unfold rest. rewrite bind_refuse.
  2: { rewrite !orb_false_iff, !Z.leb_gt. split; [lia |].
       destruct display as [peak|]; [| done]. specialize (Hd peak eq_refl).
       rewrite orb_false_iff, Z.leb_gt, Z.ltb_ge. lia. }
  rewrite bind_gets, bind_refuse
    by (unfold book_contains; simpl; rewrite Hid; apply bool_decide_false; by intros []).
  rewrite (bind_run _ _ _ _ _ (take_priority_run b ltac:(lia))).
  set (b1 := put_next_priority (bk_next_priority b + 1) b).
  set (o := rested_order b id s price quantity display).
  assert (Hb1 : book_ok b1) by (apply book_ok_next; [done | lia]).
  assert (Hok : order_ok (bk_next_priority b1) (bo_order_id o) o).
  { split; simpl; try done; try lia.
    - destruct display as [peak|]; simpl; [specialize (Hd peak eq_refl) |]; lia.
    - intros peak ->. by apply Hd. }
  assert (Hfree : priority_free (bk_orders b1) (bo_side o) (bo_price o) (bo_priority o)).
  { intros id' o' Ho' _. apply (bk_order_ok b Hb) in Ho' as []. simpl. lia. }
  exists (inserted o b1). split; [by apply book_insert_run |].
  split; [by apply inserted_ok |]. by autorewrite with book.
Qed.

Lemma rest_queue b b' id s price quantity display :
  book_ok b -> book_ok b' -> bk_orders b !! id = None ->
  bk_orders b' = <[id := rested_order b id s price quantity display]> (bk_orders b) ->
  book_orders b' s = enqueue s (rested_order b id s price quantity display) (book_orders b s) /\
  book_orders b' (opposite s) = book_orders b (opposite s).
Proof.
  intros Hb Hb' Hid Ho. set (o := rested_order b id s price quantity display) in *.
  split; apply (queue_of _ _ Hb'); rewrite Ho.
  - apply (queue_enqueue s (bk_orders b) _ o); [done.. | | by apply book_orders_queue].
    intros x [Hx _]%(iq_elem _ _ _ (book_orders_queue b Hb s)).
    apply (bk_order_ok b Hb) in Hx as []. simpl. lia.
  - apply (queue_insert_away (opposite s) (bk_orders b) _ o); [done | by destruct s |].
    by apply book_orders_queue.
Qed.

Lemma cancel_run b id o :
  book_ok b -> bk_orders b !! id = Some o -> cancel id b = (removed o b, Some o).
Proof. intros Hb Ho. unfold cancel. by rewrite Ho, (book_remove_run b id o). Qed.

Lemma filter_sorted {A} (R : relation A) (P : A -> Prop) `{!forall x, Decision (P x)} l :
  StronglySorted R l -> StronglySorted R (filter P l).
Proof.
  induction 1 as [|x l Hs IH Hall]; [constructor |]. rewrite filter_cons.
  case_decide; [| done]. constructor; [done |]. rewrite Forall_forall in *.
  intros y [_ Hy]%list_elem_of_filter. auto.
Qed.

Lemma cancel_queue b id o s :
  book_ok b -> bk_orders b !! id = Some o ->
  book_orders (removed o b) s = filter (fun x => bo_order_id x <> id) (book_orders b s).
Proof.
  intros Hb Ho. pose proof (removed_ok b id o Hb Ho) as Hb'.
  pose proof (ok_id _ _ _ (bk_order_ok b Hb _ _ Ho)) as Hid. subst id.
  apply (queue_of _ _ Hb'). rewrite orders_removed.
  pose proof (book_orders_queue b Hb s) as [Hs Hm]. split; [by apply filter_sorted |].
  intros x. rewrite list_elem_of_filter, Hm, lookup_delete_Some. naive_solver.
Qed.

(** resting and cancelling respect time priority. A valid resting order
    always enters the book, behind every order at the same or a better price
    and ahead of every worse one; cancelling an order returns it and removes
    exactly it, leaving everyone else's place in the queue untouched; and a
    cancel right after a rest gives back the two queues as they were. *)
Theorem rest_then_cancel b id s price quantity display :
  book_ok b -> valid_rest b id s price quantity display ->
  exists b1 b2 o,
    rest id s price quantity display b = (b1, Ok tt) /\ book_ok b1 /\
    book_orders b1 s = enqueue s o (book_orders b s) /\
    book_orders b1 (opposite s) = book_orders b (opposite s) /\
    cancel id b1 = (b2, Some o) /\ book_ok b2 /\
    (forall s', book_orders b2 s' = filter (fun x => bo_order_id x <> id) (book_orders b1 s')) /\
    (forall s', book_orders b2 s' = book_orders b s').
Proof.
  intros Hb Hv. destruct (rest_run b id s price quantity display Hb Hv)
    as (b1 & Hrun & Hb1 & Ho1 & Hn1).
  destruct Hv as (_ & _ & _ & Hid & _ & _).
  destruct (rest_queue b b1 id s price quantity display Hb Hb1 Hid Ho1) as [Hq Hq'].
  set (o := rested_order b id s price quantity display) in *.
  assert (Ho : bk_orders b1 !! id = Some o) by (rewrite Ho1; apply lookup_insert_eq).
  exists b1, (removed o b1), o. split_and!; try done.
  - by apply cancel_run.
  - by apply (removed_ok _ id).
  - intros s'. by apply cancel_queue.
  - intros s'. apply (queue_of _ _ (removed_ok _ _ _ Hb1 Ho)). rewrite orders_removed, Ho1.
    change (bo_order_id o) with id. rewrite delete_insert_id by done. by apply book_orders_queue.
Qed.

(** ** A concrete book

    Asks: 5 lots at 100, an iceberg of 10 (displaying 3) at 100, 7 at 101;
    bids: 4 lots at 99. *)

Definition Rest : Type := Z * Side * Z * Z * option Z.

Definition run_rest (r : Rest) (b : Book) : Book :=
  let '(id, s, price, quantity, display) := r in (rest id s price quantity display b).1.
Definition run_rests (rs : list Rest) (b : Book) : Book := foldl (fun b r => run_rest r b) b rs.

Fixpoint rests_valid (rs : list Rest) (b : Book) : Prop :=
  match rs with
  | [] => True
  | (id, s, price, quantity, display) as r :: rs =>
      valid_rest b id s price quantity display /\ rests_valid rs (run_rest r b)
  end.

Lemma run_rests_ok rs b : book_ok b -> rests_valid rs b -> book_ok (run_rests rs b).
Proof.
  revert b. induction rs as [|[[[[id s] price] quantity] display] rs IH]; intros b Hb; [done |].
  intros [Hv Hrs]. apply IH; [| done]. simpl.
  by destruct (rest_run b id s price quantity display Hb Hv) as (b' & -> & ? & _).
Qed.

Definition demo_rests : list Rest :=
  [(1, Sell, 100, 5, None); (2, Sell, 100, 10, Some 3); (3, Sell, 101, 7, None);
   (4, Buy, 99, 4, None)].

Definition demo_book : Book := run_rests demo_rests Book_new.

(** Discharges [valid_rest] on a concrete book. *)
Ltac concrete_rest :=
  repeat match goal with |- _ /\ _ => split end;
  try (vm_compute; (reflexivity || discriminate || exact I));
  intros ? Hpeak; vm_compute in Hpeak; simplify_eq; lia.

Lemma demo_book_ok : book_ok demo_book.
Proof.
  apply run_rests_ok; [apply Book_new_ok |]. cbn [rests_valid demo_rests]. unfold valid_rest.
  concrete_rest.
Qed.

Lemma rest_then_cancel_witness :
  exists b1 b2 o,
    rest 9 Sell 100 6 None demo_book = (b1, Ok tt) /\ book_ok b1 /\
    book_orders b1 Sell = enqueue Sell o (book_orders demo_book Sell) /\
    book_orders b1 Buy = book_orders demo_book Buy /\
    cancel 9 b1 = (b2, Some o) /\ book_ok b2 /\
    (forall s', book_orders b2 s' = filter (fun x => bo_order_id x <> 9) (book_orders b1 s')) /\
    (forall s', book_orders b2 s' = book_orders demo_book s').
Proof. apply (rest_then_cancel demo_book 9 Sell 100 6 None); [apply demo_book_ok | unfold valid_rest; concrete_rest]. Defined.

(** ** Continuous trading *)

(** What an aggressing order needs: a positive 64-bit quantity, and room in
    the 64-bit priority sequence for the slices it may refresh. *)
Definition valid_taker (b : Book) (quantity : Z) : Prop :=
  0 < quantity <= int_max I64 /\ bk_next_priority b + quantity <= int_max U64.

Lemma valid_taker_run b taker limit quantity :
  book_ok b -> valid_taker b quantity ->
  let out := match_queue (Z.to_nat quantity) taker limit quantity (bk_next_priority b)
               (book_orders b (opposite taker)) in
  exists b',
    execute taker limit quantity b = (b', Ok (out_matches out, out_remaining out)) /\
    filled_book b b' (opposite taker) (out_queue out) (out_next out) /\
    match_spec taker limit quantity (book_orders b (opposite taker)) out.
Proof.
  intros Hb [Hq Hn]. destruct (execute_run taker limit quantity b) as (b' & Hrun & Hf);
    [done | lia | ranges; lia | done |].
  exists b'. split_and!; [done.. |]. apply match_queue_spec; [lia | lia |]. by apply book_queue_ok.
Qed.

(** C4: the book implements price-time priority. On every well-formed book,
    [execute] succeeds, performs exactly the matches of continuous trading on
    the abstract queue (always against the best-priced, earliest order;
    a partly filled order keeps its place, an iceberg whose slice is used up
    goes to the back of its price level), leaves exactly the queue that
    leaves, does not touch the aggressor's own side, and the book stays
    well formed. *)
Theorem execute_refines_price_time b taker limit quantity :
  book_ok b -> valid_taker b quantity ->
  let out := match_queue (Z.to_nat quantity) taker limit quantity (bk_next_priority b)
               (book_orders b (opposite taker)) in
  exists b',
    execute taker limit quantity b = (b', Ok (out_matches out, out_remaining out)) /\
    book_ok b' /\ book_orders b' (opposite taker) = out_queue out /\
    book_orders b' taker = book_orders b taker.
Proof.
  intros Hb Hv. destruct (valid_taker_run b taker limit quantity Hb Hv)
    as (b' & Hrun & (Hb' & Hq & Ho & _) & _).
  exists b'. rewrite opposite_involutive in Ho. done.
Qed.

Lemma execute_refines_price_time_witness :
  exists b', execute Buy (Some 100) 9 demo_book =
      (b', Ok ([mkMatch 1 100 5 0; mkMatch 2 100 3 7; mkMatch 2 100 1 6], 0)) /\
    book_ok b' /\
    book_orders b' Sell = [mkBookOrder 2 Sell 100 6 2 (Some 3) 4; mkBookOrder 3 Sell 101 7 7 None 2] /\
    book_orders b' Buy = book_orders demo_book Buy.
Proof.
  apply (execute_refines_price_time demo_book Buy (Some 100) 9);
    [apply demo_book_ok | split; vm_compute; repeat split; discriminate].
Defined.

(** an aggressing order trades everything it can and nothing it may
    not. What remains unfilled is exactly the quantity beyond the liquidity
    within the limit, displayed and hidden; the matches add up to what was
    filled, each of a positive quantity at a price within the limit, at
    prices that only get worse; and if anything remains, no resting order
    within the limit is left. *)
Theorem execute_fills_exactly b taker limit quantity :
  book_ok b -> valid_taker b quantity ->
  exists b' ms rem,
    execute taker limit quantity b = (b', Ok (ms, rem)) /\
    rem = Z.max 0 (quantity - liquidity taker limit (book_orders b (opposite taker))) /\
    sumZ (mt_quantity <$> ms) = quantity - rem /\
    Forall (fun m => 0 < mt_quantity m /\ limit_crosses taker limit (mt_price m) = true) ms /\
    StronglySorted (fun m m' => rank (opposite taker) (mt_price m)
      <= rank (opposite taker) (mt_price m')) ms /\
    (0 < rem -> liquidity taker limit (book_orders b' (opposite taker)) = 0).
Proof.
  intros Hb Hv. destruct (valid_taker_run b taker limit quantity Hb Hv)
    as (b' & Hrun & (_ & Hq & _) & [Hr Ht _ Hl Hlim Hs _ _]).
  eexists _, _, _. split; [exact Hrun |]. rewrite Hq. split_and!; try done. unfold traded in *. lia.
Qed.

Lemma execute_fills_exactly_witness :
  exists b' ms rem,
    execute Buy (Some 100) 20 demo_book = (b', Ok (ms, rem)) /\
    rem = Z.max 0 (20 - liquidity Buy (Some 100) (book_orders demo_book Sell)) /\
    sumZ (mt_quantity <$> ms) = 20 - rem /\
    Forall (fun m => 0 < mt_quantity m /\ limit_crosses Buy (Some 100) (mt_price m) = true) ms /\
    StronglySorted (fun m m' => rank Sell (mt_price m) <= rank Sell (mt_price m')) ms /\
    (0 < rem -> liquidity Buy (Some 100) (book_orders b' Sell) = 0).
Proof.
  apply (execute_fills_exactly demo_book Buy (Some 100) 20);
    [apply demo_book_ok | split; vm_compute; repeat split; discriminate].
Defined.

(** the fill-or-kill check is exact. The aggregate test
    [executable >= quantity], which reads only level totals and saturates at
    the 64-bit maximum, holds precisely when executing the order against the
    same book leaves nothing unfilled: a fill-or-kill order is never
    accepted and then left short, and never killed when it would fill. *)
Theorem fill_or_kill_check_exact b taker limit quantity b' ms rem :
  book_ok b -> valid_taker b quantity ->
  execute taker limit quantity b = (b', Ok (ms, rem)) ->
  quantity <= executable b taker limit <-> rem = 0.
Proof.
  intros Hb Hv Hrun. destruct (valid_taker_run b taker limit quantity Hb Hv)
    as (b1 & Hrun1 & _ & [Hr _ _ _ _ _ _ _]).
  rewrite Hrun in Hrun1. simplify_eq.
  rewrite executable_liquidity, Hr by done. destruct Hv as [Hq _]. lia.
Qed.

Lemma fill_or_kill_check_exact_witness :
  15 <= executable demo_book Buy (Some 100) <->
  snd (default ([], 1) (match snd (execute Buy (Some 100) 15 demo_book) with
                        | Ok r => Some r | Err _ => None end)) = 0.
Proof.
  apply (fill_or_kill_check_exact demo_book Buy (Some 100) 15
    (fst (execute Buy (Some 100) 15 demo_book))
    [mkMatch 1 100 5 0; mkMatch 2 100 3 7; mkMatch 2 100 3 4; mkMatch 2 100 3 1; mkMatch 2 100 1 0]);
    [apply demo_book_ok | split; vm_compute; repeat split; discriminate | vm_compute; reflexivity].
Defined.

(** ** Conservation per order *)

(** Unfilled quantity of an order, zero when it does not rest. *)
Definition book_remaining (b : Book) (id : Z) : Z :=
  match bk_orders b !! id with Some o => bo_remaining o | None => 0 end.

Lemma maker_remaining_side b s id :
  book_ok b ->
  maker_remaining id (book_orders b s) =
  match bk_orders b !! id with
  | Some o => if bool_decide (bo_side o = s) then bo_remaining o else 0
  | None => 0
  end.
Proof.
  intros Hb. pose proof (book_orders_queue b Hb s) as [Hs Hm]. unfold maker_remaining.
  rewrite (sum_orders (bk_orders b) (bk_next_priority b) _ (fun o => bo_side o = s));
    [| apply Hb | by apply (strict_sorted_NoDup (ahead s)) | done].
  set (f := fun (_ : Z) (o : BookOrder) => _).
  destruct (bk_orders b !! id) as [o|] eqn:Ho.
  - rewrite <- (insert_delete_id (bk_orders b) id o Ho).
    rewrite map_sum_insert by apply lookup_delete_eq.
    rewrite (map_sum_zero f (delete id (bk_orders b))).
    + subst f. simpl. rewrite (ok_id _ _ _ (bk_order_ok b Hb _ _ Ho)), Z.eqb_refl. lia.
    + intros id' o' [Hne Ho']%lookup_delete_Some. subst f. simpl.
      rewrite (ok_id _ _ _ (bk_order_ok b Hb _ _ Ho')).
      destruct (Z.eqb_spec id' id); [congruence |]. by case_bool_decide.
  - apply map_sum_zero. intros id' o' Ho'. subst f. simpl.
    rewrite (ok_id _ _ _ (bk_order_ok b Hb _ _ Ho')).
    destruct (Z.eqb_spec id' id); [congruence |]. by case_bool_decide.
Qed.

Lemma book_remaining_sides b s id :
  book_ok b ->
  book_remaining b id =
  maker_remaining id (book_orders b s) + maker_remaining id (book_orders b (opposite s)).
Proof.
  intros Hb. rewrite !maker_remaining_side by done. unfold book_remaining.
  destruct (bk_orders b !! id) as [o|]; [| done].
  destruct s, (bo_side o); simpl; lia.
Qed.

(** every lot is accounted for. After an execution, the unfilled
    quantity of every order of the book is what it was minus exactly the
    matches reported against it, hidden iceberg quantity included; orders
    that were not matched, and the whole of the aggressor's side, keep
    their quantity. *)
Theorem execute_conserves_orders b taker limit quantity :
  book_ok b -> valid_taker b quantity ->
  exists b' ms rem, execute taker limit quantity b = (b', Ok (ms, rem)) /\
    forall id, book_remaining b' id = book_remaining b id - maker_filled id ms.
Proof.
  intros Hb Hv. destruct (valid_taker_run b taker limit quantity Hb Hv)
    as (b' & Hrun & (Hb' & Hq & Ho & _) & _).
  eexists _, _, _. split; [exact Hrun |]. intros id.
  rewrite (book_remaining_sides b' (opposite taker)), (book_remaining_sides b (opposite taker)) by done.
  rewrite Hq, Ho.
  pose proof (match_queue_makers taker limit (Z.to_nat quantity) quantity (bk_next_priority b)
    _ id (book_queue_ok b (opposite taker) Hb)) as Hm. simpl in Hm. lia.
Qed.

Lemma execute_conserves_orders_witness :
  exists b' ms rem, execute Buy None 9 demo_book = (b', Ok (ms, rem)) /\
    forall id, book_remaining b' id = book_remaining demo_book id - maker_filled id ms.
Proof.
  apply (execute_conserves_orders demo_book Buy None 9);
    [apply demo_book_ok | split; vm_compute; repeat split; discriminate].
Defined.

(** ** Post-only *)

Lemma would_cross_head b taker limit :
  book_ok b ->
  would_cross b taker limit =
  match book_orders b (opposite taker) with
  | [] => false
  | o :: _ => crosses taker limit (bo_price o)
  end.
Proof.
  intros Hb. unfold would_cross. destruct (book_orders b (opposite taker)) as [|o q] eqn:Hq.
  - by rewrite best_None.
  - by destruct (best_head b _ o q Hb Hq) as (-> & _).
Qed.

Lemma would_cross_liquidity b taker limit :
  book_ok b ->
  would_cross b taker limit = true <->
  0 < liquidity taker (Some limit) (book_orders b (opposite taker)).
Proof.
  intros Hb. rewrite would_cross_head by done.
  pose proof (book_queue_ok b (opposite taker) Hb) as Hq.
  destruct (book_orders b (opposite taker)) as [|o q]; [done |].
  destruct (crosses taker limit (bo_price o)) eqn:Hc.
  - split; [intros _ | done]. pose proof (qo_fillable _ _ Hq) as [[Hv _] Hf]%Forall_cons.
    pose proof (liquidity_nonneg taker (Some limit) q Hf). unfold liquidity in *.
    rewrite fmap_cons, sumZ_cons.
    change (limit_crosses taker (Some limit) (bo_price o)) with (crosses taker limit (bo_price o)).
    rewrite Hc. lia.
  - rewrite liquidity_stop by done. split; [done | lia].
Qed.

(** the post-only check is exact. [would_cross], which compares the
    limit with the best opposite price only, is true precisely when the
    order would trade at least one lot if it were executed: a post-only
    order that passes the check never takes liquidity, and one that is
    refused would have. *)
Theorem post_only_check_exact b taker limit quantity b' ms rem :
  book_ok b -> valid_taker b quantity ->
  execute taker (Some limit) quantity b = (b', Ok (ms, rem)) ->
  would_cross b taker limit = true <-> ms <> [].
Proof.
  intros Hb Hv Hrun. destruct (valid_taker_run b taker (Some limit) quantity Hb Hv)
    as (b1 & Hrun1 & _ & [Hr Ht _ _ Hlim _ _ _]).
  rewrite Hrun in Hrun1. injection Hrun1 as _ -> _. unfold traded in Ht.
  rewrite would_cross_liquidity by done. destruct Hv as [Hq _].
  destruct (out_matches _) as [|m ms']; simpl in Ht.
  - split; [lia | done].
  - split; [done |]. intros _. apply Forall_cons in Hlim as [[Hm _] Hall].
    assert (0 <= sumZ (mt_quantity <$> ms')); [| unfold fmap in *; lia].
    clear -Hall. induction Hall as [|x l [Hx _] _ IH]; [done |]. rewrite fmap_cons, sumZ_cons. lia.
Qed.

Lemma post_only_check_exact_witness :
  would_cross demo_book Sell 99 = true <-> [mkMatch 4 99 3 1] <> [].
Proof.
  apply (post_only_check_exact demo_book Sell 99 3 (fst (execute Sell (Some 99) 3 demo_book))
    _ 0); [apply demo_book_ok | split; vm_compute; repeat split; discriminate | vm_compute; reflexivity].
Defined.

(** ** Uncrossed books *)

(** No bid is at or above an ask. *)
Definition uncrossed (b : Book) : Prop :=
  forall bid ask, bid ∈ book_orders b Buy -> ask ∈ book_orders b Sell -> bo_price bid < bo_price ask.

Lemma uncrossed_sides b :
  uncrossed b <-> forall s o o', o ∈ book_orders b s -> o' ∈ book_orders b (opposite s) ->
    crosses s (bo_price o) (bo_price o') = false.
Proof.
  split.
  - intros Hu s o o' Ho Ho'. destruct s; simpl in *; apply Z.leb_gt.
    + by apply Hu.
    + by apply Hu.
  - intros Hc bid ask Hbid Hask. specialize (Hc Buy bid ask Hbid Hask). simpl in Hc.
    by apply Z.leb_gt in Hc.
Qed.

Lemma liquidity_zero taker limit q :
  Forall fillable q -> liquidity taker limit q = 0 ->
  forall o, o ∈ q -> limit_crosses taker limit (bo_price o) = false.
Proof.
  intros Hf. induction Hf as [|x q [Hx _] Hf IH]; [by intros _ o []%elem_of_nil |].
  pose proof (liquidity_nonneg taker limit q Hf). unfold liquidity in *.
  rewrite fmap_cons, sumZ_cons. intros Hz o Ho.
  destruct (limit_crosses taker limit (bo_price x)) eqn:Hc; [lia |].
  apply elem_of_cons in Ho as [->|Ho]; [done |]. apply IH; [lia | done].
Qed.

(** continuous trading never leaves the book crossed. Executing a
    limit order on an uncrossed book and resting what remains at its limit
    gives an uncrossed book again: every bid stays below every ask, so the
    best bid is always below the best ask. *)
Theorem limit_order_keeps_uncrossed b taker limit quantity id b1 ms rem b2 :
  book_ok b -> valid_taker b quantity -> uncrossed b ->
  execute taker (Some limit) quantity b = (b1, Ok (ms, rem)) ->
  (rem = 0 /\ b2 = b1 \/
   valid_rest b1 id taker limit rem None /\ rest id taker limit rem None b1 = (b2, Ok tt)) ->
  uncrossed b2.
Proof.
  intros Hb Hv Hu Hrun Hrest. destruct (valid_taker_run b taker (Some limit) quantity Hb Hv)
    as (b1' & Hrun1 & (Hb1 & Hq & Ho & _) & [Hr Ht Hqo Hl _ _ _ Hmk]).
  rewrite Hrun in Hrun1. injection Hrun1 as <- Hms Hrem. rewrite <- Hrem in *.
  rewrite opposite_involutive in Ho. rewrite uncrossed_sides in Hu.
  assert (Hcx : forall o o', o ∈ book_orders b1 taker -> o' ∈ book_orders b1 (opposite taker) ->
    crosses taker (bo_price o) (bo_price o') = false).
  { intros o o' Hin Hin'. rewrite Ho in Hin. rewrite Hq in Hin'.
    apply Hmk in Hin' as (y & Hy & <- & _). by apply Hu. }
  assert (Hsym : forall b', (forall o o', o ∈ book_orders b' taker ->
    o' ∈ book_orders b' (opposite taker) -> crosses taker (bo_price o) (bo_price o') = false) ->
    uncrossed b').
  { intros b' H bid ask Hbid Hask. destruct taker; simpl in H.
    - specialize (H bid ask Hbid Hask). by apply Z.leb_gt in H.
    - specialize (H ask bid Hask Hbid). by apply Z.leb_gt in H. }
  apply Hsym. destruct Hrest as [[_ ->]|[Hvr Hrest]]; [done |].
  destruct (rest_run b1 id taker limit rem None Hb1 Hvr) as (b2' & Hrest' & Hb2 & Ho2 & _).
  rewrite Hrest in Hrest'. injection Hrest' as <-.
  destruct (rest_queue b1 b2 id taker limit rem None Hb1 Hb2 ltac:(apply Hvr) Ho2) as [Hq1 Hq2].
  rewrite Hq1, Hq2. intros o o' [->|Hin]%elem_of_enqueue Hin'; [| by apply Hcx].
  rewrite Hq in Hin'. apply (liquidity_zero taker (Some limit) _ (qo_fillable _ _ Hqo)); [| done].
  destruct Hvr as [Hrp _]. lia.
Qed.

(** A concrete state of an uncrossed book. *)
Lemma demo_book_uncrossed : uncrossed demo_book.
Proof.
  assert (Forall (fun bid => Forall (fun ask => bo_price bid < bo_price ask)
    (book_orders demo_book Sell)) (book_orders demo_book Buy)) as H
    by (vm_compute; repeat constructor).
  intros bid ask Hbid Hask. rewrite Forall_forall in H. specialize (H bid Hbid).
  rewrite Forall_forall in H. by apply H.
Qed.

Lemma limit_order_keeps_uncrossed_witness :
  uncrossed (fst (rest 9 Buy 100 5 None (fst (execute Buy (Some 100) 20 demo_book)))).
Proof.
  apply (limit_order_keeps_uncrossed demo_book Buy 100 20 9
    (fst (execute Buy (Some 100) 20 demo_book))
    [mkMatch 1 100 5 0; mkMatch 2 100 3 7; mkMatch 2 100 3 4; mkMatch 2 100 3 1; mkMatch 2 100 1 0] 5);
    [apply demo_book_ok | split; vm_compute; repeat split; discriminate | apply demo_book_uncrossed
    | vm_compute; reflexivity |].
  right. split; [unfold valid_rest; concrete_rest | vm_compute; reflexivity].
Defined.

(** ** Market data *)

(** depth shows the displayed quantity and only it. [depth] lists each
    price with resting orders exactly once, best price first, with the sum
    of what its orders display; hidden quantity never appears. *)
Theorem depth_shows_displayed b s :
  book_ok b ->
  StronglySorted (fun l l' => rank s l.1 < rank s l'.1) (depth b s) /\
  forall p v, (p, v) ∈ depth b s <->
    v = level_sum bo_visible s p (bk_orders b) /\
    exists o, o ∈ book_orders b s /\ bo_price o = p.
Proof.
  intros Hb. rewrite depth_levels by done. split.
  - pose proof (levels_rank_sorted b s) as Hs.
    induction Hs as [|p ps Hs IH Hall]; rewrite ?fmap_cons; constructor; [done |].
    by apply Forall_fmap.
  - intros p v. rewrite list_elem_of_fmap.
    pose proof (book_orders_queue b Hb s) as [_ Hm]. split.
    + intros (p' & [= -> ->] & ([p'' lv] & -> & Hlv)%list_elem_of_fmap). split; [done |].
      apply elem_of_levels, (bk_level_ok b Hb) in Hlv as (id & o & Ho & Hat)%level_ok_order.
      pose proof (ok_id _ _ _ (bk_order_ok b Hb _ _ Ho)) as Hid. subst id.
      exists o. split; [by apply Hm; destruct Hat | apply Hat].
    + intros [-> (o & [Ho Hs]%Hm & <-)]. exists (bo_price o). split; [done |].
      destruct (bk_indexed b Hb _ _ Ho) as [lv Hlv]. rewrite Hs in Hlv.
      apply list_elem_of_fmap. exists (bo_price o, lv). split; [done |]. by apply elem_of_levels.
Qed.

Lemma depth_shows_displayed_witness :
  depth demo_book Sell = [(100, 8); (101, 7)] /\
  StronglySorted (fun l l' => rank Sell l.1 < rank Sell l'.1) (depth demo_book Sell) /\
  forall p v, (p, v) ∈ depth demo_book Sell <->
    v = level_sum bo_visible Sell p (bk_orders demo_book) /\
    exists o, o ∈ book_orders demo_book Sell /\ bo_price o = p.
Proof. split; [vm_compute; reflexivity |]. apply depth_shows_displayed, demo_book_ok. Defined.

(** ** Persistence *)

Lemma priority_determines b id o id' o' :
  book_ok b -> bk_orders b !! id = Some o -> bk_orders b !! id' = Some o' ->
  order_at (bo_side o) (bo_price o) o' -> bo_priority o' = bo_priority o -> id' = id.
Proof.
  intros Hb Ho Ho' Hat Hk. destruct (bk_indexed b Hb _ _ Ho) as [lv Hlv].
  pose proof (bk_level_ok b Hb _ _ _ Hlv) as [Hq _ _ _ _].
  assert (lv_queue lv !! bo_priority o = Some id) by (apply Hq; by exists o).
  assert (lv_queue lv !! bo_priority o = Some id') by (apply Hq; by exists o'). congruence.
Qed.

(** Inserting one more order of a well-formed book [b] into a part of it. *)
Lemma load_one b b0 o :
  book_ok b -> book_ok b0 -> bk_next_priority b0 = bk_next_priority b ->
  bk_orders b !! bo_order_id o = Some o -> bk_orders b0 ⊆ bk_orders b ->
  bk_orders b0 !! bo_order_id o = None ->
  book_insert o b0 = (inserted o b0, Ok tt) /\ book_ok (inserted o b0) /\
  bk_orders (inserted o b0) ⊆ bk_orders b.
Proof.
  intros Hb Hb0 Hn Ho Hsub Hnone.
  assert (Hok : order_ok (bk_next_priority b0) (bo_order_id o) o)
    by (rewrite Hn; by apply (bk_order_ok b Hb)).
  assert (Hfree : priority_free (bk_orders b0) (bo_side o) (bo_price o) (bo_priority o)).
  { intros id' o' Ho' Hat Hk. eapply lookup_weaken in Ho' as Ho''; [| exact Hsub].
    rewrite (priority_determines b _ o _ o' Hb Ho Ho'' Hat Hk) in Ho'. congruence. }
  assert (Hins : <[bo_order_id o := o]> (bk_orders b0) ⊆ bk_orders b)
    by (by apply insert_subseteq_l).
  assert (Hfits : level_sum bo_remaining (bo_side o) (bo_price o) (bk_orders b0) + bo_remaining o
    <= int_max I64).
  { pose proof (level_sum_fits b (bo_side o) (bo_price o) Hb).
    pose proof (level_sum_insert bo_remaining (bo_side o) (bo_price o) (bk_orders b0) _ o Hnone) as Hs.
    rewrite level_term_at in Hs by done. rewrite <- Hs.
    etrans; [| eassumption]. apply map_sum_subseteq; [| done].
    intros id' o' Ho'. apply (bk_order_ok b Hb) in Ho' as []. case_bool_decide; lia. }
  split_and!; [by apply book_insert_run | by apply inserted_ok |]. by autorewrite with book.
Qed.

Lemma load_orders_run b l b0 :
  book_ok b -> book_ok b0 -> bk_next_priority b0 = bk_next_priority b ->
  (forall o, o ∈ l -> bk_orders b !! bo_order_id o = Some o /\ bk_orders b0 !! bo_order_id o = None) ->
  NoDup (bo_order_id <$> l) -> bk_orders b0 ⊆ bk_orders b ->
  exists b', load_orders (bk_next_priority b) l b0 = Ok b' /\ book_ok b' /\
    bk_next_priority b' = bk_next_priority b /\ bk_orders b' ⊆ bk_orders b /\
    bk_orders b0 ⊆ bk_orders b' /\ forall o, o ∈ l -> bk_orders b' !! bo_order_id o = Some o.
Proof.
  intros Hb. revert b0. induction l as [|o l IH]; intros b0 Hb0 Hn Hl Hnd Hsub.
  { exists b0. split_and!; try done. by intros o []%elem_of_nil. }
  apply NoDup_cons in Hnd as [Hnin Hnd].
  destruct (Hl o (list_elem_of_here _ _)) as [Ho Hnone].
  pose proof (bk_order_ok b Hb _ _ Ho) as [_ _ _ _ Hk _].
  destruct (load_one b b0 o Hb Hb0 Hn Ho Hsub Hnone) as (Hrun & Hb1 & Hsub1).
  destruct (IH (inserted o b0)) as (b' & Hload & Hb' & Hn' & Hsub' & Hsup & Hin); try done.
  - by autorewrite with book.
  - intros x Hx. destruct (Hl x) as [? ?]; [by right |]. split; [done |].
    autorewrite with book. rewrite lookup_insert_ne; [done |]. intros Heq. apply Hnin.
    apply list_elem_of_fmap. by exists x.
  - assert (bk_orders b' !! bo_order_id o = Some o) as Hob'.
    { eapply lookup_weaken; [| exact Hsup]. autorewrite with book. apply lookup_insert_eq. }
    exists b'. simpl. rewrite (proj2 (Z.leb_gt _ _)), Hrun by lia.
    split_and!; try done.
    + etrans; [| exact Hsup]. autorewrite with book. by apply insert_subseteq.
    + intros x [->|Hx]%elem_of_cons; [done | auto].
Qed.

(** saving and loading a book is lossless. For every well-formed book,
    converting it to its canonical record (orders only, sorted by side,
    price and priority) and loading the record rebuilds the identical book:
    every level queue, every displayed and total aggregate and the priority
    sequence. *)
Theorem book_record_round_trip b : book_ok b -> book_of_record (record_of_book b) = Ok b.
Proof.
  intros Hb. unfold book_of_record, record_of_book. simpl.
  set (l := merge_sort record_le (values (bk_orders b))).
  assert (Hperm : l ≡ₚ values (bk_orders b)) by apply merge_sort_Permutation.
  assert (Hmem : forall o, o ∈ l <-> exists id, bk_orders b !! id = Some o)
    by (intros o; rewrite Hperm; apply elem_of_values).
  destruct (load_orders_run b l (put_next_priority (bk_next_priority b) Book_new))
    as (b' & -> & Hb' & Hn' & Hsub & _ & Hin).
  - done.
  - apply book_ok_next; [apply Book_new_ok |]. apply Hb.
  - done.
  - intros o [id Ho]%Hmem. split; [| apply lookup_empty].
    by rewrite (ok_id _ _ _ (bk_order_ok b Hb _ _ Ho)).
  - rewrite Hperm. assert (bo_order_id <$> values (bk_orders b) = keys (bk_orders b)) as ->;
      [| apply NoDup_keys].
    unfold values, keys. rewrite <- list_fmap_compose. apply list_fmap_ext.
    intros i [id o] Hi%list_elem_of_lookup_2%elem_of_entries. apply (bk_order_ok b Hb _ _ Hi).
  - apply map_empty_subseteq.
  - f_equal. apply book_ok_unique; [done.. | | done]. apply (anti_symm (⊆)); [done |].
    apply map_subseteq_spec. intros id o Ho.
    rewrite <- (ok_id _ _ _ (bk_order_ok b Hb _ _ Ho)). apply Hin, Hmem. eauto.
Qed.

Lemma book_record_round_trip_witness : book_of_record (record_of_book demo_book) = Ok demo_book.
Proof. apply book_record_round_trip, demo_book_ok. Defined.
