(* ===== verification/Auction.v ===== *)
(** * bunting-engine: the call auction

    Models [Book::auction_price], its test oracle
    [Book::auction_price_reference], [Book::uncross] and
    [Book::fill_resting] of [packages/bunting-engine/src/book.rs].  The
    sums of the source are [i128]; the model computes them in [Z] and
    [AuctionPrice] shows that they fit. *)

From S2P Require Import Prelude Ordered MarketTypes MarketEvents Book.

(** ** The auction price *)

(** The tuple comparison [a > b], lexicographic. *)
Definition tuple_gt (a b : Z * Z * Z) : bool :=
  let '(a1, a2, a3) := a in
  let '(b1, b2, b3) := b in
  (b1 <? a1) || ((a1 =? b1) && ((b2 <? a2) || ((a2 =? b2) && (b3 <? a3)))).

(** The best candidate so far: price, volume and imbalance. *)
Definition Candidate : Type := Z * Z * Z.

(** Considering one price: the body of both loops after demand and supply
    are known. *)
Definition consider (reference price demand supply : Z) (best : option Candidate)
    : option Candidate :=
  let volume := Z.min demand supply in
  if volume <=? 0 then best
  else
    let imbalance := Z.abs (demand - supply) in
    let distance value := Z.abs (value - reference) in
    let better :=
      match best with
      | None => true
      | Some (chosen, chosen_volume, chosen_imbalance) =>
          tuple_gt (volume, - imbalance, - distance price)
            (chosen_volume, - chosen_imbalance, - distance chosen)
      end in
    if better then Some (price, volume, imbalance) else best.

(** The next price of the sweep: the lower of the two heads. *)
Definition sweep_price (bids asks : list (Z * Level)) : option Z :=
  match bids, asks with
  | (bid_price, _) :: _, (ask_price, _) :: _ =>
      Some (if bid_price <=? ask_price then bid_price else ask_price)
  | (bid_price, _) :: _, [] => Some bid_price
  | [], (ask_price, _) :: _ => Some ask_price
  | [], [] => None
  end.

(** Taking the head level if it is at [price]: its total and the rest. *)
Definition take_at (price : Z) (levels : list (Z * Level)) : Z * list (Z * Level) :=
  match levels with
  | (p, level) :: rest => if p =? price then (lv_total level, rest) else (0, levels)
  | [] => (0, [])
  end.

(** The [while] loop of [Book::auction_price]; every iteration consumes a
    level, so the number of levels is enough fuel. *)
Fixpoint sweep (fuel : nat) (reference total_demand : Z) (bids asks : list (Z * Level))
    (bids_below supply : Z) (best : option Candidate) : option Candidate :=
  match fuel, sweep_price bids asks with
  | S fuel, Some price =>
      let '(bid_at_price, bids) := take_at price bids in
      let '(ask_at_price, asks) := take_at price asks in
      let supply := supply + ask_at_price in
      let demand := total_demand - bids_below in
      sweep fuel reference total_demand bids asks (bids_below + bid_at_price) supply
        (consider reference price demand supply best)
  | _, _ => best
  end.

(** [i64::try_from(volume).ok()] *)
Definition announce (best : option Candidate) : option (Z * Z) :=
  '(price, volume, _) ← best;
  volume ← checked I64 volume;
  Some (price, volume).

(** [Book::auction_price] *)
Definition auction_price (b : Book) (reference : Z) : option (Z * Z) :=
  let bids := entries (bk_bids b) in
  let asks := entries (bk_asks b) in
  let total_demand := sumZ (lv_total <$> values (bk_bids b)) in
  announce (sweep (length bids + length asks) reference total_demand bids asks 0 0 None).

(** Demand at or above a price and supply at or below it. *)
Definition demand_at (b : Book) (price : Z) : Z :=
  sumZ ((fun pl => lv_total pl.2) <$> filter (fun pl => price <= pl.1) (entries (bk_bids b))).
Definition supply_at (b : Book) (price : Z) : Z :=
  sumZ ((fun pl => lv_total pl.2) <$> filter (fun pl => pl.1 <= price) (entries (bk_asks b))).

(** The [BTreeSet] of all prices of the book. *)
Definition auction_prices (b : Book) : list Z :=
  sort_dedup (keys (bk_bids b) ++ keys (bk_asks b)).

(** [Book::auction_price_reference] *)
Definition auction_price_reference (b : Book) (reference : Z) : option (Z * Z) :=
  announce (foldl (fun best price =>
    consider reference price (demand_at b price) (supply_at b price) best)
    None (auction_prices b)).

(** ** Uncrossing *)

(** [Book::fill_resting] *)
Definition fill_resting (order : BookOrder) (quantity : Z) : M Book BookError Z :=
  book_remove (bo_order_id order);;
  remaining ← lift (ok_or
    (remaining ← checked_sub I64 (bo_remaining order) quantity;
     if 0 <=? remaining then Some remaining else None) BookError.Overflow);
  let order := with_remaining order remaining in
  (if 0 <? bo_remaining order then
     order ←
       (if bo_visible order <=? quantity then
          let peak := default (bo_remaining order) (bo_display order) in
          let order := with_visible order (Z.min peak (bo_remaining order)) in
          priority ← take_priority;
          mret (with_priority order priority)
        else
          visible ← lift (ok_or (checked_sub I64 (bo_visible order) quantity) BookError.Overflow);
          mret (with_visible order visible));
     book_insert order
   else mret tt);;
  mret remaining.

(** The closure [head] of [Book::uncross]. *)
Definition resting_head (b : Book) (s : Side) (price : Z) : result BookError BookOrder :=
  ok_or (order_id ← level_head b s price; bk_orders b !! order_id) BookError.InvalidOrder.

(** The loop of [Book::uncross]; every iteration completes at least one
    order, so one more than the number of orders is enough fuel. *)
Fixpoint uncross_loop (fuel : nat) (price : Z) (crosses : list Cross)
    : M Book BookError (list Cross) :=
  match fuel with
  | O => mret crosses
  | S fuel =>
      b ← gets id;
      match best b Buy, best b Sell with
      | Some bid, Some ask =>
          if (bid <? price) || (price <? ask) then mret crosses
          else
            bid_head ← lift (resting_head b Buy bid);
            ask_head ← lift (resting_head b Sell ask);
            let quantity := Z.min (bo_remaining bid_head) (bo_remaining ask_head) in
            buy_remaining ← fill_resting bid_head quantity;
            sell_remaining ← fill_resting ask_head quantity;
            uncross_loop fuel price (crosses ++
              [mkCross (bo_order_id bid_head) (bo_order_id ask_head) quantity buy_remaining
                 sell_remaining (bo_priority bid_head) (bo_priority ask_head)])
      | _, _ => mret crosses
      end
  end.

(** [Book::uncross] *)
Definition uncross (price : Z) : M Book BookError (list Cross) :=
  b ← gets id;
  uncross_loop (S (size (bk_orders b))) price [].
