(* ===== verification/AuctionPrice.v ===== *)
(** * The call auction: the price

    The linear sweep of [Book::auction_price] computes the same price as the
    quadratic reference on every book, and that price is optimal. *)

From S2P Require Import Prelude Ordered MarketTypes MarketEvents Book BookFacts.
From S2P Require Import BookMatch BookTheorems Auction.

(** ** The sweep visits every price once, in order *)

Fixpoint sweep_prices (fuel : nat) (bids asks : list (Z * Level)) : list Z :=
  match fuel, sweep_price bids asks with
  | S fuel, Some price => price :: sweep_prices fuel (take_at price bids).2 (take_at price asks).2
  | _, _ => []
  end.

(** Ascending distinct prices. *)
Definition ascending (ls : list (Z * Level)) : Prop := StronglySorted Z.lt ls.*1.

Lemma ascending_head p lv ls x :
  ascending ((p, lv) :: ls) -> x ∈ ls.*1 -> p < x.
Proof.
  intros [_ Hall]%StronglySorted_inv Hx. rewrite Forall_forall in Hall. by apply Hall.
Qed.

Lemma ascending_tail x ls : ascending (x :: ls) -> ascending ls.
Proof. by intros [? _]%StronglySorted_inv. Qed.

Lemma sweep_price_Some bids asks p :
  sweep_price bids asks = Some p -> ascending bids -> ascending asks ->
  (p ∈ bids.*1 \/ p ∈ asks.*1) /\ forall x, x ∈ bids.*1 \/ x ∈ asks.*1 -> p <= x.
Proof.
  intros Hp Hb Ha.
  assert (Hle : forall q lv ls x, ascending ((q, lv) :: ls) -> x ∈ ((q, lv) :: ls).*1 -> q <= x).
  { intros q lv ls x Hs Hx. rewrite fmap_cons, elem_of_cons in Hx.
    destruct Hx as [->|Hx]; [done |]. pose proof (ascending_head q lv ls x Hs Hx). lia. }
  destruct bids as [|[b lb] bids], asks as [|[a la] asks]; simpl in Hp; simplify_eq.
  - split; [right; left |]. intros x [[]%elem_of_nil|Hx]. eauto.
  - split; [left; left |]. intros x [Hx|[]%elem_of_nil]. eauto.
  - destruct (Z.leb_spec b a); (split; [by (left; left) || (right; left) |]);
      intros x [Hx|Hx]; apply Hle in Hx; auto; lia.
Qed.

(** [take_at] at a price no level lies below. *)
Lemma take_at_spec p ls :
  ascending ls -> (forall x, x ∈ ls.*1 -> p <= x) ->
  exists taken, ls = taken ++ (take_at p ls).2 /\
    (take_at p ls).1 = sumZ ((fun pl => lv_total pl.2) <$> taken) /\
    Forall (fun pl => pl.1 = p) taken /\
    (forall x, x ∈ (take_at p ls).2.*1 -> p < x).
Proof.
  intros Hs Hp. destruct ls as [|[q lv] ls]; simpl; [by exists []; split_and!; try intros ? []%elem_of_nil |].
  assert (p <= q) by (apply Hp; left).
  destruct (Z.eqb_spec q p) as [->|Hne]; simpl.
  - exists [(p, lv)]. split_and!; [done | simpl; lia | by constructor |].
    intros x. by apply (ascending_head p lv).
  - exists []. split_and!; [done | done | done |].
    intros x [->|Hx]%elem_of_cons; [lia |]. pose proof (ascending_head q lv ls x Hs Hx). lia.
Qed.

Lemma take_at_length p ls : (length (take_at p ls).2 <= length ls)%nat.
Proof. destruct ls as [|[q lv] ls]; simpl; [done |]. destruct (q =? p); simpl; lia. Qed.

Lemma take_at_shorter p ls :
  ascending ls -> (forall x, x ∈ ls.*1 -> p <= x) -> p ∈ ls.*1 ->
  (length (take_at p ls).2 < length ls)%nat.
Proof.
  intros Hs Hp Hin. destruct ls as [|[q lv] ls]; [by apply elem_of_nil in Hin |]. simpl in *.
  destruct (Z.eqb_spec q p); simpl; [lia |].
  apply elem_of_cons in Hin as [->|Hin]; [done |].
  pose proof (ascending_head q lv ls p Hs Hin). specialize (Hp q (list_elem_of_here _ _)). lia.
Qed.

Lemma take_at_ascending p ls : ascending ls -> ascending (take_at p ls).2.
Proof.
  destruct ls as [|[q lv] ls]; simpl; [done |]. intros H.
  destruct (q =? p); [by eapply ascending_tail | done].
Qed.

Lemma take_at_elem p ls x :
  ascending ls -> (forall x, x ∈ ls.*1 -> p <= x) ->
  x ∈ (take_at p ls).2.*1 <-> x ∈ ls.*1 /\ x <> p.
Proof.
  intros Hs Hp. destruct (take_at_spec p ls Hs Hp) as (taken & Heq & _ & Ht & Hgt). split.
  - intros Hx. split; [rewrite Heq, fmap_app; set_solver |]. specialize (Hgt x Hx). lia.
  - intros [Hx Hne]. rewrite Heq, fmap_app in Hx. apply elem_of_app in Hx as [Hx|Hx]; [| done].
    apply list_elem_of_fmap in Hx as (pl & -> & Hpl). rewrite Forall_forall in Ht.
    by apply Ht in Hpl.
Qed.

(** Everything [sweep] does at one step, in terms of what is left. *)
Lemma sweep_prices_spec fuel bids asks :
  ascending bids -> ascending asks -> (length bids + length asks <= fuel)%nat ->
  StronglySorted Z.lt (sweep_prices fuel bids asks) /\
  forall x, x ∈ sweep_prices fuel bids asks <-> x ∈ bids.*1 \/ x ∈ asks.*1.
Proof.
  revert bids asks. induction fuel as [|fuel IH]; intros bids asks Hb Ha Hf.
  { destruct bids, asks; simpl in *; try lia. split; [constructor |]. set_solver. }
  cbn [sweep_prices]. destruct (sweep_price bids asks) as [p|] eqn:Hp.
  2: { destruct bids as [|[]], asks as [|[]]; try done. split; [constructor | set_solver]. }
  destruct (sweep_price_Some _ _ _ Hp Hb Ha) as [Hin Hmin].
  assert (Hminb : forall x, x ∈ bids.*1 -> p <= x) by auto.
  assert (Hmina : forall x, x ∈ asks.*1 -> p <= x) by auto.
  destruct (IH (take_at p bids).2 (take_at p asks).2) as [Hs Hel].
  - by apply take_at_ascending.
  - by apply take_at_ascending.
  - pose proof (take_at_length p bids). pose proof (take_at_length p asks).
    destruct Hin as [Hin|Hin]; [pose proof (take_at_shorter p bids Hb Hminb Hin)
      | pose proof (take_at_shorter p asks Ha Hmina Hin)]; lia.
  - assert (Hel' : forall x, x ∈ sweep_prices fuel (take_at p bids).2 (take_at p asks).2 <->
      (x ∈ bids.*1 \/ x ∈ asks.*1) /\ x <> p)
      by (intros x; rewrite Hel, !take_at_elem by done; tauto).
    split.
    + constructor; [done |]. apply Forall_forall. intros x [Hx Hne]%Hel'.
      specialize (Hmin x Hx). lia.
    + intros x. rewrite elem_of_cons, Hel'. destruct (decide (x = p)) as [->|]; tauto.
Qed.

(** ** Running sums *)

Definition sum_total (ls : list (Z * Level)) : Z := sumZ ((fun pl => lv_total pl.2) <$> ls).

Lemma sum_total_app l1 l2 : sum_total (l1 ++ l2) = sum_total l1 + sum_total l2.
Proof. unfold sum_total. by rewrite fmap_app, sumZ_app. Qed.


Lemma forall_fst (P : Z -> Prop) (ls : list (Z * Level)) :
  (forall x, x ∈ ls.*1 -> P x) -> Forall (fun pl => P pl.1) ls.
Proof.
  intros H. apply Forall_forall. intros pl Hpl. apply H. apply list_elem_of_fmap. eauto.
Qed.

Section sweep.
Context (B A : list (Z * Level)) (reference : Z).

Definition dem (p : Z) : Z := sum_total (filter (fun pl => p <= pl.1) B).
Definition sup (p : Z) : Z := sum_total (filter (fun pl => pl.1 <= p) A).

Lemma dem_split p done_b bids :
  B = done_b ++ bids -> (forall x, x ∈ done_b.*1 -> x < p) -> (forall x, x ∈ bids.*1 -> p <= x) ->
  dem p = sum_total B - sum_total done_b.
Proof.
  intros HB Hlow Hhigh. unfold dem. rewrite HB, filter_app, !sum_total_app.
  rewrite (filter_none _ done_b); [| apply (forall_fst (fun x => ~ p <= x)); intros x Hx%Hlow; lia].
  rewrite (filter_all _ bids); [| by apply (forall_fst (fun x => p <= x))].
  unfold sum_total at 1. simpl. lia.
Qed.

Lemma sup_split p done_a asks :
  A = done_a ++ asks -> (forall x, x ∈ done_a.*1 -> x <= p) -> (forall x, x ∈ asks.*1 -> p < x) ->
  sup p = sum_total done_a.
Proof.
  intros HA Hlow Hhigh. unfold sup. rewrite HA, filter_app, sum_total_app.
  rewrite (filter_all _ done_a); [| by apply (forall_fst (fun x => x <= p))].
  rewrite (filter_none _ asks); [| apply (forall_fst (fun x => ~ x <= p)); intros x Hx%Hhigh; lia].
  unfold sum_total at 2. simpl. lia.
Qed.

Lemma taken_prices p (taken : list (Z * Level)) x :
  Forall (fun pl => pl.1 = p) taken -> x ∈ taken.*1 -> x = p.
Proof. intros Ht (pl & -> & Hpl)%list_elem_of_fmap. rewrite Forall_forall in Ht. auto. Qed.

Lemma sweep_fold fuel done_b bids done_a asks best :
  B = done_b ++ bids -> A = done_a ++ asks -> ascending bids -> ascending asks ->
  (forall x y, x ∈ done_b.*1 \/ x ∈ done_a.*1 -> y ∈ bids.*1 \/ y ∈ asks.*1 -> x < y) ->
  sweep fuel reference (sum_total B) bids asks (sum_total done_b) (sum_total done_a) best =
  foldl (fun best p => consider reference p (dem p) (sup p) best) best (sweep_prices fuel bids asks).
Proof.
  revert done_b bids done_a asks best.
  induction fuel as [|fuel IH]; intros done_b bids done_a asks best HB HA Hb Ha Hlt; [done |].
  cbn [sweep sweep_prices]. destruct (sweep_price bids asks) as [p|] eqn:Hp; [| done].
  destruct (sweep_price_Some _ _ _ Hp Hb Ha) as [Hin Hmin].
  destruct (take_at_spec p bids Hb (fun x Hx => Hmin x (or_introl Hx))) as (tb & Hbeq & Hbt & Htb & Hbgt).
  destruct (take_at_spec p asks Ha (fun x Hx => Hmin x (or_intror Hx))) as (ta & Haeq & Hat & Hta & Hagt).
  pose proof (take_at_ascending p bids Hb) as Hb'. pose proof (take_at_ascending p asks Ha) as Ha'.
  destruct (take_at p bids) as [tbv bids'], (take_at p asks) as [tav asks']. simpl in *.
  assert (Hdem : dem p = sum_total B - sum_total done_b).
  { apply (dem_split p done_b bids HB); [| auto]. intros x Hx. apply Hlt; [by left | done]. }
  assert (Hsup : sup p = sum_total done_a + tav).
  { rewrite (sup_split p (done_a ++ ta) asks'); [| by rewrite <- app_assoc, <- Haeq | | done].
    - rewrite sum_total_app. unfold sum_total at 2. by rewrite Hat.
    - intros x. rewrite fmap_app, elem_of_app. intros [Hx|Hx].
      + specialize (Hlt x p (or_intror Hx) Hin). lia.
      + by rewrite (taken_prices p ta x Hta Hx). }
  cbn [foldl]. rewrite Hdem, Hsup.
  generalize (consider reference p (sum_total B - sum_total done_b) (sum_total done_a + tav) best).
  intros best'. replace (sum_total done_b + tbv) with (sum_total (done_b ++ tb))
    by (rewrite sum_total_app, Hbt; done).
  replace (sum_total done_a + tav) with (sum_total (done_a ++ ta))
    by (rewrite sum_total_app, Hat; done).
  rewrite IH; [| by rewrite <- app_assoc, <- Hbeq | by rewrite <- app_assoc, <- Haeq | done | done |]; [done |].
  intros x y Hx Hy. rewrite !fmap_app, !elem_of_app in Hx.
  assert (Hyp : p < y) by (destruct Hy; auto).
  assert (Hyo : y ∈ bids.*1 \/ y ∈ asks.*1).
  { rewrite Hbeq, Haeq, !fmap_app, !elem_of_app. tauto. }
  destruct Hx as [[Hx|Hx]|[Hx|Hx]].
  - apply Hlt; auto.
  - by rewrite (taken_prices p tb x Htb Hx).
  - apply Hlt; auto.
  - by rewrite (taken_prices p ta x Hta Hx).
Qed.

End sweep.

Lemma entries_ascending (m : gmap Z Level) : ascending (entries m).
Proof.
  unfold ascending. pose proof (keys_sorted m) as Hk. unfold keys in Hk.
  induction Hk as [|p l Hs IH Hall]; constructor; [done |].
  eapply Forall_impl; [exact Hall |]. intros p' [Hle Hne]. simpl in Hle. lia.
Qed.

#[local] Instance Zlt_irreflexive : Irreflexive Z.lt.
Proof. intros x. unfold complement. lia. Qed.
#[local] Instance Zlt_transitive : Transitive Z.lt.
Proof. intros x y z. lia. Qed.

Lemma auction_prices_sweep b :
  auction_prices b =
  sweep_prices (length (entries (bk_bids b)) + length (entries (bk_asks b)))
    (entries (bk_bids b)) (entries (bk_asks b)).
Proof.
  destruct (sweep_prices_spec (length (entries (bk_bids b)) + length (entries (bk_asks b)))
    (entries (bk_bids b)) (entries (bk_asks b))) as [Hs Hel];
    [apply entries_ascending.. | done |].
  apply (strict_sorted_ext Z.lt); [apply sort_dedup_sorted | done |].
  intros x. rewrite Hel. unfold auction_prices. rewrite elem_of_sort_dedup, elem_of_app. done.
Qed.

(** The sweep as a fold over the prices of the book. *)
Lemma auction_price_fold b reference :
  auction_price b reference =
  announce (foldl (fun best price =>
    consider reference price (demand_at b price) (supply_at b price) best)
    None (auction_prices b)).
Proof.
  unfold auction_price. f_equal.
  assert (sumZ (lv_total <$> values (bk_bids b)) = sum_total (entries (bk_bids b))) as ->.
  { unfold values, sum_total. by rewrite <- list_fmap_compose. }
  rewrite (sweep_fold (entries (bk_bids b)) (entries (bk_asks b)) reference _ [] _ [] _ None);
    [| done | done | apply entries_ascending | apply entries_ascending
     | by intros x y [[]%elem_of_nil|[]%elem_of_nil]].
  by rewrite auction_prices_sweep.
Qed.

(** C9: the linear auction sweep is the quadratic specification. On every
    book and for every reference price, the single ascending sweep over the
    levels announces exactly the price and volume that the definition by
    ranges announces (per price, the sum of all bids at or above it and of
    all asks at or below it). *)
Theorem auction_sweep_is_reference b reference :
  auction_price b reference = auction_price_reference b reference.
Proof. apply auction_price_fold. Qed.

(** ** Optimality *)

Lemma tuple_gt_spec a1 a2 a3 b1 b2 b3 :
  tuple_gt (a1, a2, a3) (b1, b2, b3) = true <->
  b1 < a1 \/ (a1 = b1 /\ (b2 < a2 \/ (a2 = b2 /\ b3 < a3))).
Proof.
  unfold tuple_gt. rewrite !orb_true_iff, !andb_true_iff, !orb_true_iff, !andb_true_iff.
  by rewrite !Z.ltb_lt, !Z.eqb_eq.
Qed.

Section optimal.
Context (reference : Z) (demand supply : Z -> Z).

Definition volume (p : Z) : Z := Z.min (demand p) (supply p).
Definition imbalance (p : Z) : Z := Z.abs (demand p - supply p).
Definition distance (p : Z) : Z := Z.abs (p - reference).

(** [p] beats or equals [p'] under the tie-breaks: more volume, less
    imbalance, nearer to the reference, lower. *)
Definition preferred (p p' : Z) : Prop :=
  volume p' < volume p \/ (volume p' = volume p /\
  (imbalance p < imbalance p' \/ (imbalance p = imbalance p' /\
  (distance p < distance p' \/ (distance p = distance p' /\ p <= p'))))).

Definition is_best (ps : list Z) (best : option Candidate) : Prop :=
  match best with
  | None => forall p, p ∈ ps -> volume p <= 0
  | Some (p, v, i) => p ∈ ps /\ v = volume p /\ 0 < v /\ i = imbalance p /\
      forall p', p' ∈ ps -> preferred p p'
  end.

Lemma preferred_refl p : preferred p p.
Proof. unfold preferred. lia. Qed.

Lemma preferred_trans p1 p2 p3 : preferred p1 p2 -> preferred p2 p3 -> preferred p1 p3.
Proof. unfold preferred. lia. Qed.

Lemma is_best_snoc ps best p :
  is_best ps best -> (forall x, x ∈ ps -> x < p) ->
  is_best (ps ++ [p]) (consider reference p (demand p) (supply p) best).
Proof.
  intros Hb Hlt. unfold consider. fold (volume p) (imbalance p).
  destruct (Z.leb_spec (volume p) 0) as [Hv|Hv].
  { destruct best as [[[c v] i]|]; simpl in *.
    - destruct Hb as (Hc & -> & Hpos & -> & Hall). split_and!; try done; [set_solver |].
      intros p' [Hp'| ->%list_elem_of_singleton]%elem_of_app; [auto |]. left. lia.
    - intros p' [Hp'| ->%list_elem_of_singleton]%elem_of_app; auto. }
  destruct best as [[[c v] i]|]; simpl in Hb.
  - destruct Hb as (Hc & -> & Hpos & -> & Hall).
    fold (distance p) (distance c). pose proof (Hlt c Hc) as Hcp.
    destruct (tuple_gt _ _) eqn:Hgt.
    + apply tuple_gt_spec in Hgt.
      assert (preferred p c) as Hpc by (unfold preferred; lia).
      split_and!; try done; [set_solver |].
      intros p' [Hp'| ->%list_elem_of_singleton]%elem_of_app; [| apply preferred_refl].
      eapply preferred_trans; [exact Hpc | auto].
    + apply not_true_iff_false in Hgt. rewrite tuple_gt_spec in Hgt.
      split_and!; try done; [set_solver |].
      intros p' [Hp'| ->%list_elem_of_singleton]%elem_of_app; [auto |]. unfold preferred. lia.
  - split_and!; try done; [set_solver |].
    intros p' [Hp'| ->%list_elem_of_singleton]%elem_of_app; [| apply preferred_refl].
    left. specialize (Hb p' Hp'). lia.
Qed.

Lemma fold_is_best ps :
  StronglySorted Z.lt ps ->
  is_best ps (foldl (fun best p => consider reference p (demand p) (supply p) best) None ps).
Proof.
  induction ps as [|p ps IH] using rev_ind; intros Hs; [by intros p []%elem_of_nil |].
  apply StronglySorted_app in Hs as (Hlt & Hs & _). rewrite foldl_app. simpl.
  apply is_best_snoc; [by apply IH |]. intros x Hx. apply Hlt; set_solver.
Qed.

End optimal.

(** ** Demand and supply as sums over orders *)

Lemma sum_total_nonneg ls : Forall (fun pl => 0 <= lv_total pl.2) ls -> 0 <= sum_total ls.
Proof.
  unfold sum_total. induction 1 as [|x l Hx _ IH]; [done |]. rewrite fmap_cons, sumZ_cons. lia.
Qed.

Lemma level_total_bounds b s p lv :
  book_ok b -> (p, lv) ∈ entries (book_side b s) -> 0 < lv_total lv <= int_max I64.
Proof.
  intros Hb Hin%elem_of_entries. apply (bk_level_ok b Hb) in Hin as Hlv.
  destruct (level_ok_order _ _ _ _ Hlv) as (id & o & Ho & Hat).
  split; [| apply Hlv]. rewrite (lk_total _ _ _ _ Hlv).
  enough (bo_remaining o <= level_sum bo_remaining s p (bk_orders b)).
  { apply (bk_order_ok b Hb) in Ho as []. lia. }
  eapply level_sum_ge; [| exact Ho | exact Hat].
  intros id' o' Ho'. apply (bk_order_ok b Hb) in Ho' as []. lia.
Qed.

Lemma sum_total_filter_le (P Q : Z * Level -> Prop) `{!forall x, Decision (P x)}
    `{!forall x, Decision (Q x)} ls :
  Forall (fun pl => 0 <= lv_total pl.2) ls -> (forall x, x ∈ ls -> P x -> Q x) ->
  sum_total (filter P ls) <= sum_total (filter Q ls).
Proof.
  unfold sum_total. induction 1 as [|x ls Hx Hall IH]; intros HPQ; [done |].
  assert (sumZ ((fun pl => lv_total pl.2) <$> filter P ls) <=
          sumZ ((fun pl => lv_total pl.2) <$> filter Q ls))
    by (apply IH; intros; apply HPQ; [by right | done]).
  rewrite !filter_cons. repeat case_decide; rewrite ?fmap_cons, ?sumZ_cons; try lia.
  exfalso. eauto using list_elem_of_here.
Qed.

Lemma levels_nonneg b s : book_ok b -> Forall (fun pl => 0 <= lv_total pl.2) (entries (book_side b s)).
Proof.
  intros Hb. apply Forall_forall. intros [p lv] Hin. apply (level_total_bounds b s) in Hin; [| done].
  simpl. lia.
Qed.

Lemma demand_monotone b p p' : book_ok b -> p <= p' -> demand_at b p' <= demand_at b p.
Proof.
  intros Hb Hp. apply sum_total_filter_le; [apply (levels_nonneg b Buy Hb) |].
  intros [x lv] _. simpl. lia.
Qed.
Lemma supply_monotone b p p' : book_ok b -> p <= p' -> supply_at b p <= supply_at b p'.
Proof.
  intros Hb Hp. apply sum_total_filter_le; [apply (levels_nonneg b Sell Hb) |].
  intros [x lv] _. simpl. lia.
Qed.

(** The highest ask at or below a price has the same supply. *)
Lemma supply_attained b p :
  book_ok b -> 0 < supply_at b p ->
  exists q, q ∈ keys (bk_asks b) /\ q <= p /\ supply_at b q = supply_at b p.
Proof.
  intros Hb Hpos. set (ls := filter (fun pl : Z * Level => pl.1 <= p) (entries (bk_asks b))).
  assert (exists q, q ∈ ls.*1 /\ forall x, x ∈ ls.*1 -> x <= q) as (q & Hq & Hmax).
  { assert (ls <> []) as Hne by (intros Hnil; unfold supply_at in Hpos; fold ls in Hpos;
      rewrite Hnil in Hpos; simpl in Hpos; lia).
    clear Hpos. clearbody ls. induction ls as [|x ls IH]; [done |].
    destruct ls as [|y ls]; [exists x.1; set_solver |].
    destruct IH as (q & Hq & Hmax); [done |]. exists (Z.max x.1 q). split.
    - destruct (Z.max_spec x.1 q) as [[_ ->]|[_ ->]]; [by right | left].
    - intros z [->|Hz]%elem_of_cons; [lia |]. specialize (Hmax z Hz). lia. }
  apply list_elem_of_fmap in Hq as Hq'. destruct Hq' as ([q' lv] & -> & Hin).
  apply list_elem_of_filter in Hin as [Hle Hin]. simpl in *.
  exists q'. split_and!; [by apply list_elem_of_fmap; exists (q', lv) | done |].
  apply Z.le_antisymm; [by apply supply_monotone |].
  apply sum_total_filter_le; [apply (levels_nonneg b Sell Hb) |]. intros x Hx Hxp.
  apply Hmax. apply list_elem_of_fmap. exists x. split; [done |]. by apply list_elem_of_filter.
Qed.

(** the announced auction price is optimal. Its volume is the quantity
    that can trade there and no price whatsoever, in the book or not,
    executes more; among the prices of the book that execute as much it
    leaves the least imbalance, then lies nearest to the reference, then is
    the lowest. *)
Theorem auction_price_optimal b reference p v :
  book_ok b -> auction_price b reference = Some (p, v) ->
  p ∈ auction_prices b /\ v = volume (demand_at b) (supply_at b) p /\ 0 < v /\
  (forall p', volume (demand_at b) (supply_at b) p' <= v) /\
  (forall p', p' ∈ auction_prices b ->
     preferred reference (demand_at b) (supply_at b) p p').
Proof.
  intros Hb Href. rewrite auction_price_fold in Href.
  pose proof (fold_is_best reference (demand_at b) (supply_at b) (auction_prices b)
    (sort_dedup_sorted _)) as Hbest.
  destruct (foldl _ None (auction_prices b)) as [[[c w] i]|]; [| done]. simpl in Href, Hbest.
  destruct Hbest as (Hc & -> & Hpos & _ & Hall).
  destruct (checked I64 _) as [w'|] eqn:Hw; [| done]. simpl in Href.
  apply checked_Some in Hw as [-> _]. injection Href as <- <-.
  split_and!; try done. intros p'. destruct (decide (volume (demand_at b) (supply_at b) p' <= 0)); [lia |].
  destruct (supply_attained b p' Hb) as (q & Hq & Hle & Heq); [unfold volume in *; lia |].
  assert (preferred reference (demand_at b) (supply_at b) c q) as Hpref.
  { apply Hall. unfold auction_prices. rewrite elem_of_sort_dedup. set_solver. }
  pose proof (demand_monotone b q p' Hb Hle). unfold preferred, volume in *. lia.
Qed.

(** ** Width of the sums *)

Lemma sum_total_le ls k :
  Forall (fun pl => lv_total pl.2 <= k) ls -> sum_total ls <= Z.of_nat (length ls) * k.
Proof.
  unfold sum_total. induction 1 as [|x l Hx _ IH]; [done |].
  rewrite fmap_cons, sumZ_cons. simpl length. lia.
Qed.

Lemma level_price b s p lv :
  book_ok b -> book_side b s !! p = Some lv -> 0 < p <= int_max I64.
Proof.
  intros Hb Hlv. apply (bk_level_ok b Hb) in Hlv as (id & o & Ho & [_ <-])%level_ok_order.
  apply (bk_order_ok b Hb) in Ho as []. lia.
Qed.

(** There are at most as many levels as positive 64-bit prices. *)
Lemma levels_count b s :
  book_ok b -> Z.of_nat (length (entries (book_side b s))) <= int_max I64.
Proof.
  intros Hb. assert (length (keys (book_side b s)) <= length (seqZ 1 (int_max I64)))%nat as Hlen.
  { apply submseteq_length, NoDup_submseteq; [apply NoDup_keys |].
    intros p [lv Hlv]%elem_of_keys. apply elem_of_seqZ.
    pose proof (level_price b s p lv Hb Hlv). lia. }
  unfold keys in Hlen. rewrite length_fmap, length_seqZ in Hlen. unfold int_max in *. lia.
Qed.

(** the unchecked 128-bit sums of the auction cannot overflow. On every
    well-formed book, demand, supply, their difference and the whole side's
    total stay within [i128], however many price levels the book has. *)
Theorem auction_sums_fit b p :
  book_ok b ->
  is_i128 (demand_at b p) /\ is_i128 (supply_at b p) /\
  is_i128 (demand_at b p - supply_at b p) /\ is_i128 (sum_total (entries (bk_bids b))).
Proof.
  intros Hb.
  assert (Hside : forall s (P : Z * Level -> Prop) (HP : forall x, Decision (P x)),
    0 <= sum_total (filter P (entries (book_side b s))) <= int_max I64 * int_max I64).
  { intros s P HP. pose proof (levels_nonneg b s Hb) as Hnn. split.
    - apply sum_total_nonneg. rewrite Forall_forall in *.
      intros x [_ Hx]%list_elem_of_filter. auto.
    - pose proof (sum_total_filter_le P (fun _ => True) _ Hnn (fun _ _ _ => I)) as Hle.
      rewrite (filter_all (fun _ => True)) in Hle by (by apply Forall_true).
      etrans; [exact Hle |]. etrans; [apply (sum_total_le _ (int_max I64)) |].
      + apply Forall_forall. intros [q lv] Hin%(level_total_bounds b s); [| done]. simpl. lia.
      + pose proof (levels_count b s Hb). apply Z.mul_le_mono_nonneg_r; [by unfold int_max | done]. }
  pose proof (Hside Buy (fun pl => p <= pl.1) _) as H1.
  pose proof (Hside Sell (fun pl => pl.1 <= p) _) as H2.
  pose proof (Hside Buy (fun _ => True) _) as H3.
  rewrite (filter_all (fun _ => True)) in H3 by (by apply Forall_true).
  change (sum_total (filter (fun pl => p <= pl.1) (entries (book_side b Buy)))) with (demand_at b p) in H1.
  change (sum_total (filter (fun pl => pl.1 <= p) (entries (book_side b Sell)))) with (supply_at b p) in H2.
  simpl in H3. ranges. lia.
Qed.

Lemma auction_sums_fit_witness :
  is_i128 (demand_at demo_book 100) /\ is_i128 (supply_at demo_book 100) /\
  is_i128 (demand_at demo_book 100 - supply_at demo_book 100) /\
  is_i128 (sum_total (entries (bk_bids demo_book))).
Proof. apply auction_sums_fit, demo_book_ok. Defined.
