(* ===== verification/Uncross.v ===== *)
(** * The call auction: uncrossing

    [Book::uncross] on the two priority queues: it succeeds on every
    well-formed book, trades exactly the announced volume in price-time
    priority and leaves nothing to trade at the auction price. *)

From S2P Require Import Prelude Ordered MarketTypes MarketEvents Book BookFacts.
From S2P Require Import BookMatch BookTheorems Auction AuctionPrice.

(** ** Uncrossing two queues *)

Record UncrossOutcome : Type := mkUncrossOutcome {
  uo_crosses : list Cross;
  uo_bids : list BookOrder;
  uo_asks : list BookOrder;
  uo_next : Z
}.

Fixpoint uncross_queues (fuel : nat) (price next : Z) (bids asks : list BookOrder)
    : UncrossOutcome :=
  match fuel, bids, asks with
  | S fuel, bid :: bids', ask :: asks' =>
      if (price <=? bo_price bid) && (bo_price ask <=? price) then
        let quantity := Z.min (bo_remaining bid) (bo_remaining ask) in
        let '(bids1, next1) := after_fill Buy bid quantity next bids' in
        let '(asks1, next2) := after_fill Sell ask quantity next1 asks' in
        let out := uncross_queues fuel price next2 bids1 asks1 in
        mkUncrossOutcome
          (mkCross (bo_order_id bid) (bo_order_id ask) quantity (bo_remaining bid - quantity)
             (bo_remaining ask - quantity) (bo_priority bid) (bo_priority ask) :: uo_crosses out)
          (uo_bids out) (uo_asks out) (uo_next out)
      else mkUncrossOutcome [] bids asks next
  | _, _, _ => mkUncrossOutcome [] bids asks next
  end.

(** ** Refinement *)

Lemma fill_resting_run b o q fill :
  book_ok b -> book_orders b (bo_side o) = o :: q -> 0 < fill <= bo_remaining o ->
  let r := after_fill (bo_side o) o fill (bk_next_priority b) q in
  (r.2 <= int_max U64 ->
   exists b', fill_resting o fill b = (b', Ok (bo_remaining o - fill)) /\
     filled_book b b' (bo_side o) r.1 r.2) /\
  (int_max U64 < r.2 -> exists b', fill_resting o fill b = (b', Err BookError.Overflow)).
Proof.
  intros Hb Hq Hfill r. subst r.
  destruct (best_head b (bo_side o) o q Hb Hq) as (_ & _ & Ho & _).
  pose proof (bk_order_ok b Hb _ _ Ho) as [_ Hrem Hvis _ _ Hdisp].
  pose proof (bk_sequence b Hb).
  unfold fill_resting. rewrite (bind_run _ _ _ _ _ (book_remove_run b _ o Hb Ho)).
  rewrite (bind_lift _ _ _ (bo_remaining o - fill)).
  2: { unfold checked_sub. rewrite checked_in by (ranges; lia). simpl.
       by rewrite (proj2 (Z.leb_le 0 _)) by lia. }
  cbv zeta. unfold after_fill. simpl.
  destruct (Z.ltb_spec 0 (bo_remaining o - fill)), (Z.leb_spec (bo_remaining o - fill) 0); try lia.
  - destruct (Z.leb_spec (bo_visible o) fill), (Z.leb_spec (bo_visible o - fill) 0); try lia;
      simpl; (split; intros Hn); rewrite ?bind_assoc; try lia.
    + rewrite (bind_run _ _ _ _ _ (take_priority_run (removed o b) ltac:(autorewrite with book; lia))).
      rewrite bind_ret. autorewrite with book.
      match goal with |- context [book_insert ?o'] =>
        destruct (reinsert_back b o o' q) as (b' & Hrun & Hf); simpl; try done; try lia end.
      { destruct (bo_display o) as [peak|]; simpl; [specialize (Hdisp peak eq_refl) |]; lia. }
      exists b'. by rewrite (bind_run _ _ _ _ _ Hrun).
    + erewrite bind_fail; [by eexists |]. apply take_priority_full. autorewrite with book. lia.
    + rewrite (bind_lift _ _ _ (bo_visible o - fill)) by (apply ok_or_Ok, checked_in; ranges; lia).
      rewrite bind_ret.
      match goal with |- context [book_insert ?o'] =>
        destruct (reinsert_same b o o' q) as (b' & Hrun & Hf); simpl; try done; try lia end.
      exists b'. by rewrite (bind_run _ _ _ _ _ Hrun).
  - simpl. split; [| lia]. rewrite bind_ret. eexists. split; [reflexivity |]. simpl. by apply removed_queue.
Qed.

Lemma after_fill_length s o fill next q :
  (length (after_fill s o fill next q).1 <= S (length q))%nat /\
  (bo_remaining o <= fill -> after_fill s o fill next q = (q, next)).
Proof.
  unfold after_fill. destruct (Z.leb_spec (bo_remaining o - fill) 0).
  - split; [simpl; lia | done].
  - split; [| lia]. destruct (_ <=? _); simpl; [rewrite (Permutation_length (enqueue_perm s _ q)) |]; simpl; lia.
Qed.

(** One crossing of the two heads consumes one of them and at most one
    priority. *)
Lemma cross_progress bid bids ask asks next :
  let quantity := Z.min (bo_remaining bid) (bo_remaining ask) in
  let r1 := after_fill Buy bid quantity next bids in
  let r2 := after_fill Sell ask quantity r1.2 asks in
  (length r1.1 + length r2.1 < S (length bids) + S (length asks))%nat /\ r2.2 <= next + 1 /\
  next <= r1.2 <= next + 1.
Proof.
  intros quantity r1 r2.
  pose proof (after_fill_next Buy bid quantity next bids).
  pose proof (after_fill_next Sell ask quantity r1.2 asks).
  destruct (after_fill_length Buy bid quantity next bids) as [H1 H1'].
  destruct (after_fill_length Sell ask quantity r1.2 asks) as [H2 H2'].
  fold r1 in H1, H1', H. fold r2 in H2, H2', H0.
  destruct (Z.le_ge_cases (bo_remaining bid) (bo_remaining ask)).
  - rewrite H1' in * by lia. simpl in *. lia.
  - rewrite H2' in * by lia. simpl in *. lia.
Qed.

Definition uncrossed_book (b b' : Book) (out : UncrossOutcome) : Prop :=
  book_ok b' /\ book_orders b' Buy = uo_bids out /\ book_orders b' Sell = uo_asks out /\
  bk_next_priority b' = uo_next out.

Lemma uncross_queues_next fuel price next bids asks :
  next <= uo_next (uncross_queues fuel price next bids asks)
    <= next + Z.of_nat (length bids + length asks).
Proof.
  revert next bids asks. induction fuel as [|fuel IH]; intros next bids asks; [simpl; lia |].
  destruct bids as [|bid bids]; [simpl; lia |]. destruct asks as [|ask asks]; [simpl; lia |].
  cbn [uncross_queues]. destruct (_ && _); [| simpl; lia].
  pose proof (cross_progress bid bids ask asks next) as (Hlen & Hnx & Hnx1). cbv zeta in *.
  destruct (after_fill Buy _ _ _ _) as [bids1 next1]. simpl in Hlen, Hnx, Hnx1.
  pose proof (after_fill_next Sell ask (Z.min (bo_remaining bid) (bo_remaining ask)) next1 asks).
  destruct (after_fill Sell _ _ _ _) as [asks1 next2]. simpl in *.
  specialize (IH next2 bids1 asks1). lia.
Qed.

(** [uncross_loop] runs [uncross_queues], and fails only when the priorities
    run out. *)
Lemma uncross_loop_run fuel price crosses b :
  book_ok b ->
  let out := uncross_queues fuel price (bk_next_priority b) (book_orders b Buy) (book_orders b Sell) in
  (uo_next out <= int_max U64 ->
   exists b', uncross_loop fuel price crosses b = (b', Ok (crosses ++ uo_crosses out)) /\
     uncrossed_book b b' out) /\
  (int_max U64 < uo_next out ->
   exists b', uncross_loop fuel price crosses b = (b', Err BookError.Overflow)).
Proof.
  revert crosses b. induction fuel as [|fuel IH]; intros crosses b Hb;
    pose proof (bk_sequence b Hb) as Hseq.
  { simpl. split; [| lia]. exists b. by rewrite app_nil_r. }
  assert (Hstop : forall bids asks, book_orders b Buy = bids -> book_orders b Sell = asks ->
    let out := mkUncrossOutcome [] bids asks (bk_next_priority b) in
    (uo_next out <= int_max U64 -> exists b', (b, Ok (E := BookError) crosses) =
      (b', Ok (crosses ++ uo_crosses out)) /\ uncrossed_book b b' out) /\
    (int_max U64 < uo_next out -> exists b', (b, Ok (E := BookError) crosses) = (b', Err BookError.Overflow))).
  { intros bids asks <- <-. simpl. split; [| lia]. exists b. by rewrite app_nil_r. }
  cbn [uncross_loop uncross_queues]. rewrite bind_gets. cbn [id].
  destruct (book_orders b Buy) as [|bid bids] eqn:HB.
  { rewrite best_None by done. by apply Hstop. }
  destruct (best_head b Buy bid bids Hb HB) as (Hbb & Hbl & Hbo & Hbs). rewrite Hbb.
  destruct (book_orders b Sell) as [|ask asks] eqn:HA.
  { rewrite best_None by done. by apply Hstop. }
  destruct (best_head b Sell ask asks Hb HA) as (Hab & Hal & Hao & Has). rewrite Hab.
  rewrite Z.leb_antisym, (Z.leb_antisym _ (bo_price ask)), <- negb_orb.
  destruct ((bo_price bid <? price) || (price <? bo_price ask)); cbn [negb]; [by apply Hstop |].
  rewrite (bind_lift _ _ _ bid) by (unfold resting_head; rewrite Hbl; simpl; by rewrite Hbo).
  rewrite (bind_lift _ _ _ ask) by (unfold resting_head; rewrite Hal; simpl; by rewrite Hao).
  cbv zeta. pose proof (bk_order_ok b Hb _ _ Hbo) as [_ Hbr _ _ _ _].
  pose proof (bk_order_ok b Hb _ _ Hao) as [_ Har _ _ _ _].
  set (quantity := Z.min (bo_remaining bid) (bo_remaining ask)) in *. rewrite <- Hbs in HB.
  destruct (fill_resting_run b bid bids quantity Hb HB) as [Hroom1 Hfull1]; [lia |].
  rewrite Hbs in Hroom1, Hfull1.
  destruct (after_fill Buy bid quantity (bk_next_priority b) bids) as [bids1 next1].
  simpl in Hroom1, Hfull1.
  pose proof (after_fill_next Sell ask quantity next1 asks) as Hnx.
  destruct (Z.le_gt_cases next1 (int_max U64)) as [Hn1|Hn1].
  2: { destruct (Hfull1 Hn1) as [b1 Hrun1].
       destruct (after_fill Sell ask quantity next1 asks) as [asks1 next2] eqn:Ha2. cbn [uo_next].
       pose proof (uncross_queues_next fuel price next2 bids1 asks1). simpl in Hnx.
       split; [lia |]. intros _. exists b1. by apply bind_fail. }
  destruct (Hroom1 Hn1) as (b1 & Hrun1 & Hb1 & HB1 & HA1 & Hbn1). rewrite (bind_run _ _ _ _ _ Hrun1).
  simpl in HA1. rewrite HA in HA1. rewrite <- Has in HA1.
  destruct (fill_resting_run b1 ask asks quantity Hb1 HA1) as [Hroom2 Hfull2]; [lia |].
  rewrite Has, Hbn1 in Hroom2, Hfull2.
  destruct (after_fill Sell ask quantity next1 asks) as [asks1 next2]. simpl in Hroom2, Hfull2.
  cbn [uo_next uo_crosses].
  pose proof (uncross_queues_next fuel price next2 bids1 asks1) as Hnext.
  destruct (Z.le_gt_cases next2 (int_max U64)) as [Hn2|Hn2].
  2: { split; [lia |]. intros _. destruct (Hfull2 Hn2) as [b2 Hrun2]. exists b2. by apply bind_fail. }
  destruct (Hroom2 Hn2) as (b2 & Hrun2 & Hb2 & HA2 & HB2 & Hbn2). rewrite (bind_run _ _ _ _ _ Hrun2).
  simpl in HB2. rewrite HB1 in HB2.
  destruct (IH (crosses ++ [mkCross (bo_order_id bid) (bo_order_id ask) quantity
    (bo_remaining bid - quantity) (bo_remaining ask - quantity) (bo_priority bid) (bo_priority ask)]) b2 Hb2)
    as [IHok IHerr].
  rewrite HB2, HA2, Hbn2 in IHok, IHerr. split; [| done]. intros Hn.
  destruct (IHok Hn) as (b3 & Hrun3 & Hf3).
  exists b3. rewrite Hrun3, <- app_assoc. split; [done |]. exact Hf3.
Qed.

(** ** What uncrossing trades *)

(** Bids that can trade at [price] and asks that can. *)
Definition bid_interest (price : Z) (q : list BookOrder) : Z := liquidity Sell (Some price) q.
Definition ask_interest (price : Z) (q : list BookOrder) : Z := liquidity Buy (Some price) q.

Definition crossed_quantity (cs : list Cross) : Z := sumZ (cx_quantity <$> cs).
Definition bought (id : Z) (cs : list Cross) : Z :=
  sumZ ((fun c => if cx_buy c =? id then cx_quantity c else 0) <$> cs).
Definition sold (id : Z) (cs : list Cross) : Z :=
  sumZ ((fun c => if cx_sell c =? id then cx_quantity c else 0) <$> cs).

Record uncross_spec (price : Z) (bids asks : list BookOrder) (out : UncrossOutcome) : Prop := {
  us_quantity : crossed_quantity (uo_crosses out) =
    Z.min (bid_interest price bids) (ask_interest price asks);
  us_bids : bid_interest price (uo_bids out) =
    bid_interest price bids - crossed_quantity (uo_crosses out);
  us_asks : ask_interest price (uo_asks out) =
    ask_interest price asks - crossed_quantity (uo_crosses out);
  us_positive : Forall (fun c => 0 < cx_quantity c) (uo_crosses out);
  us_bought : forall id, bought id (uo_crosses out) + maker_remaining id (uo_bids out) =
    maker_remaining id bids;
  us_sold : forall id, sold id (uo_crosses out) + maker_remaining id (uo_asks out) =
    maker_remaining id asks
}.

Lemma uncross_idle price next bids asks :
  queue_ok Buy bids -> queue_ok Sell asks ->
  bid_interest price bids = 0 \/ ask_interest price asks = 0 ->
  uncross_spec price bids asks (mkUncrossOutcome [] bids asks next).
Proof.
  intros Hb Ha Hz.
  pose proof (liquidity_nonneg Sell (Some price) bids (qo_fillable _ _ Hb)).
  pose proof (liquidity_nonneg Buy (Some price) asks (qo_fillable _ _ Ha)).
  split; unfold bid_interest, ask_interest, crossed_quantity, bought, sold in *; simpl;
    try done; try lia.
Qed.

Lemma maker_after_fill id s o q fill next :
  queue_ok s (o :: q) -> 0 < fill <= bo_remaining o ->
  maker_remaining id (after_fill s o fill next q).1 =
  maker_remaining id (o :: q) - (if bo_order_id o =? id then fill else 0).
Proof.
  intros Hq Hf. unfold maker_remaining.
  rewrite (after_fill_sum s o q fill next Hq Hf (fun o r => if bo_order_id o =? id then r else 0)).
  - rewrite fmap_cons, sumZ_cons. destruct (bo_order_id o =? id); lia.
  - by intros o1 o2 r ->.
  - intros x. by destruct (bo_order_id x =? id).
Qed.

Lemma uncross_queues_spec fuel price next bids asks :
  (length bids + length asks < fuel)%nat -> queue_ok Buy bids -> queue_ok Sell asks ->
  uncross_spec price bids asks (uncross_queues fuel price next bids asks).
Proof.
  revert next bids asks. induction fuel as [|fuel IH]; intros next bids asks Hlen Hb Ha; [lia |].
  destruct bids as [|bid bids]; [by apply uncross_idle; [.. | left] |].
  destruct asks as [|ask asks]; [by apply uncross_idle; [.. | right] |].
  cbn [uncross_queues].
  destruct (Z.leb_spec price (bo_price bid)) as [Hbp|Hbp].
  2: { apply uncross_idle; [done.. | left]. apply (liquidity_stop Sell); [done |]. by apply Z.leb_gt. }
  destruct (Z.leb_spec (bo_price ask) price) as [Hap|Hap].
  2: { apply uncross_idle; [done.. | right]. apply (liquidity_stop Buy); [done |]. by apply Z.leb_gt. }
  cbn [andb].
  pose proof (qo_fillable _ _ Hb) as [[Hbv _] _]%Forall_cons.
  pose proof (qo_fillable _ _ Ha) as [[Hav _] _]%Forall_cons.
  pose proof (cross_progress bid bids ask asks next) as (Hprog & _ & _).
  set (quantity := Z.min (bo_remaining bid) (bo_remaining ask)) in *.
  assert (Hq1 : 0 < quantity <= bo_remaining bid) by lia.
  assert (Hq2 : 0 < quantity <= bo_remaining ask) by lia.
  pose proof (after_fill_ok _ _ _ quantity next Hb) as Hb1.
  pose proof (liquidity_after_fill Sell (Some price) _ _ _ quantity next Hb Hq1
    (proj2 (Z.leb_le _ _) Hbp)) as Hl1.
  pose proof (fun id => maker_after_fill id _ _ _ quantity next Hb Hq1) as Hm1.
  destruct (after_fill Buy bid quantity next bids) as [bids1 next1]. simpl in Hprog, Hb1, Hl1, Hm1.
  pose proof (after_fill_ok _ _ _ quantity next1 Ha) as Ha1.
  pose proof (liquidity_after_fill Buy (Some price) _ _ _ quantity next1 Ha Hq2
    (proj2 (Z.leb_le _ _) Hap)) as Hl2.
  pose proof (fun id => maker_after_fill id _ _ _ quantity next1 Ha Hq2) as Hm2.
  destruct (after_fill Sell ask quantity next1 asks) as [asks1 next2]. simpl in Hprog, Ha1, Hl2, Hm2.
  destruct (IH next2 bids1 asks1) as [Hq Hbi Hai Hpos Hbo Hso]; [simpl in Hlen; lia | done | done |].
  unfold bid_interest, ask_interest, crossed_quantity, bought, sold in *.
  split; unfold bid_interest, ask_interest, crossed_quantity, bought, sold;
    cbn [uo_crosses uo_bids uo_asks]; rewrite ?fmap_cons, ?sumZ_cons;
    cbn [cx_quantity cx_buy cx_sell]; try lia.
  - constructor; [simpl; lia | done].
  - intros id. specialize (Hbo id). rewrite Hm1 in Hbo.
    rewrite fmap_cons, sumZ_cons. cbn [cx_quantity cx_buy]. lia.
  - intros id. specialize (Hso id). rewrite Hm2 in Hso.
    rewrite fmap_cons, sumZ_cons. cbn [cx_quantity cx_sell]. lia.
Qed.

(** ** Interest of the queues and of the levels *)

Lemma levels_interest b s (P : Z -> Prop) `{!forall p, Decision (P p)} :
  book_ok b ->
  sum_total (filter (fun pl => P pl.1) (entries (book_side b s))) =
  map_sum (fun _ o => if bool_decide (bo_side o = s /\ P (bo_price o)) then bo_remaining o else 0)
    (bk_orders b).
Proof.
  intros Hb. set (ls := filter _ _).
  assert (Hls : forall p lv, (p, lv) ∈ ls <-> P p /\ book_side b s !! p = Some lv).
  { intros p lv. subst ls. by rewrite list_elem_of_filter, elem_of_entries. }
  assert ((fun pl => lv_total pl.2) <$> ls =
    (fun p => level_sum bo_remaining s p (bk_orders b)) <$> ls.*1) as Htot.
  { rewrite <- list_fmap_compose. apply list_fmap_ext. intros i [p lv] Hi%list_elem_of_lookup_2. simpl.
    apply Hls in Hi as [_ Hlv%(bk_level_ok b Hb)]. apply Hlv. }
  unfold sum_total. rewrite Htot, level_sums.
  - apply map_sum_ext. intros id o Ho.
    rewrite (bool_decide_ext _ (bo_side o = s /\ P (bo_price o))); [done |].
    split; intros [Hs Hp]; (split; [done |]).
    + apply list_elem_of_fmap in Hp as ([p lv] & Hpe & [Hp _]%Hls). simpl in Hpe. by rewrite Hpe.
    + destruct (bk_indexed b Hb _ _ Ho) as [lv Hlv]. rewrite Hs in Hlv.
      apply list_elem_of_fmap. exists (bo_price o, lv). split; [done |]. by apply Hls.
  - subst ls. clear Hls Htot. pose proof (NoDup_keys (book_side b s)) as Hnd. unfold keys in Hnd.
    induction (entries (book_side b s)) as [|[p lv] l IH]; [constructor |].
    rewrite fmap_cons in Hnd. apply NoDup_cons in Hnd as [Hp Hnd]. simpl in Hp.
    rewrite filter_cons. case_decide; [| auto]. rewrite fmap_cons. constructor; [| auto].
    intros ([p' lv'] & Hpe & [_ Hin]%list_elem_of_filter)%list_elem_of_fmap. simpl in Hpe. subst p'. apply Hp.
    apply list_elem_of_fmap. by exists (p, lv').
Qed.

Lemma bid_interest_demand b price :
  book_ok b -> bid_interest price (book_orders b Buy) = demand_at b price.
Proof.
  intros Hb. unfold bid_interest. change Buy with (opposite Sell).
  rewrite liquidity_orders by done.
  rewrite (levels_interest b Buy (fun p => price <= p) Hb : demand_at b price = _).
  apply map_sum_ext. intros id o _. simpl.
  by rewrite (bool_decide_ext _ (bo_side o = Buy /\ price <= bo_price o)) by (by rewrite Z.leb_le).
Qed.

Lemma ask_interest_supply b price :
  book_ok b -> ask_interest price (book_orders b Sell) = supply_at b price.
Proof.
  intros Hb. unfold ask_interest. change Sell with (opposite Buy).
  rewrite liquidity_orders by done.
  rewrite (levels_interest b Sell (fun p => p <= price) Hb : supply_at b price = _).
  apply map_sum_ext. intros id o _. simpl.
  by rewrite (bool_decide_ext _ (bo_side o = Sell /\ bo_price o <= price)) by (by rewrite Z.leb_le).
Qed.

(** ** The number of orders *)

Lemma sum_ones {A} (l : list A) : sumZ ((fun _ => 1) <$> l) = Z.of_nat (length l).
Proof. induction l; [done |]. rewrite fmap_cons, sumZ_cons. simpl length. lia. Qed.

Lemma queue_lengths b :
  book_ok b -> (length (book_orders b Buy) + length (book_orders b Sell) = size (bk_orders b))%nat.
Proof.
  intros Hb.
  assert (forall s, Z.of_nat (length (book_orders b s)) =
    map_sum (fun _ o => if bool_decide (bo_side o = s) then 1 else 0) (bk_orders b)) as Hlen.
  { intros s. pose proof (book_orders_queue b Hb s) as [Hs Hm]. rewrite <- sum_ones.
    apply (sum_orders (bk_orders b) (bk_next_priority b) (fun _ => 1) (fun o => bo_side o = s));
      [apply Hb | by apply (strict_sorted_NoDup (ahead s)) | done]. }
  apply Nat2Z.inj. rewrite Nat2Z.inj_add, !Hlen, <- map_sum_size, <- map_sum_add.
  apply map_sum_ext. intros id o _. by destruct (bo_side o).
Qed.

(** ** The properties *)

(** Whatever [uncross] returns, it returned what the two queues say; it
    returns whenever each order could take one priority. *)
Lemma uncross_Ok b price b' cs :
  book_ok b -> uncross price b = (b', Ok cs) ->
  book_ok b' /\
  uncross_spec price (book_orders b Buy) (book_orders b Sell)
    (mkUncrossOutcome cs (book_orders b' Buy) (book_orders b' Sell) (bk_next_priority b')).
Proof.
  intros Hb Hrun. unfold uncross in Hrun. rewrite bind_gets in Hrun. cbn [id] in Hrun.
  rewrite <- queue_lengths in Hrun by done.
  set (n := S (length (book_orders b Buy) + length (book_orders b Sell))) in *.
  destruct (uncross_loop_run n price [] b Hb) as [Hok Herr].
  pose proof (uncross_queues_spec n price (bk_next_priority b) (book_orders b Buy)
    (book_orders b Sell) ltac:(lia) (book_queue_ok b Buy Hb) (book_queue_ok b Sell Hb)) as Hs.
  destruct (Z.le_gt_cases (uo_next (uncross_queues n price (bk_next_priority b)
    (book_orders b Buy) (book_orders b Sell))) (int_max U64)) as [Hle|Hgt].
  - destruct (Hok Hle) as (b1 & Hrun1 & Hb' & HB & HA & Hnx). rewrite Hrun1 in Hrun.
    injection Hrun as <- <-. split; [done |]. rewrite HB, HA, Hnx. destruct Hs. by split.
  - destruct (Herr Hgt) as [b1 Hrun1]. congruence.
Qed.

Lemma uncross_run b price :
  book_ok b -> bk_next_priority b + Z.of_nat (size (bk_orders b)) <= int_max U64 ->
  exists b' cs,
    uncross price b = (b', Ok cs) /\ book_ok b' /\
    uncross_spec price (book_orders b Buy) (book_orders b Sell)
      (mkUncrossOutcome cs (book_orders b' Buy) (book_orders b' Sell) (bk_next_priority b')).
Proof.
  intros Hb Hn. rewrite <- queue_lengths in Hn by done.
  destruct (uncross_loop_run (S (length (book_orders b Buy) + length (book_orders b Sell)))
    price [] b Hb) as [Hok _].
  destruct Hok as (b' & Hrun & _).
  { etrans; [apply uncross_queues_next | done]. }
  exists b'. eexists. unfold uncross. rewrite bind_gets. cbn [id]. rewrite <- queue_lengths by done.
  split; [exact Hrun |]. apply uncross_Ok; [done |].
  unfold uncross. rewrite bind_gets. cbn [id]. by rewrite <- queue_lengths.
Qed.

(** uncrossing trades exactly what the auction can. On every
    well-formed book and at every price, [uncross] succeeds, its crosses add
    up to the smaller of demand and supply at that price, each crosses a
    positive quantity, every order loses exactly the crosses reported
    against it, the book stays well formed, and afterwards demand or supply
    at the price is exhausted. *)
Theorem uncross_executes_auction b price :
  book_ok b -> bk_next_priority b + Z.of_nat (size (bk_orders b)) <= int_max U64 ->
  exists b' cs,
    uncross price b = (b', Ok cs) /\ book_ok b' /\
    crossed_quantity cs = volume (demand_at b) (supply_at b) price /\
    Forall (fun c => 0 < cx_quantity c) cs /\
    (forall id, book_remaining b' id = book_remaining b id - bought id cs - sold id cs) /\
    volume (demand_at b') (supply_at b') price = 0.
Proof.
  intros Hb Hn. destruct (uncross_run b price Hb Hn) as (b' & cs & Hrun & Hb' & [Hq Hbi Hai Hp Hbo Hso]).
  simpl in *. rewrite !bid_interest_demand, !ask_interest_supply in * by done.
  exists b', cs. split_and!; try done.
  - intros id. rewrite (book_remaining_sides b' Buy), (book_remaining_sides b Buy) by done.
    specialize (Hbo id). specialize (Hso id). simpl. lia.
  - unfold volume. lia.
Qed.

(** the announced volume is what trades. When [auction_price] announces
    a price and a volume, uncrossing the same book at that price executes
    exactly that volume. *)
Theorem announced_volume_trades b reference price v :
  book_ok b -> bk_next_priority b + Z.of_nat (size (bk_orders b)) <= int_max U64 ->
  auction_price b reference = Some (price, v) ->
  exists b' cs, uncross price b = (b', Ok cs) /\ crossed_quantity cs = v.
Proof.
  intros Hb Hn Hp. rewrite auction_price_fold in Hp.
  pose proof (fold_is_best reference (demand_at b) (supply_at b) (auction_prices b)
    (sort_dedup_sorted _)) as Hbest.
  destruct (foldl _ None (auction_prices b)) as [[[c w] i]|]; [| done]. simpl in Hp, Hbest.
  destruct Hbest as (_ & -> & _ & _ & _).
  destruct (checked I64 _) as [w'|] eqn:Hw; [| done]. simpl in Hp.
  apply checked_Some in Hw as [-> _]. injection Hp as <- <-.
  destruct (uncross_run b c Hb Hn) as (b' & cs & Hrun & Hb' & [Hq _ _ _ _ _]).
  exists b', cs. split; [done |]. simpl in Hq.
  by rewrite bid_interest_demand, ask_interest_supply in Hq.
Qed.

(** Demand at a bid and supply at an ask are positive. *)
Lemma crossed_volume b bid ask :
  book_ok b -> bid ∈ book_orders b Buy -> ask ∈ book_orders b Sell ->
  bo_price ask <= bo_price bid ->
  0 < volume (demand_at b) (supply_at b) (bo_price bid).
Proof.
  intros Hb Hbid Hask Hle. unfold volume.
  rewrite <- bid_interest_demand, <- ask_interest_supply by done.
  assert (Hpos : forall taker q o, Forall fillable q -> o ∈ q ->
    limit_crosses taker (Some (bo_price bid)) (bo_price o) = true ->
    0 < liquidity taker (Some (bo_price bid)) q).
  { intros taker q o Hf Ho Hc. pose proof (liquidity_nonneg taker (Some (bo_price bid)) q Hf).
    destruct (decide (liquidity taker (Some (bo_price bid)) q = 0)) as [Hz|]; [| lia].
    rewrite (liquidity_zero _ _ _ Hf Hz o Ho) in Hc. done. }
  apply Z.min_glb_lt; eapply Hpos; try (eapply qo_fillable, book_queue_ok; done); try eassumption;
    apply Z.leb_le; lia.
Qed.

(** an auction is announced exactly when the book is crossed. As long
    as the quantity that could trade fits 64 bits, [auction_price] is [None]
    precisely when every bid is below every ask. *)
Theorem auction_announced_iff_crossed b reference :
  book_ok b -> (forall p, volume (demand_at b) (supply_at b) p <= int_max I64) ->
  auction_price b reference = None <-> uncrossed b.
Proof.
  intros Hb Hfit. rewrite auction_price_fold.
  pose proof (fold_is_best reference (demand_at b) (supply_at b) (auction_prices b)
    (sort_dedup_sorted _)) as Hbest.
  assert (Hin : forall bid, bid ∈ book_orders b Buy -> bo_price bid ∈ auction_prices b).
  { intros bid [Ho Hs]%(iq_elem _ _ _ (book_orders_queue b Hb Buy)).
    destruct (bk_indexed b Hb _ _ Ho) as [lv Hlv]. rewrite Hs in Hlv.
    unfold auction_prices. rewrite elem_of_sort_dedup, elem_of_app. left. apply elem_of_keys.
    by exists lv. }
  destruct (foldl _ None (auction_prices b)) as [[[c w] i]|]; simpl in *.
  - destruct Hbest as (_ & -> & Hpos & _ & _). specialize (Hfit c).
    rewrite checked_in by (unfold int_min; lia). simpl. split; [done |]. intros Hu. exfalso.
    unfold volume in Hpos.
    assert (Hd : 0 < bid_interest c (book_orders b Buy)) by (rewrite bid_interest_demand by done; lia).
    assert (Hs : 0 < ask_interest c (book_orders b Sell)) by (rewrite ask_interest_supply by done; lia).
    assert (Hex : forall taker q, 0 < liquidity taker (Some c) q ->
      exists o, o ∈ q /\ crosses taker c (bo_price o) = true).
    { intros taker q. unfold liquidity. induction q as [|o q IH]; [done |].
      rewrite fmap_cons, sumZ_cons.
      change (limit_crosses taker (Some c) (bo_price o)) with (crosses taker c (bo_price o)).
      destruct (crosses taker c (bo_price o)) eqn:Hc.
      - intros _. exists o. split; [left | done].
      - intros Hl. destruct IH as (o' & ? & ?); [lia |]. exists o'. split; [by right | done]. }
    apply Hex in Hd as (bid & Hbid & Hbc%Z.leb_le), Hs as (ask & Hask & Hac%Z.leb_le).
    specialize (Hu bid ask Hbid Hask). lia.
  - split; [intros _ | done]. intros bid ask Hbid Hask.
    destruct (decide (bo_price bid < bo_price ask)); [done |].
    pose proof (crossed_volume b bid ask Hb Hbid Hask ltac:(lia)).
    specialize (Hbest (bo_price bid) (Hin bid Hbid)). lia.
Qed.

(** ** A concrete auction

    Bids 5 at 102, an iceberg of 10 at 101, 4 at 99; asks 6 at 100, 3 at
    101, 2 at 103. *)

Definition call_rests : list Rest :=
  [(1, Buy, 102, 5, None); (2, Buy, 101, 10, Some 3); (3, Buy, 99, 4, None);
   (4, Sell, 100, 6, None); (5, Sell, 101, 3, None); (6, Sell, 103, 2, None)].
Definition call_book : Book := run_rests call_rests Book_new.

Lemma call_book_ok : book_ok call_book.
Proof.
  apply run_rests_ok; [apply Book_new_ok |]. cbn [rests_valid call_rests]. unfold valid_rest.
  concrete_rest.
Qed.

Lemma auction_price_optimal_witness :
  101 ∈ auction_prices call_book /\ 9 = volume (demand_at call_book) (supply_at call_book) 101 /\
  0 < 9 /\ (forall p', volume (demand_at call_book) (supply_at call_book) p' <= 9) /\
  (forall p', p' ∈ auction_prices call_book ->
     preferred 100 (demand_at call_book) (supply_at call_book) 101 p').
Proof. apply (auction_price_optimal call_book 100); [apply call_book_ok | vm_compute; reflexivity]. Defined.

Lemma uncross_executes_auction_witness :
  exists b' cs,
    uncross 101 call_book = (b', Ok cs) /\ book_ok b' /\
    crossed_quantity cs = volume (demand_at call_book) (supply_at call_book) 101 /\
    Forall (fun c => 0 < cx_quantity c) cs /\
    (forall id, book_remaining b' id = book_remaining call_book id - bought id cs - sold id cs) /\
    volume (demand_at b') (supply_at b') 101 = 0.
Proof.
  apply (uncross_executes_auction call_book 101); [apply call_book_ok | vm_compute; discriminate].
Defined.

Lemma announced_volume_trades_witness :
  exists b' cs, uncross 101 call_book = (b', Ok cs) /\ crossed_quantity cs = 9.
Proof.
  apply (announced_volume_trades call_book 100);
    [apply call_book_ok | vm_compute; discriminate | vm_compute; reflexivity].
Defined.

Lemma volume_le_demand b p :
  book_ok b -> volume (demand_at b) (supply_at b) p <= sum_total (entries (bk_bids b)).
Proof.
  intros Hb. unfold volume. etrans; [apply Z.le_min_l |].
  pose proof (sum_total_filter_le (fun pl => p <= pl.1) (fun _ => True) (entries (bk_bids b))
    (levels_nonneg b Buy Hb) (fun _ _ _ => I)) as H.
  by rewrite (filter_all (fun _ => True)) in H by (by apply Forall_true).
Qed.

Lemma auction_announced_iff_crossed_witness :
  auction_price demo_book 100 = None <-> uncrossed demo_book.
Proof.
  apply auction_announced_iff_crossed; [apply demo_book_ok |].
  intros p. etrans; [apply volume_le_demand, demo_book_ok | vm_compute; discriminate].
Defined.
