(* ===== verification/BookEffects.v ===== *)
(** * What a book does to the quantities resting in it

    The book seen by its client: the unfilled quantity of each order on each
    side, and how [execute], [uncross], [rest] and [cancel] change it
    whenever they return. *)

From S2P Require Import Prelude Ordered MarketTypes MarketEvents Book BookFacts.
From S2P Require Import BookMatch BookTheorems Auction AuctionPrice.
From S2P Require Import Uncross.

(** Unfilled quantity of an order on one side, zero when it does not rest
    there. *)
Definition side_remaining (b : Book) (s : Side) (id : Z) : Z :=
  match bk_orders b !! id with
  | Some o => if bool_decide (bo_side o = s) then bo_remaining o else 0
  | None => 0
  end.

Lemma side_remaining_queue b s id :
  book_ok b -> side_remaining b s id = maker_remaining id (book_orders b s).
Proof. intros Hb. by rewrite maker_remaining_side. Qed.

Lemma side_remaining_nonneg b s id : book_ok b -> 0 <= side_remaining b s id <= int_max I64.
Proof.
  intros Hb. unfold side_remaining. destruct (bk_orders b !! id) as [o|] eqn:Ho; [| done].
  apply (bk_order_ok b Hb) in Ho as []. case_bool_decide; [lia | done].
Qed.

Lemma side_remaining_order b id o :
  bk_orders b !! id = Some o -> side_remaining b (bo_side o) id = bo_remaining o.
Proof. intros Ho. unfold side_remaining. by rewrite Ho, bool_decide_true. Qed.

Lemma side_remaining_away b id o :
  bk_orders b !! id = Some o -> side_remaining b (opposite (bo_side o)) id = 0.
Proof. intros Ho. unfold side_remaining. rewrite Ho, bool_decide_false; [done |]. by destruct (bo_side o). Qed.

Lemma side_remaining_none b s id : bk_orders b !! id = None -> side_remaining b s id = 0.
Proof. intros Ho. unfold side_remaining. by rewrite Ho. Qed.

(** An order rests exactly when some quantity of it does. *)
Lemma side_remaining_pos b s id :
  book_ok b -> 0 < side_remaining b s id <->
  exists o, bk_orders b !! id = Some o /\ bo_side o = s /\ bo_remaining o = side_remaining b s id.
Proof.
  intros Hb. unfold side_remaining. destruct (bk_orders b !! id) as [o|] eqn:Ho; [| naive_solver lia].
  pose proof (bk_order_ok b Hb _ _ Ho) as [_ Hr _ _ _ _].
  case_bool_decide; split; intros Hx; try lia; naive_solver.
Qed.

Lemma side_remaining_contains b id :
  book_ok b -> book_contains b id = true <-> exists s, 0 < side_remaining b s id.
Proof.
  intros Hb. unfold book_contains. rewrite bool_decide_eq_true. split.
  - intros [o Ho]. exists (bo_side o). rewrite (side_remaining_order b id o Ho).
    apply (bk_order_ok b Hb) in Ho as []. lia.
  - intros [s (o & -> & _)%side_remaining_pos]; [by eexists | done].
Qed.

Lemma side_remaining_orders b b' :
  bk_orders b' = bk_orders b -> forall s id, side_remaining b' s id = side_remaining b s id.
Proof. intros He s id. unfold side_remaining. by rewrite He. Qed.

(** ** Execution *)

Lemma match_queue_prices fuel taker limit remaining next q m :
  m ∈ out_matches (match_queue fuel taker limit remaining next q) ->
  exists o, o ∈ q /\ bo_price o = mt_price m.
Proof.
  revert remaining next q. induction fuel as [|fuel IH]; intros remaining next q; [by intros ?%elem_of_nil |].
  destruct q as [|o q]; [by intros ?%elem_of_nil |]. cbn [match_queue].
  destruct (_ && _); [| by intros ?%elem_of_nil].
  pose proof (after_fill_elem (opposite taker) o q (Z.min remaining (bo_visible o)) next) as Hel.
  destruct (after_fill _ _ _ _ _) as [q1 n1]. cbn [out_matches]. simpl in Hel.
  intros [->|Hm]%elem_of_cons; [exists o; split; [left | done] |].
  apply IH in Hm as (x & Hx & Hp). apply Hel in Hx as [Hx|[Hpo _]].
  - exists x. split; [by right | done].
  - exists o. split; [left | congruence].
Qed.

Lemma maker_filled_nonneg id ms :
  Forall (fun m => 0 < mt_quantity m) ms -> 0 <= maker_filled id ms.
Proof.
  unfold maker_filled. induction 1 as [|m ms Hm _ IH]; [done |].
  rewrite fmap_cons, sumZ_cons. destruct (_ =? _); lia.
Qed.

Lemma execute_effect b taker limit quantity b' ms rem :
  book_ok b -> is_i64 quantity -> execute taker limit quantity b = (b', Ok (ms, rem)) ->
  book_ok b' /\ 0 <= rem /\ sumZ (mt_quantity <$> ms) + rem = quantity /\
  Forall (fun m => 0 < mt_quantity m /\ 0 < mt_price m /\ is_i64 (mt_price m)) ms /\
  (forall id, side_remaining b' (opposite taker) id =
     side_remaining b (opposite taker) id - maker_filled id ms) /\
  (forall id, side_remaining b' taker id = side_remaining b taker id).
Proof.
  intros Hb Hi Hrun.
  destruct (execute_Ok taker limit quantity b b' ms rem Hb Hi Hrun) as (Hq & -> & -> & Hb' & Hqo & Hto & _).
  rewrite (opposite_involutive taker) in Hto.
  pose proof (book_queue_ok b (opposite taker) Hb) as Hqok.
  pose proof (match_queue_spec taker limit (Z.to_nat quantity) quantity (bk_next_priority b)
    (book_orders b (opposite taker)) ltac:(lia) ltac:(lia) Hqok) as [Hr Htr _ _ Hl _ _ _].
  unfold traded in Htr. split_and!; [done | lia | lia | | |].
  - apply Forall_forall. intros m Hm. rewrite Forall_forall in Hl. split; [by apply Hl |].
    apply match_queue_prices in Hm as (o & Ho & <-).
    apply (iq_elem _ _ _ (book_orders_queue b Hb _)) in Ho as [Ho _].
    apply (bk_order_ok b Hb) in Ho as [_ _ _ Hp _ _]. ranges. lia.
  - intros id. rewrite !side_remaining_queue, Hqo by done.
    pose proof (match_queue_makers taker limit (Z.to_nat quantity) quantity (bk_next_priority b)
      _ id Hqok) as Hm. simpl in Hm. lia.
  - intros id. by rewrite !side_remaining_queue, Hto.
Qed.

(** An execution the aggregate test allows leaves nothing. *)
Lemma execute_full b taker limit quantity b' ms rem :
  book_ok b -> is_i64 quantity -> execute taker limit quantity b = (b', Ok (ms, rem)) ->
  quantity <= executable b taker limit -> rem = 0.
Proof.
  intros Hb Hi Hrun Hq.
  destruct (execute_Ok taker limit quantity b b' ms rem Hb Hi Hrun) as (Hpos & -> & -> & _).
  rewrite executable_liquidity in Hq by done.
  pose proof (match_queue_spec taker limit (Z.to_nat quantity) quantity (bk_next_priority b)
    (book_orders b (opposite taker)) ltac:(lia) ltac:(lia) (book_queue_ok b (opposite taker) Hb))
    as [Hr _ _ _ _ _ _ _]. lia.
Qed.

(** Every maker of an execution rested on the other side. *)
Lemma matched_resting b taker limit quantity b' ms rem m :
  book_ok b -> is_i64 quantity -> execute taker limit quantity b = (b', Ok (ms, rem)) -> m ∈ ms ->
  0 < side_remaining b (opposite taker) (mt_maker m).
Proof.
  intros Hb Hi Hrun Hm. destruct (execute_effect _ _ _ _ _ _ _ Hb Hi Hrun) as (Hb' & _ & _ & Hall & Hmk & _).
  specialize (Hmk (mt_maker m)). pose proof (side_remaining_nonneg b' (opposite taker) (mt_maker m) Hb').
  enough (0 < maker_filled (mt_maker m) ms) by lia. unfold maker_filled.
  clear -Hall Hm. induction Hall as [|x ms [Hx _] Hall IH]; [by apply elem_of_nil in Hm |].
  assert (Hnn : 0 <= maker_filled (mt_maker m) ms).
  { apply maker_filled_nonneg. eapply Forall_impl; [exact Hall |]. naive_solver. }
  unfold maker_filled in Hnn.
  rewrite fmap_cons, sumZ_cons. apply elem_of_cons in Hm as [->|Hm]; [rewrite Z.eqb_refl; lia |].
  specialize (IH Hm). destruct (_ =? _); lia.
Qed.

(** ** Uncrossing *)

Lemma uncross_effect b price b' cs :
  book_ok b -> uncross price b = (b', Ok cs) ->
  book_ok b' /\ Forall (fun c => 0 < cx_quantity c) cs /\
  (forall id, side_remaining b' Buy id = side_remaining b Buy id - bought id cs) /\
  (forall id, side_remaining b' Sell id = side_remaining b Sell id - sold id cs).
Proof.
  intros Hb Hrun. destruct (uncross_Ok b price b' cs Hb Hrun) as [Hb' [_ _ _ Hp Hbo Hso]].
  simpl in *. split_and!; try done; intros id; rewrite !side_remaining_queue by done;
    [specialize (Hbo id) | specialize (Hso id)]; lia.
Qed.

(** The announced price is the price of a level. *)
Lemma auction_price_range b reference p v :
  book_ok b -> auction_price b reference = Some (p, v) -> 0 < p <= int_max I64.
Proof.
  intros Hb Href. rewrite auction_price_fold in Href.
  pose proof (fold_is_best reference (demand_at b) (supply_at b) (auction_prices b)
    (sort_dedup_sorted _)) as Hbest.
  destruct (foldl _ None (auction_prices b)) as [[[c w] i]|]; [| done]. simpl in Href, Hbest.
  destruct Hbest as (Hc & _). apply bind_Some in Href as (? & _ & [= <- _]).
  unfold auction_prices in Hc. rewrite elem_of_sort_dedup, elem_of_app, !elem_of_keys in Hc.
  destruct Hc as [[lv Hlv]|[lv Hlv]]; [by apply (level_price b Buy c lv) | by apply (level_price b Sell c lv)].
Qed.

(** Every order of a cross traded lots it had on its side. *)
Lemma crossed_resting b price b' cs c :
  book_ok b -> uncross price b = (b', Ok cs) -> c ∈ cs ->
  0 < side_remaining b Buy (cx_buy c) /\ 0 < side_remaining b Sell (cx_sell c).
Proof.
  intros Hb Hrun Hc. destruct (uncross_effect b price b' cs Hb Hrun) as (Hb' & Hp & Hbu & Hse).
  assert (Hpos : forall f : Cross -> Z, 0 < sumZ ((fun x => if f x =? f c then cx_quantity x else 0) <$> cs)).
  { intros f. clear -Hp Hc. induction Hp as [|x cs Hx Hp IH]; [by apply elem_of_nil in Hc |].
    rewrite fmap_cons, sumZ_cons.
    assert (0 <= sumZ ((fun x => if f x =? f c then cx_quantity x else 0) <$> cs)).
    { clear -Hp. induction Hp as [|y l Hy _ IH]; [done |]. rewrite fmap_cons, sumZ_cons.
      destruct (_ =? _); lia. }
    apply elem_of_cons in Hc as [->|Hc]; [rewrite Z.eqb_refl; lia |].
    specialize (IH Hc). destruct (_ =? _); lia. }
  pose proof (Hpos cx_buy). pose proof (Hpos cx_sell). specialize (Hbu (cx_buy c)).
  specialize (Hse (cx_sell c)). unfold bought, sold in *.
  pose proof (side_remaining_nonneg b' Buy (cx_buy c) Hb').
  pose proof (side_remaining_nonneg b' Sell (cx_sell c) Hb'). lia.
Qed.

(** An order rests on one side only. *)
Lemma side_remaining_one b id : 0 < side_remaining b Buy id -> side_remaining b Sell id = 0.
Proof.
  unfold side_remaining. destruct (bk_orders b !! id) as [o|]; [| done].
  destruct (bo_side o); simpl; [done | lia].
Qed.

(** ** Resting and canceling *)

Lemma book_insert_fits b o b' u :
  book_ok b -> book_insert o b = (b', Ok u) ->
  level_sum bo_remaining (bo_side o) (bo_price o) (bk_orders b) + bo_remaining o <= int_max I64.
Proof.
  intros Hb Hrun. pose proof (book_view b (bo_side o) (bo_price o) Hb) as [_ _ Ht].
  unfold book_insert in Hrun. run_inv. chk. simpl in *. lia.
Qed.

Lemma rest_effect b id s price quantity display b' u :
  book_ok b -> is_i64 quantity -> is_i64 price -> rest id s price quantity display b = (b', Ok u) ->
  book_ok b' /\ bk_orders b !! id = None /\ 0 < quantity /\
  side_remaining b' s id = quantity /\ side_remaining b' (opposite s) id = 0 /\
  (forall s' id', id' <> id -> side_remaining b' s' id' = side_remaining b s' id').
Proof.
  intros Hb Hi Hp Hrun.
  assert (Hv : valid_rest b id s price quantity display).
  { pose proof (bk_sequence b Hb). unfold rest in Hrun. run_inv.
    match goal with H : take_priority _ = _ |- _ => unfold take_priority in H; run_inv end.
    match goal with H : book_contains _ _ = false |- _ =>
      apply bool_decide_eq_false, eq_None_not_Some in H; simpl in H end.
    match goal with H : book_insert _ _ = _ |- _ => apply book_insert_fits in H end.
    2: { apply book_ok_next; [done |]. chk. simpl in *. lia. }
    chk. guards. unfold valid_rest. simpl in *. ranges. split_and!; try lia; try done.
    intros peak ->. guards. lia. }
  destruct (rest_run b id s price quantity display Hb Hv) as (b1 & Hrun1 & Hb1 & Ho & _).
  rewrite Hrun1 in Hrun. injection Hrun as <- _.
  destruct Hv as (Hq & _ & _ & Hid & _). split_and!; try done; try lia.
  - unfold side_remaining. by rewrite Ho, lookup_insert_eq, bool_decide_true.
  - unfold side_remaining. rewrite Ho, lookup_insert_eq, bool_decide_false; [done |]. by destruct s.
  - intros s' id' Hne. unfold side_remaining. by rewrite Ho, lookup_insert_ne.
Qed.

Lemma cancel_effect b s id :
  book_ok b -> 0 < side_remaining b s id ->
  exists b' o, cancel id b = (b', Some o) /\ bo_remaining o = side_remaining b s id /\ book_ok b' /\
    (forall s', side_remaining b' s' id = 0) /\
    (forall s' id', id' <> id -> side_remaining b' s' id' = side_remaining b s' id').
Proof.
  intros Hb (o & Ho & Hs & Hr)%side_remaining_pos; [| done].
  pose proof (ok_id _ _ _ (bk_order_ok b Hb _ _ Ho)) as Hid.
  exists (removed o b), o. split_and!; [by apply cancel_run | done | by eapply removed_ok | |].
  - intros s'. apply side_remaining_none. rewrite orders_removed, Hid. apply lookup_delete_eq.
  - intros s' id' Hne. unfold side_remaining. rewrite orders_removed, Hid. by rewrite lookup_delete_ne.
Qed.
