(* ===== verification/Calendar.v ===== *)
(** * bunting-engine: the trading calendar

    Models [packages/bunting-engine/src/calendar.rs]. *)

From S2P Require Import Prelude Ordered MarketTypes MarketEvents.

(** ** Data *)

Definition MAX_CALENDAR_DAYS : Z := 3660.
Definition BOUNDARIES_PER_DAY : Z := 4.

Record VenueSession : Type := mkVenueSession {
  vs_venue_id : Z;
  vs_pre_open_ns : Z;
  vs_open_ns : Z;
  vs_closing_call_ns : Z;
  vs_close_ns : Z
}.

Record Calendar : Type := mkCalendar {
  cal_day_ns : Z;
  cal_days : Z;
  cal_holidays : gset Z;
  cal_sessions : list VenueSession
}.

Record Boundary : Type := mkBoundary {
  bd_at : Z;
  bd_phase : SessionPhase.SessionPhase;
  bd_day : Z
}.

(** ** Operations *)

(** [slice::is_sorted_by_key] *)
Fixpoint is_sorted (l : list Z) : bool :=
  match l with
  | [] => true
  | x :: l' => match l' with [] => true | y :: _ => (x <=? y) && is_sorted l' end
  end.

(** [Calendar::is_valid] *)
Definition calendar_is_valid (c : Calendar) (venues : gset Z) : bool :=
  let covered : gset Z := list_to_set (vs_venue_id <$> cal_sessions c) in
  (0 <? cal_day_ns c)
  && ((1 <=? cal_days c) && (cal_days c <=? MAX_CALENDAR_DAYS))
  && bool_decide (is_Some (checked_mul U64 (cal_day_ns c) (cal_days c)))
  && bool_decide (set_Forall (fun day => day < cal_days c) (cal_holidays c))
  && (size covered =? length (cal_sessions c))%nat
  && is_sorted (vs_venue_id <$> cal_sessions c)
  && bool_decide (covered = venues)
  && forallb (fun s => (vs_pre_open_ns s <=? vs_open_ns s)
                       && (vs_open_ns s <=? vs_closing_call_ns s)
                       && (vs_closing_call_ns s <=? vs_close_ns s)
                       && (vs_close_ns s <=? cal_day_ns c)) (cal_sessions c).

(** [Calendar::session] *)
Definition session (c : Calendar) (venue : Z) : option VenueSession :=
  index ← binary_search_by_key vs_venue_id (cal_sessions c) venue;
  cal_sessions c !! index.

(** The trading (non-holiday) days of [0..days]. *)
Definition trading_days (c : Calendar) : list Z :=
  filter (fun day => day ∉ cal_holidays c) (seqZ 0 (cal_days c)).

(** [Calendar::trading_day]; [usize] is 64 bits wide. *)
Definition trading_day (c : Calendar) (index : Z) : option Z :=
  index ← checked Usize index;
  trading_days c !! Z.to_nat index.

(** [Calendar::boundary] *)
Definition boundary (c : Calendar) (venue step : Z) : option Boundary :=
  s ← session c venue;
  day ← trading_day c (step / BOUNDARIES_PER_DAY);
  let '(offset, phase) :=
    if step mod BOUNDARIES_PER_DAY =? 0 then (vs_pre_open_ns s, SessionPhase.PreOpen)
    else if step mod BOUNDARIES_PER_DAY =? 1 then (vs_open_ns s, SessionPhase.Continuous)
    else if step mod BOUNDARIES_PER_DAY =? 2 then (vs_closing_call_ns s, SessionPhase.ClosingCall)
    else (vs_close_ns s, SessionPhase.Closed) in
  start ← checked_mul U64 (cal_day_ns c) day;
  at_ ← checked_add U64 start offset;
  Some (mkBoundary at_ phase day).

(** [Calendar::phase_after] *)
Definition phase_after (steps : Z) : SessionPhase.SessionPhase :=
  if steps =? 0 then SessionPhase.Closed
  else if (steps - 1) mod BOUNDARIES_PER_DAY =? 0 then SessionPhase.PreOpen
  else if (steps - 1) mod BOUNDARIES_PER_DAY =? 1 then SessionPhase.Continuous
  else if (steps - 1) mod BOUNDARIES_PER_DAY =? 2 then SessionPhase.ClosingCall
  else SessionPhase.Closed.

(** ** Valid calendars *)

Record session_ok (day_ns : Z) (s : VenueSession) : Prop := {
  so_open : vs_pre_open_ns s <= vs_open_ns s;
  so_call : vs_open_ns s <= vs_closing_call_ns s;
  so_close : vs_closing_call_ns s <= vs_close_ns s;
  so_day : vs_close_ns s <= day_ns
}.

Record calendar_ok (c : Calendar) (venues : gset Z) : Prop := {
  ca_day : 0 < cal_day_ns c;
  ca_days : 1 <= cal_days c <= MAX_CALENDAR_DAYS;
  ca_fits : cal_day_ns c * cal_days c <= int_max U64;
  ca_keyed : strictly_keyed vs_venue_id (cal_sessions c);
  ca_covers : forall v, v ∈ venues <-> v ∈ vs_venue_id <$> cal_sessions c;
  ca_sessions : Forall (session_ok (cal_day_ns c)) (cal_sessions c)
}.

Lemma is_sorted_le l : is_sorted l = true -> StronglySorted Z.le l.
Proof.
  intros H. apply Sorted_StronglySorted; [intros x y z; lia |].
  induction l as [|x [|y l] IH]; [constructor | repeat constructor |].
  cbn [is_sorted] in H. apply andb_true_iff in H as [Hxy H]. apply Z.leb_le in Hxy.
  constructor; [by apply IH | by constructor].
Qed.

Lemma sorted_distinct_strict l : StronglySorted Z.le l -> NoDup l -> StronglySorted Z.lt l.
Proof.
  induction 1 as [|x l Hs IH Hall]; intros Hnd; [constructor |].
  apply NoDup_cons in Hnd as [Hx Hnd]. constructor; [auto |]. rewrite Forall_forall in *.
  intros y Hy. specialize (Hall y Hy). destruct (decide (x = y)) as [->|]; [done | lia].
Qed.

(** A list whose set has as many elements has no duplicates. *)
Lemma size_list_to_set_NoDup (l : list Z) :
  size (list_to_set l : gset Z) = length l -> NoDup l.
Proof.
  intros H. assert (NoDup (elements (list_to_set l : gset Z))) as Hnd by apply NoDup_elements.
  assert (elements (list_to_set l : gset Z) ⊆+ l) as Hsub.
  { apply NoDup_submseteq; [done |]. intros x. by rewrite elem_of_elements, elem_of_list_to_set. }
  assert (elements (list_to_set l : gset Z) ≡ₚ l) as Hp.
  { apply submseteq_length_Permutation; [done |]. unfold size, set_size in H. simpl in H. lia. }
  by rewrite <- Hp.
Qed.

Lemma calendar_is_valid_ok c venues : calendar_is_valid c venues = true -> calendar_ok c venues.
Proof.
  unfold calendar_is_valid. rewrite !andb_true_iff.
  intros (((((((Hd & [Hd1 Hd2]) & Hf) & _) & Hsz) & Hso) & Hcov) & Hall).
  apply bool_decide_eq_true in Hf as [m Hm], Hcov. apply Nat.eqb_eq in Hsz. guards.
  unfold checked_mul in Hm. apply checked_Some in Hm as [_ Hm].
  split; try done; try lia.
  - unfold strictly_keyed. apply sorted_distinct_strict; [by apply is_sorted_le |].
    apply size_list_to_set_NoDup. by rewrite length_fmap.
  - intros v. by rewrite <- Hcov, elem_of_list_to_set.
  - apply Forall_forall. intros s Hs. rewrite forallb_forall in Hall.
    assert (In s (cal_sessions c)) as Hin by (by apply list_elem_of_In).
    specialize (Hall s Hin). guards. by split.
Qed.

(** [session] finds the unique session of a covered venue. *)
Lemma session_Some c venues v s :
  calendar_ok c venues ->
  session c v = Some s <-> s ∈ cal_sessions c /\ vs_venue_id s = v.
Proof.
  intros Hc. unfold session. split.
  - intros H. apply bind_Some in H as (i & Hi & Hs).
    apply binary_search_Some in Hi as (x & Hx & Hk); [| apply Hc]. rewrite Hs in Hx. simplify_eq.
    split; [by eapply list_elem_of_lookup_2 | done].
  - intros [Hin Hv]. apply list_elem_of_lookup in Hin as [i Hi].
    rewrite (proj2 (binary_search_Some vs_venue_id (cal_sessions c) v i (ca_keyed _ _ Hc))); [done |].
    eauto.
Qed.

Lemma trading_days_spec c d : d ∈ trading_days c <-> 0 <= d < cal_days c /\ d ∉ cal_holidays c.
Proof. unfold trading_days. rewrite list_elem_of_filter, elem_of_seqZ. naive_solver lia. Qed.

Lemma seqZ_sorted m n : StronglySorted Z.lt (seqZ m n).
Proof.
  unfold seqZ. generalize (Z.to_nat n) as k. intros k. generalize 0%nat as a. revert m.
  induction k as [|k IH]; intros m a; [constructor |]. simpl. constructor; [apply IH |].
  apply Forall_fmap, Forall_forall. intros x Hx%elem_of_seq. simpl. lia.
Qed.

Lemma trading_days_sorted c : StronglySorted Z.lt (trading_days c).
Proof.
  unfold trading_days. induction (seqZ_sorted 0 (cal_days c)) as [|x l Hs IH Hall]; [constructor |].
  rewrite filter_cons. case_decide; [| done]. constructor; [done |]. rewrite Forall_forall in *.
  intros y [_ Hy]%list_elem_of_filter. auto.
Qed.

(** Days in order: [<] on indices is [<] on days. *)
Lemma trading_day_lt c i j d e :
  trading_days c !! i = Some d -> trading_days c !! j = Some e -> (i < j)%nat -> d < e.
Proof.
  intros Hi Hj Hij. apply (strictly_keyed_lt (fun d => d) (trading_days c) i j d e); try done.
  unfold strictly_keyed. rewrite list_fmap_id. apply trading_days_sorted.
Qed.

(** ** Boundaries *)

(** Offset and phase of a boundary within its day. *)
Definition step_offset (s : VenueSession) (step : Z) : Z :=
  let k := step mod BOUNDARIES_PER_DAY in
  if k =? 0 then vs_pre_open_ns s else if k =? 1 then vs_open_ns s
  else if k =? 2 then vs_closing_call_ns s else vs_close_ns s.

(** Offsets are unsigned. *)
Definition calendar_typed (c : Calendar) : Prop :=
  Forall (fun s => 0 <= vs_pre_open_ns s) (cal_sessions c).

Section boundaries.
Context (c : Calendar) (venues : gset Z) (Hc : calendar_ok c venues) (Ht : calendar_typed c).

Lemma step_offset_bounds s step : s ∈ cal_sessions c -> 0 <= step_offset s step <= cal_day_ns c.
Proof.
  intros Hs. pose proof (ca_sessions _ _ Hc) as Hall. unfold calendar_typed in Ht.
  rewrite Forall_forall in Hall, Ht. specialize (Hall s Hs) as []. specialize (Ht s Hs).
  unfold step_offset. repeat case_match; lia.
Qed.

Lemma boundary_run v s step d :
  session c v = Some s -> 0 <= step <= int_max U64 ->
  trading_days c !! Z.to_nat (step / BOUNDARIES_PER_DAY) = Some d ->
  boundary c v step =
  Some (mkBoundary (cal_day_ns c * d + step_offset s step) (phase_after (step + 1)) d).
Proof.
  intros Hs Hstep Hd. apply (session_Some c venues) in Hs as Hin; [| done]. destruct Hin as [Hin _].
  pose proof (proj1 (trading_days_spec c d) (list_elem_of_lookup_2 _ _ _ Hd)) as [Hday _].
  pose proof (step_offset_bounds s step Hin) as Ho. pose proof (ca_day _ _ Hc). pose proof (ca_fits _ _ Hc).
  assert (Hfit : cal_day_ns c * d + cal_day_ns c <= int_max U64) by nia.
  assert (0 <= cal_day_ns c * d) by nia.
  unfold boundary, trading_day. rewrite Hs. simpl.
  rewrite checked_in by (unfold BOUNDARIES_PER_DAY, int_min, int_max in *;
    pose proof (Z.div_le_upper_bound step 4 step); pose proof (Z.div_pos step 4); lia).
  simpl. rewrite Hd. simpl.
  assert (Hat : forall offset, 0 <= offset <= cal_day_ns c ->
    checked_mul U64 (cal_day_ns c) d = Some (cal_day_ns c * d) /\
    checked_add U64 (cal_day_ns c * d) offset = Some (cal_day_ns c * d + offset)).
  { intros offset Hoff. split; apply checked_in; unfold int_min; lia. }
  unfold step_offset, phase_after in *. rewrite Z.add_simpl_r.
  destruct (Z.eqb_spec (step + 1) 0); [lia |].
  repeat case_match; destruct (Hat _ Ho) as [Hmul Hadd]; rewrite Hmul; simpl; by rewrite Hadd.
Qed.

Lemma boundary_Some v step bd :
  0 <= step <= int_max U64 -> boundary c v step = Some bd ->
  exists s d, session c v = Some s /\ s ∈ cal_sessions c /\
    trading_days c !! Z.to_nat (step / BOUNDARIES_PER_DAY) = Some d /\
    bd = mkBoundary (cal_day_ns c * d + step_offset s step) (phase_after (step + 1)) d.
Proof.
  intros Hstep H. destruct (session c v) as [s|] eqn:Hs; [| unfold boundary in H; by rewrite Hs in H].
  destruct (trading_days c !! Z.to_nat (step / BOUNDARIES_PER_DAY)) as [d|] eqn:Hd.
  - rewrite (boundary_run v s step d Hs Hstep Hd) in H. injection H as H.
    exists s, d. split_and!; try done. by apply (session_Some c venues) in Hs as [? _].
  - unfold boundary, trading_day in H. rewrite Hs in H. simpl in H.
    destruct (checked Usize _) as [i|] eqn:Hi; [| done]. apply checked_Some in Hi as [-> _].
    simpl in H. by rewrite Hd in H.
Qed.

End boundaries.

(** the calendar is total over its trading days. On a validated
    calendar and for a venue it covers, boundary number [step] exists
    exactly when the calendar has that many (four per non-holiday day), no
    arithmetic overflows, the boundary lies inside its day, the day is a
    trading day, and it starts exactly the phase that [phase_after] gives
    once one more boundary has been passed. *)
Theorem calendar_boundaries_total c venues v step :
  calendar_is_valid c venues = true -> calendar_typed c -> v ∈ venues ->
  0 <= step <= int_max U64 ->
  (is_Some (boundary c v step) <-> step < 4 * Z.of_nat (length (trading_days c))) /\
  forall bd, boundary c v step = Some bd ->
    bd_phase bd = phase_after (step + 1) /\ bd_day bd ∉ cal_holidays c /\
    0 <= bd_day bd < cal_days c /\
    cal_day_ns c * bd_day bd <= bd_at bd <= cal_day_ns c * (bd_day bd + 1) /\
    bd_at bd <= int_max U64.
Proof.
  intros Hc%calendar_is_valid_ok Ht Hv Hstep.
  apply (ca_covers _ _ Hc) in Hv as (s & Hvs & Hin)%list_elem_of_fmap.
  assert (Hs : session c v = Some s) by (by apply (session_Some c venues)).
  unfold BOUNDARIES_PER_DAY in *.
  assert (Hidx : step < 4 * Z.of_nat (length (trading_days c)) <->
    (Z.to_nat (step / 4) < length (trading_days c))%nat).
  { pose proof (Z.div_pos step 4). pose proof (Z.div_mod step 4). pose proof (Z.mod_pos_bound step 4). lia. }
  split.
  - rewrite Hidx, <- lookup_lt_is_Some. split.
    + intros [bd Hbd]. apply (boundary_Some c venues Hc Ht) in Hbd as (? & d & _ & _ & Hd & _); [| done].
      by exists d.
    + intros [d Hd]. rewrite (boundary_run c venues Hc Ht v s step d Hs Hstep Hd). done.
  - intros bd (s' & d & _ & Hin' & Hd & ->)%(boundary_Some c venues Hc Ht); [| done]. simpl.
    apply list_elem_of_lookup_2, trading_days_spec in Hd as [Hd Hh].
    pose proof (step_offset_bounds c venues Hc Ht s' step Hin').
    pose proof (ca_day _ _ Hc). pose proof (ca_fits _ _ Hc). split_and!; try done; nia.
Qed.

(** boundaries come in time order. On a validated calendar, a later
    boundary of a venue is never earlier in run time, across phases of one
    day, across days and across skipped holidays. *)
Theorem calendar_boundaries_ordered c venues v step step' bd bd' :
  calendar_is_valid c venues = true -> calendar_typed c ->
  0 <= step <= step' -> step' <= int_max U64 ->
  boundary c v step = Some bd -> boundary c v step' = Some bd' -> bd_at bd <= bd_at bd'.
Proof.
  intros Hc%calendar_is_valid_ok Ht Hle Hmax
    (s & d & Hs & Hin & Hd & ->)%(boundary_Some c venues Hc Ht)
    (s' & d' & Hs' & _ & Hd' & ->)%(boundary_Some c venues Hc Ht); [| lia..].
  rewrite Hs in Hs'. injection Hs' as <-. simpl. unfold BOUNDARIES_PER_DAY in *.
  pose proof (step_offset_bounds c venues Hc Ht s step Hin).
  pose proof (step_offset_bounds c venues Hc Ht s step' Hin).
  pose proof (Z.div_le_mono step step' 4 ltac:(lia) ltac:(lia)).
  pose proof (Z.div_pos step 4 ltac:(lia) ltac:(lia)).
  pose proof (ca_day _ _ Hc).
  destruct (decide (step / 4 = step' / 4)) as [Heq|Hne].
  - rewrite Heq in Hd. rewrite Hd in Hd'. injection Hd' as <-.
    assert (Hmod : step mod 4 <= step' mod 4).
    { pose proof (Z.div_mod step 4). pose proof (Z.div_mod step' 4). lia. }
    pose proof (Z.mod_pos_bound step 4). pose proof (Z.mod_pos_bound step' 4).
    pose proof (ca_sessions _ _ Hc) as Hall. rewrite Forall_forall in Hall.
    specialize (Hall s Hin) as []. unfold step_offset, BOUNDARIES_PER_DAY.
    repeat case_match; guards; lia.
  - assert (d < d') by (eapply (trading_day_lt c); [exact Hd | exact Hd' | lia]). nia.
Qed.

Definition demo_calendar : Calendar :=
  mkCalendar 100 3 {[ 1 ]} [mkVenueSession 1 10 20 80 90; mkVenueSession 7 0 0 100 100].
Definition demo_venues : gset Z := {[ 1; 7 ]}.

Lemma demo_calendar_typed : calendar_typed demo_calendar.
Proof. repeat constructor; simpl; lia. Qed.

Lemma calendar_boundaries_total_witness :
  (is_Some (boundary demo_calendar 7 5) <-> 5 < 4 * Z.of_nat (length (trading_days demo_calendar))) /\
  forall bd, boundary demo_calendar 7 5 = Some bd ->
    bd_phase bd = phase_after (5 + 1) /\ bd_day bd ∉ cal_holidays demo_calendar /\
    0 <= bd_day bd < cal_days demo_calendar /\
    cal_day_ns demo_calendar * bd_day bd <= bd_at bd <= cal_day_ns demo_calendar * (bd_day bd + 1) /\
    bd_at bd <= int_max U64.
Proof.
  apply (calendar_boundaries_total demo_calendar demo_venues);
    [vm_compute; reflexivity | apply demo_calendar_typed | | by unfold int_max].
  by apply (bool_decide_unpack _).
Defined.

Lemma calendar_boundaries_ordered_witness :
  bd_at (mkBoundary 90 SessionPhase.Closed 0) <= bd_at (mkBoundary 210 SessionPhase.PreOpen 2).
Proof.
  apply (calendar_boundaries_ordered demo_calendar demo_venues 1 3 4);
    [vm_compute; reflexivity | apply demo_calendar_typed | lia | by unfold int_max
    | vm_compute; reflexivity | vm_compute; reflexivity].
Defined.
