(* ===== verification/Latency.v ===== *)
(** * admission-sequencer: the latency model

    Models the virtual geography and the deterministic jitter streams of
    [packages/admission-sequencer/src/lib.rs]: [DelayEstimator],
    [LatencyMap] and [LatencyModel].  All times are [u64] microseconds. *)

From S2P Require Import Prelude Ordered MarketTypes.
From Stdlib Require String.

Definition MAX_CONFIGURED_DELAY_US : Z := 10000000.
Definition MAX_JITTER_STREAMS : Z := 65536.

Inductive PolicyError : Type :=
  | LinkLatencyExceeds
  | MapTooLarge
  | EmptyLocation
  | DuplicatePlacement
  | SelfLink
  | MissingLink.

Inductive AdmissionError : Type :=
  | QueueFull (limit : Z)
  | TooManyStreams (limit : Z)
  | InvalidPolicy (reason : PolicyError).

(** ** Measured delay *)

Module RttSource.
Inductive RttSource : Type := None_ | Kernel | Probe | Both.
End RttSource.

Record DelayEstimator : Type := mkDelayEstimator {
  de_kernel_min_us : option Z;
  de_probe_min_us : option Z;
  de_probe_samples : Z
}.

(** [DelayEstimator::new] *)
Definition DelayEstimator_new : DelayEstimator := mkDelayEstimator None None 0.

(** [self.min.map_or(value, |min| min.min(value))] *)
Definition min_sample (current : option Z) (value : Z) : Z :=
  match current with None => value | Some m => Z.min m value end.

(** [DelayEstimator::record_probe] *)
Definition record_probe (rtt_us : Z) (e : DelayEstimator) : DelayEstimator :=
  mkDelayEstimator (de_kernel_min_us e) (Some (min_sample (de_probe_min_us e) rtt_us))
    (saturating_add U64 (de_probe_samples e) 1).

(** [DelayEstimator::record_kernel_min] *)
Definition record_kernel_min (min_rtt_us : Z) (e : DelayEstimator) : DelayEstimator :=
  if min_rtt_us =? 0 then e
  else mkDelayEstimator (Some (min_sample (de_kernel_min_us e) min_rtt_us))
         (de_probe_min_us e) (de_probe_samples e).

(** [DelayEstimator::source] *)
Definition rtt_source (e : DelayEstimator) : RttSource.RttSource :=
  match de_kernel_min_us e, de_probe_min_us e with
  | None, None => RttSource.None_
  | Some _, None => RttSource.Kernel
  | None, Some _ => RttSource.Probe
  | Some _, Some _ => RttSource.Both
  end.

(** [DelayEstimator::min_rtt_us] *)
Definition min_rtt_us (e : DelayEstimator) : option Z :=
  match de_kernel_min_us e, de_probe_min_us e with
  | Some kernel, Some probe => Some (Z.min kernel probe)
  | Some kernel, None => Some kernel
  | None, probe => probe
  end.

(** [DelayEstimator::one_way_us] *)
Definition one_way_us (e : DelayEstimator) : option Z :=
  (fun rtt => rtt / 2) <$> min_rtt_us e.

(** ** Geography *)

Record PathLatency : Type := mkPathLatency {
  pl_latency_us : Z;
  pl_jitter_us : Z
}.

(** [PathLatency::default()] *)
Definition PathLatency_default : PathLatency := mkPathLatency 0 0.

Inductive Endpoint : Type :=
  | Participant (id : Z)
  | Venue (id : Z)
  | Hub.

#[export] Instance Endpoint_eq_dec : EqDecision Endpoint.
Proof. solve_decision. Defined.

#[export] Instance Endpoint_countable : Countable Endpoint.
Proof.
  refine (inj_countable'
    (fun e => match e with Participant i => inl i | Venue v => inr (Some v) | Hub => inr None end)
    (fun s : Z + option Z =>
       match s with inl i => Participant i | inr (Some v) => Venue v | inr None => Hub end) _).
  by intros [].
Defined.

Record ParticipantPlacement : Type := mkParticipantPlacement {
  pp_participant_id : Z;
  pp_location : string
}.

Record VenuePlacement : Type := mkVenuePlacement {
  vp_venue_id : Z;
  vp_location : string
}.

Record Link : Type := mkLink {
  ln_first : string;
  ln_second : string;
  ln_latency : PathLatency
}.

Record LatencyMap : Type := mkLatencyMap {
  lm_jitter_seed : Z;
  lm_default_location : string;
  lm_participants : list ParticipantPlacement;
  lm_venues : list VenuePlacement;
  lm_local : PathLatency;
  lm_links : list Link
}.

(** [fn ordered]; [str] compares by bytes, as [String.leb] does. *)
Definition ordered (first second : string) : string * string :=
  if String.leb first second then (first, second) else (second, first).

(** [fn link_key] *)
Definition link_key (link : Link) : string * string := ordered (ln_first link) (ln_second link).

(** [LatencyMap::link] *)
Definition map_link (m : LatencyMap) (first second : string) : option PathLatency :=
  let key := ordered first second in
  (fun found => ln_latency (snd found)) <$> list_find (fun link => link_key link = key) (lm_links m).

(** [LatencyMap::location] *)
Definition location (m : LatencyMap) (endpoint : Endpoint) : string :=
  let placed :=
    match endpoint with
    | Participant participant =>
        (fun found => pp_location (snd found)) <$>
        list_find (fun placement => pp_participant_id placement = participant) (lm_participants m)
    | Venue venue =>
        (fun found => vp_location (snd found)) <$>
        list_find (fun placement => vp_venue_id placement = venue) (lm_venues m)
    | Hub => None
    end in
  default (lm_default_location m) placed.

(** [LatencyMap::path] *)
Definition path (m : LatencyMap) (from to : Endpoint) : PathLatency :=
  let from := location m from in
  let to := location m to in
  if bool_decide (from = to) then lm_local m
  else default PathLatency_default (map_link m from to).

(** The closure [bounded] of [LatencyMap::validate]. *)
Definition bounded (p : PathLatency) : bool :=
  (pl_latency_us p <=? MAX_CONFIGURED_DELAY_US) && (pl_jitter_us p <=? MAX_CONFIGURED_DELAY_US).

(** Locations named by the map, and those in use by an endpoint. *)
Definition named_locations (m : LatencyMap) : list string :=
  (pp_location <$> lm_participants m) ++ (vp_location <$> lm_venues m)
  ++ (lm_links m ≫= fun link => [ln_first link; ln_second link]).
Definition used_locations (m : LatencyMap) : list string :=
  remove_dups (lm_default_location m :: (pp_location <$> lm_participants m)
               ++ (vp_location <$> lm_venues m)).

(** [for (index, first) in used ... for second in used.skip(index + 1)] *)
Fixpoint all_linked (m : LatencyMap) (used : list string) : bool :=
  match used with
  | [] => true
  | first :: used =>
      forallb (fun second => bool_decide (is_Some (map_link m first second))) used
      && all_linked m used
  end.

(** [LatencyMap::validate]; sorting and comparing neighbours detects
    duplicates. *)
Definition validate (m : LatencyMap) : result AdmissionError unit :=
  if negb (bounded (lm_local m)) || negb (forallb (fun link => bounded (ln_latency link)) (lm_links m))
  then Err (InvalidPolicy LinkLatencyExceeds)
  else if MAX_JITTER_STREAMS <?
       Z.of_nat (length (lm_participants m) + length (lm_venues m) + length (lm_links m))
  then Err (InvalidPolicy MapTooLarge)
  else if bool_decide (lm_default_location m = EmptyString)
       || existsb (fun l => bool_decide (l = EmptyString)) (named_locations m)
  then Err (InvalidPolicy EmptyLocation)
  else if negb (bool_decide (NoDup (pp_participant_id <$> lm_participants m)))
       || negb (bool_decide (NoDup (vp_venue_id <$> lm_venues m)))
       || negb (bool_decide (NoDup (link_key <$> lm_links m)))
  then Err (InvalidPolicy DuplicatePlacement)
  else if existsb (fun link => bool_decide (ln_first link = ln_second link)) (lm_links m)
  then Err (InvalidPolicy SelfLink)
  else if negb (all_linked m (used_locations m))
  then Err (InvalidPolicy MissingLink)
  else Ok tt.

(** ** Jitter *)

(** [fn splitmix64] *)
Definition splitmix64 (value : Z) : Z :=
  let z := wrapping_add U64 value 0x9e3779b97f4a7c15 in
  let z := wrapping_mul U64 (Z.lxor z (Z.shiftr z 30)) 0xbf58476d1ce4e5b9 in
  let z := wrapping_mul U64 (Z.lxor z (Z.shiftr z 27)) 0x94d049bb133111eb in
  Z.lxor z (Z.shiftr z 31).

(** [fn endpoint_seed] *)
Definition endpoint_seed (endpoint : Endpoint) : Z :=
  let fold tag value :=
    let low := Z.land value (int_max U64) in
    let high := Z.shiftr value 64 in
    splitmix64 (Z.lxor tag (splitmix64 (Z.lxor low (splitmix64 high)))) in
  match endpoint with
  | Participant participant => fold 1 participant
  | Venue venue => fold 2 venue
  | Hub => fold 3 0
  end.

Record LatencyModel : Type := mkLatencyModel {
  mo_map : LatencyMap;
  mo_streams : gmap (Endpoint * Endpoint) Z
}.

(** [LatencyModel::new] *)
Definition LatencyModel_new (m : LatencyMap) : result AdmissionError LatencyModel :=
  _ ← validate m;
  Ok (mkLatencyModel m ∅).

(** The draw number [position] of a directed stream. *)
Definition jitter_draw (seed : Z) (from to : Endpoint) (position : Z) : Z :=
  let stream :=
    splitmix64 (Z.lxor seed (splitmix64 (Z.lxor (endpoint_seed from)
                                                (splitmix64 (endpoint_seed to))))) in
  splitmix64 (Z.lxor stream (splitmix64 position)).

(** [LatencyModel::delay_with_position] *)
Definition delay_with_position (from to : Endpoint)
    : M LatencyModel AdmissionError (Z * option Z) :=
  mo ← gets id;
  let p := path (mo_map mo) from to in
  if pl_jitter_us p =? 0 then mret (pl_latency_us p, None)
  else
    refuse_if (negb (bool_decide (is_Some (mo_streams mo !! (from, to))))
               && (MAX_JITTER_STREAMS <=? Z.of_nat (size (mo_streams mo))))
      (TooManyStreams MAX_JITTER_STREAMS);;
    let current := default 0 (mo_streams mo !! (from, to)) in
    modify (fun mo => mkLatencyModel (mo_map mo)
      (<[(from, to) := wrapping_add U64 current 1]> (mo_streams mo)));;
    let draw := jitter_draw (lm_jitter_seed (mo_map mo)) from to current in
    mret (pl_latency_us p + draw mod (pl_jitter_us p + 1), Some current).

(** [LatencyModel::delay_us] *)
Definition delay_us (from to : Endpoint) : M LatencyModel AdmissionError Z :=
  '(delay, _) ← delay_with_position from to;
  mret delay.

(** Every input and output of one admission decision. *)
Record AdmissionRecord : Type := mkAdmissionRecord {
  ar_received_us : Z;
  ar_measured_one_way_us : option Z;
  ar_rtt_source : RttSource.RttSource;
  ar_destination : Endpoint;
  ar_path_latency_us : Z;
  ar_jitter_position : option Z;
  ar_release_us : Z;
  ar_arrival_sequence : Z
}.

(** [LatencyModel::decide] *)
Definition decide_admission (received_us : Z) (measured : DelayEstimator) (participant : Z)
    (destination : Endpoint) : M LatencyModel AdmissionError AdmissionRecord :=
  '(path, jitter_position) ← delay_with_position (Participant participant) destination;
  mret (mkAdmissionRecord received_us (one_way_us measured) (rtt_source measured) destination
          path jitter_position (saturating_add U64 received_us path) 0).

(** ** Validated maps *)

Lemma ordered_comm a b : ordered a b = ordered b a.
Proof.
  unfold ordered. destruct (String.leb a b) eqn:Hab, (String.leb b a) eqn:Hba; try done.
  - by rewrite (String.leb_antisym _ _ Hab Hba).
  - destruct (String.leb_total a b); congruence.
Qed.

Lemma map_link_comm m a b : map_link m a b = map_link m b a.
Proof. unfold map_link. by rewrite ordered_comm. Qed.

Lemma all_linked_spec m used a b :
  all_linked m used = true -> a ∈ used -> b ∈ used -> a <> b -> is_Some (map_link m a b).
Proof.
  induction used as [|x used IH]; intros H Ha Hb Hne; [by apply elem_of_nil in Ha |].
  simpl in H. apply andb_true_iff in H as [Hx H]. rewrite forallb_forall in Hx.
  assert (Hx' : forall y, y ∈ used -> is_Some (map_link m x y)).
  { intros y Hy%list_elem_of_In. by apply Hx, bool_decide_eq_true in Hy. }
  apply elem_of_cons in Ha as [->|Ha], Hb as [->|Hb]; [done | auto | | auto].
  rewrite map_link_comm. auto.
Qed.

Lemma location_used m e : location m e ∈ used_locations m.
Proof.
  unfold used_locations. rewrite elem_of_remove_dups, elem_of_cons, elem_of_app, !list_elem_of_fmap.
  unfold location. destruct e as [i|v|]; cbv zeta; [| | by left].
  - match goal with |- context [list_find ?P ?l] => destruct (list_find P l) as [[k pl]|] eqn:Hf end;
      simpl; [| by left].
    apply list_find_Some in Hf as (Hk & _). right. left. exists pl. split; [done |].
    by eapply list_elem_of_lookup_2.
  - match goal with |- context [list_find ?P ?l] => destruct (list_find P l) as [[k pl]|] eqn:Hf end;
      simpl; [| by left].
    apply list_find_Some in Hf as (Hk & _). right. right. exists pl. split; [done |].
    by eapply list_elem_of_lookup_2.
Qed.

Record map_ok (m : LatencyMap) : Prop := {
  mp_local : bounded (lm_local m) = true;
  mp_links : forall link, link ∈ lm_links m -> bounded (ln_latency link) = true;
  mp_linked : all_linked m (used_locations m) = true;
  mp_self : forall link, link ∈ lm_links m -> ln_first link <> ln_second link
}.

Lemma validate_Ok m : validate m = Ok tt -> map_ok m.
Proof.
  unfold validate. intros H.
  destruct (_ || _) eqn:H1; [done |]. destruct (_ <? _); [done |].
  destruct (_ || _) in H; [done |]. destruct (_ || _) in H; [done |].
  destruct (existsb _ _) eqn:H5 in H; [done |]. destruct (negb _) eqn:H6 in H; [done |]. guards.
  split; try done.
  - intros link Hl%list_elem_of_In. match goal with Hf : forallb _ _ = true |- _ =>
      rewrite forallb_forall in Hf; auto end.
  - intros link Hl%list_elem_of_In Heq.
    assert (existsb (fun link => bool_decide (ln_first link = ln_second link)) (lm_links m) = true)
      by (apply existsb_exists; exists link; by rewrite bool_decide_true).
    congruence.
Qed.

(** The map's endpoints are mutually reachable. *)
Lemma path_linked m from to :
  map_ok m ->
  path m from to = lm_local m /\ location m from = location m to \/
  location m from <> location m to /\
    exists link, link ∈ lm_links m /\ path m from to = ln_latency link /\
      link_key link = ordered (location m from) (location m to).
Proof.
  intros Hm. unfold path. case_bool_decide as Hloc; [by left |]. right. split; [done |].
  destruct (all_linked_spec m _ _ _ (mp_linked m Hm) (location_used m from) (location_used m to) Hloc)
    as [p Hp].
  rewrite Hp. unfold map_link in Hp.
  match type of Hp with context [list_find ?P ?l] => destruct (list_find P l) as [[k link]|] eqn:Hf end;
    [| done].
  apply list_find_Some in Hf as (Hk & Hkey & _). simpl in Hp. injection Hp as <-.
  exists link. split_and!; try done. by eapply list_elem_of_lookup_2.
Qed.

Lemma path_bounded m from to :
  map_ok m -> pl_latency_us (path m from to) <= MAX_CONFIGURED_DELAY_US /\
    pl_jitter_us (path m from to) <= MAX_CONFIGURED_DELAY_US.
Proof.
  intros Hm. assert (bounded (path m from to) = true) as Hb.
  { destruct (path_linked m from to Hm) as [[-> _]|(_ & link & Hin & -> & _)]; by apply Hm. }
  unfold bounded in Hb. guards. done.
Qed.

(** a validated geography is complete and symmetric. Every two
    endpoints (teams, venues, the hub, placed or not) either share a
    location, and see the local latency, or see the latency of a configured
    link between their two locations, never a silent zero default; the
    latency is the same in both directions and at most ten seconds. *)
Theorem validated_paths_complete m from to :
  validate m = Ok tt ->
  path m from to = path m to from /\
  pl_latency_us (path m from to) <= 10000000 /\ pl_jitter_us (path m from to) <= 10000000 /\
  (location m from = location m to /\ path m from to = lm_local m \/
   location m from <> location m to /\
     exists link, link ∈ lm_links m /\ path m from to = ln_latency link /\
       (ln_first link = location m from /\ ln_second link = location m to \/
        ln_first link = location m to /\ ln_second link = location m from)).
Proof.
  intros Hm%validate_Ok. destruct (path_bounded m from to Hm) as [Hl Hj].
  unfold MAX_CONFIGURED_DELAY_US in *. split_and!; [| done.. |].
  - unfold path. rewrite map_link_comm.
    rewrite (bool_decide_ext (location m from = location m to) (location m to = location m from)); done.
  - destruct (path_linked m from to Hm) as [[Hp Heq]|(Hne & link & Hin & Hp & Hkey)]; [by left |].
    right. split; [done |]. exists link. split_and!; try done.
    unfold link_key, ordered in Hkey.
    destruct (String.leb (ln_first link) (ln_second link)),
      (String.leb (location m from) (location m to)); injection Hkey as Hk1 Hk2; auto.
Qed.

(** Two sites with a 5 ms link; team 1 and venue 9 at the hub, team 2 away. *)
Definition demo_latency : LatencyMap :=
  mkLatencyMap 42 "hub" [mkParticipantPlacement 2 "london"] [mkVenuePlacement 9 "hub"]
    (mkPathLatency 10 0) [mkLink "london" "hub" (mkPathLatency 5000 100)].

Lemma validated_paths_complete_witness :
  path demo_latency (Participant 2) (Venue 9) = path demo_latency (Venue 9) (Participant 2) /\
  pl_latency_us (path demo_latency (Participant 2) (Venue 9)) <= 10000000 /\
  pl_jitter_us (path demo_latency (Participant 2) (Venue 9)) <= 10000000 /\
  (location demo_latency (Participant 2) = location demo_latency (Venue 9) /\
     path demo_latency (Participant 2) (Venue 9) = lm_local demo_latency \/
   location demo_latency (Participant 2) <> location demo_latency (Venue 9) /\
     exists link, link ∈ lm_links demo_latency /\
       path demo_latency (Participant 2) (Venue 9) = ln_latency link /\
       (ln_first link = location demo_latency (Participant 2) /\
          ln_second link = location demo_latency (Venue 9) \/
        ln_first link = location demo_latency (Venue 9) /\
          ln_second link = location demo_latency (Participant 2))).
Proof. apply validated_paths_complete. vm_compute. reflexivity. Defined.

(** ** Jitter streams *)

(** The delays a model hands out to a list of messages. *)
Fixpoint run_delays (pairs : list (Endpoint * Endpoint)) (mo : LatencyModel)
    : LatencyModel * list (result AdmissionError (Z * option Z)) :=
  match pairs with
  | [] => (mo, [])
  | (from, to) :: pairs =>
      let '(mo, r) := delay_with_position from to mo in
      let '(mo, rs) := run_delays pairs mo in
      (mo, r :: rs)
  end.

(** Delays of one directed pair, in isolation: number [n] of them. *)
Definition isolated_delay (m : LatencyMap) (from to : Endpoint) (n : Z) : Z * option Z :=
  let p := path m from to in
  if pl_jitter_us p =? 0 then (pl_latency_us p, None)
  else (pl_latency_us p + jitter_draw (lm_jitter_seed m) from to n mod (pl_jitter_us p + 1), Some n).

(** How often a directed pair occurs. *)
Definition pair_count (from to : Endpoint) (pairs : list (Endpoint * Endpoint)) : Z :=
  Z.of_nat (length (filter (fun p => p = (from, to)) pairs)).

(** Stream positions count the draws made. *)
Definition streams_count (m : LatencyMap) (pairs : list (Endpoint * Endpoint)) (mo : LatencyModel) : Prop :=
  mo_map mo = m /\
  forall from to, pl_jitter_us (path m from to) <> 0 ->
    default 0 (mo_streams mo !! (from, to)) = pair_count from to pairs.

Lemma streams_count_new m : streams_count m [] (mkLatencyModel m ∅).
Proof. split; [done |]. intros from to _. simpl. by rewrite lookup_empty. Qed.

Lemma delay_step m sent mo from to mo' d :
  streams_count m sent mo -> Z.of_nat (length sent) < int_max U64 ->
  delay_with_position from to mo = (mo', Ok d) ->
  d = isolated_delay m from to (pair_count from to sent) /\
  streams_count m (sent ++ [(from, to)]) mo'.
Proof.
  intros [Hmap Hc] Hlen H. unfold delay_with_position in H. rewrite bind_gets in H. cbn [id] in H.
  rewrite Hmap in H. unfold isolated_delay.
  assert (Hother : forall f t, (from, to) <> (f, t) ->
    pair_count f t (sent ++ [(from, to)]) = pair_count f t sent).
  { intros f t Hne. unfold pair_count. rewrite filter_app, length_app, filter_cons_False, filter_nil by done.
    simpl. lia. }
  assert (Hself : pair_count from to (sent ++ [(from, to)]) = pair_count from to sent + 1).
  { unfold pair_count. rewrite filter_app, length_app, filter_cons_True by done. simpl. lia. }
  assert (Hle : 0 <= pair_count from to sent <= Z.of_nat (length sent)).
  { unfold pair_count. pose proof (length_filter (fun p => p = (from, to)) sent). lia. }
  destruct (Z.eqb_spec (pl_jitter_us (path m from to)) 0) as [Hz|Hz].
  - injection H as <- <-. split; [done |]. split; [done |]. intros f t Hj.
    rewrite Hother by (intros [= -> ->]; done). auto.
  - run_inv. subst. rewrite (Hc from to Hz). split; [done |]. split; [done |].
    intros f t Hj. simpl. destruct (decide ((from, to) = (f, t))) as [[= -> ->]|Hne].
    + rewrite lookup_insert_eq, Hself. simpl. unfold wrapping_add, wrap.
      by rewrite Z.mod_small by lia.
    + rewrite lookup_insert_ne, Hother by done. auto.
Qed.

(** The delays of a whole traffic, each from its own pair's past only. *)
Fixpoint expected_delays (m : LatencyMap) (sent pairs : list (Endpoint * Endpoint))
    : list (result AdmissionError (Z * option Z)) :=
  match pairs with
  | [] => []
  | (from, to) :: pairs =>
      Ok (isolated_delay m from to (pair_count from to sent))
      :: expected_delays m (sent ++ [(from, to)]) pairs
  end.

Lemma run_delays_expected m sent pairs mo mo' rs :
  streams_count m sent mo -> Z.of_nat (length sent + length pairs) <= int_max U64 ->
  run_delays pairs mo = (mo', rs) -> Forall (fun r => is_ok r = true) rs ->
  rs = expected_delays m sent pairs.
Proof.
  revert sent mo mo' rs. induction pairs as [|[from to] pairs IH]; intros sent mo mo' rs Hs Hlen H Hok.
  { by injection H as <- <-. }
  simpl in H. destruct (delay_with_position from to mo) as [mo1 r] eqn:Hr.
  destruct (run_delays pairs mo1) as [mo2 rs'] eqn:Hrs. injection H as <- <-.
  apply Forall_cons in Hok as [Hr' Hok]. destruct r as [d|e]; [| done].
  destruct (delay_step m sent mo from to mo1 d Hs) as [-> Hs1]; [simpl in Hlen; lia | done |].
  simpl. f_equal. eapply IH; [exact Hs1 | | exact Hrs | done].
  rewrite length_app. simpl in *. lia.
Qed.

(** jitter streams are isolated and reproducible. In any traffic that
    the model accepts from the start of a run, the delay of each message is
    a fixed function of the map's seed, the directed pair and how many
    messages that same pair sent before: traffic of other teams, of other
    venues or in the other direction never shifts it. *)
Theorem jitter_streams_isolated m pairs mo' rs :
  Z.of_nat (length pairs) <= int_max U64 ->
  run_delays pairs (mkLatencyModel m ∅) = (mo', rs) -> Forall (fun r => is_ok r = true) rs ->
  forall i from to, pairs !! i = Some (from, to) ->
    rs !! i = Some (Ok (isolated_delay m from to (pair_count from to (take i pairs)))).
Proof.
  intros Hlen H Hok. rewrite (run_delays_expected m [] pairs _ _ _ (streams_count_new m) Hlen H Hok).
  clear H Hok. intros i from to Hi.
  assert (forall sent, expected_delays m sent pairs !! i =
    Some (Ok (isolated_delay m from to (pair_count from to (sent ++ take i pairs))))) as Hgen; [| apply (Hgen [])].
  clear Hlen. revert i Hi. induction pairs as [|[f t] pairs IH]; intros i Hi sent; [done |].
  destruct i as [|i]; simpl in *.
  - injection Hi as -> ->. by rewrite app_nil_r.
  - rewrite IH by done. by rewrite <- app_assoc.
Qed.

Definition demo_traffic : list (Endpoint * Endpoint) :=
  [(Participant 2, Venue 9); (Venue 9, Participant 2); (Participant 2, Venue 9)].

Lemma jitter_streams_isolated_witness :
  (run_delays demo_traffic (mkLatencyModel demo_latency ∅)).2 !! 2%nat =
  Some (Ok (isolated_delay demo_latency (Participant 2) (Venue 9) 1)).
Proof.
  apply (jitter_streams_isolated demo_latency demo_traffic
    (run_delays demo_traffic (mkLatencyModel demo_latency ∅)).1
    (run_delays demo_traffic (mkLatencyModel demo_latency ∅)).2) with (i := 2%nat);
    [vm_compute; discriminate | by destruct (run_delays _ _) | | reflexivity].
  vm_compute. repeat constructor.
Defined.
