(* ===== verification/Sequencer.v ===== *)
(** * admission-sequencer: the release queue

    Models [Sequencer] of [packages/admission-sequencer/src/lib.rs].  The
    [BinaryHeap<Reverse<(u64, u64)>>] is a priority queue: the model keeps
    its elements sorted by [(release, arrival)], so that [peek] is the head
    and [pop] removes it. *)

From S2P Require Import Prelude Ordered MarketTypes Latency.

(** ** Data *)

Record Sequencer (T : Type) : Type := mkSequencer {
  sq_capacity : Z;
  sq_next_arrival : Z;
  sq_floor_us : Z;
  sq_heap : list (Z * Z);
  sq_items : gmap Z (AdmissionRecord * T)
}.
Arguments mkSequencer {T}.
Arguments sq_capacity {T}.
Arguments sq_next_arrival {T}.
Arguments sq_floor_us {T}.
Arguments sq_heap {T}.
Arguments sq_items {T}.

(** Lexicographic order on [(release, arrival)]. *)
Definition key_lt (a b : Z * Z) : Prop := a.1 < b.1 \/ (a.1 = b.1 /\ a.2 < b.2).
Definition key_ltb (a b : Z * Z) : bool := (a.1 <? b.1) || ((a.1 =? b.1) && (a.2 <? b.2)).

(** [BinaryHeap::push] *)
Fixpoint heap_push (k : Z * Z) (heap : list (Z * Z)) : list (Z * Z) :=
  match heap with
  | [] => [k]
  | x :: heap' => if key_ltb x k then x :: heap_push k heap' else k :: heap
  end.

Section sequencer.
Context {T : Type}.

(** [Sequencer::new] *)
Definition Sequencer_new (capacity : Z) : Sequencer T :=
  mkSequencer (Z.max capacity 1) 0 0 [] ∅.

Definition with_release (r : AdmissionRecord) (release arrival : Z) : AdmissionRecord :=
  mkAdmissionRecord (ar_received_us r) (ar_measured_one_way_us r) (ar_rtt_source r)
    (ar_destination r) (ar_path_latency_us r) (ar_jitter_position r) release arrival.

(** [Sequencer::admit] *)
Definition admit_command (now_us : Z) (record : AdmissionRecord) (item : T)
    : M (Sequencer T) AdmissionError AdmissionRecord :=
  s ← gets id;
  refuse_if (sq_capacity s <=? Z.of_nat (size (sq_items s))) (QueueFull (sq_capacity s));;
  let floor_us := Z.max (sq_floor_us s) now_us in
  let record := with_release record (Z.max (ar_release_us record) floor_us) (sq_next_arrival s) in
  modify (fun s => mkSequencer (sq_capacity s) (wrapping_add U64 (sq_next_arrival s) 1) floor_us
    (heap_push (ar_release_us record, ar_arrival_sequence record) (sq_heap s))
    (<[ar_arrival_sequence record := (record, item)]> (sq_items s)));;
  mret record.

(** [Sequencer::pop_due] *)
Definition pop_due (now_us : Z) (s : Sequencer T) : Sequencer T * option (AdmissionRecord * T) :=
  let floor_us := Z.max (sq_floor_us s) now_us in
  let s := mkSequencer (sq_capacity s) (sq_next_arrival s) floor_us (sq_heap s) (sq_items s) in
  match sq_heap s with
  | [] => (s, None)
  | (release, arrival) :: heap =>
      if floor_us <? release then (s, None)
      else (mkSequencer (sq_capacity s) (sq_next_arrival s) floor_us heap
              (delete arrival (sq_items s)), sq_items s !! arrival)
  end.

(** [Sequencer::next_release_us] and [Sequencer::len] *)
Definition next_release_us (s : Sequencer T) : option Z := fst <$> head (sq_heap s).
Definition sequencer_len (s : Sequencer T) : nat := size (sq_items s).

(** ** Invariant *)

#[export] Instance key_lt_irreflexive : Irreflexive key_lt.
Proof. intros x [|[]]; lia. Qed.
#[export] Instance key_lt_transitive : Transitive key_lt.
Proof. intros x y z. unfold key_lt. lia. Qed.

Lemma key_ltb_lt a b : key_ltb a b = true <-> key_lt a b.
Proof.
  unfold key_ltb, key_lt. by rewrite orb_true_iff, andb_true_iff, !Z.ltb_lt, Z.eqb_eq.
Qed.

Lemma elem_of_heap_push k heap x : x ∈ heap_push k heap <-> x = k \/ x ∈ heap.
Proof.
  induction heap as [|y heap IH]; simpl; [set_solver |].
  destruct (key_ltb y k); rewrite !elem_of_cons, ?IH; naive_solver.
Qed.

Lemma heap_push_sorted k heap :
  StronglySorted key_lt heap -> (forall x, x ∈ heap -> x.2 <> k.2) ->
  StronglySorted key_lt (heap_push k heap).
Proof.
  induction 1 as [|y heap Hs IH Hall]; intros Hne; simpl; [repeat constructor |].
  rewrite Forall_forall in Hall. destruct (key_ltb y k) eqn:Hyk.
  - apply key_ltb_lt in Hyk. constructor; [apply IH; intros; apply Hne; by right |].
    apply Forall_forall. intros x [->|Hx]%elem_of_heap_push; auto.
  - assert (key_lt k y) as Hky.
    { apply not_true_iff_false in Hyk. rewrite key_ltb_lt in Hyk.
      specialize (Hne y (list_elem_of_here _ _)). unfold key_lt in *. lia. }
    constructor; [constructor; [done |]; by apply Forall_forall |].
    apply Forall_forall. intros x [->|Hx]%elem_of_cons; [done |]. trans y; auto.
Qed.

(** Heap and items describe the same commands; arrivals are below the next
    one; the queue is within its capacity. *)
Record sequencer_ok (s : Sequencer T) : Prop := {
  sk_sorted : StronglySorted key_lt (sq_heap s);
  sk_heap : forall r a, (r, a) ∈ sq_heap s <->
    exists record item, sq_items s !! a = Some (record, item) /\ ar_release_us record = r;
  sk_arrival : map_Forall (fun a e => ar_arrival_sequence e.1 = a /\ a < sq_next_arrival s) (sq_items s);
  sk_capacity : Z.of_nat (size (sq_items s)) <= sq_capacity s;
  sk_next : 0 <= sq_next_arrival s;
  sk_floor : 0 <= sq_floor_us s
}.

Lemma Sequencer_new_ok capacity : sequencer_ok (Sequencer_new capacity).
Proof.
  split; simpl; try done.
  - constructor.
  - intros r a. split; [by intros []%elem_of_nil |]. intros (? & ? & H & _).
    apply (lookup_empty_Some a) in H as [].
  - rewrite map_size_empty. lia.
Qed.

(** ** Steps *)

Lemma admit_command_Ok now record item s s' r :
  admit_command now record item s = (s', Ok r) ->
  sequencer_ok s -> sq_next_arrival s < int_max U64 ->
  sequencer_ok s' /\
  ar_arrival_sequence r = sq_next_arrival s /\ sq_next_arrival s' = sq_next_arrival s + 1 /\
  sq_floor_us s' = Z.max (sq_floor_us s) now /\ sq_capacity s' = sq_capacity s /\
  ar_release_us r = Z.max (ar_release_us record) (sq_floor_us s') /\
  sq_items s' = <[ar_arrival_sequence r := (r, item)]> (sq_items s) /\
  sq_items s !! ar_arrival_sequence r = None /\
  (forall k, k ∈ sq_heap s' <-> k = (ar_release_us r, ar_arrival_sequence r) \/ k ∈ sq_heap s).
Proof.
  unfold admit_command. intros H [Hs Hh Ha Hc Hn Hf] Hmax.
  rewrite bind_gets in H. cbn [id] in H.
  apply bind_Ok_inv in H as (s1 & [] & [-> Hcap]%refuse_if_Ok_inv & H).
  cbv zeta in H. rewrite bind_modify in H. injection H as <- <-. guards. simpl in *.
  assert (Hnone : sq_items s !! sq_next_arrival s = None).
  { destruct (sq_items s !! sq_next_arrival s) as [[r i]|] eqn:E; [| done].
    apply Ha in E as [_ E]. lia. }
  assert (Hnx : wrapping_add U64 (sq_next_arrival s) 1 = sq_next_arrival s + 1).
  { unfold wrapping_add, wrap. apply Z.mod_small. lia. }
  rewrite Hnx. split; [| split_and!; try done; intros k; apply elem_of_heap_push].
  split; simpl.
  - apply heap_push_sorted; [done |]. intros [r a] Hin Heq. simpl in Heq. subst a.
    apply Hh in Hin as (? & ? & E & _). congruence.
  - intros r a. rewrite elem_of_heap_push, Hh. split.
    + intros [[= -> ->]|(rec & it & E & <-)]; [eexists _, _; by rewrite lookup_insert_eq |].
      exists rec, it. rewrite lookup_insert_ne by congruence. done.
    + intros (rec & it & E & <-). apply lookup_insert_Some in E as [[<- [= <- <-]]|[_ E]]; [by left |].
      right. eauto.
  - apply map_Forall_insert_2; [simpl; split; [done | lia] |].
    eapply map_Forall_impl; [exact Ha |]. intros a e [? ?]. split; [done | lia].
  - rewrite map_size_insert_None by done. lia.
  - lia.
  - lia.
Qed.

Lemma pop_due_spec now s s' o :
  pop_due now s = (s', o) -> sequencer_ok s ->
  sequencer_ok s' /\ sq_next_arrival s' = sq_next_arrival s /\
  sq_floor_us s' = Z.max (sq_floor_us s) now /\ sq_capacity s' = sq_capacity s /\
  match o with
  | None => sq_items s' = sq_items s /\ sq_heap s' = sq_heap s /\
      forall k, k ∈ sq_heap s -> sq_floor_us s' < k.1
  | Some (r, item) =>
      sq_items s !! ar_arrival_sequence r = Some (r, item) /\
      sq_items s' = delete (ar_arrival_sequence r) (sq_items s) /\
      sq_heap s = (ar_release_us r, ar_arrival_sequence r) :: sq_heap s' /\
      ar_release_us r <= sq_floor_us s'
  end.
Proof.
  unfold pop_due. cbv zeta. simpl. intros H [Hs Hh Ha Hc Hn Hf].
  destruct (sq_heap s) as [|[release arrival] heap] eqn:Hheap.
  { injection H as <- <-. split_and!; try done; [split; simpl; rewrite ?Hheap; try done; lia |].
    by intros k []%elem_of_nil. }
  apply StronglySorted_inv in Hs as Hs'. destruct Hs' as [Hs' Hall]. rewrite Forall_forall in Hall.
  destruct (Z.ltb_spec (Z.max (sq_floor_us s) now) release) as [Hlt|Hge].
  { injection H as <- <-. split_and!; try done; [split; simpl; rewrite ?Hheap; try done; lia |].
    intros k [->|Hk]%elem_of_cons; [done |]. specialize (Hall k Hk). unfold key_lt in Hall. simpl in *. lia. }
  destruct (proj1 (Hh release arrival) (list_elem_of_here _ _)) as (rec & it & E & Hrel).
  injection H as <- <-. rewrite E. pose proof (Ha _ _ E) as [Harr _]. simpl in Harr. subst release arrival.
  split_and!; try done. split; simpl; try done.
  - intros r a. split.
    + intros Hin. destruct (proj1 (Hh r a) (list_elem_of_further _ _ _ Hin)) as (rec' & it' & E' & Hr').
      exists rec', it'. split; [| done]. rewrite lookup_delete_ne; [done |].
      intros <-. rewrite E in E'. injection E' as <- <-. subst r.
      destruct (irreflexivity key_lt _ (Hall _ Hin)).
    + intros (rec' & it' & [Hne E']%lookup_delete_Some & Hr').
      assert ((r, a) ∈ (ar_release_us rec, ar_arrival_sequence rec) :: heap) as Hin
        by (apply Hh; eauto).
      apply elem_of_cons in Hin as [[= -> ->]|]; done.
  - apply map_Forall_delete. done.
  - rewrite map_size_delete_Some by done. lia.
  - lia.
Qed.

(** ** Traces *)

(** A host's calls, each with its clock. *)
Inductive SeqCall : Type :=
  | CallAdmit (now : Z) (record : AdmissionRecord) (item : T)
  | CallPop (now : Z).

Definition call_now (c : SeqCall) : Z :=
  match c with CallAdmit now _ _ | CallPop now => now end.

(** Runs the calls; collects what was admitted and what was released, with
    the clock of the release. *)
Fixpoint run_calls (cs : list SeqCall) (s : Sequencer T)
    : Sequencer T * list (AdmissionRecord * T) * list (Z * (AdmissionRecord * T)) :=
  match cs with
  | [] => (s, [], [])
  | CallAdmit now record item :: cs =>
      match admit_command now record item s with
      | (s, Ok r) => let '(s, adm, rel) := run_calls cs s in (s, (r, item) :: adm, rel)
      | (s, Err _) => run_calls cs s
      end
  | CallPop now :: cs =>
      match pop_due now s with
      | (s, Some e) => let '(s, adm, rel) := run_calls cs s in (s, adm, (now, e) :: rel)
      | (s, None) => run_calls cs s
      end
  end.

Definition key_of (e : AdmissionRecord * T) : Z * Z :=
  (ar_release_us e.1, ar_arrival_sequence e.1).

Lemma admit_command_Err now record item s s' e :
  admit_command now record item s = (s', Err e) -> s' = s.
Proof.
  unfold admit_command. rewrite bind_gets. cbn [id]. unfold refuse_if.
  destruct (_ <=? _); [by intros [= <-] | done].
Qed.

(** All keys released from [s] on, in any future, are above [k]. *)
Definition above (k : Z * Z) (s : Sequencer T) : Prop :=
  k.1 <= sq_floor_us s /\ k.2 < sq_next_arrival s /\ forall x, x ∈ sq_heap s -> key_lt k x.

Lemma run_calls_above cs s s' adm rel k :
  run_calls cs s = (s', adm, rel) -> sequencer_ok s ->
  sq_next_arrival s + Z.of_nat (length cs) <= int_max U64 -> above k s ->
  Forall (fun e => key_lt k (key_of e.2)) rel.
Proof.
  revert s s' adm rel. induction cs as [|c cs IH]; intros s s' adm rel H Hs Hn Hk; simpl in *.
  { by injection H as <- <- <-. }
  destruct Hk as (Hk1 & Hk2 & Hk3). destruct c as [now record item|now].
  - destruct (admit_command now record item s) as [s1 [r|e]] eqn:Ha.
    + destruct (run_calls cs s1) as [[s2 adm2] rel2] eqn:Hr. injection H as <- <- <-.
      apply admit_command_Ok in Ha as (Hs1 & Hr1 & Hn1 & Hf1 & _ & Hrel & _ & _ & Hh); [| done | lia].
      eapply IH; [exact Hr | done | lia |].
      split_and!; [lia | lia |]. intros x [->|Hx]%Hh; [| auto].
      unfold key_lt. simpl. lia.
    + apply admit_command_Err in Ha as ->. eapply IH; [exact H | done | lia | done].
  - destruct (pop_due now s) as [s1 [[r item]|]] eqn:Hp;
      apply pop_due_spec in Hp as (Hs1 & Hn1 & Hf1 & _ & Ho); try done.
    + destruct (run_calls cs s1) as [[s2 adm2] rel2] eqn:Hr. injection H as <- <- <-.
      destruct Ho as (_ & _ & Hh & _). rewrite Hh in Hk3. constructor.
      * simpl. apply Hk3. left.
      * eapply IH; [exact Hr | done | lia |]. split_and!; [lia | lia |].
        intros x Hx. apply Hk3. by right.
    + destruct Ho as (_ & Hh & _). eapply IH; [exact H | done | lia |].
      split_and!; [lia | lia |]. by rewrite Hh.
Qed.

Lemma run_calls_sorted cs s s' adm rel :
  run_calls cs s = (s', adm, rel) -> sequencer_ok s ->
  sq_next_arrival s + Z.of_nat (length cs) <= int_max U64 ->
  StronglySorted (fun e e' => key_lt (key_of e.2) (key_of e'.2)) rel.
Proof.
  revert s s' adm rel. induction cs as [|c cs IH]; intros s s' adm rel H Hs Hn; simpl in *.
  { injection H as <- <- <-. constructor. }
  destruct c as [now record item|now].
  - destruct (admit_command now record item s) as [s1 [r|e]] eqn:Ha.
    + destruct (run_calls cs s1) as [[s2 adm2] rel2] eqn:Hr. injection H as <- <- <-.
      apply admit_command_Ok in Ha as (Hs1 & _ & Hn1 & _); [| done | lia].
      eapply IH; [exact Hr | done | lia].
    + apply admit_command_Err in Ha as ->. eapply IH; [exact H | done | lia].
  - destruct (pop_due now s) as [s1 [[r item]|]] eqn:Hp;
      apply pop_due_spec in Hp as (Hs1 & Hn1 & Hf1 & _ & Ho); try done.
    + destruct (run_calls cs s1) as [[s2 adm2] rel2] eqn:Hr. injection H as <- <- <-.
      destruct Ho as (E & _ & Hh & Hfl). constructor; [eapply IH; [exact Hr | done | lia] |].
      pose proof (sk_sorted s Hs) as Hsort. rewrite Hh in Hsort.
      apply StronglySorted_inv in Hsort as [_ Hall]. rewrite Forall_forall in Hall.
      assert (above (key_of (r, item)) s1) as Hab.
      { split_and!; [exact Hfl | | exact Hall]. simpl. apply (sk_arrival s Hs) in E as [_ E]. lia. }
      eapply run_calls_above; [exact Hr | done | lia | exact Hab].
    + destruct Ho as (_ & Hh & _). eapply IH; [exact H | done | lia].
Qed.

End sequencer.

Arguments SeqCall : clear implicits.
Arguments key_of {T} e : simpl never.

(** ** The properties *)

Lemma run_calls_due {T} (cs : list (SeqCall T)) s s' adm rel :
  run_calls cs s = (s', adm, rel) -> sequencer_ok s ->
  sq_next_arrival s + Z.of_nat (length cs) <= int_max U64 ->
  StronglySorted Z.le (sq_floor_us s :: (call_now <$> cs)) ->
  Forall (fun e => ar_release_us e.2.1 <= e.1) rel.
Proof.
  revert s s' adm rel. induction cs as [|c cs IH]; intros s s' adm rel H Hs Hn Hm; simpl in *.
  { by injection H as <- <- <-. }
  apply StronglySorted_inv in Hm as [Hm Hall].
  apply Forall_cons in Hall as [Hle _].
  assert (Hfl : forall s1 : Sequencer T, sq_floor_us s1 = Z.max (sq_floor_us s) (call_now c) ->
    StronglySorted Z.le (sq_floor_us s1 :: (call_now <$> cs))).
  { intros s1 ->. by rewrite Z.max_r. }
  destruct c as [now record item|now]; simpl in *.
  - destruct (admit_command now record item s) as [s1 [r|e]] eqn:Ha.
    + destruct (run_calls cs s1) as [[s2 adm2] rel2] eqn:Hr. injection H as <- <- <-.
      apply admit_command_Ok in Ha as (Hs1 & _ & Hn1 & Hf1 & _); [| done | lia].
      eapply IH; [exact Hr | done | lia | by apply Hfl].
    + apply admit_command_Err in Ha as ->. eapply IH; [exact H | done | lia |].
      apply StronglySorted_inv in Hm as [Hm Hall]. constructor; [done |].
      eapply Forall_impl; [exact Hall |]. simpl. intros x Hx. lia.
  - destruct (pop_due now s) as [s1 [[r item]|]] eqn:Hp;
      apply pop_due_spec in Hp as (Hs1 & Hn1 & Hf1 & _ & Ho); try done.
    + destruct (run_calls cs s1) as [[s2 adm2] rel2] eqn:Hr. injection H as <- <- <-.
      destruct Ho as (_ & _ & _ & Hdue). constructor; [simpl; lia |].
      eapply IH; [exact Hr | done | lia | by apply Hfl].
    + eapply IH; [exact H | done | lia | by apply Hfl].
Qed.

(** releases are totally ordered and never early. Whatever commands a
    host admits and however it interleaves admissions and polls, the
    commands are released in strictly increasing (release time, arrival)
    order over the whole run, even for a command admitted with a receive
    time in the past; and with a clock that never goes back, none is
    released before its release time. *)
Theorem sequencer_release_order {T} (cs : list (SeqCall T)) capacity s' adm rel :
  run_calls cs (Sequencer_new capacity) = (s', adm, rel) ->
  Z.of_nat (length cs) <= int_max U64 ->
  StronglySorted (fun e e' => key_lt (key_of e.2) (key_of e'.2)) rel /\
  (StronglySorted Z.le (0 :: (call_now <$> cs)) ->
   Forall (fun e => ar_release_us e.2.1 <= e.1) rel).
Proof.
  intros H Hn. split.
  - eapply run_calls_sorted; [exact H | apply Sequencer_new_ok | simpl; lia].
  - intros Hm. eapply run_calls_due; [exact H | apply Sequencer_new_ok | simpl; lia | done].
Qed.

Definition demo_record (received path : Z) : AdmissionRecord :=
  mkAdmissionRecord received None RttSource.None_ (Venue 9) path None (received + path) 0.

(** Team A is far (500), team B near (10); C arrives late with an old
    receive time. *)
Definition demo_calls : list (SeqCall string) :=
  [ CallAdmit 100 (demo_record 100 500) "A"; CallAdmit 120 (demo_record 110 10) "B";
    CallPop 150; CallAdmit 700 (demo_record 90 10) "C"; CallPop 700; CallPop 700; CallPop 700 ]%string.

Lemma sequencer_release_order_witness :
  let rel := snd (run_calls demo_calls (Sequencer_new 4)) in
  (fun e => snd (snd e)) <$> rel = ["B"; "A"; "C"]%string /\
  StronglySorted (fun e e' => key_lt (key_of e.2) (key_of e'.2)) rel /\
  (StronglySorted Z.le (0 :: (call_now <$> demo_calls)) ->
   Forall (fun e => ar_release_us e.2.1 <= e.1) rel).
Proof.
  intros rel. split; [vm_compute; reflexivity |].
  apply (sequencer_release_order demo_calls 4 (fst (fst (run_calls demo_calls (Sequencer_new 4))))
    (snd (fst (run_calls demo_calls (Sequencer_new 4))))); [vm_compute; reflexivity | vm_compute; discriminate].
Defined.

(** The commands still queued. *)
Definition queued {T} (s : Sequencer T) : list (AdmissionRecord * T) := (map_to_list (sq_items s)).*2.

Lemma run_calls_conserve {T} (cs : list (SeqCall T)) s s' adm rel :
  run_calls cs s = (s', adm, rel) -> sequencer_ok s ->
  sq_next_arrival s + Z.of_nat (length cs) <= int_max U64 ->
  queued s ++ adm ≡ₚ rel.*2 ++ queued s' /\ sequencer_ok s' /\ sq_capacity s' = sq_capacity s.
Proof.
  revert s s' adm rel. induction cs as [|c cs IH]; intros s s' adm rel H Hs Hn; simpl in *.
  { injection H as <- <- <-. by rewrite app_nil_r. }
  destruct c as [now record item|now].
  - destruct (admit_command now record item s) as [s1 [r|e]] eqn:Ha.
    + destruct (run_calls cs s1) as [[s2 adm2] rel2] eqn:Hr. injection H as <- <- <-.
      apply admit_command_Ok in Ha as (Hs1 & _ & Hn1 & _ & Hc & _ & Hi & Hnone & _); [| done | lia].
      destruct (IH _ _ _ _ Hr Hs1 ltac:(lia)) as (Hp & Hs2 & Hc2).
      split_and!; [| done | congruence]. rewrite <- Hp. unfold queued. rewrite Hi.
      rewrite map_to_list_insert by done. simpl. by rewrite Permutation_middle.
    + apply admit_command_Err in Ha as ->. eapply IH; [exact H | done | lia].
  - destruct (pop_due now s) as [s1 [[r item]|]] eqn:Hp;
      apply pop_due_spec in Hp as (Hs1 & Hn1 & Hf1 & Hc & Ho); try done.
    + destruct (run_calls cs s1) as [[s2 adm2] rel2] eqn:Hr. injection H as <- <- <-.
      destruct Ho as (E & Hi & _ & _). destruct (IH _ _ _ _ Hr Hs1 ltac:(lia)) as (Hp & Hs2 & Hc2).
      split_and!; [| done | congruence]. simpl. rewrite <- Hp. unfold queued. rewrite Hi.
      rewrite <- (map_to_list_delete (sq_items s) _ _ E). done.
    + destruct Ho as (Hi & _ & _). destruct (IH _ _ _ _ H Hs1 ltac:(lia)) as (Hp & Hs2 & Hc2).
      split_and!; [| done | congruence]. rewrite <- Hp. unfold queued. by rewrite Hi.
Qed.

(** the sequencer neither loses nor duplicates commands and respects
    its capacity. After any interleaving of calls, the admitted commands are
    exactly those released so far together with those still queued, each
    once and with the record it was admitted with; at most the configured
    number is queued; and once the clock has passed every queued release,
    a poll always releases the next one. *)
Theorem sequencer_conserves_commands {T} (cs : list (SeqCall T)) capacity s' adm rel :
  run_calls cs (Sequencer_new capacity) = (s', adm, rel) ->
  Z.of_nat (length cs) <= int_max U64 ->
  adm ≡ₚ rel.*2 ++ queued s' /\
  Z.of_nat (length (queued s')) <= Z.max capacity 1 /\
  (queued s' <> [] -> forall now, (forall e, e ∈ queued s' -> ar_release_us e.1 <= now) ->
     exists s'' e, pop_due now s' = (s'', Some e) /\ queued s' ≡ₚ e :: queued s'').
Proof.
  intros H Hn. destruct (run_calls_conserve cs _ _ _ _ H (Sequencer_new_ok capacity)) as (Hp & Hs & Hc);
    [simpl; lia |].
  simpl in Hc. split_and!.
  - rewrite <- Hp. unfold queued. simpl. by rewrite map_to_list_empty.
  - unfold queued. rewrite length_fmap, length_map_to_list. pose proof (sk_capacity s' Hs). lia.
  - intros Hne now Hdue. destruct (pop_due now s') as [s'' [[r item]|]] eqn:Hpop;
      apply pop_due_spec in Hpop as (_ & _ & Hf & _ & Ho); try done.
    + destruct Ho as (E & Hi & _ & _). exists s'', (r, item). split; [done |].
      unfold queued. rewrite Hi. by rewrite <- (map_to_list_delete (sq_items s') _ _ E).
    + exfalso. destruct Ho as (_ & _ & Hlate). unfold queued in *.
      destruct (map_to_list (sq_items s')) as [|[a [rec it]] l] eqn:Hl; [done |].
      assert (E : sq_items s' !! a = Some (rec, it)) by (apply elem_of_map_to_list; rewrite Hl; left).
      specialize (Hdue (rec, it) ltac:(left)). simpl in Hdue.
      assert ((ar_release_us rec, a) ∈ sq_heap s') as Hin by (apply (sk_heap s' Hs); eauto).
      specialize (Hlate _ Hin). simpl in Hlate. lia.
Qed.

Lemma sequencer_conserves_commands_witness :
  let out := run_calls (take 3 demo_calls) (Sequencer_new 4) in
  snd (fst out) ≡ₚ (snd out).*2 ++ queued (fst (fst out)) /\
  Z.of_nat (length (queued (fst (fst out)))) <= Z.max 4 1 /\
  (queued (fst (fst out)) <> [] -> forall now,
     (forall e, e ∈ queued (fst (fst out)) -> ar_release_us e.1 <= now) ->
     exists s'' e, pop_due now (fst (fst out)) = (s'', Some e) /\
       queued (fst (fst out)) ≡ₚ e :: queued s'').
Proof.
  intros out. apply (sequencer_conserves_commands (take 3 demo_calls) 4);
    [vm_compute; reflexivity | vm_compute; discriminate].
Defined.
