(* ===== verification/Digest.v ===== *)
(** * Digests

    Bytes, the lower-case hexadecimal rendering shared by
    [packages/bunting-engine/src/lib.rs] ([hash_serializable]) and
    [packages/origin-store/src/lib.rs] ([hex]), and SHA-256 as a class: the
    [sha2] crate is not part of the repository. *)

From S2P Require Import Prelude.
From Stdlib Require Import Ascii.

(** Bytes are integers below 256; a digest is 32 of them. *)
Definition Bytes : Type := list Z.
Definition is_byte (x : Z) : Prop := 0 <= x < 256.

(** [Sha256::digest] returns a [[u8; 32]]. *)
Class Sha256 := {
  sha256 : Bytes -> Bytes;
  sha256_length : forall b, length (sha256 b) = 32%nat;
  sha256_bytes : forall b, Forall is_byte (sha256 b)
}.

(** [HEX_DIGITS[nibble]] *)
Definition hex_digit (nibble : Z) : ascii :=
  ascii_of_N (Z.to_N (if nibble <? 10 then 48 + nibble else 87 + nibble)).

(** [fn hex] *)
Definition hex (bytes : Bytes) : list ascii :=
  bytes ≫= fun byte => [hex_digit (Z.shiftr byte 4); hex_digit (Z.land byte 15)].

(** [str::as_bytes] of a hexadecimal string. *)
Definition ascii_bytes (s : list ascii) : Bytes := (fun c => Z.of_N (N_of_ascii c)) <$> s.
