(* ===== verification/Transition.v ===== *)
(** * Transitions: the interface between the engine and its host

    The inputs of the journal, the outcome types of
    [packages/bunting-engine/src/lib.rs] ([Applied], [ApplyError]) and, as a
    class, what the engine's in-place transition promises the store that
    drives it ([packages/origin-store/src/lib.rs]). *)

From S2P Require Import Prelude MarketTypes MarketEvents Digest.
From Stdlib Require Import Ascii.

Inductive JournalInput : Type :=
  | InputCommand (command : Command)
  | InputSimulation (request : SimulationCommandRequest).

(** [JournalInput::run_id], [command_id] and [expected_sequence] *)
Definition input_run_id (i : JournalInput) : Z :=
  match i with InputCommand c => cmd_run_id c | InputSimulation r => sr_run_id r end.
Definition input_command_id (i : JournalInput) : Z :=
  match i with InputCommand c => cmd_command_id c | InputSimulation r => sr_command_id r end.
Definition input_expected_sequence (i : JournalInput) : Z :=
  match i with
  | InputCommand c => cmd_expected_sequence c
  | InputSimulation r => sr_expected_sequence r
  end.

#[export] Instance JournalInput_eq_dec : EqDecision JournalInput.
Proof. solve_decision. Defined.

(** Committed facts of one in-place transition ([bunting_engine::Applied]). *)
Record Applied : Type := mkApplied {
  ap_events : list EventEnvelope;
  ap_accepted : bool;
  ap_reject_code : option string;
  ap_order_id : option Z;
  ap_changed_listings : gset ListingKey
}.

(** Failure of an in-place transition ([bunting_engine::ApplyError]). *)
Inductive ApplyError (E : Type) : Type :=
  | Unchanged (e : E)
  | Poisoned (e : E).
Arguments Unchanged {E}.
Arguments Poisoned {E}.

(** What [RunState::apply] and [RunState::apply_simulation] promise: a
    transition is accepted only at the expected sequence of its run, it
    advances the sequence by one within [u64] and keeps the run's identity,
    and [Unchanged] means what it says.  A [Poisoned] transition promises
    nothing about the state it leaves. *)
Class Engine (RunState EngineError : Type) := {
  run_id : RunState -> Z;
  sequence : RunState -> Z;
  event_sequence : RunState -> Z;
  scenario_hash : RunState -> list ascii;
  state_hash : RunState -> option Bytes;
  apply : JournalInput -> RunState -> RunState * result (ApplyError EngineError) Applied;
  apply_sequence : forall i s s' a, apply i s = (s', Ok a) ->
    sequence s = input_expected_sequence i /\ sequence s' = sequence s + 1 /\
    sequence s' <= int_max U64;
  apply_identity : forall i s s' a, apply i s = (s', Ok a) ->
    run_id s' = run_id s /\ scenario_hash s' = scenario_hash s;
  apply_unchanged : forall i s s' e, apply i s = (s', Err (Unchanged e)) -> s' = s
}.
