(* ===== verification/Simulation.v ===== *)
(** * The simulation domain

    Models [packages/bunting-engine/src/simulation.rs] (lifecycle, clock,
    scheduled actions, news, tenders, OTC negotiations, facilities, scoring
    and trade projections), together with the participant definition of
    [packages/bunting-engine/src/lib.rs] it reads.  A method that takes
    [&mut self] and a [SimulationContext] acts on [SimWorld], the simulation
    state and the ledger the context borrows. *)

From S2P Require Import Prelude Ordered MarketTypes MarketEvents Ledger Risk.
From S2P Require Import LedgerFacts.
#[local] Open Scope string_scope.
#[local] Open Scope list_scope.
#[local] Open Scope Z_scope.

Definition SIMULATION_POLICY_VERSION : Z := 1.
Definition MAX_TRADE_HISTORY : nat := 4096.
Definition MAX_NEWS_ITEMS : nat := 4096.
Definition MAX_SCHEDULED_ACTIONS : nat := 8192.

(** ** Data *)

Module InstrumentKind.
Inductive InstrumentKind : Type :=
  | Equity
  | Currency
  | Bond (coupon_bps maturity : Z)
  | Option (underlying strike expiry : Z) (is_call : bool)
  | Future (underlying expiry : Z) (physical_delivery : bool)
  | Commodity
  | Synthetic (components : list (Z * Z)).
End InstrumentKind.

Inductive FacilityKind : Type := Asset | Lease | Transport | Storage | Production | Conversion.

Record FacilityDefinition : Type := mkFacilityDefinition {
  fd_facility_id : Z;
  fd_kind : FacilityKind;
  fd_capacity : Z;
  fd_input_instrument : option Z;
  fd_output_instrument : option Z
}.

Module RunLifecycle.
Inductive RunLifecycle : Type := Stopped | Active | Paused | Terminated.
#[export] Instance RunLifecycle_eq_dec : EqDecision RunLifecycle.
Proof. solve_decision. Defined.
End RunLifecycle.
#[export] Existing Instance RunLifecycle.RunLifecycle_eq_dec.

Record LogicalClock : Type := mkLogicalClock {
  ck_now : Z;
  ck_step_ns : Z;
  ck_mode : ClockMode
}.

(** [LogicalClock::default()] *)
Definition LogicalClock_default : LogicalClock := mkLogicalClock 0 1000000 Lockstep.

Inductive CashflowKind : Type := Dividend | Coupon | Interest | Fee | Settlement | Adjustment.

Inductive ScheduledActionKind : Type :=
  | Cashflow (participant_id currency_id amount : Z) (kind : CashflowKind)
  | ExpireInstrument (instrument_id : Z)
  | ExerciseOption (participant_id instrument_id quantity : Z)
  | Deliver (participant_id instrument_id quantity : Z)
  | CompleteFacilityJob (job_id : Z).

Record ScheduledAction : Type := mkScheduledAction {
  sa_action_id : Z;
  sa_effective_at : Z;
  sa_kind : ScheduledActionKind
}.

Record NewsItem : Type := mkNewsItem {
  nw_news_id : Z;
  nw_published_at : Z;
  nw_audience : NewsAudience;
  nw_headline : string;
  nw_body : string
}.

Record SimulationScenario : Type := mkSimulationScenario {
  ss_policy_version : Z;
  ss_clock : LogicalClock;
  ss_facilities : gmap Z FacilityDefinition;
  ss_scheduled_actions : list ScheduledAction;
  ss_initial_news : list NewsItem;
  ss_starts_active : bool
}.

(** [SimulationScenario::default()] *)
Definition SimulationScenario_default : SimulationScenario :=
  mkSimulationScenario SIMULATION_POLICY_VERSION LogicalClock_default ∅ [] [] true.

Record TradeRecord : Type := mkTradeRecord {
  tr_logical_time : Z;
  tr_price : Z;
  tr_quantity : Z
}.

Record OhlcBar : Type := mkOhlcBar {
  bar_bucket_start : Z;
  bar_open : Z;
  bar_high : Z;
  bar_low : Z;
  bar_close : Z;
  bar_volume : Z
}.

(** The deques are lists, oldest first. *)
Record MarketProjection : Type := mkMarketProjection {
  mp_trades : list TradeRecord;
  mp_bars : list OhlcBar;
  mp_cumulative_volume : Z
}.

(** [MarketProjection::default()] *)
Definition MarketProjection_default : MarketProjection := mkMarketProjection [] [] 0.

Record TenderState : Type := mkTenderState {
  td_tender_id : Z;
  td_participant_id : Z;
  td_instrument_id : Z;
  td_side : Side;
  td_quantity : Z;
  td_price : Z;
  td_expires_at : Z;
  td_status : string
}.

Record OtcState : Type := mkOtcState {
  oc_negotiation_id : Z;
  oc_proposer_id : Z;
  oc_counterparty_id : Z;
  oc_instrument_id : Z;
  oc_side : Side;
  oc_quantity : Z;
  oc_price : Z;
  oc_expires_at : Z;
  oc_status : string;
  oc_awaiting : Z
}.

Record FacilityJob : Type := mkFacilityJob {
  fj_job_id : Z;
  fj_facility_id : Z;
  fj_participant_id : Z;
  fj_input_quantity : Z;
  fj_output_quantity : Z;
  fj_completes_at : Z;
  fj_completed : bool
}.

Record ScoreEntry : Type := mkScoreEntry {
  se_participant_id : Z;
  se_score : Z;
  se_rank : Z
}.

Record IterationReport : Type := mkIterationReport {
  ir_policy_version : Z;
  ir_generated_at : Z;
  ir_entries : list ScoreEntry
}.

Record AdministratorChange : Type := mkAdministratorChange {
  ac_actor : Z;
  ac_effective_at : Z;
  ac_reason : string
}.

(** The complete simulation component; [private] holds each participant's
    news identifiers. *)
Record SimulationState : Type := mkSimulationState {
  sim_policy_version : Z;
  sim_lifecycle : RunLifecycle.RunLifecycle;
  sim_clock : LogicalClock;
  sim_facilities : gmap Z FacilityDefinition;
  sim_halted_instruments : gset Z;
  sim_scheduled_actions : list ScheduledAction;
  sim_applied_actions : gset Z;
  sim_market : gmap Z MarketProjection;
  sim_market_by_listing : gmap ListingKey MarketProjection;
  sim_private : gmap Z (list Z);
  sim_news : list NewsItem;
  sim_tenders : gmap Z TenderState;
  sim_otc : gmap Z OtcState;
  sim_facility_jobs : gmap Z FacilityJob;
  sim_administrator_changes : list AdministratorChange;
  sim_reports : list IterationReport;
  sim_next_action_id : Z
}.

(** [SimulationState::default()] *)
Definition SimulationState_default : SimulationState :=
  mkSimulationState SIMULATION_POLICY_VERSION RunLifecycle.Stopped LogicalClock_default ∅ ∅ [] ∅
    ∅ ∅ ∅ [] ∅ ∅ ∅ [] [] 1.

(** Field assignments of the source. *)
Definition with_lifecycle (v : RunLifecycle.RunLifecycle) (s : SimulationState) : SimulationState :=
  mkSimulationState (sim_policy_version s) v (sim_clock s) (sim_facilities s)
    (sim_halted_instruments s) (sim_scheduled_actions s) (sim_applied_actions s) (sim_market s)
    (sim_market_by_listing s) (sim_private s) (sim_news s) (sim_tenders s) (sim_otc s)
    (sim_facility_jobs s) (sim_administrator_changes s) (sim_reports s) (sim_next_action_id s).
Definition with_clock (v : LogicalClock) (s : SimulationState) : SimulationState :=
  mkSimulationState (sim_policy_version s) (sim_lifecycle s) v (sim_facilities s)
    (sim_halted_instruments s) (sim_scheduled_actions s) (sim_applied_actions s) (sim_market s)
    (sim_market_by_listing s) (sim_private s) (sim_news s) (sim_tenders s) (sim_otc s)
    (sim_facility_jobs s) (sim_administrator_changes s) (sim_reports s) (sim_next_action_id s).
Definition with_halted_instruments (v : gset Z) (s : SimulationState) : SimulationState :=
  mkSimulationState (sim_policy_version s) (sim_lifecycle s) (sim_clock s) (sim_facilities s) v
    (sim_scheduled_actions s) (sim_applied_actions s) (sim_market s) (sim_market_by_listing s)
    (sim_private s) (sim_news s) (sim_tenders s) (sim_otc s) (sim_facility_jobs s)
    (sim_administrator_changes s) (sim_reports s) (sim_next_action_id s).
Definition with_scheduled_actions (v : list ScheduledAction) (s : SimulationState) : SimulationState :=
  mkSimulationState (sim_policy_version s) (sim_lifecycle s) (sim_clock s) (sim_facilities s)
    (sim_halted_instruments s) v (sim_applied_actions s) (sim_market s) (sim_market_by_listing s)
    (sim_private s) (sim_news s) (sim_tenders s) (sim_otc s) (sim_facility_jobs s)
    (sim_administrator_changes s) (sim_reports s) (sim_next_action_id s).
Definition with_applied_actions (v : gset Z) (s : SimulationState) : SimulationState :=
  mkSimulationState (sim_policy_version s) (sim_lifecycle s) (sim_clock s) (sim_facilities s)
    (sim_halted_instruments s) (sim_scheduled_actions s) v (sim_market s)
    (sim_market_by_listing s) (sim_private s) (sim_news s) (sim_tenders s) (sim_otc s)
    (sim_facility_jobs s) (sim_administrator_changes s) (sim_reports s) (sim_next_action_id s).
Definition with_market (v : gmap Z MarketProjection) (s : SimulationState) : SimulationState :=
  mkSimulationState (sim_policy_version s) (sim_lifecycle s) (sim_clock s) (sim_facilities s)
    (sim_halted_instruments s) (sim_scheduled_actions s) (sim_applied_actions s) v
    (sim_market_by_listing s) (sim_private s) (sim_news s) (sim_tenders s) (sim_otc s)
    (sim_facility_jobs s) (sim_administrator_changes s) (sim_reports s) (sim_next_action_id s).
Definition with_market_by_listing (v : gmap ListingKey MarketProjection) (s : SimulationState) : SimulationState :=
  mkSimulationState (sim_policy_version s) (sim_lifecycle s) (sim_clock s) (sim_facilities s)
    (sim_halted_instruments s) (sim_scheduled_actions s) (sim_applied_actions s) (sim_market s) v
    (sim_private s) (sim_news s) (sim_tenders s) (sim_otc s) (sim_facility_jobs s)
    (sim_administrator_changes s) (sim_reports s) (sim_next_action_id s).
Definition with_private (v : gmap Z (list Z)) (s : SimulationState) : SimulationState :=
  mkSimulationState (sim_policy_version s) (sim_lifecycle s) (sim_clock s) (sim_facilities s)
    (sim_halted_instruments s) (sim_scheduled_actions s) (sim_applied_actions s) (sim_market s)
    (sim_market_by_listing s) v (sim_news s) (sim_tenders s) (sim_otc s) (sim_facility_jobs s)
    (sim_administrator_changes s) (sim_reports s) (sim_next_action_id s).
Definition with_news (v : list NewsItem) (s : SimulationState) : SimulationState :=
  mkSimulationState (sim_policy_version s) (sim_lifecycle s) (sim_clock s) (sim_facilities s)
    (sim_halted_instruments s) (sim_scheduled_actions s) (sim_applied_actions s) (sim_market s)
    (sim_market_by_listing s) (sim_private s) v (sim_tenders s) (sim_otc s) (sim_facility_jobs s)
    (sim_administrator_changes s) (sim_reports s) (sim_next_action_id s).
Definition with_tenders (v : gmap Z TenderState) (s : SimulationState) : SimulationState :=
  mkSimulationState (sim_policy_version s) (sim_lifecycle s) (sim_clock s) (sim_facilities s)
    (sim_halted_instruments s) (sim_scheduled_actions s) (sim_applied_actions s) (sim_market s)
    (sim_market_by_listing s) (sim_private s) (sim_news s) v (sim_otc s) (sim_facility_jobs s)
    (sim_administrator_changes s) (sim_reports s) (sim_next_action_id s).
Definition with_otc (v : gmap Z OtcState) (s : SimulationState) : SimulationState :=
  mkSimulationState (sim_policy_version s) (sim_lifecycle s) (sim_clock s) (sim_facilities s)
    (sim_halted_instruments s) (sim_scheduled_actions s) (sim_applied_actions s) (sim_market s)
    (sim_market_by_listing s) (sim_private s) (sim_news s) (sim_tenders s) v (sim_facility_jobs s)
    (sim_administrator_changes s) (sim_reports s) (sim_next_action_id s).
Definition with_facility_jobs (v : gmap Z FacilityJob) (s : SimulationState) : SimulationState :=
  mkSimulationState (sim_policy_version s) (sim_lifecycle s) (sim_clock s) (sim_facilities s)
    (sim_halted_instruments s) (sim_scheduled_actions s) (sim_applied_actions s) (sim_market s)
    (sim_market_by_listing s) (sim_private s) (sim_news s) (sim_tenders s) (sim_otc s) v
    (sim_administrator_changes s) (sim_reports s) (sim_next_action_id s).
Definition with_administrator_changes (v : list AdministratorChange) (s : SimulationState) : SimulationState :=
  mkSimulationState (sim_policy_version s) (sim_lifecycle s) (sim_clock s) (sim_facilities s)
    (sim_halted_instruments s) (sim_scheduled_actions s) (sim_applied_actions s) (sim_market s)
    (sim_market_by_listing s) (sim_private s) (sim_news s) (sim_tenders s) (sim_otc s)
    (sim_facility_jobs s) v (sim_reports s) (sim_next_action_id s).
Definition with_reports (v : list IterationReport) (s : SimulationState) : SimulationState :=
  mkSimulationState (sim_policy_version s) (sim_lifecycle s) (sim_clock s) (sim_facilities s)
    (sim_halted_instruments s) (sim_scheduled_actions s) (sim_applied_actions s) (sim_market s)
    (sim_market_by_listing s) (sim_private s) (sim_news s) (sim_tenders s) (sim_otc s)
    (sim_facility_jobs s) (sim_administrator_changes s) v (sim_next_action_id s).
Definition with_next_action_id (v : Z) (s : SimulationState) : SimulationState :=
  mkSimulationState (sim_policy_version s) (sim_lifecycle s) (sim_clock s) (sim_facilities s)
    (sim_halted_instruments s) (sim_scheduled_actions s) (sim_applied_actions s) (sim_market s)
    (sim_market_by_listing s) (sim_private s) (sim_news s) (sim_tenders s) (sim_otc s)
    (sim_facility_jobs s) (sim_administrator_changes s) (sim_reports s) v.
Definition with_td_status (v : string) (t : TenderState) : TenderState :=
  mkTenderState (td_tender_id t) (td_participant_id t) (td_instrument_id t) (td_side t)
    (td_quantity t) (td_price t) (td_expires_at t) v.
Definition with_oc_status (v : string) (o : OtcState) : OtcState :=
  mkOtcState (oc_negotiation_id o) (oc_proposer_id o) (oc_counterparty_id o) (oc_instrument_id o)
    (oc_side o) (oc_quantity o) (oc_price o) (oc_expires_at o) v (oc_awaiting o).
Definition with_fj_completed (v : bool) (j : FacilityJob) : FacilityJob :=
  mkFacilityJob (fj_job_id j) (fj_facility_id j) (fj_participant_id j) (fj_input_quantity j)
    (fj_output_quantity j) (fj_completes_at j) v.

(** Participant configuration pinned by the scenario. *)
Record ParticipantDefinition : Type := mkParticipantDefinition {
  pd_participant_id : Z;
  pd_enabled : bool;
  pd_limits : RiskLimits;
  pd_initial_cash : gmap Z Z;
  pd_initial_positions : gmap Z Z
}.

Module SimulationError.
Inductive SimulationError : Type :=
  | InvalidScenario
  | InvalidLifecycle
  | InvalidCommand
  | LogicalTimeRegression
  | BoundExceeded
  | DuplicateIdentity
  | UnknownIdentity
  | NotOwner
  | ArithmeticOverflow
  | RequiresMatchingState
  | Unsupported
  | Ledger (e : LedgerError.LedgerError).
End SimulationError.
Export SimulationError (SimulationError).

(** ** Scenario input *)

(** [SimulationScenario::validate] *)
Definition scenario_validate (s : SimulationScenario) : result SimulationError unit :=
  if negb (ss_policy_version s =? SIMULATION_POLICY_VERSION)
     || (ck_step_ns (ss_clock s) =? 0)
     || (MAX_SCHEDULED_ACTIONS <? length (ss_scheduled_actions s))%nat
     || (MAX_NEWS_ITEMS <? length (ss_initial_news s))%nat
  then Err SimulationError.InvalidScenario
  else if existsb (fun '(id, facility) =>
      negb (id =? fd_facility_id facility) || (id =? 0) || (fd_capacity facility <=? 0)
      || (bool_decide (fd_input_instrument facility = None)
          && bool_decide (fd_output_instrument facility = None)))
    (entries (ss_facilities s))
  then Err SimulationError.InvalidScenario
  else if existsb (fun action =>
      match sa_kind action with ExerciseOption _ _ _ | Deliver _ _ _ => true | _ => false end)
    (ss_scheduled_actions s)
  then Err SimulationError.Unsupported
  else Ok tt.

(** [SimulationScenario::referenced_instruments] *)
Definition referenced_instruments (s : SimulationScenario) : list Z :=
  (values (ss_facilities s) ≫= fun f =>
     option_list (fd_input_instrument f) ++ option_list (fd_output_instrument f)) ++
  omap (fun action =>
    match sa_kind action with
    | ExpireInstrument i | ExerciseOption _ i _ | Deliver _ i _ => Some i
    | Cashflow _ _ _ _ | CompleteFacilityJob _ => None
    end) (ss_scheduled_actions s).

(** [sort_by_key(|a| (a.effective_at, a.action_id))].  The identifiers in a
    schedule are distinct, so stability does not show. *)
Definition action_le (a b : ScheduledAction) : Prop :=
  ord_le (sa_effective_at a, sa_action_id a) (sa_effective_at b, sa_action_id b).
#[export] Instance action_le_dec : RelDecision action_le.
Proof. intros a b. unfold action_le. apply _. Defined.
Definition sort_actions (l : list ScheduledAction) : list ScheduledAction :=
  merge_sort action_le l.

(** The loop of [SimulationState::from_scenario] over the scheduled actions. *)
Fixpoint load_actions (actions : list ScheduledAction) (seen : gset Z) (s : SimulationState)
    : result SimulationError SimulationState :=
  match actions with
  | [] => Ok s
  | action :: actions =>
      if bool_decide (sa_action_id action ∈ seen) then Err SimulationError.DuplicateIdentity
      else load_actions actions ({[sa_action_id action]} ∪ seen)
        (with_next_action_id
           (Z.max (sim_next_action_id s) (saturating_add U128 (sa_action_id action) 1))
           (with_scheduled_actions (sim_scheduled_actions s ++ [action]) s))
  end.

(** [SimulationState::from_scenario] *)
Definition simulation_from_scenario (scenario : SimulationScenario)
    : result SimulationError SimulationState :=
  _ ← scenario_validate scenario;
  let state := mkSimulationState SIMULATION_POLICY_VERSION
    (if ss_starts_active scenario then RunLifecycle.Active else RunLifecycle.Stopped)
    (ss_clock scenario) (ss_facilities scenario) ∅ [] ∅ ∅ ∅ ∅ (ss_initial_news scenario)
    ∅ ∅ ∅ [] [] 1 in
  state ← load_actions (ss_scheduled_actions scenario) ∅ state;
  Ok (with_scheduled_actions (sort_actions (sim_scheduled_actions state)) state).

(** ** Trade projections *)

(** [(logical_time / 1s) * 1s] *)
Definition bucket_of (logical_time : Z) : Z := logical_time / 1000000000 * 1000000000.

(** [self.bars.back().filter(|bar| bar.bucket_start == bucket)] *)
Definition current_bar (p : MarketProjection) (bucket : Z) : option OhlcBar :=
  match last (mp_bars p) with
  | Some bar => if bar_bucket_start bar =? bucket then Some bar else None
  | None => None
  end.

(** [MarketProjection::validate_trade] *)
Definition validate_trade (trade : TradeRecord) (p : MarketProjection)
    : result SimulationError unit :=
  _ ← ok_or (checked_add I64 (mp_cumulative_volume p) (tr_quantity trade))
        SimulationError.ArithmeticOverflow;
  match current_bar p (bucket_of (tr_logical_time trade)) with
  | Some bar =>
      _ ← ok_or (checked_add I64 (bar_volume bar) (tr_quantity trade))
            SimulationError.ArithmeticOverflow;
      Ok tt
  | None => Ok tt
  end.

(** A bounded deque: drop the oldest element when full, then append. *)
Definition push_bounded {A} (l : list A) (x : A) : list A :=
  (if (length l =? MAX_TRADE_HISTORY)%nat then tail l else l) ++ [x].

(** [MarketProjection::record_trade]; nothing can fail after the validation. *)
Definition record_trade (trade : TradeRecord) (p : MarketProjection)
    : result SimulationError MarketProjection :=
  _ ← validate_trade trade p;
  cumulative ← ok_or (checked_add I64 (mp_cumulative_volume p) (tr_quantity trade))
                 SimulationError.ArithmeticOverflow;
  let trades := push_bounded (mp_trades p) trade in
  let bucket := bucket_of (tr_logical_time trade) in
  match current_bar p bucket with
  | Some bar =>
      volume ← ok_or (checked_add I64 (bar_volume bar) (tr_quantity trade))
                 SimulationError.ArithmeticOverflow;
      Ok (mkMarketProjection trades
            (removelast (mp_bars p) ++
             [mkOhlcBar (bar_bucket_start bar) (bar_open bar) (Z.max (bar_high bar) (tr_price trade))
                (Z.min (bar_low bar) (tr_price trade)) (tr_price trade) volume])
            cumulative)
  | None =>
      Ok (mkMarketProjection trades
            (push_bounded (mp_bars p)
               (mkOhlcBar bucket (tr_price trade) (tr_price trade) (tr_price trade)
                  (tr_price trade) (tr_quantity trade)))
            cumulative)
  end.

Definition validate_in (trade : TradeRecord) (view : option MarketProjection)
    : result SimulationError unit :=
  match view with Some p => validate_trade trade p | None => Ok tt end.

(** [SimulationState::project_event] *)
Definition project_event (logical_time : Z) (event : EventPayload)
    : M SimulationState SimulationError unit :=
  match event with
  | TradeExecuted instrument_id listing_key _ _ _ _ price quantity _ _ =>
      let trade := mkTradeRecord logical_time price quantity in
      s ← gets id;
      match listing_key with
      | Some listing =>
          refuse_if (negb (lk_instrument_id listing =? instrument_id))
            SimulationError.UnknownIdentity;;
          lift (validate_in trade (sim_market_by_listing s !! listing))
      | None => mret tt
      end;;
      lift (validate_in trade (sim_market s !! instrument_id));;
      let view := default MarketProjection_default (sim_market s !! instrument_id) in
      modify (fun s => with_market (<[instrument_id := view]> (sim_market s)) s);;
      view ← lift (record_trade trade view);
      modify (fun s => with_market (<[instrument_id := view]> (sim_market s)) s);;
      match listing_key with
      | Some listing =>
          let view := default MarketProjection_default (sim_market_by_listing s !! listing) in
          modify (fun s => with_market_by_listing
            (<[listing := view]> (sim_market_by_listing s)) s);;
          view ← lift (record_trade trade view);
          modify (fun s => with_market_by_listing
            (<[listing := view]> (sim_market_by_listing s)) s)
      | None => mret tt
      end
  | _ => mret tt
  end.

(** ** Commands *)

(** The facts of [SimulationContext] besides the ledger. *)
Record SimulationContext : Type := mkSimulationContext {
  cx_participants : gmap Z ParticipantDefinition;
  cx_reporting_currency : Z;
  cx_fx_rates : list FxRate
}.

Record SimWorld : Type := mkSimWorld {
  sw_sim : SimulationState;
  sw_ledger : Ledger
}.

(** An access to [self], to [context.ledger], and an update of [self]. *)
Definition on_sim {A} (m : M SimulationState SimulationError A) : M SimWorld SimulationError A :=
  fun w => let '(s, r) := m (sw_sim w) in (mkSimWorld s (sw_ledger w), r).
Definition on_ledger {A} (m : M Ledger LedgerError A) : M SimWorld SimulationError A :=
  fun w => let '(l, r) := m (sw_ledger w) in
           (mkSimWorld (sw_sim w) l, map_err SimulationError.Ledger r).
Definition sim {A} (f : SimulationState -> A) : M SimWorld SimulationError A :=
  gets (fun w => f (sw_sim w)).
Definition update (f : SimulationState -> SimulationState) : M SimWorld SimulationError unit :=
  on_sim (modify f).

(** [SimulationContext::require_instrument], [require_participant], [party] *)
Definition require_instrument (instrument : Z) : M SimWorld SimulationError unit :=
  w ← gets id;
  lift (_ ← map_err (fun _ => SimulationError.UnknownIdentity) (terms (sw_ledger w) instrument);
        Ok tt).
Definition require_participant (cx : SimulationContext) (participant : Z)
    : M SimWorld SimulationError unit :=
  refuse_if (negb (bool_decide (is_Some (cx_participants cx !! participant))))
    SimulationError.UnknownIdentity.
Definition cash_constrained (ps : gmap Z ParticipantDefinition) (participant : Z) : bool :=
  match ps !! participant with
  | Some definition => rl_cash_constrained (pd_limits definition)
  | None => false
  end.
Definition context_party (cx : SimulationContext) (participant : Z) : FillParty :=
  mkFillParty participant 0 None (cash_constrained (cx_participants cx) participant).

(** [SimulationState::require_lifecycle] *)
Definition require_lifecycle (required : RunLifecycle.RunLifecycle)
    : M SimWorld SimulationError unit :=
  lifecycle ← sim sim_lifecycle;
  refuse_if (negb (bool_decide (lifecycle = required))) SimulationError.InvalidLifecycle.

(** [fn validate_reason] *)
Definition validate_reason (reason : string) : M SimWorld SimulationError unit :=
  refuse_if ((String.length reason =? 0)%nat || (1024 <? String.length reason)%nat)
    SimulationError.InvalidCommand.

(** [SimulationState::record_admin] *)
Definition record_admin (actor effective_at : Z) (reason : string)
    : M SimWorld SimulationError unit :=
  update (fun s => with_administrator_changes
    (sim_administrator_changes s ++ [mkAdministratorChange actor effective_at reason]) s).

(** [SimulationState::route_news] *)
Definition route_news (news_id : Z) (audience : NewsAudience) : M SimWorld SimulationError unit :=
  match audience with
  | AudienceParticipant participant =>
      update (fun s => with_private
        (<[participant := default [] (sim_private s !! participant) ++ [news_id]]> (sim_private s)) s)
  | _ => mret tt
  end.

(** [SimulationState::schedule] *)
Definition schedule (action : ScheduledAction) : M SimWorld SimulationError unit :=
  s ← sim id;
  refuse_if ((MAX_SCHEDULED_ACTIONS <=? length (sim_scheduled_actions s))%nat
             || (sa_effective_at action <=? ck_now (sim_clock s))
             || existsb (fun existing => sa_action_id existing =? sa_action_id action)
                  (sim_scheduled_actions s))
    SimulationError.BoundExceeded;;
  update (fun s => with_scheduled_actions
    (sort_actions (sim_scheduled_actions s ++ [action])) s).

(** [SimulationState::next_action] *)
Definition next_action : M SimWorld SimulationError Z :=
  value ← sim sim_next_action_id;
  update (fun s => with_next_action_id (saturating_add U128 (sim_next_action_id s) 1) s);;
  mret value.

(** [SimulationState::has_due_actions] *)
Definition has_due_actions (s : SimulationState) (at_ : Z) : bool :=
  match sim_scheduled_actions s with
  | action :: _ => sa_effective_at action <=? at_
  | [] => false
  end.

(** [SimulationState::apply_scheduled] *)
Definition apply_scheduled (action : ScheduledAction) : M SimWorld SimulationError unit :=
  match sa_kind action with
  | Cashflow participant_id currency_id amount _ =>
      on_ledger (post_cash participant_id currency_id amount)
  | CompleteFacilityJob job_id =>
      s ← sim id;
      job ← lift (ok_or (sim_facility_jobs s !! job_id) SimulationError.UnknownIdentity);
      facility ← lift (ok_or (sim_facilities s !! fj_facility_id job)
                         SimulationError.UnknownIdentity);
      on_ledger (convert (fj_participant_id job)
        ((fun instrument => (instrument, fj_input_quantity job)) <$> fd_input_instrument facility)
        ((fun instrument => (instrument, fj_output_quantity job)) <$> fd_output_instrument facility));;
      update (fun s => with_facility_jobs
        (<[job_id := with_fj_completed true job]> (sim_facility_jobs s)) s)
  | ExpireInstrument instrument_id =>
      update (fun s => with_halted_instruments ({[instrument_id]} ∪ sim_halted_instruments s) s)
  | ExerciseOption _ _ _ | Deliver _ _ _ => throw SimulationError.Unsupported
  end.

(** The loop of [catch_up] over the due actions. *)
Fixpoint apply_due (due : list ScheduledAction) : M SimWorld SimulationError (list SimulationEvent) :=
  match due with
  | [] => mret []
  | action :: due =>
      apply_scheduled action;;
      update (fun s => with_applied_actions
        ({[sa_action_id action]} ∪ sim_applied_actions s) s);;
      events ← apply_due due;
      mret (ScheduledActionApplied (sa_action_id action) :: events)
  end.

(** [matches!(otc.status.as_str(), "proposed" | "countered")] *)
Definition otc_open (o : OtcState) : bool :=
  String.eqb (oc_status o) "proposed" || String.eqb (oc_status o) "countered".
Definition tender_open (t : TenderState) : bool := String.eqb (td_status t) "open".

(** The expiry sweep of [catch_up]: the records it marks and their events. *)
Definition tender_due (to : Z) (t : TenderState) : bool :=
  tender_open t && (td_expires_at t <=? to).
Definition otc_due (to : Z) (o : OtcState) : bool := otc_open o && (oc_expires_at o <=? to).
Definition sweep_tenders (to : Z) (s : SimulationState) : SimulationState :=
  with_tenders ((fun t => if tender_due to t then with_td_status "expired" t else t)
                  <$> sim_tenders s) s.
Definition sweep_otc (to : Z) (s : SimulationState) : SimulationState :=
  with_otc ((fun o => if otc_due to o then with_oc_status "expired" o else o) <$> sim_otc s) s.
Definition sweep_events (to : Z) (s : SimulationState) : list SimulationEvent :=
  omap (fun t => if tender_due to t then Some (TenderChanged (td_tender_id t) "expired") else None)
    (values (sim_tenders s)) ++
  omap (fun o => if otc_due to o then Some (OtcChanged (oc_negotiation_id o) "expired") else None)
    (values (sim_otc s)).

(** [SimulationState::catch_up].  [partition_point] on the sorted schedule
    splits it after its due prefix. *)
Definition sim_catch_up (to : Z) (sweep : bool)
    : M SimWorld SimulationError (list SimulationEvent) :=
  s ← sim id;
  refuse_if (to <? ck_now (sim_clock s)) SimulationError.LogicalTimeRegression;;
  update (fun s => with_clock
    (mkLogicalClock to (ck_step_ns (sim_clock s)) (ck_mode (sim_clock s))) s);;
  applied ←
    (if has_due_actions s to then
       let due := take_while (fun action => sa_effective_at action <=? to)
                    (sim_scheduled_actions s) in
       update (with_scheduled_actions (drop (length due) (sim_scheduled_actions s)));;
       apply_due due
     else mret []);
  if sweep then
    s ← sim id;
    update (fun s => sweep_otc to (sweep_tenders to s));;
    mret (applied ++ sweep_events to s)
  else mret applied.

(** [SimulationState::advance] *)
Definition advance (steps : Z) : M SimWorld SimulationError (list SimulationEvent) :=
  require_lifecycle RunLifecycle.Active;;
  refuse_if (steps =? 0) SimulationError.InvalidCommand;;
  clock ← sim sim_clock;
  let limit := match ck_mode clock with
               | Lockstep | Paced _ => 1
               | Accelerated max_steps_per_advance => Z.max max_steps_per_advance 1
               end in
  refuse_if (limit <? steps) SimulationError.BoundExceeded;;
  delta ← lift (ok_or (checked_mul U64 (ck_step_ns clock) steps) SimulationError.ArithmeticOverflow);
  to ← lift (ok_or (checked_add U64 (ck_now clock) delta) SimulationError.ArithmeticOverflow);
  events ← sim_catch_up to true;
  mret (ClockAdvanced (ck_now clock) to :: events).

(** [iter().map(..).collect::<Result<Vec<_>, _>>()] *)
Fixpoint collect_results {E A B} (f : A -> result E B) (l : list A) : result E (list B) :=
  match l with
  | [] => Ok []
  | x :: l => y ← f x; ys ← collect_results f l; Ok (y :: ys)
  end.

(** [sort_by_key(|entry| (Reverse(score), participant_id))] *)
Definition score_le (a b : ScoreEntry) : Prop :=
  ord_le (- se_score a, se_participant_id a) (- se_score b, se_participant_id b).
#[export] Instance score_le_dec : RelDecision score_le.
Proof. intros a b. unfold score_le. apply _. Defined.

(** The ranking loop: [rank = u32::try_from(index + 1)]. *)
Definition rank_entries (entries : list ScoreEntry) : result SimulationError (list ScoreEntry) :=
  collect_results (fun '(index, e) =>
    rank ← ok_or (checked U32 (Z.of_nat index + 1)) SimulationError.BoundExceeded;
    Ok (mkScoreEntry (se_participant_id e) (se_score e) rank)) (imap pair entries).

(** [SimulationState::score_iteration] *)
Definition score_iteration (cx : SimulationContext) : M SimWorld SimulationError (list SimulationEvent) :=
  w ← gets id;
  entries ← lift (map_err SimulationError.Ledger (collect_results (fun participant =>
    score ← reporting_value (sw_ledger w) participant (cx_reporting_currency cx) (cx_fx_rates cx);
    Ok (mkScoreEntry participant score 0)) (keys (cx_participants cx))));
  entries ← lift (rank_entries (merge_sort score_le entries));
  count ← lift (ok_or (checked U32 (Z.of_nat (length entries))) SimulationError.BoundExceeded);
  update (fun s => with_reports (sim_reports s ++
    [mkIterationReport SIMULATION_POLICY_VERSION (ck_now (sim_clock s)) entries]) s);;
  mret [IterationScored count].

(** [SimulationState::next_due] *)
Definition min_list (l : list Z) : option Z :=
  match l with [] => None | x :: l => Some (foldl Z.min x l) end.
Definition sim_next_due (s : SimulationState) : option Z :=
  min_list
    (option_list (sa_effective_at <$> head (sim_scheduled_actions s)) ++
     option_list (min_list (td_expires_at <$> filter tender_open (values (sim_tenders s)))) ++
     option_list (min_list (oc_expires_at <$> filter otc_open (values (sim_otc s))))).

(** The branches of [SimulationState::apply], in the order of its match. *)
Definition change_lifecycle (from to : RunLifecycle.RunLifecycle) (status : string)
    : M SimWorld SimulationError (list SimulationEvent) :=
  require_lifecycle from;;
  update (with_lifecycle to);;
  mret [LifecycleChanged status].

Definition set_pacing (actor logical_time : Z) (mode : ClockMode) (reason : string)
    : M SimWorld SimulationError (list SimulationEvent) :=
  validate_reason reason;;
  update (fun s => with_clock
    (mkLogicalClock (ck_now (sim_clock s)) (ck_step_ns (sim_clock s)) mode) s);;
  record_admin actor logical_time reason;;
  mret [PacingChanged mode reason; AdministratorChangeRecorded reason].

Definition terminate (actor logical_time : Z) (reason : string)
    : M SimWorld SimulationError (list SimulationEvent) :=
  validate_reason reason;;
  lifecycle ← sim sim_lifecycle;
  refuse_if (bool_decide (lifecycle = RunLifecycle.Terminated)) SimulationError.InvalidLifecycle;;
  update (with_lifecycle RunLifecycle.Terminated);;
  record_admin actor logical_time reason;;
  mret [LifecycleChanged "terminated"; AdministratorChangeRecorded reason].

Definition set_listing_halt (actor logical_time instrument_id : Z) (halted : bool) (reason : string)
    : M SimWorld SimulationError (list SimulationEvent) :=
  validate_reason reason;;
  require_instrument instrument_id;;
  update (fun s => with_halted_instruments
    (if halted then {[instrument_id]} ∪ sim_halted_instruments s
     else sim_halted_instruments s ∖ {[instrument_id]}) s);;
  record_admin actor logical_time reason;;
  mret [ListingHaltChanged instrument_id halted; AdministratorChangeRecorded reason].

Definition publish_news (logical_time news_id : Z) (audience : NewsAudience) (headline body : string)
    : M SimWorld SimulationError (list SimulationEvent) :=
  s ← sim id;
  refuse_if ((MAX_NEWS_ITEMS <=? length (sim_news s))%nat
             || (String.length headline =? 0)%nat || (256 <? String.length headline)%nat
             || (16384 <? String.length body)%nat
             || existsb (fun news => nw_news_id news =? news_id) (sim_news s))
    SimulationError.BoundExceeded;;
  update (fun s => with_news
    (sim_news s ++ [mkNewsItem news_id logical_time audience headline body]) s);;
  route_news news_id audience;;
  mret [NewsPublished news_id audience].

Definition open_tender (cx : SimulationContext) (logical_time tender_id participant_id instrument_id : Z)
    (side : Side) (quantity price expires_at : Z) : M SimWorld SimulationError (list SimulationEvent) :=
  require_instrument instrument_id;;
  require_participant cx participant_id;;
  s ← sim id;
  refuse_if ((quantity <=? 0) || (price <=? 0) || (expires_at <=? logical_time)
             || bool_decide (is_Some (sim_tenders s !! tender_id)))
    SimulationError.InvalidCommand;;
  update (fun s => with_tenders (<[tender_id := mkTenderState tender_id participant_id instrument_id
    side quantity price expires_at "open"]> (sim_tenders s)) s);;
  mret [TenderChanged tender_id "open"].

Definition decide_tender (cx : SimulationContext) (actor logical_time tender_id : Z)
    (decision : TenderDecision.TenderDecision) : M SimWorld SimulationError (list SimulationEvent) :=
  s ← sim id;
  tender ← lift (ok_or (sim_tenders s !! tender_id) SimulationError.UnknownIdentity);
  refuse_if (negb (td_participant_id tender =? actor) || negb (tender_open tender)
             || (td_expires_at tender <=? logical_time))
    SimulationError.InvalidLifecycle;;
  let party := context_party cx (td_participant_id tender) in
  let '(status, settled) :=
    match decision with
    | TenderDecision.Accept =>
        ("accepted",
         [TenderSettled tender_id (td_participant_id tender) (td_instrument_id tender)
            (td_side tender) (td_quantity tender) (td_price tender)])
    | TenderDecision.Decline => ("declined", [])
    end in
  match decision with
  | TenderDecision.Accept =>
      on_ledger (settle (mkFill (td_instrument_id tender) (td_price tender) (td_quantity tender)
        (match td_side tender with Buy => Some party | Sell => None end)
        (match td_side tender with Buy => None | Sell => Some party end) false))
  | TenderDecision.Decline => mret tt
  end;;
  update (fun s => with_tenders (<[tender_id := with_td_status status tender]> (sim_tenders s)) s);;
  mret (TenderChanged tender_id status :: settled).

Definition open_otc (cx : SimulationContext) (actor logical_time negotiation_id counterparty_id
    instrument_id : Z) (side : Side) (quantity price expires_at : Z)
    : M SimWorld SimulationError (list SimulationEvent) :=
  require_instrument instrument_id;;
  require_participant cx actor;;
  require_participant cx counterparty_id;;
  s ← sim id;
  refuse_if ((quantity <=? 0) || (price <=? 0) || (expires_at <=? logical_time)
             || (counterparty_id =? actor) || bool_decide (is_Some (sim_otc s !! negotiation_id)))
    SimulationError.InvalidCommand;;
  update (fun s => with_otc (<[negotiation_id := mkOtcState negotiation_id actor counterparty_id
    instrument_id side quantity price expires_at "proposed" counterparty_id]> (sim_otc s)) s);;
  mret [OtcChanged negotiation_id "proposed"].

Definition counter_otc (actor logical_time negotiation_id quantity price : Z)
    : M SimWorld SimulationError (list SimulationEvent) :=
  s ← sim id;
  otc ← lift (ok_or (sim_otc s !! negotiation_id) SimulationError.UnknownIdentity);
  refuse_if (negb (actor =? oc_awaiting otc) || negb (otc_open otc)
             || (oc_expires_at otc <=? logical_time) || (quantity <=? 0) || (price <=? 0))
    SimulationError.InvalidLifecycle;;
  update (fun s => with_otc (<[negotiation_id := mkOtcState (oc_negotiation_id otc)
    (oc_proposer_id otc) (oc_counterparty_id otc) (oc_instrument_id otc) (oc_side otc) quantity price
    (oc_expires_at otc) "countered"
    (if actor =? oc_proposer_id otc then oc_counterparty_id otc else oc_proposer_id otc)]>
    (sim_otc s)) s);;
  mret [OtcChanged negotiation_id "countered"].

Definition decide_otc (cx : SimulationContext) (actor logical_time negotiation_id : Z)
    (decision : OtcDecision.OtcDecision) : M SimWorld SimulationError (list SimulationEvent) :=
  s ← sim id;
  otc ← lift (ok_or (sim_otc s !! negotiation_id) SimulationError.UnknownIdentity);
  let party := (actor =? oc_proposer_id otc) || (actor =? oc_counterparty_id otc) in
  let responder := actor =? oc_awaiting otc in
  refuse_if (negb (party && (responder || bool_decide (decision = OtcDecision.Break))))
    SimulationError.NotOwner;;
  refuse_if (negb (otc_open otc) || (oc_expires_at otc <=? logical_time))
    SimulationError.InvalidLifecycle;;
  let '(buyer_id, seller_id) :=
    match oc_side otc with
    | Buy => (oc_proposer_id otc, oc_counterparty_id otc)
    | Sell => (oc_counterparty_id otc, oc_proposer_id otc)
    end in
  let '(status, settled) :=
    match decision with
    | OtcDecision.Accept =>
        ("accepted", [OtcSettled negotiation_id buyer_id seller_id (oc_instrument_id otc)
                        (oc_quantity otc) (oc_price otc)])
    | OtcDecision.Reject => ("rejected", [])
    | OtcDecision.Break => ("broken", [])
    end in
  match decision with
  | OtcDecision.Accept =>
      on_ledger (settle (mkFill (oc_instrument_id otc) (oc_price otc) (oc_quantity otc)
        (Some (context_party cx buyer_id)) (Some (context_party cx seller_id)) false))
  | _ => mret tt
  end;;
  update (fun s => with_otc (<[negotiation_id := with_oc_status status otc]> (sim_otc s)) s);;
  mret (OtcChanged negotiation_id status :: settled).

Definition schedule_cashflow (participant_id currency_id amount effective_at : Z) (reason : string)
    : M SimWorld SimulationError (list SimulationEvent) :=
  validate_reason reason;;
  action_id ← next_action;
  schedule (mkScheduledAction action_id effective_at
    (Cashflow participant_id currency_id amount Adjustment));;
  mret [CashflowScheduled participant_id currency_id amount].

Definition apply_fine (cx : SimulationContext) (actor logical_time participant_id currency_id amount : Z)
    (reason : string) : M SimWorld SimulationError (list SimulationEvent) :=
  validate_reason reason;;
  refuse_if (amount <=? 0) SimulationError.InvalidCommand;;
  require_participant cx participant_id;;
  debit ← lift (ok_or (checked_sub I128 0 amount) SimulationError.ArithmeticOverflow);
  on_ledger (post_cash participant_id currency_id debit);;
  record_admin actor logical_time reason;;
  mret [FineApplied participant_id currency_id amount SIMULATION_POLICY_VERSION;
        AdministratorChangeRecorded reason].

(** [try_fold(0, |total, job| total.checked_add(job.input_quantity))] *)
Fixpoint reserved_capacity (total : Z) (jobs : list FacilityJob) : option Z :=
  match jobs with
  | [] => Some total
  | job :: jobs => total ← checked_add I64 total (fj_input_quantity job); reserved_capacity total jobs
  end.

Definition schedule_facility_job (logical_time facility_id participant_id input_quantity
    output_quantity completes_at : Z) : M SimWorld SimulationError (list SimulationEvent) :=
  s ← sim id;
  facility ← lift (ok_or (sim_facilities s !! facility_id) SimulationError.UnknownIdentity);
  reserved ← lift (ok_or (reserved_capacity 0
    (filter (fun job => fj_facility_id job = facility_id /\ fj_completed job = false)
      (values (sim_facility_jobs s)))) SimulationError.ArithmeticOverflow);
  refuse_if ((input_quantity <=? 0) || (output_quantity <=? 0)
             || match checked_add I64 reserved input_quantity with
                | None => true
                | Some total => fd_capacity facility <? total
                end
             || (completes_at <=? logical_time))
    SimulationError.InvalidCommand;;
  job_id ← next_action;
  update (fun s => with_facility_jobs (<[job_id := mkFacilityJob job_id facility_id participant_id
    input_quantity output_quantity completes_at false]> (sim_facility_jobs s)) s);;
  schedule (mkScheduledAction job_id completes_at (CompleteFacilityJob job_id));;
  mret [FacilityJobScheduled facility_id participant_id].

(** [SimulationState::apply] *)
Definition sim_apply (cx : SimulationContext) (actor logical_time : Z) (command : SimulationCommand)
    : M SimWorld SimulationError (list SimulationEvent) :=
  clock ← sim sim_clock;
  refuse_if (logical_time <? ck_now clock) SimulationError.LogicalTimeRegression;;
  match command with
  | StartRun => change_lifecycle RunLifecycle.Stopped RunLifecycle.Active "active"
  | PauseRun => change_lifecycle RunLifecycle.Active RunLifecycle.Paused "paused"
  | ResumeRun => change_lifecycle RunLifecycle.Paused RunLifecycle.Active "active"
  | Advance steps => advance steps
  | ClockTick => mret []
  | SetPacing mode reason => set_pacing actor logical_time mode reason
  | Terminate reason => terminate actor logical_time reason
  | SetListingHalt instrument_id halted reason =>
      set_listing_halt actor logical_time instrument_id halted reason
  | PublishNews news_id audience headline body =>
      publish_news logical_time news_id audience headline body
  | OpenTender tender_id participant_id instrument_id side quantity price expires_at =>
      open_tender cx logical_time tender_id participant_id instrument_id side quantity price expires_at
  | DecideTender tender_id decision => decide_tender cx actor logical_time tender_id decision
  | OpenOtc negotiation_id counterparty_id instrument_id side quantity price expires_at =>
      open_otc cx actor logical_time negotiation_id counterparty_id instrument_id side quantity price
        expires_at
  | CounterOtc negotiation_id quantity price =>
      counter_otc actor logical_time negotiation_id quantity price
  | DecideOtc negotiation_id decision => decide_otc cx actor logical_time negotiation_id decision
  | SubmitComposite _ _ _ => throw SimulationError.Unsupported
  | ScheduleCashflow participant_id currency_id amount effective_at reason =>
      schedule_cashflow participant_id currency_id amount effective_at reason
  | ApplyFine participant_id currency_id amount reason =>
      apply_fine cx actor logical_time participant_id currency_id amount reason
  | ScheduleFacilityJob facility_id participant_id input_quantity output_quantity completes_at =>
      schedule_facility_job logical_time facility_id participant_id input_quantity output_quantity
        completes_at
  | ScoreIteration => score_iteration cx
  | MassCancel _ _ => throw SimulationError.RequiresMatchingState
  end.

(** * bunting-engine: the simulation domain and the ledger

    Cashflows, facility jobs, tenders, OTC trades and fines move cash and
    positions.  None of them, on any outcome, touches what open orders have
    reserved. *)

Create HintDb frame.

(** ** Ledger operations without orders *)

(** The ledger stays well formed and keeps every claim. *)
Definition ledger_kept (l l' : Ledger) : Prop := same_claims l l' /\ (ledger_ok l -> ledger_ok l').
Definition world_kept (w w' : SimWorld) : Prop :=
  ledger_kept (sw_ledger w) (sw_ledger w') /\
  sim_policy_version (sw_sim w') = sim_policy_version (sw_sim w).

#[export] Instance ledger_kept_preorder : PreOrder ledger_kept.
Proof.
  split; [by intros l |]. intros l1 l2 l3 [H1 K1] [H2 K2]. split; [by etrans | auto].
Qed.
#[export] Instance world_kept_preorder : PreOrder world_kept.
Proof.
  split; [by intros w |]. intros w1 w2 w3 [H1 P1] [H2 P2]. split; [by etrans | congruence].
Qed.

(** A fill that does not set the mark. *)
Lemma settle_unmarked_ok f l l' u :
  fl_set_mark f = false -> ledger_ok l -> settle f l = (l', Ok u) -> ledger_ok l'.
Proof.
  intros Hm Hl (t & v & l1 & l2 & _ & _ & _ & _ & H1 & H2 & ->)%settle_steps. rewrite Hm.
  exact (party_step_ok _ _ _ _ _ _ _ (party_step_ok _ _ _ _ _ _ _ Hl H1) H2).
Qed.

Lemma keeps_op op :
  op_typed op -> (forall l l' u, run_op op l = (l', Ok u) -> same_claims l l') ->
  keeps ledger_kept (run_op op).
Proof.
  intros Ht Hc l. destruct (run_op op l) as [l' [u|e]] eqn:Hrun; simpl.
  - split; [by eapply Hc |]. intros Hl. by eapply run_op_ok.
  - by rewrite (run_op_fails_clean op _ _ _ Hrun).
Qed.
Lemma keeps_post_cash p c a : keeps ledger_kept (post_cash p c a).
Proof. apply (keeps_op (OpPostCash p c a)); [done |]. intros l l' u. apply post_cash_claims. Qed.
Lemma keeps_convert p i o : keeps ledger_kept (convert p i o).
Proof. apply (keeps_op (OpConvert p i o)); [done |]. intros l l' u. apply convert_claims. Qed.
Lemma keeps_set_mark i p : is_i64 p -> keeps ledger_kept (set_mark i p).
Proof. intros Hp. apply (keeps_op (OpSetMark i p)); [done |]. intros l l' u. apply set_mark_claims. Qed.
Lemma keeps_settle f :
  fl_set_mark f = false ->
  (forall party, fl_buyer f = Some party \/ fl_seller f = Some party -> fp_order party = None) ->
  keeps ledger_kept (settle f).
Proof.
  intros Hm Hno l. destruct (settle f l) as [l' [u|e]] eqn:Hrun; simpl.
  - split; [by eapply settle_claims |]. intros Hl. by eapply settle_unmarked_ok.
  - by rewrite (fails_clean_settle f _ _ _ Hrun).
Qed.

(** Whatever the outcome and the arguments, only [configure_instrument]
    writes the terms. *)
Definition same_terms (l l' : Ledger) : Prop := lg_terms l' = lg_terms l.
#[export] Instance same_terms_preorder : PreOrder same_terms.
Proof. split; [done |]. intros l1 l2 l3. unfold same_terms. congruence. Qed.

Lemma fails_keeps op :
  (forall l l' u, run_op op l = (l', Ok u) -> lg_terms l' = lg_terms l) -> keeps same_terms (run_op op).
Proof.
  intros Hop l. destruct (run_op op l) as [l' [u|e]] eqn:Hrun; simpl; [by eapply Hop |].
  by rewrite (run_op_fails_clean op _ _ _ Hrun).
Qed.
Lemma terms_change_open p i s q r o : keeps same_terms (change_open p i s q r o).
Proof.
  unfold change_open.
  repeat first
    [ apply keeps_bind; [apply same_terms_preorder | | intros ?]
    | by apply keeps_modify
    | by intros l
    | progress case_match
    | by intros l; unfold refuse_if; case_match ].
Qed.
Lemma terms_settle f : keeps same_terms (settle f).
Proof. apply (fails_keeps (OpSettle f)). by intros l l' u (t & _ & ? & _)%settle_held. Qed.
Lemma terms_set_mark i p : keeps same_terms (set_mark i p).
Proof. apply (fails_keeps (OpSetMark i p)). by intros l l' u [? _]%set_mark_claims. Qed.
Lemma terms_open_order p i s q r : keeps same_terms (open_order p i s q r).
Proof. unfold open_order, close_order. exact (terms_change_open _ _ _ _ _ _). Qed.
Lemma terms_close_order p i s q r : keeps same_terms (close_order p i s q r).
Proof. unfold open_order, close_order. exact (terms_change_open _ _ _ _ _ _). Qed.
#[export] Hint Resolve terms_settle terms_set_mark terms_open_order terms_close_order : frame.

(** ** Walking the simulation operations *)

Lemma kept_on_ledger {A} (m : M Ledger LedgerError A) : keeps ledger_kept m -> keeps world_kept (on_ledger m).
Proof. intros Hm w. specialize (Hm (sw_ledger w)). unfold on_ledger. by destruct (m (sw_ledger w)). Qed.
Lemma kept_update f :
  (forall s, sim_policy_version (f s) = sim_policy_version s) -> keeps world_kept (update f).
Proof. intros Hf w. split; [simpl; reflexivity | apply Hf]. Qed.
Lemma kept_sim {A} (f : SimulationState -> A) : keeps world_kept (sim f).
Proof. intros w. reflexivity. Qed.
Lemma kept_gets {A} (f : SimWorld -> A) : keeps (E := SimulationError) world_kept (gets f).
Proof. intros w. reflexivity. Qed.
Lemma kept_lift {A} (r : result SimulationError A) : keeps world_kept (lift r).
Proof. intros w. reflexivity. Qed.
Lemma kept_ret {A} (a : A) : keeps (E := SimulationError) world_kept (mret a).
Proof. intros w. reflexivity. Qed.
Lemma kept_refuse b e : keeps world_kept (refuse_if (E := SimulationError) b e).
Proof. intros w. by destruct b. Qed.
Lemma kept_throw {A} e : keeps world_kept (throw (E := SimulationError) (A := A) e).
Proof. intros w. reflexivity. Qed.

Create HintDb kept.
#[export] Hint Resolve kept_sim kept_gets kept_lift kept_ret kept_refuse kept_throw
  kept_on_ledger keeps_post_cash keeps_convert : kept.

(** Walks a simulation operation down to its writes. *)
Ltac kept :=
  repeat first
    [ solve [auto with kept]
    | apply keeps_bind; [apply world_kept_preorder | | intros ?]
    | apply kept_on_ledger
    | apply kept_update; intros ?; solve [done | by repeat case_match]
    | apply keeps_settle; [done | intros ? [?|?]; by simplify_eq/=]
    | progress case_match
    | done ].

Lemma kept_require_lifecycle r : keeps world_kept (require_lifecycle r).
Proof. unfold require_lifecycle. kept. Qed.
Lemma kept_schedule a : keeps world_kept (schedule a).
Proof. unfold schedule. kept. Qed.
Lemma kept_next_action : keeps world_kept next_action.
Proof. unfold next_action. kept. Qed.
Lemma kept_apply_scheduled a : keeps world_kept (apply_scheduled a).
Proof. unfold apply_scheduled. kept. Qed.
#[export] Hint Resolve kept_require_lifecycle kept_schedule kept_next_action kept_apply_scheduled : kept.
Lemma kept_apply_due due : keeps world_kept (apply_due due).
Proof. induction due as [|a due IH]; simpl; kept. Qed.
#[export] Hint Resolve kept_apply_due : kept.
Lemma kept_catch_up to sweep : keeps world_kept (sim_catch_up to sweep).
Proof. unfold sim_catch_up. kept. Qed.
#[export] Hint Resolve kept_catch_up : kept.

Lemma kept_sim_apply cx actor now command : keeps world_kept (sim_apply cx actor now command).
Proof.
  unfold sim_apply. apply keeps_bind; [apply _ | kept |]. intros clock.
  apply keeps_bind; [apply _ | kept |]. intros _.
  destruct command; try solve [kept];
    unfold change_lifecycle, advance, set_pacing, terminate, set_listing_halt, publish_news, open_tender,
      decide_tender, open_otc, counter_otc, decide_otc, schedule_cashflow, apply_fine,
      schedule_facility_job, score_iteration, record_admin, validate_reason, require_instrument,
      require_participant, route_news; kept.
Qed.

(** Projecting an event into the market views. *)
Definition same_policy (s s' : SimulationState) : Prop := sim_policy_version s' = sim_policy_version s.
#[export] Instance same_policy_preorder : PreOrder same_policy.
Proof. split; [done |]. intros s1 s2 s3. unfold same_policy. congruence. Qed.

Lemma keeps_project_event now p : keeps same_policy (project_event now p).
Proof.
  unfold project_event. destruct p; try (by intros s);
  repeat first
    [ apply keeps_bind; [apply same_policy_preorder | | intros ?]
    | by apply keeps_modify
    | by intros s
    | progress case_match
    | by intros s; unfold refuse_if; case_match ].
Qed.
