(* ===== verification/Scenario.v ===== *)
(** * bunting-engine: scenario definitions and the scenario catalog

    Models the immutable inputs of [packages/bunting-engine/src/lib.rs]
    (fee schedules, listings, instruments, scenarios), their validation and
    the publication catalog.  The content hash is SHA-256 over the JSON of
    the definition; the encoder is the class [ScenarioCodec]. *)

From S2P Require Import Prelude Ordered Digest MarketTypes MarketEvents Ledger Risk Calendar.
From S2P Require Import Simulation.
From Stdlib Require Import Ascii.
#[local] Open Scope Z_scope.

Definition SCENARIO_SCHEMA_VERSION : Z := 2.
Definition MAX_INSTRUMENTS : nat := 256.
Definition MAX_LISTINGS : nat := 64.
Definition MAX_PARTICIPANTS : nat := 1024.
Definition MAX_CATALOG : nat := 4096.

(** ** Data *)

Record FeeSchedule : Type := mkFeeSchedule {
  fs_taker_per_lot : Z;
  fs_maker_per_lot : Z
}.

(** [FeeSchedule::bound] *)
Definition fee_bound (f : FeeSchedule) : Z :=
  Z.max (Z.max (fs_taker_per_lot f) (fs_maker_per_lot f)) 0.

Record ListingDefinition : Type := mkListingDefinition {
  ld_key : ListingKey;
  ld_symbol : string;
  ld_price_bounds : PriceBounds;
  ld_fees : FeeSchedule;
  ld_broker_ids : bool;
  ld_primary : bool;
  ld_tick_size : Z
}.

Record InstrumentDefinition : Type := mkInstrumentDefinition {
  id_instrument_id : Z;
  id_symbol : string;
  id_currency : Z;
  id_kind : InstrumentKind.InstrumentKind;
  id_multiplier : Z;
  id_shortable : bool;
  id_opening_mark : option Z;
  id_quoted_decimals : Z;
  id_display_unit : string;
  id_description : string
}.

Record ScenarioDefinition : Type := mkScenarioDefinition {
  sd_schema_version : Z;
  sd_scenario_id : Z;
  sd_scenario_version : Z;
  sd_reporting_currency : Z;
  sd_fx_rates : list FxRate;
  sd_instruments : gmap Z InstrumentDefinition;
  sd_listings : gmap ListingKey ListingDefinition;
  sd_participants : gmap Z ParticipantDefinition;
  sd_simulation : SimulationScenario;
  sd_calendar : option Calendar
}.

Module ScenarioError.
Inductive ScenarioError : Type :=
  | UnsupportedSchemaVersion
  | InvalidInstrument
  | InvalidCurrency
  | ListingBound
  | ParticipantBound
  | DuplicateListing
  | DuplicateParticipant
  | InvalidListing
  | InvalidParticipant
  | InvalidScenarioIdentity
  | InvalidSimulation
  | InvalidCalendar
  | PrimaryListing.
End ScenarioError.
Export ScenarioError (ScenarioError).

Module SnapshotError.
Inductive SnapshotError : Type := Serialization | UnsupportedVersion | HashMismatch | InvalidScenario.
End SnapshotError.
Export SnapshotError (SnapshotError).

(** ** Validation *)

(** [InstrumentDefinition::terms] *)
Definition instrument_terms (d : InstrumentDefinition) : InstrumentTerms :=
  mkInstrumentTerms (id_currency d) (id_multiplier d) (id_shortable d).

(** [symbol.is_empty() || symbol.len() > 128] *)
Definition bad_symbol (symbol : string) : bool :=
  (String.length symbol =? 0)%nat || (128 <? String.length symbol)%nat.

(** [InstrumentDefinition::validate] *)
Definition instrument_validate (d : InstrumentDefinition) : result ScenarioError unit :=
  err_if ((id_instrument_id d =? 0) || bad_symbol (id_symbol d) || (id_currency d =? 0)
          || (id_multiplier d <=? 0)
          || match id_opening_mark d with Some mark => mark <=? 0 | None => false end)
    ScenarioError.InvalidInstrument.

(** The first loop of [ScenarioDefinition::validate_listings]. *)
Definition validate_listing (s : ScenarioDefinition) (e : ListingKey * ListingDefinition)
    : result ScenarioError unit :=
  let '(key, listing) := e in
  _ ← err_if ((lk_venue_id key =? 0) || (lk_instrument_id key =? 0)
              || negb (bool_decide (key = ld_key listing)) || bad_symbol (ld_symbol listing)
              || negb (bool_decide (is_Some (sd_instruments s !! lk_instrument_id key))))
        ScenarioError.InvalidListing;
  _ ← map_err (fun _ => ScenarioError.InvalidListing)
        (PriceBounds_validate (ld_price_bounds listing) (pb_min (ld_price_bounds listing)));
  _ ← err_if ((ld_tick_size listing <? 1)
              || negb (Z.rem (pb_min (ld_price_bounds listing)) (ld_tick_size listing) =? 0))
        ScenarioError.InvalidListing;
  err_if (existsb (fun other => (lk_venue_id (ld_key other) =? lk_venue_id key)
                                && negb (Bool.eqb (ld_broker_ids other) (ld_broker_ids listing)))
            (values (sd_listings s)))
    ScenarioError.InvalidListing.

(** The second loop: primary listings of one instrument. *)
Definition listings_of (s : ScenarioDefinition) (instrument_id : Z) : list ListingDefinition :=
  filter (fun l => lk_instrument_id (ld_key l) = instrument_id) (values (sd_listings s)).
Definition validate_primary (s : ScenarioDefinition) (instrument_id : Z) : result ScenarioError unit :=
  let listings := listings_of s instrument_id in
  let count := length listings in
  let primaries := length (filter (fun l => ld_primary l = true) listings) in
  err_if ((1 <? primaries)%nat
          || (bool_decide (is_Some (sd_calendar s)) && (1 <? count)%nat && (primaries =? 0)%nat))
    ScenarioError.PrimaryListing.

(** [ScenarioDefinition::validate_listings] *)
Definition validate_listings (s : ScenarioDefinition) : result ScenarioError unit :=
  _ ← check_all (validate_listing s) (entries (sd_listings s));
  check_all (validate_primary s) (keys (sd_instruments s)).

(** The closure [currency_supported]. *)
Definition currency_supported (s : ScenarioDefinition) (currency : Z) : bool :=
  (currency =? sd_reporting_currency s)
  || existsb (fun rate => fx_currency rate =? currency) (sd_fx_rates s).

(** The loop over the conversion rates, with the rates before the current one. *)
Fixpoint validate_rates (s : ScenarioDefinition) (before rates : list FxRate)
    : result ScenarioError unit :=
  match rates with
  | [] => Ok tt
  | rate :: rates =>
      _ ← err_if ((fx_currency rate =? sd_reporting_currency s)
                  || (fx_minor_units_per_lot rate <=? 0)
                  || existsb (fun other => fx_currency other =? fx_currency rate) before
                  || match sd_instruments s !! fx_instrument_id rate with
                     | None => true
                     | Some instrument => negb (id_currency instrument =? sd_reporting_currency s)
                     end)
            ScenarioError.InvalidCurrency;
      validate_rates s (before ++ [rate]) rates
  end.

(** The loop over the participants. *)
Definition validate_participant (s : ScenarioDefinition) (e : Z * ParticipantDefinition)
    : result ScenarioError unit :=
  let '(participant_id, participant) := e in
  _ ← err_if (negb (participant_id =? pd_participant_id participant)
              || (MAX_INSTRUMENTS <? size (pd_initial_positions participant))%nat
              || (MAX_INSTRUMENTS <? size (pd_initial_cash participant))%nat
              || existsb (fun currency => (currency =? 0) || negb (currency_supported s currency))
                   (keys (pd_initial_cash participant)))
        ScenarioError.InvalidParticipant;
  check_all (fun '(instrument, quantity) =>
    definition ← ok_or (sd_instruments s !! instrument) ScenarioError.InvalidParticipant;
    _ ← err_if (negb (quantity =? 0) && bool_decide (id_opening_mark definition = None))
          ScenarioError.InvalidParticipant;
    err_if ((quantity <? 0) && negb (id_shortable definition)) ScenarioError.InvalidParticipant)
    (entries (pd_initial_positions participant)).

(** [ScenarioDefinition::validate] *)
Definition validate_scenario (s : ScenarioDefinition) : result ScenarioError unit :=
  _ ← err_if (negb (sd_schema_version s =? SCENARIO_SCHEMA_VERSION))
        ScenarioError.UnsupportedSchemaVersion;
  _ ← err_if ((sd_scenario_id s =? 0) || (sd_scenario_version s =? 0))
        ScenarioError.InvalidScenarioIdentity;
  _ ← err_if ((size (sd_listings s) =? 0)%nat || (MAX_LISTINGS <? size (sd_listings s))%nat)
        ScenarioError.ListingBound;
  _ ← err_if ((size (sd_instruments s) =? 0)%nat || (MAX_INSTRUMENTS <? size (sd_instruments s))%nat)
        ScenarioError.InvalidInstrument;
  _ ← err_if (MAX_PARTICIPANTS <? size (sd_participants s))%nat ScenarioError.ParticipantBound;
  _ ← check_all (fun '(id, instrument) =>
        _ ← err_if (negb (id =? id_instrument_id instrument)) ScenarioError.InvalidInstrument;
        instrument_validate instrument) (entries (sd_instruments s));
  _ ← err_if (sd_reporting_currency s =? 0) ScenarioError.InvalidCurrency;
  _ ← validate_rates s [] (sd_fx_rates s);
  _ ← err_if (existsb (fun instrument => negb (currency_supported s (id_currency instrument)))
                (values (sd_instruments s))) ScenarioError.InvalidCurrency;
  _ ← validate_listings s;
  _ ← check_all (validate_participant s) (entries (sd_participants s));
  _ ← map_err (fun _ => ScenarioError.InvalidSimulation) (scenario_validate (sd_simulation s));
  _ ← err_if (existsb (fun i => negb (bool_decide (is_Some (sd_instruments s !! i))))
                (referenced_instruments (sd_simulation s))) ScenarioError.InvalidSimulation;
  let venues : gset Z := list_to_set (lk_venue_id <$> keys (sd_listings s)) in
  err_if (match sd_calendar s with
          | Some calendar => negb (calendar_is_valid calendar venues)
          | None => false
          end) ScenarioError.InvalidCalendar.

(** ** Construction *)

(** The insertion loops of [ScenarioDefinition::new]: a repeated key is an
    error. *)
Fixpoint collect_unique {K V} `{Countable K} (key : V -> K) (e : ScenarioError) (l : list V)
    (m : gmap K V) : result ScenarioError (gmap K V) :=
  match l with
  | [] => Ok m
  | v :: l =>
      if bool_decide (is_Some (m !! key v)) then Err e
      else collect_unique key e l (<[key v := v]> m)
  end.

(** [ScenarioDefinition::new] *)
Definition scenario_new (scenario_id scenario_version : Z) (instruments : list InstrumentDefinition)
    (listings : list ListingDefinition) (participants : list ParticipantDefinition)
    : result ScenarioError ScenarioDefinition :=
  instrument_map ← collect_unique id_instrument_id ScenarioError.InvalidInstrument instruments ∅;
  listing_map ← collect_unique ld_key ScenarioError.DuplicateListing listings ∅;
  participant_map ← collect_unique pd_participant_id ScenarioError.DuplicateParticipant participants ∅;
  reporting ← ok_or (min_list (id_currency <$> values instrument_map)) ScenarioError.InvalidInstrument;
  let definition := mkScenarioDefinition SCENARIO_SCHEMA_VERSION scenario_id scenario_version
    reporting [] instrument_map listing_map participant_map SimulationScenario_default None in
  _ ← validate_scenario definition;
  Ok definition.

(** [ScenarioDefinition::with_reporting], [with_simulation], [with_calendar] *)
Definition with_reporting (reporting_currency : Z) (fx_rates : list FxRate) (s : ScenarioDefinition)
    : result ScenarioError ScenarioDefinition :=
  let s := mkScenarioDefinition (sd_schema_version s) (sd_scenario_id s) (sd_scenario_version s)
    reporting_currency fx_rates (sd_instruments s) (sd_listings s) (sd_participants s)
    (sd_simulation s) (sd_calendar s) in
  _ ← validate_scenario s;
  Ok s.
Definition with_simulation (simulation : SimulationScenario) (s : ScenarioDefinition)
    : result ScenarioError ScenarioDefinition :=
  _ ← map_err (fun _ => ScenarioError.InvalidSimulation) (scenario_validate simulation);
  let s := mkScenarioDefinition (sd_schema_version s) (sd_scenario_id s) (sd_scenario_version s)
    (sd_reporting_currency s) (sd_fx_rates s) (sd_instruments s) (sd_listings s) (sd_participants s)
    simulation (sd_calendar s) in
  _ ← validate_scenario s;
  Ok s.
Definition with_calendar (calendar : Calendar) (s : ScenarioDefinition)
    : result ScenarioError ScenarioDefinition :=
  let s := mkScenarioDefinition (sd_schema_version s) (sd_scenario_id s) (sd_scenario_version s)
    (sd_reporting_currency s) (sd_fx_rates s) (sd_instruments s) (sd_listings s) (sd_participants s)
    (sd_simulation s) (Some calendar) in
  _ ← validate_scenario s;
  Ok s.

(** ** Content hash and catalog *)

(** [serde_json::to_vec] on a scenario. *)
Class ScenarioCodec := { json_scenario : ScenarioDefinition -> option Bytes }.

Module ScenarioCatalogError.
Inductive ScenarioCatalogError : Type := InvalidScenario | Hash | VersionConflict | CatalogFull.
End ScenarioCatalogError.
Export ScenarioCatalogError (ScenarioCatalogError).

Inductive PublishScenarioOutcome : Type := Published | AlreadyPublished.

Record PublishedScenario : Type := mkPublishedScenario {
  ps_definition : ScenarioDefinition;
  ps_content_hash : list ascii
}.

Section catalog.
Context `{Sha256} `{ScenarioCodec}.

(** [fn hash_serializable] after encoding *)
Definition hash_json (json : option Bytes) : result SnapshotError (list ascii) :=
  bytes ← ok_or json SnapshotError.Serialization;
  Ok (hex (sha256 bytes)).

(** [ScenarioDefinition::content_hash] *)
Definition content_hash (s : ScenarioDefinition) : result SnapshotError (list ascii) :=
  _ ← map_err (fun _ => SnapshotError.InvalidScenario) (validate_scenario s);
  hash_json (json_scenario s).

Definition same_version (scenario_id scenario_version : Z) (r : PublishedScenario) : bool :=
  (sd_scenario_id (ps_definition r) =? scenario_id)
  && (sd_scenario_version (ps_definition r) =? scenario_version).

(** [ScenarioCatalog::get] *)
Definition catalog_get (scenario_id scenario_version : Z) (records : list PublishedScenario)
    : option PublishedScenario :=
  head (filter (same_version scenario_id scenario_version) records).

(** [sort_by_key(|r| (r.scenario_id, r.scenario_version))]; the pairs are
    distinct, so stability does not show. *)
Definition published_key (r : PublishedScenario) : Z * Z :=
  (sd_scenario_id (ps_definition r), sd_scenario_version (ps_definition r)).
Definition published_le (a b : PublishedScenario) : Prop :=
  ord_le (published_key a) (published_key b).
#[export] Instance published_le_dec : RelDecision published_le.
Proof. intros a b. unfold published_le. apply _. Defined.

(** [ScenarioCatalog::publish] on the record vector *)
Definition publish (definition : ScenarioDefinition)
    : M (list PublishedScenario) ScenarioCatalogError PublishScenarioOutcome :=
  lift (map_err (fun _ => ScenarioCatalogError.InvalidScenario) (validate_scenario definition));;
  hash ← lift (map_err (fun _ => ScenarioCatalogError.Hash) (content_hash definition));
  records ← gets id;
  match catalog_get (sd_scenario_id definition) (sd_scenario_version definition) records with
  | Some existing =>
      if bool_decide (ps_content_hash existing = hash) then mret AlreadyPublished
      else throw ScenarioCatalogError.VersionConflict
  | None =>
      refuse_if (length records =? MAX_CATALOG)%nat ScenarioCatalogError.CatalogFull;;
      modify (fun records => merge_sort published_le
        (records ++ [mkPublishedScenario definition hash]));;
      mret Published
  end.
End catalog.
