(* ===== verification/Engine.v ===== *)
(** * bunting-engine: the run state machine

    Models [RunState] of [packages/bunting-engine/src/lib.rs]: admission,
    matching and settlement of orders, cancellation, the trading calendar,
    the run clock and the in-place transitions [apply] and
    [apply_simulation].

    The methods that append to the [payloads] vector and the
    [changed_listings] set act on [Txn], the run together with these two.
    [Book], [Ledger] and [SimulationState] are used through their own
    operations. *)

From S2P Require Import Prelude Ordered Digest MarketTypes MarketEvents Ledger Risk Book Auction.
From S2P Require Import Calendar Simulation Scenario Transition.
From Stdlib Require Import Ascii.
#[local] Open Scope string_scope.
#[local] Open Scope list_scope.
#[local] Open Scope Z_scope.

Definition ENGINE_VERSION : Z := 5.
Definition ENGINE_SNAPSHOT_VERSION : Z := 5.
Definition MAX_LIVE_ORDERS : Z := 250000.
Definition MAX_RETIRED_ORDERS : nat := Z.to_nat 65536.

(** ** Data *)

Record EngineConfig : Type := mkEngineConfig {
  ec_engine_version : Z;
  ec_max_listings : Z
}.

(** [EngineConfig::default()] *)
Definition EngineConfig_default : EngineConfig := mkEngineConfig ENGINE_VERSION 64.

Module OwnedOrderState.
Inductive OwnedOrderState : Type := Active | Filled | Canceled.
#[export] Instance OwnedOrderState_eq_dec : EqDecision OwnedOrderState.
Proof. solve_decision. Defined.
End OwnedOrderState.
#[export] Existing Instance OwnedOrderState.OwnedOrderState_eq_dec.

Record OwnedOrder : Type := mkOwnedOrder {
  oo_order_id : Z;
  oo_participant_id : Z;
  oo_listing_key : ListingKey;
  oo_side : Side;
  oo_limit_price : Z;
  oo_original_quantity : Z;
  oo_remaining_quantity : Z;
  oo_state : OwnedOrderState.OwnedOrderState;
  oo_reservation : Reservation;
  oo_expires_at : option Z;
  oo_day : bool;
  oo_anonymous : bool
}.

Record ListingState : Type := mkListingState {
  ls_definition : ListingDefinition;
  ls_book : Book
}.

#[export] Instance InstrumentTerms_eq_dec : EqDecision InstrumentTerms.
Proof. solve_decision. Defined.

(** The complete authoritative state of a run.  The deque [retired] is a
    list, oldest first. *)
Record RunState : Type := mkRunState {
  rs_run_id : Z;
  rs_sequence : Z;
  rs_event_sequence : Z;
  rs_iteration_id : Z;
  rs_scenario_id : Z;
  rs_scenario_version : Z;
  rs_scenario_hash : list ascii;
  rs_config : EngineConfig;
  rs_reporting_currency : Z;
  rs_fx_rates : list FxRate;
  rs_instruments : gmap Z InstrumentDefinition;
  rs_listings : gmap ListingKey ListingState;
  rs_participants : gmap Z ParticipantDefinition;
  rs_ledger : Ledger;
  rs_ownership : gmap Z OwnedOrder;
  rs_retired : list Z;
  rs_expiries : gset (Z * Z);
  rs_live_orders : gmap Z Z;
  rs_kill_switched : gset Z;
  rs_simulation : SimulationState;
  rs_calendar : option Calendar;
  rs_session_steps : gmap Z Z;
  rs_day_trades : gmap ListingKey Z;
  rs_closes : gmap ListingKey Z
}.

(** [EngineError].  [IndexPanic] stands for the panic of an indexing
    expression [self.listings[&key]] or [scenario.instruments[id]] on a missing
    key. *)
Module EngineError.
Inductive EngineError : Type :=
  | InvalidScenario
  | UnknownListing
  | AmbiguousListing
  | SequenceConflict (current : Z)
  | SequenceOverflow
  | OwnershipInvariant
  | Accounting
  | Simulation (e : SimulationError)
  | Snapshot (e : SnapshotError)
  | IndexPanic.
End EngineError.
Export EngineError (EngineError).

(** Field assignments of the source. *)
Definition set_sequence (v : Z) (s : RunState) : RunState :=
  mkRunState (rs_run_id s) v (rs_event_sequence s) (rs_iteration_id s) (rs_scenario_id s)
    (rs_scenario_version s) (rs_scenario_hash s) (rs_config s) (rs_reporting_currency s)
    (rs_fx_rates s) (rs_instruments s) (rs_listings s) (rs_participants s) (rs_ledger s)
    (rs_ownership s) (rs_retired s) (rs_expiries s) (rs_live_orders s) (rs_kill_switched s)
    (rs_simulation s) (rs_calendar s) (rs_session_steps s) (rs_day_trades s) (rs_closes s).
Definition set_event_sequence (v : Z) (s : RunState) : RunState :=
  mkRunState (rs_run_id s) (rs_sequence s) v (rs_iteration_id s) (rs_scenario_id s)
    (rs_scenario_version s) (rs_scenario_hash s) (rs_config s) (rs_reporting_currency s)
    (rs_fx_rates s) (rs_instruments s) (rs_listings s) (rs_participants s) (rs_ledger s)
    (rs_ownership s) (rs_retired s) (rs_expiries s) (rs_live_orders s) (rs_kill_switched s)
    (rs_simulation s) (rs_calendar s) (rs_session_steps s) (rs_day_trades s) (rs_closes s).
Definition set_listings (v : gmap ListingKey ListingState) (s : RunState) : RunState :=
  mkRunState (rs_run_id s) (rs_sequence s) (rs_event_sequence s) (rs_iteration_id s)
    (rs_scenario_id s) (rs_scenario_version s) (rs_scenario_hash s) (rs_config s)
    (rs_reporting_currency s) (rs_fx_rates s) (rs_instruments s) v (rs_participants s)
    (rs_ledger s) (rs_ownership s) (rs_retired s) (rs_expiries s) (rs_live_orders s)
    (rs_kill_switched s) (rs_simulation s) (rs_calendar s) (rs_session_steps s) (rs_day_trades s)
    (rs_closes s).
Definition set_ledger (v : Ledger) (s : RunState) : RunState :=
  mkRunState (rs_run_id s) (rs_sequence s) (rs_event_sequence s) (rs_iteration_id s)
    (rs_scenario_id s) (rs_scenario_version s) (rs_scenario_hash s) (rs_config s)
    (rs_reporting_currency s) (rs_fx_rates s) (rs_instruments s) (rs_listings s)
    (rs_participants s) v (rs_ownership s) (rs_retired s) (rs_expiries s) (rs_live_orders s)
    (rs_kill_switched s) (rs_simulation s) (rs_calendar s) (rs_session_steps s) (rs_day_trades s)
    (rs_closes s).
Definition set_ownership (v : gmap Z OwnedOrder) (s : RunState) : RunState :=
  mkRunState (rs_run_id s) (rs_sequence s) (rs_event_sequence s) (rs_iteration_id s)
    (rs_scenario_id s) (rs_scenario_version s) (rs_scenario_hash s) (rs_config s)
    (rs_reporting_currency s) (rs_fx_rates s) (rs_instruments s) (rs_listings s)
    (rs_participants s) (rs_ledger s) v (rs_retired s) (rs_expiries s) (rs_live_orders s)
    (rs_kill_switched s) (rs_simulation s) (rs_calendar s) (rs_session_steps s) (rs_day_trades s)
    (rs_closes s).
Definition set_retired (v : list Z) (s : RunState) : RunState :=
  mkRunState (rs_run_id s) (rs_sequence s) (rs_event_sequence s) (rs_iteration_id s)
    (rs_scenario_id s) (rs_scenario_version s) (rs_scenario_hash s) (rs_config s)
    (rs_reporting_currency s) (rs_fx_rates s) (rs_instruments s) (rs_listings s)
    (rs_participants s) (rs_ledger s) (rs_ownership s) v (rs_expiries s) (rs_live_orders s)
    (rs_kill_switched s) (rs_simulation s) (rs_calendar s) (rs_session_steps s) (rs_day_trades s)
    (rs_closes s).
Definition set_expiries (v : gset (Z * Z)) (s : RunState) : RunState :=
  mkRunState (rs_run_id s) (rs_sequence s) (rs_event_sequence s) (rs_iteration_id s)
    (rs_scenario_id s) (rs_scenario_version s) (rs_scenario_hash s) (rs_config s)
    (rs_reporting_currency s) (rs_fx_rates s) (rs_instruments s) (rs_listings s)
    (rs_participants s) (rs_ledger s) (rs_ownership s) (rs_retired s) v (rs_live_orders s)
    (rs_kill_switched s) (rs_simulation s) (rs_calendar s) (rs_session_steps s) (rs_day_trades s)
    (rs_closes s).
Definition set_live_orders (v : gmap Z Z) (s : RunState) : RunState :=
  mkRunState (rs_run_id s) (rs_sequence s) (rs_event_sequence s) (rs_iteration_id s)
    (rs_scenario_id s) (rs_scenario_version s) (rs_scenario_hash s) (rs_config s)
    (rs_reporting_currency s) (rs_fx_rates s) (rs_instruments s) (rs_listings s)
    (rs_participants s) (rs_ledger s) (rs_ownership s) (rs_retired s) (rs_expiries s) v
    (rs_kill_switched s) (rs_simulation s) (rs_calendar s) (rs_session_steps s) (rs_day_trades s)
    (rs_closes s).
Definition set_kill_switched (v : gset Z) (s : RunState) : RunState :=
  mkRunState (rs_run_id s) (rs_sequence s) (rs_event_sequence s) (rs_iteration_id s)
    (rs_scenario_id s) (rs_scenario_version s) (rs_scenario_hash s) (rs_config s)
    (rs_reporting_currency s) (rs_fx_rates s) (rs_instruments s) (rs_listings s)
    (rs_participants s) (rs_ledger s) (rs_ownership s) (rs_retired s) (rs_expiries s)
    (rs_live_orders s) v (rs_simulation s) (rs_calendar s) (rs_session_steps s) (rs_day_trades s)
    (rs_closes s).
Definition set_simulation (v : SimulationState) (s : RunState) : RunState :=
  mkRunState (rs_run_id s) (rs_sequence s) (rs_event_sequence s) (rs_iteration_id s)
    (rs_scenario_id s) (rs_scenario_version s) (rs_scenario_hash s) (rs_config s)
    (rs_reporting_currency s) (rs_fx_rates s) (rs_instruments s) (rs_listings s)
    (rs_participants s) (rs_ledger s) (rs_ownership s) (rs_retired s) (rs_expiries s)
    (rs_live_orders s) (rs_kill_switched s) v (rs_calendar s) (rs_session_steps s)
    (rs_day_trades s) (rs_closes s).
Definition set_session_steps (v : gmap Z Z) (s : RunState) : RunState :=
  mkRunState (rs_run_id s) (rs_sequence s) (rs_event_sequence s) (rs_iteration_id s)
    (rs_scenario_id s) (rs_scenario_version s) (rs_scenario_hash s) (rs_config s)
    (rs_reporting_currency s) (rs_fx_rates s) (rs_instruments s) (rs_listings s)
    (rs_participants s) (rs_ledger s) (rs_ownership s) (rs_retired s) (rs_expiries s)
    (rs_live_orders s) (rs_kill_switched s) (rs_simulation s) (rs_calendar s) v (rs_day_trades s)
    (rs_closes s).
Definition set_day_trades (v : gmap ListingKey Z) (s : RunState) : RunState :=
  mkRunState (rs_run_id s) (rs_sequence s) (rs_event_sequence s) (rs_iteration_id s)
    (rs_scenario_id s) (rs_scenario_version s) (rs_scenario_hash s) (rs_config s)
    (rs_reporting_currency s) (rs_fx_rates s) (rs_instruments s) (rs_listings s)
    (rs_participants s) (rs_ledger s) (rs_ownership s) (rs_retired s) (rs_expiries s)
    (rs_live_orders s) (rs_kill_switched s) (rs_simulation s) (rs_calendar s) (rs_session_steps s)
    v (rs_closes s).
Definition set_closes (v : gmap ListingKey Z) (s : RunState) : RunState :=
  mkRunState (rs_run_id s) (rs_sequence s) (rs_event_sequence s) (rs_iteration_id s)
    (rs_scenario_id s) (rs_scenario_version s) (rs_scenario_hash s) (rs_config s)
    (rs_reporting_currency s) (rs_fx_rates s) (rs_instruments s) (rs_listings s)
    (rs_participants s) (rs_ledger s) (rs_ownership s) (rs_retired s) (rs_expiries s)
    (rs_live_orders s) (rs_kill_switched s) (rs_simulation s) (rs_calendar s) (rs_session_steps s)
    (rs_day_trades s) v.
Definition set_order_state (st : OwnedOrderState.OwnedOrderState) (remaining : Z) (o : OwnedOrder)
    : OwnedOrder :=
  mkOwnedOrder (oo_order_id o) (oo_participant_id o) (oo_listing_key o) (oo_side o)
    (oo_limit_price o) (oo_original_quantity o) remaining st (oo_reservation o) (oo_expires_at o)
    (oo_day o) (oo_anonymous o).

Definition is_active (o : OwnedOrder) : bool :=
  bool_decide (oo_state o = OwnedOrderState.Active).

(** [BTreeSet::iter] and [BTreeSet::first] *)
Definition set_iter {K} `{Countable K} `{!RustOrd K} (X : gset K) : list K :=
  merge_sort ord_le (elements X).
Definition set_first {K} `{Countable K} `{!RustOrd K} (X : gset K) : option K := head (set_iter X).

(** ** Reading the run *)

(** [RunState::live_order_count], [net_liquidation_value], [session_phase] *)
Definition live_order_count (s : RunState) (participant : Z) : Z :=
  default 0 (rs_live_orders s !! participant).
Definition run_net_liquidation_value (s : RunState) (participant : Z) : result EngineError Z :=
  map_err (fun _ => EngineError.Accounting)
    (reporting_value (rs_ledger s) participant (rs_reporting_currency s) (rs_fx_rates s)).
Definition session_phase (s : RunState) (venue : Z) : SessionPhase.SessionPhase :=
  match rs_calendar s with
  | None => SessionPhase.Continuous
  | Some _ => phase_after (default 0 (rs_session_steps s !! venue))
  end.

(** [RunState::listing_key_for_instrument] *)
Definition listing_key_for_instrument (s : RunState) (instrument_id : Z) : result EngineError ListingKey :=
  match filter (fun key => lk_instrument_id key = instrument_id) (keys (rs_listings s)) with
  | [] => Err EngineError.UnknownListing
  | [key] => Ok key
  | _ => Err EngineError.AmbiguousListing
  end.

(** [RunState::live_orders] *)
Definition run_live_orders (s : RunState) (participant : Z) : list OwnedOrder :=
  filter (fun o => oo_participant_id o = participant /\ oo_state o = OwnedOrderState.Active)
    (values (rs_ownership s)).

(** [RunState::visible_levels] *)
Definition visible_levels (s : RunState) (key : ListingKey)
    : result EngineError (list (Z * Z) * list (Z * Z)) :=
  listing ← ok_or (rs_listings s !! key) EngineError.UnknownListing;
  Ok (depth (ls_book listing) Buy, depth (ls_book listing) Sell).

(** [RunState::next_boundary]: the minimum by [(at, venue)] *)
Definition boundary_le (a b : Z * Z * Boundary) : Prop :=
  ord_le (bd_at a.2, a.1.1) (bd_at b.2, b.1.1).
#[export] Instance boundary_le_dec : RelDecision boundary_le.
Proof. intros a b. unfold boundary_le. apply _. Defined.
Definition pending_boundaries (c : Calendar) (steps : gmap Z Z) : list (Z * Z * Boundary) :=
  omap (fun '(venue, step) => (fun b => (venue, step, b)) <$> boundary c venue step) (entries steps).
Definition next_boundary (s : RunState) : option (Z * Z * Boundary) :=
  calendar ← rs_calendar s;
  head (merge_sort boundary_le (pending_boundaries calendar (rs_session_steps s))).

(** [RunState::night_until] *)
Definition night_until (s : RunState) : option Z :=
  if existsb (fun venue => negb (bool_decide (session_phase s venue = SessionPhase.Closed)))
       (keys (rs_session_steps s))
  then None
  else
    '(_, b) ← next_boundary s;
    if bool_decide (bd_phase b = SessionPhase.PreOpen)
       && (ck_now (sim_clock (rs_simulation s)) <? bd_at b)
    then Some (bd_at b) else None.

(** [RunState::next_due] *)
Definition next_due (s : RunState) : option Z :=
  min_list (option_list (sim_next_due (rs_simulation s)) ++
            option_list (fst <$> set_first (rs_expiries s)) ++
            option_list ((fun nb => bd_at nb.2) <$> next_boundary s)).

(** ** Transactions *)

Record Txn : Type := mkTxn {
  tx_run : RunState;
  tx_payloads : list EventPayload;
  tx_changed : gset ListingKey
}.

Definition run {A} (f : RunState -> A) : M Txn EngineError A := gets (fun t => f (tx_run t)).
Definition update_run (f : RunState -> RunState) : M Txn EngineError unit :=
  modify (fun t => mkTxn (f (tx_run t)) (tx_payloads t) (tx_changed t)).
(** [payloads.push(p)] and [changed_listings.insert(key)] *)
Definition push (p : EventPayload) : M Txn EngineError unit :=
  modify (fun t => mkTxn (tx_run t) (tx_payloads t ++ [p]) (tx_changed t)).
Definition touch (key : ListingKey) : M Txn EngineError unit :=
  modify (fun t => mkTxn (tx_run t) (tx_payloads t) ({[key]} ∪ tx_changed t)).

(** [self.ledger.op(..)?] *)
Definition on_run_ledger (m : M Ledger LedgerError unit) : M Txn EngineError unit :=
  l ← run rs_ledger;
  let '(l, r) := m l in
  update_run (set_ledger l);;
  lift (map_err (fun _ => EngineError.Accounting) r).

(** [self.listings.get_mut(&key).ok_or(UnknownListing)?.book] *)
Definition put_book (key : ListingKey) (listing : ListingState) (b : Book) (s : RunState) : RunState :=
  set_listings (<[key := mkListingState (ls_definition listing) b]> (rs_listings s)) s.
Definition on_book {A} (key : ListingKey) (m : M Book BookError.BookError A) : M Txn EngineError A :=
  s ← run id;
  listing ← lift (ok_or (rs_listings s !! key) EngineError.UnknownListing);
  let '(b, r) := m (ls_book listing) in
  update_run (put_book key listing b);;
  lift (map_err (fun _ => EngineError.OwnershipInvariant) r).

(** [fn per_lot_fee] *)
Definition per_lot_fee (per_lot quantity : Z) : result EngineError Z :=
  ok_or (checked_mul I128 per_lot quantity) EngineError.Accounting.

(** [fn reduce_order]: the updated ownership and the event it pushes. *)
Definition reduce_order (order_id quantity : Z) (ownership : gmap Z OwnedOrder)
    : result EngineError (gmap Z OwnedOrder * EventPayload) :=
  owned ← ok_or (ownership !! order_id) EngineError.OwnershipInvariant;
  remaining ← ok_or (remaining ← checked_sub I64 (oo_remaining_quantity owned) quantity;
                     if 0 <=? remaining then Some remaining else None) EngineError.Accounting;
  if remaining =? 0
  then Ok (<[order_id := set_order_state OwnedOrderState.Filled remaining owned]> ownership,
           OrderCompleted order_id)
  else Ok (<[order_id := set_order_state (oo_state owned) remaining owned]> ownership,
           OrderReduced order_id remaining).

(** The closure [party] of [settle_fill]. *)
Definition fill_party (s : RunState) (o : OwnedOrder) (fee : Z) : FillParty :=
  mkFillParty (oo_participant_id o) fee (Some (oo_reservation o))
    (cash_constrained (rs_participants s) (oo_participant_id o)).

(** Dropping the expiry of an order that a fill completed. *)
Definition drop_expiry (order_id : Z) (expires_at : option Z) (s : RunState) : RunState :=
  match expires_at with
  | Some at_ =>
      match rs_ownership s !! order_id with
      | Some owned =>
          if oo_remaining_quantity owned =? 0
          then set_expiries (rs_expiries s ∖ {[(at_, order_id)]}) s else s
      | None => s
      end
  | None => s
  end.

(** [RunState::settle_fill] *)
Definition settle_fill (listing_key : ListingKey) (maker_id taker_id price quantity : Z)
    (auction : bool) : M Txn EngineError unit :=
  s ← run id;
  listing ← lift (ok_or (rs_listings s !! listing_key) EngineError.IndexPanic);
  let fees := ld_fees (ls_definition listing) in
  maker ← lift (ok_or (rs_ownership s !! maker_id) EngineError.OwnershipInvariant);
  taker ← lift (ok_or (rs_ownership s !! taker_id) EngineError.OwnershipInvariant);
  refuse_if (negb (bool_decide (oo_listing_key maker = listing_key)) || negb (is_active maker)
             || negb (bool_decide (oo_listing_key taker = listing_key)))
    EngineError.OwnershipInvariant;;
  let maker_rate := if auction then fs_taker_per_lot fees else fs_maker_per_lot fees in
  maker_fee ← lift (per_lot_fee maker_rate quantity);
  taker_fee ← lift (per_lot_fee (fs_taker_per_lot fees) quantity);
  let '(buyer, seller) :=
    match oo_side taker with
    | Buy => (fill_party s taker taker_fee, fill_party s maker maker_fee)
    | Sell => (fill_party s maker maker_fee, fill_party s taker taker_fee)
    end in
  on_run_ledger (settle (mkFill (lk_instrument_id listing_key) price quantity
    (Some buyer) (Some seller) true));;
  update_run (fun s => match rs_calendar s with
                       | Some _ => set_day_trades (<[listing_key := price]> (rs_day_trades s)) s
                       | None => s
                       end);;
  s ← run id;
  '(ownership, event) ← lift (reduce_order maker_id quantity (rs_ownership s));
  update_run (set_ownership ownership);;
  push event;;
  s ← run id;
  '(ownership, event) ← lift (reduce_order taker_id quantity (rs_ownership s));
  update_run (set_ownership ownership);;
  (if auction then push event else mret tt);;
  update_run (drop_expiry maker_id (oo_expires_at maker));;
  (if auction then update_run (drop_expiry taker_id (oo_expires_at taker)) else mret tt);;
  push (TradeExecuted (lk_instrument_id listing_key) (Some listing_key) maker_id taker_id
          (fp_participant buyer) (fp_participant seller) price quantity (fp_fee buyer) (fp_fee seller)).

(** [RunState::settle_matches] *)
Definition settle_matches (taker_id : Z) (listing_key : ListingKey) (matches : list Match)
    : M Txn EngineError unit :=
  for_each (fun fill => settle_fill listing_key (mt_maker fill) taker_id (mt_price fill)
    (mt_quantity fill) false) matches.

(** [RunState::cancel] *)
Definition cancel_order (order_id : Z) (reason : CancelReason.CancelReason) : M Txn EngineError unit :=
  s ← run id;
  owned ← lift (ok_or (owned ← rs_ownership s !! order_id;
                       if is_active owned then Some owned else None) EngineError.OwnershipInvariant);
  listing ← lift (ok_or (rs_listings s !! oo_listing_key owned) EngineError.UnknownListing);
  let '(b, resting) := cancel order_id (ls_book listing) in
  update_run (put_book (oo_listing_key owned) listing b);;
  resting ← lift (ok_or resting EngineError.OwnershipInvariant);
  refuse_if (negb (bo_remaining resting =? oo_remaining_quantity owned)) EngineError.OwnershipInvariant;;
  on_run_ledger (close_order (oo_participant_id owned) (lk_instrument_id (oo_listing_key owned))
    (oo_side owned) (oo_remaining_quantity owned) (oo_reservation owned));;
  update_run (fun s => match oo_expires_at owned with
                       | Some at_ => set_expiries (rs_expiries s ∖ {[(at_, order_id)]}) s
                       | None => s
                       end);;
  update_run (fun s => set_ownership
    (alter (set_order_state OwnedOrderState.Canceled 0) order_id (rs_ownership s)) s);;
  push (OrderCanceled order_id (oo_participant_id owned) (lk_instrument_id (oo_listing_key owned))
          (Some (oo_listing_key owned)) (oo_remaining_quantity owned) reason).

(** ** Submission *)

(** The checks of [submit] up to the participant lookup.  The subtraction
    [ownership.len() - retired.len()] is on [usize]. *)
Definition submit_identity (s : RunState) (order : SubmitOrder)
    : result RejectCode.RejectCode ParticipantDefinition :=
  if so_order_id order =? 0 then Err RejectCode.InvalidOrderId
  else if bool_decide (is_Some (rs_ownership s !! so_order_id order))
  then Err RejectCode.DuplicateOrderId
  else if MAX_LIVE_ORDERS <=? Z.of_nat (size (rs_ownership s) - length (rs_retired s))
  then Err RejectCode.MaxOpenOrderQuantity
  else if so_quantity order <=? 0 then Err RejectCode.InvalidQuantity
  else ok_or (rs_participants s !! so_participant_id order) RejectCode.ParticipantDisabled.

(** The tuple [(limit, time_in_force, post_only, display)]. *)
Record OrderTerms : Type := mkOrderTerms {
  ot_limit : option Z;
  ot_time_in_force : TimeInForcePolicy;
  ot_post_only : bool;
  ot_display : option Z
}.
Definition order_terms (kind : OrderKind) : OrderTerms :=
  match kind with
  | Limit price => mkOrderTerms (Some price) Gtc false None
  | Market => mkOrderTerms None Ioc false None
  | LimitWithPolicy price time_in_force post_only display =>
      mkOrderTerms (Some price) time_in_force post_only display
  end.
Definition immediate (t : OrderTerms) : bool :=
  match ot_time_in_force t with Ioc | Fok => true | _ => false end.
Definition order_expiry (t : OrderTerms) : option Z :=
  match ot_time_in_force t with Gtd expires_at => Some expires_at | _ => None end.

(** [display.is_some_and(|peak| peak <= 0 || peak > quantity)
     || (immediate && (post_only || display.is_some()))] *)
Definition bad_policy (t : OrderTerms) (quantity : Z) : bool :=
  match ot_display t with Some peak => (peak <=? 0) || (quantity <? peak) | None => false end
  || (immediate t && (ot_post_only t || bool_decide (is_Some (ot_display t)))).

(** The session phase: closed, or whether orders only collect for a call. *)
Definition call_phase (s : RunState) (venue : Z) : result RejectCode.RejectCode bool :=
  match session_phase s venue with
  | SessionPhase.Closed => Err RejectCode.MarketClosed
  | SessionPhase.PreOpen | SessionPhase.ClosingCall => Ok true
  | SessionPhase.Continuous => Ok false
  end.

(** The checks of [submit] that depend on the listing, up to the admission. *)
Definition submit_admission (s : RunState) (participant : ParticipantDefinition)
    (listing : ListingState) (order : SubmitOrder) (listing_key : ListingKey) (now : Z)
    : result RejectCode.RejectCode (bool * Admission) :=
  let definition := ls_definition listing in
  let t := order_terms (so_kind order) in
  _ ← err_if (match order_expiry t with Some expires_at => expires_at <=? now | None => false end)
        RejectCode.InvalidTimeInForce;
  _ ← err_if (bad_policy t (so_quantity order)) RejectCode.InvalidTimeInForce;
  call ← call_phase s (lk_venue_id listing_key);
  _ ← err_if (call && (bool_decide (ot_limit t = None) || immediate t))
        RejectCode.CallPhaseOrderType;
  _ ← err_if (bool_decide (ot_limit t = None)
              && bool_decide (best (ls_book listing) (opposite (so_side order)) = None))
        RejectCode.InsufficientLiquidity;
  _ ← err_if (match ot_limit t with
              | Some price =>
                  ot_post_only t && negb call && would_cross (ls_book listing) (so_side order) price
              | None => false
              end) RejectCode.PostOnlyWouldCross;
  let market_bound := match so_side order with
                      | Buy => pb_max (ld_price_bounds definition)
                      | Sell => pb_min (ld_price_bounds definition)
                      end in
  admission ← admit_order (pd_limits participant) (pd_enabled participant) order
    (mkListingTerms (ld_price_bounds definition) (fee_bound (ld_fees definition))
       (ld_tick_size definition))
    (rs_ledger s) (match ot_limit t with None => Some market_bound | Some _ => None end);
  _ ← (if immediate t then Ok tt
       else admit_live_order_count (pd_limits participant)
              (live_order_count s (so_participant_id order)));
  Ok (call, admission).

(** The ownership record of an accepted order. *)
Definition accepted_order (order : SubmitOrder) (listing_key : ListingKey) (admission : Admission)
    : OwnedOrder :=
  let t := order_terms (so_kind order) in
  mkOwnedOrder (so_order_id order) (so_participant_id order) listing_key (so_side order)
    (ad_reservation_price admission) (so_quantity order) (so_quantity order) OwnedOrderState.Active
    (ad_reservation admission) (order_expiry t) (bool_decide (ot_time_in_force t = Day))
    (so_anonymous order).

(** Reserving, recording ownership and counting the live order. *)
Definition submit_open (order : SubmitOrder) (listing_key : ListingKey) (admission : Admission)
    : M Txn EngineError unit :=
  let participant := so_participant_id order in
  on_run_ledger (open_order participant (so_instrument_id order) (so_side order)
    (so_quantity order) (ad_reservation admission));;
  update_run (fun s => set_ownership
    (<[so_order_id order := accepted_order order listing_key admission]> (rs_ownership s)) s);;
  update_run (fun s => set_live_orders
    (<[participant := default 0 (rs_live_orders s !! participant)]> (rs_live_orders s)) s);;
  s ← run id;
  count ← lift (ok_or (checked_add U32 (live_order_count s participant) 1)
                  EngineError.OwnershipInvariant);
  update_run (fun s => set_live_orders (<[participant := count]> (rs_live_orders s)) s);;
  push (OrderAccepted (so_order_id order)).

(** Matching: the quantity left after execution. *)
Definition submit_execute (order : SubmitOrder) (listing_key : ListingKey) (call : bool)
    : M Txn EngineError Z :=
  let t := order_terms (so_kind order) in
  s ← run id;
  listing ← lift (ok_or (rs_listings s !! listing_key) EngineError.IndexPanic);
  let fillable := negb call
    && (negb (bool_decide (ot_time_in_force t = Fok))
        || (so_quantity order <=? executable (ls_book listing) (so_side order) (ot_limit t))) in
  if fillable then
    '(matches, remaining) ← on_book listing_key
      (execute (so_side order) (ot_limit t) (so_quantity order));
    settle_matches (so_order_id order) listing_key matches;;
    mret remaining
  else mret (so_quantity order).

(** Completing, resting or canceling the remainder. *)
Definition submit_remainder (order : SubmitOrder) (listing_key : ListingKey) (admission : Admission)
    (remaining : Z) : M Txn EngineError unit :=
  let t := order_terms (so_kind order) in
  if remaining =? 0 then push (OrderCompleted (so_order_id order))
  else
    match ot_limit t, immediate t with
    | Some price, false =>
        on_book listing_key (rest (so_order_id order) (so_side order) price remaining (ot_display t));;
        update_run (fun s => match order_expiry t with
                             | Some at_ => set_expiries ({[(at_, so_order_id order)]} ∪ rs_expiries s) s
                             | None => s
                             end);;
        push (OrderRested (so_order_id order) (so_participant_id order) (so_instrument_id order)
                (Some listing_key) (so_side order) price remaining)
    | limit, _ =>
        on_run_ledger (close_order (so_participant_id order) (so_instrument_id order)
          (so_side order) remaining (ad_reservation admission));;
        s ← run id;
        owned ← lift (ok_or (rs_ownership s !! so_order_id order) EngineError.OwnershipInvariant);
        update_run (fun s => set_ownership
          (<[so_order_id order := set_order_state OwnedOrderState.Canceled 0 owned]>
             (rs_ownership s)) s);;
        push (OrderCanceled (so_order_id order) (so_participant_id order) (so_instrument_id order)
                (Some listing_key) remaining
                (match limit with
                 | None => CancelReason.MarketRemainder
                 | Some _ => CancelReason.Expired
                 end))
    end.

(** [RunState::submit] *)
Definition submit (order : SubmitOrder) (listing_key : ListingKey) (now : Z)
    : M Txn EngineError (result RejectCode.RejectCode unit) :=
  s ← run id;
  match submit_identity s order with
  | Err code => mret (Err code)
  | Ok participant =>
      listing ← lift (ok_or (rs_listings s !! listing_key) EngineError.IndexPanic);
      match submit_admission s participant listing order listing_key now with
      | Err code => mret (Err code)
      | Ok (call, admission) =>
          submit_open order listing_key admission;;
          remaining ← submit_execute order listing_key call;
          submit_remainder order listing_key admission remaining;;
          mret (Ok tt)
      end
  end.

(** ** Sessions and the run clock *)

(** [RunState::auction].  The order that rested first is the maker. *)
Definition cross_roles (c : Cross) : Z * Z :=
  if cx_buy_priority c <? cx_sell_priority c then (cx_buy c, cx_sell c) else (cx_sell c, cx_buy c).
Definition run_auction (listing_key : ListingKey) : M Txn EngineError unit :=
  s ← run id;
  let reference := default 1 (mark (rs_ledger s) (lk_instrument_id listing_key)) in
  listing ← lift (ok_or (rs_listings s !! listing_key) EngineError.UnknownListing);
  match auction_price (ls_book listing) reference with
  | None => mret tt
  | Some (price, quantity) =>
      crosses ← on_book listing_key (uncross price);
      for_each (fun c => let '(maker, taker) := cross_roles c in
        settle_fill listing_key maker taker price (cx_quantity c) true) crosses;;
      push (Simulation (AuctionUncrossed listing_key price quantity))
  end.

(** [RunState::close_day]: one listing, then all of the venue's. *)
Definition close_listing (s : RunState) (listing_key : ListingKey) : RunState * list ClosingPrice :=
  let price := match rs_day_trades s !! listing_key with
               | Some price => Some price
               | None =>
                   match rs_closes s !! listing_key with
                   | Some price => Some price
                   | None => mark (rs_ledger s) (lk_instrument_id listing_key)
                   end
               end in
  let s := set_day_trades (delete listing_key (rs_day_trades s)) s in
  match price with
  | Some price => (set_closes (<[listing_key := price]> (rs_closes s)) s,
                   [mkClosingPrice listing_key price])
  | None => (s, [])
  end.
Fixpoint close_listings (listings : list ListingKey) (s : RunState) : RunState * list ClosingPrice :=
  match listings with
  | [] => (s, [])
  | k :: listings =>
      let '(s, c) := close_listing s k in
      let '(s, cs) := close_listings listings s in
      (s, c ++ cs)
  end.
Definition venue_listings (s : RunState) (venue : Z) : list ListingKey :=
  filter (fun key => lk_venue_id key = venue) (keys (rs_listings s)).
Definition close_day (venue : Z) (s : RunState) : RunState * list ClosingPrice :=
  close_listings (venue_listings s venue) s.

(** The mark of [settle_day]: the only listing of the instrument, else the
    one flagged primary. *)
Definition primary_listing (s : RunState) (instrument_id : Z) : option ListingKey :=
  let definitions := ls_definition <$> values (rs_listings s) in
  match filter (fun d => lk_instrument_id (ld_key d) = instrument_id) definitions with
  | [only] => Some (ld_key only)
  | listed => ld_key <$> head (filter (fun d => ld_primary d = true) listed)
  end.
Fixpoint settle_marks (instruments : list Z) : M Txn EngineError (list InstrumentMark) :=
  match instruments with
  | [] => mret []
  | instrument_id :: instruments =>
      s ← run id;
      match (key ← primary_listing s instrument_id; rs_closes s !! key) with
      | Some price =>
          on_run_ledger (set_mark instrument_id price);;
          marks ← settle_marks instruments;
          mret (mkInstrumentMark instrument_id price :: marks)
      | None => settle_marks instruments
      end
  end.

(** [sort_by_key(|score| (Reverse(nlv), participant_id))] and the ranks *)
Definition day_score_le (a b : DayScore) : Prop :=
  ord_le (- ds_net_liquidation_value a, ds_participant_id a)
         (- ds_net_liquidation_value b, ds_participant_id b).
#[export] Instance day_score_le_dec : RelDecision day_score_le.
Proof. intros a b. unfold day_score_le. apply _. Defined.
Definition day_scores (s : RunState) : result EngineError (list DayScore) :=
  scores ← collect_results (fun participant =>
    nlv ← run_net_liquidation_value s participant;
    Ok (mkDayScore participant nlv 0)) (keys (rs_participants s));
  collect_results (fun '(index, score) =>
    rank ← ok_or (checked U32 (Z.of_nat index + 1)) EngineError.SequenceOverflow;
    Ok (mkDayScore (ds_participant_id score) (ds_net_liquidation_value score) rank))
    (imap pair (merge_sort day_score_le scores)).

(** [RunState::settle_day] *)
Definition settle_day (day : Z) : M Txn EngineError SimulationEvent :=
  s ← run id;
  marks ← settle_marks (keys (rs_instruments s));
  s ← run id;
  scores ← lift (day_scores s);
  mret (DaySettled day marks scores).

(** The DAY orders of a venue, by identity. *)
Definition day_orders (s : RunState) (venue : Z) : list Z :=
  oo_order_id <$> filter (fun o => oo_day o = true /\ oo_state o = OwnedOrderState.Active
                                   /\ lk_venue_id (oo_listing_key o) = venue)
                    (values (rs_ownership s)).

(** The auctions, expiries and settlement of [RunState::cross_boundary]. *)
Definition cross_session (venue : Z) (b : Boundary) : M Txn EngineError unit :=
  let closed := bool_decide (bd_phase b = SessionPhase.Closed) in
  (if bool_decide (bd_phase b = SessionPhase.Continuous) || closed then
     listings ← run (fun s => venue_listings s venue);
     for_each (fun listing => touch listing;; run_auction listing) listings
   else mret tt);;
  (if closed then
     orders ← run (fun s => day_orders s venue);
     for_each (fun order_id => cancel_order order_id CancelReason.Expired) orders
   else mret tt);;
  push (Simulation (SessionPhaseChanged venue (bd_day b) (bd_phase b)));;
  if closed then
    s ← run id;
    let '(s, closes) := close_day venue s in
    update_run (fun _ => s);;
    push (Simulation (DayClosed venue (bd_day b) closes));;
    if forallb (fun venue => bool_decide (session_phase s venue = SessionPhase.Closed))
         (keys (rs_session_steps s))
    then settled ← settle_day (bd_day b); push (Simulation settled)
    else mret tt
  else mret tt.

(** [RunState::cross_boundary] *)
Definition cross_boundary (venue step : Z) (b : Boundary) : M Txn EngineError unit :=
  step ← lift (ok_or (checked_add U64 step 1) EngineError.SequenceOverflow);
  update_run (fun s => set_session_steps (<[venue := step]> (rs_session_steps s)) s);;
  cross_session venue b.

(** [RunState::expire_due].  Each iteration cancels the order of the first
    expiry, which a second cancellation would refuse, so the loop runs at
    most once per expiry. *)
Fixpoint expire_loop (fuel : nat) (now : Z) : M Txn EngineError unit :=
  match fuel with
  | O => mret tt
  | S fuel =>
      s ← run id;
      match set_first (rs_expiries s) with
      | None => mret tt
      | Some (at_, order_id) =>
          if now <? at_ then mret tt
          else
            owned ← lift (ok_or (rs_ownership s !! order_id) EngineError.OwnershipInvariant);
            touch (oo_listing_key owned);;
            cancel_order order_id CancelReason.Expired;;
            expire_loop fuel now
      end
  end.
Definition expire_due (now : Z) : M Txn EngineError unit :=
  s ← run id;
  expire_loop (S (size (rs_expiries s))) now.

(** The boundaries a calendar holds for one venue, and the fuel of the
    boundary loop: every iteration passes one of them. *)
Definition boundaries_of (c : Calendar) : nat := Z.to_nat (BOUNDARIES_PER_DAY * cal_days c).
Definition boundary_fuel (s : RunState) : nat :=
  match rs_calendar s with
  | None => 0
  | Some c => size (rs_session_steps s) * boundaries_of c
  end.
Fixpoint cross_due (fuel : nat) (to : Z) : M Txn EngineError unit :=
  match fuel with
  | O => mret tt
  | S fuel =>
      s ← run id;
      match next_boundary s with
      | Some (venue, step, b) =>
          if bd_at b <=? to then
            expire_due (bd_at b);;
            cross_boundary venue step b;;
            cross_due fuel to
          else mret tt
      | None => mret tt
      end
  end.

(** A [SimulationContext] method, on the run's simulation and ledger. *)
Definition run_context (s : RunState) : SimulationContext :=
  mkSimulationContext (rs_participants s) (rs_reporting_currency s) (rs_fx_rates s).
Definition on_world {A} (m : SimulationContext -> M SimWorld SimulationError A) : M Txn EngineError A :=
  s ← run id;
  let '(w, r) := m (run_context s) (mkSimWorld (rs_simulation s) (rs_ledger s)) in
  update_run (fun s => set_simulation (sw_sim w) (set_ledger (sw_ledger w) s));;
  lift (map_err EngineError.Simulation r).

(** [RunState::catch_up] *)
Definition catch_up (to : Z) (sweep : bool) : M Txn EngineError unit :=
  events ← on_world (fun _ => sim_catch_up to sweep);
  for_each (fun e => push (Simulation e)) events;;
  s ← run id;
  cross_due (S (boundary_fuel s)) to;;
  expire_due to.

(** ** Committing a transition *)

(** [format!("{code:?}")] *)
Definition debug_reject_code (code : RejectCode.RejectCode) : string :=
  match code with
  | RejectCode.DuplicateOrderId => "DuplicateOrderId"
  | RejectCode.InvalidOrderId => "InvalidOrderId"
  | RejectCode.UnknownOrder => "UnknownOrder"
  | RejectCode.NotOrderOwner => "NotOrderOwner"
  | RejectCode.KillSwitchActive => "KillSwitchActive"
  | RejectCode.RunNotActive => "RunNotActive"
  | RejectCode.ListingHalted => "ListingHalted"
  | RejectCode.ParticipantDisabled => "ParticipantDisabled"
  | RejectCode.InvalidQuantity => "InvalidQuantity"
  | RejectCode.InvalidInstrument => "InvalidInstrument"
  | RejectCode.PriceOutOfBounds => "PriceOutOfBounds"
  | RejectCode.MaxOrderQuantity => "MaxOrderQuantity"
  | RejectCode.MaxOpenOrderQuantity => "MaxOpenOrderQuantity"
  | RejectCode.MaxLiveOrders => "MaxLiveOrders"
  | RejectCode.PositionLimit => "PositionLimit"
  | RejectCode.InsufficientCash => "InsufficientCash"
  | RejectCode.InsufficientInventory => "InsufficientInventory"
  | RejectCode.InsufficientLiquidity => "InsufficientLiquidity"
  | RejectCode.PostOnlyWouldCross => "PostOnlyWouldCross"
  | RejectCode.InvalidTimeInForce => "InvalidTimeInForce"
  | RejectCode.MarketClosed => "MarketClosed"
  | RejectCode.CallPhaseOrderType => "CallPhaseOrderType"
  | RejectCode.LogicalTimeRegression => "LogicalTimeRegression"
  | RejectCode.SequenceConflict => "SequenceConflict"
  | RejectCode.ArithmeticOverflow => "ArithmeticOverflow"
  | RejectCode.PriceNotOnTick => "PriceNotOnTick"
  end.

(** [fn envelope] *)
Definition envelope (command : Command) (current_event_sequence : Z) (payloads : list EventPayload)
    : result EngineError (list EventEnvelope) :=
  collect_results (fun '(index, payload) =>
    offset ← ok_or (checked U64 (Z.of_nat index + 1)) EngineError.SequenceOverflow;
    sequence ← ok_or (checked_add U64 current_event_sequence offset) EngineError.SequenceOverflow;
    Ok (mkEventEnvelope EVENT_SCHEMA_VERSION (cmd_run_id command) sequence sequence
          (cmd_logical_time command) (cmd_actor command) (cmd_command_id command)
          (cmd_correlation_id command) None payload)) (imap pair payloads).

(** The first statement of [RunState::retire]: the owner's live count. *)
Definition release_slot (order_id : Z) (s : RunState) : RunState :=
  match rs_ownership s !! order_id with
  | None => s
  | Some owned =>
      let owner := oo_participant_id owned in
      match rs_live_orders s !! owner with
      | None => s
      | Some count =>
          let count := Z.max (count - 1) 0 in
          set_live_orders (if count =? 0 then delete owner (rs_live_orders s)
                           else <[owner := count]> (rs_live_orders s)) s
      end
  end.

(** [RunState::retire].  The loop pops the oldest identities until the window
    fits. *)
Definition retire (order_id : Z) (s : RunState) : RunState :=
  let s := release_slot order_id s in
  let retired := rs_retired s ++ [order_id] in
  let excess := (length retired - MAX_RETIRED_ORDERS)%nat in
  set_retired (drop excess retired)
    (set_ownership (foldl (fun m oldest => delete oldest m) (rs_ownership s) (take excess retired)) s).

(** The loop of [finish] over the payloads. *)
Definition finish_payload (logical_time : Z) (payload : EventPayload) : M RunState EngineError unit :=
  s ← gets id;
  let '(sim, r) := project_event logical_time payload (rs_simulation s) in
  modify (set_simulation sim);;
  lift (map_err EngineError.Simulation r);;
  match payload with
  | OrderCompleted order_id | OrderCanceled order_id _ _ _ _ _ => modify (retire order_id)
  | _ => mret tt
  end.

(** [RunState::finish] *)
Definition finish_transition (command : Command) (next_sequence : Z) (payloads : list EventPayload)
    (changed_listings : gset ListingKey) (accepted : bool) (reject_code : option string)
    (order_id : option Z) : M RunState EngineError Applied :=
  for_each (finish_payload (cmd_logical_time command)) payloads;;
  s ← gets id;
  events ← lift (envelope command (rs_event_sequence s) payloads);
  modify (set_sequence next_sequence);;
  modify (set_event_sequence
    (match last events with Some e => ev_sequence e | None => rs_event_sequence s end));;
  mret (mkApplied events accepted reject_code order_id changed_listings).

(** ** Commands *)

(** [RunState::activate_kill_switch] *)
Definition participant_orders (s : RunState) (participant : Z) : list (Z * ListingKey) :=
  (fun '(order_id, owned) => (order_id, oo_listing_key owned)) <$>
  filter (fun e => oo_participant_id e.2 = participant /\ oo_state e.2 = OwnedOrderState.Active)
    (entries (rs_ownership s)).
Definition cancel_all (reason : CancelReason.CancelReason) (orders : list (Z * ListingKey))
    : M Txn EngineError unit :=
  for_each (fun '(order_id, listing_key) => touch listing_key;; cancel_order order_id reason) orders.
Definition activate_kill_switch (participant : Z) : M Txn EngineError unit :=
  update_run (fun s => set_kill_switched ({[participant]} ∪ rs_kill_switched s) s);;
  push KillSwitchActivated;;
  live ← run (fun s => participant_orders s participant);
  cancel_all CancelReason.KillSwitch live.

(** The three facts [apply_validated] computes per payload. *)
Definition Verdict : Type := bool * option string * option Z.
Definition verdict (order_id : Z) (outcome : result RejectCode.RejectCode unit)
    : M Txn EngineError Verdict :=
  match outcome with
  | Ok _ => mret (true, None, Some order_id)
  | Err code =>
      push (OrderRejected (Some order_id) code);;
      mret (false, Some (debug_reject_code code), Some order_id)
  end.

Definition apply_submit (command : Command) (order : SubmitOrder) (listing_key : option ListingKey)
    : M Txn EngineError Verdict :=
  listing_key ← lift (ok_or listing_key EngineError.UnknownListing);
  push (OrderReceived order (Some listing_key));;
  s ← run id;
  outcome ←
    (if negb (bool_decide (sim_lifecycle (rs_simulation s) = RunLifecycle.Active))
     then mret (Err RejectCode.RunNotActive)
     else if bool_decide (so_participant_id order ∈ rs_kill_switched s)
     then mret (Err RejectCode.KillSwitchActive)
     else if bool_decide (so_instrument_id order ∈ sim_halted_instruments (rs_simulation s))
     then mret (Err RejectCode.ListingHalted)
     else touch listing_key;; submit order listing_key (cmd_logical_time command));
  verdict (so_order_id order) outcome.

Definition apply_cancel (cancel : CancelOrder) : M Txn EngineError Verdict :=
  s ← run id;
  outcome ←
    match rs_ownership s !! co_order_id cancel with
    | None => mret (Err RejectCode.UnknownOrder)
    | Some owned =>
        if negb (oo_participant_id owned =? co_participant_id cancel)
        then mret (Err RejectCode.NotOrderOwner)
        else if negb (is_active owned) then mret (Err RejectCode.UnknownOrder)
        else touch (oo_listing_key owned);;
             cancel_order (co_order_id cancel) CancelReason.Requested;;
             mret (Ok tt)
    end;
  verdict (co_order_id cancel) outcome.

Definition apply_payload (command : Command) (listing_key : option ListingKey)
    : M Txn EngineError Verdict :=
  match cmd_payload command with
  | PSubmitOrder order | PSubmitOrderAtListing _ order => apply_submit command order listing_key
  | PCancelOrder cancel => apply_cancel cancel
  | ActivateKillSwitch =>
      activate_kill_switch (cmd_actor command);; mret (true, None, None)
  | ResetKillSwitch =>
      update_run (fun s => set_kill_switched (rs_kill_switched s ∖ {[cmd_actor command]}) s);;
      push KillSwitchReset;;
      mret (true, None, None)
  end.

(** Running a transaction from a run and committing what it staged. *)
Definition commit_transaction (command : Command) (next_sequence : Z) (m : M Txn EngineError Verdict)
    : M RunState EngineError Applied :=
  fun s =>
    match m (mkTxn s [] ∅) with
    | (t, Err e) => (tx_run t, Err e)
    | (t, Ok (accepted, reject_code, order_id)) =>
        finish_transition command next_sequence (tx_payloads t) (tx_changed t) accepted reject_code
          order_id (tx_run t)
    end.

(** [RunState::apply_validated] *)
Definition apply_validated (command : Command) (next_sequence : Z) (listing_key : option ListingKey)
    : M RunState EngineError Applied :=
  commit_transaction command next_sequence
    (catch_up (cmd_logical_time command) false;; apply_payload command listing_key).

(** [RunState::preflight] *)
Definition preflight (s : RunState) (run_id expected_sequence : Z) : result EngineError Z :=
  if negb (rs_run_id s =? run_id) || negb (rs_sequence s =? expected_sequence)
  then Err (EngineError.SequenceConflict (rs_sequence s))
  else ok_or (checked_add U64 (rs_sequence s) 1) EngineError.SequenceOverflow.

(** The listing an order command addresses. *)
Definition resolve_listing (s : RunState) (payload : CommandPayload)
    : result EngineError (option ListingKey) :=
  match payload with
  | PSubmitOrderAtListing listing_key order =>
      if negb (lk_instrument_id listing_key =? so_instrument_id order)
         || negb (bool_decide (is_Some (rs_listings s !! listing_key)))
      then Err EngineError.UnknownListing else Ok (Some listing_key)
  | PSubmitOrder order => key ← listing_key_for_instrument s (so_instrument_id order); Ok (Some key)
  | PCancelOrder _ | ActivateKillSwitch | ResetKillSwitch => Ok None
  end.

(** Running on a copy that replaces the run on success, and in place. *)
Definition staged (m : M RunState EngineError Applied) (s : RunState)
    : RunState * result (ApplyError EngineError) Applied :=
  match m s with
  | (candidate, Ok applied) => (candidate, Ok applied)
  | (_, Err e) => (s, Err (Unchanged e))
  end.
Definition in_place (m : M RunState EngineError Applied) (s : RunState)
    : RunState * result (ApplyError EngineError) Applied :=
  let '(s, r) := m s in (s, map_err Poisoned r).

(** [RunState::apply] *)
Definition apply_command (command : Command) (s : RunState)
    : RunState * result (ApplyError EngineError) Applied :=
  match preflight s (cmd_run_id command) (cmd_expected_sequence command) with
  | Err e => (s, Err (Unchanged e))
  | Ok next_sequence =>
      match resolve_listing s (cmd_payload command) with
      | Err e => (s, Err (Unchanged e))
      | Ok listing_key =>
          if cmd_logical_time command <? ck_now (sim_clock (rs_simulation s))
          then (s, Err (Unchanged (EngineError.Simulation SimulationError.LogicalTimeRegression)))
          else if has_due_actions (rs_simulation s) (cmd_logical_time command)
          then staged (apply_validated command next_sequence listing_key) s
          else in_place (apply_validated command next_sequence listing_key) s
      end
  end.

(** ** Simulation commands *)

(** The orders a mass cancel selects. *)
Definition selected (filter_ : option Z) (value : Z) : Prop :=
  match filter_ with None => True | Some v => value = v end.
#[export] Instance selected_dec f v : Decision (selected f v).
Proof. destruct f; simpl; apply _. Defined.
Definition mass_cancel_orders (s : RunState) (participant_id instrument_id : option Z)
    : list (Z * ListingKey) :=
  (fun owned => (oo_order_id owned, oo_listing_key owned)) <$>
  filter (fun o => oo_state o = OwnedOrderState.Active /\ selected participant_id (oo_participant_id o)
                   /\ selected instrument_id (lk_instrument_id (oo_listing_key o)))
    (values (rs_ownership s)).

Definition is_tick (command : SimulationCommand) : bool :=
  match command with ClockTick => true | _ => false end.
Definition is_mass_cancel (command : SimulationCommand) : bool :=
  match command with MassCancel _ _ => true | _ => false end.

(** The body of [apply_simulation_validated] after the clock has caught up. *)
Definition apply_simulation_payload (request : SimulationCommandRequest) : M Txn EngineError unit :=
  match sr_payload request with
  | MassCancel participant_id instrument_id =>
      orders ← run (fun s => mass_cancel_orders s participant_id instrument_id);
      cancel_all CancelReason.MassCancel orders;;
      push (Simulation (MassCancelCompleted (fst <$> orders)))
  | payload =>
      events ← on_world (fun cx => sim_apply cx (sr_actor request) (sr_logical_time request) payload);
      for_each (fun e => push (Simulation e)) events;;
      now ← run (fun s => ck_now (sim_clock (rs_simulation s)));
      expire_due now
  end.

(** The command whose envelope a simulation command uses. *)
Definition metadata (request : SimulationCommandRequest) : Command :=
  mkCommand (sr_run_id request) (sr_command_id request) (sr_correlation_id request)
    (sr_logical_time request) (sr_expected_sequence request) (sr_actor request) ActivateKillSwitch.

(** [RunState::apply_simulation_validated] *)
Definition apply_simulation_validated (request : SimulationCommandRequest) (next_sequence : Z)
    : M RunState EngineError Applied :=
  commit_transaction (metadata request) next_sequence
    (let tick := is_tick (sr_payload request) in
     from ← run (fun s => ck_now (sim_clock (rs_simulation s)));
     (if tick && (from <? sr_logical_time request)
      then push (Simulation (ClockAdvanced from (sr_logical_time request)))
      else mret tt);;
     catch_up (sr_logical_time request) tick;;
     apply_simulation_payload request;;
     mret (true, None, None)).

(** [RunState::apply_simulation] *)
Definition apply_simulation (request : SimulationCommandRequest) (s : RunState)
    : RunState * result (ApplyError EngineError) Applied :=
  match preflight s (sr_run_id request) (sr_expected_sequence request) with
  | Err e => (s, Err (Unchanged e))
  | Ok next_sequence =>
      let tick := is_tick (sr_payload request) in
      if sr_logical_time request <? ck_now (sim_clock (rs_simulation s))
      then (s, Err (Unchanged (EngineError.Simulation SimulationError.LogicalTimeRegression)))
      else if tick && negb (bool_decide (sim_lifecycle (rs_simulation s) = RunLifecycle.Active))
      then (s, Err (Unchanged (EngineError.Simulation SimulationError.InvalidLifecycle)))
      else if (tick || is_mass_cancel (sr_payload request))
              && negb (has_due_actions (rs_simulation s) (sr_logical_time request))
      then in_place (apply_simulation_validated request next_sequence) s
      else staged (apply_simulation_validated request next_sequence) s
  end.

(** Either kind of journal input. *)
Definition apply_input (i : JournalInput) (s : RunState)
    : RunState * result (ApplyError EngineError) Applied :=
  match i with
  | InputCommand c => apply_command c s
  | InputSimulation r => apply_simulation r s
  end.

(** ** Instantiating a run *)

(** [self.ledger.op(..)?] while the ledger is built *)
Definition seed (m : M Ledger LedgerError unit) : M Ledger EngineError unit :=
  fun l => let '(l, r) := m l in (l, map_err (fun _ => EngineError.Accounting) r).

Definition seed_instrument (e : Z * InstrumentDefinition) : M Ledger EngineError unit :=
  seed (configure_instrument e.1 (instrument_terms e.2));;
  match id_opening_mark e.2 with
  | Some mark => seed (set_mark e.1 mark)
  | None => mret tt
  end.
Definition seed_holding (scenario : ScenarioDefinition) (participant : Z) (e : Z * Z)
    : M Ledger EngineError unit :=
  instrument ← lift (ok_or (sd_instruments scenario !! e.1) EngineError.IndexPanic);
  basis ← lift (map_err (fun _ => EngineError.Accounting)
    (match id_opening_mark instrument with
     | None => Ok 0
     | Some mark => notional mark e.2 (id_multiplier instrument)
     end));
  seed (seed_position participant e.1 e.2 basis).
Definition seed_participant (scenario : ScenarioDefinition) (p : ParticipantDefinition)
    : M Ledger EngineError unit :=
  for_each (fun e => seed (post_cash (pd_participant_id p) e.1 e.2)) (entries (pd_initial_cash p));;
  for_each (seed_holding scenario (pd_participant_id p)) (entries (pd_initial_positions p)).
Definition seed_ledger (scenario : ScenarioDefinition) : M Ledger EngineError unit :=
  for_each seed_instrument (entries (sd_instruments scenario));;
  for_each (seed_participant scenario) (values (sd_participants scenario)).

(** The loop that skips the boundaries at run time zero. *)
Fixpoint initial_step (fuel : nat) (c : Calendar) (venue step : Z) : Z :=
  match fuel with
  | O => step
  | S fuel =>
      match boundary c venue step with
      | Some b => if bd_at b =? 0 then initial_step fuel c venue (step + 1) else step
      | None => step
      end
  end.
Definition initial_steps (c : Calendar) : gmap Z Z :=
  list_to_map (reverse ((fun session => (vs_venue_id session,
    initial_step (S (boundaries_of c)) c (vs_venue_id session) 0)) <$> cal_sessions c)).

(** [serde_json::to_vec] on a run. *)
Class RunCodec := { json_run : RunState -> option Bytes }.

Section instantiate.
Context `{Sha256} `{ScenarioCodec} `{RunCodec}.

(** [RunState::state_hash] *)
Definition run_state_hash (s : RunState) : result SnapshotError (list ascii) := hash_json (json_run s).

(** [RunState::from_scenario] *)
Definition from_scenario (run_id iteration_id : Z) (scenario : ScenarioDefinition)
    : result EngineError RunState :=
  _ ← map_err (fun _ => EngineError.InvalidScenario) (validate_scenario scenario);
  _ ← err_if (iteration_id =? 0) EngineError.InvalidScenario;
  let listings := (fun definition => mkListingState definition Book_new) <$> sd_listings scenario in
  ledger ← (let '(l, r) := seed_ledger scenario Ledger_new in _ ← r; Ok l);
  simulation ← map_err (fun _ => EngineError.InvalidScenario)
                 (simulation_from_scenario (sd_simulation scenario));
  let session_steps := match sd_calendar scenario with Some c => initial_steps c | None => ∅ end in
  hash ← map_err EngineError.Snapshot (content_hash scenario);
  Ok (mkRunState run_id 0 0 iteration_id (sd_scenario_id scenario) (sd_scenario_version scenario)
        hash EngineConfig_default (sd_reporting_currency scenario) (sd_fx_rates scenario)
        (sd_instruments scenario) listings (sd_participants scenario) ledger ∅ [] ∅ ∅ ∅ simulation
        (sd_calendar scenario) session_steps ∅ ∅).

(** [RunState::reset_iteration] *)
Definition reset_iteration (s : RunState) (iteration_id : Z) (scenario : ScenarioDefinition)
    : result EngineError RunState :=
  _ ← err_if (negb (sd_scenario_id scenario =? rs_scenario_id s)
              || negb (sd_scenario_version scenario =? rs_scenario_version s))
        EngineError.InvalidScenario;
  hash ← map_err EngineError.Snapshot (content_hash scenario);
  _ ← err_if (negb (bool_decide (hash = rs_scenario_hash s))) EngineError.InvalidScenario;
  from_scenario (rs_run_id s) iteration_id scenario.

(** ** Snapshots *)

(** [RunState::validate]; [terms_match] is its comparison of the ledger's
    terms with the instrument definitions. *)
Definition active_orders (s : RunState) : list OwnedOrder :=
  filter (fun o => oo_state o = OwnedOrderState.Active) (values (rs_ownership s)).
Fixpoint count_by_participant (orders : list OwnedOrder) (counts : gmap Z Z) : option (gmap Z Z) :=
  match orders with
  | [] => Some counts
  | o :: orders =>
      let p := oo_participant_id o in
      count ← checked_add U32 (default 0 (counts !! p)) 1;
      count_by_participant orders (<[p := count]> counts)
  end.
Definition book_has (s : RunState) (key : ListingKey) (order_id : Z) : bool :=
  match rs_listings s !! key with
  | Some listing => book_contains (ls_book listing) order_id
  | None => false
  end.
Definition ownership_mismatch (s : RunState) (e : Z * OwnedOrder) : bool :=
  negb (e.1 =? oo_order_id e.2)
  || negb (Bool.eqb (is_active e.2) (book_has s (oo_listing_key e.2) e.1)).
Definition expiry_mismatch (s : RunState) (e : Z * Z) : bool :=
  match rs_ownership s !! e.2 with
  | None => true
  | Some owned => negb (is_active owned) || negb (bool_decide (oo_expires_at owned = Some e.1))
  end.
Definition terms_match (s : RunState) (e : Z * InstrumentDefinition) : bool :=
  bool_decide (lg_terms (rs_ledger s) !! e.1 = Some (instrument_terms e.2)).
Definition validate_run (s : RunState) : result SnapshotError unit :=
  let live := length (active_orders s) in
  live_by_participant ← ok_or (count_by_participant (active_orders s) ∅)
                          SnapshotError.UnsupportedVersion;
  let resting := sum_list (book_len ∘ ls_book <$> values (rs_listings s)) in
  err_if (negb (ec_engine_version (rs_config s) =? ENGINE_VERSION)
          || (ec_max_listings (rs_config s) =? 0)
          || (Z.of_nat MAX_LISTINGS <? ec_max_listings (rs_config s))
          || (size (rs_listings s) =? 0)%nat
          || (ec_max_listings (rs_config s) <? Z.of_nat (size (rs_listings s)))
          || (MAX_PARTICIPANTS <? size (rs_participants s))%nat
          || (MAX_LIVE_ORDERS <? Z.of_nat live)
          || (MAX_RETIRED_ORDERS <? length (rs_retired s))%nat
          || negb (live =? resting)%nat
          || negb (bool_decide (live_by_participant = rs_live_orders s))
          || negb (live + length (rs_retired s) =? size (rs_ownership s))%nat
          || existsb (ownership_mismatch s) (entries (rs_ownership s))
          || existsb (expiry_mismatch s) (set_iter (rs_expiries s))
          || negb (sim_policy_version (rs_simulation s) =? SIMULATION_POLICY_VERSION)
          || negb (size (lg_terms (rs_ledger s)) =? size (rs_instruments s))%nat
          || negb (forallb (terms_match s) (entries (rs_instruments s))))
    SnapshotError.UnsupportedVersion.

(** [EngineSnapshotEnvelope::new] and [verify] *)
Record EngineSnapshotEnvelope : Type := mkEngineSnapshotEnvelope {
  es_schema_version : Z;
  es_state_hash : list ascii;
  es_state : RunState
}.
Definition snapshot_new (s : RunState) : result SnapshotError EngineSnapshotEnvelope :=
  hash ← run_state_hash s;
  Ok (mkEngineSnapshotEnvelope ENGINE_SNAPSHOT_VERSION hash s).
Definition snapshot_verify (e : EngineSnapshotEnvelope) : result SnapshotError unit :=
  _ ← err_if (negb (es_schema_version e =? ENGINE_SNAPSHOT_VERSION)) SnapshotError.UnsupportedVersion;
  _ ← validate_run (es_state e);
  hash ← run_state_hash (es_state e);
  err_if (negb (bool_decide (hash = es_state_hash e))) SnapshotError.HashMismatch.

End instantiate.
