(* ===== verification/EngineFrame.v ===== *)
(** * bunting-engine: what a transaction never changes

    The identity, sequences and immutable inputs of a run are fixed while a
    transaction is in flight; only [finish] moves the two sequences.  This
    discharges the interface [Engine] the store relies on. *)

From S2P Require Import Prelude Ordered Digest MarketTypes MarketEvents Ledger Risk Book Auction.
From S2P Require Import Calendar Simulation Scenario Transition Engine.
From Stdlib Require Import Ascii.

(** ** Stepping through a transaction *)

Lemma bind_update_run {B} f (k : unit -> M Txn EngineError B) t :
  (update_run f ≫= k) t = k tt (mkTxn (f (tx_run t)) (tx_payloads t) (tx_changed t)).
Proof. done. Qed.
Lemma bind_read {A B} (f : RunState -> A) (k : A -> M Txn EngineError B) t :
  (run f ≫= k) t = k (f (tx_run t)) t.
Proof. done. Qed.
Lemma bind_push {B} p (k : unit -> M Txn EngineError B) t :
  (push p ≫= k) t = k tt (mkTxn (tx_run t) (tx_payloads t ++ [p]) (tx_changed t)).
Proof. done. Qed.
Lemma bind_touch {B} key (k : unit -> M Txn EngineError B) t :
  (touch key ≫= k) t = k tt (mkTxn (tx_run t) (tx_payloads t) ({[key]} ∪ tx_changed t)).
Proof. done. Qed.

(** ** The frame of a transaction *)

(** The fields no transaction writes, the definitions of the listings, the
    terms of the ledger and the policy version of the simulation. *)
Definition frame (s : RunState) :=
  (rs_run_id s, rs_sequence s, rs_event_sequence s, rs_scenario_hash s, rs_config s,
   rs_reporting_currency s, rs_fx_rates s, rs_instruments s, ls_definition <$> rs_listings s,
   rs_participants s, rs_calendar s, lg_terms (rs_ledger s), sim_policy_version (rs_simulation s)).

(** With the session steps and the simulation, which only sessions and the
    clock write. *)
Definition core (s : RunState) := (frame s, rs_session_steps s, rs_simulation s).
Definition core_sim (s : RunState) := (frame s, rs_simulation s).

(** A part of the run stays the same. *)
Definition same {A} (f : RunState -> A) (t t' : Txn) : Prop := f (tx_run t') = f (tx_run t).
Notation same_frame := (same frame).

#[export] Instance same_preorder {A} (f : RunState -> A) : PreOrder (same f).
Proof. split; [done |]. intros t1 t2 t3. unfold same. congruence. Qed.

Section primitive.
Context {B : Type} (f : RunState -> B).
Lemma keeps_update_run g : (forall s, f (g s) = f s) -> keeps (same f) (update_run g).
Proof. intros Hf. apply keeps_modify. intros t. apply Hf. Qed.
Lemma keeps_push p : keeps (same f) (push p).
Proof. by apply keeps_modify. Qed.
Lemma keeps_touch k : keeps (same f) (touch k).
Proof. by apply keeps_modify. Qed.
Lemma keeps_run {A} (g : RunState -> A) : keeps (same f) (run g).
Proof. intros t. reflexivity. Qed.
Lemma keeps_lift {A} (r : result EngineError A) : keeps (same f) (lift r).
Proof. intros t. reflexivity. Qed.
Lemma keeps_ret {A} (a : A) : keeps (E := EngineError) (same f) (mret a).
Proof. intros t. reflexivity. Qed.
Lemma keeps_refuse b e : keeps (same f) (refuse_if (E := EngineError) b e).
Proof. intros t. by destruct b. Qed.
End primitive.

(** What keeps the core keeps its parts. *)
Lemma keeps_core_frame {A} (m : M Txn EngineError A) : keeps (same core) m -> keeps (same frame) m.
Proof. intros Hm t. specialize (Hm t). unfold same, core in *. congruence. Qed.
Lemma keeps_core_sim {A} (m : M Txn EngineError A) : keeps (same core) m -> keeps (same core_sim) m.
Proof. intros Hm t. specialize (Hm t). unfold same, core, core_sim in *. congruence. Qed.
Lemma keeps_sim_frame {A} (m : M Txn EngineError A) : keeps (same core_sim) m -> keeps (same frame) m.
Proof. intros Hm t. specialize (Hm t). unfold same, core_sim in *. congruence. Qed.

#[export] Hint Resolve keeps_push keeps_touch keeps_run keeps_lift keeps_ret keeps_refuse : frame.
Lemma keeps_core_steps {A} (m : M Txn EngineError A) : keeps (same core) m -> keeps (same rs_session_steps) m.
Proof. intros Hm t. specialize (Hm t). unfold same, core in *. congruence. Qed.
#[export] Hint Resolve keeps_core_frame keeps_core_sim keeps_core_steps | 10 : frame.
#[export] Hint Resolve keeps_sim_frame | 20 : frame.

(** Walks a computation down to its writes. *)
Ltac framed :=
  repeat first
    [ solve [auto with frame]
    | apply keeps_bind; [apply same_preorder | | intros ?]
    | apply keeps_for_each; [apply same_preorder | intros ?]
    | apply keeps_update_run; intros ?
    | progress case_match
    | done ].

Lemma definition_put_book key listing b s :
  rs_listings s !! key = Some listing -> core (put_book key listing b s) = core s.
Proof.
  intros Hk. unfold core, frame, put_book. simpl.
  rewrite fmap_insert, insert_id; [done |]. by rewrite lookup_fmap, Hk.
Qed.

Lemma keeps_on_book {A} key (m : M Book BookError.BookError A) : keeps (same core) (on_book key m).
Proof.
  intros t. unfold on_book. rewrite bind_read. cbn [id].
  destruct (rs_listings (tx_run t) !! key) as [listing|] eqn:Hk; [| done].
  rewrite (bind_lift _ _ _ listing) by done. destruct (m (ls_book listing)) as [b r].
  by apply definition_put_book.
Qed.

Lemma keeps_on_run_ledger m : keeps same_terms m -> keeps (same core) (on_run_ledger m).
Proof.
  intros Hm t. unfold on_run_ledger. rewrite bind_read. specialize (Hm (rs_ledger (tx_run t))).
  destruct (m (rs_ledger (tx_run t))) as [l r]. unfold same, core, frame. simpl in *. by rewrite Hm.
Qed.
Lemma keeps_on_world {A} (m : SimulationContext -> M SimWorld SimulationError A) :
  (forall cx, keeps world_kept (m cx)) -> keeps same_frame (on_world m).
Proof.
  intros Hm t. unfold on_world. rewrite bind_read. cbn [id].
  specialize (Hm (run_context (tx_run t)) (mkSimWorld (rs_simulation (tx_run t)) (rs_ledger (tx_run t)))).
  destruct (m _ _) as [w r]. destruct Hm as [[[Ht _] _] Hp]. unfold same, frame. simpl in *. by rewrite Ht, Hp.
Qed.
Lemma keeps_world_steps {A} (m : SimulationContext -> M SimWorld SimulationError A) :
  keeps (same rs_session_steps) (on_world m).
Proof. intros t. unfold on_world. rewrite bind_read. cbn [id]. by destruct (m _ _). Qed.
#[export] Hint Resolve keeps_world_steps : frame.
Lemma keeps_world_catch_up to sweep : keeps same_frame (on_world (fun _ => sim_catch_up to sweep)).
Proof. apply keeps_on_world. intros _. apply kept_catch_up. Qed.
Lemma keeps_world_apply actor now command :
  keeps same_frame (on_world (fun cx => sim_apply cx actor now command)).
Proof. apply keeps_on_world. intros cx. apply kept_sim_apply. Qed.
#[export] Hint Resolve keeps_on_book keeps_on_run_ledger keeps_world_catch_up keeps_world_apply : frame.

Lemma keeps_settle_fill key m t p q a : keeps (same core) (settle_fill key m t p q a).
Proof.
  unfold settle_fill. framed; unfold core, frame; simpl; try done;
    unfold drop_expiry; repeat case_match; done.
Qed.
#[export] Hint Resolve keeps_settle_fill : frame.

Lemma keeps_cancel_order oid reason : keeps (same core) (cancel_order oid reason).
Proof.
  intros t. unfold cancel_order. rewrite bind_read. cbn [id].
  destruct (rs_ownership (tx_run t) !! oid) as [o|]; [| done]. cbn -[is_active].
  destruct (is_active o); [| done]. rewrite (bind_lift _ _ _ o) by done.
  destruct (rs_listings (tx_run t) !! oo_listing_key o) as [listing|] eqn:Hk; [| done].
  rewrite (bind_lift _ _ _ listing) by done. destruct (cancel oid (ls_book listing)) as [b resting].
  rewrite bind_update_run.
  etrans; [exact (definition_put_book _ _ b (tx_run t) Hk   : same core t (mkTxn _ (tx_payloads t) (tx_changed t))) |].
  apply keeps_bind; [apply _ | framed |]. intros ?. framed; by unfold core, frame.
Qed.
#[export] Hint Resolve keeps_cancel_order : frame.

Lemma keeps_submit order key now : keeps (same core) (submit order key now).
Proof.
  unfold submit, submit_open, submit_execute, submit_remainder, settle_matches. framed; by unfold core, frame.
Qed.

Lemma keeps_run_auction key : keeps (same core) (run_auction key).
Proof. unfold run_auction. framed. Qed.
#[export] Hint Resolve keeps_submit keeps_run_auction : frame.

Lemma close_listing_frame s k : core (close_listing s k).1 = core s.
Proof. unfold close_listing. by repeat case_match. Qed.

Lemma close_listings_frame ks s : core (close_listings ks s).1 = core s.
Proof.
  revert s. induction ks as [|k ks IH]; intros s; [done |]. simpl.
  pose proof (close_listing_frame s k). destruct (close_listing s k) as [s1 c].
  specialize (IH s1). destruct (close_listings ks s1). simpl in *. congruence.
Qed.

Lemma keeps_settle_marks l : keeps (same core) (settle_marks l).
Proof. induction l; simpl; framed. Qed.
Lemma keeps_settle_day d : keeps (same core) (settle_day d).
Proof. unfold settle_day. apply keeps_bind; [apply _ | auto with frame |]. intros ?.
  apply keeps_bind; [apply _ | apply keeps_settle_marks |]. intros ?. framed. Qed.
#[export] Hint Resolve keeps_settle_day : frame.

Lemma keeps_cross_session v b : keeps (same core) (cross_session v b).
Proof.
  unfold cross_session. apply keeps_bind; [apply _ | framed |]. intros _.
  apply keeps_bind; [apply _ | framed |]. intros _.
  apply keeps_bind; [apply _ | framed |]. intros _. case_match; [| framed].
  intros t. rewrite bind_read. cbn [id].
  pose proof (close_listings_frame (venue_listings (tx_run t) v) (tx_run t)) as Hc. unfold close_day.
  destruct (close_listings _ _) as [s closes]. rewrite bind_update_run.
  etrans; [exact (Hc : same core t (mkTxn s (tx_payloads t) (tx_changed t))) |].
  apply keeps_bind; [apply _ | framed |]. intros _. framed.
Qed.
#[export] Hint Resolve keeps_cross_session : frame.
Lemma keeps_cross_boundary v n b : keeps (same core_sim) (cross_boundary v n b).
Proof. unfold cross_boundary. framed. Qed.
#[export] Hint Resolve keeps_cross_boundary : frame.

Lemma keeps_expire_loop fuel now : keeps (same core) (expire_loop fuel now).
Proof. induction fuel; simpl; framed. Qed.
Lemma keeps_expire_due now : keeps (same core) (expire_due now).
Proof. unfold expire_due. framed. apply keeps_expire_loop. Qed.
#[export] Hint Resolve keeps_expire_due : frame.
Lemma keeps_cross_due fuel to : keeps (same core_sim) (cross_due fuel to).
Proof. induction fuel; simpl; framed. Qed.
#[export] Hint Resolve keeps_cross_due : frame.
Lemma keeps_catch_up to sweep : keeps same_frame (catch_up to sweep).
Proof. unfold catch_up. framed. Qed.
#[export] Hint Resolve keeps_catch_up : frame.

Lemma keeps_cancel_all reason orders : keeps (same core) (cancel_all reason orders).
Proof. unfold cancel_all. framed. Qed.
#[export] Hint Resolve keeps_cancel_all : frame.

Lemma keeps_verdict oid outcome : keeps (same core) (verdict oid outcome).
Proof. unfold verdict. framed. Qed.
#[export] Hint Resolve keeps_verdict : frame.

Lemma keeps_apply_payload c key : keeps (same core) (apply_payload c key).
Proof.
  unfold apply_payload, apply_submit, apply_cancel, activate_kill_switch. framed; by unfold core, frame.
Qed.
Lemma keeps_apply_simulation_payload r : keeps same_frame (apply_simulation_payload r).
Proof. unfold apply_simulation_payload. framed. Qed.
Lemma steps_apply_simulation_payload r : keeps (same rs_session_steps) (apply_simulation_payload r).
Proof. unfold apply_simulation_payload. framed. Qed.
#[export] Hint Resolve keeps_apply_payload keeps_apply_simulation_payload : frame.

(** ** Committing *)

(** What [finish] leaves alone. *)
Definition keeps_identity (s s' : RunState) : Prop := frame s' = frame s.
#[export] Instance keeps_identity_preorder : PreOrder keeps_identity.
Proof. split; [done |]. intros s1 s2 s3. unfold keeps_identity. congruence. Qed.

Lemma release_slot_frame oid s : frame (release_slot oid s) = frame s.
Proof. unfold release_slot. by repeat case_match. Qed.
Lemma retire_frame oid s : frame (retire oid s) = frame s.
Proof. unfold retire. rewrite <- (release_slot_frame oid s). by unfold frame. Qed.

Lemma keeps_finish_payload now p : keeps keeps_identity (finish_payload now p).
Proof.
  intros s. unfold finish_payload. rewrite bind_gets. cbn [id].
  pose proof (keeps_project_event now p (rs_simulation s)) as Hp.
  destruct (project_event now p (rs_simulation s)) as [sim r]. rewrite bind_modify.
  assert (Hf : frame (set_simulation sim s) = frame s) by (unfold frame; simpl in *; by rewrite Hp).
  destruct r as [u|e]; [| done]. rewrite (bind_lift _ _ _ u) by done.
  destruct p; simpl; try exact Hf; exact (eq_trans (retire_frame _ (set_simulation sim s)) Hf).
Qed.

Lemma finish_transition_frame c next ps changed acc code oid s s' a :
  finish_transition c next ps changed acc code oid s = (s', Ok a) ->
  rs_sequence s' = next /\ rs_run_id s' = rs_run_id s /\ rs_scenario_hash s' = rs_scenario_hash s.
Proof.
  unfold finish_transition. intros H. run_inv.
  match goal with H : for_each _ _ _ = (?s1, _) |- _ =>
    pose proof (keeps_for_each keeps_identity (finish_payload (cmd_logical_time c)) ps
      (keeps_finish_payload (cmd_logical_time c)) s) as Hf; rewrite H in Hf end.
  simpl in Hf. unfold keeps_identity, frame in Hf. simplify_eq. by split_and!.
Qed.

Lemma commit_transaction_frame c next m s s' a :
  keeps same_frame m -> commit_transaction c next m s = (s', Ok a) ->
  rs_sequence s' = next /\ rs_run_id s' = rs_run_id s /\ rs_scenario_hash s' = rs_scenario_hash s.
Proof.
  intros Hm. unfold commit_transaction. specialize (Hm (mkTxn s [] ∅)).
  destruct (m (mkTxn s [] ∅)) as [t [[[acc code] oid]|e]]; [| done].
  intros (Hn & Hr & Hh)%finish_transition_frame. simpl in Hm. unfold same, frame in Hm.
  simpl in Hm. simplify_eq. split_and!; congruence.
Qed.

(** The static part of a run survives a committed transaction. *)
Lemma commit_transaction_static c next m s s' a :
  keeps same_frame m -> commit_transaction c next m s = (s', Ok a) ->
  rs_config s' = rs_config s /\ ls_definition <$> rs_listings s' = ls_definition <$> rs_listings s /\
  rs_participants s' = rs_participants s /\ rs_instruments s' = rs_instruments s /\
  lg_terms (rs_ledger s') = lg_terms (rs_ledger s) /\
  sim_policy_version (rs_simulation s') = sim_policy_version (rs_simulation s).
Proof.
  intros Hm. unfold commit_transaction. specialize (Hm (mkTxn s [] ∅)).
  destruct (m (mkTxn s [] ∅)) as [t [[[acc code] oid]|e]]; [| done].
  unfold finish_transition. intros Hrun. apply bind_Ok_inv in Hrun as (s1 & [] & Hfin & Hrun).
  pose proof (keeps_for_each keeps_identity (finish_payload (cmd_logical_time c)) (tx_payloads t)
    (keeps_finish_payload (cmd_logical_time c)) (tx_run t)) as Hf. rewrite Hfin in Hf.
  rewrite bind_gets in Hrun.
  apply bind_Ok_inv in Hrun as (? & evs & [-> _]%lift_Ok_inv & Hrun). rewrite !bind_modify in Hrun.
  ret_inv Hrun. unfold same, keeps_identity, frame in *. simpl in *. split_and!; congruence.
Qed.

(** ** The interface of the store *)

Lemma preflight_Ok s r e next :
  preflight s r e = Ok next ->
  rs_run_id s = r /\ rs_sequence s = e /\ next = rs_sequence s + 1 /\ next <= int_max U64.
Proof.
  unfold preflight. destruct (_ || _) eqn:Hg; [done |]. guards. intros Hc. chk. split_and!; try done; lia.
Qed.

Lemma staged_Ok m s s' a : staged m s = (s', Ok a) -> m s = (s', Ok a).
Proof. unfold staged. destruct (m s) as [s1 [x|e]]; naive_solver. Qed.
Lemma in_place_Ok m s s' a : in_place m s = (s', Ok a) -> m s = (s', Ok a).
Proof. unfold in_place. destruct (m s) as [s1 [x|e]]; naive_solver. Qed.
Lemma staged_unchanged m s s' e : staged m s = (s', Err (Unchanged e)) -> s' = s.
Proof. unfold staged. destruct (m s) as [s1 [x|e']]; naive_solver. Qed.
Lemma in_place_poisoned m s s' e : in_place m s <> (s', Err (Unchanged e)).
Proof. unfold in_place. destruct (m s) as [s1 [x|e']]; naive_solver. Qed.

(** A committed input was run to the end from the state it found. *)
Lemma apply_input_Ok i s s' a :
  apply_input i s = (s', Ok a) ->
  rs_run_id s = input_run_id i /\ rs_sequence s = input_expected_sequence i /\
  rs_sequence s + 1 <= int_max U64 /\
  match i with
  | InputCommand c => exists key, resolve_listing s (cmd_payload c) = Ok key /\
      ck_now (sim_clock (rs_simulation s)) <= cmd_logical_time c /\
      apply_validated c (rs_sequence s + 1) key s = (s', Ok a)
  | InputSimulation r =>
      ck_now (sim_clock (rs_simulation s)) <= sr_logical_time r /\
      apply_simulation_validated r (rs_sequence s + 1) s = (s', Ok a)
  end.
Proof.
  destruct i as [c|r]; simpl.
  - unfold apply_command. destruct (preflight _ _ _) as [next|e] eqn:Hp; [| done].
    apply preflight_Ok in Hp as (? & ? & -> & ?).
    destruct (resolve_listing _ _) as [key|e]; [| done].
    destruct (_ <? _) eqn:Ht; [done |]. apply Z.ltb_ge in Ht.
    intros Hx. split_and!; try done. exists key. split_and!; try done.
    destruct (has_due_actions _ _); [by apply staged_Ok | by apply in_place_Ok].
  - unfold apply_simulation. destruct (preflight _ _ _) as [next|e] eqn:Hp; [| done].
    apply preflight_Ok in Hp as (? & ? & -> & ?). cbv zeta.
    destruct (_ <? _) eqn:Ht; [done |]. apply Z.ltb_ge in Ht. destruct (_ && _); [done |].
    intros Hx. split_and!; try done.
    destruct (_ && _); [by apply in_place_Ok | by apply staged_Ok].
Qed.

Lemma apply_input_frame i s s' a :
  apply_input i s = (s', Ok a) ->
  rs_sequence s' = rs_sequence s + 1 /\ rs_run_id s' = rs_run_id s /\
  rs_scenario_hash s' = rs_scenario_hash s.
Proof.
  intros (_ & _ & _ & H)%apply_input_Ok. destruct i as [c|r].
  - destruct H as (key & _ & _ & H). eapply commit_transaction_frame; [| exact H]. framed.
  - destruct H as [_ H]. eapply commit_transaction_frame; [| exact H]. framed.
Qed.

Lemma apply_input_unchanged i s s' e : apply_input i s = (s', Err (Unchanged e)) -> s' = s.
Proof.
  destruct i as [c|r]; simpl.
  - unfold apply_command. repeat case_match; try (by intros [= <-]).
    + apply staged_unchanged.
    + by intros ?%in_place_poisoned.
  - unfold apply_simulation. repeat case_match; try (by intros [= <-]).
    + by intros ?%in_place_poisoned.
    + apply staged_unchanged.
Qed.

(** [RunState] implements the interface of [origin-store]. *)
#[export] Program Instance run_engine `{Sha256} `{RunCodec} : Engine RunState EngineError := {|
  run_id := rs_run_id;
  sequence := rs_sequence;
  event_sequence := rs_event_sequence;
  scenario_hash := rs_scenario_hash;
  state_hash := fun s => match run_state_hash s with Ok h => Some (ascii_bytes h) | Err _ => None end;
  apply := apply_input
|}.
Next Obligation.
  intros ?? i s s' a Ha. destruct (apply_input_Ok i s s' a Ha) as (_ & Hs & Hm & _).
  destruct (apply_input_frame i s s' a Ha) as (Hn & _). split_and!; [done | done | lia].
Qed.
Next Obligation. intros ?? i s s' a Ha. by destruct (apply_input_frame i s s' a Ha) as (_ & ? & ?). Qed.
Next Obligation. intros ?? i s s' e. apply apply_input_unchanged. Qed.
