(* ===== verification/EngineInvariant.v ===== *)
(** * bunting-engine: the run invariant

    What ties the ownership records of a run to its books, its ledger, its
    expiries and its live counts.  The invariant is stated with the
    quantities that are in flight inside a transaction: [due] is what an
    order still has to settle or rest, [P] the orders that became terminal
    and are not yet retired, [fresh] the order being submitted. *)

From S2P Require Import Prelude Ordered MarketTypes MarketEvents Ledger LedgerFacts.
From S2P Require Import Risk Book BookFacts BookEffects Auction Calendar Simulation Scenario.
From S2P Require Import Engine EngineFrame.

#[local] Notation Active := OwnedOrderState.Active.

(** ** The invariant *)

Definition instrument_of (o : OwnedOrder) : Z := lk_instrument_id (oo_listing_key o).

(** An ownership record by itself. *)
Record owned_ok (id : Z) (o : OwnedOrder) : Prop := {
  ow_id : oo_order_id o = id;
  ow_range : 0 <= oo_remaining_quantity o <= int_max I64;
  ow_active : oo_state o = Active <-> 0 < oo_remaining_quantity o;
  ow_cash : 0 <= rs_cash_per_lot (oo_reservation o)
}.
Definition orders_ok (O : gmap Z OwnedOrder) : Prop := map_Forall owned_ok O.

(** The quantity of an order the book of [k] must show on side [sd]. *)
Definition expected (due : Z -> Z) (O : gmap Z OwnedOrder) (k : ListingKey) (sd : Side) (id : Z) : Z :=
  match O !! id with
  | Some o => if bool_decide (oo_listing_key o = k /\ oo_side o = sd)
              then oo_remaining_quantity o - due id else 0
  | None => 0
  end.

(** Books: each is well formed and shows exactly the owned orders. *)
Record books_ok (due : Z -> Z) (L : gmap ListingKey ListingState) (O : gmap Z OwnedOrder) : Prop := {
  bs_book : forall k ls, L !! k = Some ls -> book_ok (ls_book ls);
  bs_match : forall k ls sd id, L !! k = Some ls ->
    side_remaining (ls_book ls) sd id = expected due O k sd id;
  bs_listed : forall id o, O !! id = Some o -> is_Some (L !! oo_listing_key o);
  bs_due : forall id, 0 <= due id;
  bs_due_owned : forall id, O !! id = None -> due id = 0
}.

(** Ledger: it holds exactly what the remaining lots of the owned orders
    weigh. *)
Definition order_claim (terms : gmap Z InstrumentTerms) (o : OwnedOrder) (k : Claim) : Z :=
  match terms !! instrument_of o with
  | Some t => weight t (instrument_of o) (oo_side o) (oo_reservation o) k * oo_remaining_quantity o
  | None => 0
  end.
Definition owed (terms : gmap Z InstrumentTerms) (O : gmap Z OwnedOrder) (p : Z) (k : Claim) : Z :=
  map_sum (fun _ o => if oo_participant_id o =? p then order_claim terms o k else 0) O.
Record claims_ok (l : Ledger) (O : gmap Z OwnedOrder) : Prop := {
  cl_ledger : ledger_ok l;
  cl_terms : forall id o, O !! id = Some o -> is_Some (lg_terms l !! instrument_of o);
  cl_held : forall p k, held l p k = owed (lg_terms l) O p k
}.

(** Expiries: exactly the live GTD orders that rest. *)
Definition expiry_ok (fresh : option Z) (O : gmap Z OwnedOrder) (X : gset (Z * Z)) : Prop :=
  forall at_ id, (at_, id) ∈ X <->
    fresh <> Some id /\ exists o, O !! id = Some o /\ oo_state o = Active /\ oo_expires_at o = Some at_.

(** Live counts and the window of retired orders. *)
Definition live_count (P : gset Z) (O : gmap Z OwnedOrder) (p : Z) : Z :=
  map_sum (fun id o => if bool_decide (oo_participant_id o = p /\ (oo_state o = Active \/ id ∈ P))
                       then 1 else 0) O.
Definition active_count (O : gmap Z OwnedOrder) : Z :=
  map_sum (fun _ o => if is_active o then 1 else 0) O.
Record live_ok (P : gset Z) (O : gmap Z OwnedOrder) (R : list Z) (V : gmap Z Z) : Prop := {
  lv_count : forall p, V !! p =
    if live_count P O p =? 0 then None else Some (live_count P O p);
  lv_nodup : NoDup R;
  lv_retired : forall id, id ∈ R <-> id ∉ P /\ exists o, O !! id = Some o /\ oo_state o <> Active;
  lv_pending : forall id, id ∈ P -> exists o, O !! id = Some o /\ oo_state o <> Active;
  lv_window : (length R <= MAX_RETIRED_ORDERS)%nat;
  lv_capacity : active_count O <= MAX_LIVE_ORDERS
}.

Record engine_ok (P : gset Z) (due : Z -> Z) (fresh : option Z) (s : RunState) : Prop := {
  eo_orders : orders_ok (rs_ownership s);
  eo_books : books_ok due (rs_listings s) (rs_ownership s);
  eo_claims : claims_ok (rs_ledger s) (rs_ownership s);
  eo_expiry : expiry_ok fresh (rs_ownership s) (rs_expiries s);
  eo_live : live_ok P (rs_ownership s) (rs_retired s) (rs_live_orders s)
}.

(** Nothing in flight. *)
Definition idle : Z -> Z := fun _ => 0.

(** ** Reducing or closing one order *)

Section update.
Context (O : gmap Z OwnedOrder) (id : Z) (o : OwnedOrder) (Ho : O !! id = Some o).
Context (st : OwnedOrderState.OwnedOrderState) (rem : Z).
Context (Hst : st = Active <-> 0 < rem) (Hrem : 0 <= rem <= oo_remaining_quantity o).
#[local] Notation o' := (set_order_state st rem o).
#[local] Notation O' := (<[id := o']> O).

Lemma orders_ok_update : orders_ok O -> orders_ok O'.
Proof using Ho Hst Hrem.
  intros HO. apply map_Forall_insert_2; [| done]. destruct (HO _ _ Ho). split; simpl; try done. lia.
Qed.

(** The weight of the lots the update removes. *)
Definition freed (terms : gmap Z InstrumentTerms) (p : Z) (k : Claim) : Z :=
  if oo_participant_id o =? p then
    match terms !! instrument_of o with
    | Some t => weight t (instrument_of o) (oo_side o) (oo_reservation o) k
                * (oo_remaining_quantity o - rem)
    | None => 0
    end
  else 0.

Lemma owed_update terms p k : owed terms O' p k = owed terms O p k - freed terms p k.
Proof using Ho.
  clear Hst Hrem.
  unfold owed. rewrite map_sum_insert_any. unfold at_key. rewrite Ho. unfold freed, order_claim.
  change (instrument_of o') with (instrument_of o). simpl.
  destruct (_ =? _); [| lia]. destruct (terms !! _); lia.
Qed.

Lemma claims_ok_update l l' :
  claims_ok l O -> ledger_ok l' -> lg_terms l' = lg_terms l ->
  (forall p k, held l' p k = held l p k - freed (lg_terms l) p k) -> claims_ok l' O'.
Proof using Ho.
  clear Hst Hrem.
  intros [_ Ht Hh] Hl' Hterms Hheld. split; [done | |].
  - intros id1 o1 [[<- <-]|[_ H1]]%lookup_insert_Some; rewrite Hterms; [| by eapply Ht].
    change (instrument_of o') with (instrument_of o). by eapply Ht.
  - intros p k. by rewrite Hheld, Hh, Hterms, owed_update.
Qed.

(** A live order that stays live keeps its expiry; one that ends leaves the
    set. *)
Lemma expiry_ok_reduced fresh X :
  oo_state o = Active -> st = Active -> expiry_ok fresh O X -> expiry_ok fresh O' X.
Proof using Ho.
  clear Hst Hrem.
  intros Ha Hs HX at_ id1. rewrite (HX at_ id1).
  apply and_iff_compat_l. destruct (decide (id = id1)) as [<-|Hne].
  - rewrite lookup_insert_eq, Ho. split; intros (x & [= <-] & ? & ?); eexists; by split_and!.
  - by rewrite lookup_insert_ne.
Qed.

Lemma expiry_ok_ended fresh X :
  st <> Active -> expiry_ok fresh O X ->
  expiry_ok fresh O' (match oo_expires_at o with Some at_ => X ∖ {[(at_, id)]} | None => X end).
Proof using Ho.
  clear Hst Hrem.
  intros Hs HX at_ id1.
  assert (Hin : (at_, id1) ∈ (match oo_expires_at o with Some a => X ∖ {[(a, id)]} | None => X end)
    <-> (at_, id1) ∈ X /\ id1 <> id).
  { destruct (oo_expires_at o) as [a|] eqn:He.
    - rewrite elem_of_difference, elem_of_singleton. split.
      + intros [H1 H2]. split; [done |]. intros ->. apply H2.
        apply HX in H1 as (_ & x & Hx & _ & Hxe). congruence.
      + intros [H1 H2]. split; [done |]. intros [= _ ->]. done.
    - split; [| tauto]. intros H1. split; [done |]. intros ->.
      apply HX in H1 as (_ & x & Hx & _ & Hxe). congruence. }
  rewrite Hin, (HX at_ id1). split.
  - intros [[Hf (x & Hx & Ha & He)] Hne]. split; [done |]. exists x. by rewrite lookup_insert_ne.
  - intros [Hf (x & Hx & Ha & He)]. destruct (decide (id = id1)) as [<-|Hne].
    + rewrite lookup_insert_eq in Hx. injection Hx as <-. done.
    + rewrite lookup_insert_ne in Hx by done. split; [| congruence]. split; [done | by exists x].
Qed.

Lemma expiry_ok_fresh_ended X :
  st <> Active -> expiry_ok (Some id) O X -> expiry_ok (Some id) O' X.
Proof using Ho.
  clear Hst Hrem.
  intros Hs HX at_ id1. rewrite (HX at_ id1). destruct (decide (id = id1)) as [<-|Hne].
  - split; intros [Hf _]; done.
  - by rewrite lookup_insert_ne.
Qed.

(** Ending a live order adds it to the pending retirements. *)
Lemma live_count_update P P' p :
  oo_state o = Active -> (st = Active \/ id ∈ P') -> (forall i, i <> id -> i ∈ P' <-> i ∈ P) ->
  live_count P' O' p = live_count P O p.
Proof using Ho.
  clear Hst Hrem.
  intros Ha Hs HP. unfold live_count. rewrite map_sum_insert_any. unfold at_key. rewrite Ho.
  rewrite (map_sum_ext _ (fun i x => (if bool_decide (oo_participant_id x = p /\
    (oo_state x = Active \/ i ∈ P)) then 1 else 0)
    + (if bool_decide (i = id) then
         (if bool_decide (oo_participant_id x = p /\ (oo_state x = Active \/ i ∈ P')) then 1 else 0)
         - (if bool_decide (oo_participant_id x = p /\ (oo_state x = Active \/ i ∈ P)) then 1 else 0)
       else 0))).
  2: { intros i x _. destruct (bool_decide (i = id)) eqn:Hi; [lia |].
       apply bool_decide_eq_false in Hi. rewrite Z.add_0_r.
       erewrite bool_decide_ext; [reflexivity |]. by rewrite HP. }
  rewrite map_sum_add.
  assert (Hone : forall (f : Z -> OwnedOrder -> Z),
    map_sum (fun i x => if bool_decide (i = id) then f i x else 0) O = f id o).
  { intros f. rewrite <- (insert_delete_id O id o Ho).
    rewrite map_sum_insert by apply lookup_delete_eq. rewrite bool_decide_true by done.
    rewrite map_sum_zero; [lia |]. intros i x [Hi _]%lookup_delete_Some.
    by rewrite bool_decide_false by congruence. }
  rewrite (Hone (fun i x => _ - _)). cbn [oo_participant_id oo_state set_order_state].
  rewrite Ha. repeat case_bool_decide; try tauto; try lia.
Qed.

Lemma active_count_update : active_count O' <= active_count O + (if bool_decide (oo_state o = Active) then 0 else 1).
Proof using Ho.
  clear Hst Hrem.
  unfold active_count. rewrite map_sum_insert_any. unfold at_key. rewrite Ho. unfold is_active. simpl.
  repeat case_bool_decide; lia.
Qed.

Lemma live_ok_reduced P R V :
  oo_state o = Active -> st = Active -> live_ok P O R V -> live_ok P O' R V.
Proof using Ho.
  clear Hst Hrem.
  intros Ha Hs [Hc Hn Hr Hp Hw Hcap].
  assert (Hiff : forall i, (exists x, O' !! i = Some x /\ oo_state x <> Active) <->
    exists x, O !! i = Some x /\ oo_state x <> Active).
  { intros i. destruct (decide (id = i)) as [<-|Hne].
    - rewrite lookup_insert_eq, Ho. split; intros (x & [= <-] & Hx); done.
    - by rewrite lookup_insert_ne. }
  split; try done.
  - intros p. rewrite (live_count_update P P) by tauto. apply Hc.
  - intros i. by rewrite Hiff.
  - intros i Hi. apply Hiff. by apply Hp.
  - pose proof active_count_update. rewrite bool_decide_true in H by done. lia.
Qed.

Lemma live_ok_ended P R V :
  oo_state o = Active -> st <> Active -> live_ok P O R V -> live_ok ({[id]} ∪ P) O' R V.
Proof using Ho.
  clear Hst Hrem.
  intros Ha Hs [Hc Hn Hr Hp Hw Hcap].
  assert (HnP : id ∉ P). { intros Hi%Hp. destruct Hi as (x & Hx & Hxs). congruence. }
  split; try done.
  - intros p. rewrite (live_count_update P) by set_solver. apply Hc.
  - intros i. rewrite Hr. destruct (decide (id = i)) as [<-|Hne].
    + rewrite Ho. split; [| set_solver]. intros (_ & x & [= <-] & ?). done.
    + rewrite lookup_insert_ne by done. split; intros [Hi Hx]; (split; [set_solver | done]).
  - intros i [->%elem_of_singleton|Hi]%elem_of_union.
    + rewrite lookup_insert_eq. eauto.
    + destruct (decide (id = i)) as [<-|Hne]; [done |]. rewrite lookup_insert_ne by done. by apply Hp.
  - pose proof active_count_update. rewrite bool_decide_true in H by done. lia.
Qed.

End update.

(** ** Counting *)

Lemma live_count_nonneg P O p : 0 <= live_count P O p.
Proof. apply map_sum_nonneg. intros id o _. by case_bool_decide. Qed.

(** Every owned order is live, retired or about to be retired. *)
Lemma owned_count P O R V :
  live_ok P O R V ->
  active_count O + Z.of_nat (length R) + Z.of_nat (size P) = Z.of_nat (size O).
Proof.
  intros [_ Hn Hr Hp _ _].
  set (Q := fun e : Z * OwnedOrder => oo_state e.2 <> Active).
  assert (Hall : Z.of_nat (size O) = active_count O + Z.of_nat (size (filter Q O))).
  { rewrite <- (map_sum_count Q). unfold active_count. rewrite <- map_sum_add.
    rewrite <- map_sum_size. apply map_sum_ext. intros i x _. unfold is_active, Q. simpl. repeat case_bool_decide; done || tauto. }
  assert (Hdom : dom (filter Q O) = list_to_set R ∪ P).
  { apply set_eq. intros i. rewrite elem_of_dom, elem_of_union, elem_of_list_to_set, Hr. split.
    - intros [o [Ho Hs]%map_lookup_filter_Some]. destruct (decide (i ∈ P)); [by right | left]. eauto.
    - intros [(_ & o & Ho & Hs)|(o & Ho & Hs)%Hp]; exists o; by apply map_lookup_filter_Some. }
  rewrite Hall, <- (size_dom (D := gset Z)), Hdom, size_union.
  - rewrite size_list_to_set by done. lia.
  - intros i Hi%elem_of_list_to_set%Hr ?. by destruct Hi.
Qed.

(** ** Books and ownership *)

Lemma expected_other due O k sd id id' o : id' <> id -> expected due (<[id := o]> O) k sd id' = expected due O k sd id'.
Proof. intros Hne. unfold expected. by rewrite lookup_insert_ne. Qed.

Lemma books_ok_transfer due due' L O O' :
  books_ok due L O ->
  (forall k sd id, expected due' O' k sd id = expected due O k sd id) ->
  (forall id o, O' !! id = Some o -> exists o0, O !! id = Some o0 /\ oo_listing_key o = oo_listing_key o0) ->
  (forall id, 0 <= due' id) -> (forall id, O' !! id = None -> due' id = 0) -> books_ok due' L O'.
Proof.
  intros [Hb Hm Hl _ _] He Hk Hd Hn. split; try done.
  - intros k ls sd id Hls. by rewrite He, (Hm k ls sd id Hls).
  - intros id o (o0 & H0 & ->)%Hk. by eapply Hl.
Qed.

Lemma books_ok_put due due' L O O' k ls b :
  books_ok due L O -> L !! k = Some ls -> book_ok b ->
  (forall sd id, side_remaining b sd id = expected due' O' k sd id) ->
  (forall k' sd id, k' <> k -> expected due' O' k' sd id = expected due O k' sd id) ->
  (forall id o, O' !! id = Some o -> exists o0, O !! id = Some o0 /\ oo_listing_key o = oo_listing_key o0) ->
  (forall id, 0 <= due' id) -> (forall id, O' !! id = None -> due' id = 0) ->
  books_ok due' (<[k := mkListingState (ls_definition ls) b]> L) O'.
Proof.
  intros [Hb Hm Hl _ _] Hls Hbk He Ho Hk Hd Hn. split; try done.
  - intros k' ls' [[<- <-]|[_ Hls']]%lookup_insert_Some; [done | by eapply Hb].
  - intros k' ls' sd id [[<- <-]|[Hne Hls']]%lookup_insert_Some; [apply He |].
    rewrite Ho by done. by apply Hm.
  - intros id o (o0 & H0 & ->)%Hk. destruct (decide (oo_listing_key o0 = k)) as [->|Hne].
    + by rewrite lookup_insert_eq.
    + rewrite lookup_insert_ne by done. by eapply Hl.
Qed.

(** An update of one order keeps every listing key. *)
Lemma update_keys (O : gmap Z OwnedOrder) id o st rem :
  O !! id = Some o ->
  forall id' o', <[id := set_order_state st rem o]> O !! id' = Some o' ->
  exists o0, O !! id' = Some o0 /\ oo_listing_key o' = oo_listing_key o0.
Proof. intros Ho id' o' [[<- <-]|[_ H']]%lookup_insert_Some; eauto. Qed.

(** What a live order with nothing in flight shows in its book. *)
Lemma owned_resting due L O id o ls :
  books_ok due L O -> O !! id = Some o -> L !! oo_listing_key o = Some ls ->
  side_remaining (ls_book ls) (oo_side o) id = oo_remaining_quantity o - due id.
Proof.
  intros Hb Ho Hl. rewrite (bs_match _ _ _ Hb _ _ _ _ Hl). unfold expected.
  by rewrite Ho, bool_decide_true.
Qed.

(** A resting order is owned, on its side, at its listing. *)
Lemma resting_owned due L O k ls sd id :
  books_ok due L O -> L !! k = Some ls -> 0 < side_remaining (ls_book ls) sd id ->
  exists o, O !! id = Some o /\ oo_listing_key o = k /\ oo_side o = sd /\
    side_remaining (ls_book ls) sd id = oo_remaining_quantity o - due id.
Proof.
  intros Hb Hl. rewrite (bs_match _ _ _ Hb _ _ _ _ Hl). unfold expected.
  destruct (O !! id) as [o|]; [| lia]. case_bool_decide as Hc; [| lia].
  intros _. exists o. by destruct Hc.
Qed.

(** ** Cancellation *)

Lemma alter_some {V} (f : V -> V) (m : gmap Z V) k v :
  m !! k = Some v -> alter f k m = <[k := f v]> m.
Proof.
  intros Hk. apply map_eq. intros j. destruct (decide (k = j)) as [<-|Hne].
  - by rewrite lookup_alter_eq, lookup_insert_eq, Hk.
  - by rewrite lookup_alter_ne, lookup_insert_ne.
Qed.

Lemma order_claim_nonneg terms id o k : owned_ok id o -> 0 <= order_claim terms o k.
Proof.
  intros [_ Hr _ Hc]. unfold order_claim. destruct (terms !! _) as [t|]; [| done].
  apply Z.mul_nonneg_nonneg; [by apply weight_nonneg | lia].
Qed.

(** The ledger holds at least what one order weighs. *)
Lemma order_claim_held l O id o k :
  orders_ok O -> claims_ok l O -> O !! id = Some o ->
  order_claim (lg_terms l) o k <= held l (oo_participant_id o) k.
Proof.
  intros HO HC Ho. rewrite (cl_held _ _ HC).
  etrans; [| apply (map_sum_le_elem _ _ id o); [| done]].
  - simpl. by rewrite Z.eqb_refl.
  - intros id' o' Ho'. simpl. destruct (_ =? _); [| done].
    by eapply order_claim_nonneg, HO.
Qed.

(** The run [cancel] leaves. *)
Definition canceled_run (oid : Z) (o : OwnedOrder) (ls : ListingState) (b : Book) (l : Ledger)
    (s : RunState) : RunState :=
  set_ownership (<[oid := set_order_state OwnedOrderState.Canceled 0 o]> (rs_ownership s))
    (match oo_expires_at o with
     | Some at_ => set_expiries (rs_expiries s ∖ {[(at_, oid)]})
                     (set_ledger l (put_book (oo_listing_key o) ls b s))
     | None => set_ledger l (put_book (oo_listing_key o) ls b s)
     end).

Definition cancel_event (oid : Z) (o : OwnedOrder) (reason : CancelReason.CancelReason) : EventPayload :=
  OrderCanceled oid (oo_participant_id o) (instrument_of o) (Some (oo_listing_key o))
    (oo_remaining_quantity o) reason.

(** Canceling a live order with nothing in flight always succeeds: its book
    shows it and the ledger holds all it reserved. *)
Lemma cancel_order_run oid reason t P due fresh o :
  engine_ok P due fresh (tx_run t) -> rs_ownership (tx_run t) !! oid = Some o ->
  oo_state o = Active -> due oid = 0 ->
  exists ls b l,
    cancel_order oid reason t =
      (mkTxn (canceled_run oid o ls b l (tx_run t)) (tx_payloads t ++ [cancel_event oid o reason])
         (tx_changed t), Ok tt) /\
    engine_ok ({[oid]} ∪ P) due fresh (canceled_run oid o ls b l (tx_run t)).
Proof.
  intros [HO HB HC HX HL] Ho Ha Hd. set (s := tx_run t) in *.
  pose proof (HO _ _ Ho) as [Hid Hr Hact Hcash]. apply Hact in Ha as Hpos.
  destruct (bs_listed _ _ _ HB _ _ Ho) as [ls Hls].
  pose proof (owned_resting _ _ _ _ _ _ HB Ho Hls) as Hres. rewrite Hd, Z.sub_0_r in Hres.
  destruct (cancel_effect (ls_book ls) (oo_side o) oid) as (b & bo & Hrun & Hbr & Hb & Hz & Hsame);
    [by eapply bs_book | lia |].
  destruct (cl_terms _ _ HC _ _ Ho) as [tm Htm].
  destruct (close_order_run (oo_participant_id o) (instrument_of o) (oo_side o)
    (oo_remaining_quantity o) (oo_reservation o) (rs_ledger s) tm) as [l Hclose];
    [apply HC | done | done | ranges; lia | done | |].
  { intros k. pose proof (order_claim_held _ _ _ _ k HO HC Ho) as Hk. unfold order_claim in Hk.
    by rewrite Htm in Hk. }
  exists ls, b, l. split.
  - unfold cancel_order. rewrite bind_read. cbn [id]. fold s. rewrite Ho. simpl. unfold is_active at 1.
    rewrite bool_decide_true by done. rewrite (bind_lift _ _ _ o) by done.
    rewrite (bind_lift _ _ _ ls) by (by rewrite Hls). rewrite Hrun, bind_update_run.
    rewrite (bind_lift _ _ _ bo) by done. rewrite bind_refuse by (rewrite Hbr, Hres, Z.eqb_refl; done).
    unfold on_run_ledger at 1. rewrite bind_assoc, bind_read. cbn [tx_run rs_ledger put_book set_listings].
    fold s. fold (instrument_of o). rewrite Hclose. rewrite !bind_assoc, bind_update_run.
    rewrite (bind_lift _ _ _ tt) by done. rewrite !bind_update_run. unfold push, modify.
    cbn [tx_run tx_payloads tx_changed]. fold s. repeat f_equal. unfold canceled_run.
    destruct (oo_expires_at o); simpl; f_equal; by apply alter_some.
  - assert (Hclose' := Hclose). unfold close_order in Hclose'.
    assert (Hi : is_i64 (oo_remaining_quantity o)) by (ranges; lia).
    pose proof (change_open_ok _ _ _ _ _ _ _ _ _ Hi (cl_ledger _ _ HC) Hclose') as Hl.
    apply change_open_held in Hclose' as (tm' & Htm' & Hterms & _ & Hheld); [| done].
    rewrite Htm in Htm'. injection Htm' as <-.
    assert (Hfields : rs_ownership (canceled_run oid o ls b l s)
        = <[oid := set_order_state OwnedOrderState.Canceled 0 o]> (rs_ownership s) /\
      rs_listings (canceled_run oid o ls b l s)
        = <[oo_listing_key o := mkListingState (ls_definition ls) b]> (rs_listings s) /\
      rs_ledger (canceled_run oid o ls b l s) = l /\
      rs_expiries (canceled_run oid o ls b l s)
        = (match oo_expires_at o with Some a => rs_expiries s ∖ {[(a, oid)]} | None => rs_expiries s end) /\
      rs_retired (canceled_run oid o ls b l s) = rs_retired s /\
      rs_live_orders (canceled_run oid o ls b l s) = rs_live_orders s).
    { unfold canceled_run. by destruct (oo_expires_at o). }
    destruct Hfields as (E1 & E2 & E3 & E4 & E5 & E6).
    split; rewrite ?E1, ?E2, ?E3, ?E4, ?E5, ?E6.
    + apply (orders_ok_update _ _ o Ho); [split; [done | lia] | lia | done].
    + apply (books_ok_put due due _ (rs_ownership s)); try done; try apply HB.
      * intros sd id'. destruct (decide (id' = oid)) as [->|Hne].
        -- rewrite Hz. unfold expected. rewrite lookup_insert_eq. simpl. rewrite Hd. by case_bool_decide.
        -- rewrite Hsame, expected_other by done. by apply (bs_match _ _ _ HB).
      * intros k' sd id' Hk. destruct (decide (id' = oid)) as [->|Hne].
        -- unfold expected. rewrite lookup_insert_eq, Ho. simpl.
           rewrite !bool_decide_false by (intros [? _]; congruence). done.
        -- by rewrite expected_other.
      * by apply update_keys.
      * intros id' [Hn _]%lookup_insert_None. by apply (bs_due_owned _ _ _ HB).
    + apply (claims_ok_update _ oid o Ho _ 0 (rs_ledger s)); try done.
      intros p k. rewrite Hheld. unfold freed. rewrite Htm. unfold open_delta.
      destruct (_ =? _); lia.
    + by apply expiry_ok_ended.
    + by apply live_ok_ended.
Qed.
