(* ===== verification/EngineFills.v ===== *)
(** * bunting-engine: executions keep the run invariant

    One execution ([settle_fill]), the executions of an aggressor
    ([settle_matches]) and of a call auction. *)

From S2P Require Import Prelude Ordered MarketTypes MarketEvents Ledger LedgerFacts.
From S2P Require Import Risk Book BookFacts BookMatch Auction Uncross BookEffects.
From S2P Require Import Calendar Simulation Scenario Engine EngineFrame EngineInvariant.

#[local] Notation Active := OwnedOrderState.Active.

(** ** One execution *)

(** An order after [q] of its lots traded, the event that reports it and
    whether that ended it. *)
Definition reduced (q : Z) (o : OwnedOrder) : OwnedOrder :=
  set_order_state (if oo_remaining_quantity o - q =? 0 then OwnedOrderState.Filled else oo_state o)
    (oo_remaining_quantity o - q) o.
Definition reduce_event (id q : Z) (o : OwnedOrder) : EventPayload :=
  if oo_remaining_quantity o - q =? 0 then OrderCompleted id
  else OrderReduced id (oo_remaining_quantity o - q).
Definition ended (id q : Z) (o : OwnedOrder) : gset Z :=
  if oo_remaining_quantity o - q =? 0 then {[id]} else ∅.

Lemma reduce_order_Ok id q O o r :
  O !! id = Some o -> reduce_order id q O = Ok r ->
  q <= oo_remaining_quantity o /\ r = (<[id := reduced q o]> O, reduce_event id q o).
Proof.
  intros Ho. unfold reduce_order. rewrite Ho. cbn. intros H.
  apply result_bind_Ok in H as (rem & Hr%ok_or_Ok & H).
  apply bind_Some in Hr as (rem' & Hc & Hr). unfold checked_sub in Hc. apply checked_Some in Hc as [-> _].
  destruct (Z.leb_spec 0 (oo_remaining_quantity o - q)); [| done]. injection Hr as <-.
  split; [lia |]. unfold reduced, reduce_event. destruct (_ =? _); by injection H as <-.
Qed.

(** Reducing a live order by lots that were in flight. *)
Section reduce.
Context (O : gmap Z OwnedOrder) (id : Z) (o : OwnedOrder) (Ho : O !! id = Some o).
Context (Ha : oo_state o = Active) (q : Z) (Hq : 0 < q <= oo_remaining_quantity o).

Lemma reduced_state :
  (if oo_remaining_quantity o - q =? 0 then OwnedOrderState.Filled else oo_state o) = Active <->
  0 < oo_remaining_quantity o - q.
Proof using Ha Hq. rewrite Ha. destruct (Z.eqb_spec (oo_remaining_quantity o - q) 0); split; done || lia. Qed.

Lemma reduced_orders_ok : orders_ok O -> orders_ok (<[id := reduced q o]> O).
Proof using Ho Ha Hq. apply (orders_ok_update O id o Ho); [apply reduced_state | lia]. Qed.

Lemma reduced_live_ok P R V :
  live_ok P O R V -> live_ok (ended id q o ∪ P) (<[id := reduced q o]> O) R V.
Proof using Ho Ha.
  unfold ended, reduced. destruct (Z.eqb_spec (oo_remaining_quantity o - q) 0).
  - by apply live_ok_ended.
  - rewrite union_empty_l_L. by apply live_ok_reduced.
Qed.

(** The expiries after [drop_expiry]. *)
Definition expiries_after (X : gset (Z * Z)) : gset (Z * Z) :=
  match oo_expires_at o with
  | Some at_ => if oo_remaining_quantity o - q =? 0 then X ∖ {[(at_, id)]} else X
  | None => X
  end.

Lemma reduced_expiry_ok fresh X :
  expiry_ok fresh O X -> expiry_ok fresh (<[id := reduced q o]> O) (expiries_after X).
Proof using Ho Ha.
  intros HX. unfold expiries_after, reduced. destruct (Z.eqb_spec (oo_remaining_quantity o - q) 0).
  - by apply expiry_ok_ended.
  - replace (match oo_expires_at o with Some _ => X | None => X end) with X by (by destruct (oo_expires_at o)).
    by apply expiry_ok_reduced.
Qed.

Lemma reduced_fresh_expiry_ok X :
  expiry_ok (Some id) O X -> expiry_ok (Some id) (<[id := reduced q o]> O) X.
Proof using Ho Ha.
  intros HX. unfold reduced. destruct (Z.eqb_spec (oo_remaining_quantity o - q) 0).
  - by apply expiry_ok_fresh_ended.
  - by apply expiry_ok_reduced.
Qed.

Lemma reduced_owed terms p k :
  owed terms (<[id := reduced q o]> O) p k =
  owed terms O p k - (if oo_participant_id o =? p then
    match terms !! instrument_of o with
    | Some t => weight t (instrument_of o) (oo_side o) (oo_reservation o) k * q
    | None => 0
    end else 0).
Proof using Ho.
  unfold reduced. rewrite (owed_update O id o Ho). unfold freed.
  destruct (_ =? _); [| done]. destruct (terms !! _); [| done]. f_equal. f_equal. lia.
Qed.

End reduce.

(** In-flight quantities after [q] lots settled between two orders. *)
Definition due_after (maker taker q : Z) (due : Z -> Z) : Z -> Z :=
  fun id => if (id =? maker) || (id =? taker) then due id - q else due id.

(** The parts of the run the invariant reads. *)
Definition parts (s : RunState) :=
  (rs_listings s, rs_ledger s, rs_ownership s, rs_expiries s, rs_retired s, rs_live_orders s).

Lemma parts_engine_ok P due fresh s s' :
  parts s' = parts s -> engine_ok P due fresh s -> engine_ok P due fresh s'.
Proof.
  unfold parts. intros He [HO HB HC HX HL]. injection He as E1 E2 E3 E4 E5 E6.
  by split; rewrite ?E1, ?E2, ?E3, ?E4, ?E5, ?E6.
Qed.

Lemma drop_expiry_parts id at_ s o :
  rs_ownership s !! id = Some o ->
  parts (drop_expiry id at_ s) =
  (rs_listings s, rs_ledger s, rs_ownership s,
   match at_ with
   | Some a => if oo_remaining_quantity o =? 0 then rs_expiries s ∖ {[(a, id)]} else rs_expiries s
   | None => rs_expiries s
   end, rs_retired s, rs_live_orders s).
Proof. intros Ho. unfold drop_expiry. destruct at_; [| done]. rewrite Ho. by destruct (_ =? _). Qed.

(** The recorded prices have their 64-bit type. *)
Definition prices_ok (s : RunState) : Prop :=
  map_Forall (fun _ p => is_i64 p) (rs_day_trades s) /\ map_Forall (fun _ p => is_i64 p) (rs_closes s).

Lemma drop_expiry_prices id at_ s : prices_ok s -> prices_ok (drop_expiry id at_ s).
Proof. unfold drop_expiry. by repeat case_match. Qed.

(** What [settle_fill] did when it returned. *)
Lemma settle_fill_Ok key maker taker price q auction t t' u om ot :
  rs_ownership (tx_run t) !! maker = Some om -> rs_ownership (tx_run t) !! taker = Some ot ->
  maker <> taker -> settle_fill key maker taker price q auction t = (t', Ok u) ->
  exists l fm ft,
    let pm := fill_party (tx_run t) om fm in
    let pt := fill_party (tx_run t) ot ft in
    let '(buyer, seller) := match oo_side ot with Buy => (pt, pm) | Sell => (pm, pt) end in
    settle (mkFill (lk_instrument_id key) price q (Some buyer) (Some seller) true)
      (rs_ledger (tx_run t)) = (l, Ok tt) /\
    oo_listing_key om = key /\ oo_state om = Active /\ oo_listing_key ot = key /\
    q <= oo_remaining_quantity om /\ q <= oo_remaining_quantity ot /\
    parts (tx_run t') = (rs_listings (tx_run t), l,
      <[taker := reduced q ot]> (<[maker := reduced q om]> (rs_ownership (tx_run t))),
      (let X := expiries_after maker om q (rs_expiries (tx_run t)) in
       if auction then expiries_after taker ot q X else X),
      rs_retired (tx_run t), rs_live_orders (tx_run t)) /\
    tx_payloads t' = tx_payloads t ++ reduce_event maker q om ::
      (if auction then [reduce_event taker q ot] else []) ++
      [TradeExecuted (lk_instrument_id key) (Some key) maker taker (fp_participant buyer)
         (fp_participant seller) price q (fp_fee buyer) (fp_fee seller)] /\
    (is_i64 price -> prices_ok (tx_run t) -> prices_ok (tx_run t')).
Proof.
  intros Hm Ht Hne H. unfold settle_fill in H. rewrite bind_read in H. cbn [id] in H.
  apply bind_Ok_inv in H as (? & listing & [-> _]%lift_Ok_inv & H).
  rewrite (bind_lift _ _ _ om) in H by (by rewrite Hm).
  rewrite (bind_lift _ _ _ ot) in H by (by rewrite Ht).
  apply bind_Ok_inv in H as (? & ? & [-> Hg]%refuse_if_Ok_inv & H). guards.
  apply bind_Ok_inv in H as (? & fm & [-> Hfm]%lift_Ok_inv & H).
  apply bind_Ok_inv in H as (? & ft & [-> Hft]%lift_Ok_inv & H).
  destruct (match oo_side ot with Buy => _ | Sell => _ end) as [buyer seller] eqn:Hbs in H.
  unfold on_run_ledger in H. rewrite bind_assoc, bind_read in H.
  destruct (settle _ _) as [l r] eqn:Hs in H. rewrite bind_assoc, bind_update_run in H.
  apply bind_Ok_inv in H as (? & [] & [-> Hr%map_err_Ok]%lift_Ok_inv & H). subst r.
  rewrite bind_update_run, bind_read in H. cbn [id] in H.
  set (t1 := mkTxn _ (tx_payloads t) (tx_changed t)) in H at 2.
  match type of H with (lift (reduce_order _ _ ?O) ≫= _) _ = _ =>
    assert (HO1 : O = rs_ownership (tx_run t)) by (simpl; by destruct (rs_calendar (tx_run t))) end.
  rewrite HO1 in H.
  apply bind_Ok_inv in H as (? & [O1 e1] & [-> Hred1]%lift_Ok_inv & H).
  apply (reduce_order_Ok _ _ _ om) in Hred1 as [Hq1 [= -> ->]]; [| done].
  rewrite bind_update_run in H. rewrite bind_push, bind_read in H.
  cbn [id tx_run] in H.
  apply bind_Ok_inv in H as (? & [O2 e2] & [-> Hred2]%lift_Ok_inv & H).
  cbn [rs_ownership set_ownership] in Hred2.
  apply (reduce_order_Ok _ _ _ ot) in Hred2 as [Hq2 [= -> ->]]; [| by rewrite lookup_insert_ne].
  rewrite bind_update_run in H.
  exists l, fm, ft. cbv zeta. rewrite Hbs.
  match goal with H : bool_decide (oo_listing_key om = key) = true |- _ => apply bool_decide_eq_true in H end.
  match goal with H : bool_decide (oo_listing_key ot = key) = true |- _ => apply bool_decide_eq_true in H end.
  match goal with H : is_active om = true |- _ => apply bool_decide_eq_true in H end.
  set (s1 := set_ownership _ _) in H.
  assert (Hs1 : parts s1 = (rs_listings (tx_run t), l,
    <[taker := reduced q ot]> (<[maker := reduced q om]> (rs_ownership (tx_run t))),
    rs_expiries (tx_run t), rs_retired (tx_run t), rs_live_orders (tx_run t))).
  { subst s1 t1. unfold parts. simpl. by destruct (rs_calendar (tx_run t)). }
  assert (Hprice : is_i64 price -> prices_ok (tx_run t) -> prices_ok s1).
  { subst s1 t1. intros Hi [Hd Hc]. split; simpl; destruct (rs_calendar (tx_run t)); try done.
    by apply map_Forall_insert_2. }
  clearbody s1. unfold parts in Hs1.
  assert (Hom : rs_ownership s1 !! maker = Some (reduced q om)).
  { injection Hs1 as _ _ -> _ _ _. by rewrite lookup_insert_ne, lookup_insert_eq. }
  assert (Hot : rs_ownership s1 !! taker = Some (reduced q ot)).
  { injection Hs1 as _ _ -> _ _ _. by rewrite lookup_insert_eq. }
  pose proof (drop_expiry_parts maker (oo_expires_at om) s1 _ Hom) as Hp1.
  destruct auction; rewrite ?bind_push, ?bind_ret, ?bind_update_run, ?bind_ret in H; unfold push, modify in H;
    injection H as <- _; cbn [tx_run tx_payloads tx_changed].
  - assert (Hot' : rs_ownership (drop_expiry maker (oo_expires_at om) s1) !! taker = Some (reduced q ot)).
    { by injection Hp1 as _ _ -> _ _ _. }
    pose proof (drop_expiry_parts taker (oo_expires_at ot) _ _ Hot') as Hp2.
    split_and!; try done; [| by rewrite <- !app_assoc | by intros; repeat apply drop_expiry_prices; apply Hprice].
    rewrite Hp2. injection Hp1 as -> -> -> -> -> ->. injection Hs1 as -> -> -> -> -> ->. done.
  - split_and!; try done; [| by rewrite <- !app_assoc | by intros; repeat apply drop_expiry_prices; apply Hprice].
    rewrite Hp1. injection Hs1 as -> -> -> -> -> ->. done.
Qed.

(** ** Settlement keeps the invariant *)

(** Identities whose terminal event is among the payloads. *)
Definition terminal_of (p : EventPayload) : option Z :=
  match p with
  | OrderCompleted id | OrderCanceled id _ _ _ _ _ => Some id
  | _ => None
  end.
Definition ended_by (ps : list EventPayload) : list Z := omap terminal_of ps.

(** The invariant inside a transaction.  The orders that became terminal are
    those whose event is staged and those in [extra], whose event is still to
    come. *)
Record txn_ok (extra : gset Z) (due : Z -> Z) (fresh : option Z) (t : Txn) : Prop := {
  tk_run : engine_ok (list_to_set (ended_by (tx_payloads t)) ∪ extra) due fresh (tx_run t);
  tk_nodup : NoDup (ended_by (tx_payloads t));
  tk_extra : forall id, id ∈ extra -> id ∉ ended_by (tx_payloads t);
  tk_prices : prices_ok (tx_run t)
}.

Lemma live_not_pending P due fresh s id o :
  engine_ok P due fresh s -> rs_ownership s !! id = Some o -> oo_state o = Active -> id ∉ P.
Proof.
  intros HE Ho Ha Hi. destruct (lv_pending _ _ _ _ (eo_live _ _ _ _ HE) _ Hi) as (x & Hx & Hs).
  rewrite Ho in Hx. by injection Hx as <-.
Qed.

(** An order with lots in flight is live. *)
Lemma due_remaining P due fresh s id o :
  engine_ok P due fresh s -> rs_ownership s !! id = Some o -> due id <= oo_remaining_quantity o.
Proof.
  intros HE Ho. destruct (bs_listed _ _ _ (eo_books _ _ _ _ HE) _ _ Ho) as [ls Hls].
  pose proof (owned_resting _ _ _ _ _ _ (eo_books _ _ _ _ HE) Ho Hls) as Hr.
  pose proof (side_remaining_nonneg (ls_book ls) (oo_side o) id
    (bs_book _ _ _ (eo_books _ _ _ _ HE) _ _ Hls)). lia.
Qed.

Lemma due_live P due fresh s id o :
  engine_ok P due fresh s -> rs_ownership s !! id = Some o -> 0 < due id -> oo_state o = Active.
Proof.
  intros HE Ho Hd. apply (eo_orders _ _ _ _ HE _ _ Ho). pose proof (due_remaining _ _ _ _ _ _ HE Ho). lia.
Qed.

Lemma expected_reduced due O k sd id id' q o :
  O !! id = Some o ->
  expected (fun i => if i =? id then due i - q else due i) (<[id := reduced q o]> O) k sd id' =
  expected due O k sd id'.
Proof.
  intros Ho. destruct (Z.eqb_spec id' id) as [->|Hne].
  - unfold expected. rewrite lookup_insert_eq, Ho, Z.eqb_refl. simpl. case_bool_decide; lia.
  - rewrite expected_other by done. unfold expected. destruct (Z.eqb_spec id' id); [done |]. done.
Qed.

Lemma books_ok_reduced due L O id q o :
  O !! id = Some o -> q <= due id -> books_ok due L O ->
  books_ok (fun i => if i =? id then due i - q else due i) L (<[id := reduced q o]> O).
Proof.
  intros Ho Hq HB. apply (books_ok_transfer due _ _ _ _ HB).
  - intros k sd id'. by apply expected_reduced.
  - by apply update_keys.
  - intros i. pose proof (bs_due _ _ _ HB i). destruct (Z.eqb_spec i id) as [->|]; lia.
  - intros i [Hn Hne]%lookup_insert_None. destruct (Z.eqb_spec i id); [done |].
    by apply (bs_due_owned _ _ _ HB).
Qed.

Lemma books_ok_due due due' L O : (forall id, due' id = due id) -> books_ok due L O -> books_ok due' L O.
Proof.
  intros He HB. apply (books_ok_transfer due _ _ _ _ HB); eauto.
  - intros k sd id. unfold expected. by rewrite He.
  - intros id. rewrite He. apply HB.
  - intros id. rewrite He. apply HB.
Qed.

(** The two orders of an execution. *)
Definition fill_orders (O : gmap Z OwnedOrder) (maker taker : Z) : Prop :=
  maker <> taker /\ exists om ot, O !! maker = Some om /\ O !! taker = Some ot /\
    oo_side om = opposite (oo_side ot).

(** The claims after both orders of an execution were reduced. *)
Lemma claims_ok_fill s l maker taker key price q om ot fm ft :
  claims_ok (rs_ledger s) (rs_ownership s) -> is_i64 price ->
  rs_ownership s !! maker = Some om -> rs_ownership s !! taker = Some ot -> maker <> taker ->
  oo_listing_key om = key -> oo_listing_key ot = key -> oo_side om = opposite (oo_side ot) ->
  (let '(buyer, seller) := match oo_side ot with
     | Buy => (fill_party s ot ft, fill_party s om fm)
     | Sell => (fill_party s om fm, fill_party s ot ft)
     end in
   settle (mkFill (lk_instrument_id key) price q (Some buyer) (Some seller) true) (rs_ledger s)
     = (l, Ok tt)) ->
  claims_ok l (<[taker := reduced q ot]> (<[maker := reduced q om]> (rs_ownership s))).
Proof.
  intros [Hl Ht Hh] Hp Hm Htk Hne Hkm Hkt Hsd Hs.
  assert (Hl' : ledger_ok l).
  { destruct (oo_side ot); by eapply settle_ok; [| | exact Hs]. }
  assert (Hheld : exists t, lg_terms (rs_ledger s) !! lk_instrument_id key = Some t /\
    lg_terms l = lg_terms (rs_ledger s) /\ forall p k, held l p k = held (rs_ledger s) p k
      - (if oo_participant_id om =? p then weight t (lk_instrument_id key) (oo_side om) (oo_reservation om) k * q else 0)
      - (if oo_participant_id ot =? p then weight t (lk_instrument_id key) (oo_side ot) (oo_reservation ot) k * q else 0)).
  { rewrite Hsd. destruct (oo_side ot); apply settle_held in Hs as (t & Ht1 & Ht2 & _ & _ & Hs);
      exists t; (split_and!; [done | done |]); intros p k; rewrite Hs; simpl; lia. }
  destruct Hheld as (t & Ht1 & Ht2 & Hheld).
  split; [done | |].
  - intros i o Hi. rewrite Ht2.
    apply lookup_insert_Some in Hi as [[<- <-]|[_ [[<- <-]|[_ Hi]]%lookup_insert_Some]];
      [apply (Ht _ _ Htk) | apply (Ht _ _ Hm) | apply (Ht _ _ Hi)].
  - intros p k. rewrite Hheld, Ht2, Hh.
    rewrite (reduced_owed _ taker ot) by (by rewrite lookup_insert_ne).
    rewrite (reduced_owed _ maker om) by done. unfold instrument_of. rewrite Hkm, Hkt, Ht1. lia.
Qed.

(** Orders change only in state and remaining quantity. *)
Definition evolves (o o' : OwnedOrder) : Prop :=
  o' = set_order_state (oo_state o') (oo_remaining_quantity o') o.
Definition orders_evolve (O O' : gmap Z OwnedOrder) : Prop :=
  forall id, option_Forall2 evolves (O !! id) (O' !! id).

#[export] Instance evolves_preorder : PreOrder evolves.
Proof.
  split; [by intros [] |]. unfold evolves. intros o1 o2 o3 H1 H2. rewrite H2, H1. done.
Qed.
#[export] Instance orders_evolve_preorder : PreOrder orders_evolve.
Proof.
  split; [by intros O id; apply option_Forall2_refl; intros ?; apply evolves_preorder |].
  intros O1 O2 O3 H1 H2 id. specialize (H1 id). specialize (H2 id).
  destruct H1; inversion H2; subst; constructor. by etrans.
Qed.
Lemma orders_evolve_insert (O : gmap Z OwnedOrder) id o st rem :
  O !! id = Some o -> orders_evolve O (<[id := set_order_state st rem o]> O).
Proof.
  intros Ho i. destruct (decide (id = i)) as [<-|Hne].
  - rewrite lookup_insert_eq, Ho. by constructor.
  - rewrite lookup_insert_ne by done. by apply option_Forall2_refl; intros ?; apply evolves_preorder.
Qed.
Lemma fill_orders_evolve O O' maker taker :
  orders_evolve O O' -> fill_orders O maker taker -> fill_orders O' maker taker.
Proof.
  intros He (Hne & om & ot & Hm & Ht & Hs). split; [done |].
  pose proof (He maker) as H1. pose proof (He taker) as H2. rewrite Hm in H1. rewrite Ht in H2.
  inversion H1 as [? om' Em E1|]. inversion H2 as [? ot' Et E2|]. exists om', ot'.
  split_and!; [done | done |]. by rewrite Em, Et.
Qed.

(** The terminal identity of a reduction. *)
Lemma ended_by_app ps ps' : ended_by (ps ++ ps') = ended_by ps ++ ended_by ps'.
Proof. apply omap_app. Qed.
Lemma ended_reduce id q o : list_to_set (ended_by [reduce_event id q o]) = ended id q o.
Proof.
  unfold ended_by, reduce_event, ended. destruct (_ =? 0); simpl; [| done]. by rewrite union_empty_r_L.
Qed.
Lemma elem_ended_reduce id q o i : i ∈ ended_by [reduce_event id q o] -> i = id.
Proof. unfold reduce_event. destruct (_ =? 0); simpl; set_solver. Qed.
Lemma nodup_ended_reduce id q o : NoDup (ended_by [reduce_event id q o]).
Proof. unfold reduce_event. destruct (_ =? 0); simpl; [apply NoDup_singleton | constructor]. Qed.

(** What settlement leaves alone; the aggressor's own completion is staged
    by its submission. *)
Record settles (auction : bool) (fresh : option Z) (t t' : Txn) : Prop := {
  st_orders : orders_evolve (rs_ownership (tx_run t)) (rs_ownership (tx_run t'));
  st_listings : rs_listings (tx_run t') = rs_listings (tx_run t);
  st_retired : rs_retired (tx_run t') = rs_retired (tx_run t);
  st_fresh : auction = false -> forall id, fresh = Some id ->
    id ∉ ended_by (tx_payloads t) -> id ∉ ended_by (tx_payloads t')
}.
#[export] Instance settles_preorder auction fresh : PreOrder (settles auction fresh).
Proof.
  split; [by split |]. intros t1 t2 t3 [O1 L1 R1 F1] [O2 L2 R2 F2].
  split; [by etrans | congruence | congruence | eauto].
Qed.

(** One execution. *)
Lemma settle_fill_ok key maker taker price q (auction : bool) t t' u extra due fresh :
  txn_ok extra due fresh t -> fill_orders (rs_ownership (tx_run t)) maker taker ->
  0 < q -> q <= due maker -> q <= due taker -> is_i64 price ->
  (auction = false -> fresh = Some taker) ->
  settle_fill key maker taker price q auction t = (t', Ok u) ->
  exists extra', txn_ok extra' (due_after maker taker q due) fresh t' /\
    (extra' ⊆ if auction then extra else {[taker]} ∪ extra) /\ settles auction fresh t t'.
Proof.
  intros [HE Hnd Hex Hpr] (Hne & om & ot & Hm & Htk & Hsd) Hq Hqm Hqt Hp Hfr Hrun.
  destruct (settle_fill_Ok _ _ _ _ _ _ _ _ _ om ot Hm Htk Hne Hrun) as (l & fm & ft & H').
  cbv zeta in H'. set (s := tx_run t) in *.
  assert (Hat : oo_state ot = Active) by (eapply due_live; [exact HE | done | lia]).
  assert (Ham : oo_state om = Active) by (eapply due_live; [exact HE | done | lia]).
  pose proof (live_not_pending _ _ _ _ _ _ HE Hm Ham) as HnM.
  pose proof (live_not_pending _ _ _ _ _ _ HE Htk Hat) as HnT.
  pose proof (claims_ok_fill s l maker taker key price q om ot fm ft (eo_claims _ _ _ _ HE) Hp Hm Htk Hne)
    as HC.
  destruct (match oo_side ot with Buy => _ | Sell => _ end) as [buyer seller].
  destruct H' as (Hset & Hkm & _ & Hkt & Hrm & Hrt & Hparts & Hpay & Hprices).
  specialize (HC Hkm Hkt Hsd Hset). destruct HE as [HO HB _ HX HL].
  set (O1 := <[maker := reduced q om]> (rs_ownership s)) in *.
  assert (Htk1 : O1 !! taker = Some ot) by (subst O1; by rewrite lookup_insert_ne).
  unfold parts in Hparts. injection Hparts as E1 E2 E3 E4 E5 E6.
  exists (if auction then extra else ended taker q ot ∪ extra). split_and!.
  - assert (Hev : ended_by (tx_payloads t') = ended_by (tx_payloads t) ++ ended_by [reduce_event maker q om]
      ++ (if auction then ended_by [reduce_event taker q ot] else [])).
    { rewrite Hpay, ended_by_app. f_equal. unfold reduce_event.
      destruct auction; repeat destruct (_ =? 0); done. }
    split.
    + replace (list_to_set (ended_by (tx_payloads t')) ∪ (if auction then extra else ended taker q ot ∪ extra))
        with (ended taker q ot ∪ (ended maker q om ∪ (list_to_set (ended_by (tx_payloads t)) ∪ extra)) : gset Z).
      2: { rewrite Hev, !list_to_set_app_L, ended_reduce.
           destruct auction; rewrite ?ended_reduce; set_solver. }
      split; rewrite ?E1, ?E2, ?E3, ?E4, ?E5, ?E6.
      * apply reduced_orders_ok; [done | done | lia |]. by apply reduced_orders_ok; [| | lia |].
      * eapply books_ok_due; [| apply books_ok_reduced, books_ok_reduced; [done | | done | done | done]].
        -- intros i. unfold due_after. simpl. destruct (Z.eqb_spec i maker), (Z.eqb_spec i taker); simpl; congruence.
        -- simpl. by rewrite (proj2 (Z.eqb_neq _ _)) by congruence.
      * done.
      * destruct auction.
        -- by apply reduced_expiry_ok, reduced_expiry_ok.
        -- rewrite Hfr in * by done. apply reduced_fresh_expiry_ok; [done | done |]. by apply reduced_expiry_ok.
      * by apply reduced_live_ok, reduced_live_ok.
    + rewrite Hev. apply NoDup_app. split; [done |].
      pose proof (elem_ended_reduce maker q om). pose proof (elem_ended_reduce taker q ot).
      split; [| apply NoDup_app; split_and!;
        [apply nodup_ended_reduce | | destruct auction; [apply nodup_ended_reduce | constructor]]].
      * intros i Hi. destruct auction; set_solver.
      * intros i Hi. destruct auction; set_solver.
    + intros i Hi. rewrite Hev.
      pose proof (elem_ended_reduce maker q om i). pose proof (elem_ended_reduce taker q ot i).
      assert (i ∈ extra \/ (auction = false /\ i = taker)).
      { destruct auction; [by left |]. unfold ended in Hi. destruct (_ =? _); set_solver. }
      destruct auction; set_solver.
    + by apply Hprices.
  - destruct auction; [done |]. unfold ended. destruct (_ =? _); set_solver.
  - split; [| done | done |].
    + rewrite E3. etrans; [apply (orders_evolve_insert _ maker om); exact Hm |].
      by apply orders_evolve_insert.
    + intros -> i Hi. rewrite Hfr in Hi by done. injection Hi as <-. rewrite Hpay, ended_by_app.
      intros Hi [?|Hin]%elem_of_app; [done |]. unfold reduce_event in Hin.
      destruct (_ =? 0); simpl in Hin; set_solver.
Qed.
