(* ===== verification/EngineSubmit.v ===== *)
(** * bunting-engine: submission keeps the run invariant

    The executions of an aggressor or of a call auction, the submission of
    an order in its three stages (open, execute, remainder) and the opening
    and closing auctions. *)

From S2P Require Import Prelude Ordered MarketTypes MarketEvents Ledger LedgerFacts.
From S2P Require Import Risk Book BookFacts BookMatch Auction Uncross BookEffects.
From S2P Require Import Calendar Simulation Scenario Engine EngineFrame EngineInvariant.
From S2P Require Import EngineFills.

#[local] Notation Active := OwnedOrderState.Active.

(** ** A list of executions *)

Lemma engine_ok_due P due due' fresh s :
  (forall id, due' id = due id) -> engine_ok P due fresh s -> engine_ok P due' fresh s.
Proof. intros He [HO HB HC HX HL]. split; try done. by eapply books_ok_due. Qed.

Lemma txn_ok_due extra due due' fresh t :
  (forall id, due' id = due id) -> txn_ok extra due fresh t -> txn_ok extra due' fresh t.
Proof. intros He [HE Hn Hx Hpr]. split; try done. by eapply engine_ok_due. Qed.

(** Staging an event that ends no order. *)
Lemma txn_ok_push extra due fresh s ps c c' p :
  terminal_of p = None -> txn_ok extra due fresh (mkTxn s ps c) ->
  txn_ok extra due fresh (mkTxn s (ps ++ [p]) c').
Proof.
  intros Hp [HE Hn Hx Hpr]. simpl in *. assert (He : ended_by (ps ++ [p]) = ended_by ps).
  { rewrite ended_by_app. unfold ended_by at 2. simpl. by rewrite Hp, app_nil_r. }
  split; simpl; rewrite ?He; done.
Qed.

Section fills.
Context {A : Type} (mk tk pr qt : A -> Z) (key : ListingKey) (auction : bool).

(** Lots of an order among executions still to settle. *)
Definition inflight (xs : list A) (id : Z) : Z :=
  sumZ ((fun x => if (id =? mk x) || (id =? tk x) then qt x else 0) <$> xs).

Lemma inflight_nonneg xs id : Forall (fun x => 0 < qt x) xs -> 0 <= inflight xs id.
Proof.
  unfold inflight. induction 1 as [|x xs Hx _ IH]; [done |].
  rewrite fmap_cons, sumZ_cons. destruct (_ || _); lia.
Qed.

(** An execution whose two orders exist and face each other. *)
Definition fill_fits (fresh : option Z) (O : gmap Z OwnedOrder) (x : A) : Prop :=
  fill_orders O (mk x) (tk x) /\ 0 < qt x /\ is_i64 (pr x) /\ (auction = false -> fresh = Some (tk x)).

Lemma fill_fits_evolve fresh O O' x : orders_evolve O O' -> fill_fits fresh O x -> fill_fits fresh O' x.
Proof. intros He (Hf & Hq & Hp & Hfr). split_and!; try done. by eapply fill_orders_evolve. Qed.

Lemma settle_all xs base fresh : (forall id, 0 <= base id) ->
  forall t t' u extra,
  txn_ok extra (fun id => base id + inflight xs id) fresh t ->
  Forall (fill_fits fresh (rs_ownership (tx_run t))) xs ->
  for_each (fun x => settle_fill key (mk x) (tk x) (pr x) (qt x) auction) xs t = (t', Ok u) ->
  exists extra', txn_ok extra' base fresh t' /\
    (forall id, id ∈ extra' -> id ∈ extra \/ (auction = false /\ fresh = Some id)) /\
    settles auction fresh t t'.
Proof.
  intros Hb. induction xs as [|x xs IH]; intros t t' u extra Ht Hall Hrun; simpl in Hrun.
  - unfold mret, M_ret in Hrun. injection Hrun as <- _. exists extra. split_and!; [| auto | done].
    eapply txn_ok_due; [| exact Ht]. intros id. unfold inflight. simpl. lia.
  - apply bind_Ok_inv in Hrun as (t1 & [] & Hx & Hrun).
    apply Forall_cons in Hall as [(Hf & Hq & Hp & Hfr) Hall].
    assert (Hnn : forall id, 0 <= inflight xs id).
    { intros id. apply inflight_nonneg. eapply Forall_impl; [exact Hall |]. by intros y (_ & ? & _). }
    assert (Hin : forall id, inflight (x :: xs) id =
      (if (id =? mk x) || (id =? tk x) then qt x else 0) + inflight xs id).
    { intros id. unfold inflight. by rewrite fmap_cons, sumZ_cons. }
    pose proof (fun id => Hnn id) as Hn'. pose proof Hf as [Hne _].
    apply (settle_fill_ok _ _ _ _ _ _ _ _ _ extra _ fresh Ht) in Hx; try done.
    2: { rewrite Hin, Z.eqb_refl. simpl. specialize (Hb (mk x)). specialize (Hnn (mk x)). lia. }
    2: { rewrite Hin, Z.eqb_refl, orb_true_r. specialize (Hb (tk x)). specialize (Hnn (tk x)). lia. }
    destruct Hx as (ex1 & Ht1 & Hex1 & Hs1).
    apply (IH t1 t' u ex1) in Hrun as (ex2 & Ht2 & Hex2 & Hs2).
    + exists ex2. split_and!; [done | | by etrans].
      intros id [Hi|Hi]%Hex2; [| by right]. apply Hex1 in Hi. destruct auction; [by left |].
      apply elem_of_union in Hi as [->%elem_of_singleton|Hi]; [right; auto | by left].
    + eapply txn_ok_due; [| exact Ht1]. intros id. unfold due_after. rewrite Hin. destruct (_ || _); lia.
    + eapply Forall_impl; [exact Hall |]. intros y. apply fill_fits_evolve, Hs1.
Qed.

End fills.

(** ** Taking lots out of a book *)

Lemma on_book_Ok {A} key (m : M Book BookError.BookError A) t t' a :
  on_book key m t = (t', Ok a) ->
  exists ls b, rs_listings (tx_run t) !! key = Some ls /\ m (ls_book ls) = (b, Ok a) /\
    t' = mkTxn (put_book key ls b (tx_run t)) (tx_payloads t) (tx_changed t).
Proof.
  unfold on_book. rewrite bind_read. cbn [id]. intros H.
  apply bind_Ok_inv in H as (? & ls & [-> Hls%ok_or_Ok]%lift_Ok_inv & H).
  destruct (m (ls_book ls)) as [b r] eqn:Hm. rewrite bind_update_run in H.
  apply lift_Ok_inv in H as [-> ->%map_err_Ok]. eauto.
Qed.

(** Lots that leave a book are in flight until they settle. *)
Lemma books_ok_take due L O k ls b (g : Side -> Z -> Z) :
  books_ok due L O -> L !! k = Some ls -> book_ok b -> (forall sd id, 0 <= g sd id) ->
  (forall sd id, side_remaining b sd id = side_remaining (ls_book ls) sd id - g sd id) ->
  books_ok (fun id => due id + (g Buy id + g Sell id))
    (<[k := mkListingState (ls_definition ls) b]> L) O.
Proof.
  intros HB Hls Hb Hg Hr.
  assert (Hzero : forall sd id, expected due O k sd id = 0 -> g sd id = 0).
  { intros sd id Hz. specialize (Hr sd id). rewrite (bs_match _ _ _ HB _ _ _ _ Hls), Hz in Hr.
    pose proof (side_remaining_nonneg b sd id Hb). specialize (Hg sd id). lia. }
  assert (Hoff : forall id sd o, O !! id = Some o -> oo_listing_key o <> k \/ oo_side o <> sd -> g sd id = 0).
  { intros id sd o Ho Hne. apply Hzero. unfold expected. rewrite Ho, bool_decide_false; [done |]. tauto. }
  assert (Hnone : forall id sd, O !! id = None -> g sd id = 0).
  { intros id sd Ho. apply Hzero. unfold expected. by rewrite Ho. }
  apply (books_ok_put due _ _ O); try done; eauto.
  - intros sd id. rewrite Hr, (bs_match _ _ _ HB _ _ _ _ Hls). unfold expected.
    destruct (O !! id) as [o|] eqn:Ho; [| by rewrite Hnone].
    case_bool_decide as Hc; [| rewrite (Hoff id sd o Ho); [done |]].
    + destruct Hc as [_ <-]. pose proof (Hoff id (opposite (oo_side o)) o Ho) as Hop.
      destruct (oo_side o); simpl in Hop; rewrite Hop by (right; done); lia.
    + destruct (decide (oo_listing_key o = k)); [right | by left]. tauto.
  - intros k' sd id Hne. unfold expected. destruct (O !! id) as [o|] eqn:Ho; [| done].
    case_bool_decide as Hc; [| done]. destruct Hc as [Hk _].
    rewrite !(Hoff id _ o Ho) by (left; congruence). lia.
  - intros id. pose proof (bs_due _ _ _ HB id). pose proof (Hg Buy id). pose proof (Hg Sell id). lia.
  - intros id Ho. rewrite (bs_due_owned _ _ _ HB id Ho), !Hnone by done. done.
Qed.

Lemma engine_ok_take P due fresh s k ls b (g : Side -> Z -> Z) :
  engine_ok P due fresh s -> rs_listings s !! k = Some ls -> book_ok b -> (forall sd id, 0 <= g sd id) ->
  (forall sd id, side_remaining b sd id = side_remaining (ls_book ls) sd id - g sd id) ->
  engine_ok P (fun id => due id + (g Buy id + g Sell id)) fresh (put_book k ls b s).
Proof. intros [HO HB HC HX HL] Hls Hb Hg Hr. split; try done. by apply books_ok_take. Qed.

(** ** The call auction *)

Lemma cross_roles_cases c :
  cross_roles c = (cx_buy c, cx_sell c) \/ cross_roles c = (cx_sell c, cx_buy c).
Proof. unfold cross_roles. destruct (_ <? _); auto. Qed.

Lemma inflight_crosses cs id :
  Forall (fun c => cx_buy c <> cx_sell c) cs ->
  inflight (fun c => (cross_roles c).1) (fun c => (cross_roles c).2) cx_quantity cs id =
  bought id cs + sold id cs.
Proof.
  unfold inflight, bought, sold. induction 1 as [|c cs Hc _ IH]; [done |].
  rewrite !fmap_cons, !sumZ_cons, IH.
  destruct (cross_roles_cases c) as [->| ->]; simpl;
    destruct (Z.eqb_spec id (cx_buy c)), (Z.eqb_spec id (cx_sell c)),
      (Z.eqb_spec (cx_buy c) id), (Z.eqb_spec (cx_sell c) id); simpl; lia.
Qed.

Lemma run_auction_ok key t t' u fresh :
  txn_ok ∅ idle fresh t -> run_auction key t = (t', Ok u) -> txn_ok ∅ idle fresh t'.
Proof.
  intros Ht Hrun. unfold run_auction in Hrun. rewrite bind_read in Hrun. cbn [id] in Hrun.
  apply bind_Ok_inv in Hrun as (? & ls & [-> Hls%ok_or_Ok]%lift_Ok_inv & Hrun).
  destruct (auction_price _ _) as [[price quantity]|] eqn:Hap.
  2: { unfold mret, M_ret in Hrun. by injection Hrun as <- _. }
  pose proof Ht as [HE Hn Hx Hpr].
  pose proof (bs_book _ _ _ (eo_books _ _ _ _ HE) _ _ Hls) as Hb.
  apply auction_price_range in Hap as Hprice; [| done].
  apply bind_Ok_inv in Hrun as (t1 & cs & Hu & Hrun).
  apply on_book_Ok in Hu as (ls' & b & Hls' & Hu & ->). rewrite Hls in Hls'. injection Hls' as <-.
  apply bind_Ok_inv in Hrun as (t2 & [] & Hf & Hrun).
  destruct (uncross_effect _ _ _ _ Hb Hu) as (Hb' & Hpos & Hbu & Hse).
  assert (Hsides : forall c, c ∈ cs -> exists ob os, rs_ownership (tx_run t) !! cx_buy c = Some ob /\
    rs_ownership (tx_run t) !! cx_sell c = Some os /\ oo_side ob = Buy /\ oo_side os = Sell).
  { intros c Hc. destruct (crossed_resting _ _ _ _ c Hb Hu Hc) as [H1 H2].
    destruct (resting_owned _ _ _ _ _ _ _ (eo_books _ _ _ _ HE) Hls H1) as (ob & ? & _ & ? & _).
    destruct (resting_owned _ _ _ _ _ _ _ (eo_books _ _ _ _ HE) Hls H2) as (os & ? & _ & ? & _). eauto 10. }
  assert (Hneq : forall c, c ∈ cs -> cx_buy c <> cx_sell c).
  { intros c (ob & os & Ho1 & Ho2 & Hs1 & Hs2)%Hsides Heq. congruence. }
  set (g := fun sd id => match sd with Buy => bought id cs | Sell => sold id cs end).
  unshelve epose proof (engine_ok_take _ _ _ _ _ _ _ g HE Hls Hb' _ _) as HE1.
  { intros sd id. assert (Hnn : forall f : Cross -> Z, 0 <= sumZ ((fun c => if f c =? id then cx_quantity c else 0) <$> cs)).
       { intros f. clear -Hpos. induction Hpos as [|y l Hy _ IH]; [done |]. rewrite fmap_cons, sumZ_cons.
         destruct (_ =? _); lia. }
       destruct sd; apply Hnn. }
  { intros [] id; [apply Hbu | apply Hse]. }
  destruct (settle_all (fun c => (cross_roles c).1) (fun c => (cross_roles c).2) (fun _ => price)
    cx_quantity key true cs idle fresh (fun _ => Z.le_refl 0)
    (mkTxn (put_book key ls b (tx_run t)) (tx_payloads t) (tx_changed t)) t2 tt ∅)
    as (extra' & Ht2 & Hex & _).
  - split; [| done | done | done]. eapply engine_ok_due; [| exact HE1]. intros id.
    rewrite inflight_crosses; [done |]. by apply Forall_forall.
  - apply Forall_forall. intros c Hc. destruct (Hsides c Hc) as (ob & os & Ho1 & Ho2 & Hs1 & Hs2).
    specialize (Hneq c Hc). split_and!; try done; [| | ranges; lia].
    + split; [by destruct (cross_roles_cases c) as [->| ->] |].
      destruct (cross_roles_cases c) as [->| ->]; simpl; do 2 eexists; (split_and!; [done | done |]);
        by rewrite Hs1, Hs2.
    + rewrite Forall_forall in Hpos. by apply Hpos.
  - rewrite <- Hf. apply for_each_ext. intros c x. by destruct (cross_roles c).
  - unfold push, modify in Hrun. injection Hrun as <- _. apply (txn_ok_push _ _ _ _ _ (tx_changed t2)); [done |].
    replace (∅ : gset Z) with extra' by (apply set_eq; set_solver). by destruct t2.
Qed.

(** ** Opening an order *)

Section open.
Context (O : gmap Z OwnedOrder) (id : Z) (o : OwnedOrder).
Context (Ho : O !! id = None) (Ha : oo_state o = Active) (Hok : owned_ok id o).

(** All lots of a fresh order are in flight. *)
Definition opened_due : Z -> Z := fun i => if i =? id then oo_remaining_quantity o else 0.

Lemma opened_books L :
  is_Some (L !! oo_listing_key o) -> books_ok idle L O -> books_ok opened_due L (<[id := o]> O).
Proof using Ho Hok.
  intros Hk [Hb Hm Hl _ _]. destruct Hok as [_ Hr _ _]. split; try done.
  - intros k ls sd i Hls. rewrite (Hm k ls sd i Hls). unfold expected, opened_due, idle.
    destruct (Z.eqb_spec i id) as [->|Hne].
    + rewrite Ho, lookup_insert_eq. case_bool_decide; lia.
    + by rewrite lookup_insert_ne.
  - intros i x [[<- <-]|[_ Hx]]%lookup_insert_Some; [done | by eapply Hl].
  - intros i. unfold opened_due. destruct (_ =? _); lia.
  - intros i [_ Hne]%lookup_insert_None. unfold opened_due. by destruct (Z.eqb_spec i id).
Qed.

Lemma opened_expiry X : expiry_ok None O X -> expiry_ok (Some id) (<[id := o]> O) X.
Proof using Ho.
  intros HX at_ i. rewrite (HX at_ i). destruct (decide (i = id)) as [->|Hne].
  - rewrite Ho. split; [by intros (_ & x & ? & _) | by intros []].
  - rewrite lookup_insert_ne by done. split; intros [_ Hx]; (split; [congruence | done]).
Qed.

Lemma opened_live P R V :
  Z.of_nat (size O - length R) < MAX_LIVE_ORDERS -> live_ok P O R V ->
  live_ok P (<[id := o]> O) R (<[oo_participant_id o := default 0 (V !! oo_participant_id o) + 1]> V).
Proof using Ho Ha.
  intros Hcap HL. pose proof (owned_count _ _ _ _ HL) as Hc. destruct HL as [Hv Hn Hr Hp Hw Hcp].
  assert (Hcount : forall p, live_count P (<[id := o]> O) p =
    live_count P O p + (if oo_participant_id o =? p then 1 else 0)).
  { intros p. unfold live_count. rewrite map_sum_insert by done.
    destruct (Z.eqb_spec (oo_participant_id o) p); case_bool_decide; try lia; tauto. }
  assert (Hlook : forall i x, oo_state x <> Active ->
    <[id := o]> O !! i = Some x <-> O !! i = Some x).
  { intros i x Hx. destruct (decide (id = i)) as [<-|Hne]; [| by rewrite lookup_insert_ne].
    rewrite lookup_insert_eq, Ho. split; [| done]. by intros [= <-]. }
  split; try done.
  - intros p. rewrite Hcount. pose proof (live_count_nonneg P O p) as Hnn. specialize (Hv p).
    destruct (Z.eqb_spec (oo_participant_id o) p) as [<-|Hne].
    + rewrite lookup_insert_eq, Hv. destruct (Z.eqb_spec (live_count P O (oo_participant_id o)) 0); simpl;
        destruct (Z.eqb_spec (live_count P O (oo_participant_id o) + 1) 0); try lia; f_equal; lia.
    + by rewrite lookup_insert_ne, Z.add_0_r.
  - intros i. rewrite Hr. split; intros [Hi (x & Hx & Hs)]; (split; [done |]); exists x;
      (split; [by apply Hlook | done]).
  - intros i (x & Hx & Hs)%Hp. exists x. split; [by apply Hlook | done].
  - unfold active_count in *. rewrite map_sum_insert by done. destruct (is_active o); lia.
Qed.

Lemma opened_claims l l' t :
  claims_ok l O -> ledger_ok l' -> lg_terms l' = lg_terms l -> lg_terms l !! instrument_of o = Some t ->
  (forall p k, held l' p k = held l p k + (if oo_participant_id o =? p
     then weight t (instrument_of o) (oo_side o) (oo_reservation o) k * oo_remaining_quantity o else 0)) ->
  claims_ok l' (<[id := o]> O).
Proof using Ho.
  intros [_ Ht Hh] Hl' Hterms Htm Hheld. split; [done | |].
  - intros i x [[<- <-]|[_ Hx]]%lookup_insert_Some; rewrite Hterms; [by eexists | by eapply Ht].
  - intros p k. rewrite Hheld, Hh, Hterms. unfold owed. rewrite map_sum_insert by done.
    unfold order_claim at 2. rewrite Htm. destruct (_ =? _); lia.
Qed.

End open.

Lemma on_run_ledger_Ok m t t' u :
  on_run_ledger m t = (t', Ok u) ->
  exists l, m (rs_ledger (tx_run t)) = (l, Ok tt) /\
    t' = mkTxn (set_ledger l (tx_run t)) (tx_payloads t) (tx_changed t).
Proof.
  unfold on_run_ledger. rewrite bind_read. destruct (m _) as [l r]. rewrite bind_update_run.
  intros [-> Hr%map_err_Ok]%lift_Ok_inv. destruct u. subst r. eauto.
Qed.

(** What an admission must have established before [submit_open]. *)
Record submit_ready (order : SubmitOrder) (key : ListingKey) (a : Admission) (s : RunState) : Prop := {
  sy_fresh : rs_ownership s !! so_order_id order = None;
  sy_listed : is_Some (rs_listings s !! key);
  sy_instrument : so_instrument_id order = lk_instrument_id key;
  sy_quantity : 0 < so_quantity order <= int_max I64;
  sy_capacity : Z.of_nat (size (rs_ownership s) - length (rs_retired s)) < MAX_LIVE_ORDERS;
  sy_reserved : 0 <= rs_cash_per_lot (ad_reservation a)
}.

Lemma submit_open_ok order key a t t' u :
  txn_ok ∅ idle None t -> submit_ready order key a (tx_run t) ->
  submit_open order key a t = (t', Ok u) ->
  txn_ok ∅ (opened_due (so_order_id order) (accepted_order order key a)) (Some (so_order_id order)) t' /\
  rs_ownership (tx_run t') = <[so_order_id order := accepted_order order key a]> (rs_ownership (tx_run t)) /\
  rs_listings (tx_run t') = rs_listings (tx_run t).
Proof.
  intros [HE Hn Hx Hpr] [Hfr Hls Hin Hq Hcap Hres] Hrun. unfold submit_open in Hrun.
  apply bind_Ok_inv in Hrun as (t1 & [] & (l & Hl & ->)%on_run_ledger_Ok & Hrun).
  rewrite !bind_update_run, bind_read in Hrun. cbn [id tx_run tx_payloads tx_changed] in Hrun.
  apply bind_Ok_inv in Hrun as (? & count & [-> Hc%ok_or_Ok]%lift_Ok_inv & Hrun).
  apply checked_Some in Hc as [-> _]. rewrite bind_update_run in Hrun.
  unfold push, modify in Hrun. injection Hrun as <- _. cbn [tx_run tx_payloads tx_changed].
  unfold live_order_count. cbn [rs_live_orders set_live_orders set_ownership set_ledger].
  rewrite lookup_insert_eq, insert_insert_eq. simpl default.
  assert (Hi : is_i64 (so_quantity order)) by (ranges; lia).
  split; [| done]. apply (txn_ok_push _ _ _ _ _ ∅); [done |]. destruct HE as [HO HB HC HX HL].
  unfold open_order in Hl.
  pose proof (change_open_ok _ _ _ _ _ _ _ _ _ Hi (cl_ledger _ _ HC) Hl) as Hl'.
  apply change_open_held in Hl as (tm & Htm & Hterms & _ & Hheld); [| done].
  set (o := accepted_order order key a).
  assert (Hok : owned_ok (so_order_id order) o) by (split; simpl; [done | lia | split; [lia | done] | done]).
  split; [| done | done | done].
  split; cbn [tx_run rs_ownership rs_listings rs_ledger rs_expiries rs_retired rs_live_orders
              set_live_orders set_ownership set_ledger tx_payloads].
  - by apply map_Forall_insert_2.
  - by apply opened_books.
  - apply (opened_claims _ _ o Hfr (rs_ledger (tx_run t)) l tm); try done.
    + unfold instrument_of. simpl. by rewrite <- Hin.
    + unfold instrument_of. simpl. by rewrite <- Hin.
  - by apply opened_expiry.
  - by apply (opened_live _ _ o).
Qed.

(** ** Executing an order *)

(** Only the lots [rem] of the order [id] are in flight. *)
Definition left_due (id rem : Z) : Z -> Z := fun i => if i =? id then rem else 0.

Lemma inflight_matches ms taker id :
  Forall (fun m => mt_maker m <> taker) ms ->
  inflight mt_maker (fun _ => taker) mt_quantity ms id =
  maker_filled id ms + (if id =? taker then sumZ (mt_quantity <$> ms) else 0).
Proof.
  unfold inflight, maker_filled. induction 1 as [|m ms Hm _ IH]; [by destruct (_ =? _) |].
  rewrite !fmap_cons, !sumZ_cons, IH.
  destruct (Z.eqb_spec id (mt_maker m)), (Z.eqb_spec (mt_maker m) id), (Z.eqb_spec id taker); simpl; lia.
Qed.

(** The order after its executions. *)
Record executed (id : Z) (o : OwnedOrder) (rem : Z) (t : Txn) : Prop := {
  xd_txn : txn_ok (if rem =? 0 then {[id]} else ∅) (left_due id rem) (Some id) t;
  xd_order : exists o', rs_ownership (tx_run t) !! id = Some o' /\ evolves o o' /\
    oo_remaining_quantity o' = rem;
  xd_range : 0 <= rem <= oo_remaining_quantity o
}.

(** An order with all its remaining lots in flight does not rest. *)
Lemma executed_intro id o rem t extra :
  txn_ok extra (left_due id rem) (Some id) t -> (forall i, i ∈ extra -> i = id) ->
  id ∉ rs_retired (tx_run t) -> id ∉ ended_by (tx_payloads t) ->
  (exists o', rs_ownership (tx_run t) !! id = Some o' /\ evolves o o') ->
  (exists ls, rs_listings (tx_run t) !! oo_listing_key o = Some ls /\
     side_remaining (ls_book ls) (oo_side o) id = 0) ->
  0 <= rem <= oo_remaining_quantity o -> executed id o rem t.
Proof.
  intros [HE Hn Hx Hpr] Hex HR Hend (o' & Ho' & Hev) (ls & Hls & Hz) Hr.
  assert (Hrem : oo_remaining_quantity o' = rem).
  { assert (Hk : oo_listing_key o' = oo_listing_key o) by (by rewrite Hev).
    assert (Hs : oo_side o' = oo_side o) by (by rewrite Hev).
    pose proof (owned_resting _ _ _ _ _ ls (eo_books _ _ _ _ HE) Ho') as Hrest.
    rewrite Hk, Hs, Hz in Hrest. specialize (Hrest Hls). unfold left_due in Hrest.
    rewrite Z.eqb_refl in Hrest. lia. }
  split; [| eauto | done].
  assert (extra = if rem =? 0 then {[id]} else ∅) as <-; [| done].
  pose proof (ow_active _ _ (eo_orders _ _ _ _ HE _ _ Ho')) as Hact. rewrite Hrem in Hact.
  pose proof (eo_live _ _ _ _ HE) as HL. destruct (Z.eqb_spec rem 0) as [->|Hne].
  - apply set_eq. intros i. rewrite elem_of_singleton. split; [apply Hex |]. intros ->.
    assert (Hns : oo_state o' <> Active) by (intros ?%Hact; lia).
    destruct (decide (id ∈ list_to_set (ended_by (tx_payloads t)) ∪ extra)) as [[Hi|Hi]%elem_of_union|Hi];
      [| done |].
    + by apply elem_of_list_to_set in Hi.
    + exfalso. apply HR, (lv_retired _ _ _ _ HL). eauto.
  - apply set_eq. intros i. split; [| set_solver]. intros Hi. pose proof (Hex _ Hi) as ->.
    exfalso. eapply (live_not_pending _ _ _ _ _ _ HE Ho'); [apply Hact; lia | set_solver].
Qed.

(** The taker's book before it executes: its lots are all in flight. *)
Lemma fresh_not_resting P fresh s id o ls :
  engine_ok P (left_due id (oo_remaining_quantity o)) fresh s -> rs_ownership s !! id = Some o ->
  rs_listings s !! oo_listing_key o = Some ls -> side_remaining (ls_book ls) (oo_side o) id = 0.
Proof.
  intros HE Ho Hls. rewrite (owned_resting _ _ _ _ _ _ (eo_books _ _ _ _ HE) Ho Hls).
  unfold left_due. rewrite Z.eqb_refl. lia.
Qed.

(** The executions of an order against the book of its listing. *)
Lemma execute_ok id o limit t t' t2 u ms rem :
  txn_ok ∅ (left_due id (oo_remaining_quantity o)) (Some id) t ->
  rs_ownership (tx_run t) !! id = Some o -> oo_state o = Active ->
  on_book (oo_listing_key o) (execute (oo_side o) limit (oo_remaining_quantity o)) t
    = (t2, Ok (ms, rem)) ->
  settle_matches id (oo_listing_key o) ms t2 = (t', Ok u) ->
  executed id o rem t'.
Proof.
  intros [HE Hn Hx Hpr] Ho Ha Hexec Hset. apply on_book_Ok in Hexec as (ls & b & Hls & Hexec & ->).
  pose proof (bs_book _ _ _ (eo_books _ _ _ _ HE) _ _ Hls) as Hb.
  pose proof (ow_range _ _ (eo_orders _ _ _ _ HE _ _ Ho)) as Hr.
  assert (Hi : is_i64 (oo_remaining_quantity o)) by (ranges; lia).
  destruct (execute_effect _ _ _ _ _ _ _ Hb Hi Hexec) as (Hb' & Hrem & Hsum & Hall & Hmk & Htk).
  pose proof (fresh_not_resting _ _ _ _ _ _ HE Ho Hls) as Hz.
  assert (Hmakers : forall m, m ∈ ms -> mt_maker m <> id /\ exists om,
    rs_ownership (tx_run t) !! mt_maker m = Some om /\ oo_side om = opposite (oo_side o)).
  { intros m Hm. apply (matched_resting _ _ _ _ _ _ _ _ Hb Hi Hexec) in Hm.
    destruct (resting_owned _ _ _ _ _ _ _ (eo_books _ _ _ _ HE) Hls Hm) as (om & Hom & _ & Hs & _).
    split; [| eauto]. intros Heq. rewrite Heq, Ho in Hom. injection Hom as <-. by destruct (oo_side o). }
  assert (Hpos : Forall (fun m => 0 < mt_quantity m) ms) by (eapply Forall_impl; [exact Hall | naive_solver]).
  assert (Hnn : 0 <= sumZ (mt_quantity <$> ms)).
  { clear -Hpos. induction Hpos as [|m ms Hm _ IH]; [done |]. rewrite fmap_cons, sumZ_cons. lia. }
  set (g := fun sd i => if bool_decide (sd = oo_side o) then 0 else maker_filled i ms).
  unshelve epose proof (engine_ok_take _ _ _ _ _ _ _ g HE Hls Hb' _ _) as HE1.
  { intros sd i. unfold g. case_bool_decide; [done | by apply maker_filled_nonneg]. }
  { intros sd i. unfold g. case_bool_decide as Hsd; [subst sd; rewrite Htk; lia |].
    assert (sd = opposite (oo_side o)) as -> by (by destruct sd, (oo_side o)). apply Hmk. }
  destruct (settle_all mt_maker (fun _ => id) mt_price mt_quantity (oo_listing_key o) false ms
    (left_due id rem) (Some id) ltac:(intros i; unfold left_due; destruct (_ =? _); lia)
    (mkTxn (put_book (oo_listing_key o) ls b (tx_run t)) (tx_payloads t) (tx_changed t)) t' u ∅)
    as (extra & Ht' & Hex & Hst); [| | exact Hset |].
  - split; [| done | done | done]. eapply engine_ok_due; [| exact HE1]. intros i.
    rewrite inflight_matches by (apply Forall_forall; intros m Hm; by apply Hmakers).
    unfold g, left_due. destruct (oo_side o), (i =? id); repeat case_bool_decide; done || lia.
  - apply Forall_forall. intros m Hm. rewrite Forall_forall in Hall.
    destruct (Hall m Hm) as (Hq & _ & Hp). destruct (Hmakers m Hm) as (Hne & om & Hom & Hs).
    split_and!; try done. split; [done |]. eauto.
  - apply (executed_intro _ _ _ _ extra); [done | | | | | | lia].
    + intros i Hin. destruct (Hex i Hin) as [?|[_ [=]]]; [set_solver | done].
    + rewrite (st_retired _ _ _ _ Hst). simpl. intros Hin.
      apply (lv_retired _ _ _ _ (eo_live _ _ _ _ HE)) in Hin as (_ & x & Hxo & Hs). congruence.
    + eapply (st_fresh _ _ _ _ Hst); [done | done |]. simpl. intros Hin.
      eapply (live_not_pending _ _ _ _ _ _ HE Ho Ha). set_solver.
    + pose proof (st_orders _ _ _ _ Hst id) as Hev. simpl in Hev. rewrite Ho in Hev.
      inversion Hev as [? o' He E1|]. eauto.
    + exists (mkListingState (ls_definition ls) b). rewrite (st_listings _ _ _ _ Hst). simpl.
      rewrite lookup_insert_eq, Htk. done.
Qed.

Lemma submit_execute_ok order key call t t' rem o :
  txn_ok ∅ (left_due (so_order_id order) (oo_remaining_quantity o)) (Some (so_order_id order)) t ->
  rs_ownership (tx_run t) !! so_order_id order = Some o -> oo_state o = Active ->
  oo_listing_key o = key -> oo_side o = so_side order -> oo_remaining_quantity o = so_quantity order ->
  submit_execute order key call t = (t', Ok rem) -> executed (so_order_id order) o rem t'.
Proof.
  intros Ht Ho Ha Hk Hs Hq Hrun. unfold submit_execute in Hrun. rewrite bind_read in Hrun. cbn [id] in Hrun.
  apply bind_Ok_inv in Hrun as (? & ls & [-> Hls%ok_or_Ok]%lift_Ok_inv & Hrun).
  destruct (_ && _) in Hrun.
  - apply bind_Ok_inv in Hrun as (t2 & [ms rem'] & Hexec & Hrun).
    apply bind_Ok_inv in Hrun as (t3 & [] & Hset & Hrun). unfold mret, M_ret in Hrun.
    injection Hrun as <- <-. rewrite <- Hk, <- Hs, <- Hq in *. by eapply execute_ok.
  - unfold mret, M_ret in Hrun. injection Hrun as <- <-. rewrite <- Hq. subst key. destruct Ht as [HE Hn Hx Hpr].
    pose proof (ow_range _ _ (eo_orders _ _ _ _ HE _ _ Ho)) as Hr.
    apply (executed_intro _ _ _ _ ∅); [done | set_solver | | | | | lia].
    + intros Hin. apply (lv_retired _ _ _ _ (eo_live _ _ _ _ HE)) in Hin as (_ & x & Hxo & ?). congruence.
    + intros Hin. eapply (live_not_pending _ _ _ _ _ _ HE Ho Ha). set_solver.
    + exists o. by split.
    + exists ls. split; [done |]. by eapply fresh_not_resting.
Qed.

(** ** The remainder *)

Lemma expiry_ok_done (O : gmap Z OwnedOrder) X id o :
  O !! id = Some o -> oo_state o <> Active \/ oo_expires_at o = None ->
  expiry_ok (Some id) O X -> expiry_ok None O X.
Proof.
  intros Ho Hd HX at_ i. rewrite (HX at_ i). split; [by intros [_ Hx] |].
  intros [_ (x & Hx & Ha & He)]. split; [| eauto]. intros [= ->].
  rewrite Ho in Hx. injection Hx as <-. destruct Hd; congruence.
Qed.

Lemma expiry_ok_rest (O : gmap Z OwnedOrder) X id o :
  O !! id = Some o -> oo_state o = Active -> expiry_ok (Some id) O X ->
  expiry_ok None O (match oo_expires_at o with Some at_ => {[(at_, id)]} ∪ X | None => X end).
Proof.
  intros Ho Ha HX. destruct (oo_expires_at o) as [a|] eqn:He; [| by eapply expiry_ok_done; eauto].
  intros at_ i. rewrite elem_of_union, elem_of_singleton, (HX at_ i). split.
  - intros [[= -> ->]|[_ Hx]]; (split; [done |]); eauto.
  - intros [_ (x & Hx & Hs & Hxe)]. destruct (decide (i = id)) as [->|Hne].
    + left. congruence.
    + right. split; [congruence | eauto].
Qed.

(** Filled: the completion is staged. *)
Lemma remainder_filled id o s ps c c' :
  executed id o 0 (mkTxn s ps c) -> txn_ok ∅ idle None (mkTxn s (ps ++ [OrderCompleted id]) c').
Proof.
  intros [[[HO HB HC HX HL] Hn Hx Hpr] (o' & Ho' & _ & Hr) _]. simpl in *.
  assert (He : ended_by (ps ++ [OrderCompleted id]) = ended_by ps ++ [id]) by apply ended_by_app.
  assert (Hs : oo_state o' <> Active).
  { intros Ha%(ow_active _ _ (HO _ _ Ho')). lia. }
  split; simpl; rewrite ?He; [| | set_solver | done].
  - replace (list_to_set (ended_by ps ++ [id]) ∪ ∅ : gset Z) with (list_to_set (ended_by ps) ∪ {[id]} : gset Z)
      by (rewrite list_to_set_app_L; set_solver).
    split; try done; [| by eapply expiry_ok_done; eauto].
    eapply books_ok_due; [| exact HB]. intros i. unfold idle, left_due. by destruct (_ =? _).
  - apply NoDup_app. split_and!; [done | | apply NoDup_singleton]. set_solver.
Qed.

(** Resting: the lots in flight enter the book. *)
Lemma remainder_rested id o rem s ps c c' ls b price display u p :
  executed id o rem (mkTxn s ps c) -> 0 < rem -> is_i64 price -> terminal_of p = None ->
  rs_listings s !! oo_listing_key o = Some ls ->
  rest id (oo_side o) price rem display (ls_book ls) = (b, Ok u) ->
  txn_ok ∅ idle None (mkTxn
    (match oo_expires_at o with
     | Some at_ => set_expiries ({[(at_, id)]} ∪ rs_expiries s) (put_book (oo_listing_key o) ls b s)
     | None => put_book (oo_listing_key o) ls b s
     end) (ps ++ [p]) c').
Proof.
  intros [[[HO HB HC HX HL] Hn Hx Hpr] (o' & Ho' & Hev & Hr) Hrange] Hpos Hp Ht Hls Hrest. simpl in *.
  apply (txn_ok_push _ _ _ _ _ ∅); [done |].
  rewrite (proj2 (Z.eqb_neq rem 0)) in * by lia.
  pose proof (ow_range _ _ (HO _ _ Ho')) as Hor.
  assert (Ha : oo_state o' = Active) by (apply (ow_active _ _ (HO _ _ Ho')); lia).
  assert (Hi : is_i64 rem) by (ranges; lia).
  destruct (rest_effect _ _ _ _ _ _ _ _ (bs_book _ _ _ HB _ _ Hls) Hi Hp Hrest)
    as (Hb & _ & _ & Hin & Hout & Hsame).
  assert (Hk : oo_listing_key o' = oo_listing_key o) by (by rewrite Hev).
  assert (Hs : oo_side o' = oo_side o) by (by rewrite Hev).
  assert (He : oo_expires_at o' = oo_expires_at o) by (by rewrite Hev).
  set (s' := match oo_expires_at o with Some _ => _ | None => _ end).
  assert (Hparts : parts s' = (<[oo_listing_key o := mkListingState (ls_definition ls) b]> (rs_listings s),
    rs_ledger s, rs_ownership s,
    (match oo_expires_at o' with Some at_ => {[(at_, id)]} ∪ rs_expiries s | None => rs_expiries s end),
    rs_retired s, rs_live_orders s)).
  { subst s'. rewrite He. by destruct (oo_expires_at o). }
  assert (Hpr' : prices_ok s') by (subst s'; by destruct (oo_expires_at o)).
  clearbody s'. unfold parts in Hparts. injection Hparts as E1 E2 E3 E4 E5 E6.
  split; [| done | set_solver | done]. split; simpl; rewrite ?E1, ?E2, ?E3, ?E4, ?E5, ?E6; try done.
  - apply (books_ok_put (left_due id rem) idle _ (rs_ownership s)); eauto; try done.
    + intros sd i. destruct (decide (i = id)) as [->|Hne].
      * unfold expected, idle. rewrite Ho', Hk, Hs. case_bool_decide as Hc.
        -- destruct Hc as [_ <-]. lia.
        -- assert (sd = opposite (oo_side o)) as -> by (destruct sd, (oo_side o); tauto). done.
      * rewrite Hsame, (bs_match _ _ _ HB _ _ _ _ Hls) by done. unfold expected, left_due, idle.
        by rewrite (proj2 (Z.eqb_neq _ _) Hne).
    + intros k' sd i Hne. unfold expected, left_due, idle. destruct (rs_ownership s !! i) as [x|] eqn:Hxo; [| done].
      destruct (Z.eqb_spec i id) as [->|]; [| done]. rewrite Ho' in Hxo. injection Hxo as <-.
      rewrite !bool_decide_false; [done |]. intros [? _]. congruence.
  - by eapply expiry_ok_rest.
Qed.

(** Unfilled and not allowed to rest: the order closes. *)
Lemma remainder_closed id o rem s ps c c' l owned u p :
  executed id o rem (mkTxn s ps c) -> 0 < rem -> terminal_of p = Some id ->
  rs_ownership s !! id = Some owned ->
  close_order (oo_participant_id o) (instrument_of o) (oo_side o) rem (oo_reservation o)
    (rs_ledger s) = (l, Ok u) ->
  txn_ok ∅ idle None (mkTxn
    (set_ownership (<[id := set_order_state OwnedOrderState.Canceled 0 owned]> (rs_ownership s))
       (set_ledger l s)) (ps ++ [p]) c').
Proof.
  intros [[[HO HB HC HX HL] Hn Hx Hpr] (o' & Ho' & Hev & Hr) Hrange] Hpos Ht Hown Hclose. simpl in *.
  rewrite Ho' in Hown. injection Hown as <-. rewrite (proj2 (Z.eqb_neq rem 0)) in * by lia.
  pose proof (HO _ _ Ho') as [_ Hor Hact _].
  assert (Ha : oo_state o' = Active) by (apply Hact; lia).
  assert (Hi : is_i64 rem) by (ranges; lia). unfold close_order in Hclose.
  pose proof (change_open_ok _ _ _ _ _ _ _ _ _ Hi (cl_ledger _ _ HC) Hclose) as Hl.
  apply change_open_held in Hclose as (tm & Htm & Hterms & _ & Hheld); [| done].
  assert (He : ended_by (ps ++ [p]) = ended_by ps ++ [id]).
  { rewrite ended_by_app. unfold ended_by at 2. simpl. by rewrite Ht. }
  assert (HnP : id ∉ ended_by ps).
  { intros Hin. destruct (lv_pending _ _ _ _ HL id) as (x & Hxo & Hs); [set_solver | congruence]. }
  split; simpl; rewrite ?He; [| | set_solver | done].
  2: { apply NoDup_app. split_and!; [done | | apply NoDup_singleton]. set_solver. }
  replace (list_to_set (ended_by ps ++ [id]) ∪ ∅ : gset Z) with ({[id]} ∪ (list_to_set (ended_by ps) ∪ ∅) : gset Z)
    by (rewrite list_to_set_app_L; set_solver).
  split; simpl.
  - apply (orders_ok_update _ _ o' Ho'); [split; [done | lia] | lia | done].
  - apply (books_ok_transfer (left_due id rem) _ _ (rs_ownership s) _ HB); try done.
    + intros k sd i. destruct (decide (i = id)) as [->|Hne].
      * unfold expected. rewrite lookup_insert_eq, Ho'. simpl. unfold idle, left_due.
        rewrite Z.eqb_refl. case_bool_decide; lia.
      * rewrite expected_other by done. unfold expected, idle, left_due.
        by rewrite (proj2 (Z.eqb_neq _ _) Hne).
    + by apply update_keys.
  - apply (claims_ok_update _ id o' Ho' _ 0 (rs_ledger s)); try done.
    intros p' k. rewrite Hheld. unfold freed, instrument_of in *.
    replace (oo_participant_id o') with (oo_participant_id o) by (by rewrite Hev).
    replace (oo_listing_key o') with (oo_listing_key o) by (by rewrite Hev).
    replace (oo_side o') with (oo_side o) by (by rewrite Hev).
    replace (oo_reservation o') with (oo_reservation o) by (by rewrite Hev).
    rewrite Htm. unfold open_delta. destruct (_ =? _); lia.
  - eapply expiry_ok_done; [apply lookup_insert_eq | by left |]. by apply expiry_ok_fresh_ended.
  - by apply live_ok_ended.
Qed.

(** ** Submission *)

(** The prices of an order have their 64-bit type. *)
Definition order_typed (order : SubmitOrder) : Prop :=
  is_i64 (so_quantity order) /\
  match so_kind order with
  | Limit price | LimitWithPolicy price _ _ _ => is_i64 price
  | Market => True
  end.

Lemma submit_remainder_ok order key a rem t t' u :
  executed (so_order_id order) (accepted_order order key a) rem t -> order_typed order ->
  so_instrument_id order = lk_instrument_id key -> is_Some (rs_listings (tx_run t) !! key) ->
  submit_remainder order key a rem t = (t', Ok u) -> txn_ok ∅ idle None t'.
Proof.
  intros Hex [_ Hty] Hin Hls Hrun. unfold submit_remainder in Hrun. destruct t as [s ps c].
  destruct (Z.eqb_spec rem 0) as [->|Hne].
  { unfold push, modify in Hrun. injection Hrun as <- _. by eapply remainder_filled. }
  pose proof (xd_range _ _ _ _ Hex) as Hr. assert (Hpos : 0 < rem) by lia.
  assert (Hclose : forall reason, (on_run_ledger (close_order (so_participant_id order) (so_instrument_id order)
          (so_side order) rem (ad_reservation a));;
        s ← run id;
        owned ← lift (ok_or (rs_ownership s !! so_order_id order) EngineError.OwnershipInvariant);
        update_run (fun s => set_ownership
          (<[so_order_id order := set_order_state OwnedOrderState.Canceled 0 owned]>
             (rs_ownership s)) s);;
        push (OrderCanceled (so_order_id order) (so_participant_id order) (so_instrument_id order)
                (Some key) rem reason)) (mkTxn s ps c) = (t', Ok u) -> txn_ok ∅ idle None t').
  { intros reason H. apply bind_Ok_inv in H as (t1 & [] & (l & Hl & ->)%on_run_ledger_Ok & H).
    rewrite bind_read in H. cbn [id tx_run] in H.
    apply bind_Ok_inv in H as (? & owned & [-> Ho%ok_or_Ok]%lift_Ok_inv & H).
    rewrite bind_update_run in H. unfold push, modify in H. injection H as <- _.
    cbn [tx_run tx_payloads tx_changed rs_ownership set_ledger] in *.
    eapply remainder_closed; [exact Hex | lia | done | done |].
    unfold instrument_of. simpl. rewrite <- Hin. exact Hl. }
  destruct (ot_limit (order_terms (so_kind order))) as [price|] eqn:Hlim; [| by eapply Hclose].
  destruct (immediate _); [by eapply Hclose |].
  apply bind_Ok_inv in Hrun as (t1 & [] & (ls & b & Hl & Hrest & ->)%on_book_Ok & Hrun).
  rewrite bind_update_run in Hrun. unfold push, modify in Hrun. injection Hrun as <- _.
  cbn [tx_run tx_payloads tx_changed] in *.
  assert (Hp : is_i64 price).
  { destruct (so_kind order); simpl in Hlim; try discriminate Hlim; injection Hlim as <-; done. }
  pose proof (remainder_rested _ _ _ s ps c c ls b price (ot_display (order_terms (so_kind order))) tt
    (OrderRested (so_order_id order) (so_participant_id order) (so_instrument_id order)
                (Some key) (so_side order) price rem) Hex Hpos Hp eq_refl Hl Hrest) as H.
  exact H.
Qed.

(** The price bounds [PriceBounds::new] guarantees. *)
Definition bounds_positive (s : RunState) : Prop :=
  map_Forall (fun _ d => 0 < pb_min (ld_price_bounds d) <= pb_max (ld_price_bounds d))
    (ls_definition <$> rs_listings s).

Lemma submit_identity_Ok s order p :
  submit_identity s order = Ok p ->
  rs_ownership s !! so_order_id order = None /\
  Z.of_nat (size (rs_ownership s) - length (rs_retired s)) < MAX_LIVE_ORDERS /\ 0 < so_quantity order.
Proof.
  unfold submit_identity. destruct (_ =? 0); [done |]. case_bool_decide as Hd; [done |].
  destruct (Z.leb_spec MAX_LIVE_ORDERS (Z.of_nat (size (rs_ownership s) - length (rs_retired s)))); [done |].
  destruct (Z.leb_spec (so_quantity order) 0); [done |]. intros _.
  split_and!; [by apply eq_None_not_Some | done | done].
Qed.

Lemma submit_admission_Ok s p ls order key now call a :
  submit_admission s p ls order key now = Ok (call, a) ->
  exists market, (market = None \/ market = Some (match so_side order with
      | Buy => pb_max (ld_price_bounds (ls_definition ls))
      | Sell => pb_min (ld_price_bounds (ls_definition ls)) end)) /\
    admit_order (pd_limits p) (pd_enabled p) order
      (mkListingTerms (ld_price_bounds (ls_definition ls)) (fee_bound (ld_fees (ls_definition ls)))
         (ld_tick_size (ls_definition ls))) (rs_ledger s) market = Ok a.
Proof.
  unfold submit_admission. intros H.
  repeat (apply result_bind_Ok in H as (? & ? & H)). injection H as _ <-.
  destruct (ot_limit (order_terms (so_kind order))); eexists; (split; [| eassumption]); [by left | by right].
Qed.

(** The stages an accepted order went through. *)
Record submitted (order : SubmitOrder) (key : ListingKey) (t t' : Txn) (call : bool) (a : Admission)
    (t1 t2 : Txn) (rem : Z) : Prop := {
  sb_open : submit_open order key a t = (t1, Ok tt);
  sb_execute : submit_execute order key call t1 = (t2, Ok rem);
  sb_remainder : submit_remainder order key a rem t2 = (t', Ok tt);
  sb_opened : txn_ok ∅ (left_due (so_order_id order) (so_quantity order)) (Some (so_order_id order)) t1;
  sb_listings : rs_listings (tx_run t1) = rs_listings (tx_run t);
  sb_executed : executed (so_order_id order) (accepted_order order key a) rem t2
}.

Lemma submit_stages order key now t t' :
  txn_ok ∅ idle None t -> bounds_positive (tx_run t) -> order_typed order ->
  so_instrument_id order = lk_instrument_id key ->
  submit order key now t = (t', Ok (Ok tt)) ->
  exists call a t1 t2 rem, submitted order key t t' call a t1 t2 rem.
Proof.
  intros Ht Hpb Hty Hin Hrun. unfold submit in Hrun. rewrite bind_read in Hrun. cbn [id] in Hrun.
  destruct (submit_identity _ _) as [p|] eqn:Hid; [| by ret_inv Hrun].
  apply submit_identity_Ok in Hid as (Hfr & Hcap & Hq).
  apply bind_Ok_inv in Hrun as (? & ls & [-> Hls%ok_or_Ok]%lift_Ok_inv & Hrun).
  destruct (submit_admission _ _ _ _ _ _) as [[call a]|] eqn:Hadm; [| by ret_inv Hrun].
  apply submit_admission_Ok in Hadm as (market & Hmk & Hadm).
  apply admit_Ok in Hadm as (tm & Hadm).
  assert (Hready : submit_ready order key a (tx_run t)).
  { pose proof Hty as [Hi _]. split; [done | by eexists | done | ranges; lia | done |].
    eapply admitted_reservation_nonneg; [apply (eo_claims _ _ _ _ (tk_run _ _ _ _ Ht)) | | exact Hadm].
    destruct (map_Forall_lookup_1 _ _ key (ls_definition ls) Hpb) as [Hb1 Hb2].
    { by rewrite lookup_fmap, Hls. }
    split; [done |]. intros price Hp. destruct Hmk as [->| ->]; [done |]. injection Hp as <-.
    destruct (so_side order); lia. }
  apply bind_Ok_inv in Hrun as (t1 & [] & Hopen & Hrun).
  apply bind_Ok_inv in Hrun as (t2 & rem & Hexec & Hrun).
  apply bind_Ok_inv in Hrun as (t3 & [] & Hrem & Hrun). ret_inv Hrun.
  exists call, a, t1, t2, rem. apply submit_open_ok in Hopen as Hop; [| done | done].
  destruct Hop as (Ht1 & Ho1 & Hl1).
  assert (Hlook : rs_ownership (tx_run t1) !! so_order_id order = Some (accepted_order order key a)).
  { by rewrite Ho1, lookup_insert_eq. }
  split; try done. by apply (submit_execute_ok _ _ _ _ _ _ (accepted_order order key a)) in Hexec.
Qed.

Lemma submit_ok order key now t t' r :
  txn_ok ∅ idle None t -> bounds_positive (tx_run t) -> order_typed order ->
  so_instrument_id order = lk_instrument_id key ->
  submit order key now t = (t', Ok r) -> txn_ok ∅ idle None t'.
Proof.
  intros Ht Hpb Hty Hin Hrun. destruct r as [[]|code].
  - destruct (submit_stages order key now t t' Ht Hpb Hty Hin Hrun) as (call & a & t1 & t2 & rem & [_ _ Hrem _ _ Hexec]).
    eapply submit_remainder_ok; [exact Hexec | done | done | | exact Hrem].
    destruct Hexec as [[HE _ _ _] (o' & Ho' & Hev & _) _].
    replace key with (oo_listing_key o') by (by rewrite Hev).
    by eapply (bs_listed _ _ _ (eo_books _ _ _ _ HE)).
  - unfold submit in Hrun. rewrite bind_read in Hrun. cbn [id] in Hrun.
    destruct (submit_identity _ _) as [p|]; [| by ret_inv Hrun].
    apply bind_Ok_inv in Hrun as (? & ls & [-> _]%lift_Ok_inv & Hrun).
    destruct (submit_admission _ _ _ _ _ _) as [[call a]|]; [| by ret_inv Hrun].
    apply bind_Ok_inv in Hrun as (t1 & [] & _ & Hrun). apply bind_Ok_inv in Hrun as (t2 & rem & _ & Hrun).
    apply bind_Ok_inv in Hrun as (t3 & [] & _ & Hrun). ret_inv Hrun.
Qed.
