(* ===== verification/EngineRun.v ===== *)
(** * bunting-engine: every transition keeps the run invariant

    Cancellation and its loops (expiry, DAY orders, kill switch, mass
    cancel), which never fail on a well-formed run; sessions and the clock;
    retirement of terminal orders when a transition commits. *)

From S2P Require Import Prelude Ordered MarketTypes MarketEvents Ledger LedgerFacts.
From S2P Require Import Risk Book BookFacts BookMatch Auction Uncross BookEffects.
From S2P Require Import Calendar Simulation Scenario Transition Engine EngineFrame.
From S2P Require Import EngineInvariant EngineFills EngineSubmit.

#[local] Notation Active := OwnedOrderState.Active.
#[local] Notation canceled := (set_order_state OwnedOrderState.Canceled 0).

(** ** Cancellation *)

(** A transaction at rest: nothing is in flight. *)
#[local] Notation settled := (txn_ok ∅ idle None).

Lemma settled_changed s ps c c' : settled (mkTxn s ps c) -> settled (mkTxn s ps c').
Proof. by intros [HE Hn Hx Hp]. Qed.

(** Canceling a live order never fails. *)
Lemma cancel_order_txn oid reason t o :
  settled t -> rs_ownership (tx_run t) !! oid = Some o -> oo_state o = Active ->
  exists t', cancel_order oid reason t = (t', Ok tt) /\ settled t' /\
    rs_ownership (tx_run t') = <[oid := canceled o]> (rs_ownership (tx_run t)) /\
    rs_expiries (tx_run t') =
      match oo_expires_at o with
      | Some at_ => rs_expiries (tx_run t) ∖ {[(at_, oid)]}
      | None => rs_expiries (tx_run t)
      end /\
    tx_payloads t' = tx_payloads t ++ [cancel_event oid o reason] /\
    rs_kill_switched (tx_run t') = rs_kill_switched (tx_run t).
Proof.
  intros [HE Hn Hx Hp] Ho Ha.
  destruct (cancel_order_run oid reason t _ _ _ o HE Ho Ha eq_refl) as (ls & b & l & Hrun & HE').
  eexists. split; [exact Hrun |]. cbn [tx_run tx_payloads tx_changed].
  pose proof (live_not_pending _ _ _ _ _ _ HE Ho Ha) as HnP.
  assert (He : ended_by (tx_payloads t ++ [cancel_event oid o reason]) = ended_by (tx_payloads t) ++ [oid])
    by apply ended_by_app.
  split_and!; try done.
  - split; cbn [tx_run tx_payloads]; rewrite ?He.
    + replace (list_to_set (ended_by (tx_payloads t) ++ [oid]) ∪ ∅ : gset Z)
        with ({[oid]} ∪ (list_to_set (ended_by (tx_payloads t)) ∪ ∅) : gset Z); [done |].
      rewrite list_to_set_app_L. set_solver.
    + apply NoDup_app. split_and!; [done | | apply NoDup_singleton]. set_solver.
    + set_solver.
    + unfold canceled_run. by destruct (oo_expires_at o).
  - unfold canceled_run. by destruct (oo_expires_at o).
  - unfold canceled_run. by destruct (oo_expires_at o).
Qed.

Lemma cancel_order_ok oid reason t t' u :
  settled t -> cancel_order oid reason t = (t', Ok u) -> settled t'.
Proof.
  intros Ht Hrun. assert (exists o, rs_ownership (tx_run t) !! oid = Some o /\ oo_state o = Active)
    as (o & Ho & Ha).
  { unfold cancel_order in Hrun. rewrite bind_read in Hrun. cbn [id] in Hrun.
    apply bind_Ok_inv in Hrun as (? & o & [-> Ho%ok_or_Ok]%lift_Ok_inv & _).
    apply bind_Some in Ho as (x & Hxo & Hx). unfold is_active in Hx. case_bool_decide; [| done].
    injection Hx as <-. eauto. }
  destruct (cancel_order_txn oid reason t o Ht Ho Ha) as (t1 & Hrun1 & Ht1 & _). congruence.
Qed.

(** A loop of cancellations of distinct live orders. *)
Section cancel_each.
Context {A : Type} (f : A -> Z) (reason : CancelReason.CancelReason) (g : A -> M Txn EngineError unit).
Context (Hg : forall x t, exists c, g x t = cancel_order (f x) reason (mkTxn (tx_run t) (tx_payloads t) c)).

Lemma cancel_each xs t :
  settled t -> NoDup (f <$> xs) ->
  (forall x, x ∈ xs -> exists o, rs_ownership (tx_run t) !! f x = Some o /\ oo_state o = Active) ->
  exists t', for_each g xs t = (t', Ok tt) /\ settled t' /\
    forall id, rs_ownership (tx_run t') !! id =
      (if bool_decide (id ∈ f <$> xs) then canceled <$> rs_ownership (tx_run t) !! id
       else rs_ownership (tx_run t) !! id) /\
      rs_kill_switched (tx_run t') = rs_kill_switched (tx_run t).
Proof using Hg.
  revert t. induction xs as [|x xs IH]; intros t Ht Hnd Hlive.
  - exists t. split_and!; [done | done |]. intros id. by rewrite bool_decide_false by apply not_elem_of_nil.
  - rewrite fmap_cons in Hnd. apply NoDup_cons in Hnd as [Hx Hnd].
    destruct (Hlive x) as (o & Ho & Ha); [left |]. destruct (Hg x t) as [c Hc].
    destruct (cancel_order_txn (f x) reason (mkTxn (tx_run t) (tx_payloads t) c) o) as
      (t1 & Hrun & Ht1 & Ho1 & _ & _ & Hk1); [by destruct t; eapply settled_changed | done | done |].
    destruct (IH t1) as (t' & Hrun' & Ht' & Ho'); [done | done | |].
    { intros y Hy. destruct (Hlive y) as (o' & Hyo & Hya); [by right |]. exists o'. split; [| done].
      rewrite Ho1, lookup_insert_ne; [done |]. intros Heq. apply Hx. rewrite Heq. by apply list_elem_of_fmap_2. }
    exists t'. split_and!; [| done |].
    + simpl. unfold mbind, M_bind. rewrite Hc, Hrun. exact Hrun'.
    + intros id. destruct (Ho' id) as [-> Hk]. split; [| by rewrite Hk]. rewrite Ho1, fmap_cons. cbn [tx_run].
      destruct (decide (f x = id)) as [<-|Hne].
      * rewrite lookup_insert_eq, bool_decide_false by done.
        rewrite bool_decide_true by left. by rewrite Ho.
      * rewrite lookup_insert_ne by done. erewrite bool_decide_ext; [reflexivity |].
        rewrite elem_of_cons. naive_solver.
Qed.
End cancel_each.

Lemma cancel_all_touch reason (x : Z * ListingKey) t :
  exists c, (fun '(order_id, listing_key) => touch listing_key;; cancel_order order_id reason) x t =
    cancel_order x.1 reason (mkTxn (tx_run t) (tx_payloads t) c).
Proof. destruct x as [oid k]. by eexists. Qed.

(** ** Expiry *)

Lemma set_first_Some {K} `{Countable K} `{!RustOrd K} (X : gset K) x :
  set_first X = Some x -> x ∈ X /\ forall y, y ∈ X -> ord_le x y.
Proof.
  unfold set_first, set_iter. pose proof (StronglySorted_merge_sort ord_le (elements X)) as Hs.
  pose proof (merge_sort_Permutation ord_le (elements X)) as Hp.
  destruct (merge_sort ord_le (elements X)) as [|y l]; [done |]. intros [= ->].
  assert (Hel : forall z, z ∈ X <-> z ∈ x :: l) by (intros z; by rewrite Hp, elem_of_elements).
  split; [apply Hel; left |]. intros y [->|Hy]%Hel%elem_of_cons; [apply ord_le_refl |].
  apply StronglySorted_inv in Hs as [_ Hs]. rewrite Forall_forall in Hs. by apply Hs.
Qed.
Lemma set_first_None {K} `{Countable K} `{!RustOrd K} (X : gset K) : set_first X = None -> X = ∅.
Proof.
  unfold set_first, set_iter. pose proof (merge_sort_Permutation ord_le (elements X)) as Hp.
  destruct (merge_sort ord_le (elements X)); [| done]. intros _.
  apply leibniz_equiv, elements_empty_inv. symmetry. by apply Permutation_nil_l.
Qed.

(** The sweep of due expiries never fails and leaves none. *)
Lemma expire_loop_run now fuel t :
  settled t -> (size (rs_expiries (tx_run t)) < fuel)%nat ->
  exists t', expire_loop fuel now t = (t', Ok tt) /\ settled t' /\
    forall at_ id, (at_, id) ∈ rs_expiries (tx_run t') -> now < at_.
Proof.
  revert t. induction fuel as [|fuel IH]; intros t Ht Hf; [lia |]. simpl. rewrite bind_read. cbn [id].
  destruct (set_first (rs_expiries (tx_run t))) as [[a oid]|] eqn:Hfirst.
  2: { apply set_first_None in Hfirst. exists t. split_and!; [done | done |]. rewrite Hfirst. set_solver. }
  apply set_first_Some in Hfirst as [Hin Hmin]. destruct (Z.ltb_spec now a) as [Hlt|Hle].
  { exists t. split_and!; [done | done |]. intros at_ id [[Hl _]|[He _]]%Hmin; simpl in *; lia. }
  destruct (eo_expiry _ _ _ _ (tk_run _ _ _ _ Ht) a oid) as [Hexp _].
  destruct (Hexp Hin) as (_ & o & Ho & Ha & He).
  rewrite (bind_lift _ _ _ o) by (by rewrite Ho). rewrite bind_touch.
  destruct (cancel_order_txn oid CancelReason.Expired
    (mkTxn (tx_run t) (tx_payloads t) ({[oo_listing_key o]} ∪ tx_changed t)) o)
    as (t1 & Hrun & Ht1 & _ & Hx1 & _); [by destruct t; eapply settled_changed | done | done |].
  rewrite He in Hx1. cbn [tx_run] in Hx1.
  unfold mbind at 1, M_bind at 1. rewrite Hrun. apply IH; [done |].
  rewrite Hx1, size_difference by set_solver. rewrite size_singleton.
  assert (0 < size (rs_expiries (tx_run t)))%nat; [| lia].
  apply Nat.neq_0_lt_0. intros Hz%size_empty_inv. set_solver.
Qed.

Lemma expire_due_run now t :
  settled t -> exists t', expire_due now t = (t', Ok tt) /\ settled t' /\
    forall at_ id, (at_, id) ∈ rs_expiries (tx_run t') -> now < at_.
Proof. intros Ht. unfold expire_due. rewrite bind_read. apply expire_loop_run; [done | simpl; lia]. Qed.

Lemma expire_due_ok now t t' u : settled t -> expire_due now t = (t', Ok u) -> settled t'.
Proof. intros Ht Hrun. destruct (expire_due_run now t Ht) as (t1 & Hrun1 & ? & _). congruence. Qed.

(** ** Selected orders *)

Lemma NoDup_values_id (O : gmap Z OwnedOrder) (P : OwnedOrder -> Prop) `{forall o, Decision (P o)} :
  orders_ok O -> NoDup (oo_order_id <$> filter P (values O)).
Proof.
  intros HO. assert (Hids : oo_order_id <$> values O = keys O).
  { unfold values, keys. rewrite <- list_fmap_compose. apply list_fmap_ext. intros i [k o] Hi.
    apply list_elem_of_lookup_2, elem_of_entries in Hi. by apply (ow_id _ _ (HO _ _ Hi)). }
  eapply sublist_NoDup; [apply (NoDup_keys O) |]. rewrite <- Hids.
  apply fmap_sublist, sublist_filter.
Qed.

Lemma selected_live (O : gmap Z OwnedOrder) (P : OwnedOrder -> Prop) `{forall o, Decision (P o)} o :
  orders_ok O -> o ∈ filter P (values O) -> O !! oo_order_id o = Some o /\ P o.
Proof.
  intros HO [HP (k & Hk)%elem_of_values]%list_elem_of_filter. split; [| done].
  by rewrite (ow_id _ _ (HO _ _ Hk)).
Qed.

(** The orders the kill switch selects. *)
Lemma participant_orders_spec s p id k :
  (id, k) ∈ participant_orders s p <->
  exists o, rs_ownership s !! id = Some o /\ oo_listing_key o = k /\ oo_participant_id o = p /\ oo_state o = Active.
Proof.
  unfold participant_orders. rewrite list_elem_of_fmap. split.
  - intros ([i o] & [= -> ->] & [[Hp Ha] Ho%elem_of_entries]%list_elem_of_filter). eauto.
  - intros (o & Ho & <- & Hp & Ha). exists (id, o). split; [done |].
    apply list_elem_of_filter. split; [done |]. by apply elem_of_entries.
Qed.
Lemma NoDup_participant_orders s p : NoDup (fst <$> participant_orders s p).
Proof.
  unfold participant_orders. rewrite <- list_fmap_compose.
  eapply sublist_NoDup; [apply (NoDup_keys (rs_ownership s)) |]. unfold keys.
  erewrite list_fmap_ext; [apply fmap_sublist, sublist_filter |]. by intros i [k o] _.
Qed.

(** The kill switch always completes and leaves no live order of the
    participant. *)
Lemma activate_kill_switch_run p t :
  settled t -> exists t', activate_kill_switch p t = (t', Ok tt) /\ settled t' /\
    p ∈ rs_kill_switched (tx_run t') /\
    forall id o, rs_ownership (tx_run t') !! id = Some o -> oo_participant_id o = p -> oo_state o <> Active.
Proof.
  intros Ht. unfold activate_kill_switch. rewrite bind_update_run, bind_push, bind_read.
  set (t1 := mkTxn _ _ _).
  assert (Ht1 : settled t1).
  { apply (txn_ok_push _ _ _ _ _ ∅); [done |]. destruct Ht as [HE Hn Hx Hp]. by split; [destruct HE; split | | |]. }
  destruct (cancel_each fst CancelReason.KillSwitch _ (cancel_all_touch CancelReason.KillSwitch)
    (participant_orders (tx_run t1) p) t1 Ht1 (NoDup_participant_orders _ _)) as (t' & Hrun & Ht' & Ho').
  { intros [id k] (o & Ho & _ & _ & Ha)%participant_orders_spec. eauto. }
  exists t'. split_and!; [exact Hrun | done | |].
  - destruct (Ho' 0) as [_ ->]. subst t1. simpl. set_solver.
  - intros id o Ho Hp Ha. rewrite (proj1 (Ho' id)) in Ho. case_bool_decide as Hin.
    + apply fmap_Some in Ho as (o0 & _ & ->). done.
    + apply Hin, list_elem_of_fmap. exists (id, oo_listing_key o). split; [done |].
      apply participant_orders_spec. eauto.
Qed.

Lemma mass_cancel_run p i reason t :
  settled t -> exists t', cancel_all reason (mass_cancel_orders (tx_run t) p i) t = (t', Ok tt) /\ settled t' /\
    forall id o, rs_ownership (tx_run t') !! id = Some o -> selected p (oo_participant_id o) ->
      selected i (instrument_of o) -> oo_state o <> Active.
Proof.
  intros Ht. pose proof (eo_orders _ _ _ _ (tk_run _ _ _ _ Ht)) as HO.
  set (P := fun o => oo_state o = Active /\ selected p (oo_participant_id o) /\
    selected i (lk_instrument_id (oo_listing_key o))).
  set (xs := filter P (values (rs_ownership (tx_run t)))).
  assert (Hxs : fst <$> mass_cancel_orders (tx_run t) p i = oo_order_id <$> xs).
  { unfold mass_cancel_orders. by rewrite <- list_fmap_compose. }
  destruct (cancel_each fst reason _ (cancel_all_touch reason) (mass_cancel_orders (tx_run t) p i) t Ht)
    as (t' & Hrun & Ht' & Ho').
  - rewrite Hxs. by apply NoDup_values_id.
  - intros [id k] Hin. apply list_elem_of_fmap in Hin as (o & [= -> ->] & Hin).
    apply (selected_live _ P) in Hin as [Ho [Ha _]]; [| done]. simpl. eauto.
  - exists t'. split_and!; [exact Hrun | done |]. intros id o Ho Hp Hi Ha. rewrite (proj1 (Ho' id)), Hxs in Ho.
    case_bool_decide as Hin; [by apply fmap_Some in Ho as (o0 & _ & ->) |].
    apply Hin. rewrite <- (ow_id _ _ (HO _ _ Ho)). apply list_elem_of_fmap_2, list_elem_of_filter.
    split; [done |]. apply elem_of_values. eauto.
Qed.

(** ** Sessions and the clock *)

Lemma settled_run s s' ps c c' :
  parts s' = parts s -> prices_ok s' -> settled (mkTxn s ps c) -> settled (mkTxn s' ps c').
Proof. intros Hs Hp [HE Hn Hx _]. split; try done. by eapply parts_engine_ok. Qed.

Lemma claims_ok_kept l l' O : ledger_kept l l' -> claims_ok l O -> claims_ok l' O.
Proof.
  intros [[Ht Hh] Hl] [Hok Hterms Hheld]. split; [auto | by rewrite Ht |].
  intros p k. by rewrite Hh, Ht.
Qed.

Lemma settled_ledger s l ps c :
  ledger_kept (rs_ledger s) l -> settled (mkTxn s ps c) -> settled (mkTxn (set_ledger l s) ps c).
Proof.
  intros Hk [[HO HB HC HX HL] Hn Hx Hp]. split; try done. split; try done. by eapply claims_ok_kept.
Qed.

Lemma close_listings_ok ks s s' cs :
  ledger_ok (rs_ledger s) -> prices_ok s -> close_listings ks s = (s', cs) ->
  parts s' = parts s /\ prices_ok s'.
Proof.
  revert s cs. induction ks as [|k ks IH]; intros s cs Hl Hp Hrun; simpl in Hrun; [by injection Hrun as <- _ |].
  destruct (close_listing s k) as [s1 c1] eqn:H1. destruct (close_listings ks s1) as [s2 c2] eqn:H2.
  injection Hrun as <- _. assert (parts s1 = parts s /\ prices_ok s1) as [Hs1 Hp1].
  { unfold close_listing in H1. destruct Hp as [Hd Hc].
    assert (Hdel : map_Forall (fun _ p => is_i64 p) (delete k (rs_day_trades s))).
    { intros i p [_ Hi]%lookup_delete_Some. by eapply Hd. }
    destruct (match rs_day_trades s !! k with Some _ => _ | None => _ end) as [price|] eqn:Hpr in H1;
      injection H1 as <- _; (split; [done |]); (split; [done |]); [| done].
    apply map_Forall_insert_2; [| done]. destruct (rs_day_trades s !! k) eqn:Hk1.
    - injection Hpr as <-. by eapply Hd.
    - destruct (rs_closes s !! k) eqn:Hk2; [injection Hpr as <-; by eapply Hc |].
      unfold mark in Hpr. by apply (lo_marks _ Hl) in Hpr as []. }
  destruct (IH s1 c2) as [Hs2 Hp2]; [by injection Hs1 as _ -> _ _ _ _ | done | done |].
  split; [congruence | done].
Qed.

Lemma settle_marks_ok is_ t t' ms : settled t -> settle_marks is_ t = (t', Ok ms) -> settled t'.
Proof.
  revert t ms. induction is_ as [|i is_ IH]; intros t ms Ht Hrun; simpl in Hrun.
  { by ret_inv Hrun. }
  rewrite bind_read in Hrun. cbn [id] in Hrun.
  destruct (primary_listing _ _ ≫= _) as [price|] eqn:Hpr in Hrun; [| by eapply IH].
  apply bind_Ok_inv in Hrun as (t1 & [] & (l & Hl & ->)%on_run_ledger_Ok & Hrun).
  apply bind_Ok_inv in Hrun as (t2 & ms' & Hrun & Hret). ret_inv Hret.
  eapply IH; [| exact Hrun]. apply settled_ledger; [| by destruct t].
  apply bind_Some in Hpr as (k & _ & Hk). pose proof (tk_prices _ _ _ _ Ht) as [_ Hc].
  pose proof (keeps_set_mark i price (Hc _ _ Hk) (rs_ledger (tx_run t))) as Hkept. by rewrite Hl in Hkept.
Qed.

Lemma day_orders_live s venue oid :
  orders_ok (rs_ownership s) -> oid ∈ day_orders s venue ->
  exists o, rs_ownership s !! oid = Some o /\ oo_state o = Active.
Proof.
  intros HO (o & -> & Ho)%list_elem_of_fmap.
  apply (selected_live _ (fun o => oo_day o = true /\ oo_state o = Active /\
    lk_venue_id (oo_listing_key o) = venue)) in Ho as [Ho (_ & Ha & _)]; eauto.
Qed.

Lemma settled_push p t t' u : terminal_of p = None -> settled t -> push p t = (t', Ok u) -> settled t'.
Proof.
  intros Hp Ht Hrun. unfold push, modify in Hrun. injection Hrun as <- _.
  apply (txn_ok_push _ _ _ _ _ (tx_changed t)); [done |]. by destruct t.
Qed.

Lemma cross_session_ok venue b t t' u :
  settled t -> cross_session venue b t = (t', Ok u) -> settled t'.
Proof.
  intros Ht Hrun. unfold cross_session in Hrun.
  apply bind_Ok_inv in Hrun as (t1 & [] & H1 & Hrun).
  assert (Ht1 : settled t1).
  { destruct (_ || _); [| by ret_inv H1].
    rewrite bind_read in H1. eapply (for_each_inv settled); [| exact Ht | exact H1].
    intros k x x' v _ Hx Hk. cbv beta in Hk. rewrite bind_touch in Hk. eapply run_auction_ok; [| exact Hk].
    destruct x. by eapply settled_changed. }
  apply bind_Ok_inv in Hrun as (t2 & [] & H2 & Hrun).
  assert (Ht2 : settled t2).
  { destruct (bool_decide (bd_phase b = SessionPhase.Closed)); [| by ret_inv H2].
    rewrite bind_read in H2. eapply (for_each_inv settled); [| exact Ht1 | exact H2].
    intros oid x x' v _. apply cancel_order_ok. }
  apply bind_Ok_inv in Hrun as (t3 & [] & H3 & Hrun). apply settled_push in H3 as Ht3; [| done | done].
  destruct (bool_decide (bd_phase b = SessionPhase.Closed)); [| by ret_inv Hrun].
  rewrite bind_read in Hrun. cbn [id] in Hrun.
  destruct (close_day venue (tx_run t3)) as [s closes] eqn:Hclose. rewrite bind_update_run in Hrun.
  apply bind_Ok_inv in Hrun as (t4 & [] & H4 & Hrun). apply settled_push in H4 as Ht4; [| done |].
  2: { apply close_listings_ok in Hclose as [Hs Hp]; [| apply Ht3 | apply Ht3].
       apply (settled_run (tx_run t3) _ _ (tx_changed t3)); [exact Hs | done | by destruct t3]. }
  case_match; [| by ret_inv Hrun].
  apply bind_Ok_inv in Hrun as (t5 & ev & H5 & Hrun). unfold settle_day in H5. rewrite bind_read in H5.
  apply bind_Ok_inv in H5 as (t6 & ms & H6%settle_marks_ok & H5); [| done]. rewrite bind_read in H5.
  apply bind_Ok_inv in H5 as (? & sc & [-> _]%lift_Ok_inv & H5). ret_inv H5. by eapply settled_push; [| | exact Hrun].
Qed.

Lemma cross_boundary_ok venue step b t t' u :
  settled t -> cross_boundary venue step b t = (t', Ok u) -> settled t'.
Proof.
  intros Ht Hrun. unfold cross_boundary in Hrun.
  apply bind_Ok_inv in Hrun as (? & step' & [-> _]%lift_Ok_inv & Hrun). rewrite bind_update_run in Hrun.
  eapply cross_session_ok; [| exact Hrun].
  apply (settled_run (tx_run t) _ _ (tx_changed t)); [done | exact (tk_prices _ _ _ _ Ht) | by destruct t].
Qed.

Lemma cross_due_ok fuel to t t' u : settled t -> cross_due fuel to t = (t', Ok u) -> settled t'.
Proof.
  revert t. induction fuel as [|fuel IH]; intros t Ht Hrun; simpl in Hrun.
  { by ret_inv Hrun. }
  rewrite bind_read in Hrun. cbn [id] in Hrun.
  destruct (next_boundary _) as [[[venue step] b]|]; [| by ret_inv Hrun].
  destruct (_ <=? _); [| by ret_inv Hrun].
  apply bind_Ok_inv in Hrun as (t1 & [] & H1%expire_due_ok & Hrun); [| done].
  apply bind_Ok_inv in Hrun as (t2 & [] & H2%cross_boundary_ok & Hrun); [| done]. eauto.
Qed.

(** The simulation's own operations. *)
Lemma on_world_ok {A} (m : SimulationContext -> M SimWorld SimulationError A) t t' a :
  (forall cx, keeps world_kept (m cx)) -> settled t -> on_world m t = (t', Ok a) -> settled t'.
Proof.
  intros Hm Ht Hrun. unfold on_world in Hrun. rewrite bind_read in Hrun. cbn [id] in Hrun.
  specialize (Hm (run_context (tx_run t)) (mkSimWorld (rs_simulation (tx_run t)) (rs_ledger (tx_run t)))).
  destruct (m _ _) as [w r]. rewrite bind_update_run in Hrun. apply lift_Ok_inv in Hrun as [-> _].
  apply (settled_run (set_ledger (sw_ledger w) (tx_run t)) _ _ (tx_changed t)); [done | exact (tk_prices _ _ _ _ Ht) |].
  apply settled_ledger; [apply Hm | by destruct t].
Qed.

Lemma settled_events evs t t' u :
  settled t -> for_each (fun e => push (Simulation e)) evs t = (t', Ok u) -> settled t'.
Proof. intros Ht. apply (for_each_inv settled); [| done]. intros e x x' v _. by apply settled_push. Qed.

Lemma catch_up_ok to sweep t t' u : settled t -> catch_up to sweep t = (t', Ok u) -> settled t'.
Proof.
  intros Ht Hrun. unfold catch_up in Hrun.
  apply bind_Ok_inv in Hrun as (t1 & evs & H1%on_world_ok & Hrun); [| intros _; apply kept_catch_up | done].
  apply bind_Ok_inv in Hrun as (t2 & [] & H2%settled_events & Hrun); [| done].
  rewrite bind_read in Hrun.
  apply bind_Ok_inv in Hrun as (t3 & [] & H3%cross_due_ok & Hrun); [| done].
  by eapply expire_due_ok.
Qed.

(** * bunting-engine: the clock of a run

    [catch_up] applies the due scheduled actions, crosses every due session
    boundary and expires every due order.  The boundary loop ends because
    each iteration advances one venue by one of its finitely many
    boundaries. *)


(** ** Session steps *)

Definition steps_ok (s : RunState) : Prop := map_Forall (fun _ n => 0 <= n) (rs_session_steps s).

Lemma boundary_bound c venue step b :
  boundary c venue step = Some b -> step < BOUNDARIES_PER_DAY * cal_days c.
Proof.
  unfold boundary, trading_day. intros H. apply bind_Some in H as (s & _ & H).
  apply bind_Some in H as (day & Hd & _).
  apply bind_Some in Hd as (index & Hi & Hd). apply checked_Some in Hi as [-> _]. apply lookup_lt_Some in Hd.
  assert (Hlen : (length (trading_days c) <= Z.to_nat (cal_days c))%nat).
  { unfold trading_days. etrans; [apply length_filter |]. by rewrite length_seqZ. }
  assert (Hdiv : step / BOUNDARIES_PER_DAY < cal_days c) by lia.
  pose proof (Z.mul_div_le step BOUNDARIES_PER_DAY ltac:(done)).
  pose proof (Z.mod_pos_bound step BOUNDARIES_PER_DAY ltac:(done)) as Hm.
  rewrite Z.mod_eq in Hm by done. nia.
Qed.

Lemma next_boundary_Some s venue step b :
  next_boundary s = Some (venue, step, b) ->
  exists c, rs_calendar s = Some c /\ rs_session_steps s !! venue = Some step /\
    boundary c venue step = Some b.
Proof.
  unfold next_boundary. intros H. apply bind_Some in H as (c & Hc & H). exists c. split; [done |].
  apply head_Some in H as (l & H).
  assert (Hin : (venue, step, b) ∈ merge_sort boundary_le (pending_boundaries c (rs_session_steps s)))
    by (rewrite H; left).
  rewrite merge_sort_Permutation in Hin. unfold pending_boundaries in Hin.
  apply list_elem_of_omap in Hin as ([v n] & Hin%elem_of_entries & Hb).
  apply fmap_Some in Hb as (b' & Hb & [= -> -> ->]). done.
Qed.

(** Boundaries a venue table has left. *)
Definition boundaries_left (c : Calendar) (steps : gmap Z Z) : Z :=
  map_sum (fun _ n => Z.max 0 (BOUNDARIES_PER_DAY * cal_days c - n)) steps.

Lemma boundaries_left_cross c (steps : gmap Z Z) venue step :
  steps !! venue = Some step -> step < BOUNDARIES_PER_DAY * cal_days c ->
  boundaries_left c (<[venue := step + 1]> steps) = boundaries_left c steps - 1.
Proof.
  intros Hs Hlt. unfold boundaries_left. rewrite map_sum_insert_any. unfold at_key. rewrite Hs. lia.
Qed.

Lemma boundaries_left_bound c (steps : gmap Z Z) :
  map_Forall (fun _ n => 0 <= n) steps ->
  boundaries_left c steps <= Z.of_nat (size steps * boundaries_of c).
Proof.
  unfold boundaries_left, boundaries_of.
  induction steps as [|v n steps Hv IH] using map_ind; intros Hall.
  - rewrite map_sum_empty. lia.
  - apply map_Forall_insert in Hall as [Hn Hall]; [| done].
    rewrite map_sum_insert, map_size_insert_None by done. specialize (IH Hall). lia.
Qed.

(** ** The boundary loop *)

Lemma cross_boundary_steps venue step b t t' u :
  cross_boundary venue step b t = (t', Ok u) ->
  rs_session_steps (tx_run t') = <[venue := step + 1]> (rs_session_steps (tx_run t)) /\
  same core_sim t t'.
Proof.
  intros Hrun. pose proof (keeps_cross_boundary venue step b t) as Hk. rewrite Hrun in Hk.
  split; [| exact Hk]. unfold cross_boundary in Hrun.
  apply bind_Ok_inv in Hrun as (? & n & [-> Hn%ok_or_Ok]%lift_Ok_inv & Hrun).
  apply checked_Some in Hn as [-> _]. rewrite bind_update_run in Hrun.
  match type of Hrun with cross_session _ _ ?t0 = _ => pose proof (keeps_cross_session venue b t0) as Hc end.
  rewrite Hrun in Hc. unfold same, core in Hc. simpl in Hc. congruence.
Qed.

Lemma expire_due_core now t t' u : expire_due now t = (t', Ok u) -> same core t t'.
Proof. intros Hrun. pose proof (keeps_expire_due now t) as Hk. by rewrite Hrun in Hk. Qed.

(** With the fuel of [catch_up] the loop ends with no boundary due. *)
Lemma cross_due_drained fuel to t t' u :
  steps_ok (tx_run t) ->
  (forall c, rs_calendar (tx_run t) = Some c ->
     boundaries_left c (rs_session_steps (tx_run t)) < Z.of_nat fuel) ->
  (0 < fuel)%nat -> cross_due fuel to t = (t', Ok u) ->
  steps_ok (tx_run t') /\
  forall venue step b, next_boundary (tx_run t') = Some (venue, step, b) -> to < bd_at b.
Proof.
  revert t. induction fuel as [|fuel IH]; intros t Hs Hm Hf Hrun; [lia |]. simpl in Hrun.
  rewrite bind_read in Hrun. cbn [id] in Hrun.
  destruct (next_boundary (tx_run t)) as [[[venue step] b]|] eqn:Hnext.
  2: { ret_inv Hrun. split; [done |]. intros v n b Hb. congruence. }
  destruct (Z.leb_spec (bd_at b) to) as [Hle|Hlt].
  2: { ret_inv Hrun. split; [done |]. intros v n b' Hb. rewrite Hnext in Hb. by injection Hb as <- <- <-. }
  apply next_boundary_Some in Hnext as (c & Hc & Hv & Hb). apply boundary_bound in Hb as Hbound.
  apply bind_Ok_inv in Hrun as (t1 & [] & H1%expire_due_core & Hrun).
  apply bind_Ok_inv in Hrun as (t2 & [] & [Hst2 H2]%cross_boundary_steps & Hrun).
  unfold same, core, core_sim, frame in H1, H2.
  assert (Hst1 : rs_session_steps (tx_run t1) = rs_session_steps (tx_run t)) by congruence.
  assert (Hc2 : rs_calendar (tx_run t2) = Some c) by congruence. rewrite Hst1 in Hst2.
  pose proof (Hm c Hc) as Hmc. pose proof (boundaries_left_cross c _ _ _ Hv Hbound) as Hcross.
  assert (Hnn : 0 <= boundaries_left c (<[venue := step + 1]> (rs_session_steps (tx_run t)))).
  { unfold boundaries_left. apply map_sum_nonneg. lia. }
  apply (IH t2); [| | lia | exact Hrun].
  - unfold steps_ok. rewrite Hst2. apply map_Forall_insert_2; [| done]. pose proof (Hs _ _ Hv). simpl in *. lia.
  - intros c' Hc'. rewrite Hc2 in Hc'. injection Hc' as <-. rewrite Hst2. lia.
Qed.

(** ** Catching up *)

Lemma drop_due_actions (l : list ScheduledAction) to :
  match drop (length (take_while (fun a => sa_effective_at a <=? to) l)) l with
  | a :: _ => to < sa_effective_at a
  | [] => True
  end.
Proof.
  induction l as [|a l IH]; [done |]. simpl. destruct (Z.leb_spec (sa_effective_at a) to); [exact IH | done].
Qed.

(** Scheduled actions do not schedule. *)
Definition same_schedule (w w' : SimWorld) : Prop :=
  sim_scheduled_actions (sw_sim w') = sim_scheduled_actions (sw_sim w).
#[export] Instance same_schedule_preorder : PreOrder same_schedule.
Proof. split; [done |]. intros w1 w2 w3. unfold same_schedule. congruence. Qed.

Lemma on_ledger_schedule {A} (m : M Ledger LedgerError A) : keeps same_schedule (on_ledger m).
Proof. intros w. unfold on_ledger. by destruct (m (sw_ledger w)). Qed.

Ltac scheduled :=
  repeat first
    [ apply keeps_bind; [apply same_schedule_preorder | | intros ?]
    | apply on_ledger_schedule
    | by intros w
    | progress case_match ].

Lemma apply_scheduled_schedule a : keeps same_schedule (apply_scheduled a).
Proof. unfold apply_scheduled. scheduled. Qed.
Lemma apply_due_schedule due : keeps same_schedule (apply_due due).
Proof.
  induction due as [|a due IH]; [by intros w |]. simpl.
  apply keeps_bind; [apply _ | apply apply_scheduled_schedule | intros _]. scheduled.
Qed.

Lemma sim_catch_up_drained to sweep w w' evs :
  sim_catch_up to sweep w = (w', Ok evs) -> has_due_actions (sw_sim w') to = false.
Proof.
  unfold sim_catch_up. intros Hrun.
  apply bind_Ok_inv in Hrun as (w0 & s & Hs & Hrun). unfold sim, gets in Hs. injection Hs as <- <-.
  apply bind_Ok_inv in Hrun as (w1 & [] & [-> _]%refuse_if_Ok_inv & Hrun).
  apply bind_Ok_inv in Hrun as (w2 & [] & Hu & Hrun). unfold update, on_sim, modify in Hu. injection Hu as <-.
  apply bind_Ok_inv in Hrun as (w3 & applied & Ha & Hrun).
  assert (Hdue : has_due_actions (sw_sim w3) to = false).
  { destruct (has_due_actions (sw_sim w) to) eqn:Hd; [| ret_inv Ha; exact Hd].
    apply bind_Ok_inv in Ha as (w4 & [] & Hu & Ha). unfold update, on_sim, modify in Hu. injection Hu as <-.
    pose proof (apply_due_schedule (take_while (fun a => sa_effective_at a <=? to)
      (sim_scheduled_actions (sw_sim w)))) as Hk.
    match type of Ha with apply_due _ ?w5 = _ => specialize (Hk w5) end. rewrite Ha in Hk.
    unfold same_schedule in Hk. simpl in Hk. unfold has_due_actions. rewrite Hk.
    pose proof (drop_due_actions (sim_scheduled_actions (sw_sim w)) to) as Hdrop.
    destruct (drop _ _); [done | by apply Z.leb_gt]. }
  destruct sweep; [| by ret_inv Hrun].
  apply bind_Ok_inv in Hrun as (w4 & s4 & Hs & Hrun). unfold sim, gets in Hs. injection Hs as <- <-.
  apply bind_Ok_inv in Hrun as (w5 & [] & Hu & Hrun). unfold update, on_sim, modify in Hu. injection Hu as <-.
  ret_inv Hrun. exact Hdue.
Qed.

Lemma on_world_Ok {A} (m : SimulationContext -> M SimWorld SimulationError A) t t' a :
  on_world m t = (t', Ok a) ->
  exists w, m (run_context (tx_run t)) (mkSimWorld (rs_simulation (tx_run t)) (rs_ledger (tx_run t))) = (w, Ok a) /\
    t' = mkTxn (set_simulation (sw_sim w) (set_ledger (sw_ledger w) (tx_run t))) (tx_payloads t) (tx_changed t).
Proof.
  unfold on_world. rewrite bind_read. cbn [id]. destruct (m _ _) as [w r] eqn:Hm. rewrite bind_update_run.
  intros [-> Hr%map_err_Ok]%lift_Ok_inv. subst r. eauto.
Qed.

Lemma push_events_run evs t :
  for_each (fun e => push (Simulation e)) evs t =
  (mkTxn (tx_run t) (tx_payloads t ++ (Simulation <$> evs)) (tx_changed t), Ok tt).
Proof.
  revert t. induction evs as [|e evs IH]; intros t; simpl; [by destruct t; rewrite app_nil_r |].
  rewrite bind_push, IH. simpl. by rewrite <- app_assoc.
Qed.

Lemma catch_up_drained to sweep t t' u :
  settled t -> steps_ok (tx_run t) -> catch_up to sweep t = (t', Ok u) ->
  steps_ok (tx_run t') /\ has_due_actions (rs_simulation (tx_run t')) to = false /\
  (forall venue step b, next_boundary (tx_run t') = Some (venue, step, b) -> to < bd_at b) /\
  (forall at_ id, (at_, id) ∈ rs_expiries (tx_run t') -> to < at_).
Proof.
  intros Ht Hs Hrun. unfold catch_up in Hrun.
  apply bind_Ok_inv in Hrun as (t1 & evs & H1 & Hrun).
  apply on_world_ok in H1 as Ht1; [| intros _; apply kept_catch_up | done].
  apply on_world_Ok in H1 as (w & Hw%sim_catch_up_drained & H1).
  apply bind_Ok_inv in Hrun as (t2 & [] & H2 & Hrun). apply settled_events in H2 as Ht2; [| done].
  rewrite push_events_run in H2. injection H2 as <-. rewrite bind_read in Hrun. cbn [tx_run] in Hrun.
  apply bind_Ok_inv in Hrun as (t3 & [] & H3 & Hrun). apply cross_due_ok in H3 as Ht3; [| done].
  match type of H3 with cross_due ?f _ ?t0 = _ => pose proof (keeps_cross_due f to t0) as Hk end.
  rewrite H3 in Hk. unfold same, core_sim, frame in Hk. simpl in Hk.
  apply cross_due_drained in H3 as [Hs3 Hb3].
  - destruct (expire_due_run to t3 Ht3) as (t4 & H4 & _ & Hexp). rewrite Hrun in H4. injection H4 as <- _.
    apply expire_due_core in Hrun as Hc. unfold same, core, frame in Hc.
    assert (rs_session_steps (tx_run t') = rs_session_steps (tx_run t3)) as Est by congruence.
    assert (rs_calendar (tx_run t') = rs_calendar (tx_run t3)) as Eca by congruence.
    assert (rs_simulation (tx_run t') = rs_simulation (tx_run t1)) as Esi by congruence.
    split_and!.
    + unfold steps_ok. by rewrite Est.
    + rewrite Esi, H1. exact Hw.
    + intros v n b. unfold next_boundary. rewrite Est, Eca. apply Hb3.
    + exact Hexp.
  - rewrite H1. exact Hs.
  - intros c Hc. cbn [tx_run] in *. unfold boundary_fuel. cbn [id]. rewrite Hc.
    pose proof (boundaries_left_bound c (rs_session_steps (tx_run t1))) as Hb. simpl.
    assert (steps_ok (tx_run t1)) as Hs1 by (rewrite H1; exact Hs). specialize (Hb Hs1). lia.
  - lia.
Qed.
