(* ===== verification/EngineRetire.v ===== *)
(** * bunting-engine: committing a transition

    [finish] retires every order that ended and drops the oldest retired
    identity when the window is full.  A committed transition leaves a run
    with nothing in flight and nothing left to retire. *)

From S2P Require Import Prelude Ordered MarketTypes MarketEvents Ledger LedgerFacts.
From S2P Require Import Risk Book BookFacts BookEffects Auction Calendar Simulation Scenario.
From S2P Require Import Transition Engine EngineFrame EngineInvariant.
From S2P Require Import EngineFills EngineSubmit EngineRun.

#[local] Notation Active := OwnedOrderState.Active.
#[local] Notation settled := (txn_ok ∅ idle None).

(** ** Forgetting a retired order *)

Section forget.
Context (O : gmap Z OwnedOrder) (id : Z) (o : OwnedOrder) (Ho : O !! id = Some o) (Hs : oo_state o <> Active).
Context (HO : orders_ok O).

Lemma forgotten_zero : oo_remaining_quantity o = 0.
Proof using Ho Hs HO. destruct (HO _ _ Ho) as [_ Hr Ha _]. destruct (decide (0 < oo_remaining_quantity o)); [tauto | lia]. Qed.

Lemma forget_books L : books_ok idle L O -> books_ok idle L (delete id O).
Proof using Ho Hs HO.
  intros HB. apply (books_ok_transfer idle _ _ O _ HB); try done.
  - intros k sd i. unfold expected. destruct (decide (i = id)) as [->|Hne].
    + rewrite lookup_delete_eq, Ho, forgotten_zero. unfold idle. by case_bool_decide.
    + by rewrite lookup_delete_ne.
  - intros i x [_ Hx]%lookup_delete_Some. eauto.
Qed.

Lemma forget_claims l : claims_ok l O -> claims_ok l (delete id O).
Proof using Ho Hs HO.
  intros [Hl Ht Hh]. split; [done | |].
  - intros i x [_ Hx]%lookup_delete_Some. by eapply Ht.
  - intros p k. rewrite Hh. unfold owed. rewrite (map_sum_delete_at _ O id). unfold at_key. rewrite Ho.
    assert (order_claim (lg_terms l) o k = 0) as ->.
    { unfold order_claim. rewrite forgotten_zero. destruct (lg_terms l !! instrument_of o); [apply Z.mul_0_r | done]. }
    destruct (_ =? _); lia.
Qed.

Lemma forget_expiry fresh X : expiry_ok fresh O X -> expiry_ok fresh (delete id O) X.
Proof using Ho Hs.
  clear HO. intros HX at_ i. rewrite (HX at_ i). apply and_iff_compat_l. destruct (decide (i = id)) as [->|Hne].
  - rewrite lookup_delete_eq, Ho. split; [by intros (x & [= <-] & Ha & _) | by intros (x & ? & _)].
  - by rewrite lookup_delete_ne.
Qed.

Lemma forget_live P R V : live_ok P O (id :: R) V -> live_ok P (delete id O) R V.
Proof using Ho Hs.
  clear HO. intros [Hc Hn Hr Hp Hw Hcap]. apply NoDup_cons in Hn as [HnR Hn].
  assert (HnP : id ∉ P) by (by destruct (proj1 (Hr id)); [left |]).
  assert (Hlook : forall i, (exists x, delete id O !! i = Some x /\ oo_state x <> Active) <->
    i <> id /\ exists x, O !! i = Some x /\ oo_state x <> Active).
  { intros i. destruct (decide (i = id)) as [->|Hne].
    - rewrite lookup_delete_eq. split; [by intros (x & ? & _) | by intros []].
    - rewrite lookup_delete_ne by done. tauto. }
  split; try done.
  - intros p. rewrite Hc. unfold live_count. rewrite (map_sum_delete_at _ O id). unfold at_key. rewrite Ho.
    rewrite (bool_decide_false (oo_participant_id o = p /\ _)) by tauto. by rewrite Z.sub_0_r.
  - intros i. rewrite Hlook. specialize (Hr i). rewrite elem_of_cons in Hr.
    split; [intros Hi | intros (? & Hne & ?)].
    + destruct Hr as [Hr _]. destruct Hr as [? ?]; [by right |]. split_and!; try done. intros ->. done.
    + destruct Hr as [_ Hr]. destruct Hr as [->|]; done.
  - intros i Hi. apply Hlook. split; [by intros -> | by apply Hp].
  - simpl in Hw. lia.
  - unfold active_count in *. rewrite (map_sum_delete_at _ O id). unfold at_key. rewrite Ho.
    unfold is_active at 2. rewrite bool_decide_false by done. lia.
Qed.
End forget.

(** ** Releasing the slot of an ended order *)

Lemma live_count_pending P O id o p :
  O !! id = Some o -> oo_state o <> Active -> id ∉ P ->
  live_count ({[id]} ∪ P) O p = live_count P O p + (if oo_participant_id o =? p then 1 else 0).
Proof.
  intros Ho Hs HnP. unfold live_count. rewrite <- (insert_delete_id O id o Ho).
  rewrite !map_sum_insert by apply lookup_delete_eq.
  rewrite (map_sum_ext _ (fun i x => if bool_decide (oo_participant_id x = p /\
    (oo_state x = Active \/ i ∈ P)) then 1 else 0)).
  - destruct (Z.eqb_spec (oo_participant_id o) p); repeat case_bool_decide; try lia; set_solver.
  - intros i x [Hne _]%lookup_delete_Some. erewrite bool_decide_ext; [reflexivity |]. set_solver.
Qed.

(** The live counts [release_slot] leaves. *)
Definition released (p : Z) (V : gmap Z Z) : gmap Z Z :=
  match V !! p with
  | None => V
  | Some count => let count := Z.max (count - 1) 0 in
                  if count =? 0 then delete p V else <[p := count]> V
  end.

Lemma release_live P O R V id o :
  O !! id = Some o -> id ∉ P -> (length R < MAX_RETIRED_ORDERS)%nat ->
  live_ok ({[id]} ∪ P) O R V -> live_ok P O (R ++ [id]) (released (oo_participant_id o) V).
Proof.
  intros Ho HnP Hw [Hc Hn Hr Hp _ Hcap]. destruct (Hp id) as (x & Hx & Hs); [set_solver |].
  rewrite Ho in Hx. injection Hx as <-. split; try done.
  - intros p. pose proof (live_count_pending P O id o p Ho Hs HnP) as Hcp.
    pose proof (live_count_nonneg P O p) as Hnn. unfold released. rewrite Hc.
    pose proof (live_count_pending P O id o (oo_participant_id o) Ho Hs HnP) as Hco.
    pose proof (live_count_nonneg P O (oo_participant_id o)) as Hno. rewrite Z.eqb_refl in Hco.
    rewrite (proj2 (Z.eqb_neq (live_count ({[id]} ∪ P) O (oo_participant_id o)) 0)) by lia.
    cbv zeta. rewrite Z.max_l by lia. rewrite Hco, Z.add_simpl_r.
    destruct (decide (oo_participant_id o = p)) as [<-|Hne].
    + destruct (Z.eqb_spec (live_count P O (oo_participant_id o)) 0);
        [apply lookup_delete_eq | apply lookup_insert_eq].
    + specialize (Hc p). rewrite (proj2 (Z.eqb_neq _ _) Hne) in Hcp. rewrite Hcp, Z.add_0_r in Hc.
      destruct (Z.eqb_spec (live_count P O (oo_participant_id o)) 0);
        rewrite ?lookup_delete_ne, ?lookup_insert_ne by done; done.
  - apply NoDup_app. split_and!; [done | | apply NoDup_singleton].
    intros i Hi%Hr ->%list_elem_of_singleton. set_solver.
  - intros i. rewrite elem_of_app, list_elem_of_singleton, Hr. split.
    + intros [[Hi ?]| ->]; [split; [set_solver | done] |]. eauto.
    + intros [Hi ?]. destruct (decide (i = id)) as [->|]; [by right | left]. split; [set_solver | done].
  - intros i Hi. apply Hp. set_solver.
  - rewrite length_app. simpl. lia.
Qed.

(** ** Retirement *)

Lemma max_retired_pos : (0 < MAX_RETIRED_ORDERS)%nat.
Proof. unfold MAX_RETIRED_ORDERS. lia. Qed.

Lemma release_slot_fields id o s :
  rs_ownership s !! id = Some o ->
  parts (release_slot id s) = (rs_listings s, rs_ledger s, rs_ownership s, rs_expiries s, rs_retired s,
    released (oo_participant_id o) (rs_live_orders s)) /\
  prices_ok (release_slot id s) = prices_ok s.
Proof.
  intros Ho. unfold release_slot, released. rewrite Ho. cbv zeta. by destruct (rs_live_orders s !! _).
Qed.

Lemma drop_excess {A} (l : list A) (x : A) n :
  (0 < n)%nat -> (length l <= n)%nat ->
  (length l < n)%nat /\ take (length (l ++ [x]) - n) (l ++ [x]) = [] /\
    drop (length (l ++ [x]) - n) (l ++ [x]) = l ++ [x] \/
  exists y r, l = y :: r /\ (length r < n)%nat /\ take (length (l ++ [x]) - n) (l ++ [x]) = [y] /\
    drop (length (l ++ [x]) - n) (l ++ [x]) = r ++ [x].
Proof.
  intros Hn Hl. rewrite length_app. simpl. destruct (decide (length l = n)) as [He|Hne].
  - right. destruct l as [|y r]; simpl in *; [lia |]. exists y, r.
    replace (S (length r + 1) - n)%nat with 1%nat by lia. split_and!; [done | lia | done | done].
  - left. replace (length l + 1 - n)%nat with 0%nat by lia. split_and!; [lia | done | done].
Qed.

(** Retiring an ended order: its slot is free and it enters the window. *)
Lemma retire_ok P id s :
  engine_ok ({[id]} ∪ P) idle None s -> id ∉ P -> engine_ok P idle None (retire id s).
Proof.
  intros [HO HB HC HX HL] HnP.
  destruct (lv_pending _ _ _ _ HL id) as (o & Ho & Hs); [set_solver |].
  destruct (release_slot_fields id o s Ho) as [Hf _]. unfold parts in Hf. injection Hf as F1 F2 F3 F4 F5 F6.
  assert (Hnr : id ∉ rs_retired s). { intros Hin%(lv_retired _ _ _ _ HL). set_solver. }
  unfold retire.
  destruct (drop_excess (rs_retired s) id MAX_RETIRED_ORDERS max_retired_pos (lv_window _ _ _ _ HL))
    as [(Hlen & Ht & Hd)|(y & r & Hr & Hlen & Ht & Hd)].
  - split; simpl; rewrite ?F1, ?F2, ?F3, ?F4, ?F5, ?F6, ?Ht, ?Hd; simpl; try done.
    by apply release_live.
  - assert (Hy : y <> id) by (intros ->; apply Hnr; rewrite Hr; left).
    assert (Hyo : exists oy, rs_ownership s !! y = Some oy /\ oo_state oy <> Active).
    { apply (lv_retired _ _ _ _ HL y). rewrite Hr. left. }
    destruct Hyo as (oy & Hyo & Hys). rewrite Hr in HL.
    split; simpl; rewrite ?F1, ?F2, ?F3, ?F4, ?F5, ?F6, ?Ht, ?Hd; simpl.
    + by apply map_Forall_delete.
    + by eapply forget_books.
    + by eapply forget_claims.
    + by eapply forget_expiry.
    + apply release_live; [by rewrite lookup_delete_ne | done | done |]. by eapply forget_live.
Qed.

Lemma retire_prices id s : prices_ok s -> prices_ok (retire id s).
Proof. unfold retire, prices_ok, release_slot. simpl. by repeat case_match. Qed.

(** ** Committing *)

(** The invariant of a run between transitions. *)
Record run_ok (s : RunState) : Prop := {
  ro_engine : engine_ok ∅ idle None s;
  ro_prices : prices_ok s;
  ro_bounds : bounds_positive s
}.

Lemma finish_payloads_ok now ps s s' u :
  engine_ok (list_to_set (ended_by ps)) idle None s -> NoDup (ended_by ps) -> prices_ok s ->
  for_each (finish_payload now) ps s = (s', Ok u) -> engine_ok ∅ idle None s' /\ prices_ok s'.
Proof.
  revert s. induction ps as [|p ps IH]; intros s HE Hn Hp Hrun; simpl in Hrun; [by ret_inv Hrun |].
  apply bind_Ok_inv in Hrun as (s1 & [] & H1 & Hrun). unfold finish_payload in H1. rewrite bind_gets in H1.
  cbn [id] in H1. destruct (project_event now p (rs_simulation s)) as [sim r]. rewrite bind_modify in H1.
  apply bind_Ok_inv in H1 as (s2 & [] & [-> _]%lift_Ok_inv & H1).
  set (s2 := set_simulation sim s) in *.
  assert (HE2 : engine_ok (list_to_set (ended_by (p :: ps))) idle None s2) by (eapply parts_engine_ok; [| exact HE]; done).
  assert (Hp2 : prices_ok s2) by done. clearbody s2.
  assert (Hcase : (terminal_of p = None /\ s1 = s2) \/ exists id, terminal_of p = Some id /\ s1 = retire id s2).
  { destruct p; simpl in H1; try (ret_inv H1; by left); right; unfold modify in H1; injection H1 as <-; eauto. }
  unfold ended_by in HE2, Hn. simpl in HE2, Hn. fold (ended_by ps) in HE2, Hn.
  destruct Hcase as [[Ht ->]|(id & Ht & ->)]; rewrite Ht in HE2, Hn; [by eapply IH |].
  apply NoDup_cons in Hn as [Hni Hn]. eapply IH; [| done | | exact Hrun].
  - apply retire_ok; [done |]. by rewrite elem_of_list_to_set.
  - by apply retire_prices.
Qed.

Lemma commit_transaction_ok c next m s s' a :
  run_ok s -> keeps same_frame m ->
  (forall t v, m (mkTxn s [] ∅) = (t, Ok v) -> settled t) ->
  commit_transaction c next m s = (s', Ok a) -> run_ok s'.
Proof.
  intros [HE Hp Hb] Hkeep Hm Hrun.
  unfold commit_transaction in Hrun. specialize (Hkeep (mkTxn s [] ∅)).
  destruct (m (mkTxn s [] ∅)) as [t [[[acc code] oid]|e]] eqn:Hmt; [| done].
  specialize (Hm t _ eq_refl). destruct Hm as [HEt Hn Hx Hpt].
  unfold finish_transition in Hrun.
  apply bind_Ok_inv in Hrun as (s1 & [] & Hfin & Hrun).
  pose proof (keeps_for_each keeps_identity (finish_payload (cmd_logical_time c)) (tx_payloads t)
    (keeps_finish_payload (cmd_logical_time c)) (tx_run t)) as Hf. rewrite Hfin in Hf. simpl in Hf.
  rewrite union_empty_r_L in HEt.
  apply finish_payloads_ok in Hfin as [HE1 Hp1]; [| done | done | done].
  rewrite bind_gets in Hrun.
  apply bind_Ok_inv in Hrun as (? & evs & [-> _]%lift_Ok_inv & Hrun). rewrite !bind_modify in Hrun.
  ret_inv Hrun. split; [by destruct HE1; split | done |].
  unfold same, keeps_identity, frame in *. simpl in Hkeep.
  unfold bounds_positive in *. simpl. assert (ls_definition <$> rs_listings s1 = ls_definition <$> rs_listings s)
    as -> by congruence. done.
Qed.

(** ** Transitions *)

Lemma bounds_frame t t' : same_frame t t' -> bounds_positive (tx_run t) -> bounds_positive (tx_run t').
Proof.
  unfold same, frame, bounds_positive. intros Hf.
  assert (ls_definition <$> rs_listings (tx_run t') = ls_definition <$> rs_listings (tx_run t)) as ->
    by congruence. done.
Qed.

(** The orders of an input have their 64-bit fields. *)
Definition payload_typed (p : CommandPayload) : Prop :=
  match p with
  | PSubmitOrder order | PSubmitOrderAtListing _ order => order_typed order
  | _ => True
  end.
Definition input_typed (i : JournalInput) : Prop :=
  match i with InputCommand c => payload_typed (cmd_payload c) | InputSimulation _ => True end.

(** The listing a submission resolves to trades its instrument. *)
Lemma resolve_listing_instrument s p key order :
  resolve_listing s p = Ok (Some key) -> (p = PSubmitOrder order \/ exists k, p = PSubmitOrderAtListing k order) ->
  so_instrument_id order = lk_instrument_id key.
Proof.
  intros Hr [->|[k ->]]; simpl in Hr.
  - apply result_bind_Ok in Hr as (k & Hk & [= <-]). unfold listing_key_for_instrument in Hk.
    destruct (filter _ _) as [|x [|]] eqn:Hf; try done. injection Hk as <-.
    assert (Hin : x ∈ filter (fun key => lk_instrument_id key = so_instrument_id order) (keys (rs_listings s)))
      by (rewrite Hf; left).
    by apply list_elem_of_filter in Hin as [-> _].
  - destruct (_ || _) eqn:Hg; [done |]. guards. by injection Hr as <-.
Qed.

Lemma apply_submit_ok c order key t t' v :
  settled t -> bounds_positive (tx_run t) -> order_typed order ->
  (forall k, key = Some k -> so_instrument_id order = lk_instrument_id k) ->
  apply_submit c order key t = (t', Ok v) -> settled t'.
Proof.
  intros Ht Hb Hty Hk Hrun. unfold apply_submit in Hrun.
  apply bind_Ok_inv in Hrun as (? & k & [-> ->%ok_or_Ok]%lift_Ok_inv & Hrun). specialize (Hk k eq_refl).
  rewrite bind_push, bind_read in Hrun. cbn [id] in Hrun. set (t0 := mkTxn _ _ _) in Hrun.
  assert (Ht0 : settled t0) by (apply (txn_ok_push _ _ _ _ _ ∅); [done | destruct t; by eapply settled_changed]).
  assert (Hb0 : bounds_positive (tx_run t0)) by done. clearbody t0.
  apply bind_Ok_inv in Hrun as (t1 & out & H1 & Hrun).
  assert (Ht1 : settled t1).
  { destruct (negb _); [by ret_inv H1 |]. destruct (bool_decide _); [by ret_inv H1 |].
    destruct (bool_decide _); [by ret_inv H1 |]. rewrite bind_touch in H1.
    eapply (submit_ok order k); [| | done | done | exact H1]; [| done].
    destruct t0. by eapply settled_changed. }
  unfold verdict in Hrun. destruct out; [by ret_inv Hrun |].
  apply bind_Ok_inv in Hrun as (t2 & [] & H2%settled_push & Hrun); [| done | done]. by ret_inv Hrun.
Qed.

Lemma apply_payload_ok c key t t' v :
  settled t -> bounds_positive (tx_run t) -> payload_typed (cmd_payload c) ->
  (forall k order, cmd_payload c = PSubmitOrder order \/ (exists k', cmd_payload c = PSubmitOrderAtListing k' order) ->
     key = Some k -> so_instrument_id order = lk_instrument_id k) ->
  apply_payload c key t = (t', Ok v) -> settled t'.
Proof.
  intros Ht Hb Hty Hk Hrun. unfold apply_payload in Hrun. destruct (cmd_payload c) as [order|k order|cancel| |].
  - eapply apply_submit_ok; eauto.
  - eapply apply_submit_ok; eauto.
  - unfold apply_cancel in Hrun. rewrite bind_read in Hrun. cbn [id] in Hrun.
    apply bind_Ok_inv in Hrun as (t1 & out & H1 & Hrun).
    assert (Ht1 : settled t1).
    { destruct (rs_ownership _ !! _) as [o|]; [| by ret_inv H1]. destruct (negb _); [by ret_inv H1 |].
      destruct (negb _); [by ret_inv H1 |]. rewrite bind_touch in H1.
      apply bind_Ok_inv in H1 as (t2 & [] & H2%cancel_order_ok & H1); [by ret_inv H1 |].
      destruct t. by eapply settled_changed. }
    unfold verdict in Hrun. destruct out; [by ret_inv Hrun |].
    apply bind_Ok_inv in Hrun as (t2 & [] & H2%settled_push & Hrun); [| done | done]. by ret_inv Hrun.
  - apply bind_Ok_inv in Hrun as (t1 & [] & H1 & Hrun). ret_inv Hrun.
    destruct (activate_kill_switch_run (cmd_actor c) t Ht) as (t2 & H2 & Ht2 & _). congruence.
  - rewrite bind_update_run, bind_push in Hrun. ret_inv Hrun. apply (txn_ok_push _ _ _ _ _ (tx_changed t)); [done |].
    apply (settled_run (tx_run t) _ _ (tx_changed t)); [done | apply Ht | by destruct t].
Qed.

Lemma apply_simulation_payload_ok r t t' u :
  settled t -> apply_simulation_payload r t = (t', Ok u) -> settled t'.
Proof.
  intros Ht Hrun. unfold apply_simulation_payload in Hrun. destruct (decide (is_mass_cancel (sr_payload r) = true)) as [Hm|Hm].
  - destruct (sr_payload r); try done. rewrite bind_read in Hrun.
    apply bind_Ok_inv in Hrun as (t1 & [] & H1 & Hrun).
    destruct (mass_cancel_run participant_id instrument_id CancelReason.MassCancel t Ht) as (t2 & H2 & Ht2 & _).
    rewrite H1 in H2. injection H2 as <-. by eapply settled_push; [| | exact Hrun].
  - assert (exists m : SimulationContext -> M SimWorld SimulationError (list SimulationEvent),
      (forall cx, keeps world_kept (m cx)) /\
      (events ← on_world m; for_each (fun e => push (Simulation e)) events;;
       now ← run (fun s => ck_now (sim_clock (rs_simulation s))); expire_due now) t = (t', Ok u))
      as (m & Hkeep & Hrun').
    { exists (fun cx => sim_apply cx (sr_actor r) (sr_logical_time r) (sr_payload r)).
      split; [intros cx; apply kept_sim_apply |]. by destruct (sr_payload r). }
    apply bind_Ok_inv in Hrun' as (t1 & evs & H1%on_world_ok & Hrun'); [| done | done].
    apply bind_Ok_inv in Hrun' as (t2 & [] & H2%settled_events & Hrun'); [| done].
    rewrite bind_read in Hrun'. by eapply expire_due_ok.
Qed.

Lemma settled_start s : run_ok s -> settled (mkTxn s [] ∅).
Proof.
  intros Hs. split; [| constructor | set_solver | apply Hs]. simpl. rewrite union_empty_r_L. apply Hs.
Qed.

(** Every committed input keeps the invariant. *)
Lemma apply_input_ok i s s' a :
  run_ok s -> input_typed i -> apply_input i s = (s', Ok a) -> run_ok s'.
Proof.
  intros Hs Hty (_ & _ & _ & Hrun)%apply_input_Ok.
  pose proof (settled_start s Hs) as Ht0.
  destruct i as [c|r].
  - destruct Hrun as (key & Hres & _ & Hrun). eapply commit_transaction_ok; [done | | | exact Hrun]; [framed |].
    intros t v Hm. apply bind_Ok_inv in Hm as (t1 & [] & H1 & Hm).
    eapply apply_payload_ok; [by eapply catch_up_ok | | done | | exact Hm].
    + pose proof (keeps_catch_up (cmd_logical_time c) false (mkTxn s [] ∅)) as Hf. rewrite H1 in Hf.
      eapply bounds_frame; [exact Hf | apply Hs].
    + intros k order Hp ->. by eapply resolve_listing_instrument.
  - destruct Hrun as [_ Hrun]. eapply commit_transaction_ok; [done | | | exact Hrun]; [framed |].
    intros t v Hm. rewrite bind_read in Hm.
    apply bind_Ok_inv in Hm as (t1 & [] & H1 & Hm).
    apply bind_Ok_inv in Hm as (t2 & [] & H2%catch_up_ok & Hm).
    2: { destruct (_ && _); [by eapply settled_push; [| | exact H1] | by ret_inv H1]. }
    apply bind_Ok_inv in Hm as (t3 & [] & H3%apply_simulation_payload_ok & Hm); [| done]. by ret_inv Hm.
Qed.
