(* ===== verification/EngineReach.v ===== *)
(** * bunting-engine: instantiation and reachable runs

    A run instantiated from a scenario satisfies the run invariant, and so
    does every run its transitions reach.  The counting facts relate the
    invariant to the checks of [RunState::validate]. *)

From S2P Require Import Prelude Ordered Digest MarketTypes MarketEvents Ledger LedgerFacts.
From S2P Require Import Risk Book BookFacts BookEffects Auction Calendar Simulation.
From S2P Require Import Scenario Transition Engine EngineFrame EngineInvariant.
From S2P Require Import EngineFills EngineSubmit EngineRun EngineRetire.
From Stdlib Require Import Ascii.

#[local] Notation Active := OwnedOrderState.Active.

(** ** Seeding the ledger *)

(** A ledger on which nothing is reserved. *)
Definition unclaimed (l : Ledger) : Prop := ledger_ok l /\ forall p k, held l p k = 0.

Lemma seed_Ok m l l' u : seed m l = (l', Ok u) -> exists v, m l = (l', Ok v).
Proof. unfold seed. destruct (m l) as [l1 [v|e]]; [| done]. intros [= <- _]. eauto. Qed.

Lemma unclaimed_op op l l' u :
  op_typed op -> (forall p k, held l' p k = held l p k) -> unclaimed l -> run_op op l = (l', Ok u) -> unclaimed l'.
Proof. intros Ht Hh [Hl Hz] Hrun. split; [by eapply run_op_ok |]. intros p k. by rewrite Hh. Qed.

Lemma seed_position_held p i q b l l' u p' k :
  seed_position p i q b l = (l', Ok u) -> held l' p' k = held l p' k.
Proof.
  unfold seed_position. intros H. run_inv. apply put_quantity_claims.
Qed.

(** The 64-bit fields of a scenario, and the price bounds its constructor
    guarantees. *)
Record scenario_typed (sc : ScenarioDefinition) : Prop := {
  sct_instruments : map_Forall (fun _ d => is_i64 (id_multiplier d) /\
    forall m, id_opening_mark d = Some m -> is_i64 m) (sd_instruments sc);
  sct_holdings : map_Forall (fun _ p => map_Forall (fun _ q => is_i64 q) (pd_initial_positions p))
    (sd_participants sc);
  sct_bounds : map_Forall (fun _ d => 0 < pb_min (ld_price_bounds d) <= pb_max (ld_price_bounds d))
    (sd_listings sc)
}.

Lemma seed_instrument_ok e l l' u :
  is_i64 (id_multiplier e.2) -> (forall m, id_opening_mark e.2 = Some m -> is_i64 m) ->
  unclaimed l -> seed_instrument e l = (l', Ok u) ->
  unclaimed l' /\ lg_terms l' = <[e.1 := instrument_terms e.2]> (lg_terms l).
Proof.
  intros Hm Hk Hl Hrun. unfold seed_instrument in Hrun.
  apply bind_Ok_inv in Hrun as (l1 & [] & (v & H1)%seed_Ok & Hrun).
  assert (Hterms : lg_terms l1 = <[e.1 := instrument_terms e.2]> (lg_terms l) /\
    forall p k, held l1 p k = held l p k).
  { unfold configure_instrument in H1. run_inv. split; [done |]. by intros p []. }
  destruct Hterms as [Ht1 Hh1].
  assert (Hl1 : unclaimed l1) by (by eapply (unclaimed_op (OpConfigure e.1 (instrument_terms e.2)))).
  destruct (id_opening_mark e.2) as [m|] eqn:Hmk; [| by ret_inv Hrun].
  apply seed_Ok in Hrun as (v2 & H2). pose proof (set_mark_claims _ _ _ _ _ H2) as [Ht2 Hh2].
  split; [| congruence]. eapply (unclaimed_op (OpSetMark e.1 m)); [by apply Hk | done | done | exact H2].
Qed.

Lemma foldl_terms_lookup {A B} (f : A -> B) es (m : gmap Z B) k :
  NoDup es.*1 ->
  foldl (fun m kv => <[kv.1 := f kv.2]> m) m es !! k =
  match list_to_map (M := gmap Z A) es !! k with Some v => Some (f v) | None => m !! k end.
Proof.
  revert m. induction es as [|[k0 v0] es IH]; intros m Hn; [done |]. simpl in *.
  apply NoDup_cons in Hn as [Hk0 Hn]. rewrite IH by done. destruct (decide (k = k0)) as [->|Hne].
  - rewrite (not_elem_of_list_to_map_1 es k0) by done. by rewrite !lookup_insert_eq.
  - by rewrite !lookup_insert_ne by done.
Qed.
Lemma entries_map {A} (m : gmap Z A) : list_to_map (entries m) = m.
Proof.
  rewrite <- (list_to_map_to_list m) at 2. apply list_to_map_proper; [apply NoDup_keys | apply entries_perm].
Qed.

Lemma seed_instruments_ok es l l' u :
  Forall (fun e => is_i64 (id_multiplier e.2) /\ forall m, id_opening_mark e.2 = Some m -> is_i64 m) es ->
  unclaimed l -> for_each seed_instrument es l = (l', Ok u) ->
  unclaimed l' /\ lg_terms l' = foldl (fun m kv => <[kv.1 := instrument_terms kv.2]> m) (lg_terms l) es.
Proof.
  intros Hall. revert l. induction Hall as [|e es [Hm Hk] _ IH]; intros l Hl Hrun; simpl in Hrun; [by ret_inv Hrun |].
  apply bind_Ok_inv in Hrun as (l1 & [] & [Hl1 Ht1]%seed_instrument_ok & Hrun); [| done..].
  apply IH in Hrun as [Hl' Ht']; [| done]. split; [done |]. by rewrite Ht', Ht1.
Qed.

(** Cash and holdings: the terms stay. *)
Definition seeded (T : gmap Z InstrumentTerms) (l : Ledger) : Prop := unclaimed l /\ lg_terms l = T.

Lemma seed_participant_ok sc p T l l' u :
  map_Forall (fun _ q => is_i64 q) (pd_initial_positions p) ->
  seeded T l -> seed_participant sc p l = (l', Ok u) -> seeded T l'.
Proof.
  intros Hq Hl Hrun. unfold seed_participant in Hrun.
  apply bind_Ok_inv in Hrun as (l1 & [] & H1 & Hrun).
  assert (Hl1 : seeded T l1).
  { eapply (for_each_inv (seeded T)); [| exact Hl | exact H1]. intros e x x' v _ [Hx Ht] (w & Hc)%seed_Ok.
    pose proof (post_cash_claims _ _ _ _ _ _ Hc) as [Htc Hhc].
    split; [| congruence]. by eapply (unclaimed_op (OpPostCash _ _ _)); [| exact Hhc | exact Hx | exact Hc]. }
  eapply (for_each_inv (seeded T)); [| exact Hl1 | exact Hrun].
  intros [i q] x x' v Hin [Hx Ht] Hs. unfold seed_holding in Hs.
  apply bind_Ok_inv in Hs as (? & d & [-> _]%lift_Ok_inv & Hs).
  apply bind_Ok_inv in Hs as (? & basis & [-> Hb%map_err_Ok]%lift_Ok_inv & Hs).
  apply seed_Ok in Hs as (w & Hs). split.
  - eapply (unclaimed_op (OpSeedPosition (pd_participant_id p) i q basis)); [| | exact Hx | exact Hs].
    + split; [by apply elem_of_entries in Hin; eapply Hq |].
      destruct (id_opening_mark d); [| injection Hb as <-; ranges; lia].
      by apply notional_Ok in Hb as (-> & _ & ?).
    + intros p' k. by eapply seed_position_held.
  - unfold seed_position in Hs. run_inv. done.
Qed.

Lemma seed_ledger_ok sc l u :
  scenario_typed sc -> seed_ledger sc Ledger_new = (l, Ok u) ->
  unclaimed l /\ lg_terms l = instrument_terms <$> sd_instruments sc.
Proof.
  intros [Hi Hh _] Hrun. unfold seed_ledger in Hrun.
  apply bind_Ok_inv in Hrun as (l1 & [] & H1 & Hrun).
  apply seed_instruments_ok in H1 as [Hl1 Ht1].
  2: { apply Forall_forall. intros [k d] Hin%elem_of_entries. by apply (Hi k d). }
  2: { split; [apply ledger_new_ok |]. by intros p []. }
  assert (Ht : lg_terms l1 = instrument_terms <$> sd_instruments sc).
  { rewrite Ht1. apply map_eq. intros k. rewrite lookup_fmap.
    rewrite foldl_terms_lookup, entries_map by apply NoDup_keys.
    by destruct (sd_instruments sc !! k). }
  eapply (for_each_inv (seeded (instrument_terms <$> sd_instruments sc))); [| by split | exact Hrun].
  intros p x x' v (k & Hk)%elem_of_values Hx Hs. eapply seed_participant_ok; [| exact Hx | exact Hs].
  by apply (Hh k).
Qed.

(** ** Instantiation *)

(** What a run inherits from its scenario and never loses. *)
Record static_ok (s : RunState) : Prop := {
  so_config : rs_config s = EngineConfig_default;
  so_listings : (0 < size (rs_listings s) <= MAX_LISTINGS)%nat;
  so_participants : (size (rs_participants s) <= MAX_PARTICIPANTS)%nat;
  so_terms : lg_terms (rs_ledger s) = instrument_terms <$> rs_instruments s;
  so_policy : sim_policy_version (rs_simulation s) = SIMULATION_POLICY_VERSION;
  so_instruments : map_Forall (fun id d => id_instrument_id d = id) (rs_instruments s);
  so_listed : forall key, is_Some (rs_listings s !! key) -> is_Some (rs_instruments s !! lk_instrument_id key)
}.

Lemma load_actions_policy actions seen s s' :
  load_actions actions seen s = Ok s' -> sim_policy_version s' = sim_policy_version s.
Proof.
  revert seen s. induction actions as [|a actions IH]; intros seen s H; simpl in H; [by injection H as <- |].
  case_bool_decide; [done |]. by apply IH in H.
Qed.

Lemma err_if_Ok {E} b (e : E) u : err_if b e = Ok u -> b = false.
Proof. unfold err_if. by destruct b. Qed.
Lemma check_all_Ok {E A} (f : A -> result E unit) (l : list A) u : check_all f l = Ok u -> Forall (fun x => f x = Ok tt) l.
Proof.
  induction l as [|x l IH]; [by constructor |]. simpl. intros ([] & Hx & Hl)%result_bind_Ok. constructor; eauto.
Qed.
Lemma validate_scenario_bounds sc u :
  validate_scenario sc = Ok u ->
  (0 < size (sd_listings sc) <= MAX_LISTINGS)%nat /\ (size (sd_participants sc) <= MAX_PARTICIPANTS)%nat /\
  map_Forall (fun id d => id_instrument_id d = id) (sd_instruments sc) /\
  forall key, is_Some (sd_listings sc !! key) -> is_Some (sd_instruments sc !! lk_instrument_id key).
Proof.
  unfold validate_scenario. intros H.
  apply result_bind_Ok in H as (? & _ & H). apply result_bind_Ok in H as (? & _ & H).
  apply result_bind_Ok in H as (? & Hl%err_if_Ok & H). apply result_bind_Ok in H as (? & _ & H).
  apply result_bind_Ok in H as (? & Hp%err_if_Ok & H). apply result_bind_Ok in H as (? & Hi%check_all_Ok & H).
  apply result_bind_Ok in H as (? & _ & H). apply result_bind_Ok in H as (? & _ & H).
  apply result_bind_Ok in H as (? & _ & H). apply result_bind_Ok in H as (? & Hv & _).
  unfold validate_listings in Hv. apply result_bind_Ok in Hv as (? & Hv%check_all_Ok & _).
  rewrite Forall_forall in Hi. rewrite Forall_forall in Hv. apply orb_false_iff in Hl as [Hl1%Nat.eqb_neq Hl2%Nat.ltb_ge].
  apply Nat.ltb_ge in Hp. split_and!; [lia | lia | done | |].
  - intros id d Hd%elem_of_entries. specialize (Hi _ Hd). cbn in Hi.
    apply result_bind_Ok in Hi as (? & Hi%err_if_Ok & _). lia.
  - intros key [d Hd%elem_of_entries]. specialize (Hv _ Hd). cbn in Hv.
    apply result_bind_Ok in Hv as (? & Hv%err_if_Ok & _). apply orb_false_iff in Hv as [_ Hv].
    by apply negb_false_iff, bool_decide_eq_true in Hv.
Qed.

Section reach.
Context `{Sha256} `{ScenarioCodec} `{RunCodec}.

Lemma from_scenario_ok run_id iteration sc s :
  scenario_typed sc -> from_scenario run_id iteration sc = Ok s -> run_ok s /\ static_ok s.
Proof.
  intros Hty Hrun. unfold from_scenario in Hrun.
  apply result_bind_Ok in Hrun as (? & Hv%map_err_Ok%validate_scenario_bounds & Hrun).
  apply result_bind_Ok in Hrun as (? & _ & Hrun).
  apply result_bind_Ok in Hrun as (l & Hl & Hrun).
  destruct (seed_ledger sc Ledger_new) as [l0 r] eqn:Hseed.
  apply result_bind_Ok in Hl as (? & -> & [= ->]). apply seed_ledger_ok in Hseed as [[Hl Hz] Ht]; [| done].
  apply result_bind_Ok in Hrun as (sim & Hsim%map_err_Ok & Hrun).
  apply result_bind_Ok in Hrun as (hash & _ & [= <-]).
  assert (Hpol : sim_policy_version sim = SIMULATION_POLICY_VERSION).
  { unfold simulation_from_scenario in Hsim. apply result_bind_Ok in Hsim as (? & _ & Hsim).
    apply result_bind_Ok in Hsim as (st & Hst%load_actions_policy & [= <-]). exact Hst. }
  set (L := (fun definition => mkListingState definition Book_new) <$> sd_listings sc).
  assert (HL : forall k ls, L !! k = Some ls -> ls_book ls = Book_new).
  { intros k ls. unfold L. rewrite lookup_fmap. intros (d & _ & ->)%fmap_Some. done. }
  split.
  - split.
    + split; simpl.
      * apply map_Forall_empty.
      * split; simpl; try done.
        -- intros k ls ->%HL. apply Book_new_ok.
        -- intros k ls sd i Hls. rewrite (HL _ _ Hls). unfold expected. rewrite lookup_empty. done.
      * split; [done | done |]. intros p k. rewrite Hz. unfold owed. by rewrite map_sum_empty.
      * intros at_ i. split; [set_solver | by intros (_ & y & ? & _)].
      * split; simpl; try done.
        -- constructor.
        -- intros i. split; [by intros ?%elem_of_nil | by intros (_ & y & ? & _)].
        -- lia.
    + split; apply map_Forall_empty.
    + unfold bounds_positive. simpl. fold L. intros k d Hk. rewrite lookup_fmap in Hk.
      apply fmap_Some in Hk as (ls & Hls & ->). unfold L in Hls. rewrite lookup_fmap in Hls.
      apply fmap_Some in Hls as (d & Hd & ->). exact (sct_bounds _ Hty _ _ Hd).
  - destruct Hv as (Hv1 & Hv2 & Hv3 & Hv4). split; simpl; try done; unfold L; [by rewrite map_size_fmap |].
    intros key Hk. apply Hv4. by rewrite lookup_fmap, fmap_is_Some in Hk.
Qed.

(** A run reached from a scenario by committed inputs. *)
Inductive reachable (run_id iteration : Z) (sc : ScenarioDefinition) : RunState -> Prop :=
  | reach_start s : from_scenario run_id iteration sc = Ok s -> reachable run_id iteration sc s
  | reach_step s i s' a :
      reachable run_id iteration sc s -> input_typed i -> apply_input i s = (s', Ok a) ->
      reachable run_id iteration sc s'.

(** What a committed input leaves of the frame. *)
Lemma apply_input_static i s s' a : apply_input i s = (s', Ok a) -> static_ok s -> static_ok s'.
Proof.
  intros Hrun [K1 K2 K3 K4 K5 K6 K7].
  assert (Hf : rs_config s' = rs_config s /\ ls_definition <$> rs_listings s' = ls_definition <$> rs_listings s /\
    rs_participants s' = rs_participants s /\ rs_instruments s' = rs_instruments s /\
    lg_terms (rs_ledger s') = lg_terms (rs_ledger s) /\
    sim_policy_version (rs_simulation s') = sim_policy_version (rs_simulation s)).
  { apply apply_input_Ok in Hrun as (_ & _ & _ & Hrun). destruct i as [c|r].
    - destruct Hrun as (key & _ & _ & Hrun). eapply commit_transaction_static; [| exact Hrun]. framed.
    - destruct Hrun as [_ Hrun]. eapply commit_transaction_static; [| exact Hrun]. framed. }
  destruct Hf as (F1 & F2 & F3 & F4 & F5 & F6). split; rewrite ?F4; try congruence; [| done |].
  - rewrite <- (map_size_fmap ls_definition), F2, map_size_fmap. done.
  - intros key Hk. apply K7. by rewrite <- (fmap_is_Some ls_definition), <- lookup_fmap, <- F2, lookup_fmap, fmap_is_Some.
Qed.

(** The session steps only advance. *)
Lemma finish_payload_steps now p : keeps (fun s s' => rs_session_steps s' = rs_session_steps s) (finish_payload now p).
Proof.
  intros s. unfold finish_payload. rewrite bind_gets. cbn [id].
  destruct (project_event now p (rs_simulation s)) as [sim r]. rewrite bind_modify.
  destruct r as [u|e]; [| done]. rewrite (bind_lift _ _ _ u) by done.
  destruct p; simpl; try done; unfold release_slot; by repeat case_match.
Qed.

Lemma commit_transaction_steps c next m s s' a :
  (forall t v, m (mkTxn s [] ∅) = (t, Ok v) -> steps_ok (tx_run t)) ->
  commit_transaction c next m s = (s', Ok a) -> steps_ok s'.
Proof.
  intros Hm Hrun. unfold commit_transaction in Hrun.
  destruct (m (mkTxn s [] ∅)) as [t [[[acc code] oid]|e]]; [| done]. specialize (Hm t _ eq_refl).
  unfold finish_transition in Hrun. apply bind_Ok_inv in Hrun as (s1 & [] & Hfin & Hrun).
  assert (PreOrder (fun s s' : RunState => rs_session_steps s' = rs_session_steps s)) as Hpre
    by (split; [done | intros x y z; congruence]).
  pose proof (keeps_for_each (fun s s' : RunState => rs_session_steps s' = rs_session_steps s)
    (finish_payload (cmd_logical_time c)) (tx_payloads t)
    (finish_payload_steps (cmd_logical_time c)) (tx_run t)) as Hf. rewrite Hfin in Hf. simpl in Hf.
  rewrite bind_gets in Hrun.
  apply bind_Ok_inv in Hrun as (? & evs & [-> _]%lift_Ok_inv & Hrun). rewrite !bind_modify in Hrun.
  ret_inv Hrun. unfold steps_ok in *. simpl. by rewrite Hf.
Qed.

Lemma apply_input_steps i s s' a :
  run_ok s -> steps_ok s -> apply_input i s = (s', Ok a) -> steps_ok s'.
Proof.
  intros Hs Hst (_ & _ & _ & Hrun)%apply_input_Ok. pose proof (settled_start s Hs) as Ht0.
  destruct i as [c|r].
  - destruct Hrun as (key & _ & _ & Hrun). eapply commit_transaction_steps; [| exact Hrun].
    intros t v Hm. apply bind_Ok_inv in Hm as (t1 & [] & Hx1%catch_up_drained & Hm); [| done | done].
    pose proof (keeps_core_steps _ (keeps_apply_payload c key) t1) as Hk. rewrite Hm in Hk.
    unfold same in Hk. simpl in Hk. unfold steps_ok. rewrite Hk. apply Hx1.
  - destruct Hrun as [_ Hrun]. eapply commit_transaction_steps; [| exact Hrun].
    intros t v Hm. rewrite bind_read in Hm. apply bind_Ok_inv in Hm as (t1 & [] & Hx1 & Hm).
    assert (Ht1 : txn_ok ∅ idle None t1 /\ steps_ok (tx_run t1)).
    { destruct (_ && _); [| by ret_inv Hx1]. apply settled_push in Hx1 as Ht1; [| done | done].
      split; [done |]. unfold push, modify in Hx1. by injection Hx1 as <-. }
    apply bind_Ok_inv in Hm as (t2 & [] & Hx2%catch_up_drained & Hm); [| apply Ht1 | apply Ht1].
    apply bind_Ok_inv in Hm as (t3 & [] & Hx3 & Hm). ret_inv Hm.
    pose proof (steps_apply_simulation_payload r t2) as Hk. rewrite Hx3 in Hk.
    unfold same in Hk. simpl in Hk. unfold steps_ok. rewrite Hk. apply Hx2.
Qed.

Lemma initial_step_nonneg fuel c v n : 0 <= n -> 0 <= initial_step fuel c v n.
Proof.
  revert n. induction fuel as [|fuel IH]; intros n Hn; simpl; [done |].
  destruct (boundary c v n); [| done]. destruct (_ =? _); [apply IH; lia | done].
Qed.
Lemma from_scenario_steps run_id iteration sc s :
  from_scenario run_id iteration sc = Ok s -> steps_ok s.
Proof.
  unfold from_scenario. intros Hrun. repeat (apply result_bind_Ok in Hrun as (? & _ & Hrun)).
  injection Hrun as <-. unfold steps_ok. simpl. destruct (sd_calendar sc) as [c|]; [| apply map_Forall_empty].
  unfold initial_steps. apply map_Forall_lookup. intros v n Hn.
  apply elem_of_list_to_map_2 in Hn. rewrite elem_of_reverse in Hn.
  apply list_elem_of_fmap in Hn as (vs & [= -> ->] & _).
  by apply (initial_step_nonneg (S (boundaries_of c))).
Qed.

Lemma reachable_ok run_id iteration sc s :
  scenario_typed sc -> reachable run_id iteration sc s -> run_ok s /\ static_ok s /\ steps_ok s.
Proof.
  intros Hty. induction 1 as [s Hs|s i s' a _ (IHr & IHs & IHn) Hi Ha].
  - apply from_scenario_steps in Hs as Hn. by apply from_scenario_ok in Hs as [? ?].
  - split_and!; [by eapply apply_input_ok | by eapply apply_input_static | by eapply apply_input_steps].
Qed.
End reach.

(** ** Counting live orders *)

Definition owner_count (p : Z) (orders : list OwnedOrder) : Z :=
  Z.of_nat (length (filter (fun o => oo_participant_id o = p) orders)).

Lemma owner_count_cons p o orders :
  owner_count p (o :: orders) = (if oo_participant_id o =? p then 1 else 0) + owner_count p orders.
Proof.
  unfold owner_count. rewrite filter_cons. destruct (Z.eqb_spec (oo_participant_id o) p);
    [rewrite decide_True by done; simpl; lia | by rewrite decide_False by done].
Qed.

(** The tally of [validate] counts each participant's orders. *)
Lemma count_by_participant_spec orders : forall counts : gmap Z Z,
  (forall p, 0 <= default 0 (counts !! p) /\
     default 0 (counts !! p) + Z.of_nat (length orders) <= int_max U32) ->
  exists counts', count_by_participant orders counts = Some counts' /\
    forall p, counts' !! p =
      if owner_count p orders =? 0 then counts !! p
      else Some (default 0 (counts !! p) + owner_count p orders).
Proof.
  induction orders as [|o orders IH]; intros counts Hc; [by exists counts |].
  cbn [count_by_participant]. destruct (Hc (oo_participant_id o)) as [H1 H2]. cbn [length] in H2.
  unfold checked_add. rewrite checked_in by (change (int_min U32) with 0; lia). cbn [mbind option_bind].
  destruct (IH (<[oo_participant_id o := default 0 (counts !! oo_participant_id o) + 1]> counts))
    as (counts' & Hrun & Hl).
  { intros p. destruct (Hc p) as [Hp1 Hp2]. cbn [length] in Hp2. destruct (decide (oo_participant_id o = p)) as [<-|Hne].
    - rewrite lookup_insert_eq. simpl. lia.
    - rewrite lookup_insert_ne by done. lia. }
  exists counts'. split; [exact Hrun |]. intros p. rewrite Hl, owner_count_cons.
  assert (0 <= owner_count p orders) by (unfold owner_count; lia).
  destruct (Z.eqb_spec (oo_participant_id o) p) as [<-|Hne].
  - rewrite lookup_insert_eq. simpl default. rewrite (proj2 (Z.eqb_neq (1 + _) 0)) by lia.
    destruct (Z.eqb_spec (owner_count (oo_participant_id o) orders) 0); apply f_equal; lia.
  - by rewrite lookup_insert_ne, Z.add_0_l by done.
Qed.

(** Lists of values count as sums over the map. *)
Lemma count_values {V} (P : V -> Prop) `{forall v, Decision (P v)} (m : gmap Z V) :
  Z.of_nat (length (filter P (values m))) = map_sum (fun _ v => if bool_decide (P v) then 1 else 0) m.
Proof.
  rewrite map_sum_list. unfold values. rewrite <- (sumZ_perm _ _ (fmap_Permutation _ _ _ (entries_perm m))).
  induction (entries m) as [|[k v] l IH]; [done |]. rewrite !fmap_cons, filter_cons, sumZ_cons, <- IH.
  simpl. case_bool_decide; [rewrite decide_True by done; simpl; lia | by rewrite decide_False by done].
Qed.

Lemma active_orders_length s : Z.of_nat (length (active_orders s)) = active_count (rs_ownership s).
Proof. unfold active_orders. by rewrite count_values. Qed.

Lemma active_orders_owner s p :
  owner_count p (active_orders s) = live_count ∅ (rs_ownership s) p.
Proof.
  unfold owner_count, active_orders. rewrite list_filter_filter, count_values. apply map_sum_ext.
  intros i o _. erewrite bool_decide_ext; [reflexivity |]. set_solver.
Qed.

(** The resting orders of a well-formed run are its live orders. *)
Lemma book_holds_live s k ls id :
  engine_ok ∅ idle None s -> rs_listings s !! k = Some ls ->
  is_Some (bk_orders (ls_book ls) !! id) <->
  exists o, rs_ownership s !! id = Some o /\ oo_listing_key o = k /\ oo_state o = Active.
Proof.
  intros HE Hls. pose proof (bs_book _ _ _ (eo_books _ _ _ _ HE) _ _ Hls) as Hb.
  assert (Hc : is_Some (bk_orders (ls_book ls) !! id) <-> exists sd, 0 < side_remaining (ls_book ls) sd id).
  { rewrite <- side_remaining_contains by done. unfold book_contains. by rewrite bool_decide_eq_true. }
  rewrite Hc. split.
  - intros [sd Hp]. destruct (resting_owned _ _ _ _ _ _ _ (eo_books _ _ _ _ HE) Hls Hp) as (o & Ho & Hk & _ & Hr).
    exists o. split_and!; [done | done |]. apply (ow_active _ _ (eo_orders _ _ _ _ HE _ _ Ho)).
    unfold idle in Hr. lia.
  - intros (o & Ho & <- & Ha). exists (oo_side o).
    rewrite (owned_resting _ _ _ _ _ _ (eo_books _ _ _ _ HE) Ho Hls). unfold idle.
    apply (ow_active _ _ (eo_orders _ _ _ _ HE _ _ Ho)) in Ha. lia.
Qed.

Lemma book_len_live s k ls :
  engine_ok ∅ idle None s -> rs_listings s !! k = Some ls ->
  Z.of_nat (book_len (ls_book ls)) =
  map_sum (fun _ o => if bool_decide (oo_listing_key o = k /\ oo_state o = Active) then 1 else 0) (rs_ownership s).
Proof.
  intros HE Hls.
  pose proof (map_sum_count (fun e : Z * OwnedOrder => oo_listing_key e.2 = k /\ oo_state e.2 = Active)
    (rs_ownership s)) as Hs. simpl in Hs. rewrite Hs. clear Hs.
  unfold book_len. rewrite <- !(size_dom (D := gset Z)). do 2 f_equal. apply set_eq. intros id.
  rewrite !elem_of_dom, (book_holds_live s k ls id HE Hls). unfold is_Some.
  split.
  - intros (o & Ho & Hk & Ha). exists o. by apply map_lookup_filter_Some.
  - intros (o & [Ho [Hk Ha]]%map_lookup_filter_Some). eauto.
Qed.

Lemma resting_count s :
  engine_ok ∅ idle None s ->
  Z.of_nat (sum_list (book_len ∘ ls_book <$> values (rs_listings s))) = active_count (rs_ownership s).
Proof.
  intros HE.
  assert (Hsum : Z.of_nat (sum_list (book_len ∘ ls_book <$> values (rs_listings s))) =
    map_sum (fun _ ls => Z.of_nat (book_len (ls_book ls))) (rs_listings s)).
  { rewrite <- (sum_entries (fun _ ls => Z.of_nat (book_len (ls_book ls)))). unfold values.
    induction (entries (rs_listings s)) as [|[k ls] l IH]; [done |].
    rewrite !fmap_cons, sumZ_cons, <- IH. simpl. lia. }
  rewrite Hsum. erewrite map_sum_ext; [| intros k ls Hls; by apply book_len_live].
  rewrite (map_sum_swap (fun k (_ : ListingState) (_ : Z) o =>
    if bool_decide (oo_listing_key o = k /\ oo_state o = Active) then 1 else 0)).
  apply map_sum_ext. intros id o Ho. unfold is_active.
  destruct (bs_listed _ _ _ (eo_books _ _ _ _ HE) _ _ Ho) as [ls Hls].
  rewrite <- (insert_delete_id _ _ _ Hls), map_sum_insert by apply lookup_delete_eq.
  rewrite map_sum_zero.
  - repeat case_bool_decide; tauto || lia.
  - intros k x [Hne _]%lookup_delete_Some. rewrite bool_decide_false by (intros [? _]; congruence). done.
Qed.

(** ** Validation *)

Lemma existsb_none {A} (f : A -> bool) l : (forall x, x ∈ l -> f x = false) -> existsb f l = false.
Proof.
  intros Hf. induction l as [|x l IH]; [done |]. simpl. rewrite Hf by left. apply IH.
  intros y Hy. apply Hf. by right.
Qed.

Lemma run_validates s : run_ok s -> static_ok s -> validate_run s = Ok tt.
Proof.
  intros [HE _ _] [K1 [K2 K3] K4 K5 K6]. pose proof HE as [HO HB HC HX HL].
  pose proof (owned_count _ _ _ _ HL) as Hcount. rewrite size_empty in Hcount.
  pose proof (active_orders_length s) as Hlive. pose proof (resting_count s HE) as Hrest.
  pose proof (lv_capacity _ _ _ _ HL) as Hcap. pose proof (lv_window _ _ _ _ HL) as Hwin.
  unfold validate_run. cbv zeta.
  destruct (count_by_participant_spec (active_orders s) ∅) as (counts & Hrun & Hcounts).
  { intros p. rewrite lookup_empty. simpl default. unfold MAX_LIVE_ORDERS in *. change (int_max U32) with 4294967295. lia. }
  assert (counts = rs_live_orders s) as ->.
  { apply map_eq. intros p. rewrite Hcounts, lookup_empty, active_orders_owner. simpl default.
    rewrite (lv_count _ _ _ _ HL p). by destruct (_ =? 0). }
  rewrite Hrun. cbn [ok_or mbind result_bind]. unfold err_if.
  assert (Hown : existsb (ownership_mismatch s) (entries (rs_ownership s)) = false).
  { apply existsb_none. intros [id o] Ho%elem_of_entries. unfold ownership_mismatch. simpl.
    rewrite (ow_id _ _ (HO _ _ Ho)), Z.eqb_refl. simpl. apply negb_false_iff, eqb_true_iff.
    unfold is_active, book_has. destruct (bs_listed _ _ _ HB _ _ Ho) as [ls Hls]. rewrite Hls. unfold book_contains.
    apply bool_decide_ext. rewrite (book_holds_live s _ ls id HE Hls). split; [eauto |].
    intros (o' & Ho' & _ & Ha). congruence. }
  assert (Hexp : existsb (expiry_mismatch s) (set_iter (rs_expiries s)) = false).
  { apply existsb_none. intros [at_ id] Hin. unfold set_iter in Hin.
    rewrite merge_sort_Permutation, elem_of_elements in Hin. apply (HX at_ id) in Hin as (_ & o & Ho & Ha & He).
    unfold expiry_mismatch. simpl. rewrite Ho. unfold is_active. by rewrite !bool_decide_true. }
  assert (Hterms : forallb (terms_match s) (entries (rs_instruments s)) = true).
  { apply forallb_forall. intros [i d] Hin%list_elem_of_In%elem_of_entries. unfold terms_match. simpl.
    rewrite K5, lookup_fmap, Hin. by apply bool_decide_true. }
  rewrite Hown, Hexp, Hterms, K1, K5, K6, map_size_fmap, Nat.eqb_refl, bool_decide_true by done.
  replace (length (active_orders s) =? _)%nat with true by (symmetry; apply Nat.eqb_eq; lia).
  replace (length (active_orders s) + _ =? _)%nat with true by (symmetry; apply Nat.eqb_eq; lia).
  replace (MAX_LIVE_ORDERS <? _) with false by (symmetry; apply Z.ltb_ge; lia).
  replace (MAX_RETIRED_ORDERS <? _)%nat with false by (symmetry; apply Nat.ltb_ge; lia).
  replace (MAX_PARTICIPANTS <? _)%nat with false by (symmetry; apply Nat.ltb_ge; lia).
  replace (size (rs_listings s) =? 0)%nat with false by (symmetry; apply Nat.eqb_neq; lia).
  unfold MAX_LISTINGS in *. cbn [ec_max_listings ec_engine_version EngineConfig_default].
  replace (64 <? Z.of_nat (size (rs_listings s))) with false by (symmetry; apply Z.ltb_ge; lia). done.
Qed.

(** * bunting-engine: what is due of a run

    [RunState::next_due] is what the venue timer polls.  A committed
    [ClockTick] drains it: no scheduled action, session boundary, order
    expiry, open tender or open negotiation is left due at its time. *)

(** ** The agenda of a run *)

(** All that [next_due] reads. *)
Definition agenda (s : RunState) :=
  (sim_scheduled_actions (rs_simulation s), sim_tenders (rs_simulation s), sim_otc (rs_simulation s),
   rs_expiries s, rs_calendar s, rs_session_steps s).
Definition same_agenda (s s' : RunState) : Prop := agenda s' = agenda s.
#[export] Instance same_agenda_preorder : PreOrder same_agenda.
Proof. split; [done |]. intros x y z. unfold same_agenda. congruence. Qed.
Lemma next_due_agenda s s' : same_agenda s s' -> next_due s' = next_due s.
Proof. unfold same_agenda, agenda, next_due, sim_next_due, next_boundary. intros [= -> -> -> -> -> ->]. done. Qed.

Definition sim_agenda (s : SimulationState) := (sim_scheduled_actions s, sim_tenders s, sim_otc s).
Lemma project_event_agenda now p s s' r :
  project_event now p s = (s', r) -> sim_agenda s' = sim_agenda s.
Proof.
  intros Hrun. pose (R := fun s s' : SimulationState => sim_agenda s' = sim_agenda s).
  assert (HR : PreOrder R) by (split; [done | intros x y z; unfold R; congruence]).
  assert (Hk : keeps R (project_event now p)).
  { unfold project_event. repeat first
      [ progress cbv zeta | progress unfold refuse_if | apply keeps_bind; [exact HR | | intros ?] | by intros ? | progress case_match ]. }
  specialize (Hk s). by rewrite Hrun in Hk.
Qed.
Lemma finish_payload_agenda now p : keeps same_agenda (finish_payload now p).
Proof.
  intros s. unfold finish_payload. rewrite bind_gets. cbn [id].
  destruct (project_event now p (rs_simulation s)) as [sim r] eqn:Hp. rewrite bind_modify.
  apply project_event_agenda in Hp. unfold sim_agenda in Hp. injection Hp as H1 H2 H3.
  assert (Hs : same_agenda s (set_simulation sim s)).
  { unfold same_agenda, agenda. simpl. congruence. }
  destruct r as [u|e]; [| exact Hs]. rewrite (bind_lift _ _ _ u) by done.
  destruct p; simpl; try exact Hs; (etrans; [exact Hs |]); unfold same_agenda, agenda, retire, release_slot; simpl; by repeat case_match.
Qed.

Lemma commit_transaction_agenda c next m s s' a :
  commit_transaction c next m s = (s', Ok a) ->
  exists t v, m (mkTxn s [] ∅) = (t, Ok v) /\ same_agenda (tx_run t) s'.
Proof.
  unfold commit_transaction. destruct (m (mkTxn s [] ∅)) as [t [[[acc code] oid]|e]]; [| done]. intros Hrun.
  exists t, (acc, code, oid). split; [done |]. unfold finish_transition in Hrun.
  apply bind_Ok_inv in Hrun as (s1 & [] & Hfin & Hrun).
  pose proof (keeps_for_each same_agenda (finish_payload (cmd_logical_time c)) (tx_payloads t)
    (finish_payload_agenda (cmd_logical_time c)) (tx_run t)) as Hf. rewrite Hfin in Hf.
  rewrite bind_gets in Hrun.
  apply bind_Ok_inv in Hrun as (? & evs & [-> _]%lift_Ok_inv & Hrun). rewrite !bind_modify in Hrun.
  by ret_inv Hrun.
Qed.

(** Nothing of the run is due at [to]. *)
Definition drained (s : RunState) (to : Z) : Prop := forall due, next_due s = Some due -> to < due.

Lemma min_list_above (l : list Z) to d :
  (forall x, x ∈ l -> to < x) -> min_list l = Some d -> to < d.
Proof.
  destruct l as [|x l]; [done |]. intros Hl [= <-].
  assert (Hx : to < x) by (apply Hl; left). assert (Hr : forall y, y ∈ l -> to < y) by (intros y Hy; apply Hl; by right).
  clear Hl. revert x Hx. induction l as [|y l IH]; intros x Hx; [done |]. simpl. apply IH.
  - intros z Hz. apply Hr. by right.
  - pose proof (Hr y ltac:(left)). lia.
Qed.

(** The sweep leaves no open record that is due. *)
Definition swept (to : Z) (s : SimulationState) : Prop :=
  (forall k t, sim_tenders s !! k = Some t -> tender_open t = true -> to < td_expires_at t) /\
  (forall k o, sim_otc s !! k = Some o -> otc_open o = true -> to < oc_expires_at o).
Lemma sweep_swept to s : swept to (sweep_otc to (sweep_tenders to s)).
Proof.
  split; intros k x; simpl; rewrite lookup_fmap; intros (y & Hy & ->)%fmap_Some.
  - unfold tender_due. destruct (tender_open y) eqn:Ho, (Z.leb_spec (td_expires_at y) to); simpl; try done; congruence.
  - unfold otc_due. destruct (otc_open y) eqn:Ho, (Z.leb_spec (oc_expires_at y) to); simpl; try done; congruence.
Qed.
Lemma sim_catch_up_swept to w w' evs :
  sim_catch_up to true w = (w', Ok evs) -> swept to (sw_sim w').
Proof.
  unfold sim_catch_up. intros Hrun.
  apply bind_Ok_inv in Hrun as (w0 & s & _ & Hrun). apply bind_Ok_inv in Hrun as (w1 & [] & _ & Hrun).
  apply bind_Ok_inv in Hrun as (w2 & [] & _ & Hrun). apply bind_Ok_inv in Hrun as (w3 & applied & _ & Hrun).
  apply bind_Ok_inv in Hrun as (w4 & s4 & Hs & Hrun). unfold sim, gets in Hs. injection Hs as <- <-.
  apply bind_Ok_inv in Hrun as (w5 & [] & Hu & Hrun). unfold update, on_sim, modify in Hu. injection Hu as <-.
  ret_inv Hrun. apply sweep_swept.
Qed.
Lemma catch_up_swept to t t' u : catch_up to true t = (t', Ok u) -> swept to (rs_simulation (tx_run t')).
Proof.
  unfold catch_up. intros Hrun. apply bind_Ok_inv in Hrun as (t1 & evs & H1 & Hrun).
  apply on_world_Ok in H1 as (w & Hw%sim_catch_up_swept & ->).
  rewrite (bind_run _ _ _ _ _ (push_events_run _ _)), bind_read in Hrun. cbn [tx_run] in Hrun.
  apply bind_Ok_inv in Hrun as (t3 & [] & H3 & Hrun%expire_due_core).
  match type of H3 with cross_due ?f _ ?t0 = _ => pose proof (keeps_cross_due f to t0) as Hk end.
  rewrite H3 in Hk. unfold same, core_sim, core in *. simpl in Hk.
  apply (f_equal snd) in Hrun, Hk. simpl in Hrun, Hk. rewrite Hrun, Hk. exact Hw.
Qed.

Lemma swept_sim_due to s d :
  swept to s -> has_due_actions s to = false -> sim_next_due s = Some d -> to < d.
Proof.
  intros [Ht Ho] Ha. unfold sim_next_due. apply min_list_above. intros x. rewrite !elem_of_app.
  intros [Hx|[Hx|Hx]]; [| destruct (min_list _) as [m|] eqn:Hm; [| by apply elem_of_nil in Hx] ..].
  - unfold has_due_actions in Ha. destruct (sim_scheduled_actions s) as [|a l]; [by apply elem_of_nil in Hx |].
    apply list_elem_of_singleton in Hx as ->. apply Z.leb_gt in Ha. done.
  - apply list_elem_of_singleton in Hx as ->. revert Hm. apply min_list_above.
    intros y (t & -> & [Hop (k & Hk)%elem_of_values]%list_elem_of_filter)%list_elem_of_fmap.
    apply (Ht k); [done | by apply Is_true_true].
  - apply list_elem_of_singleton in Hx as ->. revert Hm. apply min_list_above.
    intros y (t & -> & [Hop (k & Hk)%elem_of_values]%list_elem_of_filter)%list_elem_of_fmap.
    apply (Ho k); [done | by apply Is_true_true].
Qed.

Lemma set_first_elem {K} `{Countable K} `{!RustOrd K} (X : gset K) x : set_first X = Some x -> x ∈ X.
Proof.
  unfold set_first, set_iter. intros (l & Hl)%head_Some.
  rewrite <- elem_of_elements, <- (merge_sort_Permutation ord_le), Hl. left.
Qed.

(** A second [expire_due] never reaches behind the first. *)
Lemma expire_due_above to now t t' u :
  txn_ok ∅ idle None t -> (forall at_ id, (at_, id) ∈ rs_expiries (tx_run t) -> to < at_) ->
  expire_due now t = (t', Ok u) -> forall at_ id, (at_, id) ∈ rs_expiries (tx_run t') -> to < at_.
Proof.
  intros Ht Hexp Hrun. destruct (Z.le_gt_cases now to).
  - unfold expire_due in Hrun. rewrite bind_read in Hrun. cbn [expire_loop] in Hrun. rewrite bind_read in Hrun.
    change (id (tx_run t)) with (tx_run t) in Hrun.
    destruct (set_first (rs_expiries (tx_run t))) as [[at_ oid]|] eqn:Hf; [| by ret_inv Hrun].
    apply set_first_elem in Hf as Hin. pose proof (Hexp _ _ Hin). replace (now <? at_) with true in Hrun by lia.
    by ret_inv Hrun.
  - destruct (expire_due_run now t Ht) as (t1 & Hrun1 & _ & Hin). rewrite Hrun in Hrun1. injection Hrun1 as <-.
    intros at_ oid Ho. pose proof (Hin _ _ Ho). lia.
Qed.

Lemma tick_transaction_drains r s t v :
  run_ok s -> steps_ok s -> sr_payload r = ClockTick ->
  (from ← run (fun s => ck_now (sim_clock (rs_simulation s)));
   (if is_tick (sr_payload r) && (from <? sr_logical_time r)
    then push (Simulation (ClockAdvanced from (sr_logical_time r))) else mret tt);;
   catch_up (sr_logical_time r) (is_tick (sr_payload r));;
   apply_simulation_payload r;;
   mret (true, None, None)) (mkTxn s [] ∅) = (t, Ok v : result EngineError Verdict) ->
  drained (tx_run t) (sr_logical_time r).
Proof.
  intros Hs Hst Hp Hm. pose proof (settled_start s Hs) as Ht0. rewrite Hp in Hm. cbn [is_tick] in Hm.
  rewrite bind_read in Hm. apply bind_Ok_inv in Hm as (t1 & [] & Hx1 & Hm).
  assert (Ht1 : txn_ok ∅ idle None t1 /\ steps_ok (tx_run t1)).
  { destruct (_ && _); [| by ret_inv Hx1]. apply settled_push in Hx1 as Ht1; [| done | done].
    split; [done |]. unfold push, modify in Hx1. by injection Hx1 as <-. }
  destruct Ht1 as [Ht1 Hst1]. apply bind_Ok_inv in Hm as (t2 & [] & Hx2 & Hm).
  apply catch_up_ok in Hx2 as Ht2; [| done]. pose proof (catch_up_swept _ _ _ _ Hx2) as Hsw.
  destruct (catch_up_drained _ _ _ _ _ Ht1 Hst1 Hx2) as (_ & Hd & Hb & He).
  apply bind_Ok_inv in Hm as (t3 & [] & Hx3 & Hm). ret_inv Hm.
  unfold apply_simulation_payload in Hx3. rewrite Hp in Hx3.
  apply bind_Ok_inv in Hx3 as (t4 & evs & Hw & Hx3). apply on_world_ok in Hw as Ht4; [| intros cx; apply kept_sim_apply | done].
  apply on_world_Ok in Hw as (w & Hw & ->). unfold sim_apply in Hw.
  apply bind_Ok_inv in Hw as (w1 & ck & Hck & Hw). unfold sim, gets in Hck. injection Hck as <- <-.
  apply bind_Ok_inv in Hw as (w2 & [] & [-> _]%refuse_if_Ok_inv & Hw). ret_inv Hw.
  cbn [sw_sim sw_ledger for_each] in Hx3. rewrite bind_ret, bind_read in Hx3.
  apply expire_due_core in Hx3 as Hc.
  pose proof (expire_due_above (sr_logical_time r) _ _ _ _ Ht4 He Hx3) as Hexp.
  unfold same, core, frame in Hc. simpl in Hc.
  assert (rs_simulation (tx_run t) = rs_simulation (tx_run t2)) as Esi by congruence.
  assert (rs_session_steps (tx_run t) = rs_session_steps (tx_run t2)) as Est by congruence.
  assert (rs_calendar (tx_run t) = rs_calendar (tx_run t2)) as Eca by congruence.
  intros due. apply min_list_above. intros x. rewrite !elem_of_app, Esi. intros [Hx|[Hx|Hx]].
  - destruct (sim_next_due _) eqn:Hn; [| by apply elem_of_nil in Hx]. apply list_elem_of_singleton in Hx as ->.
    by apply (swept_sim_due _ _ _ Hsw Hd).
  - destruct (set_first _) as [[at_ oid]|] eqn:Hf; [| by apply elem_of_nil in Hx].
    apply list_elem_of_singleton in Hx as ->. by apply set_first_elem in Hf as Hf%Hexp.
  - unfold next_boundary in Hx, Hb. rewrite Eca, Est in Hx.
    destruct (rs_calendar (tx_run t2) ≫= _) as [[[ve st] b]|]; [| by apply elem_of_nil in Hx].
    apply list_elem_of_singleton in Hx as ->. by apply (Hb ve st).
Qed.

(** A committed tick leaves nothing due. *)
Lemma tick_drains `{!ScenarioCodec} `{!Digest.Sha256} r s s' a :
  run_ok s -> steps_ok s -> sr_payload r = ClockTick ->
  apply_input (InputSimulation r) s = (s', Ok a) -> drained s' (sr_logical_time r).
Proof.
  intros Hs Hst Hp Ha. apply apply_input_Ok in Ha as (_ & _ & _ & _ & Hrun).
  apply commit_transaction_agenda in Hrun as (t & v & Hm & Hsame).
  intros due. rewrite (next_due_agenda _ _ Hsame). by eapply (tick_transaction_drains r s t v).
Qed.
