(* ===== verification/EngineTheorems.v ===== *)
(** * bunting-engine: the theorems on runs

    The properties of every run reachable from a scenario, and of the
    commands applied to it. *)

From S2P Require Import Prelude Ordered Digest MarketTypes MarketEvents Ledger LedgerFacts.
From S2P Require Import Risk Book BookFacts BookMatch.
From S2P Require Import BookEffects Auction Calendar Simulation Scenario.
From S2P Require Import Transition Engine EngineFrame EngineInvariant EngineFills EngineSubmit.
From S2P Require Import EngineRun EngineRetire EngineReach.
From Stdlib Require Import Ascii.

#[local] Notation Active := OwnedOrderState.Active.

(** ** Committed inputs *)

(** Finishing a transition only forgets ownership records. *)
Definition forgets (s s' : RunState) : Prop :=
  (forall id o, rs_ownership s' !! id = Some o -> rs_ownership s !! id = Some o) /\
  rs_kill_switched s' = rs_kill_switched s.
#[export] Instance forgets_preorder : PreOrder forgets.
Proof.
  split; [done |]. intros s1 s2 s3 [H1 K1] [H2 K2]. split; [eauto | congruence].
Qed.

Lemma finish_payload_forgets now p : keeps forgets (finish_payload now p).
Proof.
  intros s. unfold finish_payload. rewrite bind_gets. cbn [id].
  destruct (project_event now p (rs_simulation s)) as [sim r]. rewrite bind_modify.
  destruct r as [u|e]; [| done]. rewrite (bind_lift _ _ _ u) by done.
  assert (Hr : forall id, forgets (set_simulation sim s) (retire id (set_simulation sim s))).
  { intros id. unfold retire. split; simpl.
    - intros i o Hi. rewrite foldl_delete_lookup in Hi. case_decide; [done |]. revert Hi. unfold release_slot. by repeat case_match.
    - unfold release_slot. by repeat case_match. }
  destruct p; simpl; try done; apply Hr.
Qed.

Lemma commit_transaction_forgets c next m s s' a :
  commit_transaction c next m s = (s', Ok a) ->
  exists t v, m (mkTxn s [] ∅) = (t, Ok v) /\ forgets (tx_run t) s' /\
    ap_accepted a = v.1.1 /\ ap_reject_code a = v.1.2.
Proof.
  unfold commit_transaction. destruct (m (mkTxn s [] ∅)) as [t [[[acc code] oid]|e]]; [| done]. intros Hrun.
  exists t, (acc, code, oid). split; [done |]. unfold finish_transition in Hrun.
  apply bind_Ok_inv in Hrun as (s1 & [] & Hfin & Hrun).
  pose proof (keeps_for_each forgets (finish_payload (cmd_logical_time c)) (tx_payloads t)
    (finish_payload_forgets (cmd_logical_time c)) (tx_run t)) as Hf. rewrite Hfin in Hf.
  rewrite bind_gets in Hrun.
  apply bind_Ok_inv in Hrun as (? & evs & [-> _]%lift_Ok_inv & Hrun). rewrite !bind_modify in Hrun.
  ret_inv Hrun. split; [exact Hf | done].
Qed.

(** Numbering of the committed events. *)
Lemma envelope_numbers c current ps evs :
  envelope c current ps = Ok evs ->
  length evs = length ps /\
  forall n e, evs !! n = Some e -> ev_sequence e = current + Z.of_nat n + 1 /\ ps !! n = Some (ev_payload e).
Proof.
  unfold envelope. 
  enough (Hgen : forall k evs, collect_results (fun '(index, payload) =>
    offset ← ok_or (checked U64 (Z.of_nat index + 1)) EngineError.SequenceOverflow;
    sequence ← ok_or (checked_add U64 current offset) EngineError.SequenceOverflow;
    Ok (mkEventEnvelope EVENT_SCHEMA_VERSION (cmd_run_id c) sequence sequence
          (cmd_logical_time c) (cmd_actor c) (cmd_command_id c)
          (cmd_correlation_id c) None payload)) (imap (fun i x => ((i + k)%nat, x)) ps) = Ok evs ->
    length evs = length ps /\
    forall n e, evs !! n = Some e -> ev_sequence e = current + Z.of_nat (n + k) + 1 /\ ps !! n = Some (ev_payload e)).
  { intros H. specialize (Hgen 0%nat evs).
    rewrite (imap_ext _ pair ps) in Hgen by (intros i x _; by rewrite Nat.add_0_r).
    destruct (Hgen H) as [Hl Hn]. split; [done |]. intros n e He. rewrite <- (Nat.add_0_r n) at 1. auto. }
  clear evs. induction ps as [|p ps IH]; intros k evs H; simpl in H; [by injection H as <- |].
  apply result_bind_Ok in H as (ev & Hev & H). apply result_bind_Ok in H as (evs' & Hevs & [= <-]).
  apply result_bind_Ok in Hev as (off & Hoff%ok_or_Ok & Hev). apply checked_Some in Hoff as [-> _].
  apply result_bind_Ok in Hev as (sq & Hsq%ok_or_Ok & [= <-]). apply checked_Some in Hsq as [-> _].
  specialize (IH (S k) evs'). erewrite imap_ext in IH; [destruct (IH Hevs) as [Hl Hn] |].
  2: { intros i x _. simpl. f_equal. lia. }
  split; [simpl; lia |]. intros [|n] e He; simpl in He.
  - injection He as <-. simpl. split; [lia | done].
  - apply Hn in He as [-> Hp]. simpl. split; [lia | done].
Qed.

Lemma apply_input_numbers i s s' a :
  apply_input i s = (s', Ok a) ->
  (forall n e, ap_events a !! n = Some e -> ev_sequence e = rs_event_sequence s + Z.of_nat n + 1) /\
  rs_event_sequence s' = rs_event_sequence s + Z.of_nat (length (ap_events a)).
Proof.
  intros Ha. apply apply_input_Ok in Ha as (_ & _ & _ & Ha).
  assert (exists c next m, keeps same_frame m /\ commit_transaction c next m s = (s', Ok a)) as (c & next & m & Hk & Hrun).
  { destruct i as [c|r]; [destruct Ha as (key & _ & _ & Ha) | destruct Ha as [_ Ha]];
      (do 3 eexists; split; [| exact Ha]; framed). }
  unfold commit_transaction in Hrun. specialize (Hk (mkTxn s [] ∅)).
  destruct (m (mkTxn s [] ∅)) as [t [[[acc code] oid]|e]]; [| done].
  unfold finish_transition in Hrun. apply bind_Ok_inv in Hrun as (s1 & [] & Hfin & Hrun).
  pose proof (keeps_for_each keeps_identity (finish_payload (cmd_logical_time c)) (tx_payloads t)
    (keeps_finish_payload (cmd_logical_time c)) (tx_run t)) as Hf. rewrite Hfin in Hf.
  unfold same, keeps_identity, frame in *. simpl in Hf, Hk.
  assert (Es : rs_event_sequence s1 = rs_event_sequence s) by congruence. clear Hf Hk.
  rewrite bind_gets in Hrun. cbn [id] in Hrun.
  apply bind_Ok_inv in Hrun as (? & evs & [-> Hev]%lift_Ok_inv & Hrun). rewrite !bind_modify in Hrun.
  ret_inv Hrun. simpl. rewrite Es in *. apply envelope_numbers in Hev as [_ Hn].
  split; [intros n e He; by apply Hn in He as [? _] |].
  destruct (last evs) as [e|] eqn:Hl.
  - rewrite last_lookup in Hl. apply Hn in Hl as Hle. destruct Hle as [-> _]. apply lookup_lt_Some in Hl. lia.
  - apply last_None in Hl as ->. simpl. lia.
Qed.

(** ** Immediate orders *)

(** An order that is not live rests nowhere. *)
Lemma not_live_not_resting s P fresh k ls id o :
  engine_ok P idle fresh s -> rs_ownership s !! id = Some o -> oo_state o <> Active ->
  rs_listings s !! k = Some ls -> bk_orders (ls_book ls) !! id = None.
Proof.
  intros HE Ho Hna Hls. apply eq_None_not_Some. intros Hin.
  pose proof (bs_book _ _ _ (eo_books _ _ _ _ HE) _ _ Hls) as Hb.
  destruct (proj1 (side_remaining_contains (ls_book ls) id Hb)) as (sd & Hpos).
  { unfold book_contains. by apply bool_decide_eq_true. }
  destruct (resting_owned _ _ _ _ _ _ _ (eo_books _ _ _ _ HE) Hls Hpos) as (x & Hx & _ & _ & Heq).
  rewrite Ho in Hx. injection Hx as <-. apply Hna, (ow_active _ _ (eo_orders _ _ _ _ HE _ _ Ho)).
  unfold idle in Heq. lia.
Qed.

(** What the remainder of an immediate order does. *)
Lemma remainder_immediate_run order key a rem t t' u :
  immediate (order_terms (so_kind order)) = true -> submit_remainder order key a rem t = (t', Ok u) ->
  (rem = 0 /\ t' = mkTxn (tx_run t) (tx_payloads t ++ [OrderCompleted (so_order_id order)]) (tx_changed t)) \/
  (rem <> 0 /\ exists l owned reason, rs_ownership (tx_run t) !! so_order_id order = Some owned /\
    t' = mkTxn (set_ownership (<[so_order_id order := set_order_state OwnedOrderState.Canceled 0 owned]>
                                 (rs_ownership (tx_run t))) (set_ledger l (tx_run t)))
           (tx_payloads t ++ [OrderCanceled (so_order_id order) (so_participant_id order)
              (so_instrument_id order) (Some key) rem reason]) (tx_changed t) /\
    (ot_limit (order_terms (so_kind order)) <> None -> reason = CancelReason.Expired)).
Proof.
  intros Him Hrun. unfold submit_remainder in Hrun. destruct (Z.eqb_spec rem 0) as [->|Hne].
  { left. unfold push, modify in Hrun. by injection Hrun as <- _. }
  right. split; [done |]. rewrite Him in Hrun.
  destruct (ot_limit (order_terms (so_kind order))) as [price|];
    apply bind_Ok_inv in Hrun as (t1 & [] & (l & _ & ->)%on_run_ledger_Ok & Hrun);
    rewrite bind_read in Hrun; cbn [id tx_run] in Hrun;
    apply bind_Ok_inv in Hrun as (? & owned & [-> Ho%ok_or_Ok]%lift_Ok_inv & Hrun);
    rewrite bind_update_run in Hrun; unfold push, modify in Hrun; injection Hrun as <- _;
    exists l, owned; eexists; (split_and!; [exact Ho | reflexivity |]); done.
Qed.

Lemma remainder_immediate order key a rem t t' u o :
  immediate (order_terms (so_kind order)) = true -> executed (so_order_id order) o rem t ->
  submit_remainder order key a rem t = (t', Ok u) ->
  exists o', rs_ownership (tx_run t') !! so_order_id order = Some o' /\ oo_state o' <> Active.
Proof.
  intros Him [[HE _ _ _] (o' & Ho' & _ & Hr) _] Hrun.
  apply remainder_immediate_run in Hrun as [[-> ->]|(_ & l & owned & reason & Ho & -> & _)]; [| | done].
  - exists o'. split; [done |]. intros Ha%(ow_active _ _ (eo_orders _ _ _ _ HE _ _ Ho')). lia.
  - eexists. split; [apply lookup_insert_eq | done].
Qed.

(** A fill-or-kill order executes only when it fills. *)
Lemma fill_or_kill_stages order key t t' call a t1 t2 rem :
  tx_payloads t = [] -> order_typed order ->
  ot_time_in_force (order_terms (so_kind order)) = Fok ->
  submitted order key t t' call a t1 t2 rem ->
  (OrderCompleted (so_order_id order) ∈ tx_payloads t' /\
   exists o, rs_ownership (tx_run t') !! so_order_id order = Some o /\ oo_remaining_quantity o = 0) \/
  (rs_listings (tx_run t') = rs_listings (tx_run t) /\
   tx_payloads t' = [OrderAccepted (so_order_id order);
     OrderCanceled (so_order_id order) (so_participant_id order) (so_instrument_id order) (Some key)
       (so_quantity order) CancelReason.Expired]).
Proof.
  intros Hp0 Hot Htif [Hopen Hex Hrem Ht1 Hl1 Hexd].
  assert (Him : immediate (order_terms (so_kind order)) = true) by (unfold immediate; by rewrite Htif).
  assert (Hlim : ot_limit (order_terms (so_kind order)) <> None).
  { destruct (so_kind order); simpl in *; done. }
  assert (Hpay : tx_payloads t1 = [OrderAccepted (so_order_id order)]).
  { unfold submit_open in Hopen. apply bind_Ok_inv in Hopen as (x & [] & (l & _ & ->)%on_run_ledger_Ok & Hopen).
    rewrite !bind_update_run, bind_read in Hopen.
    apply bind_Ok_inv in Hopen as (? & n & [-> _]%lift_Ok_inv & Hopen). rewrite bind_update_run in Hopen.
    unfold push, modify in Hopen. injection Hopen as <-. simpl. by rewrite Hp0. }
  assert (Hcase : rem = 0 \/ (t2 = t1 /\ rem = so_quantity order)).
  { unfold submit_execute in Hex. rewrite bind_read in Hex. cbn [id] in Hex.
    apply bind_Ok_inv in Hex as (? & ls & [-> Hls%ok_or_Ok]%lift_Ok_inv & Hex).
    rewrite Htif in Hex. destruct (_ && _) eqn:Hg in Hex; [| ret_inv Hex; by right].
    apply andb_true_iff in Hg as [_ Hg]. rewrite bool_decide_true in Hg by done. simpl in Hg. apply Z.leb_le in Hg.
    apply bind_Ok_inv in Hex as (t3 & [ms r] & (ls' & b & Hls' & Hrun & ->)%on_book_Ok & Hex).
    rewrite Hls in Hls'. injection Hls' as <-. apply bind_Ok_inv in Hex as (t4 & [] & _ & Hex). ret_inv Hex.
    left. eapply execute_full; [| | exact Hrun | exact Hg].
    - apply (bs_book _ _ _ (eo_books _ _ _ _ (tk_run _ _ _ _ Ht1)) _ _ Hls).
    - apply Hot. }
  apply remainder_immediate_run in Hrem as [[-> ->]|(Hne & l & owned & reason & Ho & -> & Hreason)]; [| | done].
  - left. split; [simpl; set_solver |]. destruct Hexd as [_ (o' & Ho' & _ & Hr) _]. eauto.
  - right. destruct Hcase as [->|[-> ->]]; [done |]. simpl. split; [done |]. rewrite Hpay, Hreason by done. done.
Qed.

(** ** The sample run

    Two participants trade instrument 10 at one venue: participant 1 rests
    a sell order, participant 2 lifts part of it and rests a bid. *)
Module SampleRun.
#[export] Program Instance checksum : Sha256 := {|
  sha256 := fun b => replicate 32 (foldr Z.add 0 b mod 256)
|}.
Next Obligation. done. Qed.
Next Obligation.
  intros b. apply Forall_forall. intros x (-> & _)%elem_of_replicate. apply Z.mod_pos_bound. lia.
Qed.
#[export] Instance scenario_codec : ScenarioCodec := {| json_scenario := fun s => Some [sd_scenario_id s mod 256] |}.
#[export] Instance run_codec : RunCodec := {| json_run := fun s => Some [rs_sequence s mod 256] |}.

Definition key : ListingKey := mkListingKey 1 10.
Definition limits : RiskLimits := mkRiskLimits 1000 1000 1000 true 10.
Definition participant (id : Z) : ParticipantDefinition :=
  mkParticipantDefinition id true limits {[ 1 := 100000 ]} {[ 10 := 100 ]}.
Definition scenario : ScenarioDefinition :=
  mkScenarioDefinition SCENARIO_SCHEMA_VERSION 5 1 1 []
    {[ 10 := mkInstrumentDefinition 10 "ABC" 1 InstrumentKind.Equity 1 false (Some 50) 0 "" "" ]}
    {[ key := mkListingDefinition key "ABC" (mkPriceBounds 1 1000) (mkFeeSchedule 2 1) false true 1 ]}
    {[ 1 := participant 1; 2 := participant 2 ]} SimulationScenario_default None.

Definition sell : SubmitOrder := mkSubmitOrder 100 10 1 Sell 10 (Limit 50) false.
Definition buy : SubmitOrder := mkSubmitOrder 200 10 2 Buy 4 (Limit 50) false.
Definition bid : SubmitOrder := mkSubmitOrder 201 10 2 Buy 3 (LimitWithPolicy 40 (Gtd 90) false None) false.
Definition submit_at (n time : Z) (order : SubmitOrder) : JournalInput :=
  InputCommand (mkCommand 7 n n time (n - 1) (so_participant_id order) (PSubmitOrder order)).

Definition is_ok {E A} (r : result E A) : bool := match r with Ok _ => true | Err _ => false end.
Definition empty_run : RunState :=
  mkRunState 0 0 0 0 0 0 [] EngineConfig_default 0 [] ∅ ∅ ∅ Ledger_new ∅ [] ∅ ∅ ∅
    SimulationState_default None ∅ ∅ ∅.
Definition genesis : RunState :=
  match from_scenario 7 1 scenario with Ok s => s | Err _ => empty_run end.
Definition after_sell : RunState := fst (apply_input (submit_at 1 10 sell) genesis).
Definition after_buy : RunState := fst (apply_input (submit_at 2 20 buy) after_sell).
Definition after_bid : RunState := fst (apply_input (submit_at 3 30 bid) after_buy).
End SampleRun.

Section sample_facts.
Import SampleRun.

Lemma sample_typed : scenario_typed scenario.
Proof.
  split; simpl.
  - apply map_Forall_singleton. split; [ranges; simpl; lia |]. intros m [= <-]. ranges. lia.
  - assert (Hp : forall id, map_Forall (fun _ q => is_i64 q) (pd_initial_positions (participant id))).
    { intros id. apply map_Forall_singleton. ranges. lia. }
    apply map_Forall_insert_2; [apply Hp |]. apply map_Forall_singleton. apply Hp.
  - apply map_Forall_singleton. simpl. lia.
Qed.
Lemma sample_genesis : from_scenario 7 1 scenario = Ok genesis.
Proof.
  assert (H : is_ok (from_scenario 7 1 scenario) = true) by (vm_compute; reflexivity).
  unfold genesis. by destruct (from_scenario 7 1 scenario).
Qed.
Lemma sample_step i s :
  reachable 7 1 scenario s -> input_typed i -> is_ok (snd (apply_input i s)) = true ->
  reachable 7 1 scenario (fst (apply_input i s)).
Proof.
  intros Hs Hi Hok. destruct (apply_input i s) as [s' [a|e]] eqn:Ha; [| done]. by eapply reach_step.
Qed.
Lemma sample_order_typed order n time :
  0 <= so_quantity order <= 100 ->
  match so_kind order with Limit p | LimitWithPolicy p _ _ _ => 0 <= p <= 100 | Market => True end ->
  input_typed (submit_at n time order).
Proof. intros Hq Hp. split; [ranges; lia |]. destruct (so_kind order); ranges; lia || done. Qed.
Lemma sample_reachable : reachable 7 1 scenario after_bid.
Proof.
  apply sample_step; [| apply sample_order_typed; simpl; lia | vm_compute; reflexivity].
  apply sample_step; [| apply sample_order_typed; simpl; lia | vm_compute; reflexivity].
  apply sample_step; [| apply sample_order_typed; simpl; lia | vm_compute; reflexivity].
  apply reach_start, sample_genesis.
Qed.
End sample_facts.

(** ** Reachable runs *)

Section theorems.
Context `{Sha256} `{ScenarioCodec} `{RunCodec} (run_id iteration : Z) (sc : ScenarioDefinition).

(** C1: a snapshot of a reachable run always verifies. Every run a scenario
    and a sequence of committed inputs lead to passes [RunState::validate]:
    the number of resting orders, the live orders of each participant, the
    window of retired identities, the expiry index, the ownership table and
    the books all agree, within their bounds. So [EngineSnapshotEnvelope]
    never refuses a snapshot the engine itself produced. *)
Theorem reachable_snapshot_verifies s e :
  scenario_typed sc -> reachable run_id iteration sc s -> snapshot_new s = Ok e ->
  snapshot_verify e = Ok tt.
Proof.
  intros Hty Hs He. destruct (reachable_ok run_id iteration sc s Hty Hs) as (Hr & Hst & _).
  unfold snapshot_new in He. apply result_bind_Ok in He as (h & Hh & [= <-]).
  unfold snapshot_verify. simpl. rewrite (run_validates s Hr Hst), Hh. simpl.
  by rewrite bool_decide_true.
Qed.

(** C2: the ledger holds exactly what the live orders need. In every
    reachable run, for every participant, the open buy and sell quantities,
    the reserved inventory and the reserved cash of the ledger are the sums,
    over the participant's orders, of what their remaining lots weigh: no
    reservation leaks when orders fill, expire or are canceled, and none is
    released twice. *)
Theorem reachable_ledger_holds_live_orders s p k :
  scenario_typed sc -> reachable run_id iteration sc s ->
  held (rs_ledger s) p k = owed (lg_terms (rs_ledger s)) (rs_ownership s) p k.
Proof.
  intros Hty Hs. destruct (reachable_ok run_id iteration sc s Hty Hs) as (Hr & _ & _).
  apply (cl_held _ _ (eo_claims _ _ _ _ (ro_engine _ Hr))).
Qed.

(** C3: the books show exactly the live orders. In every reachable run an
    order rests in the book of a listing, with a side and an unfilled
    quantity, precisely when the ownership table has a live order of that
    listing, side and remaining quantity. *)
Theorem reachable_books_show_live_orders s k ls id side remaining :
  scenario_typed sc -> reachable run_id iteration sc s -> rs_listings s !! k = Some ls ->
  (exists bo, bk_orders (ls_book ls) !! id = Some bo /\ bo_side bo = side /\ bo_remaining bo = remaining) <->
  (exists o, rs_ownership s !! id = Some o /\ oo_listing_key o = k /\ oo_state o = Active /\
     oo_side o = side /\ oo_remaining_quantity o = remaining).
Proof.
  intros Hty Hs Hls. destruct (reachable_ok run_id iteration sc s Hty Hs) as (Hr & _ & _).
  pose proof (ro_engine _ Hr) as HE. pose proof (bs_book _ _ _ (eo_books _ _ _ _ HE) _ _ Hls) as Hb.
  assert (Hrest : forall o, rs_ownership s !! id = Some o -> oo_listing_key o = k ->
    side_remaining (ls_book ls) (oo_side o) id = oo_remaining_quantity o).
  { intros o Ho <-. rewrite (owned_resting _ _ _ _ _ _ (eo_books _ _ _ _ HE) Ho Hls). unfold idle. lia. }
  split.
  - intros (bo & Hbo & <- & <-). pose proof (side_remaining_order _ _ _ Hbo) as Hsr.
    pose proof (ok_remaining _ _ _ (bk_order_ok _ Hb _ _ Hbo)) as Hpos.
    destruct (resting_owned _ _ _ k ls (bo_side bo) id (eo_books _ _ _ _ HE) Hls) as (o & Ho & Hk & Hsd & Heq);
      [lia |].
    exists o. unfold idle in Heq. split_and!; try done; [| lia].
    apply (ow_active _ _ (eo_orders _ _ _ _ HE _ _ Ho)). lia.
  - intros (o & Ho & Hk & Ha & <- & <-). specialize (Hrest o Ho Hk).
    apply (ow_active _ _ (eo_orders _ _ _ _ HE _ _ Ho)) in Ha.
    destruct (proj1 (side_remaining_pos (ls_book ls) (oo_side o) id Hb)) as (bo & Hbo & Hsd & Hr'); [lia |].
    exists bo. split_and!; [done | done | lia].
Qed.

(** an activated kill switch leaves no live order. When the command
    commits on a reachable run, the actor is switched off, none of its
    orders is live at any listing and its live count is gone from the
    table. *)
Theorem kill_switch_leaves_no_live_order c s s' a :
  scenario_typed sc -> reachable run_id iteration sc s -> cmd_payload c = ActivateKillSwitch ->
  apply_input (InputCommand c) s = (s', Ok a) ->
  ap_accepted a = true /\ cmd_actor c ∈ rs_kill_switched s' /\
  (forall id o, rs_ownership s' !! id = Some o -> oo_participant_id o = cmd_actor c -> oo_state o <> Active) /\
  rs_live_orders s' !! cmd_actor c = None.
Proof.
  intros Hty Hs Hp Ha. destruct (reachable_ok run_id iteration sc s Hty Hs) as (Hr & _ & _).
  assert (Hr' : run_ok s') by (eapply (apply_input_ok (InputCommand c)); [exact Hr | unfold input_typed, payload_typed; by rewrite Hp | exact Ha]).
  apply apply_input_Ok in Ha as (_ & _ & _ & key & _ & _ & Hrun).
  apply commit_transaction_forgets in Hrun as (t & v & Hm & [Hf Hk] & Hacc & _).
  apply bind_Ok_inv in Hm as (t1 & [] & Hx1%catch_up_ok & Hm); [| by apply settled_start].
  unfold apply_payload in Hm. rewrite Hp in Hm.
  apply bind_Ok_inv in Hm as (t2 & [] & Hx2 & Hm). ret_inv Hm.
  destruct (activate_kill_switch_run (cmd_actor c) t1 Hx1) as (t3 & Hx3 & _ & Hin & Hno).
  rewrite Hx2 in Hx3. injection Hx3 as <-.
  assert (Hnone : forall id o, rs_ownership s' !! id = Some o -> oo_participant_id o = cmd_actor c -> oo_state o <> Active).
  { intros id o Ho%Hf. by apply (Hno id). }
  split_and!; [done | by rewrite Hk | done |].
  rewrite (lv_count _ _ _ _ (eo_live _ _ _ _ (ro_engine _ Hr'))).
  assert (live_count ∅ (rs_ownership s') (cmd_actor c) = 0) as ->; [| done].
  apply map_sum_zero. intros id o Ho. rewrite bool_decide_false; [done |].
  intros [Hpo [Hact|Hin']]; [by eapply Hnone | set_solver].
Qed.


(** after the clock of a reachable run has caught up with a logical
    time, nothing at or before that time is left: no scheduled action, no
    session boundary of any venue and no order expiry. In particular the
    boundary loop runs to its end: it never stops early. *)
Theorem catch_up_leaves_nothing_due s to sweep t :
  scenario_typed sc -> reachable run_id iteration sc s -> catch_up to sweep (mkTxn s [] ∅) = (t, Ok tt) ->
  has_due_actions (rs_simulation (tx_run t)) to = false /\
  (forall venue step b, next_boundary (tx_run t) = Some (venue, step, b) -> to < bd_at b) /\
  (forall at_ id, (at_, id) ∈ rs_expiries (tx_run t) -> to < at_).
Proof.
  intros Hty Hs Hrun. destruct (reachable_ok run_id iteration sc s Hty Hs) as (Hr & _ & Hst).
  by destruct (catch_up_drained to sweep _ t tt (settled_start s Hr) Hst Hrun) as (_ & ? & ? & ?).
Qed.

(** the committed events of an input are numbered without gaps. The
    n-th event of a committed input carries the sequence number that follows
    the run's event sequence by n + 1, and the run's event sequence advances
    by exactly the number of events. *)
Theorem committed_events_are_contiguous i s s' a :
  apply_input i s = (s', Ok a) ->
  (forall n e, ap_events a !! n = Some e -> ev_sequence e = rs_event_sequence s + Z.of_nat n + 1) /\
  rs_event_sequence s' = rs_event_sequence s + Z.of_nat (length (ap_events a)).
Proof. apply apply_input_numbers. Qed.

(** an immediate order never rests. A market, immediate-or-cancel or
    fill-or-kill order that a reachable run accepts is no longer live when
    its submission returns, and rests in no book. *)
Theorem immediate_order_never_rests s order key now t :
  scenario_typed sc -> reachable run_id iteration sc s -> order_typed order ->
  so_instrument_id order = lk_instrument_id key -> immediate (order_terms (so_kind order)) = true ->
  submit order key now (mkTxn s [] ∅) = (t, Ok (Ok tt)) ->
  (exists o, rs_ownership (tx_run t) !! so_order_id order = Some o /\ oo_state o <> Active) /\
  forall k ls, rs_listings (tx_run t) !! k = Some ls -> bk_orders (ls_book ls) !! so_order_id order = None.
Proof.
  intros Hty Hs Hot Hin Him Hrun. destruct (reachable_ok run_id iteration sc s Hty Hs) as (Hr & _ & _).
  pose proof (settled_start s Hr) as Ht0.
  apply submit_ok in Hrun as Ht; [| done | apply Hr | done | done].
  apply submit_stages in Hrun as (call & a & t1 & t2 & rem & [_ _ Hrem _ _ Hexec]); [| done | apply Hr | done | done].
  assert (Hdone : exists o, rs_ownership (tx_run t) !! so_order_id order = Some o /\ oo_state o <> Active).
  { eapply remainder_immediate; eauto. }
  split; [done |]. destruct Hdone as (o & Ho & Hna). intros k ls Hls.
  exact (not_live_not_resting _ _ _ _ _ _ _ (tk_run _ _ _ _ Ht) Ho Hna Hls).
Qed.

(** C8: fill or kill is all or nothing. A fill-or-kill order that a
    reachable run accepts either completes, with nothing remaining, or is
    canceled with its full quantity while every book stays as it was and no
    trade is reported. *)
Theorem fill_or_kill_is_all_or_nothing s order key now t :
  scenario_typed sc -> reachable run_id iteration sc s -> order_typed order ->
  so_instrument_id order = lk_instrument_id key -> ot_time_in_force (order_terms (so_kind order)) = Fok ->
  submit order key now (mkTxn s [] ∅) = (t, Ok (Ok tt)) ->
  (OrderCompleted (so_order_id order) ∈ tx_payloads t /\
   exists o, rs_ownership (tx_run t) !! so_order_id order = Some o /\ oo_remaining_quantity o = 0) \/
  (rs_listings (tx_run t) = rs_listings s /\
   tx_payloads t = [OrderAccepted (so_order_id order);
     OrderCanceled (so_order_id order) (so_participant_id order) (so_instrument_id order) (Some key)
       (so_quantity order) CancelReason.Expired]).
Proof.
  intros Hty Hs Hot Hin Htif Hrun. destruct (reachable_ok run_id iteration sc s Hty Hs) as (Hr & _ & _).
  apply submit_stages in Hrun as (call & a & t1 & t2 & rem & Hst); [| by apply settled_start | apply Hr | done | done].
  exact (fill_or_kill_stages order key (mkTxn s [] ∅) t call a t1 t2 rem eq_refl Hot Htif Hst).
Qed.

End theorems.

(** ** Witnesses on the sample run *)

Section witnesses.
Import SampleRun.
Import (hints) SampleRun.

Definition sample_snapshot : EngineSnapshotEnvelope :=
  match snapshot_new after_bid with
  | Ok e => e
  | Err _ => mkEngineSnapshotEnvelope 0 [] empty_run
  end.
Lemma reachable_snapshot_verifies_witness : snapshot_verify sample_snapshot = Ok tt.
Proof.
  apply (reachable_snapshot_verifies 7 1 scenario after_bid);
    [exact sample_typed | exact sample_reachable | vm_compute; reflexivity].
Defined.

Lemma reachable_ledger_holds_live_orders_witness :
  held (rs_ledger after_bid) 2 (CashOf 1) =
  owed (lg_terms (rs_ledger after_bid)) (rs_ownership after_bid) 2 (CashOf 1).
Proof.
  apply (reachable_ledger_holds_live_orders 7 1 scenario); [exact sample_typed | exact sample_reachable].
Defined.
(** The value both sides have: three lots at 40 with the fee bound 2. *)
Example sample_reserved : held (rs_ledger after_bid) 2 (CashOf 1) = 126.
Proof. vm_compute. reflexivity. Qed.

Definition sample_listing : ListingState :=
  default (mkListingState (mkListingDefinition key "" (mkPriceBounds 1 1) (mkFeeSchedule 0 0) false false 1)
    Book_new) (rs_listings after_bid !! key).
Lemma reachable_books_show_live_orders_witness :
  (exists bo, bk_orders (ls_book sample_listing) !! 100 = Some bo /\ bo_side bo = Sell /\ bo_remaining bo = 6) <->
  (exists o, rs_ownership after_bid !! 100 = Some o /\ oo_listing_key o = key /\ oo_state o = Active /\
     oo_side o = Sell /\ oo_remaining_quantity o = 6).
Proof.
  apply (reachable_books_show_live_orders 7 1 scenario);
    [exact sample_typed | exact sample_reachable | vm_compute; reflexivity].
Defined.

Definition kill : Command := mkCommand 7 4 4 40 3 2 ActivateKillSwitch.
Definition after_kill : RunState := fst (apply_input (InputCommand kill) after_bid).
Definition kill_applied : Applied :=
  match snd (apply_input (InputCommand kill) after_bid) with
  | Ok a => a
  | Err _ => mkApplied [] false None None ∅
  end.
Lemma kill_switch_leaves_no_live_order_witness :
  ap_accepted kill_applied = true /\ 2 ∈ rs_kill_switched after_kill /\
  (forall id o, rs_ownership after_kill !! id = Some o -> oo_participant_id o = 2 -> oo_state o <> Active) /\
  rs_live_orders after_kill !! 2 = None.
Proof.
  apply (kill_switch_leaves_no_live_order 7 1 scenario kill after_bid);
    [exact sample_typed | exact sample_reachable | reflexivity | vm_compute; reflexivity].
Defined.


(** The bid expires at 90. *)
Definition caught_up : Txn := fst (catch_up 95 true (mkTxn after_bid [] ∅)).
Lemma catch_up_leaves_nothing_due_witness :
  has_due_actions (rs_simulation (tx_run caught_up)) 95 = false /\
  (forall venue step b, next_boundary (tx_run caught_up) = Some (venue, step, b) -> 95 < bd_at b) /\
  (forall at_ id, (at_, id) ∈ rs_expiries (tx_run caught_up) -> 95 < at_).
Proof.
  apply (catch_up_leaves_nothing_due 7 1 scenario after_bid 95 true);
    [exact sample_typed | exact sample_reachable | vm_compute; reflexivity].
Defined.

Lemma committed_events_are_contiguous_witness :
  (forall n e, ap_events kill_applied !! n = Some e ->
     ev_sequence e = rs_event_sequence after_bid + Z.of_nat n + 1) /\
  rs_event_sequence after_kill = rs_event_sequence after_bid + Z.of_nat (length (ap_events kill_applied)).
Proof.
  apply (committed_events_are_contiguous (InputCommand kill)). vm_compute. reflexivity.
Defined.

Definition market : SubmitOrder := mkSubmitOrder 300 10 2 Buy 8 Market false.
Definition after_market : Txn := fst (submit market key 30 (mkTxn after_bid [] ∅)).
Lemma immediate_order_never_rests_witness :
  (exists o, rs_ownership (tx_run after_market) !! 300 = Some o /\ oo_state o <> Active) /\
  forall k ls, rs_listings (tx_run after_market) !! k = Some ls -> bk_orders (ls_book ls) !! 300 = None.
Proof.
  apply (immediate_order_never_rests 7 1 scenario after_bid market key 30);
    [exact sample_typed | exact sample_reachable | split; [ranges; simpl; lia | exact I]
    | reflexivity | reflexivity | vm_compute; reflexivity].
Defined.

Definition kill_order : SubmitOrder :=
  mkSubmitOrder 301 10 2 Buy 8 (LimitWithPolicy 50 Fok false None) false.
Definition after_fok : Txn := fst (submit kill_order key 30 (mkTxn after_bid [] ∅)).
Lemma fill_or_kill_is_all_or_nothing_witness :
  (OrderCompleted 301 ∈ tx_payloads after_fok /\
   exists o, rs_ownership (tx_run after_fok) !! 301 = Some o /\ oo_remaining_quantity o = 0) \/
  (rs_listings (tx_run after_fok) = rs_listings after_bid /\
   tx_payloads after_fok = [OrderAccepted 301; OrderCanceled 301 2 10 (Some key) 8 CancelReason.Expired]).
Proof.
  apply (fill_or_kill_is_all_or_nothing 7 1 scenario after_bid kill_order key 30);
    [exact sample_typed | exact sample_reachable | split; ranges; simpl; lia
    | reflexivity | reflexivity | vm_compute; reflexivity].
Defined.
End witnesses.
