(* ===== verification/Origin.v ===== *)
(** * origin-store: the authoritative run and its journal

    Models [packages/origin-store/src/lib.rs]: the writer-owned live run,
    idempotent execution, rollback by re-execution, recovery from genesis,
    checkpoint and journal, and the in-memory store.  The engine is used
    through the interface [Engine] (what [RunState::apply] promises its
    caller); SHA-256 and the JSON encoder, which are not part of the
    repository, are the class [Hashing]. *)

From S2P Require Import Prelude Ordered MarketTypes MarketEvents Latency Digest Transition.
From Stdlib Require Import Ascii.

(** ** Data *)

(** Stable persisted command response. *)
Record CommandResult : Type := mkCommandResult {
  cr_accepted : bool;
  cr_reject_code : option string;
  cr_committed_sequence : Z;
  cr_order_id : option Z
}.

Record CommandRecord : Type := mkCommandRecord {
  rc_input : JournalInput;
  rc_fingerprint : list ascii;
  rc_result : CommandResult;
  rc_events : list EventEnvelope;
  rc_chain : list ascii;
  rc_admission : option AdmissionRecord
}.

(** The fields of a record that its chain value covers. *)
Record Chained : Type := mkChained {
  ch_input : JournalInput;
  ch_fingerprint : list ascii;
  ch_result : CommandResult;
  ch_events : list EventEnvelope;
  ch_admission : option AdmissionRecord
}.

(** [Chained::of] *)
Definition Chained_of (r : CommandRecord) : Chained :=
  mkChained (rc_input r) (rc_fingerprint r) (rc_result r) (rc_events r) (rc_admission r).

Record RunLimits : Type := mkRunLimits {
  rl_max_commands : Z;
  rl_max_events : Z;
  rl_checkpoint_interval : Z
}.

(** [RunLimits::default()] *)
Definition RunLimits_default : RunLimits := mkRunLimits 2097152 16777216 8192.

Record Executed : Type := mkExecuted {
  ex_result : CommandResult;
  ex_events : list EventEnvelope;
  ex_duplicate : bool
}.

Record IndexedCommand : Type := mkIndexedCommand {
  ic_fingerprint : Bytes;
  ic_result : CommandResult
}.

Inductive Execution : Type :=
  | Duplicate (result : CommandResult)
  | Committed (record : CommandRecord).

(** ** Decidable equality of journal records *)

#[export] Instance CommandResult_eq_dec : EqDecision CommandResult.
Proof. solve_decision. Defined.
#[export] Instance RttSource_eq_dec : EqDecision RttSource.RttSource.
Proof. solve_decision. Defined.
#[export] Instance AdmissionRecord_eq_dec : EqDecision AdmissionRecord.
Proof. solve_decision. Defined.
#[export] Instance CommandRecord_eq_dec : EqDecision CommandRecord.
Proof. solve_decision. Defined.

(** ** Errors and hexadecimal input *)

Module OriginError.
Inductive OriginError (E : Type) : Type :=
  | UnknownRun
  | VersionConflict (current : Z)
  | IdempotencyConflict
  | InvalidCommit
  | Unavailable
  | CapacityExceeded
  | Engine (e : E).
Arguments UnknownRun {E}.
Arguments VersionConflict {E}.
Arguments IdempotencyConflict {E}.
Arguments InvalidCommit {E}.
Arguments Unavailable {E}.
Arguments CapacityExceeded {E}.
Arguments Engine {E}.
End OriginError.
Export OriginError (OriginError).

(** The closure [digit] of [parse_hex]. *)
Definition parse_digit {E} (c : ascii) : result (OriginError E) Z :=
  let byte := Z.of_N (N_of_ascii c) in
  if (48 <=? byte) && (byte <=? 57) then Ok (byte - 48)
  else if (97 <=? byte) && (byte <=? 102) then Ok (byte - 97 + 10)
  else Err OriginError.InvalidCommit.

Fixpoint parse_pairs {E} (value : list ascii) : result (OriginError E) Bytes :=
  match value with
  | high :: low :: value =>
      h ← parse_digit high;
      l ← parse_digit low;
      rest ← parse_pairs value;
      Ok (Z.lor (Z.shiftl h 4) l :: rest)
  | _ => Ok []
  end.

(** [fn parse_hex] *)
Definition parse_hex {E} (value : list ascii) : result (OriginError E) Bytes :=
  if negb (length value =? 64)%nat then Err OriginError.InvalidCommit else parse_pairs value.

(** ** Interfaces *)

(** [serde_json::to_vec] on the values the journal hashes.  A command can be
    refused by the encoder; the chained fields of a record that has been
    built from an encoded command are always encodable. *)
Class JournalCodec := {
  json_command : Command -> option Bytes;
  json_simulation : SimulationCommandRequest -> option Bytes;
  json_chained : Chained -> option Bytes;
  json_chained_total : forall c, is_Some (json_chained c)
}.

Section live_run.
Context {RunState EngineError : Type} `{Engine RunState EngineError} `{Sha256} `{JournalCodec}.
#[local] Notation Error := (OriginError EngineError).

(** [JournalInput::fingerprint_bytes], through [digest_json] *)
Definition fingerprint_bytes (i : JournalInput) : result Error Bytes :=
  json ← ok_or (match i with
                | InputCommand c => json_command c
                | InputSimulation r => json_simulation r
                end) OriginError.InvalidCommit;
  Ok (sha256 json).

(** [GENESIS_DOMAIN]: ["bunting.journal.v3.genesis\0"] *)
Definition GENESIS_DOMAIN : Bytes :=
  [98;117;110;116;105;110;103;46;106;111;117;114;110;97;108;46;118;51;46;
   103;101;110;101;115;105;115;0].

(** [fn genesis_chain] *)
Definition genesis_chain (s : RunState) : result Error Bytes :=
  h ← ok_or (state_hash s) OriginError.InvalidCommit;
  Ok (sha256 (GENESIS_DOMAIN ++ h)).

(** [fn next_chain] *)
Definition next_chain (previous : Bytes) (record : Chained) : result Error Bytes :=
  json ← ok_or (json_chained record) OriginError.InvalidCommit;
  Ok (sha256 (previous ++ json)).

(** ** The live run *)

Record LiveRun : Type := mkLiveRun {
  lr_state : RunState;
  lr_chain : Bytes;
  lr_base : RunState;
  lr_base_chain : Bytes;
  lr_tail : list JournalInput;
  lr_index : gmap Z IndexedCommand;
  lr_limits : RunLimits;
  lr_poisoned : bool
}.

Definition with_state (s : RunState) (l : LiveRun) : LiveRun :=
  mkLiveRun s (lr_chain l) (lr_base l) (lr_base_chain l) (lr_tail l) (lr_index l) (lr_limits l)
    (lr_poisoned l).
Definition with_poisoned (l : LiveRun) : LiveRun :=
  mkLiveRun (lr_state l) (lr_chain l) (lr_base l) (lr_base_chain l) (lr_tail l) (lr_index l)
    (lr_limits l) true.
Definition with_index (ix : gmap Z IndexedCommand) (l : LiveRun) : LiveRun :=
  mkLiveRun (lr_state l) (lr_chain l) (lr_base l) (lr_base_chain l) (lr_tail l) ix (lr_limits l)
    (lr_poisoned l).
Definition with_tail (t : list JournalInput) (l : LiveRun) : LiveRun :=
  mkLiveRun (lr_state l) (lr_chain l) (lr_base l) (lr_base_chain l) t (lr_index l) (lr_limits l)
    (lr_poisoned l).
Definition with_chain (c : Bytes) (l : LiveRun) : LiveRun :=
  mkLiveRun (lr_state l) c (lr_base l) (lr_base_chain l) (lr_tail l) (lr_index l) (lr_limits l)
    (lr_poisoned l).
Definition with_base (s : RunState) (c : Bytes) (l : LiveRun) : LiveRun :=
  mkLiveRun (lr_state l) (lr_chain l) s c (lr_tail l) (lr_index l) (lr_limits l) (lr_poisoned l).

(** [LiveRun::genesis] *)
Definition LiveRun_genesis (s : RunState) (limits : RunLimits) : result Error LiveRun :=
  chain ← genesis_chain s;
  Ok (mkLiveRun s chain s chain [] ∅ limits false).

(** [LiveRun::state], [checkpoint_state], [command_count] and [find] *)
Definition live_state (l : LiveRun) : result Error RunState :=
  if lr_poisoned l then Err OriginError.Unavailable else Ok (lr_state l).
Definition checkpoint_state (l : LiveRun) : RunState * list ascii :=
  (lr_base l, hex (lr_base_chain l)).
Definition command_count (l : LiveRun) : nat := size (lr_index l).
Definition find (l : LiveRun) (command_id : Z) : option (list ascii * CommandResult) :=
  (fun e => (hex (ic_fingerprint e), ic_result e)) <$> lr_index l !! command_id.

(** Re-executing a list of inputs; [None] as soon as one fails. *)
Fixpoint replay_inputs (inputs : list JournalInput) (s : RunState) : option RunState :=
  match inputs with
  | [] => Some s
  | i :: inputs =>
      match apply i s with
      | (s', Ok _) => replay_inputs inputs s'
      | (_, Err _) => None
      end
  end.

(** [LiveRun::rebuild] *)
Definition rebuild : M LiveRun Error unit :=
  l ← gets id;
  match replay_inputs (lr_tail l) (lr_base l) with
  | None => modify with_poisoned;; throw OriginError.Unavailable
  | Some s => modify (with_state s)
  end.

(** [LiveRun::execute_admitted] *)
Definition execute_admitted (input : JournalInput) (admission : option AdmissionRecord)
    : M LiveRun Error Execution :=
  l ← gets id;
  refuse_if (lr_poisoned l) OriginError.Unavailable;;
  refuse_if (negb (input_run_id input =? run_id (lr_state l))) OriginError.UnknownRun;;
  fingerprint ← lift (fingerprint_bytes input);
  match lr_index l !! input_command_id input with
  | Some entry =>
      if bool_decide (ic_fingerprint entry = fingerprint)
      then mret (Duplicate (ic_result entry))
      else throw OriginError.IdempotencyConflict
  | None =>
      refuse_if (negb (sequence (lr_state l) =? input_expected_sequence input))
        (OriginError.VersionConflict (sequence (lr_state l)));;
      refuse_if (rl_max_commands (lr_limits l) <=? Z.of_nat (size (lr_index l)))
        OriginError.CapacityExceeded;;
      let '(state, applied) := apply input (lr_state l) in
      modify (with_state state);;
      match applied with
      | Err (Unchanged error) => throw (OriginError.Engine error)
      | Err (Poisoned error) => rebuild;; throw (OriginError.Engine error)
      | Ok applied =>
          if rl_max_events (lr_limits l) <? event_sequence state
          then rebuild;; throw OriginError.CapacityExceeded
          else
            let result := mkCommandResult (ap_accepted applied) (ap_reject_code applied)
                            (sequence state) (ap_order_id applied) in
            chain ← lift (next_chain (lr_chain l)
              (mkChained input (hex fingerprint) result (ap_events applied) admission));
            modify (fun l => with_index
              (<[input_command_id input := mkIndexedCommand fingerprint result]> (lr_index l)) l);;
            modify (fun l => with_tail (lr_tail l ++ [input]) l);;
            modify (with_chain chain);;
            mret (Committed (mkCommandRecord input (hex fingerprint) result (ap_events applied)
                               (hex chain) admission))
      end
  end.

(** [LiveRun::execute] *)
Definition execute_input (input : JournalInput) : M LiveRun Error Execution :=
  execute_admitted input None.

(** [LiveRun::needs_checkpoint] and [LiveRun::checkpoint] *)
Definition needs_checkpoint (l : LiveRun) : bool :=
  Z.max (rl_checkpoint_interval (lr_limits l)) 1 <=? Z.of_nat (length (lr_tail l)).
Definition checkpoint : M LiveRun Error unit :=
  l ← gets id;
  refuse_if (lr_poisoned l) OriginError.Unavailable;;
  modify (with_base (lr_state l) (lr_chain l));;
  modify (with_tail []).

(** ** Recovery *)

Record RunRecovery : Type := mkRunRecovery {
  rr_live : LiveRun;
  rr_genesis_sequence : Z;
  rr_replayed_through : Z;
  rr_checkpoint_sequence : Z;
  rr_checkpoint_chain : Bytes
}.

Definition with_live (l : LiveRun) (r : RunRecovery) : RunRecovery :=
  mkRunRecovery l (rr_genesis_sequence r) (rr_replayed_through r) (rr_checkpoint_sequence r)
    (rr_checkpoint_chain r).
Definition with_replayed (n : Z) (r : RunRecovery) : RunRecovery :=
  mkRunRecovery (rr_live r) (rr_genesis_sequence r) n (rr_checkpoint_sequence r)
    (rr_checkpoint_chain r).

(** [RunRecovery::check_checkpoint_reached] *)
Definition check_checkpoint_reached (r : RunRecovery) : result Error unit :=
  if (rr_replayed_through r =? rr_checkpoint_sequence r)
     && negb (bool_decide (lr_chain (rr_live r) = rr_checkpoint_chain r))
  then Err OriginError.InvalidCommit else Ok tt.

(** [RunRecovery::new] *)
Definition RunRecovery_new (genesis : RunState) (checkpoint : option (RunState * list ascii))
    (limits : RunLimits) : result Error RunRecovery :=
  let genesis_sequence := sequence genesis in
  live ← LiveRun_genesis genesis limits;
  '(live, checkpoint_sequence, checkpoint_chain) ←
    match checkpoint with
    | None => Ok (live, genesis_sequence, lr_chain live)
    | Some (state, chain) =>
        if negb (run_id state =? run_id (lr_state live))
           || negb (bool_decide (scenario_hash state = scenario_hash (lr_state live)))
           || (sequence state <? genesis_sequence)
        then Err OriginError.InvalidCommit
        else
          chain ← parse_hex chain;
          Ok (with_state state (with_base state chain live), sequence state, chain)
    end;
  let recovery := mkRunRecovery live genesis_sequence genesis_sequence checkpoint_sequence
                    checkpoint_chain in
  _ ← check_checkpoint_reached recovery;
  Ok recovery.

(** [RunRecovery::replay] *)
Definition replay (record : CommandRecord) : M RunRecovery Error unit :=
  r ← gets id;
  let sequence := cr_committed_sequence (rc_result record) in
  next ← lift (ok_or (checked_add U64 (rr_replayed_through r) 1) OriginError.InvalidCommit);
  refuse_if (negb (sequence =? next)
             || negb (input_run_id (rc_input record) =? run_id (lr_state (rr_live r)))
             || negb (input_expected_sequence (rc_input record) =? rr_replayed_through r))
    OriginError.InvalidCommit;;
  if sequence <=? rr_checkpoint_sequence r then
    fingerprint ← lift (fingerprint_bytes (rc_input record));
    chain ← lift (next_chain (lr_chain (rr_live r)) (Chained_of record));
    refuse_if (negb (bool_decide (hex fingerprint = rc_fingerprint record))
               || negb (bool_decide (hex chain = rc_chain record))
               || bool_decide (is_Some (lr_index (rr_live r) !! input_command_id (rc_input record))))
      OriginError.InvalidCommit;;
    modify (fun r => with_live (with_index
      (<[input_command_id (rc_input record) := mkIndexedCommand fingerprint (rc_result record)]>
         (lr_index (rr_live r))) (rr_live r)) r);;
    modify (fun r => with_live (with_chain chain (rr_live r)) r);;
    modify (with_replayed sequence);;
    r ← gets id;
    lift (check_checkpoint_reached r)
  else
    let '(live, produced) := execute_admitted (rc_input record) (rc_admission record) (rr_live r) in
    modify (with_live live);;
    match produced with
    | Ok (Committed produced) =>
        if bool_decide (produced = record) then modify (with_replayed sequence)
        else throw OriginError.InvalidCommit
    | _ => throw OriginError.InvalidCommit
    end.

(** [RunRecovery::finish] *)
Definition finish (r : RunRecovery) : result Error LiveRun :=
  if rr_replayed_through r <? rr_checkpoint_sequence r then Err OriginError.InvalidCommit
  else Ok (rr_live r).

(** Replaying a journal in order, as the host does. *)
Fixpoint replay_all (records : list CommandRecord) : M RunRecovery Error unit :=
  match records with
  | [] => mret tt
  | record :: records => replay record;; replay_all records
  end.

Definition recover (genesis : RunState) (checkpoint : option (RunState * list ascii))
    (limits : RunLimits) (records : list CommandRecord) : result Error LiveRun :=
  r ← RunRecovery_new genesis checkpoint limits;
  match replay_all records r with
  | (r, Ok _) => finish r
  | (_, Err e) => Err e
  end.

(** ** The in-memory store *)

Record InMemoryOrigin : Type := mkInMemoryOrigin {
  mo_runs : gmap Z LiveRun;
  mo_limits : RunLimits
}.

Definition put_run (id : Z) (l : LiveRun) (o : InMemoryOrigin) : InMemoryOrigin :=
  mkInMemoryOrigin (<[id := l]> (mo_runs o)) (mo_limits o).

(** [InMemoryOrigin::insert_run] *)
Definition insert_run `{!EqDecision RunState} (run : RunState) : M InMemoryOrigin Error unit :=
  o ← gets id;
  match mo_runs o !! run_id run with
  | Some existing =>
      s ← lift (live_state existing);
      refuse_if (negb (bool_decide (s = run))) OriginError.InvalidCommit
  | None =>
      live ← lift (LiveRun_genesis run (mo_limits o));
      modify (put_run (run_id run) live)
  end.

(** [OriginStore::execute_admitted for InMemoryOrigin] *)
Definition origin_execute_admitted (input : JournalInput) (admission : option AdmissionRecord)
    : M InMemoryOrigin Error Executed :=
  o ← gets id;
  live ← lift (ok_or (mo_runs o !! input_run_id input) OriginError.UnknownRun);
  let '(live, executed) := execute_admitted input admission live in
  modify (put_run (input_run_id input) live);;
  executed ← lift executed;
  match executed with
  | Duplicate result => mret (mkExecuted result [] true)
  | Committed record =>
      (if needs_checkpoint live then
         let '(live, checked) := checkpoint live in
         modify (put_run (input_run_id input) live);;
         lift checked
       else mret tt);;
      mret (mkExecuted (rc_result record) (rc_events record) false)
  end.

(** [InMemoryOrigin::read_run] and [find_command] *)
Definition read_run {T} (o : InMemoryOrigin) (id : Z) (read : RunState -> T) : result Error T :=
  live ← ok_or (mo_runs o !! id) OriginError.UnknownRun;
  s ← live_state live;
  Ok (read s).
Definition find_command (o : InMemoryOrigin) (id command_id : Z)
    : result Error (option (list ascii * CommandResult)) :=
  live ← ok_or (mo_runs o !! id) OriginError.UnknownRun;
  Ok (find live command_id).

End live_run.

Arguments LiveRun : clear implicits.
Arguments RunRecovery : clear implicits.
Arguments InMemoryOrigin : clear implicits.
