(* ===== verification/OriginTheorems.v ===== *)
(** * origin-store: the properties

    A live run always equals the re-execution of its committed history, a
    refused input commits nothing, execution is idempotent, and recovery
    from genesis, checkpoint and journal rebuilds the same run. *)

From S2P Require Import Prelude Ordered MarketTypes MarketEvents Latency Digest Transition.
From S2P Require Import Origin.
From Stdlib Require Import Ascii.

(** ** Hexadecimal *)

Lemma parse_hex_digit {E} n : 0 <= n < 16 -> parse_digit (E := E) (hex_digit n) = Ok n.
Proof.
  intros Hn. assert (n ∈ seqZ 0 16) as Hin by (apply elem_of_seqZ; lia).
  repeat (apply elem_of_cons in Hin as [->|Hin]; [vm_compute; reflexivity |]).
  by apply elem_of_nil in Hin.
Qed.

Lemma nibbles x : is_byte x -> Z.lor (Z.shiftl (Z.shiftr x 4) 4) (Z.land x 15) = x.
Proof.
  intros Hx. apply Z.bits_inj'. intros n Hn.
  rewrite Z.lor_spec, Z.land_spec, Z.shiftl_spec by done.
  destruct (Z.ltb_spec n 4).
  - rewrite Z.testbit_neg_r by lia. simpl.
    change 15 with (Z.ones 4). rewrite Z.ones_spec_low by lia. by rewrite andb_true_r.
  - rewrite Z.shiftr_spec by lia. change 15 with (Z.ones 4). rewrite Z.ones_spec_high by lia.
    rewrite andb_false_r, orb_false_r. f_equal. lia.
Qed.

Lemma parse_pairs_hex {E} b : Forall is_byte b -> parse_pairs (E := E) (hex b) = Ok b.
Proof.
  induction 1 as [|x b Hx Hb IH]; [done |].
  change (hex (x :: b)) with (hex_digit (Z.shiftr x 4) :: hex_digit (Z.land x 15) :: hex b).
  cbn [parse_pairs]. rewrite (parse_hex_digit (Z.shiftr x 4)).
  2: { rewrite Z.shiftr_div_pow2 by lia. change (2 ^ 4) with 16. unfold is_byte in Hx.
       pose proof (Z.div_lt_upper_bound x 16 16). pose proof (Z.div_pos x 16). lia. }
  rewrite (parse_hex_digit (Z.land x 15)).
  2: { change 15 with (Z.ones 4). rewrite Z.land_ones by lia. apply Z.mod_pos_bound. lia. }
  cbn. rewrite IH. cbn. by rewrite nibbles.
Qed.

Lemma length_hex b : length (hex b) = (2 * length b)%nat.
Proof. induction b as [|x b IH]; [done |]. change (hex (x :: b)) with (hex_digit (Z.shiftr x 4) :: hex_digit (Z.land x 15) :: hex b). simpl in *. lia. Qed.

Lemma parse_hex_hex {E} b : length b = 32%nat -> Forall is_byte b -> parse_hex (E := E) (hex b) = Ok b.
Proof.
  intros Hl Hb. unfold parse_hex. rewrite length_hex, Hl. simpl. by apply parse_pairs_hex.
Qed.

Section origin.
Context {RunState EngineError : Type} `{HE : !Engine RunState EngineError} `{HH : !Sha256} `{HJ : !JournalCodec}.
#[local] Notation Live := (LiveRun RunState).

(** ** Commits *)

(** What a live run has committed: its state, chain value and index. *)
Definition Core : Type := RunState * Bytes * gmap Z IndexedCommand.
Definition core (l : Live) : Core := (lr_state l, lr_chain l, lr_index l).

(** One committed input takes [(s, c, ix)] to the next core and leaves
    record [r]. *)
Record commit (limits : RunLimits) (k : Core) (r : CommandRecord) (k' : Core) : Prop := {
  cm_run : input_run_id (rc_input r) = run_id k.1.1;
  cm_sequence : sequence k.1.1 = input_expected_sequence (rc_input r);
  cm_next : cr_committed_sequence (rc_result r) = sequence k.1.1 + 1;
  cm_fits : sequence k.1.1 + 1 <= int_max U64;
  cm_new : k.2 !! input_command_id (rc_input r) = None;
  cm_room : Z.of_nat (size k.2) < rl_max_commands limits;
  cm_apply : exists a, apply (rc_input r) k.1.1 = (k'.1.1, Ok a) /\
    rc_result r = mkCommandResult (ap_accepted a) (ap_reject_code a) (sequence k'.1.1) (ap_order_id a) /\
    rc_events r = ap_events a;
  cm_events : event_sequence k'.1.1 <= rl_max_events limits;
  cm_fingerprint : exists f, fingerprint_bytes (EngineError := EngineError) (rc_input r) = Ok f /\
    rc_fingerprint r = hex f /\
    k'.2 = <[input_command_id (rc_input r) := mkIndexedCommand f (rc_result r)]> k.2;
  cm_chain : next_chain (EngineError := EngineError) k.1.2 (Chained_of r) = Ok k'.1.2 /\
    rc_chain r = hex k'.1.2
}.

Lemma next_chain_total c x : exists d, next_chain (EngineError := EngineError) c x = Ok d.
Proof.
  unfold next_chain. destruct (json_chained_total x) as [j ->]. cbn. eauto.
Qed.

(** Re-execution of the tail gives the live state. *)
Definition rollback_ok (l : Live) : Prop :=
  lr_poisoned l = false /\ replay_inputs (lr_tail l) (lr_base l) = Some (lr_state l).

Lemma rebuild_run (l : Live) s :
  rollback_ok l -> rebuild (with_state s l) = (l, Ok tt).
Proof.
  intros [Hp Hr]. unfold rebuild. rewrite bind_gets. simpl. rewrite Hr. unfold modify.
  destruct l. simpl in *. done.
Qed.

Lemma replay_inputs_app xs ys s :
  replay_inputs (xs ++ ys) s = replay_inputs xs s ≫= replay_inputs ys.
Proof.
  revert s. induction xs as [|x xs IH]; intros s; [done |]. simpl.
  destruct (apply x s) as [s' [a|e]]; [apply IH | done].
Qed.

(** Every outcome of [execute_admitted]: a refusal and a duplicate leave the
    run as it was, a commit is a [commit]. *)
Lemma execute_admitted_cases input adm (l l' : Live) r :
  rollback_ok l -> execute_admitted input adm l = (l', r) ->
  match r with
  | Err _ => l' = l
  | Ok (Duplicate res) => l' = l /\ exists f e,
      fingerprint_bytes (EngineError := EngineError) input = Ok f /\
      lr_index l !! input_command_id input = Some e /\ ic_fingerprint e = f /\ res = ic_result e
  | Ok (Committed rec) => rc_input rec = input /\ rc_admission rec = adm /\
      commit (lr_limits l) (core l) rec (core l') /\
      lr_base l' = lr_base l /\ lr_base_chain l' = lr_base_chain l /\
      lr_tail l' = lr_tail l ++ [input] /\ lr_limits l' = lr_limits l /\ rollback_ok l'
  end.
Proof.
  intros Hok Hx. pose proof Hok as [Hp Hrb]. unfold execute_admitted in Hx.
  rewrite bind_gets in Hx. cbn [id] in Hx. rewrite Hp, bind_refuse in Hx by done.
  destruct (Z.eqb_spec (input_run_id input) (run_id (lr_state l))) as [Hrun|];
    [| by injection Hx as <- <-].
  rewrite bind_refuse in Hx by done.
  destruct (fingerprint_bytes input) as [f|e] eqn:Hf; [| by injection Hx as <- <-].
  rewrite (bind_lift _ _ _ f) in Hx by done.
  destruct (lr_index l !! input_command_id input) as [entry|] eqn:Hix.
  { case_bool_decide; injection Hx as <- <-; [| done]. split; [done |]. by exists f, entry. }
  destruct (Z.eqb_spec (sequence (lr_state l)) (input_expected_sequence input)) as [Hseq|];
    [| by injection Hx as <- <-].
  rewrite bind_refuse in Hx by done.
  destruct (Z.leb_spec (rl_max_commands (lr_limits l)) (Z.of_nat (size (lr_index l)))) as [|Hroom];
    [by injection Hx as <- <- |].
  rewrite bind_refuse in Hx by done.
  destruct (apply input (lr_state l)) as [s' [a|[e|e]]] eqn:Ha; rewrite bind_modify in Hx.
  - destruct (Z.ltb_spec (rl_max_events (lr_limits l)) (event_sequence s')) as [|Hev].
    { rewrite (bind_run _ _ _ _ _ (rebuild_run l s' Hok)) in Hx. by injection Hx as <- <-. }
    cbv zeta in Hx. set (res := mkCommandResult _ _ _ _) in Hx.
    destruct (next_chain_total (lr_chain l) (mkChained input (hex f) res (ap_events a) adm)) as [d Hd].
    rewrite (bind_lift _ _ _ d) in Hx by done. rewrite !bind_modify in Hx. injection Hx as <- <-.
    destruct (apply_sequence _ _ _ _ Ha) as (_ & Hs1 & Hs2).
    cbn. split_and!; try done.
    + split; cbn; try done; try lia; [by exists a | by exists f].
    + split; [done |]. cbn. rewrite replay_inputs_app, Hrb. cbn. by rewrite Ha.
  - injection Hx as <- <-. rewrite (apply_unchanged _ _ _ _ Ha). by destruct l.
  - rewrite (bind_run _ _ _ _ _ (rebuild_run l s' Hok)) in Hx. by injection Hx as <- <-.
Qed.

(** ** Histories *)

Inductive commits (limits : RunLimits) : Core -> list CommandRecord -> Core -> Prop :=
  | commits_nil k : commits limits k [] k
  | commits_cons k r k1 rs k2 :
      commit limits k r k1 -> commits limits k1 rs k2 -> commits limits k (r :: rs) k2.

Lemma commits_app limits k rs k1 rs' k2 :
  commits limits k rs k1 -> commits limits k1 rs' k2 -> commits limits k (rs ++ rs') k2.
Proof. induction 1; [done |]. intros. simpl. econstructor; eauto. Qed.

Lemma commits_snoc limits k rs k1 r k2 :
  commits limits k rs k1 -> commit limits k1 r k2 -> commits limits k (rs ++ [r]) k2.
Proof. intros H1 H2. eapply commits_app; [exact H1 |]. by econstructor; [| constructor]. Qed.

Lemma commit_identity limits k r k' :
  commit limits k r k' ->
  sequence k'.1.1 = sequence k.1.1 + 1 /\ run_id k'.1.1 = run_id k.1.1 /\
  scenario_hash k'.1.1 = scenario_hash k.1.1.
Proof.
  intros []. destruct cm_apply0 as (a & Ha & _).
  destruct (apply_sequence _ _ _ _ Ha) as (_ & ? & _). by destruct (apply_identity _ _ _ _ Ha).
Qed.

Lemma commits_identity limits k rs k' :
  commits limits k rs k' ->
  sequence k'.1.1 = sequence k.1.1 + Z.of_nat (length rs) /\ run_id k'.1.1 = run_id k.1.1 /\
  scenario_hash k'.1.1 = scenario_hash k.1.1.
Proof.
  induction 1 as [k|k r k1 rs k2 Hc Hcs IH]; [simpl; split_and!; [lia | done | done] |].
  apply commit_identity in Hc as (Hs & Hr & Hh). destruct IH as (Hs' & Hr' & Hh').
  split_and!; [simpl length; lia | congruence | congruence].
Qed.

(** The chain value is always a digest. *)
Definition is_digest (b : Bytes) : Prop := length b = 32%nat /\ Forall is_byte b.

Lemma sha256_digest b : is_digest (sha256 b).
Proof. split; [apply sha256_length | apply sha256_bytes]. Qed.

Lemma commits_digest limits k rs k' :
  commits limits k rs k' -> is_digest k.1.2 -> is_digest k'.1.2.
Proof.
  induction 1 as [k|k r k1 rs k2 Hc Hcs IH]; [done |]. intros _. apply IH.
  destruct (cm_chain _ _ _ _ Hc) as [Hn _]. unfold next_chain in Hn.
  apply result_bind_Ok in Hn as (j & _ & Hn). injection Hn as <-. apply sha256_digest.
Qed.

(** Everything that can happen to a run after its genesis, with the journal
    of the records it committed: inputs that commit, inputs that are
    refused or recognised as duplicates, and checkpoints. *)
Inductive history (g : RunState) (limits : RunLimits) : list CommandRecord -> Live -> Prop :=
  | history_genesis l :
      LiveRun_genesis (EngineError := EngineError) g limits = Ok l -> history g limits [] l
  | history_commit js l input adm l' r :
      history g limits js l -> execute_admitted input adm l = (l', Ok (Committed r)) ->
      history g limits (js ++ [r]) l'
  | history_other js l input adm l' x :
      history g limits js l -> execute_admitted input adm l = (l', x) ->
      (forall r, x <> Ok (Committed r)) -> history g limits js l'
  | history_checkpoint js l l' :
      history g limits js l -> checkpoint (EngineError := EngineError) l = (l', Ok tt) ->
      history g limits js l'.

(** The invariant of a live run: what is committed is what the journal
    says, and base and tail reproduce it. *)
Record run_ok (g : RunState) (c0 : Bytes) (limits : RunLimits) (js : list CommandRecord) (l : Live)
    : Prop := {
  ro_limits : lr_limits l = limits;
  ro_rollback : rollback_ok l;
  ro_split : exists covered pending kb, js = covered ++ pending /\
    commits limits (g, c0, ∅) covered kb /\ commits limits kb pending (core l) /\
    lr_base l = kb.1.1 /\ lr_base_chain l = kb.1.2 /\ lr_tail l = rc_input <$> pending
}.

Lemma run_ok_commits g c0 limits js l :
  run_ok g c0 limits js l -> commits limits (g, c0, ∅) js (core l).
Proof.
  intros [_ _ (covered & pending & kb & -> & Hc & Hp & _)]. by eapply commits_app.
Qed.

Lemma run_ok_genesis g limits l :
  LiveRun_genesis (EngineError := EngineError) g limits = Ok l ->
  exists c0, genesis_chain (EngineError := EngineError) g = Ok c0 /\ run_ok g c0 limits [] l.
Proof.
  intros Hg. unfold LiveRun_genesis in Hg. apply result_bind_Ok in Hg as (c0 & Hc0 & Hg). injection Hg as <-.
  exists c0. split; [done |]. split; [done | by split |].
  exists [], [], (g, c0, ∅). split_and!; try done; constructor.
Qed.
Lemma run_ok_commit g c0 limits js l input adm l' r :
  run_ok g c0 limits js l -> execute_admitted input adm l = (l', Ok (Committed r)) ->
  run_ok g c0 limits (js ++ [r]) l' /\ commit limits (core l) r (core l') /\ rc_input r = input.
Proof.
  intros [Hl Hrb (cov & pend & kb & -> & Hc & Hp & Hb & Hbc & Ht)] Hx.
  apply (execute_admitted_cases _ _ _ _ _ Hrb) in Hx as (Hi & _ & Hcm & Hb' & Hbc' & Ht' & Hl' & Hrb').
  rewrite Hl in Hcm. split; [| by split]. split; [congruence | done |]. exists cov, (pend ++ [r]), kb.
  split_and!; try congruence; [by rewrite app_assoc | by eapply commits_snoc |].
  by rewrite Ht', Ht, fmap_app, <- Hi.
Qed.
Lemma run_ok_other g c0 limits js l input adm l' x :
  run_ok g c0 limits js l -> execute_admitted input adm l = (l', x) -> (forall r, x <> Ok (Committed r)) -> l' = l.
Proof.
  intros Hok Hx Hne. apply (execute_admitted_cases _ _ _ _ _ (ro_rollback _ _ _ _ _ Hok)) in Hx.
  destruct x as [[res|r]|e]; [by destruct Hx as [-> _] | by destruct (Hne r) | done].
Qed.
Lemma run_ok_checkpoint g c0 limits js l :
  run_ok g c0 limits js l ->
  exists l', checkpoint (EngineError := EngineError) l = (l', Ok tt) /\ core l' = core l /\ run_ok g c0 limits js l'.
Proof.
  intros IH. pose proof (run_ok_commits _ _ _ _ _ IH) as Hcs.
  destruct IH as [Hl [Hpo Hrb] _]. unfold checkpoint. rewrite bind_gets. cbn [id].
  rewrite Hpo, bind_refuse, bind_modify by done. eexists. split; [reflexivity |]. split; [done |].
  split; [done | by split |]. exists js, [], (core l). split_and!; try done; [by rewrite app_nil_r | constructor].
Qed.

Lemma history_ok g limits js l :
  history g limits js l ->
  exists c0, genesis_chain (EngineError := EngineError) g = Ok c0 /\ run_ok g c0 limits js l.
Proof.
  induction 1 as [l Hg|js l input adm l' r _ (c0 & Hc0 & IH) Hx
                 |js l input adm l' x _ (c0 & Hc0 & IH) Hx Hne|js l l' _ (c0 & Hc0 & IH) Hck].
  - by apply run_ok_genesis.
  - exists c0. split; [done |]. by eapply run_ok_commit.
  - exists c0. split; [done |]. by rewrite (run_ok_other _ _ _ _ _ _ _ _ _ IH Hx Hne).
  - exists c0. split; [done |]. destruct (run_ok_checkpoint _ _ _ _ _ IH) as (l1 & Hl1 & _ & Hok). congruence.
Qed.

(** a live run is always its committed history. After any sequence of
    inputs and checkpoints, committed, refused or duplicate, the state is
    the re-execution of the inputs since the last checkpoint on that
    checkpoint, the run is never poisoned, its sequence counts the committed
    records, and its journal is a chain of commits from genesis. *)
Theorem live_run_is_its_history g limits js l :
  history g limits js l ->
  lr_poisoned l = false /\
  replay_inputs (lr_tail l) (lr_base l) = Some (lr_state l) /\
  sequence (lr_state l) = sequence g + Z.of_nat (length js) /\
  exists c0, genesis_chain (EngineError := EngineError) g = Ok c0 /\
    commits limits (g, c0, ∅) js (core l).
Proof.
  intros (c0 & Hc0 & Hok)%history_ok. pose proof (run_ok_commits _ _ _ _ _ Hok) as Hcs.
  destruct Hok as [_ [Hp Hr] _]. split_and!; try done; [| by exists c0].
  by apply commits_identity in Hcs as [Hs _].
Qed.

(** C6: a refused input commits nothing. Whatever the reason (wrong run,
    wrong sequence, full, an engine refusal, a transition that failed half
    way and poisoned the state, or too many events), after an error the live
    run is exactly the run before the call, rolled back in full. *)
Theorem refused_input_commits_nothing g limits js l input adm l' e :
  history g limits js l -> execute_admitted input adm l = (l', Err e) -> l' = l.
Proof.
  intros (c0 & _ & [_ Hrb _])%history_ok Hx.
  apply (execute_admitted_cases _ _ _ _ _ Hrb Hx).
Qed.

(** An index entry stays as it is. *)
Lemma commits_index limits k rs k' id e :
  commits limits k rs k' -> k.2 !! id = Some e -> k'.2 !! id = Some e.
Proof.
  induction 1 as [k|k r k1 rs k2 Hc Hcs IH]; [done |]. intros He. apply IH.
  destruct (cm_fingerprint _ _ _ _ Hc) as (f & _ & _ & Hix).
  pose proof (cm_new _ _ _ _ Hc). rewrite Hix, lookup_insert_ne; [done | congruence].
Qed.

Lemma commits_indexed limits k rs k' r :
  commits limits k rs k' -> r ∈ rs ->
  exists f, fingerprint_bytes (EngineError := EngineError) (rc_input r) = Ok f /\
    k'.2 !! input_command_id (rc_input r) = Some (mkIndexedCommand f (rc_result r)).
Proof.
  induction 1 as [k|k r' k1 rs k2 Hc Hcs IH]; [by intros []%elem_of_nil |].
  intros [->|Hin]%elem_of_cons; [| auto].
  destruct (cm_fingerprint _ _ _ _ Hc) as (f & Hf & _ & Hix). exists f. split; [done |].
  eapply commits_index; [exact Hcs |]. rewrite Hix. apply lookup_insert_eq.
Qed.

(** execution is idempotent. Once an input has been committed, sending
    it again at any later time, before or after checkpoints and with any
    admission data, is answered with the original result as a duplicate and
    changes nothing; another input that reuses its command identifier is
    refused as a conflict unless it has the same fingerprint. *)
Theorem committed_input_is_idempotent g limits js l r adm input :
  history g limits js l -> r ∈ js ->
  input_run_id input = run_id (lr_state l) ->
  input_command_id input = input_command_id (rc_input r) ->
  execute_admitted (rc_input r) adm l = (l, Ok (Duplicate (rc_result r))) /\
  (forall f f', fingerprint_bytes (EngineError := EngineError) input = Ok f ->
     fingerprint_bytes (EngineError := EngineError) (rc_input r) = Ok f' -> f <> f' ->
     execute_admitted input adm l = (l, Err OriginError.IdempotencyConflict)).
Proof.
  intros (c0 & Hc0 & Hok)%history_ok Hin Hrun Hid.
  pose proof (run_ok_commits _ _ _ _ _ Hok) as Hcs. destruct Hok as [_ [Hp _] _].
  destruct (commits_indexed _ _ _ _ _ Hcs Hin) as (f & Hf & Hix). simpl in Hix.
  assert (Hrid : input_run_id (rc_input r) = run_id (lr_state l)).
  { destruct (list_elem_of_split _ _ Hin) as (xs & ys & ->).
    assert (forall k k', commits limits k (xs ++ r :: ys) k' ->
      input_run_id (rc_input r) = run_id k'.1.1) as Hgen; [| by apply (Hgen _ _ Hcs)].
    clear. intros k k' Hcs. revert k Hcs. induction xs as [|x xs IH]; intros k Hcs; inversion Hcs; subst.
    - match goal with Hc : commit _ _ r _ |- _ =>
        rewrite (cm_run _ _ _ _ Hc); apply commit_identity in Hc as (_ & Hr & _) end.
      match goal with Hc : commits _ _ ys _ |- _ => apply commits_identity in Hc as (_ & Hr' & _) end.
      congruence.
    - eauto. }
  unfold execute_admitted. rewrite !bind_gets. cbn [id]. rewrite !Hp. split.
  - rewrite bind_refuse by done. rewrite bind_refuse by (by rewrite Hrid, Z.eqb_refl).
    rewrite (bind_lift _ _ _ f) by done. rewrite Hix. simpl. by rewrite bool_decide_true.
  - intros fi f' Hfi Hf' Hne. rewrite bind_refuse by done.
    rewrite bind_refuse by (by rewrite Hrun, Z.eqb_refl).
    rewrite (bind_lift _ _ _ fi) by done. rewrite Hid, Hix. simpl.
    rewrite bool_decide_false; [done |]. rewrite Hf in Hf'. congruence.
Qed.

(** ** Recovery *)

(** A commit is reproduced by executing its record's input. *)
Lemma commit_execute limits (l : Live) r k' :
  rollback_ok l -> lr_limits l = limits -> commit limits (core l) r k' ->
  exists l', execute_admitted (rc_input r) (rc_admission r) l = (l', Ok (Committed r)) /\
    core l' = k' /\ rollback_ok l' /\ lr_limits l' = limits /\
    lr_base l' = lr_base l /\ lr_base_chain l' = lr_base_chain l /\
    lr_tail l' = lr_tail l ++ [rc_input r].
Proof.
  intros Hrb <- Hc.
  destruct (execute_admitted (rc_input r) (rc_admission r) l) as [l' x] eqn:Hx.
  assert (x = Ok (Committed r) /\ core l' = k') as [-> Hk].
  { pose proof Hrb as [Hp _]. destruct Hc as [Hrun Hseq Hnx _ Hnew Hroom (a & Ha & Hres & Hev) Hevs
      (f & Hf & Hfr & Hix) (Hch & Hchr)].
    unfold execute_admitted in Hx. rewrite bind_gets in Hx. cbn [id] in Hx. simpl in *.
    rewrite Hp, bind_refuse in Hx by done.
    rewrite bind_refuse in Hx by (by rewrite Hrun, Z.eqb_refl).
    rewrite (bind_lift _ _ _ f) in Hx by done. rewrite Hnew in Hx.
    rewrite bind_refuse in Hx by (by rewrite Hseq, Z.eqb_refl).
    rewrite bind_refuse in Hx by (by apply Z.leb_gt). rewrite Ha, bind_modify in Hx.
    rewrite (proj2 (Z.ltb_ge _ _)) in Hx by done. cbv zeta in Hx.
    assert (Hrec : mkChained (rc_input r) (hex f) (mkCommandResult (ap_accepted a) (ap_reject_code a)
      (sequence k'.1.1) (ap_order_id a)) (ap_events a) (rc_admission r) = Chained_of r).
    { unfold Chained_of. by rewrite Hres, Hfr, Hev. }
    rewrite Hrec, (bind_lift _ _ _ k'.1.2) in Hx by done. rewrite !bind_modify in Hx.
    injection Hx as <- <-. split.
    - f_equal. f_equal. destruct r. simpl in *. by subst.
    - unfold core. simpl. destruct k' as [[s' c'] ix']. simpl in *. by rewrite Hix, Hres. }
  apply (execute_admitted_cases _ _ _ _ _ Hrb) in Hx as (_ & _ & _ & ? & ? & ? & ? & ?).
  exists l'. split_and!; done.
Qed.

(** Advancing a recovery over one record: its position and its live run. *)
Definition advance (n : Z) (l : Live) (rec : RunRecovery RunState) : RunRecovery RunState :=
  mkRunRecovery l (rr_genesis_sequence rec) n (rr_checkpoint_sequence rec) (rr_checkpoint_chain rec).

(** The position check of [replay]. *)
Lemma replay_position limits k r k1 (rec : RunRecovery RunState) :
  commit limits k r k1 -> run_id (lr_state (rr_live rec)) = run_id k.1.1 ->
  rr_replayed_through rec = sequence k.1.1 -> 0 <= sequence k.1.1 ->
  ok_or (E := OriginError EngineError) (checked_add U64 (rr_replayed_through rec) 1)
    OriginError.InvalidCommit = Ok (sequence k.1.1 + 1) /\
  negb (cr_committed_sequence (rc_result r) =? sequence k.1.1 + 1)
  || negb (input_run_id (rc_input r) =? run_id (lr_state (rr_live rec)))
  || negb (input_expected_sequence (rc_input r) =? rr_replayed_through rec) = false.
Proof.
  intros [Hrid Hseq Hnx Hfit _ _ _ _ _ _] Hrun Hthrough Hnn. split.
  - rewrite Hthrough. apply ok_or_Ok, checked_in. unfold int_min. lia.
  - rewrite Hnx, Hrid, Hrun, <- Hseq, Hthrough, !Z.eqb_refl. done.
Qed.

(** A record the checkpoint covers is verified and indexed. *)
Lemma replay_covered_one limits k r k1 (rec : RunRecovery RunState) :
  commit limits k r k1 ->
  lr_chain (rr_live rec) = k.1.2 -> lr_index (rr_live rec) = k.2 ->
  run_id (lr_state (rr_live rec)) = run_id k.1.1 ->
  rr_replayed_through rec = sequence k.1.1 -> 0 <= sequence k.1.1 ->
  sequence k1.1.1 <= rr_checkpoint_sequence rec ->
  (sequence k1.1.1 = rr_checkpoint_sequence rec -> k1.1.2 = rr_checkpoint_chain rec) ->
  replay (EngineError := EngineError) r rec =
  (advance (sequence k1.1.1) (with_chain k1.1.2 (with_index k1.2 (rr_live rec))) rec, Ok tt).
Proof.
  intros Hc Hch Hix Hrun Hthrough Hnn Hle Hlast.
  destruct (replay_position _ _ _ _ _ Hc Hrun Hthrough Hnn) as [Hnext Hpos].
  pose proof (commit_identity _ _ _ _ Hc) as (Hs1 & _ & _).
  destruct Hc as [_ _ Hnx _ Hnew _ _ _ (f & Hf & Hfr & Hix1) (Hnc & Hcr)].
  unfold replay. rewrite bind_gets. cbn [id]. rewrite (bind_lift _ _ _ _ Hnext), bind_refuse by done.
  rewrite (proj2 (Z.leb_le _ _)) by lia.
  rewrite (bind_lift _ _ _ f) by done. rewrite Hch, (bind_lift _ _ _ k1.1.2) by done.
  rewrite bind_refuse.
  2: { rewrite Hfr, Hcr, Hix, Hnew, !bool_decide_true by done. apply bool_decide_false. by intros []. }
  rewrite !bind_modify, bind_gets. cbn [id]. unfold lift, check_checkpoint_reached. simpl.
  rewrite Hnx, <- Hs1, Hix, <- Hix1.
  destruct (Z.eqb_spec (sequence k1.1.1) (rr_checkpoint_sequence rec)) as [Heq|]; [| done].
  by rewrite bool_decide_true by auto.
Qed.

Lemma replay_covered limits k rs k' (rec : RunRecovery RunState) :
  commits limits k rs k' ->
  lr_chain (rr_live rec) = k.1.2 -> lr_index (rr_live rec) = k.2 ->
  run_id (lr_state (rr_live rec)) = run_id k.1.1 ->
  rr_replayed_through rec = sequence k.1.1 -> 0 <= sequence k.1.1 ->
  sequence k'.1.1 <= rr_checkpoint_sequence rec ->
  (sequence k'.1.1 = rr_checkpoint_sequence rec -> k'.1.2 = rr_checkpoint_chain rec) ->
  replay_all (EngineError := EngineError) rs rec =
  (advance (sequence k'.1.1) (with_chain k'.1.2 (with_index k'.2 (rr_live rec))) rec, Ok tt).
Proof.
  intros Hcs. revert rec. induction Hcs as [k|k r k1 rs k2 Hc Hcs IH];
    intros rec Hch Hix Hrun Hthrough Hnn Hle Hlast.
  { destruct rec as [[]]. simpl in *. by subst. }
  pose proof (commits_identity _ _ _ _ Hcs) as (Hs2 & _ & _).
  pose proof (commit_identity _ _ _ _ Hc) as (Hs1 & Hr1 & _).
  assert (Hlast1 : sequence k1.1.1 = rr_checkpoint_sequence rec -> k1.1.2 = rr_checkpoint_chain rec).
  { intros Heq. assert (length rs = 0%nat) as Hz by lia. destruct rs; [| done]. inversion Hcs; subst.
    auto. }
  cbn [replay_all].
  rewrite (bind_run _ _ _ _ _ (replay_covered_one _ _ _ _ _ Hc Hch Hix Hrun Hthrough Hnn
    ltac:(lia) Hlast1)).
  rewrite IH; simpl; try done; try lia.
Qed.

(** A later record is re-executed and must be reproduced. *)
Lemma replay_pending_one limits r k1 (rec : RunRecovery RunState) :
  commit limits (core (rr_live rec)) r k1 ->
  rollback_ok (rr_live rec) -> lr_limits (rr_live rec) = limits ->
  rr_replayed_through rec = sequence (lr_state (rr_live rec)) ->
  0 <= sequence (lr_state (rr_live rec)) ->
  rr_checkpoint_sequence rec <= sequence (lr_state (rr_live rec)) ->
  exists l', replay (EngineError := EngineError) r rec = (advance (sequence k1.1.1) l' rec, Ok tt) /\
    core l' = k1 /\ rollback_ok l' /\ lr_limits l' = limits /\
    lr_base l' = lr_base (rr_live rec) /\ lr_base_chain l' = lr_base_chain (rr_live rec) /\
    lr_tail l' = lr_tail (rr_live rec) ++ [rc_input r].
Proof.
  intros Hc Hrb Hl Hthrough Hnn Hle.
  destruct (replay_position _ _ _ _ _ Hc eq_refl Hthrough Hnn) as [Hnext Hpos].
  pose proof (commit_identity _ _ _ _ Hc) as (Hs1 & _ & _).
  destruct (commit_execute limits (rr_live rec) r k1 Hrb Hl Hc) as (l' & Hx & Hrest).
  pose proof (cm_next _ _ _ _ Hc) as Hnx. simpl in *.
  exists l'. split; [| done].
  unfold replay. rewrite bind_gets. cbn [id]. rewrite (bind_lift _ _ _ _ Hnext), bind_refuse by done.
  rewrite (proj2 (Z.leb_gt _ _)) by lia.
  rewrite Hx, bind_modify, bool_decide_true by done. unfold modify. by rewrite Hnx, <- Hs1.
Qed.

Lemma replay_pending limits k rs k' (rec : RunRecovery RunState) :
  commits limits k rs k' ->
  core (rr_live rec) = k -> rollback_ok (rr_live rec) -> lr_limits (rr_live rec) = limits ->
  rr_replayed_through rec = sequence k.1.1 -> 0 <= sequence k.1.1 ->
  rr_checkpoint_sequence rec <= sequence k.1.1 ->
  exists rec', replay_all (EngineError := EngineError) rs rec = (rec', Ok tt) /\
    core (rr_live rec') = k' /\ rollback_ok (rr_live rec') /\ lr_limits (rr_live rec') = limits /\
    lr_base (rr_live rec') = lr_base (rr_live rec) /\
    lr_base_chain (rr_live rec') = lr_base_chain (rr_live rec) /\
    lr_tail (rr_live rec') = lr_tail (rr_live rec) ++ (rc_input <$> rs) /\
    rr_checkpoint_sequence rec' <= rr_replayed_through rec'.
Proof.
  intros Hcs. revert rec. induction Hcs as [k|k r k1 rs k2 Hc Hcs IH];
    intros rec Hk Hrb Hl Hthrough Hnn Hle.
  { exists rec. rewrite app_nil_r. split_and!; try done. lia. }
  pose proof (commit_identity _ _ _ _ Hc) as (Hs1 & _ & _). subst k.
  destruct (replay_pending_one limits r k1 rec Hc Hrb Hl Hthrough Hnn Hle)
    as (l' & Hrun1 & Hk' & Hrb' & Hl' & Hb' & Hbc' & Ht').
  cbn [replay_all]. rewrite (bind_run _ _ _ _ _ Hrun1).
  destruct (IH (advance (sequence k1.1.1) l' rec))
    as (rec' & Hrun & Hcore & Hrb2 & Hl2 & Hb2 & Hbc2 & Ht2 & Hle2); simpl in *; try done; try lia.
  exists rec'. rewrite Hrun. split_and!; try done; try congruence.
  by rewrite Ht2, Ht', <- app_assoc.
Qed.

Lemma live_eq (l l' : Live) :
  core l = core l' -> lr_base l = lr_base l' -> lr_base_chain l = lr_base_chain l' ->
  lr_tail l = lr_tail l' -> lr_limits l = lr_limits l' -> lr_poisoned l = lr_poisoned l' -> l = l'.
Proof. destruct l, l'. unfold core. simpl. intros. by simplify_eq. Qed.

Lemma replay_all_app rs rs' rec :
  replay_all (EngineError := EngineError) (rs ++ rs') rec =
  (replay_all (EngineError := EngineError) rs;; replay_all rs') rec.
Proof.
  revert rec. induction rs as [|r rs IH]; intros rec; [done |].
  cbn [replay_all app]. rewrite bind_assoc. destruct (replay r rec) as [rec1 [u|e]] eqn:Hr.
  - rewrite !(bind_run _ _ _ _ _ Hr). apply IH.
  - unfold mbind, M_bind. by rewrite Hr.
Qed.

(** A recovery from genesis, and one from a checkpoint of the run. *)
Lemma RunRecovery_new_genesis g c0 limits :
  genesis_chain (EngineError := EngineError) g = Ok c0 ->
  RunRecovery_new (EngineError := EngineError) g None limits =
  Ok (mkRunRecovery (mkLiveRun g c0 g c0 [] ∅ limits false) (sequence g) (sequence g) (sequence g) c0).
Proof.
  intros Hc0. unfold RunRecovery_new, LiveRun_genesis. rewrite Hc0. cbn.
  unfold check_checkpoint_reached. cbn. by rewrite Z.eqb_refl, bool_decide_true.
Qed.

Lemma RunRecovery_new_checkpoint g c0 limits covered kb :
  genesis_chain (EngineError := EngineError) g = Ok c0 ->
  commits limits (g, c0, ∅) covered kb ->
  RunRecovery_new (EngineError := EngineError) g (Some (kb.1.1, hex kb.1.2)) limits =
  Ok (mkRunRecovery (mkLiveRun kb.1.1 c0 kb.1.1 kb.1.2 [] ∅ limits false)
        (sequence g) (sequence g) (sequence kb.1.1) kb.1.2).
Proof.
  intros Hc0 Hc. pose proof (commits_identity _ _ _ _ Hc) as (Hsb & Hrunb & Hhb). simpl in *.
  assert (Hdig : is_digest kb.1.2).
  { eapply commits_digest; [exact Hc |]. simpl. unfold genesis_chain in Hc0.
    apply result_bind_Ok in Hc0 as (h & _ & Hh). injection Hh as <-. apply sha256_digest. }
  unfold RunRecovery_new, LiveRun_genesis. rewrite Hc0. cbn.
  rewrite Hrunb, Hhb, Z.eqb_refl, bool_decide_true, (proj2 (Z.ltb_ge _ _)) by (done || lia). cbn.
  rewrite parse_hex_hex by apply Hdig. cbn. unfold check_checkpoint_reached. cbn.
  destruct (Z.eqb_spec (sequence g) (sequence kb.1.1)) as [Heq|Hne]; [| done].
  assert (length covered = 0%nat) as Hz by lia. destruct covered; [| done]. inversion Hc; subst.
  by rewrite bool_decide_true.
Qed.

(** Recovery from a checkpoint of any prefix of the journal. *)
Lemma recover_from_checkpoint g c0 limits cov kb pend k :
  0 <= sequence g -> genesis_chain (EngineError := EngineError) g = Ok c0 ->
  commits limits (g, c0, ∅) cov kb -> commits limits kb pend k ->
  exists l, recover (EngineError := EngineError) g (Some (kb.1.1, hex kb.1.2)) limits (cov ++ pend) = Ok l /\
    core l = k /\ lr_base l = kb.1.1 /\ lr_base_chain l = kb.1.2 /\ lr_tail l = rc_input <$> pend /\
    lr_limits l = limits /\ rollback_ok l.
Proof.
  intros Hg Hc0 Hc Hp. pose proof (commits_identity _ _ _ _ Hc) as (Hsb & Hrunb & _). simpl in Hsb, Hrunb.
  unfold recover. rewrite (RunRecovery_new_checkpoint g c0 limits cov kb Hc0 Hc).
  unfold mbind, result_bind. rewrite replay_all_app.
  rewrite (bind_run _ _ _ _ _ (replay_covered limits (g, c0, ∅) cov kb
    (mkRunRecovery (mkLiveRun kb.1.1 c0 kb.1.1 kb.1.2 [] ∅ limits false)
      (sequence g) (sequence g) (sequence kb.1.1) kb.1.2) Hc eq_refl eq_refl
    Hrunb eq_refl Hg (Z.le_refl _) (fun _ => eq_refl))).
  edestruct (replay_pending limits kb pend k) as
    (rec' & Hrun & Hcore & Hpo' & Hl' & Hb' & Hbc' & Ht' & Hle);
    [exact Hp | | | | | | | rewrite Hrun]; [by destruct kb as [[]] | done | done | done | lia | done |].
  unfold finish. rewrite (proj2 (Z.ltb_ge _ _)) by done. exists (rr_live rec'). by split_and!.
Qed.
(** Recovery from the journal alone. *)
Lemma recover_from_genesis g c0 limits js k :
  0 <= sequence g -> genesis_chain (EngineError := EngineError) g = Ok c0 -> commits limits (g, c0, ∅) js k ->
  exists l, recover (EngineError := EngineError) g None limits js = Ok l /\
    core l = k /\ lr_base l = g /\ lr_base_chain l = c0 /\ lr_tail l = rc_input <$> js /\
    lr_limits l = limits /\ rollback_ok l.
Proof.
  intros Hg Hc0 Hall. unfold recover. rewrite (RunRecovery_new_genesis g c0 limits Hc0). unfold mbind, result_bind.
  destruct (replay_pending limits (g, c0, ∅) js k
    (mkRunRecovery (mkLiveRun g c0 g c0 [] ∅ limits false) (sequence g) (sequence g) (sequence g) c0) Hall)
    as (rec' & Hrun & Hcore & Hpo' & Hl' & Hb' & Hbc' & Ht' & Hle); try done.
  rewrite Hrun. unfold finish. rewrite (proj2 (Z.ltb_ge _ _)) by done. exists (rr_live rec'). by split_and!.
Qed.

(** Recovery, from the last checkpoint and from genesis alone. *)
Lemma recover_exact g limits js l :
  0 <= sequence g -> history g limits js l ->
  recover (EngineError := EngineError) g (Some (checkpoint_state l)) limits js = Ok l /\
  exists l0, recover (EngineError := EngineError) g None limits js = Ok l0 /\ core l0 = core l.
Proof.
  intros Hg (c0 & Hc0 & Hok)%history_ok. pose proof (run_ok_commits _ _ _ _ _ Hok) as Hall.
  destruct Hok as [Hl [Hpo Hrb] (cov & pend & kb & -> & Hc & Hp & Hb & Hbc & Ht)]. split.
  - destruct (recover_from_checkpoint g c0 limits cov kb pend (core l) Hg Hc0 Hc Hp)
      as (l' & Hrec & Hcore & Hb' & Hbc' & Ht' & Hl' & [Hpo' _]).
    unfold checkpoint_state. rewrite Hb, Hbc, Hrec. f_equal. apply live_eq; simpl in *; congruence.
  - destruct (recover_from_genesis g c0 limits (cov ++ pend) (core l) Hg Hc0 Hall) as (l0 & Hrec & Hcore & _).
    by exists l0.
Qed.

(** C5: recovery is exact. For every history of a run, restarting from the
    genesis state, the checkpoint the run last took and its journal gives
    back the identical live run (state, chain, index, rollback base and
    tail); and restarting from genesis and the journal alone gives the same
    committed state, chain and index. *)
Theorem recovery_is_exact g limits js l :
  0 <= sequence g -> history g limits js l ->
  recover (EngineError := EngineError) g (Some (checkpoint_state l)) limits js = Ok l /\
  exists l0, recover (EngineError := EngineError) g None limits js = Ok l0 /\ core l0 = core l.
Proof. apply recover_exact. Qed.

End origin.

(** ** A concrete run

    A counting engine and a checksum stand in for the interfaces, so that the
    theorems can be evaluated on one run: two commits around a checkpoint and
    a transition that fails half way and is rolled back. *)
Module Sample.
Record Counter : Type := mkCounter { ct_run : Z; ct_sequence : Z }.

Definition count (i : JournalInput) (s : Counter) : Counter * result (ApplyError unit) Applied :=
  if negb (input_run_id i =? ct_run s) || negb (input_expected_sequence i =? ct_sequence s)
     || (int_max U64 <=? ct_sequence s)
  then (s, Err (Unchanged tt))
  else
    match i with
    | InputSimulation _ => (mkCounter (ct_run s) 0, Err (Poisoned tt))
    | InputCommand _ =>
        (mkCounter (ct_run s) (ct_sequence s + 1), Ok (mkApplied [] true None None ∅))
    end.

Lemma count_Ok i s s' a :
  count i s = (s', Ok a) ->
  ct_sequence s = input_expected_sequence i /\ ct_sequence s < int_max U64 /\
  s' = mkCounter (ct_run s) (ct_sequence s + 1).
Proof.
  unfold count. destruct (Z.eqb_spec (input_run_id i) (ct_run s)); [| done].
  destruct (Z.eqb_spec (input_expected_sequence i) (ct_sequence s)); [| done].
  destruct (Z.leb_spec (int_max U64) (ct_sequence s)); [done |].
  destruct i; [| done]. intros [= <- _]. by split_and!.
Qed.

#[export] Program Instance counter_engine : Engine Counter unit := {|
  run_id := ct_run;
  sequence := ct_sequence;
  event_sequence := fun _ => 0;
  scenario_hash := fun _ => [];
  state_hash := fun s => Some [ct_sequence s mod 256];
  apply := count
|}.
Next Obligation. intros i s s' a (? & ? & ->)%count_Ok. simpl. split_and!; lia. Qed.
Next Obligation. intros i s s' a (? & ? & ->)%count_Ok. done. Qed.
Next Obligation.
  intros i s s' e. unfold count. destruct (_ || _); [by intros [= <-] |]. by destruct i.
Qed.

#[export] Program Instance codec : JournalCodec := {|
  json_command := fun c => Some [cmd_command_id c mod 256; cmd_logical_time c mod 256];
  json_simulation := fun r => Some [sr_command_id r mod 256];
  json_chained := fun c => Some [cr_committed_sequence (ch_result c) mod 256]
|}.
Next Obligation. intros c. by eexists. Qed.

#[export] Program Instance checksum : Sha256 := {|
  sha256 := fun b => replicate 32 (foldr Z.add 0 b mod 256)
|}.
Next Obligation. done. Qed.
Next Obligation.
  intros b. apply Forall_forall. intros x (-> & _)%elem_of_replicate. apply Z.mod_pos_bound. lia.
Qed.

Definition first : JournalInput := InputCommand (mkCommand 7 1 1 10 0 1 ActivateKillSwitch).
Definition second : JournalInput := InputCommand (mkCommand 7 2 1 20 1 1 ResetKillSwitch).
Definition failing : JournalInput := InputSimulation (mkSimulationCommandRequest 7 3 1 30 2 1 StartRun).
Definition reused : JournalInput := InputCommand (mkCommand 7 1 1 99 2 1 ResetKillSwitch).

Definition digest (n : Z) : Bytes := replicate 32 n.
Definition result_of (n : Z) : CommandResult := mkCommandResult true None n None.

Definition first_record : CommandRecord :=
  mkCommandRecord first (hex (digest 11)) (result_of 1) [] (hex (digest 97)) None.
Definition second_record : CommandRecord :=
  mkCommandRecord second (hex (digest 22)) (result_of 2) [] (hex (digest 34)) None.

(** The run at genesis, after the first commit, after the checkpoint that
    follows it, and after the second commit. *)
Definition at_genesis : LiveRun Counter :=
  mkLiveRun (mkCounter 7 0) (digest 19) (mkCounter 7 0) (digest 19) [] ∅ RunLimits_default false.
Definition after_first : LiveRun Counter :=
  mkLiveRun (mkCounter 7 1) (digest 97) (mkCounter 7 0) (digest 19) [first]
    {[1 := mkIndexedCommand (digest 11) (result_of 1)]} RunLimits_default false.
Definition at_checkpoint : LiveRun Counter :=
  mkLiveRun (mkCounter 7 1) (digest 97) (mkCounter 7 1) (digest 97) []
    {[1 := mkIndexedCommand (digest 11) (result_of 1)]} RunLimits_default false.
Definition after_second : LiveRun Counter :=
  mkLiveRun (mkCounter 7 2) (digest 34) (mkCounter 7 1) (digest 97) [second]
    (<[2 := mkIndexedCommand (digest 22) (result_of 2)]>
       {[1 := mkIndexedCommand (digest 11) (result_of 1)]}) RunLimits_default false.

Lemma sample_history :
  history (mkCounter 7 0) RunLimits_default [first_record; second_record] after_second.
Proof.
  apply (history_commit _ _ [first_record] at_checkpoint second None); [| vm_compute; reflexivity].
  apply (history_checkpoint _ _ _ after_first); [| vm_compute; reflexivity].
  apply (history_commit _ _ [] at_genesis first None); [| vm_compute; reflexivity].
  apply history_genesis. vm_compute. reflexivity.
Qed.
End Sample.
Import (hints) Sample.

Lemma live_run_is_its_history_witness :
  history (Sample.mkCounter 7 0) RunLimits_default [Sample.first_record; Sample.second_record]
    Sample.after_second /\
  replay_inputs [Sample.second] (Sample.mkCounter 7 1) = Some (Sample.mkCounter 7 2).
Proof.
  split; [exact Sample.sample_history |].
  apply (live_run_is_its_history (Sample.mkCounter 7 0) RunLimits_default _ Sample.after_second
    Sample.sample_history).
Defined.

Lemma refused_input_commits_nothing_witness :
  (execute_admitted Sample.failing None Sample.after_second).2 = Err (OriginError.Engine tt) /\
  (execute_admitted Sample.failing None Sample.after_second).1 = Sample.after_second.
Proof.
  split; [vm_compute; reflexivity |].
  apply (refused_input_commits_nothing _ _ _ Sample.after_second Sample.failing None _
    (OriginError.Engine tt) Sample.sample_history).
  vm_compute. reflexivity.
Defined.

Lemma committed_input_is_idempotent_witness :
  execute_admitted Sample.first None Sample.after_second =
    (Sample.after_second, Ok (Duplicate (Sample.result_of 1))) /\
  execute_admitted Sample.reused None Sample.after_second =
    (Sample.after_second, Err OriginError.IdempotencyConflict).
Proof.
  destruct (committed_input_is_idempotent _ _ _ Sample.after_second Sample.first_record None
    Sample.reused Sample.sample_history) as [Hdup Hconflict].
  - apply list_elem_of_here.
  - vm_compute. reflexivity.
  - vm_compute. reflexivity.
  - split; [exact Hdup |].
    apply (Hconflict (Sample.digest 100) (Sample.digest 11)); [vm_compute; reflexivity.. |].
    vm_compute. discriminate.
Defined.

Lemma recovery_is_exact_witness :
  recover (EngineError := unit) (Sample.mkCounter 7 0)
    (Some (Sample.mkCounter 7 1, hex (Sample.digest 97))) RunLimits_default
    [Sample.first_record; Sample.second_record] = Ok Sample.after_second.
Proof.
  apply (recovery_is_exact (Sample.mkCounter 7 0) RunLimits_default _ Sample.after_second);
    [vm_compute; discriminate | exact Sample.sample_history].
Defined.
