(* ===== verification/Venue.v ===== *)
(** * The venue: the engine driven by its store

    Composes [packages/bunting-engine] with [packages/origin-store]: the live
    run of [Origin] at the engine instance [run_engine] of [EngineFrame].
    What the store promises of any engine and what the engine promises of
    every reachable run give, together, what holds of every run a store has
    committed, and of every run it recovers. *)

From S2P Require Import Prelude Ordered MarketTypes MarketEvents Digest Ledger Book Risk.
From S2P Require Import Latency Transition Simulation Scenario Engine EngineFrame EngineInvariant.
From S2P Require Import EngineFills EngineSubmit EngineRetire EngineReach EngineTheorems.
From S2P Require Import Origin OriginTheorems.

Section venue.
Context `{HH : !Sha256} `{HS : !ScenarioCodec} `{HR : !RunCodec} `{HJ : !JournalCodec}.
Context (id iteration : Z) (sc : ScenarioDefinition) (limits : RunLimits).

(** The orders of every committed record have their 64-bit fields. *)
Definition journal_typed (js : list CommandRecord) : Prop :=
  Forall (fun r => input_typed (rc_input r)) js.

(** Committing keeps a run reachable. *)
Lemma commits_reachable (k k' : Core (RunState := RunState)) js :
  commits (EngineError := EngineError) limits k js k' -> journal_typed js ->
  reachable id iteration sc k.1.1 -> reachable id iteration sc k'.1.1.
Proof.
  induction 1 as [k|k r k1 rs k2 Hc Hcs IH]; [done |]. intros [Hr Hrs]%Forall_cons Hk.
  apply IH; [done |]. destruct (cm_apply _ _ _ _ Hc) as (a & Ha & _). by eapply reach_step.
Qed.

(** The events of the journal are numbered from the run's event sequence. *)
Lemma commits_events (k k' : Core (RunState := RunState)) js :
  commits (EngineError := EngineError) limits k js k' ->
  (forall n e, (js ≫= rc_events) !! n = Some e ->
     ev_sequence e = rs_event_sequence k.1.1 + Z.of_nat n + 1) /\
  rs_event_sequence k'.1.1 = rs_event_sequence k.1.1 + Z.of_nat (length (js ≫= rc_events)).
Proof.
  induction 1 as [k|k r k1 rs k2 Hc Hcs [IHe IHs]]; [split; [done | simpl; lia] |].
  destruct (cm_apply _ _ _ _ Hc) as (a & Ha & _ & Hev). apply apply_input_numbers in Ha as [Hn Hs].
  rewrite <- Hev in Hn, Hs. cbn [mbind list_bind]. rewrite length_app. split; [| lia].
  intros n e He. apply lookup_app_Some in He as [He|[Hle He]]; [by apply Hn |].
  apply IHe in He. lia.
Qed.

Lemma from_scenario_event_sequence s :
  from_scenario id iteration sc = Ok s -> rs_sequence s = 0 /\ rs_event_sequence s = 0.
Proof.
  unfold from_scenario. intros Hrun. repeat (apply result_bind_Ok in Hrun as (? & _ & Hrun)).
  by injection Hrun as <-.
Qed.

(** C11: a journalled run is sound, live and recovered. Whatever inputs a host
    sends to a run it started from a scenario, in whatever order with
    checkpoints, refusals and duplicates, the run it serves is one the
    scenario and the committed inputs lead to and passes its own validation;
    the events of the journal are numbered 1, 2, 3 and so on without a gap;
    and a restart from the scenario and the journal alone serves the very
    same run. *)
Theorem journalled_run_is_sound g js (l : LiveRun RunState) :
  scenario_typed sc -> from_scenario id iteration sc = Ok g ->
  history (EngineError := EngineError) g limits js l -> journal_typed js ->
  reachable id iteration sc (lr_state l) /\ validate_run (lr_state l) = Ok tt /\
  (forall n e, (js ≫= rc_events) !! n = Some e -> ev_sequence e = Z.of_nat n + 1) /\
  exists l0, recover (EngineError := EngineError) g None limits js = Ok l0 /\ lr_state l0 = lr_state l.
Proof.
  intros Hty Hg Hh Hjs. destruct (from_scenario_event_sequence g Hg) as [Hs0 He0].
  destruct (history_ok g limits js l Hh) as (c0 & _ & Hok%run_ok_commits).
  assert (Hr : reachable id iteration sc (lr_state l)).
  { eapply (commits_reachable (g, c0, ∅) (core l)); [exact Hok | done | by apply reach_start]. }
  destruct (reachable_ok id iteration sc (lr_state l) Hty Hr) as (Hrun & Hst & _).
  destruct (commits_events _ _ _ Hok) as [Hn _].
  destruct (recover_exact g limits js l) as (_ & l0 & Hl0 & Hcore); [simpl; lia | done |].
  split_and!; [done | by apply run_validates | |].
  - intros n e He. rewrite (Hn n e He). simpl. lia.
  - exists l0. split; [done |]. unfold core in Hcore. congruence.
Qed.
End venue.

(** ** A journalled sample run

    The sample run of [EngineTheorems] behind a store: two commits, with a
    checkpoint between them. *)
Module SampleVenue.
Import SampleRun.
#[export] Program Instance codec : JournalCodec := {|
  json_command := fun c => Some [cmd_command_id c mod 256; cmd_logical_time c mod 256];
  json_simulation := fun r => Some [sr_command_id r mod 256];
  json_chained := fun c => Some [cr_committed_sequence (ch_result c) mod 256]
|}.
Next Obligation. intros c. by eexists. Qed.

Definition start : result (OriginError EngineError) (LiveRun RunState) :=
  LiveRun_genesis genesis RunLimits_default.
Definition no_live : LiveRun RunState := mkLiveRun empty_run [] empty_run [] [] ∅ RunLimits_default false.
Definition started : LiveRun RunState := match start with Ok l => l | Err _ => no_live end.
Definition step (i : JournalInput) (l : LiveRun RunState) : LiveRun RunState :=
  fst (execute_admitted (EngineError := EngineError) i None l).
Definition no_record : CommandRecord :=
  mkCommandRecord (submit_at 1 10 sell) [] (mkCommandResult false None 0 None) [] [] None.
Definition record_of (i : JournalInput) (l : LiveRun RunState) : CommandRecord :=
  match snd (execute_admitted (EngineError := EngineError) i None l) with
  | Ok (Committed r) => r
  | _ => no_record
  end.
Definition sold : LiveRun RunState := step (submit_at 1 10 sell) started.
Definition kept : LiveRun RunState := fst (checkpoint (EngineError := EngineError) sold).
Definition bought : LiveRun RunState := step (submit_at 2 20 buy) kept.
Definition journal : list CommandRecord :=
  [record_of (submit_at 1 10 sell) started; record_of (submit_at 2 20 buy) kept].
End SampleVenue.

Section venue_witness.
Import SampleRun SampleVenue.
Import (hints) SampleRun SampleVenue.

Definition committed (x : LiveRun RunState * result (OriginError EngineError) Execution) : bool :=
  match snd x with Ok (Committed _) => true | _ => false end.

Lemma sample_commit i l :
  committed (execute_admitted i None l) = true ->
  execute_admitted i None l = (step i l, Ok (Committed (record_of i l))).
Proof.
  unfold committed, step, record_of. destruct (execute_admitted i None l) as [l' [[]|]]; simpl; done.
Qed.

Lemma sample_journal_history :
  history (EngineError := EngineError) genesis RunLimits_default journal bought.
Proof.
  apply (history_commit _ _ [record_of (submit_at 1 10 sell) started] kept (submit_at 2 20 buy) None).
  - apply (history_checkpoint _ _ _ sold); [| vm_compute; reflexivity].
    apply (history_commit _ _ [] started (submit_at 1 10 sell) None).
    + apply history_genesis. vm_compute. reflexivity.
    + apply sample_commit. vm_compute. reflexivity.
  - apply sample_commit. vm_compute. reflexivity.
Qed.

Lemma journalled_run_is_sound_witness :
  validate_run (lr_state bought) = Ok tt /\ length (journal ≫= rc_events) = 8%nat.
Proof.
  split; [| vm_compute; reflexivity].
  apply (journalled_run_is_sound 7 1 scenario RunLimits_default genesis journal bought).
  - exact sample_typed.
  - exact sample_genesis.
  - exact sample_journal_history.
  - apply Forall_cons. split; [| apply Forall_cons; split; [| apply Forall_nil; done]].
    + change (input_typed (submit_at 1 10 sell)). apply sample_order_typed; simpl; lia.
    + change (input_typed (submit_at 2 20 buy)). apply sample_order_typed; simpl; lia.
Defined.
End venue_witness.
