(* ===== verification/Hoare.v ===== *)
(** * Weakest preconditions

    Symbolic execution of computations in [M S E A]: [wp m Q X s] says that
    [m], run from [s], either succeeds with a value and a state that satisfy
    [Q] or fails with a state that satisfies [X]. *)

From S2P Require Import Prelude.

Section wp.
Context {S E : Type}.

Definition wp {A} (m : M S E A) (Q : A -> S -> Prop) (X : S -> Prop) (s : S) : Prop :=
  match m s with
  | (s', Ok a) => Q a s'
  | (s', Err _) => X s'
  end.

Lemma wp_bind {A B} (m : M S E A) (f : A -> M S E B) Q X s :
  wp m (fun a => wp (f a) Q X) X s -> wp (m ≫= f) Q X s.
Proof. unfold wp, mbind, M_bind. by destruct (m s) as [s' [a|e]]. Qed.
Lemma wp_ret {A} (a : A) (Q : A -> S -> Prop) (X : S -> Prop) s : Q a s -> wp (mret a) Q X s.
Proof. done. Qed.
Lemma wp_gets {A} (f : S -> A) (Q : A -> S -> Prop) (X : S -> Prop) s : Q (f s) s -> wp (gets f) Q X s.
Proof. done. Qed.
Lemma wp_modify f (Q : unit -> S -> Prop) (X : S -> Prop) s : Q tt (f s) -> wp (modify f) Q X s.
Proof. done. Qed.
Lemma wp_lift {A} (r : result E A) (Q : A -> S -> Prop) (X : S -> Prop) s :
  X s -> (forall a, r = Ok a -> Q a s) -> wp (lift r) Q X s.
Proof. intros HX HQ. unfold wp, lift. destruct r; [by apply HQ | done]. Qed.
Lemma wp_refuse b e (Q : unit -> S -> Prop) (X : S -> Prop) s :
  X s -> (b = false -> Q tt s) -> wp (refuse_if b e) Q X s.
Proof. intros HX HQ. unfold wp, refuse_if. destruct b; [done | by apply HQ]. Qed.
Lemma wp_throw {A} e (Q : A -> S -> Prop) (X : S -> Prop) s : X s -> wp (throw e) Q X s.
Proof. done. Qed.

Lemma wp_mono {A} (m : M S E A) (Q Q' : A -> S -> Prop) (X X' : S -> Prop) s :
  wp m Q X s -> (forall a s', Q a s' -> Q' a s') -> (forall s', X s' -> X' s') -> wp m Q' X' s.
Proof. unfold wp. destruct (m s) as [s' [a|e]]; eauto. Qed.

(** What a proved precondition says of a run that is known. *)
Lemma wp_Ok {A} (m : M S E A) Q X s s' a : wp m Q X s -> m s = (s', Ok a) -> Q a s'.
Proof. unfold wp. intros Hw He. by rewrite He in Hw. Qed.
Lemma wp_Err {A} (m : M S E A) Q X s s' e : wp m Q X s -> m s = (s', Err e) -> X s'.
Proof. unfold wp. intros Hw He. by rewrite He in Hw. Qed.
Lemma wp_state {A} (m : M S E A) (I : S -> Prop) s : wp m (fun _ => I) I s -> I (m s).1.
Proof. unfold wp. by destruct (m s) as [s' [a|e]]. Qed.
End wp.

(** Computations that stay within a preorder on states, whether they
    succeed or fail. *)
Section stays.
Context {S E : Type} (R : S -> S -> Prop) `{!PreOrder R}.

Definition stays {A} (m : M S E A) : Prop := forall s, wp m (fun _ => R s) (R s) s.

Lemma stays_state {A} (m : M S E A) s : stays m -> R s (m s).1.
Proof. intros Hm. apply (wp_state m (R s) s), Hm. Qed.
Lemma stays_ret {A} (a : A) : stays (mret a).
Proof. intros s. apply wp_ret. reflexivity. Qed.
Lemma stays_gets {A} (f : S -> A) : stays (gets f).
Proof. intros s. apply wp_gets. reflexivity. Qed.
Lemma stays_lift {A} (r : result E A) : stays (lift r).
Proof. intros s. apply wp_lift; reflexivity. Qed.
Lemma stays_throw {A} e : stays (throw e : M S E A).
Proof. intros s. apply wp_throw. reflexivity. Qed.
Lemma stays_refuse b e : stays (refuse_if b e).
Proof. intros s. apply wp_refuse; reflexivity. Qed.
Lemma stays_modify f : (forall s, R s (f s)) -> stays (modify f).
Proof. intros Hf s. apply wp_modify, Hf. Qed.
Lemma stays_bind {A B} (m : M S E A) (f : A -> M S E B) :
  stays m -> (forall a, stays (f a)) -> stays (m ≫= f).
Proof.
  intros Hm Hf s. apply wp_bind. eapply wp_mono; [apply Hm | | done].
  intros a s1 H1. eapply wp_mono; [apply Hf | |]; cbn beta; intros; (etransitivity; [exact H1 | eassumption]).
Qed.
Lemma stays_for_each {A} (f : A -> M S E unit) l : (forall x, stays (f x)) -> stays (for_each f l).
Proof.
  intros Hf. induction l as [|x l IH]; [apply stays_ret |]. apply stays_bind; [done |]. by intros [].
Qed.
End stays.

(** One step of symbolic execution. *)
Ltac wp_step :=
  lazymatch goal with
  | |- wp (mbind _ _) _ _ _ => apply wp_bind
  | |- wp (mret _) _ _ _ => apply wp_ret
  | |- wp (gets _) _ _ _ => apply wp_gets
  | |- wp (modify _) _ _ _ => apply wp_modify
  | |- wp (throw _) _ _ _ => apply wp_throw
  | |- wp (lift _) _ _ _ => apply wp_lift; [| intros]
  | |- wp (refuse_if _ _) _ _ _ => apply wp_refuse; [| intros]
  end.

(** Symbolic execution of [stays]; the state changes are left. *)
Ltac stays_step :=
  lazymatch goal with
  | |- stays _ (mbind _ _) => apply stays_bind; [exact _ | | intros ?]
  | |- stays _ (mret _) => apply stays_ret; exact _
  | |- stays _ (gets _) => apply stays_gets; exact _
  | |- stays _ (lift _) => apply stays_lift; exact _
  | |- stays _ (throw _) => apply stays_throw; exact _
  | |- stays _ (refuse_if _ _) => apply stays_refuse; exact _
  | |- stays _ (modify _) => apply stays_modify
  | |- stays _ (for_each _ _) => apply stays_for_each; [exact _ | intros ?]
  end.
