(* ===== verification/FixWire.v ===== *)
(** * simfix-wire: FIX tag-value framing

    Models [packages/simfix-wire/src/lib.rs]: messages, encoding with body
    length and checksum, the bounded incremental decoder, repeating groups
    and the competition rules.  A byte is an [ascii], a [String] the list of
    the bytes of its UTF-8 encoding, a slice index a [nat], and a length that
    is compared with a configured limit a [Z] at the width of [usize].  The
    FIX dictionaries of the [rustyfix_dictionary] crate are the class
    [FixDictionary]. *)

From S2P Require Import Prelude Decimal.
From Stdlib Require Import Ascii.
#[local] Open Scope list_scope.

Notation Text := (list ascii) (only parsing).

(** Text literals of the source. *)
Definition text (s : string) : Text := String.list_ascii_of_string s.

Definition SOH : ascii := ascii_of_N 1.
Definition EQUALS : ascii := "="%char.
Definition FIXT_11 : Text := text "FIXT.1.1".
Definition FIX_50_SP2_APPL_VER_ID : Text := text "9".

(** ** Text of the standard library *)

(** [std::str::from_utf8]: the well-formed byte sequences of UTF-8 (no
    overlong forms, no surrogates, nothing above U+10FFFF). *)
Definition byte_in (lo hi : Z) (c : ascii) : bool := (lo <=? ascii_code c) && (ascii_code c <=? hi).
Definition continuation (c : ascii) : bool := byte_in 0x80 0xBF c.
Fixpoint valid_utf8 (s : Text) : bool :=
  match s with
  | [] => true
  | a :: s1 =>
      if byte_in 0 0x7F a then valid_utf8 s1
      else
        match s1 with
        | [] => false
        | b :: s2 =>
            if byte_in 0xC2 0xDF a then continuation b && valid_utf8 s2
            else
              match s2 with
              | [] => false
              | c :: s3 =>
                  if byte_in 0xE0 0xEF a then
                    (if ascii_code a =? 0xE0 then byte_in 0xA0 0xBF b
                     else if ascii_code a =? 0xED then byte_in 0x80 0x9F b
                     else continuation b) && continuation c && valid_utf8 s3
                  else
                    match s3 with
                    | [] => false
                    | d :: s4 =>
                        byte_in 0xF0 0xF4 a &&
                        (if ascii_code a =? 0xF0 then byte_in 0x90 0xBF b
                         else if ascii_code a =? 0xF4 then byte_in 0x80 0x8F b
                         else continuation b) && continuation c && continuation d && valid_utf8 s4
                    end
              end
        end
  end.
Definition from_utf8 (s : Text) : option Text := if valid_utf8 s then Some s else None.

(** [iter().position(|byte| *byte == c)] *)
Fixpoint position (c : ascii) (s : Text) : option nat :=
  match s with
  | [] => None
  | x :: s => if bool_decide (x = c) then Some O else S <$> position c s
  end.

(** [bytes.get(a..b)] *)
Definition get_range (s : Text) (a b : nat) : option Text :=
  if ((a <=? b) && (b <=? length s))%nat then Some (take (b - a) (drop a s)) else None.

(** [bytes.split(|byte| *byte == c)] *)
Fixpoint split_on (c : ascii) (s : Text) : list Text :=
  match s with
  | [] => [[]]
  | x :: s =>
      if bool_decide (x = c) then [] :: split_on c s
      else match split_on c s with
           | first :: rest => (x :: first) :: rest
           | [] => [[x]]
           end
  end.

(** [bytes.starts_with(prefix)] *)
Definition starts_with (prefix s : Text) : bool := bool_decide (take (length prefix) s = prefix).

(** [iter().fold(0_u8, |sum, byte| sum.wrapping_add( *byte ))] *)
Definition checksum (s : Text) : Z := foldl (fun sum c => wrapping_add U8 sum (ascii_code c)) 0 s.

(** [format!("{checksum:03}")] *)
Definition display_3 (n : Z) : Text :=
  let digits := display_uint n in
  replicate (3 - length digits) (digit_char 0) ++ digits.

(** ** Messages *)

Record Field : Type := mkField { fd_tag : Z; fd_value : Text }.
Record FixMessage : Type := mkFixMessage {
  fm_begin_string : Text;
  fm_msg_type : Text;
  fm_fields : list Field
}.
#[export] Instance Field_eq_dec : EqDecision Field.
Proof. solve_decision. Defined.
#[export] Instance FixMessage_eq_dec : EqDecision FixMessage.
Proof. solve_decision. Defined.

(** [FixMessage::new], [FixMessage::value] and [FixMessage::push] *)
Definition FixMessage_new (msg_type : Text) : FixMessage := mkFixMessage FIXT_11 msg_type [].
Definition message_value (m : FixMessage) (tag : Z) : option Text :=
  (fun found => fd_value found.2) <$> list_find (fun field => fd_tag field = tag) (fm_fields m).
Definition message_push (tag : Z) (value : Text) (m : FixMessage) : FixMessage :=
  mkFixMessage (fm_begin_string m) (fm_msg_type m) (fm_fields m ++ [mkField tag value]).

Record WireLimits : Type := mkWireLimits {
  wl_max_message_bytes : Z;
  wl_max_field_bytes : Z;
  wl_max_fields : Z;
  wl_max_buffer_bytes : Z
}.
(** [WireLimits::default()] *)
Definition WireLimits_default : WireLimits := mkWireLimits 65536 8192 256 131072.

Module WireError.
Inductive WireError : Type :=
  | BufferFull
  | MessageTooLarge
  | FieldTooLarge
  | TooManyFields
  | InvalidUtf8
  | InvalidField
  | InvalidBeginString
  | InvalidBodyLength
  | InvalidChecksum
  | MissingMsgType
  | MissingRequiredTag (tag : Z)
  | DuplicateTag (tag : Z)
  | InvalidMessageType
  | InvalidRepeatingGroup (tag : Z)
  | ReservedTag (tag : Z)
  | DictionaryUnavailable
  | UnknownTag (tag : Z).
#[export] Instance WireError_eq_dec : EqDecision WireError.
Proof. solve_decision. Defined.
End WireError.
Export WireError (WireError).

(** [usize] length of a text or a list. *)
Definition zlen {A} (l : list A) : Z := Z.of_nat (length l).

(** ** Encoding *)

(** [fn validate_value] *)
Definition validate_value (value : Text) (limits : WireLimits) : result WireError unit :=
  if bool_decide (SOH ∈ value) || bool_decide (EQUALS ∈ value) then Err WireError.InvalidField
  else if wl_max_field_bytes limits <? zlen value then Err WireError.FieldTooLarge
  else Ok tt.

(** [fn append_field]: the output extended by one field. *)
Definition append_field (output : Text) (tag : Z) (value : Text) (limits : WireLimits)
    : result WireError Text :=
  _ ← validate_value value limits;
  Ok (output ++ display_uint tag ++ [EQUALS] ++ value ++ [SOH]).

Definition reserved_tag (tag : Z) : bool := (tag =? 8) || (tag =? 9) || (tag =? 10) || (tag =? 35).

(** The loop of [FixMessage::encode] over the fields. *)
Fixpoint append_fields (body : Text) (fields : list Field) (limits : WireLimits)
    : result WireError Text :=
  match fields with
  | [] => Ok body
  | field :: fields =>
      if reserved_tag (fd_tag field) then Err (WireError.ReservedTag (fd_tag field))
      else
        body ← append_field body (fd_tag field) (fd_value field) limits;
        append_fields body fields limits
  end.

(** [FixMessage::encode] *)
Definition encode (m : FixMessage) (limits : WireLimits) : result WireError Text :=
  if wl_max_fields limits <? zlen (fm_fields m) then Err WireError.TooManyFields
  else
    _ ← validate_value (fm_begin_string m) limits;
    _ ← validate_value (fm_msg_type m) limits;
    body ← append_field [] 35 (fm_msg_type m) limits;
    body ← append_fields body (fm_fields m) limits;
    frame ← append_field [] 8 (fm_begin_string m) limits;
    frame ← append_field frame 9 (display_uint (zlen body)) limits;
    let frame := frame ++ body in
    frame ← append_field frame 10 (display_3 (checksum frame)) limits;
    if wl_max_message_bytes limits <? zlen frame then Err WireError.MessageTooLarge else Ok frame.

(** ** Decoding *)

(** [fn delimiter_after] *)
Definition delimiter_after (bytes : Text) (start : nat) : option nat :=
  if (start <=? length bytes)%nat then Nat.add start <$> position SOH (drop start bytes) else None.

(** The frame prefix [b"8=FIXT.1.1\x01"]. *)
Definition begin_prefix : Text := text "8=" ++ FIXT_11 ++ [SOH].

(** The part of [complete_frame_len] after the body-length field, which
    starts at [start] and ends at the delimiter [length_end]. *)
Definition frame_total (bytes : Text) (start length_end : nat) (limits : WireLimits)
    : result WireError (option nat) :=
  length_text ← ok_or (from_utf8 (take (length_end - (start + 2)) (drop (start + 2) bytes)))
                  WireError.InvalidBodyLength;
  body_length ← ok_or (parse_uint Usize length_text) WireError.InvalidBodyLength;
  checksum_start ← ok_or (checked_add Usize (Z.of_nat (S length_end)) body_length)
                     WireError.MessageTooLarge;
  total ← ok_or (checked_add Usize checksum_start 7) WireError.MessageTooLarge;
  if wl_max_message_bytes limits <? total then Err WireError.MessageTooLarge
  else if zlen bytes <? total then Ok None
  else
    let checksum_start := Z.to_nat checksum_start in
    let total := Z.to_nat total in
    if negb (bool_decide (get_range bytes checksum_start (checksum_start + 3) = Some (text "10=")))
       || negb (bool_decide (bytes !! (total - 1)%nat = Some SOH))
    then Err WireError.InvalidBodyLength
    else Ok (Some total).

(** [fn complete_frame_len] *)
Definition complete_frame_len (bytes : Text) (limits : WireLimits) : result WireError (option nat) :=
  match bytes with
  | [] => Ok None
  | _ :: _ =>
      if negb (starts_with begin_prefix bytes) then Err WireError.InvalidBeginString
      else
        match delimiter_after bytes 0 with
        | None => Ok None
        | Some begin_end =>
            let body_length_start := S begin_end in
            if negb (bool_decide (get_range bytes body_length_start (body_length_start + 2)
                                    = Some (text "9=")))
            then Err WireError.InvalidBodyLength
            else
              match delimiter_after bytes body_length_start with
              | None => Ok None
              | Some length_end => frame_total bytes body_length_start length_end limits
              end
        end
  end.

(** One field of a frame: the body of the loop of [parse_frame]. *)
Definition parse_field (raw : Text) (limits : WireLimits) : result WireError Field :=
  equals ← ok_or (position EQUALS raw) WireError.InvalidField;
  tag ← ok_or (from_utf8 (take equals raw)) WireError.InvalidUtf8;
  tag ← ok_or (parse_uint U32 tag) WireError.InvalidField;
  value ← ok_or (from_utf8 (drop (S equals) raw)) WireError.InvalidUtf8;
  _ ← validate_value value limits;
  Ok (mkField tag value).
Fixpoint parse_fields (raws : list Text) (limits : WireLimits) : result WireError (list Field) :=
  match raws with
  | [] => Ok []
  | raw :: raws =>
      field ← parse_field raw limits;
      fields ← parse_fields raws limits;
      Ok (field :: fields)
  end.

Definition header_tag (tag : Z) : bool := (tag =? 8) || (tag =? 9) || (tag =? 35).

(** The value of the field at [index] if it has the given tag. *)
Definition tagged (parsed : list Field) (index : nat) (tag : Z) : option Text :=
  field ← parsed !! index;
  if fd_tag field =? tag then Some (fd_value field) else None.

(** [fn parse_frame] *)
Definition parse_frame (frame : Text) (limits : WireLimits) : result WireError FixMessage :=
  if (length frame <? 7)%nat then Err WireError.InvalidChecksum
  else
    let checksum_start := (length frame - 7)%nat in
    expected ← ok_or (from_utf8 (take 3 (drop (checksum_start + 3) frame))) WireError.InvalidChecksum;
    expected ← ok_or (parse_uint U8 expected) WireError.InvalidChecksum;
    let actual := checksum (take checksum_start frame) in
    if negb (actual =? expected) then Err WireError.InvalidChecksum
    else
      parsed ← parse_fields
        (filter (fun raw => raw <> []) (split_on SOH (take checksum_start frame))) limits;
      if wl_max_fields limits + 3 <? zlen parsed then Err WireError.TooManyFields
      else
        begin_string ← ok_or (tagged parsed 0 8) WireError.InvalidBeginString;
        if negb (bool_decide (begin_string = FIXT_11)) then Err WireError.InvalidBeginString
        else if negb (bool_decide (fd_tag <$> parsed !! 1%nat = Some 9))
        then Err WireError.InvalidBodyLength
        else
          msg_type ← ok_or (tagged parsed 2 35) WireError.MissingMsgType;
          Ok (mkFixMessage begin_string msg_type
                (filter (fun field => header_tag (fd_tag field) = false) parsed)).

(** ** The dictionaries *)

(** What the loaded dictionaries of [CompetitionDictionary] know. *)
Class FixDictionary := {
  session_message : Text -> bool;
  application_message : Text -> bool;
  session_field : Z -> bool;
  application_field : Z -> bool
}.

Section dictionary.
Context `{FixDictionary}.

Definition extension_message (msg_type : Text) : bool :=
  bool_decide (msg_type ∈ [text "U6"; text "U9"; text "UA"; text "UB"; text "UC"]).
Definition known_field (field : Field) : bool :=
  session_field (fd_tag field) || application_field (fd_tag field)
  || ((10000 <=? fd_tag field) && (fd_tag field <=? 10023)).

(** [CompetitionDictionary::validate] *)
Definition dictionary_validate (m : FixMessage) : result WireError unit :=
  if negb (bool_decide (fm_begin_string m = FIXT_11)) then Err WireError.InvalidBeginString
  else if negb (session_message (fm_msg_type m) || application_message (fm_msg_type m))
       && negb (extension_message (fm_msg_type m))
  then Err WireError.InvalidMessageType
  else check_all (fun field => err_if (negb (known_field field)) (WireError.UnknownTag (fd_tag field)))
         (fm_fields m).

(** ** The decoder *)

Record Decoder : Type := mkDecoder { dc_limits : WireLimits; dc_buffer : Text }.

(** [Decoder::try_new] and [Decoder::retained_bytes] *)
Definition Decoder_new (limits : WireLimits) : Decoder := mkDecoder limits [].
Definition retained_bytes (d : Decoder) : nat := length (dc_buffer d).

Definition with_buffer (b : Text) (d : Decoder) : Decoder := mkDecoder (dc_limits d) b.

(** The loop of [Decoder::push].  Every iteration drains a frame of at least
    seven bytes, so the length of the buffer is enough fuel. *)
Fixpoint drain (fuel : nat) (messages : list FixMessage) : M Decoder WireError (list FixMessage) :=
  match fuel with
  | O => mret messages
  | S fuel =>
      d ← gets id;
      frame_len ← lift (complete_frame_len (dc_buffer d) (dc_limits d));
      match frame_len with
      | None => mret messages
      | Some frame_len =>
          let frame := take frame_len (dc_buffer d) in
          modify (with_buffer (drop frame_len (dc_buffer d)));;
          message ← lift (parse_frame frame (dc_limits d));
          lift (dictionary_validate message);;
          drain fuel (messages ++ [message])
      end
  end.

(** [Decoder::push] *)
Definition decoder_push (bytes : Text) : M Decoder WireError (list FixMessage) :=
  d ← gets id;
  refuse_if (wl_max_buffer_bytes (dc_limits d)
             <? Z.min (zlen (dc_buffer d) + zlen bytes) (int_max Usize)) WireError.BufferFull;;
  modify (with_buffer (dc_buffer d ++ bytes));;
  d ← gets id;
  drain (S (length (dc_buffer d))) [].

(** ** Competition rules *)

Record MessageRule : Type := mkMessageRule {
  mr_msg_type : Text;
  mr_required_tags : list Z;
  mr_allowed_tags : list Z
}.
Definition STANDARD_HEADER_TAGS : list Z := [49; 56; 34; 43; 52; 122].
Definition NEW_ORDER_SINGLE : MessageRule :=
  mkMessageRule (text "D") [11; 48; 207; 54; 38; 40]
    [11; 48; 207; 54; 38; 40; 44; 59; 18; 1138; 60; 10021; 10022].
Definition CANCEL_REQUEST : MessageRule :=
  mkMessageRule (text "F") [11; 41; 48; 54] [11; 41; 37; 48; 54; 60].
Definition REPLACE_REQUEST : MessageRule :=
  mkMessageRule (text "G") [11; 41; 48; 54; 38; 40]
    [11; 41; 37; 48; 54; 38; 40; 44; 59; 18; 1138; 60; 10022].
Definition STATUS_REQUEST : MessageRule := mkMessageRule (text "H") [37] [11; 37; 48; 54].
Definition MARKET_DATA_REQUEST : MessageRule :=
  mkMessageRule (text "V") [262; 263; 264; 267; 269; 48; 207]
    [262; 263; 264; 265; 266; 267; 269; 146; 55; 48; 207].

(** [fn competition_rule] *)
Definition competition_rule (msg_type : Text) : option MessageRule :=
  snd <$> list_find (fun rule => mr_msg_type rule = msg_type)
    [NEW_ORDER_SINGLE; CANCEL_REQUEST; REPLACE_REQUEST; STATUS_REQUEST; MARKET_DATA_REQUEST].

(** The second loop of [validate_competition]: [prior] holds the fields
    before the current one. *)
Fixpoint check_fields (rule : MessageRule) (prior fields : list Field) : result WireError unit :=
  match fields with
  | [] => Ok tt
  | field :: fields =>
      let tag := fd_tag field in
      if existsb (fun f => fd_tag f =? tag) prior
         && negb ((tag =? 269) || (tag =? 55) || (tag =? 48))
      then Err (WireError.DuplicateTag tag)
      else if negb (bool_decide (tag ∈ STANDARD_HEADER_TAGS))
           && negb (bool_decide (tag ∈ mr_allowed_tags rule))
      then Err WireError.InvalidField
      else check_fields rule (prior ++ [field]) fields
  end.

(** [fn validate_competition] *)
Definition validate_competition (m : FixMessage) : result WireError unit :=
  _ ← dictionary_validate m;
  match competition_rule (fm_msg_type m) with
  | None => Ok tt
  | Some rule =>
      _ ← check_all (fun required =>
            err_if (negb (existsb (fun f => fd_tag f =? required) (fm_fields m)))
              (WireError.MissingRequiredTag required)) (mr_required_tags rule);
      check_fields rule [] (fm_fields m)
  end.
End dictionary.

(** ** Repeating groups *)

Record RepeatingGroup : Type := mkRepeatingGroup {
  rg_count_tag : Z;
  rg_delimiter_tag : Z;
  rg_entries : list (list Field)
}.

(** The loop of [FixMessage::repeating_group]: the entries closed so far and
    the one being read; it stops at the first field of another tag. *)
Fixpoint read_group (count_tag delimiter_tag : Z) (member_tags : list Z) (fields : list Field)
    (entries : list (list Field)) (current : list Field)
    : result WireError (list (list Field) * list Field) :=
  match fields with
  | [] => Ok (entries, current)
  | field :: fields =>
      if fd_tag field =? delimiter_tag then
        read_group count_tag delimiter_tag member_tags fields
          (if bool_decide (current = []) then entries else entries ++ [current]) [field]
      else if bool_decide (fd_tag field ∈ member_tags) then
        if bool_decide (current = []) || existsb (fun item => fd_tag item =? fd_tag field) current
        then Err (WireError.InvalidRepeatingGroup count_tag)
        else read_group count_tag delimiter_tag member_tags fields entries (current ++ [field])
      else Ok (entries, current)
  end.

(** [FixMessage::repeating_group] *)
Definition repeating_group (m : FixMessage) (count_tag delimiter_tag : Z) (member_tags : list Z)
    : result WireError RepeatingGroup :=
  '(count_index, count_field) ← ok_or (list_find (fun field => fd_tag field = count_tag) (fm_fields m))
                                  (WireError.MissingRequiredTag count_tag);
  count ← ok_or (parse_uint Usize (fd_value count_field)) (WireError.InvalidRepeatingGroup count_tag);
  '(entries, current) ← read_group count_tag delimiter_tag member_tags
                          (drop (S count_index) (fm_fields m)) [] [];
  let entries := if bool_decide (current = []) then entries else entries ++ [current] in
  if negb (zlen entries =? count)
     || existsb (fun entry => negb (bool_decide (fd_tag <$> head entry = Some delimiter_tag))) entries
  then Err (WireError.InvalidRepeatingGroup count_tag)
  else Ok (mkRepeatingGroup count_tag delimiter_tag entries).
