(* ===== verification/FixFrames.v ===== *)
(** * simfix-wire: framing is lossless

    What [FixMessage::encode] writes is what the incremental [Decoder] reads,
    however the bytes are cut into chunks, provided that no cut falls inside
    the first thirteen bytes of a frame; such a cut the decoder refuses.  A
    corrupted byte never goes unnoticed. *)

From S2P Require Import Prelude Decimal FixWire.
From Stdlib Require Import Ascii.
#[local] Open Scope list_scope.

(** ** Text *)

Lemma position_app c a b : c ∉ a -> position c (a ++ c :: b) = Some (length a).
Proof.
  induction a as [|x a IH]; intros Hc; simpl; [by rewrite bool_decide_true |].
  rewrite bool_decide_false by set_solver. by rewrite IH by set_solver.
Qed.
Lemma position_None c s : c ∉ s -> position c s = None.
Proof.
  induction s as [|x s IH]; intros Hc; simpl; [done |].
  rewrite bool_decide_false by set_solver. by rewrite IH by set_solver.
Qed.

Lemma split_on_None c s : c ∉ s -> split_on c s = [s].
Proof.
  induction s as [|x s IH]; intros Hc; simpl; [done |].
  rewrite bool_decide_false by set_solver. by rewrite IH by set_solver.
Qed.
Lemma split_on_app c a b : c ∉ a -> split_on c (a ++ c :: b) = a :: split_on c b.
Proof.
  induction a as [|x a IH]; intros Hc; simpl; [by rewrite bool_decide_true |].
  rewrite bool_decide_false by set_solver. by rewrite IH by set_solver.
Qed.

Lemma valid_utf8_ascii s : Forall (fun c => byte_in 0 0x7F c = true) s -> valid_utf8 s = true.
Proof. induction 1 as [|c s Hc _ IH]; [done |]. simpl. by rewrite Hc. Qed.

Lemma is_digit_ascii c : is_digit c -> byte_in 0 0x7F c = true.
Proof. unfold is_digit, byte_in. intros. apply andb_true_iff. split; apply Z.leb_le; lia. Qed.
Lemma from_utf8_digits n : 0 <= n -> from_utf8 (display_uint n) = Some (display_uint n).
Proof.
  intros Hn. unfold from_utf8. rewrite valid_utf8_ascii; [done |].
  eapply Forall_impl; [by apply display_uint_digits | apply is_digit_ascii].
Qed.
Lemma digits_no_soh n : 0 <= n -> SOH ∉ display_uint n.
Proof. intros. apply display_uint_no; [done | by left]. Qed.
Lemma digits_no_equals n : 0 <= n -> EQUALS ∉ display_uint n.
Proof. intros. apply display_uint_no; [done | by right]. Qed.

(** The three digits of a checksum, by enumeration of the bytes. *)
Definition checksum_text_ok (n : Z) : bool :=
  (length (display_3 n) =? 3)%nat && negb (bool_decide (SOH ∈ display_3 n))
  && bool_decide (from_utf8 (display_3 n) = Some (display_3 n))
  && bool_decide (parse_uint U8 (display_3 n) = Some n).
Lemma checksum_text n :
  0 <= n < 256 ->
  length (display_3 n) = 3%nat /\ SOH ∉ display_3 n /\
  from_utf8 (display_3 n) = Some (display_3 n) /\ parse_uint U8 (display_3 n) = Some n.
Proof.
  intros Hn.
  assert (Hall : forallb (fun k => checksum_text_ok (Z.of_nat k)) (seq 0 256) = true)
    by (vm_compute; reflexivity).
  rewrite forallb_forall in Hall. specialize (Hall (Z.to_nat n)).
  assert (Hin : In (Z.to_nat n) (seq 0 256)) by (apply in_seq; lia). specialize (Hall Hin).
  rewrite Z2Nat.id in Hall by lia. unfold checksum_text_ok in Hall.
  rewrite !andb_true_iff, Nat.eqb_eq, negb_true_iff, bool_decide_eq_false, !bool_decide_eq_true in Hall.
  tauto.
Qed.

(** The running 8-bit sum is the sum of the bytes modulo 256. *)
Lemma checksum_sum s : checksum s = sumZ (ascii_code <$> s) mod 256.
Proof.
  unfold checksum.
  assert (H : forall acc, foldl (fun sum c => wrapping_add U8 sum (ascii_code c)) (acc mod 256) s
    = (acc + sumZ (ascii_code <$> s)) mod 256).
  { induction s as [|c s IH]; intros acc; simpl; [by rewrite Z.add_0_r |].
    unfold wrapping_add, wrap. change (int_max U8 + 1) with 256.
    by rewrite IH, <- Z.add_assoc, Zplus_mod_idemp_l. }
  specialize (H 0). by rewrite Z.add_0_l in H.
Qed.
Lemma checksum_byte s : 0 <= checksum s < 256.
Proof. rewrite checksum_sum. apply Z.mod_pos_bound. lia. Qed.

(** ** Encoded frames *)

Section frames.
Context (limits : WireLimits).

Definition field_text (f : Field) : Text := display_uint (fd_tag f) ++ [EQUALS] ++ fd_value f.
Definition lines (fs : list Field) : Text := fs ≫= fun f => field_text f ++ [SOH].

(** The values of a message as Rust strings, its tags as [u32]. *)
Definition field_typed (f : Field) : Prop :=
  0 <= fd_tag f <= int_max U32 /\ valid_utf8 (fd_value f) = true.
Definition message_typed (m : FixMessage) : Prop :=
  valid_utf8 (fm_msg_type m) = true /\ Forall field_typed (fm_fields m).

Definition valid_value (v : Text) : Prop :=
  SOH ∉ v /\ EQUALS ∉ v /\ zlen v <= wl_max_field_bytes limits.

Lemma validate_value_Ok v u : validate_value v limits = Ok u <-> valid_value v.
Proof.
  unfold validate_value, valid_value. destruct u.
  destruct (bool_decide_reflect (SOH ∈ v)); simpl; [split; [done | tauto] |].
  destruct (bool_decide_reflect (EQUALS ∈ v)); simpl; [split; [done | tauto] |].
  destruct (Z.ltb_spec (wl_max_field_bytes limits) (zlen v)); [split; [done | lia] |]. split; [done | done].
Qed.

Lemma append_field_Ok out tag v out' :
  append_field out tag v limits = Ok out' ->
  valid_value v /\ out' = out ++ field_text (mkField tag v) ++ [SOH].
Proof.
  unfold append_field. intros (u & Hv%validate_value_Ok & H)%result_bind_Ok. injection H as <-.
  split; [done |]. unfold field_text. simpl. by rewrite <- !app_assoc.
Qed.

Lemma append_fields_Ok fs out out' :
  append_fields out fs limits = Ok out' ->
  out' = out ++ lines fs /\
  Forall (fun f => reserved_tag (fd_tag f) = false /\ valid_value (fd_value f)) fs.
Proof.
  revert out. induction fs as [|f fs IH]; intros out H; simpl in H.
  - injection H as <-. by rewrite app_nil_r.
  - destruct (reserved_tag (fd_tag f)) eqn:Hr; [done |].
    apply result_bind_Ok in H as (o & [Hv ->]%append_field_Ok & [-> Hfs]%IH).
    destruct f as [t v]. simpl in *. split; [by rewrite <- !app_assoc | by constructor].
Qed.

(** The three header fields and the message, as one list of fields. *)
Definition all_fields (m : FixMessage) (body_length : Z) : list Field :=
  mkField 8 (fm_begin_string m) :: mkField 9 (display_uint body_length)
  :: mkField 35 (fm_msg_type m) :: fm_fields m.
Definition body_text (m : FixMessage) : Text := lines (mkField 35 (fm_msg_type m) :: fm_fields m).
Definition checksum_field (s : Text) : Text := text "10=" ++ display_3 (checksum s) ++ [SOH].

Lemma encode_Ok m frame :
  encode m limits = Ok frame ->
  let fs := all_fields m (zlen (body_text m)) in
  frame = lines fs ++ checksum_field (lines fs) /\
  zlen frame <= wl_max_message_bytes limits /\ zlen (fm_fields m) <= wl_max_fields limits /\
  Forall (fun f => valid_value (fd_value f)) fs /\
  Forall (fun f => reserved_tag (fd_tag f) = false) (fm_fields m).
Proof.
  unfold encode. destruct (Z.ltb_spec (wl_max_fields limits) (zlen (fm_fields m))); [done |].
  intros (? & _ & H1)%result_bind_Ok. apply result_bind_Ok in H1 as (? & _ & H1).
  apply result_bind_Ok in H1 as (b0 & [Hv35 ->]%append_field_Ok & H1).
  apply result_bind_Ok in H1 as (body & [-> Hfs]%append_fields_Ok & H1).
  apply result_bind_Ok in H1 as (f8 & [Hv8 ->]%append_field_Ok & H1).
  apply result_bind_Ok in H1 as (f9 & [Hv9 ->]%append_field_Ok & H1).
  apply result_bind_Ok in H1 as (fr & [_ Hfr]%append_field_Ok & H1).
  destruct (Z.ltb_spec (wl_max_message_bytes limits) (zlen fr)); [done |]. injection H1 as <-.
  change (([] ++ field_text (mkField 35 (fm_msg_type m)) ++ [SOH]) ++ lines (fm_fields m))
    with (body_text m) in *.
  assert (Hl : lines (all_fields m (zlen (body_text m))) =
    (([] ++ field_text (mkField 8 (fm_begin_string m)) ++ [SOH]) ++
     field_text (mkField 9 (display_uint (zlen (body_text m)))) ++ [SOH]) ++ body_text m)
    by (rewrite <- app_assoc; done).
  cbn zeta. rewrite Hl. split_and!; try done.
  - repeat (constructor; [done |]). eapply Forall_impl; [exact Hfs | by intros ? []].
  - eapply Forall_impl; [exact Hfs | by intros ? []].
Qed.

(** ** Parsing a frame *)

Lemma field_text_nonempty f : field_text f <> [].
Proof. unfold field_text. intros H. apply app_eq_nil in H as [_ H]. done. Qed.
Lemma field_text_no_soh f : 0 <= fd_tag f -> SOH ∉ fd_value f -> SOH ∉ field_text f.
Proof.
  intros Ht Hv. unfold field_text. rewrite !elem_of_app. intros [H|[H|H]]; [| by apply list_elem_of_singleton in H | done].
  by apply (digits_no_soh (fd_tag f)).
Qed.

Lemma parse_field_text f :
  field_typed f -> valid_value (fd_value f) -> parse_field (field_text f) limits = Ok f.
Proof.
  intros [Ht Hu] Hv. unfold parse_field, field_text.
  change ([EQUALS] ++ ?v) with (EQUALS :: v).
  rewrite (position_app EQUALS) by (apply digits_no_equals; lia). cbn [ok_or mbind result_bind].
  rewrite take_app_length, from_utf8_digits by lia. cbn [ok_or mbind result_bind].
  rewrite parse_display by (done || lia). cbn [ok_or mbind result_bind].
  rewrite drop_app_ge by lia. replace (S _ - _)%nat with 1%nat by lia. cbn [drop]. rewrite drop_0.
  unfold from_utf8. rewrite Hu. cbn [ok_or mbind result_bind].
  destruct (validate_value (fd_value f) limits) as [[]|e] eqn:He; [by destruct f |].
  apply (validate_value_Ok (fd_value f) tt) in Hv. congruence.
Qed.

Lemma parse_fields_text fs :
  Forall field_typed fs -> Forall (fun f => valid_value (fd_value f)) fs ->
  parse_fields (field_text <$> fs) limits = Ok fs.
Proof.
  induction fs as [|f fs IH]; [done |]. intros [Ht Hts]%Forall_cons [Hv Hvs]%Forall_cons.
  cbn [fmap list_fmap parse_fields]. rewrite (parse_field_text f Ht Hv). cbn [mbind result_bind].
  by rewrite IH.
Qed.

Lemma split_lines fs :
  Forall (fun f => 0 <= fd_tag f /\ SOH ∉ fd_value f) fs ->
  filter (fun raw => raw <> []) (split_on SOH (lines fs)) = field_text <$> fs.
Proof.
  induction fs as [|f fs IH]; [done |]. intros [[Ht Hv] Hfs]%Forall_cons.
  change (lines (f :: fs)) with ((field_text f ++ [SOH]) ++ lines fs). rewrite <- app_assoc.
  change ([SOH] ++ ?x) with (SOH :: x).
  rewrite split_on_app by (by apply field_text_no_soh).
  rewrite filter_cons_True by apply field_text_nonempty. by rewrite IH.
Qed.

Lemma header_fields m n :
  Forall (fun f => reserved_tag (fd_tag f) = false) (fm_fields m) ->
  filter (fun field => header_tag (fd_tag field) = false) (all_fields m n) = fm_fields m.
Proof.
  intros Hr. unfold all_fields. do 3 (rewrite filter_cons_False by done).
  induction Hr as [|f fs Hf _ IH]; [done |]. rewrite filter_cons_True; [by rewrite IH |].
  unfold reserved_tag in Hf. unfold header_tag. rewrite !orb_false_iff in *. tauto.
Qed.

Lemma length_checksum_field s : length (checksum_field s) = 7%nat.
Proof.
  unfold checksum_field. rewrite !length_app.
  destruct (checksum_text (checksum s) (checksum_byte s)) as [-> _]. done.
Qed.

Lemma checksum_digits s : take 3 (drop 3 (checksum_field s)) = display_3 (checksum s).
Proof.
  destruct (checksum_text (checksum s) (checksum_byte s)) as [H3 _]. unfold checksum_field.
  change (drop 3 (text "10=" ++ ?x)) with x. rewrite take_app_le, take_ge by lia. done.
Qed.

Lemma parse_frame_encode m frame :
  encode m limits = Ok frame -> message_typed m -> fm_begin_string m = FIXT_11 ->
  parse_frame frame limits = Ok m.
Proof.
  intros Henc [Hu Hty] Hb. destruct (encode_Ok m frame Henc) as (Hfr & _ & Hn & Hv & Hr).
  set (fs := all_fields m (zlen (body_text m))) in *.
  assert (Hts : Forall field_typed fs).
  { assert (field_typed (mkField 9 (display_uint (zlen (body_text m))))) as H9.
    { split; [done |]. cbn [fd_value]. assert (0 <= zlen (body_text m)) as H0 by (unfold zlen; lia).
      apply from_utf8_digits in H0. unfold from_utf8 in H0. by case_match. }
    unfold fs, all_fields. constructor; [split; [done | by rewrite Hb] |].
    constructor; [done |]. constructor; [by split | done]. }
  pose proof (length_checksum_field (lines fs)) as H7.
  destruct (checksum_text (checksum (lines fs)) (checksum_byte _)) as (H3 & _ & Hutf & Hparse).
  unfold parse_frame. rewrite Hfr, length_app, H7.
  rewrite (proj2 (Nat.ltb_ge _ _)) by lia. replace (length (lines fs) + 7 - 7)%nat with (length (lines fs)) by lia.
  cbv zeta. rewrite drop_app_ge by lia. replace (length (lines fs) + 3 - length (lines fs))%nat with 3%nat by lia.
  rewrite checksum_digits, Hutf. cbn [ok_or mbind result_bind].
  rewrite Hparse. cbn [ok_or mbind result_bind]. rewrite take_app_length, Z.eqb_refl. cbn [negb].
  rewrite split_lines, parse_fields_text; [| done | done |].
  2: { eapply Forall_impl; [exact (proj2 (Forall_and _ _) (conj Hts Hv)) |].
       intros f [[? _] [? _]]. split; [lia | done]. }
  cbn [mbind result_bind].
  rewrite (proj2 (Z.ltb_ge _ _)) by (unfold fs, all_fields, zlen in *; simpl length; lia).
  change (tagged fs 0 8) with (Some (fm_begin_string m)). cbn [ok_or mbind result_bind].
  rewrite (bool_decide_true (fm_begin_string m = FIXT_11)) by done. cbn [negb].
  change (fd_tag <$> fs !! 1%nat) with (Some 9). rewrite (bool_decide_true (Some 9 = Some 9)) by done. cbn [negb].
  change (tagged fs 2 35) with (Some (fm_msg_type m)). cbn [ok_or mbind result_bind].
  unfold fs. rewrite header_fields by done. by destruct m.
Qed.

(** ** Finding a frame in the buffer *)

(** The thirteen bytes every frame starts with. *)
Definition head13 : Text := begin_prefix ++ text "9=".

Lemma frame_len_head q :
  complete_frame_len (head13 ++ q) limits =
  match position SOH q with
  | None => Ok None
  | Some k => frame_total (head13 ++ q) 11 (13 + k) limits
  end.
Proof.
  assert (Hl : (11 <=? length (head13 ++ q))%nat = true) by (rewrite length_app; reflexivity).
  assert (H2 : delimiter_after (head13 ++ q) 11 = Nat.add 13 <$> position SOH q).
  { unfold delimiter_after. rewrite Hl.
    change (drop 11 (head13 ++ q)) with ("9"%char :: "="%char :: q). cbn [position].
    rewrite !bool_decide_false by done. by destruct (position SOH q). }
  unfold complete_frame_len. change (match head13 ++ q with [] => ?x | _ :: _ => ?y end) with y.
  change (starts_with begin_prefix (head13 ++ q)) with true.
  change (delimiter_after (head13 ++ q) 0) with (Some 10%nat). cbn [negb].
  change (get_range (head13 ++ q) 11 (11 + 2)) with (Some (text "9=")).
  rewrite bool_decide_true by done. cbn [negb]. rewrite H2. by destruct (position SOH q).
Qed.

Definition frame_size (n : Z) : Z := 21 + zlen (display_uint n) + n.

(** Reading the body length. *)
Lemma frame_total_length n q :
  0 <= n -> frame_size n <= wl_max_message_bytes limits -> wl_max_message_bytes limits <= int_max Usize ->
  let bytes := head13 ++ display_uint n ++ SOH :: q in
  let start := Z.to_nat (frame_size n - 7) in
  frame_total bytes 11 (13 + length (display_uint n)) limits =
  if zlen bytes <? frame_size n then Ok None
  else if negb (bool_decide (get_range bytes start (start + 3) = Some (text "10=")))
          || negb (bool_decide (bytes !! (Z.to_nat (frame_size n) - 1)%nat = Some SOH))
       then Err WireError.InvalidBodyLength
       else Ok (Some (Z.to_nat (frame_size n))).
Proof.
  intros Hn Hmax Hus bytes start. unfold frame_total.
  assert (Ht : take (13 + length (display_uint n) - (11 + 2)) (drop (11 + 2) bytes) = display_uint n).
  { unfold bytes. change (drop (11 + 2) (head13 ++ ?x)) with x.
    replace (13 + length (display_uint n) - (11 + 2))%nat with (length (display_uint n)) by lia.
    apply take_app_length. }
  assert (Hsz : int_min Usize = 0) by done. unfold frame_size, zlen in Hmax.
  rewrite Ht, from_utf8_digits by done. cbn [ok_or mbind result_bind].
  rewrite parse_display by (done || lia). cbn [ok_or mbind result_bind].
  unfold checked_add. rewrite checked_in by lia. cbn [ok_or mbind result_bind].
  rewrite checked_in by lia. cbn [ok_or mbind result_bind].
  replace (Z.of_nat (S (13 + length (display_uint n))) + n) with (frame_size n - 7) by (unfold frame_size, zlen; lia).
  replace (frame_size n - 7 + 7) with (frame_size n) by lia. fold start.
  rewrite (proj2 (Z.ltb_ge _ _)) by (unfold frame_size, zlen; lia). done.
Qed.

Lemma frame_shape m frame :
  encode m limits = Ok frame -> fm_begin_string m = FIXT_11 ->
  let n := zlen (body_text m) in
  exists s, frame = head13 ++ display_uint n ++ SOH :: body_text m ++ checksum_field s /\
    zlen frame = frame_size n /\ frame_size n <= wl_max_message_bytes limits.
Proof.
  intros Henc Hb n. destruct (encode_Ok m frame Henc) as (Hfr & Hmax & _). fold n in Hfr.
  assert (Hl : lines (all_fields m n) = head13 ++ display_uint n ++ SOH :: body_text m).
  { unfold all_fields. rewrite Hb.
    change (lines (mkField 8 FIXT_11 :: mkField 9 (display_uint n) :: ?fs)) with
      (head13 ++ (display_uint n ++ [SOH]) ++ lines fs). by rewrite <- app_assoc. }
  exists (lines (all_fields m n)).
  assert (Hf : frame = head13 ++ display_uint n ++ SOH :: body_text m ++ checksum_field (lines (all_fields m n))).
  { rewrite Hfr at 1. rewrite Hl at 1. by rewrite <- !app_assoc. }
  assert (Hz : zlen frame = frame_size n).
  { rewrite Hf. unfold zlen, frame_size, n, zlen. rewrite !length_app. cbn [length].
    rewrite length_app, length_checksum_field. change (length head13) with 13%nat. lia. }
  split_and!; [done | done | lia].
Qed.

Lemma frame_len_frame m frame rest :
  encode m limits = Ok frame -> fm_begin_string m = FIXT_11 ->
  wl_max_message_bytes limits <= int_max Usize ->
  complete_frame_len (frame ++ rest) limits = Ok (Some (length frame)).
Proof.
  intros Henc Hb Hus. destruct (frame_shape m frame Henc Hb) as (s & Hf & Hz & Hmax).
  set (n := zlen (body_text m)) in *. assert (Hn : 0 <= n) by (unfold n, zlen; lia).
  assert (Hx : frame ++ rest = head13 ++ display_uint n ++ SOH :: body_text m ++ checksum_field s ++ rest).
  { rewrite Hf, <- !app_assoc. cbn [app]. by rewrite <- !app_assoc. }
  assert (Hst : Z.to_nat (frame_size n - 7) = length (head13 ++ display_uint n ++ SOH :: body_text m)).
  { unfold frame_size, n, zlen. rewrite !length_app. cbn [length]. change (length head13) with 13%nat. lia. }
  assert (Hy : frame ++ rest = (head13 ++ display_uint n ++ SOH :: body_text m) ++ checksum_field s ++ rest)
    by (rewrite Hx, <- !app_assoc; done).
  assert (Hlen : length (checksum_field s) = 7%nat) by apply length_checksum_field.
  rewrite Hx, frame_len_head, position_app, frame_total_length by (done || by apply digits_no_soh).
  rewrite <- Hx, (proj2 (Z.ltb_ge _ _)) by (unfold zlen in *; rewrite length_app; lia).
  rewrite bool_decide_true, bool_decide_true; cbn [negb orb].
  - unfold zlen in Hz. f_equal. f_equal. lia.
  - replace (Z.to_nat (frame_size n) - 1)%nat with (Z.to_nat (frame_size n - 7) + 6)%nat by (unfold frame_size, zlen; lia).
    rewrite Hst, Hy, lookup_app_r by lia. replace (_ + 6 - _)%nat with 6%nat by lia.
    rewrite lookup_app_l by lia. unfold checksum_field.
    destruct (checksum_text (checksum s) (checksum_byte s)) as [H3 _].
    rewrite lookup_app_r by (cbn; lia). change (6 - length (text "10="))%nat with 3%nat.
    rewrite lookup_app_r by lia. by rewrite H3.
  - rewrite Hst, Hy. unfold get_range.
    rewrite (proj2 (Nat.leb_le _ _)), (proj2 (Nat.leb_le _ _)) by (rewrite !length_app; lia). cbn [andb].
    rewrite drop_app_length. replace (_ + 3 - _)%nat with 3%nat by lia. done.
Qed.

Lemma frame_len_partial m frame k :
  encode m limits = Ok frame -> fm_begin_string m = FIXT_11 ->
  wl_max_message_bytes limits <= int_max Usize -> (13 <= k < length frame)%nat ->
  complete_frame_len (take k frame) limits = Ok None.
Proof.
  intros Henc Hb Hus Hk. destruct (frame_shape m frame Henc Hb) as (s & Hf & Hz & Hmax).
  set (n := zlen (body_text m)) in *. assert (Hn : 0 <= n) by (unfold n, zlen; lia).
  set (tail := body_text m ++ checksum_field s) in *.
  assert (Hp : take k frame = head13 ++ take (k - 13) (display_uint n ++ SOH :: tail)).
  { rewrite Hf, take_app_ge by (change (length head13) with 13%nat; lia). done. }
  rewrite Hp, frame_len_head. destruct (decide (k - 13 <= length (display_uint n))%nat) as [Hle|Hgt].
  - rewrite take_app_le by done. rewrite position_None; [done |].
    intros Hin%elem_of_take. destruct Hin as (i & Hi & _). apply list_elem_of_lookup_2 in Hi.
    by apply (digits_no_soh n).
  - rewrite take_app_ge by lia. destruct (k - 13 - length (display_uint n))%nat as [|j] eqn:Hj; [lia |].
    cbn [take]. rewrite position_app, frame_total_length by (done || by apply digits_no_soh).
    rewrite (proj2 (Z.ltb_lt _ _)); [done |]. rewrite <- Hz. unfold zlen.
    assert (length (head13 ++ display_uint n ++ SOH :: take j tail) <= k)%nat; [| lia].
    rewrite !length_app. cbn [length]. rewrite length_take. change (length head13) with 13%nat. lia.
Qed.
End frames.

(** * simfix-wire: streams of frames

    The decoder of [packages/simfix-wire/src/lib.rs] over a byte stream cut
    into chunks, and what it does with damaged bytes. *)

Section stream.
Context `{FixDictionary} (limits : WireLimits).

(** A message the sender can frame and the receiver's dictionaries know. *)
Record sendable (m : FixMessage) (frame : Text) : Prop := {
  sd_encode : encode m limits = Ok frame;
  sd_typed : message_typed m;
  sd_known : dictionary_validate m = Ok tt
}.

Lemma sendable_begin m frame : sendable m frame -> fm_begin_string m = FIXT_11.
Proof.
  intros [_ _ Hk]. unfold dictionary_validate in Hk.
  destruct (bool_decide_reflect (fm_begin_string m = FIXT_11)); [done | discriminate Hk].
Qed.

(** The byte limit is a [usize]. *)
Definition limits_typed : Prop := 0 <= wl_max_message_bytes limits <= int_max Usize.

(** A buffer without a complete frame. *)
Definition waiting (p : Text) : Prop := complete_frame_len p limits = Ok None.

(** ** Draining the buffer *)

Lemma drain_frames ms frames p acc fuel :
  limits_typed -> Forall2 sendable ms frames -> waiting p ->
  (length frames < fuel)%nat ->
  drain fuel acc (mkDecoder limits (concat frames ++ p)) = (mkDecoder limits p, Ok (acc ++ ms)).
Proof.
  intros [_ Hus] Hms Hp. revert acc fuel.
  induction Hms as [|m frame ms frames Hm _ IH]; intros acc [|fuel] Hf; simpl in Hf; try lia.
  - cbn [concat app drain]. rewrite bind_gets. cbn [id dc_buffer dc_limits].
    unfold waiting in Hp. rewrite (bind_lift _ _ _ None) by done. by rewrite app_nil_r.
  - pose proof (sendable_begin m frame Hm) as Hb. destruct Hm as [He Ht Hk].
    cbn [concat drain]. rewrite bind_gets. cbn [id dc_buffer dc_limits]. rewrite <- app_assoc.
    rewrite (bind_lift _ _ _ (Some (length frame))) by (by apply (frame_len_frame _ m)).
    rewrite take_app_length, drop_app_length, bind_modify. cbn [with_buffer dc_limits].
    rewrite (bind_lift _ _ _ m) by (by apply parse_frame_encode). rewrite (bind_lift _ _ _ tt) by done.
    rewrite IH by lia. by rewrite <- app_assoc.
Qed.

Lemma frames_length ms frames : Forall2 sendable ms frames -> (length frames <= length (concat frames))%nat.
Proof.
  induction 1 as [|m frame ms frames Hm _ IH]; [done |]. cbn [length concat]. rewrite length_app.
  destruct (frame_shape limits m frame (sd_encode _ _ Hm) (sendable_begin _ _ Hm)) as (s & Hf & _).
  rewrite Hf, length_app. change (length head13) with 13%nat. lia.
Qed.

Lemma push_frames b bytes ms frames p :
  limits_typed -> Forall2 sendable ms frames -> waiting p -> b ++ bytes = concat frames ++ p ->
  zlen b + zlen bytes <= wl_max_buffer_bytes limits ->
  decoder_push bytes (mkDecoder limits b) = (mkDecoder limits p, Ok ms).
Proof.
  intros Hl Hms Hp Hb Hmax. unfold decoder_push. rewrite bind_gets. cbn [id dc_buffer dc_limits].
  rewrite bind_refuse by (apply Z.ltb_ge; lia). rewrite bind_modify, bind_gets.
  cbn [id with_buffer dc_limits dc_buffer]. rewrite Hb.
  rewrite (drain_frames ms frames p []); try done.
  rewrite length_app. pose proof (frames_length ms frames Hms). lia.
Qed.

(** ** Cuts *)

(** A cut at offset [k] of the stream is safe on a frame boundary and from
    the thirteenth byte of a frame on. *)
Fixpoint safe_cut (frames : list Text) (k : nat) : bool :=
  match frames with
  | [] => (k =? 0)%nat
  | frame :: frames =>
      if (length frame <=? k)%nat then safe_cut frames (k - length frame)
      else (k =? 0)%nat || (13 <=? k)%nat
  end.

Lemma safe_cut_app before after j :
  safe_cut (before ++ after) (length (concat before) + j) = safe_cut after j.
Proof.
  induction before as [|frame before IH]; [done |]. cbn [concat app safe_cut]. rewrite length_app.
  rewrite (proj2 (Nat.leb_le _ _)) by lia. rewrite <- IH. f_equal. lia.
Qed.

(** A safe cut leaves whole frames and a part the decoder waits on. *)
Lemma safe_cut_split ms frames k :
  limits_typed -> Forall2 sendable ms frames -> safe_cut frames k = true ->
  exists before after p ms1 ms2, frames = before ++ after /\ ms = ms1 ++ ms2 /\
    Forall2 sendable ms1 before /\ Forall2 sendable ms2 after /\
    take k (concat frames) = concat before ++ p /\ k = (length (concat before) + length p)%nat /\
    waiting p /\ zlen p <= wl_max_message_bytes limits.
Proof.
  intros Hl Hms. revert k. induction Hms as [|m frame ms frames Hm Hms IH]; intros k Hk; cbn [safe_cut] in Hk.
  - apply Nat.eqb_eq in Hk as ->. exists [], [], [], [], []. split_and!; try done; apply Hl.
  - destruct (Nat.leb_spec (length frame) k) as [Hle|Hlt].
    + destruct (IH _ Hk) as (before & after & p & ms1 & ms2 & -> & -> & H1 & H2 & Ht & Hn & Hw & Hz).
      exists (frame :: before), after, p, (m :: ms1), ms2. split_and!; try done.
      * by constructor.
      * cbn [concat]. rewrite take_app_ge, Ht, app_assoc by done. done.
      * cbn [concat]. rewrite length_app. lia.
    + exists [], (frame :: frames), (take k frame), [], (m :: ms).
      assert (Hlen : length (take k frame) = k) by (rewrite length_take; lia).
      pose proof (sendable_begin m frame Hm) as Hb.
      split_and!; [done | done | constructor | by constructor | | | |].
      * cbn [concat]. by rewrite take_app_le by lia.
      * cbn [concat length]. lia.
      * apply orb_true_iff in Hk as [->%Nat.eqb_eq|Hk%Nat.leb_le]; [by rewrite take_0 |].
        eapply frame_len_partial; [apply Hm | done | apply Hl | lia].
      * destruct (frame_shape limits m frame (sd_encode _ _ Hm) Hb) as (s & _ & Hz & Hmax).
        unfold zlen in *. lia.
Qed.

(** Feeding a decoder chunk by chunk. *)
Fixpoint push_all (chunks : list Text) : M Decoder WireError (list FixMessage) :=
  match chunks with
  | [] => mret []
  | chunk :: chunks =>
      ms ← decoder_push chunk;
      ms' ← push_all chunks;
      mret (ms ++ ms')
  end.

Lemma push_all_frames chunks ms frames b :
  limits_typed -> Forall2 sendable ms frames -> waiting b -> zlen b <= wl_max_message_bytes limits ->
  b ++ concat chunks = concat frames ->
  (forall n, safe_cut frames (length b + length (concat (take n chunks))) = true) ->
  Forall (fun chunk => zlen chunk + wl_max_message_bytes limits <= wl_max_buffer_bytes limits) chunks ->
  push_all chunks (mkDecoder limits b) = (mkDecoder limits [], Ok ms).
Proof.
  intros Hl. revert ms frames b. induction chunks as [|c chunks IH]; intros ms frames b Hms Hw Hz Hs Hcut Hbuf.
  - rewrite app_nil_r in Hs. subst b. destruct Hms as [|m frame ms frames Hm Hms]; [done |].
    unfold waiting in Hw. cbn [concat] in Hw.
    rewrite (frame_len_frame limits m) in Hw; [done | apply Hm | by eapply sendable_begin | apply Hl].
  - apply Forall_cons in Hbuf as [Hc Hbuf]. pose proof (Hcut 1%nat) as Hk.
    cbn [concat] in Hs. rewrite app_assoc in Hs.
    cbn [take concat] in Hk. rewrite take_0 in Hk. cbn [concat] in Hk. rewrite app_nil_r in Hk.
    destruct (safe_cut_split ms frames _ Hl Hms Hk)
      as (before & after & p & ms1 & ms2 & -> & -> & H1 & H2 & Ht & Hn & Hwp & Hzp).
    assert (Hb : b ++ c = concat before ++ p).
    { rewrite <- Ht, <- Hs, take_app_le by (rewrite length_app; lia). by rewrite take_ge by (rewrite length_app; lia). }
    cbn [push_all].
    rewrite (bind_run _ _ _ _ _ (push_frames b c ms1 before p Hl H1 Hwp Hb ltac:(lia))).
    assert (Hrest : p ++ concat chunks = concat after).
    { rewrite Hb, concat_app, <- app_assoc in Hs. by apply app_inv_head in Hs. }
    rewrite (bind_run _ _ _ _ _ (IH ms2 after p H2 Hwp Hzp Hrest ltac:(intros n;
      specialize (Hcut (S n)); cbn [take concat] in Hcut; rewrite length_app in Hcut;
      rewrite Nat.add_assoc, Hn, <- Nat.add_assoc, safe_cut_app in Hcut; exact Hcut) Hbuf)).
    done.
Qed.

(** C26: framing is lossless under chunking. Whatever messages that the
    dictionary knows are encoded and sent one after the other, and however
    the transport cuts the byte stream into chunks, as long as no cut falls
    inside the first thirteen bytes of a frame and every chunk leaves room in
    the receive buffer for a message begun before it, the decoder returns exactly these messages in this order, no chunk
    is refused and nothing is left in the buffer. *)
Theorem fix_stream_decodes ms frames chunks :
  limits_typed -> Forall2 sendable ms frames -> concat chunks = concat frames ->
  (forall n, safe_cut frames (length (concat (take n chunks))) = true) ->
  Forall (fun chunk => zlen chunk + wl_max_message_bytes limits <= wl_max_buffer_bytes limits) chunks ->
  push_all chunks (Decoder_new limits) = (Decoder_new limits, Ok ms).
Proof.
  intros Hl Hms Hs Hcut Hbuf. apply (push_all_frames chunks ms frames []); try done. apply Hl.
Qed.

(** an early cut is refused. When the first chunk of a frame ends inside
    its first thirteen bytes, [Decoder::push] fails instead of waiting for
    the rest, although the frame is well formed: with
    [InvalidBeginString] before the end of the begin-string field and with
    [InvalidBodyLength] after it. *)
Theorem fix_early_cut_is_refused m frame k :
  sendable m frame -> (0 < k < 13)%nat -> 13 <= wl_max_buffer_bytes limits ->
  decoder_push (take k frame) (Decoder_new limits) =
  (mkDecoder limits (take k frame),
   Err (if (k <? 11)%nat then WireError.InvalidBeginString else WireError.InvalidBodyLength)).
Proof.
  intros Hm Hk Hbuf.
  destruct (frame_shape limits m frame (sd_encode _ _ Hm) (sendable_begin _ _ Hm)) as (s & Hf & _).
  assert (Ht : take k frame = take k head13)
    by (rewrite Hf, take_app_le by (change (length head13) with 13%nat; lia); done).
  assert (Hlen : length (take k head13) = k)
    by (rewrite length_take; change (length head13) with 13%nat; lia).
  rewrite Ht. unfold decoder_push. rewrite bind_gets. cbn [id dc_buffer dc_limits Decoder_new].
  rewrite bind_refuse by (apply Z.ltb_ge; unfold zlen; cbn [length]; lia).
  rewrite bind_modify, bind_gets. cbn [id with_buffer dc_limits dc_buffer app].
  cbn [drain]. rewrite bind_gets. cbn [id with_buffer dc_limits dc_buffer].
  assert (Hc : complete_frame_len (take k head13) limits =
    Err (if (k <? 11)%nat then WireError.InvalidBeginString else WireError.InvalidBodyLength)).
  { clear -Hk. do 13 (destruct k as [|k]; [first [lia | vm_compute; reflexivity] |]). lia. }
  cbn [Decoder_new dc_limits]. unfold mbind, M_bind, lift. by rewrite Hc.
Qed.
End stream.

(** Bytes are determined by their code. *)
Lemma ascii_code_range c : 0 <= ascii_code c < 256.
Proof. unfold ascii_code. pose proof (N_ascii_bounded c). lia. Qed.
Lemma ascii_code_inj c c' : ascii_code c = ascii_code c' -> c = c'.
Proof.
  unfold ascii_code. intros Hx. rewrite <- (ascii_N_embedding c), <- (ascii_N_embedding c'). f_equal. lia.
Qed.

(** a damaged byte never goes unnoticed. If any one byte of a frame, up to
    its checksum field, is replaced by another, [parse_frame] refuses the
    frame with [InvalidChecksum]. *)
Theorem fix_corruption_detected limits frame m i c c' :
  parse_frame frame limits = Ok m -> (i < length frame - 7)%nat ->
  frame !! i = Some c -> c' <> c ->
  parse_frame (<[i := c']> frame) limits = Err WireError.InvalidChecksum.
Proof.
  intros Hp Hi Hc Hne. unfold parse_frame in *. rewrite length_insert.
  destruct (length frame <? 7)%nat; [done |].
  set (n := (length frame - 7)%nat) in *.
  rewrite drop_insert_lt by lia.
  apply result_bind_Ok in Hp as (t & Ht & Hp). rewrite Ht. cbn [mbind result_bind].
  apply result_bind_Ok in Hp as (e & He & Hp). rewrite He. cbn [mbind result_bind].
  destruct (Z.eqb_spec (checksum (take n frame)) e) as [Heq|]; [| done].
  destruct (Z.eqb_spec (checksum (take n (<[i := c']> frame))) e) as [Heq'|]; [exfalso | done].
  rewrite take_insert_lt in Heq' by done. rewrite <- Heq, !checksum_sum in Heq'.
  assert (Hci : take n frame !! i = Some c) by (by rewrite lookup_take_lt).
  rewrite (insert_take_drop _ i c') in Heq' by (rewrite length_take; lia).
  rewrite <- (take_drop_middle _ _ _ Hci) in Heq' at 3.
  rewrite !fmap_app, !fmap_cons, !sumZ_app, !sumZ_cons in Heq'.
  pose proof (ascii_code_range c). pose proof (ascii_code_range c').
  assert (Hcode : ascii_code c' <> ascii_code c) by (intros Hx; apply Hne; by apply ascii_code_inj).
  match type of Heq' with ?a mod 256 = ?b mod 256 =>
    pose proof (Z.div_mod a 256 ltac:(lia)); pose proof (Z.div_mod b 256 ltac:(lia)) end. nia.
Qed.

(** ** A sample stream *)
Module SampleWire.
#[export] Instance dictionary : FixDictionary := {|
  session_message := fun t => bool_decide (t ∈ [text "A"; text "0"; text "1"; text "2"; text "4"; text "5"]);
  application_message := fun t => bool_decide (t ∈ [text "D"; text "8"; text "W"]);
  session_field := fun t => bool_decide (t ∈ [7; 16; 34; 36; 43; 49; 52; 56; 58; 98; 108; 112; 122; 123; 1137]);
  application_field := fun t => bool_decide (t ∈ [11; 17; 48; 262; 270])
|}.
Definition beat : FixMessage := message_push 34 (text "1") (FixMessage_new (text "0")).
Definition probe : FixMessage := message_push 112 (text "probe") (FixMessage_new (text "1")).
Definition frame_of (m : FixMessage) : Text :=
  match encode m WireLimits_default with Ok frame => frame | Err _ => [] end.
(** The two frames, cut twenty bytes into the first one. *)
Definition chunks : list Text :=
  [take 20 (frame_of beat); drop 20 (frame_of beat) ++ frame_of probe].
End SampleWire.

Section wire_witnesses.
Import SampleWire.
Import (hints) SampleWire.

Lemma sample_sendable m :
  m = beat \/ m = probe -> sendable WireLimits_default m (frame_of m).
Proof.
  intros [->| ->]; (split; [vm_compute; reflexivity | | vm_compute; reflexivity]);
    (split; [vm_compute; reflexivity |]; apply Forall_singleton; split; [vm_compute; split; discriminate | vm_compute; reflexivity]).
Qed.

Lemma fix_stream_decodes_witness :
  push_all chunks (Decoder_new WireLimits_default) = (Decoder_new WireLimits_default, Ok [beat; probe]).
Proof.
  apply (fix_stream_decodes WireLimits_default [beat; probe] [frame_of beat; frame_of probe]).
  - split; vm_compute; discriminate.
  - constructor; [apply sample_sendable; auto |]. constructor; [apply sample_sendable; auto | constructor].
  - vm_compute. reflexivity.
  - intros [|[|[|n]]]; vm_compute; reflexivity.
  - repeat constructor; vm_compute; discriminate.
Defined.

Lemma fix_early_cut_is_refused_witness :
  snd (decoder_push (take 5 (frame_of beat)) (Decoder_new WireLimits_default))
  = Err WireError.InvalidBeginString.
Proof.
  rewrite (fix_early_cut_is_refused WireLimits_default beat (frame_of beat) 5);
    [reflexivity | apply sample_sendable; auto | lia | vm_compute; discriminate].
Defined.

Lemma fix_corruption_detected_witness :
  parse_frame (<[24%nat := "7"%char]> (frame_of beat)) WireLimits_default = Err WireError.InvalidChecksum.
Proof.
  apply (fix_corruption_detected WireLimits_default (frame_of beat) beat 24 "1"%char "7"%char);
    [vm_compute; reflexivity | vm_compute; lia | vm_compute; reflexivity | discriminate].
Defined.
End wire_witnesses.
