(* ===== verification/FixSession.v ===== *)
(** * simfix-session: the FIX session layer

    Models [packages/simfix-session/src/lib.rs]: sequence numbers, the resend
    journal, gap recovery, heartbeats and the connection state.  Methods on
    [&mut self] are computations on [FixSession]; the clock, the store and
    the transport are arguments and returned actions, as in the source. *)

From S2P Require Import Prelude Ordered Decimal FixWire.
From Stdlib Require Import Ascii.
#[local] Open Scope list_scope.

(** ** Data *)

Record SessionConfig : Type := mkSessionConfig {
  sc_sender_comp_id : Text;
  sc_target_comp_id : Text;
  sc_heartbeat_seconds : Z;
  sc_max_journal_messages : Z;
  sc_max_pending_inbound : Z;
  sc_wire_limits : WireLimits;
  sc_logon_fields : list Field
}.

Module ConnectionState.
Inductive ConnectionState : Type :=
  Disconnected | Connecting | AwaitingLogon | Established | LogoutPending.
#[export] Instance ConnectionState_eq_dec : EqDecision ConnectionState.
Proof. solve_decision. Defined.
End ConnectionState.
Export ConnectionState (ConnectionState).
#[export] Existing Instance ConnectionState.ConnectionState_eq_dec.

Record JournalEntry : Type := mkJournalEntry {
  je_sequence : Z;
  je_frame : Text;
  je_replacement_key : option Text
}.

Record SessionSnapshot : Type := mkSessionSnapshot {
  ss_version : Z;
  ss_incoming_sequence : Z;
  ss_outgoing_sequence : Z;
  ss_reconnect_generation : Z;
  ss_state : ConnectionState;
  ss_journal : gmap Z JournalEntry;
  ss_pending_resend_begin : option Z;
  ss_pending_inbound : gmap Z FixMessage;
  ss_last_received_millis : Z;
  ss_last_sent_millis : Z;
  ss_outstanding_test_request : option Text
}.

Module SessionAction.
Inductive SessionAction : Type :=
  | Send (frame : Text)
  | PeerLogon (message : FixMessage)
  | Application (message : FixMessage)
  | Persist
  | Disconnect
  | TestResponse (id : Text).
End SessionAction.
Export SessionAction (SessionAction).

Module SessionError.
Inductive SessionError : Type :=
  | Wire (e : WireError)
  | InvalidConfig
  | MissingSequence
  | InvalidSequence
  | InvalidCompId
  | InvalidApplicationVersion
  | InvalidSnapshot
  | InvalidReplacementKey
  | PendingInboundFull
  | NotEstablished
  | ArithmeticOverflow.
End SessionError.
Export SessionError (SessionError).

Record FixSession : Type := mkFixSession {
  fs_config : SessionConfig;
  fs_snapshot : SessionSnapshot;
  fs_decoder : Decoder
}.

(** Field assignments of the source. *)
Definition set_incoming (v : Z) (s : SessionSnapshot) : SessionSnapshot :=
  mkSessionSnapshot (ss_version s) v (ss_outgoing_sequence s) (ss_reconnect_generation s) (ss_state s)
    (ss_journal s) (ss_pending_resend_begin s) (ss_pending_inbound s) (ss_last_received_millis s)
    (ss_last_sent_millis s) (ss_outstanding_test_request s).
Definition set_outgoing (v : Z) (s : SessionSnapshot) : SessionSnapshot :=
  mkSessionSnapshot (ss_version s) (ss_incoming_sequence s) v (ss_reconnect_generation s) (ss_state s)
    (ss_journal s) (ss_pending_resend_begin s) (ss_pending_inbound s) (ss_last_received_millis s)
    (ss_last_sent_millis s) (ss_outstanding_test_request s).
Definition set_generation (v : Z) (s : SessionSnapshot) : SessionSnapshot :=
  mkSessionSnapshot (ss_version s) (ss_incoming_sequence s) (ss_outgoing_sequence s) v (ss_state s)
    (ss_journal s) (ss_pending_resend_begin s) (ss_pending_inbound s) (ss_last_received_millis s)
    (ss_last_sent_millis s) (ss_outstanding_test_request s).
Definition set_state (v : ConnectionState) (s : SessionSnapshot) : SessionSnapshot :=
  mkSessionSnapshot (ss_version s) (ss_incoming_sequence s) (ss_outgoing_sequence s)
    (ss_reconnect_generation s) v (ss_journal s) (ss_pending_resend_begin s) (ss_pending_inbound s)
    (ss_last_received_millis s) (ss_last_sent_millis s) (ss_outstanding_test_request s).
Definition set_journal (v : gmap Z JournalEntry) (s : SessionSnapshot) : SessionSnapshot :=
  mkSessionSnapshot (ss_version s) (ss_incoming_sequence s) (ss_outgoing_sequence s)
    (ss_reconnect_generation s) (ss_state s) v (ss_pending_resend_begin s) (ss_pending_inbound s)
    (ss_last_received_millis s) (ss_last_sent_millis s) (ss_outstanding_test_request s).
Definition set_resend_begin (v : option Z) (s : SessionSnapshot) : SessionSnapshot :=
  mkSessionSnapshot (ss_version s) (ss_incoming_sequence s) (ss_outgoing_sequence s)
    (ss_reconnect_generation s) (ss_state s) (ss_journal s) v (ss_pending_inbound s)
    (ss_last_received_millis s) (ss_last_sent_millis s) (ss_outstanding_test_request s).
Definition set_pending (v : gmap Z FixMessage) (s : SessionSnapshot) : SessionSnapshot :=
  mkSessionSnapshot (ss_version s) (ss_incoming_sequence s) (ss_outgoing_sequence s)
    (ss_reconnect_generation s) (ss_state s) (ss_journal s) (ss_pending_resend_begin s) v
    (ss_last_received_millis s) (ss_last_sent_millis s) (ss_outstanding_test_request s).
Definition set_last_received (v : Z) (s : SessionSnapshot) : SessionSnapshot :=
  mkSessionSnapshot (ss_version s) (ss_incoming_sequence s) (ss_outgoing_sequence s)
    (ss_reconnect_generation s) (ss_state s) (ss_journal s) (ss_pending_resend_begin s)
    (ss_pending_inbound s) v (ss_last_sent_millis s) (ss_outstanding_test_request s).
Definition set_last_sent (v : Z) (s : SessionSnapshot) : SessionSnapshot :=
  mkSessionSnapshot (ss_version s) (ss_incoming_sequence s) (ss_outgoing_sequence s)
    (ss_reconnect_generation s) (ss_state s) (ss_journal s) (ss_pending_resend_begin s)
    (ss_pending_inbound s) (ss_last_received_millis s) v (ss_outstanding_test_request s).
Definition set_test_request (v : option Text) (s : SessionSnapshot) : SessionSnapshot :=
  mkSessionSnapshot (ss_version s) (ss_incoming_sequence s) (ss_outgoing_sequence s)
    (ss_reconnect_generation s) (ss_state s) (ss_journal s) (ss_pending_resend_begin s)
    (ss_pending_inbound s) (ss_last_received_millis s) (ss_last_sent_millis s) v.

Section session.
Context `{FixDictionary}.
#[local] Notation Session A := (M FixSession SessionError A) (only parsing).

Definition snap {A} (f : SessionSnapshot -> A) : Session A := gets (fun s => f (fs_snapshot s)).
Definition configured {A} (f : SessionConfig -> A) : Session A := gets (fun s => f (fs_config s)).
Definition update_snapshot (f : SessionSnapshot -> SessionSnapshot) : Session unit :=
  modify (fun s => mkFixSession (fs_config s) (f (fs_snapshot s)) (fs_decoder s)).
Definition wire {A} (r : result WireError A) : result SessionError A := map_err SessionError.Wire r.

(** ** Construction *)

Definition owned_logon_tag (tag : Z) : bool :=
  bool_decide (tag ∈ [8; 9; 10; 34; 35; 49; 52; 56; 98; 108; 1137]).

(** [fn validate_config]; sorting and comparing neighbours detects duplicate
    tags. *)
Definition validate_config (c : SessionConfig) : result SessionError unit :=
  let max_field := wl_max_field_bytes (sc_wire_limits c) in
  _ ← err_if (bool_decide (sc_sender_comp_id c = []) || bool_decide (sc_target_comp_id c = [])
              || (max_field <? zlen (sc_sender_comp_id c)) || (max_field <? zlen (sc_target_comp_id c))
              || (sc_heartbeat_seconds c =? 0) || (sc_max_journal_messages c =? 0)
              || (sc_max_pending_inbound c =? 0) || (16 <? zlen (sc_logon_fields c))
              || existsb (fun field => owned_logon_tag (fd_tag field) || (max_field <? zlen (fd_value field)))
                   (sc_logon_fields c)) SessionError.InvalidConfig;
  err_if (negb (bool_decide (NoDup (fd_tag <$> sc_logon_fields c)))) SessionError.InvalidConfig.

(** [FixSession::try_new] *)
Definition initial_snapshot : SessionSnapshot :=
  mkSessionSnapshot 2 1 1 0 ConnectionState.Disconnected ∅ None ∅ 0 0 None.
Definition FixSession_new (c : SessionConfig) : result SessionError FixSession :=
  _ ← validate_config c;
  Ok (mkFixSession c initial_snapshot (Decoder_new (sc_wire_limits c))).

(** [FixSession::restore] *)
Definition bad_entry (c : SessionConfig) (e : Z * JournalEntry) : bool :=
  negb (je_sequence e.2 =? e.1)
  || match je_replacement_key e.2 with
     | Some key => bool_decide (key = []) || (wl_max_field_bytes (sc_wire_limits c) <? zlen key)
     | None => false
     end.
Definition restore (c : SessionConfig) (s : SessionSnapshot) : result SessionError FixSession :=
  _ ← validate_config c;
  _ ← err_if (negb (ss_version s =? 2)
              || (sc_max_journal_messages c <? Z.of_nat (size (ss_journal s)))
              || existsb (bad_entry c) (entries (ss_journal s))
              || (sc_max_pending_inbound c <? Z.of_nat (size (ss_pending_inbound s)))
              || (ss_incoming_sequence s =? 0) || (ss_outgoing_sequence s =? 0))
        SessionError.InvalidSnapshot;
  Ok (mkFixSession c s (Decoder_new (sc_wire_limits c))).

(** ** Sending *)

Definition session_tag (tag : Z) : bool :=
  bool_decide (tag ∈ [49; 56; 34; 43; 52; 122]).

(** The fields [encode_at] adds, and the message it encodes. *)
Definition stamped (c : SessionConfig) (m : FixMessage) (sequence : Z) (timestamp : Text)
    (original_timestamp : option Text) : FixMessage :=
  mkFixMessage (fm_begin_string m) (fm_msg_type m)
    (filter (fun field => session_tag (fd_tag field) = false) (fm_fields m)
     ++ [mkField 49 (sc_sender_comp_id c); mkField 56 (sc_target_comp_id c);
         mkField 34 (display_uint sequence)]
     ++ match original_timestamp with
        | Some original => [mkField 43 (text "Y"); mkField 122 original]
        | None => []
        end
     ++ [mkField 52 timestamp]).

(** [FixSession::encode_at] *)
Definition encode_at (c : SessionConfig) (m : FixMessage) (sequence : Z) (timestamp : Text)
    (original_timestamp : option Text) : result SessionError Text :=
  wire (encode (stamped c m sequence timestamp original_timestamp) (sc_wire_limits c)).

(** [while journal.len() >= max { remove the oldest }] *)
Fixpoint evict (fuel : nat) (max : Z) (journal : gmap Z JournalEntry) : gmap Z JournalEntry :=
  match fuel with
  | O => journal
  | S fuel =>
      if max <=? Z.of_nat (size journal) then
        match first_entry journal with
        | Some (oldest, _) => evict fuel max (delete oldest journal)
        | None => journal
        end
      else journal
  end.

(** [journal.retain(|_, entry| entry.replacement_key != Some(key))] *)
Definition supersede (key : option Text) (journal : gmap Z JournalEntry) : gmap Z JournalEntry :=
  match key with
  | Some key => filter (fun e => je_replacement_key e.2 <> Some key) journal
  | None => journal
  end.

(** [FixSession::send_new] *)
Definition send_new (message : FixMessage) (timestamp : Text) (now_millis : Z) (journal : bool)
    (replacement_key : option Text) : Session (list SessionAction) :=
  c ← configured id;
  sequence ← snap ss_outgoing_sequence;
  next_sequence ← lift (ok_or (checked_add U64 sequence 1) SessionError.ArithmeticOverflow);
  frame ← lift (encode_at c message sequence timestamp None);
  (if journal then
     update_snapshot (fun s => set_journal (supersede replacement_key (ss_journal s)) s);;
     update_snapshot (fun s => set_journal
       (evict (S (size (ss_journal s))) (sc_max_journal_messages c) (ss_journal s)) s);;
     update_snapshot (fun s => set_journal
       (<[sequence := mkJournalEntry sequence frame replacement_key]> (ss_journal s)) s)
   else mret tt);;
  update_snapshot (set_outgoing next_sequence);;
  update_snapshot (set_last_sent now_millis);;
  mret [SessionAction.Send frame; SessionAction.Persist].

(** [FixSession::connected_at] *)
Definition logon_message (c : SessionConfig) : FixMessage :=
  foldl (fun m field => message_push (fd_tag field) (fd_value field) m)
    (message_push 1137 FIX_50_SP2_APPL_VER_ID
       (message_push 108 (display_uint (sc_heartbeat_seconds c))
          (message_push 98 (text "0") (FixMessage_new (text "A")))))
    (sc_logon_fields c).
Definition connected_at (timestamp : Text) (now_millis : Z) : Session (list SessionAction) :=
  generation ← snap ss_reconnect_generation;
  generation ← lift (ok_or (checked_add U64 generation 1) SessionError.ArithmeticOverflow);
  update_snapshot (set_generation generation);;
  update_snapshot (set_state ConnectionState.AwaitingLogon);;
  update_snapshot (set_last_received now_millis);;
  update_snapshot (set_last_sent now_millis);;
  c ← configured id;
  modify (fun s => mkFixSession (fs_config s) (fs_snapshot s) (Decoder_new (sc_wire_limits c)));;
  send_new (logon_message c) timestamp now_millis true None.

(** [FixSession::connected] *)
Definition connected (timestamp : Text) : Session (list SessionAction) :=
  last_received ← snap ss_last_received_millis;
  connected_at timestamp last_received.

Definition require_established : Session unit :=
  state ← snap ss_state;
  refuse_if (negb (bool_decide (state = ConnectionState.Established))) SessionError.NotEstablished.

(** [FixSession::send_application] and [send_replaceable_application] *)
Definition send_application (message : FixMessage) (timestamp : Text) : Session (list SessionAction) :=
  require_established;;
  last_sent ← snap ss_last_sent_millis;
  send_new message timestamp last_sent true None.
Definition send_replaceable_application (message : FixMessage) (timestamp replacement_key : Text)
    : Session (list SessionAction) :=
  require_established;;
  c ← configured id;
  refuse_if (bool_decide (replacement_key = [])
             || (wl_max_field_bytes (sc_wire_limits c) <? zlen replacement_key))
    SessionError.InvalidReplacementKey;;
  last_sent ← snap ss_last_sent_millis;
  send_new message timestamp last_sent true (Some replacement_key).

(** [FixSession::request_logout] *)
Definition request_logout (timestamp : Text) (reason : option Text) : Session (list SessionAction) :=
  require_established;;
  update_snapshot (set_state ConnectionState.LogoutPending);;
  let logout := FixMessage_new (text "5") in
  let logout := match reason with Some reason => message_push 58 reason logout | None => logout end in
  last_sent ← snap ss_last_sent_millis;
  send_new logout timestamp last_sent true None.

(** [FixSession::probe] *)
Definition session_probe (probe_id timestamp : Text) (now_millis : Z) : Session (list SessionAction) :=
  require_established;;
  refuse_if (bool_decide (probe_id = [])) SessionError.InvalidConfig;;
  send_new (message_push 112 probe_id (FixMessage_new (text "1"))) timestamp now_millis true None.

(** [FixSession::poll] *)
Definition saturating_sub (a b : Z) : Z := Z.max (a - b) 0.
Definition poll (now_millis : Z) (timestamp : Text) : Session (list SessionAction) :=
  state ← snap ss_state;
  if negb (bool_decide (state = ConnectionState.Established)) then mret []
  else
    c ← configured id;
    interval ← lift (ok_or (checked_mul U64 (sc_heartbeat_seconds c) 1000) SessionError.ArithmeticOverflow);
    s ← snap id;
    let idle := saturating_sub now_millis (ss_last_received_millis s) in
    if bool_decide (is_Some (ss_outstanding_test_request s)) && (interval * 2 <=? idle) then
      update_snapshot (set_state ConnectionState.Disconnected);;
      mret [SessionAction.Persist; SessionAction.Disconnect]
    else if (interval <=? idle) && negb (bool_decide (is_Some (ss_outstanding_test_request s))) then
      let id := text "test-" ++ display_uint now_millis in
      update_snapshot (set_test_request (Some id));;
      send_new (message_push 112 id (FixMessage_new (text "1"))) timestamp now_millis true None
    else if interval <=? saturating_sub now_millis (ss_last_sent_millis s) then
      send_new (FixMessage_new (text "0")) timestamp now_millis true None
    else mret [].

(** ** Receiving *)

(** [fn parse] *)
Definition parse_tag (m : FixMessage) (tag : Z) : option Z :=
  value ← message_value m tag;
  parse_uint U64 value.

(** [fn decode_one] *)
Definition decode_one (frame : Text) (limits : WireLimits) : result SessionError FixMessage :=
  messages ← wire (snd (decoder_push frame (Decoder_new limits)));
  ok_or (head messages) SessionError.InvalidSequence.

(** One message of a resend: the frame to send at [sequence] and the next
    sequence number. *)
Definition resend_one (c : SessionConfig) (journal : gmap Z JournalEntry) (sequence end_ : Z)
    (timestamp : Text) : result SessionError (Text * Z) :=
  match journal !! sequence with
  | Some entry =>
      original ← decode_one (je_frame entry) (sc_wire_limits c);
      let original_time := default timestamp (message_value original 52) in
      frame ← encode_at c original sequence timestamp (Some original_time);
      next ← ok_or (checked_add U64 sequence 1) SessionError.ArithmeticOverflow;
      Ok (frame, next)
  | None =>
      let next := default (Z.min (end_ + 1) (int_max U64))
                    (head (filter (fun k => sequence <= k <= end_) (keys journal))) in
      frame ← encode_at c
        (message_push 36 (display_uint next) (message_push 123 (text "Y") (FixMessage_new (text "4"))))
        sequence timestamp (Some timestamp);
      Ok (frame, next)
  end.

(** The loop of [replay_requested].  Every iteration advances [sequence]. *)
Fixpoint resend_loop (fuel : nat) (c : SessionConfig) (journal : gmap Z JournalEntry)
    (sequence end_ : Z) (timestamp : Text) : result SessionError (list Text) :=
  match fuel with
  | O => Ok []
  | S fuel =>
      if sequence <=? end_ then
        '(frame, next) ← resend_one c journal sequence end_ timestamp;
        frames ← resend_loop fuel c journal next end_ timestamp;
        Ok (frame :: frames)
      else Ok []
  end.

(** [FixSession::replay_requested] *)
Definition replay_requested (request : FixMessage) (timestamp : Text) (now_millis : Z)
    : Session (list SessionAction) :=
  begin ← lift (ok_or (parse_tag request 7) SessionError.MissingSequence);
  requested_end ← lift (ok_or (parse_tag request 16) SessionError.MissingSequence);
  outgoing ← snap ss_outgoing_sequence;
  let last_sent := saturating_sub outgoing 1 in
  let end_ := if requested_end =? 0 then last_sent else Z.min requested_end last_sent in
  refuse_if ((begin =? 0) || (saturating_add U64 end_ 1 <? begin)) SessionError.InvalidSequence;;
  c ← configured id;
  journal ← snap ss_journal;
  frames ← lift (resend_loop (S (Z.to_nat (end_ + 1 - begin))) c journal begin end_ timestamp);
  update_snapshot (set_last_sent now_millis);;
  mret ((SessionAction.Send <$> frames) ++ [SessionAction.Persist]).

(** [FixSession::process_in_sequence] *)
Definition process_in_sequence (message : FixMessage) (timestamp : Text) (now_millis : Z)
    : Session (list SessionAction) :=
  sequence ← snap ss_incoming_sequence;
  next ← lift (ok_or (checked_add U64 sequence 1) SessionError.ArithmeticOverflow);
  update_snapshot (set_incoming next);;
  update_snapshot (set_last_received now_millis);;
  let msg_type := fm_msg_type message in
  if bool_decide (msg_type = text "A") then
    refuse_if (negb (bool_decide (message_value message 1137 = Some FIX_50_SP2_APPL_VER_ID)))
      SessionError.InvalidApplicationVersion;;
    update_snapshot (set_state ConnectionState.Established);;
    mret [SessionAction.PeerLogon message]
  else if bool_decide (msg_type = text "0") then
    update_snapshot (fun s =>
      if bool_decide (ss_outstanding_test_request s = message_value message 112)
      then set_test_request None s else s);;
    mret (option_list (SessionAction.TestResponse <$> message_value message 112))
  else if bool_decide (msg_type = text "1") then
    let heartbeat := FixMessage_new (text "0") in
    let heartbeat := match message_value message 112 with
                     | Some id => message_push 112 id heartbeat
                     | None => heartbeat
                     end in
    send_new heartbeat timestamp now_millis true None
  else if bool_decide (msg_type = text "2") then replay_requested message timestamp now_millis
  else if bool_decide (msg_type = text "4") then
    new_sequence ← lift (ok_or (parse_tag message 36) SessionError.MissingSequence);
    incoming ← snap ss_incoming_sequence;
    refuse_if (new_sequence <? incoming) SessionError.InvalidSequence;;
    update_snapshot (set_incoming new_sequence);;
    mret []
  else if bool_decide (msg_type = text "5") then
    update_snapshot (set_state ConnectionState.Disconnected);;
    output ← send_new (message_push 58 (text "logout acknowledged") (FixMessage_new (text "5")))
               timestamp now_millis false None;
    mret (output ++ [SessionAction.Disconnect])
  else mret [SessionAction.Application message].

(** The loop of [receive] over the buffered messages; every iteration removes
    one, so their number is enough fuel. *)
Fixpoint drain_pending (fuel : nat) (timestamp : Text) (now_millis : Z) : Session (list SessionAction) :=
  match fuel with
  | O => mret []
  | S fuel =>
      s ← snap id;
      match ss_pending_inbound s !! ss_incoming_sequence s with
      | None => mret []
      | Some next =>
          update_snapshot (set_pending (delete (ss_incoming_sequence s) (ss_pending_inbound s)));;
          actions ← process_in_sequence next timestamp now_millis;
          more ← drain_pending fuel timestamp now_millis;
          mret (actions ++ more)
      end
  end.

(** The branch of [receive] for a message ahead of the expected one. *)
Definition receive_ahead (message : FixMessage) (sequence : Z) (timestamp : Text) (now_millis : Z)
    : Session (list SessionAction) :=
  c ← configured id;
  s ← snap id;
  refuse_if (sc_max_pending_inbound c <=? Z.of_nat (size (ss_pending_inbound s)))
    SessionError.PendingInboundFull;;
  '(actions, queued) ←
    (if bool_decide (fm_msg_type message = text "2") then
       actions ← replay_requested message timestamp now_millis;
       mret (actions, FixMessage_new (text "0"))
     else mret ([], message));
  update_snapshot (fun s => set_pending
    (match ss_pending_inbound s !! sequence with
     | Some _ => ss_pending_inbound s
     | None => <[sequence := queued]> (ss_pending_inbound s)
     end) s);;
  s ← snap id;
  if bool_decide (is_Some (ss_pending_resend_begin s)) then mret (actions ++ [SessionAction.Persist])
  else
    update_snapshot (set_resend_begin (Some (ss_incoming_sequence s)));;
    sent ← send_new
      (message_push 16 (text "0")
         (message_push 7 (display_uint (ss_incoming_sequence s)) (FixMessage_new (text "2"))))
      timestamp now_millis true None;
    mret (actions ++ sent).

(** [FixSession::receive] *)
Definition receive (message : FixMessage) (timestamp : Text) (now_millis : Z)
    : Session (list SessionAction) :=
  c ← configured id;
  refuse_if (negb (bool_decide (message_value message 49 = Some (sc_target_comp_id c)))
             || negb (bool_decide (message_value message 56 = Some (sc_sender_comp_id c))))
    SessionError.InvalidCompId;;
  sequence ← lift (ok_or (parse_tag message 34) SessionError.MissingSequence);
  incoming ← snap ss_incoming_sequence;
  if incoming <? sequence then receive_ahead message sequence timestamp now_millis
  else if sequence <? incoming then
    refuse_if (negb (bool_decide (message_value message 43 = Some (text "Y"))
                     && bool_decide (is_Some (message_value message 122))))
      SessionError.InvalidSequence;;
    mret []
  else
    actions ← process_in_sequence message timestamp now_millis;
    pending ← snap (fun s => size (ss_pending_inbound s));
    more ← drain_pending (S pending) timestamp now_millis;
    update_snapshot (fun s => if bool_decide (ss_pending_inbound s = ∅)
                              then set_resend_begin None s else s);;
    mret (actions ++ more ++ [SessionAction.Persist]).

(** [FixSession::receive_bytes_at] *)
Fixpoint receive_all (messages : list FixMessage) (timestamp : Text) (now_millis : Z)
    : Session (list SessionAction) :=
  match messages with
  | [] => mret []
  | message :: messages =>
      actions ← receive message timestamp now_millis;
      more ← receive_all messages timestamp now_millis;
      mret (actions ++ more)
  end.
Definition receive_bytes_at (bytes timestamp : Text) (now_millis : Z) : Session (list SessionAction) :=
  d ← gets fs_decoder;
  let '(d, r) := decoder_push bytes d in
  modify (fun s => mkFixSession (fs_config s) (fs_snapshot s) d);;
  messages ← lift (wire r);
  receive_all messages timestamp now_millis.

(** [FixSession::receive_bytes] *)
Definition receive_bytes (bytes timestamp : Text) : Session (list SessionAction) :=
  last_received ← snap ss_last_received_millis;
  receive_bytes_at bytes timestamp last_received.

(** ** A host's calls

    One constructor per public method; a call that fails hands its host no
    actions and leaves the session as the method left it. *)
Inductive SessionCall : Type :=
  | Connected (timestamp : Text)
  | ConnectedAt (timestamp : Text) (now_millis : Z)
  | SendApplication (message : FixMessage) (timestamp : Text)
  | SendReplaceable (message : FixMessage) (timestamp replacement_key : Text)
  | RequestLogout (timestamp : Text) (reason : option Text)
  | Probe (probe_id timestamp : Text) (now_millis : Z)
  | Poll (now_millis : Z) (timestamp : Text)
  | ReceiveBytes (bytes timestamp : Text)
  | ReceiveBytesAt (bytes timestamp : Text) (now_millis : Z).

Definition run_call (call : SessionCall) : Session (list SessionAction) :=
  match call with
  | Connected timestamp => connected timestamp
  | ConnectedAt timestamp now => connected_at timestamp now
  | SendApplication message timestamp => send_application message timestamp
  | SendReplaceable message timestamp key => send_replaceable_application message timestamp key
  | RequestLogout timestamp reason => request_logout timestamp reason
  | Probe probe_id timestamp now => session_probe probe_id timestamp now
  | Poll now timestamp => poll now timestamp
  | ReceiveBytes bytes timestamp => receive_bytes bytes timestamp
  | ReceiveBytesAt bytes timestamp now => receive_bytes_at bytes timestamp now
  end.

Definition actions_of (r : result SessionError (list SessionAction)) : list SessionAction :=
  match r with Ok actions => actions | Err _ => [] end.

Fixpoint run_calls (calls : list SessionCall) (s : FixSession) : FixSession * list SessionAction :=
  match calls with
  | [] => (s, [])
  | call :: calls =>
      let '(s1, r) := run_call call s in
      let '(s2, more) := run_calls calls s1 in
      (s2, actions_of r ++ more)
  end.
End session.
