(* ===== verification/FixSessionFacts.v ===== *)
(** * simfix-session: the invariant of a session

    The journal and the buffer of [packages/simfix-session/src/lib.rs] stay
    within their bounds and agree with the sequence numbers, whatever a peer
    sends, also when an operation fails. *)

From S2P Require Import Prelude Ordered Decimal Hoare FixWire FixSession.
From Stdlib Require Import Ascii.
#[local] Open Scope list_scope.

(** ** The journal *)

Lemma evict_spec fuel max j :
  1 <= max -> (size j < fuel)%nat ->
  Z.of_nat (size (evict fuel max j)) < max /\ evict fuel max j ⊆ j.
Proof.
  intros Hm. revert j. induction fuel as [|fuel IH]; intros j Hf; [lia |]. cbn [evict].
  destruct (Z.leb_spec max (Z.of_nat (size j))) as [Hle|]; [| done].
  destruct (first_entry j) as [[k e]|] eqn:Hfst.
  - apply first_entry_Some in Hfst as [Hk _].
    assert (Hs : (size (delete k j) < fuel)%nat).
    { rewrite map_size_delete_Some by eauto. pose proof (map_size_ne_0_lookup_2 j k) as H0.
      assert (size j <> 0%nat) by (apply H0; eauto). lia. }
    destruct (IH _ Hs) as [H1 H2]. split; [done |]. etrans; [exact H2 | apply delete_subseteq].
  - apply first_entry_None in Hfst as ->. rewrite map_size_empty in Hle. simpl in Hle. lia.
Qed.

#[local] Arguments evict : simpl never.

Lemma supersede_subseteq key j : supersede key j ⊆ j.
Proof. destruct key; [apply map_filter_subseteq | done]. Qed.

(** ** The invariant *)

Section facts.
Context `{FixDictionary} (c : SessionConfig).

(** A configuration as the constructor accepts it, with [usize] bounds. *)
Definition config_ok : Prop :=
  validate_config c = Ok tt /\ 0 <= sc_max_journal_messages c /\ 0 <= sc_max_pending_inbound c.

Lemma config_bounds : config_ok -> 1 <= sc_max_journal_messages c /\ 1 <= sc_max_pending_inbound c.
Proof.
  intros (Hv & Hj & Hp). unfold validate_config in Hv. apply result_bind_Ok in Hv as (u & Hv & _).
  unfold err_if in Hv. destruct (_ || _) eqn:Hg in Hv; [done |]. guards. lia.
Qed.

Definition key_ok (key : option Text) : Prop :=
  match key with
  | Some key => key <> [] /\ zlen key <= wl_max_field_bytes (sc_wire_limits c)
  | None => True
  end.

(** A buffered message carries its own sequence number, or is the heartbeat
    that stands for an answered resend request. *)
Definition pending_entry (k : Z) (m : FixMessage) : Prop :=
  parse_tag m 34 = Some k \/ fm_msg_type m = text "0".

Record session_ok (s : FixSession) : Prop := {
  so_config : fs_config s = c;
  so_version : ss_version (fs_snapshot s) = 2;
  so_incoming : 1 <= ss_incoming_sequence (fs_snapshot s);
  so_outgoing : 1 <= ss_outgoing_sequence (fs_snapshot s) <= int_max U64;
  so_journal_size : Z.of_nat (size (ss_journal (fs_snapshot s))) <= sc_max_journal_messages c;
  so_journal : map_Forall (fun k e => je_sequence e = k /\ 1 <= k < ss_outgoing_sequence (fs_snapshot s) /\
    key_ok (je_replacement_key e)) (ss_journal (fs_snapshot s));
  so_pending_size : Z.of_nat (size (ss_pending_inbound (fs_snapshot s))) <= sc_max_pending_inbound c;
  so_pending : map_Forall pending_entry (ss_pending_inbound (fs_snapshot s))
}.

(** What sending leaves alone: everything about the inbound direction. *)
Definition inbound (s : FixSession) :=
  (ss_incoming_sequence (fs_snapshot s), ss_pending_inbound (fs_snapshot s),
   ss_pending_resend_begin (fs_snapshot s), ss_outstanding_test_request (fs_snapshot s)).

Lemma map_Forall_subseteq {V} (P : Z -> V -> Prop) (m m' : gmap Z V) :
  m' ⊆ m -> map_Forall P m -> map_Forall P m'.
Proof. intros Hsub Hm k v Hk. apply Hm. by eapply lookup_weaken. Qed.

(** Sending takes the next outgoing number, journals within the bound and
    touches nothing else; a failure changes nothing. *)
Lemma send_new_wp message timestamp now journal key s :
  config_ok -> session_ok s -> key_ok key ->
  wp (send_new message timestamp now journal key)
    (fun actions s' => session_ok s' /\ inbound s' = inbound s /\
       ss_state (fs_snapshot s') = ss_state (fs_snapshot s) /\
       ss_outgoing_sequence (fs_snapshot s') = ss_outgoing_sequence (fs_snapshot s) + 1 /\
       exists frame, encode_at c message (ss_outgoing_sequence (fs_snapshot s)) timestamp None = Ok frame /\
         actions = [SessionAction.Send frame; SessionAction.Persist])
    (fun s' => s' = s) s.
Proof.
  intros Hc Hs Hk. destruct (config_bounds Hc) as [Hj _]. unfold send_new, configured, snap.
  do 4 wp_step. cbn [id]. rewrite (so_config s Hs).
  wp_step. wp_step; [done |]. chk. wp_step. wp_step; [done |].
  set (o := ss_outgoing_sequence (fs_snapshot s)) in *.
  destruct Hs as [S1 S2 S3 S4 S5 S6 S7 S8]. fold o in S4, S6.
  wp_step. destruct journal; repeat (unfold update_snapshot; wp_step).
  - set (j := ss_journal (fs_snapshot s)) in *. cbn.
    destruct (evict_spec (S (size (supersede key j))) (sc_max_journal_messages c) (supersede key j))
      as [E1 E2]; [done | lia |]. fold j.
    set (e := evict _ _ _) in *.
    assert (Hej : e ⊆ j) by (etrans; [exact E2 | apply supersede_subseteq]).
    assert (Ho : e !! o = None).
    { destruct (e !! o) as [x|] eqn:Hx; [| done]. eapply lookup_weaken in Hx; [| exact Hej].
      apply S6 in Hx. lia. }
    split; [| by split_and!; eauto].
    split; cbn; try done; [lia | rewrite map_size_insert_None by done; lia |].
    apply map_Forall_insert_2; [split_and!; try done; cbn; lia |].
    eapply map_Forall_subseteq; [exact Hej |]. eapply map_Forall_impl; [exact S6 |].
    intros k x (? & ? & ?). split_and!; try done; lia.
  - split; [| by split_and!; eauto]. split; cbn; try done; [lia |].
    eapply map_Forall_impl; [exact S6 |]. intros k x (? & ? & ?). split_and!; try done; lia.
Qed.

(** The part of a session the invariant reads. *)
Definition vital (s : FixSession) :=
  (fs_config s, ss_version (fs_snapshot s), ss_incoming_sequence (fs_snapshot s),
   ss_outgoing_sequence (fs_snapshot s), ss_journal (fs_snapshot s), ss_pending_inbound (fs_snapshot s)).

Lemma session_ok_vital s s' : vital s' = vital s -> session_ok s -> session_ok s'.
Proof.
  unfold vital. intros [= E1 E2 E3 E4 E5 E6] [S1 S2 S3 S4 S5 S6 S7 S8].
  split; rewrite ?E1, ?E2, ?E3, ?E4, ?E5, ?E6; done.
Qed.

(** ** Delivery *)

(** The sequence numbers of the application messages among the actions. *)
Definition application_number (a : SessionAction) : option Z :=
  match a with SessionAction.Application m => parse_tag m 34 | _ => None end.
Definition delivered (actions : list SessionAction) : list Z := omap application_number actions.
Definition numbered (a : SessionAction) : Prop :=
  match a with SessionAction.Application m => is_Some (parse_tag m 34) | _ => True end.

(** Application messages in strictly increasing order, within [lo, hi). *)
Record in_order (lo : Z) (actions : list SessionAction) (hi : Z) : Prop := {
  io_numbered : Forall numbered actions;
  io_sorted : StronglySorted Z.lt (delivered actions);
  io_range : Forall (fun n => lo <= n < hi) (delivered actions);
  io_bounds : lo <= hi
}.

Lemma in_order_silent lo hi actions :
  lo <= hi -> Forall (fun a => forall m, a <> SessionAction.Application m) actions -> in_order lo actions hi.
Proof.
  intros Hb Ha.
  assert (Hd : delivered actions = []).
  { induction Ha as [|a actions Ha _ IH]; [done |]. destruct a; try exact IH. by destruct (Ha message). }
  split; [| by rewrite Hd; constructor | by rewrite Hd | done].
  eapply Forall_impl; [exact Ha |]. intros []; try done. intros Hm. by destruct (Hm message).
Qed.

Lemma in_order_app lo a mid b hi :
  in_order lo a mid -> in_order mid b hi -> in_order lo (a ++ b) hi.
Proof.
  intros [A1 A2 A3 A4] [B1 B2 B3 B4].
  assert (Hd : delivered (a ++ b) = delivered a ++ delivered b) by apply omap_app.
  split; [by apply Forall_app | rewrite Hd | rewrite Hd | lia].
  - apply StronglySorted_app_2; [| done | done]. intros x y Hx Hy.
    rewrite Forall_forall in A3, B3. apply A3 in Hx. apply B3 in Hy. lia.
  - apply Forall_app. split; (eapply Forall_impl; [eassumption |]); simpl; lia.
Qed.

Lemma sends_silent frames :
  Forall (fun a => forall m, a <> SessionAction.Application m)
    ((SessionAction.Send <$> frames) ++ [SessionAction.Persist]).
Proof.
  apply Forall_app. split; [| by apply Forall_singleton].
  apply Forall_fmap, Forall_forall. done.
Qed.

(** A resend answers from the journal without changing the session. *)
Lemma replay_requested_wp request timestamp now s :
  wp (replay_requested request timestamp now)
    (fun actions s' => vital s' = vital s /\ inbound s' = inbound s /\
       ss_state (fs_snapshot s') = ss_state (fs_snapshot s) /\
       exists frames, actions = (SessionAction.Send <$> frames) ++ [SessionAction.Persist])
    (fun s' => s' = s) s.
Proof.
  unfold replay_requested, snap, configured, update_snapshot. repeat (wp_step; [done |]).
  repeat first [wp_step; [done |] | wp_step]. by split_and!; eauto.
Qed.

Definition incoming (s : FixSession) : Z := ss_incoming_sequence (fs_snapshot s).
Definition pending (s : FixSession) : gmap Z FixMessage := ss_pending_inbound (fs_snapshot s).
Definition resending (s : FixSession) : option Z := ss_pending_resend_begin (fs_snapshot s).
Definition buffer (s : FixSession) := (pending s, resending s).
Definition calm (s : FixSession) := (vital s, resending s).

Lemma calm_vital s s' : calm s' = calm s -> vital s' = vital s.
Proof. unfold calm. congruence. Qed.
Lemma calm_incoming s s' : calm s' = calm s -> incoming s' = incoming s.
Proof. intros Hc%calm_vital. injection Hc as _ _ E1 _ _ _. done. Qed.
Lemma calm_buffer s s' : calm s' = calm s -> buffer s' = buffer s.
Proof.
  intros Hc. pose proof (calm_vital _ _ Hc) as Hv. unfold calm in Hc. unfold buffer.
  injection Hv as _ _ _ _ _ E2. unfold pending. congruence.
Qed.
Lemma calm_inbound s s' : vital s' = vital s -> inbound s' = inbound s -> calm s' = calm s.
Proof. unfold calm, inbound, resending. congruence. Qed.

(** Progress of the inbound direction from number [lo] with the buffer [p]:
    what a step delivers is in order, and the next expected number follows
    it. *)
Definition delivers (lo : Z) p (actions : list SessionAction) (s' : FixSession) : Prop :=
  session_ok s' /\ buffer s' = p /\ in_order lo actions (incoming s').
Definition stops (lo : Z) p (s' : FixSession) : Prop :=
  session_ok s' /\ buffer s' = p /\ lo <= incoming s'.

Lemma stops_calm lo p s s' : stops lo p s -> calm s' = calm s -> stops lo p s'.
Proof.
  intros (Hs & Hp & Hl) Hv. split; [by eapply session_ok_vital; [apply calm_vital |] |].
  by rewrite (calm_buffer _ _ Hv), (calm_incoming _ _ Hv).
Qed.

Lemma delivers_silent lo p s s' actions :
  stops lo p s -> calm s' = calm s ->
  Forall (fun a => forall m, a <> SessionAction.Application m) actions -> delivers lo p actions s'.
Proof.
  intros Hst Hv Ha. destruct (stops_calm _ _ _ _ Hst Hv) as (? & ? & ?).
  split_and!; [done | done | by apply in_order_silent].
Qed.

Lemma send_new_delivers message timestamp now journal key s lo p :
  config_ok -> key_ok key -> stops lo p s ->
  wp (send_new message timestamp now journal key) (delivers lo p) (stops lo p) s.
Proof.
  intros Hc Hk Hst. destruct Hst as (Hs & Hp & Hl).
  eapply wp_mono; [by apply send_new_wp | | by intros s' ->].
  intros acts s' (Hs' & Hin & _ & _ & frame & _ & ->). injection Hin as E1 E2 E3 _.
  split_and!; [done | unfold buffer, pending, resending in *; congruence |].
  apply in_order_silent; [unfold incoming in *; lia | by repeat constructor].
Qed.

Lemma replay_requested_delivers request timestamp now s lo p :
  stops lo p s -> wp (replay_requested request timestamp now) (delivers lo p) (stops lo p) s.
Proof.
  intros Hst. eapply wp_mono; [apply replay_requested_wp | | by intros s' ->].
  intros acts s' (Hv & Hin & _ & frames & ->).
  eapply delivers_silent; [done | by apply calm_inbound | apply sends_silent].
Qed.

Lemma stops_advance lo p s v :
  stops lo p s -> incoming s <= v ->
  stops lo p (mkFixSession (fs_config s) (set_incoming v (fs_snapshot s)) (fs_decoder s)).
Proof.
  intros ([S1 S2 S3 S4 S5 S6 S7 S8] & Hp & Hl) Hv. unfold incoming in *.
  split_and!; [split; cbn; try done; lia | done | cbn; lia].
Qed.

Ltac quiet := eapply delivers_silent; [eassumption | done | by repeat constructor].

Lemma process_in_sequence_wp m timestamp now s p :
  config_ok -> stops (incoming s) p s -> pending_entry (incoming s) m ->
  wp (process_in_sequence m timestamp now)
    (delivers (incoming s) p) (stops (incoming s) p) s.
Proof.
  intros Hc Hst Hm. unfold process_in_sequence, snap, configured, update_snapshot.
  do 3 wp_step. wp_step; [done |]. chk. do 4 wp_step. cbn zeta.
  set (s1 := mkFixSession _ _ _).
  assert (H1 : stops (incoming s) p s1).
  { eapply stops_calm; [apply (stops_advance _ _ s (incoming s + 1)); [done | lia] | done]. }
  assert (Hi : incoming s1 = incoming s + 1) by done. clearbody s1.
  case_bool_decide as HA; [| case_bool_decide as HB; [| case_bool_decide as HT; [| case_bool_decide as HR;
    [| case_bool_decide as HG; [| case_bool_decide as HL]]]]].
  - wp_step. wp_step; [done |]. do 3 wp_step. quiet.
  - do 3 wp_step. eapply delivers_silent; [eassumption | | destruct (message_value m 112); by repeat constructor].
    cbn. by case_bool_decide.
  - by apply send_new_delivers.
  - by apply replay_requested_delivers.
  - wp_step. wp_step; [done |]. do 3 wp_step. wp_step; [done |]. do 3 wp_step. guards.
    eapply delivers_silent; [by eapply stops_advance | done | constructor].
  - do 3 wp_step. eapply wp_mono; [apply send_new_delivers; [done | done | by eapply stops_calm] | | done].
    intros acts s' (? & ? & Hio). wp_step. split_and!; try done.
    eapply in_order_app; [exact Hio |]. apply in_order_silent; [done | by repeat constructor].
  - wp_step. destruct H1 as (? & ? & ?). split_and!; [done | done |].
    assert (Hd : parse_tag m 34 = Some (incoming s)) by (destruct Hm; done).
    assert (Hds : delivered [SessionAction.Application m] = [incoming s]) by (cbn; by rewrite Hd).
    split; rewrite ?Hds, ?Forall_singleton; cbn; [by rewrite Hd | by repeat constructor | lia | lia].
Qed.

(** ** Whole calls

    A buffered message that was overtaken, while a resend is outstanding. *)
Definition stale (k : Z) (s : FixSession) : Prop :=
  is_Some (pending s !! k) /\ k < incoming s /\ is_Some (resending s).

(** The order in which sessions evolve: the expected number never goes back
    and a stale message stays. *)
Definition later (s s' : FixSession) : Prop :=
  incoming s <= incoming s' /\ forall k, stale k s -> stale k s'.
#[local] Instance later_preorder : PreOrder later.
Proof.
  split; [by split |]. intros s1 s2 s3 [H1 H2] [H3 H4]. split; [lia |]. eauto.
Qed.

Definition holds (s s' : FixSession) : Prop := session_ok s' /\ later s s'.
Definition advances (s : FixSession) (actions : list SessionAction) (s' : FixSession) : Prop :=
  holds s s' /\ in_order (incoming s) actions (incoming s').

Lemma buffer_later s s' : buffer s' = buffer s -> incoming s <= incoming s' -> later s s'.
Proof.
  unfold buffer. intros [= Hp Hr] Hi. split; [done |]. intros k (? & ? & ?).
  split_and!; [by rewrite Hp | lia | by rewrite Hr].
Qed.
Lemma stops_holds s s' : stops (incoming s) (buffer s) s' -> holds s s'.
Proof. intros (? & ? & ?). split; [done | by apply buffer_later]. Qed.
Lemma delivers_advances s actions s' :
  delivers (incoming s) (buffer s) actions s' -> advances s actions s'.
Proof. intros (? & ? & Hio). split; [apply stops_holds; split_and!; try done; apply Hio | done]. Qed.
Lemma stops_refl s : session_ok s -> stops (incoming s) (buffer s) s.
Proof. done. Qed.
Lemma holds_refl s : session_ok s -> holds s s.
Proof. by split. Qed.
Lemma holds_trans s s1 s2 : later s s1 -> holds s1 s2 -> holds s s2.
Proof. intros ? (? & ?). split; [done |]. by etrans. Qed.
Lemma calm_holds s s1 s2 : holds s s1 -> calm s2 = calm s1 -> holds s s2.
Proof.
  intros [Hs Hl] Hv. eapply holds_trans; [done |]. apply stops_holds.
  eapply stops_calm; [by apply stops_refl | done].
Qed.

Lemma advances_silent s s' actions :
  holds s s' -> Forall (fun a => forall m, a <> SessionAction.Application m) actions -> advances s actions s'.
Proof. intros Hh Ha. split; [done |]. apply in_order_silent; [apply Hh | done]. Qed.
Lemma advances_app s a s1 b s2 : advances s a s1 -> advances s1 b s2 -> advances s (a ++ b) s2.
Proof.
  intros [[Hs1 Hl] Ha] [Hh2 Hb]. split; [by eapply holds_trans |]. by eapply in_order_app.
Qed.

(** Steps in sequence. *)
Lemma wp_advances_bind {A} (m : M FixSession SessionError (list SessionAction)) s0 s
    (f : list SessionAction -> M FixSession SessionError A) (Q : A -> FixSession -> Prop) :
  later s0 s -> wp m (advances s) (holds s) s ->
  (forall actions s', advances s actions s' -> wp (f actions) Q (holds s0) s') ->
  wp (m ≫= f) Q (holds s0) s.
Proof.
  intros Hl Hm Hf. apply wp_bind. eapply wp_mono; [exact Hm | exact Hf |].
  intros s'. by apply holds_trans.
Qed.

Lemma process_advances m timestamp now s :
  config_ok -> session_ok s -> pending_entry (incoming s) m ->
  wp (process_in_sequence m timestamp now) (advances s) (holds s) s.
Proof.
  intros Hc Hs Hm. eapply wp_mono; [apply (process_in_sequence_wp m timestamp now s (buffer s)) | |].
  - done.
  - by apply stops_refl.
  - done.
  - intros ??. apply delivers_advances.
  - intros ?. apply stops_holds.
Qed.

Lemma send_advances message timestamp now journal key s0 s :
  config_ok -> key_ok key -> holds s0 s ->
  wp (send_new message timestamp now journal key) (advances s0) (holds s0) s.
Proof.
  intros Hc Hk [Hs Hl]. eapply wp_mono; [apply send_new_delivers; [done | done | by apply stops_refl] | |].
  - intros acts s' Hd%delivers_advances. apply (advances_app s0 [] s acts s'); [| done].
    by apply advances_silent.
  - intros s' Hh%stops_holds. by eapply holds_trans.
Qed.

Lemma session_ok_pending s p :
  session_ok s -> Z.of_nat (size p) <= sc_max_pending_inbound c -> map_Forall pending_entry p ->
  session_ok (mkFixSession (fs_config s) (set_pending p (fs_snapshot s)) (fs_decoder s)).
Proof. intros [S1 S2 S3 S4 S5 S6 S7 S8] ??. by split. Qed.

Lemma drain_pending_advances fuel timestamp now s :
  config_ok -> session_ok s ->
  wp (drain_pending fuel timestamp now) (advances s) (holds s) s.
Proof.
  intros Hc. revert s. induction fuel as [|fuel IH]; intros s Hs.
  { cbn [drain_pending]. wp_step. by apply advances_silent. }
  cbn [drain_pending]. unfold snap, update_snapshot. do 2 wp_step. cbn [id].
  fold (pending s). fold (incoming s). destruct (pending s !! incoming s) as [next|] eqn:Hn.
  2: { wp_step. by apply advances_silent. }
  do 2 wp_step. set (s1 := mkFixSession _ _ _).
  assert (Hh : holds s s1).
  { split; [apply session_ok_pending; [done | |] | split; [done |]].
    - rewrite map_size_delete_Some by eauto. pose proof (so_pending_size s Hs). unfold pending in *. lia.
    - apply map_Forall_delete, Hs.
    - intros k (Hk & Hi & Hr). split_and!; [| done | done]. unfold pending; cbn.
      rewrite lookup_delete_ne; [done | lia]. }
  apply wp_advances_bind; [apply Hh | apply process_advances; [done | apply Hh | by apply Hs] |].
  intros actions s2 Ha. apply (advances_app s [] s1) in Ha; [| by apply advances_silent].
  wp_step. eapply wp_mono; [apply IH; apply Ha | |].
  - intros more s3 Hmore. wp_step. by eapply advances_app.
  - intros s3 Hm. eapply holds_trans; [apply Ha | done].
Qed.

Lemma receive_ahead_advances message sequence timestamp now s :
  config_ok -> session_ok s -> parse_tag message 34 = Some sequence ->
  wp (receive_ahead message sequence timestamp now) (advances s) (holds s) s.
Proof.
  intros Hc Hs Hseq. unfold receive_ahead, configured, snap, update_snapshot. do 4 wp_step. cbn [id].
  rewrite (so_config s Hs). wp_step. wp_step; [by apply holds_refl |]. guards. wp_step.
  apply wp_mono with
    (Q := fun r s' => stops (incoming s) (buffer s) s' /\ pending_entry sequence r.2 /\
            Forall (fun a => forall m, a <> SessionAction.Application m) r.1)
    (X := holds s); [| | done].
  { case_bool_decide.
    - wp_step. eapply wp_mono; [apply replay_requested_wp | | intros s' ->; by apply holds_refl].
      intros actions s' (Hv & Hin & _ & frames & ->). wp_step. split_and!.
      + eapply stops_calm; [by apply stops_refl | by apply calm_inbound].
      + by right.
      + apply sends_silent.
    - wp_step. split_and!; [by apply stops_refl | by left | constructor]. }
  intros [actions queued] s1 (Hst & Hq & Ha). cbn [fst snd] in *. do 4 wp_step.
  set (s2 := mkFixSession _ _ _).
  assert (Hs2 : holds s s2).
  { eapply holds_trans; [by apply stops_holds |]. destruct Hst as (Hs1 & Hp1 & Hi1).
    split; [apply session_ok_pending; [done | |] | split; [done |]]; fold (pending s1).
    - injection Hp1 as Hp1 _. rewrite Hp1. destruct (pending s !! sequence) eqn:Hx; [apply Hs |].
      rewrite map_size_insert_None by done. unfold pending in *. lia.
    - destruct (pending s1 !! sequence); [apply Hs1 |]. apply map_Forall_insert_2; [done | apply Hs1].
    - intros k (Hk & Hi & Hr). split_and!; [| done | done]. unfold pending in *; cbn.
      case_match; [done |]. rewrite lookup_insert. by case_decide. }
  cbn [id]. case_bool_decide as Hr.
  - wp_step. apply advances_silent; [done |]. apply Forall_app. split; [done | by repeat constructor].
  - do 3 wp_step. eapply wp_mono; [apply send_advances; [done | done |] | |].
    + split; [by eapply session_ok_vital; [| apply Hs2] |]. etrans; [apply Hs2 |]. split; [done |].
      intros k (Hk & Hi & Hr'). by destruct Hr.
    + intros sent s3 Hsent. wp_step. destruct Hsent as [Hh Hio]. split; [done |].
      eapply in_order_app; [| exact Hio]. by apply in_order_silent.
    + done.
Qed.

Lemma receive_advances message timestamp now s :
  config_ok -> session_ok s ->
  wp (receive message timestamp now) (advances s) (holds s) s.
Proof.
  intros Hc Hs. pose proof (holds_refl s Hs) as Hh.
  unfold receive, configured, snap, update_snapshot. do 3 wp_step. wp_step; [done |]. clear H0.
  wp_step. wp_step; [done |]. chk. do 2 wp_step. fold (incoming s).
  destruct (Z.ltb_spec (incoming s) a); [by apply receive_ahead_advances |].
  destruct (Z.ltb_spec a (incoming s)).
  { wp_step. wp_step; [done |]. wp_step. by apply advances_silent. }
  assert (a = incoming s) as -> by lia.
  apply wp_advances_bind; [done | apply process_advances; [done.. | by left] |].
  intros actions s1 Ha. do 3 wp_step. eapply wp_mono; [apply drain_pending_advances; [done | apply Ha] | |].
  - intros more s2 Hmore. do 3 wp_step. eapply advances_app; [exact Ha |].
    eapply advances_app; [exact Hmore |]. apply advances_silent; [| by repeat constructor].
    case_bool_decide as He; [| by eapply calm_holds; [apply holds_refl, Hmore |]].
    split; [by eapply session_ok_vital; [| apply Hmore] | split; [done |]].
    intros k ([m Hk] & _). unfold pending in Hk. by rewrite He in Hk.
  - intros s2 Hm. eapply holds_trans; [apply Ha | done].
Qed.

Lemma receive_all_advances messages timestamp now s :
  config_ok -> session_ok s ->
  wp (receive_all messages timestamp now) (advances s) (holds s) s.
Proof.
  intros Hc. revert s. induction messages as [|m messages IH]; intros s Hs.
  { cbn [receive_all]. wp_step. by apply advances_silent. }
  cbn [receive_all]. apply wp_advances_bind; [done | by apply receive_advances |].
  intros actions s1 Ha. wp_step. eapply wp_mono; [apply IH, Ha | |].
  - intros more s2 Hmore. wp_step. by eapply advances_app.
  - intros s2 Hm. eapply holds_trans; [apply Ha | done].
Qed.

Lemma receive_bytes_advances bytes timestamp now s :
  config_ok -> session_ok s ->
  wp (receive_bytes_at bytes timestamp now) (advances s) (holds s) s.
Proof.
  intros Hc Hs. unfold receive_bytes_at. do 2 wp_step. destruct (decoder_push bytes _) as [d r].
  do 2 wp_step. set (s1 := mkFixSession _ _ _).
  assert (Hs1 : session_ok s1) by (by apply (session_ok_vital s)).
  wp_step. wp_step; [by apply (calm_holds s s); [apply holds_refl |] |].
  by apply (receive_all_advances a timestamp now s1).
Qed.

Lemma run_call_advances call s :
  config_ok -> session_ok s -> wp (run_call call) (advances s) (holds s) s.
Proof.
  intros Hc Hs. pose proof (holds_refl s Hs) as Hh.
  destruct call; cbn [run_call]; unfold connected, receive_bytes, connected_at, send_application,
    send_replaceable_application, request_logout, session_probe, poll, require_established, configured, snap, update_snapshot.
  - do 4 wp_step. wp_step. wp_step; [done |]. do 12 wp_step. apply send_advances; [done | done |].
    by eapply calm_holds.
  - do 2 wp_step. wp_step. wp_step; [done |]. do 12 wp_step. apply send_advances; [done | done |].
    by eapply calm_holds.
  - do 3 wp_step. wp_step; [done |]. do 2 wp_step. by apply send_advances.
  - do 3 wp_step. wp_step; [done |]. do 3 wp_step. wp_step; [done |]. do 2 wp_step.
    guards. cbn [id] in *. rewrite (so_config s Hs) in *.
    apply send_advances; [done | split; [by eapply bool_decide_eq_false | done] | done].
  - do 3 wp_step. wp_step; [done |]. do 4 wp_step. apply send_advances; [done | done |].
    by eapply calm_holds.
  - do 3 wp_step. wp_step; [done |]. wp_step. wp_step; [done |]. by apply send_advances.
  - do 2 wp_step. case_bool_decide; cbn [negb]; [| wp_step; by apply advances_silent].
    do 3 wp_step. wp_step; [done |]. do 2 wp_step. cbn zeta. case_match.
    { do 3 wp_step. apply advances_silent; [by eapply calm_holds | by repeat constructor]. }
    case_match.
    { do 2 wp_step. apply send_advances; [done | done |]. by eapply calm_holds. }
    case_match; [by apply send_advances |]. wp_step. by apply advances_silent.
  - do 2 wp_step. by apply receive_bytes_advances.
  - by apply receive_bytes_advances.
Qed.

Lemma new_session_ok s : config_ok -> FixSession_new c = Ok s -> session_ok s /\ incoming s = 1.
Proof.
  intros Hc Hn. destruct (config_bounds Hc). unfold FixSession_new in Hn.
  apply result_bind_Ok in Hn as (u & _ & [= <-]). split; [| done].
  split; cbn; try done; rewrite ?map_size_empty; cbn; (lia || apply map_Forall_empty).
Qed.

(** The snapshot of such a session restores. *)
Lemma session_restores s :
  config_ok -> session_ok s ->
  restore c (fs_snapshot s) = Ok (mkFixSession c (fs_snapshot s) (Decoder_new (sc_wire_limits c))).
Proof.
  intros Hc [S1 S2 S3 S4 S5 S6 S7 S8].
  unfold restore. rewrite (proj1 Hc). cbn [mbind result_bind].
  destruct (_ || _) eqn:Hg; [exfalso | done]. rewrite !orb_true_iff in Hg.
  destruct Hg as [[[[[Hg|Hg]|Hg]|Hg]|Hg]|Hg].
  - rewrite S2 in Hg. done.
  - apply Z.ltb_lt in Hg. lia.
  - apply existsb_exists in Hg as ([k e] & Hin & Hbad). apply list_elem_of_In, elem_of_entries in Hin.
    destruct (S6 _ _ Hin) as (Hseq & _ & Hkey). unfold bad_entry in Hbad. cbn [fst snd] in *.
    rewrite Hseq, Z.eqb_refl in Hbad. destruct (je_replacement_key e) as [key|]; [| done].
    destruct Hkey as [Hne Hlen]. rewrite bool_decide_false in Hbad by done. apply Z.ltb_lt in Hbad. lia.
  - apply Z.ltb_lt in Hg. lia.
  - apply Z.eqb_eq in Hg. lia.
  - apply Z.eqb_eq in Hg. lia.
Qed.

(** Any sequence of calls, failed ones included. *)
Lemma run_calls_advances calls s s' actions :
  config_ok -> session_ok s -> run_calls calls s = (s', actions) -> advances s actions s'.
Proof.
  intros Hc. revert s actions. induction calls as [|call calls IH]; intros s actions Hs Hrun; simpl in Hrun.
  { simplify_eq. by apply advances_silent. }
  pose proof (run_call_advances call s Hc Hs) as Hw. unfold wp in Hw.
  destruct (run_call call s) as [s1 r]; destruct (run_calls calls s1) as [s2 more] eqn:Hmore.
  injection Hrun as <- <-. assert (Ha : advances s (actions_of r) s1).
  { destruct r; [done | by apply advances_silent]. }
  eapply advances_app; [done |]. apply IH; [apply Ha | done].
Qed.
End facts.
