(* ===== verification/FixResend.v ===== *)
(** * simfix-session: gap recovery

    What a session resends ([replay_requested]) and what its peer makes of it
    ([receive]): the resent messages tile the requested range, and receiving
    them brings the peer up to date with every message still retained. *)

From S2P Require Import Prelude Ordered Decimal Hoare FixWire FixSession FixSessionFacts.
From Stdlib Require Import Ascii.
#[local] Open Scope list_scope.

(** ** Fields of a message *)

Definition field_value (fields : list Field) (tag : Z) : option Text :=
  (fun found => fd_value found.2) <$> list_find (fun field => fd_tag field = tag) fields.

Lemma field_value_cons f l tag :
  field_value (f :: l) tag = if decide (fd_tag f = tag) then Some (fd_value f) else field_value l tag.
Proof.
  unfold field_value. cbn [list_find]. case_decide; [done |].
  by destruct (list_find (fun field => fd_tag field = tag) l) as [[]|].
Qed.

Lemma field_value_app l1 l2 tag :
  field_value (l1 ++ l2) tag = match field_value l1 tag with Some v => Some v | None => field_value l2 tag end.
Proof.
  induction l1 as [|f l1 IH]; [done |]. cbn [app]. rewrite !field_value_cons, IH. by case_decide.
Qed.

Lemma field_value_filter l tag :
  field_value (filter (fun field => session_tag (fd_tag field) = false) l) tag
  = if session_tag tag then None else field_value l tag.
Proof.
  induction l as [|f l IH]; [by case_match |]. rewrite filter_cons.
  destruct (decide (session_tag (fd_tag f) = false)) as [Hf|Hf]; rewrite !field_value_cons, IH.
  - case_decide; [| done]. subst tag. by rewrite Hf.
  - case_decide; [| done]. subst tag. by destruct (session_tag (fd_tag f)).
Qed.

(** The fields of a message as [encode_at] stamps it: the ones it owns, and
    the others as they were. *)
Lemma stamped_value c m n ts original tag :
  message_value (stamped c m n ts (Some original)) tag =
  if decide (tag = 49) then Some (sc_sender_comp_id c)
  else if decide (tag = 56) then Some (sc_target_comp_id c)
  else if decide (tag = 34) then Some (display_uint n)
  else if decide (tag = 43) then Some (text "Y")
  else if decide (tag = 122) then Some original
  else if decide (tag = 52) then Some ts
  else message_value m tag.
Proof.
  change (message_value m tag) with (field_value (fm_fields m) tag).
  transitivity (field_value (fm_fields (stamped c m n ts (Some original))) tag); [done |].
  unfold stamped. cbn [fm_fields]. rewrite field_value_app, field_value_filter. cbn [app].
  rewrite !field_value_cons. cbn [fd_tag fd_value]. unfold session_tag.
  repeat (case_decide; [subst tag; done |]). rewrite bool_decide_false by set_solver.
  by destruct (field_value _ _).
Qed.

Lemma message_value_push tag value m t :
  message_value (message_push tag value m) t =
  match message_value m t with Some v => Some v | None => if decide (tag = t) then Some value else None end.
Proof.
  transitivity (field_value (fm_fields (message_push tag value m)) t); [done |].
  unfold message_push. cbn [fm_fields]. rewrite field_value_app, field_value_cons. done.
Qed.

Lemma StronglySorted_filter {A} (R : relation A) (P : A -> Prop) `{!forall x, Decision (P x)} l :
  StronglySorted R l -> StronglySorted R (filter P l).
Proof.
  induction 1 as [|x l Hs IH Hx]; [constructor |]. rewrite filter_cons. case_decide; [| done].
  constructor; [done |]. rewrite Forall_forall in Hx |- *. intros y [_ Hy]%list_elem_of_filter. by apply Hx.
Qed.

(** ** The resent messages *)

Section resent.
Context `{FixDictionary} (c : SessionConfig) (journal : gmap Z JournalEntry) (ts : Text).

(** A retained message, sent again at its own number as a possible
    duplicate with its original sending time. *)
Definition possible_duplicate (original : FixMessage) (n : Z) : FixMessage :=
  stamped c original n ts (Some (default ts (message_value original 52))).
(** A SequenceReset-GapFill from [n] to [next]. *)
Definition gap_fill (n next : Z) : FixMessage :=
  stamped c (message_push 36 (display_uint next) (message_push 123 (text "Y") (FixMessage_new (text "4"))))
    n ts (Some ts).

(** [resent b e ms]: [ms] answers a request for the numbers [b] to [e].  A
    gap fill covers numbers of which none is retained, up to the next
    retained one. *)
Inductive resent : Z -> Z -> list FixMessage -> Prop :=
  | resent_done b e : e < b -> resent b e []
  | resent_copy b e entry original ms :
      b <= e -> journal !! b = Some entry ->
      decode_one (je_frame entry) (sc_wire_limits c) = Ok original ->
      resent (b + 1) e ms -> resent b e (possible_duplicate original b :: ms)
  | resent_gap b next e ms :
      b < next <= e + 1 -> (forall k, b <= k < next -> journal !! k = None) ->
      resent next e ms -> resent b e (gap_fill b next :: ms).

Lemma next_retained b e next :
  b <= e < int_max U64 -> journal !! b = None ->
  next = default (Z.min (e + 1) (int_max U64)) (head (filter (fun k => b <= k <= e) (keys journal))) ->
  b < next <= e + 1 /\ forall k, b <= k < next -> journal !! k = None.
Proof.
  intros He Hb ->. pose proof (keys_sorted journal) as Hs.
  destruct (head (filter _ _)) as [k0|] eqn:Hh; cbn [default].
  - apply head_Some in Hh as [l Hl].
    assert (Hk0 : k0 ∈ filter (fun k => b <= k <= e) (keys journal)) by (rewrite Hl; set_solver).
    apply list_elem_of_filter in Hk0 as [Hr Hk0]. apply elem_of_keys in Hk0. cbn in Hr |- *.
    split; [destruct (decide (k0 = b)) as [->|]; [by destruct Hk0; congruence | lia] |].
    intros k Hk. destruct (journal !! k) as [v|] eqn:Hv; [| done]. exfalso.
    assert (Hin : k ∈ k0 :: l).
    { rewrite <-Hl. apply list_elem_of_filter. split; [lia | apply elem_of_keys; eauto]. }
    assert (Hsf : StronglySorted ord_lt (k0 :: l)).
    { rewrite <-Hl. by apply StronglySorted_filter. }
    inversion Hsf as [|?? _ Hall]; subst. apply elem_of_cons in Hin as [->|Hin]; [lia |].
    rewrite Forall_forall in Hall. apply Hall in Hin as [Hle _]. cbn in Hle. lia.
  - rewrite Z.min_l by lia. split; [lia |]. intros k Hk.
    destruct (journal !! k) eqn:Hv; [| done]. exfalso.
    assert (Hin : k ∈ filter (fun k => b <= k <= e) (keys journal)).
    { apply list_elem_of_filter. split; [lia | apply elem_of_keys; eauto]. }
    destruct (filter _ _); [set_solver | done].
Qed.

(** Enough iterations, and every number of the range is answered for. *)
Lemma resend_loop_resent fuel b e frames :
  (Z.to_nat (e + 1 - b) < fuel)%nat -> 0 <= b -> e < int_max U64 ->
  resend_loop fuel c journal b e ts = Ok frames ->
  exists ms, resent b e ms /\ Forall2 (fun m frame => encode m (sc_wire_limits c) = Ok frame) ms frames.
Proof.
  revert b frames. induction fuel as [|fuel IH]; intros b frames Hf Hb He Hr; [lia |].
  cbn [resend_loop] in Hr. destruct (Z.leb_spec b e) as [Hbe|Hbe].
  2: { injection Hr as <-. exists []. split; [by constructor | constructor]. }
  apply result_bind_Ok in Hr as ([frame next] & Hone & Hr).
  apply result_bind_Ok in Hr as (more & Hmore & [= <-]).
  assert (Hstep : exists m, encode m (sc_wire_limits c) = Ok frame /\ b < next <= e + 1 /\
    forall ms, resent next e ms -> resent b e (m :: ms)).
  { unfold resend_one in Hone. destruct (journal !! b) as [entry|] eqn:Hj.
    - apply result_bind_Ok in Hone as (original & Hd & Hone). cbn zeta in Hone.
      apply result_bind_Ok in Hone as (f & Hen & Hone). apply result_bind_Ok in Hone as (n & Hadd & [= -> ->]).
      chk. exists (possible_duplicate original b). split_and!; [| lia | lia |].
      + unfold encode_at, wire in Hen. by destruct (encode _ _) in Hen |- *; simplify_eq/=.
      + intros ms Hms. eapply resent_copy; eauto.
    - cbn zeta in Hone. apply result_bind_Ok in Hone as (f & Hen & [= -> Hnext]).
      destruct (next_retained b e next) as [Hn Hnone]; [lia | done | done |].
      rewrite Hnext in Hen. exists (gap_fill b next). split_and!; [| lia | lia |].
      + unfold encode_at, wire in Hen. by destruct (encode _ _) in Hen |- *; simplify_eq/=.
      + intros ms Hms. by eapply resent_gap. }
  destruct Hstep as (m & Hm & Hn & Hms). destruct (IH next more) as (ms & Hres & Hall); [lia | lia | done | done |].
  exists (m :: ms). split; [by apply Hms | by constructor].
Qed.
End resent.

(** ** The peer *)

Definition application_type (m : FixMessage) : Prop :=
  fm_msg_type m ∉ [text "A"; text "0"; text "1"; text "2"; text "4"; text "5"].

Section peer.
Context `{FixDictionary} (c : SessionConfig).

(** The heartbeat that answers a test request. *)
Definition test_answer (m : FixMessage) : FixMessage :=
  match message_value m 112 with
  | Some id => message_push 112 id (FixMessage_new (text "0"))
  | None => FixMessage_new (text "0")
  end.
(** A message that a session takes in sequence: an application message, a
    heartbeat, a Logon of this application version, or a test request whose
    answer can be encoded. *)
Definition routine (timestamp : Text) (m : FixMessage) : Prop :=
  application_type m \/ fm_msg_type m = text "0" \/
  (fm_msg_type m = text "A" /\ message_value m 1137 = Some FIX_50_SP2_APPL_VER_ID) \/
  (fm_msg_type m = text "1" /\
   forall n, 0 <= n <= int_max U64 -> exists frame, encode_at c (test_answer m) n timestamp None = Ok frame).

Definition outgoing (s : FixSession) : Z := ss_outgoing_sequence (fs_snapshot s).
(** A receiving session, whose buffer holds routine messages only.  Its own
    numbers suffice to answer all it may take below [reach]. *)
Record receiving (timestamp : Text) (reach : Z) (s : FixSession) : Prop := {
  rc_config : fs_config s = c;
  rc_incoming : 0 <= incoming s;
  rc_reach : reach <= int_max U64;
  rc_room : 0 <= outgoing s /\ outgoing s + (reach - incoming s) <= int_max U64;
  rc_pending : map_Forall (fun k m => (application_type m -> parse_tag m 34 = Some k) /\ routine timestamp m /\ k < reach) (pending s)
}.

(** From [s] to [s'] the numbers of [p] were delivered, the buffer only
    shrank. *)
Record caught_up (timestamp : Text) (reach : Z) (p : Z -> Prop) (s : FixSession) (actions : list SessionAction) (s' : FixSession) : Prop := {
  cu_receiving : receiving timestamp reach s';
  cu_pending : pending s' ⊆ pending s;
  cu_incoming : incoming s <= incoming s';
  cu_delivered : forall k, incoming s <= k < incoming s' -> p k -> k ∈ delivered actions
}.

Lemma delivered_app a b : delivered (a ++ b) = delivered a ++ delivered b.
Proof. apply omap_app. Qed.

Lemma caught_up_trans timestamp reach p s a s1 b s2 :
  caught_up timestamp reach p s a s1 -> caught_up timestamp reach p s1 b s2 -> caught_up timestamp reach p s (a ++ b) s2.
Proof.
  intros [A1 A2 A3 A4] [B1 B2 B3 B4]. split; [done | by etrans | lia |].
  intros k Hk Hp. rewrite delivered_app. apply elem_of_app.
  destruct (Z.lt_ge_cases k (incoming s1)); [left; apply A4 | right; apply B4]; (lia || done).
Qed.

Lemma caught_up_same timestamp reach p s s' actions :
  receiving timestamp reach s -> calm s' = calm s -> outgoing s' = outgoing s -> caught_up timestamp reach p s actions s'.
Proof.
  intros [R1 R2 R3 R4 R5] Hc Ho. pose proof (calm_incoming _ _ Hc) as Hi. pose proof (calm_buffer _ _ Hc) as Hb.
  injection Hb as Hp _. injection (calm_vital _ _ Hc) as Hcfg _ _ _ _ _.
  split; [split | | |]; rewrite ?Hcfg, ?Hi, ?Hp, ?Ho; try done. lia.
Qed.

Lemma next_number n : n < int_max U64 -> 0 <= n -> checked_add U64 n 1 = Some (n + 1).
Proof.
  intros. unfold checked_add, checked. rewrite (proj2 (in_range_spec _ _)); [done |].
  change (int_min U64) with 0. lia.
Qed.

(** A heartbeat is sent when it can be encoded. *)
Lemma send_new_sends m timestamp now key s :
  fs_config s = c -> 0 <= outgoing s < int_max U64 ->
  (exists frame, encode_at c m (outgoing s) timestamp None = Ok frame) ->
  exists s' actions, send_new m timestamp now true key s = (s', Ok actions) /\
    incoming s' = incoming s /\ buffer s' = buffer s /\ fs_config s' = fs_config s /\ outgoing s' = outgoing s + 1.
Proof.
  intros Hc Ho [frame Hf]. unfold send_new, configured, snap, update_snapshot, mbind, M_bind, gets, lift, modify.
  cbn [id]. rewrite Hc. fold (outgoing s). rewrite next_number by lia. cbn [ok_or]. rewrite Hf. by do 2 eexists.
Qed.

(** A routine message in sequence is taken; an application message is
    delivered. *)
Lemma process_routine m timestamp now reach s :
  receiving timestamp reach s -> incoming s < reach -> routine timestamp m ->
  exists s' actions, process_in_sequence m timestamp now s = (s', Ok actions) /\
    incoming s' = incoming s + 1 /\ buffer s' = buffer s /\ fs_config s' = fs_config s /\
    outgoing s <= outgoing s' <= outgoing s + 1 /\ (application_type m -> actions = [SessionAction.Application m]).
Proof.
  intros [R1 R2 R3 R4 R5] Hi Hm. unfold process_in_sequence, snap, update_snapshot.
  unfold mbind, M_bind, gets, lift, modify. fold (incoming s). rewrite next_number by lia. cbn [ok_or].
  destruct Hm as [Ha|[Ht|[[Ht Hv]|[Ht Henc]]]].
  - unfold application_type in Ha. rewrite !bool_decide_false by set_solver. do 2 eexists. split; [done |].
    split_and!; try done; unfold outgoing; cbn [fs_snapshot set_last_received set_incoming ss_outgoing_sequence]; lia.
  - rewrite Ht, bool_decide_false, bool_decide_true by done. do 2 eexists. split; [done |].
    unfold incoming, buffer, pending, resending, outgoing. cbn [fs_snapshot fs_config].
    case (bool_decide _); split_and!; try done; try (cbn; lia); unfold application_type; set_solver.
  - rewrite Ht, Hv, !bool_decide_true by done. do 2 eexists. split; [done |].
    unfold incoming, buffer, pending, resending, outgoing. cbn [fs_snapshot fs_config]. split_and!; try done; try (cbn; lia); unfold application_type; set_solver.
  - rewrite Ht. do 2 rewrite bool_decide_false by done. rewrite bool_decide_true by done. cbv zeta.
    match goal with |- context [send_new _ timestamp now true None ?s2] => set (s1 := s2) end.
    fold (test_answer m). destruct (send_new_sends (test_answer m) timestamp now None s1) as (s2 & actions & Hs & H1 & H2 & H3 & H4);
      [done | change (outgoing s1) with (outgoing s); lia | apply Henc; change (outgoing s1) with (outgoing s); lia |].
    exists s2, actions. split; [exact Hs |]. change (outgoing s1) with (outgoing s) in H4.
    split_and!; [exact H1 | exact H2 | exact H3 | lia | lia | unfold application_type; set_solver].
Qed.
Lemma receiving_next timestamp reach s s' next :
  receiving timestamp reach s -> incoming s < next -> next <= reach -> incoming s' = next -> fs_config s' = fs_config s ->
  pending s' ⊆ pending s -> outgoing s <= outgoing s' <= outgoing s + 1 -> receiving timestamp reach s'.
Proof.
  intros [R1 R2 R3 R4 R5] H1 H2 H3 H4 H5 H6. split; [congruence | lia | lia | lia |]. by eapply map_Forall_subseteq.
Qed.

(** Buffered messages are delivered until the first missing one. *)
Definition buffers_application (s : FixSession) (k : Z) : Prop := forall m, pending s !! k = Some m -> application_type m.
Lemma drain_delivers fuel timestamp now reach s :
  receiving timestamp reach s ->
  wp (drain_pending fuel timestamp now)
    (fun actions s' => caught_up timestamp reach (buffers_application s) s actions s' /\
       (forall k, incoming s <= k < incoming s' -> is_Some (pending s !! k)))
    (fun _ => False) s.
Proof.
  revert s. induction fuel as [|fuel IH]; intros s Hr; cbn [drain_pending].
  { wp_step. split; [by apply caught_up_same | lia]. }
  unfold snap, update_snapshot. do 2 wp_step. cbn [id]. fold (pending s). fold (incoming s).
  destruct (pending s !! incoming s) as [next|] eqn:Hn.
  2: { wp_step. split; [by apply caught_up_same | lia]. }
  do 2 wp_step. set (s1 := mkFixSession _ _ _). wp_step. unfold wp at 1.
  destruct (rc_pending _ _ _ Hr _ _ Hn) as (Htag & Hrt & Hmax).
  assert (Hr1 : receiving timestamp reach s1).
  { destruct Hr as [R1 R2 R3 R4 R5]. split; try done. change (pending s1) with (delete (incoming s) (pending s)). by apply map_Forall_delete. }
  destruct (process_routine next timestamp now reach s1 Hr1) as (s2 & actions & Hp & Hi & Hb & Hc & Ho & Hact); [done | done |].
  rewrite Hp. change (incoming s1) with (incoming s) in Hi. injection Hb as Hb1 _.
  change (pending s1) with (delete (incoming s) (pending s)) in Hb1.
  assert (Hr2 : receiving timestamp reach s2).
  { apply (receiving_next timestamp reach s1 s2 (incoming s + 1)); try done; [change (incoming s1) with (incoming s); lia | lia |]. by rewrite Hb1. }
  wp_step. eapply wp_mono; [by apply IH | | done].
  intros more s3 ([C1 C2 C3 C4] & Hsome). wp_step. unfold buffers_application in *. rewrite Hb1 in *. split.
  - split; [done | etrans; [exact C2 | apply delete_subseteq] | lia |].
    intros k Hk Hp'. rewrite delivered_app. apply elem_of_app.
    destruct (decide (k = incoming s)) as [->|Hne]; [left | right; apply C4; [lia |]].
    + specialize (Hp' _ Hn). rewrite (Hact Hp'). cbn. rewrite (Htag Hp'). set_solver.
    + intros m. rewrite lookup_delete_ne by done. apply Hp'.
  - intros k Hk. destruct (decide (k = incoming s)) as [->|Hne]; [by eauto |].
    destruct (Hsome k) as [v Hv]; [lia |]. rewrite lookup_delete_ne in Hv by done. eauto.
Qed.

(** A possible duplicate at [n], from the peer. *)
Record from_peer (n : Z) (m : FixMessage) : Prop := {
  fp_sender : message_value m 49 = Some (sc_target_comp_id c);
  fp_target : message_value m 56 = Some (sc_sender_comp_id c);
  fp_number : parse_tag m 34 = Some n;
  fp_possdup : message_value m 43 = Some (text "Y");
  fp_original : is_Some (message_value m 122)
}.

(** [receive] once the identity and the number are known. *)
Lemma receive_known n m timestamp now s :
  fs_config s = c -> from_peer n m -> n <= incoming s ->
  receive m timestamp now s =
  if n <? incoming s then (s, Ok [])
  else (actions ← process_in_sequence m timestamp now;
        pending ← snap (fun s => size (ss_pending_inbound s));
        more ← drain_pending (S pending) timestamp now;
        update_snapshot (fun s => if bool_decide (ss_pending_inbound s = ∅)
                                  then set_resend_begin None s else s);;
        mret (actions ++ more ++ [SessionAction.Persist])) s.
Proof.
  intros Hc [F1 F2 F3 F4 F5] Hn. unfold receive at 1, configured, snap at 1. cbn [id].
  unfold mbind at 1 2 3 4, M_bind at 1 2 3 4, gets at 1 2. cbn beta iota. rewrite Hc, F1, F2, F3.
  rewrite !bool_decide_true by done. cbn [negb orb refuse_if lift ok_or andb].
  unfold mret at 1, M_ret at 1, snap at 1, gets at 1. cbn iota beta. fold (incoming s).
  rewrite (proj2 (Z.ltb_ge (incoming s) n)) by lia. by destruct (n <? incoming s).
Qed.

Lemma receive_gap n m timestamp now s :
  fs_config s = c -> message_value m 49 = Some (sc_target_comp_id c) ->
  message_value m 56 = Some (sc_sender_comp_id c) -> parse_tag m 34 = Some n -> incoming s < n ->
  receive m timestamp now s = receive_ahead m n timestamp now s.
Proof.
  intros Hc F1 F2 F3 Hn. unfold receive at 1, configured, snap at 1. cbn [id].
  unfold mbind at 1 2 3 4, M_bind at 1 2 3 4, gets at 1 2. cbn beta iota. rewrite Hc, F1, F2, F3.
  rewrite !bool_decide_true by done. cbn [negb orb refuse_if lift ok_or andb].
  unfold mret at 1, M_ret at 1, snap at 1, gets at 1. cbn iota beta. fold (incoming s).
  by rewrite (proj2 (Z.ltb_lt _ _) Hn).
Qed.

(** A message in sequence, and the buffered messages behind it. *)
Lemma receive_next m timestamp now reach s s1 actions :
  fs_config s = c -> from_peer (incoming s) m ->
  process_in_sequence m timestamp now s = (s1, Ok actions) ->
  receiving timestamp reach s1 -> buffer s1 = buffer s ->
  wp (receive m timestamp now)
    (fun all s' => exists more, all = actions ++ more /\ caught_up timestamp reach (buffers_application s) s1 more s' /\
       forall k, incoming s1 <= k < incoming s' -> is_Some (pending s !! k))
    (fun _ => False) s.
Proof.
  intros Hc Hm Hp Hr Hb. unfold wp. rewrite (receive_known (incoming s)) by done.
  rewrite Z.ltb_irrefl. unfold mbind at 1, M_bind at 1. rewrite Hp.
  match goal with |- context [?m s1] => change (wp m (fun all s' => exists more, all = actions ++ more /\
    caught_up timestamp reach (buffers_application s) s1 more s' /\
    forall k, incoming s1 <= k < incoming s' -> is_Some (pending s !! k)) (fun _ => False) s1) end.
  unfold snap, update_snapshot. do 3 wp_step. eapply wp_mono; [by apply drain_delivers | | done].
  intros more s2 (Hcu & Hsome). do 3 wp_step. injection Hb as Hb _.
  set (s3 := mkFixSession _ _ _).
  assert (H3 : incoming s3 = incoming s2 /\ pending s3 = pending s2 /\ fs_config s3 = fs_config s2 /\ outgoing s3 = outgoing s2).
  { unfold s3, incoming, pending, outgoing. cbn [fs_snapshot fs_config]. by case (bool_decide _). }
  clearbody s3. destruct H3 as (E1 & E2 & E3 & E4). unfold buffers_application in Hcu. rewrite Hb in Hcu. destruct Hcu as [[R1 R2 R3 R4 R5] C2 C3 C4].
  exists (more ++ [SessionAction.Persist]). split_and!; [done | | by rewrite E1, <-Hb].
  split; [split | | |]; rewrite ?E1, ?E2, ?E3, ?E4; try done.
  intros k Hk Hp'. rewrite delivered_app. apply elem_of_app. left. by apply C4.
Qed.

(** A gap fill in sequence moves the expected number. *)
Lemma process_gap_fill m next timestamp now s :
  0 <= incoming s < next -> next <= int_max U64 ->
  fm_msg_type m = text "4" -> parse_tag m 36 = Some next ->
  exists s', process_in_sequence m timestamp now s = (s', Ok []) /\
    incoming s' = next /\ buffer s' = buffer s /\ fs_config s' = fs_config s /\ outgoing s' = outgoing s.
Proof.
  intros Hi Hn Ht H36. unfold process_in_sequence, snap, update_snapshot.
  unfold mbind, M_bind, gets, lift, modify. fold (incoming s). rewrite next_number, Ht, H36 by lia. cbn [ok_or].
  do 4 (rewrite bool_decide_false by done). rewrite bool_decide_true by done. cbn [fs_snapshot].
  change (ss_incoming_sequence _) with (incoming s + 1).
  rewrite (proj2 (Z.ltb_ge next (incoming s + 1))) by lia. by eexists.
Qed.
End peer.

(** ** Recovery *)

Section recovery.
Context `{FixDictionary} (ca cb : SessionConfig) (journal : gmap Z JournalEntry) (ts : Text).

(** Two ends of one connection. *)
Definition mirrored : Prop :=
  sc_sender_comp_id ca = sc_target_comp_id cb /\ sc_target_comp_id ca = sc_sender_comp_id cb.

(** The retained message at [k]. *)
Definition retains (k : Z) (original : FixMessage) : Prop :=
  exists entry, journal !! k = Some entry /\ decode_one (je_frame entry) (sc_wire_limits ca) = Ok original.
Definition retains_application (k : Z) : Prop :=
  exists original, retains k original /\ application_type original.
(** From [b] on, nothing but routine messages is retained: no resend request
    and no logout. *)
Definition routine_since (timestamp : Text) (b : Z) : Prop :=
  forall k original, b <= k -> retains k original -> routine cb timestamp original.

Lemma stamped_routine timestamp m n original : routine cb timestamp m -> routine cb timestamp (stamped ca m n ts (Some original)).
Proof.
  unfold routine, application_type. change (fm_msg_type (stamped ca m n ts (Some original))) with (fm_msg_type m).
  unfold test_answer. rewrite !stamped_value. by destruct (decide (112 = 49)), (decide (1137 = 49)).
Qed.

Lemma stamped_from_peer m n original :
  mirrored -> 0 <= n <= int_max U64 -> from_peer cb n (stamped ca m n ts (Some original)).
Proof.
  intros [E1 E2] Hn. split; unfold parse_tag; rewrite stamped_value.
  - by rewrite <-E1.
  - by rewrite <-E2.
  - by apply parse_display.
  - done.
  - by eexists.
Qed.

(** Buffered messages up to [e] are still retained by the sender, and are
    application messages where the retained ones are. *)
Definition buffer_retained (e : Z) (s : FixSession) : Prop :=
  forall k m, pending s !! k = Some m ->
    (k <= e -> is_Some (journal !! k)) /\ (retains_application k -> application_type m).

(** The peer took nothing from [b] on that the sender does not retain. *)
Definition aligned (timestamp : Text) (reach b e : Z) (s : FixSession) : Prop :=
  receiving cb timestamp reach s /\ b <= incoming s /\ buffer_retained e s /\
  forall k, b <= k < incoming s -> k <= e -> is_Some (journal !! k).

Lemma gap_fill_number n next :
  0 <= next <= int_max U64 -> parse_tag (gap_fill ca ts n next) 36 = Some next.
Proof.
  intros Hn. unfold parse_tag, gap_fill. rewrite stamped_value, !message_value_push.
  by apply parse_display.
Qed.

Lemma receive_resent b e m next timestamp now reach s :
  mirrored -> 0 <= b < next -> next <= e + 1 -> e < reach -> aligned timestamp reach b e s ->
  from_peer cb b m ->
  ((routine cb timestamp m /\ (retains_application b -> application_type m) /\ next = b + 1 /\ is_Some (journal !! b)) \/
  (fm_msg_type m = text "4" /\ parse_tag m 36 = Some next /\ forall k, b <= k < next -> journal !! k = None)) ->
  wp (receive m timestamp now)
    (fun actions s' => caught_up cb timestamp reach retains_application s actions s' /\ aligned timestamp reach next e s')
    (fun _ => False) s.
Proof.
  intros Hmi Hb Hne He (Hr & Hbi & Hret & Hal) Hm Hkind. pose proof (rc_config cb _ _ s Hr) as Hcfg.
  pose proof (rc_reach cb _ _ s Hr) as Hreach.
  destruct (Z.lt_ge_cases b (incoming s)) as [Hlt|Hge].
  - assert (Hj : is_Some (journal !! b)) by (apply Hal; lia).
    destruct Hkind as [(_ & _ & -> & _)|(_ & _ & Hnone)]; [| destruct Hj; rewrite Hnone in *; [done | lia]].
    unfold wp. rewrite (receive_known cb b) by (done || lia). rewrite (proj2 (Z.ltb_lt b _)) by done.
    split; [by apply caught_up_same |]. split_and!; [done | lia | done |]. intros k Hk. apply Hal. lia.
  - assert (b = incoming s) as -> by lia.
    assert (Hproc : exists s1 actions, process_in_sequence m timestamp now s = (s1, Ok actions) /\
      incoming s1 = next /\ buffer s1 = buffer s /\ fs_config s1 = fs_config s /\ outgoing s <= outgoing s1 <= outgoing s + 1 /\
      forall k, incoming s <= k < next -> retains_application k -> k ∈ delivered actions).
    { destruct Hkind as [(Hrt & Happ & -> & Hj)|(Ht & H36 & Hnone)].
      - destruct (process_routine cb m timestamp now reach s Hr) as (s1 & actions & Hp & Hi & Hbuf & Hc & Ho & Hact); [lia | done |].
        exists s1, actions. split_and!; try done; try lia. intros k Hk Hka. assert (k = incoming s) as -> by lia.
        rewrite (Hact (Happ Hka)). cbn. rewrite (fp_number cb _ _ Hm). set_solver.
      - destruct (process_gap_fill m next timestamp now s) as (s1 & Hp & Hi & Hbuf & Hc & Ho); [lia | lia | done | done |].
        exists s1, []. split_and!; try done; try lia. intros k Hk (? & (? & Hv & _) & _). by rewrite Hnone in Hv. }
    destruct Hproc as (s1 & actions & Hp & Hi1 & Hbuf & Hc1 & Ho1 & Hdel). injection Hbuf as Hpend Hres.
    assert (Hr1 : receiving cb timestamp reach s1).
    { apply (receiving_next cb timestamp reach s s1 next); try done; [lia | lia | by rewrite Hpend]. }
    eapply wp_mono; [eapply (receive_next cb m timestamp now reach s s1 actions); try done; unfold buffer; by rewrite Hpend, Hres | | done].
    intros all s' (more & -> & [C1 C2 C3 C4] & Hsome). rewrite Hpend in C2. split.
    + split; [done | done | lia |]. intros k Hk Hj. rewrite delivered_app. apply elem_of_app.
      destruct (Z.lt_ge_cases k next); [left; apply Hdel; [lia | done] | right; apply C4; [lia |]].
      intros x Hx. by apply (Hret k x Hx).
    + split_and!; [done | lia | |].
      * intros k x Hx. apply Hret. by eapply lookup_weaken.
      * intros k Hk Hke. destruct (Hsome k) as [x Hx]; [lia |]. by apply (Hret k x Hx).
Qed.

Lemma receive_all_resent b e ms timestamp now reach s :
  mirrored -> routine_since timestamp b -> 0 <= b -> e < reach -> reach <= int_max U64 -> resent ca journal ts b e ms ->
  aligned timestamp reach b e s ->
  wp (receive_all ms timestamp now)
    (fun actions s' => caught_up cb timestamp reach retains_application s actions s' /\ e < incoming s')
    (fun _ => False) s.
Proof.
  intros Hmi Hap Hb He Hreach Hres. revert s Hb Hap. induction Hres as [b e Hlt|b e entry original ms Hle Hj Hd Hres IH
    |b next e ms Hn Hnone Hres IH]; intros s Hb Hap Hal; cbn [receive_all].
  - wp_step. destruct Hal as (? & ? & _). split; [by apply caught_up_same | lia].
  - wp_step. eapply wp_mono; [apply (receive_resent b e _ (b + 1) timestamp now reach) | | done]; try done; try lia.
    + apply stamped_from_peer; [done | lia].
    + left. assert (Hk : retains b original) by by exists entry. split_and!; [| | done | by eauto].
      * apply stamped_routine. by apply (Hap b); [lia |].
      * intros (o & (x & Hx & Hox) & Ha). assert (o = original) as <- by congruence. exact Ha.
    + intros actions s1 (Hcu & Hal1). wp_step. eapply wp_mono; [apply IH; [done | lia | intros k o Hk; apply Hap; lia | done] | | done].
      intros more s2 (Hcu2 & Hend). wp_step. split; [by eapply caught_up_trans | done].
  - wp_step. eapply wp_mono; [apply (receive_resent b e _ next timestamp now reach) | | done]; try done; try lia.
    + apply stamped_from_peer; [done | lia].
    + right. split_and!; [done | apply gap_fill_number; lia | done].
    + intros actions s1 (Hcu & Hal1). wp_step. eapply wp_mono; [apply IH; [done | lia | intros k o Hk; apply Hap; lia | done] | | done].
      intros more s2 (Hcu2 & Hend). wp_step. split; [by eapply caught_up_trans | done].
Qed.
End recovery.
