(* ===== verification/FixSessionTheorems.v ===== *)
(** * simfix-session: what a session promises

    Order and uniqueness of delivery, persistence of every reachable state,
    gap recovery between two sessions, and the state in which a session can
    no longer ask for a resend. *)

From S2P Require Import Prelude Ordered Decimal Hoare FixWire FixFrames FixSession FixSessionFacts FixResend.
From Stdlib Require Import Ascii.
#[local] Open Scope list_scope.

Section claims.
Context `{FixDictionary}.

(** C25: a host that creates a session and calls it in any way, feeding it any
    bytes and ignoring failures, is handed application messages that all carry
    a sequence number, in strictly increasing order (so none twice), and all
    below the number the session expects next. *)
Theorem session_delivers_in_order c calls s s' actions :
  config_ok c -> FixSession_new c = Ok s -> run_calls calls s = (s', actions) ->
  Forall numbered actions /\ StronglySorted Z.lt (delivered actions) /\
  Forall (fun n => 1 <= n < ss_incoming_sequence (fs_snapshot s')) (delivered actions).
Proof.
  intros Hc Hn Hrun. destruct (new_session_ok c s Hc Hn) as [Hs Hi].
  destruct (run_calls_advances c calls s s' actions Hc Hs Hrun) as [_ [A1 A2 A3 A4]]. by rewrite Hi in A3.
Qed.

(** whatever the calls and their failures, the snapshot of a session is
    one that [restore] accepts, and the restored session has that snapshot:
    its journal and its buffer are within their bounds, entries are filed
    under their own numbers with valid replacement keys, and no sequence
    number is zero. *)
Theorem session_snapshot_restores c calls s s' actions :
  config_ok c -> FixSession_new c = Ok s -> run_calls calls s = (s', actions) ->
  restore c (fs_snapshot s') = Ok (mkFixSession c (fs_snapshot s') (Decoder_new (sc_wire_limits c))).
Proof.
  intros Hc Hn Hrun. destruct (new_session_ok c s Hc Hn) as [Hs _].
  destruct (run_calls_advances c calls s s' actions Hc Hs Hrun) as [[Hok _] _]. by apply session_restores.
Qed.

(** What an answered request from [b] on is. *)
Lemma replay_resent c request timestamp now b s :
  session_ok c s -> 0 <= b -> parse_tag request 7 = Some b -> parse_tag request 16 = Some 0 ->
  wp (replay_requested request timestamp now)
    (fun actions _ => exists ms frames,
       resent c (ss_journal (fs_snapshot s)) timestamp b (ss_outgoing_sequence (fs_snapshot s) - 1) ms /\
       Forall2 (fun m frame => encode m (sc_wire_limits c) = Ok frame) ms frames /\ 0 < b /\
       actions = (SessionAction.Send <$> frames) ++ [SessionAction.Persist])
    (fun _ => True) s.
Proof.
  intros Hs Hb H7 H16. unfold replay_requested, snap, configured, update_snapshot. rewrite H7, H16.
  wp_step. wp_step; [done |]. wp_step. wp_step; [done |]. do 2 wp_step. cbn zeta.
  wp_step. wp_step; [done |]. do 5 wp_step. wp_step; [done |]. do 3 wp_step.
  repeat match goal with E : ok_or _ _ = Ok _ |- _ => injection E as <- end. cbn [id] in *.
  rewrite Z.eqb_refl, (so_config c s Hs) in *. guards. pose proof (so_outgoing c s Hs).
  unfold saturating_sub in *. rewrite Z.max_l in * by lia.
  match goal with E : resend_loop _ _ _ _ _ _ = Ok _ |- _ => apply resend_loop_resent in E as (ms & Hr & Hf); [| lia..] end.
  do 2 eexists. split_and!; [done | done | lia | done].
Qed.

(** C24: gap recovery between two sessions of this code.  When a session
    answers its peer's request for everything from the peer's expected number
    on, the frames it sends encode messages that the peer, receiving them,
    takes without an error: afterwards the peer expects a number no smaller
    than the sender's next one, and every retained application message from
    the requested number on was delivered (those superseded or evicted are
    gap-filled).  What the sender retains from the requested number on, and
    what the peer has buffered, may be application messages, heartbeats,
    Logons of this application version and test requests whose answers the
    peer can encode, but no resend request and no logout; what the peer has
    buffered must still be retained; and the peer must have numbers left to
    answer with. *)
Theorem resend_closes_gap ca cb a b request timestamp now timestamp' now' a' actions reach :
  mirrored ca cb -> session_ok ca a -> receiving cb timestamp' reach b ->
  ss_outgoing_sequence (fs_snapshot a) <= reach ->
  buffer_retained ca (ss_journal (fs_snapshot a)) (ss_outgoing_sequence (fs_snapshot a) - 1) b ->
  routine_since ca cb (ss_journal (fs_snapshot a)) timestamp' (incoming b) ->
  parse_tag request 7 = Some (incoming b) -> parse_tag request 16 = Some 0 ->
  replay_requested request timestamp now a = (a', Ok actions) ->
  exists ms frames,
    actions = (SessionAction.Send <$> frames) ++ [SessionAction.Persist] /\
    Forall2 (fun m frame => encode m (sc_wire_limits ca) = Ok frame) ms frames /\
    exists b' out, receive_all ms timestamp' now' b = (b', Ok out) /\
      ss_outgoing_sequence (fs_snapshot a) <= incoming b' /\
      forall k, incoming b <= k -> retains_application ca (ss_journal (fs_snapshot a)) k -> k ∈ delivered out.
Proof.
  intros Hmi Ha Hb Hreach Hret Hap H7 H16 Hrun.
  destruct (wp_Ok _ _ _ _ _ _ (replay_resent ca request timestamp now (incoming b) a Ha
    (rc_incoming cb _ _ b Hb) H7 H16) Hrun) as (ms & frames & Hres & Hf & Hpos & ->).
  exists ms, frames. split_and!; [done | done |]. pose proof (so_outgoing ca a Ha). pose proof (rc_reach cb _ _ b Hb).
  assert (Hw : wp (receive_all ms timestamp' now')
    (fun out b' => caught_up cb timestamp' reach (retains_application ca (ss_journal (fs_snapshot a))) b out b' /\
       ss_outgoing_sequence (fs_snapshot a) - 1 < incoming b') (fun _ => False) b).
  { eapply receive_all_resent; [done | done | lia | lia | done | done |]. split_and!; [done | lia | done | lia]. }
  unfold wp in Hw. destruct (receive_all ms timestamp' now' b) as [b' [out|e]]; [| done].
  destruct Hw as [[C1 C2 C3 C4] Hend]. exists b', out. split_and!; [done | lia |].
  intros k Hk Hr. apply C4; [| done]. destruct Hr as (o & (e & He & _) & _).
  apply (so_journal ca a Ha) in He. lia.
Qed.

(** C27: a defect.  Once a session has moved past a message it still buffers (a
    gap fill or a reset can do that) while a resend is outstanding, no later
    call, a reconnection included, ever asks for a resend again: whatever the
    calls, a message ahead of the expected one is only buffered, or refused
    when the buffer is full, so the gap below it stays. *)
Theorem stale_buffer_blocks_recovery c s k calls s' actions m n timestamp now :
  config_ok c -> session_ok c s -> stale k s -> run_calls calls s = (s', actions) ->
  message_value m 49 = Some (sc_target_comp_id c) -> message_value m 56 = Some (sc_sender_comp_id c) ->
  parse_tag m 34 = Some n -> incoming s' < n -> fm_msg_type m <> text "2" ->
  stale k s' /\
  ((exists s'', receive m timestamp now s' = (s'', Ok [SessionAction.Persist])) \/
   receive m timestamp now s' = (s', Err SessionError.PendingInboundFull)).
Proof.
  intros Hc Hs Hk Hrun H49 H56 H34 Hn Ht.
  destruct (run_calls_advances c calls s s' actions Hc Hs Hrun) as [[Hs' [_ Hstale]] _].
  pose proof (Hstale k Hk) as Hk'. split; [done |]. destruct Hk' as (_ & _ & Hres).
  rewrite (receive_gap c n) by (done || apply Hs').
  unfold receive_ahead, configured, snap, update_snapshot.
  unfold mbind, M_bind, gets, modify. cbn beta iota. cbn [id]. rewrite (so_config c s' Hs').
  destruct (_ <=? _); [by right | left]. unfold refuse_if, mret, M_ret. rewrite (bool_decide_false (_ = text "2")) by done.
  cbn beta iota. cbn [id fs_snapshot]. change (ss_pending_resend_begin _) with (resending s').
  rewrite bool_decide_true by done. by eexists.
Qed.
End claims.

(** ** Two sessions *)

Module SampleSessions.
Import SampleWire.
#[export] Existing Instance dictionary.
Definition config (sender target : Text) : SessionConfig :=
  mkSessionConfig sender target 30 8 4 WireLimits_default [].
Definition venue_config : SessionConfig := config (text "VENUE") (text "TRADER").
Definition trader_config : SessionConfig := config (text "TRADER") (text "VENUE").
Definition fresh (c : SessionConfig) : FixSession :=
  mkFixSession c initial_snapshot (Decoder_new (sc_wire_limits c)).
Definition now : Text := text "20240102-00:00:00".
Definition frames (actions : list SessionAction) : list Text :=
  omap (fun a => match a with SessionAction.Send frame => Some frame | _ => None end) actions.
Definition hears (frames : list Text) : SessionCall := ReceiveBytesAt (concat frames) now 5.
Definition quote (id : string) : FixMessage := message_push 262 (text id) (FixMessage_new (text "W")).

(** Both sides log on. *)
Definition venue_logon : list Text := frames (run_calls [ConnectedAt now 1] (fresh venue_config)).2.
Definition trader_logon : list Text := frames (run_calls [ConnectedAt now 1] (fresh trader_config)).2.

(** The trader misses quote 2 and hears quote [heard]; the venue keeps only
    the quotes whose keys are not sent again. *)
Definition venue_calls (keys : list string) : list SessionCall :=
  ConnectedAt now 1 :: hears trader_logon ::
  ((fun key => SendReplaceable (quote key) now (text key)) <$> keys).
Definition venue (keys : list string) : FixSession := (run_calls (venue_calls keys) (fresh venue_config)).1.
Definition venue_frames (keys : list string) : list Text :=
  frames (run_calls (venue_calls keys) (fresh venue_config)).2.
Definition trader_calls (keys : list string) (heard : nat) : list SessionCall :=
  [ConnectedAt now 1; hears venue_logon; hears (option_list (venue_frames keys !! heard))].
Definition trader (keys : list string) (heard : nat) : FixSession :=
  (run_calls (trader_calls keys heard) (fresh trader_config)).1.
(** The trader's last frame is its resend request. *)
Definition resend_request : FixMessage :=
  message_push 16 (text "0") (message_push 7 (text "2") (FixMessage_new (text "2"))).
(** Both reconnect after the trader missed every quote: the trader buffers the
    venue's Logon, and asks for the quotes before it. *)
Definition back_calls : list SessionCall := venue_calls ["a"; "b"; "a"]%string ++ [ConnectedAt now 20].
Definition venue_back : FixSession := (run_calls back_calls (fresh venue_config)).1.
Definition back_logon : list Text := option_list (last (frames (run_calls back_calls (fresh venue_config)).2)).
Definition trader_back : FixSession :=
  (run_calls [ConnectedAt now 1; hears venue_logon; ConnectedAt now 20; hears back_logon] (fresh trader_config)).1.
(** What the venue answers, and the trader that heard quote 3 after a later
    quote superseded it. *)
Definition answer (keys : list string) : list Text :=
  frames (actions_of (snd (replay_requested resend_request now 9 (venue keys)))).
Definition overtaken_calls : list SessionCall :=
  trader_calls ["a"; "a"; "a"]%string 2 ++ [hears (answer ["a"; "a"; "a"]%string)].
Definition overtaken : FixSession := (run_calls overtaken_calls (fresh trader_config)).1.
Definition reconnected : FixSession := (run_calls [ConnectedAt now 20] overtaken).1.
Definition later_quote : FixMessage := stamped venue_config (quote "c") 9 now None.
End SampleSessions.

Section session_witnesses.
Import SampleSessions SampleWire.

Lemma venue_config_ok : config_ok venue_config.
Proof. split_and!; vm_compute; congruence. Qed.
Lemma trader_config_ok : config_ok trader_config.
Proof. split_and!; vm_compute; congruence. Qed.

Lemma reached_ok c calls : config_ok c -> session_ok c (run_calls calls (fresh c)).1.
Proof.
  intros Hc. destruct (run_calls calls (fresh c)) as [s' actions] eqn:Hrun.
  eapply run_calls_advances in Hrun; [apply Hrun | done |].
  apply (new_session_ok c (fresh c) Hc). unfold FixSession_new. by rewrite (proj1 Hc).
Qed.

Lemma session_delivers_in_order_witness :
  delivered (run_calls overtaken_calls (fresh trader_config)).2 = [4] /\
  StronglySorted Z.lt (delivered (run_calls overtaken_calls (fresh trader_config)).2).
Proof.
  split; [vm_compute; reflexivity |].
  apply (session_delivers_in_order trader_config overtaken_calls (fresh trader_config) overtaken).
  - apply trader_config_ok.
  - vm_compute. reflexivity.
  - apply surjective_pairing.
Defined.

Lemma session_snapshot_restores_witness :
  restore trader_config (fs_snapshot overtaken)
  = Ok (mkFixSession trader_config (fs_snapshot overtaken) (Decoder_new WireLimits_default)).
Proof.
  apply (session_snapshot_restores trader_config overtaken_calls (fresh trader_config) overtaken
    (run_calls overtaken_calls (fresh trader_config)).2).
  - apply trader_config_ok.
  - vm_compute. reflexivity.
  - apply surjective_pairing.
Defined.

(** Quotes and Logons are routine. *)
Definition quote_or_logon (m : FixMessage) : bool :=
  bool_decide (fm_msg_type m = text "W")
  || bool_decide (fm_msg_type m = text "A" /\ message_value m 1137 = Some FIX_50_SP2_APPL_VER_ID).
Lemma quote_or_logon_routine c timestamp m : quote_or_logon m = true -> routine c timestamp m.
Proof.
  intros [Hw%bool_decide_eq_true|Ha%bool_decide_eq_true]%orb_true_iff; [left | right; right; by left].
  unfold application_type. rewrite Hw. apply (bool_decide_unpack _). vm_compute. exact I.
Qed.
#[local] Notation venue_journal := (ss_journal (fs_snapshot venue_back)) (only parsing).
Definition decoded_ok (p : FixMessage -> bool) (e : JournalEntry) : bool :=
  match decode_one (je_frame e) WireLimits_default with Ok m => p m | Err _ => false end.
Lemma venue_back_routine : routine_since venue_config trader_config venue_journal now 2.
Proof.
  intros k o Hk (e & He & Ho).
  assert (Hall : map_Forall (fun k e => decoded_ok quote_or_logon e = true) venue_journal).
  { apply (bool_decide_unpack _). vm_compute. exact I. }
  specialize (Hall _ _ He). unfold decoded_ok in Hall. change (sc_wire_limits venue_config) with WireLimits_default in Ho.
  rewrite Ho in Hall. by apply quote_or_logon_routine.
Qed.

Lemma logon_not_application m : fm_msg_type m = text "A" -> ~ application_type m.
Proof. unfold application_type. intros ->. set_solver. Qed.
Lemma pending_back : pending trader_back = {[ 5 := default (FixMessage_new []) (pending trader_back !! 5) ]}.
Proof. vm_compute. reflexivity. Qed.
Lemma back_is_logon : fm_msg_type (default (FixMessage_new []) (pending trader_back !! 5)) = text "A".
Proof. vm_compute. reflexivity. Qed.
Lemma trader_receiving : receiving trader_config now 6 trader_back.
Proof.
  split; [vm_compute; reflexivity | vm_compute; congruence | vm_compute; congruence | |].
  - split; vm_compute; congruence.
  - rewrite pending_back. apply map_Forall_singleton. split_and!; [| | lia].
    + intros Happ. destruct (logon_not_application _ back_is_logon Happ).
    + apply quote_or_logon_routine. vm_compute. reflexivity.
Qed.

Lemma trader_retained : buffer_retained venue_config venue_journal 5 trader_back.
Proof.
  intros k m Hm. rewrite pending_back in Hm. apply lookup_singleton_Some in Hm as [<- <-]. split.
  - intros _. assert (H5 : bool_decide (is_Some (venue_journal !! 5)) = true) by (vm_compute; reflexivity).
    exact (proj1 (bool_decide_eq_true _) H5).
  - intros (o & (e & He & Ho) & Happ). exfalso.
    assert (Hl : match venue_journal !! 5 with Some e => decoded_ok (fun o => bool_decide (fm_msg_type o = text "A")) e | None => false end = true)
      by (vm_compute; reflexivity).
    rewrite He in Hl. unfold decoded_ok in Hl. change (sc_wire_limits venue_config) with WireLimits_default in Ho. rewrite Ho in Hl.
    exact (logon_not_application o (proj1 (bool_decide_eq_true _) Hl) Happ).
Qed.

Lemma trader_missed : incoming trader_back <= 3.
Proof. vm_compute. congruence. Qed.
Lemma venue_retains : retains_application venue_config venue_journal 3.
Proof.
  assert (Hl : match venue_journal !! 3 with Some e => decoded_ok (fun o => bool_decide (fm_msg_type o = text "W")) e | None => false end = true)
    by (vm_compute; reflexivity).
  destruct (venue_journal !! 3) as [e|] eqn:He; [| discriminate Hl]. unfold decoded_ok in Hl.
  destruct (decode_one (je_frame e) WireLimits_default) as [o|] eqn:Ho; [| discriminate Hl].
  exists o. split; [exists e; exact (conj He Ho) |]. unfold application_type. rewrite (proj1 (bool_decide_eq_true _) Hl).
  apply (bool_decide_unpack _). vm_compute. exact I.
Qed.
(** The trader recovers quotes 3 and 4 and takes the Logon that it had
    buffered; quote 2 was superseded. *)
Lemma resend_closes_gap_witness :
  exists ms frames,
    actions_of (snd (replay_requested resend_request now 29 venue_back)) = (SessionAction.Send <$> frames) ++ [SessionAction.Persist] /\
    exists b' out, receive_all ms now 29 trader_back = (b', Ok out) /\
      ss_outgoing_sequence (fs_snapshot venue_back) <= incoming b' /\ 3 ∈ delivered out.
Proof.
  destruct (resend_closes_gap venue_config trader_config venue_back trader_back resend_request now 29 now 29
    (fst (replay_requested resend_request now 29 venue_back))
    (actions_of (snd (replay_requested resend_request now 29 venue_back))) 6)
    as (ms & fs & Hact & _ & b' & out & Hrun & Hout & Hdel).
  - split; reflexivity.
  - apply (reached_ok venue_config), venue_config_ok.
  - apply trader_receiving.
  - vm_compute. congruence.
  - apply trader_retained.
  - apply venue_back_routine.
  - vm_compute. reflexivity.
  - vm_compute. reflexivity.
  - vm_compute. reflexivity.
  - exists ms, fs. split; [exact Hact |]. exists b', out. split; [exact Hrun |]. split; [exact Hout |].
    exact (Hdel 3 trader_missed venue_retains).
Defined.

(** The trader moved past quote 3, and after a reconnection it does not ask for
    the quotes before the ninth. *)
Lemma stale_buffer_blocks_recovery_witness :
  incoming reconnected = 5 /\
  exists s', receive later_quote now 30 reconnected = (s', Ok [SessionAction.Persist]).
Proof.
  split; [vm_compute; reflexivity |].
  destruct (stale_buffer_blocks_recovery trader_config overtaken 3 [ConnectedAt now 20] reconnected
    (run_calls [ConnectedAt now 20] overtaken).2 later_quote 9 now 30) as [_ [Hok|Hfull]].
  - apply trader_config_ok.
  - apply reached_ok, trader_config_ok.
  - split_and!; [apply (bool_decide_unpack _) | | apply (bool_decide_unpack _)]; vm_compute; [exact I | reflexivity | exact I].
  - apply surjective_pairing.
  - vm_compute. reflexivity.
  - vm_compute. reflexivity.
  - vm_compute. reflexivity.
  - vm_compute. reflexivity.
  - discriminate.
  - exact Hok.
  - exfalso. vm_compute in Hfull. discriminate.
Defined.
End session_witnesses.
