(* ===== verification/Execution.v ===== *)
(** * quarcc-execution-engine: the participant's order manager

    Models [packages/quarcc-execution-engine]: intents become venue actions,
    committed venue reports move orders through their lifecycle and project
    positions, an authoritative snapshot reconciles both.  Methods on
    [&mut self] and [&mut ExecutionActionBuffer] are computations on an
    [Execution], the pair of the two. *)

From S2P Require Import Prelude Ordered MarketEvents.

(** ** Data *)

Module OrderLifecycle.
Inductive OrderLifecycle : Type :=
  | IntentReceived | PendingSubmit | Live | PartiallyFilled | PendingCancel | PendingReplace
  | Cancelled | Filled | Rejected | Expired | ExternallyDiscovered | Quarantined.
#[export] Instance OrderLifecycle_eq_dec : EqDecision OrderLifecycle.
Proof. solve_decision. Defined.
End OrderLifecycle.
Export OrderLifecycle (OrderLifecycle).
#[export] Existing Instance OrderLifecycle.OrderLifecycle_eq_dec.

(** [OrderLifecycle::is_terminal], [OrderLifecycle::is_open] *)
Definition lifecycle_is_terminal (l : OrderLifecycle) : bool :=
  match l with
  | OrderLifecycle.Cancelled | OrderLifecycle.Filled
  | OrderLifecycle.Rejected | OrderLifecycle.Expired => true
  | _ => false
  end.
Definition lifecycle_is_open (l : OrderLifecycle) : bool :=
  negb (lifecycle_is_terminal l) && negb (bool_decide (l = OrderLifecycle.Quarantined)).

Module VenueReportKind.
Inductive VenueReportKind : Type :=
  | Accepted
  | Rejected (reason : string)
  | Fill (last_quantity cumulative_quantity price : Z)
  | Cancelled
  | CancelRejected (reason : string)
  | Replaced
  | Expired.
End VenueReportKind.
Export VenueReportKind (VenueReportKind).

(** Text built with [format!] is kept as the value it renders. *)
Inductive Reason : Type :=
  | VenueReason (reason : string)
  | InvalidReport (kind : VenueReportKind).
Inductive Transition : Type :=
  | OnReport (from : option OrderLifecycle) (report : VenueReportKind)
  | OnIntent (from : OrderLifecycle) (intent : string).

Record ExecutionConfig : Type := mkExecutionConfig {
  ec_max_orders : Z;
  ec_max_actions_per_call : Z;
  ec_max_seen_reports : Z;
  ec_max_deferred_reports : Z;
  ec_max_order_quantity : Z;
  ec_max_absolute_position : Z
}.
(** [ExecutionConfig::default] *)
Definition ExecutionConfig_default : ExecutionConfig :=
  mkExecutionConfig 1024 256 16384 256 1000000 10000000.

Module ExecutionError.
Inductive ExecutionError : Type :=
  | BufferFull (limit : Z)
  | DuplicateIntent
  | InvalidQuantity
  | InvalidPrice
  | InvalidTransition (transition : Transition)
  | KillSwitchActive
  | OpenOrderLimit
  | PositionLimit
  | UnknownClientOrder (client_order_id : Z)
  | UnknownLocalOrder (local_order_id : Z)
  | UnknownVenueOrder (venue_order_id : string)
  | AmbiguousReport (report_id : Z)
  | ArithmeticOverflow
  | InvalidSnapshotVersion (version : Z)
  | SnapshotEncoding.
End ExecutionError.
Export ExecutionError (ExecutionError).

(** [ExecutionError::is_pre_trade_refusal] *)
Definition is_pre_trade_refusal (e : ExecutionError) : bool :=
  match e with
  | ExecutionError.OpenOrderLimit | ExecutionError.PositionLimit | ExecutionError.KillSwitchActive => true
  | _ => false
  end.

Record DesiredOrder : Type := mkDesiredOrder {
  do_client_order_id : Z;
  do_instrument_id : Z;
  do_participant_id : Z;
  do_side : Side;
  do_quantity : Z;
  do_kind : OrderKind;
  do_anonymous : bool
}.

Record ManagedOrder : Type := mkManagedOrder {
  mo_local_order_id : Z;
  mo_desired : DesiredOrder;
  mo_venue_order_id : option string;
  mo_lifecycle : OrderLifecycle;
  mo_filled_quantity : Z;
  mo_average_fill_price : option Z;
  mo_replacement_for : option Z;
  mo_pending_replace : option (Z * OrderKind);
  mo_quarantine_reason : option Reason
}.
Definition order_with_desired (v : DesiredOrder) (o : ManagedOrder) : ManagedOrder :=
  mkManagedOrder (mo_local_order_id o) v (mo_venue_order_id o) (mo_lifecycle o)
    (mo_filled_quantity o) (mo_average_fill_price o) (mo_replacement_for o) (mo_pending_replace o)
    (mo_quarantine_reason o).
Definition order_with_venue (v : option string) (o : ManagedOrder) : ManagedOrder :=
  mkManagedOrder (mo_local_order_id o) (mo_desired o) v (mo_lifecycle o) (mo_filled_quantity o)
    (mo_average_fill_price o) (mo_replacement_for o) (mo_pending_replace o)
    (mo_quarantine_reason o).
Definition order_with_lifecycle (v : OrderLifecycle) (o : ManagedOrder) : ManagedOrder :=
  mkManagedOrder (mo_local_order_id o) (mo_desired o) (mo_venue_order_id o) v
    (mo_filled_quantity o) (mo_average_fill_price o) (mo_replacement_for o) (mo_pending_replace o)
    (mo_quarantine_reason o).
Definition order_with_filled (v : Z) (o : ManagedOrder) : ManagedOrder :=
  mkManagedOrder (mo_local_order_id o) (mo_desired o) (mo_venue_order_id o) (mo_lifecycle o) v
    (mo_average_fill_price o) (mo_replacement_for o) (mo_pending_replace o)
    (mo_quarantine_reason o).
Definition order_with_average (v : option Z) (o : ManagedOrder) : ManagedOrder :=
  mkManagedOrder (mo_local_order_id o) (mo_desired o) (mo_venue_order_id o) (mo_lifecycle o)
    (mo_filled_quantity o) v (mo_replacement_for o) (mo_pending_replace o)
    (mo_quarantine_reason o).
Definition order_with_pending_replace (v : option (Z * OrderKind)) (o : ManagedOrder) : ManagedOrder :=
  mkManagedOrder (mo_local_order_id o) (mo_desired o) (mo_venue_order_id o) (mo_lifecycle o)
    (mo_filled_quantity o) (mo_average_fill_price o) (mo_replacement_for o) v
    (mo_quarantine_reason o).
Definition order_with_reason (v : option Reason) (o : ManagedOrder) : ManagedOrder :=
  mkManagedOrder (mo_local_order_id o) (mo_desired o) (mo_venue_order_id o) (mo_lifecycle o)
    (mo_filled_quantity o) (mo_average_fill_price o) (mo_replacement_for o) (mo_pending_replace o)
    v.

(** [ManagedOrder::remaining_quantity], with [i64::saturating_sub] *)
Definition remaining_quantity (o : ManagedOrder) : Z :=
  Z.max (int_min I64) (Z.min (int_max I64) (do_quantity (mo_desired o) - mo_filled_quantity o)).

Inductive ExecutionIntent : Type :=
  | IntentSubmit (intent_id : Z) (order : DesiredOrder)
  | IntentCancel (intent_id : Z) (client_order_id : Z)
  | IntentReplace (intent_id : Z) (client_order_id : Z) (quantity : Z) (kind : OrderKind)
  | IntentQuery (intent_id : Z) (local_order_id : Z)
  | IntentKillSwitch (intent_id : Z).
(** [ExecutionIntent::intent_id] *)
Definition intent_id (i : ExecutionIntent) : Z :=
  match i with
  | IntentSubmit id _ | IntentCancel id _ | IntentReplace id _ _ _ | IntentQuery id _
  | IntentKillSwitch id => id
  end.

Inductive ExecutionAction : Type :=
  | ActionSubmit (action_id local_order_id : Z) (order : DesiredOrder)
  | ActionCancel (action_id local_order_id : Z) (venue_order_id : option string)
  | ActionReplace (action_id local_order_id : Z) (venue_order_id : string) (quantity : Z) (kind : OrderKind)
  | ActionQueryOrder (action_id local_order_id : Z) (venue_order_id : option string)
  | ActionQueryOpenOrders (action_id : Z).

Record MarketObservation : Type := mkMarketObservation {
  ob_instrument_id : Z;
  ob_logical_time : Z;
  ob_best_bid : option (Z * Z);
  ob_best_ask : option (Z * Z);
  ob_last_trade : option (Z * Z);
  ob_committed_sequence : Z
}.

Record NormalizedVenueReport : Type := mkNormalizedVenueReport {
  nr_report_id : Z;
  nr_source_sequence : option Z;
  nr_client_order_id : option Z;
  nr_local_order_id : option Z;
  nr_venue_order_id : option string;
  nr_leaves_quantity : option Z;
  nr_kind : VenueReportKind
}.

Record PositionProjection : Type := mkPositionProjection {
  pp_quantity : Z;
  pp_average_price : option Z;
  pp_realized_pnl : Z
}.
Definition PositionProjection_default : PositionProjection := mkPositionProjection 0 None 0.

Record AuthoritativePosition : Type := mkAuthoritativePosition {
  ap_instrument_id : Z;
  ap_quantity : Z;
  ap_average_price : option Z;
  ap_realized_pnl : Z
}.
Record AuthoritativeOpenOrder : Type := mkAuthoritativeOpenOrder {
  ao_client_order_id : option Z;
  ao_venue_order_id : string;
  ao_order : DesiredOrder;
  ao_filled_quantity : Z
}.
Record AuthoritativeVenueSnapshot : Type := mkAuthoritativeVenueSnapshot {
  av_committed_sequence : Z;
  av_open_orders : list AuthoritativeOpenOrder;
  av_positions : list AuthoritativePosition
}.

Definition EXECUTION_SNAPSHOT_VERSION : Z := 1.
Record ExecutionSnapshot : Type := mkExecutionSnapshot {
  es_version : Z;
  es_config : ExecutionConfig;
  es_next_id : Z;
  es_kill_switch_active : bool;
  es_last_venue_sequence : Z;
  es_processed_intents : gset Z;
  es_intents_processed_through : option Z;
  es_seen_reports : gset Z;
  es_reports_seen_through : option Z;
  es_orders : gmap Z ManagedOrder;
  es_client_to_local : gmap Z Z;
  es_venue_to_local : gmap string Z;
  es_deferred_reports : list NormalizedVenueReport;
  es_positions : gmap Z PositionProjection;
  es_market_data : gmap Z MarketObservation
}.
Definition put_next_id (v : Z) (s : ExecutionSnapshot) : ExecutionSnapshot :=
  mkExecutionSnapshot (es_version s) (es_config s) v (es_kill_switch_active s)
    (es_last_venue_sequence s) (es_processed_intents s) (es_intents_processed_through s)
    (es_seen_reports s) (es_reports_seen_through s) (es_orders s) (es_client_to_local s)
    (es_venue_to_local s) (es_deferred_reports s) (es_positions s) (es_market_data s).
Definition put_kill_switch (v : bool) (s : ExecutionSnapshot) : ExecutionSnapshot :=
  mkExecutionSnapshot (es_version s) (es_config s) (es_next_id s) v (es_last_venue_sequence s)
    (es_processed_intents s) (es_intents_processed_through s) (es_seen_reports s)
    (es_reports_seen_through s) (es_orders s) (es_client_to_local s) (es_venue_to_local s)
    (es_deferred_reports s) (es_positions s) (es_market_data s).
Definition put_last_venue_sequence (v : Z) (s : ExecutionSnapshot) : ExecutionSnapshot :=
  mkExecutionSnapshot (es_version s) (es_config s) (es_next_id s) (es_kill_switch_active s) v
    (es_processed_intents s) (es_intents_processed_through s) (es_seen_reports s)
    (es_reports_seen_through s) (es_orders s) (es_client_to_local s) (es_venue_to_local s)
    (es_deferred_reports s) (es_positions s) (es_market_data s).
Definition put_processed_intents (v : gset Z) (s : ExecutionSnapshot) : ExecutionSnapshot :=
  mkExecutionSnapshot (es_version s) (es_config s) (es_next_id s) (es_kill_switch_active s)
    (es_last_venue_sequence s) v (es_intents_processed_through s) (es_seen_reports s)
    (es_reports_seen_through s) (es_orders s) (es_client_to_local s) (es_venue_to_local s)
    (es_deferred_reports s) (es_positions s) (es_market_data s).
Definition put_intents_through (v : option Z) (s : ExecutionSnapshot) : ExecutionSnapshot :=
  mkExecutionSnapshot (es_version s) (es_config s) (es_next_id s) (es_kill_switch_active s)
    (es_last_venue_sequence s) (es_processed_intents s) v (es_seen_reports s)
    (es_reports_seen_through s) (es_orders s) (es_client_to_local s) (es_venue_to_local s)
    (es_deferred_reports s) (es_positions s) (es_market_data s).
Definition put_seen_reports (v : gset Z) (s : ExecutionSnapshot) : ExecutionSnapshot :=
  mkExecutionSnapshot (es_version s) (es_config s) (es_next_id s) (es_kill_switch_active s)
    (es_last_venue_sequence s) (es_processed_intents s) (es_intents_processed_through s) v
    (es_reports_seen_through s) (es_orders s) (es_client_to_local s) (es_venue_to_local s)
    (es_deferred_reports s) (es_positions s) (es_market_data s).
Definition put_reports_through (v : option Z) (s : ExecutionSnapshot) : ExecutionSnapshot :=
  mkExecutionSnapshot (es_version s) (es_config s) (es_next_id s) (es_kill_switch_active s)
    (es_last_venue_sequence s) (es_processed_intents s) (es_intents_processed_through s)
    (es_seen_reports s) v (es_orders s) (es_client_to_local s) (es_venue_to_local s)
    (es_deferred_reports s) (es_positions s) (es_market_data s).
Definition put_orders (v : gmap Z ManagedOrder) (s : ExecutionSnapshot) : ExecutionSnapshot :=
  mkExecutionSnapshot (es_version s) (es_config s) (es_next_id s) (es_kill_switch_active s)
    (es_last_venue_sequence s) (es_processed_intents s) (es_intents_processed_through s)
    (es_seen_reports s) (es_reports_seen_through s) v (es_client_to_local s) (es_venue_to_local s)
    (es_deferred_reports s) (es_positions s) (es_market_data s).
Definition put_client_to_local (v : gmap Z Z) (s : ExecutionSnapshot) : ExecutionSnapshot :=
  mkExecutionSnapshot (es_version s) (es_config s) (es_next_id s) (es_kill_switch_active s)
    (es_last_venue_sequence s) (es_processed_intents s) (es_intents_processed_through s)
    (es_seen_reports s) (es_reports_seen_through s) (es_orders s) v (es_venue_to_local s)
    (es_deferred_reports s) (es_positions s) (es_market_data s).
Definition put_venue_to_local (v : gmap string Z) (s : ExecutionSnapshot) : ExecutionSnapshot :=
  mkExecutionSnapshot (es_version s) (es_config s) (es_next_id s) (es_kill_switch_active s)
    (es_last_venue_sequence s) (es_processed_intents s) (es_intents_processed_through s)
    (es_seen_reports s) (es_reports_seen_through s) (es_orders s) (es_client_to_local s) v
    (es_deferred_reports s) (es_positions s) (es_market_data s).
Definition put_deferred (v : list NormalizedVenueReport) (s : ExecutionSnapshot) : ExecutionSnapshot :=
  mkExecutionSnapshot (es_version s) (es_config s) (es_next_id s) (es_kill_switch_active s)
    (es_last_venue_sequence s) (es_processed_intents s) (es_intents_processed_through s)
    (es_seen_reports s) (es_reports_seen_through s) (es_orders s) (es_client_to_local s)
    (es_venue_to_local s) v (es_positions s) (es_market_data s).
Definition put_positions (v : gmap Z PositionProjection) (s : ExecutionSnapshot) : ExecutionSnapshot :=
  mkExecutionSnapshot (es_version s) (es_config s) (es_next_id s) (es_kill_switch_active s)
    (es_last_venue_sequence s) (es_processed_intents s) (es_intents_processed_through s)
    (es_seen_reports s) (es_reports_seen_through s) (es_orders s) (es_client_to_local s)
    (es_venue_to_local s) (es_deferred_reports s) v (es_market_data s).
Definition put_market_data (v : gmap Z MarketObservation) (s : ExecutionSnapshot) : ExecutionSnapshot :=
  mkExecutionSnapshot (es_version s) (es_config s) (es_next_id s) (es_kill_switch_active s)
    (es_last_venue_sequence s) (es_processed_intents s) (es_intents_processed_through s)
    (es_seen_reports s) (es_reports_seen_through s) (es_orders s) (es_client_to_local s)
    (es_venue_to_local s) (es_deferred_reports s) (es_positions s) v.

(** [ExecutionSnapshot::empty] *)
Definition ExecutionSnapshot_empty (c : ExecutionConfig) : ExecutionSnapshot :=
  mkExecutionSnapshot EXECUTION_SNAPSHOT_VERSION c 1 false 0 ∅ None ∅ None ∅ ∅ ∅ [] ∅ ∅.

Record ExecutionActionBuffer : Type := mkExecutionActionBuffer {
  ab_limit : Z;
  ab_actions : list ExecutionAction
}.

(** An engine and the buffer its caller passed. *)
Record Execution : Type := mkExecution {
  ex_state : ExecutionSnapshot;
  ex_output : ExecutionActionBuffer
}.
#[local] Notation Exec A := (M Execution ExecutionError A) (only parsing).

Definition on_state {A} (f : ExecutionSnapshot -> A) : Exec A := gets (fun e => f (ex_state e)).
Definition update (f : ExecutionSnapshot -> ExecutionSnapshot) : Exec unit :=
  modify (fun e => mkExecution (f (ex_state e)) (ex_output e)).

(** [ExecutionActionBuffer::push] *)
Definition output_push (action : ExecutionAction) : Exec unit :=
  output ← gets ex_output;
  refuse_if (ab_limit output <=? Z.of_nat (length (ab_actions output)))
    (ExecutionError.BufferFull (ab_limit output));;
  modify (fun e => mkExecution (ex_state e)
    (mkExecutionActionBuffer (ab_limit output) (ab_actions output ++ [action]))).

(** ** Positions *)

Definition arithmetic {A} (o : option A) : result ExecutionError A := ok_or o ExecutionError.ArithmeticOverflow.

(** The new average price of [PositionProjection::apply_fill]. *)
Definition average_after (average : option Z) (old signed new price : Z) : result ExecutionError (option Z) :=
  if new =? 0 then Ok None
  else if (old =? 0) || negb (Z.sgn old =? Z.sgn new) then Ok (Some price)
  else if Z.sgn old =? Z.sgn signed then
    old_notional ← arithmetic (checked_mul I128 old (default price average));
    added ← arithmetic (checked_mul I128 signed price);
    total ← arithmetic (checked_add I128 old_notional added);
    weighted ← arithmetic (checked I64 (Z.quot total new));
    Ok (Some weighted)
  else Ok average.

(** [PositionProjection::apply_fill]: the position it leaves, also when it
    fails. *)
Definition position_apply_fill (side : Side) (quantity price : Z)
    : M PositionProjection ExecutionError unit :=
  refuse_if ((quantity <=? 0) || (price <=? 0)) ExecutionError.InvalidQuantity;;
  signed ← lift (match side with
                 | Buy => Ok quantity
                 | Sell => arithmetic (checked_neg I64 quantity)
                 end);
  old ← gets pp_quantity;
  new ← lift (arithmetic (checked_add I64 old signed));
  (if negb (old =? 0) && negb (Z.sgn old =? Z.sgn signed) then
     let closed := Z.min (Z.abs old) (Z.abs signed) in
     average ← gets (fun p => default price (pp_average_price p));
     per_unit ← lift (arithmetic (if 0 <? old then checked_sub I64 price average
                                  else checked_sub I64 average price));
     pnl ← lift (arithmetic (checked_mul I128 per_unit closed));
     realized ← gets pp_realized_pnl;
     realized ← lift (arithmetic (checked_add I128 realized pnl));
     modify (fun p => mkPositionProjection (pp_quantity p) (pp_average_price p) realized)
   else mret tt);;
  average ← gets pp_average_price;
  average ← lift (average_after average old signed new price);
  modify (fun p => mkPositionProjection (pp_quantity p) average (pp_realized_pnl p));;
  modify (fun p => mkPositionProjection new (pp_average_price p) (pp_realized_pnl p)).

(** [self.state.positions.entry(instrument).or_default().apply_fill(..)?] *)
Definition fill_position (instrument : Z) (side : Side) (quantity price : Z) : Exec unit :=
  p ← on_state (fun s => default PositionProjection_default (es_positions s !! instrument));
  let '(p, r) := position_apply_fill side quantity price p in
  update (fun s => put_positions (<[instrument := p]> (es_positions s)) s);;
  lift r.

(** ** Risk *)

(** [risk::validate_submit] *)
Definition validate_submit (c : ExecutionConfig) (order : DesiredOrder) (open_orders : Z)
    (position : option PositionProjection) : result ExecutionError unit :=
  _ ← err_if (do_quantity order <=? 0) ExecutionError.InvalidQuantity;
  _ ← err_if (ec_max_order_quantity c <? do_quantity order) ExecutionError.PositionLimit;
  _ ← err_if (ec_max_orders c <=? open_orders) ExecutionError.OpenOrderLimit;
  let current := match position with Some value => pp_quantity value | None => 0 end in
  projected ← arithmetic (match do_side order with
                          | Buy => checked_add I64 current (do_quantity order)
                          | Sell => checked_sub I64 current (do_quantity order)
                          end);
  err_if (Z.abs (ec_max_absolute_position c) <? Z.abs projected) ExecutionError.PositionLimit.

(** ** The engine *)

(** [QuarccExecutionEngine::new], [restore] *)
Definition QuarccExecutionEngine_new (c : ExecutionConfig) : ExecutionSnapshot := ExecutionSnapshot_empty c.
Definition execution_restore (s : ExecutionSnapshot) : result ExecutionError ExecutionSnapshot :=
  _ ← err_if (negb (es_version s =? EXECUTION_SNAPSHOT_VERSION))
        (ExecutionError.InvalidSnapshotVersion (es_version s));
  _ ← err_if ((ec_max_orders (es_config s) <? Z.of_nat (size (es_orders s)))
              || (ec_max_seen_reports (es_config s) <? Z.of_nat (size (es_seen_reports s)))
              || (ec_max_deferred_reports (es_config s) <? Z.of_nat (length (es_deferred_reports s))))
        (ExecutionError.BufferFull (ec_max_orders (es_config s)));
  Ok s.

(** [order_by_client] *)
Definition order_by_client (s : ExecutionSnapshot) (client_order_id : Z) : option ManagedOrder :=
  local ← es_client_to_local s !! client_order_id;
  es_orders s !! local.

(** [next_local_id] and [next_action_id] *)
Definition next_id : Exec Z :=
  id ← on_state es_next_id;
  next ← lift (arithmetic (checked_add U128 id 1));
  update (put_next_id next);;
  mret id.

(** [self.state.orders.get(&local).ok_or(UnknownLocalOrder(local))?] *)
Definition get_order (local : Z) : Exec ManagedOrder :=
  o ← on_state (fun s => es_orders s !! local);
  lift (ok_or o (ExecutionError.UnknownLocalOrder local)).
(** An update through [orders.get_mut(&local)]. *)
Definition alter_order (f : ManagedOrder -> ManagedOrder) (local : Z) : Exec unit :=
  update (fun s => put_orders (alter f local (es_orders s)) s).
Definition update_order (f : ManagedOrder -> ManagedOrder) (local : Z) : Exec unit :=
  get_order local;;
  alter_order f local.

(** One round of [retire_terminal_orders]. *)
Definition oldest_terminal (s : ExecutionSnapshot) : option (Z * ManagedOrder) :=
  snd <$> list_find (fun e => lifecycle_is_terminal (mo_lifecycle e.2) = true) (entries (es_orders s)).
Definition forget_order (local : Z) (order : ManagedOrder) (s : ExecutionSnapshot) : ExecutionSnapshot :=
  let s := put_orders (delete local (es_orders s)) s in
  let s := match mo_venue_order_id order with
           | Some venue => put_venue_to_local (delete venue (es_venue_to_local s)) s
           | None => s
           end in
  let client := do_client_order_id (mo_desired order) in
  if bool_decide (es_client_to_local s !! client = Some local)
  then put_client_to_local (delete client (es_client_to_local s)) s else s.
(** [retire_terminal_orders]; every round removes an order. *)
Fixpoint retire_loop (fuel : nat) : Exec unit :=
  match fuel with
  | O => mret tt
  | S fuel =>
      s ← on_state id;
      if ec_max_orders (es_config s) <=? Z.of_nat (size (es_orders s)) then
        '(local, order) ← lift (ok_or (oldest_terminal s) ExecutionError.OpenOrderLimit);
        update (forget_order local order);;
        retire_loop fuel
      else mret tt
  end.
Definition retire_terminal_orders : Exec unit :=
  n ← on_state (fun s => size (es_orders s));
  retire_loop (S n).

(** [resolve_report] *)
Definition resolve_report (s : ExecutionSnapshot) (report : NormalizedVenueReport) : option Z :=
  match (local ← nr_local_order_id report;
         if bool_decide (is_Some (es_orders s !! local)) then Some local else None) with
  | Some local => Some local
  | None =>
      match (client ← nr_client_order_id report; es_client_to_local s !! client) with
      | Some local => Some local
      | None => venue ← nr_venue_order_id report; es_venue_to_local s !! venue
      end
  end.

(** [defer_report] *)
Definition defer_report (report : NormalizedVenueReport) : Exec unit :=
  s ← on_state id;
  if existsb (fun deferred => nr_report_id deferred =? nr_report_id report) (es_deferred_reports s) then mret tt
  else
    refuse_if (ec_max_deferred_reports (es_config s) <=? Z.of_nat (length (es_deferred_reports s)))
      (ExecutionError.BufferFull (ec_max_deferred_reports (es_config s)));;
    update (fun s => put_deferred (es_deferred_reports s ++ [report]) s).

(** [return Err(self.quarantine(local, report))] *)
Definition quarantine {A} (local : Z) (report : NormalizedVenueReport) : Exec A :=
  from ← on_state (fun s => mo_lifecycle <$> es_orders s !! local);
  alter_order (fun o => order_with_reason (Some (InvalidReport (nr_kind report)))
    (order_with_lifecycle OrderLifecycle.Quarantined o)) local;;
  throw (ExecutionError.InvalidTransition (OnReport from (nr_kind report))).

(** [bind_venue_id] *)
Definition bind_venue_id (local : Z) (venue : option string) : Exec unit :=
  match venue with
  | None => mret tt
  | Some venue =>
      existing ← on_state (fun s => es_venue_to_local s !! venue);
      refuse_if (match existing with Some existing => negb (existing =? local) | None => false end)
        (ExecutionError.UnknownVenueOrder venue);;
      update (fun s => put_venue_to_local (<[venue := local]> (es_venue_to_local s)) s);;
      alter_order (order_with_venue (Some venue)) local
  end.

Definition set_lifecycle (l : OrderLifecycle) (local : Z) : Exec unit :=
  update_order (order_with_lifecycle l) local.

(** The lifecycle an order returns to when a cancel or a replace is over. *)
Definition working (o : ManagedOrder) : OrderLifecycle :=
  if 0 <? mo_filled_quantity o then OrderLifecycle.PartiallyFilled else OrderLifecycle.Live.

(** The arm for [VenueReportKind::Fill]. *)
Definition apply_fill_report (local : Z) (report : NormalizedVenueReport) (lifecycle : OrderLifecycle)
    (cumulative_quantity price : Z) : Exec unit :=
  order ← get_order local;
  let previous := mo_filled_quantity order in
  let total := do_quantity (mo_desired order) in
  if cumulative_quantity <? previous then mret tt
  else if total <? cumulative_quantity then quarantine local report
  else
    delta ← lift (arithmetic (checked_sub I64 cumulative_quantity previous));
    (if 0 <? delta then
       fill_position (do_instrument_id (mo_desired order)) (do_side (mo_desired order)) delta price
     else mret tt);;
    update_order (fun o =>
      order_with_lifecycle
        (if cumulative_quantity =? total then OrderLifecycle.Filled
         else if bool_decide (lifecycle ∈ [OrderLifecycle.Cancelled; OrderLifecycle.Expired]) then lifecycle
         else OrderLifecycle.PartiallyFilled)
        (order_with_average (Some price) (order_with_filled cumulative_quantity o))) local.

(** [apply_resolved_report]; the arms of the source's match in its order. *)
Definition apply_resolved_report (local : Z) (report : NormalizedVenueReport) : Exec unit :=
  bind_venue_id local (nr_venue_order_id report);;
  order ← get_order local;
  let lifecycle := mo_lifecycle order in
  let among ls := bool_decide (lifecycle ∈ ls) in
  match nr_kind report with
  | VenueReportKind.Accepted =>
      if among [OrderLifecycle.PendingSubmit; OrderLifecycle.IntentReceived] then
        set_lifecycle OrderLifecycle.Live local
      else if among [OrderLifecycle.Live; OrderLifecycle.PartiallyFilled; OrderLifecycle.Filled;
                  OrderLifecycle.Cancelled; OrderLifecycle.PendingCancel; OrderLifecycle.PendingReplace] then mret tt
      else quarantine local report
  | VenueReportKind.Cancelled =>
      if among [OrderLifecycle.Filled; OrderLifecycle.Cancelled; OrderLifecycle.Expired] then mret tt
      else if among [OrderLifecycle.PendingCancel; OrderLifecycle.Live; OrderLifecycle.PartiallyFilled;
                  OrderLifecycle.PendingReplace; OrderLifecycle.PendingSubmit] then
        set_lifecycle OrderLifecycle.Cancelled local
      else quarantine local report
  | VenueReportKind.Expired =>
      if among [OrderLifecycle.Filled; OrderLifecycle.Cancelled; OrderLifecycle.Expired] then mret tt
      else if lifecycle_is_open lifecycle then set_lifecycle OrderLifecycle.Expired local
      else quarantine local report
  | VenueReportKind.CancelRejected _ =>
      if among [OrderLifecycle.Filled; OrderLifecycle.Cancelled; OrderLifecycle.Expired;
             OrderLifecycle.Live; OrderLifecycle.PartiallyFilled] then mret tt
      else if among [OrderLifecycle.PendingCancel] then
        update_order (fun o => order_with_lifecycle (working o) o) local
      else quarantine local report
  | VenueReportKind.Rejected reason =>
      if among [OrderLifecycle.Filled; OrderLifecycle.Cancelled; OrderLifecycle.Expired;
             OrderLifecycle.Live; OrderLifecycle.PartiallyFilled] then mret tt
      else if among [OrderLifecycle.PendingSubmit; OrderLifecycle.PendingReplace] then
        update_order (fun o => order_with_reason (Some (VenueReason reason))
          (order_with_lifecycle OrderLifecycle.Rejected o)) local
      else if among [OrderLifecycle.PendingCancel] then
        update_order (fun o => order_with_lifecycle (working o) o) local
      else quarantine local report
  | VenueReportKind.Fill _ cumulative_quantity price =>
      if among [OrderLifecycle.PendingSubmit; OrderLifecycle.Live; OrderLifecycle.PartiallyFilled;
             OrderLifecycle.PendingCancel; OrderLifecycle.PendingReplace; OrderLifecycle.Filled;
             OrderLifecycle.Cancelled; OrderLifecycle.Expired] then
        apply_fill_report local report lifecycle cumulative_quantity price
      else quarantine local report
  | VenueReportKind.Replaced =>
      if among [OrderLifecycle.PendingReplace] then
        update_order (fun o =>
          let o := match mo_pending_replace o with
                   | Some (quantity, kind) =>
                       let d := mo_desired o in
                       order_with_desired
                         (mkDesiredOrder (do_client_order_id d) (do_instrument_id d) (do_participant_id d)
                            (do_side d) quantity kind (do_anonymous d))
                         (order_with_pending_replace None o)
                   | None => o
                   end in
          order_with_lifecycle (working o) o) local
      else quarantine local report
  end.

(** [BTreeSet::pop_first] *)
Definition first_of (s : gset Z) : option Z := head (merge_sort Z.le (elements s)).
(** [set.insert(id)], dropping the smallest member into the watermark when
    the set is over its bound. *)
Definition record_id (max id : Z) (set : gset Z) (through : option Z) : gset Z * option Z :=
  let set := {[id]} ∪ set in
  if max <? Z.of_nat (size set) then
    match first_of set with
    | Some first => (set ∖ {[first]}, Some first)
    | None => (set, None)
    end
  else (set, through).
Definition at_or_below (through : option Z) (id : Z) : bool :=
  match through with Some through => id <=? through | None => false end.

Definition report_seen (s : ExecutionSnapshot) (report : NormalizedVenueReport) : bool :=
  bool_decide (nr_report_id report ∈ es_seen_reports s) || at_or_below (es_reports_seen_through s) (nr_report_id report).

(** What [apply_venue_report] records of a report it applied. *)
Definition record_report (report : NormalizedVenueReport) (s : ExecutionSnapshot) : ExecutionSnapshot :=
  let '(seen, through) := record_id (ec_max_seen_reports (es_config s)) (nr_report_id report)
                            (es_seen_reports s) (es_reports_seen_through s) in
  let s := put_reports_through through (put_seen_reports seen s) in
  match nr_source_sequence report with
  | Some sequence => put_last_venue_sequence (Z.max (es_last_venue_sequence s) sequence) s
  | None => s
  end.

(** [apply_venue_report].  It calls itself through [retry_deferred] on the
    reports that were deferred; [fuel] bounds the depth of these calls. *)
Fixpoint apply_venue_report_at (fuel : nat) (report : NormalizedVenueReport) : Exec unit :=
  s ← on_state id;
  if report_seen s report then mret tt
  else match resolve_report s report with
  | None => defer_report report
  | Some local =>
      apply_resolved_report local report;;
      update (record_report report);;
      match nr_kind report with
      | VenueReportKind.Accepted | VenueReportKind.Replaced =>
          match fuel with
          | O => mret tt
          | S fuel =>
              reports ← on_state es_deferred_reports;
              update (put_deferred []);;
              for_each (apply_venue_report_at fuel) reports
          end
      | _ => mret tt
      end
  end.
(** [retry_deferred] *)
Definition retry_deferred_at (fuel : nat) : Exec unit :=
  reports ← on_state es_deferred_reports;
  update (put_deferred []);;
  for_each (apply_venue_report_at fuel) reports.

(** The number of deferred reports is depth enough. *)
Definition apply_venue_report (report : NormalizedVenueReport) : Exec unit :=
  n ← on_state (fun s => length (es_deferred_reports s));
  apply_venue_report_at (S n) report.
Definition retry_deferred : Exec unit :=
  n ← on_state (fun s => length (es_deferred_reports s));
  retry_deferred_at n.

(** [apply_market_data] *)
Definition apply_market_data (observation : MarketObservation) : Exec unit :=
  update (fun s => put_market_data (<[ob_instrument_id observation := observation]> (es_market_data s)) s);;
  update (fun s => put_last_venue_sequence (Z.max (es_last_venue_sequence s) (ob_committed_sequence observation)) s).

(** ** Intents *)

Definition intent_processed (s : ExecutionSnapshot) (id : Z) : bool :=
  bool_decide (id ∈ es_processed_intents s) || at_or_below (es_intents_processed_through s) id.

(** The open orders, in order of local identifier. *)
Definition open_orders (s : ExecutionSnapshot) : list (Z * ManagedOrder) :=
  filter (fun e => lifecycle_is_open (mo_lifecycle e.2) = true) (entries (es_orders s)).

Definition new_order (local : Z) (desired : DesiredOrder) (venue : option string)
    (lifecycle : OrderLifecycle) (filled : Z) : ManagedOrder :=
  mkManagedOrder local desired venue lifecycle filled None None None None.

(** Both indices of a new order. *)
Definition insert_order (client local : Z) (o : ManagedOrder) (s : ExecutionSnapshot) : ExecutionSnapshot :=
  let s := put_client_to_local (<[client := local]> (es_client_to_local s)) s in
  put_orders (<[local := o]> (es_orders s)) s.

(** The arms of [submit_intent]. *)
Definition intent_submit (order : DesiredOrder) : Exec unit :=
  s ← on_state id;
  refuse_if (es_kill_switch_active s) ExecutionError.KillSwitchActive;;
  refuse_if (bool_decide (is_Some (es_client_to_local s !! do_client_order_id order)))
    ExecutionError.DuplicateIntent;;
  lift (validate_submit (es_config s) order (Z.of_nat (length (open_orders s)))
          (es_positions s !! do_instrument_id order));;
  retire_terminal_orders;;
  local ← next_id;
  action_id ← next_id;
  output_push (ActionSubmit action_id local order);;
  update (insert_order (do_client_order_id order) local
    (new_order local order None OrderLifecycle.PendingSubmit 0)).

Definition local_of_client (client_order_id : Z) : Exec Z :=
  local ← on_state (fun s => es_client_to_local s !! client_order_id);
  lift (ok_or local (ExecutionError.UnknownClientOrder client_order_id)).

Definition intent_cancel (client_order_id : Z) : Exec unit :=
  local ← local_of_client client_order_id;
  order ← get_order local;
  refuse_if (negb (bool_decide (mo_lifecycle order ∈
      [OrderLifecycle.PendingSubmit; OrderLifecycle.Live; OrderLifecycle.PartiallyFilled])))
    (ExecutionError.InvalidTransition (OnIntent (mo_lifecycle order) "cancel_intent"));;
  action_id ← next_id;
  output_push (ActionCancel action_id local (mo_venue_order_id order));;
  set_lifecycle OrderLifecycle.PendingCancel local.

Definition intent_replace (client_order_id quantity : Z) (kind : OrderKind) : Exec unit :=
  refuse_if (quantity <=? 0) ExecutionError.InvalidQuantity;;
  local ← local_of_client client_order_id;
  order ← get_order local;
  refuse_if (negb (bool_decide (mo_lifecycle order ∈ [OrderLifecycle.Live; OrderLifecycle.PartiallyFilled])))
    (ExecutionError.InvalidTransition (OnIntent (mo_lifecycle order) "replace_intent"));;
  venue ← lift (ok_or (mo_venue_order_id order) (ExecutionError.UnknownLocalOrder local));
  action_id ← next_id;
  output_push (ActionReplace action_id local venue quantity kind);;
  update_order (fun o => order_with_pending_replace (Some (quantity, kind))
    (order_with_lifecycle OrderLifecycle.PendingReplace o)) local.

Definition query_order (local : Z) (venue : option string) : Exec unit :=
  action_id ← next_id;
  output_push (ActionQueryOrder action_id local venue).

Definition intent_query (local : Z) : Exec unit :=
  order ← get_order local;
  query_order local (mo_venue_order_id order).

Definition cancel_open (e : Z * ManagedOrder) : Exec unit :=
  action_id ← next_id;
  output_push (ActionCancel action_id e.1 (mo_venue_order_id e.2));;
  alter_order (order_with_lifecycle OrderLifecycle.PendingCancel) e.1.

Definition intent_kill_switch : Exec unit :=
  update (put_kill_switch true);;
  open ← on_state open_orders;
  for_each cancel_open open.

(** [submit_intent] *)
Definition record_intent (id : Z) (s : ExecutionSnapshot) : ExecutionSnapshot :=
  let '(processed, through) := record_id (ec_max_seen_reports (es_config s)) id
                                 (es_processed_intents s) (es_intents_processed_through s) in
  put_intents_through through (put_processed_intents processed s).
Definition submit_intent (intent : ExecutionIntent) : Exec unit :=
  s ← on_state id;
  if intent_processed s (intent_id intent) then mret tt
  else
    (match intent with
     | IntentSubmit _ order => intent_submit order
     | IntentCancel _ client => intent_cancel client
     | IntentReplace _ client quantity kind => intent_replace client quantity kind
     | IntentQuery _ local => intent_query local
     | IntentKillSwitch _ => intent_kill_switch
     end);;
    update (record_intent (intent_id intent)).

(** ** Reconciliation *)

(** One open order of the venue: the local order it is. *)
Definition reconcile_order (external : AuthoritativeOpenOrder) : Exec Z :=
  let client := default (do_client_order_id (ao_order external)) (ao_client_order_id external) in
  known ← on_state (fun s => es_client_to_local s !! client);
  local ← match known with
          | Some local => mret local
          | None =>
              local ← next_id;
              let d := ao_order external in
              let desired := mkDesiredOrder client (do_instrument_id d) (do_participant_id d) (do_side d)
                               (do_quantity d) (do_kind d) (do_anonymous d) in
              update (insert_order client local
                (new_order local desired (Some (ao_venue_order_id external))
                   OrderLifecycle.ExternallyDiscovered (ao_filled_quantity external)));;
              mret local
          end;
  bind_venue_id local (Some (ao_venue_order_id external));;
  alter_order (fun o =>
    let o := order_with_filled (ao_filled_quantity external) o in
    if bool_decide (mo_lifecycle o = OrderLifecycle.ExternallyDiscovered) then o
    else order_with_lifecycle (working o) o) local;;
  mret local.

Fixpoint reconcile_orders (externals : list AuthoritativeOpenOrder) : Exec (gset Z) :=
  match externals with
  | [] => mret ∅
  | external :: externals =>
      local ← reconcile_order external;
      observed ← reconcile_orders externals;
      mret ({[local]} ∪ observed)
  end.

Definition authoritative_positions (positions : list AuthoritativePosition) : gmap Z PositionProjection :=
  foldl (fun m p => <[ap_instrument_id p :=
      mkPositionProjection (ap_quantity p) (ap_average_price p) (ap_realized_pnl p)]> m) ∅ positions.

(** [reconcile] *)
Definition reconcile (snapshot : AuthoritativeVenueSnapshot) : Exec unit :=
  c ← on_state es_config;
  refuse_if (ec_max_orders c <? Z.of_nat (length (av_open_orders snapshot)))
    (ExecutionError.BufferFull (ec_max_orders c));;
  observed ← reconcile_orders (av_open_orders snapshot);
  missing ← on_state (fun s => filter (fun e => e.1 ∉ observed) (open_orders s));
  for_each (fun e => query_order e.1 (mo_venue_order_id e.2)) missing;;
  update (put_positions (authoritative_positions (av_positions snapshot)));;
  update (put_last_venue_sequence (av_committed_sequence snapshot));;
  retry_deferred.

(** ** A participant's calls *)

(** One constructor per method of [ExecutionEngine]; every call has an empty
    buffer of its own, and a failed call leaves what it did. *)
Inductive ExecutionCall : Type :=
  | CallIntent (intent : ExecutionIntent)
  | CallMarketData (observation : MarketObservation)
  | CallReport (report : NormalizedVenueReport)
  | CallReconcile (snapshot : AuthoritativeVenueSnapshot).
Definition execution_call (call : ExecutionCall) : Exec unit :=
  match call with
  | CallIntent intent => submit_intent intent
  | CallMarketData observation => apply_market_data observation
  | CallReport report => apply_venue_report report
  | CallReconcile snapshot => reconcile snapshot
  end.
Definition run_execution (limit : Z) (call : ExecutionCall) (s : ExecutionSnapshot)
    : ExecutionSnapshot * result ExecutionError (list ExecutionAction) :=
  let '(e, r) := execution_call call (mkExecution s (mkExecutionActionBuffer limit [])) in
  (ex_state e, _ ← r; Ok (ab_actions (ex_output e))).
Definition run_executions (limit : Z) (calls : list ExecutionCall) (s : ExecutionSnapshot) : ExecutionSnapshot :=
  foldl (fun s call => (run_execution limit call s).1) s calls.
