(* ===== verification/ExecutionFacts.v ===== *)
(** * quarcc-execution-engine: what reports and intents change

    The frame of every operation of [Execution]: which orders and indices it
    touches, and the difference between positions and filled quantities. *)

From S2P Require Import Prelude Ordered MarketEvents Hoare Execution.

(** ** Orders and positions *)

(** What no report changes of an order. *)
Definition ident (o : ManagedOrder) : Z * Z * Z * Side :=
  (mo_local_order_id o, do_client_order_id (mo_desired o), do_instrument_id (mo_desired o), do_side (mo_desired o)).
Definition idents (s : ExecutionSnapshot) : gmap Z (Z * Z * Z * Side) := ident <$> es_orders s.

Definition signed (side : Side) (quantity : Z) : Z :=
  match side with Buy => quantity | Sell => - quantity end.

(** The part of the instrument's position that the known orders explain. *)
Definition order_position (instrument : Z) (o : ManagedOrder) : Z :=
  if do_instrument_id (mo_desired o) =? instrument then signed (do_side (mo_desired o)) (mo_filled_quantity o) else 0.
Definition filled_position (instrument : Z) (orders : gmap Z ManagedOrder) : Z :=
  map_sum (fun _ => order_position instrument) orders.
Definition position_of (instrument : Z) (s : ExecutionSnapshot) : Z :=
  pp_quantity (default PositionProjection_default (es_positions s !! instrument)).
(** The rest: what was filled before, or reconciled. *)
Definition unexplained (instrument : Z) (s : ExecutionSnapshot) : Z :=
  position_of instrument s - filled_position instrument (es_orders s).

Lemma filled_position_alter i f l orders o :
  orders !! l = Some o ->
  filled_position i (alter f l orders) = filled_position i orders - order_position i o + order_position i (f o).
Proof.
  intros Ho. unfold filled_position.
  replace (alter f l orders) with (<[l := f o]> orders).
  - rewrite map_sum_insert_any. unfold at_key. by rewrite Ho.
  - apply map_eq. intros k. destruct (decide (k = l)) as [->|Hne].
    + by rewrite lookup_insert_eq, lookup_alter_eq, Ho.
    + by rewrite lookup_insert_ne, lookup_alter_ne by done.
Qed.

Lemma alter_none {V} (f : V -> V) (l : Z) (m : gmap Z V) : m !! l = None -> alter f l m = m.
Proof.
  intros Hl. apply map_eq. intros k. destruct (decide (k = l)) as [->|].
  - by rewrite lookup_alter_eq, Hl.
  - by rewrite lookup_alter_ne.
Qed.

Lemma idents_alter f l (orders : gmap Z ManagedOrder) :
  (forall o, ident (f o) = ident o) -> ident <$> alter f l orders = ident <$> orders.
Proof.
  intros Hf. apply map_eq. intros k. rewrite !lookup_fmap.
  destruct (decide (k = l)) as [->|Hne]; [| by rewrite lookup_alter_ne].
  rewrite lookup_alter_eq. destruct (orders !! l); [cbn; by rewrite Hf | done].
Qed.

(** ** Reports *)

(** What a report leaves alone, whether it is applied or refused. *)
Record reported (e e' : Execution) : Prop := {
  rp_output : ex_output e' = ex_output e;
  rp_static : es_version (ex_state e') = es_version (ex_state e) /\ es_config (ex_state e') = es_config (ex_state e) /\
    es_next_id (ex_state e') = es_next_id (ex_state e) /\
    es_kill_switch_active (ex_state e') = es_kill_switch_active (ex_state e);
  rp_intents : es_processed_intents (ex_state e') = es_processed_intents (ex_state e) /\
    es_intents_processed_through (ex_state e') = es_intents_processed_through (ex_state e);
  rp_clients : es_client_to_local (ex_state e') = es_client_to_local (ex_state e);
  rp_idents : idents (ex_state e') = idents (ex_state e);
  rp_positions : forall i, unexplained i (ex_state e') = unexplained i (ex_state e)
}.
#[export] Instance reported_preorder : PreOrder reported.
Proof.
  split; [by split; auto |]. intros a b c [A1 A2 A3 A4 A5 A6] [B1 B2 B3 B4 B5 B6].
  destruct_and!. split; split_and?; try congruence. all: intros; congruence.
Qed.

Lemma stays_reported_update f :
  (forall s, (es_version (f s), es_config (f s), es_next_id (f s), es_kill_switch_active (f s),
      es_processed_intents (f s), es_intents_processed_through (f s), es_client_to_local (f s), es_orders (f s), es_positions (f s))
    = (es_version s, es_config s, es_next_id s, es_kill_switch_active s,
      es_processed_intents s, es_intents_processed_through s, es_client_to_local s, es_orders s, es_positions s)) ->
  stays reported (update f).
Proof.
  intros Hf. unfold update. stays_step. intros e.
  specialize (Hf (ex_state e)). simplify_eq. split; unfold idents, unexplained, position_of; cbn; intros; by split_and? || congruence.
Qed.

Ltac reported_update := apply stays_reported_update; intros; reflexivity.

(** What the effect of a report on its order leaves alone. *)
Definition reports_of (e : Execution) :=
  (es_seen_reports (ex_state e), es_reports_seen_through (ex_state e), es_deferred_reports (ex_state e)).
Definition resolved (e e' : Execution) : Prop := reported e e' /\ reports_of e' = reports_of e.
#[export] Instance resolved_preorder : PreOrder resolved.
Proof.
  split; [by split |]. intros a b c [A1 A2] [B1 B2]. split; [by etrans | congruence].
Qed.
Lemma stays_resolved {A} (m : M Execution ExecutionError A) : stays resolved m -> stays reported m.
Proof. intros Hm e. eapply wp_mono; [apply Hm | |]; intros; by apply H. Qed.

(** An order altered in neither its identity nor its filled quantity. *)
Lemma stays_resolved_alter f l :
  (forall o, ident (f o) = ident o /\ mo_filled_quantity (f o) = mo_filled_quantity o) ->
  stays resolved (alter_order f l).
Proof.
  intros Hf. unfold alter_order, update. stays_step. intros e. split; [| done].
  split; try done; cbn; [apply idents_alter; intros o; apply Hf |].
  intros i. unfold unexplained, position_of. cbn. f_equal.
  destruct (es_orders (ex_state e) !! l) as [o|] eqn:Ho; [| by rewrite alter_none].
  rewrite (filled_position_alter _ _ _ _ _ Ho). destruct (Hf o) as [Hi Hq].
  unfold order_position. unfold ident in Hi. injection Hi as _ _ -> ->. rewrite Hq. lia.
Qed.

Lemma stays_get_order l : stays resolved (get_order l).
Proof. unfold get_order, on_state. repeat stays_step. Qed.
Lemma stays_resolved_order f l :
  (forall o, ident (f o) = ident o /\ mo_filled_quantity (f o) = mo_filled_quantity o) ->
  stays resolved (update_order f l).
Proof.
  intros Hf. unfold update_order. stays_step; [apply stays_get_order | by apply stays_resolved_alter].
Qed.

Lemma stays_quarantine {A} l r : stays resolved (quarantine (A := A) l r).
Proof.
  unfold quarantine, on_state. stays_step; [stays_step |]. stays_step; [| stays_step].
  by apply stays_resolved_alter.
Qed.

Lemma stays_bind_venue l v : stays resolved (bind_venue_id l v).
Proof.
  unfold bind_venue_id, on_state. destruct v; [| stays_step].
  repeat stays_step; [unfold update; stays_step; by intros [[] ?] |]. by apply stays_resolved_alter.
Qed.

(** Filling a position moves its quantity by the signed quantity, or not at
    all when it fails. *)
Lemma position_apply_fill_wp side quantity price p :
  wp (position_apply_fill side quantity price)
    (fun _ p' => pp_quantity p' = pp_quantity p + signed side quantity)
    (fun p' => pp_quantity p' = pp_quantity p) p.
Proof.
  unfold position_apply_fill. wp_step. wp_step; [done |]. wp_step. wp_step; [done |].
  assert (Ha : a = signed side quantity) by (destruct side; unfold arithmetic in *; chk; done).
  do 3 wp_step. wp_step; [done |]. unfold arithmetic in *. chk.
  wp_step. apply wp_mono with (Q := fun _ p' => pp_quantity p' = pp_quantity p)
    (X := fun p' => pp_quantity p' = pp_quantity p); [| | done].
  - destruct (negb _ && negb _); [| by wp_step]. repeat first [wp_step; [done |] | wp_step]. done.
  - intros _ p1 Hp1. do 3 wp_step. wp_step; [done |]. do 3 wp_step. cbn. lia.
Qed.

Lemma position_of_insert i instrument p s :
  position_of i (put_positions (<[instrument := p]> (es_positions s)) s)
  = if decide (i = instrument) then pp_quantity p else position_of i s.
Proof.
  unfold position_of. cbn. case_decide; [subst; by rewrite lookup_insert_eq | by rewrite lookup_insert_ne].
Qed.

(** Only the positions changed. *)
Lemma resolved_positions e p :
  (forall i, position_of i (put_positions p (ex_state e)) = position_of i (ex_state e)) ->
  resolved e (mkExecution (put_positions p (ex_state e)) (ex_output e)).
Proof. intros Hp. split; [| done]. split; try done. intros i. unfold unexplained. cbn [ex_state]. by rewrite Hp. Qed.

Lemma fill_position_wp instrument side quantity price e :
  wp (fill_position instrument side quantity price)
    (fun _ e1 => exists p, e1 = mkExecution (put_positions p (ex_state e)) (ex_output e) /\
      forall i, position_of i (put_positions p (ex_state e)) = position_of i (ex_state e) +
        (if decide (i = instrument) then signed side quantity else 0))
    (resolved e) e.
Proof.
  unfold fill_position, on_state, update. do 2 wp_step.
  pose proof (position_apply_fill_wp side quantity price
    (default PositionProjection_default (es_positions (ex_state e) !! instrument))) as Hw.
  unfold wp in Hw. destruct (position_apply_fill _ _ _ _) as [p [[]|err]]; do 2 wp_step.
  - unfold wp, lift. eexists. split; [done |]. intros i. rewrite position_of_insert.
    case_decide as Hi; [subst i; exact Hw | lia].
  - apply wp_lift; [| done]. apply resolved_positions. intros i. rewrite position_of_insert.
    case_decide as Hi; [subst i; exact Hw | done].
Qed.

Lemma apply_fill_report_resolved l r lifecycle cumulative price :
  stays resolved (apply_fill_report l r lifecycle cumulative price).
Proof.
  intros e. unfold apply_fill_report, get_order, on_state. do 3 wp_step. wp_step; [reflexivity |].
  rename a into o. destruct (es_orders (ex_state e) !! l) as [o'|] eqn:Ho; [| done]. injection H as ->.
  case_match; [wp_step; reflexivity |]. case_match; [apply stays_quarantine |].
  wp_step. wp_step; [reflexivity |]. unfold arithmetic in *. chk. guards.
  set (delta := cumulative - mo_filled_quantity o) in *.
  set (side := do_side (mo_desired o)). set (instrument := do_instrument_id (mo_desired o)).
  wp_step. apply wp_mono with (X := resolved e)
    (Q := fun _ e1 => exists p, e1 = mkExecution (put_positions p (ex_state e)) (ex_output e) /\
      forall i, position_of i (put_positions p (ex_state e)) = position_of i (ex_state e) +
        (if decide (i = instrument) then signed side delta else 0)); [| | done].
  - destruct (Z.ltb_spec 0 delta); [apply fill_position_wp |].
    wp_step. exists (es_positions (ex_state e)). destruct e as [[] ?]. split; [done |]. intros i.
    assert (Hz : delta = 0) by lia. rewrite Hz. unfold position_of, signed. cbn. destruct (decide _), side; lia.
  - intros _ e1 (p & -> & Hp). unfold update_order, get_order, on_state, alter_order, update.
    do 3 wp_step. cbn [ex_state put_positions es_orders]. rewrite Ho. unfold wp at 1. cbn [lift ok_or]. wp_step.
    split; [| done]. split; try done; cbn; [by apply idents_alter |]. intros i.
    specialize (Hp i). unfold unexplained, position_of in *. cbn in Hp |- *. rewrite Hp.
    rewrite (filled_position_alter _ _ _ _ _ Ho). unfold order_position. cbn.
    fold side. fold instrument. destruct (decide (i = instrument)) as [->|Hne].
    + rewrite Z.eqb_refl. unfold delta, signed. destruct side; lia.
    + rewrite (proj2 (Z.eqb_neq instrument i)) by done. lia.
Qed.

Lemma apply_resolved_report_resolved l r : stays resolved (apply_resolved_report l r).
Proof.
  unfold apply_resolved_report, set_lifecycle. stays_step; [apply stays_bind_venue |].
  stays_step; [apply stays_get_order |]. cbn zeta. destruct (nr_kind r);
    repeat (case_match; try (apply stays_quarantine || stays_step)); try by apply stays_resolved_order.
  - apply apply_fill_report_resolved.
  - apply stays_resolved_order. intros o. by destruct (mo_pending_replace o) as [[]|].
Qed.

Lemma defer_report_reported r : stays reported (defer_report r).
Proof.
  unfold defer_report, on_state. stays_step; [stays_step |]. case_match; [stays_step |].
  stays_step; [stays_step | reported_update].
Qed.

Lemma record_report_reported r : stays reported (update (record_report r)).
Proof.
  apply stays_reported_update. intros s. unfold record_report.
  destruct (record_id _ _ _ _) as [seen through]. by destruct (nr_source_sequence r).
Qed.

Lemma apply_venue_report_at_reported fuel r : stays reported (apply_venue_report_at fuel r).
Proof.
  revert r. induction fuel as [|fuel IH]; intros r; cbn [apply_venue_report_at]; unfold on_state;
    (stays_step; [stays_step |]); (case_match; [stays_step |]);
    (destruct (resolve_report _ r); [| apply defer_report_reported]);
    (stays_step; [apply stays_resolved, apply_resolved_report_resolved |]);
    (stays_step; [apply record_report_reported |]); destruct (nr_kind r); try stays_step;
    try stays_step; try reported_update; try stays_step; done.
Qed.

Lemma apply_venue_report_reported r : stays reported (apply_venue_report r).
Proof.
  unfold apply_venue_report, on_state. stays_step; [stays_step | apply apply_venue_report_at_reported].
Qed.
Lemma retry_deferred_reported : stays reported retry_deferred.
Proof.
  unfold retry_deferred, retry_deferred_at, on_state. stays_step; [stays_step |].
  stays_step; [stays_step |]. stays_step; [reported_update |]. stays_step. apply apply_venue_report_at_reported.
Qed.

(** ** Deferred reports *)

Definition deferred (e : Execution) : nat := length (es_deferred_reports (ex_state e)).

Lemma resolved_deferred e e' : resolved e e' -> deferred e' = deferred e.
Proof. intros [_ Hr]. unfold reports_of in Hr. unfold deferred. congruence. Qed.

Lemma record_report_deferred r s : es_deferred_reports (record_report r s) = es_deferred_reports s.
Proof. unfold record_report. destruct (record_id _ _ _ _). by destruct (nr_source_sequence r). Qed.

(** A call defers at most the report it is given; a retry at most those that
    were deferred before. *)
Lemma for_each_grows {A} (f : A -> M Execution ExecutionError unit) l e :
  (forall x e, wp (f x) (fun _ e' => (deferred e' <= S (deferred e))%nat) (fun e' => (deferred e' <= S (deferred e))%nat) e) ->
  wp (for_each f l) (fun _ e' => (deferred e' <= length l + deferred e)%nat)
    (fun e' => (deferred e' <= length l + deferred e)%nat) e.
Proof.
  intros Hf. revert e. induction l as [|x l IH]; intros e; cbn [for_each length]; [wp_step; lia |].
  wp_step. eapply wp_mono; [apply Hf | |]; cbn beta; [| lia]. intros _ e1 H1.
  eapply wp_mono; [apply IH | |]; cbn beta; lia.
Qed.

Lemma defer_report_grows r e :
  wp (defer_report r) (fun _ e' => (deferred e' <= S (deferred e))%nat) (fun e' => (deferred e' <= S (deferred e))%nat) e.
Proof.
  unfold defer_report, on_state, update. do 2 wp_step. case_match; [wp_step; lia |].
  wp_step. wp_step; [lia |]. wp_step. unfold deferred. cbn. rewrite length_app. cbn. lia.
Qed.

Lemma apply_venue_report_at_grows fuel r e :
  wp (apply_venue_report_at fuel r) (fun _ e' => (deferred e' <= S (deferred e))%nat)
    (fun e' => (deferred e' <= S (deferred e))%nat) e.
Proof.
  revert r e. induction fuel as [|fuel IH]; intros r e; cbn [apply_venue_report_at]; unfold on_state, update;
    do 2 wp_step; (case_match; [wp_step; lia |]);
    (destruct (resolve_report _ r); [| apply defer_report_grows]); wp_step;
    (eapply wp_mono; [apply apply_resolved_report_resolved | |]); cbn beta;
    try (intros e1 H1%resolved_deferred; lia); intros _ e1 H1%resolved_deferred; do 2 wp_step;
    set (e2 := mkExecution _ _); (assert (H2 : deferred e2 = deferred e) by
      (unfold e2, deferred; cbn; by rewrite record_report_deferred)); clearbody e2;
    destruct (nr_kind r); try (wp_step; lia).
  all: do 4 wp_step; eapply wp_mono; [apply for_each_grows, IH | |]; cbn beta; unfold deferred in *; cbn in *; lia.
Qed.

(** Two depths that both reach the number of deferred reports agree. *)
Lemma for_each_agree {A} (f g : A -> M Execution ExecutionError unit) l n e :
  (forall x e, (deferred e <= n)%nat -> f x e = g x e) ->
  (forall x e, wp (f x) (fun _ e' => (deferred e' <= S (deferred e))%nat) (fun e' => (deferred e' <= S (deferred e))%nat) e) ->
  (deferred e + length l <= S n)%nat -> for_each f l e = for_each g l e.
Proof.
  intros Hfg Hf. revert e. induction l as [|x l IH]; intros e Hn; [done |]. cbn [for_each length] in *.
  unfold mbind, M_bind. rewrite <-Hfg by lia. specialize (Hf x e). unfold wp in Hf.
  destruct (f x e) as [e1 [u|err]]; [| done]. apply IH. lia.
Qed.

Lemma report_depth_zero m r e :
  deferred e = 0%nat -> apply_venue_report_at 0 r e = apply_venue_report_at m r e.
Proof.
  intros He. destruct m as [|m]; [done |]. cbn [apply_venue_report_at]. unfold on_state, mbind, M_bind, gets.
  case_match; [done |]. destruct (resolve_report _ r) as [z|]; [| done].
  pose proof (apply_resolved_report_resolved z r e) as Hres. unfold wp in Hres.
  destruct (apply_resolved_report z r e) as [e1 [u|err]]; [| done]. apply resolved_deferred in Hres.
  unfold update, modify. cbn [ex_state].
  assert (Hd : es_deferred_reports (record_report r (ex_state e1)) = []).
  { rewrite record_report_deferred. unfold deferred in *. by destruct (es_deferred_reports (ex_state e1)); [| cbn in *; lia]. }
  destruct (nr_kind r); try done; cbn [ex_state]; rewrite Hd; cbn; by destruct (record_report r (ex_state e1)); cbn in *; subst.
Qed.

Lemma report_depth_agree n m r e :
  (deferred e <= n)%nat -> (deferred e <= m)%nat ->
  apply_venue_report_at n r e = apply_venue_report_at m r e.
Proof.
  revert m r e. induction n as [|n IH]; intros m r e Hn Hm; [apply report_depth_zero; lia |].
  destruct m as [|m]; [symmetry; apply report_depth_zero; lia |].
  cbn [apply_venue_report_at]. unfold on_state, mbind, M_bind, gets.
  case_match; [done |]. destruct (resolve_report _ r) as [z|]; [| done].
  pose proof (apply_resolved_report_resolved z r e) as Hres. unfold wp in Hres.
  destruct (apply_resolved_report z r e) as [e1 [u|err]]; [| done]. apply resolved_deferred in Hres.
  unfold update, modify. cbn [ex_state].
  assert (Hd : length (es_deferred_reports (record_report r (ex_state e1))) = deferred e).
  { by rewrite record_report_deferred. }
  destruct (nr_kind r); try done; cbn [ex_state]; (destruct (deferred e) as [|d] eqn:Hde;
    [by destruct (es_deferred_reports _) |]).
  all: apply (for_each_agree _ _ _ (Nat.min n m)); [intros; apply IH; lia | intros; apply apply_venue_report_at_grows |].
  all: unfold deferred in *; cbn; rewrite Hd; lia.
Qed.

(** * quarcc-execution-engine: invariants of the engine

    The two indices of the orders agree with them, and the collections stay
    within their bounds. *)

(** ** The indices *)

Definition ident_local (i : Z * Z * Z * Side) : Z := i.1.1.1.
Definition ident_client (i : Z * Z * Z * Side) : Z := i.1.1.2.

Record index_ok (s : ExecutionSnapshot) : Prop := {
  ix_locals : map_Forall (fun l i => ident_local i = l /\ l < es_next_id s) (idents s);
  ix_clients : forall c l, es_client_to_local s !! c = Some l <->
    exists i, idents s !! l = Some i /\ ident_client i = c
}.

(** The collections a snapshot may be restored with. *)
Record bounded (s : ExecutionSnapshot) : Prop := {
  bd_version : es_version s = EXECUTION_SNAPSHOT_VERSION;
  bd_seen_limit : 0 <= ec_max_seen_reports (es_config s);
  bd_seen : Z.of_nat (size (es_seen_reports s)) <= ec_max_seen_reports (es_config s);
  bd_deferred : Z.of_nat (length (es_deferred_reports s)) <= ec_max_deferred_reports (es_config s)
}.
Definition orders_bounded (s : ExecutionSnapshot) : Prop :=
  Z.of_nat (size (es_orders s)) <= ec_max_orders (es_config s).

(** Operations that preserve a property of the engine. *)
Definition preserving (P : ExecutionSnapshot -> Prop) (e e' : Execution) : Prop := P (ex_state e) -> P (ex_state e').
#[export] Instance preserving_preorder P : PreOrder (preserving P).
Proof. split; [by intros e ? | intros a b c; unfold preserving; tauto]. Qed.

Lemma stays_mono {A} (R R' : Execution -> Execution -> Prop) (m : M Execution ExecutionError A) :
  (forall e e', R e e' -> R' e e') -> stays R m -> stays R' m.
Proof. intros HR Hm e. eapply wp_mono; [apply Hm | |]; cbn beta; eauto. Qed.

Lemma idents_size s s' : idents s' = idents s -> size (es_orders s') = size (es_orders s).
Proof.
  intros Hi. unfold idents in Hi. rewrite <-(map_size_fmap ident (es_orders s)), <-Hi. by rewrite map_size_fmap.
Qed.

Lemma reported_index e e' : reported e e' -> preserving index_ok e e'.
Proof.
  intros [_ (_ & _ & Hn & _) _ Hc Hi _] [I1 I2]. split; rewrite ?Hi, ?Hc, ?Hn; done.
Qed.
Lemma reported_orders e e' : reported e e' -> preserving orders_bounded e e'.
Proof.
  intros [_ (_ & Hc & _) _ _ Hi _]. unfold preserving, orders_bounded. by rewrite (idents_size _ _ Hi), Hc.
Qed.
Lemma resolved_bounded e e' : resolved e e' -> preserving bounded e e'.
Proof.
  intros [[_ (Hv & Hc & _) _ _ _ _] Hr] [B1 B2 B3 B4]. injection Hr as E1 _ E3.
  split; rewrite ?Hv, ?Hc, ?E1, ?E3; done.
Qed.

(** ** Bounds of the report sets *)

Lemma first_of_Some set : set <> ∅ -> exists first, first_of set = Some first /\ first ∈ set.
Proof.
  intros Hne. unfold first_of. destruct (merge_sort Z.le (elements set)) as [|x l] eqn:Hm.
  - exfalso. apply Hne, leibniz_equiv, elements_empty_inv. pose proof (merge_sort_Permutation Z.le (elements set)) as Hp.
    rewrite Hm in Hp. by apply Permutation_nil_l in Hp.
  - exists x. split; [done |]. apply elem_of_elements. rewrite <-(merge_sort_Permutation Z.le), Hm. set_solver.
Qed.

Lemma record_id_size max id set through :
  0 <= max -> Z.of_nat (size set) <= max ->
  Z.of_nat (size (record_id max id set through).1) <= max.
Proof.
  intros H0 Hs. unfold record_id. cbn zeta. destruct (Z.ltb_spec max (Z.of_nat (size ({[id]} ∪ set)))); [| done].
  destruct (first_of_Some ({[id]} ∪ set)) as (x & -> & Hx); [set_solver |]. cbn [fst].
  rewrite size_difference by set_solver. rewrite size_singleton.
  assert (size ({[id]} ∪ set) <= S (size set))%nat.
  { rewrite size_union_alt, size_singleton. pose proof (subseteq_size (set ∖ {[id]}) set) as Hsub.
    assert (set ∖ {[id]} ⊆ set) as Hd by set_solver. apply Hsub in Hd. lia. }
  lia.
Qed.

Lemma record_report_bounded r s : bounded s -> bounded (record_report r s).
Proof.
  intros [B1 B2 B3 B4]. pose proof (record_id_size (ec_max_seen_reports (es_config s)) (nr_report_id r)
    (es_seen_reports s) (es_reports_seen_through s) B2 B3) as Hr.
  unfold record_report. destruct (record_id _ _ _ _) as [seen through]. cbn [fst] in Hr.
  by destruct (nr_source_sequence r).
Qed.

Lemma stays_update_preserving (P : ExecutionSnapshot -> Prop) f :
  (forall s, P s -> P (f s)) -> stays (preserving P) (update f).
Proof. intros Hf. unfold update. stays_step. intros e He. by apply Hf. Qed.

Lemma defer_report_bounded r : stays (preserving bounded) (defer_report r).
Proof.
  intros e. unfold defer_report, on_state, update. do 2 wp_step. case_match; [wp_step; reflexivity |].
  wp_step. wp_step; [reflexivity |]. wp_step. guards. intros [B1 B2 B3 B4]. split; cbn; try done.
  rewrite length_app. cbn in *. lia.
Qed.

Lemma clear_deferred_bounded : stays (preserving bounded) (update (put_deferred [])).
Proof. apply stays_update_preserving. intros s [B1 B2 B3 B4]. split; cbn; try done. lia. Qed.

Lemma apply_venue_report_at_bounded fuel r : stays (preserving bounded) (apply_venue_report_at fuel r).
Proof.
  revert r. induction fuel as [|fuel IH]; intros r; cbn [apply_venue_report_at]; unfold on_state;
    (stays_step; [stays_step |]); (case_match; [stays_step |]);
    (destruct (resolve_report _ r); [| apply defer_report_bounded]);
    (stays_step; [eapply stays_mono; [apply resolved_bounded | apply apply_resolved_report_resolved] |]);
    (stays_step; [apply stays_update_preserving, record_report_bounded |]); destruct (nr_kind r); try stays_step;
    try stays_step; try apply clear_deferred_bounded; try stays_step; done.
Qed.

(** ** Intents *)

Definition killed (s : ExecutionSnapshot) : Prop := es_kill_switch_active s = true.

(** What every intent keeps. *)
Record intended (e e' : Execution) : Prop := {
  in_index : preserving index_ok e e';
  in_bounded : preserving bounded e e';
  in_orders : preserving orders_bounded e e';
  in_killed : preserving killed e e'
}.
#[export] Instance intended_preorder : PreOrder intended.
Proof.
  split; [by intros e; split; intros ? |].
  intros a b c [A1 A2 A3 A4] [B1 B2 B3 B4]. split; unfold preserving in *; tauto.
Qed.

Lemma resolved_intended e e' : resolved e e' -> intended e e'.
Proof.
  intros Hr. pose proof Hr as [Hp _]. split; [by apply reported_index | by apply resolved_bounded |
    by apply reported_orders |]. destruct Hp as [_ (_ & _ & _ & Hk) _ _ _ _]. unfold preserving, killed. by rewrite Hk.
Qed.
Lemma stays_intended_resolved {A} (m : M Execution ExecutionError A) : stays resolved m -> stays intended m.
Proof. apply stays_mono, resolved_intended. Qed.

Lemma index_ok_next_id s n : index_ok s -> es_next_id s <= n -> index_ok (put_next_id n s).
Proof.
  intros [I1 I2] Hn. split; [| done]. eapply map_Forall_impl; [exact I1 |]. cbn. intros l i [? ?]. split; [done | lia].
Qed.

Lemma next_id_wp e :
  wp next_id (fun n e' => n = es_next_id (ex_state e) /\
      e' = mkExecution (put_next_id (n + 1) (ex_state e)) (ex_output e)) (fun e' => e' = e) e.
Proof.
  unfold next_id, on_state, update. do 3 wp_step. wp_step; [done |]. unfold arithmetic in *. chk.
  do 3 wp_step. done.
Qed.
Lemma next_id_step e :
  intended e (mkExecution (put_next_id (es_next_id (ex_state e) + 1) (ex_state e)) (ex_output e)).
Proof.
  split; [intros Hi; apply index_ok_next_id; [done | lia] | by intros [] | by intros ? | by intros ?].
Qed.
Lemma next_id_intended : stays intended next_id.
Proof.
  intros e. eapply wp_mono; [apply next_id_wp | |]; cbn beta; [| intros e' ->; reflexivity].
  intros n e' [-> ->]. apply next_id_step.
Qed.

Lemma output_push_state action e :
  wp (output_push action) (fun _ e' => ex_state e' = ex_state e) (fun e' => e' = e) e.
Proof. unfold output_push. do 3 wp_step. wp_step; [done |]. by wp_step. Qed.
Lemma output_push_intended action : stays intended (output_push action).
Proof.
  intros e. eapply wp_mono; [apply output_push_state | |]; cbn beta; [| intros e' ->; reflexivity].
  intros _ e' He. split; unfold preserving; by rewrite He.
Qed.

Lemma stays_intended_update f :
  (forall s, idents (f s) = idents s /\ es_client_to_local (f s) = es_client_to_local s /\
    es_next_id (f s) = es_next_id s /\ es_version (f s) = es_version s /\ es_config (f s) = es_config s /\
    es_seen_reports (f s) = es_seen_reports s /\ es_deferred_reports (f s) = es_deferred_reports s /\
    (killed s -> killed (f s))) ->
  stays intended (update f).
Proof.
  intros Hf. unfold update. stays_step. intros e.
  destruct (Hf (ex_state e)) as (E1 & E2 & E3 & E4 & E5 & E6 & E7 & E8). split; unfold preserving; cbn [ex_state].
  - intros [I1 I2]. split; rewrite ?E1, ?E2, ?E3; done.
  - intros [B1 B2 B3 B4]. split; rewrite ?E4, ?E5, ?E6, ?E7; done.
  - unfold orders_bounded. by rewrite (idents_size _ _ E1), E5.
  - done.
Qed.

Lemma record_intent_intended n : stays intended (update (record_intent n)).
Proof. apply stays_intended_update. intros s. unfold record_intent. by destruct (record_id _ _ _ _). Qed.

(** ** Retiring and inserting orders *)

Lemma oldest_terminal_Some s l o :
  oldest_terminal s = Some (l, o) -> es_orders s !! l = Some o /\ lifecycle_is_terminal (mo_lifecycle o) = true.
Proof.
  unfold oldest_terminal. destruct (list_find _ _) as [[n [l' o']]|] eqn:Hf; [| done]. intros [= -> ->].
  apply list_find_Some in Hf as (Hl & Ht & _). split; [| done].
  apply list_elem_of_lookup_2 in Hl. by apply elem_of_entries in Hl.
Qed.

Lemma forget_order_fields l o s :
  index_ok s -> es_orders s !! l = Some o ->
  es_orders (forget_order l o s) = delete l (es_orders s) /\
  es_client_to_local (forget_order l o s) = delete (do_client_order_id (mo_desired o)) (es_client_to_local s).
Proof.
  intros [I1 I2] Ho. unfold forget_order.
  assert (Hc : es_client_to_local s !! do_client_order_id (mo_desired o) = Some l).
  { apply I2. exists (ident o). unfold idents. by rewrite lookup_fmap, Ho. }
  destruct (mo_venue_order_id o); cbn; by rewrite bool_decide_true.
Qed.

Lemma forget_order_same l o s :
  es_next_id (forget_order l o s) = es_next_id s /\ es_version (forget_order l o s) = es_version s /\
  es_config (forget_order l o s) = es_config s /\ es_kill_switch_active (forget_order l o s) = es_kill_switch_active s /\
  es_seen_reports (forget_order l o s) = es_seen_reports s /\
  es_deferred_reports (forget_order l o s) = es_deferred_reports s /\
  es_orders (forget_order l o s) = delete l (es_orders s) /\
  es_client_to_local (forget_order l o s) ⊆ es_client_to_local s.
Proof.
  unfold forget_order. destruct (mo_venue_order_id o); cbn; case_bool_decide; cbn;
    split_and!; try done; apply delete_subseteq.
Qed.

Lemma forget_order_index l o s :
  index_ok s -> es_orders s !! l = Some o -> index_ok (forget_order l o s).
Proof.
  intros Hs Ho. destruct (forget_order_fields l o s Hs Ho) as [E1 E2].
  destruct (forget_order_same l o s) as (E3 & _). destruct Hs as [I1 I2].
  assert (Hid : idents (forget_order l o s) = delete l (idents s)).
  { unfold idents. by rewrite E1, fmap_delete. }
  split; rewrite Hid; [rewrite E3; by apply map_Forall_delete |]. intros c k. rewrite E2.
  assert (Hl : idents s !! l = Some (ident o)) by (unfold idents; by rewrite lookup_fmap, Ho).
  assert (Hco : es_client_to_local s !! do_client_order_id (mo_desired o) = Some l) by (apply I2; eauto).
  rewrite !lookup_delete_Some, I2. split.
  - intros [Hne (i & Hi & Hc)]. exists i. split; [| done]. apply lookup_delete_Some. split; [| done].
    intros <-. apply Hne. rewrite Hl in Hi. injection Hi as <-. done.
  - intros (i & Hi & Hc). apply lookup_delete_Some in Hi as [Hne Hi]. split; [| by eauto].
    intros <-. assert (Hk : es_client_to_local s !! do_client_order_id (mo_desired o) = Some k) by (apply I2; eauto).
    congruence.
Qed.

Lemma insert_order_index client l o s :
  index_ok s -> es_client_to_local s !! client = None -> es_orders s !! l = None -> l < es_next_id s ->
  mo_local_order_id o = l -> do_client_order_id (mo_desired o) = client ->
  index_ok (insert_order client l o s).
Proof.
  intros [I1 I2] Hc Hl Hn Ho1 Ho2. unfold insert_order.
  assert (Hid : forall s', idents (put_orders (<[l := o]> (es_orders s)) s') = <[l := ident o]> (idents s)).
  { intros s'. unfold idents. cbn. by rewrite fmap_insert. }
  assert (Hln : idents s !! l = None) by (unfold idents; by rewrite lookup_fmap, Hl).
  split; cbn [es_orders]; rewrite (Hid _).
  - apply map_Forall_insert_2; [done | done].
  - intros c k. cbn. rewrite !lookup_insert_Some, I2. split.
    + intros [[<- <-]|[Hne (i & Hi & Hci)]]; [exists (ident o); split; [by rewrite lookup_insert_eq | exact Ho2] |].
      exists i. rewrite lookup_insert_ne; [done |]. intros <-. congruence.
    + intros (i & Hi & Hci). apply lookup_insert_Some in Hi as [[<- <-]|[Hne Hi]]; [left; by rewrite <-Ho2, <-Hci |].
      right. split; [| by exists i]. intros ->.
      assert (es_client_to_local s !! c = Some k) by (apply I2; eauto). congruence.
Qed.

(** Retiring forgets orders; when it succeeds there is room for one more. *)
Record shrunk (e e' : Execution) : Prop := {
  sh_intended : intended e e';
  sh_output : ex_output e' = ex_output e;
  sh_next : es_next_id (ex_state e') = es_next_id (ex_state e);
  sh_clients : es_client_to_local (ex_state e') ⊆ es_client_to_local (ex_state e);
  sh_orders : es_orders (ex_state e') ⊆ es_orders (ex_state e)
}.
#[export] Instance shrunk_preorder : PreOrder shrunk.
Proof.
  split; [by intros e; split |]. intros a b c [A1 A2 A3 A4 A5] [B1 B2 B3 B4 B5].
  split; [by etrans | congruence | congruence | by etrans | by etrans].
Qed.

Lemma forget_order_shrunk l o e :
  es_orders (ex_state e) !! l = Some o ->
  shrunk e (mkExecution (forget_order l o (ex_state e)) (ex_output e)).
Proof.
  intros Ho. destruct (forget_order_same l o (ex_state e)) as (E1 & E2 & E3 & E4 & E5 & E6 & E7 & E8).
  split; cbn; [| done | done | done | rewrite E7; apply delete_subseteq].
  split; unfold preserving; cbn.
  - intros Hi. by apply forget_order_index.
  - intros [B1 B2 B3 B4]. split; rewrite ?E2, ?E3, ?E5, ?E6; done.
  - unfold orders_bounded. rewrite E7, E3, map_size_delete_Some by eauto. lia.
  - unfold killed. by rewrite E4.
Qed.

Lemma retire_loop_wp fuel e :
  wp (retire_loop fuel)
    (fun _ e' => shrunk e e' /\ es_config (ex_state e') = es_config (ex_state e) /\
       ((size (es_orders (ex_state e)) < fuel)%nat ->
        Z.of_nat (size (es_orders (ex_state e'))) < ec_max_orders (es_config (ex_state e'))))
    (shrunk e) e.
Proof.
  revert e. induction fuel as [|fuel IH]; intros e; cbn [retire_loop]; unfold on_state, update.
  { wp_step. split_and!; [reflexivity | done | lia]. }
  do 2 wp_step. cbn [id]. destruct (Z.leb_spec (ec_max_orders (es_config (ex_state e))) (Z.of_nat (size (es_orders (ex_state e))))).
  2: { wp_step. split_and!; [reflexivity | done | lia]. }
  wp_step. wp_step; [reflexivity |]. destruct a as [l o].
  destruct (oldest_terminal (ex_state e)) as [[l' o']|] eqn:Hold; [| done]. injection H0 as -> ->.
  apply oldest_terminal_Some in Hold as [Ho _]. pose proof (forget_order_shrunk l o e Ho) as Hsh.
  destruct (forget_order_same l o (ex_state e)) as (_ & _ & E3 & _ & _ & _ & E7 & _).
  do 2 wp_step. eapply wp_mono; [apply IH | |]; cbn beta.
  - intros _ e' (H1 & H2 & H3). split_and!; [by etrans | by rewrite H2 |]. intros Hf. apply H3. cbn [ex_state].
    rewrite E7, map_size_delete_Some by eauto.
    assert (size (es_orders (ex_state e)) <> 0%nat) by (eapply map_size_ne_0_lookup_2; eauto). lia.
  - intros e' H1. by etrans.
Qed.

Lemma retire_wp e :
  wp retire_terminal_orders
    (fun _ e' => shrunk e e' /\ Z.of_nat (size (es_orders (ex_state e'))) < ec_max_orders (es_config (ex_state e')))
    (shrunk e) e.
Proof.
  unfold retire_terminal_orders, on_state. do 2 wp_step. eapply wp_mono; [apply retire_loop_wp | | done].
  cbn beta. intros _ e' (H1 & _ & H2). split; [done |]. apply H2. lia.
Qed.

Lemma intent_submit_intended order : stays intended (intent_submit order).
Proof.
  intros e. unfold intent_submit, on_state. do 2 wp_step. cbn [id]. wp_step. wp_step; [reflexivity |].
  wp_step. wp_step; [reflexivity |]. wp_step. wp_step; [reflexivity |]. guards.
  wp_step. eapply wp_mono; [apply retire_wp | | by intros e' []]. cbn beta. intros _ e1 [[S1 S2 S3 S4 S5] Hroom].
  wp_step. eapply wp_mono; [apply next_id_wp | | by intros e' ->]. cbn beta. intros l e2 [-> ->].
  set (e2 := mkExecution _ _). assert (H2 : intended e e2) by (etrans; [exact S1 | apply next_id_step]).
  wp_step. eapply wp_mono; [apply next_id_wp | | by intros e' ->]. cbn beta. intros action_id e3 [-> ->].
  set (e3 := mkExecution _ _). assert (H3 : intended e e3) by (etrans; [exact H2 | apply next_id_step]).
  wp_step. eapply wp_mono; [apply output_push_state | | by intros e' ->]. cbn beta. intros _ e4 H4.
  unfold update. wp_step. set (l := es_next_id (ex_state e1)). set (client := do_client_order_id order).
  assert (Hc : es_client_to_local (ex_state e1) !! client = None).
  { destruct (_ !! client) as [k|] eqn:Hk; [| done]. eapply lookup_weaken in Hk; [| exact S4].
    match goal with Hd : bool_decide (is_Some _) = false |- _ => apply bool_decide_eq_false in Hd; destruct Hd; eauto end. }
  split; unfold preserving; cbn [ex_state]; rewrite H4.
  - intros Hi. pose proof (in_index _ _ H3 Hi) as Hi3. apply insert_order_index; try done; [| cbn; fold l; lia].
    destruct (es_orders _ !! l) as [o|] eqn:Ho; [| done]. cbn in Ho.
    pose proof (in_index _ _ S1 Hi) as [J1 _].
    destruct (J1 l (ident o)) as [_ Hlt]; [unfold idents; by rewrite lookup_fmap, Ho | unfold l in Hlt; lia].
  - intros Hb. by destruct (in_bounded _ _ H3 Hb).
  - intros _. unfold orders_bounded. cbn. rewrite map_size_insert. fold l. destruct (es_orders (ex_state e1) !! l); cbn; lia.
  - intros Hk. exact (in_killed _ _ H3 Hk).
Qed.

(** ** Every intent *)

Lemma local_of_client_intended client : stays intended (local_of_client client).
Proof. unfold local_of_client, on_state. repeat stays_step. Qed.
Lemma get_order_intended l : stays intended (get_order l).
Proof. apply stays_intended_resolved, stays_get_order. Qed.

Ltac intended_step :=
  first [ stays_step | apply local_of_client_intended | apply get_order_intended | apply next_id_intended
        | apply output_push_intended | by apply stays_intended_resolved, stays_resolved_order
        | by apply stays_intended_resolved, stays_resolved_alter ].

Lemma submit_intent_intended intent : stays intended (submit_intent intent).
Proof.
  unfold submit_intent, on_state. stays_step; [stays_step |]. case_match; [stays_step |].
  stays_step; [| apply record_intent_intended].
  destruct intent; [apply intent_submit_intended | | | |];
    unfold intent_cancel, intent_replace, intent_query, intent_kill_switch, query_order, cancel_open, set_lifecycle, on_state;
    repeat intended_step.
  by apply stays_intended_update.
Qed.

(** ** Reports and reconciliation *)

(** What every call keeps. *)
Definition sound (s : ExecutionSnapshot) : Prop := index_ok s /\ bounded s.
Definition maintained (e e' : Execution) : Prop := preserving sound e e' /\ preserving killed e e'.
#[export] Instance maintained_preorder : PreOrder maintained.
Proof.
  split; [by intros e; split; intros ? |]. intros a b c [A1 A2] [B1 B2]. split; unfold preserving in *; tauto.
Qed.

Lemma stays_maintained_intended {A} (m : M Execution ExecutionError A) : stays intended m -> stays maintained m.
Proof.
  apply stays_mono. intros e e' [I1 I2 I3 I4]. split; [| done]. intros [? ?]. split; auto.
Qed.

Lemma reported_bounded_maintained {A} (m : M Execution ExecutionError A) :
  stays reported m -> stays (preserving bounded) m -> stays maintained m.
Proof.
  intros H1 H2 e. specialize (H1 e). specialize (H2 e). unfold wp in *.
  assert (Hm : forall e', reported e e' -> preserving bounded e e' -> maintained e e').
  { intros e' Hr Hb. split; [intros [? ?]; split; [by eapply reported_index | by apply Hb] |].
    destruct Hr as [_ (_ & _ & _ & Hk) _ _ _ _]. unfold preserving, killed. by rewrite Hk. }
  destruct (m e) as [e' [a|err]]; by apply Hm.
Qed.

Lemma apply_venue_report_maintained r : stays maintained (apply_venue_report r).
Proof.
  apply reported_bounded_maintained; [apply apply_venue_report_reported |].
  unfold apply_venue_report, on_state. stays_step; [stays_step | apply apply_venue_report_at_bounded].
Qed.
Lemma retry_deferred_maintained : stays maintained retry_deferred.
Proof.
  apply reported_bounded_maintained; [apply retry_deferred_reported |].
  unfold retry_deferred, retry_deferred_at, on_state. stays_step; [stays_step |]. stays_step; [stays_step |].
  stays_step; [apply clear_deferred_bounded |]. stays_step. apply apply_venue_report_at_bounded.
Qed.

Lemma adopt_order_maintained client d venue filled e :
  es_client_to_local (ex_state e) !! client = None -> do_client_order_id d = client ->
  wp (local ← next_id;
      update (insert_order client local (new_order local d venue OrderLifecycle.ExternallyDiscovered filled));;
      mret local) (fun _ => maintained e) (maintained e) e.
Proof.
  intros Hc Hd. wp_step. eapply wp_mono; [apply next_id_wp | |]; cbn beta.
  2: { intros e' ->. reflexivity. }
  intros l e1 [-> ->]. unfold update. do 3 wp_step. cbn [ex_state].
  split; unfold preserving; cbn [ex_state]; [| done]. intros [Hi [B1 B2 B3 B4]]. split; [| by split].
  apply insert_order_index; try done; [| | cbn; lia].
  - apply index_ok_next_id; [done | lia].
  - cbn. destruct (es_orders (ex_state e) !! _) as [o|] eqn:Ho; [| done]. destruct Hi as [J1 _].
    destruct (J1 (es_next_id (ex_state e)) (ident o)) as [_ Hlt]; [unfold idents; by rewrite lookup_fmap, Ho | lia].
Qed.

Lemma reconcile_order_maintained external : stays maintained (reconcile_order external).
Proof.
  unfold reconcile_order. cbn zeta. set (client := default _ _). intros e. wp_step. unfold on_state. wp_step.
  wp_step. apply wp_mono with (Q := fun _ => maintained e) (X := maintained e); [| | done].
  { destruct (_ !! client) as [l|] eqn:Hc; [wp_step; reflexivity | by apply adopt_order_maintained]. }
  intros l e1 H1.
  eapply wp_mono with (Q := fun _ => maintained e1) (X := maintained e1); [| intros; by etrans | intros; by etrans].
  revert e1 H1. intros e1 _.
  assert (Hk : stays maintained (bind_venue_id l (Some (ao_venue_order_id external));;
    alter_order (fun o =>
      let o := order_with_filled (ao_filled_quantity external) o in
      if bool_decide (mo_lifecycle o = OrderLifecycle.ExternallyDiscovered) then o
      else order_with_lifecycle (working o) o) l;; mret l)); [| apply Hk].
  stays_step; [apply stays_maintained_intended, stays_intended_resolved, stays_bind_venue |].
  stays_step; [| stays_step]. apply stays_maintained_intended, stays_intended_update. intros s.
  split_and!; try done. apply idents_alter. intros o. cbn. by case_bool_decide.
Qed.

Lemma reconcile_maintained snapshot : stays maintained (reconcile snapshot).
Proof.
  unfold reconcile, on_state. stays_step; [stays_step |]. stays_step; [stays_step |].
  stays_step.
  { generalize (av_open_orders snapshot). intros externals. induction externals as [|x externals IH]; cbn [reconcile_orders];
      [stays_step |]. stays_step; [apply reconcile_order_maintained |]. stays_step; [done | stays_step]. }
  stays_step; [stays_step |]. stays_step.
  { stays_step. unfold query_order. apply stays_maintained_intended. repeat intended_step. }
  stays_step; [by apply stays_maintained_intended, stays_intended_update |].
  stays_step; [by apply stays_maintained_intended, stays_intended_update |].
  apply retry_deferred_maintained.
Qed.

Lemma execution_call_maintained call : stays maintained (execution_call call).
Proof.
  destruct call; cbn [execution_call].
  - apply stays_maintained_intended, submit_intent_intended.
  - unfold apply_market_data. stays_step; by apply stays_maintained_intended, stays_intended_update.
  - apply apply_venue_report_maintained.
  - apply reconcile_maintained.
Qed.

Lemma run_execution_state limit call s :
  exists e, (run_execution limit call s).1 = ex_state e /\
    maintained (mkExecution s (mkExecutionActionBuffer limit [])) e.
Proof.
  unfold run_execution. pose proof (execution_call_maintained call (mkExecution s (mkExecutionActionBuffer limit []))) as Hw.
  unfold wp in Hw. destruct (execution_call call _) as [e [u|err]]; by exists e.
Qed.

Lemma run_executions_sound limit calls s : sound s -> sound (run_executions limit calls s).
Proof.
  unfold run_executions. revert s. induction calls as [|call calls IH]; intros s Hs; [done |]. cbn [foldl].
  apply IH. destruct (run_execution_state limit call s) as (e & -> & Hm & _). by apply Hm.
Qed.
Lemma run_executions_killed limit calls s : killed s -> killed (run_executions limit calls s).
Proof.
  unfold run_executions. revert s. induction calls as [|call calls IH]; intros s Hs; [done |]. cbn [foldl].
  apply IH. destruct (run_execution_state limit call s) as (e & -> & _ & Hm). by apply Hm.
Qed.

Lemma empty_sound c : 0 <= ec_max_seen_reports c -> 0 <= ec_max_deferred_reports c -> sound (ExecutionSnapshot_empty c).
Proof.
  intros Hs Hd.
  assert (Hi : idents (ExecutionSnapshot_empty c) = ∅) by (unfold idents; apply fmap_empty).
  split; split; rewrite ?Hi.
  - apply map_Forall_empty.
  - intros c' l. split; [intros Hx; by vm_compute in Hx | intros (i & Hx & _); by vm_compute in Hx].
  - done.
  - done.
  - cbn. rewrite size_empty. lia.
  - done.
Qed.
