(* ===== verification/ExecutionTheorems.v ===== *)
(** * quarcc-execution-engine: what the engine promises

    Exact indices, restorable snapshots, positions explained by fills,
    termination of the retries, the kill switch, and two defects. *)

From S2P Require Import Prelude Ordered MarketEvents Hoare Execution ExecutionFacts.
#[local] Open Scope list_scope.

Section claims.
Context (c : ExecutionConfig) (limit : Z).
Hypothesis Hseen : 0 <= ec_max_seen_reports c.
Hypothesis Hdeferred : 0 <= ec_max_deferred_reports c.

Lemma run_sound calls : sound (run_executions limit calls (QuarccExecutionEngine_new c)).
Proof. apply run_executions_sound. by apply empty_sound. Qed.

(** whatever the calls and their failures, looking an order up by its
    client identifier finds exactly the managed order with that identifier:
    the index has no dangling and no missing entry, no two orders share a
    client identifier, and every order is filed under its own local
    identifier, which was issued before. *)
Theorem execution_index_exact calls :
  let s := run_executions limit calls (QuarccExecutionEngine_new c) in
  (forall client o, order_by_client s client = Some o <->
     exists l, es_orders s !! l = Some o /\ do_client_order_id (mo_desired o) = client) /\
  (forall l o, es_orders s !! l = Some o -> mo_local_order_id o = l /\ l < es_next_id s).
Proof.
  intros s. destruct (run_sound calls) as [[I1 I2] _]. fold s in I1, I2. unfold idents in I1, I2.
  split.
  - intros client o. unfold order_by_client. split.
    + intros (l & Hl & Ho)%bind_Some. apply I2 in Hl as (i & Hi & Hc). rewrite lookup_fmap, Ho in Hi.
      injection Hi as <-. by exists l.
    + intros (l & Ho & Hc). apply bind_Some. exists l. split; [| done]. apply I2. exists (ident o).
      by rewrite lookup_fmap, Ho.
  - intros l o Ho. destruct (I1 l (ident o)); [by rewrite lookup_fmap, Ho | done].
Qed.
End claims.

(** ** Restorable snapshots *)

Definition is_reconcile (call : ExecutionCall) : bool :=
  match call with CallReconcile _ => true | _ => false end.

Lemma call_orders_bounded limit call s :
  is_reconcile call = false -> orders_bounded s -> orders_bounded (run_execution limit call s).1.
Proof.
  intros Hr Hs. assert (Hk : stays (preserving orders_bounded) (execution_call call)).
  { destruct call; cbn [execution_call]; try done.
    - eapply stays_mono; [apply in_orders | apply submit_intent_intended].
    - unfold apply_market_data. eapply stays_mono; [apply in_orders |]. stays_step; by apply stays_intended_update.
    - eapply stays_mono; [apply reported_orders | apply apply_venue_report_reported]. }
  specialize (Hk (mkExecution s (mkExecutionActionBuffer limit []))). unfold wp in Hk. unfold run_execution.
  destruct (execution_call call _) as [e [u|err]]; by apply Hk.
Qed.

Lemma calls_orders_bounded limit calls s :
  Forall (fun call => is_reconcile call = false) calls -> orders_bounded s -> orders_bounded (run_executions limit calls s).
Proof.
  intros Hc. unfold run_executions. revert s. induction Hc as [|call calls Hcall _ IH]; intros s Hs; [done |].
  cbn [foldl]. by apply IH, call_orders_bounded.
Qed.

Lemma restore_ok s : sound s -> orders_bounded s -> execution_restore s = Ok s.
Proof.
  intros [_ [B1 B2 B3 B4]] Ho. unfold orders_bounded in Ho. unfold execution_restore. rewrite B1, Z.eqb_refl.
  cbn [mbind result_bind err_if negb]. rewrite !(proj2 (Z.ltb_ge _ _)) by done. done.
Qed.

(** C39: whatever intents, reports and market data an engine is fed, and
    whichever of them fail, its snapshot can be restored: the orders, the seen
    reports and the deferred reports stay within the configured bounds. *)
Theorem execution_snapshot_restores c limit calls :
  0 <= ec_max_orders c -> 0 <= ec_max_seen_reports c -> 0 <= ec_max_deferred_reports c ->
  Forall (fun call => is_reconcile call = false) calls ->
  execution_restore (run_executions limit calls (QuarccExecutionEngine_new c))
  = Ok (run_executions limit calls (QuarccExecutionEngine_new c)).
Proof.
  intros H1 H2 H3 Hc. apply restore_ok; [by apply run_sound |]. by apply calls_orders_bounded.
Qed.

(** ** Positions *)

(** C38: the reports of a venue, in any order, with repetitions, early ones that
    are deferred and wrong ones that are refused included, change the position
    in an instrument by exactly the signed change of the filled quantities of
    the managed orders in it. *)
Theorem reports_conserve_positions limit reports s instrument :
  unexplained instrument (run_executions limit (CallReport <$> reports) s) = unexplained instrument s.
Proof.
  unfold run_executions. revert s. induction reports as [|r reports IH]; intros s; [done |].
  cbn [fmap list_fmap foldl]. rewrite IH. unfold run_execution.
  pose proof (apply_venue_report_reported r (mkExecution s (mkExecutionActionBuffer limit []))) as Hw. unfold wp in Hw.
  cbn [execution_call]. destruct (apply_venue_report r _) as [e [u|err]]; apply Hw.
Qed.

(** C40: the mutual recursion of [apply_venue_report] and [retry_deferred]
    ends: calls nest at most as deep as there are deferred reports, so that
    any larger bound on the depth gives the same result. *)
Theorem report_depth_suffices fuel r e :
  (length (es_deferred_reports (ex_state e)) <= fuel)%nat ->
  apply_venue_report_at fuel r e = apply_venue_report r e.
Proof.
  intros Hf. unfold apply_venue_report, on_state, mbind, M_bind, gets. apply report_depth_agree; unfold deferred; lia.
Qed.

(** a defect.  When the first deferred report is refused while the
    deferred reports are retried, the retry fails and the reports behind it
    are gone: they are neither applied, nor recorded as seen, nor deferred
    any more. *)
Theorem failed_retry_drops_reports e report rest local e' err :
  es_deferred_reports (ex_state e) = report :: rest ->
  let e0 := mkExecution (put_deferred [] (ex_state e)) (ex_output e) in
  report_seen (ex_state e0) report = false -> resolve_report (ex_state e0) report = Some local ->
  apply_resolved_report local report e0 = (e', Err err) ->
  retry_deferred e = (e', Err err) /\ es_deferred_reports (ex_state e') = [] /\
  es_seen_reports (ex_state e') = es_seen_reports (ex_state e) /\
  es_reports_seen_through (ex_state e') = es_reports_seen_through (ex_state e).
Proof.
  intros Hd e0 Hs Hr Ha.
  pose proof (wp_Err _ _ _ _ _ _ (apply_resolved_report_resolved local report e0) Ha) as [_ Hrep].
  injection Hrep as E1 E2 E3. split; [| by split_and!].
  assert (Hone : forall fuel, apply_venue_report_at fuel report e0 = (e', Err err)).
  { intros fuel. destruct fuel; cbn [apply_venue_report_at]; unfold on_state, mbind, M_bind, gets; cbn [id];
      by rewrite Hs, Hr, Ha. }
  unfold retry_deferred, retry_deferred_at, on_state, update, mbind, M_bind, gets, modify. rewrite Hd.
  fold e0. cbn [for_each]. unfold mbind, M_bind. by rewrite Hone.
Qed.

(** ** Reconciliation *)

Definition table (e : Execution) :=
  (size (es_orders (ex_state e)), es_config (ex_state e), es_version (ex_state e)).
Definition same_table (e e' : Execution) : Prop := table e' = table e.
#[local] Instance same_table_preorder : PreOrder same_table.
Proof. split; [done |]. unfold same_table. intros a b d ??. congruence. Qed.

Lemma reported_table e e' : reported e e' -> same_table e e'.
Proof.
  intros [_ (Hv & Hc & _) _ _ Hi _]. unfold same_table, table. by rewrite (idents_size _ _ Hi), Hc, Hv.
Qed.
Lemma query_table l v : stays same_table (query_order l v).
Proof.
  intros e. unfold query_order. wp_step. eapply wp_mono; [apply next_id_wp | | by intros e' ->]. cbn beta.
  intros n e1 [-> ->]. eapply wp_mono; [apply output_push_state | | by intros e' ->]. cbn beta.
  intros _ e2 H2. unfold same_table, table. by rewrite H2.
Qed.

Definition client_of (external : AuthoritativeOpenOrder) : Z :=
  default (do_client_order_id (ao_order external)) (ao_client_order_id external).

Lemma reconcile_new_order external e :
  index_ok (ex_state e) -> es_client_to_local (ex_state e) !! client_of external = None ->
  wp (reconcile_order external)
    (fun _ e' => table e' = (S (size (es_orders (ex_state e))), es_config (ex_state e), es_version (ex_state e)))
    (fun _ => True) e.
Proof.
  intros Hi Hc. unfold reconcile_order, on_state, update. cbn zeta. fold (client_of external). do 2 wp_step.
  rewrite Hc. do 2 wp_step. eapply wp_mono; [apply next_id_wp | | done]. cbn beta. intros l e1 [-> ->].
  do 3 wp_step. set (e2 := mkExecution _ _).
  assert (H2 : table e2 = (S (size (es_orders (ex_state e))), es_config (ex_state e), es_version (ex_state e))).
  { unfold table, e2. cbn. rewrite map_size_insert_None; [done |].
    destruct (es_orders (ex_state e) !! _) as [o|] eqn:Ho; [| done]. destruct Hi as [J1 _].
    destruct (J1 (es_next_id (ex_state e)) (ident o)) as [_ Hlt]; [unfold idents; by rewrite lookup_fmap, Ho | lia]. }
  clearbody e2. rewrite <-H2.
  assert (Hk : forall l f, (forall o, ident (f o) = ident o) ->
    stays same_table (bind_venue_id l (Some (ao_venue_order_id external));; alter_order f l;; mret l)).
  { intros l f Hf. stays_step.
    - eapply stays_mono; [apply reported_table |]. apply stays_resolved, stays_bind_venue.
    - stays_step; [| stays_step]. unfold alter_order, update. stays_step. intros e3. unfold same_table, table. cbn.
      do 2 f_equal. by rewrite <-(map_size_fmap ident), idents_alter, map_size_fmap. }
  eapply wp_mono; [apply Hk | done | done]. intros o. cbn. by case_bool_decide.
Qed.

(** a defect.  [reconcile] does not make room for the orders it discovers:
    when the table of orders is full and the venue reports an open order that
    the engine does not know, a successful reconciliation leaves more orders
    than the bound, and the engine's own snapshot cannot be restored. *)
Theorem reconcile_breaks_restore limit snapshot external s s' actions :
  sound s -> Z.of_nat (size (es_orders s)) = ec_max_orders (es_config s) ->
  av_open_orders snapshot = [external] -> es_client_to_local s !! client_of external = None ->
  run_execution limit (CallReconcile snapshot) s = (s', Ok actions) ->
  execution_restore s' = Err (ExecutionError.BufferFull (ec_max_orders (es_config s))).
Proof.
  intros Hs Hsz Hopen Hc Hrun. set (e := mkExecution s (mkExecutionActionBuffer limit [])).
  assert (Hw : wp (reconcile snapshot)
    (fun _ e' => table e' = (S (size (es_orders s)), es_config s, es_version s)) (fun _ => True) e).
  { unfold reconcile, on_state. do 3 wp_step. wp_step; [done |]. rewrite Hopen. cbn [reconcile_orders].
    do 2 wp_step. eapply wp_mono; [apply reconcile_new_order; [apply Hs | done] | | done]. cbn beta.
    intros l e1 H1. do 5 wp_step.
    eapply wp_mono with (Q := fun _ => same_table e1) (X := same_table e1);
      [| intros u e2 H2; unfold same_table in H2; by rewrite H2 | done].
    enough (Hk : forall missing, stays same_table (for_each (fun x => query_order x.1 (mo_venue_order_id x.2)) missing;;
      update (put_positions (authoritative_positions (av_positions snapshot)));;
      update (put_last_venue_sequence (av_committed_sequence snapshot));; retry_deferred)) by apply Hk.
    intros missing. stays_step; [stays_step; apply query_table |]. stays_step; [unfold update; by stays_step |].
    stays_step; [unfold update; by stays_step |].
    eapply stays_mono; [apply reported_table | apply retry_deferred_reported]. }
  unfold run_execution in Hrun. cbn [execution_call] in Hrun. fold e in Hrun. unfold wp in Hw.
  destruct (reconcile snapshot e) as [e' [u|err]]; [| done]. injection Hrun as <- _.
  injection Hw as E1 E2 E3. destruct Hs as [_ [B1 _ _ _]]. unfold execution_restore. rewrite E3, B1, Z.eqb_refl, E2, E1.
  cbn [mbind result_bind err_if negb]. rewrite (proj2 (Z.ltb_lt _ _)) by lia. done.
Qed.

(** ** The kill switch *)

Definition is_submit (a : ExecutionAction) : bool := match a with ActionSubmit _ _ _ => true | _ => false end.

(** With the switch on, no submission is emitted. *)
Definition silenced (e : Execution) : Prop :=
  killed (ex_state e) /\ Forall (fun a => is_submit a = false) (ab_actions (ex_output e)).
Definition silences (e e' : Execution) : Prop := silenced e -> silenced e'.
#[local] Instance silences_preorder : PreOrder silences.
Proof. split; unfold silences; [by intros e ? | intros a b d; tauto]. Qed.

Lemma reported_silences e e' : reported e e' -> silences e e'.
Proof. intros [Ho (_ & _ & _ & Hk) _ _ _ _] [H1 H2]. unfold silenced, killed. by rewrite Hk, Ho. Qed.
Lemma stays_silences_resolved {A} (m : M Execution ExecutionError A) : stays resolved m -> stays silences m.
Proof. apply stays_mono. intros e e' [Hr _]. by apply reported_silences. Qed.
Lemma stays_silences_update f :
  (forall s, killed s -> killed (f s)) -> stays silences (update f).
Proof. intros Hf. unfold update. stays_step. intros e [H1 H2]. split; [by apply Hf | done]. Qed.
Lemma next_id_silences : stays silences next_id.
Proof. intros e. eapply wp_mono; [apply next_id_wp | intros n e' [-> ->] Hs; exact Hs | intros e' -> Hs; exact Hs]. Qed.
Lemma output_push_silences a : is_submit a = false -> stays silences (output_push a).
Proof.
  intros Ha e. unfold output_push. do 3 wp_step. wp_step; [by intros ? |]. wp_step. intros [H1 H2].
  split; [done |]. cbn. apply Forall_app. split; [done | by apply Forall_singleton].
Qed.
Lemma intent_submit_silences order : stays silences (intent_submit order).
Proof.
  intros e. unfold intent_submit, on_state. do 2 wp_step. cbn [id]. unfold wp, mbind at 1, M_bind at 1.
  destruct (es_kill_switch_active (ex_state e)) eqn:Hk; cbn [refuse_if throw]; [by intros ? |].
  match goal with |- match ?m with _ => _ end => destruct m as [e' [u|err]] end; intros [H1 _]; congruence.
Qed.

Ltac silences_step :=
  first [ stays_step | apply next_id_silences | by apply output_push_silences
        | apply stays_silences_resolved, stays_get_order
        | by apply stays_silences_resolved, stays_resolved_order
        | by apply stays_silences_resolved, stays_resolved_alter
        | apply stays_silences_resolved, stays_bind_venue
        | by apply stays_silences_update ].

Lemma execution_call_silences call : stays silences (execution_call call).
Proof.
  destruct call; cbn [execution_call].
  - unfold submit_intent, on_state. stays_step; [stays_step |]. case_match; [stays_step |]. stays_step.
    + destruct intent; [apply intent_submit_silences | | | |];
        unfold intent_cancel, intent_replace, intent_query, intent_kill_switch, query_order, cancel_open, set_lifecycle,
          local_of_client, on_state; repeat silences_step.
    + apply stays_silences_update. intros s Hs. unfold record_intent. by destruct (record_id _ _ _ _).
  - unfold apply_market_data. repeat silences_step.
  - eapply stays_mono; [apply reported_silences | apply apply_venue_report_reported].
  - unfold reconcile, on_state. stays_step; [stays_step |]. stays_step; [stays_step |]. stays_step.
    + generalize (av_open_orders snapshot). intros externals. induction externals as [|x externals IH];
        cbn [reconcile_orders]; [stays_step |]. stays_step; [| stays_step; [done | stays_step]].
      unfold reconcile_order, on_state. cbn zeta. stays_step; [stays_step |]. stays_step.
      * destruct a1; repeat silences_step.
      * repeat silences_step.
    + unfold query_order. stays_step; [stays_step |]. stays_step; [repeat silences_step |].
      stays_step; [silences_step |]. stays_step; [silences_step |].
      eapply stays_mono; [apply reported_silences | apply retry_deferred_reported].
Qed.

(** What the loop of the switch does to the orders and the actions. *)
Definition cancel_target (a : ExecutionAction) : option Z :=
  match a with ActionCancel _ l _ => Some l | _ => None end.
Definition cancel_in (orders : gmap Z ManagedOrder) (l : Z) : gmap Z ManagedOrder :=
  alter (order_with_lifecycle OrderLifecycle.PendingCancel) l orders.

Lemma cancel_open_wp opens e :
  wp (for_each cancel_open opens)
    (fun _ e' => es_orders (ex_state e') = foldl cancel_in (es_orders (ex_state e)) opens.*1 /\
       omap cancel_target (ab_actions (ex_output e')) = omap cancel_target (ab_actions (ex_output e)) ++ opens.*1)
    (fun _ => True) e.
Proof.
  revert e. induction opens as [|[l o] opens IH]; intros e; cbn [for_each].
  { wp_step. by rewrite app_nil_r. }
  wp_step. unfold cancel_open at 1. wp_step. eapply wp_mono; [apply next_id_wp | | done]. cbn beta. intros n e1 [-> ->].
  unfold output_push, alter_order, update. do 4 wp_step. wp_step; [done |]. do 2 wp_step.
  eapply wp_mono; [apply IH | | done]. cbn beta. intros _ e' [H1 H2]. split; [exact H1 |].
  rewrite H2. cbn [ex_output ab_actions]. rewrite omap_app, <-app_assoc. done.
Qed.

Lemma foldl_cancel_lookup ls orders k :
  foldl cancel_in orders ls !! k =
  if bool_decide (k ∈ ls) then order_with_lifecycle OrderLifecycle.PendingCancel <$> orders !! k else orders !! k.
Proof.
  revert orders. induction ls as [|l ls IH]; intros orders; cbn [foldl]; [by rewrite bool_decide_false by set_solver |].
  rewrite IH. unfold cancel_in. destruct (decide (k = l)) as [->|Hne].
  - rewrite lookup_alter_eq, (bool_decide_true (l ∈ l :: ls)) by set_solver.
    case_bool_decide; [| done]. by destruct (orders !! l).
  - rewrite lookup_alter_ne by done. rewrite (bool_decide_ext (k ∈ l :: ls) (k ∈ ls)) by set_solver. done.
Qed.

(** a kill-switch intent that succeeds asks the venue to cancel every open
    order, once each and in order, and leaves every order closed, quarantined
    or pending cancel; from then on, whatever calls follow, no call ever emits
    a submission. *)
Theorem kill_switch_is_final limit id s s' actions :
  intent_processed s id = false ->
  run_execution limit (CallIntent (IntentKillSwitch id)) s = (s', Ok actions) ->
  omap cancel_target actions = (open_orders s).*1 /\
  (forall l o, es_orders s' !! l = Some o -> lifecycle_is_open (mo_lifecycle o) = true ->
     mo_lifecycle o = OrderLifecycle.PendingCancel) /\
  forall calls call s'' emitted, run_execution limit call (run_executions limit calls s') = (s'', Ok emitted) ->
    Forall (fun a => is_submit a = false) emitted.
Proof.
  intros Hnew Hrun. set (e := mkExecution s (mkExecutionActionBuffer limit [])).
  assert (Hw : wp (submit_intent (IntentKillSwitch id))
    (fun _ e' => killed (ex_state e') /\ es_orders (ex_state e') = foldl cancel_in (es_orders s) (open_orders s).*1 /\
       omap cancel_target (ab_actions (ex_output e')) = (open_orders s).*1) (fun _ => True) e).
  { unfold submit_intent, on_state. do 2 wp_step. cbn [ex_state intent_id Datatypes.id e]. rewrite Hnew.
    wp_step. unfold intent_kill_switch, on_state, update at 1. do 4 wp_step.
    set (e1 := mkExecution _ _). change (open_orders (ex_state e1)) with (open_orders s).
    assert (Hkill : wp (for_each cancel_open (open_orders s)) (fun _ e2 => killed (ex_state e2)) (fun _ => True) e1).
    { assert (Hk : stays (preserving killed) (for_each cancel_open (open_orders s))).
      { eapply stays_mono; [apply in_killed |]. unfold cancel_open. repeat intended_step. }
      eapply wp_mono; [apply Hk | intros ? ? H; by apply H | done]. }
    pose proof (cancel_open_wp (open_orders s) e1) as Ho. unfold wp in Hkill, Ho |- *.
    destruct (for_each cancel_open _ e1) as [e2 [u|err]]; [| done]. cbn.
    unfold record_intent. destruct (record_id _ _ _ _). cbn. destruct Ho. by split_and!. }
  unfold run_execution in Hrun. cbn [execution_call] in Hrun. fold e in Hrun. unfold wp in Hw.
  destruct (submit_intent _ e) as [e' [u|err]]; [| done]. injection Hrun as <- <-.
  destruct Hw as (Hk & Ho & Ha). split_and!; [done | |].
  - intros l o Hl Hopen. rewrite Ho, foldl_cancel_lookup in Hl. case_bool_decide as Hin.
    + by destruct (es_orders s !! l); simplify_eq/=.
    + destruct Hin. apply list_elem_of_fmap. exists (l, o). split; [done |]. unfold open_orders.
      apply list_elem_of_filter. split; [done | by apply elem_of_entries].
  - intros calls call s'' emitted Hcall. unfold run_execution in Hcall.
    set (e2 := mkExecution _ _) in Hcall.
    assert (Hs : silenced e2) by (split; [by apply run_executions_killed | constructor]).
    pose proof (execution_call_silences call e2) as Hq. unfold wp in Hq.
    destruct (execution_call call e2) as [e3 [u3|err]]; [| done]. injection Hcall as _ <-. by apply Hq.
Qed.

(** ** A participant *)

Module SampleExecution.
Definition config : ExecutionConfig := mkExecutionConfig 2 8 8 4 100 1000.
Definition order (client quantity : Z) : DesiredOrder :=
  mkDesiredOrder client 7 1 Buy quantity (Limit 10) false.
Definition report (id : Z) (local : option Z) (venue : option string) (kind : VenueReportKind) : NormalizedVenueReport :=
  mkNormalizedVenueReport id (Some id) None local venue None kind.
(** Two orders, local 1 and 3; the first is accepted, then partly filled. *)
Definition calls : list ExecutionCall :=
  [ CallIntent (IntentSubmit 1 (order 11 10));
    CallIntent (IntentSubmit 2 (order 12 5));
    CallReport (report 1 (Some 1) (Some "v1"%string) VenueReportKind.Accepted);
    CallReport (report 2 None (Some "v1"%string) (VenueReportKind.Fill 4 4 10)) ].
Definition start : ExecutionSnapshot := QuarccExecutionEngine_new config.
Definition traded : ExecutionSnapshot := run_executions 8 calls start.
(** Two reports for an order known only by its venue identifier: a replacement
    nobody asked for, and a fill. *)
Definition unexpected : NormalizedVenueReport := report 4 None (Some "v3"%string) VenueReportKind.Replaced.
Definition late_fill : NormalizedVenueReport := report 5 None (Some "v3"%string) (VenueReportKind.Fill 5 5 10).
Definition waiting : ExecutionSnapshot :=
  run_executions 8 [ CallReport unexpected; CallReport late_fill ] traded.
(** The acceptance that names the second order's identifier. *)
Definition acceptance : NormalizedVenueReport := report 6 (Some 3) (Some "v3"%string) VenueReportKind.Accepted.
(** The engine that knows the order under that identifier. *)
Definition bound : Execution :=
  mkExecution (put_venue_to_local (<["v3"%string := 3]> (es_venue_to_local waiting)) waiting)
    (mkExecutionActionBuffer 8 []).
Definition snapshot : AuthoritativeVenueSnapshot :=
  mkAuthoritativeVenueSnapshot 9 [mkAuthoritativeOpenOrder None "v9"%string (order 19 3) 0] [].
End SampleExecution.

Section execution_witnesses.
Import SampleExecution.

Lemma execution_index_exact_witness :
  (exists o, order_by_client traded 12 = Some o /\ mo_local_order_id o = 3) /\
  (forall client o, order_by_client traded client = Some o <->
     exists l, es_orders traded !! l = Some o /\ do_client_order_id (mo_desired o) = client).
Proof.
  split; [eexists; split; vm_compute; reflexivity |].
  apply (execution_index_exact config 8 ltac:(vm_compute; discriminate) ltac:(vm_compute; discriminate) calls).
Defined.

Lemma execution_snapshot_restores_witness : execution_restore traded = Ok traded.
Proof.
  apply (execution_snapshot_restores config 8 calls); try (vm_compute; discriminate).
  repeat constructor.
Defined.

Lemma report_depth_suffices_witness :
  apply_venue_report_at 7 late_fill bound = apply_venue_report late_fill bound.
Proof. apply (report_depth_suffices 7 late_fill bound). vm_compute. lia. Defined.

(** The fill of five lots is lost, also when the acceptance arrives as an
    ordinary report. *)
Lemma failed_retry_drops_reports_witness :
  es_deferred_reports (run_execution 8 (CallReport acceptance) waiting).1 = [] /\
  position_of 7 (run_execution 8 (CallReport acceptance) waiting).1 = 4 /\
  es_deferred_reports (ex_state bound) = [unexpected; late_fill] /\
  es_deferred_reports (ex_state (retry_deferred bound).1) = [] /\
  es_positions (ex_state (retry_deferred bound).1) !! 7 = Some (mkPositionProjection 4 (Some 10) 0).
Proof.
  split; [vm_compute; reflexivity |]. split; [vm_compute; reflexivity |].
  split; [vm_compute; reflexivity |]. split; [| vm_compute; reflexivity].
  destruct (failed_retry_drops_reports bound unexpected [late_fill] 3
    (retry_deferred bound).1 (ExecutionError.InvalidTransition (OnReport (Some OrderLifecycle.PendingSubmit) VenueReportKind.Replaced)))
    as (_ & Hd & _); [vm_compute; reflexivity.. |]. exact Hd.
Defined.

Lemma reconcile_breaks_restore_witness :
  execution_restore (run_execution 8 (CallReconcile snapshot) traded).1 = Err (ExecutionError.BufferFull 2).
Proof.
  apply (reconcile_breaks_restore 8 snapshot (mkAuthoritativeOpenOrder None "v9"%string (order 19 3) 0) traded
    (run_execution 8 (CallReconcile snapshot) traded).1
    [ActionQueryOrder 6 1 (Some "v1"%string); ActionQueryOrder 7 3 None]).
  - apply run_executions_sound, empty_sound; vm_compute; discriminate.
  - vm_compute. reflexivity.
  - reflexivity.
  - vm_compute. reflexivity.
  - vm_compute. reflexivity.
Defined.

Lemma kill_switch_is_final_witness :
  omap cancel_target [ActionCancel 5 1 (Some "v1"%string); ActionCancel 6 3 None] = [1; 3] /\
  forall calls call s'' emitted,
    run_execution 8 call (run_executions 8 calls (run_execution 8 (CallIntent (IntentKillSwitch 3)) traded).1) = (s'', Ok emitted) ->
    Forall (fun a => is_submit a = false) emitted.
Proof.
  split; [reflexivity |].
  apply (kill_switch_is_final 8 3 traded (run_execution 8 (CallIntent (IntentKillSwitch 3)) traded).1
    [ActionCancel 5 1 (Some "v1"%string); ActionCancel 6 3 None]).
  - vm_compute. reflexivity.
  - vm_compute. reflexivity.
Defined.
End execution_witnesses.
