(* ===== verification/Adapter.v ===== *)
(** * quarcc-bunting-adapter: between a participant and the venue

    Models [packages/quarcc-bunting-adapter/src/lib.rs]: participant actions
    become venue commands, committed venue events become normalized reports
    for the orders the participant owns. *)

From S2P Require Import Prelude Ordered MarketTypes MarketEvents Decimal Hoare Execution.
#[local] Open Scope list_scope.

Record BuntingCommandContext : Type := mkBuntingCommandContext {
  bc_run_id : Z;
  bc_actor : Z;
  bc_expected_sequence : Z;
  bc_logical_time : Z;
  bc_correlation_id : Z
}.

Module AdapterError.
Inductive AdapterError : Type := UnsupportedAction | ActorMismatch | ArithmeticOverflow.
End AdapterError.
Export AdapterError (AdapterError).

Record BuntingExecutionAdapter : Type := mkBuntingExecutionAdapter {
  ad_cumulative_fills : gmap Z Z;
  ad_order_quantities : gmap Z Z;
  ad_owned_orders : gset Z
}.
Definition BuntingExecutionAdapter_default : BuntingExecutionAdapter := mkBuntingExecutionAdapter ∅ ∅ ∅.

(** [command_for_action] *)
Definition command_for_action (action : ExecutionAction) (context : BuntingCommandContext)
    : result AdapterError Command :=
  '(action_id, payload) ←
    match action with
    | ActionSubmit action_id local order =>
        if negb (do_participant_id order =? bc_actor context) then Err AdapterError.ActorMismatch
        else Ok (action_id, PSubmitOrder (mkSubmitOrder local (do_instrument_id order) (do_participant_id order)
               (do_side order) (do_quantity order) (do_kind order) (do_anonymous order)))
    | ActionCancel action_id local _ => Ok (action_id, PCancelOrder (mkCancelOrder local (bc_actor context)))
    | ActionReplace _ _ _ _ _ | ActionQueryOrder _ _ _ | ActionQueryOpenOrders _ => Err AdapterError.UnsupportedAction
    end;
  Ok (mkCommand (bc_run_id context) action_id (bc_correlation_id context) (bc_logical_time context)
        (bc_expected_sequence context) (bc_actor context) payload).

(** [format!("{code:?}")] *)
Definition debug_reject (code : RejectCode.RejectCode) : string :=
  match code with
  | RejectCode.DuplicateOrderId => "DuplicateOrderId"
  | RejectCode.InvalidOrderId => "InvalidOrderId"
  | RejectCode.UnknownOrder => "UnknownOrder"
  | RejectCode.NotOrderOwner => "NotOrderOwner"
  | RejectCode.KillSwitchActive => "KillSwitchActive"
  | RejectCode.RunNotActive => "RunNotActive"
  | RejectCode.ListingHalted => "ListingHalted"
  | RejectCode.ParticipantDisabled => "ParticipantDisabled"
  | RejectCode.InvalidQuantity => "InvalidQuantity"
  | RejectCode.InvalidInstrument => "InvalidInstrument"
  | RejectCode.PriceOutOfBounds => "PriceOutOfBounds"
  | RejectCode.MaxOrderQuantity => "MaxOrderQuantity"
  | RejectCode.MaxOpenOrderQuantity => "MaxOpenOrderQuantity"
  | RejectCode.MaxLiveOrders => "MaxLiveOrders"
  | RejectCode.PositionLimit => "PositionLimit"
  | RejectCode.InsufficientCash => "InsufficientCash"
  | RejectCode.InsufficientInventory => "InsufficientInventory"
  | RejectCode.InsufficientLiquidity => "InsufficientLiquidity"
  | RejectCode.PostOnlyWouldCross => "PostOnlyWouldCross"
  | RejectCode.InvalidTimeInForce => "InvalidTimeInForce"
  | RejectCode.MarketClosed => "MarketClosed"
  | RejectCode.CallPhaseOrderType => "CallPhaseOrderType"
  | RejectCode.LogicalTimeRegression => "LogicalTimeRegression"
  | RejectCode.SequenceConflict => "SequenceConflict"
  | RejectCode.ArithmeticOverflow => "ArithmeticOverflow"
  | RejectCode.PriceNotOnTick => "PriceNotOnTick"
  end%string.

#[local] Notation Adapting A := (M BuntingExecutionAdapter AdapterError A) (only parsing).
Definition adapter_overflow {A} (o : option A) : Adapting A := lift (ok_or o AdapterError.ArithmeticOverflow).

(** The order and the kind of the report of an event, if it is one of ours:
    the match of [normalize_committed_events]. *)
Definition classify_event (actor : Z) (payload : EventPayload) : Adapting (option (Z * VenueReportKind)) :=
  match payload with
  | OrderReceived order _ =>
      if so_participant_id order =? actor then
        modify (fun a => mkBuntingExecutionAdapter (ad_cumulative_fills a)
          (<[so_order_id order := so_quantity order]> (ad_order_quantities a))
          ({[so_order_id order]} ∪ ad_owned_orders a));;
        mret None
      else mret None
  | OrderAccepted order_id =>
      owned ← gets ad_owned_orders;
      mret (if bool_decide (order_id ∈ owned) then Some (order_id, VenueReportKind.Accepted) else None)
  | OrderRejected (Some order_id) code =>
      owned ← gets ad_owned_orders;
      mret (if bool_decide (order_id ∈ owned) then Some (order_id, VenueReportKind.Rejected (debug_reject code)) else None)
  | OrderCanceled order_id participant_id _ _ _ reason =>
      mret (if participant_id =? actor then
              Some (order_id, if bool_decide (reason = CancelReason.Expired) then VenueReportKind.Expired
                              else VenueReportKind.Cancelled)
            else None)
  | TradeExecuted _ _ maker taker buyer_id seller_id price quantity _ _ =>
      if (buyer_id =? actor) || (seller_id =? actor) then
        owned ← gets ad_owned_orders;
        match (if bool_decide (maker ∈ owned) then Some maker
               else if bool_decide (taker ∈ owned) then Some taker else None) with
        | None => mret None
        | Some local =>
            prior ← gets (fun a => default 0 (ad_cumulative_fills a !! local));
            cumulative ← adapter_overflow (checked_add I64 prior quantity);
            modify (fun a => mkBuntingExecutionAdapter (<[local := cumulative]> (ad_cumulative_fills a))
              (ad_order_quantities a) (ad_owned_orders a));;
            mret (Some (local, VenueReportKind.Fill quantity cumulative price))
        end
      else mret None
  | _ => mret None
  end.

(** The quantity left of the order. *)
Definition leaves_quantity (local : Z) (kind : VenueReportKind) : Adapting (option Z) :=
  match kind with
  | VenueReportKind.Fill _ cumulative _ =>
      total ← gets (fun a => ad_order_quantities a !! local);
      total ← adapter_overflow total;
      leaves ← adapter_overflow (checked_sub I64 total cumulative);
      mret (Some leaves)
  | VenueReportKind.Cancelled | VenueReportKind.Expired => mret (Some 0)
  | _ => mret None
  end.

Definition is_rejected (kind : VenueReportKind) : bool :=
  match kind with VenueReportKind.Rejected _ => true | _ => false end.

Definition forget (local : Z) (a : BuntingExecutionAdapter) : BuntingExecutionAdapter :=
  mkBuntingExecutionAdapter (delete local (ad_cumulative_fills a)) (delete local (ad_order_quantities a))
    (ad_owned_orders a ∖ {[local]}).

(** One event of [normalize_committed_events]. *)
Definition normalize_event (actor : Z) (event : EventEnvelope) : Adapting (list NormalizedVenueReport) :=
  classified ← classify_event actor (ev_payload event);
  match classified with
  | None => mret []
  | Some (local, kind) =>
      leaves ← leaves_quantity local kind;
      (if is_rejected kind || bool_decide (leaves = Some 0) then modify (forget local) else mret tt);;
      mret [mkNormalizedVenueReport (ev_event_id event) (Some (ev_sequence event)) None (Some local)
              (Some (String.string_of_list_ascii (display_uint local))) leaves kind]
  end.
Fixpoint normalize_committed_events (actor : Z) (events : list EventEnvelope)
    : Adapting (list NormalizedVenueReport) :=
  match events with
  | [] => mret []
  | event :: events =>
      reports ← normalize_event actor event;
      more ← normalize_committed_events actor events;
      mret (reports ++ more)
  end.

(** ** Isolation *)

(** The event puts the order in the participant's hands. *)
Definition names_own (actor : Z) (payload : EventPayload) (l : Z) : Prop :=
  match payload with
  | OrderReceived order _ => so_participant_id order = actor /\ so_order_id order = l
  | OrderCanceled order_id participant_id _ _ _ _ => participant_id = actor /\ order_id = l
  | _ => False
  end.

(** The tables of the adapter are about the same orders, all within [P]. *)
Record tracked (P : Z -> Prop) (a : BuntingExecutionAdapter) : Prop := {
  tr_owned : forall l, l ∈ ad_owned_orders a -> P l;
  tr_quantities : dom (ad_order_quantities a) = ad_owned_orders a;
  tr_fills : dom (ad_cumulative_fills a) ⊆ ad_owned_orders a
}.

Lemma classify_event_wp P actor payload a :
  tracked P a -> (forall l, names_own actor payload l -> P l) ->
  wp (classify_event actor payload)
    (fun r a' => tracked P a' /\ match r with Some (l, _) => P l | None => True end) (tracked P) a.
Proof.
  intros [T1 T2 T3] HP. destruct payload; cbn [classify_event names_own] in *; try by wp_step.
  - case_match eqn:Hp; [| by wp_step]. apply Z.eqb_eq in Hp. do 3 wp_step. split; [| done]. split; cbn.
    + intros l [->%elem_of_singleton|Hl]%elem_of_union; [by apply HP | by apply T1].
    + by rewrite dom_insert_L, T2.
    + set_solver.
  - do 3 wp_step. split; [done |]. case_bool_decide; [by apply T1 | done].
  - destruct order_id; [| by wp_step]. do 3 wp_step. split; [done |]. case_bool_decide; [by apply T1 | done].
  - wp_step. split; [done |]. destruct (Z.eqb_spec participant_id actor); [by apply HP | done].
  - case_match; [| by wp_step]. do 2 wp_step.
    assert (Hlocal : forall local, (if bool_decide (maker_order_id ∈ ad_owned_orders a) then Some maker_order_id
      else if bool_decide (taker_order_id ∈ ad_owned_orders a) then Some taker_order_id else None) = Some local ->
      local ∈ ad_owned_orders a).
    { intros local. repeat case_bool_decide; intros [= <-]; done. }
    destruct (if bool_decide (maker_order_id ∈ _) then _ else _) as [local|]; [| by wp_step].
    specialize (Hlocal local eq_refl). do 2 wp_step. unfold adapter_overflow. wp_step. wp_step; [done |]. do 3 wp_step.
    split; [| by apply T1]. split; cbn; [done | done |]. rewrite dom_insert_L. set_solver.
Qed.

Lemma leaves_quantity_same P local kind a :
  tracked P a -> wp (leaves_quantity local kind) (fun _ => tracked P) (tracked P) a.
Proof.
  intros Ha. destruct kind; cbn [leaves_quantity]; unfold adapter_overflow; repeat first [wp_step; [done |] | wp_step]; done.
Qed.

Lemma forget_tracked P local a : tracked P a -> tracked P (forget local a).
Proof.
  intros [T1 T2 T3]. split; cbn; [set_solver | by rewrite dom_delete_L, T2 | rewrite dom_delete_L; set_solver].
Qed.

Definition about (P : Z -> Prop) (r : NormalizedVenueReport) : Prop :=
  exists l, nr_local_order_id r = Some l /\ P l.

Lemma normalize_event_wp P actor event a :
  tracked P a -> (forall l, names_own actor (ev_payload event) l -> P l) ->
  wp (normalize_event actor event) (fun reports a' => tracked P a' /\ Forall (about P) reports) (tracked P) a.
Proof.
  intros Ha HP. unfold normalize_event. wp_step. eapply wp_mono; [by apply classify_event_wp | | done]. cbn beta.
  intros [[local kind]|] a1 [H1 Hl]; [| by wp_step]. wp_step.
  eapply wp_mono; [by apply (leaves_quantity_same P) | | done]. cbn beta. intros leaves a2 H2.
  wp_step. apply wp_mono with (Q := fun _ => tracked P) (X := tracked P); [| | done].
  - case_match; wp_step; [by apply forget_tracked | done].
  - intros _ a3 H3. wp_step. split; [done |]. apply Forall_singleton. by exists local.
Qed.

Lemma normalize_events_wp P actor events a :
  tracked P a -> (forall event l, event ∈ events -> names_own actor (ev_payload event) l -> P l) ->
  wp (normalize_committed_events actor events) (fun reports a' => tracked P a' /\ Forall (about P) reports)
    (tracked P) a.
Proof.
  revert a. induction events as [|event events IH]; intros a Ha HP; cbn [normalize_committed_events]; [by wp_step |].
  wp_step. eapply wp_mono; [apply (normalize_event_wp P); [done | intros l; apply HP; set_solver] | | done]. cbn beta.
  intros reports a1 [H1 Hr]. wp_step. eapply wp_mono; [apply IH; [done | intros e l He; apply HP; set_solver] | | done].
  cbn beta. intros more a2 [H2 Hm]. wp_step. split; [done |]. by apply Forall_app.
Qed.

(** reports are isolated to the owning participant: whatever committed
    events an adapter sees, every report it makes is about an order that one
    of these events received from, or canceled for, its own participant; and
    its three tables always speak of the same orders, so that the quantity of
    a filled order is always found. *)
Theorem reports_are_isolated actor events a reports :
  normalize_committed_events actor events BuntingExecutionAdapter_default = (a, Ok reports) ->
  Forall (about (fun l => exists event, event ∈ events /\ names_own actor (ev_payload event) l)) reports /\
  dom (ad_order_quantities a) = ad_owned_orders a /\ dom (ad_cumulative_fills a) ⊆ ad_owned_orders a.
Proof.
  intros Hrun. destruct (wp_Ok _ _ _ _ _ _ (normalize_events_wp
    (fun l => exists event, event ∈ events /\ names_own actor (ev_payload event) l) actor events
    BuntingExecutionAdapter_default ltac:(split; cbn; [set_solver | done | set_solver])
    ltac:(intros event l He Hn; by exists event)) Hrun) as [[T1 T2 T3] Hr]. done.
Qed.

(** ** Defects *)

(** a defect.  When both sides of a trade are orders of the participant,
    only the resting order is reported as filled: the other order keeps its
    quantity in the adapter and no report of the trade names it. *)
Theorem self_trade_reports_one_side actor event instrument key maker taker price quantity buyer_fee seller_fee a :
  ev_payload event = TradeExecuted instrument key maker taker actor actor price quantity buyer_fee seller_fee ->
  maker ∈ ad_owned_orders a -> taker ∈ ad_owned_orders a -> maker <> taker ->
  wp (normalize_event actor event)
    (fun reports a' => Forall (fun r => nr_local_order_id r = Some maker) reports /\
       ad_cumulative_fills a' !! taker = ad_cumulative_fills a !! taker /\ taker ∈ ad_owned_orders a')
    (fun a' => taker ∈ ad_owned_orders a') a.
Proof.
  intros He Hm Ht Hne. unfold normalize_event. rewrite He. cbn [classify_event]. rewrite Z.eqb_refl. cbn [orb].
  wp_step. do 2 wp_step. rewrite bool_decide_true by done. do 2 wp_step. unfold adapter_overflow.
  wp_step. wp_step; [done |]. do 3 wp_step. wp_step. cbn [leaves_quantity]. do 2 wp_step. unfold adapter_overflow.
  wp_step. wp_step; [done |]. wp_step. wp_step; [done |]. wp_step.
  wp_step. case_match; wp_step; wp_step; cbn; (split; [by apply Forall_singleton |]).
  - rewrite lookup_delete_ne, lookup_insert_ne by done. set_solver.
  - by rewrite lookup_insert_ne by done.
Qed.

(** a defect.  A reject that names an owned order makes the adapter forget
    the order, whoever sent the refused command: after another participant's
    cancel of the order was refused, the trades of the order, still live at
    the venue, are not reported any more. *)
Theorem foreign_reject_silences_order actor refused trade order_id code a instrument key maker taker buyer seller
    price quantity buyer_fee seller_fee :
  ev_payload refused = OrderRejected (Some order_id) code -> order_id ∈ ad_owned_orders a ->
  ev_payload trade = TradeExecuted instrument key maker taker buyer seller price quantity buyer_fee seller_fee ->
  maker = order_id /\ taker ∉ ad_owned_orders a \/ taker = order_id /\ maker ∉ ad_owned_orders a ->
  exists a' r, normalize_committed_events actor [refused; trade] a = (a', Ok [r]) /\
    nr_kind r = VenueReportKind.Rejected (debug_reject code) /\ order_id ∉ ad_owned_orders a'.
Proof.
  intros Hr Ho Ht Hside. cbn [normalize_committed_events]. unfold normalize_event. rewrite Hr, Ht.
  unfold classify_event, gets, mbind, M_bind, mret, M_ret. rewrite bool_decide_true by done. cbn [leaves_quantity].
  cbn [is_rejected orb]. unfold modify. cbn [ad_owned_orders forget].
  unfold mret, M_ret. cbn beta iota. destruct ((buyer =? actor) || (seller =? actor)); cbn beta iota.
  - cbn [ad_owned_orders forget]. rewrite !bool_decide_false by set_solver. do 2 eexists. split; [reflexivity |].
    split; [done | cbn; set_solver].
  - do 2 eexists. split; [reflexivity |]. split; [done | cbn; set_solver].
Qed.

Module SampleAdapter.
Definition envelope (sequence actor : Z) (payload : EventPayload) : EventEnvelope :=
  mkEventEnvelope EVENT_SCHEMA_VERSION 1 sequence sequence sequence actor sequence sequence None payload.
Definition received (id participant quantity : Z) (side : Side) : EventPayload :=
  OrderReceived (mkSubmitOrder id 7 participant side quantity (Limit 10) false) None.
(** Participant 1 bids and offers; participant 2 has an order too. *)
Definition opening : list EventEnvelope :=
  [ envelope 1 1 (received 100 1 5 Buy); envelope 2 1 (OrderAccepted 100);
    envelope 3 1 (received 101 1 5 Sell); envelope 4 1 (OrderAccepted 101);
    envelope 5 2 (received 200 2 5 Sell); envelope 6 2 (OrderAccepted 200) ].
Definition opened : BuntingExecutionAdapter := (normalize_committed_events 1 opening BuntingExecutionAdapter_default).1.
Definition self_trade : EventEnvelope := envelope 7 1 (TradeExecuted 7 None 100 101 1 1 10 5 0 0).
(** Participant 2's cancel of order 100 is refused; then the order trades. *)
Definition refused : EventEnvelope := envelope 7 2 (OrderRejected (Some 100) RejectCode.NotOrderOwner).
Definition traded : EventEnvelope := envelope 8 2 (TradeExecuted 7 None 100 200 1 2 10 5 0 0).
End SampleAdapter.

Section adapter_witnesses.
Import SampleAdapter.

Lemma reports_are_isolated_witness :
  dom (ad_order_quantities opened) = ad_owned_orders opened /\
  exists reports, snd (normalize_committed_events 1 opening BuntingExecutionAdapter_default) = Ok reports /\
    nr_local_order_id <$> reports = [Some 100; Some 101].
Proof.
  split; [| eexists; split; vm_compute; reflexivity].
  eapply (reports_are_isolated 1 opening). unfold opened. vm_compute. reflexivity.
Defined.

Lemma self_trade_reports_one_side_witness :
  ad_cumulative_fills (normalize_event 1 self_trade opened).1 !! 101 = None /\
  exists reports, snd (normalize_event 1 self_trade opened) = Ok reports /\
    Forall (fun r => nr_local_order_id r = Some 100) reports.
Proof.
  assert (Hw : wp (normalize_event 1 self_trade)
    (fun reports a' => Forall (fun r => nr_local_order_id r = Some 100) reports /\
       ad_cumulative_fills a' !! 101 = ad_cumulative_fills opened !! 101 /\ 101 ∈ ad_owned_orders a')
    (fun a' => 101 ∈ ad_owned_orders a') opened).
  { eapply (self_trade_reports_one_side 1 self_trade); [reflexivity | | | discriminate];
      apply (bool_decide_unpack _); vm_compute; exact I. }
  split; [vm_compute; reflexivity |]. unfold wp in Hw.
  destruct (normalize_event 1 self_trade opened) as [a' [reports|e]] eqn:He.
  - exists reports. split; [reflexivity | apply Hw].
  - exfalso. vm_compute in He. discriminate.
Defined.

Lemma foreign_reject_silences_order_witness :
  exists a' r, normalize_committed_events 1 [refused; traded] opened = (a', Ok [r]) /\
    nr_kind r = VenueReportKind.Rejected "NotOrderOwner" /\ 100 ∉ ad_owned_orders a'.
Proof.
  eapply (foreign_reject_silences_order 1 refused traded 100 RejectCode.NotOrderOwner opened).
  - reflexivity.
  - apply (bool_decide_unpack _). vm_compute. exact I.
  - reflexivity.
  - left. split; [reflexivity |]. apply (bool_decide_unpack _). vm_compute. exact I.
Defined.
End adapter_witnesses.
