(* ===== verification/MarketFeed.v ===== *)
(** * Public market data: from the venue's book to a client's copy

    Models the three ends of a direct venue feed: the difference between two
    committed views of a book ([packages/bunting-application/src/lib.rs]),
    the publisher of one subscription ([apps/bunting-server/src/public_feed.rs]
    with the encoding of [apps/bunting-server/src/bnp_feeds.rs]) and the
    client's copy of the book ([packages/bunting-client/src/book.rs]). *)

From S2P Require Import Prelude Ordered MarketTypes MarketEvents Latency.
From S2P Require Import Hoare.
#[local] Open Scope list_scope.

(** ** The venue: differences between committed views *)

Record LevelChange : Type := mkLevelChange {
  lc_side : Side;
  lc_price : Z;
  lc_previous : Z;
  lc_quantity : Z
}.

(** [type PublicDepth]: bids and asks as lists of price and quantity. *)
Definition PublicDepth : Type := list (Z * Z) * list (Z * Z).

(** [levels.iter().copied().collect::<BTreeMap<_, _>>()]: later entries win. *)
Definition collect_levels (levels : list (Z * Z)) : gmap Z Z :=
  foldl (fun m level => <[level.1 := level.2]> m) ∅ levels.

(** One side of [diff_levels]. *)
Definition diff_side (side : Side) (old new : list (Z * Z)) : list LevelChange :=
  let old := collect_levels old in
  let new := collect_levels new in
  omap (fun price =>
    let previous := default 0 (old !! price) in
    let current := default 0 (new !! price) in
    if previous =? current then None else Some (mkLevelChange side price previous current))
    (merge_sort Z.le (elements (dom old ∪ dom new))).

(** [diff_levels] *)
Definition diff_levels (before after : PublicDepth) : list LevelChange :=
  diff_side Buy before.1 after.1 ++ diff_side Sell before.2 after.2.

Record DisplayedOrder : Type := mkDisplayedOrder {
  dp_order_id : Z;
  dp_reference : Z;
  dp_side : Side;
  dp_price : Z;
  dp_quantity : Z;
  dp_broker : option Z
}.

Module OrderAction.
Inductive OrderAction : Type := Added | Changed | Deleted.
End OrderAction.
Export OrderAction (OrderAction).

Record OrderChange : Type := mkOrderChange {
  oc_action : OrderAction;
  oc_side : Side;
  oc_reference : Z;
  oc_price : Z;
  oc_quantity : Z;
  oc_broker : option Z
}.

Definition by_reference (orders : list DisplayedOrder) : gmap Z DisplayedOrder :=
  foldl (fun m order => <[dp_reference order := order]> m) ∅ orders.
Definition order_change (action : OrderAction) (order : DisplayedOrder) (quantity : Z) : OrderChange :=
  mkOrderChange action (dp_side order) (dp_reference order) (dp_price order) quantity (dp_broker order).

(** [diff_orders] *)
Definition diff_orders (before after : list DisplayedOrder) : list OrderChange :=
  let old := by_reference before in
  let new := by_reference after in
  ((fun order => order_change OrderAction.Deleted order 0) <$>
     filter (fun order => new !! dp_reference order = None) before)
  ++ omap (fun order =>
       match old !! dp_reference order with
       | Some previous =>
           if dp_quantity previous =? dp_quantity order then None
           else Some (order_change OrderAction.Changed order (dp_quantity order))
       | None => None
       end) after
  ++ ((fun order => order_change OrderAction.Added order (dp_quantity order)) <$>
        filter (fun order => old !! dp_reference order = None) after).

(** ** The publisher: one subscription *)

Record PublicTrade : Type := mkPublicTrade {
  pt_sequence : Z;
  pt_logical_time : Z;
  pt_instrument_id : Z;
  pt_listing_key : ListingKey;
  pt_price : Z;
  pt_quantity : Z;
  pt_maker_reference : option Z;
  pt_buyer_broker : option Z;
  pt_seller_broker : option Z
}.
Record PublicListingUpdate : Type := mkPublicListingUpdate {
  pu_listing_key : ListingKey;
  pu_trades : list PublicTrade;
  pu_levels : list LevelChange;
  pu_best_bid : option (Z * Z);
  pu_best_ask : option (Z * Z);
  pu_orders : list OrderChange
}.
(** The parts of [Committed] a feed reads. *)
Record CommittedBatch : Type := mkCommittedBatch {
  cb_durable_us : Z;
  cb_ordinal : Z;
  cb_public : list PublicListingUpdate;
  cb_public_gaps : list ListingKey
}.

Inductive MarketDataUpdateAction : Type := ActionNew | ActionChange | ActionDelete.
Inductive MarketDataIncrement : Type :=
  | IncrementLevel (action : MarketDataUpdateAction) (side : Side) (price quantity : Z)
  | IncrementOrder (action : MarketDataUpdateAction) (side : Side) (reference price quantity : Z) (broker : option Z)
  | IncrementTrade (price quantity : Z) (reference buyer seller : option Z).

(** One increment as the publisher produced it, and a message ready to leave
    its source. *)
Record RawIncrement : Type := mkRawIncrement {
  ri_first_report : Z;
  ri_entries : list (ListingKey * MarketDataIncrement)
}.
Record FeedMessage : Type := mkFeedMessage {
  fm_source : Endpoint;
  fm_available_us : Z;
  fm_request_id : Z;
  fm_message : RawIncrement
}.

Inductive Detail : Type := Levels | Orders.
#[export] Instance Detail_eq_dec : EqDecision Detail.
Proof. solve_decision. Defined.

(** A BNP request identity is a [u32]; the publisher keeps its decimal text,
    here the number itself. *)
Record Feed : Type := mkFeed {
  fe_request_id : Z;
  fe_listing_key : ListingKey;
  fe_bids : bool;
  fe_offers : bool;
  fe_trades : bool;
  fe_detail : Detail;
  fe_next_report : Z;
  fe_pending : option (list CommittedBatch);
  fe_last_send_us : Z
}.
Definition feed_at (next_report : Z) (f : Feed) : Feed :=
  mkFeed (fe_request_id f) (fe_listing_key f) (fe_bids f) (fe_offers f) (fe_trades f) (fe_detail f)
    next_report (fe_pending f) (fe_last_send_us f).
Definition feed_pending (pending : option (list CommittedBatch)) (f : Feed) : Feed :=
  mkFeed (fe_request_id f) (fe_listing_key f) (fe_bids f) (fe_offers f) (fe_trades f) (fe_detail f)
    (fe_next_report f) pending (fe_last_send_us f).

Record TapeRecord : Type := mkTapeRecord {
  tr_hub_us : Z;
  tr_instrument_id : Z;
  tr_first_report : Z;
  tr_entries : list (ListingKey * MarketDataIncrement)
}.
Record TapeFeed : Type := mkTapeFeed {
  tf_request_id : Z;
  tf_instrument_id : Z;
  tf_pending : option (list TapeRecord);
  tf_after : Z;
  tf_last_send_us : Z
}.
Record PublicFeeds : Type := mkPublicFeeds {
  pf_feeds : list Feed;
  pf_tape_feeds : list TapeFeed;
  pf_tape : bool
}.
Definition with_feeds (feeds : list Feed) (p : PublicFeeds) : PublicFeeds :=
  mkPublicFeeds feeds (pf_tape_feeds p) (pf_tape p).
Definition with_tape_feeds (feeds : list TapeFeed) (p : PublicFeeds) : PublicFeeds :=
  mkPublicFeeds (pf_feeds p) feeds (pf_tape p).

Definition wanted (f : Feed) (side : Side) : bool :=
  match side with Buy => fe_bids f | Sell => fe_offers f end.

(** [Feed::entries] *)
Definition feed_entries (f : Feed) (update : PublicListingUpdate) : list MarketDataIncrement :=
  (if fe_trades f then
     (fun trade => IncrementTrade (pt_price trade) (pt_quantity trade)
        (match fe_detail f with Orders => pt_maker_reference trade | Levels => None end)
        (pt_buyer_broker trade) (pt_seller_broker trade)) <$> pu_trades update
   else [])
  ++ match fe_detail f with
     | Orders =>
         (fun change => IncrementOrder
            (match oc_action change with
             | OrderAction.Added => ActionNew
             | OrderAction.Changed => ActionChange
             | OrderAction.Deleted => ActionDelete
             end) (oc_side change) (oc_reference change) (oc_price change) (oc_quantity change) (oc_broker change))
         <$> filter (fun change => wanted f (oc_side change) = true) (pu_orders update)
     | Levels =>
         (fun change => IncrementLevel
            (if lc_quantity change =? 0 then ActionDelete
             else if lc_previous change =? 0 then ActionNew else ActionChange)
            (lc_side change) (lc_price change) (lc_quantity change))
         <$> filter (fun change => wanted f (lc_side change) = true) (pu_levels update)
     end.

(** The first update of a listing in a batch. *)
Definition listing_update (batch : CommittedBatch) (key : ListingKey) : option PublicListingUpdate :=
  head (filter (fun update => pu_listing_key update = key) (cb_public batch)).

(** [Feed::increment] and [Feed::apply] *)
Definition feed_increment (batch : CommittedBatch) (f : Feed) : Feed * option FeedMessage :=
  match listing_update batch (fe_listing_key f) with
  | None => (f, None)
  | Some update =>
      match feed_entries f update with
      | [] => (f, None)
      | entries =>
          (feed_at (saturating_add U64 (fe_next_report f) (Z.of_nat (length entries))) f,
           Some (mkFeedMessage (Latency.Venue (lk_venue_id (fe_listing_key f))) (cb_durable_us batch)
                   (fe_request_id f)
                   (mkRawIncrement (fe_next_report f) ((fun entry => (fe_listing_key f, entry)) <$> entries))))
      end
  end.
Definition feed_apply (batch : CommittedBatch) (f : Feed) : Feed * option FeedMessage :=
  if bool_decide (fe_listing_key f ∈ cb_public_gaps batch)
  then (feed_at (saturating_add U64 (fe_next_report f) 1) f, None)
  else feed_increment batch f.

(** The batches in order, collecting the messages. *)
Fixpoint feed_apply_all (batches : list CommittedBatch) (f : Feed) : Feed * list FeedMessage :=
  match batches with
  | [] => (f, [])
  | batch :: batches =>
      let '(f, message) := feed_apply batch f in
      let '(f, messages) := feed_apply_all batches f in
      (f, option_list message ++ messages)
  end.

Definition MAX_FEEDS_PER_SESSION : nat := 32.
Definition MAX_BUFFERED_BATCHES : Z := 4096.

(** Why a subscription is refused, and the failures that end the session. *)
Inductive FeedRefusal : Type := AlreadySubscribed | TooManyFeeds | NoEntryType | TapeUnavailable.
Inductive FeedFailure : Type := BufferFull (request_id : Z) | TapeDisconnected.

(** [PublicFeeds::refuse] *)
Definition feeds_refuse (request_id : Z) (p : PublicFeeds) : option FeedRefusal :=
  if bool_decide (request_id ∈ fe_request_id <$> pf_feeds p)
     || bool_decide (request_id ∈ tf_request_id <$> pf_tape_feeds p)
  then Some AlreadySubscribed
  else if (MAX_FEEDS_PER_SESSION <=? length (pf_feeds p) + length (pf_tape_feeds p))%nat
  then Some TooManyFeeds
  else None.

(** [PublicFeeds::subscribe] *)
Definition feeds_subscribe (request_id : Z) (key : ListingKey) (bids offers trades aggregated : bool)
    (p : PublicFeeds) : PublicFeeds * option FeedRefusal :=
  match feeds_refuse request_id p with
  | Some reason => (p, Some reason)
  | None =>
      if negb (bids || offers || trades) then (p, Some NoEntryType)
      else (with_feeds (pf_feeds p ++ [mkFeed request_id key bids offers trades
                                         (if aggregated then Levels else Orders) 1 (Some []) 0]) p, None)
  end.

(** [PublicFeeds::subscribe_consolidated]; [available] is whether the tape
    accepts a subscriber. *)
Definition feeds_subscribe_consolidated (request_id instrument_id : Z) (available : bool) (p : PublicFeeds)
    : PublicFeeds * option FeedRefusal :=
  match feeds_refuse request_id p with
  | Some reason => (p, Some reason)
  | None =>
      if negb (pf_tape p) && negb available then (p, Some TapeUnavailable)
      else (mkPublicFeeds (pf_feeds p) (pf_tape_feeds p ++ [mkTapeFeed request_id instrument_id (Some []) 0 0]) true,
            None)
  end.

(** [PublicFeeds::unsubscribe] *)
Definition feeds_unsubscribe (request_id : Z) (p : PublicFeeds) : PublicFeeds * bool :=
  let feeds := filter (fun f => fe_request_id f <> request_id) (pf_feeds p) in
  let tape_feeds := filter (fun f => tf_request_id f <> request_id) (pf_tape_feeds p) in
  (mkPublicFeeds feeds tape_feeds (match tape_feeds with [] => false | _ => pf_tape p end),
   negb (length feeds + length tape_feeds =? length (pf_feeds p) + length (pf_tape_feeds p))%nat).

(** One feed of [PublicFeeds::on_batch], and the loop. *)
Definition feed_on_batch (batch : CommittedBatch) (f : Feed) : Feed * result FeedFailure (list FeedMessage) :=
  if negb (bool_decide (Exists (fun update => pu_listing_key update = fe_listing_key f) (cb_public batch)))
     && negb (bool_decide (fe_listing_key f ∈ cb_public_gaps batch))
  then (f, Ok [])
  else
    match fe_pending f with
    | Some buffer =>
        if MAX_BUFFERED_BATCHES <=? Z.of_nat (length buffer) then (f, Err (BufferFull (fe_request_id f)))
        else (feed_pending (Some (buffer ++ [batch])) f, Ok [])
    | None => let '(f, message) := feed_apply batch f in (f, Ok (option_list message))
    end.
Fixpoint feeds_on_batch (batch : CommittedBatch) (feeds : list Feed)
    : list Feed * result FeedFailure (list FeedMessage) :=
  match feeds with
  | [] => ([], Ok [])
  | f :: feeds =>
      match feed_on_batch batch f with
      | (f, Err e) => (f :: feeds, Err e)
      | (f, Ok messages) =>
          let '(feeds, more) := feeds_on_batch batch feeds in
          (f :: feeds, more ← more; Ok (messages ++ more))
      end
  end.
Definition on_batch (batch : CommittedBatch) : M PublicFeeds FeedFailure (list FeedMessage) := fun p =>
  let '(feeds, r) := feeds_on_batch batch (pf_feeds p) in (with_feeds feeds p, r).

(** [TapeFeed::message] *)
Definition tape_message (f : TapeFeed) (record : TapeRecord) : FeedMessage :=
  mkFeedMessage Latency.Hub (tr_hub_us record) (tf_request_id f)
    (mkRawIncrement (tr_first_report record) (tr_entries record)).

(** One feed and one record of [PublicFeeds::drain_tape], and the loops;
    [records] is what the tape's subscription hands out. *)
Definition tape_feed_on_record (record : TapeRecord) (f : TapeFeed) : TapeFeed * result FeedFailure (list FeedMessage) :=
  if negb (tf_instrument_id f =? tr_instrument_id record) then (f, Ok [])
  else
    match tf_pending f with
    | Some buffer =>
        if MAX_BUFFERED_BATCHES <=? Z.of_nat (length buffer) then (f, Err (BufferFull (tf_request_id f)))
        else (mkTapeFeed (tf_request_id f) (tf_instrument_id f) (Some (buffer ++ [record])) (tf_after f)
                (tf_last_send_us f), Ok [])
    | None => (f, Ok (if tf_after f <? tr_first_report record then [tape_message f record] else []))
    end.
Fixpoint tape_feeds_on_record (record : TapeRecord) (feeds : list TapeFeed)
    : list TapeFeed * result FeedFailure (list FeedMessage) :=
  match feeds with
  | [] => ([], Ok [])
  | f :: feeds =>
      match tape_feed_on_record record f with
      | (f, Err e) => (f :: feeds, Err e)
      | (f, Ok messages) =>
          let '(feeds, more) := tape_feeds_on_record record feeds in
          (f :: feeds, more ← more; Ok (messages ++ more))
      end
  end.
Fixpoint drain_records (records : list TapeRecord) : M PublicFeeds FeedFailure (list FeedMessage) :=
  match records with
  | [] => mret []
  | record :: records =>
      messages ← (fun p => let '(feeds, r) := tape_feeds_on_record record (pf_tape_feeds p) in
                           (with_tape_feeds feeds p, r));
      more ← drain_records records;
      mret (messages ++ more)
  end.
Definition drain_tape (records : option (list TapeRecord)) : M PublicFeeds FeedFailure (list FeedMessage) :=
  held ← gets pf_tape;
  if negb held then mret []
  else records ← lift (ok_or records TapeDisconnected); drain_records records.

(** [find(|feed| feed.request_id == request_id)] and a write through it. *)
Fixpoint on_feed (request_id : Z) (step : Feed -> Feed * list FeedMessage) (feeds : list Feed)
    : list Feed * list FeedMessage :=
  match feeds with
  | [] => ([], [])
  | f :: feeds =>
      if fe_request_id f =? request_id then let '(f, messages) := step f in (f :: feeds, messages)
      else let '(feeds, messages) := on_feed request_id step feeds in (f :: feeds, messages)
  end.
Fixpoint activate_tape (request_id last_report : Z) (feeds : list TapeFeed)
    : option (list TapeFeed * list FeedMessage) :=
  match feeds with
  | [] => None
  | f :: feeds =>
      if tf_request_id f =? request_id then
        let f' := mkTapeFeed (tf_request_id f) (tf_instrument_id f) None last_report (tf_last_send_us f) in
        Some (f' :: feeds,
              tape_message f' <$> filter (fun record => last_report < tr_first_report record) (default [] (tf_pending f)))
      else '(feeds, messages) ← activate_tape request_id last_report feeds; Some (f :: feeds, messages)
  end.
Definition activate_feed (published_before : Z) (f : Feed) : Feed * list FeedMessage :=
  feed_apply_all (filter (fun batch => published_before <= cb_ordinal batch) (default [] (fe_pending f)))
    (feed_pending None f).
(** [PublicFeeds::activate_after] *)
Definition activate_after (request_id published_before last_report : Z) (p : PublicFeeds)
    : PublicFeeds * list FeedMessage :=
  match activate_tape request_id last_report (pf_tape_feeds p) with
  | Some (feeds, messages) => (with_tape_feeds feeds p, messages)
  | None =>
      let '(feeds, messages) := on_feed request_id (activate_feed published_before) (pf_feeds p) in
      (with_feeds feeds p, messages)
  end.

(** [PublicFeeds::send_time] *)
Fixpoint send_feed (request_id proposed_us : Z) (feeds : list Feed) : option (list Feed * Z) :=
  match feeds with
  | [] => None
  | f :: feeds =>
      if fe_request_id f =? request_id then
        let last := Z.max (fe_last_send_us f) proposed_us in
        Some (mkFeed (fe_request_id f) (fe_listing_key f) (fe_bids f) (fe_offers f) (fe_trades f) (fe_detail f)
                (fe_next_report f) (fe_pending f) last :: feeds, last)
      else '(feeds, time) ← send_feed request_id proposed_us feeds; Some (f :: feeds, time)
  end.
Fixpoint send_tape_feed (request_id proposed_us : Z) (feeds : list TapeFeed) : option (list TapeFeed * Z) :=
  match feeds with
  | [] => None
  | f :: feeds =>
      if tf_request_id f =? request_id then
        let last := Z.max (tf_last_send_us f) proposed_us in
        Some (mkTapeFeed (tf_request_id f) (tf_instrument_id f) (tf_pending f) (tf_after f) last :: feeds, last)
      else '(feeds, time) ← send_tape_feed request_id proposed_us feeds; Some (f :: feeds, time)
  end.
Definition send_time (request_id proposed_us : Z) (p : PublicFeeds) : PublicFeeds * Z :=
  match send_feed request_id proposed_us (pf_feeds p) with
  | Some (feeds, time) => (with_feeds feeds p, time)
  | None =>
      match send_tape_feed request_id proposed_us (pf_tape_feeds p) with
      | Some (feeds, time) => (with_tape_feeds feeds p, time)
      | None => (p, proposed_us)
      end
  end.

(** ** BNP encoding *)

Inductive EntryKind : Type := EntryBid | EntryAsk | EntryTrade.
Record Entry : Type := mkEntry { en_kind : EntryKind; en_price : Z; en_quantity : Z }.
Record TapeQuote : Type := mkTapeQuote { tq_venue_id : Z; tq_side : Side; tq_price : Z; tq_quantity : Z }.
Record TapeEntry : Type := mkTapeEntry { te_venue_id : Z; te_kind : EntryKind; te_price : Z; te_quantity : Z }.
Module WireAction.
Inductive OrderAction : Type := Add | Change | Delete.
End WireAction.
Inductive OrderEntry : Type :=
  | OrderTrade (price quantity : Z) (resting_reference buyer seller : option Z)
  | OrderLine (action : WireAction.OrderAction) (side : Side) (reference price quantity : Z) (broker : option Z).
Record FeedOrder : Type := mkFeedOrder {
  fo_side : Side;
  fo_reference : Z;
  fo_price : Z;
  fo_quantity : Z;
  fo_broker : option Z;
  fo_queue_position : Z
}.

(** The feed messages of [ServerMessage]; [OtherMessage] stands for the
    rest. *)
Inductive ServerMessage : Type :=
  | MarketSnapshot (request_id : Z) (listing : ListingKey) (next_report : Z) (bids asks : list (Z * Z))
  | MarketUpdate (request_id : Z) (listing : ListingKey) (first_report : Z) (entries : list Entry)
  | OrderSnapshot (request_id : Z) (listing : ListingKey) (next_report : Z) (complete : bool) (orders : list FeedOrder)
  | OrderUpdate (request_id : Z) (listing : ListingKey) (first_report : Z) (entries : list OrderEntry)
  | TapeSnapshot (request_id instrument_id last_report : Z) (quotes : list TapeQuote)
  | TapeUpdate (request_id instrument_id first_report : Z) (entries : list TapeEntry)
  | OtherMessage.

(** [level_entry], [order_entry] *)
Definition level_entry (entry : MarketDataIncrement) : option Entry :=
  match entry with
  | IncrementTrade price quantity _ _ _ => Some (mkEntry EntryTrade price quantity)
  | IncrementLevel _ side price quantity =>
      Some (mkEntry (match side with Buy => EntryBid | Sell => EntryAsk end) price quantity)
  | IncrementOrder _ _ _ _ _ _ => None
  end.
Definition order_entry (entry : MarketDataIncrement) : option OrderEntry :=
  match entry with
  | IncrementTrade price quantity reference buyer seller => Some (OrderTrade price quantity reference buyer seller)
  | IncrementOrder action side reference price quantity broker =>
      Some (OrderLine (match action with
                       | ActionNew => WireAction.Add
                       | ActionChange => WireAction.Change
                       | ActionDelete => WireAction.Delete
                       end) side reference price quantity broker)
  | IncrementLevel _ _ _ _ => None
  end.

Inductive Kind : Type := KindLevels (listing : ListingKey) | KindOrders (listing : ListingKey) | KindTape (instrument_id : Z).

(** [encode] *)
Definition encode_increment (request_id : Z) (kind : Kind) (increment : RawIncrement) : ServerMessage :=
  let entries := ri_entries increment in
  match kind with
  | KindLevels listing =>
      MarketUpdate request_id listing (ri_first_report increment) (omap (fun e => level_entry e.2) entries)
  | KindOrders listing =>
      OrderUpdate request_id listing (ri_first_report increment) (omap (fun e => order_entry e.2) entries)
  | KindTape instrument_id =>
      TapeUpdate request_id instrument_id (ri_first_report increment)
        (omap (fun e => (fun entry => mkTapeEntry (lk_venue_id e.1) (en_kind entry) (en_price entry)
                           (en_quantity entry)) <$> level_entry e.2) entries)
  end.

Record BnpFeeds : Type := mkBnpFeeds { bf_public : PublicFeeds; bf_kinds : gmap Z Kind }.
Definition BnpFeeds_new : BnpFeeds := mkBnpFeeds (mkPublicFeeds [] [] false) ∅.

(** [BnpFeeds::encode_all]; the source and time of departure of a message
    stay with the session. *)
Definition encode_all (kinds : gmap Z Kind) (increments : list FeedMessage) : list ServerMessage :=
  omap (fun increment =>
    kind ← kinds !! fm_request_id increment;
    Some (encode_increment (fm_request_id increment) kind (fm_message increment))) increments.

(** [FeedFlags] *)
Record FeedFlags : Type := mkFeedFlags { fl_bids : bool; fl_offers : bool; fl_trades : bool; fl_orders : bool }.

(** [BnpFeeds::subscribe_venue]; enabling order feeds is the distributor's. *)
Definition subscribe_venue (request_id : Z) (listing : ListingKey) (flags : FeedFlags) (b : BnpFeeds)
    : BnpFeeds * option FeedRefusal :=
  let '(public, refused) := feeds_subscribe request_id listing (fl_bids flags) (fl_offers flags) (fl_trades flags)
                              (negb (fl_orders flags)) (bf_public b) in
  (mkBnpFeeds public
     (match refused with
      | None => <[request_id := if fl_orders flags then KindOrders listing else KindLevels listing]> (bf_kinds b)
      | Some _ => bf_kinds b
      end), refused).
(** [BnpFeeds::subscribe_tape] *)
Definition subscribe_tape (request_id instrument_id : Z) (available : bool) (b : BnpFeeds)
    : BnpFeeds * option FeedRefusal :=
  let '(public, refused) := feeds_subscribe_consolidated request_id instrument_id available (bf_public b) in
  (mkBnpFeeds public
     (match refused with None => <[request_id := KindTape instrument_id]> (bf_kinds b) | Some _ => bf_kinds b end),
   refused).
(** [BnpFeeds::unsubscribe], [activate], [on_batch], [drain_tape] *)
Definition bnp_unsubscribe (request_id : Z) (b : BnpFeeds) : BnpFeeds * bool :=
  let '(public, existed) := feeds_unsubscribe request_id (bf_public b) in
  (mkBnpFeeds public (delete request_id (bf_kinds b)), existed).
Definition bnp_activate (request_id published_before last_report : Z) (b : BnpFeeds) : BnpFeeds * list ServerMessage :=
  let '(public, messages) := activate_after request_id published_before last_report (bf_public b) in
  (mkBnpFeeds public (bf_kinds b), encode_all (bf_kinds b) messages).
Definition on_public (m : M PublicFeeds FeedFailure (list FeedMessage)) : M BnpFeeds FeedFailure (list ServerMessage) :=
  fun b => let '(public, r) := m (bf_public b) in
           (mkBnpFeeds public (bf_kinds b), messages ← r; Ok (encode_all (bf_kinds b) messages)).
Definition bnp_on_batch (batch : CommittedBatch) : M BnpFeeds FeedFailure (list ServerMessage) := on_public (on_batch batch).
Definition bnp_drain_tape (records : option (list TapeRecord)) : M BnpFeeds FeedFailure (list ServerMessage) :=
  on_public (drain_tape records).
Fixpoint bnp_on_batches (batches : list CommittedBatch) : M BnpFeeds FeedFailure (list ServerMessage) :=
  match batches with
  | [] => mret []
  | batch :: batches =>
      messages ← bnp_on_batch batch;
      more ← bnp_on_batches batches;
      mret (messages ++ more)
  end.

(** ** The client's copy *)

Module FeedError.
Inductive FeedError : Type := NoSnapshot | Gap (expected received : Z) | WrongFeed.
End FeedError.
Export FeedError (FeedError).

Record FeedBook : Type := mkFeedBook {
  fb_request_id : Z;
  fb_listing : option ListingKey;
  fb_bids : gmap Z Z;
  fb_asks : gmap Z Z;
  fb_next_report : option Z;
  fb_trades : list (Z * Z);
  fb_orders : gmap Z FeedOrder;
  fb_assembling : bool
}.
Definition FeedBook_new (request_id : Z) : FeedBook := mkFeedBook request_id None ∅ ∅ None [] ∅ false.

Definition levels_of (side : Side) (b : FeedBook) : gmap Z Z :=
  match side with Buy => fb_bids b | Sell => fb_asks b end.
Definition with_levels (side : Side) (levels : gmap Z Z) (b : FeedBook) : FeedBook :=
  match side with
  | Buy => mkFeedBook (fb_request_id b) (fb_listing b) levels (fb_asks b) (fb_next_report b) (fb_trades b)
             (fb_orders b) (fb_assembling b)
  | Sell => mkFeedBook (fb_request_id b) (fb_listing b) (fb_bids b) levels (fb_next_report b) (fb_trades b)
              (fb_orders b) (fb_assembling b)
  end.
Definition with_orders (orders : gmap Z FeedOrder) (b : FeedBook) : FeedBook :=
  mkFeedBook (fb_request_id b) (fb_listing b) (fb_bids b) (fb_asks b) (fb_next_report b) (fb_trades b)
    orders (fb_assembling b).
Definition with_report (next_report : option Z) (b : FeedBook) : FeedBook :=
  mkFeedBook (fb_request_id b) (fb_listing b) (fb_bids b) (fb_asks b) next_report (fb_trades b)
    (fb_orders b) (fb_assembling b).

Definition MAX_TRADES : Z := 1024.
(** [record_trade] *)
Definition record_feed_trade (price quantity : Z) (b : FeedBook) : FeedBook :=
  let trades := if MAX_TRADES <=? Z.of_nat (length (fb_trades b)) then tail (fb_trades b) else fb_trades b in
  mkFeedBook (fb_request_id b) (fb_listing b) (fb_bids b) (fb_asks b) (fb_next_report b)
    (trades ++ [(price, quantity)]) (fb_orders b) (fb_assembling b).

(** [i64::saturating_add] *)
Definition saturating_add_i64 (a b : Z) : Z := Z.max (int_min I64) (Z.min (int_max I64) (a + b)).

(** [adjust_level] *)
Definition adjust_level (side : Side) (price delta : Z) (b : FeedBook) : FeedBook :=
  let quantity := saturating_add_i64 (default 0 (levels_of side b !! price)) delta in
  with_levels side
    (if quantity <=? 0 then delete price (levels_of side b) else <[price := quantity]> (levels_of side b)) b.

(** [add_order] *)
Definition add_order (order : FeedOrder) (b : FeedBook) : FeedBook :=
  let previous := fb_orders b !! fo_reference order in
  let b := with_orders (<[fo_reference order := order]> (fb_orders b)) b in
  let b := match previous with
           | Some previous => adjust_level (fo_side previous) (fo_price previous) (- fo_quantity previous) b
           | None => b
           end in
  adjust_level (fo_side order) (fo_price order) (fo_quantity order) b.

(** [apply_order_entry], [apply_entry] *)
Definition apply_order_entry (b : FeedBook) (entry : OrderEntry) : FeedBook :=
  match entry with
  | OrderTrade price quantity _ _ _ => record_feed_trade price quantity b
  | OrderLine WireAction.Delete _ reference _ _ _ =>
      match fb_orders b !! reference with
      | Some order =>
          adjust_level (fo_side order) (fo_price order) (- fo_quantity order)
            (with_orders (delete reference (fb_orders b)) b)
      | None => b
      end
  | OrderLine _ side reference price quantity broker =>
      add_order (mkFeedOrder side reference price quantity broker 0) b
  end.
Definition apply_entry (b : FeedBook) (entry : Entry) : FeedBook :=
  match en_kind entry with
  | EntryTrade => record_feed_trade (en_price entry) (en_quantity entry) b
  | EntryBid | EntryAsk =>
      let side := match en_kind entry with EntryBid => Buy | _ => Sell end in
      with_levels side
        (if en_quantity entry =? 0 then delete (en_price entry) (levels_of side b)
         else <[en_price entry := en_quantity entry]> (levels_of side b)) b
  end.

(** [continues] *)
Definition continues (listing : ListingKey) (first_report entries : Z) : M FeedBook FeedError unit :=
  expected ← gets fb_next_report;
  expected ← lift (ok_or expected FeedError.NoSnapshot);
  known ← gets fb_listing;
  refuse_if (negb (bool_decide (known = Some listing))) FeedError.WrongFeed;;
  refuse_if (negb (first_report =? expected)) (FeedError.Gap expected first_report);;
  modify (with_report (Some (saturating_add U64 expected entries))).

(** [FeedBook::apply] *)
Definition feed_book_apply (message : ServerMessage) : M FeedBook FeedError bool :=
  b ← gets id;
  match message with
  | MarketSnapshot request_id listing next_report bids asks =>
      if negb (request_id =? fb_request_id b) then mret false
      else modify (fun b => mkFeedBook (fb_request_id b) (Some listing) (collect_levels bids) (collect_levels asks)
                              (Some next_report) [] ∅ false);;
           mret true
  | MarketUpdate request_id listing first_report entries =>
      if negb (request_id =? fb_request_id b) then mret false
      else continues listing first_report (Z.of_nat (length entries));;
           modify (fun b => foldl apply_entry b entries);;
           mret true
  | OrderSnapshot request_id listing next_report complete orders =>
      if negb (request_id =? fb_request_id b) then mret false
      else
        (if negb (fb_assembling b) || negb (bool_decide (fb_listing b = Some listing)) then
           modify (fun b => mkFeedBook (fb_request_id b) (Some listing) ∅ ∅ None [] ∅ (fb_assembling b))
         else mret tt);;
        modify (fun b => foldl (fun b order => add_order order b) b orders);;
        modify (fun b => mkFeedBook (fb_request_id b) (fb_listing b) (fb_bids b) (fb_asks b)
          (if complete then Some next_report else fb_next_report b) (fb_trades b) (fb_orders b) (negb complete));;
        mret true
  | OrderUpdate request_id listing first_report entries =>
      if negb (request_id =? fb_request_id b) then mret false
      else continues listing first_report (Z.of_nat (length entries));;
           modify (fun b => foldl apply_order_entry b entries);;
           mret true
  | TapeSnapshot _ _ _ _ | TapeUpdate _ _ _ _ | OtherMessage => mret false
  end.
Definition feed_book_apply_all (messages : list ServerMessage) : M FeedBook FeedError unit :=
  for_each (fun message => feed_book_apply message;; mret tt) messages.

(** ** Reading the copy *)

(** [bids], [asks], [best_bid], [best_ask] *)
Definition feed_bids (b : FeedBook) : list (Z * Z) := reverse (entries (fb_bids b)).
Definition feed_asks (b : FeedBook) : list (Z * Z) := entries (fb_asks b).
Definition feed_best_bid (b : FeedBook) : option (Z * Z) := last_entry (fb_bids b).
Definition feed_best_ask (b : FeedBook) : option (Z * Z) := first_entry (fb_asks b).

(** [is_ready] *)
Definition is_ready (b : FeedBook) : bool := bool_decide (is_Some (fb_next_report b)).

Record QueuedOrder : Type := mkQueuedOrder {
  qo_reference : Z;
  qo_side : Side;
  qo_price : Z;
  qo_quantity : Z;
  qo_broker : option Z;
  qo_quantity_ahead : Z;
  qo_position_at_price : Z
}.

(** The sort key of [FeedBook::orders]; negating an [i64] as an [i128] never
    saturates. *)
Definition queue_key (side : Side) (order : FeedOrder) : Z * Z :=
  (match side with Buy => - fo_price order | Sell => fo_price order end, fo_reference order).
Definition queue_le (side : Side) (a b : FeedOrder) : Prop := ord_le (queue_key side a) (queue_key side b).
#[export] Instance queue_le_dec side : RelDecision (queue_le side).
Proof. intros a b. unfold queue_le. apply _. Defined.

(** The loop of [FeedBook::orders]. *)
Fixpoint enqueue_orders (price : option Z) (ahead position : Z) (orders : list FeedOrder) : list QueuedOrder :=
  match orders with
  | [] => []
  | order :: orders =>
      let fresh := negb (bool_decide (price = Some (fo_price order))) in
      let ahead := if fresh then 0 else ahead in
      let position := (if fresh then 0 else position) + 1 in
      mkQueuedOrder (fo_reference order) (fo_side order) (fo_price order) (fo_quantity order) (fo_broker order)
        ahead position
      :: enqueue_orders (Some (fo_price order)) (saturating_add_i64 ahead (fo_quantity order)) position orders
  end.

(** [FeedBook::orders], [FeedBook::order] *)
Definition feed_orders (b : FeedBook) (side : Side) : list QueuedOrder :=
  enqueue_orders None 0 0
    (merge_sort (queue_le side) (filter (fun order => fo_side order = side) (values (fb_orders b)))).
Definition feed_order (b : FeedBook) (reference : Z) : option QueuedOrder :=
  order ← fb_orders b !! reference;
  head (filter (fun queued => qo_reference queued = reference) (feed_orders b (fo_side order))).

(** * Public market data: what one message does to a client's copy

    The differences the venue publishes move a client's levels from one
    committed view to the next, and each feed's messages reach only the
    client copy with its request identity. *)

(** ** Differences between views *)

(** Setting a level to a quantity, zero removing it. *)
Definition set_level (levels : gmap Z Z) (price quantity : Z) : gmap Z Z :=
  if quantity =? 0 then delete price levels else <[price := quantity]> levels.
Definition set_levels (levels : gmap Z Z) (changes : list LevelChange) : gmap Z Z :=
  foldl (fun m change => set_level m (lc_price change) (lc_quantity change)) levels changes.

Lemma set_level_eq m p q : set_level m p q !! p = if q =? 0 then None else Some q.
Proof. unfold set_level. destruct (q =? 0); by rewrite ?lookup_delete_eq, ?lookup_insert_eq. Qed.
Lemma set_level_ne m p q p' : p <> p' -> set_level m p q !! p' = m !! p'.
Proof. intros Hp. unfold set_level. destruct (q =? 0); by rewrite ?lookup_delete_ne, ?lookup_insert_ne. Qed.

Lemma set_levels_away changes : forall m p, p ∉ lc_price <$> changes -> set_levels m changes !! p = m !! p.
Proof.
  induction changes as [|c changes IH]; intros m p Hp; [done |]. simpl in Hp. apply not_elem_of_cons in Hp as [Hne Hp].
  unfold set_levels in *. simpl. rewrite IH by done. by apply set_level_ne.
Qed.
Lemma set_levels_at changes : forall m c, NoDup (lc_price <$> changes) -> c ∈ changes ->
  set_levels m changes !! lc_price c = if lc_quantity c =? 0 then None else Some (lc_quantity c).
Proof.
  induction changes as [|c0 changes IH]; intros m c Hnd Hc; [by apply not_elem_of_nil in Hc |].
  simpl in Hnd. apply NoDup_cons in Hnd as [Hc0 Hnd]. unfold set_levels in *. simpl.
  apply elem_of_cons in Hc as [->|Hc]; [| by apply IH].
  pose proof (set_levels_away changes (set_level m (lc_price c0) (lc_quantity c0)) (lc_price c0) Hc0) as Ha.
  unfold set_levels in Ha. rewrite Ha. apply set_level_eq.
Qed.

Section diff.
Context (side : Side) (old new : list (Z * Z)).
Local Notation before := (collect_levels old).
Local Notation after := (collect_levels new).
Local Notation quantity m p := (default 0 (m !! p)).

Lemma elem_of_diff_side c :
  c ∈ diff_side side old new <->
  c = mkLevelChange side (lc_price c) (quantity before (lc_price c)) (quantity after (lc_price c)) /\
  quantity before (lc_price c) <> quantity after (lc_price c).
Proof.
  unfold diff_side. rewrite list_elem_of_omap. split.
  - intros (p & _ & Hc). cbv zeta in Hc. destruct (Z.eqb_spec (quantity before p) (quantity after p)); [done |].
    by injection Hc as <-.
  - intros [-> Hne]. cbn [lc_price] in *. exists (lc_price c). rewrite merge_sort_Permutation, elem_of_elements. split.
    + apply elem_of_union. rewrite !elem_of_dom. unfold default in Hne. destruct (before !! _) eqn:Hb; [by left |].
      destruct (after !! _) eqn:Ha; [by right |]. done.
    + cbv zeta. by apply Z.eqb_neq in Hne as ->.
Qed.

Lemma diff_side_prices : NoDup (lc_price <$> diff_side side old new).
Proof.
  unfold diff_side. cbv zeta. set (l := merge_sort _ _).
  assert (Hl : NoDup l) by (unfold l; rewrite merge_sort_Permutation; apply NoDup_elements).
  clearbody l. induction Hl as [|p l Hp Hl IH]; [constructor |]. simpl. destruct (_ =? _); [done |]. simpl.
  constructor; [| done]. intros (c & Hc & Hin)%list_elem_of_fmap. apply list_elem_of_omap in Hin as (p' & Hp' & Hf).
  destruct (_ =? _); [done |]. injection Hf as <-. simpl in Hc. by subst.
Qed.

Lemma diff_side_side c : c ∈ diff_side side old new -> lc_side c = side.
Proof. intros [-> _]%elem_of_diff_side. done. Qed.

(** The differences carry one view to the next. *)
Lemma set_levels_diff :
  map_Forall (fun _ q => q <> 0) before -> map_Forall (fun _ q => q <> 0) after ->
  set_levels before (diff_side side old new) = after.
Proof.
  intros Hb Ha. apply map_eq. intros p.
  destruct (decide (quantity before p = quantity after p)) as [He|Hne].
  - rewrite set_levels_away.
    + destruct (before !! p) as [q|] eqn:Hq, (after !! p) as [q'|] eqn:Hq'; simpl in He; [by subst | | | done].
      * by apply (Hb p q) in Hq.
      * apply (Ha p q') in Hq'. congruence.
    + intros (c & -> & Hc)%list_elem_of_fmap. by apply elem_of_diff_side in Hc as [_ ?].
  - set (c := mkLevelChange side p (quantity before p) (quantity after p)).
    change p with (lc_price c) at 1. rewrite set_levels_at; [| apply diff_side_prices | by apply elem_of_diff_side].
    simpl. destruct (after !! p) as [q|] eqn:Hq; simpl; [| done]. apply (Ha p q) in Hq. by apply Z.eqb_neq in Hq as ->.
Qed.
End diff.

Lemma diff_side_same side levels : diff_side side levels levels = [].
Proof.
  destruct (diff_side side levels levels) as [|c l] eqn:He; [done |].
  assert (Hc : c ∈ diff_side side levels levels) by (rewrite He; left). by apply elem_of_diff_side in Hc as [_ ?].
Qed.
Lemma diff_levels_same d : diff_levels d d = [].
Proof. unfold diff_levels. by rewrite !diff_side_same. Qed.

(** ** Level entries on a client's copy *)

(** The maps a client's copy must hold for a committed view. *)
Definition depth_nonzero (d : PublicDepth) : Prop :=
  map_Forall (fun _ q => q <> 0) (collect_levels d.1) /\ map_Forall (fun _ q => q <> 0) (collect_levels d.2).

Definition apply_change (b : FeedBook) (change : LevelChange) : FeedBook :=
  with_levels (lc_side change) (set_level (levels_of (lc_side change) b) (lc_price change) (lc_quantity change)) b.

Lemma apply_changes_side changes : forall b side,
  levels_of side (foldl apply_change b changes) =
  set_levels (levels_of side b) (filter (fun c => lc_side c = side) changes).
Proof.
  induction changes as [|c changes IH]; intros b side; [done |]. simpl. rewrite IH, filter_cons.
  unfold apply_change, set_levels. destruct (decide (lc_side c = side)) as [<-|Hne].
  - simpl. by destruct (lc_side c).
  - f_equal. by destruct (lc_side c), side.
Qed.

(** The parts of a copy the entries of an update leave alone. *)
Definition kept (b b' : FeedBook) : Prop :=
  fb_request_id b' = fb_request_id b /\ fb_listing b' = fb_listing b /\ fb_next_report b' = fb_next_report b.
#[export] Instance kept_preorder : PreOrder kept.
Proof. split; [done |]. unfold kept. intros ???. naive_solver congruence. Qed.

Lemma filter_diff_levels d d' side :
  filter (fun c => lc_side c = side) (diff_levels d d') =
  match side with Buy => diff_side Buy d.1 d'.1 | Sell => diff_side Sell d.2 d'.2 end.
Proof.
  unfold diff_levels. rewrite filter_app.
  assert (Hs : forall s l l', filter (fun c => lc_side c = side) (diff_side s l l') = if decide (s = side) then diff_side s l l' else []).
  { intros s l l'. destruct (decide (s = side)) as [->|Hne].
    - apply filter_all, Forall_forall. intros c Hc. by eapply diff_side_side.
    - apply filter_none, Forall_forall. intros c Hc <-. by apply diff_side_side in Hc. }
  rewrite !Hs. destruct side; simpl; by rewrite ?app_nil_r.
Qed.

(** The entries a price-level feed encodes. *)
Definition trade_entry (trade : PublicTrade) : Entry := mkEntry EntryTrade (pt_price trade) (pt_quantity trade).
Definition change_entry (change : LevelChange) : Entry :=
  mkEntry (match lc_side change with Buy => EntryBid | Sell => EntryAsk end) (lc_price change) (lc_quantity change).
Definition level_entries (f : Feed) (u : PublicListingUpdate) : list Entry :=
  (if fe_trades f then trade_entry <$> pu_trades u else [])
  ++ (change_entry <$> filter (fun c => wanted f (lc_side c) = true) (pu_levels u)).

Lemma omap_fmap_Some {A B C} (g : A -> B) (h : B -> option C) (k : A -> C) (l : list A) :
  (forall x, h (g x) = Some (k x)) -> omap h (g <$> l) = k <$> l.
Proof. intros Hh. induction l as [|x l IH]; [done |]. cbn. rewrite Hh. f_equal. exact IH. Qed.

Lemma encode_level_entries f u (key : ListingKey) :
  fe_detail f = Levels ->
  omap (fun e => level_entry e.2) ((fun e => (key, e)) <$> feed_entries f u) = level_entries f u.
Proof.
  intros Hd. unfold feed_entries, level_entries. rewrite Hd, fmap_app, omap_app. f_equal.
  - destruct (fe_trades f); [| done]. rewrite <- list_fmap_compose. by apply omap_fmap_Some.
  - rewrite <- list_fmap_compose. by apply omap_fmap_Some.
Qed.
Lemma length_level_entries f u : fe_detail f = Levels -> length (level_entries f u) = length (feed_entries f u).
Proof.
  intros Hd. unfold feed_entries, level_entries. rewrite Hd, !length_app, !length_fmap. f_equal.
  destruct (fe_trades f); by rewrite ?length_fmap.
Qed.

Lemma trade_entries_kept trades : forall b,
  let b' := foldl apply_entry b (trade_entry <$> trades) in
  kept b b' /\ fb_bids b' = fb_bids b /\ fb_asks b' = fb_asks b.
Proof.
  induction trades as [|t trades IH]; intros b; [done |]. simpl.
  destruct (IH (apply_entry b (trade_entry t))) as (K & B & A). split_and!; [| exact B | exact A]. etrans; [| exact K]. done.
Qed.
Lemma apply_change_entry b c : apply_entry b (change_entry c) = apply_change b c.
Proof. unfold apply_entry, apply_change, change_entry. by destruct (lc_side c). Qed.
Lemma change_entries changes : forall b, foldl apply_entry b (change_entry <$> changes) = foldl apply_change b changes.
Proof.
  induction changes as [|c changes IH]; intros b; [done |]. cbn [foldl fmap list_fmap].
  rewrite apply_change_entry. apply IH.
Qed.
Lemma changes_kept changes : forall b, kept b (foldl apply_change b changes).
Proof.
  induction changes as [|c changes IH]; intros b; [done |]. simpl. etrans; [| apply IH].
  unfold apply_change. by destruct (lc_side c).
Qed.

(** ** A copy in step with a price-level feed *)

Record level_feed (id : Z) (key : ListingKey) (f : Feed) : Prop := {
  lf_id : fe_request_id f = id;
  lf_key : fe_listing_key f = key;
  lf_bids : fe_bids f = true;
  lf_offers : fe_offers f = true;
  lf_detail : fe_detail f = Levels
}.
Record shows (id : Z) (key : ListingKey) (next : Z) (d : PublicDepth) (b : FeedBook) : Prop := {
  sh_id : fb_request_id b = id;
  sh_listing : fb_listing b = Some key;
  sh_next : fb_next_report b = Some next;
  sh_bids : fb_bids b = collect_levels d.1;
  sh_asks : fb_asks b = collect_levels d.2
}.

Lemma level_entries_show id key next f u d d' b :
  level_feed id key f -> pu_levels u = diff_levels d d' -> depth_nonzero d -> depth_nonzero d' ->
  shows id key next d b -> shows id key next d' (foldl apply_entry b (level_entries f u)).
Proof.
  intros Hf Hu [N1 N2] [N1' N2'] Hb. unfold level_entries. rewrite foldl_app.
  assert (Hw : filter (fun c => wanted f (lc_side c) = true) (pu_levels u) = pu_levels u).
  { apply filter_all, Forall_forall. intros c _. unfold wanted. rewrite (lf_bids _ _ _ Hf), (lf_offers _ _ _ Hf).
    by destruct (lc_side c). }
  rewrite Hw, Hu, change_entries.
  set (b1 := foldl apply_entry b (if fe_trades f then trade_entry <$> pu_trades u else [])).
  assert (H1 : kept b b1 /\ fb_bids b1 = fb_bids b /\ fb_asks b1 = fb_asks b).
  { unfold b1. destruct (fe_trades f); [apply trade_entries_kept | done]. }
  clearbody b1. destruct H1 as ((K1 & K2 & K3) & B & A), (changes_kept (diff_levels d d') b1) as (K1' & K2' & K3').
  destruct Hb as [I L X Bd Ad]. split; try congruence.
  - change (fb_bids ?b) with (levels_of Buy b). rewrite apply_changes_side, filter_diff_levels. simpl. rewrite B, Bd.
    by apply set_levels_diff.
  - change (fb_asks ?b) with (levels_of Sell b). rewrite apply_changes_side, filter_diff_levels. simpl. rewrite A, Ad.
    by apply set_levels_diff.
Qed.

(** What [continues] answers. *)
Lemma continues_run key next n b :
  fb_listing b = Some key -> fb_next_report b = Some next ->
  continues key next n b = (with_report (Some (saturating_add U64 next n)) b, Ok tt).
Proof.
  intros L X. unfold continues. rewrite bind_gets, X. cbn [ok_or]. rewrite (bind_lift _ _ _ next) by done.
  rewrite bind_gets, L, bool_decide_true by done. rewrite !bind_refuse; [done | by rewrite Z.eqb_refl | done].
Qed.
Lemma continues_gap key next first n b :
  fb_listing b = Some key -> fb_next_report b = Some next -> first <> next ->
  continues key first n b = (b, Err (FeedError.Gap next first)).
Proof.
  intros L X Hne. unfold continues. rewrite bind_gets, X. cbn [ok_or]. rewrite (bind_lift _ _ _ next) by done.
  rewrite bind_gets, L, bool_decide_true by done. rewrite bind_refuse by done.
  by apply Z.eqb_neq in Hne as ->.
Qed.

(** One update message. *)
Lemma update_shows id key next f u d d' b :
  level_feed id key f -> pu_levels u = diff_levels d d' -> depth_nonzero d -> depth_nonzero d' ->
  shows id key next d b ->
  exists b', feed_book_apply (encode_increment id (KindLevels key)
               (mkRawIncrement next ((fun e => (key, e)) <$> feed_entries f u))) b = (b', Ok true) /\
    shows id key (saturating_add U64 next (Z.of_nat (length (feed_entries f u)))) d' b'.
Proof.
  intros Hf Hu Hd Hd' Hb. unfold encode_increment. cbv zeta. cbn [ri_entries ri_first_report].
  rewrite (encode_level_entries f u key (lf_detail _ _ _ Hf)), <- (length_level_entries f u (lf_detail _ _ _ Hf)).
  unfold feed_book_apply. rewrite bind_gets. change (Datatypes.id b) with b.
  destruct Hb as [I L X Bd Ad]. rewrite I, Z.eqb_refl. cbn [negb].
  unfold mbind, M_bind at 1. rewrite (continues_run key next _ b L X). eexists. split; [done |].
  by apply (level_entries_show _ _ _ _ _ d).
Qed.
