(* ===== verification/FeedSession.v ===== *)
(** * One session's feeds

    A session holds many subscriptions.  Each batch reaches every feed once,
    in order; a client copy reads only the messages with its request
    identity, so feeds do not disturb one another. *)

From S2P Require Import Prelude Ordered MarketTypes MarketEvents Latency Hoare MarketFeed.
#[local] Open Scope list_scope.

(** ** The copy reads its own messages *)

Definition message_request (message : ServerMessage) : option Z :=
  match message with
  | MarketSnapshot id _ _ _ _ | MarketUpdate id _ _ _ | OrderSnapshot id _ _ _ _ | OrderUpdate id _ _ _
  | TapeSnapshot id _ _ _ | TapeUpdate id _ _ _ => Some id
  | OtherMessage => None
  end.

Lemma feed_book_apply_other message b :
  message_request message <> Some (fb_request_id b) -> feed_book_apply message b = (b, Ok false).
Proof.
  intros Hne. unfold feed_book_apply. rewrite bind_gets. change (id b) with b.
  destruct message; simpl in Hne; try done;
    (destruct (Z.eqb_spec request_id (fb_request_id b)); [congruence | done]).
Qed.

Definition same_request (b b' : FeedBook) : Prop := fb_request_id b' = fb_request_id b.
#[export] Instance same_request_preorder : PreOrder same_request.
Proof. split; [done |]. unfold same_request. intros ???. congruence. Qed.
Lemma foldl_same_request {A} (g : FeedBook -> A -> FeedBook) l :
  (forall b x, same_request b (g b x)) -> forall b, same_request b (foldl g b l).
Proof. intros Hg. induction l as [|x l IH]; intros b; [done |]. simpl. etrans; [apply Hg | apply IH]. Qed.
Lemma apply_entry_request b e : same_request b (apply_entry b e).
Proof. unfold apply_entry. by destruct (en_kind e). Qed.
Lemma adjust_level_request side p q b : same_request b (adjust_level side p q b).
Proof. unfold adjust_level. by destruct side. Qed.
Lemma add_order_request b o : same_request b (add_order o b).
Proof.
  unfold add_order. etrans; [| apply adjust_level_request]. destruct (fb_orders b !! _); [| done].
  etrans; [| apply adjust_level_request]. done.
Qed.
Lemma apply_order_entry_request b e : same_request b (apply_order_entry b e).
Proof.
  destruct e as [|action side reference price quantity broker]; [done |]. unfold apply_order_entry.
  destruct action; try apply add_order_request. destruct (fb_orders b !! reference); [| done].
  etrans; [| apply adjust_level_request]. done.
Qed.
Lemma continues_request key first n : stays same_request (continues key first n).
Proof. unfold continues. repeat stays_step. done. Qed.

Lemma feed_book_apply_request message : stays same_request (feed_book_apply message).
Proof.
  unfold feed_book_apply. stays_step; [stays_step |].
  destruct message; try stays_step; case_match; repeat (stays_step || apply continues_request || case_match); try done.
  all: intros b; apply foldl_same_request; intros.
  - apply apply_entry_request.
  - apply add_order_request.
  - apply apply_order_entry_request.
Qed.

Lemma apply_all_cons m messages b :
  feed_book_apply_all (m :: messages) b =
  match feed_book_apply m b with
  | (b1, Ok _) => feed_book_apply_all messages b1
  | (b1, Err e) => (b1, Err e)
  end.
Proof.
  unfold feed_book_apply_all. cbn [for_each]. unfold mbind, M_bind. by destruct (feed_book_apply m b) as [b1 [x|e]].
Qed.
Lemma apply_all_app ms1 : forall ms2 b,
  feed_book_apply_all (ms1 ++ ms2) b =
  match feed_book_apply_all ms1 b with
  | (b1, Ok _) => feed_book_apply_all ms2 b1
  | (b1, Err e) => (b1, Err e)
  end.
Proof.
  induction ms1 as [|m ms1 IH]; intros ms2 b; [done |]. rewrite <- app_comm_cons, !apply_all_cons.
  destruct (feed_book_apply m b) as [b1 [x|e]]; [apply IH | done].
Qed.

(** Only the messages of the copy's request matter. *)
Lemma feed_book_apply_own messages : forall b,
  feed_book_apply_all messages b =
  feed_book_apply_all (filter (fun m => message_request m = Some (fb_request_id b)) messages) b.
Proof.
  induction messages as [|m messages IH]; intros b; [done |]. rewrite filter_cons, apply_all_cons.
  destruct (decide (message_request m = Some (fb_request_id b))) as [Hm|Hm].
  - rewrite apply_all_cons. pose proof (stays_state _ _ b (feed_book_apply_request m)) as Hr.
    destruct (feed_book_apply m b) as [b1 [x|e]]; [| done]. simpl in Hr. rewrite IH. unfold same_request in Hr. by rewrite Hr.
  - rewrite (feed_book_apply_other m b Hm). apply IH.
Qed.

(** ** The feeds of a session *)

Definition kind_of (f : Feed) : Kind :=
  match fe_detail f with Levels => KindLevels (fe_listing_key f) | Orders => KindOrders (fe_listing_key f) end.

(** Request identities are unique and every feed is encoded as what it is. *)
Record feeds_ok (b : BnpFeeds) : Prop := {
  fk_unique : NoDup (fe_request_id <$> pf_feeds (bf_public b));
  fk_kinds : forall f, f ∈ pf_feeds (bf_public b) -> bf_kinds b !! fe_request_id f = Some (kind_of f);
  fk_tape : forall f, f ∈ pf_feeds (bf_public b) -> fe_request_id f ∉ tf_request_id <$> pf_tape_feeds (bf_public b)
}.

Lemma BnpFeeds_new_ok : feeds_ok BnpFeeds_new.
Proof. split; simpl; [constructor | |]; intros f Hf; by apply not_elem_of_nil in Hf. Qed.

(** What a feed is subscribed to. *)
Definition identity (f : Feed) := (fe_request_id f, fe_listing_key f, fe_bids f, fe_offers f, fe_trades f, fe_detail f).

Lemma feed_apply_identity batch f :
  identity (feed_apply batch f).1 = identity f /\ fe_pending (feed_apply batch f).1 = fe_pending f /\
  Forall (fun m => fm_request_id m = fe_request_id f) (option_list (feed_apply batch f).2).
Proof.
  unfold feed_apply, feed_increment. case (bool_decide _); [by split_and!; [| | constructor] |].
  destruct (listing_update _ _); [| by split_and!; [| | constructor]].
  destruct (feed_entries f _); [by split_and!; [| | constructor] |]. split_and!; [done | done |]. by repeat constructor.
Qed.
Lemma feed_apply_all_identity batches : forall f,
  identity (feed_apply_all batches f).1 = identity f /\
  Forall (fun m => fm_request_id m = fe_request_id f) (feed_apply_all batches f).2.
Proof.
  induction batches as [|b batches IH]; intros f; [by split; [| constructor] |]. simpl.
  destruct (feed_apply_identity b f) as (I & _ & M). destruct (feed_apply b f) as [f1 m]. simpl in *.
  destruct (IH f1) as [I1 M1]. destruct (feed_apply_all batches f1) as [f2 ms]. simpl in *.
  split; [congruence |]. apply Forall_app. split; [done |]. unfold identity in I. by replace (fe_request_id f) with (fe_request_id f1) by congruence.
Qed.
Lemma feed_on_batch_identity batch f f' ms :
  feed_on_batch batch f = (f', Ok ms) ->
  identity f' = identity f /\ Forall (fun m => fm_request_id m = fe_request_id f) ms.
Proof.
  unfold feed_on_batch. destruct (_ && _); [by intros [= <- <-]; split; [| constructor] |].
  destruct (fe_pending f) as [buffer|].
  - destruct (_ <=? _); [done |]. by intros [= <- <-]; split; [| constructor].
  - destruct (feed_apply_identity batch f) as (I & _ & M). destruct (feed_apply batch f) as [f1 m]. by intros [= <- <-].
Qed.

(** The messages of one request in what a batch gave all feeds. *)
Lemma feeds_on_batch_spec batch : forall feeds feeds' ms,
  feeds_on_batch batch feeds = (feeds', Ok ms) ->
  identity <$> feeds' = identity <$> feeds /\
  Forall (fun m => fm_request_id m ∈ fe_request_id <$> feeds) ms /\
  (NoDup (fe_request_id <$> feeds) -> forall f, f ∈ feeds ->
    exists f' own, feed_on_batch batch f = (f', Ok own) /\ f' ∈ feeds' /\
      filter (fun m => fm_request_id m = fe_request_id f) ms = own).
Proof.
  induction feeds as [|f0 feeds IH]; intros feeds' ms; simpl.
  - intros [= <- <-]. split_and!; [done | constructor |]. intros _ f Hf. by apply not_elem_of_nil in Hf.
  - destruct (feed_on_batch batch f0) as [f0' [own0|e]] eqn:H0; [| done].
    destruct (feeds_on_batch batch feeds) as [rest [more|e]] eqn:Hr; [| done]. intros [= <- <-].
    destruct (IH rest more eq_refl) as (I & M & S).
    destruct (feed_on_batch_identity _ _ _ _ H0) as [I0 M0]. split_and!.
    + by rewrite !fmap_cons, I0, I.
    + apply Forall_app. split; [eapply Forall_impl; [exact M0 |]; simpl; intros m ->; left |].
      eapply Forall_impl; [exact M |]. simpl. intros m Hm. by right.
    + intros [Hn Hnd]%NoDup_cons f Hf. rewrite filter_app. apply elem_of_cons in Hf as [->|Hf].
      * exists f0', own0. split_and!; [done | left |]. rewrite (filter_all _ own0) by done.
        rewrite (filter_none _ more), app_nil_r; [done |]. eapply Forall_impl; [exact M |]. simpl. intros m Hm He. by rewrite He in Hm.
      * destruct (S Hnd f Hf) as (f' & own & Ho & Hin & Hfl). exists f', own. split_and!; [done | by right |].
        rewrite Hfl, (filter_none _ own0); [done |]. eapply Forall_impl; [exact M0 |]. simpl. intros m -> He.
        apply Hn. rewrite He. apply list_elem_of_fmap. by exists f.
Qed.

Lemma identity_ids (fs fs' : list Feed) : identity <$> fs' = identity <$> fs -> fe_request_id <$> fs' = fe_request_id <$> fs.
Proof.
  intros H. apply (f_equal (fmap (fun i : Z * ListingKey * bool * bool * bool * Detail => i.1.1.1.1.1))) in H.
  by rewrite <- !list_fmap_compose in H.
Qed.
Lemma identity_find (fs fs' : list Feed) f' :
  identity <$> fs' = identity <$> fs -> f' ∈ fs' -> exists f, f ∈ fs /\ identity f' = identity f.
Proof.
  intros H Hf. assert (Hi : identity f' ∈ identity <$> fs) by (rewrite <- H; apply list_elem_of_fmap; by exists f').
  by apply list_elem_of_fmap in Hi as (f & ? & ?); exists f.
Qed.
Lemma feeds_ok_identity feeds b :
  identity <$> feeds = identity <$> pf_feeds (bf_public b) -> feeds_ok b ->
  feeds_ok (mkBnpFeeds (with_feeds feeds (bf_public b)) (bf_kinds b)).
Proof.
  intros Hi [U K T]. split; simpl.
  - by rewrite (identity_ids _ _ Hi).
  - intros f' (f & Hf & He)%(identity_find _ _ _ Hi). unfold identity in He. injection He as E1 E2 _ _ _ E6.
    unfold kind_of. rewrite E1, E2, E6. by apply K.
  - intros f' (f & Hf & He)%(identity_find _ _ _ Hi). unfold identity in He. injection He as -> _ _ _ _ _. by apply T.
Qed.

Lemma encode_all_cons kinds m messages :
  encode_all kinds (m :: messages) =
  option_list ((fun kind => encode_increment (fm_request_id m) kind (fm_message m)) <$> kinds !! fm_request_id m)
  ++ encode_all kinds messages.
Proof. unfold encode_all. simpl. by destruct (kinds !! fm_request_id m). Qed.

(** The encoded messages of one request are the encodings of its own. *)
Lemma encode_own kinds id kind messages :
  kinds !! id = Some kind ->
  filter (fun m => message_request m = Some id) (encode_all kinds messages) =
  (fun m => encode_increment id kind (fm_message m)) <$> filter (fun m => fm_request_id m = id) messages.
Proof.
  intros Hk. induction messages as [|m messages IH]; [done |]. rewrite encode_all_cons, filter_app, IH, filter_cons.
  destruct (kinds !! fm_request_id m) as [kind'|] eqn:Hm; simpl.
  - rewrite filter_cons, filter_nil.
    assert (Hr : message_request (encode_increment (fm_request_id m) kind' (fm_message m)) = Some (fm_request_id m))
      by (by destruct kind').
    rewrite Hr. destruct (decide (fm_request_id m = id)) as [He|Hne].
    + rewrite decide_True by congruence. rewrite He in Hm |- *. by replace kind' with kind by congruence.
    + by rewrite decide_False by congruence.
  - destruct (decide (fm_request_id m = id)) as [He|Hne]; [congruence | done].
Qed.

Section session.
Context (id : Z).
Local Notation own := (filter (fun m => message_request m = Some id)).
Local Notation encoded f ms := ((fun m => encode_increment id (kind_of f) (fm_message m)) <$> ms).

(** One batch, as one of the session's feeds sees it. *)
Lemma bnp_on_batch_feed batch b b' messages f :
  feeds_ok b -> bnp_on_batch batch b = (b', Ok messages) -> f ∈ pf_feeds (bf_public b) -> fe_request_id f = id ->
  feeds_ok b' /\ exists f' mine,
    feed_on_batch batch f = (f', Ok mine) /\ f' ∈ pf_feeds (bf_public b') /\ own messages = encoded f mine.
Proof.
  intros Hb Hrun Hf Hid. unfold bnp_on_batch, on_public, on_batch in Hrun.
  destruct (feeds_on_batch batch (pf_feeds (bf_public b))) as [feeds [ms|e]] eqn:He; [| done].
  apply feeds_on_batch_spec in He as (I & _ & S). injection Hrun as <- <-.
  destruct (S (fk_unique _ Hb) f Hf) as (f' & mine & Ho & Hin & Hfl). split; [by apply feeds_ok_identity |].
  exists f', mine. split_and!; [done | done |]. rewrite (encode_own _ id (kind_of f)).
  - subst id. by rewrite Hfl.
  - subst id. by apply (fk_kinds _ Hb).
Qed.

(** The batches a feed reacts to. *)
Definition concerns (key : ListingKey) (batch : CommittedBatch) : Prop :=
  Exists (fun update => pu_listing_key update = key) (cb_public batch) \/ key ∈ cb_public_gaps batch.
#[global] Instance concerns_dec key batch : Decision (concerns key batch).
Proof. unfold concerns. apply _. Defined.

Lemma listing_update_none key batch : ~ concerns key batch -> listing_update batch key = None.
Proof.
  intros Hc. unfold listing_update. rewrite filter_none; [done |]. apply Forall_forall. intros u Hu He. apply Hc. left.
  apply Exists_exists. by exists u.
Qed.
Lemma feed_apply_unconcerned batch f : ~ concerns (fe_listing_key f) batch -> feed_apply batch f = (f, None).
Proof.
  intros Hc. unfold feed_apply. rewrite bool_decide_false by (intros ?; apply Hc; by right).
  unfold feed_increment. by rewrite listing_update_none.
Qed.
Lemma feed_apply_all_concerned batches : forall f,
  feed_apply_all (filter (concerns (fe_listing_key f)) batches) f = feed_apply_all batches f.
Proof.
  induction batches as [|b batches IH]; intros f; [done |]. rewrite filter_cons. cbn [feed_apply_all].
  destruct (decide (concerns (fe_listing_key f) b)) as [Hc|Hc].
  - cbn [feed_apply_all]. destruct (feed_apply_identity b f) as (I & _ & _). destruct (feed_apply b f) as [f1 m].
    simpl in I. unfold identity in I. replace (fe_listing_key f) with (fe_listing_key f1) by congruence. by rewrite IH.
  - rewrite (feed_apply_unconcerned b f Hc). rewrite IH. by destruct (feed_apply_all batches f).
Qed.

Lemma feed_on_batch_active batch f :
  fe_pending f = None -> feed_on_batch batch f = ((feed_apply batch f).1, Ok (option_list (feed_apply batch f).2)).
Proof.
  intros Hp. unfold feed_on_batch. rewrite Hp. destruct (_ && _) eqn:Hc; [| by destruct (feed_apply batch f)].
  apply andb_true_iff in Hc as [H1%negb_true_iff H2%negb_true_iff]. apply bool_decide_eq_false in H1, H2.
  rewrite feed_apply_unconcerned; [done |]. by intros [?|?].
Qed.
Lemma feed_on_batch_pending batch f buffer f' ms :
  fe_pending f = Some buffer -> feed_on_batch batch f = (f', Ok ms) ->
  ms = [] /\ f' = feed_pending (Some (buffer ++ filter (concerns (fe_listing_key f)) [batch])) f.
Proof.
  intros Hp. unfold feed_on_batch. rewrite Hp, filter_cons, filter_nil. unfold concerns at 1.
  destruct (bool_decide (Exists _ _)) eqn:H1; [| destruct (bool_decide (_ ∈ _)) eqn:H2]; simpl.
  - apply bool_decide_eq_true in H1. rewrite decide_True by (by left). destruct (_ <=? _); [done |]. by intros [= <- <-].
  - apply bool_decide_eq_true in H2. rewrite decide_True by (by right). destruct (_ <=? _); [done |]. by intros [= <- <-].
  - apply bool_decide_eq_false in H1, H2. rewrite decide_False by (by intros [?|?]). intros [= <- <-].
    rewrite app_nil_r. split; [done |]. destruct f. simpl in *. by subst.
Qed.
End session.

(** * A price-level feed carries the book

    From the snapshot on, the messages of a price-level feed keep the
    client's copy in step with the venue's published views; a projection
    failure is never silent. *)

(** A batch that carries one view of a listing to the next. *)
Record carries (key : ListingKey) (batch : CommittedBatch) (d d' : PublicDepth) : Prop := {
  cy_whole : key ∉ cb_public_gaps batch;
  cy_levels : default [] (pu_levels <$> listing_update batch key) = diff_levels d d';
  cy_nonzero : depth_nonzero d'
}.
Fixpoint carried (key : ListingKey) (batches : list CommittedBatch) (d d' : PublicDepth) : Prop :=
  match batches with
  | [] => d' = d
  | batch :: batches => exists d1, carries key batch d d1 /\ carried key batches d1 d'
  end.

Lemma carried_app key bs1 : forall bs2 d d',
  carried key (bs1 ++ bs2) d d' <-> exists d1, carried key bs1 d d1 /\ carried key bs2 d1 d'.
Proof.
  induction bs1 as [|b bs1 IH]; intros bs2 d d'; simpl.
  - split; [by exists d | by intros (? & -> & ?)].
  - setoid_rewrite IH. naive_solver.
Qed.
Lemma carried_nonzero key bs : forall d d', carried key bs d d' -> depth_nonzero d -> depth_nonzero d'.
Proof.
  induction bs as [|b bs IH]; intros d d'; simpl; [by intros -> |]. intros (d1 & [_ _ N] & H) _. by eapply IH.
Qed.

(** No difference means the same levels. *)
Lemma diff_levels_nil d d' :
  depth_nonzero d -> depth_nonzero d' -> diff_levels d d' = [] ->
  collect_levels d'.1 = collect_levels d.1 /\ collect_levels d'.2 = collect_levels d.2.
Proof.
  intros [N1 N2] [N1' N2']. unfold diff_levels. intros [H1 H2]%app_eq_nil.
  split; [rewrite <- (set_levels_diff Buy d.1 d'.1) by done | rewrite <- (set_levels_diff Sell d.2 d'.2) by done];
    by rewrite ?H1, ?H2.
Qed.
Lemma shows_same id key next d d' b :
  depth_nonzero d -> depth_nonzero d' -> diff_levels d d' = [] -> shows id key next d b -> shows id key next d' b.
Proof.
  intros N N' Hd [I L X B A]. destruct (diff_levels_nil d d' N N' Hd) as [E1 E2]. split; congruence.
Qed.

Lemma level_feed_identity id key f f' : identity f' = identity f -> level_feed id key f -> level_feed id key f'.
Proof. unfold identity. intros He [? ? ? ? ?]. injection He as E1 E2 E3 E4 _ E6. split; congruence. Qed.
Lemma level_feed_kind id key f : level_feed id key f -> kind_of f = KindLevels key.
Proof. intros [_ <- _ _ Hd]. unfold kind_of. by rewrite Hd. Qed.

Local Notation sent id key ms := ((fun m => encode_increment id (KindLevels key) (fm_message m)) <$> ms).

(** One batch on an active feed. *)
Lemma feed_apply_shows id key f batch d d' b :
  level_feed id key f -> carries key batch d d' -> depth_nonzero d -> shows id key (fe_next_report f) d b ->
  exists b', feed_book_apply_all (sent id key (option_list (feed_apply batch f).2)) b = (b', Ok tt) /\
    shows id key (fe_next_report (feed_apply batch f).1) d' b'.
Proof.
  intros Hf [Hg Hl N'] N Hb. unfold feed_apply. rewrite (lf_key _ _ _ Hf), bool_decide_false by done.
  unfold feed_increment. rewrite (lf_key _ _ _ Hf), (lf_id _ _ _ Hf).
  destruct (listing_update batch key) as [u|]; simpl in Hl; [| exists b; split; [done | by apply (shows_same _ _ _ d)]].
  pose proof (update_shows id key (fe_next_report f) f u d d' b Hf Hl N N' Hb) as (b' & Hrun & Hs).
  destruct (feed_entries f u) as [|e es] eqn:He.
  - exists b. split; [done |]. apply (shows_same _ _ _ d); [done | done | | done].
    pose proof (length_level_entries f u (lf_detail _ _ _ Hf)) as Hlen. rewrite He in Hlen. unfold level_entries in Hlen.
    rewrite length_app, length_fmap in Hlen. rewrite filter_all in Hlen.
    + rewrite <- Hl. destruct (pu_levels u); [done |]. simpl in Hlen. lia.
    + apply Forall_forall. intros c _. unfold wanted. rewrite (lf_bids _ _ _ Hf), (lf_offers _ _ _ Hf). by destruct (lc_side c).
  - exists b'. split; [| exact Hs].
    etrans; [apply apply_all_cons |]. cbn [fm_message]. by rewrite Hrun.
Qed.

(** Any number of batches. *)
Lemma feed_all_shows id key batches : forall f d d' b,
  level_feed id key f -> carried key batches d d' -> depth_nonzero d -> shows id key (fe_next_report f) d b ->
  exists b', feed_book_apply_all (sent id key (feed_apply_all batches f).2) b = (b', Ok tt) /\
    shows id key (fe_next_report (feed_apply_all batches f).1) d' b'.
Proof.
  induction batches as [|batch batches IH]; intros f d d' b Hf Hc N Hb; simpl in Hc.
  - subst. by exists b.
  - destruct Hc as (d1 & H1 & Hc). destruct (feed_apply_shows id key f batch d d1 b Hf H1 N Hb) as (b1 & Hr1 & S1).
    destruct (feed_apply_identity batch f) as (I & _ & _). cbn [feed_apply_all].
    destruct (feed_apply batch f) as [f1 m]. cbn [fst snd] in *.
    destruct (IH f1 d1 d' b1) as (b2 & Hr2 & S2); [by eapply level_feed_identity | done | by destruct H1 | done |].
    destruct (feed_apply_all batches f1) as [f2 ms]. cbn [fst snd] in *. exists b2.
    rewrite fmap_app, apply_all_app, Hr1. by split.
Qed.

Lemma feed_apply_all_pending batches : forall f, fe_pending (feed_apply_all batches f).1 = fe_pending f.
Proof.
  induction batches as [|b batches IH]; intros f; [done |]. cbn [feed_apply_all].
  destruct (feed_apply_identity b f) as (_ & P & _). destruct (feed_apply b f) as [f1 m].
  specialize (IH f1). destruct (feed_apply_all batches f1) as [f2 ms]. simpl in *. congruence.
Qed.
Lemma feed_apply_all_app bs1 : forall bs2 f,
  (feed_apply_all (bs1 ++ bs2) f).2 =
  (feed_apply_all bs1 f).2 ++ (feed_apply_all bs2 (feed_apply_all bs1 f).1).2.
Proof.
  induction bs1 as [|b bs1 IH]; intros bs2 f; [done |]. rewrite <- app_comm_cons. cbn [feed_apply_all].
  destruct (feed_apply b f) as [f1 m]. specialize (IH bs2 f1). destruct (feed_apply_all bs1 f1) as [f2 ms].
  destruct (feed_apply_all (bs1 ++ bs2) f1) as [f3 ms3]. cbn [fst snd] in *. by rewrite IH, app_assoc.
Qed.

(** ** A feed in its session *)

(** While the snapshot is awaited, the session sends nothing for the request
    and buffers what concerns it. *)
Lemma session_pending id batches : forall b b' messages f buffer,
  feeds_ok b -> bnp_on_batches batches b = (b', Ok messages) ->
  f ∈ pf_feeds (bf_public b) -> fe_request_id f = id -> fe_pending f = Some buffer ->
  feeds_ok b' /\ filter (fun m => message_request m = Some id) messages = [] /\
  feed_pending (Some (buffer ++ filter (concerns (fe_listing_key f)) batches)) f ∈ pf_feeds (bf_public b').
Proof.
  induction batches as [|batch batches IH]; intros b b' messages f buffer Hb Hrun Hf Hid Hp.
  - injection Hrun as <- <-. split_and!; [done | done |]. rewrite app_nil_r. destruct f. simpl in *. by subst.
  - cbn [bnp_on_batches] in Hrun. apply bind_Ok_inv in Hrun as (b1 & ms & H1 & Hrun).
    apply bind_Ok_inv in Hrun as (b2 & more & H2 & Hrun). injection Hrun as <- <-.
    destruct (bnp_on_batch_feed id batch b b1 ms f Hb H1 Hf Hid) as (Hb1 & f1 & mine & Ho & Hin & Hown).
    destruct (feed_on_batch_pending batch f buffer f1 mine Hp Ho) as [-> ->].
    destruct (IH b1 b2 more _ (buffer ++ filter (concerns (fe_listing_key f)) [batch]) Hb1 H2 Hin) as (Hb2 & Hm & Hin2); [done | done |].
    split_and!; [done | by rewrite filter_app, Hown, Hm |].
    change (feed_pending (Some ((buffer ++ filter (concerns (fe_listing_key f)) [batch]) ++ filter (concerns (fe_listing_key f)) batches)) f
      ∈ pf_feeds (bf_public b2)) in Hin2.
    rewrite <- app_assoc, <- filter_app in Hin2. exact Hin2.
Qed.

(** An active feed's messages in the session's stream. *)
Lemma session_active id batches : forall b b' messages f,
  feeds_ok b -> bnp_on_batches batches b = (b', Ok messages) ->
  f ∈ pf_feeds (bf_public b) -> fe_request_id f = id -> fe_pending f = None ->
  feeds_ok b' /\
  filter (fun m => message_request m = Some id) messages =
    (fun m => encode_increment id (kind_of f) (fm_message m)) <$> (feed_apply_all batches f).2 /\
  (feed_apply_all batches f).1 ∈ pf_feeds (bf_public b').
Proof.
  induction batches as [|batch batches IH]; intros b b' messages f Hb Hrun Hf Hid Hp.
  - by injection Hrun as <- <-.
  - cbn [bnp_on_batches] in Hrun. apply bind_Ok_inv in Hrun as (b1 & ms & H1 & Hrun).
    apply bind_Ok_inv in Hrun as (b2 & more & H2 & Hrun). injection Hrun as <- <-.
    destruct (bnp_on_batch_feed id batch b b1 ms f Hb H1 Hf Hid) as (Hb1 & f1 & mine & Ho & Hin & Hown).
    rewrite feed_on_batch_active in Ho by done. injection Ho as <- <-.
    destruct (feed_apply_identity batch f) as (I & P & _). cbn [feed_apply_all].
    destruct (feed_apply batch f) as [f1 m]. cbn [fst snd] in *. unfold identity in I. injection I as I1 I2 _ _ _ I6.
    destruct (IH b1 b2 more f1 Hb1 H2 Hin) as (Hb2 & Hm & Hin2); [congruence | congruence |].
    destruct (feed_apply_all batches f1) as [f2 ms2]. cbn [fst snd] in *. split_and!; [done | | done].
    rewrite filter_app, Hown, Hm, fmap_app. do 2 f_equal. unfold kind_of. by rewrite I2, I6.
Qed.

(** Activating finds the feed of the request. *)
Lemma on_feed_spec id step : forall feeds f,
  NoDup (fe_request_id <$> feeds) -> f ∈ feeds -> fe_request_id f = id ->
  (forall f, identity (step f).1 = identity f) ->
  (on_feed id step feeds).2 = (step f).2 /\ (step f).1 ∈ (on_feed id step feeds).1 /\
  identity <$> (on_feed id step feeds).1 = identity <$> feeds.
Proof.
  induction feeds as [|f0 feeds IH]; intros f Hnd Hf Hid Hs; [by apply not_elem_of_nil in Hf |].
  rewrite fmap_cons in Hnd. apply NoDup_cons in Hnd as [Hn Hnd]. cbn [on_feed].
  destruct (Z.eqb_spec (fe_request_id f0) id) as [He|Hne].
  - assert (f = f0) as ->.
    { apply elem_of_cons in Hf as [?|Hf]; [done |]. exfalso. apply Hn. rewrite He, <- Hid. apply list_elem_of_fmap. by exists f. }
    specialize (Hs f0). destruct (step f0) as [f1 ms]. cbn [fst snd] in *. split_and!; [done | left |]. by rewrite !fmap_cons, Hs.
  - apply elem_of_cons in Hf as [->|Hf]; [done |]. destruct (IH f Hnd Hf Hid Hs) as (E1 & E2 & E3).
    destruct (on_feed id step feeds) as [rest ms]. cbn [fst snd] in *. split_and!; [done | by right |]. by rewrite !fmap_cons, E3.
Qed.
Lemma activate_tape_none id last feeds : id ∉ tf_request_id <$> feeds -> activate_tape id last feeds = None.
Proof.
  induction feeds as [|f feeds IH]; intros Hn; [done |]. rewrite fmap_cons in Hn. apply not_elem_of_cons in Hn as [Hne Hn].
  cbn [activate_tape]. destruct (Z.eqb_spec (tf_request_id f) id); [congruence |]. by rewrite IH.
Qed.
Lemma activate_feed_identity pub f :
  identity (activate_feed pub f).1 = identity f /\
  Forall (fun m => fm_request_id m = fe_request_id f) (activate_feed pub f).2.
Proof. exact (feed_apply_all_identity _ (feed_pending None f)). Qed.

Lemma session_activate id pub last b b' messages f :
  feeds_ok b -> bnp_activate id pub last b = (b', messages) ->
  f ∈ pf_feeds (bf_public b) -> fe_request_id f = id ->
  feeds_ok b' /\ messages = (fun m => encode_increment id (kind_of f) (fm_message m)) <$> (activate_feed pub f).2 /\
  (activate_feed pub f).1 ∈ pf_feeds (bf_public b').
Proof.
  intros Hb Hrun Hf Hid. unfold bnp_activate, activate_after in Hrun.
  rewrite activate_tape_none in Hrun by (rewrite <- Hid; by apply (fk_tape _ Hb)).
  destruct (on_feed_spec id (activate_feed pub) _ f (fk_unique _ Hb) Hf Hid) as (E1 & E2 & E3);
    [intros f'; apply activate_feed_identity |].
  destruct (on_feed id (activate_feed pub) _) as [feeds ms]. cbn [fst snd] in *. injection Hrun as <- <-.
  split_and!; [by apply feeds_ok_identity | | done]. rewrite E1.
  pose proof (proj2 (activate_feed_identity pub f)) as Hm. rewrite Hid in Hm.
  clear E1. induction Hm as [|m ms' Hm _ IH]; [done |]. rewrite encode_all_cons, fmap_cons, Hm.
  pose proof (fk_kinds _ Hb f Hf) as Hk. rewrite Hid in Hk. rewrite Hk. cbn. f_equal. exact IH.
Qed.

(** A buffered feed resumes at the first batch after its snapshot. *)
Lemma activate_resumes pub f bs1 bs2 :
  Forall (fun batch => cb_ordinal batch < pub) bs1 -> Forall (fun batch => pub <= cb_ordinal batch) bs2 ->
  activate_feed pub (feed_pending (Some (filter (concerns (fe_listing_key f)) (bs1 ++ bs2))) f) =
  feed_apply_all bs2 (feed_pending None f).
Proof.
  intros H1 H2. unfold activate_feed. cbn [fe_pending feed_pending].
  change (default [] (Some ?l)) with l.
  change (feed_pending None (feed_pending _ f)) with (feed_pending None f).
  rewrite list_filter_filter, (list_filter_iff _ (fun b => concerns (fe_listing_key f) b /\ pub <= cb_ordinal b)) by tauto.
  rewrite <- list_filter_filter, filter_app, (filter_none _ bs1), (filter_all _ bs2); [| done |].
  - exact (feed_apply_all_concerned bs2 (feed_pending None f)).
  - eapply Forall_impl; [exact H1 |]. simpl. lia.
Qed.

(** A new subscription. *)
Lemma subscribe_venue_spec id key flags b b' :
  feeds_ok b -> subscribe_venue id key flags b = (b', None) ->
  feeds_ok b' /\ mkFeed id key (fl_bids flags) (fl_offers flags) (fl_trades flags)
    (if fl_orders flags then Orders else Levels) 1 (Some []) 0 ∈ pf_feeds (bf_public b').
Proof.
  intros [U K T]. unfold subscribe_venue, feeds_subscribe, feeds_refuse.
  destruct (_ || _) eqn:Hr; [done |]. apply orb_false_iff in Hr as [R1%bool_decide_eq_false R2%bool_decide_eq_false].
  destruct (_ <=? _)%nat; [done |]. destruct (negb _) eqn:Hn; [done |]. intros [= <-]. cbn [bf_public pf_feeds with_feeds].
  assert (Hd : (if negb (fl_orders flags) then Levels else Orders) = (if fl_orders flags then Orders else Levels))
    by (by destruct (fl_orders flags)).
  rewrite Hd. split; [| apply elem_of_app; right; by left]. split; cbn [bf_public bf_kinds pf_feeds pf_tape_feeds with_feeds].
  - rewrite fmap_app. apply NoDup_app. split_and!; [done | | by apply NoDup_singleton].
    intros x Hx Hx'. apply list_elem_of_singleton in Hx'. by subst.
  - intros f [Hf|Hf%list_elem_of_singleton]%elem_of_app.
    + rewrite lookup_insert_ne; [by apply K |]. intros ->. apply R1. apply list_elem_of_fmap. by exists f.
    + subst f. cbn [fe_request_id]. rewrite lookup_insert_eq. unfold kind_of. cbn. by destruct (fl_orders flags).
  - intros f [Hf|Hf%list_elem_of_singleton]%elem_of_app; [by apply T | by subst f].
Qed.

(** ** Numbers of the reports *)

Lemma feed_apply_next batch f :
  fe_next_report f <= int_max U64 ->
  fe_next_report f <= fe_next_report (feed_apply batch f).1 <= int_max U64 /\
  forall m, (feed_apply batch f).2 = Some m ->
    ri_first_report (fm_message m) = fe_next_report f /\ fm_request_id m = fe_request_id f.
Proof.
  intros Hm. unfold feed_apply, feed_increment, saturating_add. case (bool_decide _); [split; [simpl; lia | done] |].
  destruct (listing_update _ _) as [u|]; [| split; [simpl; lia | done]].
  destruct (feed_entries f u) as [|e es]; [split; [simpl; lia | done] |].
  cbn [fst snd feed_at fe_next_report]. split; [lia |]. by intros m [= <-].
Qed.
(** The first message after some batches is numbered from where the feed
    stood, or later. *)
Lemma feed_apply_all_first batches : forall f,
  fe_next_report f <= int_max U64 ->
  forall m ms, (feed_apply_all batches f).2 = m :: ms -> fe_next_report f <= ri_first_report (fm_message m).
Proof.
  induction batches as [|batch batches IH]; intros f Hm m ms; [done |]. cbn [feed_apply_all].
  destruct (feed_apply_next batch f Hm) as [Hn Hf]. destruct (feed_apply batch f) as [f1 [m1|]]; cbn [fst snd] in *.
  - destruct (feed_apply_all batches f1) as [f2 more]. intros [= <- _]. destruct (Hf _ eq_refl) as [-> _]. lia.
  - specialize (IH f1 (proj2 Hn)). destruct (feed_apply_all batches f1) as [f2 more]. cbn [snd] in *. intros Hms.
    specialize (IH m ms Hms). lia.
Qed.

(** A message numbered past what the copy expects is refused as a gap. *)
Lemma encoded_gap f m b next :
  fb_request_id b = fe_request_id f -> fb_listing b = Some (fe_listing_key f) -> fb_next_report b = Some next ->
  ri_first_report (fm_message m) <> next ->
  feed_book_apply (encode_increment (fe_request_id f) (kind_of f) (fm_message m)) b =
    (b, Err (FeedError.Gap next (ri_first_report (fm_message m)))).
Proof.
  intros I L X Hne. unfold feed_book_apply. rewrite bind_gets. change (id b) with b. unfold kind_of, encode_increment. cbv zeta.
  destruct (fe_detail f); rewrite I, Z.eqb_refl; cbn [negb]; unfold mbind, M_bind at 1; by rewrite (continues_gap _ next).
Qed.

(** ** The life of a subscription *)

Section life.
Context (id : Z) (key : ListingKey) (flags : FeedFlags).
Context (Hbids : fl_bids flags = true) (Hoffers : fl_offers flags = true) (Hlevels : fl_orders flags = false).
Context (b0 b1 b2 b3 b4 : BnpFeeds) (bs1 bs2 bs3 : list CommittedBatch) (ms1 act ms3 : list ServerMessage).
Context (pub last : Z) (Hb0 : feeds_ok b0).
Context (Hsub : subscribe_venue id key flags b0 = (b1, None)).
Context (Hpend : bnp_on_batches (bs1 ++ bs2) b1 = (b2, Ok ms1)).
Context (Hact : bnp_activate id pub last b2 = (b3, act)).
Context (Hlive : bnp_on_batches bs3 b3 = (b4, Ok ms3)).
Context (Hbefore : Forall (fun batch => cb_ordinal batch < pub) bs1).
Context (Hafter : Forall (fun batch => pub <= cb_ordinal batch) bs2).
Local Notation feed := (mkFeed id key true true (fl_trades flags) Levels 1 None 0).

(** The stream a client of this request reads: nothing before the snapshot,
    then the feed's messages from the first batch after it. *)
Lemma stream_of_request :
  filter (fun m => message_request m = Some id) ms1 = [] /\
  filter (fun m => message_request m = Some id) (act ++ ms3) =
    sent id key (feed_apply_all (bs2 ++ bs3) feed).2.
Proof using All.
  destruct (subscribe_venue_spec id key flags b0 b1 Hb0 Hsub) as [Hb1 Hf]. rewrite Hbids, Hoffers, Hlevels in Hf.
  destruct (session_pending id (bs1 ++ bs2) b1 b2 ms1 _ [] Hb1 Hpend Hf) as (Hb2 & Hm1 & Hf2); [done | done |].
  split; [done |].
  change (feed_pending (Some (filter (concerns (fe_listing_key feed)) (bs1 ++ bs2))) feed ∈ pf_feeds (bf_public b2)) in Hf2.
  destruct (session_activate id pub last b2 b3 act _ Hb2 Hact Hf2) as (Hb3 & Ha & Hf3); [done |].
  rewrite (activate_resumes pub feed bs1 bs2 Hbefore Hafter) in Hf3, Ha.
  change (feed_pending None feed) with feed in Hf3, Ha.
  destruct (feed_apply_all_identity bs2 feed) as [I M]. pose proof (feed_apply_all_pending bs2 feed) as P.
  set (f2 := (feed_apply_all bs2 feed).1) in *.
  assert (Hf2' : level_feed id key f2) by (by apply (level_feed_identity id key feed); [| split]).
  destruct (session_active id bs3 b3 b4 ms3 f2 Hb3 Hlive Hf3 (lf_id _ _ _ Hf2') P) as (_ & Hm3 & _).
  rewrite filter_app, Hm3, (level_feed_kind _ _ _ Hf2'), feed_apply_all_app, fmap_app. f_equal. rewrite Ha.
  apply filter_all, Forall_fmap, Forall_forall. by intros m _.
Qed.

(** A copy that starts from the snapshot follows every view carried. *)
Lemma subscription_mirrors d d' :
  depth_nonzero d -> carried key (bs2 ++ bs3) d d' ->
  exists b, feed_book_apply_all (ms1 ++ MarketSnapshot id key 1 d.1 d.2 :: act ++ ms3) (FeedBook_new id) = (b, Ok tt) /\
    fb_bids b = collect_levels d'.1 /\ fb_asks b = collect_levels d'.2.
Proof using All.
  intros N Hc. destruct stream_of_request as [H1 H2]. rewrite feed_book_apply_own, filter_app. change (fb_request_id _) with id.
  rewrite H1, filter_cons, decide_True by done. rewrite app_nil_l, H2, apply_all_cons.
  assert (Hs : exists b, feed_book_apply (MarketSnapshot id key 1 d.1 d.2) (FeedBook_new id) = (b, Ok true) /\ shows id key 1 d b).
  { unfold feed_book_apply. rewrite bind_gets. change (Datatypes.id (FeedBook_new id)) with (FeedBook_new id).
    cbn [fb_request_id FeedBook_new]. rewrite Z.eqb_refl. eexists. by split. }
  destruct Hs as (b & -> & Hs). destruct (feed_all_shows id key (bs2 ++ bs3) feed d d' b) as (b' & Hrun & [_ _ _ B A]);
    [by split | done | done | done |]. exists b'. by rewrite Hrun.
Qed.
End life.
