(* ===== verification/Publishing.v ===== *)
(** * The event distributor: from a commit to its public updates

    Models the public projection of [packages/bunting-application/src/lib.rs]
    ([project_public_event], [displayed_orders], [trade_brokers], ...) and
    the part of [PublishingOrigin] in
    [apps/bunting-server/src/distributor.rs] that turns every committed
    input into one published batch: the caches of the books as last
    published, the differences against them, and the recovery when the
    projection fails. *)

From S2P Require Import Prelude Ordered MarketTypes MarketEvents Book Scenario Transition Engine MarketFeed.
From S2P Require Import Ledger Auction Calendar Simulation EngineFrame EngineTheorems BookFacts BookMatch EngineInvariant EngineRetire FeedSession.
#[local] Open Scope list_scope.

(** ** The public projection of a run *)

(** [project_public_event] *)
Definition project_public_event (event : EventEnvelope) (key : ListingKey) : option PublicTrade :=
  match ev_payload event with
  | TradeExecuted instrument_id (Some executed_at) _ _ _ _ price quantity _ _ =>
      if bool_decide (executed_at = key) && (instrument_id =? lk_instrument_id key)
      then Some (mkPublicTrade (ev_sequence event) (ev_logical_time event) instrument_id key price quantity
                   None None None)
      else None
  | _ => None
  end.

(** [order_broker] *)
Definition order_broker (s : RunState) (key : ListingKey) (order_id : Z) : option Z :=
  match rs_listings s !! key with
  | Some listing =>
      if ld_broker_ids (ls_definition listing) then
        owned ← rs_ownership s !! order_id;
        if oo_anonymous owned then None else Some (oo_participant_id owned)
      else None
  | None => None
  end.

(** [trade_brokers]: the maker's side is written first, then the taker's. *)
Definition put_broker (s : RunState) (key : ListingKey) (brokers : option Z * option Z) (order_id : Z)
    : option Z * option Z :=
  match oo_side <$> rs_ownership s !! order_id with
  | Some Buy => (order_broker s key order_id, brokers.2)
  | Some Sell => (brokers.1, order_broker s key order_id)
  | None => brokers
  end.
Definition trade_brokers (s : RunState) (event : EventEnvelope) : option Z * option Z :=
  match ev_payload event with
  | TradeExecuted _ (Some key) maker taker _ _ _ _ _ _ => foldl (put_broker s key) (None, None) [maker; taker]
  | _ => (None, None)
  end.

(** [order_references] *)
Definition changed_order (event : EventEnvelope) : option Z :=
  match ev_payload event with
  | OrderRested order_id _ _ _ _ _ _ | OrderReduced order_id _ => Some order_id
  | _ => None
  end.
Definition order_reference (s : RunState) (order_id : Z) : option (Z * Z) :=
  owned ← rs_ownership s !! order_id;
  listing ← rs_listings s !! oo_listing_key owned;
  order ← book_order (ls_book listing) order_id;
  if 0 <? bo_visible order then Some (order_id, bo_priority order) else None.
Fixpoint dedup_pairs (l : list (Z * Z)) : list (Z * Z) :=
  match l with
  | [] => []
  | x :: l => if bool_decide (head l = Some x) then dedup_pairs l else x :: dedup_pairs l
  end.
Definition order_references (s : RunState) (events : list EventEnvelope) : list (Z * Z) :=
  dedup_pairs (merge_sort ord_le (omap (order_reference s) (omap changed_order events))).

(** [displayed_orders] *)
Definition displayed_order (s : RunState) (key : ListingKey) (order : BookOrder) : DisplayedOrder :=
  mkDisplayedOrder (bo_order_id order) (bo_priority order) (bo_side order) (bo_price order) (bo_visible order)
    (order_broker s key (bo_order_id order)).
Definition displayed_orders (s : RunState) (key : ListingKey) : result EngineError (list DisplayedOrder) :=
  listing ← ok_or (rs_listings s !! key) EngineError.UnknownListing;
  Ok (displayed_order s key <$>
        filter (fun order => 0 < bo_visible order)
          (book_orders (ls_book listing) Buy ++ book_orders (ls_book listing) Sell)).

(** ** The publisher's caches *)

(** The caches of [PublishingOrigin], the switch of order-by-order feeds and
    the distributor's count of published batches. *)
Record Publisher : Type := mkPublisher {
  pb_books : gmap Z (gmap ListingKey PublicDepth);
  pb_orders : gmap Z (gmap ListingKey (list DisplayedOrder));
  pb_orders_enabled : bool;
  pb_published : Z;
  pb_projection_failures : Z
}.
Definition with_books (books : gmap Z (gmap ListingKey PublicDepth)) (p : Publisher) : Publisher :=
  mkPublisher books (pb_orders p) (pb_orders_enabled p) (pb_published p) (pb_projection_failures p).
Definition with_views (orders : gmap Z (gmap ListingKey (list DisplayedOrder))) (p : Publisher) : Publisher :=
  mkPublisher (pb_books p) orders (pb_orders_enabled p) (pb_published p) (pb_projection_failures p).

(** [.ok()] *)
Definition ok {E A} (r : result E A) : option A := match r with Ok a => Some a | Err _ => None end.

(** What [prime_books] and [prime_orders] read of a run; reading a run the
    origin does not hold fails. *)
Definition all_depths (s : RunState) : gmap ListingKey PublicDepth :=
  map_imap (fun key _ => ok (visible_levels s key)) (rs_listings s).
Definition all_views (s : RunState) : gmap ListingKey (list DisplayedOrder) :=
  map_imap (fun key _ => ok (displayed_orders s key)) (rs_listings s).

(** [enable_order_feeds], [prime_orders], [prime_books] *)
Definition enable_order_feeds (p : Publisher) : Publisher :=
  mkPublisher (pb_books p) (pb_orders p) true (pb_published p) (pb_projection_failures p).
Definition prime_orders (run_id : Z) (s : RunState) (p : Publisher) : Publisher :=
  if negb (pb_orders_enabled p) then p
  else match pb_orders p !! run_id with
       | Some _ => p
       | None => if rs_run_id s =? run_id then with_views (<[run_id := all_views s]> (pb_orders p)) p else p
       end.
Definition prime_books (run_id : Z) (s : RunState) (p : Publisher) : Publisher :=
  match pb_books p !! run_id with
  | Some _ => p
  | None => if rs_run_id s =? run_id then with_books (<[run_id := all_depths s]> (pb_books p)) p else p
  end.

(** ** The public updates of one commit *)

(** The listings the events name, and whether every listing must be read. *)
Definition touches (payload : EventPayload) : gset ListingKey :=
  match payload with
  | OrderRested _ _ _ (Some key) _ _ _ | OrderCanceled _ _ _ (Some key) _ _
  | TradeExecuted _ (Some key) _ _ _ _ _ _ _ _ => {[key]}
  | _ => ∅
  end.
Definition touches_everything (payload : EventPayload) : bool :=
  match payload with
  | OrderRested _ _ _ None _ _ _ | OrderCanceled _ _ _ None _ _ | TradeExecuted _ None _ _ _ _ _ _ _ _
  | Simulation _ => true
  | _ => false
  end.
Definition touched_listings (events : list EventEnvelope) (known : gmap ListingKey PublicDepth) : gset ListingKey :=
  let payloads := ev_payload <$> events in
  let touched := ⋃ (touches <$> payloads) in
  if existsb touches_everything payloads then touched ∪ dom known else touched.

(** What the commit's run shows of one listing. *)
Record AfterView : Type := mkAfterView {
  av_key : ListingKey;
  av_depth : PublicDepth;
  av_displayed : option (list DisplayedOrder);
  av_brokers : list (option Z * option Z)
}.
Definition after_view (s : RunState) (events : list EventEnvelope) (with_orders : bool) (key : ListingKey)
    : option AfterView :=
  depth ← ok (visible_levels s key);
  Some (mkAfterView key depth (if with_orders then ok (displayed_orders s key) else None)
          (trade_brokers s <$> filter (fun event => is_Some (project_public_event event key)) events)).

Definition set_brokers (trade : PublicTrade) (brokers : option Z * option Z) : PublicTrade :=
  mkPublicTrade (pt_sequence trade) (pt_logical_time trade) (pt_instrument_id trade) (pt_listing_key trade)
    (pt_price trade) (pt_quantity trade) (pt_maker_reference trade) brokers.1 brokers.2.
Definition set_maker (before : list DisplayedOrder) (trade : PublicTrade) (maker : Z) : PublicTrade :=
  mkPublicTrade (pt_sequence trade) (pt_logical_time trade) (pt_instrument_id trade) (pt_listing_key trade)
    (pt_price trade) (pt_quantity trade)
    (dp_reference <$> head (filter (fun order => dp_order_id order = maker) before))
    (pt_buyer_broker trade) (pt_seller_broker trade).
(** [for (x, y) in xs.iter_mut().zip(ys) { x = f(x, y) }] *)
Fixpoint zip_update {A B} (f : A -> B -> A) (xs : list A) (ys : list B) : list A :=
  match xs, ys with
  | x :: xs, y :: ys => f x y :: zip_update f xs ys
  | xs, _ => xs
  end.
Definition makers_at (key : ListingKey) (events : list EventEnvelope) : list Z :=
  omap (fun event => match ev_payload event with
                     | TradeExecuted _ (Some executed_at) maker _ _ _ _ _ _ _ =>
                         if bool_decide (executed_at = key) then Some maker else None
                     | _ => None
                     end) events.

(** One listing of the loop of [public_updates]. *)
Definition publish_listing (events : list EventEnvelope) (view : AfterView)
    (known : gmap ListingKey PublicDepth) (views : option (gmap ListingKey (list DisplayedOrder)))
    : gmap ListingKey PublicDepth * option (gmap ListingKey (list DisplayedOrder)) * option PublicListingUpdate :=
  let key := av_key view in
  let depth := av_depth view in
  let levels := diff_levels (default ([], []) (known !! key)) depth in
  let trades := zip_update set_brokers (omap (fun event => project_public_event event key) events)
                  (av_brokers view) in
  let known := <[key := depth]> known in
  let '(views, trades, orders) :=
    match views, av_displayed view with
    | Some views, Some displayed =>
        let before := default [] (views !! key) in
        (Some (<[key := displayed]> (delete key views)),
         zip_update (set_maker before) trades (makers_at key events), diff_orders before displayed)
    | _, _ => (views, trades, [])
    end in
  (known, views,
   match levels, trades, orders with
   | [], [], [] => None
   | _, _, _ => Some (mkPublicListingUpdate key trades levels (head depth.1) (head depth.2) orders)
   end).
Fixpoint publish_listings (events : list EventEnvelope) (listings : list AfterView)
    (known : gmap ListingKey PublicDepth) (views : option (gmap ListingKey (list DisplayedOrder)))
    : gmap ListingKey PublicDepth * option (gmap ListingKey (list DisplayedOrder)) * list PublicListingUpdate :=
  match listings with
  | [] => (known, views, [])
  | view :: listings =>
      let '(known, views, update) := publish_listing events view known views in
      let '(known, views, updates) := publish_listings events listings known views in
      (known, views, option_list update ++ updates)
  end.

(** [PublishingOrigin::public_updates] on the run the commit left;
    [None] is [OriginError::Unavailable]. *)
Definition public_updates (run_id : Z) (events : list EventEnvelope) (s : RunState) (p : Publisher)
    : Publisher * option (list PublicListingUpdate) :=
  match pb_books p !! run_id with
  | None => (p, None)
  | Some known =>
      let views := pb_orders p !! run_id in
      let after := omap (after_view s events (bool_decide (is_Some views)))
                     (set_iter (touched_listings events known)) in
      let '(known, views, updates) := publish_listings events after known views in
      (with_books (<[run_id := known]> (pb_books p))
         (match views with
          | Some views => with_views (<[run_id := views]> (pb_orders p)) p
          | None => p
          end), Some updates)
  end.

(** [PublishingOrigin::recover_public_projection]: the listings that may be
    affected, after which both caches are read again. *)
Definition named_listings (event : EventEnvelope) : gset ListingKey :=
  match ev_payload event with
  | OrderReceived _ (Some key) | OrderRested _ _ _ (Some key) _ _ _ | OrderCanceled _ _ _ (Some key) _ _
  | TradeExecuted _ (Some key) _ _ _ _ _ _ _ _ => {[key]}
  | _ => ∅
  end.
Definition recover_public_projection (run_id : Z) (events : list EventEnvelope) (s : RunState) (p : Publisher)
    : Publisher * list ListingKey :=
  let affected := ⋃ (named_listings <$> events)
                  ∪ default ∅ (dom <$> pb_books p !! run_id)
                  ∪ default ∅ (dom <$> pb_orders p !! run_id)
                  ∪ dom (rs_listings s) in
  let p := with_views (delete run_id (pb_orders p)) (with_books (delete run_id (pb_books p)) p) in
  (prime_orders run_id s (prime_books run_id s p), set_iter affected).

(** [EventDistributor::publish]: no batch for no events; the counter is a
    [u64] that wraps. *)
Definition publish_batch (events : list EventEnvelope) (durable_us : Z) (public : list PublicListingUpdate)
    (gaps : list ListingKey) (p : Publisher) : Publisher * option CommittedBatch :=
  match events with
  | [] => (p, None)
  | _ => (mkPublisher (pb_books p) (pb_orders p) (pb_orders_enabled p) (wrapping_add U64 (pb_published p) 1)
            (pb_projection_failures p),
          Some (mkCommittedBatch durable_us (pb_published p) public gaps))
  end.

(** The publication of [PublishingOrigin::execute_admitted] after a commit.
    [fails] is the failure of the projection (a poisoned lock or an
    unreadable run). *)
Definition publish_commit (run_id : Z) (events : list EventEnvelope) (durable_us : Z) (fails : bool) (s : RunState)
    (p : Publisher) : Publisher * option CommittedBatch :=
  let '(p, updates) := if fails then (p, None) else public_updates run_id events s p in
  match updates with
  | Some public => publish_batch events durable_us public [] p
  | None =>
      let p := mkPublisher (pb_books p) (pb_orders p) (pb_orders_enabled p) (pb_published p)
                 (pb_projection_failures p + 1) in
      let '(p, gaps) := recover_public_projection run_id events s p in
      publish_batch events durable_us [] gaps p
  end.

(** [PublishingOrigin::execute_admitted] around the engine's transition.  A
    refused input publishes nothing; a poisoned one ends the run. *)
Definition execute_published (i : JournalInput) (durable_us : Z) (fails : bool) (s : RunState) (p : Publisher)
    : option (RunState * Publisher * option CommittedBatch) :=
  let p := prime_orders (input_run_id i) s (prime_books (input_run_id i) s p) in
  match apply_input i s with
  | (s', Ok applied) =>
      let '(p, batch) := publish_commit (input_run_id i) (ap_events applied) durable_us fails s' p in
      Some (s', p, batch)
  | (s', Err (Unchanged _)) => Some (s', p, None)
  | (_, Err (Poisoned _)) => None
  end.

(** A sequence of inputs, each with its commit time and whether its
    projection fails. *)
Fixpoint publish_run (inputs : list (JournalInput * Z * bool)) (s : RunState) (p : Publisher)
    : option (RunState * Publisher * list CommittedBatch) :=
  match inputs with
  | [] => Some (s, p, [])
  | (i, durable_us, fails) :: inputs =>
      '(s, p, batch) ← execute_published i durable_us fails s p;
      '(s, p, batches) ← publish_run inputs s p;
      Some (s, p, option_list batch ++ batches)
  end.

(** ** Snapshots *)

(** [levels.iter().take(depth)]; no depth is [usize::MAX], which no list
    exceeds. *)
Definition take_levels (depth : option nat) (levels : list (Z * Z)) : list (Z * Z) :=
  match depth with Some n => take n levels | None => levels end.
(** [level_snapshot_job] *)
Definition level_snapshot (request_id : Z) (listing : ListingKey) (depth : option nat) (next_report : Z) (s : RunState)
    : ServerMessage :=
  match visible_levels s listing with
  | Ok (bids, asks) => MarketSnapshot request_id listing next_report (take_levels depth bids) (take_levels depth asks)
  | Err _ => OtherMessage
  end.

Definition ORDER_SNAPSHOT_HEADER_BYTES : Z := 64.
Definition BOOK_ORDER_BYTES : Z := 46.
Definition MAX_GROUP_ENTRIES : Z := 4096.
(** [orders_per_part] *)
Definition orders_per_part (max_frame_bytes : Z) : Z :=
  Z.max 1 (Z.min MAX_GROUP_ENTRIES
    (Z.max 0 (max_frame_bytes - ORDER_SNAPSHOT_HEADER_BYTES) / BOOK_ORDER_BYTES)).

(** [order_snapshot_job]: each order with its place on its side, in parts. *)
Fixpoint place_orders (bid ask : Z) (orders : list DisplayedOrder) : list FeedOrder :=
  match orders with
  | [] => []
  | order :: orders =>
      let place := saturating_add U32 (match dp_side order with Buy => bid | Sell => ask end) 1 in
      mkFeedOrder (dp_side order) (dp_reference order) (dp_price order) (dp_quantity order) (dp_broker order) place
      :: match dp_side order with
         | Buy => place_orders place ask orders
         | Sell => place_orders bid place orders
         end
  end.
Fixpoint chunks {A} (fuel : nat) (n : nat) (l : list A) : list (list A) :=
  match fuel, l with
  | S fuel, _ :: _ => take n l :: chunks fuel n (drop n l)
  | _, _ => []
  end.
Definition order_snapshot (request_id : Z) (listing : ListingKey) (per_part : nat) (s : RunState)
    : list ServerMessage :=
  match displayed_orders s listing with
  | Err _ => [OtherMessage]
  | Ok displayed =>
      let orders := place_orders 0 0 displayed in
      let parts := match orders with [] => [[]] | _ => chunks (length orders) (max per_part 1) orders end in
      imap (fun index part =>
        OrderSnapshot request_id listing 1 (bool_decide (index + 1 = length parts)%nat) part) parts
  end.

(** * Every book a commit moves is announced

    The publisher reads again only the listings a commit's events name, so
    its caches are right only if the engine never moves a book without
    naming it.  This file proves that promise of the engine, operation by
    operation, and what the published differences are worth. *)

(** ** Announcing computations *)

(** Some payload names the listing, or makes the publisher read all. *)
Definition announced (payloads : list EventPayload) (key : ListingKey) : Prop :=
  Exists (fun payload => key ∈ touches payload \/ touches_everything payload = true) payloads.

Definition moved (t t' : Txn) : Prop :=
  exists new, tx_payloads t' = tx_payloads t ++ new /\
    forall key, announced new key \/ rs_listings (tx_run t') !! key = rs_listings (tx_run t) !! key.

#[export] Instance moved_preorder : PreOrder moved.
Proof.
  split.
  - intros t. exists []. rewrite app_nil_r. auto.
  - intros t1 t2 t3 (n1 & P1 & H1) (n2 & P2 & H2). exists (n1 ++ n2). rewrite P2, P1, app_assoc. split; [done |].
    intros key. unfold announced. rewrite Exists_app. destruct (H1 key), (H2 key); auto. right. congruence.
Qed.

(** Only a computation that succeeds has to announce what it moved. *)
Definition announces {A} (m : M Txn EngineError A) : Prop := forall t t' a, m t = (t', Ok a) -> moved t t'.

Lemma announces_bind {A B} (m : M Txn EngineError A) (f : A -> M Txn EngineError B) :
  announces m -> (forall a, announces (f a)) -> announces (m ≫= f).
Proof.
  intros Hm Hf t t' b Hrun. apply bind_Ok_inv in Hrun as (t1 & a & H1 & H2). etrans; [by eapply Hm | by eapply Hf].
Qed.
Lemma announces_for_each {A} (f : A -> M Txn EngineError unit) l :
  (forall x, announces (f x)) -> announces (for_each f l).
Proof.
  intros Hf. induction l as [|x l IH]; [by intros t t' a [= -> _] |]. apply announces_bind; [done | by intros []].
Qed.
Lemma announces_silent {A} (m : M Txn EngineError A) :
  (forall t, tx_payloads (m t).1 = tx_payloads t /\ rs_listings (tx_run (m t).1) = rs_listings (tx_run t)) ->
  announces m.
Proof.
  intros Hm t t' a Hrun. destruct (Hm t) as [P L]. rewrite Hrun in P, L. simpl in *. exists [].
  rewrite app_nil_r. split; [done |]. right. by rewrite L.
Qed.
Lemma announces_push p : announces (push p).
Proof. intros t t' a [= <- _]. exists [p]. split; [done |]. by right. Qed.
Lemma announces_touch key : announces (touch key).
Proof. by apply announces_silent. Qed.
Lemma announces_run {A} (f : RunState -> A) : announces (run f).
Proof. by apply announces_silent. Qed.
Lemma announces_lift {A} (r : result EngineError A) : announces (lift r).
Proof. by apply announces_silent. Qed.
Lemma announces_ret {A} (a : A) : announces (mret a).
Proof. by apply announces_silent. Qed.
Lemma announces_refuse b e : announces (refuse_if b e).
Proof. apply announces_silent. by destruct b. Qed.
Lemma announces_update_run f : (forall s, rs_listings (f s) = rs_listings s) -> announces (update_run f).
Proof. intros Hf. apply announces_silent. intros t. split; [done | apply Hf]. Qed.
Lemma announces_ledger m : announces (on_run_ledger m).
Proof.
  apply announces_silent. intros t. unfold on_run_ledger. rewrite bind_read. by destruct (m _).
Qed.
Lemma announces_world {A} (m : SimulationContext -> M SimWorld SimulationError A) : announces (on_world m).
Proof. apply announces_silent. intros t. unfold on_world. rewrite bind_read. cbn [id]. by destruct (m _ _). Qed.

Create HintDb announce.
#[export] Hint Resolve announces_push announces_touch announces_run announces_lift announces_ret announces_refuse
  announces_ledger announces_world : announce.

(** Walks a computation down to the writes of the listings. *)
Ltac announcing :=
  repeat first
    [ solve [auto with announce]
    | apply announces_bind; [| intros ?]
    | apply announces_for_each; intros ?
    | apply announces_update_run; intros ?
    | progress case_match
    | done ].

(** ** Writes of one book *)

(** A book was written and nothing announced yet. *)
Definition wrote (key : ListingKey) (t t' : Txn) : Prop :=
  tx_payloads t' = tx_payloads t /\
  forall key', key' <> key -> rs_listings (tx_run t') !! key' = rs_listings (tx_run t) !! key'.

Lemma on_book_wrote {A} key (m : M Book BookError.BookError A) t t' a :
  on_book key m t = (t', Ok a) -> wrote key t t'.
Proof.
  unfold on_book. rewrite bind_read. cbn [id]. intros Hrun. apply bind_Ok_inv in Hrun as (t1 & l & [-> _]%lift_Ok_inv & Hrun).
  destruct (m (ls_book l)) as [b r]. rewrite bind_update_run in Hrun. apply lift_Ok_inv in Hrun as [-> _].
  split; [done |]. intros key' Hk. simpl. by rewrite lookup_insert_ne.
Qed.

(** A computation that names the listing on the way. *)
Definition moved_at (key : ListingKey) (t t' : Txn) : Prop :=
  exists new, tx_payloads t' = tx_payloads t ++ new /\ announced new key /\
    forall key, announced new key \/ rs_listings (tx_run t') !! key = rs_listings (tx_run t) !! key.
Definition announces_at {A} (key : ListingKey) (m : M Txn EngineError A) : Prop :=
  forall t t' a, m t = (t', Ok a) -> moved_at key t t'.

Lemma moved_at_moved key t t' : moved_at key t t' -> moved t t'.
Proof. intros (new & P & _ & H). by exists new. Qed.
Lemma announces_at_use {A} key (m : M Txn EngineError A) t t' a :
  m t = (t', Ok a) -> announces_at key m -> moved_at key t t'.
Proof. intros Hrun Hm. exact (Hm t t' a Hrun). Qed.
Lemma announces_at_announces {A} key (m : M Txn EngineError A) : announces_at key m -> announces m.
Proof. intros Hm t t' a Hrun. eapply moved_at_moved, Hm, Hrun. Qed.
Lemma moved_at_l key t1 t2 t3 : moved_at key t1 t2 -> moved t2 t3 -> moved_at key t1 t3.
Proof.
  intros (n1 & P1 & A1 & H1) H2. assert (H12 : moved t1 t2) by (by exists n1).
  destruct (PreOrder_Transitive t1 t2 t3 H12 H2) as (n & P & H).
  exists n. destruct H2 as (n2 & P2 & _). assert (n = n1 ++ n2) as ->.
  { rewrite P2, P1, <- app_assoc in P. by apply app_inv_head in P. }
  split_and!; [done | apply Exists_app; by left | done].
Qed.
Lemma moved_at_r key t1 t2 t3 : moved t1 t2 -> moved_at key t2 t3 -> moved_at key t1 t3.
Proof.
  intros (n1 & P1 & H1) H2. assert (H12 : moved t1 t2) by (by exists n1).
  destruct (PreOrder_Transitive t1 t2 t3 H12 (moved_at_moved key t2 t3 H2)) as (n & P & H).
  exists n. destruct H2 as (n2 & P2 & A2 & _). assert (n = n1 ++ n2) as ->.
  { rewrite P2, P1, <- app_assoc in P. by apply app_inv_head in P. }
  split_and!; [done | apply Exists_app; by right | done].
Qed.
Lemma announces_at_l {A B} key (m : M Txn EngineError A) (f : A -> M Txn EngineError B) :
  announces_at key m -> (forall a, announces (f a)) -> announces_at key (m ≫= f).
Proof.
  intros Hm Hf t t' b Hrun. apply bind_Ok_inv in Hrun as (t1 & a & H1 & H2).
  eapply moved_at_l; [by eapply Hm | by eapply Hf].
Qed.
Lemma announces_at_r {A B} key (m : M Txn EngineError A) (f : A -> M Txn EngineError B) :
  announces m -> (forall a, announces_at key (f a)) -> announces_at key (m ≫= f).
Proof.
  intros Hm Hf t t' b Hrun. apply bind_Ok_inv in Hrun as (t1 & a & H1 & H2).
  eapply moved_at_r; [by eapply Hm | by eapply Hf].
Qed.
Lemma push_at key p : key ∈ touches p \/ touches_everything p = true -> announces_at key (push p).
Proof.
  intros Hp t t' a [= <- _]. exists [p]. split_and!; [done | by apply Exists_cons; left | by right].
Qed.

(** What follows a write names it. *)
Lemma wrote_moved key t t1 t2 : wrote key t t1 -> moved_at key t1 t2 -> moved_at key t t2.
Proof.
  intros [P W] (new & P2 & A & H2). exists new. rewrite P2, P. split_and!; [done | done |]. intros key'.
  destruct (decide (key' = key)) as [->|Hk]; [by left |]. destruct (H2 key') as [?|E]; [by left |].
  right. rewrite E. by apply W.
Qed.
Lemma on_book_announces {A B} key (m : M Book BookError.BookError A) (f : A -> M Txn EngineError B) :
  (forall a, announces_at key (f a)) -> announces_at key (on_book key m ≫= f).
Proof.
  intros Hf t t' b Hrun. apply bind_Ok_inv in Hrun as (t1 & a & H1 & H2).
  eapply wrote_moved; [by eapply on_book_wrote | by eapply Hf].
Qed.

(** Goes to the last step, which names the listing. *)
Ltac announcing_at :=
  repeat (apply announces_at_r; [by announcing | intros ?]); apply push_at; simpl; set_solver.

(** ** Executions *)

Lemma settle_fill_at key maker taker p q auction : announces_at key (settle_fill key maker taker p q auction).
Proof.
  unfold settle_fill.
  repeat first [apply announces_at_r; [by announcing; unfold drop_expiry; repeat case_match | intros ?] | case_match].
  all: apply push_at; simpl; set_solver.
Qed.
Lemma announces_settle_fill key maker taker p q auction : announces (settle_fill key maker taker p q auction).
Proof. eapply announces_at_announces, settle_fill_at. Qed.
#[export] Hint Resolve announces_settle_fill : announce.

Lemma settle_matches_at taker key ms : ms <> [] -> announces_at key (settle_matches taker key ms).
Proof.
  destruct ms as [|x ms]; [done |]. intros _. unfold settle_matches. simpl. apply announces_at_l; [apply settle_fill_at |].
  intros ?. announcing.
Qed.

(** An execution without fills leaves the book as it was. *)
Lemma execute_loop_nil fuel : forall taker limit remaining matches b b' ms rem,
  execute_loop fuel taker limit remaining matches b = (b', Ok (ms, rem)) ->
  (ms = matches /\ b' = b) \/ (length matches < length ms)%nat.
Proof.
  induction fuel as [|fuel IH]; intros taker limit remaining matches b b' ms rem; simpl; [intros [= <- <- _]; auto |].
  destruct (remaining <=? 0); [intros [= <- <- _]; auto |]. rewrite bind_gets. cbn [id].
  destruct (best b (opposite taker)); [| intros [= <- <- _]; auto].
  destruct (negb _); [intros [= <- <- _]; auto |]. intros Hrun. run_inv. right.
  match goal with H : execute_loop _ _ _ _ _ _ = _ |- _ => apply IH in H as [[-> _]|Hl]; [| rewrite length_app in Hl; simpl in Hl; lia] end.
  rewrite length_app. simpl. lia.
Qed.
Lemma execute_nil taker limit q b b' rem : execute taker limit q b = (b', Ok ([], rem)) -> b' = b.
Proof.
  unfold execute. intros Hrun. run_inv.
  match goal with H : execute_loop _ _ _ _ _ _ = _ |- _ => apply execute_loop_nil in H as [[_ ?]|H]; [done | simpl in H; lia] end.
Qed.

Lemma announces_submit_execute order key call : announces (submit_execute order key call).
Proof.
  unfold submit_execute. apply announces_bind; [announcing | intros s]. apply announces_bind; [announcing | intros l0].
  cbv zeta. case_match; [| announcing]. intros t t' q Hrun. apply bind_Ok_inv in Hrun as (t1 & [ms rem] & H1 & H2).
  destruct ms as [|x ms].
  - revert H2. intros H2. simpl in H2. injection H2 as <- <-. unfold on_book in H1. rewrite bind_read in H1. cbn [id] in H1.
    apply bind_Ok_inv in H1 as (t2 & l & [-> Hl%ok_or_Ok]%lift_Ok_inv & H1).
    destruct (execute _ _ _ (ls_book l)) as [b r] eqn:He. rewrite bind_update_run in H1.
    apply lift_Ok_inv in H1 as [-> ->%map_err_Ok]. apply execute_nil in He as ->. exists []. rewrite app_nil_r.
    split; [done |]. right. simpl. destruct l. simpl. by rewrite insert_id.
  - eapply moved_at_moved, wrote_moved; [by eapply on_book_wrote |].
    eapply announces_at_use; [exact H2 |]. apply announces_at_l; [by apply settle_matches_at |].
    intros ?. announcing.
Qed.
#[export] Hint Resolve announces_submit_execute : announce.

(** ** The operations of the engine *)

Lemma announces_cancel_order oid reason : announces (cancel_order oid reason).
Proof.
  intros t t' a. unfold cancel_order. rewrite bind_read. cbn [id]. intros Hrun.
  apply bind_Ok_inv in Hrun as (? & o & [-> _]%lift_Ok_inv & Hrun).
  apply bind_Ok_inv in Hrun as (? & l & [-> _]%lift_Ok_inv & Hrun).
  destruct (cancel oid (ls_book l)) as [b resting]. apply bind_Ok_inv in Hrun as (t1 & u & Hu & Hrun).
  apply (moved_at_moved (oo_listing_key o)), (wrote_moved _ _ t1).
  { injection Hu as <- _. split; [done |]. intros key' Hk. simpl. by rewrite lookup_insert_ne. }
  eapply announces_at_use; [exact Hrun |].
  repeat (apply announces_at_r; [by announcing | intros ?]). apply push_at. simpl. set_solver.
Qed.
#[export] Hint Resolve announces_cancel_order : announce.

Lemma announces_submit_remainder order key admission remaining :
  announces (submit_remainder order key admission remaining).
Proof.
  unfold submit_remainder. cbv zeta. case_match; [announcing |].
  destruct (ot_limit _) as [price|]; [| announcing]. destruct (immediate _); [announcing |].
  apply (announces_at_announces key), on_book_announces. intros ?. announcing_at.
Qed.
#[export] Hint Resolve announces_submit_remainder : announce.
Lemma announces_submit order key now : announces (submit order key now).
Proof.
  unfold submit, submit_open. apply announces_bind; [announcing | intros s]. case_match; [| announcing].
  apply announces_bind; [announcing | intros l]. case_match; [| announcing]. case_match. announcing.
Qed.
Lemma announces_run_auction key : announces (run_auction key).
Proof.
  unfold run_auction. apply announces_bind; [announcing | intros s]. cbv zeta.
  apply announces_bind; [announcing | intros l]. case_match; [| announcing]. case_match. apply (announces_at_announces key), on_book_announces. intros ?.
  repeat (apply announces_at_r; [announcing; by destruct (cross_roles _) as [? ?]; auto with announce | intros ?]).
  apply push_at. by right.
Qed.
#[export] Hint Resolve announces_submit announces_run_auction : announce.

Lemma close_listings_kept ks s : rs_listings (close_listings ks s).1 = rs_listings s.
Proof.
  revert s. induction ks as [|k ks IH]; intros s; [done |]. simpl.
  assert (Hl : rs_listings (close_listing s k).1 = rs_listings s) by (unfold close_listing; by repeat case_match).
  destruct (close_listing s k) as [s1 c]. specialize (IH s1). destruct (close_listings ks s1). simpl in *. congruence.
Qed.
Lemma announces_settle_marks l : announces (settle_marks l).
Proof. induction l; simpl; announcing. Qed.
Lemma announces_settle_day d : announces (settle_day d).
Proof.
  unfold settle_day. apply announces_bind; [announcing |]. intros ?.
  apply announces_bind; [apply announces_settle_marks |]. intros ?. announcing.
Qed.
#[export] Hint Resolve announces_settle_day : announce.

Lemma announces_cross_session v b : announces (cross_session v b).
Proof.
  unfold cross_session. cbv zeta. do 3 (apply announces_bind; [announcing | intros ?]). case_match; [| announcing].
  intros t t' x. rewrite bind_read. cbn [id]. unfold close_day.
  pose proof (close_listings_kept (venue_listings (tx_run t) v) (tx_run t)) as Hc.
  destruct (close_listings _ _) as [s closes]. rewrite bind_update_run. simpl in Hc. intros Hrun.
  trans (mkTxn s (tx_payloads t) (tx_changed t)).
  - exists []. rewrite app_nil_r. split; [done |]. right. simpl. by rewrite Hc.
  - eapply (announces_bind (push _) _ (announces_push _)); [| exact Hrun]. intros ?. announcing.
Qed.
#[export] Hint Resolve announces_cross_session : announce.
Lemma announces_cross_boundary v n b : announces (cross_boundary v n b).
Proof. unfold cross_boundary. announcing. Qed.
#[export] Hint Resolve announces_cross_boundary : announce.
Lemma announces_expire_loop fuel now : announces (expire_loop fuel now).
Proof. induction fuel; simpl; announcing. Qed.
Lemma announces_expire_due now : announces (expire_due now).
Proof. unfold expire_due. apply announces_bind; [announcing |]. intros ?. apply announces_expire_loop. Qed.
#[export] Hint Resolve announces_expire_due : announce.
Lemma announces_cross_due fuel to : announces (cross_due fuel to).
Proof. induction fuel; simpl; announcing. Qed.
#[export] Hint Resolve announces_cross_due : announce.
Lemma announces_catch_up to sweep : announces (catch_up to sweep).
Proof. unfold catch_up. announcing. Qed.
Lemma announces_cancel_all reason orders : announces (cancel_all reason orders).
Proof. unfold cancel_all. announcing. Qed.
Lemma announces_verdict oid outcome : announces (verdict oid outcome).
Proof. unfold verdict. announcing. Qed.
#[export] Hint Resolve announces_catch_up announces_cancel_all announces_verdict : announce.
Lemma announces_apply_payload c key : announces (apply_payload c key).
Proof. unfold apply_payload, apply_submit, apply_cancel, activate_kill_switch. announcing. Qed.
Lemma announces_apply_simulation r : announces (apply_simulation_payload r).
Proof. unfold apply_simulation_payload. announcing. Qed.
#[export] Hint Resolve announces_apply_payload announces_apply_simulation : announce.

(** ** A committed input *)

Lemma finish_payload_listings now p s : rs_listings (finish_payload now p s).1 = rs_listings s.
Proof.
  unfold finish_payload. rewrite bind_gets. cbn [id].
  destruct (project_event now p (rs_simulation s)) as [sim r]. rewrite bind_modify.
  destruct r as [u|e]; [| done]. rewrite (bind_lift _ _ _ u) by done.
  destruct p; simpl; try done; unfold release_slot; by repeat case_match.
Qed.
Lemma finish_transition_commits c next ps changed acc code oid s s' a :
  finish_transition c next ps changed acc code oid s = (s', Ok a) ->
  rs_listings s' = rs_listings s /\ ev_payload <$> ap_events a = ps.
Proof.
  unfold finish_transition. intros Hrun. apply bind_Ok_inv in Hrun as (s1 & [] & Hfin & Hrun).
  rewrite bind_gets in Hrun. apply bind_Ok_inv in Hrun as (? & evs & [-> Hev]%lift_Ok_inv & Hrun).
  rewrite !bind_modify in Hrun. ret_inv Hrun. simpl. split.
  - assert (HP : PreOrder (fun s s' => rs_listings s' = rs_listings s)).
    { split; [done |]. intros ???. congruence. }
    pose proof (keeps_for_each (E := EngineError) (fun s s' => rs_listings s' = rs_listings s)
      (finish_payload (cmd_logical_time c)) ps (fun x s => finish_payload_listings _ _ s) s) as Hk.
    by rewrite Hfin in Hk.
  - apply envelope_numbers in Hev as [Hl Hn]. apply list_eq_same_length with (length ps); [done | by rewrite length_fmap |].
    intros n x y Hn' Hx Hy. apply list_lookup_fmap_Some in Hx as (e & -> & He). apply Hn in He as [_ He]. congruence.
Qed.
Lemma commit_transaction_announces c next m s s' a :
  announces m -> commit_transaction c next m s = (s', Ok a) ->
  forall key, announced (ev_payload <$> ap_events a) key \/ rs_listings s' !! key = rs_listings s !! key.
Proof.
  intros Hm. unfold commit_transaction. destruct (m (mkTxn s [] ∅)) as [t [[[acc code] oid]|e]] eqn:Hrun; [| done].
  intros [-> ->]%finish_transition_commits key. apply Hm in Hrun as (new & -> & H). apply H.
Qed.

(** A committed input moves a book only if its events name the listing or
    make the publisher read every listing. *)
Lemma apply_input_announces i s s' a :
  apply_input i s = (s', Ok a) ->
  forall key, announced (ev_payload <$> ap_events a) key \/ rs_listings s' !! key = rs_listings s !! key.
Proof.
  intros (_ & _ & _ & Hrun)%apply_input_Ok. destruct i as [c|r].
  - destruct Hrun as (key & _ & _ & Hrun). eapply commit_transaction_announces; [| exact Hrun]. announcing.
  - destruct Hrun as [_ Hrun]. eapply commit_transaction_announces; [| exact Hrun]. announcing.
Qed.

(** * The publisher's caches follow the committed books

    After every commit the cache of published depths is the run's own, and
    the batch carries each listing from its previous view to the new one. *)

(** ** The visible depth of a listing *)

(** The view of a listing; nothing for a listing the run does not have. *)
Definition depth_of (s : RunState) (key : ListingKey) : PublicDepth := default ([], []) (ok (visible_levels s key)).

Lemma all_depths_lookup s key : all_depths s !! key = ok (visible_levels s key).
Proof.
  unfold all_depths. rewrite map_lookup_imap. unfold visible_levels. by destruct (rs_listings s !! key).
Qed.

Lemma collect_lookup levels : forall (m : gmap Z Z) p, NoDup levels.*1 ->
  foldl (fun m level => <[level.1 := level.2]> m) m levels !! p =
  match list_to_map (M := gmap Z Z) levels !! p with Some q => Some q | None => m !! p end.
Proof. intros m p Hnd. exact (foldl_insert_lookup (K' := Z) (fun k => k) levels m p Hnd). Qed.

Section depth.
Context (b : Book) (Hb : book_ok b) (side : Side).
Local Notation levels := (levels_best_first b side).

Lemma depth_eq : depth b side = (fun pl => (pl.1, lv_visible pl.2)) <$> levels.
Proof using Type. by destruct side. Qed.
Lemma depth_prices : NoDup (depth b side).*1.
Proof using Type.
  rewrite depth_eq, <- list_fmap_compose. change (fst ∘ _) with (fst (A := Z) (B := Level)).
  pose proof (levels_rank_sorted b side) as Hs. induction Hs as [|p l Hs IH Hall]; constructor; [| done].
  intros Hin. rewrite Forall_forall in Hall. apply Hall in Hin. lia.
Qed.
(** What a client that reads the depth holds. *)
Lemma collect_depth : collect_levels (depth b side) = lv_visible <$> book_side b side.
Proof using Type.
  apply map_eq. intros p. unfold collect_levels. rewrite collect_lookup by apply depth_prices. rewrite lookup_empty, lookup_fmap.
  destruct (book_side b side !! p) as [lv|] eqn:Hp; simpl.
  - erewrite (proj1 (elem_of_list_to_map (depth b side) p (lv_visible lv) depth_prices)); [done |].
    rewrite depth_eq. apply list_elem_of_fmap. exists (p, lv). split; [done |]. by apply elem_of_levels.
  - destruct (list_to_map (M := gmap Z Z) (depth b side) !! p) as [q|] eqn:Hq; [| done].
    apply elem_of_list_to_map_2 in Hq. rewrite depth_eq in Hq. apply list_elem_of_fmap in Hq as ([p' lv] & [= -> _] & Hin).
    apply elem_of_levels in Hin. congruence.
Qed.
Lemma depth_positive : map_Forall (fun _ q => q <> 0) (collect_levels (depth b side)).
Proof using Hb.
  rewrite collect_depth. intros p q. rewrite lookup_fmap. intros (lv & Hlv & ->)%fmap_Some.
  pose proof (bk_level_ok _ Hb side p lv Hlv) as Hl. rewrite (lk_visible _ _ _ _ Hl).
  destruct (map_choose (lv_queue lv) (lk_nonempty _ _ _ _ Hl)) as (k & id & Hk).
  apply (lk_queue _ _ _ _ Hl) in Hk as (o & Ho & Hat & _).
  assert (Hnn : forall i x, bk_orders b !! i = Some x -> 0 <= bo_visible x).
  { intros i x Hx. destruct (bk_order_ok _ Hb i x Hx). lia. }
  pose proof (level_sum_ge bo_visible side p (bk_orders b) id o) as Hge. destruct (bk_order_ok _ Hb id o Ho). 
  assert (bo_visible o <= level_sum bo_visible side p (bk_orders b)) by auto. lia.
Qed.
End depth.

(** Reading a client's copy gives the depth back. *)
Lemma read_back b bk :
  fb_bids b = collect_levels (depth bk Buy) -> fb_asks b = collect_levels (depth bk Sell) ->
  feed_bids b = depth bk Buy /\ feed_asks b = depth bk Sell.
Proof.
  rewrite !collect_depth. intros HB HA. unfold feed_bids, feed_asks. rewrite HB, HA, !entries_fmap. split; [| done].
  unfold depth. by rewrite fmap_reverse.
Qed.

Definition books_sound (s : RunState) : Prop := map_Forall (fun _ l => book_ok (ls_book l)) (rs_listings s).

Lemma depth_of_nonzero s key : books_sound s -> depth_nonzero (depth_of s key).
Proof.
  intros Hs. unfold depth_of, visible_levels. destruct (rs_listings s !! key) as [l|] eqn:Hl; [| done].
  split; apply depth_positive; by apply (Hs key).
Qed.

(** ** The updates of one commit *)

(** The first update of a listing. *)
Definition update_for (key : ListingKey) (updates : list PublicListingUpdate) : option PublicListingUpdate :=
  head (filter (fun update => pu_listing_key update = key) updates).
Definition levels_for (key : ListingKey) (updates : list PublicListingUpdate) : list LevelChange :=
  default [] (pu_levels <$> update_for key updates).

Lemma publish_listing_spec events view known views known' views' update :
  publish_listing events view known views = (known', views', update) ->
  known' = <[av_key view := av_depth view]> known /\ (is_Some views' <-> is_Some views) /\
  levels_for (av_key view) (option_list update) = diff_levels (default ([], []) (known !! av_key view)) (av_depth view) /\
  Forall (fun u => pu_listing_key u = av_key view) (option_list update).
Proof.
  unfold publish_listing. set (levels := diff_levels _ _). clearbody levels.
  destruct views as [views|]; [destruct (av_displayed view) as [displayed|] |]; cbn [fst snd];
    (intros [= <- <- <-]; split_and!; [done | by split; eauto | |]).
  1,3,5: destruct levels; [destruct (zip_update _ _ _); [try destruct (diff_orders _ _) |] |];
    unfold levels_for, update_for; cbn; by rewrite ?decide_True by done.
  all: destruct levels; [destruct (zip_update _ _ _); [try destruct (diff_orders _ _) |] |]; by repeat constructor.
Qed.

Lemma update_for_app key us1 us2 :
  update_for key (us1 ++ us2) = match update_for key us1 with Some u => Some u | None => update_for key us2 end.
Proof. unfold update_for. rewrite filter_app. by destruct (filter _ us1). Qed.
Lemma update_for_away key us : Forall (fun u => pu_listing_key u <> key) us -> update_for key us = None.
Proof. intros H. unfold update_for. by rewrite filter_none. Qed.

Lemma publish_listings_spec events listings : forall known views known' views' updates,
  publish_listings events listings known views = (known', views', updates) -> NoDup (av_key <$> listings) ->
  Forall (fun u => pu_listing_key u ∈ av_key <$> listings) updates /\
  (forall key, key ∉ av_key <$> listings -> known' !! key = known !! key) /\
  (forall view, view ∈ listings -> known' !! av_key view = Some (av_depth view) /\
     levels_for (av_key view) updates = diff_levels (default ([], []) (known !! av_key view)) (av_depth view)).
Proof.
  induction listings as [|view listings IH]; intros known views known' views' updates; cbn [publish_listings].
  - intros [= <- <- <-] _. split_and!; [constructor | done |]. intros v Hv. by apply not_elem_of_nil in Hv.
  - destruct (publish_listing events view known views) as [[known1 views1] update] eqn:H1.
    destruct (publish_listings events listings known1 views1) as [[known2 views2] more] eqn:H2.
    intros [= <- <- <-] Hnd. rewrite fmap_cons in *. apply NoDup_cons in Hnd as [Hv Hnd].
    apply publish_listing_spec in H1 as (-> & _ & L1 & M1). destruct (IH _ _ _ _ _ H2 Hnd) as (M & K & V). split_and!.
    + apply Forall_app. split; [eapply Forall_impl; [exact M1 |]; simpl; intros u ->; left |].
      eapply Forall_impl; [exact M |]. simpl. intros u Hu. by right.
    + intros key [Hne Hk]%not_elem_of_cons. rewrite K by done. by rewrite lookup_insert_ne.
    + intros v [->|Hin]%elem_of_cons.
      * rewrite K, lookup_insert_eq by done. split; [done |]. rewrite <- L1. unfold levels_for.
        rewrite update_for_app, (update_for_away _ more); [by destruct (update_for _ _) |].
        eapply Forall_impl; [exact M |]. simpl. intros u Hu He. by rewrite He in Hu.
      * assert (Hne : av_key view <> av_key v).
        { intros He. apply Hv. rewrite He. apply list_elem_of_fmap. by exists v. }
        destruct (V v Hin) as [V1 V2]. rewrite V1. split; [done |]. rewrite lookup_insert_ne in V2 by done.
        etrans; [| exact V2]. unfold levels_for. rewrite update_for_app, (update_for_away _ (option_list update)); [done |].
        eapply Forall_impl; [exact M1 |]. simpl. congruence.
Qed.

(** The views read after a commit. *)
Lemma after_views_spec s events with_orders keys :
  NoDup keys ->
  let after := omap (after_view s events with_orders) keys in
  NoDup (av_key <$> after) /\
  (forall key, key ∈ av_key <$> after <-> key ∈ keys /\ is_Some (ok (visible_levels s key))) /\
  (forall view, view ∈ after -> ok (visible_levels s (av_key view)) = Some (av_depth view)).
Proof.
  intros Hnd after.
  assert (Hv : forall key view, after_view s events with_orders key = Some view ->
    av_key view = key /\ ok (visible_levels s key) = Some (av_depth view)).
  { unfold after_view. intros key view. destruct (ok (visible_levels s key)); [| done]. by intros [= <-]. }
  assert (Hmem : forall key, key ∈ av_key <$> after <-> key ∈ keys /\ is_Some (ok (visible_levels s key))).
  { intros key. rewrite list_elem_of_fmap. split.
    - intros (v & -> & Hin). apply list_elem_of_omap in Hin as (key' & Hk & Ha). destruct (Hv _ _ Ha) as [-> E]. rewrite E. eauto.
    - intros [Hk [d Hd]]. destruct (after_view s events with_orders key) as [v|] eqn:Ha.
      + exists v. destruct (Hv _ _ Ha) as [-> _]. split; [done |]. apply list_elem_of_omap. eauto.
      + unfold after_view in Ha. by rewrite Hd in Ha. }
  split_and!; [| done |].
  - unfold after. clear Hmem after. induction Hnd as [|key keys Hk Hnd IH]; [constructor |]. cbn.
    destruct (after_view s events with_orders key) as [v|] eqn:Ha; [| done]. cbn. constructor; [| done].
    intros (v' & He & Hin)%list_elem_of_fmap. apply list_elem_of_omap in Hin as (key' & Hk' & Ha').
    destruct (Hv _ _ Ha) as [E _], (Hv _ _ Ha') as [E' _]. apply Hk. congruence.
  - intros view (key & Hk & Ha)%list_elem_of_omap. destruct (Hv _ _ Ha) as [-> E]. done.
Qed.

(** ** One commit *)

(** The caches of a run are empty or its committed views. *)
Definition cache_ok (s : RunState) (p : Publisher) : Prop :=
  pb_books p !! rs_run_id s = None \/ pb_books p !! rs_run_id s = Some (all_depths s).

Lemma prime_orders_books r s p : pb_books (prime_orders r s p) = pb_books p /\ pb_published (prime_orders r s p) = pb_published p.
Proof. unfold prime_orders. by repeat case_match. Qed.
Lemma prime_books_cached s p : cache_ok s p -> pb_books (prime_books (rs_run_id s) s p) !! rs_run_id s = Some (all_depths s).
Proof.
  unfold prime_books. intros [Hn|Hs]; [rewrite Hn, Z.eqb_refl; apply lookup_insert_eq | by rewrite Hs].
Qed.
Lemma prime_books_published r s p : pb_published (prime_books r s p) = pb_published p.
Proof. unfold prime_books. by repeat case_match. Qed.

Lemma elem_of_set_iter {K} `{Countable K} `{!RustOrd K} (X : gset K) x : x ∈ set_iter X <-> x ∈ X.
Proof. unfold set_iter. by rewrite merge_sort_Permutation, elem_of_elements. Qed.
Lemma NoDup_set_iter {K} `{Countable K} `{!RustOrd K} (X : gset K) : NoDup (set_iter X).
Proof. unfold set_iter. rewrite merge_sort_Permutation. apply NoDup_elements. Qed.

(** The listings an announcement makes the publisher read. *)
Lemma announced_touched events known key :
  announced (ev_payload <$> events) key -> is_Some (known !! key) -> key ∈ touched_listings events known.
Proof.
  intros Ha Hk. unfold touched_listings. cbv zeta. apply Exists_exists in Ha as (p & Hp & [Ht|Ht]).
  - assert (Hin : key ∈ ⋃ (touches <$> (ev_payload <$> events))).
    { apply elem_of_union_list. exists (touches p). split; [| done]. apply list_elem_of_fmap. by exists p. }
    destruct (existsb _ _); set_solver.
  - rewrite (proj2 (existsb_exists _ _)); [apply elem_of_union; right; by apply elem_of_dom |].
    exists p. split; [by apply list_elem_of_In | done].
Qed.

(** What a commit's updates say of every listing, and the caches they
    leave. *)
Lemma public_updates_spec s s' events p p' updates :
  rs_run_id s' = rs_run_id s -> dom (rs_listings s') = dom (rs_listings s) ->
  (forall key, announced (ev_payload <$> events) key \/ rs_listings s' !! key = rs_listings s !! key) ->
  pb_books p !! rs_run_id s = Some (all_depths s) ->
  public_updates (rs_run_id s) events s' p = (p', updates) ->
  pb_books p' !! rs_run_id s = Some (all_depths s') /\ pb_published p' = pb_published p /\
  exists us, updates = Some us /\ forall key, levels_for key us = diff_levels (depth_of s key) (depth_of s' key).
Proof.
  intros Hr Hd Ha Hk. unfold public_updates. rewrite Hk. cbv zeta.
  set (touched := touched_listings events (all_depths s)).
  set (with_orders := bool_decide _). set (views := pb_orders p !! rs_run_id s). clearbody with_orders views.
  destruct (after_views_spec s' events with_orders (set_iter touched) (NoDup_set_iter _)) as (Hnd & Hmem & Hav).
  set (after := omap _ _) in *. clearbody after.
  destruct (publish_listings events after (all_depths s) views) as [[known' views'] us] eqn:Hp.
  apply publish_listings_spec in Hp as (M & K & V); [| done]. intros [= <- <-].
  (* The listings that were not read show what they showed. *)
  assert (Hkept : forall key, key ∉ av_key <$> after -> ok (visible_levels s' key) = ok (visible_levels s key)).
  { intros key Hn. unfold visible_levels in *. destruct (rs_listings s !! key) as [l|] eqn:Hl.
    - destruct (Ha key) as [Han|E]; [| by rewrite E, Hl]. exfalso. apply Hn, Hmem.
      assert (Hs' : is_Some (rs_listings s' !! key)) by (apply elem_of_dom; rewrite Hd; apply elem_of_dom; eauto).
      split; [| by destruct Hs' as [l' ->]]. apply elem_of_set_iter, announced_touched; [done |].
      rewrite all_depths_lookup. unfold visible_levels. by rewrite Hl.
    - assert (rs_listings s' !! key = None) as ->; [| done]. apply not_elem_of_dom. rewrite Hd. by apply not_elem_of_dom. }
  split_and!.
  - unfold with_books. simpl. rewrite lookup_insert_eq. f_equal. apply map_eq. intros key. rewrite all_depths_lookup.
    destruct (decide (key ∈ av_key <$> after)) as [(v & -> & Hv)%list_elem_of_fmap|Hn].
    + rewrite (proj1 (V v Hv)). by rewrite (Hav v Hv).
    + rewrite K, all_depths_lookup by done. by rewrite Hkept.
  - by destruct views'.
  - exists us. split; [done |]. intros key. unfold depth_of.
    destruct (decide (key ∈ av_key <$> after)) as [(v & -> & Hv)%list_elem_of_fmap|Hn].
    + etrans; [apply (proj2 (V v Hv)) |]. by rewrite all_depths_lookup, (Hav v Hv).
    + rewrite Hkept, diff_levels_same by done. unfold levels_for. rewrite update_for_away; [done |].
      eapply Forall_impl; [exact M |]. simpl. intros u Hu He. by rewrite He in Hu.
Qed.

Lemma apply_input_definitions i s s' a :
  apply_input i s = (s', Ok a) -> ls_definition <$> rs_listings s' = ls_definition <$> rs_listings s.
Proof.
  intros (_ & _ & _ & Hrun)%apply_input_Ok. destruct i as [c|r].
  - destruct Hrun as (key & _ & _ & Hrun). eapply commit_transaction_static; [| exact Hrun]. framed.
  - destruct Hrun as [_ Hrun]. eapply commit_transaction_static; [| exact Hrun]. framed.
Qed.
Lemma apply_input_dom i s s' a : apply_input i s = (s', Ok a) -> dom (rs_listings s') = dom (rs_listings s).
Proof.
  intros Hd%apply_input_definitions. rewrite <- (dom_fmap_L ls_definition (rs_listings s')), Hd. apply dom_fmap_L.
Qed.

Lemma run_ok_books s : run_ok s -> books_sound s.
Proof. intros [[_ [Hb _] _ _ _] _ _] key l Hl. by eapply Hb. Qed.

(** What one commit publishes. *)
Definition commit_carries (s s' : RunState) (p p' : Publisher) (batch : option CommittedBatch) : Prop :=
  match batch with
  | None => pb_published p' = pb_published p /\ forall key, depth_of s' key = depth_of s key
  | Some batch =>
      cb_ordinal batch = pb_published p /\ pb_published p' = wrapping_add U64 (pb_published p) 1 /\
      forall key, carries key batch (depth_of s key) (depth_of s' key)
  end.

Lemma cache_ok_prime s p r : cache_ok s p -> cache_ok s (prime_orders r s (prime_books r s p)).
Proof.
  unfold cache_ok. rewrite (proj1 (prime_orders_books _ _ _)). unfold prime_books.
  destruct (pb_books p !! r) eqn:Hr; [done |]. destruct (Z.eqb_spec (rs_run_id s) r) as [<-|Hne]; [| done].
  intros _. right. apply lookup_insert_eq.
Qed.
Lemma prime_published s p r : pb_published (prime_orders r s (prime_books r s p)) = pb_published p.
Proof. by rewrite (proj2 (prime_orders_books _ _ _)), prime_books_published. Qed.

Lemma execute_published_carries i t s p s' p' batch :
  cache_ok s p -> run_ok s -> input_typed i -> execute_published i t false s p = Some (s', p', batch) ->
  cache_ok s' p' /\ run_ok s' /\ commit_carries s s' p p' batch.
Proof.
  intros Hc Hs Hi. unfold execute_published. cbv zeta. destruct (apply_input i s) as [s1 [a|[e|e]]] eqn:Ha; [| | done].
  - destruct (apply_input_Ok i s s1 a Ha) as (Hr & _). rewrite <- Hr. unfold publish_commit.
    set (p1 := prime_orders (rs_run_id s) s (prime_books (rs_run_id s) s p)).
    assert (Hp1 : pb_books p1 !! rs_run_id s = Some (all_depths s)).
    { unfold p1. rewrite (proj1 (prime_orders_books _ _ _)). by apply prime_books_cached. }
    assert (Hp2 : pb_published p1 = pb_published p) by (apply prime_published).
    clearbody p1. destruct (public_updates (rs_run_id s) (ap_events a) s1 p1) as [p2 updates] eqn:Hu.
    destruct (apply_input_frame i s s1 a Ha) as (_ & Hid & _).
    pose proof (apply_input_ok i s s1 a Hs Hi Ha) as Hs1. pose proof (apply_input_announces i s s1 a Ha) as Han.
    apply (public_updates_spec s s1) in Hu as (B & P & us & -> & L); [| done | by eapply apply_input_dom | done | done].
    unfold publish_batch. destruct (ap_events a) as [|ev evs] eqn:Hev; intros [= <- <- <-].
    + split_and!; [right; by rewrite Hid | done |]. split; [congruence |]. intros key.
      destruct (Han key) as [He|E]; [by inversion He |]. unfold depth_of, visible_levels. by rewrite E.
    + split_and!; [right; by rewrite Hid | done |]. split_and!; [simpl; congruence | simpl; congruence |].
      intros key. split; [by apply not_elem_of_nil | apply L | by apply depth_of_nonzero, run_ok_books].
  - apply apply_input_unchanged in Ha as ->. intros [= <- <- <-].
    split_and!; [by apply cache_ok_prime | done |]. split; [apply prime_published | done].
Qed.

(** What a sequence of commits publishes. *)
Definition projected (input : JournalInput * Z * bool) : Prop := input_typed input.1.1 /\ input.2 = false.

Lemma publish_run_carries inputs : forall s p s' p' batches,
  cache_ok s p -> run_ok s -> Forall projected inputs ->
  0 <= pb_published p -> pb_published p + Z.of_nat (length inputs) <= int_max U64 ->
  publish_run inputs s p = Some (s', p', batches) ->
  cache_ok s' p' /\ run_ok s' /\ pb_published p <= pb_published p' <= pb_published p + Z.of_nat (length inputs) /\
  Forall (fun batch => pb_published p <= cb_ordinal batch < pb_published p') batches /\
  forall key, carried key batches (depth_of s key) (depth_of s' key).
Proof.
  induction inputs as [|[[i t] fails] inputs IH]; intros s p s' p' batches Hc Hs Hall Hp Hmax; cbn [publish_run].
  - intros [= <- <- <-]. split_and!; try done; simpl; lia.
  - apply Forall_cons in Hall as [[Hi Hf] Hall]. simpl in Hi, Hf. subst fails.
    destruct (execute_published i t false s p) as [[[s1 p1] batch]|] eqn:He; [| done]. cbn.
    destruct (publish_run inputs s1 p1) as [[[s2 p2] more]|] eqn:Hr; [| done]. cbn. intros [= <- <- <-].
    destruct (execute_published_carries i t s p s1 p1 batch Hc Hs Hi He) as (Hc1 & Hs1 & Hb).
    change (length ((i, t, false) :: inputs)) with (S (length inputs)) in *.
    assert (Hp1 : pb_published p <= pb_published p1 <= pb_published p + 1).
    { destruct batch as [b|]; [destruct Hb as (_ & -> & _) | destruct Hb as [-> _]; lia].
      unfold wrapping_add, wrap. rewrite Z.mod_small; lia. }
    apply IH in Hr as (Hc2 & Hs2 & Hp2 & Ho & Hcar); [| done | done | done | lia | lia].
    split_and!; [done | done | lia | lia | |].
    + destruct batch as [b|]; simpl.
      * destruct Hb as (Hob & Hpb & _). apply Forall_cons. split.
        -- assert (pb_published p1 = pb_published p + 1); [| lia]. rewrite Hpb. unfold wrapping_add, wrap. apply Z.mod_small. lia.
        -- eapply Forall_impl; [exact Ho |]. simpl. lia.
      * eapply Forall_impl; [exact Ho |]. simpl. lia.
    + intros key. destruct batch as [b|]; simpl.
      * destruct Hb as (_ & _ & Hb). by exists (depth_of s1 key).
      * destruct Hb as [_ Hb]. rewrite <- (Hb key). done.
Qed.

Lemma publish_run_dom inputs : forall s p s' p' batches,
  publish_run inputs s p = Some (s', p', batches) -> dom (rs_listings s') = dom (rs_listings s).
Proof.
  induction inputs as [|[[i t] fails] inputs IH]; intros s p s' p' batches; cbn [publish_run]; [by intros [= <- _ _] |].
  destruct (execute_published i t fails s p) as [[[s1 p1] batch]|] eqn:He; [| done]. cbn.
  destruct (publish_run inputs s1 p1) as [[[s2 p2] more]|] eqn:Hr; [| done]. cbn. intros [= <- _ _].
  rewrite (IH _ _ _ _ _ Hr). unfold execute_published in He. destruct (apply_input i s) as [s3 [a|[e|e]]] eqn:Ha; [| | done].
  - destruct (publish_commit _ _ _ _ _ _). injection He as <- _ _. by eapply apply_input_dom.
  - injection He as <- _ _. by apply apply_input_unchanged in Ha as ->.
Qed.

(** ** A projection that failed *)

Lemma failed_projection_names i t s p s' p' batch :
  execute_published i t true s p = Some (s', p', Some batch) ->
  pb_books p' !! rs_run_id s' = Some (all_depths s') /\ cb_public batch = [] /\
  forall key, is_Some (rs_listings s' !! key) -> key ∈ cb_public_gaps batch.
Proof.
  unfold execute_published. cbv zeta. destruct (apply_input i s) as [s1 [a|[e|e]]] eqn:Ha; [| done | done].
  destruct (apply_input_frame i s s1 a Ha) as (_ & Hid & _). destruct (apply_input_Ok i s s1 a Ha) as (Hr & _).
  unfold publish_commit, publish_batch, recover_public_projection. cbv zeta. destruct (ap_events a); [done |]. intros [= <- <- <-].
  cbn [pb_books cb_public cb_public_gaps]. rewrite (proj1 (prime_orders_books _ _ _)), <- Hr, <- Hid. split_and!; [| done |].
  - apply prime_books_cached. left. unfold with_views, with_books. cbn [pb_books]. rewrite Hid. apply lookup_delete_eq.
  - intros key Hk. apply elem_of_set_iter. apply elem_of_union. right. by apply elem_of_dom.
Qed.
