(* ===== verification/FeedTheorems.v ===== *)
(** * Public market data, end to end

    The engine, the publisher, the session and the client together: a
    subscriber's copy is the venue's book, and a view that could not be
    published is never silently missing. *)

From S2P Require Import Prelude Ordered Digest MarketTypes MarketEvents Ledger Risk Book Scenario Transition Engine.
From S2P Require Import EngineFrame EngineRetire EngineReach EngineTheorems Latency MarketFeed.
From S2P Require Import FeedSession Publishing.
#[local] Open Scope list_scope.

(** the engine announces every book it moves. A committed input leaves
    the book of a listing exactly as it was unless one of its events names
    that listing (an order rested or canceled there, a trade) or is a
    simulation event, which makes the publisher read every listing again. So
    reading only the listings that [public_updates] touches never misses a
    change. *)
Theorem books_move_only_when_announced i s s' a known key :
  apply_input i s = (s', Ok a) -> is_Some (known !! key) -> key ∉ touched_listings (ap_events a) known ->
  rs_listings s' !! key = rs_listings s !! key.
Proof.
  intros Ha Hk Hn. destruct (apply_input_announces i s s' a Ha key) as [Han|E]; [| done].
  exfalso. by apply Hn, announced_touched.
Qed.

Section mirror.
Context `{Sha256} `{ScenarioCodec} `{RunCodec} (run_id iteration : Z) (sc : ScenarioDefinition).

(** C16: a subscriber sees the book. From any reachable run, every further
    commit of which has a public projection, a session subscribes to both
    sides of a listing's price levels, its snapshot is taken after the
    commits [in1] and arrives after the further commits [in2], and the
    commits [in3] follow, and the buffer of the pending feed is never full.
    However the session's other feeds are interleaved, a client that applies every message of the session in order never meets
    a gap, and ends with the same bids and asks, in the same order, as the
    venue's book after the last commit. *)
Theorem subscriber_sees_the_book s0 p0 id key flags b0 b1 b2 b3 b4 in1 in2 in3 s1 s2 s3 p1 p2 p3 bs1 bs2 bs3
    ms1 act ms3 last listing :
  scenario_typed sc -> reachable run_id iteration sc s0 -> cache_ok s0 p0 ->
  Forall projected (in1 ++ in2 ++ in3) ->
  0 <= pb_published p0 -> pb_published p0 + Z.of_nat (length (in1 ++ in2 ++ in3)) <= int_max U64 ->
  publish_run in1 s0 p0 = Some (s1, p1, bs1) ->
  publish_run in2 s1 p1 = Some (s2, p2, bs2) ->
  publish_run in3 s2 p2 = Some (s3, p3, bs3) ->
  rs_listings s3 !! key = Some listing ->
  feeds_ok b0 -> fl_bids flags = true -> fl_offers flags = true -> fl_orders flags = false ->
  subscribe_venue id key flags b0 = (b1, None) ->
  bnp_on_batches (bs1 ++ bs2) b1 = (b2, Ok ms1) ->
  bnp_activate id (pb_published p1) last b2 = (b3, act) ->
  bnp_on_batches bs3 b3 = (b4, Ok ms3) ->
  exists b,
    feed_book_apply_all (ms1 ++ level_snapshot id key None 1 s1 :: act ++ ms3) (FeedBook_new id) = (b, Ok tt) /\
    feed_bids b = depth (ls_book listing) Buy /\ feed_asks b = depth (ls_book listing) Sell.
Proof.
  intros Hty Hs0 Hc0 Hall Hp0 Hmax R1 R2 R3 Hl Hb0 F1 F2 F3 Hsub Hpend Hact Hlive.
  rewrite !length_app in Hmax. apply Forall_app in Hall as [A1 [A2 A3]%Forall_app].
  destruct (reachable_ok run_id iteration sc s0 Hty Hs0) as (Hr0 & _ & _).
  pose proof R2 as R2'. pose proof R3 as R3'.
  apply publish_run_carries in R1 as (C1 & K1 & P1 & O1 & D1); [| done | done | done | lia | lia].
  apply publish_run_carries in R2 as (C2 & K2 & P2 & O2 & D2); [| done | done | done | lia | lia].
  apply publish_run_carries in R3 as (C3 & K3 & P3 & O3 & D3); [| done | done | done | lia | lia].
  assert (N1 : depth_nonzero (depth_of s1 key)) by (by apply depth_of_nonzero, run_ok_books).
  assert (Hk1 : exists l, rs_listings s1 !! key = Some l).
  { apply elem_of_dom. rewrite <- (publish_run_dom _ _ _ _ _ _ R2'), <- (publish_run_dom _ _ _ _ _ _ R3').
    apply elem_of_dom. eauto. }
  destruct Hk1 as [l1 Hl1].
  assert (Hsnap : level_snapshot id key None 1 s1 = MarketSnapshot id key 1 (depth_of s1 key).1 (depth_of s1 key).2).
  { unfold level_snapshot, depth_of, visible_levels. by rewrite Hl1. }
  rewrite Hsnap.
  destruct (subscription_mirrors id key flags F1 F2 F3 b0 b1 b2 b3 b4 bs1 bs2 bs3 ms1 act ms3 (pb_published p1) last
    Hb0 Hsub Hpend Hact Hlive) with (d := depth_of s1 key) (d' := depth_of s3 key) as (b & Hrun & B & A).
  - eapply Forall_impl; [exact O1 |]. simpl. lia.
  - eapply Forall_impl; [exact O2 |]. simpl. lia.
  - done.
  - apply carried_app. eauto.
  - exists b. split; [done |]. unfold depth_of, visible_levels in B, A. rewrite Hl in B, A. by apply read_back.
Qed.
End mirror.

(** a failed projection is never silent. When the public view of a
    durable commit could not be read, the batch names every listing of the
    run as a gap and the caches are rebuilt from the committed run. Whatever
    batches follow, a subscriber in step with its feed either receives
    nothing more, or the first message it receives is refused as a gap that
    starts past the number it expects, and its copy is left as it was: it
    never shows a book that is missing the commit. *)
Theorem failed_projection_is_never_silent i t s p s' p' batch rest b b' ms f copy next :
  execute_published i t true s p = Some (s', p', Some batch) ->
  feeds_ok b -> f ∈ pf_feeds (bf_public b) -> fe_pending f = None -> is_Some (rs_listings s' !! fe_listing_key f) ->
  fe_next_report f < int_max U64 ->
  fb_request_id copy = fe_request_id f -> fb_listing copy = Some (fe_listing_key f) ->
  fb_next_report copy = Some next -> next = fe_next_report f ->
  bnp_on_batches (batch :: rest) b = (b', Ok ms) ->
  cache_ok s' p' /\
  (filter (fun m => message_request m = Some (fe_request_id f)) ms = [] \/
   exists first, next < first /\ feed_book_apply_all ms copy = (copy, Err (FeedError.Gap next first))).
Proof.
  intros Hp Hb Hf Hpend Hk Hmax I L X -> Hrun. apply failed_projection_names in Hp as (Hc & _ & Hg).
  split; [by right |]. destruct (session_active _ _ _ _ _ f Hb Hrun Hf eq_refl Hpend) as (_ & Hown & _).
  rewrite feed_book_apply_own, I, Hown. cbn [feed_apply_all]. unfold feed_apply.
  rewrite bool_decide_true by (by apply Hg). set (f1 := feed_at _ f).
  assert (Hn1 : fe_next_report f1 = fe_next_report f + 1) by (unfold f1, saturating_add; simpl; lia).
  pose proof (feed_apply_all_first rest f1) as Hfirst. rewrite Hn1 in Hfirst. specialize (Hfirst ltac:(lia)).
  destruct (feed_apply_all rest f1) as [f2 own]. cbn [snd option_list app] in *. destruct own as [|m own]; [by left |]. right.
  specialize (Hfirst m own eq_refl). exists (ri_first_report (fm_message m)). split; [lia |].
  change (option_list None) with (@nil FeedMessage). rewrite app_nil_l, fmap_cons, apply_all_cons.
  rewrite (encoded_gap f m copy (fe_next_report f)); [done | done | done | done | lia].
Qed.

(** ** The sample subscription

    The sample run of [EngineTheorems]: the sell order rests before the
    snapshot, the buy order lifts part of it while the snapshot is on its
    way, and the bid rests after it arrived. *)
Module SampleFeed.
Import SampleRun.
Definition publisher : Publisher := mkPublisher ∅ ∅ false 0 0.
Definition flags : FeedFlags := mkFeedFlags true true true false.
Definition input (n time : Z) (order : SubmitOrder) : JournalInput * Z * bool := (submit_at n time order, time, false).
Definition published (inputs : list (JournalInput * Z * bool)) (x : RunState * Publisher) : RunState * Publisher * list CommittedBatch :=
  default (empty_run, publisher, []) (publish_run inputs x.1 x.2).
Definition step1 := published [input 1 10 sell] (genesis, publisher).
Definition step2 := published [input 2 20 buy] step1.1.
Definition step3 := published [input 3 30 bid] step2.1.
Definition subscribed : BnpFeeds := fst (subscribe_venue 9 key flags BnpFeeds_new).
Definition messages (x : BnpFeeds * result FeedFailure (list ServerMessage)) : list ServerMessage :=
  match snd x with Ok ms => ms | Err _ => [] end.
Definition waiting := bnp_on_batches (step1.2 ++ step2.2) subscribed.
Definition active := bnp_activate 9 (pb_published step1.1.2) 0 (fst waiting).
Definition live := bnp_on_batches step3.2 (fst active).
Definition copy : FeedBook :=
  fst (feed_book_apply_all (messages waiting ++ level_snapshot 9 key None 1 step1.1.1 :: snd active ++ messages live)
         (FeedBook_new 9)).
(** The commit of the bid whose projection fails, one more, and the copy a
    client holds before them. *)
Definition raise : SubmitOrder := mkSubmitOrder 202 10 2 Buy 2 (Limit 41) false.
Definition no_batch : CommittedBatch := mkCommittedBatch 0 0 [] [].
Definition failed := default (empty_run, publisher, None) (execute_published (submit_at 3 30 bid) 30 true step2.1.1 step2.1.2).
Definition failed_batch : CommittedBatch := default no_batch failed.2.
Definition later := published [input 4 40 raise] failed.1.
Definition after_failure := bnp_on_batches (failed_batch :: later.2) (fst active).
Definition active_feed : Feed :=
  default (mkFeed 0 key false false false Levels 0 None 0) (head (pf_feeds (bf_public (fst active)))).
Definition stale_copy : FeedBook :=
  fst (feed_book_apply_all (messages waiting ++ level_snapshot 9 key None 1 step1.1.1 :: snd active) (FeedBook_new 9)).
Definition reset : JournalInput := InputCommand (mkCommand 7 1 1 10 0 1 ResetKillSwitch).
End SampleFeed.

Section feed_witness.
Import SampleRun SampleFeed.
Import (hints) SampleRun.

Lemma sample_published inputs x :
  is_Some (publish_run inputs x.1 x.2) ->
  publish_run inputs x.1 x.2 = Some (published inputs x).
Proof. intros [y Hy]. unfold published. by rewrite Hy. Qed.
Lemma sample_projected : Forall projected ([input 1 10 sell] ++ [input 2 20 buy] ++ [input 3 30 bid]).
Proof.
  repeat (apply Forall_cons; split); [| | | by apply Forall_nil];
    (split; [apply sample_order_typed; simpl; lia | done]).
Qed.

Lemma subscriber_sees_the_book_witness :
  exists listing b,
    rs_listings step3.1.1 !! key = Some listing /\
    feed_bids b = depth (ls_book listing) Buy /\ feed_asks b = depth (ls_book listing) Sell /\
    feed_bids copy = [(40, 3)] /\ feed_asks copy = [(50, 6)].
Proof.
  assert (Hl : is_Some (rs_listings step3.1.1 !! key)) by (apply (bool_decide_unpack _); vm_compute; exact I).
  destruct Hl as [listing Hl].
  destruct (subscriber_sees_the_book 7 1 scenario genesis publisher 9 key flags BnpFeeds_new subscribed (fst waiting)
    (fst active) (fst live) [input 1 10 sell] [input 2 20 buy] [input 3 30 bid] step1.1.1 step2.1.1 step3.1.1
    step1.1.2 step2.1.2 step3.1.2 step1.2 step2.2 step3.2 (messages waiting) (snd active) (messages live) 0 listing)
    as (b & _ & Hb & Ha).
  - exact sample_typed.
  - apply reach_start, sample_genesis.
  - by left.
  - exact sample_projected.
  - done.
  - vm_compute. discriminate.
  - etrans; [apply (sample_published [input 1 10 sell] (genesis, publisher)) |]; [apply (bool_decide_unpack _); vm_compute; exact I |].
    by destruct (published _ _) as [[? ?] ?] eqn:He; unfold step1; rewrite He.
  - etrans; [apply (sample_published [input 2 20 buy] step1.1) |]; [apply (bool_decide_unpack _); vm_compute; exact I |].
    by destruct (published _ _) as [[? ?] ?] eqn:He; unfold step2; rewrite He.
  - etrans; [apply (sample_published [input 3 30 bid] step2.1) |]; [apply (bool_decide_unpack _); vm_compute; exact I |].
    by destruct (published _ _) as [[? ?] ?] eqn:He; unfold step3; rewrite He.
  - exact Hl.
  - exact BnpFeeds_new_ok.
  - done.
  - done.
  - done.
  - vm_compute. reflexivity.
  - vm_compute. reflexivity.
  - vm_compute. reflexivity.
  - vm_compute. reflexivity.
  - exists listing, b. split_and!; [exact Hl | exact Hb | exact Ha | vm_compute; reflexivity | vm_compute; reflexivity].
Defined.

Lemma sample_feeds_ok : feeds_ok (fst active).
Proof.
  assert (Hs : subscribe_venue 9 key flags BnpFeeds_new = (subscribed, None)) by (vm_compute; reflexivity).
  destruct (subscribe_venue_spec 9 key flags _ _ BnpFeeds_new_ok Hs) as [H1 Hf1].
  assert (Hw : bnp_on_batches (step1.2 ++ step2.2) subscribed = (fst waiting, Ok (messages waiting))) by (vm_compute; reflexivity).
  destruct (session_pending 9 _ _ _ _ _ [] H1 Hw Hf1 eq_refl eq_refl) as (H2 & _ & Hf2).
  assert (Ha : bnp_activate 9 (pb_published step1.1.2) 0 (fst waiting) = (fst active, snd active)) by (vm_compute; reflexivity).
  by destruct (session_activate 9 _ 0 _ _ _ _ H2 Ha Hf2 eq_refl) as (H3 & _).
Qed.

Lemma failed_projection_is_never_silent_witness :
  cache_ok failed.1.1 failed.1.2 /\
  (filter (fun m => message_request m = Some (fe_request_id active_feed)) (messages after_failure) = [] \/
   exists first, 3 < first /\ feed_book_apply_all (messages after_failure) stale_copy = (stale_copy, Err (FeedError.Gap 3 first))) /\
  length (messages after_failure) = 1%nat.
Proof.
  assert (Hw : forall A B C, A /\ B -> C -> A /\ B /\ C) by tauto. apply Hw; [| vm_compute; reflexivity].
  apply (failed_projection_is_never_silent (submit_at 3 30 bid) 30 step2.1.1 step2.1.2 failed.1.1 failed.1.2 failed_batch
    later.2 (fst active) (fst after_failure) (messages after_failure) active_feed stale_copy 3).
  - unfold failed_batch, failed. 
    assert (Hs : is_Some (execute_published (submit_at 3 30 bid) 30 true step2.1.1 step2.1.2))
      by (apply (bool_decide_unpack _); vm_compute; exact I).
    destruct Hs as [[[s p] batch] Hs]. rewrite Hs. cbn [default from_option fst snd id].
    assert (Hb : is_Some (default (empty_run, publisher, None) (execute_published (submit_at 3 30 bid) 30 true step2.1.1 step2.1.2)).2)
      by (apply (bool_decide_unpack _); vm_compute; exact I).
    rewrite Hs in Hb. cbn in Hb. by destruct Hb as [b ->].
  - exact sample_feeds_ok.
  - unfold active_feed. assert (Hh : is_Some (head (pf_feeds (bf_public (fst active))))) by (apply (bool_decide_unpack _); vm_compute; exact I).
    destruct (pf_feeds (bf_public (fst active))) as [|f l]; [by destruct Hh | left].
  - vm_compute. reflexivity.
  - apply (bool_decide_unpack _). vm_compute. exact I.
  - vm_compute. reflexivity.
  - vm_compute. reflexivity.
  - vm_compute. reflexivity.
  - vm_compute. reflexivity.
  - vm_compute. reflexivity.
  - vm_compute. reflexivity.
Defined.

Lemma books_move_only_when_announced_witness :
  rs_listings (fst (apply_input reset genesis)) !! key = rs_listings genesis !! key.
Proof.
  assert (Hok : is_ok (snd (apply_input reset genesis)) = true) by (vm_compute; reflexivity).
  destruct (apply_input reset genesis) as [s' [a|e]] eqn:Ha; [| done].
  apply (books_move_only_when_announced reset genesis s' a {[ key := ([], []) ]} key Ha).
  - by eexists.
  - assert (Hn : bool_decide (key ∈ touched_listings
        (match snd (apply_input reset genesis) with Ok a => ap_events a | Err _ => [] end) {[ key := ([], []) ]}) = false)
      by (vm_compute; reflexivity).
    rewrite Ha in Hn. by apply bool_decide_eq_false in Hn.
Defined.
End feed_witness.
