(* ===== verification/FixMapping.v ===== *)
(** * simfix-mapping: FIX application messages

    Models [packages/simfix-mapping/src/lib.rs]: FIX orders and requests to
    transport-neutral inputs, committed reports and public market data to FIX
    messages.  Text is the list of its bytes, as in [FixWire]. *)

From S2P Require Import Prelude Decimal MarketTypes MarketEvents FixWire Execution MarketFeed.
From Stdlib Require Import Ascii.
#[local] Open Scope list_scope.

(** ** Data *)

Module TenderAction.
Inductive TenderAction : Type := List | Accept | Decline.
#[export] Instance TenderAction_eq_dec : EqDecision TenderAction.
Proof. solve_decision. Defined.
End TenderAction.
Export TenderAction (TenderAction).
#[export] Existing Instance TenderAction.TenderAction_eq_dec.

Module CompetitionRequest.
Inductive CompetitionRequest : Type :=
  | Discovery
  | Account
  | News
  | Tender (action : TenderAction) (tender_id : option Z)
  | Score
  | Risk
  | RunControl (action : list ascii) (payload_json : option (list ascii))
  | RiskAdmin (action : list ascii) (payload_json : option (list ascii)).
End CompetitionRequest.
Export CompetitionRequest (CompetitionRequest).

Module MarketDataRequestType.
Inductive MarketDataRequestType : Type := Snapshot | Subscribe | Unsubscribe.
End MarketDataRequestType.
Export MarketDataRequestType (MarketDataRequestType).
Module MarketDataEntryType.
Inductive MarketDataEntryType : Type := Bid | Offer | Trade.
End MarketDataEntryType.
Export MarketDataEntryType (MarketDataEntryType).

Module InboundApplication.
Inductive InboundApplication : Type :=
  | Intent (intent : ExecutionIntent)
  | MarketDataRequest (request_id : list ascii) (listing_key : ListingKey) (request_type : MarketDataRequestType)
      (market_depth : Z) (entry_types : list MarketDataEntryType) (aggregated : bool)
  | Competition (request : CompetitionRequest).
End InboundApplication.
Export InboundApplication (InboundApplication).

Module MappingError.
Inductive MappingError : Type :=
  | UnsupportedMessage
  | MissingTag (tag : Z)
  | InvalidTag (tag : Z)
  | UnsupportedOrderType
  | UnsupportedSubscriptionType
  | Dictionary (error : WireError.WireError)
  | Serialization
  | PayloadTooLarge.
End MappingError.
Export MappingError (MappingError).

Record MappingContext : Type := mkMappingContext {
  mc_participant_id : Z;
  mc_next_intent_id : Z
}.

(** ** Fields *)

(** [value.parse::<T>()] and [to_string] of a signed integer: a sign, then
    digits; the negative range is read digit by digit below zero. *)
Fixpoint parse_neg (t : int_ty) (acc : Z) (s : Text) : option Z :=
  match s with
  | [] => Some acc
  | c :: s =>
      d ← char_digit c;
      m ← checked_mul t acc 10;
      acc ← checked_sub t m d;
      parse_neg t acc s
  end.
Definition parse_int (t : int_ty) (s : Text) : option Z :=
  match s with
  | [] => None
  | c :: digits =>
      if bool_decide (c = "-"%char) && (int_min t <? 0) && negb (bool_decide (digits = []))
      then parse_neg t 0 digits else parse_uint t s
  end.
Definition display_int (n : Z) : Text :=
  if n <? 0 then "-"%char :: display_uint (- n) else display_uint n.

Definition map_error {E E' A} (f : E -> E') (r : result E A) : result E' A :=
  match r with Ok a => Ok a | Err e => Err (f e) end.
(** [fn required] and [fn parse] *)
Definition required (m : FixMessage) (tag : Z) : result MappingError Text :=
  ok_or (message_value m tag) (MappingError.MissingTag tag).
Definition parse (t : int_ty) (m : FixMessage) (tag : Z) : result MappingError Z :=
  value ← required m tag;
  ok_or (parse_int t value) (MappingError.InvalidTag tag).
(** [fn parse_side] *)
Definition parse_side (value : Text) : result MappingError Side :=
  if bool_decide (value = text "1") then Ok Buy
  else if bool_decide (value = text "2") then Ok Sell
  else Err (MappingError.InvalidTag 54).

(** [fn parse_order_kind] *)
Definition parse_order_kind (m : FixMessage) : result MappingError OrderKind :=
  post_only ← match message_value m 18 with
              | None => Ok false
              | Some v => if bool_decide (v = text "6") then Ok true else Err (MappingError.InvalidTag 18)
              end;
  display_quantity ←
    match message_value m 1138 with
    | None => Ok None
    | Some _ =>
        display ← parse I64 m 1138;
        if display <=? 0 then Err (MappingError.InvalidTag 1138)
        else
          quantity ← parse I64 m 38;
          if quantity <? display then Err (MappingError.InvalidTag 1138) else Ok (Some display)
    end;
  if bool_decide (is_Some (message_value m 10022)) && negb (bool_decide (message_value m 59 = Some (text "6")))
  then Err (MappingError.InvalidTag 10022)
  else
    time_in_force ←
      match message_value m 59 with
      | None => Ok Day
      | Some v =>
          if bool_decide (v = text "0") then Ok Day
          else if bool_decide (v = text "1") then Ok Gtc
          else if bool_decide (v = text "3") then Ok Ioc
          else if bool_decide (v = text "4") then Ok Fok
          else if bool_decide (v = text "6") then expires_at ← parse U64 m 10022; Ok (Gtd expires_at)
          else Err (MappingError.InvalidTag 59)
      end;
    order_type ← required m 40;
    if bool_decide (order_type = text "1") then
      if post_only || bool_decide (is_Some (display_quantity : option Z)) then Err MappingError.UnsupportedOrderType
      else match time_in_force with
           | Day | Ioc => Ok Market
           | _ => Err (MappingError.InvalidTag 59)
           end
    else if bool_decide (order_type = text "2") then
      price ← parse I64 m 44;
      if bool_decide (time_in_force = Gtc) && negb post_only && bool_decide (display_quantity = None)
      then Ok (Limit price)
      else Ok (LimitWithPolicy price time_in_force post_only display_quantity)
    else Err MappingError.UnsupportedOrderType.

(** ** Inbound messages *)

(** [fn fix_order_listing] *)
Definition fix_order_listing (m : FixMessage) : result MappingError (option ListingKey) :=
  if negb (bool_decide (fm_msg_type m = text "D")) then Ok None
  else
    instrument ← parse U128 m 48;
    venue ← parse U128 m 207;
    if instrument =? 0 then Err (MappingError.InvalidTag 48)
    else if venue =? 0 then Err (MappingError.InvalidTag 207)
    else Ok (Some (mkListingKey venue instrument)).

(** The arm of a [NewOrderSingle]. *)
Definition map_new_order (m : FixMessage) (c : MappingContext) : result MappingError InboundApplication :=
  client_order_id ← parse U128 m 11;
  listing ← fix_order_listing m;
  listing ← ok_or listing (MappingError.MissingTag 207);
  side ← required m 54;
  side ← parse_side side;
  quantity ← parse I64 m 38;
  kind ← parse_order_kind m;
  anonymous ← match message_value m 10021 with
              | None => Ok false
              | Some v =>
                  if bool_decide (v = text "N") then Ok false
                  else if bool_decide (v = text "Y") then Ok true
                  else Err (MappingError.InvalidTag 10021)
              end;
  Ok (InboundApplication.Intent (IntentSubmit (mc_next_intent_id c)
    (mkDesiredOrder client_order_id (lk_instrument_id listing) (mc_participant_id c) side quantity kind anonymous))).

(** [entry[0]]: [repeating_group] returns no empty entry. *)
Definition entry_type (entry : list Field) : result MappingError MarketDataEntryType :=
  match entry with
  | field :: _ =>
      if bool_decide (fd_value field = text "0") then Ok MarketDataEntryType.Bid
      else if bool_decide (fd_value field = text "1") then Ok MarketDataEntryType.Offer
      else if bool_decide (fd_value field = text "2") then Ok MarketDataEntryType.Trade
      else Err (MappingError.InvalidTag 269)
  | [] => Err (MappingError.InvalidTag 269)
  end.
Fixpoint entry_types (entries : list (list Field)) : result MappingError (list MarketDataEntryType) :=
  match entries with
  | [] => Ok []
  | entry :: entries =>
      t ← entry_type entry;
      ts ← entry_types entries;
      Ok (t :: ts)
  end.
(** The arm of a [MarketDataRequest]. *)
Definition map_market_data (m : FixMessage) : result MappingError InboundApplication :=
  subscription ← required m 263;
  request_type ←
    (if bool_decide (subscription = text "0") then Ok MarketDataRequestType.Snapshot
     else if bool_decide (subscription = text "1") then Ok MarketDataRequestType.Subscribe
     else if bool_decide (subscription = text "2") then Ok MarketDataRequestType.Unsubscribe
     else Err MappingError.UnsupportedSubscriptionType);
  group ← map_error MappingError.Dictionary (repeating_group m 267 269 []);
  types ← entry_types (rg_entries group);
  request_id ← required m 262;
  venue ← parse U128 m 207;
  instrument ← parse U128 m 48;
  market_depth ← parse Usize m 264;
  aggregated ← match message_value m 266 with
               | None => Ok true
               | Some v =>
                   if bool_decide (v = text "Y") then Ok true
                   else if bool_decide (v = text "N") then Ok false
                   else Err (MappingError.InvalidTag 266)
               end;
  Ok (InboundApplication.MarketDataRequest request_id (mkListingKey venue instrument) request_type market_depth
        types aggregated).

(** [fn map_competition] *)
Definition map_competition (m : FixMessage) : result MappingError InboundApplication :=
  let request r := Ok (InboundApplication.Competition r) in
  let type_is t := bool_decide (fm_msg_type m = text t) in
  if type_is "x" then request CompetitionRequest.Discovery
  else if type_is "AN" then request CompetitionRequest.Account
  else if type_is "BE" && bool_decide (message_value m 10016 = Some (text "news")) then request CompetitionRequest.News
  else if type_is "U6" then
    action ← (let v := default (text "list") (message_value m 10018) in
              if bool_decide (v = text "list") then Ok TenderAction.List
              else if bool_decide (v = text "accept") then Ok TenderAction.Accept
              else if bool_decide (v = text "decline") then Ok TenderAction.Decline
              else Err (MappingError.InvalidTag 10018));
    tender_id ← match message_value m 10017 with
                | None => Ok None
                | Some v => id ← ok_or (parse_int U128 v) (MappingError.InvalidTag 10017); Ok (Some id)
                end;
    if negb (bool_decide (action = TenderAction.List)) && bool_decide (tender_id = None)
    then Err (MappingError.MissingTag 10017)
    else request (CompetitionRequest.Tender action tender_id)
  else if type_is "U9" then request CompetitionRequest.Score
  else if type_is "UB" && (bool_decide (message_value m 10018 = None)
                      || bool_decide (message_value m 10018 = Some (text "query")))
  then request CompetitionRequest.Risk
  else if type_is "UA" then
    action ← required m 10018;
    request (CompetitionRequest.RunControl action (message_value m 10020))
  else if type_is "UB" then
    action ← required m 10018;
    request (CompetitionRequest.RiskAdmin action (message_value m 10020))
  else Err MappingError.UnsupportedMessage.

Section inbound.
Context `{FixDictionary}.

(** [fn map_inbound] *)
Definition map_inbound (m : FixMessage) (c : MappingContext) : result MappingError InboundApplication :=
  _ ← map_error MappingError.Dictionary (validate_competition m);
  let type_is t := bool_decide (fm_msg_type m = text t) in
  if type_is "D" then map_new_order m c
  else if type_is "F" then
    client ← parse U128 m 41;
    Ok (InboundApplication.Intent (IntentCancel (mc_next_intent_id c) client))
  else if type_is "G" then
    client ← parse U128 m 41;
    quantity ← parse I64 m 38;
    kind ← parse_order_kind m;
    Ok (InboundApplication.Intent (IntentReplace (mc_next_intent_id c) client quantity kind))
  else if type_is "H" then
    local ← parse U128 m 37;
    Ok (InboundApplication.Intent (IntentQuery (mc_next_intent_id c) local))
  else if type_is "V" then map_market_data m
  else map_competition m.
End inbound.

(** ** Outbound messages *)

(** A field added to the message so far. *)
Notation "m +: ( tag , value )" := (message_push tag value m) (at level 50, left associativity).
Definition push_some (tag : Z) (value : option Text) (m : FixMessage) : FixMessage :=
  match value with Some value => message_push tag value m | None => m end.

(** [fn competition_report]; the JSON text is the encoder's. *)
Definition competition_report (msg_type audience resource_kind action status : Text) (committed_sequence : Z)
    (payload_json : option Text) : result MappingError FixMessage :=
  json ← ok_or payload_json MappingError.Serialization;
  if 16384 <? zlen json then Err MappingError.PayloadTooLarge
  else Ok (FixMessage_new msg_type +: (10010, display_uint committed_sequence) +: (10012, audience)
             +: (10016, resource_kind) +: (10018, action) +: (10019, status) +: (10020, json)).

(** ExecType (150) and OrdStatus (39). *)
Definition exec_status (report : NormalizedVenueReport) : Text * Text :=
  match nr_kind report with
  | VenueReportKind.Accepted => (text "0", text "0")
  | VenueReportKind.Fill _ _ _ =>
      if bool_decide (nr_leaves_quantity report = Some 0) then (text "F", text "2") else (text "F", text "1")
  | VenueReportKind.Cancelled => (text "4", text "4")
  | VenueReportKind.Replaced => (text "5", text "5")
  | VenueReportKind.Rejected _ => (text "8", text "8")
  | VenueReportKind.Expired => (text "C", text "C")
  | VenueReportKind.CancelRejected _ => ([], [])
  end.
(** [fn map_execution_report] *)
Definition map_execution_report (report : NormalizedVenueReport) : result MappingError FixMessage :=
  local ← ok_or (nr_local_order_id report) (MappingError.MissingTag 37);
  let m :=
    match nr_kind report with
    | VenueReportKind.CancelRejected reason => FixMessage_new (text "9") +: (39, text "0") +: (58, text reason)
    | kind =>
        let m := FixMessage_new (text "8") +: (150, (exec_status report).1) +: (39, (exec_status report).2) in
        match kind with
        | VenueReportKind.Fill last_quantity cumulative_quantity price =>
            push_some 151 (display_int <$> nr_leaves_quantity report)
              (m +: (32, display_int last_quantity) +: (14, display_int cumulative_quantity) +: (31, display_int price))
        | VenueReportKind.Rejected reason => m +: (58, text reason)
        | _ => m
        end
    end in
  Ok (push_some 11 (display_uint <$> nr_client_order_id report)
        (m +: (37, display_uint local) +: (17, display_uint (nr_report_id report)))).

Definition side_type (side : Side) : Text := match side with Buy => text "0" | Sell => text "1" end.
Definition push_level (side : Side) (m : FixMessage) (level : Z * Z) : FixMessage :=
  m +: (269, side_type side) +: (270, display_int level.1) +: (271, display_int level.2).
(** [fn market_snapshot] *)
Definition market_snapshot (request_id : Text) (key : ListingKey) (bids asks : list (Z * Z)) : FixMessage :=
  let m := FixMessage_new (text "W") +: (262, request_id) +: (48, display_uint (lk_instrument_id key))
             +: (207, display_uint (lk_venue_id key)) +: (268, display_uint (zlen bids + zlen asks)) in
  foldl (push_level Sell) (foldl (push_level Buy) m bids) asks.

(** [fn push_brokers] *)
Definition push_brokers (buyer seller : option Z) (m : FixMessage) : FixMessage :=
  push_some 289 (display_uint <$> seller) (push_some 288 (display_uint <$> buyer) m).

Record SnapshotOrder : Type := mkSnapshotOrder {
  sn_side : Side;
  sn_reference : Z;
  sn_price : Z;
  sn_quantity : Z;
  sn_broker : option Z
}.
(** The loop of [order_snapshot]: the positions reached on each side. *)
Fixpoint push_orders (bid ask : Z) (orders : list SnapshotOrder) (m : FixMessage) : FixMessage :=
  match orders with
  | [] => m
  | order :: orders =>
      let bid := match sn_side order with Buy => saturating_add U64 bid 1 | Sell => bid end in
      let ask := match sn_side order with Buy => ask | Sell => saturating_add U64 ask 1 end in
      let m := m +: (269, side_type (sn_side order)) +: (278, display_uint (sn_reference order)) in
      let m := match sn_side order with
               | Buy => push_brokers (sn_broker order) None m
               | Sell => push_brokers None (sn_broker order) m
               end in
      push_orders bid ask orders
        (m +: (270, display_int (sn_price order)) +: (271, display_int (sn_quantity order))
           +: (290, display_uint (match sn_side order with Buy => bid | Sell => ask end)))
  end.
(** [fn order_snapshot] *)
Definition fix_order_snapshot (request_id : Text) (key : ListingKey) (orders : list SnapshotOrder) : FixMessage :=
  push_orders 0 0 orders
    (FixMessage_new (text "W") +: (262, request_id) +: (48, display_uint (lk_instrument_id key))
       +: (207, display_uint (lk_venue_id key)) +: (266, text "N") +: (268, display_uint (zlen orders))).

Definition CONSOLIDATED_EXCHANGE : Z := 0.
Definition push_quote (m : FixMessage) (quote : ListingKey * Side * Z * Z) : FixMessage :=
  let '(key, side, price, quantity) := quote in
  m +: (269, side_type side) +: (207, display_uint (lk_venue_id key)) +: (270, display_int price)
    +: (271, display_int quantity).
(** [fn consolidated_snapshot] *)
Definition consolidated_snapshot (request_id : Text) (instrument_id last_report_sequence : Z)
    (quotes : list (ListingKey * Side * Z * Z)) : FixMessage :=
  foldl push_quote
    (FixMessage_new (text "W") +: (262, request_id) +: (48, display_uint instrument_id)
       +: (207, display_uint CONSOLIDATED_EXCHANGE) +: (83, display_uint last_report_sequence)
       +: (268, display_uint (zlen quotes))) quotes.

Definition update_action (action : MarketDataUpdateAction) : Text :=
  match action with ActionNew => text "0" | ActionChange => text "1" | ActionDelete => text "2" end.
(** One entry of [market_incremental], with its report sequence. *)
Definition push_increment (report : Z) (key : ListingKey) (entry : MarketDataIncrement) (m : FixMessage) : FixMessage :=
  let '(action, entry_type, reference, price, quantity) :=
    match entry with
    | IncrementLevel action side price quantity => (action, side_type side, None, price, quantity)
    | IncrementOrder action side reference price quantity _ => (action, side_type side, Some reference, price, quantity)
    | IncrementTrade price quantity reference _ _ => (ActionNew, text "2", reference, price, quantity)
    end in
  let '(buyer, seller) :=
    match entry with
    | IncrementOrder _ Buy _ _ _ broker => (broker, None)
    | IncrementOrder _ Sell _ _ _ broker => (None, broker)
    | IncrementTrade _ _ _ buyer seller => (buyer, seller)
    | IncrementLevel _ _ _ _ => (None, None)
    end in
  let m := m +: (279, update_action action) +: (269, entry_type) +: (48, display_uint (lk_instrument_id key))
             +: (207, display_uint (lk_venue_id key)) in
  let m := push_brokers buyer seller (push_some 278 (display_uint <$> reference) m) in
  m +: (270, display_int price) +: (271, display_int quantity) +: (83, display_uint report).
Fixpoint push_increments (first offset : Z) (entries : list (ListingKey * MarketDataIncrement)) (m : FixMessage)
    : FixMessage :=
  match entries with
  | [] => m
  | (key, entry) :: entries =>
      push_increments first (offset + 1) entries (push_increment (saturating_add U64 first offset) key entry m)
  end.
(** [fn market_incremental] *)
Definition market_incremental (request_id : Text) (first_report_sequence : Z)
    (entries : list (ListingKey * MarketDataIncrement)) : FixMessage :=
  push_increments first_report_sequence 0 entries
    (FixMessage_new (text "X") +: (262, request_id) +: (268, display_uint (zlen entries))).

(** [fn business_reject] *)
Definition business_reject (reference_type reason : Text) : FixMessage :=
  FixMessage_new (text "j") +: (372, reference_type) +: (380, text "3") +: (58, reason).
