(* ===== verification/Application.v ===== *)
(** * bunting-application: the service around a run

    Models [packages/command-transaction/src/lib.rs] and the service part of
    [packages/bunting-application/src/lib.rs]: verified actors, command
    authority, execution through the origin store, the venue timer's clock
    tick, and the public projections of a run. *)

From S2P Require Import Prelude Ordered MarketTypes MarketEvents Digest Book Latency Transition.
From S2P Require Import Simulation Scenario Engine EngineFrame Origin FixMapping Execution Adapter.
#[local] Open Scope list_scope.

(** ** Transactions *)

Module TransactionError.
Inductive TransactionError : Type :=
  | Origin (error : OriginError EngineError)
  | IdempotencyConflict
  | Engine (error : EngineError).
End TransactionError.
Export TransactionError (TransactionError).
(** [From<OriginError> for TransactionError] *)
Definition transaction_error (error : OriginError EngineError) : TransactionError :=
  match error with
  | OriginError.IdempotencyConflict => TransactionError.IdempotencyConflict
  | OriginError.Engine e => TransactionError.Engine e
  | other => TransactionError.Origin other
  end.

Record ExecutedTransaction : Type := mkExecutedTransaction {
  et_result : CommandResult;
  et_events : list EventEnvelope;
  et_duplicate : bool
}.
(** [From<Executed> for ExecutedTransaction] *)
Definition executed_transaction (e : Executed) : ExecutedTransaction :=
  mkExecutedTransaction (ex_result e) (ex_events e) (ex_duplicate e).

Module ApplicationError.
Inductive ApplicationError : Type :=
  | Unauthenticated
  | Unauthorized
  | ActorMismatch
  | InvalidIdentity
  | UnknownInstrument
  | UnknownListing
  | Transaction (error : TransactionError)
  | FixMapping (error : MappingError)
  | Execution (error : ExecutionError)
  | ExecutionAdapter (error : AdapterError)
  | InvalidFixActionCount.
End ApplicationError.
Export ApplicationError (ApplicationError).

(** ** Actors *)

Module ActorRole.
Inductive ActorRole : Type := Participant | Team | Instructor | Administrator | BuiltInAgent.
#[export] Instance ActorRole_eq_dec : EqDecision ActorRole.
Proof. solve_decision. Defined.
End ActorRole.
Export ActorRole (ActorRole).
#[export] Existing Instance ActorRole.ActorRole_eq_dec.
(** [ActorRole::as_str] *)
Definition role_str (role : ActorRole) : string :=
  match role with
  | ActorRole.Participant => "participant"
  | ActorRole.Team => "team"
  | ActorRole.Instructor => "instructor"
  | ActorRole.Administrator => "administrator"
  | ActorRole.BuiltInAgent => "built_in_agent"
  end.
Record ActorIdentity : Type := mkActorIdentity {
  ai_actor_id : Z;
  ai_role : ActorRole;
  ai_participant_id : option Z;
  ai_team_id : option Z
}.
Record VerifiedActor : Type := mkVerifiedActor {
  va_identity : ActorIdentity;
  va_participant_id : option Z
}.
(** The roles that trade for a participant, and those that run the round. *)
Definition trades (role : ActorRole) : bool :=
  match role with ActorRole.Participant | ActorRole.BuiltInAgent => true | _ => false end.
Definition operates (role : ActorRole) : bool :=
  match role with ActorRole.Instructor | ActorRole.Administrator => true | _ => false end.
(** [VerifiedActor::try_from_identity] *)
Definition try_from_identity (identity : ActorIdentity) : result ApplicationError VerifiedActor :=
  let participant_id := ai_participant_id identity in
  match ai_role identity, participant_id with
  | (ActorRole.Participant | ActorRole.BuiltInAgent), None => Err ApplicationError.InvalidIdentity
  | (ActorRole.Instructor | ActorRole.Administrator | ActorRole.Team), Some _ => Err ApplicationError.InvalidIdentity
  | _, _ => Ok (mkVerifiedActor identity participant_id)
  end.

(** ** Authority *)

Definition payload_participant (payload : CommandPayload) : option Z :=
  match payload with
  | PSubmitOrder order | PSubmitOrderAtListing _ order => Some (so_participant_id order)
  | PCancelOrder cancel => Some (co_participant_id cancel)
  | ActivateKillSwitch | ResetKillSwitch => None
  end.
(** [fn authorize_command] *)
Definition authorize_command (actor : VerifiedActor) (command : Command) : result ApplicationError unit :=
  participant ← ok_or (va_participant_id actor) ApplicationError.Unauthorized;
  if negb (trades (ai_role (va_identity actor))) then Err ApplicationError.Unauthorized
  else if negb (cmd_actor command =? participant) then Err ApplicationError.ActorMismatch
  else match payload_participant (cmd_payload command) with
       | Some value => if negb (value =? participant) then Err ApplicationError.ActorMismatch else Ok tt
       | None => Ok tt
       end.

Definition participant_action (payload : SimulationCommand) : bool :=
  match payload with
  | DecideTender _ _ | OpenOtc _ _ _ _ _ _ _ | CounterOtc _ _ _ | DecideOtc _ _ => true
  | _ => false
  end.
(** [fn authorize_simulation_command] *)
Definition authorize_simulation_command (actor : VerifiedActor) (request : SimulationCommandRequest)
    : result ApplicationError unit :=
  if is_tick (sr_payload request) then Err ApplicationError.Unauthorized
  else if participant_action (sr_payload request) then
    participant ← ok_or (va_participant_id actor) ApplicationError.Unauthorized;
    if negb (sr_actor request =? participant) || negb (trades (ai_role (va_identity actor)))
    then Err ApplicationError.ActorMismatch else Ok tt
  else if negb (operates (ai_role (va_identity actor))) then Err ApplicationError.Unauthorized
  else Ok tt.

(** ** The service *)

(** [u64::from_be_bytes( *b"bnt.tick")] *)
Definition TICK_NAMESPACE : Z := 0x626e742e7469636b.
(** [fn clock_tick_id] *)
Definition clock_tick_id (sequence : Z) : Z := Z.lor (Z.shiftl TICK_NAMESPACE 64) sequence.

Section service.
Context `{Sha256} `{ScenarioCodec} `{RunCodec} `{JournalCodec}.
#[local] Notation Store := (InMemoryOrigin RunState) (only parsing).
#[local] Notation Service A := (M (InMemoryOrigin RunState) ApplicationError A) (only parsing).

(** [CommandTransaction::execute_admitted] and its variants. *)
Definition transact (input : JournalInput) (admission : option AdmissionRecord) : Service ExecutedTransaction := fun o =>
  let '(o, executed) := origin_execute_admitted (RunState := RunState) (EngineError := EngineError) input admission o in
  (o, match executed with
      | Ok e => Ok (executed_transaction e)
      | Err e => Err (ApplicationError.Transaction (transaction_error e))
      end).

(** [ApplicationService::execute], [execute_admitted] *)
Definition service_execute (actor : VerifiedActor) (command : Command) (admission : option AdmissionRecord)
    : Service ExecutedTransaction :=
  lift (authorize_command actor command);;
  transact (InputCommand command) admission.
(** [ApplicationService::execute_simulation], [execute_simulation_admitted] *)
Definition service_execute_simulation (actor : VerifiedActor) (request : SimulationCommandRequest)
    (admission : option AdmissionRecord) : Service ExecutedTransaction :=
  lift (authorize_simulation_command actor request);;
  transact (InputSimulation request) admission.
(** [ApplicationService::read] *)
Definition service_read {T} (run_id : Z) (read : RunState -> T) : Service T := fun o =>
  (o, match read_run (EngineError := EngineError) o run_id read with
      | Ok t => Ok t
      | Err e => Err (ApplicationError.Transaction (transaction_error e))
      end).
(** [ApplicationService::execute_clock_tick] *)
Definition tick_request (run_id logical_time sequence : Z) : SimulationCommandRequest :=
  mkSimulationCommandRequest run_id (clock_tick_id sequence) (clock_tick_id sequence) logical_time sequence 0 ClockTick.
Definition execute_clock_tick (run_id logical_time : Z) (admission : AdmissionRecord)
    : Service (option ExecutedTransaction) :=
  '(due, active, sequence) ← service_read run_id (fun s =>
     (next_due s, bool_decide (sim_lifecycle (rs_simulation s) = RunLifecycle.Active), rs_sequence s));
  if negb active || match due with None => true | Some due => logical_time <? due end then mret None
  else
    executed ← transact (InputSimulation (tick_request run_id logical_time sequence)) (Some admission);
    mret (Some executed).
End service.

(** ** Projections *)

Record AppMarketProjection : Type := mkAppMarketProjection {
  mp_run_id : Z;
  mp_listing_key : ListingKey;
  mp_instrument_id : Z;
  mp_sequence : Z;
  mp_bids : list (Z * Z);
  mp_asks : list (Z * Z)
}.
(** [fn project_market] *)
Definition project_market (s : RunState) (key : ListingKey) : result ApplicationError AppMarketProjection :=
  '(bids, asks) ← map_error (fun _ => ApplicationError.UnknownListing) (visible_levels s key);
  Ok (mkAppMarketProjection (rs_run_id s) key (lk_instrument_id key) (rs_sequence s) bids asks).

Record ConsolidatedBbo : Type := mkConsolidatedBbo {
  bb_run_id : Z;
  bb_instrument_id : Z;
  bb_sequence : Z;
  bb_bid : option (ListingKey * Z * Z);
  bb_ask : option (ListingKey * Z * Z)
}.
Definition better (side : Side) (price value : Z) : bool :=
  match side with Buy => value <? price | Sell => price <? value end.
(** The quote kept after seeing the best level of a listing. *)
Definition improve (side : Side) (best : option (ListingKey * Z * Z)) (key : ListingKey) (levels : list (Z * Z))
    : option (ListingKey * Z * Z) :=
  match head levels with
  | None => best
  | Some (price, quantity) =>
      match best with
      | None => Some (key, price, quantity)
      | Some (winner, value, _) =>
          if better side price value || ((price =? value) && bool_decide (ord_lt key winner))
          then Some (key, price, quantity) else best
      end
  end.
(** The loop of [project_consolidated_bbo]. *)
Fixpoint consolidate (s : RunState) (instrument_id : Z) (keys : list ListingKey) (found : bool)
    (bid ask : option (ListingKey * Z * Z))
    : result ApplicationError (bool * option (ListingKey * Z * Z) * option (ListingKey * Z * Z)) :=
  match keys with
  | [] => Ok (found, bid, ask)
  | key :: keys =>
      if negb (lk_instrument_id key =? instrument_id) then consolidate s instrument_id keys found bid ask
      else
        '(bids, asks) ← map_error (fun _ => ApplicationError.UnknownListing) (visible_levels s key);
        consolidate s instrument_id keys true (improve Buy bid key bids) (improve Sell ask key asks)
  end.
(** [fn project_consolidated_bbo] *)
Definition project_consolidated_bbo (s : RunState) (instrument_id : Z) : result ApplicationError ConsolidatedBbo :=
  '(found, bid, ask) ← consolidate s instrument_id (keys (rs_listings s)) false None None;
  if negb found then Err ApplicationError.UnknownInstrument
  else Ok (mkConsolidatedBbo (rs_run_id s) instrument_id (rs_sequence s) bid ask).

(** [fn listing_for_command] *)
Definition listing_for_command (s : RunState) (command : Command) : option ListingKey :=
  match cmd_payload command with
  | PSubmitOrder order =>
      match listing_key_for_instrument s (so_instrument_id order) with Ok key => Some key | Err _ => None end
  | PSubmitOrderAtListing key _ => Some key
  | PCancelOrder cancel => oo_listing_key <$> rs_ownership s !! co_order_id cancel
  | ActivateKillSwitch | ResetKillSwitch => None
  end.

(** ** Identities *)

(** [to_be_bytes] and [from_be_bytes] *)
Fixpoint be_bytes (n : nat) (v : Z) : Bytes :=
  match n with
  | O => []
  | S n => v / 256 ^ Z.of_nat n mod 256 :: be_bytes n v
  end.
Definition be_value (bytes : Bytes) : Z := foldl (fun v b => 256 * v + b) 0 bytes.
Definition nonzero_u128 (bytes : Bytes) : Z := Z.max 1 (be_value (take 16 bytes)).
(** [b"bunting.client-identity.v1"], [b"command"], [b"order"] *)
Definition IDENTITY_DOMAIN : Bytes :=
  [98;117;110;116;105;110;103;46;99;108;105;101;110;116;45;105;100;101;110;116;105;116;121;46;118;49].
Definition COMMAND_DOMAIN : Bytes := [99;111;109;109;97;110;100].
Definition ORDER_DOMAIN : Bytes := [111;114;100;101;114].

Section identities.
Context `{Sha256}.

(** [fn derive_session_id], [fn namespace_id] and its users *)
Definition derive_session_id (authenticated_session : Bytes) : Z := nonzero_u128 (sha256 authenticated_session).
Definition namespace_id (domain : Bytes) (run_id actor session_id local_id : Z) : Z :=
  nonzero_u128 (sha256 (IDENTITY_DOMAIN ++ domain ++ be_bytes 16 run_id ++ be_bytes 16 actor
    ++ be_bytes 16 session_id ++ be_bytes 16 local_id)).
Definition namespace_command_id (run_id actor session_id local_id : Z) : Z :=
  namespace_id COMMAND_DOMAIN run_id actor session_id local_id.
Definition namespace_order_id (run_id actor session_id local_id : Z) : Z :=
  namespace_id ORDER_DOMAIN run_id actor session_id local_id.
(** The leading eight bytes of a digest, never zero. *)
Definition digest_u64 (digest : Bytes) : Z := Z.max 1 (be_value (take 8 digest)).
End identities.
