(* ===== verification/FixApplication.v ===== *)
(** * bunting-application: the FIX application of a session

    Models [FixApplicationState] of [packages/bunting-application/src/lib.rs]:
    inbound FIX messages become venue commands through the participant's
    order manager, and committed events become the execution reports of its
    own orders.  A method on [&mut self] is a computation on the state, which
    keeps what a failing call did. *)

From S2P Require Import Prelude Ordered Decimal MarketTypes MarketEvents Digest FixWire FixMapping.
From S2P Require Import Execution Adapter Application.
From Stdlib Require Import Ascii.
#[local] Open Scope list_scope.

(** ** Data *)

Record FixApplicationState : Type := mkFixApplicationState {
  fa_execution : ExecutionSnapshot;
  fa_adapter : BuntingExecutionAdapter;
  fa_next_intent_id : Z;
  fa_client_order_ids : gmap Z Z;
  fa_identity_epoch : Z
}.
Definition with_execution (v : ExecutionSnapshot) (s : FixApplicationState) : FixApplicationState :=
  mkFixApplicationState v (fa_adapter s) (fa_next_intent_id s) (fa_client_order_ids s) (fa_identity_epoch s).
Definition with_adapter (v : BuntingExecutionAdapter) (s : FixApplicationState) : FixApplicationState :=
  mkFixApplicationState (fa_execution s) v (fa_next_intent_id s) (fa_client_order_ids s) (fa_identity_epoch s).
Definition with_next_intent (v : Z) (s : FixApplicationState) : FixApplicationState :=
  mkFixApplicationState (fa_execution s) (fa_adapter s) v (fa_client_order_ids s) (fa_identity_epoch s).
Definition with_client_order (local client : Z) (s : FixApplicationState) : FixApplicationState :=
  mkFixApplicationState (fa_execution s) (fa_adapter s) (fa_next_intent_id s)
    (<[local := client]> (fa_client_order_ids s)) (fa_identity_epoch s).

Record FixApplicationSnapshot : Type := mkFixApplicationSnapshot {
  fs_version : Z;
  fs_next_intent_id : Z;
  fs_execution : ExecutionSnapshot;
  fs_adapter : BuntingExecutionAdapter;
  fs_client_order_ids : gmap Z Z;
  fs_identity_epoch : Z
}.
Record FixCommandContext : Type := mkFixCommandContext {
  fc_actor : Z;
  fc_run_id : Z;
  fc_expected_sequence : Z;
  fc_logical_time : Z;
  fc_correlation_id : Z
}.
Module FixApplicationRequest.
Inductive FixApplicationRequest : Type :=
  | Command (command : MarketEvents.Command)
  | MarketData (request_id : Text) (listing_key : ListingKey) (request_type : MarketDataRequestType)
      (market_depth : Z) (entry_types : list MarketDataEntryType) (aggregated : bool)
  | Competition (request : CompetitionRequest).
End FixApplicationRequest.
Export FixApplicationRequest (FixApplicationRequest).

(** [FixApplicationState::new], [with_identity_epoch], [restore], [snapshot] *)
Definition FixApplicationState_new (config : ExecutionConfig) : FixApplicationState :=
  mkFixApplicationState (QuarccExecutionEngine_new config) BuntingExecutionAdapter_default 1 ∅ 0.
Definition with_identity_epoch (v : Z) (s : FixApplicationState) : FixApplicationState :=
  mkFixApplicationState (fa_execution s) (fa_adapter s) (fa_next_intent_id s) (fa_client_order_ids s) v.
Definition fix_restore (s : FixApplicationSnapshot) : result ApplicationError FixApplicationState :=
  if negb (fs_version s =? 1) || (fs_next_intent_id s =? 0) then Err ApplicationError.InvalidIdentity
  else
    execution ← map_error ApplicationError.Execution (execution_restore (fs_execution s));
    Ok (mkFixApplicationState execution (fs_adapter s) (fs_next_intent_id s) (fs_client_order_ids s)
          (fs_identity_epoch s)).
Definition fix_snapshot (s : FixApplicationState) : FixApplicationSnapshot :=
  mkFixApplicationSnapshot 1 (fa_next_intent_id s) (fa_execution s) (fa_adapter s) (fa_client_order_ids s)
    (fa_identity_epoch s).

(** ** Identities *)

(** [b"bunting.fix-session-namespace.v1"] *)
Definition FIX_SESSION_DOMAIN : Bytes :=
  [98;117;110;116;105;110;103;46;102;105;120;45;115;101;115;115;105;111;110;45;110;97;109;101;115;112;97;99;101;46;118;49].
(** [fn session_namespace] *)
Definition session_namespace `{Sha256} (run_id actor identity_epoch : Z) : Z :=
  digest_u64 (sha256 (FIX_SESSION_DOMAIN ++ be_bytes 16 run_id ++ be_bytes 16 actor ++ be_bytes 16 identity_epoch)).
(** [fn canonical_id] *)
Definition canonical_id (namespace local : Z) : result ApplicationError Z :=
  if (local =? 0) || (int_max U64 <? local) then Err ApplicationError.InvalidIdentity
  else Ok (Z.lor (Z.shiftl namespace 64) local).
(** [fn local_id] *)
Definition local_id (namespace canonical : Z) : Z :=
  let high := Z.shiftr canonical 64 in
  if high =? namespace then Z.land canonical (int_max U64)
  else if high =? 0 then Z.lor canonical (Z.shiftl 1 127)
  else canonical.
(** [fn localize_event] *)
Definition with_so_order_id (id : Z) (o : SubmitOrder) : SubmitOrder :=
  mkSubmitOrder id (so_instrument_id o) (so_participant_id o) (so_side o) (so_quantity o) (so_kind o) (so_anonymous o).
Definition localize_payload (namespace : Z) (payload : EventPayload) : EventPayload :=
  let local := local_id namespace in
  match payload with
  | OrderReceived order key => OrderReceived (with_so_order_id (local (so_order_id order)) order) key
  | OrderAccepted order_id => OrderAccepted (local order_id)
  | OrderRested order_id participant instrument key side price remaining =>
      OrderRested (local order_id) participant instrument key side price remaining
  | OrderReduced order_id remaining => OrderReduced (local order_id) remaining
  | OrderCompleted order_id => OrderCompleted (local order_id)
  | OrderCanceled order_id participant instrument key remaining reason =>
      OrderCanceled (local order_id) participant instrument key remaining reason
  | OrderRejected order_id code => OrderRejected (local <$> order_id) code
  | TradeExecuted instrument key maker taker buyer seller price quantity buyer_fee seller_fee =>
      TradeExecuted instrument key (local maker) (local taker) buyer seller price quantity buyer_fee seller_fee
  | payload => payload
  end.
Definition localize_event (namespace : Z) (event : EventEnvelope) : EventEnvelope :=
  mkEventEnvelope (ev_schema_version event) (ev_run_id event) (ev_event_id event) (ev_sequence event)
    (ev_logical_time event) (ev_actor event) (ev_command_id event) (ev_correlation_id event)
    (ev_causation_sequence event) (localize_payload namespace (ev_payload event)).

(** ** Inbound messages *)

#[local] Notation App A := (M FixApplicationState ApplicationError A) (only parsing).

(** A call of the execution engine with a fresh buffer of two actions: the
    actions it asks for, the engine's state kept whatever its outcome. *)
Definition with_buffer (m : M Execution ExecutionError unit) : App (list ExecutionAction) := fun s =>
  let '(e, r) := m (mkExecution (fa_execution s) (mkExecutionActionBuffer 2 [])) in
  (with_execution (ex_state e) s,
   match r with
   | Ok _ => Ok (ab_actions (ex_output e))
   | Err error => Err (ApplicationError.Execution error)
   end).

Definition command_context (c : FixCommandContext) : BuntingCommandContext :=
  mkBuntingCommandContext (fc_run_id c) (fc_actor c) (fc_expected_sequence c) (fc_logical_time c) (fc_correlation_id c).

(** The canonical identities of a command, then its listing. *)
Definition canonical_payload (namespace : Z) (payload : CommandPayload) : result ApplicationError CommandPayload :=
  match payload with
  | PSubmitOrder order =>
      id ← canonical_id namespace (so_order_id order); Ok (PSubmitOrder (with_so_order_id id order))
  | PSubmitOrderAtListing key order =>
      id ← canonical_id namespace (so_order_id order); Ok (PSubmitOrderAtListing key (with_so_order_id id order))
  | PCancelOrder cancel =>
      id ← canonical_id namespace (co_order_id cancel); Ok (PCancelOrder (mkCancelOrder id (co_participant_id cancel)))
  | ActivateKillSwitch => Ok ActivateKillSwitch
  | ResetKillSwitch => Ok ResetKillSwitch
  end.
Definition listed_payload (message : FixMessage) (payload : CommandPayload) : result ApplicationError CommandPayload :=
  match payload with
  | PSubmitOrder order =>
      listing ← map_error ApplicationError.FixMapping (fix_order_listing message);
      key ← ok_or listing ApplicationError.UnknownListing;
      if negb (lk_instrument_id key =? so_instrument_id order) then Err ApplicationError.UnknownListing
      else Ok (PSubmitOrderAtListing key order)
  | payload => Ok payload
  end.
Definition canonical_command (namespace : Z) (message : FixMessage) (c : Command) : result ApplicationError Command :=
  command_id ← canonical_id namespace (cmd_command_id c);
  payload ← canonical_payload namespace (cmd_payload c);
  payload ← listed_payload message payload;
  Ok (mkCommand (cmd_run_id c) command_id (cmd_correlation_id c) (cmd_logical_time c) (cmd_expected_sequence c)
        (cmd_actor c) payload).

Definition submitted_client (intent : ExecutionIntent) : option Z :=
  match intent with IntentSubmit _ order => Some (do_client_order_id order) | _ => None end.

Section fix_application.
Context `{Sha256} `{FixDictionary}.

(** The arm of an intent in [map_message]. *)
Definition map_intent (intent : ExecutionIntent) (message : FixMessage) (context : FixCommandContext)
    : App FixApplicationRequest :=
  actions ← with_buffer (submit_intent intent);
  match actions with
  | [action] =>
      (match submitted_client intent, action with
       | Some client, ActionSubmit _ local _ => modify (with_client_order local client)
       | _, _ => mret tt
       end);;
      command ← lift (map_error ApplicationError.ExecutionAdapter (command_for_action action (command_context context)));
      epoch ← gets fa_identity_epoch;
      let namespace := session_namespace (fc_run_id context) (fc_actor context) epoch in
      command ← lift (canonical_command namespace message command);
      mret (FixApplicationRequest.Command command)
  | _ => throw ApplicationError.InvalidFixActionCount
  end.
(** [FixApplicationState::map_message] *)
Definition map_message (message : FixMessage) (context : FixCommandContext) : App FixApplicationRequest :=
  next ← gets fa_next_intent_id;
  mapped ← lift (map_error ApplicationError.FixMapping (map_inbound message (mkMappingContext (fc_actor context) next)));
  bumped ← lift (ok_or (checked_add U128 next 1) ApplicationError.InvalidIdentity);
  modify (with_next_intent bumped);;
  match mapped with
  | InboundApplication.Competition request => mret (FixApplicationRequest.Competition request)
  | InboundApplication.MarketDataRequest request_id key request_type depth types aggregated =>
      mret (FixApplicationRequest.MarketData request_id key request_type depth types aggregated)
  | InboundApplication.Intent intent => map_intent intent message context
  end.

(** ** Committed events *)

(** The report with the client's own identifier of its order. *)
Definition named_report (clients : gmap Z Z) (r : NormalizedVenueReport) : NormalizedVenueReport :=
  match nr_client_order_id r with
  | Some _ => r
  | None => mkNormalizedVenueReport (nr_report_id r) (nr_source_sequence r)
              (local ← nr_local_order_id r; clients !! local) (nr_local_order_id r) (nr_venue_order_id r)
              (nr_leaves_quantity r) (nr_kind r)
  end.
(** The loop over the reports. *)
Fixpoint report_messages (reports : list NormalizedVenueReport) : App (list FixMessage) :=
  match reports with
  | [] => mret []
  | report :: reports =>
      clients ← gets fa_client_order_ids;
      let report := named_report clients report in
      _ ← with_buffer (apply_venue_report report);
      message ← lift (map_error ApplicationError.FixMapping (map_execution_report report));
      messages ← report_messages reports;
      mret (message :: messages)
  end.
(** [FixApplicationState::committed_messages] *)
Definition committed_messages (actor : Z) (events : list EventEnvelope) : App (list FixMessage) :=
  match events with
  | [] => mret []
  | first :: _ =>
      epoch ← gets fa_identity_epoch;
      let namespace := session_namespace (ev_run_id first) actor epoch in
      adapter ← gets fa_adapter;
      let '(adapter, reports) := normalize_committed_events actor (localize_event namespace <$> events) adapter in
      modify (with_adapter adapter);;
      reports ← lift (map_error ApplicationError.ExecutionAdapter reports);
      report_messages reports
  end.
End fix_application.
