(* ===== verification/FixApplicationTheorems.v ===== *)
(** * bunting-application: theorems of the FIX application

    The identities of a session come back to it and to no other; every
    command a FIX message becomes is one its participant may send; an order
    is acknowledged under the identifier its client chose; and a replace
    request leaves an order its client can no longer cancel. *)

From S2P Require Import Prelude Ordered Decimal MarketTypes MarketEvents Digest FixWire FixMapping.
From S2P Require Import Execution ExecutionFacts Adapter Application FixApplication EngineTheorems.
From Stdlib Require Import Ascii.
#[local] Open Scope list_scope.

(** ** Identities *)

Lemma shift_lor a l : 0 <= a -> 0 <= l <= int_max U64 -> Z.lor (Z.shiftl a 64) l = a * 2 ^ 64 + l.
Proof.
  intros Ha Hl. change (int_max U64) with (2 ^ 64 - 1) in Hl.
  assert (Hland : Z.land (Z.shiftl a 64) l = 0).
  { apply Z.bits_inj'. intros n Hn. rewrite Z.land_spec, Z.bits_0, Z.shiftl_spec by done.
    destruct (Z.ltb_spec n 64); [by rewrite Z.testbit_neg_r by lia |].
    replace (Z.testbit l n) with false; [by rewrite andb_false_r |]. symmetry.
    destruct (decide (l = 0)) as [->|]; [apply Z.bits_0 |].
    apply Z.bits_above_log2; [lia |]. apply Z.lt_le_trans with 64; [apply Z.log2_lt_pow2; lia | done]. }
  pose proof (Z.add_lor_land (Z.shiftl a 64) l) as Hadd. rewrite Hland, Z.shiftl_mul_pow2 in Hadd by lia.
  rewrite Z.shiftl_mul_pow2 by lia. lia.
Qed.
Lemma high_half a l : 0 <= l <= int_max U64 -> Z.shiftr (a * 2 ^ 64 + l) 64 = a.
Proof.
  intros Hl. change (int_max U64) with (2 ^ 64 - 1) in Hl. rewrite Z.shiftr_div_pow2 by lia.
  rewrite Z.add_comm, Z.div_add by done. rewrite Z.div_small by lia. lia.
Qed.
Lemma low_half a l : 0 <= l <= int_max U64 -> Z.land (a * 2 ^ 64 + l) (int_max U64) = l.
Proof.
  intros Hl. change (int_max U64) with (Z.ones 64) in *. rewrite Z.land_ones by lia.
  change (Z.ones 64) with (2 ^ 64 - 1) in Hl. rewrite Z.add_comm, Z.mod_add by done. apply Z.mod_small. lia.
Qed.

Lemma canonical_id_Ok ns local c :
  0 <= ns -> 0 <= local -> canonical_id ns local = Ok c -> 0 < local <= int_max U64 /\ c = ns * 2 ^ 64 + local.
Proof.
  intros Hns Hl. unfold canonical_id. destruct (Z.eqb_spec local 0), (Z.ltb_spec (int_max U64) local); try done.
  intros [= <-]. rewrite shift_lor by lia. lia.
Qed.

(** a session's identities are its own. An identifier the application
    places in its session's namespace fits 128 bits and maps back to the
    very local identifier it came from; in every other session's namespace
    it maps to something no local identifier can be. *)
Lemma session_ids_come_back ns local c :
  0 < ns <= int_max U64 -> 0 <= local -> canonical_id ns local = Ok c ->
  is_u128 c /\ local_id ns c = local /\
  forall ns', ns' <> ns -> int_max U64 < local_id ns' c.
Proof.
  intros Hns Hl Hc. apply canonical_id_Ok in Hc as [Hlocal ->]; [| lia | done].
  assert (Hb : 0 <= local <= int_max U64) by lia. unfold local_id. rewrite high_half by done. split_and!.
  - unfold is_u128. change (int_max U128) with ((2 ^ 64 - 1) * 2 ^ 64 + (2 ^ 64 - 1)).
    change (int_max U64) with (2 ^ 64 - 1) in *. nia.
  - rewrite Z.eqb_refl. by apply low_half.
  - intros ns' Hne. replace (ns =? ns') with false by lia. replace (ns =? 0) with false by lia.
    change (int_max U64) with (2 ^ 64 - 1) in *. nia.
Qed.

(** What maps to a local identifier is in the session's namespace. *)
Lemma local_id_inside ns c : 0 < ns -> 0 <= c -> local_id ns c <= int_max U64 -> Z.shiftr c 64 = ns.
Proof.
  intros Hns Hc. unfold local_id. destruct (Z.eqb_spec (Z.shiftr c 64) ns); [done |].
  pose proof (Z.shiftr_div_pow2 c 64 ltac:(lia)) as Hd. change (int_max U64) with (2 ^ 64 - 1).
  destruct (Z.eqb_spec (Z.shiftr c 64) 0) as [E|E].
  - intros Hle. exfalso. assert (Hcs : c < 2 ^ 64).
    { rewrite E in Hd. pose proof (Z.div_mod c (2 ^ 64) ltac:(done)). pose proof (Z.mod_pos_bound c (2 ^ 64) ltac:(done)). lia. }
    revert Hle. change (Z.shiftl 1 127) with (Z.shiftl (2 ^ 63) 64). rewrite Z.lor_comm, shift_lor; [lia | lia |].
    change (int_max U64) with (2 ^ 64 - 1). lia.
  - intros Hle. exfalso. rewrite Z.div_small in Hd by lia. lia.
Qed.

(** ** Commands *)

Lemma map_error_Ok {E E' A} (f : E -> E') (r : result E A) a : map_error f r = Ok a -> r = Ok a.
Proof. destruct r; simpl; congruence. Qed.

Section commands.
Context `{!Sha256} `{!FixDictionary}.

(** The way to a command: the intent, the one action it asked for and the
    command of that action. *)
Record mapped_command (message : FixMessage) (context : FixCommandContext) (s s' : FixApplicationState) (c : Command)
    (intent : ExecutionIntent) (action : ExecutionAction) (venue : Command) : Prop := {
  mp_intent : map_inbound message (mkMappingContext (fc_actor context) (fa_next_intent_id s))
                = Ok (InboundApplication.Intent intent);
  mp_submit : exists e, submit_intent intent (mkExecution (fa_execution s) (mkExecutionActionBuffer 2 [])) = (e, Ok tt) /\
                ab_actions (ex_output e) = [action] /\ fa_execution s' = ex_state e;
  mp_clients : fa_client_order_ids s' =
                 match submitted_client intent, action with
                 | Some client, ActionSubmit _ local _ => <[local := client]> (fa_client_order_ids s)
                 | _, _ => fa_client_order_ids s
                 end;
  mp_command : command_for_action action (command_context context) = Ok venue;
  mp_canonical : canonical_command (session_namespace (fc_run_id context) (fc_actor context) (fa_identity_epoch s))
                   message venue = Ok c;
  mp_same : fa_adapter s' = fa_adapter s /\ fa_identity_epoch s' = fa_identity_epoch s /\
            fa_next_intent_id s' = fa_next_intent_id s + 1
}.

Lemma map_message_command message context s s' c :
  map_message message context s = (s', Ok (FixApplicationRequest.Command c)) ->
  exists intent action venue, mapped_command message context s s' c intent action venue.
Proof.
  unfold map_message. intros Hrun. rewrite bind_gets in Hrun.
  apply bind_Ok_inv in Hrun as (? & mapped & [-> Hmap%map_error_Ok]%lift_Ok_inv & Hrun).
  apply bind_Ok_inv in Hrun as (? & bumped & [-> Hb%ok_or_Ok]%lift_Ok_inv & Hrun). apply checked_Some in Hb as [-> _].
  rewrite bind_modify in Hrun. destruct mapped as [intent| |]; [| by ret_inv Hrun | by ret_inv Hrun].
  unfold map_intent in Hrun. apply bind_Ok_inv in Hrun as (s1 & actions & Hx & Hrun). unfold with_buffer in Hx.
  cbn [fa_execution with_next_intent] in Hx.
  destruct (submit_intent intent _) as [e r] eqn:Hsub. destruct r as [[]|]; [| done]. injection Hx as <- <-.
  destruct (ab_actions (ex_output e)) as [|action []] eqn:Hact; [done | | done].
  apply bind_Ok_inv in Hrun as (s2 & [] & Hx & Hrun).
  apply bind_Ok_inv in Hrun as (? & venue & [-> Hv%map_error_Ok]%lift_Ok_inv & Hrun).
  rewrite bind_gets in Hrun. cbv zeta in Hrun.
  apply bind_Ok_inv in Hrun as (? & command & [-> Hc]%lift_Ok_inv & Hrun). ret_inv Hrun.
  exists intent, action, venue.
  destruct (submitted_client intent) as [client|] eqn:Hcl; [destruct action |];
    (injection Hx as <-; split; [done | by exists e | by rewrite ?Hcl | done | exact Hc | done]).
Qed.

(** what a FIX message becomes may be sent. Whenever a message becomes a
    command, the command is in the name of the connection's participant,
    at the run, sequence and time of the request, and the authority check
    of the service accepts it for that participant; its command identifier
    and its order's identifier lie in the session's namespace, and an order
    is always addressed to a listing of its own instrument. *)
Theorem fix_commands_are_authorised message context s s' c identity role team :
  map_message message context s = (s', Ok (FixApplicationRequest.Command c)) -> trades role = true ->
  let ns := session_namespace (fc_run_id context) (fc_actor context) (fa_identity_epoch s) in
  let actor := mkVerifiedActor (mkActorIdentity identity role (Some (fc_actor context)) team) (Some (fc_actor context)) in
  authorize_command actor c = Ok tt /\
  cmd_run_id c = fc_run_id context /\ cmd_expected_sequence c = fc_expected_sequence context /\
  cmd_logical_time c = fc_logical_time context /\ cmd_correlation_id c = fc_correlation_id context /\
  (exists n, canonical_id ns n = Ok (cmd_command_id c)) /\
  match cmd_payload c with
  | PSubmitOrderAtListing key order =>
      lk_instrument_id key = so_instrument_id order /\ fix_order_listing message = Ok (Some key) /\
      exists n, canonical_id ns n = Ok (so_order_id order)
  | PCancelOrder cancel => exists n, canonical_id ns n = Ok (co_order_id cancel)
  | _ => False
  end.
Proof.
  intros (intent & action & venue & [_ _ _ Hv Hc _])%map_message_command Hrole ns actor. fold ns in Hc.
  unfold canonical_command in Hc. apply result_bind_Ok in Hc as (id & Hid & Hc).
  apply result_bind_Ok in Hc as (p1 & Hp1 & Hc). apply result_bind_Ok in Hc as (p2 & Hp2 & [= <-]).
  unfold command_for_action in Hv. unfold authorize_command. simpl. rewrite Hrole. simpl.
  destruct action as [aid local order|aid local v| | |]; try done.
  - simpl in Hv. destruct (Z.eqb_spec (do_participant_id order) (fc_actor context)) as [E|]; [| done]. injection Hv as <-.
    simpl in Hid, Hp1 |- *. apply result_bind_Ok in Hp1 as (oid & Hoid & [= <-]). simpl in Hp2.
    apply result_bind_Ok in Hp2 as (listing & Hl%map_error_Ok & Hp2).
    apply result_bind_Ok in Hp2 as (key & ->%ok_or_Ok & Hp2).
    destruct (Z.eqb_spec (lk_instrument_id key) (do_instrument_id order)) as [Ei|]; [| done]. injection Hp2 as <-.
    rewrite Z.eqb_refl. simpl. rewrite E, Z.eqb_refl. split_and!; eauto.
  - injection Hv as <-. simpl in Hid, Hp1 |- *. apply result_bind_Ok in Hp1 as (oid & Hoid & [= <-]).
    injection Hp2 as <-. rewrite Z.eqb_refl. simpl. rewrite Z.eqb_refl. split_and!; eauto.
Qed.
End commands.

(** ** Replace requests *)

Lemma record_intent_orders id s : es_orders (record_intent id s) = es_orders s.
Proof. unfold record_intent. by destruct (record_id _ _ _ _). Qed.
Lemma record_intent_clients id s : es_client_to_local (record_intent id s) = es_client_to_local s.
Proof. unfold record_intent. by destruct (record_id _ _ _ _). Qed.

Lemma next_id_run e :
  int_min U128 <= es_next_id (ex_state e) + 1 <= int_max U128 ->
  next_id e = (mkExecution (put_next_id (es_next_id (ex_state e) + 1) (ex_state e)) (ex_output e), Ok (es_next_id (ex_state e))).
Proof.
  intros Hr. unfold next_id, on_state. rewrite bind_gets.
  rewrite (bind_lift _ _ _ (es_next_id (ex_state e) + 1)) by (unfold arithmetic, checked_add; by rewrite checked_in).
  done.
Qed.
Lemma output_push_run action e :
  Z.of_nat (length (ab_actions (ex_output e))) < ab_limit (ex_output e) ->
  output_push action e =
  (mkExecution (ex_state e) (mkExecutionActionBuffer (ab_limit (ex_output e)) (ab_actions (ex_output e) ++ [action])), Ok tt).
Proof. intros Hr. unfold output_push. rewrite bind_gets, bind_refuse by lia. done. Qed.
Lemma get_order_run local o e :
  es_orders (ex_state e) !! local = Some o -> get_order local e = (e, Ok o).
Proof. intros Ho. unfold get_order, on_state. rewrite bind_gets, Ho. done. Qed.
Lemma local_of_client_run client local e :
  es_client_to_local (ex_state e) !! client = Some local -> local_of_client client e = (e, Ok local).
Proof. intros Ho. unfold local_of_client, on_state. rewrite bind_gets, Ho. done. Qed.
Lemma update_order_run f local o e :
  es_orders (ex_state e) !! local = Some o ->
  update_order f local e = (mkExecution (put_orders (alter f local (es_orders (ex_state e))) (ex_state e)) (ex_output e), Ok tt).
Proof. intros Ho. unfold update_order. by rewrite (bind_run _ _ _ _ _ (get_order_run _ _ _ Ho)). Qed.

Definition awaiting_replace (quantity : Z) (kind : OrderKind) (o : ManagedOrder) : ManagedOrder :=
  order_with_pending_replace (Some (quantity, kind)) (order_with_lifecycle OrderLifecycle.PendingReplace o).

Lemma intent_replace_run client quantity kind local o venue e :
  0 < quantity -> es_client_to_local (ex_state e) !! client = Some local ->
  es_orders (ex_state e) !! local = Some o -> mo_lifecycle o = OrderLifecycle.Live \/ mo_lifecycle o = OrderLifecycle.PartiallyFilled ->
  mo_venue_order_id o = Some venue -> ab_actions (ex_output e) = [] -> 0 < ab_limit (ex_output e) ->
  int_min U128 <= es_next_id (ex_state e) + 1 <= int_max U128 ->
  exists e', intent_replace client quantity kind e = (e', Ok tt) /\
    ab_actions (ex_output e') = [ActionReplace (es_next_id (ex_state e)) local venue quantity kind] /\
    es_orders (ex_state e') = <[local := awaiting_replace quantity kind o]> (es_orders (ex_state e)) /\
    es_client_to_local (ex_state e') = es_client_to_local (ex_state e).
Proof.
  intros Hq Hc Ho Hl Hv Hempty Hlim Hid. unfold intent_replace. rewrite bind_refuse by lia.
  rewrite (bind_run _ _ _ _ _ (local_of_client_run _ _ _ Hc)), (bind_run _ _ _ _ _ (get_order_run _ _ _ Ho)).
  rewrite bind_refuse by (destruct Hl as [-> | ->]; done).
  rewrite (bind_lift _ _ _ venue) by (by rewrite Hv). rewrite (bind_run _ _ _ _ _ (next_id_run e Hid)).
  erewrite bind_run by (apply output_push_run; simpl; rewrite Hempty; simpl; lia). cbn [ex_state ex_output].
  erewrite update_order_run by exact Ho. eexists. split; [reflexivity |]. simpl. rewrite Hempty. split_and!; try done.
  rewrite <- (insert_id (es_orders (ex_state e)) local o) at 1 by done. by rewrite alter_insert_eq.
Qed.

Section replacing.
Context `{!Sha256} `{!FixDictionary}.

(** A message that becomes an intent runs the intent with the next
    identifier. *)
Lemma map_message_intent message context s intent :
  map_inbound message (mkMappingContext (fc_actor context) (fa_next_intent_id s)) = Ok (InboundApplication.Intent intent) ->
  int_min U128 <= fa_next_intent_id s + 1 <= int_max U128 ->
  map_message message context s = map_intent intent message context (with_next_intent (fa_next_intent_id s + 1) s).
Proof.
  intros Hmap Hr. unfold map_message. rewrite bind_gets.
  rewrite (bind_lift _ _ _ (InboundApplication.Intent intent)) by (by rewrite Hmap).
  rewrite (bind_lift _ _ _ (fa_next_intent_id s + 1)) by (unfold checked_add; by rewrite checked_in).
  by rewrite bind_modify.
Qed.

Lemma cancel_awaiting_refused id client local o e :
  es_client_to_local (ex_state e) !! client = Some local -> es_orders (ex_state e) !! local = Some o ->
  mo_lifecycle o = OrderLifecycle.PendingReplace -> ab_actions (ex_output e) = [] ->
  exists r, submit_intent (IntentCancel id client) e = (e, r) /\ (forall u, r = Ok u -> ab_actions (ex_output e) = []) /\
    (intent_processed (ex_state e) id = false ->
       r = Err (ExecutionError.InvalidTransition (OnIntent OrderLifecycle.PendingReplace "cancel_intent"))).
Proof.
  intros Hc Ho Hl He. unfold submit_intent, on_state. rewrite bind_gets. cbn [Datatypes.id intent_id].
  change (Datatypes.id (ex_state e)) with (ex_state e). destruct (intent_processed (ex_state e) id) eqn:Hp.
  { exists (Ok tt). split_and!; done. }
  exists (Err (ExecutionError.InvalidTransition (OnIntent OrderLifecycle.PendingReplace "cancel_intent"))).
  split_and!; [| done | done]. unfold mbind at 1, M_bind at 1. unfold intent_cancel.
  rewrite (bind_run _ _ _ _ _ (local_of_client_run _ _ _ Hc)), (bind_run _ _ _ _ _ (get_order_run _ _ _ Ho)), Hl. done.
Qed.

(** a FIX replace request leaves an order its client cannot cancel.  For
    a live order a replace request is refused, since the venue has no
    replace, but the order manager keeps it as awaiting its replacement; from
    then on every cancel request of the client for that order is refused
    and changes none of the session's orders, although the order still
    rests at the venue. *)
Theorem replace_request_blocks_cancels message context s client quantity kind local o venue :
  map_inbound message (mkMappingContext (fc_actor context) (fa_next_intent_id s)) =
    Ok (InboundApplication.Intent (IntentReplace (fa_next_intent_id s) client quantity kind)) ->
  0 < quantity -> es_client_to_local (fa_execution s) !! client = Some local ->
  es_orders (fa_execution s) !! local = Some o ->
  mo_lifecycle o = OrderLifecycle.Live \/ mo_lifecycle o = OrderLifecycle.PartiallyFilled ->
  mo_venue_order_id o = Some venue -> intent_processed (fa_execution s) (fa_next_intent_id s) = false ->
  0 <= fa_next_intent_id s < int_max U128 -> 0 <= es_next_id (fa_execution s) < int_max U128 ->
  exists s', map_message message context s = (s', Err (ApplicationError.ExecutionAdapter AdapterError.UnsupportedAction)) /\
    es_orders (fa_execution s') !! local = Some (awaiting_replace quantity kind o) /\
    forall message' context' s'' r,
      map_inbound message' (mkMappingContext (fc_actor context') (fa_next_intent_id s')) =
        Ok (InboundApplication.Intent (IntentCancel (fa_next_intent_id s') client)) ->
      map_message message' context' s' = (s'', r) ->
      (exists e, r = Err e) /\ fa_execution s'' = fa_execution s'.
Proof.
  intros Hmap Hq Hc Ho Hl Hv Hnew Hni Hid. rewrite (map_message_intent _ _ _ _ Hmap) by (unfold int_min; lia).
  destruct (intent_replace_run client quantity kind local o venue
    (mkExecution (fa_execution s) (mkExecutionActionBuffer 2 []))) as (e & Hrun & Hact & Hord & Hcl);
    try done; [unfold int_min; simpl; lia |]. simpl in Hord, Hcl, Hact.
  set (e' := mkExecution (record_intent (fa_next_intent_id s) (ex_state e)) (ex_output e)).
  assert (Hsub : submit_intent (IntentReplace (fa_next_intent_id s) client quantity kind)
    (mkExecution (fa_execution s) (mkExecutionActionBuffer 2 [])) = (e', Ok tt)).
  { unfold submit_intent, on_state. rewrite bind_gets. cbn [intent_id]. change (Datatypes.id ?x) with x. cbn [ex_state].
    rewrite Hnew. by rewrite (bind_run _ _ _ _ _ Hrun). }
  exists (with_execution (ex_state e') (with_next_intent (fa_next_intent_id s + 1) s)).
  assert (Hlook : es_orders (ex_state e') !! local = Some (awaiting_replace quantity kind o)).
  { unfold e'. simpl. by rewrite record_intent_orders, Hord, lookup_insert_eq. }
  split_and!; [| exact Hlook |].
  - unfold map_intent. erewrite bind_run.
    2: { unfold with_buffer. cbn [fa_execution with_next_intent]. rewrite Hsub. reflexivity. }
    unfold e'. cbn [ex_output]. rewrite Hact. reflexivity.
  - intros message' context' s'' r Hmap' Hrun'. set (s1 := with_execution _ _) in Hmap', Hrun'.
    destruct (cancel_awaiting_refused (fa_next_intent_id s1) client local (awaiting_replace quantity kind o)
      (mkExecution (fa_execution s1) (mkExecutionActionBuffer 2 []))) as (x & Hx & Hempty & _); try done.
    { unfold s1, e'. simpl. by rewrite record_intent_clients, Hcl. }
    unfold map_message in Hrun'. rewrite bind_gets in Hrun'.
    rewrite (bind_lift _ _ _ (InboundApplication.Intent (IntentCancel (fa_next_intent_id s1) client))) in Hrun' by (by rewrite Hmap').
    destruct (checked_add U128 (fa_next_intent_id s1) 1) as [n|]; [| injection Hrun' as <- <-; eauto].
    rewrite (bind_lift _ _ _ n), bind_modify in Hrun' by done. unfold map_intent, mbind, M_bind, with_buffer in Hrun'.
    cbn [fa_execution with_next_intent] in Hrun'. rewrite Hx in Hrun'. cbn [ex_state ex_output ab_actions] in Hrun'.
    destruct x; injection Hrun' as <- <-; eauto.
Qed.
End replacing.

(** ** Acknowledgements *)

Lemma be_value_bound (b : list Z) : Forall is_byte b -> 0 <= be_value b < 256 ^ Z.of_nat (length b).
Proof.
  unfold be_value. induction b as [|x b IH] using rev_ind; intros Hb; [simpl; lia |].
  apply Forall_app in Hb as [Hb Hx]. apply Forall_cons in Hx as [Hx _]. unfold is_byte in Hx. specialize (IH Hb).
  rewrite foldl_app, length_app, Nat.add_comm. change (length [x] + length b)%nat with (S (length b)).
  rewrite Nat2Z.inj_succ, Z.pow_succ_r by lia. cbn [foldl].
  set (v := foldl _ 0 b) in *. set (q := 256 ^ Z.of_nat (length b)) in *. lia.
Qed.
Lemma session_namespace_range `{!Sha256} run actor epoch : 0 < session_namespace run actor epoch <= int_max U64.
Proof.
  unfold session_namespace, digest_u64. set (d := sha256 _).
  pose proof (be_value_bound (take 8 d)) as Hb. 
  assert (Hd : length d = 32%nat) by apply sha256_length. rewrite length_take, Hd in Hb.
  change (256 ^ Z.of_nat (8 `min` 32)) with (2 ^ 64) in Hb. change (int_max U64) with (2 ^ 64 - 1).
  assert (Forall is_byte (take 8 d)) as Ht by (apply Forall_take, sha256_bytes). specialize (Hb Ht). lia.
Qed.

(** Retiring orders takes no identifier. *)
Lemma retire_next_id e e' u :
  retire_terminal_orders e = (e', Ok u) ->
  es_next_id (ex_state e') = es_next_id (ex_state e) /\ ex_output e' = ex_output e.
Proof.
  pose (R := fun e e' : Execution => es_next_id (ex_state e') = es_next_id (ex_state e) /\ ex_output e' = ex_output e).
  assert (HR : PreOrder R).
  { split; [done |]. intros x y z [? ?] [? ?]. split; congruence. }
  assert (Hk : forall fuel, keeps R (retire_loop fuel)).
  { induction fuel as [|fuel IH]; [by intros ? |]. simpl. apply keeps_bind; [done | by intros ? |]. intros s.
    case_match; [| by intros ?]. apply keeps_bind; [done | by intros ? |]. intros [local order].
    apply keeps_bind; [done | | by intros _]. intros x. unfold update, modify, forget_order, R. simpl.
    by repeat case_match. }
  unfold retire_terminal_orders, on_state. rewrite bind_gets. intros Hrun.
  specialize (Hk (S (size (es_orders (ex_state e)))) e). by rewrite Hrun in Hk.
Qed.

Lemma next_id_Ok e e' n :
  next_id e = (e', Ok n) ->
  n = es_next_id (ex_state e) /\ e' = mkExecution (put_next_id (n + 1) (ex_state e)) (ex_output e).
Proof.
  unfold next_id, on_state. rewrite bind_gets. intros Hrun.
  apply bind_Ok_inv in Hrun as (? & m & [-> Hm%ok_or_Ok]%lift_Ok_inv & Hrun). apply checked_Some in Hm as [-> _].
  injection Hrun as <- <-. done.
Qed.
Lemma output_push_Ok action e e' u :
  output_push action e = (e', Ok u) ->
  e' = mkExecution (ex_state e) (mkExecutionActionBuffer (ab_limit (ex_output e)) (ab_actions (ex_output e) ++ [action])).
Proof.
  unfold output_push. rewrite bind_gets. intros Hrun.
  apply bind_Ok_inv in Hrun as (? & [] & [-> _]%refuse_if_Ok_inv & Hrun). by injection Hrun as <-.
Qed.

(** What an accepted submission leaves in the order manager. *)
Lemma intent_submit_Ok order e e' u :
  intent_submit order e = (e', Ok u) -> ab_actions (ex_output e) = [] ->
  let local := es_next_id (ex_state e) in
  ab_actions (ex_output e') = [ActionSubmit (local + 1) local order] /\
  es_orders (ex_state e') !! local = Some (new_order local order None OrderLifecycle.PendingSubmit 0).
Proof.
  intros Hrun He local. unfold intent_submit, on_state in Hrun. rewrite bind_gets in Hrun.
  apply bind_Ok_inv in Hrun as (? & [] & [-> _]%refuse_if_Ok_inv & Hrun).
  apply bind_Ok_inv in Hrun as (? & [] & [-> _]%refuse_if_Ok_inv & Hrun).
  apply bind_Ok_inv in Hrun as (? & [] & [-> _]%lift_Ok_inv & Hrun).
  apply bind_Ok_inv in Hrun as (e1 & [] & [Hid Hout]%retire_next_id & Hrun).
  apply bind_Ok_inv in Hrun as (e2 & l & [-> ->]%next_id_Ok & Hrun).
  apply bind_Ok_inv in Hrun as (e3 & aid & [-> ->]%next_id_Ok & Hrun).
  apply bind_Ok_inv in Hrun as (e4 & [] & ->%output_push_Ok & Hrun). injection Hrun as <-. simpl.
  rewrite Hout, He, Hid. fold local. split; [done |]. by rewrite lookup_insert_eq.
Qed.

Lemma record_report_orders r s : es_orders (record_report r s) = es_orders s.
Proof. unfold record_report. destruct (record_id _ _ _ _). by destruct (nr_source_sequence r). Qed.

(** An acceptance of a pending order makes it live. *)
Lemma accepted_report_run r local venue o e :
  nr_kind r = VenueReportKind.Accepted -> nr_local_order_id r = Some local -> nr_venue_order_id r = Some venue ->
  es_orders (ex_state e) !! local = Some o -> mo_lifecycle o = OrderLifecycle.PendingSubmit ->
  (forall l, es_venue_to_local (ex_state e) !! venue = Some l -> l = local) ->
  es_deferred_reports (ex_state e) = [] -> report_seen (ex_state e) r = false ->
  exists e', apply_venue_report r e = (e', Ok tt) /\
    es_orders (ex_state e') !! local = Some (order_with_lifecycle OrderLifecycle.Live (order_with_venue (Some venue) o)).
Proof.
  intros Hk Hloc Hven Ho Hl Hv Hd Hseen. unfold apply_venue_report, on_state. rewrite bind_gets, Hd. cbn [length].
  cbn [apply_venue_report_at]. unfold on_state. rewrite bind_gets. change (Datatypes.id ?x) with x. cbv beta. rewrite Hseen.
  assert (Hres : resolve_report (ex_state e) r = Some local).
  { unfold resolve_report. rewrite Hloc. cbn [mbind option_bind]. by rewrite bool_decide_true by (by rewrite Ho). }
  rewrite Hres, Hk. set (o1 := order_with_venue (Some venue) o).
  set (e1 := mkExecution (put_orders (alter (order_with_venue (Some venue)) local (es_orders (ex_state e)))
    (put_venue_to_local (<[venue := local]> (es_venue_to_local (ex_state e))) (ex_state e))) (ex_output e)).
  assert (H1 : bind_venue_id local (nr_venue_order_id r) e = (e1, Ok tt)).
  { rewrite Hven. unfold bind_venue_id, on_state. rewrite bind_gets, bind_refuse; [done |].
    destruct (es_venue_to_local (ex_state e) !! venue) as [l|] eqn:El; [| done]. rewrite (Hv l) by done. by rewrite Z.eqb_refl. }
  assert (Ho1 : es_orders (ex_state e1) !! local = Some o1).
  { simpl. rewrite lookup_alter_eq, Ho. done. }
  assert (H2 : apply_resolved_report local r e = (mkExecution (put_orders
    (alter (order_with_lifecycle OrderLifecycle.Live) local (es_orders (ex_state e1))) (ex_state e1)) (ex_output e1), Ok tt)).
  { unfold apply_resolved_report. rewrite (bind_run _ _ _ _ _ H1), (bind_run _ _ _ _ _ (get_order_run _ _ _ Ho1)). cbv zeta.
    rewrite Hk. change (mo_lifecycle o1) with (mo_lifecycle o). rewrite Hl. by apply (update_order_run _ _ o1). }
  rewrite (bind_run _ _ _ _ _ H2). unfold update. rewrite bind_modify, bind_gets, bind_modify. cbn [ex_state ex_output].
  replace (es_deferred_reports _) with (@nil NormalizedVenueReport).
  2: { rewrite record_report_deferred. simpl. by rewrite Hd. }
  eexists. split; [reflexivity |]. cbn [ex_state]. simpl. rewrite record_report_orders. simpl.
  rewrite !lookup_alter_eq, Ho. done.
Qed.

(** The report of an acceptance of one of the participant's orders. *)
Definition venue_name (local : Z) : string := String.string_of_list_ascii (display_uint local).
Lemma normalize_acceptance actor ns (e1 e2 : EventEnvelope) order key local adapter :
  ev_payload e1 = OrderReceived order key -> ev_payload e2 = OrderAccepted (so_order_id order) ->
  so_participant_id order = actor -> local_id ns (so_order_id order) = local ->
  exists adapter', normalize_committed_events actor (localize_event ns <$> [e1; e2]) adapter =
    (adapter', Ok [mkNormalizedVenueReport (ev_event_id e2) (Some (ev_sequence e2)) None (Some local)
                     (Some (venue_name local)) None VenueReportKind.Accepted]).
Proof.
  intros H1 H2 Hp Hl. change (localize_event ns <$> [e1; e2]) with [localize_event ns e1; localize_event ns e2].
  cbn [normalize_committed_events]. unfold normalize_event, localize_event. cbn [ev_payload ev_event_id ev_sequence].
  rewrite H1, H2. cbn [localize_payload classify_event so_participant_id with_so_order_id so_order_id].
  rewrite Hp, Z.eqb_refl, Hl. rewrite !bind_assoc, bind_modify, !bind_ret.
  rewrite !bind_assoc, bind_gets. cbn [ad_owned_orders].
  rewrite bool_decide_true by set_solver. eexists. reflexivity.
Qed.

Section acknowledged.
Context `{!Sha256} `{!FixDictionary}.

(** The order a [D] message becomes. *)
Lemma new_order_intent message context intent :
  fm_msg_type message = text "D" -> map_inbound message context = Ok (InboundApplication.Intent intent) ->
  exists id order, intent = IntentSubmit id order /\ FixMapping.parse U128 message 11 = Ok (do_client_order_id order).
Proof.
  unfold map_inbound. intros Ht Hm. apply result_bind_Ok in Hm as (? & _ & Hm). cbv zeta in Hm.
  rewrite bool_decide_true in Hm by done. unfold map_new_order in Hm. apply result_bind_Ok in Hm as (cl & Hcl & Hm).
  do 6 apply result_bind_Ok in Hm as (? & _ & Hm). apply result_bind_Ok in Hm as (? & _ & [= <-]).
  eexists _, _. split; [reflexivity | exact Hcl].
Qed.

(** One report through the loop of [committed_messages]. *)
Lemma report_messages_one r report message s e u :
  apply_venue_report report (mkExecution (fa_execution s) (mkExecutionActionBuffer 2 [])) = (e, Ok u) ->
  named_report (fa_client_order_ids s) r = report -> map_execution_report report = Ok message ->
  report_messages [r] s = (with_execution (ex_state e) s, Ok [message]).
Proof.
  intros Ha <- Hm. cbn [report_messages]. rewrite bind_gets. cbv zeta.
  erewrite bind_run by (unfold with_buffer; rewrite Ha; reflexivity).
  erewrite bind_lift by (rewrite Hm; reflexivity). by rewrite bind_ret.
Qed.

(** C28: a FIX order is acknowledged under its own name. When a new order
    message has become a command and the venue commits that it received and
    accepted that very order, the session's committed messages are exactly
    one execution report: new (150=0, 39=0), for the order's local
    identifier (37), with the ClOrdID (11) of the client's message; and the
    order manager holds the order as live. *)
Theorem fix_order_is_acknowledged message context s s' c key order (e1 e2 : EventEnvelope) :
  fm_msg_type message = text "D" -> map_message message context s = (s', Ok (FixApplicationRequest.Command c)) ->
  cmd_payload c = PSubmitOrderAtListing key order -> 0 <= es_next_id (fa_execution s) ->
  ev_run_id e1 = fc_run_id context ->
  ev_payload e1 = OrderReceived order (Some key) -> ev_payload e2 = OrderAccepted (so_order_id order) ->
  let local := es_next_id (fa_execution s) in
  (forall l, es_venue_to_local (fa_execution s') !! venue_name local = Some l -> l = local) ->
  es_deferred_reports (fa_execution s') = [] ->
  ev_event_id e2 ∉ es_seen_reports (fa_execution s') -> at_or_below (es_reports_seen_through (fa_execution s')) (ev_event_id e2) = false ->
  exists s'' report client, committed_messages (fc_actor context) [e1; e2] s' = (s'', Ok [report]) /\
    FixMapping.parse U128 message 11 = Ok client /\
    message_value report 11 = Some (display_uint client) /\ message_value report 37 = Some (display_uint local) /\
    message_value report 150 = Some (text "0") /\ message_value report 39 = Some (text "0") /\
    (mo_lifecycle <$> es_orders (fa_execution s'') !! local) = Some OrderLifecycle.Live.
Proof.
  intros Htype (intent & action & venue & [Hin (e & Hsub & Hact & Hex) Hcl Hcmd Hcan (Had & Hep & _)])%map_message_command
    Hpay Hid Hrun H1 H2 local Hven Hdef Hnew Hthr.
  set (ns := session_namespace (fc_run_id context) (fc_actor context) (fa_identity_epoch s)) in Hcan.
  pose proof (session_namespace_range (fc_run_id context) (fc_actor context) (fa_identity_epoch s)) as Hns. fold ns in Hns.
  unfold canonical_command in Hcan. apply result_bind_Ok in Hcan as (cid & _ & Hcan).
  apply result_bind_Ok in Hcan as (p1 & Hp1 & Hcan). apply result_bind_Ok in Hcan as (p2 & Hp2 & [= <-]). simpl in Hpay. subst p2.
  destruct action as [aid l0 order0|aid l0 v| | |]; try done.
  2: { injection Hcmd as <-. simpl in Hp1. apply result_bind_Ok in Hp1 as (? & _ & [= <-]). done. }
  unfold command_for_action in Hcmd. simpl in Hcmd.
  destruct (Z.eqb_spec (do_participant_id order0) (fc_actor context)) as [Hpart|]; [| done]. injection Hcmd as <-.
  simpl in Hp1. apply result_bind_Ok in Hp1 as (oid & Hoid & [= <-]). simpl in Hp2.
  apply result_bind_Ok in Hp2 as (listing & _ & Hp2). apply result_bind_Ok in Hp2 as (key' & _ & Hp2).
  destruct (negb _); [done |]. injection Hp2 as _ <-. simpl in H2.
  destruct (new_order_intent _ _ _ Htype Hin) as (iid & desired & -> & Hparse).
  unfold submit_intent, on_state in Hsub. rewrite bind_gets in Hsub.
  destruct (intent_processed _ _); [injection Hsub as <-; done |].
  apply bind_Ok_inv in Hsub as (e0 & [] & Hsub & Hrec). injection Hrec as <-.
  apply intent_submit_Ok in Hsub as [Hacts Hord]; [| done]. cbn [ex_output] in Hact. rewrite Hacts in Hact.
  injection Hact as <- <- <-. cbn [ex_state] in Hord. fold local in Hord, Hoid, Hcl.
  destruct (session_ids_come_back ns local oid Hns Hid Hoid) as (_ & Hback & _).
  destruct (normalize_acceptance (fc_actor context) ns e1 e2 _ _ local (fa_adapter s') H1 H2 Hpart Hback) as (ad & Hnorm).
  set (report := mkNormalizedVenueReport (ev_event_id e2) (Some (ev_sequence e2)) (Some (do_client_order_id desired))
    (Some local) (Some (venue_name local)) None VenueReportKind.Accepted).
  destruct (accepted_report_run report local (venue_name local) (new_order local desired None OrderLifecycle.PendingSubmit 0)
    (mkExecution (fa_execution s') (mkExecutionActionBuffer 2 []))) as (e3 & Happ & Hlive); try done.
  { simpl. rewrite Hex. simpl. by rewrite record_intent_orders. }
  { unfold report_seen. simpl. by rewrite bool_decide_false. }
  eexists _, _, (do_client_order_id desired). split_and!; [| exact Hparse | ..].
  - unfold committed_messages. rewrite bind_gets. cbv zeta. rewrite bind_gets, Hrun, Hep. fold ns. rewrite Hnorm.
    rewrite bind_modify. erewrite bind_lift by reflexivity. eapply (report_messages_one _ report).
    + exact Happ.
    + unfold named_report. cbn [nr_client_order_id nr_local_order_id mbind option_bind fa_client_order_ids with_adapter].
      rewrite Hcl. cbn [submitted_client]. by rewrite lookup_insert_eq.
    + reflexivity.
  - reflexivity.
  - reflexivity.
  - reflexivity.
  - reflexivity.
  - cbn [with_execution fa_execution]. by rewrite Hlive.
Qed.
End acknowledged.

(** ** A sample session *)

Module SampleFixApplication.
Import SampleRun.
Import (hints) SampleRun.
#[export] Instance order_dictionary : FixDictionary := {|
  session_message := fun _ => false;
  application_message := fun t => bool_decide (t ∈ [text "D"; text "F"; text "G"; text "8"]);
  session_field := fun _ => false;
  application_field := fun t => bool_decide (t ∈ [11; 38; 40; 41; 44; 48; 54; 59; 207])
|}.
Definition request (msg_type : Text) (fields : list (Z * Text)) : FixMessage :=
  foldl (fun m f => message_push f.1 f.2 m) (FixMessage_new msg_type) fields.
Definition new_order_message : FixMessage :=
  request (text "D") [(11, text "42"); (48, text "10"); (207, text "1"); (54, text "1"); (38, text "5");
                      (40, text "2"); (44, text "40"); (59, text "1")].
Definition replace_message : FixMessage :=
  request (text "G") [(11, text "43"); (41, text "42"); (48, text "10"); (54, text "1"); (38, text "7");
                      (40, text "2"); (44, text "41"); (59, text "1")].
Definition cancel_message : FixMessage :=
  request (text "F") [(11, text "44"); (41, text "42"); (48, text "10"); (54, text "1")].
Definition context : FixCommandContext := mkFixCommandContext 2 7 0 0 9.
Definition opened : FixApplicationState := FixApplicationState_new ExecutionConfig_default.
Definition submitted : FixApplicationState := (map_message new_order_message context opened).1.
Definition no_command : Command := mkCommand 0 0 0 0 0 0 ResetKillSwitch.
Definition submitted_command : Command :=
  match (map_message new_order_message context opened).2 with Ok (FixApplicationRequest.Command c) => c | _ => no_command end.
Definition submitted_order : SubmitOrder :=
  match cmd_payload submitted_command with PSubmitOrderAtListing _ order => order | _ => mkSubmitOrder 0 0 0 Buy 0 Market false end.
Definition event (n : Z) (payload : EventPayload) : EventEnvelope := mkEventEnvelope EVENT_SCHEMA_VERSION 7 n n 0 2 1 1 None payload.
Definition received : EventEnvelope := event 1 (OrderReceived submitted_order (Some (mkListingKey 1 10))).
Definition accepted : EventEnvelope := event 2 (OrderAccepted (so_order_id submitted_order)).
Definition live : FixApplicationState := (committed_messages 2 [received; accepted] submitted).1.
End SampleFixApplication.

Section fix_application_witnesses.
Import SampleRun SampleFixApplication.
Import (hints) SampleRun SampleFixApplication.

Lemma submitted_maps :
  map_message new_order_message context opened = (submitted, Ok (FixApplicationRequest.Command submitted_command)).
Proof. vm_compute. reflexivity. Qed.

Lemma fix_commands_are_authorised_witness :
  authorize_command (mkVerifiedActor (mkActorIdentity 1 ActorRole.Participant (Some 2) None) (Some 2)) submitted_command
  = Ok tt.
Proof.
  exact (proj1 (fix_commands_are_authorised new_order_message context opened submitted submitted_command 1
    ActorRole.Participant None submitted_maps eq_refl)).
Defined.

Lemma fix_order_is_acknowledged_witness :
  exists s report, committed_messages 2 [received; accepted] submitted = (s, Ok [report]) /\
    message_value report 11 = Some (text "42") /\ message_value report 150 = Some (text "0").
Proof.
  destruct (fix_order_is_acknowledged new_order_message context opened submitted submitted_command (mkListingKey 1 10)
    submitted_order received accepted) as (s & report & client & Hrun & Hc & H11 & _ & H150 & _).
  - vm_compute. reflexivity.
  - exact submitted_maps.
  - vm_compute. reflexivity.
  - vm_compute. discriminate.
  - reflexivity.
  - reflexivity.
  - reflexivity.
  - intros l Hl. vm_compute in Hl. discriminate Hl.
  - vm_compute. reflexivity.
  - apply (bool_decide_unpack _). vm_compute. exact I.
  - vm_compute. reflexivity.
  - exists s, report. split; [exact Hrun |]. split; [| exact H150].
    rewrite H11. assert (E : client = 42) by (vm_compute in Hc; congruence). rewrite E. vm_compute. reflexivity.
Defined.

Definition held : option ManagedOrder := es_orders (fa_execution live) !! 1.
Lemma replace_request_blocks_cancels_witness :
  exists s', map_message replace_message context live =
      (s', Err (ApplicationError.ExecutionAdapter AdapterError.UnsupportedAction)) /\
    forall s'' r, map_message cancel_message context s' = (s'', r) -> exists e, r = Err e.
Proof.
  assert (Ho : bool_decide (is_Some held) = true) by (vm_compute; reflexivity).
  apply bool_decide_eq_true in Ho as [o Ho].
  destruct (replace_request_blocks_cancels replace_message context live 42 7 (Limit 41) 1 o "1") as (s' & Hrun & _ & Hall).
  - vm_compute. reflexivity.
  - lia.
  - vm_compute. reflexivity.
  - exact Ho.
  - left. vm_compute in Ho. injection Ho as <-. reflexivity.
  - vm_compute in Ho. injection Ho as <-. reflexivity.
  - vm_compute. reflexivity.
  - replace (fa_next_intent_id live) with 2 by (vm_compute; reflexivity). split; [lia | reflexivity].
  - replace (es_next_id (fa_execution live)) with 3 by (vm_compute; reflexivity). split; [lia | reflexivity].
  - exists s'. split; [exact Hrun |]. intros s'' r Hr. refine (proj1 (Hall cancel_message context s'' r _ Hr)).
    assert (E : s' = (map_message replace_message context live).1) by (rewrite Hrun; reflexivity).
    rewrite E. vm_compute. reflexivity.
Defined.
End fix_application_witnesses.
