(* ===== verification/ApplicationTheorems.v ===== *)
(** * bunting-application: theorems of the service

    What a request through the service does to the store: who may commit
    what, that a refused or duplicate request changes nothing, that the
    venue timer leaves nothing due behind, and what the consolidated quote
    promises. *)

From S2P Require Import Prelude Ordered MarketTypes MarketEvents Digest Book Latency Transition.
From S2P Require Import Simulation Scenario Engine EngineFrame EngineInvariant.
From S2P Require Import EngineSubmit EngineRun EngineRetire EngineReach EngineTheorems.
From S2P Require Import Origin OriginTheorems Venue FixMapping Execution Adapter Application.
#[local] Open Scope list_scope.

(** ** Requests through the store *)

Section store.
Context `{HH : !Sha256} `{HS : !ScenarioCodec} `{HR : !RunCodec} `{HJ : !JournalCodec}.
Context (g : RunState) (limits : RunLimits).
#[local] Notation Store := (InMemoryOrigin RunState) (only parsing).

(** What one request does to the store that holds a run. *)
Lemma origin_execute_cases input adm (o o' : Store) js l r :
  mo_runs o !! input_run_id input = Some l -> history (EngineError := EngineError) g limits js l ->
  origin_execute_admitted (EngineError := EngineError) input adm o = (o', r) ->
  match r with
  | Err _ => o' = o
  | Ok e => if ex_duplicate e then o' = o else
      exists rec l', o' = put_run (input_run_id input) l' o /\
        rc_input rec = input /\ rc_events rec = ex_events e /\ rc_result rec = ex_result e /\
        history (EngineError := EngineError) g limits (js ++ [rec]) l' /\
        commit (EngineError := EngineError) limits (core l) rec (core l')
  end.
Proof.
  intros Hl Hh Hrun. unfold origin_execute_admitted in Hrun. rewrite bind_gets in Hrun. change (id o) with o in Hrun.
  rewrite (bind_lift _ _ _ l) in Hrun by (by rewrite Hl).
  destruct (execute_admitted input adm l) as [l1 x] eqn:Hx. rewrite bind_modify in Hrun.
  destruct (history_ok _ _ _ _ Hh) as (c0 & _ & [Hlim Hrb _]).
  pose proof (execute_admitted_cases _ _ _ _ _ Hrb Hx) as Hc.
  assert (Hsame : put_run (input_run_id input) l o = o).
  { unfold put_run. rewrite insert_id by done. by destruct o. }
  destruct x as [[res|rec]|e].
  - rewrite (bind_lift _ _ _ (Duplicate res)) in Hrun by done. destruct Hc as [-> _].
    rewrite Hsame in Hrun. by injection Hrun as <- <-.
  - rewrite (bind_lift _ _ _ (Committed rec)) in Hrun by done.
    destruct Hc as (Hin & _ & Hcom & _ & _ & _ & _ & [Hp1 _]). rewrite Hlim in Hcom.
    assert (Hh1 : history (EngineError := EngineError) g limits (js ++ [rec]) l1) by (by eapply history_commit).
    destruct (needs_checkpoint l1).
    + assert (Hck : checkpoint (EngineError := EngineError) l1 = (with_tail [] (with_base (lr_state l1) (lr_chain l1) l1), Ok tt)).
      { unfold checkpoint. rewrite bind_gets. change (id l1) with l1. by rewrite bind_refuse, bind_modify by done. }
      rewrite Hck in Hrun. rewrite bind_assoc, bind_modify in Hrun.
      rewrite (bind_lift _ _ _ tt) in Hrun by done. injection Hrun as <- <-. cbn [ex_duplicate].
      exists rec, (with_tail [] (with_base (lr_state l1) (lr_chain l1) l1)). split_and!; try done.
      * unfold put_run. simpl. by rewrite insert_insert_eq.
      * by eapply history_checkpoint.
    + injection Hrun as <- <-. cbn [ex_duplicate]. exists rec, l1. split_and!; done.
  - injection Hrun as <- <-. rewrite Hc. exact Hsame.
Qed.

(** The same through [transact]. *)
Lemma transact_cases input adm (o o' : Store) js l r :
  mo_runs o !! input_run_id input = Some l -> history (EngineError := EngineError) g limits js l ->
  transact input adm o = (o', r) ->
  match r with
  | Err _ => o' = o
  | Ok e => if et_duplicate e then o' = o else
      exists rec l', o' = put_run (input_run_id input) l' o /\
        rc_input rec = input /\ rc_events rec = et_events e /\ rc_result rec = et_result e /\
        history (EngineError := EngineError) g limits (js ++ [rec]) l' /\
        commit (EngineError := EngineError) limits (core l) rec (core l')
  end.
Proof.
  intros Hl Hh. unfold transact. destruct (origin_execute_admitted input adm o) as [o1 [e|e]] eqn:Hx;
    pose proof (origin_execute_cases _ _ _ _ _ _ _ Hl Hh Hx) as Hc; intros [= <- <-]; exact Hc.
Qed.
End store.


(** ** The venue timer *)

Section timer.
Context `{HH : !Sha256} `{HS : !ScenarioCodec} `{HR : !RunCodec} `{HJ : !JournalCodec}.
Context (id iteration : Z) (sc : ScenarioDefinition) (g : RunState) (limits : RunLimits).
#[local] Notation Store := (InMemoryOrigin RunState) (only parsing).
#[local] Notation Active := RunLifecycle.Active.

Lemma service_read_live {T} (read : RunState -> T) (o : Store) js l :
  mo_runs o !! id = Some l -> history (EngineError := EngineError) g limits js l ->
  service_read id read o = (o, Ok (read (lr_state l))).
Proof.
  intros Hl Hh. destruct (history_ok _ _ _ _ Hh) as (c0 & _ & [_ [Hp _] _]).
  unfold service_read, read_run. rewrite Hl. cbn [ok_or mbind result_bind]. unfold live_state. by rewrite Hp.
Qed.

(** the venue timer leaves nothing due. For the run a store serves, the
    timer at [logical_time] either does nothing, and then the run is not
    active or nothing of it is due by then; or something was due, and the
    tick it commits leaves no scheduled action, session boundary, order
    expiry, open tender or open negotiation due at that time; or it fails
    and the store is exactly as before. *)
Theorem clock_tick_leaves_nothing_due (o o' : Store) js l logical_time adm r :
  scenario_typed sc -> from_scenario id iteration sc = Ok g ->
  history (EngineError := EngineError) g limits js l -> journal_typed js -> mo_runs o !! id = Some l ->
  execute_clock_tick id logical_time adm o = (o', r) ->
  match r with
  | Err _ => o' = o
  | Ok None => o' = o /\ (sim_lifecycle (rs_simulation (lr_state l)) <> Active \/ drained (lr_state l) logical_time)
  | Ok (Some e) => ~ drained (lr_state l) logical_time /\
      if et_duplicate e then o' = o else
      exists rec l', o' = put_run id l' o /\ drained (lr_state l') logical_time /\
        rc_input rec = InputSimulation (tick_request id logical_time (rs_sequence (lr_state l))) /\
        history (EngineError := EngineError) g limits (js ++ [rec]) l'
  end.
Proof.
  intros Hty Hg Hh Hjs Hl Hrun. unfold execute_clock_tick in Hrun.
  rewrite (bind_run _ _ _ _ _ (service_read_live _ o js l Hl Hh)) in Hrun. cbv beta iota in Hrun.
  destruct (negb _ || _) eqn:Hskip.
  { ret_inv Hrun. split; [done |]. apply orb_true_iff in Hskip as [Ha%negb_true_iff|Hd].
    - left. by apply bool_decide_eq_false in Ha.
    - right. intros due Hdue. rewrite Hdue in Hd. by apply Z.ltb_lt in Hd. }
  apply orb_false_iff in Hskip as [_ Hd].
  assert (Hnot : ~ drained (lr_state l) logical_time).
  { intros Hdr. destruct (next_due (lr_state l)) as [due|] eqn:Hn; [| done].
    pose proof (Hdr _ Hn). apply Z.ltb_ge in Hd. lia. }
  set (input := InputSimulation _) in Hrun. destruct (transact input (Some adm) o) as [o1 x] eqn:Hx.
  pose proof (transact_cases g limits input (Some adm) o o1 js l x Hl Hh Hx) as Hc.
  destruct x as [e|e]; unfold mbind, M_bind in Hrun; rewrite Hx in Hrun; [| injection Hrun as <- <-; exact Hc].
  ret_inv Hrun. split; [done |]. destruct (et_duplicate e); [done |].
  destruct Hc as (rec & l' & -> & Hin & _ & _ & Hh' & Hcom). exists rec, l'. split_and!; try done.
  destruct (history_ok _ _ _ _ Hh) as (c0 & _ & Hok%run_ok_commits).
  assert (Hr : reachable id iteration sc (lr_state l)).
  { eapply (commits_reachable id iteration sc limits (g, c0, ∅) (core l)); [exact Hok | done | by apply reach_start]. }
  destruct (reachable_ok id iteration sc _ Hty Hr) as (Hrok & _ & Hst).
  destruct (cm_apply _ _ _ _ Hcom) as (a & Ha & _). rewrite Hin in Ha.
  apply (tick_drains (tick_request id logical_time (rs_sequence (lr_state l))) (lr_state l) (lr_state l') a); done.
Qed.
End timer.

(** ** Authority *)

Section authority.
Context `{HH : !Sha256} `{HS : !ScenarioCodec} `{HR : !RunCodec} `{HJ : !JournalCodec}.
Context (id : Z) (g : RunState) (limits : RunLimits).
#[local] Notation Store := (InMemoryOrigin RunState) (only parsing).

(** Everything the service can be asked to do to a store: a command or a
    simulation request of an identity, and a poll of the venue timer. *)
Inductive ServiceCall : Type :=
  | ExecuteCall (identity : ActorIdentity) (command : Command) (admission : option AdmissionRecord)
  | SimulationCall (identity : ActorIdentity) (request : SimulationCommandRequest) (admission : option AdmissionRecord)
  | TickCall (run_id logical_time : Z) (admission : AdmissionRecord).
Definition service_call (c : ServiceCall) : M Store ApplicationError (option ExecutedTransaction) :=
  match c with
  | ExecuteCall identity command admission =>
      actor ← lift (try_from_identity identity);
      e ← service_execute actor command admission;
      mret (Some e)
  | SimulationCall identity request admission =>
      actor ← lift (try_from_identity identity);
      e ← service_execute_simulation actor request admission;
      mret (Some e)
  | TickCall run_id logical_time admission => execute_clock_tick run_id logical_time admission
  end.
Definition call_run (c : ServiceCall) : Z :=
  match c with
  | ExecuteCall _ command _ => cmd_run_id command
  | SimulationCall _ request _ => sr_run_id request
  | TickCall run_id _ _ => run_id
  end.
(** The calls of a sequence that were answered with a fresh transaction of
    the run, each with its answer, and the store they lead to. *)
Definition fresh (c : ServiceCall) (answer : result ApplicationError (option ExecutedTransaction))
    : list (ServiceCall * ExecutedTransaction) :=
  match answer with
  | Ok (Some e) => if negb (et_duplicate e) && (call_run c =? id) then [(c, e)] else []
  | _ => []
  end.
Fixpoint service_calls (cs : list ServiceCall) (o : Store) : Store * list (ServiceCall * ExecutedTransaction) :=
  match cs with
  | [] => (o, [])
  | c :: cs =>
      let '(o, answer) := service_call c o in
      let '(o, rest) := service_calls cs o in
      (o, fresh c answer ++ rest)
  end.

(** Whether [identity] may ask for the input: a participant for its own
    commands and actions, an operator for the round, nobody for a tick. *)
Definition asked_by (identity : ActorIdentity) (input : JournalInput) : Prop :=
  match input with
  | InputCommand c =>
      trades (ai_role identity) = true /\ ai_participant_id identity = Some (cmd_actor c) /\
      forall p, payload_participant (cmd_payload c) = Some p -> p = cmd_actor c
  | InputSimulation r =>
      is_tick (sr_payload r) = false /\
      if participant_action (sr_payload r)
      then trades (ai_role identity) = true /\ ai_participant_id identity = Some (sr_actor r)
      else operates (ai_role identity) = true /\ ai_participant_id identity = None
  end.
(** The record an answered call left: what its caller sent, which that
    caller may ask for, or the tick of the polled time, with the outcome
    the caller was told. *)
Definition written_for (answered : ServiceCall * ExecutedTransaction) (rec : CommandRecord) : Prop :=
  let '(c, e) := answered in
  rc_events rec = et_events e /\ rc_result rec = et_result e /\
  match c with
  | ExecuteCall identity command _ => rc_input rec = InputCommand command /\ asked_by identity (rc_input rec)
  | SimulationCall identity request _ => rc_input rec = InputSimulation request /\ asked_by identity (rc_input rec)
  | TickCall run_id logical_time _ =>
      exists sequence, rc_input rec = InputSimulation (tick_request run_id logical_time sequence)
  end.

Lemma try_from_identity_Ok identity actor :
  try_from_identity identity = Ok actor ->
  va_identity actor = identity /\ va_participant_id actor = ai_participant_id identity /\
  (operates (ai_role identity) = true -> ai_participant_id identity = None).
Proof. unfold try_from_identity. intros H. repeat case_match; simplify_eq; split_and!; done. Qed.

Lemma authorize_command_Ok identity actor c u :
  try_from_identity identity = Ok actor -> authorize_command actor c = Ok u -> asked_by identity (InputCommand c).
Proof.
  intros (Hi & Hp & _)%try_from_identity_Ok Ha. unfold authorize_command in Ha.
  apply result_bind_Ok in Ha as (p & Hs%ok_or_Ok & Ha). rewrite Hi in Ha. rewrite Hp in Hs.
  destruct (trades (ai_role identity)) eqn:Ht; [| done]. simpl in Ha.
  destruct (Z.eqb_spec (cmd_actor c) p) as [<-|]; [| done]. simpl in Ha. split_and!; [done | done |].
  intros q Hq. rewrite Hq in Ha. destruct (Z.eqb_spec q (cmd_actor c)); done.
Qed.
Lemma authorize_simulation_Ok identity actor r u :
  try_from_identity identity = Ok actor -> authorize_simulation_command actor r = Ok u ->
  asked_by identity (InputSimulation r).
Proof.
  intros (Hi & Hp & Hop)%try_from_identity_Ok Ha. unfold authorize_simulation_command in Ha. simpl.
  destruct (is_tick _); [done |]. split; [done |]. destruct (participant_action _).
  - apply result_bind_Ok in Ha as (p & Hs%ok_or_Ok & Ha). rewrite Hi in Ha. rewrite Hp in Hs.
    destruct (Z.eqb_spec (sr_actor r) p) as [<-|]; [| done]. by destruct (trades (ai_role identity)).
  - rewrite Hi in Ha. destruct (operates (ai_role identity)); [by split; [| apply Hop] | done].
Qed.

(** The store holds the run with that journal. *)
Definition holds (js : list CommandRecord) (o : Store) : Prop := exists l,
  mo_runs o !! id = Some l /\ history (EngineError := EngineError) g limits js l.

Lemma put_other k l (o : Store) : k <> id -> mo_runs (put_run k l o) !! id = mo_runs o !! id.
Proof. intros. simpl. by rewrite lookup_insert_ne. Qed.

Lemma transact_other input adm (o o' : Store) r :
  input_run_id input <> id -> transact input adm o = (o', r) -> mo_runs o' !! id = mo_runs o !! id.
Proof.
  intros Hne Hrun. unfold transact in Hrun.
  destruct (origin_execute_admitted _ _ _) as [o1 x] eqn:Hx. injection Hrun as <- _.
  unfold origin_execute_admitted in Hx. rewrite bind_gets in Hx. change (Datatypes.id o) with o in Hx.
  destruct (mo_runs o !! input_run_id input) as [lo|] eqn:Hlo; [| by injection Hx as <- _].
  rewrite (bind_lift _ _ _ lo) in Hx by done. destruct (execute_admitted input adm lo) as [l1 [[res|rec]|e]];
    rewrite bind_modify in Hx.
  - injection Hx as <- _. by apply put_other.
  - rewrite (bind_lift _ _ _ (Committed rec)) in Hx by done. destruct (needs_checkpoint l1).
    + destruct (checkpoint l1) as [l2 ck]. rewrite bind_assoc, bind_modify in Hx.
      destruct ck as [[]|e]; injection Hx as <- _; by rewrite !put_other.
    + injection Hx as <- _. by apply put_other.
  - injection Hx as <- _. by apply put_other.
Qed.

(** A transaction of the store extends the journal of the run by the record
    of its input, when it is of that run and fresh, and by nothing else. *)
Definition extends (js : list CommandRecord) (input : JournalInput) (o' : Store) (e : ExecutedTransaction) : Prop :=
  if negb (et_duplicate e) && (input_run_id input =? id) then
    exists rec, holds (js ++ [rec]) o' /\ rc_input rec = input /\ rc_events rec = et_events e /\ rc_result rec = et_result e
  else holds js o'.
Lemma transact_extends input adm (o o' : Store) js r :
  holds js o -> transact input adm o = (o', r) ->
  match r with Ok e => extends js input o' e | Err _ => holds js o' end.
Proof.
  intros (l & Hl & Hh) Hrun. unfold extends. destruct (Z.eqb_spec (input_run_id input) id) as [E|Hne].
  - rewrite <- E in Hl. pose proof (transact_cases g limits _ _ _ _ _ _ _ Hl Hh Hrun) as Hc. rewrite E in Hl.
    destruct r as [e|]; [| subst o'; by exists l]. destruct (et_duplicate e); simpl; [subst o'; by exists l |].
    destruct Hc as (rec & l' & -> & Hin & He & Hr & Hh' & _). exists rec. split_and!; try done. exists l'.
    split; [| done]. rewrite E. simpl. by rewrite lookup_insert_eq.
  - assert (holds js o') by (exists l; split; [by rewrite (transact_other _ _ _ _ _ Hne Hrun) | done]).
    destruct r as [e|]; [rewrite andb_false_r |]; done.
Qed.

Lemma lift_transact_extends {A} (auth : result ApplicationError A) input adm (o o' : Store) js r :
  holds js o -> (lift auth;; transact input adm) o = (o', r) ->
  match r with Ok e => (exists u, auth = Ok u) /\ extends js input o' e | Err _ => holds js o' end.
Proof.
  intros Ho Hrun. destruct auth as [u|e]; [| injection Hrun as <- <-; done].
  rewrite (bind_lift _ _ _ u) in Hrun by done. pose proof (transact_extends _ _ _ _ _ _ Ho Hrun) as H.
  destruct r; [split; [by exists u | exact H] | exact H].
Qed.

Lemma tick_extends run_id logical_time adm (o o' : Store) js r :
  holds js o -> execute_clock_tick run_id logical_time adm o = (o', r) ->
  match r with
  | Ok (Some e) => exists sequence, extends js (InputSimulation (tick_request run_id logical_time sequence)) o' e
  | _ => holds js o'
  end.
Proof.
  intros Ho Hx. unfold execute_clock_tick, service_read in Hx. unfold mbind, M_bind in Hx.
  destruct (read_run _ _ _) as [[[due active] sequence]|e]; [| by injection Hx as <- <-].
  destruct (_ || _); [by injection Hx as <- <- |].
  set (input := InputSimulation _) in Hx. destruct (transact input (Some adm) o) as [o2 x] eqn:Hxt.
  pose proof (transact_extends _ _ _ _ _ _ Ho Hxt) as H. destruct x; injection Hx as <- <-; [by exists sequence | done].
Qed.

Lemma bind_step {S E A B} (m : M S E A) (f : A -> M S E B) s s1 x :
  m s = (s1, x) -> (m ≫= f) s = match x with Ok a => f a s1 | Err e => (s1, Err e) end.
Proof. unfold mbind, M_bind. by intros ->. Qed.

(** One call: the records it adds are those written for it. *)
Definition writes (js : list CommandRecord) (c : ServiceCall) (r : result ApplicationError (option ExecutedTransaction)) (o' : Store) : Prop :=
  exists recs, holds (js ++ recs) o' /\ Forall2 written_for (fresh c r) recs.
Lemma nothing_writes js c r o' : fresh c r = [] -> holds js o' -> writes js c r o'.
Proof. intros Hf H. exists []. rewrite app_nil_r, Hf. done. Qed.
Lemma extends_writes js c input e o' :
  input_run_id input = call_run c -> extends js input o' e ->
  (forall rec, rc_input rec = input -> rc_events rec = et_events e -> rc_result rec = et_result e -> written_for (c, e) rec) ->
  writes js c (Ok (Some e)) o'.
Proof.
  intros Hi He Hw. unfold extends in He. unfold writes, fresh. rewrite Hi in He. destruct (_ && _).
  - destruct He as (rec & Hh & H1 & H2 & H3). exists [rec]. split; [done |]. constructor; [by apply Hw | done].
  - exists []. rewrite app_nil_r. done.
Qed.
Lemma request_writes {A} js c (auth : result ApplicationError A) input adm (o o' : Store) r :
  input_run_id input = call_run c -> holds js o ->
  (e ← (lift auth;; transact input adm); mret (Some e)) o = (o', r) ->
  (forall u e rec, auth = Ok u -> rc_input rec = input -> rc_events rec = et_events e -> rc_result rec = et_result e ->
     written_for (c, e) rec) ->
  writes js c r o'.
Proof.
  intros Hi Ho Hx Hw. destruct ((lift auth;; transact input adm) o) as [o1 x] eqn:Hxx.
  pose proof (lift_transact_extends _ _ _ _ _ _ _ Ho Hxx) as H. rewrite (bind_step _ _ _ _ _ Hxx) in Hx.
  destruct x as [e|e]; injection Hx as <- <-; [| by apply nothing_writes]. destruct H as [[u Hu] H].
  apply (extends_writes _ _ input); [done | done |]. intros rec. by apply (Hw u).
Qed.
Lemma service_call_writes c (o o' : Store) js r :
  holds js o -> service_call c o = (o', r) -> writes js c r o'.
Proof.
  intros Ho Hx. destruct c as [identity command adm|identity request adm|run_id lt adm]; cbn [service_call] in Hx.
  - destruct (try_from_identity identity) as [actor|e] eqn:Hi; [| injection Hx as <- <-; by apply nothing_writes].
    rewrite (bind_lift _ _ _ actor) in Hx by done.
    eapply (request_writes js _ (authorize_command actor command) (InputCommand command)); [done | exact Ho | exact Hx |].
    intros u e rec Hu H1 H2 H3. split_and!; try done. rewrite H1. by eapply authorize_command_Ok.
  - destruct (try_from_identity identity) as [actor|e] eqn:Hi; [| injection Hx as <- <-; by apply nothing_writes].
    rewrite (bind_lift _ _ _ actor) in Hx by done.
    eapply (request_writes js _ (authorize_simulation_command actor request) (InputSimulation request));
      [done | exact Ho | exact Hx |].
    intros u e rec Hu H1 H2 H3. split_and!; try done. rewrite H1. by eapply authorize_simulation_Ok.
  - pose proof (tick_extends _ _ _ _ _ _ _ Ho Hx) as H. destruct r as [[e|]|]; [| by apply nothing_writes..].
    destruct H as [sequence H]. apply (extends_writes js (TickCall run_id lt adm) (InputSimulation (tick_request run_id lt sequence)) e o'); [done | done |].
    intros rec H1 H2 H3. split_and!; try done. by exists sequence.
Qed.

(** C13: every committed input has its author. Whatever calls a service
    receives for the runs of its store, from whatever identities and in
    whatever order, with polls of the timer between them, the journal of a
    run that starts at its genesis is, record for record, the calls of that
    run that were answered with a fresh transaction: each holds exactly what
    its caller sent, with the outcome its caller was told, and that caller's
    own identity may ask for it (a participant only for commands and actions
    in its own name, an operator only for the round); a clock tick stands
    only for a poll of the timer, at the polled time. *)
Theorem every_committed_input_has_its_author cs (o o' : Store) l answered :
  LiveRun_genesis (EngineError := EngineError) g limits = Ok l -> mo_runs o !! id = Some l ->
  service_calls cs o = (o', answered) -> exists js l', mo_runs o' !! id = Some l' /\
    history (EngineError := EngineError) g limits js l' /\ Forall2 written_for answered js.
Proof.
  intros Hg Hl Hrun. assert (Ho : holds [] o) by (exists l; split; [done | by constructor]). clear l Hg Hl.
  assert (exists recs, holds ([] ++ recs) o' /\ Forall2 written_for answered recs) as (js & (l' & Hl & Hh) & Hw); [| by exists js, l'].
  revert Ho answered Hrun. generalize (@nil CommandRecord). revert o. induction cs as [|c cs IH]; intros o js Ho answered Hrun.
  { injection Hrun as <- <-. exists []. rewrite app_nil_r. done. }
  simpl in Hrun. destruct (service_call c o) as [o1 r] eqn:Hc. destruct (service_calls cs o1) as [o2 rest] eqn:Hrest.
  injection Hrun as <- <-. destruct (service_call_writes _ _ _ _ _ Ho Hc) as (recs & Ho1 & Hw).
  destruct (IH _ _ Ho1 _ Hrest) as (recs' & Ho2 & Hw'). exists (recs ++ recs'). rewrite app_assoc.
  split; [done | by apply Forall2_app].
Qed.
End authority.

(** ** The consolidated quote *)

(** The best visible level of one listing. *)
Definition top_level (s : RunState) (side : Side) (key : ListingKey) : option (Z * Z) :=
  ls ← rs_listings s !! key; head (depth (ls_book ls) side).

(** The best of the quotes of the listings in [seen]: no listing shows a
    better price, and of those that show the same price it is the first. *)
Definition best_quote (s : RunState) (side : Side) (seen : ListingKey -> Prop) (best : option (ListingKey * Z * Z)) : Prop :=
  match best with
  | None => forall k, seen k -> top_level s side k = None
  | Some (k, p, q) => seen k /\ top_level s side k = Some (p, q) /\
      forall k' p' q', seen k' -> top_level s side k' = Some (p', q') ->
        better side p p' = true \/ (p' = p /\ ord_le k k')
  end.

Lemma better_trans side a b c : better side a b = true -> better side b c = true -> better side a c = true.
Proof. destruct side; simpl; lia. Qed.
Lemma better_total side a b : better side a b = false -> a <> b -> better side b a = true.
Proof. destruct side; simpl; lia. Qed.

Lemma improve_best s side seen best key ls :
  rs_listings s !! key = Some ls -> best_quote s side seen best ->
  best_quote s side (fun k => k = key \/ seen k) (improve side best key (depth (ls_book ls) side)).
Proof.
  intros Hls Hb. assert (Htop : top_level s side key = head (depth (ls_book ls) side)).
  { unfold top_level. by rewrite Hls. }
  unfold improve. destruct (head (depth _ _)) as [[p q]|].
  2: { destruct best as [[[k0 p0] q0]|]; simpl in *.
       - destruct Hb as (Hs & Ht & Hall). split_and!; [by right | done |].
         intros k' p' q' [->|Hk'] Hp'; [congruence | by eapply Hall].
       - intros k [->|Hk]; [done | by apply Hb]. }
  destruct best as [[[k0 p0] q0]|]; simpl in Hb.
  - destruct Hb as (Hs & Ht & Hall).
    destruct (better side p p0 || _) eqn:Hw.
    + split_and!; [by left | done |]. intros k' p' q' [->|Hk'] Hp'.
      { right. rewrite Htop in Hp'. injection Hp' as <- <-. split; [done | apply ord_le_refl]. }
      apply orb_true_iff in Hw as [Hw|[->%Z.eqb_eq Hlt%bool_decide_eq_true]%andb_true_iff];
        destruct (Hall _ _ _ Hk' Hp') as [Hb|[-> Hle]].
      * left. by eapply better_trans.
      * by left.
      * by left.
      * right. split; [done |]. etrans; [apply Hlt | done].
    + apply orb_false_iff in Hw as [Hw Ht2]. split_and!; [by right | done |].
      intros k' p' q' [->|Hk'] Hp'; [| by eapply Hall]. rewrite Htop in Hp'. injection Hp' as <- <-.
      destruct (Z.eqb_spec p p0) as [->|Hne]; [| left; by apply better_total].
      right. split; [done |]. simpl in Ht2. apply bool_decide_eq_false in Ht2.
      destruct (total ord_le k0 key) as [|Hle]; [done |].
      destruct (decide (key = k0)) as [->|]; [done |]. exfalso. by apply Ht2.
  - split_and!; [by left | done |]. intros k' p' q' [->|Hk'] Hp'.
    + right. rewrite Htop in Hp'. injection Hp' as <- <-. split; [done | apply ord_le_refl].
    + rewrite (Hb _ Hk') in Hp'. done.
Qed.

Lemma best_quote_ext s side (P Q : ListingKey -> Prop) best :
  (forall k, P k <-> Q k) -> best_quote s side P best -> best_quote s side Q best.
Proof.
  intros HPQ. destruct best as [[[k p] q]|]; simpl.
  - intros (Hk & Ht & Hall). split_and!; [by apply HPQ | done |]. intros k' p' q' Hk'%HPQ. by apply Hall.
  - intros Hall k Hk%HPQ. by apply Hall.
Qed.

Lemma consolidate_best s i ks found bid ask (seen : ListingKey -> Prop) :
  (forall k, k ∈ ks -> is_Some (rs_listings s !! k)) ->
  best_quote s Buy seen bid -> best_quote s Sell seen ask -> (found = true <-> exists k, seen k) ->
  exists found' bid' ask', consolidate s i ks found bid ask = Ok (found', bid', ask') /\
    let seen' k := seen k \/ (k ∈ ks /\ lk_instrument_id k = i) in
    best_quote s Buy seen' bid' /\ best_quote s Sell seen' ask' /\ (found' = true <-> exists k, seen' k).
Proof.
  revert found bid ask seen. induction ks as [|key ks IH]; intros found bid ask seen Hin Hb Ha Hf.
  - exists found, bid, ask. split; [done |]. cbv zeta.
    assert (He : forall k, seen k <-> seen k \/ (k ∈ ([] : list ListingKey) /\ lk_instrument_id k = i)) by set_solver.
    split_and!; [exact (best_quote_ext _ _ _ _ _ He Hb) | exact (best_quote_ext _ _ _ _ _ He Ha) |]. rewrite Hf. by setoid_rewrite <- He.
  - cbn [consolidate]. destruct (Z.eqb_spec (lk_instrument_id key) i) as [Hi|Hi]; simpl negb; cbv iota.
    + destruct (Hin key ltac:(left)) as [ls Hls]. unfold visible_levels. rewrite Hls. cbn [ok_or mbind result_bind map_error].
      destruct (IH true (improve Buy bid key (depth (ls_book ls) Buy)) (improve Sell ask key (depth (ls_book ls) Sell))
        (fun k => k = key \/ seen k)) as (f' & b' & a' & Hrun & Hb' & Ha' & Hf').
      * intros k Hk. apply Hin. by right.
      * by apply improve_best.
      * by apply improve_best.
      * split; [intros _; exists key; by left | done].
      * exists f', b', a'. split; [done |]. cbv zeta.
        assert (He : forall k, ((k = key \/ seen k) \/ (k ∈ ks /\ lk_instrument_id k = i)) <->
          (seen k \/ (k ∈ key :: ks /\ lk_instrument_id k = i))) by set_solver.
        split_and!; [exact (best_quote_ext _ _ _ _ _ He Hb') | exact (best_quote_ext _ _ _ _ _ He Ha') |]. rewrite Hf'. by setoid_rewrite He.
    + destruct (IH found bid ask seen) as (f' & b' & a' & Hrun & Hb' & Ha' & Hf'); try done.
      { intros k Hk. apply Hin. by right. }
      exists f', b', a'. split; [done |]. cbv zeta.
      assert (He : forall k, (seen k \/ (k ∈ ks /\ lk_instrument_id k = i)) <->
        (seen k \/ (k ∈ key :: ks /\ lk_instrument_id k = i))) by set_solver.
      split_and!; [exact (best_quote_ext _ _ _ _ _ He Hb') | exact (best_quote_ext _ _ _ _ _ He Ha') |]. rewrite Hf'. by setoid_rewrite He.
Qed.

(** the consolidated quote is the best quote of the run. For an
    instrument with a listing, [project_consolidated_bbo] returns on each
    side the best visible level over all of its listings (of equal prices
    the one of the smallest listing key), or nothing when no listing shows
    one; it fails only for an instrument that no listing carries. *)
Theorem consolidated_bbo_is_best s i :
  let carries k := is_Some (rs_listings s !! k) /\ lk_instrument_id k = i in
  match project_consolidated_bbo s i with
  | Ok b => bb_run_id b = rs_run_id s /\ bb_instrument_id b = i /\ bb_sequence b = rs_sequence s /\
      (exists k, carries k) /\ best_quote s Buy carries (bb_bid b) /\ best_quote s Sell carries (bb_ask b)
  | Err e => e = ApplicationError.UnknownInstrument /\ ~ exists k, carries k
  end.
Proof.
  intros carries. unfold project_consolidated_bbo.
  destruct (consolidate_best s i (keys (rs_listings s)) false None None (fun _ => False))
    as (f & b & a & Hrun & Hb & Ha & Hf).
  { intros k Hk. by apply elem_of_keys in Hk. }
  { by intros k []. }
  { by intros k []. }
  { split; [done |]. by intros [k []]. }
  rewrite Hrun. cbn [mbind result_bind]. cbv zeta in Hb, Ha, Hf.
  assert (He : forall k, (False \/ (k ∈ keys (rs_listings s) /\ lk_instrument_id k = i)) <-> carries k).
  { intros k. unfold carries. rewrite elem_of_keys. tauto. }
  setoid_rewrite He in Hf. destruct f; simpl.
  - split_and!; try done; [by apply Hf | exact (best_quote_ext _ _ _ _ _ He Hb) | exact (best_quote_ext _ _ _ _ _ He Ha)].
  - split; [done |]. intros Hc%Hf. done.
Qed.

(** ** Samples *)

Module SampleService.
Import SampleRun SampleVenue.
Import (hints) SampleRun SampleVenue.
Definition rested : LiveRun RunState := step (submit_at 3 30 bid) bought.
Definition rested_journal : list CommandRecord := journal ++ [record_of (submit_at 3 30 bid) bought].
Definition store (l : LiveRun RunState) : InMemoryOrigin RunState := mkInMemoryOrigin {[ 7 := l ]} RunLimits_default.
Definition seller : ActorIdentity := mkActorIdentity 1 ActorRole.Participant (Some 1) None.
Definition selling : Command := mkCommand 7 1 1 10 0 1 (PSubmitOrder sell).
Definition administrator : ActorIdentity := mkActorIdentity 9 ActorRole.Administrator None None.
Definition pausing : SimulationCommandRequest := mkSimulationCommandRequest 7 40 40 50 1 9 PauseRun.
Definition admission : AdmissionRecord := mkAdmissionRecord 0 None RttSource.None_ Hub 0 None 0 0.
End SampleService.

Section service_witnesses.
Import SampleRun SampleVenue SampleService.
Import (hints) SampleRun SampleVenue.

Lemma rested_history : history (EngineError := EngineError) genesis RunLimits_default rested_journal rested.
Proof.
  apply (history_commit _ _ journal bought (submit_at 3 30 bid) None); [exact sample_journal_history |].
  apply sample_commit. vm_compute. reflexivity.
Qed.
Lemma rested_journal_typed : journal_typed rested_journal.
Proof.
  apply Forall_cons. split; [| apply Forall_cons; split; [| apply Forall_cons; split; [| apply Forall_nil; done]]].
  - change (input_typed (submit_at 1 10 sell)). apply sample_order_typed; simpl; lia.
  - change (input_typed (submit_at 2 20 buy)). apply sample_order_typed; simpl; lia.
  - change (input_typed (submit_at 3 30 bid)). apply sample_order_typed; simpl; lia.
Qed.

Definition ticked : bool :=
  match snd (execute_clock_tick 7 100 admission (store rested)) with
  | Ok (Some e) => negb (et_duplicate e)
  | _ => false
  end.
Lemma clock_tick_leaves_nothing_due_witness :
  next_due (lr_state rested) = Some 90 /\
  exists l', fst (execute_clock_tick 7 100 admission (store rested)) = put_run 7 l' (store rested) /\
    drained (lr_state l') 100.
Proof.
  split; [vm_compute; reflexivity |]. assert (Hok : ticked = true) by (vm_compute; reflexivity).
  unfold ticked in Hok. destruct (execute_clock_tick 7 100 admission (store rested)) as [o' r] eqn:Hx. cbn [snd fst] in Hok |- *.
  pose proof (clock_tick_leaves_nothing_due 7 1 scenario genesis RunLimits_default (store rested) o' rested_journal
    rested 100 admission r sample_typed sample_genesis rested_history rested_journal_typed eq_refl Hx) as H.
  destruct r as [[e|]|]; [| discriminate Hok | discriminate Hok]. destruct H as [_ H].
  apply negb_true_iff in Hok. rewrite Hok in H.
  destruct H as (rec & l' & -> & Hd & _). exists l'. exact (conj eq_refl Hd).
Defined.

(** The seller's own order, the same order asked for by a stranger and by an
    administrator, a pause asked for by the seller and by the administrator,
    and a poll of the timer. *)
Definition service_sample : list ServiceCall := [
  ExecuteCall (mkActorIdentity 3 ActorRole.Participant (Some 2) None) selling None;
  ExecuteCall administrator selling None; ExecuteCall seller selling None;
  SimulationCall seller pausing None; SimulationCall administrator pausing None; TickCall 7 100 admission].
Definition service_answered := service_calls 7 service_sample (store started).
Lemma every_committed_input_has_its_author_witness :
  (fst <$> service_answered.2) = [ExecuteCall seller selling None; SimulationCall administrator pausing None] /\
  exists js l', mo_runs service_answered.1 !! 7 = Some l' /\
    history (EngineError := EngineError) genesis RunLimits_default js l' /\ Forall2 written_for service_answered.2 js.
Proof.
  split; [vm_compute; reflexivity |].
  apply (every_committed_input_has_its_author 7 genesis RunLimits_default service_sample (store started) _ started);
    [vm_compute; reflexivity | reflexivity |].
  exact (surjective_pairing service_answered).
Defined.
End service_witnesses.
