(* ===== verification/Competition.v ===== *)
(** * bunting-application: competition projections

    Models [packages/bunting-application/src/competition.rs]: what an actor
    may see of a run, and its private views.  Deny by default: a view names
    the authenticated participant or fails. *)

From S2P Require Import Prelude Ordered MarketTypes MarketEvents Ledger Risk Simulation Scenario Engine Application.
From Stdlib Require Import Ascii.
#[local] Open Scope list_scope.

(** ** Visibility *)

(** [fn is_operator] *)
Definition is_operator (actor : VerifiedActor) : bool := operates (ai_role (va_identity actor)).
(** [fn tender_visible] *)
Definition tender_visible (tender : TenderState) (actor : VerifiedActor) : bool :=
  is_operator actor || bool_decide (va_participant_id actor = Some (td_participant_id tender)).
(** [fn negotiation_visible] *)
Definition negotiation_visible (otc : OtcState) (actor : VerifiedActor) : bool :=
  is_operator actor
  || match va_participant_id actor with
     | Some id => (id =? oc_proposer_id otc) || (id =? oc_counterparty_id otc)
     | None => false
     end.
(** [str::eq_ignore_ascii_case] *)
Definition ascii_lower (c : ascii) : ascii :=
  let n := nat_of_ascii c in
  if ((65 <=? n) && (n <=? 90))%nat then ascii_of_nat (n + 32) else c.
Definition eq_ignore_ascii_case (a b : string) : bool :=
  bool_decide ((ascii_lower <$> String.list_ascii_of_string a) = (ascii_lower <$> String.list_ascii_of_string b)).
(** [fn news_visible] *)
Definition news_visible (audience : NewsAudience) (actor : VerifiedActor) : bool :=
  match audience with
  | Public => true
  | AudienceParticipant participant => bool_decide (va_participant_id actor = Some participant)
  | Team team => bool_decide (ai_team_id (va_identity actor) = Some team)
  | Role role => eq_ignore_ascii_case (role_str (ai_role (va_identity actor))) role
  end.

(** ** Deals of a batch *)

Record DealChanges : Type := mkDealChanges {
  dl_tenders : list TenderState;
  dl_negotiations : list OtcState
}.
(** [DealChanges::is_empty] *)
Definition deal_changes_empty (c : DealChanges) : bool :=
  bool_decide (length (dl_tenders c) = 0%nat) && bool_decide (length (dl_negotiations c) = 0%nat).
(** [fn deal_changes] *)
Definition tender_change (s : RunState) (event : EventEnvelope) : option TenderState :=
  match ev_payload event with
  | Simulation (TenderChanged tender_id _) => sim_tenders (rs_simulation s) !! tender_id
  | _ => None
  end.
Definition otc_change (s : RunState) (event : EventEnvelope) : option OtcState :=
  match ev_payload event with
  | Simulation (OtcChanged negotiation_id _) => sim_otc (rs_simulation s) !! negotiation_id
  | _ => None
  end.
Definition deal_changes (s : RunState) (events : list EventEnvelope) : DealChanges :=
  mkDealChanges (omap (tender_change s) events) (omap (otc_change s) events).

(** ** Views *)

Record CompetitionPolicies : Type := mkCompetitionPolicies {
  cp_pnl : string;
  cp_commission : string;
  cp_news : string;
  cp_tender : string;
  cp_risk : string;
  cp_fine : string;
  cp_score : string
}.
(** [fn competition_policies] *)
Definition competition_policies : CompetitionPolicies :=
  mkCompetitionPolicies "bunting.pnl.v1" "bunting.commission.listing-per-lot.v1" "bunting.news.audience.v1"
    "bunting.tender.house-settled-fixed-price.v1" "bunting.risk.scenario-limits.v1" "bunting.fine.explicit-cash.v1"
    "bunting.score.nlv-last-trade-rank.v2".

Record DiscoveryView : Type := mkDiscoveryView {
  dv_run_id : Z;
  dv_scenario_id : Z;
  dv_scenario_version : Z;
  dv_committed_sequence : Z;
  dv_lifecycle : RunLifecycle.RunLifecycle;
  dv_logical_time : Z;
  dv_listings : list (Z * string);
  dv_policies : CompetitionPolicies
}.
(** [fn discovery] *)
Definition discovery (s : RunState) : DiscoveryView :=
  mkDiscoveryView (rs_run_id s) (rs_scenario_id s) (rs_scenario_version s) (rs_sequence s)
    (sim_lifecycle (rs_simulation s)) (ck_now (sim_clock (rs_simulation s)))
    ((fun l => (lk_instrument_id (ld_key (ls_definition l)), ld_symbol (ls_definition l))) <$> values (rs_listings s))
    competition_policies.

Record HoldingView : Type := mkHoldingView {
  hv_instrument_id : Z;
  hv_position : Z;
  hv_reserved : Z;
  hv_open_buy : Z;
  hv_open_sell : Z;
  hv_realized_pnl : Z;
  hv_unrealized_pnl : Z;
  hv_cost_basis : Z;
  hv_mark : option Z
}.
Record CashView : Type := mkCashView {
  cw_currency_id : Z;
  cw_balance : Z;
  cw_reserved : Z;
  cw_fees : Z
}.
Record AccountView : Type := mkAccountView {
  av_participant_id : Z;
  av_committed_sequence : Z;
  av_cash : list CashView;
  av_holdings : list HoldingView;
  av_reporting_currency : Z;
  av_net_liquidation_value : Z;
  av_policies : CompetitionPolicies
}.
(** One holding of [fn account]. *)
Definition holding (l : Ledger) (participant instrument : Z) : result ApplicationError HoldingView :=
  let p := position l participant instrument in
  unrealized ← map_err (fun _ => ApplicationError.InvalidIdentity) (unrealized_pnl l participant instrument);
  Ok (mkHoldingView instrument (pos_quantity p) (pos_reserved p) (pos_open_buy p) (pos_open_sell p) (pos_realized_pnl p)
        unrealized (pos_cost_basis p) (mark l instrument)).
(** [fn account] *)
Definition account (s : RunState) (actor : VerifiedActor) : result ApplicationError AccountView :=
  participant ← ok_or (va_participant_id actor) ApplicationError.Unauthorized;
  if negb (bool_decide (is_Some (rs_participants s !! participant))) then Err ApplicationError.Unauthorized
  else
    let l := rs_ledger s in
    let cash := (fun e => mkCashView e.1 (cb_balance e.2) (cb_reserved e.2) (cb_fees e.2)) <$> cash_balances l participant in
    holdings ← collect_results (holding l participant) (keys (rs_instruments s));
    nlv ← map_err (fun _ => ApplicationError.InvalidIdentity) (run_net_liquidation_value s participant);
    Ok (mkAccountView participant (rs_sequence s) cash holdings (rs_reporting_currency s) nlv competition_policies).

Record NewsTenderView : Type := mkNewsTenderView {
  nv_committed_sequence : Z;
  nv_news : list NewsItem;
  nv_tenders : list TenderState;
  nv_policies : CompetitionPolicies
}.
(** [fn news_tenders] *)
Definition news_tenders (s : RunState) (actor : VerifiedActor) : result ApplicationError NewsTenderView :=
  Ok (mkNewsTenderView (rs_sequence s)
        (filter (fun item => news_visible (nw_audience item) actor = true) (sim_news (rs_simulation s)))
        (filter (fun tender => ai_role (va_identity actor) = ActorRole.Administrator \/
                   ai_role (va_identity actor) = ActorRole.Instructor \/
                   va_participant_id actor = Some (td_participant_id tender)) (values (sim_tenders (rs_simulation s))))
        competition_policies).

Record RiskScoreView : Type := mkRiskScoreView {
  rv_participant_id : Z;
  rv_committed_sequence : Z;
  rv_limits : RiskLimits;
  rv_latest_score : option ScoreEntry;
  rv_policies : CompetitionPolicies
}.
(** [fn risk_score] *)
Definition risk_score (s : RunState) (actor : VerifiedActor) : result ApplicationError RiskScoreView :=
  participant ← ok_or (va_participant_id actor) ApplicationError.Unauthorized;
  definition ← ok_or (rs_participants s !! participant) ApplicationError.Unauthorized;
  let latest :=
    report ← last (sim_reports (rs_simulation s));
    snd <$> list_find (fun entry => se_participant_id entry = participant) (ir_entries report) in
  Ok (mkRiskScoreView participant (rs_sequence s) (pd_limits definition) latest competition_policies).
