(* ===== verification/RunClock.v ===== *)
(** * bunting-server: the run clock and its timer

    Models [apps/bunting-server/src/run_clock.rs]: the mapping of venue time
    to run time, the stamps released inputs get, and the loop of the timer
    that ticks a run when something falls due.  The products on [u128] wrap,
    as the release profile compiles them. *)

From S2P Require Import Prelude Ordered MarketTypes MarketEvents Digest Book Latency Transition.
From S2P Require Import Simulation Scenario Engine EngineFrame Origin OriginTheorems FixMapping Application.
From S2P Require Import EngineTheorems Venue ApplicationTheorems.
#[local] Open Scope list_scope.

(** ** The view of a run *)

Record ClockView : Type := mkClockView {
  cv_now : Z;
  cv_step_ns : Z;
  cv_mode : ClockMode;
  cv_active : bool
}.
(** [ClockView::of] *)
Definition ClockView_of (s : RunState) : ClockView :=
  let clock := sim_clock (rs_simulation s) in
  mkClockView (ck_now clock) (ck_step_ns clock) (ck_mode clock)
    (bool_decide (sim_lifecycle (rs_simulation s) = RunLifecycle.Active)).
(** [ClockView::pace] *)
Definition pace (view : ClockView) : option (Z * Z) :=
  match cv_mode view with
  | Paced step_interval_ns =>
      if cv_active view && (0 <? cv_step_ns view) && (0 <? step_interval_ns)
      then Some (cv_step_ns view, step_interval_ns) else None
  | _ => None
  end.

(** ** Anchors *)

Record Anchor : Type := mkAnchor {
  an_run_ns : Z;
  an_venue_us : Z;
  an_pace : Z * Z
}.
(** [saturating_sub] and [div_ceil] of unsigned types, and
    [u64::try_from(..).unwrap_or(u64::MAX)] *)
Definition saturating_sub (a b : Z) : Z := Z.max 0 (a - b).
Definition div_ceil (a b : Z) : Z := (a + b - 1) / b.
Definition to_u64 (z : Z) : Z := default (int_max U64) (checked U64 z).
(** [Anchor::run_at] *)
Definition run_at (a : Anchor) (venue_us : Z) : Z :=
  let '(step, interval) := an_pace a in
  let elapsed_ns := wrapping_mul U128 (saturating_sub venue_us (an_venue_us a)) 1000 in
  let run := wrapping_mul U128 elapsed_ns step / interval in
  saturating_add U64 (an_run_ns a) (to_u64 run).
(** [Anchor::venue_at] *)
Definition venue_at (a : Anchor) (run_ns : Z) : Z :=
  let '(step, interval) := an_pace a in
  let ahead := saturating_sub run_ns (an_run_ns a) in
  let venue_ns := div_ceil (wrapping_mul U128 ahead interval) step in
  saturating_add U64 (an_venue_us a) (to_u64 (div_ceil venue_ns 1000)).

(** ** The clock *)

(** The anchors behind a mutex, which a panicking thread leaves poisoned. *)
Record RunClock : Type := mkRunClock {
  rk_anchors : gmap Z Anchor;
  rk_poisoned : bool
}.
Definition RunClock_default : RunClock := mkRunClock ∅ false.
Definition with_anchors (anchors : gmap Z Anchor) (clock : RunClock) : RunClock :=
  mkRunClock anchors (rk_poisoned clock).
(** [fn current] *)
Definition current (anchors : gmap Z Anchor) (run_id : Z) (view : ClockView) (pace : Z * Z) (venue_us : Z)
    : gmap Z Anchor * Anchor :=
  let fresh := mkAnchor (cv_now view) venue_us pace in
  let anchor := default fresh (anchors !! run_id) in
  let anchor := if negb (bool_decide (an_pace anchor = pace)) || (venue_us <? an_venue_us anchor)
                   || (run_at anchor venue_us <? cv_now view)
                then fresh else anchor in
  (<[run_id := anchor]> anchors, anchor).
(** [RunClock::stamp] *)
Definition stamp (clock : RunClock) (run_id : Z) (view : ClockView) (venue_us : Z) : RunClock * Z :=
  if rk_poisoned clock then (clock, cv_now view)
  else match pace view with
       | None => (with_anchors (delete run_id (rk_anchors clock)) clock, cv_now view)
       | Some pace =>
           let '(anchors, anchor) := current (rk_anchors clock) run_id view pace venue_us in
           (with_anchors anchors clock, run_at anchor venue_us)
       end.
(** [RunClock::peek] *)
Definition peek (clock : RunClock) (run_id : Z) (view : ClockView) (venue_us : Z) : Z :=
  match pace view with
  | None => cv_now view
  | Some pace =>
      if rk_poisoned clock then cv_now view
      else match rk_anchors clock !! run_id with
           | Some anchor =>
               if bool_decide (an_pace anchor = pace) && (an_venue_us anchor <=? venue_us)
               then Z.max (run_at anchor venue_us) (cv_now view) else cv_now view
           | None => cv_now view
           end
  end.
(** [RunClock::venue_instant] *)
Definition venue_instant (clock : RunClock) (run_id : Z) (view : ClockView) (at_ now_us : Z)
    : RunClock * option Z :=
  match pace view with
  | None => (clock, None)
  | Some pace =>
      if rk_poisoned clock then (clock, None)
      else let '(anchors, anchor) := current (rk_anchors clock) run_id view pace now_us in
           (with_anchors anchors clock, Some (venue_at anchor at_))
  end.

(** ** Ticks *)

(** [JobContext::tick_time] of a job released at [release_us], for the run
    the store serves. *)
Definition tick_time (clock : RunClock) (run_id release_us : Z) (s : RunState) : RunClock * Z :=
  let view := ClockView_of s in
  let '(clock, at_) := stamp clock run_id view release_us in
  (clock, match night_until s, pace view with
          | Some night, Some _ => Z.max at_ night
          | _, _ => at_
          end).

(** The variables of [run_timer]'s loop. *)
Record Timer : Type := mkTimer {
  tm_queued : option Z;
  tm_skipped : option Z
}.
Definition TIMER_POLL_US : Z := 5000.
(** One iteration of [run_timer]: the instants it schedules ticks for. *)
Definition timer_skips (view : ClockView) (t : Timer) (s : RunState) : option Z :=
  night ← night_until s;
  _ ← pace view;
  if bool_decide (tm_skipped t = Some night) then None else Some night.
Definition timer_queues (t : Timer) (now_us at_ : Z) : bool :=
  (at_ <=? saturating_add U64 now_us TIMER_POLL_US)
  && match tm_queued t with
     | None => true
     | Some queued => negb (queued =? at_) || (queued <? now_us)
     end.
Definition timer_poll (clock : RunClock) (run_id : Z) (t : Timer) (s : RunState) (now_us : Z) : RunClock * Timer * list Z :=
  let view := ClockView_of s in
  let '(t, nights) := match timer_skips view t s with
                      | Some night => (mkTimer (tm_queued t) (Some night), [now_us])
                      | None => (t, [])
                      end in
  let '(clock, at_) := match next_due s with
                       | Some due => venue_instant clock run_id view due now_us
                       | None => (clock, None)
                       end in
  match at_ with
  | Some at_ => if timer_queues t now_us at_ then (clock, mkTimer (Some at_) (tm_skipped t), nights ++ [at_])
                else (clock, t, nights)
  | None => (clock, t, nights)
  end.

(** [fn tick_task], released at [release_us] *)
Definition tick_task `{Sha256} `{ScenarioCodec} `{RunCodec} `{JournalCodec} (clock : RunClock) (run_id release_us : Z)
    (admission : AdmissionRecord) (o : InMemoryOrigin RunState)
    : RunClock * InMemoryOrigin RunState * option ApplicationError :=
  match service_read run_id (tick_time clock run_id release_us) o with
  | (o, Ok (clock, logical_time)) =>
      let '(o, outcome) := execute_clock_tick run_id logical_time admission o in
      (clock, o, match outcome with Ok _ => None | Err e => Some e end)
  | (o, Err e) => (clock, o, Some e)
  end.

(** ** Theorems *)

Lemma div_ceil_le a b c : 0 < b -> div_ceil a b <= c <-> a <= b * c.
Proof.
  intros Hb. unfold div_ceil. split; intros H.
  - pose proof (Z.div_mod (a + b - 1) b ltac:(lia)). pose proof (Z.mod_pos_bound (a + b - 1) b Hb). nia.
  - pose proof (Z.div_mod (a + b - 1) b ltac:(lia)). pose proof (Z.mod_pos_bound (a + b - 1) b Hb).
    assert ((a + b - 1) / b < c + 1) by (apply Z.div_lt_upper_bound; nia). lia.
Qed.
Lemma div_ceil_nonneg a b : 0 <= a -> 0 < b -> 0 <= div_ceil a b.
Proof. intros. unfold div_ceil. apply Z.div_pos; lia. Qed.
Lemma le_div a b c : 0 < b -> c <= a / b <-> b * c <= a.
Proof.
  intros Hb. split; [intros H | by apply Z.div_le_lower_bound].
  pose proof (Z.mul_div_le a b Hb). nia.
Qed.
Lemma wrap_small t z : 0 <= z <= int_max t -> wrap t z = z.
Proof. intros H. unfold wrap. apply Z.mod_small. lia. Qed.
Lemma to_u64_min z : 0 <= z -> to_u64 z = Z.min z (int_max U64).
Proof.
  intros Hz. unfold to_u64. destruct (checked U64 z) as [w|] eqn:Hc.
  - apply checked_Some in Hc as [-> [_ Hr]]. simpl default. lia.
  - simpl default. apply checked_None in Hc. unfold int_min in Hc. lia.
Qed.

(** The fields of an anchor at their widths, with a pace [pace] returns. *)
Record anchor_ok (a : Anchor) : Prop := {
  ao_run : 0 <= an_run_ns a <= int_max U64;
  ao_venue : 0 <= an_venue_us a <= int_max U64;
  ao_step : 0 < (an_pace a).1 <= int_max U64;
  ao_interval : 0 < (an_pace a).2 <= int_max U64
}.
(** The products of [run_at] fit in 128 bits up to [venue_us]. *)
Definition within (a : Anchor) (venue_us : Z) : Prop :=
  1000 * (venue_us - an_venue_us a) * (an_pace a).1 <= int_max U128.

Lemma run_at_value a v :
  anchor_ok a -> an_venue_us a <= v -> within a v ->
  run_at a v = Z.min (an_run_ns a + 1000 * (v - an_venue_us a) * (an_pace a).1 / (an_pace a).2) (int_max U64).
Proof.
  intros [Hr Hv Hs Hi] Hle Hw. unfold run_at, within in *. destruct (an_pace a) as [step interval]. simpl in *.
  unfold saturating_sub, wrapping_mul, saturating_add. rewrite Z.max_r by lia.
  set (d := v - an_venue_us a) in *. assert (Hd : 0 <= d) by lia.
  rewrite (wrap_small U128 (d * 1000)) by nia. replace (d * 1000 * step) with (1000 * d * step) by lia.
  rewrite (wrap_small U128) by nia. rewrite to_u64_min by (apply Z.div_pos; nia). lia.
Qed.
Lemma run_at_mono a v w : anchor_ok a -> an_venue_us a <= v <= w -> within a w -> run_at a v <= run_at a w.
Proof.
  intros Ha Hv Hw. pose proof Ha as [Hr Hve Hs Hi]. rewrite !run_at_value; try done; try lia.
  2: unfold within in *; nia.
  assert (1000 * (v - an_venue_us a) * (an_pace a).1 / (an_pace a).2 <=
          1000 * (w - an_venue_us a) * (an_pace a).1 / (an_pace a).2) by (apply Z.div_le_mono; nia). lia.
Qed.

(** [venue_at] is the first microsecond at which run time reaches its
    argument. *)
Lemma venue_at_first a run_ns v :
  anchor_ok a -> 0 <= run_ns <= int_max U64 -> an_venue_us a <= v < int_max U64 -> within a v ->
  run_ns <= run_at a v <-> venue_at a run_ns <= v.
Proof.
  intros Ha Hn Hv Hw. pose proof Ha as [Hr Hve Hs Hi]. rewrite run_at_value by (done || lia). unfold venue_at, within in *.
  destruct (an_pace a) as [step interval] eqn:Hp. simpl in *. unfold saturating_sub, wrapping_mul, saturating_add.
  set (ahead := Z.max 0 (run_ns - an_run_ns a)). assert (Hah : 0 <= ahead <= int_max U64) by lia.
  rewrite (wrap_small U128) by (change (int_max U128) with ((int_max U64 + 1) * (int_max U64 + 1) - 1); nia).
  assert (Hnn : 0 <= div_ceil (ahead * interval) step) by (apply div_ceil_nonneg; nia).
  rewrite to_u64_min by (apply div_ceil_nonneg; lia).
  set (wait := div_ceil (div_ceil (ahead * interval) step) 1000).
  set (d := v - an_venue_us a). set (gone := 1000 * d * step / interval).
  assert (Hgone : 0 <= gone) by (apply Z.div_pos; nia).
  assert (Hkey : ahead <= gone <-> wait <= d).
  { unfold wait, gone. rewrite le_div, div_ceil_le, div_ceil_le by lia.
    replace (interval * ahead) with (ahead * interval) by lia. replace (step * (1000 * d)) with (1000 * d * step) by lia. done. }
  lia.
Qed.

Definition clock_ok (clock : RunClock) : Prop := map_Forall (fun _ a => anchor_ok a) (rk_anchors clock).
(** The fields of a view at their widths. *)
Record view_ok (view : ClockView) : Prop := {
  vo_now : 0 <= cv_now view <= int_max U64;
  vo_step : cv_step_ns view <= int_max U64;
  vo_mode : match cv_mode view with Paced interval => interval <= int_max U64 | _ => True end
}.
Lemma pace_ok view p :
  view_ok view -> pace view = Some p ->
  p.1 = cv_step_ns view /\ 0 < p.1 <= int_max U64 /\ 0 < p.2 <= int_max U64 /\ cv_active view = true.
Proof.
  intros [Hn Hs Hm]. unfold pace. destruct (cv_mode view) as [| |interval]; try done.
  destruct (_ && _) eqn:Hc; [| done]. intros [= <-]. simpl. apply andb_true_iff in Hc as [[Ha Hst]%andb_true_iff Hi].
  split_and!; done || lia.
Qed.

Lemma run_at_anchor a : anchor_ok a -> run_at a (an_venue_us a) = an_run_ns a.
Proof.
  intros Ha. pose proof Ha as [Hr Hve Hs Hi]. rewrite run_at_value; [| done | lia | unfold within].
  - rewrite Z.sub_diag, Z.mul_0_r, Z.mul_0_l, Z.div_0_l by lia. lia.
  - rewrite Z.sub_diag, Z.mul_0_r, Z.mul_0_l. done.
Qed.

(** The anchor in use maps the instant to no earlier than the clock. *)
Lemma current_ok anchors run_id view p v anchors' a :
  map_Forall (fun _ a => anchor_ok a) anchors -> view_ok view -> pace view = Some p -> 0 <= v <= int_max U64 ->
  current anchors run_id view p v = (anchors', a) ->
  anchor_ok a /\ an_pace a = p /\ an_venue_us a <= v /\ cv_now view <= run_at a v /\
  anchors' !! run_id = Some a /\ map_Forall (fun _ a => anchor_ok a) anchors'.
Proof.
  intros Hall Hview Hp Hv. destruct (pace_ok view p Hview Hp) as (_ & Hstep & Hint & _). unfold current.
  set (fresh := mkAnchor (cv_now view) v p). assert (Hf : anchor_ok fresh) by (split; simpl; try done; apply Hview).
  set (old := default fresh (anchors !! run_id)).
  assert (Hold : anchor_ok old).
  { unfold old. destruct (anchors !! run_id) eqn:Hl; [by apply (Hall run_id) | done]. }
  intros [= <- <-]. rewrite lookup_insert_eq.
  assert (Hins : forall x, anchor_ok x -> map_Forall (fun _ a => anchor_ok a) (<[run_id := x]> anchors)).
  { intros x Hx. by apply map_Forall_insert_2. }
  destruct (_ || _) eqn:Hc.
  - pose proof (run_at_anchor fresh Hf) as E. simpl in E. rewrite E.
    split_and!; try done; by apply Hins.
  - apply orb_false_iff in Hc as [[Hpa Hve]%orb_false_iff Hru].
    apply negb_false_iff, bool_decide_eq_true in Hpa. split_and!; try done; [lia | lia | by apply Hins].
Qed.

(** The anchor stays in use at every later instant under the same view. *)
Lemma current_stable anchors run_id view p v w anchors' a :
  map_Forall (fun _ a => anchor_ok a) anchors -> view_ok view -> pace view = Some p -> 0 <= v <= w -> w <= int_max U64 ->
  1000 * w * cv_step_ns view <= int_max U128 -> current anchors run_id view p v = (anchors', a) ->
  within a w /\ run_at a v <= run_at a w /\ current anchors' run_id view p w = (anchors', a).
Proof.
  intros Hall Hview Hp Hvw Hw Hfit H1. assert (Hv : 0 <= v <= int_max U64) by lia.
  destruct (current_ok _ _ _ _ _ _ _ Hall Hview Hp Hv H1) as (Ha & Hpa & Hve & Hnow & Hl & _).
  destruct (pace_ok view p Hview Hp) as (Hst & Hstep & _). pose proof (ao_venue a Ha).
  rewrite Hst in Hstep.
  assert (Hwi : within a w).
  { unfold within. rewrite Hpa, Hst. etrans; [| exact Hfit]. apply Z.mul_le_mono_nonneg_r; lia. }
  pose proof (run_at_mono a v w Ha ltac:(lia) Hwi) as Hm. split_and!; [done | done |].
  unfold current. rewrite Hl. simpl default. rewrite bool_decide_true by done. simpl.
  replace (w <? an_venue_us a) with false by lia. replace (run_at a w <? cv_now view) with false by lia.
  simpl. by rewrite insert_id.
Qed.

(** a stamp is never behind the run. Whatever happened to the mapping
    before, the stamp of a released input is at or after the run's clock,
    a run that does not follow venue time keeps its clock, and under one
    view later releases get no earlier stamps. *)
Theorem stamps_never_regress clock run_id view v w clock1 clock2 t1 t2 :
  clock_ok clock -> view_ok view -> 0 <= v <= w -> w <= int_max U64 -> 1000 * w * cv_step_ns view <= int_max U128 ->
  stamp clock run_id view v = (clock1, t1) -> stamp clock1 run_id view w = (clock2, t2) ->
  clock_ok clock1 /\ cv_now view <= t1 <= t2 /\ (pace view = None -> t2 = cv_now view) /\
  rk_anchors clock1 !! run_id = rk_anchors clock2 !! run_id.
Proof.
  intros Hok Hview Hvw Hw Hfit. unfold stamp. destruct (rk_poisoned clock) eqn:Hpo.
  { intros [= <- <-]. rewrite Hpo. intros [= <- <-]. split_and!; try done; lia. }
  destruct (pace view) as [p|] eqn:Hp.
  2: { intros [= <- <-]. simpl. rewrite Hpo. intros [= <- <-]. simpl. rewrite !lookup_delete_eq.
       split_and!; try done; try lia. by apply map_Forall_delete. }
  destruct (current (rk_anchors clock) run_id view p v) as [anchors a] eqn:H1. intros [= <- <-].
  cbn [rk_poisoned rk_anchors with_anchors]. rewrite Hpo.
  assert (Hu : 0 <= v <= int_max U64) by lia.
  destruct (current_ok _ _ _ _ _ _ _ Hok Hview Hp Hu H1) as (Ha & Hpa & Hve & Hnow & Hl & Hall).
  destruct (current_stable _ _ _ _ v w _ _ Hok Hview Hp Hvw Hw Hfit H1) as (_ & Hm & Hkeep).
  rewrite Hkeep. intros [= <- <-]. simpl. split_and!; [done | lia | lia | done | done].
Qed.

(** The tick the timer asks for comes exactly when its item is due. *)
Lemma venue_instant_exact clock run_id view due now_us clock' at_ v :
  clock_ok clock -> view_ok view -> 0 <= due <= int_max U64 -> 0 <= now_us <= v -> v < int_max U64 ->
  1000 * v * cv_step_ns view <= int_max U128 ->
  venue_instant clock run_id view due now_us = (clock', Some at_) ->
  due <= (stamp clock' run_id view v).2 <-> at_ <= v.
Proof.
  intros Hok Hview Hdue Hnow Hv Hfit. unfold venue_instant. destruct (pace view) as [p|] eqn:Hp; [| done].
  destruct (rk_poisoned clock) eqn:Hpo; [done |].
  destruct (current (rk_anchors clock) run_id view p now_us) as [anchors a] eqn:H1. intros [= <- <-].
  assert (Hu : 0 <= now_us <= int_max U64) by lia.
  destruct (current_ok _ _ _ _ _ _ _ Hok Hview Hp Hu H1) as (Ha & Hpa & Hve & Hcl & Hl & Hall).
  destruct (current_stable _ _ _ _ now_us v _ _ Hok Hview Hp Hnow (Z.lt_le_incl _ _ Hv) Hfit H1) as (Hwi & _ & Hkeep).
  unfold stamp. cbn [rk_poisoned rk_anchors with_anchors]. rewrite Hpo, Hp, Hkeep. simpl. apply venue_at_first; [done | done | lia | done].
Qed.

Lemma tick_time_stamp clock run_id v s :
  (stamp clock run_id (ClockView_of s) v).2 <= (tick_time clock run_id v s).2.
Proof.
  unfold tick_time. cbv zeta. destruct (stamp clock run_id (ClockView_of s) v) as [c t]. simpl.
  repeat case_match; lia.
Qed.

(** C14: due work is ticked on time. While run time follows venue time, a
    poll of the timer that sees something due knows the very microsecond at
    which the run's clock reaches it: released earlier, an input would find
    it not yet due, and released then or later, the tick finds it due and
    goes to the store. The poll queues a tick for that instant as soon as it
    is within the next poll, unless that tick is already queued. *)
Theorem due_work_is_ticked_on_time `{!Sha256} `{!ScenarioCodec} `{!RunCodec} `{!JournalCodec}
    id g limits js (l : LiveRun RunState) (o : InMemoryOrigin RunState) clock t now_us due p clock' t' instants :
  history (EngineError := EngineError) g limits js l -> mo_runs o !! id = Some l ->
  clock_ok clock -> rk_poisoned clock = false ->
  view_ok (ClockView_of (lr_state l)) -> pace (ClockView_of (lr_state l)) = Some p ->
  next_due (lr_state l) = Some due -> 0 <= due <= int_max U64 -> 0 <= now_us ->
  timer_poll clock id t (lr_state l) now_us = (clock', t', instants) ->
  exists at_,
    (at_ <= saturating_add U64 now_us TIMER_POLL_US ->
       at_ ∈ instants \/ (tm_queued t = Some at_ /\ now_us <= at_)) /\
    forall v, now_us <= v < int_max U64 -> 1000 * v * p.1 <= int_max U128 ->
      (due <= (stamp clock' id (ClockView_of (lr_state l)) v).2 <-> at_ <= v) /\
      (at_ <= v -> forall adm,
         (execute_clock_tick id (tick_time clock' id v (lr_state l)).2 adm o).2 <> Ok None).
Proof.
  intros Hh Hl Hok Hpo Hview Hp Hdue Hrange Hnow Hpoll.
  destruct (pace_ok _ _ Hview Hp) as (Hst & _ & _ & Hactive).
  unfold timer_poll in Hpoll. cbv zeta in Hpoll. rewrite Hdue in Hpoll.
  set (t0 := match timer_skips _ _ _ with Some night => (mkTimer (tm_queued t) (Some night), [now_us]) | None => (t, []) end) in Hpoll.
  assert (Ht0 : tm_queued t0.1 = tm_queued t) by (unfold t0; by destruct (timer_skips _ _ _)).
  destruct t0 as [t1 nights]. simpl in Ht0.
  destruct (venue_instant clock id (ClockView_of (lr_state l)) due now_us) as [c1 at_] eqn:Hv.
  destruct at_ as [at_|].
  2: { exfalso. unfold venue_instant in Hv. rewrite Hp, Hpo in Hv. by destruct (current _ _ _ _ _). }
  assert (c1 = clock') as -> by (destruct (timer_queues _ _ _); congruence).
  exists at_. split.
  - intros Hle. unfold timer_queues in Hpoll. replace (at_ <=? _) with true in Hpoll by lia. rewrite Ht0 in Hpoll.
    destruct (tm_queued t) as [q|]; simpl in Hpoll.
    + destruct (negb (q =? at_) || (q <? now_us)) eqn:Hq; injection Hpoll as <- <-.
      * left. apply elem_of_app. right. left.
      * right. apply orb_false_iff in Hq as [Hq1%negb_false_iff%Z.eqb_eq Hq2%Z.ltb_ge]. subst q. done.
    + injection Hpoll as <- <-. left. apply elem_of_app. right. left.
  - intros v Hvr Hfit. rewrite Hst in Hfit.
    assert (Hiff : due <= (stamp clock' id (ClockView_of (lr_state l)) v).2 <-> at_ <= v)
      by (refine (venue_instant_exact clock id _ due now_us clock' at_ v Hok Hview Hrange _ _ Hfit Hv); lia).
    split; [exact Hiff |]. intros Hat adm. apply Hiff in Hat.
    pose proof (tick_time_stamp clock' id v (lr_state l)) as Hlt.
    unfold execute_clock_tick. rewrite (bind_run _ _ _ _ _ (service_read_live id g limits _ o js l Hl Hh)). cbv beta iota.
    rewrite Hdue. unfold ClockView_of in Hactive. simpl in Hactive. rewrite Hactive. cbn [negb]. rewrite orb_false_l.
    replace ((tick_time clock' id v (lr_state l)).2 <? due) with false by lia. unfold mbind, M_bind. by destruct (transact _ _ _) as [o1 [e|e]].
Qed.

(** ** A paced sample run *)

Module SamplePaced.
Import SampleRun SampleVenue.
Import (hints) SampleRun SampleVenue.
(** One run nanosecond per venue nanosecond. *)
Definition paced_simulation : SimulationScenario :=
  let d := SimulationScenario_default in
  mkSimulationScenario (ss_policy_version d) (mkLogicalClock 0 1000 (Paced 1000)) (ss_facilities d) (ss_scheduled_actions d)
    (ss_initial_news d) (ss_starts_active d).
Definition paced_scenario : ScenarioDefinition :=
  mkScenarioDefinition SCENARIO_SCHEMA_VERSION 5 1 1 [] (sd_instruments scenario) (sd_listings scenario)
    (sd_participants scenario) paced_simulation None.
Definition paced_genesis : RunState :=
  match from_scenario 7 1 paced_scenario with Ok s => s | Err _ => empty_run end.
Definition paced_start : LiveRun RunState :=
  match LiveRun_genesis (EngineError := EngineError) paced_genesis RunLimits_default with Ok l => l | Err _ => no_live end.
Definition paced_run : LiveRun RunState := step (submit_at 1 30 bid) paced_start.
Definition paced_journal : list CommandRecord := [record_of (submit_at 1 30 bid) paced_start].
Definition paced_store : InMemoryOrigin RunState := mkInMemoryOrigin {[ 7 := paced_run ]} RunLimits_default.
(** The venue stamped the order at its first microsecond. *)
Definition paced_clock : RunClock := (stamp RunClock_default 7 (ClockView_of (lr_state paced_start)) 1).1.
End SamplePaced.

Section run_clock_witnesses.
Import SampleRun SampleVenue SampleService SamplePaced.
Import (hints) SampleRun SampleVenue.

Lemma paced_history : history (EngineError := EngineError) paced_genesis RunLimits_default paced_journal paced_run.
Proof.
  apply (history_commit _ _ [] paced_start (submit_at 1 30 bid) None).
  - apply history_genesis. vm_compute. reflexivity.
  - apply sample_commit. vm_compute. reflexivity.
Qed.
Lemma paced_clock_ok : clock_ok paced_clock.
Proof.
  assert (E : rk_anchors paced_clock = {[ 7 := mkAnchor 0 1 (1000, 1000) ]}) by (vm_compute; reflexivity).
  unfold clock_ok. rewrite E. apply map_Forall_singleton. split; vm_compute; split; discriminate || reflexivity.
Qed.
Lemma paced_view : ClockView_of (lr_state paced_run) = mkClockView 30 1000 (Paced 1000) true.
Proof. vm_compute. reflexivity. Qed.
Lemma paced_view_ok : view_ok (mkClockView 30 1000 (Paced 1000) true).
Proof. split; vm_compute; try split; discriminate. Qed.

Lemma due_work_is_ticked_on_time_witness :
  exists at_, (at_ <= 5002 -> at_ ∈ (timer_poll paced_clock 7 (mkTimer None None) (lr_state paced_run) 2).2) /\
    (90 <= (stamp (timer_poll paced_clock 7 (mkTimer None None) (lr_state paced_run) 2).1.1 7
       (ClockView_of (lr_state paced_run)) 3).2 <-> at_ <= 3).
Proof.
  destruct (timer_poll paced_clock 7 (mkTimer None None) (lr_state paced_run) 2) as [[clock' t'] instants] eqn:Hpoll.
  destruct (due_work_is_ticked_on_time 7 paced_genesis RunLimits_default paced_journal paced_run paced_store
    paced_clock (mkTimer None None) 2 90 (1000, 1000) clock' t' instants) as (at_ & Hin & Hall).
  - exact paced_history.
  - reflexivity.
  - exact paced_clock_ok.
  - vm_compute. reflexivity.
  - rewrite paced_view. exact paced_view_ok.
  - rewrite paced_view. reflexivity.
  - vm_compute. reflexivity.
  - vm_compute. split; discriminate.
  - lia.
  - exact Hpoll.
  - exists at_. cbn [fst snd]. split.
    + intros Hle. destruct Hin as [Hin|[Hq _]]; [exact Hle | exact Hin | discriminate Hq].
    + destruct (Hall 3) as [Hiff _]; [split; [lia | reflexivity] | vm_compute; discriminate | exact Hiff].
Defined.

Lemma stamps_never_regress_witness :
  let view := ClockView_of (lr_state paced_run) in
  let '(clock1, t1) := stamp paced_clock 7 view 2 in
  let '(clock2, t2) := stamp clock1 7 view 5 in
  30 <= t1 <= t2 /\ t1 = 1000 /\ t2 = 4000.
Proof.
  rewrite paced_view. cbv zeta. destruct (stamp paced_clock 7 _ 2) as [clock1 t1] eqn:H1.
  destruct (stamp clock1 7 _ 5) as [clock2 t2] eqn:H2.
  destruct (stamps_never_regress paced_clock 7 _ 2 5 clock1 clock2 t1 t2 paced_clock_ok paced_view_ok) as (_ & Hle & _);
    [lia | vm_compute; discriminate | vm_compute; discriminate | exact H1 | exact H2 |].
  split; [exact Hle |].
  assert (E1 : t1 = 1000) by (change t1 with (clock1, t1).2; rewrite <- H1; vm_compute; reflexivity).
  split; [exact E1 |].
  assert (E2 : (stamp (stamp paced_clock 7 (mkClockView 30 1000 (Paced 1000) true) 2).1 7
    (mkClockView 30 1000 (Paced 1000) true) 5).2 = 4000) by (vm_compute; reflexivity).
  rewrite H1 in E2. cbn [fst] in E2. rewrite H2 in E2. exact E2.
Defined.
End run_clock_witnesses.
