(* ===== verification/BnpBytes.v ===== *)
(** * bnp-wire: readers and writers

    The primitives of [packages/bnp-wire/src/codec.rs]: little-endian
    integers, flags, strings, groups and enumerations.  A writer is the bytes
    it appends or its error (a frame whose writer fails is removed again); a
    reader is a computation on the bytes left. *)

From S2P Require Import Prelude Digest.
#[local] Open Scope list_scope.

Module WireError.
Inductive WireError : Type :=
  | FrameTooLarge (limit actual : Z)
  | EmptyFrame
  | Truncated
  | TrailingBytes
  | UnknownMessageType (kind : Z)
  | WrongDirection (kind : Z)
  | InvalidValue (field : string) (value : Z)
  | StringTooLong (bytes : Z)
  | InvalidUtf8
  | GroupTooLarge (entries : Z)
  | BadMagic.
End WireError.
Export WireError (WireError).

(** [b"BNP1"] and the bounds. *)
Definition MAGIC : Bytes := [66; 78; 80; 49].
Definition LENGTH_BYTES : nat := 4.
Definition MAX_FRAME_BYTES : Z := 65536.
Definition MAX_STRING_BYTES : Z := 1024.
Definition MAX_GROUP_ENTRIES : Z := 4096.

(** ** Integers *)

(** The bytes of a type, least significant first, in two's complement. *)
Definition width (t : int_ty) : nat :=
  match t with
  | U8 => 1
  | U16 => 2
  | U32 => 4
  | I64 | U64 | Usize => 8
  | I128 | U128 => 16
  end.
Fixpoint le_bytes (n : nat) (v : Z) : Bytes :=
  match n with
  | O => []
  | S n => v mod 256 :: le_bytes n (v / 256)
  end.
Fixpoint le_value (bytes : Bytes) : Z :=
  match bytes with
  | [] => 0
  | b :: bytes => b + 256 * le_value bytes
  end.
(** [to_le_bytes] and [from_le_bytes] *)
Definition to_le_bytes (t : int_ty) (v : Z) : Bytes := le_bytes (width t) v.
Definition from_le_bytes (t : int_ty) (bytes : Bytes) : Z :=
  let v := le_value bytes in
  if int_max t <? v then v - 2 ^ (8 * Z.of_nat (width t)) else v.

(** ** Writers *)

Definition Writer : Type := result WireError Bytes.
Definition write_two (w1 w2 : Writer) : Writer :=
  b1 ← w1;
  b2 ← w2;
  Ok (b1 ++ b2).
Definition write_all (ws : list Writer) : Writer := foldr write_two (Ok []) ws.

Definition write_bytes (bytes : Bytes) : Writer := Ok bytes.
Definition write_u8 (v : Z) : Writer := Ok (to_le_bytes U8 v).
Definition write_bool (b : bool) : Writer := write_u8 (if b then 1 else 0).
Definition write_u16 (v : Z) : Writer := Ok (to_le_bytes U16 v).
Definition write_u32 (v : Z) : Writer := Ok (to_le_bytes U32 v).
Definition write_u64 (v : Z) : Writer := Ok (to_le_bytes U64 v).
Definition write_i64 (v : Z) : Writer := Ok (to_le_bytes I64 v).
Definition write_u128 (v : Z) : Writer := Ok (to_le_bytes U128 v).
Definition write_i128 (v : Z) : Writer := Ok (to_le_bytes I128 v).
Definition write_option {A} (write : A -> Writer) (v : option A) : Writer :=
  match v with
  | Some v => write_two (write_u8 1) (write v)
  | None => write_u8 0
  end.
(** A string is its bytes; the limit is below [u16::MAX]. *)
Definition write_string (s : Bytes) : Writer :=
  let length := Z.of_nat (length s) in
  if MAX_STRING_BYTES <? length then Err (WireError.StringTooLong length)
  else write_two (write_u16 length) (write_bytes s).
Definition write_group {A} (write : A -> Writer) (items : list A) : Writer :=
  let count := Z.of_nat (length items) in
  if MAX_GROUP_ENTRIES <? count then Err (WireError.GroupTooLarge count)
  else write_two (write_u16 count) (write_all (write <$> items)).

(** ** Readers *)

Notation Reader := (M Bytes WireError).

Definition read_bytes (count : nat) : Reader Bytes :=
  left ← gets id;
  refuse_if (length left <? count)%nat WireError.Truncated;;
  modify (drop count);;
  mret (take count left).
(** [self.array().map(T::from_le_bytes)] *)
Definition read_int (t : int_ty) : Reader Z :=
  bytes ← read_bytes (width t);
  mret (from_le_bytes t bytes).
Definition read_u8 : Reader Z := read_int U8.
Definition read_u16 : Reader Z := read_int U16.
Definition read_u32 : Reader Z := read_int U32.
Definition read_u64 : Reader Z := read_int U64.
Definition read_i64 : Reader Z := read_int I64.
Definition read_u128 : Reader Z := read_int U128.
Definition read_i128 : Reader Z := read_int I128.
Definition read_bool : Reader bool :=
  v ← read_u8;
  if v =? 0 then mret false
  else if v =? 1 then mret true
  else throw (WireError.InvalidValue "bool" v).
Definition read_option {A} (read : Reader A) : Reader (option A) :=
  present ← read_bool;
  if (present : bool) then v ← read; mret (Some v) else mret None.

(** [String::from_utf8]: well-formed UTF-8. *)
Definition within (low high b : Z) : bool := (low <=? b) && (b <=? high).
Definition continuation (b : Z) : bool := within 0x80 0xbf b.
Fixpoint utf8_valid (s : Bytes) : bool :=
  match s with
  | [] => true
  | a :: s1 =>
      if within 0 0x7f a then utf8_valid s1
      else
        match s1 with
        | [] => false
        | b :: s2 =>
            if within 0xc2 0xdf a then continuation b && utf8_valid s2
            else
              match s2 with
              | [] => false
              | c :: s3 =>
                  if within 0xe0 0xef a then
                    (if a =? 0xe0 then within 0xa0 0xbf b
                     else if a =? 0xed then within 0x80 0x9f b
                     else continuation b) && continuation c && utf8_valid s3
                  else
                    match s3 with
                    | [] => false
                    | d :: s4 =>
                        within 0xf0 0xf4 a &&
                        (if a =? 0xf0 then within 0x90 0xbf b
                         else if a =? 0xf4 then within 0x80 0x8f b
                         else continuation b) && continuation c && continuation d && utf8_valid s4
                    end
              end
        end
  end.
Definition read_string : Reader Bytes :=
  length ← read_u16;
  refuse_if (MAX_STRING_BYTES <? length) (WireError.StringTooLong length);;
  s ← read_bytes (Z.to_nat length);
  refuse_if (negb (utf8_valid s)) WireError.InvalidUtf8;;
  mret s.

Fixpoint read_times {A} (count : nat) (read : Reader A) : Reader (list A) :=
  match count with
  | O => mret []
  | S count =>
      item ← read;
      items ← read_times count read;
      mret (item :: items)
  end.
Definition read_group {A} (read : Reader A) : Reader (list A) :=
  count ← read_u16;
  refuse_if (MAX_GROUP_ENTRIES <? count) (WireError.GroupTooLarge count);;
  left ← gets (fun left => Z.of_nat (length left));
  refuse_if (left <? count) WireError.Truncated;;
  read_times (Z.to_nat count) read.
Definition read_finish : Reader unit :=
  left ← gets id;
  refuse_if (negb (bool_decide (left = []))) WireError.TrailingBytes.

(** ** One-byte enumerations ([wire_enum!]) *)

Class WireEnum (A : Type) := {
  enum_field : string;
  enum_all : list A;
  to_wire : A -> Z;
  to_wire_byte : forall a, 0 <= to_wire a <= 255;
  enum_distinct : forall a, find (fun b => to_wire b =? to_wire a) enum_all = Some a
}.
Definition from_wire {A} `{WireEnum A} (v : Z) : result WireError A :=
  ok_or (find (fun b => to_wire b =? v) enum_all) (WireError.InvalidValue enum_field v).
Definition write_enum {A} `{WireEnum A} (a : A) : Writer := write_u8 (to_wire a).
Definition read_enum {A} `{WireEnum A} : Reader A :=
  v ← read_u8;
  lift (from_wire v).

Ltac wire_enum := first [ by intros [] | by intros []; split; vm_compute ].
