(* ===== verification/BnpWire.v ===== *)
(** * bnp-wire: messages

    The messages of the native protocol, [packages/bnp-wire/src/lib.rs]:
    one-byte enumerations with their wire values, structures, and the two
    directions.  A string is its UTF-8 bytes, an integer a [Z] within its
    type ([..._ok]). *)

From S2P Require Import Prelude Digest BnpBytes.
#[local] Open Scope list_scope.

(** ** Versions *)

Definition VERSION_1_0 : Z := 1.
Definition VERSION_1_1 : Z := 257.
Definition negotiate (offered : Z) : option Z :=
  if offered =? VERSION_1_0 then Some VERSION_1_0
  else if negb (Z.shiftr offered 8 =? 1) then None
  else if offered mod 256 =? 0 then Some VERSION_1_0
  else Some VERSION_1_1.
Definition speaks_1_1 (version : Z) : bool := VERSION_1_1 <=? version.

(** ** Message types *)

Definition HELLO : Z := 0x01.
Definition CLIENT_HEARTBEAT : Z := 0x02.
Definition PROBE_REPLY : Z := 0x03.
Definition PING : Z := 0x04.
Definition CLIENT_LOGOUT : Z := 0x05.
Definition ENROLL : Z := 0x06.
Definition NEW_ORDER : Z := 0x10.
Definition CANCEL_ORDER : Z := 0x11.
Definition KILL_SWITCH : Z := 0x12.
Definition KILL_SWITCH_RESET : Z := 0x13.
Definition TENDER_DECISION : Z := 0x18.
Definition OTC_PROPOSE : Z := 0x19.
Definition OTC_COUNTER : Z := 0x1a.
Definition OTC_DECISION : Z := 0x1b.
Definition SUBSCRIBE : Z := 0x20.
Definition UNSUBSCRIBE : Z := 0x21.
Definition SNAPSHOT_REQUEST : Z := 0x22.
Definition LISTINGS_REQUEST : Z := 0x30.
Definition OPEN_ORDERS_REQUEST : Z := 0x31.
Definition ACCOUNT_REQUEST : Z := 0x32.
Definition DEALS_REQUEST : Z := 0x33.
Definition REFERENCE_DATA_REQUEST : Z := 0x34.
Definition OPERATOR_COMMAND : Z := 0x38.
Definition WELCOME : Z := 0x41.
Definition ENROLLED : Z := 0x4e.
Definition SERVER_HEARTBEAT : Z := 0x42.
Definition PROBE : Z := 0x43.
Definition PONG : Z := 0x44.
Definition REJECT : Z := 0x45.
Definition REPLAY_COMPLETE : Z := 0x46.
Definition SERVER_LOGOUT : Z := 0x47.
Definition ACCESS_DELAY : Z := 0x48.
Definition OPERATOR_DONE : Z := 0x49.
Definition DEAL_DONE : Z := 0x4a.
Definition ORDER_ACCEPTED : Z := 0x50.
Definition ORDER_REJECTED : Z := 0x51.
Definition ORDER_RESTED : Z := 0x52.
Definition FILL : Z := 0x53.
Definition ORDER_DONE : Z := 0x54.
Definition ORDER_CANCELED : Z := 0x55.
Definition CANCEL_REJECTED : Z := 0x56.
Definition POSITION_CHANGED : Z := 0x57.
Definition BALANCE_CHANGED : Z := 0x58.
Definition KILL_SWITCH_ACTIVATED : Z := 0x59.
Definition ORDER_REDUCED : Z := 0x5a.
Definition KILL_SWITCH_RESET_DONE : Z := 0x5b.
Definition RUN_STATUS : Z := 0x5c.
Definition LISTING_HALT : Z := 0x5d.
Definition NEWS : Z := 0x5e.
Definition MARKET_SNAPSHOT : Z := 0x60.
Definition MARKET_UPDATE : Z := 0x61.
Definition ORDER_SNAPSHOT : Z := 0x62.
Definition ORDER_UPDATE : Z := 0x63.
Definition TAPE_SNAPSHOT : Z := 0x64.
Definition TAPE_UPDATE : Z := 0x65.
Definition LISTINGS : Z := 0x70.
Definition OPEN_ORDERS : Z := 0x71.
Definition ACCOUNT : Z := 0x72.
Definition DEALS : Z := 0x73.
Definition TENDER : Z := 0x74.
Definition NEGOTIATION : Z := 0x75.
Definition REFERENCE_DATA : Z := 0x76.

(** ** Enumerations *)

Module Side.
Inductive Side : Type := Buy | Sell.
End Side.
Export Side (Side).
#[export] Program Instance Side_wire : WireEnum Side := {|
  enum_field := "Side";
  enum_all := [Side.Buy; Side.Sell];
  to_wire := fun v => match v with
    | Side.Buy => 1 | Side.Sell => 2
    end
|}.
Solve All Obligations with wire_enum.

Module Role.
Inductive Role : Type := Participant | Team | Instructor | Administrator | BuiltInAgent.
End Role.
Export Role (Role).
#[export] Program Instance Role_wire : WireEnum Role := {|
  enum_field := "Role";
  enum_all := [Role.Participant; Role.Team; Role.Instructor; Role.Administrator; Role.BuiltInAgent];
  to_wire := fun v => match v with
    | Role.Participant => 1 | Role.Team => 2 | Role.Instructor => 3 | Role.Administrator => 4
    | Role.BuiltInAgent => 5
    end
|}.
Solve All Obligations with wire_enum.

Module ResumeStatus.
Inductive ResumeStatus : Type := Live | Replaying | Gap.
End ResumeStatus.
Export ResumeStatus (ResumeStatus).
#[export] Program Instance ResumeStatus_wire : WireEnum ResumeStatus := {|
  enum_field := "ResumeStatus";
  enum_all := [ResumeStatus.Live; ResumeStatus.Replaying; ResumeStatus.Gap];
  to_wire := fun v => match v with
    | ResumeStatus.Live => 0 | ResumeStatus.Replaying => 1 | ResumeStatus.Gap => 2
    end
|}.
Solve All Obligations with wire_enum.

Module Liquidity.
Inductive Liquidity : Type := Maker | Taker.
End Liquidity.
Export Liquidity (Liquidity).
#[export] Program Instance Liquidity_wire : WireEnum Liquidity := {|
  enum_field := "Liquidity";
  enum_all := [Liquidity.Maker; Liquidity.Taker];
  to_wire := fun v => match v with
    | Liquidity.Maker => 1 | Liquidity.Taker => 2
    end
|}.
Solve All Obligations with wire_enum.

Module EntryKind.
Inductive EntryKind : Type := Trade | Bid | Ask.
End EntryKind.
Export EntryKind (EntryKind).
#[export] Program Instance EntryKind_wire : WireEnum EntryKind := {|
  enum_field := "EntryKind";
  enum_all := [EntryKind.Trade; EntryKind.Bid; EntryKind.Ask];
  to_wire := fun v => match v with
    | EntryKind.Trade => 0 | EntryKind.Bid => 1 | EntryKind.Ask => 2
    end
|}.
Solve All Obligations with wire_enum.

Module OrderAction.
Inductive OrderAction : Type := Add | Change | Delete.
End OrderAction.
Export OrderAction (OrderAction).
#[export] Program Instance OrderAction_wire : WireEnum OrderAction := {|
  enum_field := "OrderAction";
  enum_all := [OrderAction.Add; OrderAction.Change; OrderAction.Delete];
  to_wire := fun v => match v with
    | OrderAction.Add => 1 | OrderAction.Change => 2 | OrderAction.Delete => 3
    end
|}.
Solve All Obligations with wire_enum.

Module DelaySource.
Inductive DelaySource : Type := None | Kernel | Probe | Both.
End DelaySource.
Export DelaySource (DelaySource).
#[export] Program Instance DelaySource_wire : WireEnum DelaySource := {|
  enum_field := "DelaySource";
  enum_all := [DelaySource.None; DelaySource.Kernel; DelaySource.Probe; DelaySource.Both];
  to_wire := fun v => match v with
    | DelaySource.None => 0 | DelaySource.Kernel => 1 | DelaySource.Probe => 2 | DelaySource.Both => 3
    end
|}.
Solve All Obligations with wire_enum.

Module RejectReason.
Inductive RejectReason : Type := DuplicateOrderId | InvalidOrderId | UnknownOrder | NotOrderOwner | KillSwitchActive | RunNotActive
  | ListingHalted | ParticipantDisabled | InvalidQuantity | InvalidInstrument | PriceOutOfBounds
  | MaxOrderQuantity | MaxOpenOrderQuantity | MaxLiveOrders | PositionLimit | InsufficientCash
  | InsufficientInventory | InsufficientLiquidity | PostOnlyWouldCross | InvalidTimeInForce
  | LogicalTimeRegression | SequenceConflict | ArithmeticOverflow | UnknownListing | MarketClosed
  | CallPhaseOrderType | PriceNotOnTick.
End RejectReason.
Export RejectReason (RejectReason).
#[export] Program Instance RejectReason_wire : WireEnum RejectReason := {|
  enum_field := "RejectReason";
  enum_all := [RejectReason.DuplicateOrderId; RejectReason.InvalidOrderId; RejectReason.UnknownOrder;
    RejectReason.NotOrderOwner; RejectReason.KillSwitchActive; RejectReason.RunNotActive;
    RejectReason.ListingHalted; RejectReason.ParticipantDisabled; RejectReason.InvalidQuantity;
    RejectReason.InvalidInstrument; RejectReason.PriceOutOfBounds; RejectReason.MaxOrderQuantity;
    RejectReason.MaxOpenOrderQuantity; RejectReason.MaxLiveOrders; RejectReason.PositionLimit;
    RejectReason.InsufficientCash; RejectReason.InsufficientInventory; RejectReason.InsufficientLiquidity;
    RejectReason.PostOnlyWouldCross; RejectReason.InvalidTimeInForce; RejectReason.LogicalTimeRegression;
    RejectReason.SequenceConflict; RejectReason.ArithmeticOverflow; RejectReason.UnknownListing;
    RejectReason.MarketClosed; RejectReason.CallPhaseOrderType; RejectReason.PriceNotOnTick];
  to_wire := fun v => match v with
    | RejectReason.DuplicateOrderId => 1 | RejectReason.InvalidOrderId => 2 | RejectReason.UnknownOrder => 3
    | RejectReason.NotOrderOwner => 4 | RejectReason.KillSwitchActive => 5 | RejectReason.RunNotActive => 6
    | RejectReason.ListingHalted => 7 | RejectReason.ParticipantDisabled => 8
    | RejectReason.InvalidQuantity => 9 | RejectReason.InvalidInstrument => 10
    | RejectReason.PriceOutOfBounds => 11 | RejectReason.MaxOrderQuantity => 12
    | RejectReason.MaxOpenOrderQuantity => 13 | RejectReason.MaxLiveOrders => 14
    | RejectReason.PositionLimit => 15 | RejectReason.InsufficientCash => 16
    | RejectReason.InsufficientInventory => 17 | RejectReason.InsufficientLiquidity => 18
    | RejectReason.PostOnlyWouldCross => 19 | RejectReason.InvalidTimeInForce => 20
    | RejectReason.LogicalTimeRegression => 21 | RejectReason.SequenceConflict => 22
    | RejectReason.ArithmeticOverflow => 23 | RejectReason.UnknownListing => 24
    | RejectReason.MarketClosed => 25 | RejectReason.CallPhaseOrderType => 26
    | RejectReason.PriceNotOnTick => 27
    end
|}.
Solve All Obligations with wire_enum.

Module InstrumentKind.
Inductive InstrumentKind : Type := Equity | Currency | Bond | Option | Future | Commodity | Synthetic.
End InstrumentKind.
Export InstrumentKind (InstrumentKind).
#[export] Program Instance InstrumentKind_wire : WireEnum InstrumentKind := {|
  enum_field := "InstrumentKind";
  enum_all := [InstrumentKind.Equity; InstrumentKind.Currency; InstrumentKind.Bond; InstrumentKind.Option;
    InstrumentKind.Future; InstrumentKind.Commodity; InstrumentKind.Synthetic];
  to_wire := fun v => match v with
    | InstrumentKind.Equity => 1 | InstrumentKind.Currency => 2 | InstrumentKind.Bond => 3
    | InstrumentKind.Option => 4 | InstrumentKind.Future => 5 | InstrumentKind.Commodity => 6
    | InstrumentKind.Synthetic => 7
    end
|}.
Solve All Obligations with wire_enum.

Module CancelReason.
Inductive CancelReason : Type := Requested | KillSwitch | MarketRemainder | MassCancel | Expired | Halt.
End CancelReason.
Export CancelReason (CancelReason).
#[export] Program Instance CancelReason_wire : WireEnum CancelReason := {|
  enum_field := "CancelReason";
  enum_all := [CancelReason.Requested; CancelReason.KillSwitch; CancelReason.MarketRemainder; CancelReason.MassCancel;
    CancelReason.Expired; CancelReason.Halt];
  to_wire := fun v => match v with
    | CancelReason.Requested => 1 | CancelReason.KillSwitch => 2 | CancelReason.MarketRemainder => 3
    | CancelReason.MassCancel => 4 | CancelReason.Expired => 5 | CancelReason.Halt => 6
    end
|}.
Solve All Obligations with wire_enum.

Module TenderStatus.
Inductive TenderStatus : Type := Open | Accepted | Declined | Expired.
End TenderStatus.
Export TenderStatus (TenderStatus).
#[export] Program Instance TenderStatus_wire : WireEnum TenderStatus := {|
  enum_field := "TenderStatus";
  enum_all := [TenderStatus.Open; TenderStatus.Accepted; TenderStatus.Declined; TenderStatus.Expired];
  to_wire := fun v => match v with
    | TenderStatus.Open => 1 | TenderStatus.Accepted => 2 | TenderStatus.Declined => 3
    | TenderStatus.Expired => 4
    end
|}.
Solve All Obligations with wire_enum.

Module NegotiationStatus.
Inductive NegotiationStatus : Type := Proposed | Countered | Accepted | Rejected | Broken | Expired.
End NegotiationStatus.
Export NegotiationStatus (NegotiationStatus).
#[export] Program Instance NegotiationStatus_wire : WireEnum NegotiationStatus := {|
  enum_field := "NegotiationStatus";
  enum_all := [NegotiationStatus.Proposed; NegotiationStatus.Countered; NegotiationStatus.Accepted;
    NegotiationStatus.Rejected; NegotiationStatus.Broken; NegotiationStatus.Expired];
  to_wire := fun v => match v with
    | NegotiationStatus.Proposed => 1 | NegotiationStatus.Countered => 2 | NegotiationStatus.Accepted => 3
    | NegotiationStatus.Rejected => 4 | NegotiationStatus.Broken => 5 | NegotiationStatus.Expired => 6
    end
|}.
Solve All Obligations with wire_enum.

Module OtcDecision.
Inductive OtcDecision : Type := Accept | Reject | Break.
End OtcDecision.
Export OtcDecision (OtcDecision).
#[export] Program Instance OtcDecision_wire : WireEnum OtcDecision := {|
  enum_field := "OtcDecision";
  enum_all := [OtcDecision.Accept; OtcDecision.Reject; OtcDecision.Break];
  to_wire := fun v => match v with
    | OtcDecision.Accept => 1 | OtcDecision.Reject => 2 | OtcDecision.Break => 3
    end
|}.
Solve All Obligations with wire_enum.
(** ** Structures *)

Definition fits (t : int_ty) (v : Z) : Prop := int_min t <= v <= int_max t.
Definition string_ok (s : Bytes) : Prop := utf8_valid s = true.
Definition option_ok {A} (P : A -> Prop) (v : option A) : Prop :=
  match v with Some v => P v | None => True end.

Record Listing : Type := mkListing {
  ls_venue_id : Z;
  ls_instrument_id : Z
}.
Record Stamp : Type := mkStamp {
  st_sequence : Z;
  st_logical_time_ns : Z
}.
Record Level : Type := mkLevel {
  lv_price : Z;
  lv_quantity : Z
}.
Record TenderInfo : Type := mkTenderInfo {
  ti_tender_id : Z;
  ti_participant_id : Z;
  ti_instrument_id : Z;
  ti_side : Side;
  ti_quantity : Z;
  ti_price : Z;
  ti_expires_at_ns : Z;
  ti_status : TenderStatus
}.
Record NegotiationInfo : Type := mkNegotiationInfo {
  ni_negotiation_id : Z;
  ni_proposer_id : Z;
  ni_counterparty_id : Z;
  ni_instrument_id : Z;
  ni_side : Side;
  ni_quantity : Z;
  ni_price : Z;
  ni_expires_at_ns : Z;
  ni_status : NegotiationStatus;
  ni_awaiting : Z
}.

(** [FeedFlags]: a byte with the known bits. *)
Definition FeedFlags : Type := Z.
Definition FLAGS_KNOWN : Z := 15.
Definition flags_from_wire (v : Z) : result WireError FeedFlags :=
  if negb (Z.land v (255 - FLAGS_KNOWN) =? 0) then Err (WireError.InvalidValue "FeedFlags" v) else Ok v.
Definition flags_contain (flags other : FeedFlags) : bool := Z.land flags other =? other.
Definition flags_ok (flags : FeedFlags) : Prop := 0 <= flags <= FLAGS_KNOWN.

Module NewsAudience.
Inductive NewsAudience : Type :=
  | Public
  | Participant (value : Z)
  | Team (value : Z)
  | Role (value : Bytes).
End NewsAudience.
Export NewsAudience (NewsAudience).
Module OperatorAction.
Inductive OperatorAction : Type :=
  | Start
  | Pause
  | Resume
  | Advance (steps : Z)
  | Terminate (reason : Bytes)
  | Halt (instrument_id : Z) (halted : bool) (reason : Bytes)
  | MassCancel (participant_id : option Z) (instrument_id : option Z)
  | PublishNews (news_id : Z) (audience : NewsAudience) (headline : Bytes) (body : Bytes)
  | Score
  | Fine (participant_id : Z) (currency_id : Z) (amount : Z) (reason : Bytes)
  | OpenTender (tender_id : Z) (participant_id : Z) (instrument_id : Z) (side : Side) (quantity : Z) (price : Z) (expires_at_ns : Z).
End OperatorAction.
Export OperatorAction (OperatorAction).
Definition operator_code (action : OperatorAction) : Z :=
  match action with
  | OperatorAction.Start => 1
  | OperatorAction.Pause => 2
  | OperatorAction.Resume => 3
  | OperatorAction.Advance _ => 4
  | OperatorAction.Terminate _ => 5
  | OperatorAction.Halt _ _ _ => 6
  | OperatorAction.MassCancel _ _ => 7
  | OperatorAction.PublishNews _ _ _ _ => 8
  | OperatorAction.Score => 9
  | OperatorAction.Fine _ _ _ _ => 10
  | OperatorAction.OpenTender _ _ _ _ _ _ _ => 11
  end.

Module TimeInForce.
Inductive TimeInForce : Type :=
  | Gtc
  | Ioc
  | Fok
  | Day
  | Gtd (expires_at_ns : Z).
End TimeInForce.
Export TimeInForce (TimeInForce).
Module OrderType.
Inductive OrderType : Type :=
  | Limit (price : Z)
  | Market.
End OrderType.
Export OrderType (OrderType).
Record NewOrder : Type := mkNewOrder {
  no_client_order_id : Z;
  no_listing : Listing;
  no_side : Side;
  no_quantity : Z;
  no_order_type : OrderType;
  no_time_in_force : TimeInForce;
  no_post_only : bool;
  no_anonymous : bool;
  no_display_quantity : option Z
}.

Module OrderEntry.
Inductive OrderEntry : Type :=
  | Trade (price : Z) (quantity : Z) (resting_reference : option Z) (buyer : option Z) (seller : option Z)
  | Order (action : OrderAction) (side : Side) (reference : Z) (price : Z) (quantity : Z) (broker : option Z).
End OrderEntry.
Export OrderEntry (OrderEntry).
Record Welcome : Type := mkWelcome {
  wl_version : Z;
  wl_run_id : Z;
  wl_participant_id : Z;
  wl_role : Role;
  wl_heartbeat_ms : Z;
  wl_max_frame_bytes : Z;
  wl_resume : ResumeStatus;
  wl_run_sequence : Z
}.
Record Entry : Type := mkEntry {
  en_kind : EntryKind;
  en_price : Z;
  en_quantity : Z
}.
Record BookOrder : Type := mkBookOrder {
  bo_side : Side;
  bo_reference : Z;
  bo_price : Z;
  bo_quantity : Z;
  bo_broker : option Z;
  bo_queue_position : Z
}.
Record TapeQuote : Type := mkTapeQuote {
  tq_venue_id : Z;
  tq_side : Side;
  tq_price : Z;
  tq_quantity : Z
}.
Record TapeEntry : Type := mkTapeEntry {
  te_venue_id : Z;
  te_kind : EntryKind;
  te_price : Z;
  te_quantity : Z
}.
Record ListingInfo : Type := mkListingInfo {
  li_listing : Listing;
  li_symbol : Bytes
}.
Record CurrencyInfo : Type := mkCurrencyInfo {
  ci_currency_id : Z;
  ci_code : Bytes;
  ci_name : Bytes;
  ci_minor_decimals : Z
}.
Record InstrumentInfo : Type := mkInstrumentInfo {
  ii_instrument_id : Z;
  ii_symbol : Bytes;
  ii_kind : InstrumentKind;
  ii_underlying : option Z;
  ii_strike : option Z;
  ii_expiry_ns : option Z;
  ii_is_call : bool;
  ii_physical_delivery : bool;
  ii_coupon_bps : Z;
  ii_components : list (Z * Z);
  ii_multiplier : Z;
  ii_currency_id : Z;
  ii_quoted_decimals : Z;
  ii_shortable : bool;
  ii_tradeable : bool;
  ii_window_start_ns : option Z;
  ii_window_stop_ns : option Z;
  ii_display_unit : Bytes;
  ii_description : Bytes;
  ii_opening_mark : option Z;
  ii_max_order_quantity : option Z
}.
Record ListingReference : Type := mkListingReference {
  lr_listing : Listing;
  lr_symbol : Bytes;
  lr_min_price : Z;
  lr_max_price : Z;
  lr_tick_size : Z;
  lr_taker_fee_per_lot : Z;
  lr_maker_fee_per_lot : Z;
  lr_broker_ids : bool;
  lr_primary : bool;
  lr_halted : bool;
  lr_in_window : bool
}.
Record OpenOrder : Type := mkOpenOrder {
  op_client_order_id : Z;
  op_order_id : Z;
  op_listing : Listing;
  op_side : Side;
  op_price : Z;
  op_original_quantity : Z;
  op_remaining_quantity : Z
}.
Record CashBalance : Type := mkCashBalance {
  cb_currency_id : Z;
  cb_balance : Z;
  cb_reserved : Z
}.
Record Position : Type := mkPosition {
  po_instrument_id : Z;
  po_position : Z;
  po_open_buy : Z;
  po_open_sell : Z
}.

(** ** Client messages *)

Module ClientMessage.
Inductive ClientMessage : Type :=
  | Hello (version : Z) (resume_after : option Z) (client_name : Bytes)
  | Heartbeat
  | ProbeReply (probe_id : Z)
  | Ping (nonce : Z)
  | Logout (reason : Bytes)
  | NewOrder (value : NewOrder)
  | CancelOrder (client_order_id : Z)
  | KillSwitch (request_id : Z)
  | KillSwitchReset (request_id : Z)
  | Subscribe (request_id : Z) (listing : Listing) (flags : FeedFlags)
  | Unsubscribe (request_id : Z)
  | SnapshotRequest (request_id : Z) (listing : Listing) (depth : Z)
  | ListingsRequest (request_id : Z)
  | OpenOrdersRequest (request_id : Z)
  | AccountRequest (request_id : Z)
  | OperatorCommand (request_id : Z) (action : OperatorAction)
  | TenderDecision (request_id : Z) (tender_id : Z) (accept : bool)
  | OtcPropose (request_id : Z) (negotiation_id : Z) (counterparty_id : Z) (instrument_id : Z) (side : Side) (quantity : Z) (price : Z) (expires_at_ns : Z)
  | OtcCounter (request_id : Z) (negotiation_id : Z) (quantity : Z) (price : Z)
  | OtcDecision (request_id : Z) (negotiation_id : Z) (decision : OtcDecision)
  | DealsRequest (request_id : Z)
  | ReferenceDataRequest (request_id : Z) (after_instrument : option Z) (limit : Z)
  | Enroll (secret : Bytes) (csr_pem : Bytes).
End ClientMessage.
Export ClientMessage (ClientMessage).
Definition client_type (message : ClientMessage) : Z :=
  match message with
  | ClientMessage.Hello _ _ _ => HELLO
  | ClientMessage.Heartbeat => CLIENT_HEARTBEAT
  | ClientMessage.ProbeReply _ => PROBE_REPLY
  | ClientMessage.Ping _ => PING
  | ClientMessage.Logout _ => CLIENT_LOGOUT
  | ClientMessage.NewOrder _ => NEW_ORDER
  | ClientMessage.CancelOrder _ => CANCEL_ORDER
  | ClientMessage.KillSwitch _ => KILL_SWITCH
  | ClientMessage.KillSwitchReset _ => KILL_SWITCH_RESET
  | ClientMessage.Subscribe _ _ _ => SUBSCRIBE
  | ClientMessage.Unsubscribe _ => UNSUBSCRIBE
  | ClientMessage.SnapshotRequest _ _ _ => SNAPSHOT_REQUEST
  | ClientMessage.ListingsRequest _ => LISTINGS_REQUEST
  | ClientMessage.OpenOrdersRequest _ => OPEN_ORDERS_REQUEST
  | ClientMessage.AccountRequest _ => ACCOUNT_REQUEST
  | ClientMessage.OperatorCommand _ _ => OPERATOR_COMMAND
  | ClientMessage.TenderDecision _ _ _ => TENDER_DECISION
  | ClientMessage.OtcPropose _ _ _ _ _ _ _ _ => OTC_PROPOSE
  | ClientMessage.OtcCounter _ _ _ _ => OTC_COUNTER
  | ClientMessage.OtcDecision _ _ _ => OTC_DECISION
  | ClientMessage.DealsRequest _ => DEALS_REQUEST
  | ClientMessage.ReferenceDataRequest _ _ _ => REFERENCE_DATA_REQUEST
  | ClientMessage.Enroll _ _ => ENROLL
  end.

(** ** Server messages *)

Module ServerMessage.
Inductive ServerMessage : Type :=
  | Welcome (value : Welcome)
  | Heartbeat
  | Probe (probe_id : Z)
  | Pong (nonce : Z) (server_time_us : Z)
  | Reject (request_type : Z) (reference : Z) (reason : Bytes)
  | ReplayComplete (through_sequence : Z)
  | Logout (reason : Bytes)
  | AccessDelay (source : DelaySource) (min_rtt_us : option Z) (one_way_us : option Z) (probe_samples : Z)
  | OperatorDone (request_id : Z) (run_sequence : Z)
  | DealDone (request_id : Z) (run_sequence : Z)
  | Tender (stamp : Stamp) (tender : TenderInfo)
  | Negotiation (stamp : Stamp) (negotiation : NegotiationInfo)
  | RunStatus (stamp : Stamp) (status : Bytes)
  | ListingHalt (stamp : Stamp) (instrument_id : Z) (halted : bool)
  | News (stamp : Stamp) (news_id : Z) (headline : Bytes) (body : Bytes)
  | OrderAccepted (stamp : Stamp) (client_order_id : Z) (order_id : Z) (listing : Listing) (side : Side) (quantity : Z) (price : option Z)
  | OrderRejected (stamp : Stamp) (client_order_id : Z) (reason : RejectReason)
  | OrderRested (stamp : Stamp) (client_order_id : Z) (order_id : Z) (price : Z) (remaining : Z) (reference : option Z)
  | OrderReduced (stamp : Stamp) (client_order_id : Z) (order_id : Z) (remaining : Z) (reference : option Z)
  | Fill (stamp : Stamp) (client_order_id : Z) (order_id : Z) (listing : Listing) (side : Side) (price : Z) (quantity : Z) (fee : Z) (liquidity : Liquidity)
  | OrderDone (stamp : Stamp) (client_order_id : Z) (order_id : Z)
  | OrderCanceled (stamp : Stamp) (client_order_id : Z) (order_id : Z) (remaining : Z) (reason : CancelReason)
  | CancelRejected (stamp : Stamp) (client_order_id : Z) (reason : RejectReason)
  | PositionChanged (stamp : Stamp) (instrument_id : Z) (delta : Z)
  | BalanceChanged (stamp : Stamp) (delta : Z)
  | KillSwitchActivated (stamp : Stamp)
  | KillSwitchReset (stamp : Stamp)
  | MarketSnapshot (request_id : Z) (listing : Listing) (next_report : Z) (bids : list Level) (asks : list Level)
  | MarketUpdate (request_id : Z) (listing : Listing) (first_report : Z) (entries : list Entry)
  | OrderSnapshot (request_id : Z) (listing : Listing) (next_report : Z) (complete : bool) (orders : list BookOrder)
  | OrderUpdate (request_id : Z) (listing : Listing) (first_report : Z) (entries : list OrderEntry)
  | TapeSnapshot (request_id : Z) (instrument_id : Z) (last_report : Z) (quotes : list TapeQuote)
  | TapeUpdate (request_id : Z) (instrument_id : Z) (first_report : Z) (entries : list TapeEntry)
  | Listings (request_id : Z) (listings : list ListingInfo)
  | OpenOrders (request_id : Z) (run_sequence : Z) (orders : list OpenOrder)
  | Account (request_id : Z) (run_sequence : Z) (cash : list CashBalance) (positions : list Position)
  | Deals (request_id : Z) (run_sequence : Z) (tenders : list TenderInfo) (negotiations : list NegotiationInfo)
  | ReferenceData (request_id : Z) (run_sequence : Z) (next_after : option Z) (currencies : list CurrencyInfo) (instruments : list InstrumentInfo) (listings : list ListingReference)
  | Enrolled (participant_id : Z) (certificate_pem : Bytes) (ca_pem : Bytes).
End ServerMessage.
Export ServerMessage (ServerMessage).
Definition server_type (message : ServerMessage) : Z :=
  match message with
  | ServerMessage.Welcome _ => WELCOME
  | ServerMessage.Heartbeat => SERVER_HEARTBEAT
  | ServerMessage.Probe _ => PROBE
  | ServerMessage.Pong _ _ => PONG
  | ServerMessage.Reject _ _ _ => REJECT
  | ServerMessage.ReplayComplete _ => REPLAY_COMPLETE
  | ServerMessage.Logout _ => SERVER_LOGOUT
  | ServerMessage.AccessDelay _ _ _ _ => ACCESS_DELAY
  | ServerMessage.OperatorDone _ _ => OPERATOR_DONE
  | ServerMessage.DealDone _ _ => DEAL_DONE
  | ServerMessage.Tender _ _ => TENDER
  | ServerMessage.Negotiation _ _ => NEGOTIATION
  | ServerMessage.RunStatus _ _ => RUN_STATUS
  | ServerMessage.ListingHalt _ _ _ => LISTING_HALT
  | ServerMessage.News _ _ _ _ => NEWS
  | ServerMessage.OrderAccepted _ _ _ _ _ _ _ => ORDER_ACCEPTED
  | ServerMessage.OrderRejected _ _ _ => ORDER_REJECTED
  | ServerMessage.OrderRested _ _ _ _ _ _ => ORDER_RESTED
  | ServerMessage.OrderReduced _ _ _ _ _ => ORDER_REDUCED
  | ServerMessage.Fill _ _ _ _ _ _ _ _ _ => FILL
  | ServerMessage.OrderDone _ _ _ => ORDER_DONE
  | ServerMessage.OrderCanceled _ _ _ _ _ => ORDER_CANCELED
  | ServerMessage.CancelRejected _ _ _ => CANCEL_REJECTED
  | ServerMessage.PositionChanged _ _ _ => POSITION_CHANGED
  | ServerMessage.BalanceChanged _ _ => BALANCE_CHANGED
  | ServerMessage.KillSwitchActivated _ => KILL_SWITCH_ACTIVATED
  | ServerMessage.KillSwitchReset _ => KILL_SWITCH_RESET_DONE
  | ServerMessage.MarketSnapshot _ _ _ _ _ => MARKET_SNAPSHOT
  | ServerMessage.MarketUpdate _ _ _ _ => MARKET_UPDATE
  | ServerMessage.OrderSnapshot _ _ _ _ _ => ORDER_SNAPSHOT
  | ServerMessage.OrderUpdate _ _ _ _ => ORDER_UPDATE
  | ServerMessage.TapeSnapshot _ _ _ _ => TAPE_SNAPSHOT
  | ServerMessage.TapeUpdate _ _ _ _ => TAPE_UPDATE
  | ServerMessage.Listings _ _ => LISTINGS
  | ServerMessage.OpenOrders _ _ _ => OPEN_ORDERS
  | ServerMessage.Account _ _ _ _ => ACCOUNT
  | ServerMessage.Deals _ _ _ _ => DEALS
  | ServerMessage.ReferenceData _ _ _ _ _ _ => REFERENCE_DATA
  | ServerMessage.Enrolled _ _ _ => ENROLLED
  end.
(** [ServerMessage::stamp] *)
Definition message_stamp (message : ServerMessage) : option Stamp :=
  match message with
  | ServerMessage.Tender stamp _ | ServerMessage.Negotiation stamp _ | ServerMessage.RunStatus stamp _
  | ServerMessage.ListingHalt stamp _ _ | ServerMessage.News stamp _ _ _
  | ServerMessage.OrderAccepted stamp _ _ _ _ _ _ | ServerMessage.OrderRejected stamp _ _
  | ServerMessage.OrderRested stamp _ _ _ _ _ | ServerMessage.OrderReduced stamp _ _ _ _
  | ServerMessage.Fill stamp _ _ _ _ _ _ _ _ | ServerMessage.OrderDone stamp _ _
  | ServerMessage.OrderCanceled stamp _ _ _ _ | ServerMessage.CancelRejected stamp _ _
  | ServerMessage.PositionChanged stamp _ _ | ServerMessage.BalanceChanged stamp _
  | ServerMessage.KillSwitchActivated stamp | ServerMessage.KillSwitchReset stamp => Some stamp
  | _ => None
  end.

(** ** Values within their types *)

Definition listing_ok (x : Listing) : Prop :=
  fits U128 (ls_venue_id x) /\ fits U128 (ls_instrument_id x).
Definition stamp_ok (x : Stamp) : Prop :=
  fits U64 (st_sequence x) /\ fits U64 (st_logical_time_ns x).
Definition level_ok (x : Level) : Prop :=
  fits I64 (lv_price x) /\ fits I64 (lv_quantity x).
Definition tender_ok (x : TenderInfo) : Prop :=
  fits U128 (ti_tender_id x) /\ fits U128 (ti_participant_id x) /\ fits U128 (ti_instrument_id x) /\
  fits I64 (ti_quantity x) /\ fits I64 (ti_price x) /\ fits U64 (ti_expires_at_ns x).
Definition negotiation_ok (x : NegotiationInfo) : Prop :=
  fits U128 (ni_negotiation_id x) /\ fits U128 (ni_proposer_id x) /\ fits U128 (ni_counterparty_id x) /\
  fits U128 (ni_instrument_id x) /\ fits I64 (ni_quantity x) /\ fits I64 (ni_price x) /\
  fits U64 (ni_expires_at_ns x) /\ fits U128 (ni_awaiting x).
Definition component_ok (x : Z * Z) : Prop := fits U128 x.1 /\ fits I64 x.2.
Definition news_audience_ok (audience : NewsAudience) : Prop :=
  match audience with
  | NewsAudience.Public => True
  | NewsAudience.Participant value => fits U128 value
  | NewsAudience.Team value => fits U128 value
  | NewsAudience.Role value => string_ok value
  end.
Definition operator_action_ok (action : OperatorAction) : Prop :=
  match action with
  | OperatorAction.Start => True
  | OperatorAction.Pause => True
  | OperatorAction.Resume => True
  | OperatorAction.Advance steps => fits U32 steps
  | OperatorAction.Terminate reason => string_ok reason
  | OperatorAction.Halt instrument_id _ reason => fits U128 instrument_id /\ string_ok reason
  | OperatorAction.MassCancel participant_id instrument_id => option_ok (fits U128) participant_id /\ option_ok (fits U128) instrument_id
  | OperatorAction.PublishNews news_id audience headline body => fits U128 news_id /\ news_audience_ok audience /\ string_ok headline /\ string_ok body
  | OperatorAction.Score => True
  | OperatorAction.Fine participant_id currency_id amount reason => fits U128 participant_id /\ fits U128 currency_id /\ fits I128 amount /\ string_ok reason
  | OperatorAction.OpenTender tender_id participant_id instrument_id _ quantity price expires_at_ns => fits U128 tender_id /\ fits U128 participant_id /\ fits U128 instrument_id /\ fits I64 quantity /\ fits I64 price /\ fits U64 expires_at_ns
  end.
Definition order_type_ok (t : OrderType) : Prop :=
  match t with OrderType.Limit price => fits I64 price | OrderType.Market => True end.
Definition time_in_force_ok (t : TimeInForce) : Prop :=
  match t with TimeInForce.Gtd expires_at_ns => fits U64 expires_at_ns | _ => True end.
Definition new_order_ok (x : NewOrder) : Prop :=
  fits U64 (no_client_order_id x) /\ listing_ok (no_listing x) /\ fits I64 (no_quantity x) /\
  order_type_ok (no_order_type x) /\ time_in_force_ok (no_time_in_force x) /\
  option_ok (fits I64) (no_display_quantity x).
Definition order_entry_ok (entry : OrderEntry) : Prop :=
  match entry with
  | OrderEntry.Trade price quantity resting_reference buyer seller =>
      fits I64 price /\ fits I64 quantity /\ option_ok (fits U64) resting_reference /\ option_ok (fits U128) buyer /\
      option_ok (fits U128) seller
  | OrderEntry.Order _ _ reference price quantity broker =>
      fits U64 reference /\ fits I64 price /\ fits I64 quantity /\ option_ok (fits U128) broker
  end.
Definition welcome_ok (x : Welcome) : Prop :=
  fits U16 (wl_version x) /\ fits U128 (wl_run_id x) /\ fits U128 (wl_participant_id x) /\
  fits U32 (wl_heartbeat_ms x) /\ fits U32 (wl_max_frame_bytes x) /\ fits U64 (wl_run_sequence x).
Definition entry_ok (x : Entry) : Prop :=
  fits I64 (en_price x) /\ fits I64 (en_quantity x).
Definition book_order_ok (x : BookOrder) : Prop :=
  fits U64 (bo_reference x) /\ fits I64 (bo_price x) /\ fits I64 (bo_quantity x) /\
  option_ok (fits U128) (bo_broker x) /\ fits U32 (bo_queue_position x).
Definition tape_quote_ok (x : TapeQuote) : Prop :=
  fits U128 (tq_venue_id x) /\ fits I64 (tq_price x) /\ fits I64 (tq_quantity x).
Definition tape_entry_ok (x : TapeEntry) : Prop :=
  fits U128 (te_venue_id x) /\ fits I64 (te_price x) /\ fits I64 (te_quantity x).
Definition listing_info_ok (x : ListingInfo) : Prop :=
  listing_ok (li_listing x) /\ string_ok (li_symbol x).
Definition currency_info_ok (x : CurrencyInfo) : Prop :=
  fits U128 (ci_currency_id x) /\ string_ok (ci_code x) /\ string_ok (ci_name x) /\
  fits U8 (ci_minor_decimals x).
Definition instrument_ok (x : InstrumentInfo) : Prop :=
  fits U128 (ii_instrument_id x) /\ string_ok (ii_symbol x) /\ option_ok (fits U128) (ii_underlying x) /\
  option_ok (fits I64) (ii_strike x) /\ option_ok (fits U64) (ii_expiry_ns x) /\ fits U32 (ii_coupon_bps x) /\
  Forall component_ok (ii_components x) /\ fits I64 (ii_multiplier x) /\ fits U128 (ii_currency_id x) /\
  fits U8 (ii_quoted_decimals x) /\ option_ok (fits U64) (ii_window_start_ns x) /\
  option_ok (fits U64) (ii_window_stop_ns x) /\ string_ok (ii_display_unit x) /\
  string_ok (ii_description x) /\ option_ok (fits I64) (ii_opening_mark x) /\
  option_ok (fits I64) (ii_max_order_quantity x).
Definition listing_reference_ok (x : ListingReference) : Prop :=
  listing_ok (lr_listing x) /\ string_ok (lr_symbol x) /\ fits I64 (lr_min_price x) /\
  fits I64 (lr_max_price x) /\ fits I64 (lr_tick_size x) /\ fits I128 (lr_taker_fee_per_lot x) /\
  fits I128 (lr_maker_fee_per_lot x).
Definition open_order_ok (x : OpenOrder) : Prop :=
  fits U64 (op_client_order_id x) /\ fits U128 (op_order_id x) /\ listing_ok (op_listing x) /\
  fits I64 (op_price x) /\ fits I64 (op_original_quantity x) /\ fits I64 (op_remaining_quantity x).
Definition cash_balance_ok (x : CashBalance) : Prop :=
  fits U128 (cb_currency_id x) /\ fits I128 (cb_balance x) /\ fits I128 (cb_reserved x).
Definition position_ok (x : Position) : Prop :=
  fits U128 (po_instrument_id x) /\ fits I64 (po_position x) /\ fits I64 (po_open_buy x) /\
  fits I64 (po_open_sell x).
Definition client_ok (message : ClientMessage) : Prop :=
  match message with
  | ClientMessage.Hello version resume_after client_name => fits U16 version /\ option_ok (fits U64) resume_after /\ string_ok client_name
  | ClientMessage.Heartbeat => True
  | ClientMessage.ProbeReply probe_id => fits U64 probe_id
  | ClientMessage.Ping nonce => fits U64 nonce
  | ClientMessage.Logout reason => string_ok reason
  | ClientMessage.NewOrder value => new_order_ok value
  | ClientMessage.CancelOrder client_order_id => fits U64 client_order_id
  | ClientMessage.KillSwitch request_id => fits U64 request_id
  | ClientMessage.KillSwitchReset request_id => fits U64 request_id
  | ClientMessage.Subscribe request_id listing flags => fits U32 request_id /\ listing_ok listing /\ flags_ok flags
  | ClientMessage.Unsubscribe request_id => fits U32 request_id
  | ClientMessage.SnapshotRequest request_id listing depth => fits U32 request_id /\ listing_ok listing /\ fits U16 depth
  | ClientMessage.ListingsRequest request_id => fits U32 request_id
  | ClientMessage.OpenOrdersRequest request_id => fits U32 request_id
  | ClientMessage.AccountRequest request_id => fits U32 request_id
  | ClientMessage.OperatorCommand request_id action => fits U64 request_id /\ operator_action_ok action
  | ClientMessage.TenderDecision request_id tender_id _ => fits U64 request_id /\ fits U128 tender_id
  | ClientMessage.OtcPropose request_id negotiation_id counterparty_id instrument_id _ quantity price expires_at_ns => fits U64 request_id /\ fits U64 negotiation_id /\ fits U128 counterparty_id /\ fits U128 instrument_id /\ fits I64 quantity /\ fits I64 price /\ fits U64 expires_at_ns
  | ClientMessage.OtcCounter request_id negotiation_id quantity price => fits U64 request_id /\ fits U128 negotiation_id /\ fits I64 quantity /\ fits I64 price
  | ClientMessage.OtcDecision request_id negotiation_id _ => fits U64 request_id /\ fits U128 negotiation_id
  | ClientMessage.DealsRequest request_id => fits U32 request_id
  | ClientMessage.ReferenceDataRequest request_id after_instrument limit => fits U32 request_id /\ option_ok (fits U128) after_instrument /\ fits U16 limit
  | ClientMessage.Enroll secret csr_pem => string_ok secret /\ string_ok csr_pem
  end.
Definition server_ok (message : ServerMessage) : Prop :=
  match message with
  | ServerMessage.Welcome value => welcome_ok value
  | ServerMessage.Heartbeat => True
  | ServerMessage.Probe probe_id => fits U64 probe_id
  | ServerMessage.Pong nonce server_time_us => fits U64 nonce /\ fits U64 server_time_us
  | ServerMessage.Reject request_type reference reason => fits U8 request_type /\ fits U64 reference /\ string_ok reason
  | ServerMessage.ReplayComplete through_sequence => fits U64 through_sequence
  | ServerMessage.Logout reason => string_ok reason
  | ServerMessage.AccessDelay _ min_rtt_us one_way_us probe_samples => option_ok (fits U64) min_rtt_us /\ option_ok (fits U64) one_way_us /\ fits U64 probe_samples
  | ServerMessage.OperatorDone request_id run_sequence => fits U64 request_id /\ fits U64 run_sequence
  | ServerMessage.DealDone request_id run_sequence => fits U64 request_id /\ fits U64 run_sequence
  | ServerMessage.Tender stamp tender => stamp_ok stamp /\ tender_ok tender
  | ServerMessage.Negotiation stamp negotiation => stamp_ok stamp /\ negotiation_ok negotiation
  | ServerMessage.RunStatus stamp status => stamp_ok stamp /\ string_ok status
  | ServerMessage.ListingHalt stamp instrument_id _ => stamp_ok stamp /\ fits U128 instrument_id
  | ServerMessage.News stamp news_id headline body => stamp_ok stamp /\ fits U128 news_id /\ string_ok headline /\ string_ok body
  | ServerMessage.OrderAccepted stamp client_order_id order_id listing _ quantity price => stamp_ok stamp /\ fits U64 client_order_id /\ fits U128 order_id /\ listing_ok listing /\ fits I64 quantity /\ option_ok (fits I64) price
  | ServerMessage.OrderRejected stamp client_order_id _ => stamp_ok stamp /\ fits U64 client_order_id
  | ServerMessage.OrderRested stamp client_order_id order_id price remaining reference => stamp_ok stamp /\ fits U64 client_order_id /\ fits U128 order_id /\ fits I64 price /\ fits I64 remaining /\ option_ok (fits U64) reference
  | ServerMessage.OrderReduced stamp client_order_id order_id remaining reference => stamp_ok stamp /\ fits U64 client_order_id /\ fits U128 order_id /\ fits I64 remaining /\ option_ok (fits U64) reference
  | ServerMessage.Fill stamp client_order_id order_id listing _ price quantity fee _ => stamp_ok stamp /\ fits U64 client_order_id /\ fits U128 order_id /\ listing_ok listing /\ fits I64 price /\ fits I64 quantity /\ fits I128 fee
  | ServerMessage.OrderDone stamp client_order_id order_id => stamp_ok stamp /\ fits U64 client_order_id /\ fits U128 order_id
  | ServerMessage.OrderCanceled stamp client_order_id order_id remaining _ => stamp_ok stamp /\ fits U64 client_order_id /\ fits U128 order_id /\ fits I64 remaining
  | ServerMessage.CancelRejected stamp client_order_id _ => stamp_ok stamp /\ fits U64 client_order_id
  | ServerMessage.PositionChanged stamp instrument_id delta => stamp_ok stamp /\ fits U128 instrument_id /\ fits I64 delta
  | ServerMessage.BalanceChanged stamp delta => stamp_ok stamp /\ fits I128 delta
  | ServerMessage.KillSwitchActivated stamp => stamp_ok stamp
  | ServerMessage.KillSwitchReset stamp => stamp_ok stamp
  | ServerMessage.MarketSnapshot request_id listing next_report bids asks => fits U32 request_id /\ listing_ok listing /\ fits U64 next_report /\ Forall level_ok bids /\ Forall level_ok asks
  | ServerMessage.MarketUpdate request_id listing first_report entries => fits U32 request_id /\ listing_ok listing /\ fits U64 first_report /\ Forall entry_ok entries
  | ServerMessage.OrderSnapshot request_id listing next_report _ orders => fits U32 request_id /\ listing_ok listing /\ fits U64 next_report /\ Forall book_order_ok orders
  | ServerMessage.OrderUpdate request_id listing first_report entries => fits U32 request_id /\ listing_ok listing /\ fits U64 first_report /\ Forall order_entry_ok entries
  | ServerMessage.TapeSnapshot request_id instrument_id last_report quotes => fits U32 request_id /\ fits U128 instrument_id /\ fits U64 last_report /\ Forall tape_quote_ok quotes
  | ServerMessage.TapeUpdate request_id instrument_id first_report entries => fits U32 request_id /\ fits U128 instrument_id /\ fits U64 first_report /\ Forall tape_entry_ok entries
  | ServerMessage.Listings request_id listings => fits U32 request_id /\ Forall listing_info_ok listings
  | ServerMessage.OpenOrders request_id run_sequence orders => fits U32 request_id /\ fits U64 run_sequence /\ Forall open_order_ok orders
  | ServerMessage.Account request_id run_sequence cash positions => fits U32 request_id /\ fits U64 run_sequence /\ Forall cash_balance_ok cash /\ Forall position_ok positions
  | ServerMessage.Deals request_id run_sequence tenders negotiations => fits U32 request_id /\ fits U64 run_sequence /\ Forall tender_ok tenders /\ Forall negotiation_ok negotiations
  | ServerMessage.ReferenceData request_id run_sequence next_after currencies instruments listings => fits U32 request_id /\ fits U64 run_sequence /\ option_ok (fits U128) next_after /\ Forall currency_info_ok currencies /\ Forall instrument_ok instruments /\ Forall listing_reference_ok listings
  | ServerMessage.Enrolled participant_id certificate_pem ca_pem => fits U128 participant_id /\ string_ok certificate_pem /\ string_ok ca_pem
  end.
