(* ===== verification/BnpChain.v ===== *)
(** * bnp-wire: writers and readers that match

    [rt ws r x]: what the writers [ws] wrote, [r] reads as [x] and no more.
    [chain e P r]: whatever [r] reads, it took a prefix of the bytes that
    decides the value, and the value is written again with as many bytes --
    the same bytes when [e] holds.  A [Codec] has both; the rules below follow
    the code field by field. *)

From S2P Require Import Prelude Digest BnpBytes BnpWire.
#[local] Open Scope list_scope.

Definition rt {A} (ws : list Writer) (r : Reader A) (x : A) : Prop :=
  forall bs rest, write_all ws = Ok bs -> r (bs ++ rest) = (rest, Ok x).

(** Equal bytes, or as many of them. *)
Definition same (e : bool) (a b : Bytes) : Prop := if e then a = b else length a = length b.
Definition chain {A} (e : bool) (P : A -> list Writer -> Prop) (r : Reader A) : Prop :=
  forall bs rest x, Forall is_byte bs -> r bs = (rest, Ok x) ->
  exists pre pre' ws, bs = pre ++ rest /\ P x ws /\ write_all ws = Ok pre' /\ same e pre' pre /\
    forall rest', r (pre ++ rest') = (rest', Ok x).

(** A writer and the reader of its bytes.  Every value takes at least a byte,
    which the bound of [read_group] relies on. *)
Class Codec {A} (e : bool) (w : A -> Writer) (r : Reader A) (ok : A -> Prop) := {
  codec_rt : forall x, ok x -> rt [w x] r x;
  codec_chain : chain e (fun x ws => ok x /\ w x = write_all ws) r;
  codec_nonempty : forall x bs, w x = Ok bs -> bs <> []
}.

Lemma same_app e a a' b b' : same e a a' -> same e b b' -> same e (a ++ b) (a' ++ b').
Proof. destruct e; simpl; [by intros -> -> | rewrite !length_app; lia]. Qed.
Lemma same_refl e a : same e a a.
Proof. by destruct e. Qed.
Lemma same_length e a b : same e a b -> length a = length b.
Proof. by destruct e; simpl; [intros -> |]. Qed.
Lemma write_two_Ok w1 w2 bs :
  write_two w1 w2 = Ok bs <-> exists b1 b2, w1 = Ok b1 /\ w2 = Ok b2 /\ bs = b1 ++ b2.
Proof.
  unfold write_two, mbind, result_bind. destruct w1, w2; naive_solver.
Qed.
Lemma write_one w : write_all [w] = w.
Proof. unfold write_all, write_two, mbind, result_bind; simpl. destruct w; [by rewrite app_nil_r | done]. Qed.
Lemma write_all_app ws ws' : write_all (ws ++ ws') = write_two (write_all ws) (write_all ws').
Proof.
  induction ws as [|w ws IH]; unfold write_two, mbind, result_bind; simpl; [by destruct (write_all ws') |].
  change (foldr write_two (Ok []) (ws ++ ws')) with (write_all (ws ++ ws')). rewrite IH.
  unfold write_two, mbind, result_bind. destruct w; [| done].
  change (foldr write_two (Ok []) ws) with (write_all ws).
  destruct (write_all ws), (write_all ws'); try done. by rewrite app_assoc.
Qed.
Lemma write_all_cons_Ok w ws bs :
  write_all (w :: ws) = Ok bs -> exists b1 b2, w = Ok b1 /\ write_all ws = Ok b2 /\ bs = b1 ++ b2.
Proof. apply write_two_Ok. Qed.
Lemma write_all_cons_nonempty (w : Writer) ws bs :
  (forall b, w = Ok b -> b <> []) -> write_all (w :: ws) = Ok bs -> bs <> [].
Proof.
  intros Hw (b1 & b2 & H1 & _ & ->)%write_all_cons_Ok. specialize (Hw b1 H1). by destruct b1.
Qed.

(** ** What was written is read *)

Lemma rt_ret {A} (x : A) : rt [] (mret x) x.
Proof. by intros bs rest [= <-]. Qed.
Lemma rt_seq {A B} w ws (r : Reader A) (k : A -> Reader B) a y :
  rt [w] r a -> rt ws (k a) y -> rt (w :: ws) (r ≫= k) y.
Proof.
  intros Hr Hk bs rest (b1 & b2 & H1 & H2 & ->)%write_all_cons_Ok. rewrite <- app_assoc.
  rewrite (bind_run _ _ _ _ _ (Hr b1 _ ltac:(by rewrite write_one))). by apply Hk.
Qed.
Lemma rt_cons {A B} e (w : A -> Writer) ws r (k : A -> Reader B) (ok : A -> Prop) a y :
  Codec e w r ok -> ok a -> rt ws (k a) y -> rt (w a :: ws) (r ≫= k) y.
Proof. intros HC Ha. by apply rt_seq, codec_rt. Qed.
Lemma rt_bytes bs : rt [write_bytes bs] (read_bytes (length bs)) bs.
Proof.
  intros b rest. rewrite write_one. intros [= <-]. unfold read_bytes. rewrite bind_gets.
  change (id (bs ++ rest)) with (bs ++ rest).
  rewrite bind_refuse by (apply Nat.ltb_ge; rewrite length_app; lia).
  rewrite bind_modify, drop_app_length, take_app_length. done.
Qed.
Lemma rt_refuse {A} ws b err (k : unit -> Reader A) y :
  b = false -> rt ws (k tt) y -> rt ws (refuse_if b err ≫= k) y.
Proof. intros -> Hk bs rest Hw. rewrite bind_refuse by done. by apply Hk. Qed.
Lemma rt_lift {A B} ws (v : result WireError A) a (k : A -> Reader B) y :
  v = Ok a -> rt ws (k a) y -> rt ws (lift v ≫= k) y.
Proof. intros -> Hk bs rest Hw. rewrite (bind_lift (Ok a) k _ a) by done. by apply Hk. Qed.
Lemma rt_lift_end {A} (a : A) v : v = Ok a -> rt [] (lift v) a.
Proof. by intros -> bs rest [= <-]. Qed.

(** ** What is read was written *)

Lemma chain_ret {A} e (P : A -> list Writer -> Prop) x : P x [] -> chain e P (mret x).
Proof.
  intros HP bs rest y _ [= <- <-]. exists [], [], []. repeat split; [done | apply same_refl].
Qed.
Lemma chain_throw {A} e (P : A -> list Writer -> Prop) err : chain e P (throw err).
Proof. by intros bs rest x _ [=]. Qed.
Lemma chain_seq {A B} e (Q : A -> list Writer -> Prop) (P : B -> list Writer -> Prop) r k :
  chain e Q r -> (forall a ws, Q a ws -> chain e (fun y ws' => P y (ws ++ ws')) (k a)) ->
  chain e P (r ≫= k).
Proof.
  intros Hr Hk bs rest y Hb (mid & a & H1 & H2)%bind_Ok_inv.
  destruct (Hr _ _ _ Hb H1) as (p1 & p1' & ws1 & -> & HQ & Hw1 & Hs1 & Hl1).
  apply Forall_app in Hb as [_ Hb].
  destruct (Hk _ _ HQ _ _ _ Hb H2) as (p2 & p2' & ws2 & -> & HP & Hw2 & Hs2 & Hl2).
  exists (p1 ++ p2), (p1' ++ p2'), (ws1 ++ ws2). rewrite app_assoc. repeat split; [done | | by apply same_app |].
  - rewrite write_all_app. apply write_two_Ok. eauto.
  - intros rest'. rewrite <- app_assoc. rewrite (bind_run _ _ _ _ _ (Hl1 _)). apply Hl2.
Qed.
Lemma chain_mono {A} e (P Q : A -> list Writer -> Prop) r :
  chain e P r -> (forall x ws, P x ws -> exists ws', Q x ws' /\ write_all ws' = write_all ws) -> chain e Q r.
Proof.
  intros Hr HPQ bs rest x Hb Hx. destruct (Hr _ _ _ Hb Hx) as (p & p' & ws & Hp & HP & Hw & Hs & Hl).
  destruct (HPQ _ _ HP) as (ws' & HQ & E). exists p, p', ws'. by rewrite E.
Qed.
Lemma chain_bind {A B} e (w : A -> Writer) r (ok : A -> Prop) (P : B -> list Writer -> Prop) k :
  Codec e w r ok -> (forall a, ok a -> chain e (fun y ws => P y (w a :: ws)) (k a)) -> chain e P (r ≫= k).
Proof.
  intros HC Hk. apply (chain_seq e (fun a ws => ok a /\ ws = [w a])).
  - eapply chain_mono; [apply codec_chain |]. intros x ws [Hx Hw]. exists [w x]. by rewrite write_one.
  - intros a ws [Ha ->]. by apply Hk.
Qed.
Lemma chain_if {A} e (P : A -> list Writer -> Prop) (b : bool) r1 r2 :
  (b = true -> chain e P r1) -> (b = false -> chain e P r2) -> chain e P (if b then r1 else r2).
Proof. destruct b; auto. Qed.
Lemma chain_lift {A} e (P : A -> list Writer -> Prop) v :
  (forall a, v = Ok a -> P a []) -> chain e P (lift v).
Proof.
  intros HP bs rest x _ [-> Hv]%lift_Ok_inv. exists [], [], []. repeat split; [auto | apply same_refl |].
  intros rest'. unfold lift. by rewrite Hv.
Qed.
Lemma chain_lift_bind {A B} e (P : B -> list Writer -> Prop) (v : result WireError A) k :
  (forall a, v = Ok a -> chain e P (k a)) -> chain e P (lift v ≫= k).
Proof.
  intros Hk. apply (chain_seq e (fun a ws => v = Ok a /\ ws = [])); [by apply chain_lift |].
  intros a ws [Ha ->]. by apply Hk.
Qed.
Lemma chain_refuse {A} e (P : A -> list Writer -> Prop) b err k :
  (b = false -> chain e P (k tt)) -> chain e P (refuse_if b err ≫= k).
Proof.
  intros Hk. destruct b; [by intros bs rest x _ [=] |]. intros bs rest x Hb Hx.
  rewrite bind_refuse in Hx by done. exact (Hk eq_refl bs rest x Hb Hx).
Qed.
Lemma read_bytes_app b rest : read_bytes (length b) (b ++ rest) = (rest, Ok b).
Proof. apply (rt_bytes b b rest). apply write_one. Qed.
Lemma chain_read_bytes e n :
  chain e (fun b ws => length b = n /\ Forall is_byte b /\ ws = [write_bytes b]) (read_bytes n).
Proof.
  intros bs rest x Hb Hx. unfold read_bytes in Hx. rewrite bind_gets in Hx. change (id bs) with bs in Hx.
  apply bind_Ok_inv in Hx as (s1 & u & [-> Hn%Nat.ltb_ge]%refuse_if_Ok_inv & Hx).
  rewrite bind_modify in Hx. injection Hx as <- <-.
  assert (length (take n bs) = n) as Hl by (rewrite length_take; lia).
  exists (take n bs), (take n bs), [write_bytes (take n bs)]. rewrite take_drop, write_one.
  repeat split; [done | by apply Forall_take | apply same_refl |].
  intros rest'. rewrite <- Hl at 1. apply read_bytes_app.
Qed.
Lemma chain_bytes {A} e n (P : A -> list Writer -> Prop) k :
  (forall b, length b = n -> Forall is_byte b -> chain e (fun y ws => P y (write_bytes b :: ws)) (k b)) ->
  chain e P (read_bytes n ≫= k).
Proof. intros Hk. eapply chain_seq; [apply chain_read_bytes |]. intros b ws (Hn & Hb & ->). by apply Hk. Qed.

(** ** Integers *)

Lemma length_le_bytes n v : length (le_bytes n v) = n.
Proof. revert v. induction n as [|n IH]; intros v; simpl; [done | by rewrite IH]. Qed.
Lemma le_value_range bs : Forall is_byte bs -> 0 <= le_value bs < 256 ^ Z.of_nat (length bs).
Proof.
  induction 1 as [|b bs Hb _ IH]; [done |]. cbn [le_value length]. rewrite Nat2Z.inj_succ, Z.pow_succ_r by lia.
  unfold is_byte in Hb. lia.
Qed.
Lemma le_value_bytes n v : le_value (le_bytes n v) = v mod 256 ^ Z.of_nat n.
Proof.
  revert v. induction n as [|n IH]; intros v; cbn [le_value le_bytes].
  - by rewrite Z.mod_1_r.
  - rewrite IH, Nat2Z.inj_succ, Z.pow_succ_r by lia. rewrite Z.rem_mul_r by lia. done.
Qed.
Lemma le_bytes_value bs k :
  Forall is_byte bs -> le_bytes (length bs) (le_value bs + k * 256 ^ Z.of_nat (length bs)) = bs.
Proof.
  induction 1 as [|b bs Hb _ IH]; [done |]. cbn [le_value le_bytes length].
  rewrite Nat2Z.inj_succ, Z.pow_succ_r by lia.
  replace (b + 256 * le_value bs + k * (256 * 256 ^ Z.of_nat (length bs)))
    with (b + (le_value bs + k * 256 ^ Z.of_nat (length bs)) * 256) by lia.
  unfold is_byte in Hb. rewrite Z.mod_add, Z.div_add, Z.mod_small, Z.div_small, Z.add_0_l by lia. by rewrite IH.
Qed.
(** The values of a type, as two's complement in its bytes. *)
Lemma int_modulus t :
  256 ^ Z.of_nat (width t) = 2 ^ (8 * Z.of_nat (width t)) /\ 0 <= int_max t /\
  int_max t < 256 ^ Z.of_nat (width t) /\
  (int_min t = 0 /\ int_max t + 1 = 256 ^ Z.of_nat (width t) \/
   int_min t = - (int_max t + 1) /\ 2 * (int_max t + 1) = 256 ^ Z.of_nat (width t)).
Proof. destruct t; vm_compute; intuition congruence. Qed.
Lemma from_to_le_bytes t v : fits t v -> from_le_bytes t (to_le_bytes t v) = v.
Proof.
  unfold fits, from_le_bytes, to_le_bytes. rewrite le_value_bytes.
  destruct (int_modulus t) as (<- & H0 & H1 & [[H2 H3] | [H2 H3]]); intros Hv.
  - rewrite Z.mod_small by lia. destruct (Z.ltb_spec (int_max t) v); lia.
  - destruct (decide (0 <= v)).
    + rewrite Z.mod_small by lia. destruct (Z.ltb_spec (int_max t) v); lia.
    + replace (v mod _) with (v + 256 ^ Z.of_nat (width t)).
      * destruct (Z.ltb_spec (int_max t) (v + 256 ^ Z.of_nat (width t))); lia.
      * apply (Z.mod_unique _ _ (-1)); lia.
Qed.
Lemma to_from_le_bytes t bs :
  Forall is_byte bs -> length bs = width t ->
  fits t (from_le_bytes t bs) /\ to_le_bytes t (from_le_bytes t bs) = bs.
Proof.
  unfold fits, from_le_bytes, to_le_bytes. intros Hb Hl.
  pose proof (le_value_range bs Hb) as Hr. pose proof (le_bytes_value bs) as HE. rewrite Hl in Hr, HE.
  destruct (int_modulus t) as (<- & H0 & H1 & H2).
  destruct (Z.ltb_spec (int_max t) (le_value bs)).
  - split; [lia |]. rewrite <- (HE (-1) Hb) at 2. f_equal; lia.
  - split; [lia |]. rewrite <- (HE 0 Hb) at 2. f_equal; lia.
Qed.
Lemma int_codec e t : Codec e (fun v => Ok (to_le_bytes t v)) (read_int t) (fits t).
Proof.
  split.
  - intros v Hv. unfold read_int. eapply rt_seq.
    + rewrite <- (length_le_bytes (width t) v) at 1. apply rt_bytes.
    + rewrite <- (from_to_le_bytes t v Hv) at 2. apply rt_ret.
  - apply chain_bytes. intros b Hl Hb. apply chain_ret. destruct (to_from_le_bytes t b Hb Hl) as [Hf HE].
    by rewrite HE, write_one.
  - intros v bs [= <-] H. apply (f_equal length) in H. unfold to_le_bytes in H. rewrite length_le_bytes in H.
    by destruct t.
Qed.
#[export] Instance u8_codec e : Codec e write_u8 read_u8 (fits U8) := int_codec e U8.
#[export] Instance u16_codec e : Codec e write_u16 read_u16 (fits U16) := int_codec e U16.
#[export] Instance u32_codec e : Codec e write_u32 read_u32 (fits U32) := int_codec e U32.
#[export] Instance u64_codec e : Codec e write_u64 read_u64 (fits U64) := int_codec e U64.
#[export] Instance i64_codec e : Codec e write_i64 read_i64 (fits I64) := int_codec e I64.
#[export] Instance u128_codec e : Codec e write_u128 read_u128 (fits U128) := int_codec e U128.
#[export] Instance i128_codec e : Codec e write_i128 read_i128 (fits I128) := int_codec e I128.

(** ** Flags, enumerations and options *)

Lemma fits_u8 v : 0 <= v <= 255 -> fits U8 v.
Proof. done. Qed.
(** A byte that selects the rest: the writer side and the reader side. *)
Lemma rt_u8 {A} ws (k : Z -> Reader A) v y : 0 <= v <= 255 -> rt ws (k v) y -> rt (write_u8 v :: ws) (read_u8 ≫= k) y.
Proof. intros Hv. exact (rt_cons true write_u8 ws read_u8 k (fits U8) v y (u8_codec true) Hv). Qed.

#[export] Instance bool_codec e : Codec e write_bool read_bool (fun _ => True).
Proof.
  split.
  - intros b _. unfold write_bool, read_bool. apply rt_u8; [by destruct b |]. destruct b; apply rt_ret.
  - unfold read_bool. eapply chain_bind; [apply u8_codec |]. intros v _.
    apply chain_if; [| intros _; apply chain_if].
    + intros ->%Z.eqb_eq. by apply chain_ret.
    + intros ->%Z.eqb_eq. by apply chain_ret.
    + intros _. apply chain_throw.
  - intros b bs. apply (codec_nonempty (Codec := u8_codec e)).
Qed.

Lemma from_wire_Ok {A} `{WireEnum A} v (a : A) : from_wire v = Ok a <-> v = to_wire a.
Proof.
  unfold from_wire. split.
  - destruct (find _ _) as [b|] eqn:Hf; [| done]. intros [= <-]. by apply find_some in Hf as [_ ->%Z.eqb_eq].
  - intros ->. by rewrite enum_distinct.
Qed.
#[export] Instance enum_codec {A} `{WireEnum A} e : Codec e write_enum read_enum (fun _ : A => True).
Proof.
  split.
  - intros a _. unfold write_enum, read_enum. apply rt_u8; [apply to_wire_byte |].
    apply rt_lift_end, from_wire_Ok. done.
  - unfold read_enum. eapply chain_bind; [apply u8_codec |]. intros v _. apply chain_lift.
    intros a ->%from_wire_Ok. by rewrite write_one.
  - intros a bs. apply (codec_nonempty (Codec := u8_codec e)).
Qed.

Lemma write_two_all w1 w2 : write_two w1 w2 = write_all [w1; w2].
Proof. change (write_all [w1; w2]) with (write_two w1 (write_all [w2])). by rewrite write_one. Qed.
Lemma write_two_nonempty w1 w2 bs :
  (forall b, w1 = Ok b -> b <> []) -> write_two w1 w2 = Ok bs -> bs <> [].
Proof. rewrite write_two_all. apply write_all_cons_nonempty. Qed.
Lemma rt_one {A} w ws (r : Reader A) x : w = write_all ws -> rt ws r x -> rt [w] r x.
Proof. intros Hw Hr bs rest Hb. apply Hr. rewrite <- Hw, <- Hb. by rewrite write_one. Qed.
Lemma u8_nonempty v bs : write_u8 v = Ok bs -> bs <> [].
Proof. apply (codec_nonempty (Codec := u8_codec true)). Qed.
Lemma u16_nonempty v bs : write_u16 v = Ok bs -> bs <> [].
Proof. apply (codec_nonempty (Codec := u16_codec true)). Qed.

#[export] Instance option_codec {A} e (w : A -> Writer) r ok :
  Codec e w r ok -> Codec e (write_option w) (read_option r) (option_ok ok).
Proof.
  intros HC. split.
  - intros [a|] Ha; cbn [write_option option_ok] in *.
    + eapply rt_one; [apply write_two_all |]. apply (rt_cons e write_bool _ _ _ (fun _ => True) true); [apply _ | done |].
      eapply rt_cons; [done | done |]. apply rt_ret.
    + apply (rt_cons e write_bool _ _ _ (fun _ => True) false); [apply _ | done |]. apply rt_ret.
  - unfold read_option. eapply chain_bind; [apply bool_codec |]. intros [|] _.
    + eapply chain_bind; [done |]. intros a Ha. apply chain_ret. split; [done | apply write_two_all].
    + apply chain_ret. by rewrite write_one.
  - intros [a|] bs; cbn [write_option]; [apply write_two_nonempty |]; apply u8_nonempty.
Qed.

(** ** Strings and groups *)

Lemma rt_bounded {A} (b : bool) err w1 w2 (r : Reader A) x :
  (b = false -> rt [w1; w2] r x) -> rt [if b then Err err else write_two w1 w2] r x.
Proof.
  intros Hr bs rest. rewrite write_one. destruct b; [done |]. rewrite write_two_all. by apply Hr.
Qed.
Lemma bounded_nonempty (b : bool) err v w bs :
  (if b then Err err else write_two (write_u16 v) w) = Ok bs -> bs <> [].
Proof. destruct b; [done |]. apply write_two_nonempty, u16_nonempty. Qed.
Lemma fits_u16 v : 0 <= v <= 65535 -> fits U16 v.
Proof. done. Qed.
Lemma fits_u16_inv v : fits U16 v -> 0 <= v.
Proof. by intros [H _]. Qed.

#[export] Instance string_codec e : Codec e write_string read_string string_ok.
Proof.
  split.
  - intros s Hs. unfold write_string. apply rt_bounded. intros Hm. pose proof Hm as Hl%Z.ltb_ge.
    unfold MAX_STRING_BYTES in Hl. unfold read_string.
    eapply (rt_cons true); [apply u16_codec | apply fits_u16; lia |]. apply rt_refuse; [done |].
    rewrite Nat2Z.id. eapply rt_seq; [apply rt_bytes |]. apply rt_refuse; [by rewrite Hs | apply rt_ret].
  - unfold read_string. eapply chain_bind; [apply u16_codec |]. intros n Hn%fits_u16_inv. apply chain_refuse.
    intros Hm. apply chain_bytes. intros s Hs _. apply chain_refuse. intros Hu%negb_false_iff. apply chain_ret.
    split; [done |]. unfold write_string. rewrite Hs, Z2Nat.id, Hm by done. apply write_two_all.
  - intros s bs. apply bounded_nonempty.
Qed.

Section group.
Context {A : Type} {e : bool} {w : A -> Writer} {r : Reader A} {ok : A -> Prop} `{HC : !Codec e w r ok}.

Lemma rt_times items : Forall ok items -> rt (w <$> items) (read_times (length items) r) items.
Proof.
  induction 1 as [|a items Ha _ IH]; [apply rt_ret |]. rewrite fmap_cons. cbn [read_times length].
  eapply rt_cons; [done | done |]. intros bs rest Hb. rewrite (bind_run _ _ _ _ _ (IH bs rest Hb)). done.
Qed.
Lemma chain_times n :
  chain e (fun items ws => length items = n /\ Forall ok items /\ ws = w <$> items) (read_times n r).
Proof.
  induction n as [|n IH]; [by apply chain_ret |]. cbn [read_times]. eapply chain_bind; [done |]. intros a Ha.
  eapply chain_seq; [exact IH |]. intros items ws (Hl & Hi & ->). apply chain_ret. rewrite app_nil_r.
  split; [simpl; lia |]. by split; [constructor |].
Qed.
Lemma items_length (items : list A) bs : write_all (w <$> items) = Ok bs -> (length items <= length bs)%nat.
Proof.
  revert bs. induction items as [|a items IH]; intros bs; [simpl; lia |]. rewrite fmap_cons.
  intros (b1 & b2 & H1 & H2 & ->)%write_all_cons_Ok. apply IH in H2. apply codec_nonempty in H1.
  rewrite length_app. destruct b1; simpl; [done | lia].
Qed.

#[export] Instance group_codec : Codec e (write_group w) (read_group r) (Forall ok).
Proof.
  split.
  - intros items Hi. unfold write_group. apply rt_bounded. intros Hm bs rest Hb. pose proof Hm as Hl%Z.ltb_ge.
    unfold MAX_GROUP_ENTRIES in Hl. apply write_all_cons_Ok in Hb as (b1 & b2 & H1 & H2 & ->).
    rewrite write_one in H2.
    unfold read_group. rewrite <- app_assoc.
    assert (rt [write_u16 (Z.of_nat (length items))] read_u16 (Z.of_nat (length items))) as Hu
      by (apply (codec_rt (Codec := u16_codec true)), fits_u16; lia).
    rewrite (bind_run _ _ _ _ _ (Hu b1 (b2 ++ rest) ltac:(by rewrite write_one))).
    rewrite bind_refuse by done. rewrite bind_gets. apply items_length in H2 as Hn.
    rewrite bind_refuse by (apply Z.ltb_ge; rewrite length_app; lia). rewrite Nat2Z.id. by apply rt_times.
  - unfold read_group. eapply chain_bind; [apply u16_codec |]. intros n Hn%fits_u16_inv. apply chain_refuse. intros Hm.
    intros bs rest items Hb. rewrite bind_gets.
    intros (s1 & u & [-> _]%refuse_if_Ok_inv & Hx)%bind_Ok_inv.
    destruct (chain_times _ _ _ _ Hb Hx) as (p & p' & ws & -> & (Hl & Hi & ->) & Hw & Hs & Hloc).
    exists p, p', [write_all (w <$> items)]. rewrite write_one. repeat split; [done | | done | done |].
    + unfold write_group. rewrite Hl, Z2Nat.id, Hm by done. apply write_two_all.
    + intros rest'. rewrite bind_gets. apply items_length in Hw. apply same_length in Hs.
      rewrite bind_refuse; [done |]. apply Z.ltb_ge. rewrite length_app. lia.
  - intros items bs. apply bounded_nonempty.
Qed.
End group.
