(* ===== verification/BnpCodec.v ===== *)
(** * bnp-wire: encoding and decoding

    [packages/bnp-wire/src/codec.rs]: the body of every message in both
    directions, frames, and the splitting of a byte stream into frames. *)

From S2P Require Import Prelude Digest BnpBytes BnpWire.
#[local] Open Scope list_scope.

(** ** Structures *)

Definition write_listing (x : Listing) : Writer :=
  write_all [
    write_u128 (ls_venue_id x); write_u128 (ls_instrument_id x)].
Definition read_listing : Reader Listing :=
  venue_id ← read_u128;
  instrument_id ← read_u128;
  mret (mkListing venue_id instrument_id).
Definition write_stamp (x : Stamp) : Writer :=
  write_all [
    write_u64 (st_sequence x); write_u64 (st_logical_time_ns x)].
Definition read_stamp : Reader Stamp :=
  sequence ← read_u64;
  logical_time_ns ← read_u64;
  mret (mkStamp sequence logical_time_ns).
Definition write_level (x : Level) : Writer :=
  write_all [
    write_i64 (lv_price x); write_i64 (lv_quantity x)].
Definition read_level : Reader Level :=
  price ← read_i64;
  quantity ← read_i64;
  mret (mkLevel price quantity).
Definition write_tender (x : TenderInfo) : Writer :=
  write_all [
    write_u128 (ti_tender_id x); write_u128 (ti_participant_id x); write_u128 (ti_instrument_id x);
    write_enum (ti_side x); write_i64 (ti_quantity x); write_i64 (ti_price x); write_u64 (ti_expires_at_ns x);
    write_enum (ti_status x)].
Definition read_tender : Reader TenderInfo :=
  tender_id ← read_u128;
  participant_id ← read_u128;
  instrument_id ← read_u128;
  side ← read_enum;
  quantity ← read_i64;
  price ← read_i64;
  expires_at_ns ← read_u64;
  status ← read_enum;
  mret (mkTenderInfo tender_id participant_id instrument_id side quantity price expires_at_ns status).
Definition write_negotiation (x : NegotiationInfo) : Writer :=
  write_all [
    write_u128 (ni_negotiation_id x); write_u128 (ni_proposer_id x); write_u128 (ni_counterparty_id x);
    write_u128 (ni_instrument_id x); write_enum (ni_side x); write_i64 (ni_quantity x); write_i64 (ni_price x);
    write_u64 (ni_expires_at_ns x); write_enum (ni_status x); write_u128 (ni_awaiting x)].
Definition read_negotiation : Reader NegotiationInfo :=
  negotiation_id ← read_u128;
  proposer_id ← read_u128;
  counterparty_id ← read_u128;
  instrument_id ← read_u128;
  side ← read_enum;
  quantity ← read_i64;
  price ← read_i64;
  expires_at_ns ← read_u64;
  status ← read_enum;
  awaiting ← read_u128;
  mret (mkNegotiationInfo negotiation_id proposer_id counterparty_id instrument_id side quantity price expires_at_ns status awaiting).
Definition write_flags (flags : FeedFlags) : Writer := write_u8 flags.
Definition read_flags : Reader FeedFlags :=
  v ← read_u8;
  lift (flags_from_wire v).
Definition write_component (x : Z * Z) : Writer := write_all [write_u128 x.1; write_i64 x.2].
Definition read_component : Reader (Z * Z) :=
  component ← read_u128;
  weight ← read_i64;
  mret (component, weight).

Definition write_welcome (x : Welcome) : Writer :=
  write_all [
    write_u16 (wl_version x); write_u128 (wl_run_id x); write_u128 (wl_participant_id x);
    write_enum (wl_role x); write_u32 (wl_heartbeat_ms x); write_u32 (wl_max_frame_bytes x);
    write_enum (wl_resume x); write_u64 (wl_run_sequence x)].
Definition read_welcome : Reader Welcome :=
  version ← read_u16;
  run_id ← read_u128;
  participant_id ← read_u128;
  role ← read_enum;
  heartbeat_ms ← read_u32;
  max_frame_bytes ← read_u32;
  resume ← read_enum;
  run_sequence ← read_u64;
  mret (mkWelcome version run_id participant_id role heartbeat_ms max_frame_bytes resume run_sequence).
Definition write_entry (x : Entry) : Writer :=
  write_all [
    write_enum (en_kind x); write_i64 (en_price x); write_i64 (en_quantity x)].
Definition read_entry : Reader Entry :=
  kind ← read_enum;
  price ← read_i64;
  quantity ← read_i64;
  mret (mkEntry kind price quantity).
Definition write_book_order (x : BookOrder) : Writer :=
  write_all [
    write_enum (bo_side x); write_u64 (bo_reference x); write_i64 (bo_price x); write_i64 (bo_quantity x);
    write_option write_u128 (bo_broker x); write_u32 (bo_queue_position x)].
Definition read_book_order : Reader BookOrder :=
  side ← read_enum;
  reference ← read_u64;
  price ← read_i64;
  quantity ← read_i64;
  broker ← read_option read_u128;
  queue_position ← read_u32;
  mret (mkBookOrder side reference price quantity broker queue_position).
Definition write_tape_quote (x : TapeQuote) : Writer :=
  write_all [
    write_u128 (tq_venue_id x); write_enum (tq_side x); write_i64 (tq_price x); write_i64 (tq_quantity x)].
Definition read_tape_quote : Reader TapeQuote :=
  venue_id ← read_u128;
  side ← read_enum;
  price ← read_i64;
  quantity ← read_i64;
  mret (mkTapeQuote venue_id side price quantity).
Definition write_tape_entry (x : TapeEntry) : Writer :=
  write_all [
    write_u128 (te_venue_id x); write_enum (te_kind x); write_i64 (te_price x); write_i64 (te_quantity x)].
Definition read_tape_entry : Reader TapeEntry :=
  venue_id ← read_u128;
  kind ← read_enum;
  price ← read_i64;
  quantity ← read_i64;
  mret (mkTapeEntry venue_id kind price quantity).
Definition write_listing_info (x : ListingInfo) : Writer :=
  write_all [
    write_listing (li_listing x); write_string (li_symbol x)].
Definition read_listing_info : Reader ListingInfo :=
  listing ← read_listing;
  symbol ← read_string;
  mret (mkListingInfo listing symbol).
Definition write_currency_info (x : CurrencyInfo) : Writer :=
  write_all [
    write_u128 (ci_currency_id x); write_string (ci_code x); write_string (ci_name x);
    write_u8 (ci_minor_decimals x)].
Definition read_currency_info : Reader CurrencyInfo :=
  currency_id ← read_u128;
  code ← read_string;
  name ← read_string;
  minor_decimals ← read_u8;
  mret (mkCurrencyInfo currency_id code name minor_decimals).
Definition write_instrument (x : InstrumentInfo) : Writer :=
  write_all [
    write_u128 (ii_instrument_id x); write_string (ii_symbol x); write_enum (ii_kind x);
    write_option write_u128 (ii_underlying x); write_option write_i64 (ii_strike x);
    write_option write_u64 (ii_expiry_ns x); write_bool (ii_is_call x); write_bool (ii_physical_delivery x);
    write_u32 (ii_coupon_bps x); write_group write_component (ii_components x); write_i64 (ii_multiplier x);
    write_u128 (ii_currency_id x); write_u8 (ii_quoted_decimals x); write_bool (ii_shortable x);
    write_bool (ii_tradeable x); write_option write_u64 (ii_window_start_ns x);
    write_option write_u64 (ii_window_stop_ns x); write_string (ii_display_unit x);
    write_string (ii_description x); write_option write_i64 (ii_opening_mark x);
    write_option write_i64 (ii_max_order_quantity x)].
Definition read_instrument : Reader InstrumentInfo :=
  instrument_id ← read_u128;
  symbol ← read_string;
  kind ← read_enum;
  underlying ← read_option read_u128;
  strike ← read_option read_i64;
  expiry_ns ← read_option read_u64;
  is_call ← read_bool;
  physical_delivery ← read_bool;
  coupon_bps ← read_u32;
  components ← read_group read_component;
  multiplier ← read_i64;
  currency_id ← read_u128;
  quoted_decimals ← read_u8;
  shortable ← read_bool;
  tradeable ← read_bool;
  window_start_ns ← read_option read_u64;
  window_stop_ns ← read_option read_u64;
  display_unit ← read_string;
  description ← read_string;
  opening_mark ← read_option read_i64;
  max_order_quantity ← read_option read_i64;
  mret (mkInstrumentInfo instrument_id symbol kind underlying strike expiry_ns is_call physical_delivery coupon_bps components multiplier currency_id quoted_decimals shortable tradeable window_start_ns window_stop_ns display_unit description opening_mark max_order_quantity).
Definition write_listing_reference (x : ListingReference) : Writer :=
  write_all [
    write_listing (lr_listing x); write_string (lr_symbol x); write_i64 (lr_min_price x);
    write_i64 (lr_max_price x); write_i64 (lr_tick_size x); write_i128 (lr_taker_fee_per_lot x);
    write_i128 (lr_maker_fee_per_lot x); write_bool (lr_broker_ids x); write_bool (lr_primary x);
    write_bool (lr_halted x); write_bool (lr_in_window x)].
Definition read_listing_reference : Reader ListingReference :=
  listing ← read_listing;
  symbol ← read_string;
  min_price ← read_i64;
  max_price ← read_i64;
  tick_size ← read_i64;
  taker_fee_per_lot ← read_i128;
  maker_fee_per_lot ← read_i128;
  broker_ids ← read_bool;
  primary ← read_bool;
  halted ← read_bool;
  in_window ← read_bool;
  mret (mkListingReference listing symbol min_price max_price tick_size taker_fee_per_lot maker_fee_per_lot broker_ids primary halted in_window).
Definition write_open_order (x : OpenOrder) : Writer :=
  write_all [
    write_u64 (op_client_order_id x); write_u128 (op_order_id x); write_listing (op_listing x);
    write_enum (op_side x); write_i64 (op_price x); write_i64 (op_original_quantity x);
    write_i64 (op_remaining_quantity x)].
Definition read_open_order : Reader OpenOrder :=
  client_order_id ← read_u64;
  order_id ← read_u128;
  listing ← read_listing;
  side ← read_enum;
  price ← read_i64;
  original_quantity ← read_i64;
  remaining_quantity ← read_i64;
  mret (mkOpenOrder client_order_id order_id listing side price original_quantity remaining_quantity).
Definition write_cash_balance (x : CashBalance) : Writer :=
  write_all [
    write_u128 (cb_currency_id x); write_i128 (cb_balance x); write_i128 (cb_reserved x)].
Definition read_cash_balance : Reader CashBalance :=
  currency_id ← read_u128;
  balance ← read_i128;
  reserved ← read_i128;
  mret (mkCashBalance currency_id balance reserved).
Definition write_position (x : Position) : Writer :=
  write_all [
    write_u128 (po_instrument_id x); write_i64 (po_position x); write_i64 (po_open_buy x);
    write_i64 (po_open_sell x)].
Definition read_position : Reader Position :=
  instrument_id ← read_u128;
  position ← read_i64;
  open_buy ← read_i64;
  open_sell ← read_i64;
  mret (mkPosition instrument_id position open_buy open_sell).

(** [ORDER_ENTRY_TRADE] marks a trade; an order entry starts with its action. *)
Definition ORDER_ENTRY_TRADE : Z := 0.
Definition write_order_entry (entry : OrderEntry) : Writer :=
  match entry with
  | OrderEntry.Trade price quantity resting_reference buyer seller =>
      write_all [write_u8 ORDER_ENTRY_TRADE; write_i64 price; write_i64 quantity;
                 write_option write_u64 resting_reference; write_option write_u128 buyer;
                 write_option write_u128 seller]
  | OrderEntry.Order action side reference price quantity broker =>
      write_all [write_enum action; write_enum side; write_u64 reference; write_i64 price; write_i64 quantity;
                 write_option write_u128 broker]
  end.
Definition read_order_entry : Reader OrderEntry :=
  kind ← read_u8;
  if kind =? ORDER_ENTRY_TRADE then
    price ← read_i64;
    quantity ← read_i64;
    resting_reference ← read_option read_u64;
    buyer ← read_option read_u128;
    seller ← read_option read_u128;
    mret (OrderEntry.Trade price quantity resting_reference buyer seller)
  else
    action ← lift (from_wire kind);
    side ← read_enum;
    reference ← read_u64;
    price ← read_i64;
    quantity ← read_i64;
    broker ← read_option read_u128;
    mret (OrderEntry.Order action side reference price quantity broker).

Definition AUDIENCE_PUBLIC : Z := 0.
Definition AUDIENCE_PARTICIPANT : Z := 1.
Definition AUDIENCE_TEAM : Z := 2.
Definition AUDIENCE_ROLE : Z := 3.
Definition write_news_audience (audience : NewsAudience) : Writer :=
  match audience with
  | NewsAudience.Public => write_all [write_u8 AUDIENCE_PUBLIC]
  | NewsAudience.Participant id => write_all [write_u8 AUDIENCE_PARTICIPANT; write_u128 id]
  | NewsAudience.Team id => write_all [write_u8 AUDIENCE_TEAM; write_u128 id]
  | NewsAudience.Role role => write_all [write_u8 AUDIENCE_ROLE; write_string role]
  end.
Definition read_news_audience : Reader NewsAudience :=
  kind ← read_u8;
  if kind =? AUDIENCE_PUBLIC then mret NewsAudience.Public
  else if kind =? AUDIENCE_PARTICIPANT then id ← read_u128; mret (NewsAudience.Participant id)
  else if kind =? AUDIENCE_TEAM then id ← read_u128; mret (NewsAudience.Team id)
  else if kind =? AUDIENCE_ROLE then role ← read_string; mret (NewsAudience.Role role)
  else throw (WireError.InvalidValue "NewsAudience" kind).

Definition write_operator_action (action : OperatorAction) : Writer :=
  match action with
  | OperatorAction.Start =>
      write_all [write_u8 (operator_code action)]
  | OperatorAction.Pause =>
      write_all [write_u8 (operator_code action)]
  | OperatorAction.Resume =>
      write_all [write_u8 (operator_code action)]
  | OperatorAction.Advance steps =>
      write_all [write_u8 (operator_code action); write_u32 steps]
  | OperatorAction.Terminate reason =>
      write_all [write_u8 (operator_code action); write_string reason]
  | OperatorAction.Halt instrument_id halted reason =>
      write_all [write_u8 (operator_code action); write_u128 instrument_id; write_bool halted;
                 write_string reason]
  | OperatorAction.MassCancel participant_id instrument_id =>
      write_all [write_u8 (operator_code action); write_option write_u128 participant_id;
                 write_option write_u128 instrument_id]
  | OperatorAction.PublishNews news_id audience headline body =>
      write_all [write_u8 (operator_code action); write_u128 news_id; write_news_audience audience;
                 write_string headline; write_string body]
  | OperatorAction.Score =>
      write_all [write_u8 (operator_code action)]
  | OperatorAction.Fine participant_id currency_id amount reason =>
      write_all [write_u8 (operator_code action); write_u128 participant_id; write_u128 currency_id;
                 write_i128 amount; write_string reason]
  | OperatorAction.OpenTender tender_id participant_id instrument_id side quantity price expires_at_ns =>
      write_all [write_u8 (operator_code action); write_u128 tender_id; write_u128 participant_id;
                 write_u128 instrument_id; write_enum side; write_i64 quantity; write_i64 price;
                 write_u64 expires_at_ns]
  end.
Definition read_operator_action : Reader OperatorAction :=
  code ← read_u8;
  if code =? 1 then
    mret OperatorAction.Start
  else if code =? 2 then
    mret OperatorAction.Pause
  else if code =? 3 then
    mret OperatorAction.Resume
  else if code =? 4 then
    steps ← read_u32;
    mret (OperatorAction.Advance steps)
  else if code =? 5 then
    reason ← read_string;
    mret (OperatorAction.Terminate reason)
  else if code =? 6 then
    instrument_id ← read_u128;
    halted ← read_bool;
    reason ← read_string;
    mret (OperatorAction.Halt instrument_id halted reason)
  else if code =? 7 then
    participant_id ← read_option read_u128;
    instrument_id ← read_option read_u128;
    mret (OperatorAction.MassCancel participant_id instrument_id)
  else if code =? 8 then
    news_id ← read_u128;
    audience ← read_news_audience;
    headline ← read_string;
    body ← read_string;
    mret (OperatorAction.PublishNews news_id audience headline body)
  else if code =? 9 then
    mret OperatorAction.Score
  else if code =? 10 then
    participant_id ← read_u128;
    currency_id ← read_u128;
    amount ← read_i128;
    reason ← read_string;
    mret (OperatorAction.Fine participant_id currency_id amount reason)
  else if code =? 11 then
    tender_id ← read_u128;
    participant_id ← read_u128;
    instrument_id ← read_u128;
    side ← read_enum;
    quantity ← read_i64;
    price ← read_i64;
    expires_at_ns ← read_u64;
    mret (OperatorAction.OpenTender tender_id participant_id instrument_id side quantity price expires_at_ns)
  else throw (WireError.InvalidValue "OperatorAction" code).

(** The price field of a market order and the expiry of an order that has
    none are written as zero and ignored. *)
Definition write_order_type (t : OrderType) : Writer :=
  match t with
  | OrderType.Limit price => write_all [write_u8 1; write_i64 price]
  | OrderType.Market => write_all [write_u8 2; write_i64 0]
  end.
Definition read_order_type : Reader OrderType :=
  kind ← read_u8;
  if kind =? 1 then price ← read_i64; mret (OrderType.Limit price)
  else if kind =? 2 then read_i64;; mret OrderType.Market
  else throw (WireError.InvalidValue "OrderType" kind).
Definition time_in_force_fields (t : TimeInForce) : Z * Z :=
  match t with
  | TimeInForce.Gtc => (0, 0)
  | TimeInForce.Ioc => (1, 0)
  | TimeInForce.Fok => (2, 0)
  | TimeInForce.Day => (3, 0)
  | TimeInForce.Gtd expires_at_ns => (4, expires_at_ns)
  end.
Definition write_time_in_force (t : TimeInForce) : Writer :=
  write_all [write_u8 (time_in_force_fields t).1; write_u64 (time_in_force_fields t).2].
Definition read_time_in_force : Reader TimeInForce :=
  tif ← read_u8;
  expires_at_ns ← read_u64;
  if tif =? 0 then mret TimeInForce.Gtc
  else if tif =? 1 then mret TimeInForce.Ioc
  else if tif =? 2 then mret TimeInForce.Fok
  else if tif =? 3 then mret TimeInForce.Day
  else if tif =? 4 then mret (TimeInForce.Gtd expires_at_ns)
  else throw (WireError.InvalidValue "TimeInForce" tif).
Definition write_new_order (x : NewOrder) : Writer :=
  write_all [
    write_u64 (no_client_order_id x); write_listing (no_listing x); write_enum (no_side x);
    write_i64 (no_quantity x); write_order_type (no_order_type x); write_time_in_force (no_time_in_force x);
    write_bool (no_post_only x); write_bool (no_anonymous x); write_option write_i64 (no_display_quantity x)].
Definition read_new_order : Reader NewOrder :=
  client_order_id ← read_u64;
  listing ← read_listing;
  side ← read_enum;
  quantity ← read_i64;
  order_type ← read_order_type;
  time_in_force ← read_time_in_force;
  post_only ← read_bool;
  anonymous ← read_bool;
  display_quantity ← read_option read_i64;
  mret (mkNewOrder client_order_id listing side quantity order_type time_in_force post_only anonymous display_quantity).

(** ** Messages *)

Definition write_client (message : ClientMessage) : Writer :=
  match message with
  | ClientMessage.Hello version resume_after client_name =>
      write_all [write_bytes MAGIC; write_u16 version; write_option write_u64 resume_after;
                 write_string client_name]
  | ClientMessage.Heartbeat =>
      write_all []
  | ClientMessage.ProbeReply probe_id =>
      write_all [write_u64 probe_id]
  | ClientMessage.Ping nonce =>
      write_all [write_u64 nonce]
  | ClientMessage.Logout reason =>
      write_all [write_string reason]
  | ClientMessage.NewOrder value =>
      write_all [write_new_order value]
  | ClientMessage.CancelOrder client_order_id =>
      write_all [write_u64 client_order_id]
  | ClientMessage.KillSwitch request_id =>
      write_all [write_u64 request_id]
  | ClientMessage.KillSwitchReset request_id =>
      write_all [write_u64 request_id]
  | ClientMessage.Subscribe request_id listing flags =>
      write_all [write_u32 request_id; write_listing listing; write_flags flags]
  | ClientMessage.Unsubscribe request_id =>
      write_all [write_u32 request_id]
  | ClientMessage.SnapshotRequest request_id listing depth =>
      write_all [write_u32 request_id; write_listing listing; write_u16 depth]
  | ClientMessage.ListingsRequest request_id =>
      write_all [write_u32 request_id]
  | ClientMessage.OpenOrdersRequest request_id =>
      write_all [write_u32 request_id]
  | ClientMessage.AccountRequest request_id =>
      write_all [write_u32 request_id]
  | ClientMessage.OperatorCommand request_id action =>
      write_all [write_u64 request_id; write_operator_action action]
  | ClientMessage.TenderDecision request_id tender_id accept =>
      write_all [write_u64 request_id; write_u128 tender_id; write_bool accept]
  | ClientMessage.OtcPropose request_id negotiation_id counterparty_id instrument_id side quantity price expires_at_ns =>
      write_all [write_u64 request_id; write_u64 negotiation_id; write_u128 counterparty_id; write_u128 instrument_id;
         write_enum side; write_i64 quantity; write_i64 price; write_u64 expires_at_ns]
  | ClientMessage.OtcCounter request_id negotiation_id quantity price =>
      write_all [write_u64 request_id; write_u128 negotiation_id; write_i64 quantity; write_i64 price]
  | ClientMessage.OtcDecision request_id negotiation_id decision =>
      write_all [write_u64 request_id; write_u128 negotiation_id; write_enum decision]
  | ClientMessage.DealsRequest request_id =>
      write_all [write_u32 request_id]
  | ClientMessage.ReferenceDataRequest request_id after_instrument limit =>
      write_all [write_u32 request_id; write_option write_u128 after_instrument; write_u16 limit]
  | ClientMessage.Enroll secret csr_pem =>
      write_all [write_string secret; write_string csr_pem]
  end.
Definition read_client (kind : Z) : Reader ClientMessage :=
  if kind =? HELLO then
    magic ← read_bytes (length MAGIC);
    refuse_if (negb (bool_decide (magic = MAGIC))) WireError.BadMagic;;
    version ← read_u16;
    resume_after ← read_option read_u64;
    client_name ← read_string;
    mret (ClientMessage.Hello version resume_after client_name)
  else if kind =? CLIENT_HEARTBEAT then
    mret ClientMessage.Heartbeat
  else if kind =? PROBE_REPLY then
    probe_id ← read_u64;
    mret (ClientMessage.ProbeReply probe_id)
  else if kind =? PING then
    nonce ← read_u64;
    mret (ClientMessage.Ping nonce)
  else if kind =? CLIENT_LOGOUT then
    reason ← read_string;
    mret (ClientMessage.Logout reason)
  else if kind =? NEW_ORDER then
    value ← read_new_order;
    mret (ClientMessage.NewOrder value)
  else if kind =? CANCEL_ORDER then
    client_order_id ← read_u64;
    mret (ClientMessage.CancelOrder client_order_id)
  else if kind =? KILL_SWITCH then
    request_id ← read_u64;
    mret (ClientMessage.KillSwitch request_id)
  else if kind =? KILL_SWITCH_RESET then
    request_id ← read_u64;
    mret (ClientMessage.KillSwitchReset request_id)
  else if kind =? SUBSCRIBE then
    request_id ← read_u32;
    listing ← read_listing;
    flags ← read_flags;
    mret (ClientMessage.Subscribe request_id listing flags)
  else if kind =? UNSUBSCRIBE then
    request_id ← read_u32;
    mret (ClientMessage.Unsubscribe request_id)
  else if kind =? SNAPSHOT_REQUEST then
    request_id ← read_u32;
    listing ← read_listing;
    depth ← read_u16;
    mret (ClientMessage.SnapshotRequest request_id listing depth)
  else if kind =? LISTINGS_REQUEST then
    request_id ← read_u32;
    mret (ClientMessage.ListingsRequest request_id)
  else if kind =? OPEN_ORDERS_REQUEST then
    request_id ← read_u32;
    mret (ClientMessage.OpenOrdersRequest request_id)
  else if kind =? ACCOUNT_REQUEST then
    request_id ← read_u32;
    mret (ClientMessage.AccountRequest request_id)
  else if kind =? OPERATOR_COMMAND then
    request_id ← read_u64;
    action ← read_operator_action;
    mret (ClientMessage.OperatorCommand request_id action)
  else if kind =? TENDER_DECISION then
    request_id ← read_u64;
    tender_id ← read_u128;
    accept ← read_bool;
    mret (ClientMessage.TenderDecision request_id tender_id accept)
  else if kind =? OTC_PROPOSE then
    request_id ← read_u64;
    negotiation_id ← read_u64;
    counterparty_id ← read_u128;
    instrument_id ← read_u128;
    side ← read_enum;
    quantity ← read_i64;
    price ← read_i64;
    expires_at_ns ← read_u64;
    mret (ClientMessage.OtcPropose request_id negotiation_id counterparty_id instrument_id side quantity price expires_at_ns)
  else if kind =? OTC_COUNTER then
    request_id ← read_u64;
    negotiation_id ← read_u128;
    quantity ← read_i64;
    price ← read_i64;
    mret (ClientMessage.OtcCounter request_id negotiation_id quantity price)
  else if kind =? OTC_DECISION then
    request_id ← read_u64;
    negotiation_id ← read_u128;
    decision ← read_enum;
    mret (ClientMessage.OtcDecision request_id negotiation_id decision)
  else if kind =? DEALS_REQUEST then
    request_id ← read_u32;
    mret (ClientMessage.DealsRequest request_id)
  else if kind =? ENROLL then
    secret ← read_string;
    csr_pem ← read_string;
    mret (ClientMessage.Enroll secret csr_pem)
  else if kind =? REFERENCE_DATA_REQUEST then
    request_id ← read_u32;
    after_instrument ← read_option read_u128;
    limit ← read_u16;
    mret (ClientMessage.ReferenceDataRequest request_id after_instrument limit)
  else if (0x40 <=? kind) && (kind <=? 0x7f) then throw (WireError.WrongDirection kind)
  else throw (WireError.UnknownMessageType kind).

Definition write_server (message : ServerMessage) : Writer :=
  match message with
  | ServerMessage.Welcome value =>
      write_all [write_welcome value]
  | ServerMessage.Heartbeat =>
      write_all []
  | ServerMessage.Probe probe_id =>
      write_all [write_u64 probe_id]
  | ServerMessage.Pong nonce server_time_us =>
      write_all [write_u64 nonce; write_u64 server_time_us]
  | ServerMessage.Reject request_type reference reason =>
      write_all [write_u8 request_type; write_u64 reference; write_string reason]
  | ServerMessage.ReplayComplete through_sequence =>
      write_all [write_u64 through_sequence]
  | ServerMessage.Logout reason =>
      write_all [write_string reason]
  | ServerMessage.AccessDelay source min_rtt_us one_way_us probe_samples =>
      write_all [write_enum source; write_option write_u64 min_rtt_us; write_option write_u64 one_way_us;
         write_u64 probe_samples]
  | ServerMessage.OperatorDone request_id run_sequence =>
      write_all [write_u64 request_id; write_u64 run_sequence]
  | ServerMessage.DealDone request_id run_sequence =>
      write_all [write_u64 request_id; write_u64 run_sequence]
  | ServerMessage.Tender stamp tender =>
      write_all [write_stamp stamp; write_tender tender]
  | ServerMessage.Negotiation stamp negotiation =>
      write_all [write_stamp stamp; write_negotiation negotiation]
  | ServerMessage.RunStatus stamp status =>
      write_all [write_stamp stamp; write_string status]
  | ServerMessage.ListingHalt stamp instrument_id halted =>
      write_all [write_stamp stamp; write_u128 instrument_id; write_bool halted]
  | ServerMessage.News stamp news_id headline body =>
      write_all [write_stamp stamp; write_u128 news_id; write_string headline; write_string body]
  | ServerMessage.OrderAccepted stamp client_order_id order_id listing side quantity price =>
      write_all [write_stamp stamp; write_u64 client_order_id; write_u128 order_id; write_listing listing;
         write_enum side; write_i64 quantity; write_option write_i64 price]
  | ServerMessage.OrderRejected stamp client_order_id reason =>
      write_all [write_stamp stamp; write_u64 client_order_id; write_enum reason]
  | ServerMessage.OrderRested stamp client_order_id order_id price remaining reference =>
      write_all [write_stamp stamp; write_u64 client_order_id; write_u128 order_id; write_i64 price;
         write_i64 remaining; write_option write_u64 reference]
  | ServerMessage.OrderReduced stamp client_order_id order_id remaining reference =>
      write_all [write_stamp stamp; write_u64 client_order_id; write_u128 order_id; write_i64 remaining;
         write_option write_u64 reference]
  | ServerMessage.Fill stamp client_order_id order_id listing side price quantity fee liquidity =>
      write_all [write_stamp stamp; write_u64 client_order_id; write_u128 order_id; write_listing listing;
         write_enum side; write_i64 price; write_i64 quantity; write_i128 fee; write_enum liquidity]
  | ServerMessage.OrderDone stamp client_order_id order_id =>
      write_all [write_stamp stamp; write_u64 client_order_id; write_u128 order_id]
  | ServerMessage.OrderCanceled stamp client_order_id order_id remaining reason =>
      write_all [write_stamp stamp; write_u64 client_order_id; write_u128 order_id; write_i64 remaining;
         write_enum reason]
  | ServerMessage.CancelRejected stamp client_order_id reason =>
      write_all [write_stamp stamp; write_u64 client_order_id; write_enum reason]
  | ServerMessage.PositionChanged stamp instrument_id delta =>
      write_all [write_stamp stamp; write_u128 instrument_id; write_i64 delta]
  | ServerMessage.BalanceChanged stamp delta =>
      write_all [write_stamp stamp; write_i128 delta]
  | ServerMessage.KillSwitchActivated stamp =>
      write_all [write_stamp stamp]
  | ServerMessage.KillSwitchReset stamp =>
      write_all [write_stamp stamp]
  | ServerMessage.MarketSnapshot request_id listing next_report bids asks =>
      write_all [write_u32 request_id; write_listing listing; write_u64 next_report; write_group write_level bids;
         write_group write_level asks]
  | ServerMessage.MarketUpdate request_id listing first_report entries =>
      write_all [write_u32 request_id; write_listing listing; write_u64 first_report; write_group write_entry entries]
  | ServerMessage.OrderSnapshot request_id listing next_report complete orders =>
      write_all [write_u32 request_id; write_listing listing; write_u64 next_report; write_bool complete;
         write_group write_book_order orders]
  | ServerMessage.OrderUpdate request_id listing first_report entries =>
      write_all [write_u32 request_id; write_listing listing; write_u64 first_report;
         write_group write_order_entry entries]
  | ServerMessage.TapeSnapshot request_id instrument_id last_report quotes =>
      write_all [write_u32 request_id; write_u128 instrument_id; write_u64 last_report;
         write_group write_tape_quote quotes]
  | ServerMessage.TapeUpdate request_id instrument_id first_report entries =>
      write_all [write_u32 request_id; write_u128 instrument_id; write_u64 first_report;
         write_group write_tape_entry entries]
  | ServerMessage.Listings request_id listings =>
      write_all [write_u32 request_id; write_group write_listing_info listings]
  | ServerMessage.OpenOrders request_id run_sequence orders =>
      write_all [write_u32 request_id; write_u64 run_sequence; write_group write_open_order orders]
  | ServerMessage.Account request_id run_sequence cash positions =>
      write_all [write_u32 request_id; write_u64 run_sequence; write_group write_cash_balance cash;
         write_group write_position positions]
  | ServerMessage.Deals request_id run_sequence tenders negotiations =>
      write_all [write_u32 request_id; write_u64 run_sequence; write_group write_tender tenders;
         write_group write_negotiation negotiations]
  | ServerMessage.ReferenceData request_id run_sequence next_after currencies instruments listings =>
      write_all [write_u32 request_id; write_u64 run_sequence; write_option write_u128 next_after;
         write_group write_currency_info currencies; write_group write_instrument instruments;
         write_group write_listing_reference listings]
  | ServerMessage.Enrolled participant_id certificate_pem ca_pem =>
      write_all [write_u128 participant_id; write_string certificate_pem; write_string ca_pem]
  end.
Definition read_server (kind : Z) : Reader ServerMessage :=
  if kind =? WELCOME then
    value ← read_welcome;
    mret (ServerMessage.Welcome value)
  else if kind =? SERVER_HEARTBEAT then
    mret ServerMessage.Heartbeat
  else if kind =? PROBE then
    probe_id ← read_u64;
    mret (ServerMessage.Probe probe_id)
  else if kind =? PONG then
    nonce ← read_u64;
    server_time_us ← read_u64;
    mret (ServerMessage.Pong nonce server_time_us)
  else if kind =? REJECT then
    request_type ← read_u8;
    reference ← read_u64;
    reason ← read_string;
    mret (ServerMessage.Reject request_type reference reason)
  else if kind =? REPLAY_COMPLETE then
    through_sequence ← read_u64;
    mret (ServerMessage.ReplayComplete through_sequence)
  else if kind =? SERVER_LOGOUT then
    reason ← read_string;
    mret (ServerMessage.Logout reason)
  else if kind =? OPERATOR_DONE then
    request_id ← read_u64;
    run_sequence ← read_u64;
    mret (ServerMessage.OperatorDone request_id run_sequence)
  else if kind =? DEAL_DONE then
    request_id ← read_u64;
    run_sequence ← read_u64;
    mret (ServerMessage.DealDone request_id run_sequence)
  else if kind =? TENDER then
    stamp ← read_stamp;
    tender ← read_tender;
    mret (ServerMessage.Tender stamp tender)
  else if kind =? NEGOTIATION then
    stamp ← read_stamp;
    negotiation ← read_negotiation;
    mret (ServerMessage.Negotiation stamp negotiation)
  else if kind =? DEALS then
    request_id ← read_u32;
    run_sequence ← read_u64;
    tenders ← read_group read_tender;
    negotiations ← read_group read_negotiation;
    mret (ServerMessage.Deals request_id run_sequence tenders negotiations)
  else if kind =? ENROLLED then
    participant_id ← read_u128;
    certificate_pem ← read_string;
    ca_pem ← read_string;
    mret (ServerMessage.Enrolled participant_id certificate_pem ca_pem)
  else if kind =? REFERENCE_DATA then
    request_id ← read_u32;
    run_sequence ← read_u64;
    next_after ← read_option read_u128;
    currencies ← read_group read_currency_info;
    instruments ← read_group read_instrument;
    listings ← read_group read_listing_reference;
    mret (ServerMessage.ReferenceData request_id run_sequence next_after currencies instruments listings)
  else if kind =? RUN_STATUS then
    stamp ← read_stamp;
    status ← read_string;
    mret (ServerMessage.RunStatus stamp status)
  else if kind =? LISTING_HALT then
    stamp ← read_stamp;
    instrument_id ← read_u128;
    halted ← read_bool;
    mret (ServerMessage.ListingHalt stamp instrument_id halted)
  else if kind =? NEWS then
    stamp ← read_stamp;
    news_id ← read_u128;
    headline ← read_string;
    body ← read_string;
    mret (ServerMessage.News stamp news_id headline body)
  else if kind =? ACCESS_DELAY then
    source ← read_enum;
    min_rtt_us ← read_option read_u64;
    one_way_us ← read_option read_u64;
    probe_samples ← read_u64;
    mret (ServerMessage.AccessDelay source min_rtt_us one_way_us probe_samples)
  else if kind =? ORDER_SNAPSHOT then
    request_id ← read_u32;
    listing ← read_listing;
    next_report ← read_u64;
    complete ← read_bool;
    orders ← read_group read_book_order;
    mret (ServerMessage.OrderSnapshot request_id listing next_report complete orders)
  else if kind =? ORDER_UPDATE then
    request_id ← read_u32;
    listing ← read_listing;
    first_report ← read_u64;
    entries ← read_group read_order_entry;
    mret (ServerMessage.OrderUpdate request_id listing first_report entries)
  else if kind =? TAPE_SNAPSHOT then
    request_id ← read_u32;
    instrument_id ← read_u128;
    last_report ← read_u64;
    quotes ← read_group read_tape_quote;
    mret (ServerMessage.TapeSnapshot request_id instrument_id last_report quotes)
  else if kind =? TAPE_UPDATE then
    request_id ← read_u32;
    instrument_id ← read_u128;
    first_report ← read_u64;
    entries ← read_group read_tape_entry;
    mret (ServerMessage.TapeUpdate request_id instrument_id first_report entries)
  else if kind =? ORDER_ACCEPTED then
    stamp ← read_stamp;
    client_order_id ← read_u64;
    order_id ← read_u128;
    listing ← read_listing;
    side ← read_enum;
    quantity ← read_i64;
    price ← read_option read_i64;
    mret (ServerMessage.OrderAccepted stamp client_order_id order_id listing side quantity price)
  else if kind =? ORDER_REJECTED then
    stamp ← read_stamp;
    client_order_id ← read_u64;
    reason ← read_enum;
    mret (ServerMessage.OrderRejected stamp client_order_id reason)
  else if kind =? ORDER_RESTED then
    stamp ← read_stamp;
    client_order_id ← read_u64;
    order_id ← read_u128;
    price ← read_i64;
    remaining ← read_i64;
    reference ← read_option read_u64;
    mret (ServerMessage.OrderRested stamp client_order_id order_id price remaining reference)
  else if kind =? ORDER_REDUCED then
    stamp ← read_stamp;
    client_order_id ← read_u64;
    order_id ← read_u128;
    remaining ← read_i64;
    reference ← read_option read_u64;
    mret (ServerMessage.OrderReduced stamp client_order_id order_id remaining reference)
  else if kind =? FILL then
    stamp ← read_stamp;
    client_order_id ← read_u64;
    order_id ← read_u128;
    listing ← read_listing;
    side ← read_enum;
    price ← read_i64;
    quantity ← read_i64;
    fee ← read_i128;
    liquidity ← read_enum;
    mret (ServerMessage.Fill stamp client_order_id order_id listing side price quantity fee liquidity)
  else if kind =? ORDER_DONE then
    stamp ← read_stamp;
    client_order_id ← read_u64;
    order_id ← read_u128;
    mret (ServerMessage.OrderDone stamp client_order_id order_id)
  else if kind =? ORDER_CANCELED then
    stamp ← read_stamp;
    client_order_id ← read_u64;
    order_id ← read_u128;
    remaining ← read_i64;
    reason ← read_enum;
    mret (ServerMessage.OrderCanceled stamp client_order_id order_id remaining reason)
  else if kind =? CANCEL_REJECTED then
    stamp ← read_stamp;
    client_order_id ← read_u64;
    reason ← read_enum;
    mret (ServerMessage.CancelRejected stamp client_order_id reason)
  else if kind =? POSITION_CHANGED then
    stamp ← read_stamp;
    instrument_id ← read_u128;
    delta ← read_i64;
    mret (ServerMessage.PositionChanged stamp instrument_id delta)
  else if kind =? BALANCE_CHANGED then
    stamp ← read_stamp;
    delta ← read_i128;
    mret (ServerMessage.BalanceChanged stamp delta)
  else if kind =? KILL_SWITCH_ACTIVATED then
    stamp ← read_stamp;
    mret (ServerMessage.KillSwitchActivated stamp)
  else if kind =? KILL_SWITCH_RESET_DONE then
    stamp ← read_stamp;
    mret (ServerMessage.KillSwitchReset stamp)
  else if kind =? MARKET_SNAPSHOT then
    request_id ← read_u32;
    listing ← read_listing;
    next_report ← read_u64;
    bids ← read_group read_level;
    asks ← read_group read_level;
    mret (ServerMessage.MarketSnapshot request_id listing next_report bids asks)
  else if kind =? MARKET_UPDATE then
    request_id ← read_u32;
    listing ← read_listing;
    first_report ← read_u64;
    entries ← read_group read_entry;
    mret (ServerMessage.MarketUpdate request_id listing first_report entries)
  else if kind =? LISTINGS then
    request_id ← read_u32;
    listings ← read_group read_listing_info;
    mret (ServerMessage.Listings request_id listings)
  else if kind =? OPEN_ORDERS then
    request_id ← read_u32;
    run_sequence ← read_u64;
    orders ← read_group read_open_order;
    mret (ServerMessage.OpenOrders request_id run_sequence orders)
  else if kind =? ACCOUNT then
    request_id ← read_u32;
    run_sequence ← read_u64;
    cash ← read_group read_cash_balance;
    positions ← read_group read_position;
    mret (ServerMessage.Account request_id run_sequence cash positions)
  else if (0x01 <=? kind) && (kind <=? 0x3f) then throw (WireError.WrongDirection kind)
  else throw (WireError.UnknownMessageType kind).

(** ** Frames *)

(** [frame]: the bytes appended to the output, or the error that leaves it
    unchanged. *)
Definition frame (kind : Z) (body : Writer) : Writer :=
  body ← body;
  let bytes := to_le_bytes U8 kind ++ body in
  let length := Z.of_nat (length bytes) in
  if MAX_FRAME_BYTES <? length then Err (WireError.FrameTooLarge MAX_FRAME_BYTES length)
  else Ok (to_le_bytes U32 length ++ bytes).
Definition encode_client (message : ClientMessage) : Writer := frame (client_type message) (write_client message).
Definition encode_server (message : ServerMessage) : Writer := frame (server_type message) (write_server message).

(** [decode_client], [decode_server]: one frame, read to its end. *)
Definition decode_frame {A} (read : Z -> Reader A) (bytes : Bytes) : result WireError A :=
  match bytes with
  | [] => Err WireError.EmptyFrame
  | kind :: body => snd ((message ← read kind; read_finish;; mret message) body)
  end.
Definition decode_client (bytes : Bytes) : result WireError ClientMessage := decode_frame read_client bytes.
Definition decode_server (bytes : Bytes) : result WireError ServerMessage := decode_frame read_server bytes.

(** ** Streams *)

Record FrameDecoder : Type := mkFrameDecoder {
  fd_max_frame_bytes : Z;
  fd_buffer : Bytes
}.
(** [FrameDecoder::new] *)
Definition FrameDecoder_new (max_frame_bytes : Z) : FrameDecoder :=
  mkFrameDecoder (Z.max 1 (Z.min MAX_FRAME_BYTES max_frame_bytes)) [].

(** The loop of [FrameDecoder::push] on the bytes from [offset] on.  Every
    frame takes at least its length prefix, so the bytes themselves are fuel
    enough. *)
Fixpoint take_frames (fuel : nat) (limit : Z) (buffer : Bytes) : result WireError (list Bytes * Bytes) :=
  match fuel with
  | O => Ok ([], buffer)
  | S fuel =>
      if (length buffer <? LENGTH_BYTES)%nat then Ok ([], buffer)
      else
        let frame_bytes := from_le_bytes U32 (take LENGTH_BYTES buffer) in
        let rest := drop LENGTH_BYTES buffer in
        if frame_bytes =? 0 then Err WireError.EmptyFrame
        else if limit <? frame_bytes then Err (WireError.FrameTooLarge limit frame_bytes)
        else if Z.of_nat (length rest) <? frame_bytes then Ok ([], buffer)
        else
          '(frames, buffer) ← take_frames fuel limit (drop (Z.to_nat frame_bytes) rest);
          Ok (take (Z.to_nat frame_bytes) rest :: frames, buffer)
  end.
(** [FrameDecoder::push]: after an error the bytes stay in the buffer. *)
Definition decoder_push (bytes : Bytes) : M FrameDecoder WireError (list Bytes) := fun d =>
  let buffer := fd_buffer d ++ bytes in
  match take_frames (length buffer) (fd_max_frame_bytes d) buffer with
  | Ok (frames, buffer) => (mkFrameDecoder (fd_max_frame_bytes d) buffer, Ok frames)
  | Err e => (mkFrameDecoder (fd_max_frame_bytes d) buffer, Err e)
  end.
Definition pending_bytes (d : FrameDecoder) : nat := length (fd_buffer d).
(** The chunks of a stream in order, collecting the frames. *)
Fixpoint push_all (chunks : list Bytes) : M FrameDecoder WireError (list Bytes) :=
  match chunks with
  | [] => mret []
  | chunk :: chunks =>
      frames ← decoder_push chunk;
      more ← push_all chunks;
      mret (frames ++ more)
  end.
