(* ===== verification/BnpCodecFacts.v ===== *)
(** * bnp-wire: every structure and message is a codec

    Field by field, with the rules of [BnpChain]: what a writer of
    [BnpCodec] wrote its reader reads, and what a reader accepts is well typed
    and is written again. *)

From S2P Require Import Prelude Digest BnpBytes BnpWire BnpChain BnpCodec.
#[local] Open Scope list_scope.

(** ** Automation *)

Ltac wire_ok := first [exact I | assumption | done | repeat split; (assumption || done)].
Ltac wire_rt :=
  repeat (eapply (rt_cons false); [apply _ | wire_ok |]); try apply rt_ret.
Ltac wire_chain :=
  repeat (eapply chain_bind; [apply _ |]; let a := fresh "a" in let H := fresh "Ha" in intros a H).
Ltac wire_ret := apply chain_ret; split; [wire_ok | try reflexivity].
Ltac wire_nonempty :=
  eapply write_all_cons_nonempty; intros ?; eapply (codec_nonempty (e := false)).

(** A structure: its fields in order. *)
Ltac codec_struct write read ok :=
  split;
  [ intros [] Hok; unfold ok in Hok; cbn in Hok; destruct_and?; eapply rt_one; [reflexivity |]; cbn [fst snd];
    unfold read; wire_rt
  | unfold read; wire_chain; wire_ret
  | intros [] ?; unfold write; wire_nonempty ].

#[export] Instance listing_codec e : Codec e write_listing read_listing listing_ok.
Proof. codec_struct write_listing read_listing listing_ok. Qed.
#[export] Instance stamp_codec e : Codec e write_stamp read_stamp stamp_ok.
Proof. codec_struct write_stamp read_stamp stamp_ok. Qed.
#[export] Instance level_codec e : Codec e write_level read_level level_ok.
Proof. codec_struct write_level read_level level_ok. Qed.
#[export] Instance tender_codec e : Codec e write_tender read_tender tender_ok.
Proof. codec_struct write_tender read_tender tender_ok. Qed.
#[export] Instance negotiation_codec e : Codec e write_negotiation read_negotiation negotiation_ok.
Proof. codec_struct write_negotiation read_negotiation negotiation_ok. Qed.
#[export] Instance component_codec e : Codec e write_component read_component component_ok.
Proof. codec_struct write_component read_component component_ok. Qed.
#[export] Instance welcome_codec e : Codec e write_welcome read_welcome welcome_ok.
Proof. codec_struct write_welcome read_welcome welcome_ok. Qed.
#[export] Instance entry_codec e : Codec e write_entry read_entry entry_ok.
Proof. codec_struct write_entry read_entry entry_ok. Qed.
#[export] Instance book_order_codec e : Codec e write_book_order read_book_order book_order_ok.
Proof. codec_struct write_book_order read_book_order book_order_ok. Qed.
#[export] Instance tape_quote_codec e : Codec e write_tape_quote read_tape_quote tape_quote_ok.
Proof. codec_struct write_tape_quote read_tape_quote tape_quote_ok. Qed.
#[export] Instance tape_entry_codec e : Codec e write_tape_entry read_tape_entry tape_entry_ok.
Proof. codec_struct write_tape_entry read_tape_entry tape_entry_ok. Qed.
#[export] Instance listing_info_codec e : Codec e write_listing_info read_listing_info listing_info_ok.
Proof. codec_struct write_listing_info read_listing_info listing_info_ok. Qed.
#[export] Instance currency_info_codec e : Codec e write_currency_info read_currency_info currency_info_ok.
Proof. codec_struct write_currency_info read_currency_info currency_info_ok. Qed.
#[export] Instance instrument_codec e : Codec e write_instrument read_instrument instrument_ok.
Proof. codec_struct write_instrument read_instrument instrument_ok. Qed.
#[export] Instance listing_reference_codec e : Codec e write_listing_reference read_listing_reference listing_reference_ok.
Proof. codec_struct write_listing_reference read_listing_reference listing_reference_ok. Qed.
#[export] Instance open_order_codec e : Codec e write_open_order read_open_order open_order_ok.
Proof. codec_struct write_open_order read_open_order open_order_ok. Qed.
#[export] Instance cash_balance_codec e : Codec e write_cash_balance read_cash_balance cash_balance_ok.
Proof. codec_struct write_cash_balance read_cash_balance cash_balance_ok. Qed.
#[export] Instance position_codec e : Codec e write_position read_position position_ok.
Proof. codec_struct write_position read_position position_ok. Qed.

(** ** Flags and alternatives *)

Lemma flags_from_wire_Ok v flags :
  fits U8 v -> flags_from_wire v = Ok flags <-> v = flags /\ flags_ok flags.
Proof.
  intros [Hv0 Hv]. change (int_min U8) with 0 in Hv0. change (int_max U8) with 255 in Hv.
  unfold flags_from_wire, flags_ok, FLAGS_KNOWN. change (255 - 15) with (Z.shiftl (Z.ones 4) 4).
  assert (Z.land v (Z.shiftl (Z.ones 4) 4) = Z.shiftl (Z.land (Z.shiftr v 4) (Z.ones 4)) 4) as ->.
  { rewrite Z.shiftl_land. apply Z.bits_inj'. intros n Hn. rewrite !Z.land_spec.
    destruct (decide (n < 4)); [by rewrite !Z.shiftl_spec_low, !andb_false_r by lia |].
    rewrite !Z.shiftl_spec, Z.shiftr_spec by lia. do 3 f_equal. lia. }
  rewrite Z.land_ones, Z.shiftl_mul_pow2, Z.shiftr_div_pow2 by lia. change (2 ^ 4) with 16.
  pose proof (Z.div_mod v 16). pose proof (Z.mod_pos_bound v 16). rewrite Z.mod_small by lia. destruct (Z.eqb_spec (v / 16 * 16) 0); simpl; split.
  - intros [= <-]. lia.
  - by intros [-> _].
  - done.
  - intros [-> ?]. lia.
Qed.
#[export] Instance flags_codec e : Codec e write_flags read_flags flags_ok.
Proof.
  split.
  - intros v Hv. assert (fits U8 v) as H8 by (apply fits_u8; unfold flags_ok, FLAGS_KNOWN in Hv; lia).
    unfold write_flags, read_flags. eapply (rt_cons false); [apply _ | done |].
    apply rt_lift_end, flags_from_wire_Ok; done.
  - unfold read_flags. wire_chain. apply chain_lift. intros v [-> Hv]%flags_from_wire_Ok; [| done].
    by rewrite write_one.
  - intros v bs. apply u8_nonempty.
Qed.

(** A tag byte that is none of the codes before it. *)
Ltac wire_tag :=
  repeat (apply chain_if; [intros ?Hk%Z.eqb_eq; subst | intros _]); try apply chain_throw; wire_chain; try wire_ret.
Ltac wire_tagged read :=
  unfold read; apply rt_u8; [done |]; cbn; wire_rt.

#[export] Instance news_audience_codec e : Codec e write_news_audience read_news_audience news_audience_ok.
Proof.
  split.
  - intros x Hx; destruct x; cbn in Hx; destruct_and?; (eapply rt_one; [reflexivity |]);
      wire_tagged read_news_audience.
  - unfold read_news_audience. wire_chain. wire_tag.
  - intros [] ?; unfold write_news_audience; wire_nonempty.
Qed.
#[export] Instance operator_action_codec e : Codec e write_operator_action read_operator_action operator_action_ok.
Proof.
  split.
  - intros x Hx; destruct x; cbn in Hx; destruct_and?; (eapply rt_one; [reflexivity |]);
      wire_tagged read_operator_action.
  - unfold read_operator_action. wire_chain. wire_tag.
  - intros [] ?; unfold write_operator_action; wire_nonempty.
Qed.
#[export] Instance order_entry_codec e : Codec e write_order_entry read_order_entry order_entry_ok.
Proof.
  split.
  - intros x Hx; destruct x as [|action]; cbn in Hx; destruct_and?; (eapply rt_one; [reflexivity |]).
    + wire_tagged read_order_entry.
    + unfold read_order_entry. apply rt_u8; [apply to_wire_byte |].
      replace (to_wire action =? ORDER_ENTRY_TRADE) with false by (by destruct action).
      eapply rt_lift; [by apply from_wire_Ok |]. wire_rt.
  - unfold read_order_entry. eapply chain_bind; [apply _ |]. intros kind _. apply chain_if.
    + intros ->%Z.eqb_eq. wire_chain. wire_ret.
    + intros _. apply chain_lift_bind. intros action ->%from_wire_Ok. wire_chain. wire_ret.
  - intros [] ?; unfold write_order_entry; wire_nonempty.
Qed.

(** ** Orders

    The reader ignores the price of a market order and the expiry of a time
    in force that has none, so a value is written again in as many bytes but
    not always in the same ones. *)

Lemma chain_lax {A} (P Q : A -> list Writer -> Prop) r :
  chain false P r ->
  (forall x ws pre, P x ws -> write_all ws = Ok pre ->
     exists ws' pre', Q x ws' /\ write_all ws' = Ok pre' /\ length pre' = length pre) ->
  chain false Q r.
Proof.
  intros Hr HPQ bs rest x Hb Hx. destruct (Hr _ _ _ Hb Hx) as (p & p1 & ws & Hp & HP & Hw & Hs & Hl).
  destruct (HPQ _ _ _ HP Hw) as (ws' & p' & HQ & Hw' & Hn). exists p, p', ws'. repeat split; [done.. | | done].
  simpl in *. lia.
Qed.
Lemma write_pair_length (w : Z -> Writer) t k x pre :
  (forall x, w x = Ok (to_le_bytes t x)) -> write_all [write_u8 k; w x] = Ok pre -> length pre = S (width t).
Proof.
  intros Hw. rewrite <- write_two_all. intros (b1 & b2 & [= <-] & H2 & ->)%write_two_Ok. rewrite Hw in H2.
  injection H2 as <-. simpl. unfold to_le_bytes. by rewrite length_le_bytes.
Qed.

#[export] Instance order_type_codec : Codec false write_order_type read_order_type order_type_ok.
Proof.
  split.
  - intros x Hx; destruct x; cbn in Hx; (eapply rt_one; [reflexivity |]); wire_tagged read_order_type.
  - apply (chain_lax (fun t ws => order_type_ok t /\ exists k x, ws = [write_u8 k; write_i64 x])).
    + unfold read_order_type. wire_chain. repeat (apply chain_if; intros _); try apply chain_throw;
        wire_chain; apply chain_ret; (split; [done | by eexists _, _]).
    + intros t ws pre [Ht (k & x & ->)] Hw. apply (write_pair_length write_i64 I64) in Hw; [| done].
      destruct t; eexists _, _; (split; [split; [done | reflexivity] |]); split; done.
  - intros [] ?; unfold write_order_type; wire_nonempty.
Qed.
#[export] Instance time_in_force_codec : Codec false write_time_in_force read_time_in_force time_in_force_ok.
Proof.
  split.
  - intros x Hx; destruct x; cbn in Hx; (eapply rt_one; [reflexivity |]); wire_tagged read_time_in_force.
  - apply (chain_lax (fun t ws => time_in_force_ok t /\ exists k x, ws = [write_u8 k; write_u64 x])).
    + unfold read_time_in_force. wire_chain. repeat (apply chain_if; intros _); try apply chain_throw;
        apply chain_ret; (split; [done | by eexists _, _]).
    + intros t ws pre [Ht (k & x & ->)] Hw. apply (write_pair_length write_u64 U64) in Hw; [| done].
      destruct t; eexists _, _; (split; [split; [done | reflexivity] |]); split; done.
  - intros [] ?; unfold write_time_in_force; wire_nonempty.
Qed.
#[export] Instance new_order_codec : Codec false write_new_order read_new_order new_order_ok.
Proof. codec_struct write_new_order read_new_order new_order_ok. Qed.

(** ** Messages *)

(** The branch of a reader for a known type. *)
Ltac wire_branch :=
  repeat match goal with
  | |- rt _ (if ?a =? ?b then _ else _) _ =>
      let v := eval vm_compute in (a =? b) in change (a =? b) with v; cbv iota
  end.

Lemma client_rt m : client_ok m -> rt [write_client m] (read_client (client_type m)) m.
Proof.
  intros Hm; destruct m; cbn in Hm; destruct_and?; (eapply rt_one; [reflexivity |]);
    unfold read_client; wire_branch; try (wire_rt; fail).
  eapply rt_seq; [exact (rt_bytes MAGIC) |]. apply rt_refuse; [done | wire_rt].
Qed.
Lemma client_chain kind :
  chain false (fun m ws => client_type m = kind /\ client_ok m /\ write_client m = write_all ws) (read_client kind).
Proof.
  unfold read_client. apply chain_if.
  { intros ->%Z.eqb_eq. apply chain_bytes. intros b _ _. apply chain_refuse. intros Hb%negb_false_iff%bool_decide_eq_true.
    subst b. wire_chain. apply chain_ret. split; [done |]. split; [wire_ok | reflexivity]. }
  intros _. repeat (apply chain_if; [intros ?Hk%Z.eqb_eq; subst | intros _]); repeat apply chain_if; intros;
    try apply chain_throw; wire_chain; apply chain_ret; (split; [done |]); split; (wire_ok || reflexivity).
Qed.
Lemma server_rt m : server_ok m -> rt [write_server m] (read_server (server_type m)) m.
Proof.
  intros Hm; destruct m; cbn in Hm; destruct_and?; (eapply rt_one; [reflexivity |]);
    unfold read_server; wire_branch; wire_rt.
Qed.
Lemma server_chain e kind :
  chain e (fun m ws => server_type m = kind /\ server_ok m /\ write_server m = write_all ws) (read_server kind).
Proof.
  unfold read_server. repeat (apply chain_if; [intros ?Hk%Z.eqb_eq; subst | intros _]); repeat apply chain_if; intros;
    try apply chain_throw; wire_chain; apply chain_ret; (split; [done |]); split; (wire_ok || reflexivity).
Qed.

(** * bnp-wire: frames and streams

    A frame is its length, its type and its body; [decode_frame] inverts
    [frame] for any reader of [BnpCodecFacts], and the splitting of a stream
    into frames does not depend on how the bytes arrive. *)

(** ** Frames *)

Lemma is_byte_u8 kind : is_byte kind <-> 0 <= kind <= 255.
Proof. unfold is_byte. lia. Qed.
(** The bytes of a frame of the given type. *)
Definition framed (bytes : Bytes) : Bytes := to_le_bytes U32 (Z.of_nat (length bytes)) ++ bytes.
Lemma frame_Ok kind w fr :
  is_byte kind ->
  frame kind w = Ok fr <->
  exists body, w = Ok body /\ Z.of_nat (length (kind :: body)) <= MAX_FRAME_BYTES /\ fr = framed (kind :: body).
Proof.
  intros Hk. unfold frame, mbind, result_bind. destruct w as [body|e]; [| naive_solver].
  replace (to_le_bytes U8 kind) with [kind] by (unfold is_byte in Hk; cbn; by rewrite Z.mod_small).
  cbn [app]. destruct (Z.ltb_spec MAX_FRAME_BYTES (Z.of_nat (length (kind :: body)))); split.
  - done.
  - intros (? & [= <-] & ? & _). lia.
  - intros [= <-]. eauto.
  - by intros (? & [= <-] & _ & ->).
Qed.
Lemma drop_framed bytes : drop LENGTH_BYTES (framed bytes) = bytes.
Proof. reflexivity. Qed.
Lemma length_framed bytes : length (framed bytes) = (4 + length bytes)%nat.
Proof. unfold framed, to_le_bytes. by rewrite length_app, length_le_bytes. Qed.

Lemma decode_frame_Ok {A} (read : Z -> Reader A) bytes m :
  decode_frame read bytes = Ok m <-> exists kind body, bytes = kind :: body /\ read kind body = ([], Ok m).
Proof.
  destruct bytes as [|kind body]; [split; [done | by intros (? & ? & [=] & _)] |]. cbn [decode_frame]. split.
  - destruct ((read kind ≫= _) body) as [rest res] eqn:Hx; cbn [snd]; intros ->.
    apply bind_Ok_inv in Hx as (s1 & a & Hr & (s2 & u & Hf & [= <- <-])%bind_Ok_inv).
    unfold read_finish in Hf. rewrite bind_gets in Hf.
    apply refuse_if_Ok_inv in Hf as [-> Hs%negb_false_iff%bool_decide_eq_true].
    change (id s1) with s1 in Hs. subst s1. eauto.
  - intros (? & ? & [= <- <-] & Hr). by rewrite (bind_run _ _ _ _ _ Hr).
Qed.

(** ** Both directions of a message type *)

Section messages.
Context {A : Type} (e : bool) (read : Z -> Reader A) (write : A -> Writer) (type : A -> Z) (ok : A -> Prop).
Hypothesis type_byte : forall m, is_byte (type m).
Hypothesis messages_rt : forall m, ok m -> rt [write m] (read (type m)) m.
Hypothesis messages_chain : forall kind,
  chain e (fun m ws => type m = kind /\ ok m /\ write m = write_all ws) (read kind).

Lemma round_trip_frame m fr :
  ok m -> frame (type m) (write m) = Ok fr -> decode_frame read (drop LENGTH_BYTES fr) = Ok m.
Proof.
  intros Hm (body & Hw & _ & ->)%frame_Ok; [| done]. rewrite drop_framed. apply decode_frame_Ok.
  exists (type m), body. split; [done |]. rewrite <- (app_nil_r body). apply messages_rt; [done |].
  by rewrite write_one.
Qed.
(** What decodes is well typed and is framed again, in as many bytes. *)
Lemma decoded_frame bytes m :
  Forall is_byte bytes -> Z.of_nat (length bytes) <= MAX_FRAME_BYTES -> decode_frame read bytes = Ok m ->
  ok m /\ exists bytes', frame (type m) (write m) = Ok (framed bytes') /\ same e bytes' bytes.
Proof.
  intros Hb Hl (kind & body & -> & Hr)%decode_frame_Ok. apply Forall_cons in Hb as [Hk Hb].
  destruct (messages_chain _ _ _ _ Hb Hr) as (p & p' & ws & Hp & (<- & Hm & HE) & Hw & Hs & _).
  rewrite app_nil_r in Hp. subst p. rewrite <- HE in Hw. split; [done |]. exists (type m :: p').
  split; [| by apply (same_app e [type m] [type m]); [apply same_refl |]].
  apply frame_Ok; [done |]. exists p'. apply same_length in Hs. cbn [length] in *. by rewrite Hs.
Qed.
(** The bytes up to some point decide the message: none of them can be
    left off, and none added. *)
Lemma decoded_prefix bytes more m m' :
  Forall is_byte bytes -> decode_frame read bytes = Ok m -> decode_frame read (bytes ++ more) = Ok m' -> more = [].
Proof.
  intros Hb (kind & body & -> & Hr)%decode_frame_Ok (kind' & body' & [= <- <-] & Hr')%decode_frame_Ok.
  apply Forall_cons in Hb as [_ Hb].
  destruct (messages_chain _ _ _ _ Hb Hr) as (p & _ & _ & Hp & _ & _ & _ & Hl).
  rewrite app_nil_r in Hp. subst p. rewrite Hl in Hr'. by injection Hr' as ->.
Qed.
End messages.

Lemma client_type_byte m : is_byte (client_type m).
Proof. by destruct m. Qed.
Lemma server_type_byte m : is_byte (server_type m).
Proof. by destruct m. Qed.

(** ** Streams *)

(** The frame at the head of the buffer, as [FrameDecoder::push] looks at it. *)
Lemma take_frames_fuel limit fuel fuel' buffer :
  (length buffer <= fuel)%nat -> (length buffer <= fuel')%nat ->
  take_frames fuel limit buffer = take_frames fuel' limit buffer.
Proof.
  revert fuel' buffer. induction fuel as [|fuel IH]; intros [|fuel'] buffer Hf Hf'; cbn [take_frames]; [done | | |].
  - by destruct buffer; [| simpl in Hf; lia].
  - by destruct buffer; [| simpl in Hf'; lia].
  - destruct (Nat.ltb_spec (length buffer) LENGTH_BYTES) as [|Hl]; [done |]. repeat case_match; try done.
    rewrite (IH fuel'); [done | |]; rewrite !length_drop; unfold LENGTH_BYTES in *; lia.
Qed.
Definition split_frames (limit : Z) (buffer : Bytes) : result WireError (list Bytes * Bytes) :=
  take_frames (length buffer) limit buffer.

Lemma split_frames_short limit buffer : (length buffer < LENGTH_BYTES)%nat -> split_frames limit buffer = Ok ([], buffer).
Proof.
  intros Hl. unfold split_frames. destruct buffer as [|b buffer]; [done |]. cbn [length take_frames].
  rewrite (proj2 (Nat.ltb_lt _ _)); [done | exact Hl].
Qed.
Lemma split_frames_step limit prefix rest (n := from_le_bytes U32 prefix) :
  length prefix = LENGTH_BYTES ->
  split_frames limit (prefix ++ rest) =
  if n =? 0 then Err WireError.EmptyFrame
  else if limit <? n then Err (WireError.FrameTooLarge limit n)
  else if Z.of_nat (length rest) <? n then Ok ([], prefix ++ rest)
  else '(frames, buffer) ← split_frames limit (drop (Z.to_nat n) rest);
       Ok (take (Z.to_nat n) rest :: frames, buffer).
Proof.
  intros Hl. unfold split_frames.
  rewrite (take_frames_fuel limit _ (S (length (prefix ++ rest)))) by lia. cbn [take_frames].
  rewrite (proj2 (Nat.ltb_ge _ _)) by (rewrite length_app; lia).
  rewrite (take_app_length' prefix rest _ (eq_sym Hl)), (drop_app_length' prefix rest _ (eq_sym Hl)).
  fold n. repeat case_match; try done.
  rewrite (take_frames_fuel limit _ (length (drop (Z.to_nat n) rest))); [done | | done].
  rewrite length_app, length_drop. lia.
Qed.

(** [split_frames] on a buffer, by the frame at its head. *)
Lemma split_frames_ind (P : list Z -> Prop) :
  (forall buffer, (length buffer < LENGTH_BYTES)%nat -> P buffer) ->
  (forall prefix rest, length prefix = LENGTH_BYTES ->
     (forall n, P (drop n rest)) -> P (prefix ++ rest)) ->
  forall buffer, P buffer.
Proof.
  intros Hshort Hstep buffer. remember (length buffer) as n eqn:Hn. revert buffer Hn.
  induction n as [n IH] using lt_wf_ind. intros buffer ->.
  destruct (decide (length buffer < LENGTH_BYTES)%nat) as [|Hl]; [by apply Hshort |].
  rewrite <- (take_drop LENGTH_BYTES buffer). apply Hstep; [rewrite length_take; lia |].
  intros k. eapply IH; [| done]. rewrite !length_drop. unfold LENGTH_BYTES in *. lia.
Qed.

Lemma split_frames_app limit (a b : list Z) fs rem :
  split_frames limit a = Ok (fs, rem) ->
  split_frames limit (a ++ b) = ('(gs, rem') ← split_frames limit (rem ++ b); Ok (fs ++ gs, rem')).
Proof.
  assert (forall c, split_frames limit c = ('(gs, rem') ← split_frames limit c; Ok ([] ++ gs, rem'))) as Hid
    by (intros c; by destruct (split_frames limit c) as [[]|]).
  revert fs rem. induction a as [a Hs|prefix rest Hp IH] using split_frames_ind; intros fs rem.
  - rewrite split_frames_short by done. intros [= <- <-]. apply Hid.
  - rewrite split_frames_step by done. destruct (_ =? 0) eqn:H0; [done |]. destruct (limit <? _) eqn:H1; [done |].
    destruct (Z.of_nat (length rest) <? _) eqn:H2; [intros [= <- <-]; apply Hid |]. apply Z.ltb_ge in H2.
    set (n := from_le_bytes U32 prefix) in *. intros ([gs r] & Hg & [= <- <-])%result_bind_Ok.
    rewrite <- app_assoc, split_frames_step by done. fold n. rewrite H0, H1.
    rewrite (proj2 (Z.ltb_ge _ _)) by (rewrite length_app; lia).
    rewrite drop_app_le, take_app_le by lia. rewrite (IH _ _ _ Hg).
    by destruct (split_frames limit (r ++ b)) as [[]|].
Qed.
Lemma split_frames_head limit (a b : list Z) x :
  split_frames limit (a ++ b) = Ok x -> exists y, split_frames limit a = Ok y.
Proof.
  revert x. induction a as [a Hs|prefix rest Hp IH] using split_frames_ind; intros x.
  - rewrite (split_frames_short limit a) by done. eauto.
  - rewrite <- app_assoc, !split_frames_step by done. destruct (_ =? 0); [done |].
    destruct (limit <? _); [done |]. set (n := from_le_bytes U32 prefix).
    destruct (Z.ltb_spec (Z.of_nat (length rest)) n); [eauto |].
    rewrite (proj2 (Z.ltb_ge _ _)) by (rewrite length_app; lia). rewrite drop_app_le by lia.
    intros ([gs r] & Hg & _)%result_bind_Ok. apply IH in Hg as [[fs rem] ->]. cbn. eauto.
Qed.
Lemma split_frames_drained limit (a : list Z) fs rem :
  split_frames limit a = Ok (fs, rem) -> split_frames limit rem = Ok ([], rem).
Proof.
  revert fs rem. induction a as [a Hs|prefix rest Hp IH] using split_frames_ind; intros fs rem.
  - rewrite split_frames_short by done. intros [= <- <-]. by apply split_frames_short.
  - rewrite split_frames_step by done. repeat case_match; try done.
    + intros [= <- <-]. rewrite split_frames_step by done. by rewrite H, H0, H1.
    + intros ([gs r] & Hg & [= <- <-])%result_bind_Ok. by eapply IH.
Qed.

(** A decoder between pushes: no complete frame is waiting. *)
Definition drained (d : FrameDecoder) : Prop :=
  split_frames (fd_max_frame_bytes d) (fd_buffer d) = Ok ([], fd_buffer d).
Lemma FrameDecoder_new_drained limit : drained (FrameDecoder_new limit).
Proof. done. Qed.
Lemma decoder_push_Ok bytes d d' frames :
  decoder_push bytes d = (d', Ok frames) <->
  fd_max_frame_bytes d' = fd_max_frame_bytes d /\
  split_frames (fd_max_frame_bytes d) (fd_buffer d ++ bytes) = Ok (frames, fd_buffer d').
Proof.
  unfold decoder_push. fold (split_frames (fd_max_frame_bytes d) (fd_buffer d ++ bytes)).
  destruct (split_frames _ _) as [[fs rem]|]; destruct d' as [limit' buffer']; simpl; split.
  - by intros [= <- <- <-].
  - by intros [-> [= -> ->]].
  - done.
  - by intros [_ ?].
Qed.
Lemma decoder_push_drained bytes d d' frames : decoder_push bytes d = (d', Ok frames) -> drained d'.
Proof. intros [HE H]%decoder_push_Ok. unfold drained. rewrite HE. by eapply split_frames_drained. Qed.

Lemma push_all_concat chunks d d' frames :
  drained d -> push_all chunks d = (d', Ok frames) <-> decoder_push (concat chunks) d = (d', Ok frames).
Proof.
  revert d frames. induction chunks as [|chunk chunks IH]; intros d frames Hd; cbn [push_all concat].
  - rewrite decoder_push_Ok, app_nil_r, Hd. destruct d as [limit buffer], d' as [limit' buffer']; simpl. split.
    + by intros [= <- <- <-].
    + by intros [-> [= <- ->]].
  - split.
    + intros (d1 & fs & H1 & (d2 & gs & H2 & [= <- <-])%bind_Ok_inv)%bind_Ok_inv.
      apply IH in H2; [| by eapply decoder_push_drained]. apply decoder_push_Ok in H1 as [E1 H1].
      apply decoder_push_Ok in H2 as [E2 H2]. apply decoder_push_Ok. rewrite E2, E1. split; [done |].
      rewrite app_assoc, (split_frames_app _ _ _ _ _ H1). rewrite E1 in H2. by rewrite H2.
    + intros [E H]%decoder_push_Ok. rewrite app_assoc in H.
      destruct (split_frames_head _ _ _ _ H) as [[fs rem] H1].
      rewrite (split_frames_app _ _ _ _ _ H1) in H. apply result_bind_Ok in H as ([gs r] & H2 & [= <- ->]).
      assert (decoder_push chunk d = (mkFrameDecoder (fd_max_frame_bytes d) rem, Ok fs)) as Hp
        by (by apply decoder_push_Ok).
      rewrite (bind_run _ _ _ _ _ Hp).
      rewrite (bind_run _ _ _ d' gs); [done |]. apply IH; [by eapply decoder_push_drained |].
      by apply decoder_push_Ok.
Qed.

(** Well-formed frames, whole. *)
Lemma split_framed limit bytes rest :
  bytes <> [] -> Z.of_nat (length bytes) <= limit <= MAX_FRAME_BYTES ->
  split_frames limit (framed bytes ++ rest) =
  ('(frames, buffer) ← split_frames limit rest; Ok (bytes :: frames, buffer)).
Proof.
  intros Hne Hl. unfold framed. rewrite <- app_assoc.
  rewrite split_frames_step by (unfold to_le_bytes; apply length_le_bytes).
  rewrite from_to_le_bytes by (unfold fits, MAX_FRAME_BYTES, int_min, int_max in *; lia).
  destruct (Z.eqb_spec (Z.of_nat (length bytes)) 0); [by destruct bytes |].
  rewrite !(proj2 (Z.ltb_ge _ _)) by (rewrite ?length_app; lia).
  by rewrite Nat2Z.id, drop_app_length, take_app_length.
Qed.
Lemma split_all_framed limit bodies :
  Forall (fun bytes => bytes <> [] /\ Z.of_nat (length bytes) <= limit <= MAX_FRAME_BYTES) bodies ->
  split_frames limit (concat (framed <$> bodies)) = Ok (bodies, []).
Proof.
  induction 1 as [|bytes bodies [Hne Hl] _ IH]; [done |]. rewrite fmap_cons. cbn [concat].
  by rewrite split_framed, IH.
Qed.
