(* ===== verification/BnpTheorems.v ===== *)
(** * bnp-wire: correctness

    The native protocol end to end: what one side sends the other side
    decodes, however the stream is cut; a decoder accepts nothing but
    encodings; and what an encoder refuses is exactly what is too long. *)

From S2P Require Import Prelude Digest BnpBytes BnpWire BnpChain BnpCodec BnpCodecFacts.
#[local] Open Scope list_scope.

(** ** Sizes *)

(** A writer that succeeds within [n] bytes. *)
Definition sized (n : Z) (w : Writer) : Prop := exists bs, w = Ok bs /\ Z.of_nat (length bs) <= n.

Lemma sized_weaken n n' w : sized n w -> n <= n' -> sized n' w.
Proof. intros (bs & -> & H) Hn. exists bs. split; [done | lia]. Qed.
Lemma sized_two n1 n2 w1 w2 : sized n1 w1 -> sized n2 w2 -> sized (n1 + n2) (write_two w1 w2).
Proof.
  intros (b1 & -> & H1) (b2 & -> & H2). exists (b1 ++ b2). split; [done |]. rewrite length_app. lia.
Qed.
Lemma sized_nil : sized 0 (write_all []).
Proof. by exists []. Qed.
Lemma sized_cons n1 n2 w ws : sized n1 w -> sized n2 (write_all ws) -> sized (n1 + n2) (write_all (w :: ws)).
Proof. apply sized_two. Qed.
Lemma sized_int t v : sized (Z.of_nat (width t)) (Ok (to_le_bytes t v)).
Proof. eexists. split; [done |]. unfold to_le_bytes. by rewrite length_le_bytes. Qed.
Lemma sized_string s : Z.of_nat (length s) <= MAX_STRING_BYTES -> sized (2 + MAX_STRING_BYTES) (write_string s).
Proof.
  intros Hs. unfold write_string. rewrite (proj2 (Z.ltb_ge _ _)) by done.
  apply sized_two; [apply (sized_int U16) |]. by eexists.
Qed.
Lemma sized_option {A} n (w : A -> Writer) v : (forall a, sized n (w a)) -> 0 <= n -> sized (1 + n) (write_option w v).
Proof.
  intros Hw Hn. destruct v as [a|]; cbn [write_option].
  - by apply sized_two; [apply (sized_int U8) |].
  - apply (sized_weaken 1); [apply (sized_int U8) | lia].
Qed.

(** ** What an encoder accepts *)

(** The strings a client message carries: the only part of it whose size is
    not fixed. *)
Definition audience_strings (audience : NewsAudience) : list Bytes :=
  match audience with NewsAudience.Role role => [role] | _ => [] end.
Definition action_strings (action : OperatorAction) : list Bytes :=
  match action with
  | OperatorAction.Terminate reason | OperatorAction.Halt _ _ reason | OperatorAction.Fine _ _ _ reason => [reason]
  | OperatorAction.PublishNews _ audience headline body => audience_strings audience ++ [headline; body]
  | _ => []
  end.
Definition client_strings (message : ClientMessage) : list Bytes :=
  match message with
  | ClientMessage.Hello _ _ client_name => [client_name]
  | ClientMessage.Logout reason => [reason]
  | ClientMessage.OperatorCommand _ action => action_strings action
  | ClientMessage.Enroll secret csr_pem => [secret; csr_pem]
  | _ => []
  end.
Definition short (s : Bytes) : Prop := Z.of_nat (length s) <= MAX_STRING_BYTES.

Create HintDb wire_size.
Lemma sized_u8 v : sized 1 (write_u8 v).
Proof. apply (sized_int U8). Qed.
Lemma sized_u16 v : sized 2 (write_u16 v).
Proof. apply (sized_int U16). Qed.
Lemma sized_u32 v : sized 4 (write_u32 v).
Proof. apply (sized_int U32). Qed.
Lemma sized_u64 v : sized 8 (write_u64 v).
Proof. apply (sized_int U64). Qed.
Lemma sized_i64 v : sized 8 (write_i64 v).
Proof. apply (sized_int I64). Qed.
Lemma sized_u128 v : sized 16 (write_u128 v).
Proof. apply (sized_int U128). Qed.
Lemma sized_i128 v : sized 16 (write_i128 v).
Proof. apply (sized_int I128). Qed.
Lemma sized_bool b : sized 1 (write_bool b).
Proof. apply (sized_int U8). Qed.
Lemma sized_enum {A} `{WireEnum A} (a : A) : sized 1 (write_enum a).
Proof. apply (sized_int U8). Qed.
Lemma sized_flags v : sized 1 (write_flags v).
Proof. apply (sized_int U8). Qed.
Lemma sized_bytes b : sized (Z.of_nat (length b)) (write_bytes b).
Proof. by exists b. Qed.
Lemma sized_option_u64 v : sized 9 (write_option write_u64 v).
Proof. by apply (sized_option 8); [apply sized_u64 |]. Qed.
Lemma sized_option_i64 v : sized 9 (write_option write_i64 v).
Proof. by apply (sized_option 8); [apply sized_i64 |]. Qed.
Lemma sized_option_u128 v : sized 17 (write_option write_u128 v).
Proof. by apply (sized_option 16); [apply sized_u128 |]. Qed.
#[export] Hint Resolve sized_u8 sized_u16 sized_u32 sized_u64 sized_i64 sized_u128 sized_i128 sized_bool sized_enum
  sized_flags sized_bytes sized_option_u64 sized_option_i64 sized_option_u128 sized_string : wire_size.
Ltac wire_size :=
  eapply sized_weaken;
  [ repeat (eapply sized_cons; [by eauto with wire_size |]); apply sized_nil | by vm_compute ].

Lemma sized_listing x : sized 32 (write_listing x).
Proof. unfold write_listing. wire_size. Qed.
Lemma sized_order_type t : sized 9 (write_order_type t).
Proof. destruct t; unfold write_order_type; wire_size. Qed.
Lemma sized_time_in_force t : sized 9 (write_time_in_force t).
Proof. unfold write_time_in_force. wire_size. Qed.
#[export] Hint Resolve sized_listing sized_order_type sized_time_in_force : wire_size.
Lemma sized_new_order x : sized 80 (write_new_order x).
Proof. unfold write_new_order. wire_size. Qed.
Lemma sized_news_audience x : Forall short (audience_strings x) -> sized 1100 (write_news_audience x).
Proof.
  intros Hs. destruct x; cbn in Hs; rewrite ?Forall_cons in Hs; destruct_and?; unfold write_news_audience; wire_size.
Qed.
#[export] Hint Resolve sized_new_order sized_news_audience : wire_size.
Lemma sized_operator_action x : Forall short (action_strings x) -> sized 4000 (write_operator_action x).
Proof.
  intros Hs. destruct x; cbn in Hs; rewrite ?Forall_app, ?Forall_cons in Hs; destruct_and?;
    unfold write_operator_action; wire_size.
Qed.
#[export] Hint Resolve sized_operator_action : wire_size.
Lemma sized_client m : Forall short (client_strings m) -> sized 5000 (write_client m).
Proof.
  intros Hs. destruct m; cbn in Hs; rewrite ?Forall_cons in Hs; destruct_and?; unfold write_client; wire_size.
Qed.

(** A writer that succeeds wrote each of its parts. *)
Lemma write_string_short s bs : write_string s = Ok bs -> short s.
Proof. unfold write_string. destruct (Z.ltb_spec MAX_STRING_BYTES (Z.of_nat (length s))); [done |]. by intros _. Qed.
Ltac wire_parts :=
  repeat match goal with
  | H : write_all (_ :: _) = Ok _ |- _ => apply write_all_cons_Ok in H as (? & ? & ? & H & ->)
  | H : write_string _ = Ok _ |- _ => apply write_string_short in H
  end.
Lemma written_audience x bs : write_news_audience x = Ok bs -> Forall short (audience_strings x).
Proof. intros H. destruct x; cbn [write_news_audience audience_strings] in *; wire_parts; auto. Qed.
Lemma written_action x bs : write_operator_action x = Ok bs -> Forall short (action_strings x).
Proof.
  intros H. destruct x; cbn [write_operator_action action_strings] in *; wire_parts; auto.
  apply Forall_app. split; [by eapply written_audience | auto].
Qed.
Lemma written_client m bs : write_client m = Ok bs -> Forall short (client_strings m).
Proof.
  intros H. destruct m; cbn [write_client client_strings] in *; wire_parts; auto. by eapply written_action.
Qed.

(** a client message is encoded exactly when none of its strings is
    longer than [MAX_STRING_BYTES]: no other message is refused, and in
    particular none can exceed the frame bound. *)
Theorem bnp_client_encodes m :
  (exists fr, encode_client m = Ok fr) <-> Forall short (client_strings m).
Proof.
  unfold encode_client. split.
  - intros [fr (body & Hw & _)%frame_Ok]; [by eapply written_client | apply client_type_byte].
  - intros (body & Hw & Hl)%sized_client. eexists. apply frame_Ok; [apply client_type_byte |].
    exists body. split; [done |]. split; [| done]. cbn [length]. unfold MAX_FRAME_BYTES. lia.
Qed.

(** ** Streams of messages *)

Section stream.
Context {A : Type} (read : Z -> Reader A) (write : A -> Writer) (type : A -> Z) (ok : A -> Prop).
Hypothesis type_byte : forall m, is_byte (type m).
Hypothesis messages_rt : forall m, ok m -> rt [write m] (read (type m)) m.

Lemma encoded_bodies ms frs :
  Forall ok ms -> Forall2 (fun m fr => frame (type m) (write m) = Ok fr) ms frs ->
  exists bodies, frs = framed <$> bodies /\ Forall2 (fun body m => decode_frame read body = Ok m) bodies ms /\
    Forall (fun bytes => bytes <> [] /\ Z.of_nat (length bytes) <= MAX_FRAME_BYTES <= MAX_FRAME_BYTES) bodies.
Proof.
  intros Hms H. induction H as [|m fr ms frs Hf _ IH]; [by exists [] |]. apply Forall_cons in Hms as [Hm Hms].
  destruct (IH Hms) as (bodies & -> & Hd & Hb). pose proof Hf as (body & _ & Hl & ->)%frame_Ok; [| done].
  exists ((type m :: body) :: bodies). repeat split; [| by constructor].
  constructor; [| done]. rewrite <- (drop_framed (type m :: body)). by eapply round_trip_frame.
Qed.
Lemma stream_delivers ms frs chunks (d := FrameDecoder_new MAX_FRAME_BYTES) :
  Forall ok ms -> Forall2 (fun m fr => frame (type m) (write m) = Ok fr) ms frs -> concat chunks = concat frs ->
  exists bodies, push_all chunks d = (d, Ok bodies) /\
    Forall2 (fun body m => decode_frame read body = Ok m) bodies ms.
Proof.
  intros Hms Hfr Hc. destruct (encoded_bodies _ _ Hms Hfr) as (bodies & -> & Hd & Hb). exists bodies.
  split; [| done]. apply push_all_concat; [apply FrameDecoder_new_drained |]. apply decoder_push_Ok. rewrite Hc.
  split; [done |]. exact (split_all_framed _ _ Hb).
Qed.
End stream.

(** a client's messages reach the server as they were sent: their
    frames, concatenated and cut into chunks anywhere, leave the stream decoder
    as the same messages in the same order, with nothing left over. *)
Theorem bnp_client_stream_delivers ms frs chunks (d := FrameDecoder_new MAX_FRAME_BYTES) :
  Forall client_ok ms -> Forall2 (fun m fr => encode_client m = Ok fr) ms frs -> concat chunks = concat frs ->
  exists bodies, push_all chunks d = (d, Ok bodies) /\ Forall2 (fun body m => decode_client body = Ok m) bodies ms.
Proof. apply stream_delivers; [apply client_type_byte | apply client_rt]. Qed.

(** the same from the server to its clients. *)
Theorem bnp_server_stream_delivers ms frs chunks (d := FrameDecoder_new MAX_FRAME_BYTES) :
  Forall server_ok ms -> Forall2 (fun m fr => encode_server m = Ok fr) ms frs -> concat chunks = concat frs ->
  exists bodies, push_all chunks d = (d, Ok bodies) /\ Forall2 (fun body m => decode_server body = Ok m) bodies ms.
Proof. apply stream_delivers; [apply server_type_byte | apply server_rt]. Qed.

(** C21: a server frame decodes to a message exactly when it is the encoding
    of that (well-typed) message: a client never accepts two frames for one
    message, nor a frame that a server could not have sent. *)
Theorem bnp_server_decodes_encodings bytes m :
  Forall is_byte bytes -> Z.of_nat (length bytes) <= MAX_FRAME_BYTES ->
  decode_server bytes = Ok m <-> server_ok m /\ encode_server m = Ok (framed bytes).
Proof.
  intros Hb Hl. split.
  - intros Hd. destruct (decoded_frame true _ _ _ _ (server_chain true) _ _ Hb Hl Hd)
      as (Hm & bytes' & He & Hs). by rewrite <- Hs.
  - intros [Hm He]. rewrite <- (drop_framed bytes).
    by apply (round_trip_frame _ _ _ _ server_type_byte server_rt).
Qed.

(** a client frame that decodes is a well-typed message, and the message
    is encoded in exactly as many bytes, which decode to it again. *)
Theorem bnp_client_decodes_typed bytes m :
  Forall is_byte bytes -> Z.of_nat (length bytes) <= MAX_FRAME_BYTES -> decode_client bytes = Ok m ->
  client_ok m /\ exists fr, encode_client m = Ok fr /\ length fr = (LENGTH_BYTES + length bytes)%nat /\
    decode_client (drop LENGTH_BYTES fr) = Ok m.
Proof.
  intros Hb Hl Hd. destruct (decoded_frame false _ _ _ _ client_chain _ _ Hb Hl Hd)
    as (Hm & bytes' & He & Hs). split; [done |]. exists (framed bytes'). split; [done |].
  split; [by rewrite length_framed, Hs |]. by apply (round_trip_frame _ _ _ _ client_type_byte client_rt).
Qed.

(** a frame that lost bytes at its end, or has bytes after it, is never
    taken for a message: of two frames that decode, in either direction, neither
    is a proper prefix of the other. *)
Theorem bnp_frames_prefix_free bytes more :
  Forall is_byte bytes -> more <> [] ->
  (forall m m', decode_client bytes = Ok m -> decode_client (bytes ++ more) = Ok m' -> False) /\
  (forall m m', decode_server bytes = Ok m -> decode_server (bytes ++ more) = Ok m' -> False).
Proof.
  intros Hb Hm. split; intros m m' H H'; apply Hm.
  - by eapply (decoded_prefix false read_client write_client client_type client_ok client_chain).
  - by eapply (decoded_prefix true read_server write_server server_type server_ok (server_chain true)).
Qed.

(** how a stream is cut does not matter: pushing any chunks one after
    another, all of them accepted, is pushing their concatenation. *)
Theorem bnp_chunking_is_irrelevant limit chunks d frames :
  push_all chunks (FrameDecoder_new limit) = (d, Ok frames) <->
  decoder_push (concat chunks) (FrameDecoder_new limit) = (d, Ok frames).
Proof. apply push_all_concat, FrameDecoder_new_drained. Qed.

(** ** Witnesses *)

Module Sample.
Definition listing : Listing := mkListing 1 7.
Definition hello : ClientMessage := ClientMessage.Hello VERSION_1_1 (Some 41) [100; 101; 115; 107].
Definition order : ClientMessage :=
  ClientMessage.NewOrder (mkNewOrder 9 listing Side.Sell 250 (OrderType.Limit (-125)) (TimeInForce.Gtd 1000000)
    true false (Some 50)).
Definition news : ClientMessage :=
  ClientMessage.OperatorCommand 3 (OperatorAction.PublishNews 5 (NewsAudience.Role [100; 195; 169]) [104] []).
Definition messages : list ClientMessage := [hello; order; ClientMessage.Heartbeat; news].
Definition frames : list Bytes := (fun m => match encode_client m with Ok fr => fr | Err _ => [] end) <$> messages.
Definition update : ServerMessage :=
  ServerMessage.MarketUpdate 4 listing 17 [mkEntry EntryKind.Trade (-125) 250; mkEntry EntryKind.Ask (-125) 0].
Definition account : ServerMessage :=
  ServerMessage.Account 6 99 [mkCashBalance 1 (-5000) 0] [mkPosition 7 (-250) 0 100].
Definition replies : list ServerMessage := [update; account].
Definition reply_frames : list Bytes :=
  (fun m => match encode_server m with Ok fr => fr | Err _ => [] end) <$> replies.
Definition cut (n : nat) (bytes : Bytes) : list Bytes := [take n bytes; []; drop n bytes].
End Sample.

Ltac sample_ok := repeat first [split | constructor]; vm_compute; (done || discriminate).
Lemma sample_client_ok : Forall client_ok Sample.messages.
Proof. sample_ok. Qed.
Lemma sample_server_ok : Forall server_ok Sample.replies.
Proof. sample_ok. Qed.

Lemma bnp_client_stream_delivers_witness :
  exists bodies, push_all (Sample.cut 9 (concat Sample.frames)) (FrameDecoder_new MAX_FRAME_BYTES) =
    (FrameDecoder_new MAX_FRAME_BYTES, Ok bodies) /\
    Forall2 (fun body m => decode_client body = Ok m) bodies Sample.messages.
Proof.
  apply (bnp_client_stream_delivers Sample.messages Sample.frames (Sample.cut 9 (concat Sample.frames))).
  - exact sample_client_ok.
  - repeat constructor.
  - reflexivity.
Defined.
Lemma bnp_server_stream_delivers_witness :
  exists bodies, push_all (Sample.cut 30 (concat Sample.reply_frames)) (FrameDecoder_new MAX_FRAME_BYTES) =
    (FrameDecoder_new MAX_FRAME_BYTES, Ok bodies) /\
    Forall2 (fun body m => decode_server body = Ok m) bodies Sample.replies.
Proof.
  apply (bnp_server_stream_delivers Sample.replies Sample.reply_frames (Sample.cut 30 (concat Sample.reply_frames))).
  - exact sample_server_ok.
  - repeat constructor.
  - reflexivity.
Defined.
Definition reply_bytes : Bytes := drop LENGTH_BYTES (default [] (head Sample.reply_frames)).
Definition order_bytes : Bytes := drop LENGTH_BYTES (default [] (Sample.frames !! 1%nat)).
Lemma bytes_decide bytes : forallb (fun b => (0 <=? b) && (b <? 256)) bytes = true -> Forall is_byte bytes.
Proof. rewrite forallb_forall, Forall_forall. unfold is_byte. intros H x Hx%list_elem_of_In. specialize (H x Hx). lia. Qed.
Lemma bnp_server_decodes_encodings_witness :
  decode_server reply_bytes = Ok Sample.update <->
  server_ok Sample.update /\ encode_server Sample.update = Ok (framed reply_bytes).
Proof. apply bnp_server_decodes_encodings; [by apply bytes_decide; vm_compute | by vm_compute]. Defined.
Lemma bnp_client_decodes_typed_witness :
  client_ok Sample.order /\ exists fr, encode_client Sample.order = Ok fr /\
    length fr = (LENGTH_BYTES + length order_bytes)%nat /\ decode_client (drop LENGTH_BYTES fr) = Ok Sample.order.
Proof.
  apply bnp_client_decodes_typed; [by apply bytes_decide; vm_compute | by vm_compute | by vm_compute].
Defined.
Lemma bnp_frames_prefix_free_witness :
  (forall m m', decode_client order_bytes = Ok m -> decode_client (order_bytes ++ [0]) = Ok m' -> False) /\
  (forall m m', decode_server order_bytes = Ok m -> decode_server (order_bytes ++ [0]) = Ok m' -> False).
Proof. apply bnp_frames_prefix_free; [by apply bytes_decide; vm_compute | done]. Defined.
