(* ===== verification/BnpInvite.v ===== *)
(** * bnp-wire: enrolment invites

    [InviteToken] of [packages/bnp-wire/src/lib.rs]: the text
    [bnpi1:<host:port>:<ca-sha256-hex>:<secret-hex>] and its parser.  A [str]
    is its UTF-8 bytes. *)

From S2P Require Import Prelude Digest.
#[local] Open Scope list_scope.

Definition COLON : Z := 58.
Definition PLUS : Z := 43.
(** [b"bnpi1:"] *)
Definition INVITE_PREFIX : Bytes := [98; 110; 112; 105; 49; 58].

Record InviteToken : Type := mkInviteToken {
  it_address : Bytes;
  it_ca_sha256 : Bytes;
  it_secret : Bytes
}.

(** ** Text *)

(** The characters with the Unicode property White_Space, encoded. *)
Definition whitespace : list Bytes :=
  [[9]; [10]; [11]; [12]; [13]; [32]; [0xc2; 0x85]; [0xc2; 0xa0]; [0xe1; 0x9a; 0x80]; [0xe2; 0x80; 0x80];
   [0xe2; 0x80; 0x81]; [0xe2; 0x80; 0x82]; [0xe2; 0x80; 0x83]; [0xe2; 0x80; 0x84]; [0xe2; 0x80; 0x85];
   [0xe2; 0x80; 0x86]; [0xe2; 0x80; 0x87]; [0xe2; 0x80; 0x88]; [0xe2; 0x80; 0x89]; [0xe2; 0x80; 0x8a];
   [0xe2; 0x80; 0xa8]; [0xe2; 0x80; 0xa9]; [0xe2; 0x80; 0xaf]; [0xe2; 0x81; 0x9f]; [0xe3; 0x80; 0x80]].
(** [str::strip_prefix] *)
Fixpoint strip_prefix (prefix text : Bytes) : option Bytes :=
  match prefix, text with
  | [], _ => Some text
  | p :: prefix, c :: text => if p =? c then strip_prefix prefix text else None
  | _ :: _, [] => None
  end.
Fixpoint strip_any (prefixes : list Bytes) (text : Bytes) : option Bytes :=
  match prefixes with
  | [] => None
  | p :: prefixes => match strip_prefix p text with Some rest => Some rest | None => strip_any prefixes text end
  end.
(** Every character is a byte at least, so the text is fuel enough. *)
Fixpoint strip_all (fuel : nat) (chars : list Bytes) (text : Bytes) : Bytes :=
  match fuel with
  | O => text
  | S fuel => match strip_any chars text with Some rest => strip_all fuel chars rest | None => text end
  end.
Definition trim_start (chars : list Bytes) (text : Bytes) : Bytes := strip_all (length text) chars text.
(** [str::trim] *)
Definition trim (text : Bytes) : Bytes :=
  reverse (trim_start (reverse <$> whitespace) (reverse (trim_start whitespace text))).
(** [str::rsplit_once] *)
Fixpoint rsplit_once (c : Z) (text : Bytes) : option (Bytes * Bytes) :=
  match text with
  | [] => None
  | x :: text =>
      match rsplit_once c text with
      | Some (before, after) => Some (x :: before, after)
      | None => if x =? c then Some ([], text) else None
      end
  end.

(** ** Hexadecimal digits *)

(** [(b as char).to_digit(16)] *)
Definition hex_value (b : Z) : option Z :=
  if (48 <=? b) && (b <=? 57) then Some (b - 48)
  else if (65 <=? b) && (b <=? 70) then Some (b - 55)
  else if (97 <=? b) && (b <=? 102) then Some (b - 87)
  else None.
(** [u8::is_ascii_hexdigit] *)
Definition is_ascii_hexdigit (b : Z) : bool := bool_decide (is_Some (hex_value b)).
Definition to_ascii_lowercase (b : Z) : Z := if (65 <=? b) && (b <=? 90) then b + 32 else b.
(** [u8::from_str_radix(pair, 16)] on two bytes: a plus sign before a single
    digit is accepted. *)
Definition radix_pair (a b : Z) : option Z :=
  if a =? PLUS then hex_value b
  else h ← hex_value a; l ← hex_value b; Some (16 * h + l).
Fixpoint radix_pairs (pin : Bytes) : option Bytes :=
  match pin with
  | a :: b :: pin =>
      byte ← radix_pair a b;
      rest ← radix_pairs pin;
      Some (byte :: rest)
  | _ => Some []
  end.
(** [{byte:02x}] *)
Definition hex_char (n : Z) : Z := if n <? 10 then 48 + n else 87 + n.
Definition hex_pair (byte : Z) : Bytes := [hex_char (byte / 16); hex_char (byte mod 16)].

(** ** The token *)

Definition invite_parse (text : Bytes) : result string InviteToken :=
  body ← ok_or (strip_prefix INVITE_PREFIX (trim text)) "an invite starts with bnpi1:"%string;
  '(rest, secret) ← ok_or (rsplit_once COLON body) "the invite has no secret"%string;
  '(address, pin) ← ok_or (rsplit_once COLON rest) "the invite has no CA pin"%string;
  if bool_decide (address = []) || negb (existsb (Z.eqb COLON) address)
  then Err "the invite's address must be host:port"%string
  else if negb (length secret =? 32)%nat || negb (forallb is_ascii_hexdigit secret)
  then Err "the invite's secret must be 32 hex digits"%string
  else if negb (length pin =? 64)%nat then Err "the invite's CA pin must be 64 hex digits"%string
  else
    ca_sha256 ← ok_or (radix_pairs pin) "the invite's CA pin must be hex"%string;
    Ok (mkInviteToken address ca_sha256 (to_ascii_lowercase <$> secret)).
(** [Display::fmt] *)
Definition invite_display (token : InviteToken) : Bytes :=
  INVITE_PREFIX ++ it_address token ++ COLON :: (it_ca_sha256 token ≫= hex_pair) ++ COLON :: it_secret token.

(** What a token is. *)
Record invite_ok (token : InviteToken) : Prop := {
  io_address : COLON ∈ it_address token;
  io_pin : length (it_ca_sha256 token) = 32%nat /\ Forall is_byte (it_ca_sha256 token);
  io_secret : length (it_secret token) = 32%nat /\
    Forall (fun b => is_Some (hex_value b) /\ to_ascii_lowercase b = b) (it_secret token)
}.

(** ** Facts *)

Lemma strip_prefix_app prefix text : strip_prefix prefix (prefix ++ text) = Some text.
Proof. induction prefix as [|p prefix IH]; [done |]. simpl. by rewrite Z.eqb_refl. Qed.
Lemma strip_prefix_Some prefix text rest : strip_prefix prefix text = Some rest -> text = prefix ++ rest.
Proof.
  revert text. induction prefix as [|p prefix IH]; intros [|c text]; simpl; try naive_solver.
  destruct (Z.eqb_spec p c) as [->|]; [| done]. by intros ->%IH.
Qed.
Lemma rsplit_once_None c text : c ∉ text -> rsplit_once c text = None.
Proof.
  induction text as [|x text IH]; [done |]. rewrite not_elem_of_cons. intros [Hx Ht]. simpl. rewrite IH by done.
  by rewrite (proj2 (Z.eqb_neq x c)).
Qed.
Lemma rsplit_once_app c before after : c ∉ after -> rsplit_once c (before ++ c :: after) = Some (before, after).
Proof.
  intros Hc. induction before as [|x before IH]; simpl; [| by rewrite IH].
  by rewrite rsplit_once_None, Z.eqb_refl.
Qed.
Lemma rsplit_once_Some c text before after :
  rsplit_once c text = Some (before, after) -> text = before ++ c :: after /\ c ∉ after.
Proof.
  revert before. induction text as [|x text IH]; intros before; [done |]. simpl.
  destruct (rsplit_once c text) as [[b a]|] eqn:Hr.
  - intros [= <- <-]. destruct (IH b eq_refl) as [-> ?]. done.
  - destruct (Z.eqb_spec x c) as [->|]; [| done]. intros [= <- <-]. split; [done |]. intros Hin.
    apply list_elem_of_split in Hin as (l1 & l2 & ->). clear -Hr. induction l1 as [|y l1 IH]; simpl in Hr.
    + rewrite Z.eqb_refl in Hr. by destruct (rsplit_once c l2) as [[]|].
    + apply IH. by destruct (rsplit_once c (l1 ++ c :: l2)) as [[]|].
Qed.

(** Trimming. *)
Definition strippable (chars : list Bytes) : Prop :=
  Forall (fun e => e <> [] /\ forall x, strip_any chars (e ++ x) = Some x) chars.
Lemma trim_start_app chars ws text :
  strippable chars -> Forall (.∈ chars) ws -> strip_any chars text = None ->
  trim_start chars (concat ws ++ text) = text.
Proof.
  intros Hc Hws Ht. unfold trim_start. pose proof (proj1 (Forall_forall _ _) Hc) as Hs.
  assert (length ws <= length (concat ws ++ text))%nat as Hl.
  { clear Ht. induction Hws as [|e ws He _ IH]; simpl; [lia |].
    destruct (Hs e He) as [Hne _]. rewrite <- app_assoc, length_app. destruct e; simpl; [done | lia]. }
  revert Hl. generalize (length (concat ws ++ text)) as fuel. induction Hws as [|e ws He _ IH]; intros fuel Hl.
  - destruct fuel; simpl; [done |]. by rewrite Ht.
  - destruct fuel as [|fuel]; simpl in Hl; [lia |]. cbn [strip_all concat]. rewrite <- app_assoc.
    rewrite (proj2 (Hs e He)). apply IH. lia.
Qed.
Lemma strip_any_head chars c text :
  Forall (fun e => head e <> None /\ head e <> Some c) chars -> strip_any chars (c :: text) = None.
Proof.
  induction 1 as [|e chars [He Hc] _ IH]; [done |]. simpl. destruct e as [|h e]; [done |]. simpl in *.
  by rewrite (proj2 (Z.eqb_neq h c)) by congruence.
Qed.
Lemma whitespace_strippable : strippable whitespace.
Proof. unfold strippable, whitespace. repeat (constructor; [by split |]). constructor. Qed.
Lemma reversed_strippable : strippable (reverse <$> whitespace).
Proof.
  unfold strippable. set (chars := reverse <$> whitespace). vm_compute in chars. subst chars.
  repeat (constructor; [by split |]). constructor.
Qed.
Definition prints (c : Z) : Prop := 48 <= c <= 57 \/ 97 <= c <= 102.
Lemma reversed_heads c : prints c -> Forall (fun e => head e <> None /\ head e <> Some c) (reverse <$> whitespace).
Proof.
  intros Hc. set (chars := reverse <$> whitespace). vm_compute in chars. subst chars. unfold prints in Hc.
  repeat (constructor; [split; [done | intros [=]; lia] |]). constructor.
Qed.
Lemma concat_reverse (ws : list Bytes) : reverse (concat ws) = concat (reverse (reverse <$> ws)).
Proof.
  induction ws as [|w ws IH]; [done |]. rewrite fmap_cons, reverse_cons, concat_app. cbn [concat].
  by rewrite reverse_app, IH, app_nil_r.
Qed.
Lemma trim_printed ws ws' c text c' :
  Forall (.∈ whitespace) ws -> Forall (.∈ whitespace) ws' -> c = 98 -> prints c' ->
  trim (concat ws ++ (c :: text ++ [c']) ++ concat ws') = c :: text ++ [c'].
Proof.
  intros Hws Hws' -> Hc'. unfold trim. rewrite trim_start_app; [| apply whitespace_strippable | done | done].
  rewrite reverse_app, concat_reverse.
  rewrite trim_start_app; [by rewrite reverse_involutive | apply reversed_strippable | |].
  - apply Forall_reverse, Forall_fmap. eapply Forall_impl; [exact Hws' |]. intros e He. by apply list_elem_of_fmap_2.
  - rewrite app_comm_cons, reverse_app. by apply strip_any_head, reversed_heads.
Qed.

(** Hexadecimal text. *)
Lemma hex_value_range b n :
  hex_value b = Some n -> 0 <= n < 16 /\ (48 <= b <= 57 \/ 65 <= b <= 70 \/ 97 <= b <= 102).
Proof. unfold hex_value. repeat case_match; intros [=]; lia. Qed.
Lemma hex_value_char n : 0 <= n < 16 -> hex_value (hex_char n) = Some n.
Proof.
  intros Hn. unfold hex_char, hex_value. destruct (Z.ltb_spec n 10); repeat case_match; try lia; f_equal; lia.
Qed.
Lemma hex_value_lowercase b :
  is_Some (hex_value b) ->
  is_Some (hex_value (to_ascii_lowercase b)) /\ to_ascii_lowercase (to_ascii_lowercase b) = to_ascii_lowercase b.
Proof.
  intros [n [_ Hb]%hex_value_range]. unfold to_ascii_lowercase, hex_value, is_Some.
  repeat case_match; try lia; split; eauto; lia.
Qed.
Lemma hex_char_range n : 0 <= n < 16 -> prints (hex_char n).
Proof. unfold prints, hex_char. destruct (Z.ltb_spec n 10); lia. Qed.
Lemma nibble_range b : is_byte b -> 0 <= b / 16 < 16 /\ 0 <= b mod 16 < 16.
Proof.
  unfold is_byte. intros Hb. split; [| apply Z.mod_pos_bound; lia].
  split; [apply Z.div_pos; lia | apply Z.div_lt_upper_bound; lia].
Qed.
Lemma radix_pairs_hex pin : Forall is_byte pin -> radix_pairs (pin ≫= hex_pair) = Some pin.
Proof.
  induction 1 as [|b pin Hb _ IH]; [done |]. rewrite bind_cons. unfold hex_pair at 1. cbn [app radix_pairs].
  destruct (nibble_range b Hb) as [H1 H2]. unfold radix_pair.
  pose proof (hex_char_range _ H1) as Hp. unfold prints, PLUS in *.
  destruct (Z.eqb_spec (hex_char (b / 16)) 43); [lia |].
  rewrite !hex_value_char by done. cbn. rewrite IH. cbn. by rewrite <- Z.div_mod by lia.
Qed.
Lemma radix_pairs_bytes n pin ca :
  length pin = (2 * n)%nat -> radix_pairs pin = Some ca -> length ca = n /\ Forall is_byte ca.
Proof.
  revert pin ca. induction n as [|n IH]; intros [|a [|b pin]] ca Hl; simpl in Hl; try lia; cbn [radix_pairs].
  - intros [= <-]. by split.
  - intros (byte & Hp & (rest & Hr & [= <-])%bind_Some)%bind_Some. apply IH in Hr as [? ?]; [| lia].
    split; [simpl; lia |]. constructor; [| done]. unfold radix_pair in Hp. unfold is_byte.
    destruct (a =? PLUS); [apply hex_value_range in Hp; lia |].
    apply bind_Some in Hp as (h & Hh%hex_value_range & (l & Hl'%hex_value_range & [= <-])%bind_Some). lia.
Qed.
Lemma hex_pairs_length pin : length (pin ≫= hex_pair) = (2 * length pin)%nat.
Proof. induction pin as [|b pin IH]; [done |]. rewrite bind_cons. cbn [app length hex_pair]. lia. Qed.
Lemma colon_not_hex pin : Forall is_byte pin -> COLON ∉ pin ≫= hex_pair.
Proof.
  intros Hp (b & Hb & Hin)%list_elem_of_bind. rewrite Forall_forall in Hp. destruct (nibble_range b (Hp b Hin)) as [H1 H2].
  apply hex_char_range in H1, H2. unfold prints, COLON in *. unfold hex_pair in Hb.
  rewrite !elem_of_cons in Hb. destruct Hb as [Hb|[Hb|Hb%elem_of_nil]]; [lia.. | done].
Qed.
Lemma existsb_colon address : existsb (Z.eqb COLON) address = true <-> COLON ∈ address.
Proof.
  rewrite existsb_exists. split.
  - intros (x & Hx & <-%Z.eqb_eq). by apply list_elem_of_In.
  - intros H. exists COLON. split; [by apply list_elem_of_In | apply Z.eqb_refl].
Qed.
Lemma secret_last secret :
  length secret = 32%nat ->
  Forall (fun b => is_Some (hex_value b) /\ to_ascii_lowercase b = b) secret ->
  exists init c, secret = init ++ [c] /\ prints c.
Proof.
  intros Hl Hs. destruct secret as [|c init _] using rev_ind; [done |]. exists init, c. split; [done |].
  apply Forall_app in Hs as [_ [[[n [_ Hc]%hex_value_range] Hlow] _]%Forall_cons].
  unfold prints. unfold to_ascii_lowercase in Hlow. destruct (Z.leb_spec 65 c), (Z.leb_spec c 90); simpl in Hlow; lia.
Qed.

Lemma lowercase_id secret :
  Forall (fun b => is_Some (hex_value b) /\ to_ascii_lowercase b = b) secret -> to_ascii_lowercase <$> secret = secret.
Proof. induction 1 as [|b secret [_ Hb] _ IH]; [done |]. by rewrite fmap_cons, Hb, IH. Qed.

(** ** The properties *)

Lemma invite_read_back token ws ws' :
  invite_ok token -> Forall (.∈ whitespace) ws -> Forall (.∈ whitespace) ws' ->
  invite_parse (concat ws ++ invite_display token ++ concat ws') = Ok token.
Proof.
  intros [Ha [Hpl Hpb] [Hsl Hs]] Hws Hws'. destruct token as [address pin secret].
  cbn [it_address it_ca_sha256 it_secret] in *.
  destruct (secret_last secret Hsl Hs) as (init & c & Hsecret & Hc). unfold invite_parse, invite_display.
  cbn [it_address it_ca_sha256 it_secret].
  set (body := address ++ COLON :: (pin ≫= hex_pair) ++ COLON :: secret).
  assert (INVITE_PREFIX ++ body = 98 :: ([110; 112; 105; 49; 58] ++ address ++ COLON :: (pin ≫= hex_pair) ++ COLON :: init) ++ [c]) as HE.
  { unfold body. rewrite Hsecret. simpl. repeat (rewrite <- app_assoc || rewrite <- app_comm_cons). done. }
  rewrite HE, trim_printed, <- HE, strip_prefix_app by done. cbn. unfold body.
  rewrite app_comm_cons, app_assoc. rewrite rsplit_once_app. 2: {
    intros Hin. rewrite Forall_forall in Hs. destruct (Hs _ Hin) as [[n Hn] _]. done. }
  cbn. rewrite rsplit_once_app by (by apply colon_not_hex). cbn.
  rewrite bool_decide_eq_false_2 by (intros ->; by apply elem_of_nil in Ha).
  rewrite (proj2 (existsb_colon address)) by done. rewrite Hsl, hex_pairs_length, Hpl. cbn.
  rewrite (proj2 (forallb_forall _ _)). 2: {
    intros x Hx%list_elem_of_In. rewrite Forall_forall in Hs. apply bool_decide_eq_true. by apply Hs. }
  cbn. rewrite radix_pairs_hex by done. cbn. by rewrite lowercase_id.
Qed.

(** an invite that was printed is read back as the same token, whatever
    whitespace surrounds the pasted text. *)
Theorem invite_round_trip token ws ws' :
  invite_ok token -> Forall (.∈ whitespace) ws -> Forall (.∈ whitespace) ws' ->
  invite_parse (concat ws ++ invite_display token ++ concat ws') = Ok token.
Proof. apply invite_read_back. Qed.

(** What the parser accepts is a token. *)
Lemma invite_parse_ok text token : invite_parse text = Ok token -> invite_ok token.
Proof.
  unfold invite_parse.
  intros (body & _ & ([rest secret] & _ & ([address pin] & _ & H)%result_bind_Ok)%result_bind_Ok)%result_bind_Ok.
  destruct (bool_decide _ || _) eqn:Ha; [done |]. apply orb_false_iff in Ha as [_ Ha%negb_false_iff].
  destruct (negb (length secret =? 32)%nat || _) eqn:Hs; [done |].
  apply orb_false_iff in Hs as [Hl%negb_false_iff%Nat.eqb_eq Hs%negb_false_iff].
  destruct (negb (length pin =? 64)%nat) eqn:Hp; [done |]. apply negb_false_iff, Nat.eqb_eq in Hp.
  apply result_bind_Ok in H as (ca & Hca & [= <-]). destruct (radix_pairs pin) as [ca'|] eqn:Hr; [| done].
  injection Hca as ->. split; cbn [it_address it_ca_sha256 it_secret].
  - by apply existsb_colon.
  - by apply (radix_pairs_bytes 32) in Hr.
  - rewrite length_fmap. split; [done |]. apply Forall_fmap, Forall_forall. intros b Hb. simpl.
    rewrite forallb_forall in Hs. apply hex_value_lowercase. apply list_elem_of_In, Hs in Hb.
    by apply bool_decide_eq_true in Hb.
Qed.

(** every text that is accepted as an invite names a token with an
    address, a 32-byte pin and a lower-case secret, and printing that token
    gives a text that is accepted as the same one. *)
Theorem invite_parse_normalises text token :
  invite_parse text = Ok token -> invite_ok token /\ invite_parse (invite_display token) = Ok token.
Proof.
  intros Hok%invite_parse_ok. split; [done |].
  pose proof (invite_read_back token [] [] Hok) as H. simpl in H. rewrite app_nil_r in H. apply H; constructor.
Qed.

(** ** Witnesses *)

Definition sample_invite : InviteToken := mkInviteToken [104; 58; 57] (replicate 32 171) (replicate 32 97).
Lemma sample_invite_ok : invite_ok sample_invite.
Proof.
  split; cbn.
  - apply elem_of_cons. right. apply elem_of_cons. by left.
  - split; [done |]. repeat (constructor; [done |]). constructor.
  - split; [done |]. repeat (constructor; [by split |]). constructor.
Qed.
Lemma invite_round_trip_witness :
  invite_parse (concat [[32]; [0xe2; 0x80; 0x83]] ++ invite_display sample_invite ++ concat [[10]]) = Ok sample_invite.
Proof.
  apply invite_round_trip; [exact sample_invite_ok | |]; repeat (constructor; [apply (bool_decide_unpack _); by vm_compute |]);
    constructor.
Defined.
(** A plus sign is taken for a hexadecimal digit of the pin. *)
Lemma invite_pin_accepts_plus :
  invite_parse (INVITE_PREFIX ++ [104; 58; 57] ++ COLON :: concat (replicate 32 [PLUS; 97]) ++ COLON :: replicate 32 97) =
  Ok (mkInviteToken [104; 58; 57] (replicate 32 10) (replicate 32 97)).
Proof. vm_compute. reflexivity. Qed.
Lemma invite_parse_normalises_witness :
  invite_ok (mkInviteToken [104; 58; 57] (replicate 32 10) (replicate 32 97)) /\
  invite_parse (invite_display (mkInviteToken [104; 58; 57] (replicate 32 10) (replicate 32 97))) =
  Ok (mkInviteToken [104; 58; 57] (replicate 32 10) (replicate 32 97)).
Proof. exact (invite_parse_normalises _ _ invite_pin_accepts_plus). Defined.
