(* ===== verification/BnpMapping.v ===== *)
(** * bunting-application: the BNP mapping

    Models [packages/bunting-application/src/bnp.rs]: BNP requests become
    canonical commands, committed events become one participant's private
    messages, and the answers to state requests.  The mapping is stateless;
    the wire's messages are those of [BnpWire], the wire's text the bytes of
    the engine's strings. *)

From S2P Require Import BnpBytes BnpWire.
From S2P Require Import Prelude Ordered MarketTypes MarketEvents Digest Ledger Risk Simulation Scenario Engine.
From S2P Require Import Application Competition.
From Stdlib Require Import Ascii.
#[local] Open Scope list_scope.

(** ** Values *)

(** The bytes of a string, and back. *)
Definition string_bytes (s : string) : Bytes := (fun c => Z.of_nat (nat_of_ascii c)) <$> String.list_ascii_of_string s.
Definition bytes_string (b : Bytes) : string :=
  String.string_of_list_ascii ((fun x => ascii_of_nat (Z.to_nat x)) <$> b).

(** [fn listing_key], [wire_listing], [side], [wire_side] *)
Definition listing_key (l : BnpWire.Listing) : ListingKey := mkListingKey (BnpWire.ls_venue_id l) (BnpWire.ls_instrument_id l).
Definition wire_listing (key : ListingKey) : BnpWire.Listing := BnpWire.mkListing (lk_venue_id key) (lk_instrument_id key).
Definition canonical_side (s : BnpWire.Side.Side) : Side := match s with BnpWire.Side.Buy => Buy | BnpWire.Side.Sell => Sell end.
Definition wire_side (s : Side) : BnpWire.Side.Side := match s with Buy => BnpWire.Side.Buy | Sell => BnpWire.Side.Sell end.

(** [fn reject_reason] *)
Definition reject_reason (code : RejectCode.RejectCode) : RejectReason :=
  match code with
  | RejectCode.DuplicateOrderId => RejectReason.DuplicateOrderId
  | RejectCode.InvalidOrderId => RejectReason.InvalidOrderId
  | RejectCode.UnknownOrder => RejectReason.UnknownOrder
  | RejectCode.NotOrderOwner => RejectReason.NotOrderOwner
  | RejectCode.KillSwitchActive => RejectReason.KillSwitchActive
  | RejectCode.RunNotActive => RejectReason.RunNotActive
  | RejectCode.ListingHalted => RejectReason.ListingHalted
  | RejectCode.ParticipantDisabled => RejectReason.ParticipantDisabled
  | RejectCode.InvalidQuantity => RejectReason.InvalidQuantity
  | RejectCode.InvalidInstrument => RejectReason.InvalidInstrument
  | RejectCode.PriceOutOfBounds => RejectReason.PriceOutOfBounds
  | RejectCode.PriceNotOnTick => RejectReason.PriceNotOnTick
  | RejectCode.MaxOrderQuantity => RejectReason.MaxOrderQuantity
  | RejectCode.MaxOpenOrderQuantity => RejectReason.MaxOpenOrderQuantity
  | RejectCode.MaxLiveOrders => RejectReason.MaxLiveOrders
  | RejectCode.PositionLimit => RejectReason.PositionLimit
  | RejectCode.InsufficientCash => RejectReason.InsufficientCash
  | RejectCode.InsufficientInventory => RejectReason.InsufficientInventory
  | RejectCode.InsufficientLiquidity => RejectReason.InsufficientLiquidity
  | RejectCode.PostOnlyWouldCross => RejectReason.PostOnlyWouldCross
  | RejectCode.InvalidTimeInForce => RejectReason.InvalidTimeInForce
  | RejectCode.MarketClosed => RejectReason.MarketClosed
  | RejectCode.CallPhaseOrderType => RejectReason.CallPhaseOrderType
  | RejectCode.LogicalTimeRegression => RejectReason.LogicalTimeRegression
  | RejectCode.SequenceConflict => RejectReason.SequenceConflict
  | RejectCode.ArithmeticOverflow => RejectReason.ArithmeticOverflow
  end.
(** [fn cancel_reason] *)
Definition cancel_reason (reason : MarketEvents.CancelReason.CancelReason) : BnpWire.CancelReason.CancelReason :=
  match reason with
  | MarketEvents.CancelReason.Requested => BnpWire.CancelReason.Requested
  | MarketEvents.CancelReason.KillSwitch => BnpWire.CancelReason.KillSwitch
  | MarketEvents.CancelReason.MarketRemainder => BnpWire.CancelReason.MarketRemainder
  | MarketEvents.CancelReason.MassCancel => BnpWire.CancelReason.MassCancel
  | MarketEvents.CancelReason.Expired => BnpWire.CancelReason.Expired
  | MarketEvents.CancelReason.Halt => BnpWire.CancelReason.Halt
  end.

Module BnpMappingError.
Inductive BnpMappingError : Type := ZeroIdentifier | InvalidMarketOrder | InvalidDisplayQuantity.
End BnpMappingError.
Export BnpMappingError (BnpMappingError).

(** [fn order_kind] *)
Definition order_kind (order : NewOrder) : result BnpMappingError OrderKind :=
  let plain := negb (no_post_only order) && bool_decide (no_display_quantity order = None) in
  if match no_display_quantity order with
     | Some display => (display <=? 0) || (no_quantity order <? display)
     | None => false
     end then Err BnpMappingError.InvalidDisplayQuantity
  else match no_order_type order with
       | OrderType.Market =>
           match no_time_in_force order with
           | TimeInForce.Ioc => if plain then Ok Market else Err BnpMappingError.InvalidMarketOrder
           | _ => Err BnpMappingError.InvalidMarketOrder
           end
       | OrderType.Limit price =>
           let policy tif := Ok (LimitWithPolicy price tif (no_post_only order) (no_display_quantity order)) in
           match no_time_in_force order with
           | TimeInForce.Gtc => if plain then Ok (Limit price) else policy Gtc
           | TimeInForce.Ioc => policy Ioc
           | TimeInForce.Fok => policy Fok
           | TimeInForce.Day => policy Day
           | TimeInForce.Gtd expires_at_ns => policy (Gtd expires_at_ns)
           end
       end.

(** ** Identities *)

(** [b"bunting.bnp-namespace.v1\0"] *)
Definition BNP_NAMESPACE_DOMAIN : Bytes := string_bytes "bunting.bnp-namespace.v1" ++ [0].
(** [fn namespace] *)
Definition bnp_namespace `{Sha256} (domain : Bytes) (run_id participant : Z) : Z :=
  digest_u64 (sha256 (BNP_NAMESPACE_DOMAIN ++ domain ++ be_bytes 16 run_id ++ be_bytes 16 participant)).
(** [fn scoped], [fn unscoped] *)
Definition scoped (namespace local : Z) : result BnpMappingError Z :=
  if local =? 0 then Err BnpMappingError.ZeroIdentifier else Ok (Z.lor (Z.shiftl namespace 64) local).
Definition unscoped (namespace canonical : Z) : Z :=
  if Z.shiftr canonical 64 =? namespace then default 0 (checked U64 (Z.land canonical (int_max U64))) else 0.

Record BnpIdentity : Type := mkBnpIdentity {
  bi_run_id : Z;
  bi_participant : Z;
  bi_orders : Z;
  bi_new_orders : Z;
  bi_cancels : Z;
  bi_kill_switches : Z;
  bi_kill_switch_resets : Z;
  bi_operator_commands : Z;
  bi_deal_commands : Z;
  bi_negotiations : Z
}.
(** [BnpIdentity::new] *)
Definition BnpIdentity_new `{Sha256} (run_id participant : Z) : BnpIdentity :=
  let space domain := bnp_namespace (string_bytes domain) run_id participant in
  mkBnpIdentity run_id participant (space "order") (space "new-order") (space "cancel") (space "kill-switch")
    (space "kill-switch-reset") (space "operator") (space "deal") (space "negotiation").
(** [order_id], [client_order_id], [negotiation_id] *)
Definition bnp_order_id (me : BnpIdentity) (client_order_id : Z) : result BnpMappingError Z := scoped (bi_orders me) client_order_id.
Definition client_order_id (me : BnpIdentity) (order_id : Z) : Z := unscoped (bi_orders me) order_id.
Definition bnp_negotiation_id (me : BnpIdentity) (own : Z) : result BnpMappingError Z := scoped (bi_negotiations me) own.

(** ** Requests *)

(** [command], [simulation_request] *)
Definition bnp_command (me : BnpIdentity) (command_id correlation_id : Z) (payload : CommandPayload) : Command :=
  mkCommand (bi_run_id me) command_id correlation_id 0 0 (bi_participant me) payload.
Definition simulation_request (me : BnpIdentity) (command_id correlation_id : Z) (payload : SimulationCommand)
    : SimulationCommandRequest :=
  mkSimulationCommandRequest (bi_run_id me) command_id correlation_id 0 0 (bi_participant me) payload.
(** [new_order] *)
Definition bnp_new_order (me : BnpIdentity) (order : NewOrder) (correlation_id : Z) : result BnpMappingError Command :=
  kind ← order_kind order;
  let key := listing_key (no_listing order) in
  command_id ← scoped (bi_new_orders me) (no_client_order_id order);
  order_id ← bnp_order_id me (no_client_order_id order);
  Ok (bnp_command me command_id correlation_id (PSubmitOrderAtListing key
        (mkSubmitOrder order_id (lk_instrument_id key) (bi_participant me) (canonical_side (no_side order))
           (no_quantity order) kind (no_anonymous order)))).
(** [cancel], [kill_switch], [kill_switch_reset] *)
Definition bnp_cancel (me : BnpIdentity) (client correlation_id : Z) : result BnpMappingError Command :=
  command_id ← scoped (bi_cancels me) client;
  order_id ← bnp_order_id me client;
  Ok (bnp_command me command_id correlation_id (PCancelOrder (mkCancelOrder order_id (bi_participant me)))).
Definition bnp_kill_switch (me : BnpIdentity) (request_id correlation_id : Z) : result BnpMappingError Command :=
  command_id ← scoped (bi_kill_switches me) request_id;
  Ok (bnp_command me command_id correlation_id ActivateKillSwitch).
Definition bnp_kill_switch_reset (me : BnpIdentity) (request_id correlation_id : Z) : result BnpMappingError Command :=
  command_id ← scoped (bi_kill_switch_resets me) request_id;
  Ok (bnp_command me command_id correlation_id ResetKillSwitch).

(** [fn simulation_command] *)
Definition news_audience (a : BnpWire.NewsAudience.NewsAudience) : NewsAudience :=
  match a with
  | BnpWire.NewsAudience.Public => Public
  | BnpWire.NewsAudience.Participant id => AudienceParticipant id
  | BnpWire.NewsAudience.Team id => Team id
  | BnpWire.NewsAudience.Role role => Role (bytes_string role)
  end.
Definition simulation_command (action : OperatorAction) : SimulationCommand :=
  match action with
  | OperatorAction.Start => StartRun
  | OperatorAction.Pause => PauseRun
  | OperatorAction.Resume => ResumeRun
  | OperatorAction.Advance steps => Advance steps
  | OperatorAction.Terminate reason => Terminate (bytes_string reason)
  | OperatorAction.Halt instrument halted reason => SetListingHalt instrument halted (bytes_string reason)
  | OperatorAction.MassCancel participant instrument => MassCancel participant instrument
  | OperatorAction.PublishNews news_id audience headline body =>
      PublishNews news_id (news_audience audience) (bytes_string headline) (bytes_string body)
  | OperatorAction.Score => ScoreIteration
  | OperatorAction.Fine participant currency amount reason => ApplyFine participant currency amount (bytes_string reason)
  | OperatorAction.OpenTender tender participant instrument side quantity price expires_at =>
      OpenTender tender participant instrument (canonical_side side) quantity price expires_at
  end.
(** [operator_command] *)
Definition operator_command (me : BnpIdentity) (request_id : Z) (action : OperatorAction) (correlation_id : Z)
    : result BnpMappingError SimulationCommandRequest :=
  command_id ← scoped (bi_operator_commands me) request_id;
  Ok (simulation_request me command_id correlation_id (simulation_command action)).
(** [deal_command] *)
Definition otc_decision (d : BnpWire.OtcDecision.OtcDecision) : MarketEvents.OtcDecision.OtcDecision :=
  match d with
  | BnpWire.OtcDecision.Accept => MarketEvents.OtcDecision.Accept
  | BnpWire.OtcDecision.Reject => MarketEvents.OtcDecision.Reject
  | BnpWire.OtcDecision.Break => MarketEvents.OtcDecision.Break
  end.
Definition deal_payload (me : BnpIdentity) (message : ClientMessage)
    : result BnpMappingError (option (Z * SimulationCommand)) :=
  match message with
  | ClientMessage.TenderDecision request_id tender_id accept =>
      Ok (Some (request_id, DecideTender tender_id (if accept then TenderDecision.Accept else TenderDecision.Decline)))
  | ClientMessage.OtcPropose request_id own counterparty instrument side quantity price expires_at =>
      negotiation ← bnp_negotiation_id me own;
      Ok (Some (request_id, OpenOtc negotiation counterparty instrument (canonical_side side) quantity price expires_at))
  | ClientMessage.OtcCounter request_id negotiation quantity price =>
      Ok (Some (request_id, CounterOtc negotiation quantity price))
  | ClientMessage.OtcDecision request_id negotiation decision =>
      Ok (Some (request_id, DecideOtc negotiation (otc_decision decision)))
  | _ => Ok None
  end.
Definition deal_command (me : BnpIdentity) (message : ClientMessage) (correlation_id : Z)
    : result BnpMappingError (option SimulationCommandRequest) :=
  deal ← deal_payload me message;
  match deal with
  | None => Ok None
  | Some (request_id, payload) =>
      command_id ← scoped (bi_deal_commands me) request_id;
      Ok (Some (simulation_request me command_id correlation_id payload))
  end.

(** ** Private messages *)

Definition event_stamp (event : EventEnvelope) : Stamp := mkStamp (ev_sequence event) (ev_logical_time event).

(** [is_cancel], [is_own_command] *)
Definition is_cancel (me : BnpIdentity) (command_id : Z) : bool := Z.shiftr command_id 64 =? bi_cancels me.
Definition is_own_command (me : BnpIdentity) (command_id : Z) : bool :=
  existsb (fun space => Z.shiftr command_id 64 =? space)
    [bi_new_orders me; bi_cancels me; bi_kill_switches me; bi_kill_switch_resets me].

(** The closures of [private_messages]: the public reference of an order
    (the references are sorted by order), the orders of the participant's
    own BNP namespace, and the orders the batch received. *)
Definition public_reference (references : list (Z * Z)) (order_id : Z) : option Z :=
  (fun found => found.2.2) <$> list_find (fun e => e.1 = order_id) references.
Definition is_mine (me : BnpIdentity) (order_id : Z) : bool := negb (unscoped (bi_orders me) order_id =? 0).
Definition received_orders (events : list EventEnvelope) : gmap Z (SubmitOrder * option ListingKey) :=
  foldl (fun m event => match ev_payload event with
                        | OrderReceived order key => <[so_order_id order := (order, key)]> m
                        | _ => m
                        end) ∅ events.
(** [order_on_side] *)
Fixpoint side_received (taker : Z) (events : list EventEnvelope) : option Side :=
  match events with
  | [] => None
  | event :: events =>
      match ev_payload event with
      | OrderReceived order _ => if so_order_id order =? taker then Some (so_side order) else side_received taker events
      | _ => side_received taker events
      end
  end.
Definition order_on_side (me : BnpIdentity) (maker taker : Z) (side : Side) (events : list EventEnvelope) : bool :=
  match side_received taker events with
  | Some taker_side => negb (bool_decide (taker_side = side))
  | None => is_mine me maker
  end.

(** The fill of one side of a trade, if it is the participant's. *)
Definition fill_message (me : BnpIdentity) (events : list EventEnvelope) (stamp : Stamp) (listing : BnpWire.Listing)
    (maker taker price quantity : Z) (party : Z * Side * Z) : list ServerMessage :=
  let '(participant, side, fee) := party in
  if negb (participant =? bi_participant me) then []
  else
    let '(order_id, liquidity) :=
      if order_on_side me maker taker side events then (maker, Liquidity.Maker) else (taker, Liquidity.Taker) in
    [ServerMessage.Fill stamp (client_order_id me order_id) order_id listing (wire_side side) price quantity fee liquidity].

(** The messages of one event: the match of [private_messages]. *)
Definition private_message (me : BnpIdentity) (events : list EventEnvelope) (references : list (Z * Z))
    (event : EventEnvelope) : list ServerMessage :=
  let stamp := event_stamp event in
  let own participant message := if participant =? bi_participant me then [message] else [] : list ServerMessage in
  let mine order_id message := if is_mine me order_id then [message] else [] : list ServerMessage in
  match ev_payload event with
  | OrderAccepted order_id =>
      match received_orders events !! order_id with
      | Some (order, key) =>
          let key := default (mkListingKey 0 (so_instrument_id order)) key in
          mine order_id (ServerMessage.OrderAccepted stamp (client_order_id me order_id) order_id (wire_listing key)
            (wire_side (so_side order)) (so_quantity order) (limit_price (so_kind order)))
      | None => []
      end
  | OrderRejected order_id code =>
      if is_own_command me (ev_command_id event) then
        let client := match order_id with Some order_id => client_order_id me order_id | None => 0 end in
        [if is_cancel me (ev_command_id event) then ServerMessage.CancelRejected stamp client (reject_reason code)
         else ServerMessage.OrderRejected stamp client (reject_reason code)]
      else []
  | OrderRested order_id participant _ _ _ price remaining =>
      own participant (ServerMessage.OrderRested stamp (client_order_id me order_id) order_id price remaining
        (public_reference references order_id))
  | OrderReduced order_id remaining =>
      mine order_id (ServerMessage.OrderReduced stamp (client_order_id me order_id) order_id remaining
        (public_reference references order_id))
  | OrderCompleted order_id => mine order_id (ServerMessage.OrderDone stamp (client_order_id me order_id) order_id)
  | OrderCanceled order_id participant _ _ remaining reason =>
      own participant (ServerMessage.OrderCanceled stamp (client_order_id me order_id) order_id remaining (cancel_reason reason))
  | TradeExecuted instrument key maker taker buyer seller price quantity buyer_fee seller_fee =>
      let listing := wire_listing (default (mkListingKey 0 instrument) key) in
      [(buyer, Buy, buyer_fee); (seller, Sell, seller_fee)]
        ≫= fill_message me events stamp listing maker taker price quantity
  | PositionChanged participant instrument delta => own participant (ServerMessage.PositionChanged stamp instrument delta)
  | BalanceChanged participant delta => own participant (ServerMessage.BalanceChanged stamp delta)
  | KillSwitchActivated => own (ev_actor event) (ServerMessage.KillSwitchActivated stamp)
  | KillSwitchReset => own (ev_actor event) (ServerMessage.KillSwitchReset stamp)
  | OrderReceived _ _ | Simulation _ => []
  end.
(** [private_messages] *)
Definition private_messages (me : BnpIdentity) (events : list EventEnvelope) (references : list (Z * Z))
    : list ServerMessage := events ≫= private_message me events references.

(** [open_orders] *)
Definition bnp_open_orders (me : BnpIdentity) (s : RunState) : list OpenOrder :=
  (fun o => mkOpenOrder (client_order_id me (oo_order_id o)) (oo_order_id o) (wire_listing (oo_listing_key o))
              (wire_side (oo_side o)) (oo_limit_price o) (oo_original_quantity o) (oo_remaining_quantity o))
  <$> filter (fun o => oo_participant_id o = bi_participant me /\ oo_state o = OwnedOrderState.Active)
        (values (rs_ownership s)).

(** ** Deals *)

(** [fn tender_info], [fn negotiation_info] *)
Definition tender_status (status : string) : option TenderStatus :=
  if String.eqb status "open" then Some TenderStatus.Open
  else if String.eqb status "accepted" then Some TenderStatus.Accepted
  else if String.eqb status "declined" then Some TenderStatus.Declined
  else if String.eqb status "expired" then Some TenderStatus.Expired
  else None.
Definition tender_info (t : TenderState) (status : string) : option TenderInfo :=
  status ← tender_status status;
  Some (mkTenderInfo (td_tender_id t) (td_participant_id t) (td_instrument_id t) (wire_side (td_side t))
          (td_quantity t) (td_price t) (td_expires_at t) status).
Definition negotiation_status (status : string) : option NegotiationStatus :=
  if String.eqb status "proposed" then Some NegotiationStatus.Proposed
  else if String.eqb status "countered" then Some NegotiationStatus.Countered
  else if String.eqb status "accepted" then Some NegotiationStatus.Accepted
  else if String.eqb status "rejected" then Some NegotiationStatus.Rejected
  else if String.eqb status "broken" then Some NegotiationStatus.Broken
  else if String.eqb status "expired" then Some NegotiationStatus.Expired
  else None.
Definition negotiation_info (o : OtcState) (status : string) : option NegotiationInfo :=
  status ← negotiation_status status;
  Some (mkNegotiationInfo (oc_negotiation_id o) (oc_proposer_id o) (oc_counterparty_id o) (oc_instrument_id o)
          (wire_side (oc_side o)) (oc_quantity o) (oc_price o) (oc_expires_at o) status (oc_awaiting o)).
(** [fn deal_messages] *)
Definition deal_message (changes : DealChanges) (actor : VerifiedActor) (event : EventEnvelope) : option ServerMessage :=
  let stamp := event_stamp event in
  match ev_payload event with
  | Simulation (TenderChanged tender_id status) =>
      '(_, tender) ← list_find (fun t => td_tender_id t = tender_id) (dl_tenders changes);
      if tender_visible tender actor then ServerMessage.Tender stamp <$> tender_info tender status else None
  | Simulation (OtcChanged negotiation_id status) =>
      '(_, otc) ← list_find (fun o => oc_negotiation_id o = negotiation_id) (dl_negotiations changes);
      if negotiation_visible otc actor then ServerMessage.Negotiation stamp <$> negotiation_info otc status else None
  | _ => None
  end.
Definition deal_messages (changes : DealChanges) (events : list EventEnvelope) (actor : VerifiedActor) : list ServerMessage :=
  omap (deal_message changes actor) events.
(** [fn has_deal_messages] *)
Definition has_deal_messages (events : list EventEnvelope) : bool :=
  existsb (fun event => match ev_payload event with Simulation (TenderChanged _ _ | OtcChanged _ _) => true | _ => false end) events.
(** [fn deals] *)
Definition deals (s : RunState) (actor : VerifiedActor) : list TenderInfo * list NegotiationInfo :=
  (omap (fun t => tender_info t (td_status t))
     (filter (fun t => tender_visible t actor = true) (values (sim_tenders (rs_simulation s)))),
   omap (fun o => negotiation_info o (oc_status o))
     (filter (fun o => negotiation_visible o actor = true) (values (sim_otc (rs_simulation s))))).

(** ** The run *)

(** [fn run_messages] *)
Definition run_message (s : RunState) (actor : VerifiedActor) (event : EventEnvelope) : option ServerMessage :=
  let stamp := event_stamp event in
  match ev_payload event with
  | Simulation (LifecycleChanged status) => Some (ServerMessage.RunStatus stamp (string_bytes status))
  | Simulation (ListingHaltChanged instrument halted) => Some (ServerMessage.ListingHalt stamp instrument halted)
  | Simulation (NewsPublished news_id audience) =>
      if news_visible audience actor then
        '(_, item) ← list_find (fun item => nw_news_id item = news_id) (sim_news (rs_simulation s));
        Some (ServerMessage.News stamp news_id (string_bytes (nw_headline item)) (string_bytes (nw_body item)))
      else None
  | _ => None
  end.
Definition run_messages (s : RunState) (events : list EventEnvelope) (actor : VerifiedActor) : list ServerMessage :=
  omap (run_message s actor) events.
(** [fn has_run_messages] *)
Definition has_run_messages (events : list EventEnvelope) : bool :=
  existsb (fun event => match ev_payload event with
                        | Simulation (LifecycleChanged _ | ListingHaltChanged _ _ | NewsPublished _ _) => true
                        | _ => false
                        end) events.
(** [fn listings] *)
Definition bnp_listings (s : RunState) : list ListingInfo :=
  (fun e => mkListingInfo (wire_listing e.1) (string_bytes (ld_symbol (ls_definition e.2)))) <$> entries (rs_listings s).

(** [fn instrument_info] *)
Definition instrument_info (d : InstrumentDefinition) : InstrumentInfo :=
  let info kind underlying strike expiry is_call physical coupon components :=
    mkInstrumentInfo (id_instrument_id d) (string_bytes (id_symbol d)) kind underlying strike expiry is_call physical coupon
      components (id_multiplier d) (id_currency d) (id_quoted_decimals d) (id_shortable d) true None None
      (string_bytes (id_display_unit d)) (string_bytes (id_description d)) (id_opening_mark d) None in
  match id_kind d with
  | Simulation.InstrumentKind.Equity => info BnpWire.InstrumentKind.Equity None None None false false 0 []
  | Simulation.InstrumentKind.Currency => info BnpWire.InstrumentKind.Currency None None None false false 0 []
  | Simulation.InstrumentKind.Bond coupon maturity =>
      info BnpWire.InstrumentKind.Bond None None (Some maturity) false false coupon []
  | Simulation.InstrumentKind.Option underlying strike expiry is_call =>
      info BnpWire.InstrumentKind.Option (Some underlying) (Some strike) (Some expiry) is_call false 0 []
  | Simulation.InstrumentKind.Future underlying expiry physical =>
      info BnpWire.InstrumentKind.Future (Some underlying) None (Some expiry) false physical 0 []
  | Simulation.InstrumentKind.Commodity => info BnpWire.InstrumentKind.Commodity None None None false false 0 []
  | Simulation.InstrumentKind.Synthetic components =>
      info BnpWire.InstrumentKind.Synthetic None None None false false 0 components
  end.
Definition listing_reference (s : RunState) (e : ListingKey * ListingState) : ListingReference :=
  let d := ls_definition e.2 in
  mkListingReference (wire_listing e.1) (string_bytes (ld_symbol d)) (pb_min (ld_price_bounds d)) (pb_max (ld_price_bounds d))
    (ld_tick_size d) (fs_taker_per_lot (ld_fees d)) (fs_maker_per_lot (ld_fees d)) (ld_broker_ids d) (ld_primary d)
    (bool_decide (lk_instrument_id e.1 ∈ sim_halted_instruments (rs_simulation s))) true.
(** [fn reference_data] *)
Definition MAX_REFERENCE_INSTRUMENTS : Z := 64.
Definition page_limit (limit : Z) : nat :=
  Z.to_nat (if (limit =? 0) || (MAX_REFERENCE_INSTRUMENTS <? limit) then MAX_REFERENCE_INSTRUMENTS else limit).
Definition follows (after : option Z) (d : InstrumentDefinition) : bool :=
  match after with None => true | Some after => after <? id_instrument_id d end.
Definition used_currencies (s : RunState) : list Z :=
  sort_dedup ((id_currency <$> values (rs_instruments s)) ++ [rs_reporting_currency s]).
Definition reference_data (s : RunState) (after : option Z) (limit : Z)
    : option Z * list CurrencyInfo * list InstrumentInfo * list ListingReference :=
  let remaining := filter (fun d => follows after d = true) (values (rs_instruments s)) in
  let page := take (page_limit limit) remaining in
  let next_after := match drop (page_limit limit) remaining with [] => None | _ => id_instrument_id <$> last page end in
  let currencies := match after with
                    | None => (fun c => mkCurrencyInfo c [] [] 2) <$> used_currencies s
                    | Some _ => []
                    end in
  let listings := listing_reference s <$>
    filter (fun e => existsb (fun d => id_instrument_id d =? lk_instrument_id e.1) page = true) (entries (rs_listings s)) in
  (next_after, currencies, instrument_info <$> page, listings).

(** [fn account_balances] *)
Definition account_balances (s : RunState) (actor : VerifiedActor)
    : result ApplicationError (list BnpWire.CashBalance * list BnpWire.Position) :=
  view ← account s actor;
  Ok ((fun c => BnpWire.mkCashBalance (cw_currency_id c) (cw_balance c) (cw_reserved c)) <$> av_cash view,
      (fun h => BnpWire.mkPosition (hv_instrument_id h) (hv_position h) (hv_open_buy h) (hv_open_sell h)) <$> av_holdings view).
