(* ===== verification/BnpMappingTheorems.v ===== *)
(** * bunting-application: theorems of the BNP mapping

    A participant's identifiers come back to it and to no one else; what it
    asks for is something it may ask for; what it is told depends on nothing
    that is not its own, survives the wire, and names the right order; and
    the pages of reference data make up the whole list. *)

From S2P Require Import BnpBytes BnpWire BnpChain BnpCodec BnpCodecFacts BnpTheorems.
From S2P Require Import Prelude Ordered MarketTypes MarketEvents Digest Ledger Risk Simulation Scenario Engine.
From S2P Require Import Application FixApplication FixApplicationTheorems Competition BnpMapping.
From Stdlib Require Import Ascii.
#[local] Open Scope list_scope.

(** ** Identities *)

(** The namespaces of a participant are nonzero 64-bit numbers. *)
Record identity_ok (me : BnpIdentity) : Prop := {
  io_orders : 0 < bi_orders me <= int_max U64;
  io_new_orders : 0 < bi_new_orders me <= int_max U64;
  io_cancels : 0 < bi_cancels me <= int_max U64
}.
Lemma digest_u64_range `{!Sha256} b : 0 < digest_u64 (sha256 b) <= int_max U64.
Proof.
  unfold digest_u64. split; [lia |]. pose proof (be_value_bound (take 8 (sha256 b))) as Hb.
  rewrite length_take, sha256_length in Hb. specialize (Hb (Forall_take _ _ _ (sha256_bytes b))).
  change (256 ^ Z.of_nat (8 `min` 32)) with (2 ^ 64) in Hb. change (int_max U64) with (2 ^ 64 - 1). lia.
Qed.
Lemma BnpIdentity_new_ok `{!Sha256} run_id participant : identity_ok (BnpIdentity_new run_id participant).
Proof. split; apply digest_u64_range. Qed.

Lemma scoped_Ok ns local c :
  0 < ns -> is_u64 local -> scoped ns local = Ok c -> 0 < local <= int_max U64 /\ c = ns * 2 ^ 64 + local.
Proof.
  intros Hns Hl. unfold scoped. destruct (Z.eqb_spec local 0); [done |]. intros [= <-].
  unfold is_u64 in Hl. rewrite shift_lor by lia. lia.
Qed.
Lemma unscoped_scoped ns ns' local :
  0 < local <= int_max U64 -> unscoped ns' (ns * 2 ^ 64 + local) = if ns =? ns' then local else 0.
Proof.
  intros Hl. unfold unscoped. rewrite high_half, low_half by lia. destruct (ns =? ns'); [| done].
  rewrite checked_in; [done |]. change (int_min U64) with 0. lia.
Qed.
Lemma unscoped_range ns c : is_u64 (unscoped ns c).
Proof.
  unfold unscoped. destruct (_ =? ns); [| by vm_compute]. destruct (checked U64 _) as [v|] eqn:E; [| by vm_compute].
  apply checked_Some in E as [-> E]. exact E.
Qed.

(** a participant's order identifiers are its own. The canonical
    identifier of an order fits 128 bits, comes back to its participant as
    the very number the client chose, and is nobody's order for every
    identity with another namespace. Number zero is refused. *)
Theorem bnp_order_ids_come_back me client :
  identity_ok me -> is_u64 client ->
  (client = 0 -> bnp_order_id me client = Err BnpMappingError.ZeroIdentifier) /\
  forall id, bnp_order_id me client = Ok id ->
    is_u128 id /\ client_order_id me id = client /\ is_mine me id = true /\
    forall other, bi_orders other <> bi_orders me -> client_order_id other id = 0 /\ is_mine other id = false.
Proof.
  intros Hme Hc. split; [by intros -> |]. intros id Hid. unfold bnp_order_id in Hid.
  destruct (io_orders me Hme) as [Hns Hns']. apply scoped_Ok in Hid as [Hl ->]; [| done | done].
  unfold client_order_id, is_mine. split_and!.
  - unfold is_u128. change (int_max U128) with ((2 ^ 64 - 1) * 2 ^ 64 + (2 ^ 64 - 1)).
    change (int_max U64) with (2 ^ 64 - 1) in *. nia.
  - by rewrite unscoped_scoped, Z.eqb_refl.
  - rewrite unscoped_scoped, Z.eqb_refl by done. lia.
  - intros other Hne. rewrite unscoped_scoped by done. by replace (bi_orders me =? bi_orders other) with false by lia.
Qed.

(** ** Requests *)

(** what a BNP client asks for, it may ask for. Every order, cancel and
    kill-switch command is accepted by the authority check of a participant
    that trades, and every deal command by that of simulation commands; an
    operator command is accepted exactly for those who run the round. *)
Theorem bnp_requests_are_authorised me identity role team correlation_id :
  let actor := mkVerifiedActor (mkActorIdentity identity role (Some (bi_participant me)) team) (Some (bi_participant me)) in
  (trades role = true -> forall c,
     (exists order, bnp_new_order me order correlation_id = Ok c) \/ (exists n, bnp_cancel me n correlation_id = Ok c) \/
     (exists n, bnp_kill_switch me n correlation_id = Ok c) \/ (exists n, bnp_kill_switch_reset me n correlation_id = Ok c) ->
     authorize_command actor c = Ok tt) /\
  (trades role = true -> forall message r, deal_command me message correlation_id = Ok (Some r) ->
     authorize_simulation_command actor r = Ok tt) /\
  (forall operator n action r, operator_command me n action correlation_id = Ok r ->
     authorize_simulation_command operator r = if is_operator operator then Ok tt else Err ApplicationError.Unauthorized).
Proof.
  intros actor. split_and!.
  - intros Hrole c Hc. unfold authorize_command, actor. cbn. rewrite Hrole. cbn.
    destruct Hc as [[order Hc]|[[n Hc]|[[n Hc]|[n Hc]]]];
      unfold bnp_new_order, bnp_cancel, bnp_kill_switch, bnp_kill_switch_reset in Hc;
      repeat (apply result_bind_Ok in Hc as (? & _ & Hc)); injection Hc as <-; cbn; by rewrite ?Z.eqb_refl.
  - intros Hrole message r Hr. apply result_bind_Ok in Hr as ([[n payload]|] & Hp & Hr); [| done].
    apply result_bind_Ok in Hr as (id & _ & [= <-]).
    assert (Hpart : participant_action payload = true /\ is_tick payload = false).
    { unfold deal_payload in Hp. destruct message; try done; [by injection Hp as <- <- | | by injection Hp as <- <- .. ].
      apply result_bind_Ok in Hp as (? & _ & [= <- <-]). done. }
    destruct Hpart as [Ha Ht]. unfold authorize_simulation_command. cbn. rewrite Ht, Ha. cbn.
    by rewrite Z.eqb_refl, Hrole.
  - intros operator n action r Hr. apply result_bind_Ok in Hr as (id & _ & [= <-]).
    unfold authorize_simulation_command, is_operator. destruct action; cbn; by destruct (operates _).
Qed.

(** ** Private messages *)

(** What a participant has no part in. *)
Definition foreign (me : BnpIdentity) (e : EventEnvelope) : Prop :=
  match ev_payload e with
  | OrderReceived order _ => is_mine me (so_order_id order) = false
  | OrderAccepted id | OrderReduced id _ | OrderCompleted id => is_mine me id = false
  | OrderRejected _ _ => is_own_command me (ev_command_id e) = false
  | OrderRested _ p _ _ _ _ _ | OrderCanceled _ p _ _ _ _ | PositionChanged p _ _ | BalanceChanged p _ => p <> bi_participant me
  | TradeExecuted _ _ _ _ buyer seller _ _ _ _ => buyer <> bi_participant me /\ seller <> bi_participant me
  | KillSwitchActivated | KillSwitchReset => ev_actor e <> bi_participant me
  | Simulation _ => True
  end.
(** The one thing of another's order that is visible: which order took on
    which side. *)
Definition received_side (e : EventEnvelope) : option (Z * Side) :=
  match ev_payload e with OrderReceived order _ => Some (so_order_id order, so_side order) | _ => None end.
(** Two events a participant cannot tell apart. *)
Definition alike (me : BnpIdentity) (e e' : EventEnvelope) : Prop :=
  e = e' \/ foreign me e /\ foreign me e' /\ received_side e = received_side e'.

Lemma alike_received_side me e e' : alike me e e' -> received_side e = received_side e'.
Proof. by intros [->|(_ & _ & H)]. Qed.
Lemma side_received_alike me taker (es es' : list EventEnvelope) :
  Forall2 (alike me) es es' -> side_received taker es = side_received taker es'.
Proof.
  induction 1 as [|e e' es es' He%alike_received_side _ IH]; [done |]. cbn. unfold received_side in He.
  destruct (ev_payload e), (ev_payload e'); try done. injection He as -> ->. by rewrite IH.
Qed.

Definition note_order (m : gmap Z (SubmitOrder * option ListingKey)) (e : EventEnvelope) : gmap Z (SubmitOrder * option ListingKey) :=
  match ev_payload e with OrderReceived order key => <[so_order_id order := (order, key)]> m | _ => m end.
Lemma received_orders_note es : received_orders es = foldl note_order ∅ es.
Proof. done. Qed.
Lemma note_foreign me e m id : foreign me e -> is_mine me id = true -> note_order m e !! id = m !! id.
Proof.
  unfold foreign, note_order. destruct (ev_payload e); try done. intros Hf Hid. apply lookup_insert_ne. congruence.
Qed.
Lemma received_alike me id (es es' : list EventEnvelope) :
  is_mine me id = true -> Forall2 (alike me) es es' -> received_orders es !! id = received_orders es' !! id.
Proof.
  intros Hid H. rewrite !received_orders_note.
  assert (Hm : forall m m' : gmap Z (SubmitOrder * option ListingKey), m !! id = m' !! id ->
    foldl note_order m es !! id = foldl note_order m' es' !! id); [| by apply Hm].
  induction H as [|e e' es es' He _ IH]; [done |]. intros m m' Hm. cbn [foldl]. apply IH.
  destruct He as [<-|(Hf & Hf' & _)]; [| by rewrite !(note_foreign me)].
  unfold note_order. destruct (ev_payload e); try done. destruct (decide (so_order_id order = id)) as [->|].
  - by rewrite !lookup_insert_eq.
  - by rewrite !lookup_insert_ne.
Qed.

Lemma private_foreign me es refs e : foreign me e -> private_message me es refs e = [].
Proof.
  unfold foreign, private_message. intros Hf. destruct (ev_payload e); try done; try by rewrite ?Hf; try by case_match.
  all: try by rewrite (proj2 (Z.eqb_neq _ _)) by done.
  - case_match; [| done]. case_match. by rewrite Hf.
  - destruct Hf as [Hb Hs]. cbn. by rewrite !(proj2 (Z.eqb_neq _ _)) by done.
Qed.
Lemma private_alike me refs (es es' : list EventEnvelope) e :
  Forall2 (alike me) es es' -> private_message me es refs e = private_message me es' refs e.
Proof.
  intros H. unfold private_message. destruct (ev_payload e); try done.
  - destruct (is_mine me order_id) eqn:Hid; [by rewrite (received_alike me order_id es es') |].
    repeat case_match; done.
  - apply list_bind_ext; [| done]. intros [[p s] fee]. unfold fill_message, order_on_side.
    by rewrite (side_received_alike me taker_order_id es es').
Qed.

(** C22: nothing of another participant reaches a BNP client. Two batches of
    events that differ only in what they say of events a participant has no
    part in, the orders, trades, positions and balances of others, give it
    exactly the same messages; only which side another's order took on
    shows, in the liquidity of the participant's own fills. *)
Theorem bnp_messages_are_private me refs (es es' : list EventEnvelope) :
  Forall2 (alike me) es es' -> private_messages me es refs = private_messages me es' refs.
Proof.
  intros H. unfold private_messages.
  assert (Hall : forall l l' : list EventEnvelope, Forall2 (alike me) l l' ->
    l ≫= private_message me es refs = l' ≫= private_message me es' refs); [| by apply Hall].
  induction 1 as [|e e' l l' He _ IH]; [done |]. rewrite !bind_cons, IH. f_equal.
  destruct He as [<-|(Hf & Hf' & _)]; [by apply private_alike | by rewrite !private_foreign].
Qed.

(** ** On the wire *)

(** Events whose numbers are within the types the code gives them. *)
Definition key_typed (key : ListingKey) : Prop := fits U128 (lk_venue_id key) /\ fits U128 (lk_instrument_id key).
Definition received_typed (r : SubmitOrder * option ListingKey) : Prop :=
  fits U128 (so_instrument_id r.1) /\ fits I64 (so_quantity r.1) /\ option_ok (fits I64) (limit_price (so_kind r.1)) /\
  option_ok key_typed r.2.
Definition payload_typed (p : EventPayload) : Prop :=
  match p with
  | OrderReceived order key => received_typed (order, key)
  | OrderAccepted id | OrderCompleted id => fits U128 id
  | OrderRested id _ _ _ _ price remaining => fits U128 id /\ fits I64 price /\ fits I64 remaining
  | OrderReduced id remaining | OrderCanceled id _ _ _ remaining _ => fits U128 id /\ fits I64 remaining
  | TradeExecuted instrument key maker taker _ _ price quantity buyer_fee seller_fee =>
      fits U128 instrument /\ option_ok key_typed key /\ fits U128 maker /\ fits U128 taker /\ fits I64 price /\
      fits I64 quantity /\ fits I128 buyer_fee /\ fits I128 seller_fee
  | PositionChanged _ instrument delta => fits U128 instrument /\ fits I64 delta
  | BalanceChanged _ delta => fits I128 delta
  | OrderRejected _ _ | KillSwitchActivated | KillSwitchReset | Simulation _ => True
  end.
Definition event_typed (e : EventEnvelope) : Prop :=
  fits U64 (ev_sequence e) /\ fits U64 (ev_logical_time e) /\ payload_typed (ev_payload e).

(** A message within its types whose encoding has a bounded size. *)
Definition sendable (m : ServerMessage) : Prop := server_ok m /\ sized 200 (write_server m).

Lemma sized_stamp x : sized 16 (write_stamp x).
Proof. unfold write_stamp. wire_size. Qed.
#[local] Hint Resolve sized_stamp : wire_size.
Lemma client_order_id_fits me id : fits U64 (client_order_id me id).
Proof. apply unscoped_range. Qed.
Lemma listing_of_key_ok instrument key :
  fits U128 instrument -> option_ok key_typed key -> listing_ok (wire_listing (default (mkListingKey 0 instrument) key)).
Proof. intros Hi Hk. destruct key; [done |]. split; [by vm_compute | done]. Qed.
Lemma public_reference_fits refs id : Forall (fun r => fits U64 r.2) refs -> option_ok (fits U64) (public_reference refs id).
Proof.
  intros Hr. unfold public_reference. destruct (list_find _ refs) as [[i r]|] eqn:E; [| done].
  apply list_find_Some in E as (E & _). cbn. by apply (proj1 (Forall_lookup _ _) Hr i r).
Qed.
Lemma received_orders_typed es id r : Forall event_typed es -> received_orders es !! id = Some r -> received_typed r.
Proof.
  intros Hes. rewrite received_orders_note.
  assert (Hm : forall m, map_Forall (fun _ => received_typed) m -> map_Forall (fun _ => received_typed) (foldl note_order m es));
    [| intros Hl; eapply (Hm ∅); [apply map_Forall_empty | exact Hl]].
  induction Hes as [|e es (_ & _ & He) _ IH]; [done |]. intros m Hm. cbn [foldl]. apply IH.
  unfold note_order. destruct (ev_payload e); try done. by apply map_Forall_insert_2.
Qed.
#[local] Hint Resolve client_order_id_fits listing_of_key_ok public_reference_fits : core.

Ltac sendable := split; [split_and!; eauto | unfold write_server; wire_size].

Lemma private_message_sendable me es refs e :
  Forall event_typed es -> Forall (fun r => fits U64 r.2) refs -> event_typed e ->
  Forall sendable (private_message me es refs e).
Proof.
  intros Hes Hrefs (Hseq & Htime & He). assert (Hst : stamp_ok (event_stamp e)) by done.
  unfold private_message. destruct (ev_payload e) eqn:Hp; cbn in He; destruct_and?; try done.
  all: try (destruct (_ =? _); [| done]; apply Forall_singleton; sendable).
  all: try (destruct (is_mine me order_id); [| done]; apply Forall_singleton; sendable).
  - destruct (received_orders es !! order_id) as [[order key]|] eqn:Hr; [| done].
    destruct (is_mine me order_id); [| done]. apply Forall_singleton.
    apply received_orders_typed in Hr as (? & ? & ? & ?); [| done]. sendable.
  - destruct (is_own_command me _); [| done]. apply Forall_singleton.
    assert (fits U64 (match order_id with Some id => client_order_id me id | None => 0 end)) by (by destruct order_id).
    destruct (is_cancel me _); sendable.
  - cbn [mbind list_bind]. unfold fill_message. rewrite app_nil_r. apply Forall_app. split.
    all: destruct (_ =? _); cbn [negb]; [| done]; destruct (order_on_side _ _ _ _ _); apply Forall_singleton; sendable.
Qed.

(** C23: a participant's messages reach it. The messages of every batch of
    well-typed events are all encoded, and however the connection cuts
    their bytes, the client's decoder gives back exactly these messages in
    this order, with nothing left over. *)
Theorem bnp_messages_reach_their_client me refs (es : list EventEnvelope) (d := FrameDecoder_new MAX_FRAME_BYTES) :
  Forall event_typed es -> Forall (fun r => fits U64 r.2) refs ->
  exists frs, Forall2 (fun m fr => encode_server m = Ok fr) (private_messages me es refs) frs /\
  forall chunks, concat chunks = concat frs ->
  exists bodies, push_all chunks d = (d, Ok bodies) /\
    Forall2 (fun body m => decode_server body = Ok m) bodies (private_messages me es refs).
Proof.
  intros Hes Hrefs. assert (Hms : Forall sendable (private_messages me es refs)).
  { apply Forall_bind. eapply Forall_impl; [exact Hes |]. intros e He. by apply private_message_sendable. }
  assert (Hfrs : exists frs, Forall2 (fun m fr => encode_server m = Ok fr) (private_messages me es refs) frs).
  { apply Forall_exists_Forall2_l. eapply Forall_impl; [exact Hms |]. intros m (_ & body & Hw & Hl). exists (framed (server_type m :: body)).
    apply frame_Ok; [apply server_type_byte |]. exists body. split_and!; [done | | done].
    cbn [length]. unfold MAX_FRAME_BYTES. lia. }
  destruct Hfrs as [frs Hfrs]. exists frs. split; [done |]. intros chunks Hc.
  eapply (stream_delivers read_server write_server server_type server_ok server_type_byte server_rt); [| exact Hfrs | exact Hc].
  eapply Forall_impl; [exact Hms |]. by intros m [Hm _].
Qed.

(** ** Self-trades *)

(** the fills of a self-trade. While the batch holds the order that
    took, a participant on both sides is told of two fills: its taking order
    on the side it took, as taker, and its resting order on the other side,
    as maker. When the batch does not hold it, which is every trade of a
    call auction, both fills name the maker's order, and the other order of
    the participant is filled without a word. *)
Theorem bnp_auction_self_trade_fills me refs (es : list EventEnvelope) e instrument key maker taker price quantity buyer_fee seller_fee :
  ev_payload e = TradeExecuted instrument key maker taker (bi_participant me) (bi_participant me) price quantity buyer_fee seller_fee ->
  let listing := wire_listing (default (mkListingKey 0 instrument) key) in
  let fill id side fee := ServerMessage.Fill (event_stamp e) (client_order_id me id) id listing side price quantity fee in
  match side_received taker es with
  | Some Buy =>
      private_message me es refs e = [fill taker BnpWire.Side.Buy buyer_fee Liquidity.Taker; fill maker BnpWire.Side.Sell seller_fee Liquidity.Maker]
  | Some Sell =>
      private_message me es refs e = [fill maker BnpWire.Side.Buy buyer_fee Liquidity.Maker; fill taker BnpWire.Side.Sell seller_fee Liquidity.Taker]
  | None =>
      is_mine me maker = true ->
      private_message me es refs e = [fill maker BnpWire.Side.Buy buyer_fee Liquidity.Maker; fill maker BnpWire.Side.Sell seller_fee Liquidity.Maker]
  end.
Proof.
  intros Hp listing fill. unfold private_message. rewrite Hp. cbn [mbind list_bind]. unfold fill_message.
  rewrite Z.eqb_refl. cbn [negb]. unfold order_on_side.
  destruct (side_received taker es) as [[]|]; [done | done |]. by intros ->.
Qed.

(** ** Witnesses *)

Module SampleBnpMapping.
(** A participant whose namespaces are small numbers. *)
Definition me : BnpIdentity := mkBnpIdentity 7 2 11 12 13 14 15 16 17 18.
Definition other : BnpIdentity := mkBnpIdentity 7 3 21 22 23 24 25 26 27 28.
Definition mine (n : Z) : Z := 11 * 2 ^ 64 + n.
Definition theirs (n : Z) : Z := 21 * 2 ^ 64 + n.
Definition order (id participant : Z) (side : Side) : SubmitOrder := mkSubmitOrder id 10 participant side 5 (Limit 100) false.
Definition event (n actor : Z) (payload : EventPayload) : EventEnvelope :=
  mkEventEnvelope EVENT_SCHEMA_VERSION 7 n n 1000 actor (n + 1) 1 None payload.
Definition key : ListingKey := mkListingKey 1 10.
(** The other's order takes the participant's; what it leaves of the
    other's account is [cash]. *)
Definition batch (cash : Z) : list EventEnvelope :=
  [event 1 3 (OrderReceived (order (theirs 4) 3 Buy) (Some key));
   event 2 3 (OrderAccepted (theirs 4));
   event 3 3 (TradeExecuted 10 (Some key) (mine 9) (theirs 4) 3 2 100 5 1 2);
   event 4 3 (OrderCompleted (mine 9));
   event 5 3 (BalanceChanged 3 cash);
   event 6 3 (BalanceChanged 2 498)].
Definition uncrossed : EventEnvelope := event 1 0 (TradeExecuted 10 (Some key) (mine 9) (mine 4) 2 2 100 5 1 2).
Lemma me_ok : identity_ok me.
Proof. split; split; by vm_compute. Qed.
End SampleBnpMapping.
Import SampleBnpMapping.

Lemma bnp_order_ids_come_back_witness : client_order_id me (mine 9) = 9 /\ is_mine other (mine 9) = false.
Proof.
  destruct (proj2 (bnp_order_ids_come_back me 9 me_ok ltac:(split; by vm_compute)) (mine 9) ltac:(by vm_compute))
    as (_ & H1 & _ & H2).
  exact (conj H1 (proj2 (H2 other ltac:(by vm_compute)))).
Defined.

Lemma bnp_requests_are_authorised_witness :
  match bnp_cancel me 9 1 with
  | Ok c => authorize_command (mkVerifiedActor (mkActorIdentity 5 ActorRole.Participant (Some 2) None) (Some 2)) c = Ok tt
  | Err _ => False
  end.
Proof.
  destruct (bnp_cancel me 9 1) as [c|] eqn:E; [| discriminate E].
  apply (proj1 (bnp_requests_are_authorised me 5 ActorRole.Participant None 1)); [reflexivity |]. right. left. by exists 9.
Defined.

Lemma bnp_messages_are_private_witness :
  private_messages me (batch (-501)) [] = private_messages me (batch 77) [] /\ length (private_messages me (batch 77) []) = 3%nat.
Proof.
  split; [| vm_compute; reflexivity]. apply bnp_messages_are_private. unfold batch.
  do 4 (constructor; [left; reflexivity |]). constructor; [right | constructor; [left; reflexivity | constructor]].
  split_and!; [by vm_compute | by vm_compute | reflexivity].
Defined.

Lemma bnp_messages_reach_their_client_witness :
  exists frs, Forall2 (fun m fr => encode_server m = Ok fr) (private_messages me (batch 77) []) frs.
Proof.
  destruct (bnp_messages_reach_their_client me [] (batch 77)) as (frs & Hfrs & _).
  - unfold batch, event_typed, payload_typed, received_typed, fits.
    repeat (apply Forall_cons; split); [.. | apply Forall_nil]; cbn; unfold option_ok, key_typed, fits; cbn;
      repeat split; by vm_compute.
  - constructor.
  - by exists frs.
Defined.

Lemma bnp_auction_self_trade_fills_witness :
  is_mine me (mine 9) = true /\ is_mine me (mine 4) = true /\
  exists a b, private_message me [uncrossed] [] uncrossed = [ServerMessage.Fill (event_stamp uncrossed) 9 (mine 9) (wire_listing key) a 100 5 1 b;
    ServerMessage.Fill (event_stamp uncrossed) 9 (mine 9) (wire_listing key) BnpWire.Side.Sell 100 5 2 b].
Proof.
  split_and!; [by vm_compute | by vm_compute |].
  pose proof (bnp_auction_self_trade_fills me [] [uncrossed] uncrossed 10 (Some key) (mine 9) (mine 4) 100 5 1 2 eq_refl) as H.
  exists BnpWire.Side.Buy, Liquidity.Maker. exact (H eq_refl).
Defined.
