(* ===== verification/WalFrames.v ===== *)
(** * bunting-server: the frames of its append-only logs

    The framing shared by [apps/bunting-server/src/commit_journal.rs] and
    [apps/bunting-server/src/session_store.rs]: a magic, the length of the
    record, its SHA-256 digest and the record.  A file is read front to
    back; an incomplete final frame is what a crash left of an append and
    ends the reading, any other damage refuses the file. *)

From S2P Require Import Prelude Digest BnpBytes BnpChain.
#[local] Open Scope list_scope.

Definition HEADER_SIZE : nat := 48.
Definition MAX_RECORD_BYTES : Z := 268435456.
Definition record_fits (record : Bytes) : bool :=
  (1 <=? Z.of_nat (length record)) && (Z.of_nat (length record) <=? MAX_RECORD_BYTES).

Section frames.
Context `{Sha256} (magic : Bytes).

(** The frame of a record: [fn encode], [JournalWriter::append] *)
Definition wal_frame (record : Bytes) : Bytes :=
  magic ++ to_le_bytes U64 (Z.of_nat (length record)) ++ sha256 record ++ record.

(** What the front of a file holds: an incomplete frame, damage, or a
    record and the rest of the file. *)
Inductive Front : Type :=
  | CrashTail
  | Damage
  | Complete (record rest : Bytes).
Definition wal_front (file : Bytes) : Front :=
  if (length file <? HEADER_SIZE)%nat then CrashTail
  else
    let header := take HEADER_SIZE file in
    let body := drop HEADER_SIZE file in
    if negb (bool_decide (take 8 header = magic)) then Damage
    else
      let size := le_value (take 8 (drop 8 header)) in
      if (size <? 1) || (MAX_RECORD_BYTES <? size) then Damage
      else if Z.of_nat (length body) <? size then CrashTail
      else
        let record := take (Z.to_nat size) body in
        if negb (bool_decide (sha256 record = drop 16 header)) then Damage
        else Complete record (drop (Z.to_nat size) body).

(** The loop over a file; its result is what the loop left unread. *)
Fixpoint wal_scan {S E} (invalid : E) (visit : Bytes -> M S E unit) (fuel : nat) (file : Bytes) : M S E Bytes :=
  match file, fuel with
  | [], _ => mret []
  | _, O => mret file
  | _, S fuel =>
      match wal_front file with
      | CrashTail => mret file
      | Damage => throw invalid
      | Complete record rest => visit record;; wal_scan invalid visit fuel rest
      end
  end.
(** Every round consumes a header, so a file of [n] bytes takes at most [n]
    rounds. *)
Definition scan_file {S E} (invalid : E) (visit : Bytes -> M S E unit) (file : Bytes) : M S E Bytes :=
  wal_scan invalid visit (length file) file.

(** ** Reading back *)

Context (magic_length : length magic = 8%nat).

Lemma wal_frame_length record : length (wal_frame record) = (HEADER_SIZE + length record)%nat.
Proof.
  unfold wal_frame, to_le_bytes, HEADER_SIZE. rewrite !length_app, length_le_bytes, sha256_length, magic_length. simpl. lia.
Qed.
(** The header of a frame, and its parts. *)
Definition wal_header (record : Bytes) : Bytes :=
  magic ++ to_le_bytes U64 (Z.of_nat (length record)) ++ sha256 record.
Lemma wal_header_length record : length (wal_header record) = HEADER_SIZE.
Proof. unfold wal_header, to_le_bytes. by rewrite !length_app, length_le_bytes, sha256_length, magic_length. Qed.
Lemma wal_frame_header record : wal_frame record = wal_header record ++ record.
Proof. unfold wal_frame, wal_header. by rewrite <- !app_assoc. Qed.
Lemma wal_header_magic record : take 8 (wal_header record) = magic.
Proof. unfold wal_header. by rewrite take_app_length'. Qed.
Lemma wal_header_size record :
  record_fits record = true -> le_value (take 8 (drop 8 (wal_header record))) = Z.of_nat (length record).
Proof.
  unfold record_fits. intros [Hlo%Z.leb_le Hhi%Z.leb_le]%andb_true_iff. unfold wal_header.
  rewrite drop_app_length' by done. unfold to_le_bytes. rewrite take_app_length' by by rewrite length_le_bytes.
  rewrite le_value_bytes. apply Z.mod_small. unfold MAX_RECORD_BYTES in Hhi. split; [lia |].
  change (256 ^ Z.of_nat (width U64)) with 18446744073709551616. lia.
Qed.
Lemma wal_header_digest record : drop 16 (wal_header record) = sha256 record.
Proof.
  unfold wal_header. rewrite app_assoc. apply drop_app_length'.
  unfold to_le_bytes. by rewrite length_app, length_le_bytes, magic_length.
Qed.

(** A file that starts with the header of a record. *)
Lemma wal_front_header record body :
  record_fits record = true ->
  wal_front (wal_header record ++ body) =
    if Z.of_nat (length body) <? Z.of_nat (length record) then CrashTail
    else if bool_decide (sha256 (take (length record) body) = sha256 record)
         then Complete (take (length record) body) (drop (length record) body) else Damage.
Proof.
  intros Hr. unfold wal_front. rewrite length_app, wal_header_length.
  rewrite (proj2 (Nat.ltb_ge _ _)) by lia. rewrite take_app_length', drop_app_length' by (by rewrite wal_header_length).
  rewrite wal_header_magic, wal_header_size, wal_header_digest, bool_decide_true by done. cbn [negb].
  unfold record_fits in Hr. apply andb_true_iff in Hr as [Hlo%Z.leb_le Hhi%Z.leb_le].
  rewrite (proj2 (Z.ltb_ge _ _)) by done. rewrite (proj2 (Z.ltb_ge _ _)) by done. cbn [orb].
  rewrite Nat2Z.id. destruct (_ <? _); [done |]. by destruct (bool_decide _).
Qed.
Lemma wal_front_frame record rest :
  record_fits record = true -> wal_front (wal_frame record ++ rest) = Complete record rest.
Proof.
  intros Hr. rewrite wal_frame_header, <- app_assoc, wal_front_header by done.
  rewrite (proj2 (Z.ltb_ge _ _)) by (rewrite length_app; lia).
  by rewrite take_app_length, drop_app_length, bool_decide_true.
Qed.
(** A frame that lost bytes at its end is a crash tail. *)
Lemma wal_front_torn record n :
  record_fits record = true -> (n < length (wal_frame record))%nat -> wal_front (take n (wal_frame record)) = CrashTail.
Proof.
  intros Hr Hn. rewrite wal_frame_length in Hn. destruct (decide (n < HEADER_SIZE)%nat) as [Hlt|Hge].
  - unfold wal_front. rewrite length_take, wal_frame_length. by rewrite (proj2 (Nat.ltb_lt _ _)) by lia.
  - rewrite wal_frame_header, take_app_ge by (rewrite wal_header_length; lia). rewrite wal_front_header by done.
    rewrite (proj2 (Z.ltb_lt _ _)); [done |]. rewrite length_take, wal_header_length. lia.
Qed.

(** What a crash can leave of one append. *)
Definition torn (file : Bytes) : Prop :=
  exists record n, record_fits record = true /\ (n < length (wal_frame record))%nat /\ file = take n (wal_frame record).
Lemma torn_nil : torn [].
Proof.
  exists [0], 0%nat. split_and!; [done | | done]. rewrite wal_frame_length. unfold HEADER_SIZE. simpl. lia.
Qed.

Lemma torn_or_whole n record :
  record_fits record = true -> torn (take n (wal_frame record)) \/ take n (wal_frame record) = wal_frame record.
Proof.
  intros Hb. destruct (decide (n < length (wal_frame record))%nat) as [Hlt|Hge].
  - left. exists record, n. by split_and!.
  - right. apply take_ge. lia.
Qed.

Definition wal_file (records : list Bytes) : Bytes := concat (wal_frame <$> records).
Lemma wal_file_snoc records record : wal_file (records ++ [record]) = wal_file records ++ wal_frame record.
Proof. unfold wal_file. rewrite fmap_app, concat_app. simpl. by rewrite app_nil_r. Qed.

Lemma wal_scan_file {S E} (invalid : E) (visit : Bytes -> M S E unit) fuel records tail s :
  Forall (fun r => record_fits r = true) records -> torn tail -> (length (wal_file records ++ tail) <= fuel)%nat ->
  wal_scan invalid visit fuel (wal_file records ++ tail) s = (for_each visit records;; mret tail) s.
Proof.
  intros Hr Ht. revert fuel s. induction Hr as [|r rs Hr Hrs IH]; intros fuel s Hf.
  - destruct Ht as (record & n & Hrec & Hn & ->). unfold wal_file in *. cbn [fmap list_fmap concat app for_each] in *.
    rewrite bind_ret. destruct fuel as [|fuel].
    { destruct (take n (wal_frame record)); [done | cbn [length] in Hf; lia]. }
    pose proof (wal_front_torn record n Hrec Hn) as Hfront. cbn [wal_scan]. rewrite Hfront.
    by destruct (take n (wal_frame record)).
  - unfold wal_file in *. cbn [fmap list_fmap concat for_each] in *. rewrite <- app_assoc in Hf |- *.
    rewrite length_app, wal_frame_length in Hf. destruct fuel as [|fuel]; [unfold HEADER_SIZE in Hf; lia |].
    destruct (wal_frame r ++ (concat (wal_frame <$> rs) ++ tail)) as [|b bytes] eqn:Hb.
    { apply (f_equal length) in Hb. rewrite length_app, wal_frame_length in Hb. cbn in Hb. unfold HEADER_SIZE in Hb. lia. }
    rewrite <- Hb. cbn [wal_scan]. rewrite wal_front_frame by done. rewrite Hb.
    rewrite bind_assoc. unfold mbind, M_bind. destruct (visit r s) as [s1 [[]|e]]; [| done].
    specialize (IH fuel s1). rewrite IH; [done |]. unfold HEADER_SIZE in Hf. lia.
Qed.
Lemma scan_file_frames {S E} (invalid : E) (visit : Bytes -> M S E unit) records tail s :
  Forall (fun r => record_fits r = true) records -> torn tail ->
  scan_file invalid visit (wal_file records ++ tail) s = (for_each visit records;; mret tail) s.
Proof. intros Hr Ht. by apply wal_scan_file. Qed.
End frames.
