(* ===== verification/FileOrigin.v ===== *)
(** * bunting-server: the durable origin

    Models [apps/bunting-server/src/commit_journal.rs] and [FileOriginStore]
    of [apps/bunting-server/src/storage.rs]: the live runs of [Origin] behind
    an append-only journal, a checkpoint file that only shortens restarts,
    and recovery from the two.  A file is its bytes.  What the disk does
    with the writes of a call is an argument of the call: an append reaches
    the disk, or fails after some of its bytes did; a checkpoint, written
    aside and renamed, replaces the old one or does not.  The single-writer
    lease and the creation of directories are not modelled. *)

From S2P Require Import Prelude Ordered MarketTypes MarketEvents Latency Digest Transition Origin WalFrames.
From Stdlib Require Import Ascii.
#[local] Open Scope list_scope.

(** [EngineSnapshotEnvelope] as the store uses it: [new], [verify] and the
    state inside. *)
Class Snapshots (RunState : Type) := {
  Envelope : Type;
  envelope_new : RunState -> option Envelope;
  envelope_verify : Envelope -> bool;
  envelope_state : Envelope -> RunState
}.

Module JournalEntry.
Inductive JournalEntry {RunState : Type} `{!Snapshots RunState} : Type :=
  | Genesis (snapshot : Envelope)
  | Command (record : CommandRecord).
Arguments JournalEntry : clear implicits.
Arguments JournalEntry RunState {_}.
End JournalEntry.
Export JournalEntry (JournalEntry).

(** [Checkpoint] and [CheckpointRun] *)
Record Checkpoint (RunState : Type) `{!Snapshots RunState} : Type := mkCheckpoint {
  ck_version : Z;
  ck_runs : list (Envelope * list ascii)
}.
Arguments mkCheckpoint {RunState _}.
Arguments ck_version {RunState _}.
Arguments ck_runs {RunState _}.

(** [serde_json] on the values of the two files. *)
Class StoreCodec (RunState : Type) `{!Snapshots RunState} := {
  json_entry : JournalEntry RunState -> option Bytes;
  parse_entry : Bytes -> option (JournalEntry RunState);
  parse_json_entry : forall e b, json_entry e = Some b -> parse_entry b = Some e;
  json_checkpoint : Checkpoint RunState -> option Bytes;
  parse_checkpoint : Bytes -> option (Checkpoint RunState);
  parse_json_checkpoint : forall c b, json_checkpoint c = Some b -> parse_checkpoint b = Some c
}.

(** [b"BUNTWAL3"] and [CHECKPOINT_VERSION] *)
Definition JOURNAL_MAGIC : Bytes := [66; 85; 78; 84; 87; 65; 76; 51].
Definition CHECKPOINT_VERSION : Z := 3.

(** What becomes of a checkpoint's file: it replaces the old one; it does, but
    the directory that names it cannot be synced; or it does not. *)
Inductive CheckpointWrite : Type := Replaced | ReplacedUnsynced | NotReplaced.
(** What the disk does with the writes of one call: the bytes of the append
    that reach it when the append fails, and what becomes of a checkpoint. *)
Record Disk : Type := mkDisk {
  dk_append_fails : option nat;
  dk_checkpoint_written : CheckpointWrite
}.

Record FileOriginStore (RunState : Type) : Type := mkFileOriginStore {
  fo_runs : gmap Z (LiveRun RunState);
  fo_journal : Bytes;
  fo_checkpoint : option Bytes;
  fo_poisoned : bool;
  fo_max_runs : nat;
  fo_limits : RunLimits
}.
Arguments mkFileOriginStore {RunState}.
Arguments fo_runs {RunState}.
Arguments fo_journal {RunState}.
Arguments fo_checkpoint {RunState}.
Arguments fo_poisoned {RunState}.
Arguments fo_max_runs {RunState}.
Arguments fo_limits {RunState}.

Section file_origin.
Context {RunState EngineError : Type} `{HE : !Engine RunState EngineError} `{HH : !Sha256} `{HJ : !JournalCodec}.
Context `{HS : !Snapshots RunState} `{HC : !StoreCodec RunState}.
#[local] Notation Error := (OriginError EngineError).
#[local] Notation Live := (LiveRun RunState).
#[local] Notation Store := (FileOriginStore RunState).

Definition put_runs (v : gmap Z Live) (o : Store) : Store :=
  mkFileOriginStore v (fo_journal o) (fo_checkpoint o) (fo_poisoned o) (fo_max_runs o) (fo_limits o).
Definition put_journal (v : Bytes) (o : Store) : Store :=
  mkFileOriginStore (fo_runs o) v (fo_checkpoint o) (fo_poisoned o) (fo_max_runs o) (fo_limits o).
Definition put_checkpoint (v : option Bytes) (o : Store) : Store :=
  mkFileOriginStore (fo_runs o) (fo_journal o) v (fo_poisoned o) (fo_max_runs o) (fo_limits o).
Definition poison (o : Store) : Store :=
  mkFileOriginStore (fo_runs o) (fo_journal o) (fo_checkpoint o) true (fo_max_runs o) (fo_limits o).

(** ** Writing *)

(** [JournalWriter::append] *)
Definition journal_append (entry : JournalEntry RunState) (fails : option nat) : M Store Error unit :=
  bytes ← lift (ok_or (json_entry entry) OriginError.InvalidCommit);
  refuse_if (negb (record_fits bytes)) OriginError.InvalidCommit;;
  let frame := wal_frame JOURNAL_MAGIC bytes in
  match fails with
  | None => modify (fun o => put_journal (fo_journal o ++ frame) o)
  | Some n =>
      modify (fun o => put_journal (fo_journal o ++ take n frame) o);;
      throw OriginError.Unavailable
  end.
(** An append whose failure stops the store. *)
Definition append_or_poison (entry : JournalEntry RunState) (fails : option nat) : M Store Error unit := fun o =>
  match journal_append entry fails o with
  | (o, Ok _) => (o, Ok tt)
  | (o, Err e) => (poison o, Err e)
  end.

(** [fn write_checkpoint] *)
Definition checkpoint_run (l : Live) : option (Envelope * list ascii) :=
  let '(state, chain) := checkpoint_state l in
  envelope ← envelope_new state;
  Some (envelope, chain).
Definition write_checkpoint (written : CheckpointWrite) : M Store Error unit :=
  runs ← gets (fun o => mapM checkpoint_run (values (fo_runs o)));
  runs ← lift (ok_or runs OriginError.InvalidCommit);
  bytes ← lift (ok_or (json_checkpoint (mkCheckpoint CHECKPOINT_VERSION runs)) OriginError.InvalidCommit);
  match written with
  | Replaced => modify (put_checkpoint (Some bytes))
  | ReplacedUnsynced => modify (put_checkpoint (Some bytes));; throw OriginError.Unavailable
  | NotReplaced => throw OriginError.Unavailable
  end.
(** [let _ = write_checkpoint(...)] *)
Definition try_checkpoint (written : CheckpointWrite) : M Store Error unit := fun o =>
  let '(o, _) := write_checkpoint written o in (o, Ok tt).

(** [LiveRun::checkpoint] of the run [id], and of every run. *)
Definition checkpoint_live (id : Z) : M Store Error unit :=
  o ← gets (fun o => fo_runs o !! id);
  match o with
  | None => mret tt
  | Some live =>
      let '(live, done) := checkpoint live in
      modify (fun o => put_runs (<[id := live]> (fo_runs o)) o);;
      lift done
  end.
Definition checkpoint_all : M Store Error unit :=
  ids ← gets (fun o => keys (fo_runs o));
  for_each checkpoint_live ids.

(** ** The store *)

Definition refuse_poisoned : M Store Error unit :=
  poisoned ← gets fo_poisoned;
  refuse_if poisoned OriginError.Unavailable.

(** [FileOriginStore::insert_run] *)
Definition file_insert_run `{!EqDecision RunState} (run : RunState) (disk : Disk) : M Store Error unit :=
  refuse_poisoned;;
  o ← gets id;
  match fo_runs o !! run_id run with
  | Some existing =>
      s ← lift (live_state existing);
      refuse_if (negb (bool_decide (s = run))) OriginError.InvalidCommit
  | None =>
      refuse_if (fo_max_runs o <=? size (fo_runs o))%nat OriginError.CapacityExceeded;;
      snapshot ← lift (ok_or (envelope_new run) OriginError.InvalidCommit);
      live ← lift (LiveRun_genesis run (fo_limits o));
      append_or_poison (JournalEntry.Genesis snapshot) (dk_append_fails disk);;
      s ← lift (live_state live);
      modify (fun o => put_runs (<[run_id s := live]> (fo_runs o)) o)
  end.

(** [FileOriginStore::checkpoint] *)
Definition file_checkpoint (disk : Disk) : M Store Error unit :=
  refuse_poisoned;;
  checkpoint_all;;
  write_checkpoint (dk_checkpoint_written disk).

(** [OriginStore::execute_admitted for FileOriginStore] *)
Definition file_execute (input : JournalInput) (admission : option AdmissionRecord) (disk : Disk) : M Store Error Executed :=
  refuse_poisoned;;
  o ← gets id;
  live ← lift (ok_or (fo_runs o !! input_run_id input) OriginError.UnknownRun);
  let '(live, executed) := execute_admitted input admission live in
  modify (fun o => put_runs (<[input_run_id input := live]> (fo_runs o)) o);;
  executed ← lift executed;
  match executed with
  | Duplicate result => mret (mkExecuted result [] true)
  | Committed record =>
      append_or_poison (JournalEntry.Command record) (dk_append_fails disk);;
      (if needs_checkpoint live then
         checkpoint_live (input_run_id input);;
         try_checkpoint (dk_checkpoint_written disk)
       else mret tt);;
      mret (mkExecuted (rc_result record) (rc_events record) false)
  end.

(** [OriginStore::read_run] and [find_command] *)
Definition file_read_run {T} (o : Store) (id : Z) (read : RunState -> T) : result Error T :=
  if fo_poisoned o then Err OriginError.Unavailable
  else
    live ← ok_or (fo_runs o !! id) OriginError.UnknownRun;
    s ← live_state live;
    Ok (read s).
Definition file_find_command (o : Store) (id command_id : Z) : result Error (option (list ascii * CommandResult)) :=
  if fo_poisoned o then Err OriginError.Unavailable
  else
    live ← ok_or (fo_runs o !! id) OriginError.UnknownRun;
    Ok (find live command_id).

(** ** Recovery *)

(** [commit_journal::scan] with a closure over the state [S]; its result is
    the crash tail. *)
Definition visit_entry {S} (visit : JournalEntry RunState -> M S Error unit) (bytes : Bytes) : M S Error unit :=
  entry ← lift (ok_or (parse_entry bytes) OriginError.InvalidCommit);
  visit entry.
Definition journal_scan {S} (visit : JournalEntry RunState -> M S Error unit) (journal : Bytes) : M S Error Bytes :=
  scan_file JOURNAL_MAGIC OriginError.InvalidCommit (visit_entry visit) journal.

(** The checkpointed runs [recover] starts from. *)
Fixpoint checkpointed_runs (runs : list (Envelope * list ascii)) (m : gmap Z (RunState * list ascii))
    : result Error (gmap Z (RunState * list ascii)) :=
  match runs with
  | [] => Ok m
  | (snapshot, chain) :: runs =>
      let s := envelope_state snapshot in
      if negb (envelope_verify snapshot) || bool_decide (is_Some (m !! run_id s)) then Err OriginError.InvalidCommit
      else checkpointed_runs runs (<[run_id s := (s, chain)]> m)
  end.
Definition read_checkpoint (file : option Bytes) : result Error (gmap Z (RunState * list ascii)) :=
  match file with
  | None => Ok ∅
  | Some bytes =>
      checkpoint ← ok_or (parse_checkpoint bytes) OriginError.InvalidCommit;
      if negb (ck_version checkpoint =? CHECKPOINT_VERSION) then Err OriginError.InvalidCommit
      else checkpointed_runs (ck_runs checkpoint) ∅
  end.

Record Recovering : Type := mkRecovering {
  rv_checkpointed : gmap Z (RunState * list ascii);
  rv_recoveries : gmap Z (RunRecovery RunState)
}.
(** The closure of [recover]. *)
Definition recover_entry (limits : RunLimits) (max_runs : nat) (entry : JournalEntry RunState) : M Recovering Error unit :=
  v ← gets id;
  match entry with
  | JournalEntry.Genesis snapshot =>
      let genesis := envelope_state snapshot in
      refuse_if (negb (envelope_verify snapshot)) OriginError.InvalidCommit;;
      refuse_if (bool_decide (is_Some (rv_recoveries v !! run_id genesis))
                 || (max_runs <=? size (rv_recoveries v))%nat) OriginError.InvalidCommit;;
      modify (fun v => mkRecovering (delete (run_id genesis) (rv_checkpointed v)) (rv_recoveries v));;
      recovery ← lift (RunRecovery_new genesis (rv_checkpointed v !! run_id genesis) limits);
      modify (fun v => mkRecovering (rv_checkpointed v) (<[run_id genesis := recovery]> (rv_recoveries v)))
  | JournalEntry.Command record =>
      let id := input_run_id (rc_input record) in
      recovery ← lift (ok_or (rv_recoveries v !! id) OriginError.InvalidCommit);
      let '(recovery, replayed) := replay record recovery in
      modify (fun v => mkRecovering (rv_checkpointed v) (<[id := recovery]> (rv_recoveries v)));;
      lift replayed
  end.
(** The runs that are finished, in the order of their identifiers. *)
Fixpoint finish_all (recoveries : list (Z * RunRecovery RunState)) : result Error (gmap Z Live) :=
  match recoveries with
  | [] => Ok ∅
  | (id, recovery) :: recoveries =>
      live ← finish recovery;
      runs ← finish_all recoveries;
      Ok (<[id := live]> runs)
  end.
(** [fn recover]: the runs, and the journal without its crash tail. *)
Definition file_recover (checkpoint : option Bytes) (journal : Bytes) (limits : RunLimits) (max_runs : nat)
    : result Error (gmap Z Live * Bytes) :=
  checkpointed ← read_checkpoint checkpoint;
  match journal_scan (recover_entry limits max_runs) journal (mkRecovering checkpointed ∅) with
  | (_, Err e) => Err e
  | (v, Ok tail) =>
      if negb (bool_decide (rv_checkpointed v = ∅)) then Err OriginError.InvalidCommit
      else
        runs ← finish_all (entries (rv_recoveries v));
        Ok (runs, take (length journal - length tail) journal)
  end.

(** [FileOriginStore::open] on what the disk holds. *)
Definition file_open (checkpoint journal : option Bytes) (limits : RunLimits) (max_runs : nat) (disk : Disk)
    : result Error Store :=
  if bool_decide (is_Some checkpoint) && negb (bool_decide (is_Some journal)) then Err OriginError.InvalidCommit
  else
    '(runs, journal) ← file_recover checkpoint (default [] journal) limits max_runs;
    let o := mkFileOriginStore runs journal checkpoint false max_runs limits in
    if existsb needs_checkpoint (values runs) then
      let '(o, done) := (checkpoint_all;; try_checkpoint (dk_checkpoint_written disk)) o in
      _ ← done; Ok o
    else Ok o.

(** ** Reading the journal *)

(** [FileOriginStore::events] *)
Definition collect_events (id : Z) (entry : JournalEntry RunState) : M (list EventEnvelope) Error unit :=
  match entry with
  | JournalEntry.Command record =>
      if input_run_id (rc_input record) =? id then modify (fun events => events ++ rc_events record) else mret tt
  | JournalEntry.Genesis _ => mret tt
  end.
Definition file_events (o : Store) (id : Z) : result Error (list EventEnvelope) :=
  if fo_poisoned o then Err OriginError.Unavailable
  else if negb (bool_decide (is_Some (fo_runs o !! id))) then Err OriginError.UnknownRun
  else match journal_scan (collect_events id) (fo_journal o) [] with
       | (events, Ok _) => Ok events
       | (_, Err e) => Err e
       end.
(** [fn read_run_journal] *)
Definition collect_run (id : Z) (entry : JournalEntry RunState)
    : M (option Envelope * list CommandRecord) Error unit :=
  '(genesis, records) ← gets (fun v => v);
  match entry with
  | JournalEntry.Genesis snapshot =>
      if run_id (envelope_state snapshot) =? id then
        modify (fun _ => (Some snapshot, records));;
        refuse_if (bool_decide (is_Some genesis)) OriginError.InvalidCommit
      else mret tt
  | JournalEntry.Command record =>
      if input_run_id (rc_input record) =? id then
        refuse_if (negb (bool_decide (is_Some genesis))) OriginError.InvalidCommit;;
        modify (fun _ => (genesis, records ++ [record]))
      else mret tt
  end.
Definition read_run_journal (journal : Bytes) (id : Z) : result Error (Envelope * list CommandRecord) :=
  match journal_scan (collect_run id) journal (None, []) with
  | (_, Err e) => Err e
  | ((genesis, records), Ok _) =>
      genesis ← ok_or genesis OriginError.UnknownRun;
      Ok (genesis, records)
  end.
(** [fn committed_batches_after] with a closure over the state [S] that can
    fail with an [E]; its result is the last event sequence visited. *)
Record Visiting (S E : Type) : Type := mkVisiting {
  vb_state : S;
  vb_through : Z;
  vb_failure : option E
}.
Definition visit_batch {S E} (id after : Z) (visit : list EventEnvelope -> M S E unit) (entry : JournalEntry RunState)
    : M (Visiting S E) Error unit := fun v =>
  match entry with
  | JournalEntry.Command record =>
      match last (rc_events record) with
      | Some e =>
          if (input_run_id (rc_input record) =? id) && (after <? ev_sequence e) then
            match visit (rc_events record) (vb_state _ _ v) with
            | (s, Ok _) => (mkVisiting _ _ s (ev_sequence e) (vb_failure _ _ v), Ok tt)
            | (s, Err error) => (mkVisiting _ _ s (ev_sequence e) (Some error), Err OriginError.Unavailable)
            end
          else (v, Ok tt)
      | None => (v, Ok tt)
      end
  | JournalEntry.Genesis _ => (v, Ok tt)
  end.
Definition committed_batches_after {S E} (unreadable : E) (journal : Bytes) (id after : Z)
    (visit : list EventEnvelope -> M S E unit) : M S E Z := fun s =>
  match journal_scan (visit_batch id after visit) journal (mkVisiting _ _ s after None) with
  | (v, Ok _) => (vb_state _ _ v, Ok (vb_through _ _ v))
  | (v, Err _) => (vb_state _ _ v, Err (default unreadable (vb_failure _ _ v)))
  end.
End file_origin.
