(* ===== verification/FileOriginTheorems.v ===== *)
(** * bunting-server: what the durable origin promises

    The store's invariant ties its two files to its live runs; every call
    preserves it, and from files that satisfy it, with whatever a crash left
    of one more append, recovery rebuilds the runs. *)

From S2P Require Import Prelude Ordered MarketTypes MarketEvents Latency Digest Transition Origin OriginTheorems.
From S2P Require Import WalFrames FileOrigin.
From Stdlib Require Import Ascii.
#[local] Open Scope list_scope.

Section file_origin.
Context {RunState EngineError : Type} `{HE : !Engine RunState EngineError} `{HH : !Sha256} `{HJ : !JournalCodec}.
Context `{HS : !Snapshots RunState} `{HC : !StoreCodec RunState}.
#[local] Notation Error := (OriginError EngineError).
#[local] Notation Live := (LiveRun RunState).
#[local] Notation Store := (FileOriginStore RunState).
#[local] Notation Entry := (JournalEntry RunState).
Context (limits : RunLimits).

(** ** What a journal says *)

(** The genesis state and the records of each run. *)
#[local] Notation Journal := (gmap Z (RunState * list CommandRecord)).
Inductive journal_of : list Entry -> Journal -> Prop :=
  | journal_nil : journal_of [] ∅
  | journal_genesis es J snapshot :
      journal_of es J -> envelope_verify snapshot = true -> J !! run_id (envelope_state snapshot) = None ->
      journal_of (es ++ [JournalEntry.Genesis snapshot])
        (<[run_id (envelope_state snapshot) := (envelope_state snapshot, [])]> J)
  | journal_command es J record g js :
      journal_of es J -> J !! input_run_id (rc_input record) = Some (g, js) ->
      journal_of (es ++ [JournalEntry.Command record]) (<[input_run_id (rc_input record) := (g, js ++ [record])]> J).

Lemma for_each_app {S E A} (f : A -> M S E unit) (xs ys : list A) s :
  for_each f (xs ++ ys) s = (for_each f xs;; for_each f ys) s.
Proof.
  revert s. induction xs as [|x xs IH]; intros s; [done |]. cbn [app for_each]. rewrite bind_assoc.
  unfold mbind, M_bind in *. destruct (f x s) as [s1 [[]|e]]; [apply IH | done].
Qed.

(** ** Scanning it *)

(** Each run of the journal can be replayed from its checkpoint. *)
Definition replayable (m : gmap Z (RunState * list ascii)) (id : Z) (g : RunState) (js : list CommandRecord)
    (rec : RunRecovery RunState) : Prop :=
  exists rec0, RunRecovery_new (EngineError := EngineError) g (m !! id) limits = Ok rec0 /\
    replay_all (EngineError := EngineError) js rec0 = (rec, Ok tt).
Lemma replayable_prefix m id g js r rec :
  replayable m id g (js ++ [r]) rec -> exists rec1, replayable m id g js rec1 /\
    replay (EngineError := EngineError) r rec1 = (rec, Ok tt).
Proof.
  intros (rec0 & Hnew & Hrun). rewrite replay_all_app in Hrun.
  apply bind_Ok_inv in Hrun as (rec1 & [] & H1 & H2). exists rec1. split; [by exists rec0 |].
  cbn [replay_all] in H2. apply bind_Ok_inv in H2 as (rec2 & [] & H2 & [= <-]). done.
Qed.

Record scanned (m : gmap Z (RunState * list ascii)) (J : Journal) (v : Recovering (RunState := RunState)) : Prop := {
  sn_checkpointed : forall id, rv_checkpointed v !! id = if decide (is_Some (J !! id)) then None else m !! id;
  sn_size : size (rv_recoveries v) = size J;
  sn_absent : forall id, J !! id = None -> rv_recoveries v !! id = None;
  sn_present : forall id g js, J !! id = Some (g, js) -> exists rec, rv_recoveries v !! id = Some rec /\ replayable m id g js rec
}.

Lemma scan_journal m max_runs es J :
  journal_of es J -> (size J <= max_runs)%nat ->
  (forall id g js, J !! id = Some (g, js) -> exists rec, replayable m id g js rec) ->
  exists v, for_each (recover_entry limits max_runs) es (mkRecovering m ∅) = (v, Ok tt) /\ scanned m J v.
Proof.
  induction 1 as [|es J snapshot HJ' IH Hv Hnew|es J r g js HJ' IH HJr]; intros Hmax Hrep.
  - exists (mkRecovering m ∅). split; [done |]. by split.
  - set (g := envelope_state snapshot) in *. rewrite map_size_insert_None in Hmax by done.
    destruct IH as (v & Hrun & [Hc Hsz Ha Hp]); [lia | |].
    { intros id g' js HJid. apply Hrep. rewrite lookup_insert_ne; [done | congruence]. }
    destruct (Hrep (run_id g) g []) as (rec & rec0 & Hnew0 & [= ->]); [by rewrite lookup_insert_eq |].
    eexists. split.
    + rewrite for_each_app. rewrite (bind_run _ _ _ _ _ Hrun). cbn [for_each].
      unfold recover_entry. rewrite bind_assoc, bind_gets. cbn [id]. fold g.
      rewrite (Ha _ Hnew), Hsz, Hv. cbn [negb]. rewrite bind_assoc, bind_refuse by done.
      rewrite bind_assoc, bind_refuse
        by (rewrite bool_decide_false by (by intros [? ?]); cbn [orb]; apply Nat.leb_gt; lia).
      rewrite bind_assoc, bind_modify. rewrite (Hc (run_id g)), decide_False by (rewrite Hnew; by intros [? ?]).
      rewrite bind_assoc, (bind_lift _ _ _ rec) by done. rewrite bind_modify. reflexivity.
    + split; cbn [rv_checkpointed rv_recoveries].
      * intros id. destruct (decide (id = run_id g)) as [->|Hne].
        -- rewrite lookup_delete_eq, lookup_insert_eq. by rewrite decide_True by eauto.
        -- by rewrite lookup_delete_ne, lookup_insert_ne, Hc by done.
      * rewrite !map_size_insert_None by auto. lia.
      * intros id [HJid Hne]%lookup_insert_None. rewrite lookup_insert_ne by done. auto.
      * intros id g' js. destruct (decide (run_id g = id)) as [<-|Hne].
        -- rewrite lookup_insert_eq. intros [= <- <-]. exists rec. rewrite lookup_insert_eq. split; [done |]. by exists rec.
        -- rewrite lookup_insert_ne by done. intros HJid. rewrite lookup_insert_ne by done. auto.
  - set (rid := input_run_id (rc_input r)) in *.
    assert (Hsize : size (<[rid := (g, js ++ [r])]> J) = size J) by (apply map_size_insert_Some; eauto).
    rewrite Hsize in Hmax.
    destruct (Hrep rid g (js ++ [r])) as (rec & Hrec); [by rewrite lookup_insert_eq |].
    apply replayable_prefix in Hrec as Hpre. destruct Hpre as (rec1 & Hrec1 & Hrun1).
    destruct IH as (v & Hrun & [Hc Hsz Ha Hp]); [done | |].
    { intros id' g' js' HJid. destruct (decide (id' = rid)) as [->|Hne]; [| apply Hrep; by rewrite lookup_insert_ne].
      rewrite HJr in HJid. injection HJid as <- <-. eauto. }
    destruct (Hp rid g js HJr) as (rec1' & Hv1 & rec0 & Hn0 & Hr0).
    assert (rec1' = rec1) as ->.
    { destruct Hrec1 as (rec0' & Hn0' & Hr0'). congruence. }
    eexists. split.
    + rewrite for_each_app. rewrite (bind_run _ _ _ _ _ Hrun). cbn [for_each].
      unfold recover_entry. rewrite bind_assoc, bind_gets. cbn [id]. fold rid.
      rewrite bind_assoc, (bind_lift _ _ _ rec1) by (by rewrite Hv1). rewrite Hrun1.
      rewrite bind_assoc, bind_modify. rewrite (bind_lift _ _ _ tt) by done. reflexivity.
    + split; cbn [rv_checkpointed rv_recoveries].
      * intros id'. rewrite Hc. destruct (decide (id' = rid)) as [->|Hne].
        -- rewrite lookup_insert_eq, !decide_True by eauto. done.
        -- by rewrite lookup_insert_ne by done.
      * rewrite map_size_insert_Some by eauto. by rewrite Hsize.
      * intros id' [HJid Hne]%lookup_insert_None. rewrite lookup_insert_ne by done. auto.
      * intros id' g' js'. destruct (decide (rid = id')) as [<-|Hne].
        -- rewrite lookup_insert_eq. intros [= <- <-]. exists rec. by rewrite lookup_insert_eq.
        -- rewrite !lookup_insert_ne by done. auto.
Qed.

(** ** Recovering the runs *)

Lemma finish_all_ok (rs : list (Z * RunRecovery RunState)) (L : gmap Z Live) :
  NoDup rs.*1 ->
  (forall id rec, (id, rec) ∈ rs -> exists l, L !! id = Some l /\ finish (EngineError := EngineError) rec = Ok l) ->
  (forall id, is_Some (L !! id) -> id ∈ rs.*1) ->
  finish_all (EngineError := EngineError) rs = Ok L.
Proof.
  revert L. induction rs as [|[id rec] rs IH]; intros L Hnd Hf Hd.
  - cbn. f_equal. symmetry. apply map_empty. intros i. destruct (L !! i) as [l|] eqn:E; [| done].
    exfalso. specialize (Hd i ltac:(eauto)). by apply elem_of_nil in Hd.
  - cbn in Hnd. apply NoDup_cons in Hnd as [Hni Hnd]. destruct (Hf id rec) as (l & Hl & Hfin); [left |].
    cbn [finish_all]. rewrite Hfin. cbn. rewrite (IH (delete id L)).
    + cbn. f_equal. by apply insert_delete_id.
    + done.
    + intros i rec' Hin. destruct (Hf i rec') as (l' & Hl' & Hfin'); [by right |]. exists l'. split; [| done].
      rewrite lookup_delete_ne; [done |]. intros <-. apply Hni. apply list_elem_of_fmap. by exists (id, rec').
    + intros i [l' [Hne Hl']%lookup_delete_Some]. specialize (Hd i ltac:(eauto)). cbn in Hd.
      apply elem_of_cons in Hd as [->|Hd]; done.
Qed.

(** The records of the journal file. *)
Definition encoded : list Entry -> list Bytes -> Prop :=
  Forall2 (fun e b => json_entry e = Some b /\ record_fits b = true).
Lemma encoded_fits es bs : encoded es bs -> Forall (fun b => record_fits b = true) bs.
Proof. induction 1 as [|e b es bs [_ Hb] _ IH]; by constructor. Qed.
Lemma visit_encoded {S} (visit : Entry -> M S Error unit) es bs s :
  encoded es bs -> for_each (visit_entry visit) bs s = for_each visit es s.
Proof.
  intros He. revert s. induction He as [|e b es bs [Hb _] _ IH]; intros s; [done |]. cbn [for_each].
  assert (Hv : visit_entry visit b s = visit e s).
  { unfold visit_entry. by rewrite (bind_lift _ _ _ e) by (by rewrite (parse_json_entry _ _ Hb)). }
  unfold mbind, M_bind in *. rewrite Hv. destruct (visit e s) as [s1 [[]|x]]; [apply IH | done].
Qed.

(** The runs of a journal are those that recovery gives. *)
Record recovers (m : gmap Z (RunState * list ascii)) (J : Journal) (L : gmap Z Live) : Prop := {
  rc_runs : forall id, is_Some (L !! id) <-> is_Some (J !! id);
  rc_run : forall id g js l, J !! id = Some (g, js) -> L !! id = Some l ->
    recover (EngineError := EngineError) g (m !! id) limits js = Ok l
}.
Lemma recovers_finish m J L id g js :
  recovers m J L -> J !! id = Some (g, js) ->
  exists l rec, L !! id = Some l /\ replayable m id g js rec /\ finish (EngineError := EngineError) rec = Ok l.
Proof.
  intros [Hd Hr] HJ0. destruct (proj2 (Hd id)) as [l Hl]; [eauto |]. specialize (Hr _ _ _ _ HJ0 Hl).
  unfold recover in Hr. apply result_bind_Ok in Hr as (rec0 & Hn & Hr).
  destruct (replay_all js rec0) as [rec [[]|e]] eqn:Hrun; [| done]. exists l, rec. split; [done |]. split; [by exists rec0 | done].
Qed.

Lemma file_recover_ok checkpoint m max_runs es bs J L tail :
  journal_of es J -> encoded es bs -> torn JOURNAL_MAGIC tail -> read_checkpoint (EngineError := EngineError) checkpoint = Ok m ->
  (forall id, is_Some (m !! id) -> is_Some (J !! id)) -> (size J <= max_runs)%nat -> recovers m J L ->
  file_recover (EngineError := EngineError) checkpoint (wal_file JOURNAL_MAGIC bs ++ tail) limits max_runs = Ok (L, wal_file JOURNAL_MAGIC bs).
Proof.
  intros HJ0 He Ht Hm Hdom Hmax HL. unfold file_recover. rewrite Hm. cbn [mbind result_bind].
  destruct (scan_journal m max_runs es J HJ0 Hmax) as (v & Hrun & [Hc Hsz Ha Hp]).
  { intros id g js Hj. destruct (recovers_finish m J L id g js HL Hj) as (_ & rec & _ & Hrec & _). eauto. }
  unfold journal_scan. rewrite (scan_file_frames JOURNAL_MAGIC eq_refl _ _ bs tail)
    by (try done; by eapply encoded_fits).
  rewrite (bind_run _ _ _ v tt); [| by rewrite (visit_encoded _ es bs), Hrun by done]. cbn [mret M_ret].
  rewrite bool_decide_true.
  2:{ apply map_empty. intros id. rewrite Hc. destruct (decide (is_Some (J !! id))); [done |].
      destruct (m !! id) eqn:E; [| done]. exfalso. eauto. }
  cbn [negb]. rewrite (finish_all_ok (entries (rv_recoveries v)) L).
  - cbn. do 2 f_equal. rewrite length_app. replace (_ + _ - _)%nat with (length (wal_file JOURNAL_MAGIC bs)) by lia.
    by rewrite take_app_length.
  - apply NoDup_keys.
  - intros id rec Hrec%elem_of_entries. destruct (J !! id) as [[g js]|] eqn:Hj; [| by rewrite Ha in Hrec].
    destruct (Hp _ _ _ Hj) as (rec1 & Hrec1 & rec0 & Hn & Hr0).
    destruct (recovers_finish m J L id g js HL Hj) as (l & rec2 & Hl & (rec0' & Hn' & Hr0') & Hfin).
    exists l. split; [done |]. congruence.
  - intros id [[g js] Hj]%(rc_runs _ _ _ HL). destruct (Hp _ _ _ Hj) as (rec & Hrec & _).
    apply elem_of_keys. eauto.
Qed.
(** ** The invariant of a store *)

(** What the engine promises of the runs it is given: snapshots of good
    states verify, and typed inputs keep states good. *)
Context (good : RunState -> Prop) (typed : JournalInput -> Prop).
Hypothesis good_sealed : forall s, good s ->
  exists e, envelope_new s = Some e /\ envelope_verify e = true /\ envelope_state e = s.
Hypothesis good_apply : forall i s s' a, good s -> typed i -> apply i s = (s', Ok a) -> good s'.
Hypothesis good_sequence : forall s, good s -> 0 <= sequence s.

Lemma commits_good k rs k' :
  commits limits k rs k' -> Forall (fun r => typed (rc_input r)) rs -> good k.1.1 -> good k'.1.1.
Proof.
  induction 1 as [k|k r k1 rs k2 Hc _ IH]; [done |]. intros [Hr Hrs]%Forall_cons Hg. apply IH; [done |].
  destruct (cm_apply _ _ _ _ Hc) as (a & Ha & _). by eapply good_apply.
Qed.

(** A run behind the store: the journal of its records, and a checkpoint of
    some prefix of it. *)
Record run_served (m : gmap Z (RunState * list ascii)) (id : Z) (g : RunState) (js : list CommandRecord) (l : Live) : Prop := {
  rs_id : run_id g = id;
  rs_good : good g;
  rs_typed : Forall (fun r => typed (rc_input r)) js;
  rs_live : exists c0, genesis_chain (EngineError := EngineError) g = Ok c0 /\ run_ok g c0 limits js l /\
    forall s chain, m !! id = Some (s, chain) -> exists cov pend kb, js = cov ++ pend /\
      commits limits (g, c0, ∅) cov kb /\ commits limits kb pend (core l) /\ s = kb.1.1 /\ chain = hex kb.1.2
}.
Record store_ok (o : Store) (es : list Entry) (J : Journal) (m : gmap Z (RunState * list ascii)) : Prop := {
  fk_poison : fo_poisoned o = false;
  fk_limits : fo_limits o = limits;
  fk_file : exists bs, encoded es bs /\ fo_journal o = wal_file JOURNAL_MAGIC bs;
  fk_journal : journal_of es J;
  fk_size : (size J <= fo_max_runs o)%nat;
  fk_checkpoint : read_checkpoint (EngineError := EngineError) (fo_checkpoint o) = Ok m;
  fk_covers : forall id, is_Some (m !! id) -> is_Some (J !! id);
  fk_runs : forall id, is_Some (fo_runs o !! id) <-> is_Some (J !! id);
  fk_run : forall id g js l, J !! id = Some (g, js) -> fo_runs o !! id = Some l -> run_served m id g js l
}.
(** What the store has committed of each run: state, chain and index. *)
Definition served (o : Store) : gmap Z Core := core <$> fo_runs o.

Lemma run_served_recovers m id g js l :
  run_served m id g js l ->
  exists l', recover (EngineError := EngineError) g (m !! id) limits js = Ok l' /\ core l' = core l /\ run_served m id g js l'.
Proof.
  intros [Hid Hg Hty (c0 & Hc0 & Hok & Hck)]. pose proof (run_ok_commits _ _ _ _ _ Hok) as Hall.
  assert (Hl' : exists l', recover (EngineError := EngineError) g (m !! id) limits js = Ok l' /\ core l' = core l /\
    run_ok g c0 limits js l').
  { destruct (m !! id) as [[s chain]|] eqn:Hm.
    - destruct (Hck s chain eq_refl) as (cov & pend & kb & -> & Hcov & Hpend & -> & ->).
      destruct (recover_from_checkpoint g c0 limits cov kb pend (core l) (good_sequence g Hg) Hc0 Hcov Hpend)
        as (l' & Hrec & Hcore & Hb & Hbc & Ht & Hl & Hrb).
      exists l'. split_and!; [done | done |]. split; [done | done |]. exists cov, pend, kb. rewrite Hcore. by split_and!.
    - destruct (recover_from_genesis g c0 limits js (core l) (good_sequence g Hg) Hc0 Hall)
        as (l' & Hrec & Hcore & Hb & Hbc & Ht & Hl & Hrb).
      exists l'. split_and!; [done | done |]. split; [done | done |].
      exists [], js, (g, c0, ∅). rewrite Hcore. split_and!; try done. constructor. }
  destruct Hl' as (l' & Hrec & Hcore & Hok'). exists l'. split_and!; [done | done |].
  split; try done. exists c0. rewrite Hcore. by split_and!.
Qed.

(** From files that belong to the store, with a crash tail, recovery gives
    a store that has committed the same. *)
Lemma store_recovers o es J m tail :
  store_ok o es J m -> torn JOURNAL_MAGIC tail ->
  exists L, file_recover (EngineError := EngineError) (fo_checkpoint o) (fo_journal o ++ tail) limits (fo_max_runs o)
              = Ok (L, fo_journal o) /\
    let o' := mkFileOriginStore L (fo_journal o) (fo_checkpoint o) false (fo_max_runs o) limits in
    served o' = served o /\ store_ok o' es J m.
Proof.
  intros [Hpo Hli (bs & He & Hf) HJ0 Hsz Hck Hcov Hruns Hrun] Ht.
  set (L := map_imap (fun id '(g, js) => match recover (EngineError := EngineError) g (m !! id) limits js with
    Ok l => Some l | Err _ => None end) J).
  assert (HL : forall id g js, J !! id = Some (g, js) -> exists l l', fo_runs o !! id = Some l /\ L !! id = Some l' /\
    recover (EngineError := EngineError) g (m !! id) limits js = Ok l' /\ core l' = core l /\ run_served m id g js l').
  { intros id g js Hj. destruct (proj2 (Hruns id)) as [l Hl]; [eauto |].
    destruct (run_served_recovers m id g js l) as (l' & Hrec & Hcore & Hs); [eauto |].
    exists l, l'. split_and!; try done. unfold L. rewrite map_lookup_imap, Hj. cbn. by rewrite Hrec. }
  assert (Hnone : forall id, J !! id = None -> L !! id = None).
  { intros id Hj. unfold L. by rewrite map_lookup_imap, Hj. }
  assert (Hdom : forall id, is_Some (L !! id) <-> is_Some (J !! id)).
  { intros id. destruct (J !! id) as [[g js]|] eqn:Hj.
    - destruct (HL id g js Hj) as (_ & l' & _ & Hl' & _). split; eauto.
    - rewrite (Hnone id Hj). by split; intros [? ?]. }
  exists L. split; [| cbv zeta; split].
  - rewrite Hf. eapply file_recover_ok; try done. split; [done |]. intros id g js l Hj Hl.
    destruct (HL id g js Hj) as (_ & l' & _ & Hl' & Hrec & _). congruence.
  - apply map_eq. intros id. unfold served. cbn [fo_runs]. rewrite !lookup_fmap. destruct (J !! id) as [[g js]|] eqn:Hj.
    + destruct (HL id g js Hj) as (l & l' & -> & -> & _ & Hcore & _). cbn. by rewrite Hcore.
    + rewrite (Hnone id Hj). destruct (fo_runs o !! id) eqn:Ho; [| done].
      destruct (proj1 (Hruns id)) as [? ?]; [eauto | congruence].
  - split; try done; [by exists bs |]. intros id g js l Hj Hl.
    destruct (HL id g js Hj) as (_ & l' & _ & Hl' & _ & _ & Hs). cbn in Hl. congruence.
Qed.
(** ** Checkpoints *)

(** Neither the journal nor what is committed changes. *)
Definition kept (o o' : Store) : Prop :=
  served o' = served o /\ fo_journal o' = fo_journal o /\ fo_max_runs o' = fo_max_runs o.
#[local] Instance kept_preorder : PreOrder kept.
Proof.
  split; [done |]. intros o1 o2 o3 (H1 & H2 & H3) (H4 & H5 & H6). unfold kept. split_and!; congruence.
Qed.

Lemma store_put o es J m id g js l :
  store_ok o es J m -> J !! id = Some (g, js) -> run_served m id g js l ->
  store_ok (put_runs (<[id := l]> (fo_runs o)) o) es J m.
Proof.
  intros [Hpo Hli Hf HJ0 Hsz Hck Hcov Hruns Hrun] Hj Hs. split; try done; cbn [put_runs fo_runs].
  - intros i. destruct (decide (id = i)) as [<-|Hne]; [| by rewrite lookup_insert_ne].
    rewrite lookup_insert_eq. split; eauto.
  - intros i g' js' l' Hj'. destruct (decide (id = i)) as [<-|Hne]; [| rewrite lookup_insert_ne by done; eauto].
    rewrite lookup_insert_eq. intros [= <-]. rewrite Hj in Hj'. by injection Hj' as <- <-.
Qed.

Lemma checkpoint_live_ok id o es J m :
  store_ok o es J m -> exists o', checkpoint_live (EngineError := EngineError) id o = (o', Ok tt) /\ store_ok o' es J m /\ kept o o'.
Proof.
  intros Ho. unfold checkpoint_live. rewrite bind_gets. destruct (fo_runs o !! id) as [l|] eqn:Hl; [| by exists o].
  destruct (proj1 (fk_runs _ _ _ _ Ho id)) as [[g js] Hj]; [eauto |].
  destruct (fk_run _ _ _ _ Ho _ _ _ _ Hj Hl) as [Hid Hg Hty (c0 & Hc0 & Hok & Hck)].
  destruct (run_ok_checkpoint _ _ _ _ _ Hok) as (l' & Hl' & Hcore & Hok'). rewrite Hl', bind_modify.
  eexists. split; [reflexivity |]. split.
  - eapply store_put; [done | exact Hj |]. split; try done. exists c0. rewrite Hcore. by split_and!.
  - split_and!; [| done | done]. unfold served. cbn [put_runs fo_runs]. rewrite fmap_insert, Hcore. apply insert_id.
    by rewrite lookup_fmap, Hl.
Qed.
Lemma checkpoint_all_ok o es J m :
  store_ok o es J m -> exists o', checkpoint_all (EngineError := EngineError) o = (o', Ok tt) /\ store_ok o' es J m /\ kept o o'.
Proof.
  unfold checkpoint_all. rewrite bind_gets. generalize (keys (fo_runs o)) as ids. intros ids. revert o.
  induction ids as [|id ids IH]; intros o Ho; [by exists o |]. cbn [for_each].
  destruct (checkpoint_live_ok id o es J m Ho) as (o1 & H1 & Ho1 & Hk1). rewrite (bind_run _ _ _ _ _ H1).
  destruct (IH o1 Ho1) as (o2 & H2 & Ho2 & Hk2). exists o2. split_and!; [done | done |]. by trans o1.
Qed.

(** A checkpoint file of the runs is read back as their bases. *)
Definition base_good (e : Z * Live) : Prop := good (lr_base e.2) /\ run_id (lr_base e.2) = e.1.
Lemma checkpointed_runs_ok (es : list (Z * Live)) rs m :
  Forall base_good es -> NoDup es.*1 -> (forall id, id ∈ es.*1 -> m !! id = None) ->
  mapM checkpoint_run es.*2 = Some rs ->
  exists m', checkpointed_runs (EngineError := EngineError) rs m = Ok m' /\
    (forall id l, (id, l) ∈ es -> m' !! id = Some (checkpoint_state l)) /\
    forall id, id ∉ es.*1 -> m' !! id = m !! id.
Proof.
  revert rs m. induction es as [|[id l] es IH]; intros rs m Hg Hnd Hm Hrs.
  - injection Hrs as <-. exists m. split_and!; [done | | done]. by intros ? ? ?%elem_of_nil.
  - apply Forall_cons in Hg as [[Hg Hid] Hgs]. cbn [fst snd] in Hg, Hid. cbn in Hnd. apply NoDup_cons in Hnd as [Hni Hnd].
    cbn [fmap list_fmap mapM fst snd] in Hrs. apply bind_Some in Hrs as ([e chain] & Hrun & Hrs).
    apply bind_Some in Hrs as (rs' & Hrs & [= <-]). unfold checkpoint_run, checkpoint_state in Hrun.
    destruct (good_sealed _ Hg) as (e' & He' & Hver & Hstate). apply bind_Some in Hrun as (e1 & He1 & [= <- <-]).
    cbn [fst snd] in He1. assert (e1 = e') as -> by congruence. cbn [checkpointed_runs]. cbv zeta. rewrite Hver, Hstate, Hid. cbn [negb orb].
    rewrite (Hm id) by left. rewrite bool_decide_false by (by intros [? ?]).
    destruct (IH rs' (<[id := (lr_base l, hex (lr_base_chain l))]> m)) as (m' & Hm' & Hin & Hout); try done.
    { intros i Hi. rewrite lookup_insert_ne; [apply Hm; by right | intros ->; done]. }
    exists m'. split_and!; [done | |].
    + intros i l' [[= -> ->]|Hil]%elem_of_cons; [| by apply Hin]. rewrite Hout by done. by rewrite lookup_insert_eq.
    + intros i Hi. cbn in Hi. apply not_elem_of_cons in Hi as [Hne Hi]. rewrite Hout by done. by rewrite lookup_insert_ne.
Qed.

Lemma run_served_base m id g js l : run_served m id g js l -> base_good (id, l).
Proof.
  intros [Hid Hg Hty (c0 & _ & [_ _ (cov & pend & kb & -> & Hc & _ & Hb & _)] & _)]. unfold base_good. cbn [fst snd].
  apply Forall_app in Hty as [Hty _]. rewrite Hb. split; [by eapply (commits_good (g, c0, ∅)) |].
  apply commits_identity in Hc as (_ & Hr & _). cbn in Hr. congruence.
Qed.
(** The run as it is served once its base is on disk. *)
Lemma run_served_checkpointed m m' id g js l :
  run_served m id g js l -> m' !! id = Some (checkpoint_state l) -> run_served m' id g js l.
Proof.
  intros [Hid Hg Hty (c0 & Hc0 & Hok & _)] Hm'. split; try done. exists c0. split_and!; [done | done |].
  intros s chain. rewrite Hm'. intros [= <- <-].
  destruct Hok as [_ _ (cov & pend & kb & -> & Hc & Hp & Hb & Hbc & _)]. exists cov, pend, kb. by rewrite Hb, Hbc.
Qed.

Lemma write_checkpoint_ok w o o' r es J m :
  store_ok o es J m -> write_checkpoint (EngineError := EngineError) w o = (o', r) ->
  kept o o' /\ exists m', store_ok o' es J m'.
Proof.
  intros Ho Hrun. unfold write_checkpoint in Hrun. rewrite bind_gets in Hrun.
  destruct (mapM checkpoint_run (values (fo_runs o))) as [rs|] eqn:Hrs.
  2:{ injection Hrun as <- <-. split; [done |]. by exists m. }
  rewrite (bind_lift _ _ _ rs) in Hrun by done.
  destruct (json_checkpoint (mkCheckpoint CHECKPOINT_VERSION rs)) as [bytes|] eqn:Hj.
  2:{ injection Hrun as <- <-. split; [done |]. by exists m. }
  rewrite (bind_lift _ _ _ bytes) in Hrun by done.
  assert (Hout : o' = o \/ o' = put_checkpoint (Some bytes) o) by (destruct w; injection Hrun as <- <-; [by right | by right | by left]). clear Hrun.
  destruct Hout as [->| ->]; [split; [done | by exists m] |]. split; [done |].
  assert (Hserved : forall id l, (id, l) ∈ entries (fo_runs o) -> exists g js, J !! id = Some (g, js) /\ run_served m id g js l).
  { intros id l Hl%elem_of_entries. destruct (proj1 (fk_runs _ _ _ _ Ho id)) as [[g js] HJid]; [eauto |].
    exists g, js. split; [done |]. by apply (fk_run _ _ _ _ Ho). }
  destruct (checkpointed_runs_ok (entries (fo_runs o)) rs ∅) as (m' & Hm' & Hin & Hout); try done.
  - apply Forall_forall. intros [id l] Hl. destruct (Hserved id l Hl) as (g & js & _ & Hs). by eapply run_served_base.
  - apply NoDup_keys.
  - exists m'. destruct Ho as [Hpo Hli Hf HJ0 Hsz Hck Hcov Hruns Hrun]. split; try done.
    + cbn. rewrite (parse_json_checkpoint _ _ Hj). cbn. exact Hm'.
    + intros id [x Hx]. apply Hruns. destruct (fo_runs o !! id) as [l|] eqn:Hl; [eauto |].
      rewrite Hout in Hx; [done |]. intros [? ?]%elem_of_keys. congruence.
    + intros id g js l Hj' Hl. cbn in Hl. eapply run_served_checkpointed; [eauto |]. apply Hin. by apply elem_of_entries.
Qed.
Lemma try_checkpoint_ok w o es J m :
  store_ok o es J m ->
  exists o' m', try_checkpoint (EngineError := EngineError) w o = (o', Ok tt) /\ store_ok o' es J m' /\ kept o o'.
Proof.
  intros Ho. unfold try_checkpoint. destruct (write_checkpoint w o) as [o' r] eqn:Hw.
  destruct (write_checkpoint_ok _ _ _ _ _ _ _ Ho Hw) as [Hk (m' & Ho')]. by exists o', m'.
Qed.
(** ** Opening *)

Lemma store_opens o es J m tail disk :
  store_ok o es J m -> torn JOURNAL_MAGIC tail ->
  exists o', file_open (EngineError := EngineError) (fo_checkpoint o) (Some (fo_journal o ++ tail)) limits (fo_max_runs o) disk = Ok o' /\
    served o' = served o /\ fo_max_runs o' = fo_max_runs o /\ exists m', store_ok o' es J m'.
Proof.
  intros Ho Ht. destruct (store_recovers o es J m tail Ho Ht) as (L & Hrec & Hserved & Ho1). unfold file_open.
  rewrite (bool_decide_true (is_Some (Some _))) by eauto. cbn [negb]. rewrite andb_false_r.
  change (default [] (Some (fo_journal o ++ tail))) with (fo_journal o ++ tail). rewrite Hrec. cbn [mbind result_bind].
  destruct (existsb needs_checkpoint (values L)).
  - destruct (checkpoint_all_ok _ _ _ _ Ho1) as (o2 & H2 & Ho2 & Hk2).
    destruct (try_checkpoint_ok (dk_checkpoint_written disk) o2 es J m Ho2) as (o3 & m' & H3 & Ho3 & Hk3).
    rewrite (bind_run _ _ _ _ _ H2), H3. exists o3. destruct Hk2 as (E2 & _ & M2), Hk3 as (E3 & _ & M3).
    split_and!; [done | congruence | rewrite M3, M2; done | by exists m'].
  - eexists. split; [done |]. split_and!; [done | done | by exists m].
Qed.

(** ** Appending *)

Lemma append_cases e fails o o' r :
  append_or_poison (EngineError := EngineError) e fails o = (o', r) ->
  (r = Err OriginError.InvalidCommit /\ o' = poison o) \/
  exists b, json_entry e = Some b /\ record_fits b = true /\
    match fails with
    | None => r = Ok tt /\ o' = put_journal (fo_journal o ++ wal_frame JOURNAL_MAGIC b) o
    | Some n => r = Err OriginError.Unavailable /\ o' = poison (put_journal (fo_journal o ++ take n (wal_frame JOURNAL_MAGIC b)) o)
    end.
Proof.
  unfold append_or_poison, journal_append. destruct (json_entry e) as [b|] eqn:Hb.
  2:{ intros [= <- <-]. by left. }
  rewrite (bind_lift _ _ _ b) by done. destruct (record_fits b) eqn:Hf.
  2:{ intros [= <- <-]. by left. }
  rewrite bind_refuse by done. destruct fails as [n|]; intros [= <- <-]; right; exists b; by split_and!.
Qed.

Lemma append_whole e o b :
  json_entry e = Some b -> record_fits b = true ->
  append_or_poison (EngineError := EngineError) e None o = (put_journal (fo_journal o ++ wal_frame JOURNAL_MAGIC b) o, Ok tt).
Proof.
  intros Hb Hf. unfold append_or_poison, journal_append. rewrite (bind_lift _ _ _ b) by (by rewrite Hb).
  by rewrite bind_refuse by (by rewrite Hf).
Qed.
Lemma encoded_snoc es bs e b : encoded es bs -> json_entry e = Some b -> record_fits b = true -> encoded (es ++ [e]) (bs ++ [b]).
Proof. intros He Hj Hf. apply Forall2_app; [done |]. by repeat constructor. Qed.

Lemma store_genesis o es J m run e l b :
  store_ok o es J m -> good run -> envelope_new run = Some e -> fo_runs o !! run_id run = None ->
  (size (fo_runs o) < fo_max_runs o)%nat -> LiveRun_genesis (EngineError := EngineError) run limits = Ok l ->
  json_entry (JournalEntry.Genesis e) = Some b -> record_fits b = true ->
  store_ok (put_runs (<[run_id run := l]> (fo_runs o)) (put_journal (fo_journal o ++ wal_frame JOURNAL_MAGIC b) o))
    (es ++ [JournalEntry.Genesis e]) (<[run_id run := (run, [])]> J) m.
Proof.
  intros [Hpo Hli (bs & He & Hf) HJ0 Hsz Hck Hcov Hruns Hrun] Hg Hnew Hnone Hroom Hl Hb Hfit.
  destruct (good_sealed run Hg) as (e' & He' & Hver & Hst). assert (e' = e) as -> by congruence.
  assert (Hjn : J !! run_id run = None).
  { destruct (J !! run_id run) eqn:E; [| done]. destruct (proj2 (Hruns (run_id run))) as [? ?]; [eauto | congruence]. }
  assert (Hmn : m !! run_id run = None).
  { destruct (m !! run_id run) eqn:E; [| done]. destruct (Hcov (run_id run)) as [? ?]; [eauto | congruence]. }
  assert (Hsize : size J = size (fo_runs o)).
  { rewrite <- !size_dom. f_equal. apply set_eq. intros i. rewrite !elem_of_dom. symmetry. apply Hruns. }
  destruct (run_ok_genesis _ _ _ Hl) as (c0 & Hc0 & Hok).
  split; cbn [put_runs put_journal fo_runs fo_journal fo_max_runs fo_checkpoint fo_poisoned fo_limits]; try done.
  - exists (bs ++ [b]). split; [by apply encoded_snoc |]. by rewrite Hf, wal_file_snoc.
  - pose proof (journal_genesis es J e HJ0 Hver) as Hjo. rewrite Hst in Hjo. by apply Hjo.
  - rewrite map_size_insert_None by done. lia.
  - intros i Hi. destruct (decide (run_id run = i)) as [<-|Hne]; [rewrite lookup_insert_eq; eauto |].
    rewrite lookup_insert_ne by done. by apply Hcov.
  - intros i. destruct (decide (run_id run = i)) as [<-|Hne]; [rewrite !lookup_insert_eq; split; eauto |].
    by rewrite !lookup_insert_ne.
  - intros i g js l'. destruct (decide (run_id run = i)) as [<-|Hne].
    + rewrite !lookup_insert_eq. intros [= <- <-] [= <-]. split; try done. exists c0. split_and!; [done | done |].
      intros s chain. by rewrite Hmn.
    + rewrite !lookup_insert_ne by done. apply Hrun.
Qed.

Lemma store_commit o es J m input adm l l' r b :
  store_ok o es J m -> typed input -> fo_runs o !! input_run_id input = Some l ->
  execute_admitted input adm l = (l', Ok (Committed r)) ->
  json_entry (JournalEntry.Command r) = Some b -> record_fits b = true ->
  exists J', store_ok (put_journal (fo_journal o ++ wal_frame JOURNAL_MAGIC b)
    (put_runs (<[input_run_id input := l']> (fo_runs o)) o)) (es ++ [JournalEntry.Command r]) J' m.
Proof.
  intros [Hpo Hli (bs & He & Hf) HJ0 Hsz Hck Hcov Hruns Hrun] Hty Hl Hx Hb Hfit.
  destruct (proj1 (Hruns (input_run_id input))) as [[g js] Hj]; [eauto |].
  destruct (Hrun _ _ _ _ Hj Hl) as [Hid Hg Htys (c0 & Hc0 & Hok & Hckp)].
  destruct (run_ok_commit _ _ _ _ _ _ _ _ _ Hok Hx) as (Hok' & Hcm & Hi).
  exists (<[input_run_id input := (g, js ++ [r])]> J).
  split; cbn [put_runs put_journal fo_runs fo_journal fo_max_runs fo_checkpoint fo_poisoned fo_limits]; try done.
  - exists (bs ++ [b]). split; [by apply encoded_snoc |]. by rewrite Hf, wal_file_snoc.
  - rewrite <- Hi. apply journal_command; [done |]. by rewrite Hi.
  - by rewrite map_size_insert_Some by eauto.
  - intros i Hi'. destruct (decide (input_run_id input = i)) as [<-|Hne]; [rewrite lookup_insert_eq; eauto |].
    rewrite lookup_insert_ne by done. by apply Hcov.
  - intros i. destruct (decide (input_run_id input = i)) as [<-|Hne]; [rewrite !lookup_insert_eq; split; eauto |].
    by rewrite !lookup_insert_ne.
  - intros i g' js' l1. destruct (decide (input_run_id input = i)) as [<-|Hne].
    + rewrite !lookup_insert_eq. intros [= <- <-] [= <-]. split; [done | done | |].
      { apply Forall_app. split; [done |]. apply Forall_singleton. by rewrite Hi. }
      exists c0. split_and!; [done | done |]. intros s chain Hm.
      destruct (Hckp s chain Hm) as (cov & pend & kb & -> & Hc & Hp & Hs & Hch).
      exists cov, (pend ++ [r]), kb. split_and!; [by rewrite app_assoc | done | by eapply commits_snoc | done | done].
    + rewrite !lookup_insert_ne by done. apply Hrun.
Qed.
(** ** Calls *)

Context `{!EqDecision RunState}.
Inductive StoreCall : Type :=
  | CallInsert (run : RunState)
  | CallExecute (input : JournalInput) (admission : option AdmissionRecord)
  | CallCheckpoint.
Definition store_call (c : StoreCall) (disk : Disk) : M Store Error unit :=
  match c with
  | CallInsert run => file_insert_run run disk
  | CallExecute input admission => file_execute input admission disk;; mret tt
  | CallCheckpoint => file_checkpoint disk
  end.
Definition call_ok (c : StoreCall) : Prop :=
  match c with
  | CallInsert run => good run
  | CallExecute input _ => typed input
  | CallCheckpoint => True
  end.
(** The same disk, but the append does not fail. *)
Definition appending (disk : Disk) : Disk := mkDisk None (dk_checkpoint_written disk).

(** A call either leaves a store that serves on, or stops it with nothing
    acknowledged: then the journal ends with part of one frame, or with the
    whole frame of what the call would have committed. *)
Definition serves_on (o o' : Store) : Prop :=
  fo_max_runs o' = fo_max_runs o /\ exists es J m, store_ok o' es J m.
Definition stopped (o o' o_ok : Store) : Prop :=
  fo_poisoned o' = true /\ fo_checkpoint o' = fo_checkpoint o /\ fo_max_runs o' = fo_max_runs o /\
  exists tail, fo_journal o' = fo_journal o ++ tail /\
    (torn JOURNAL_MAGIC tail \/
     exists o1 es J m, store_ok o1 es J m /\ fo_journal o1 = fo_journal o' /\ fo_checkpoint o1 = fo_checkpoint o /\
       fo_max_runs o1 = fo_max_runs o /\ served o1 = served o_ok).

Lemma refuse_poisoned_ok {B} o es J m (f : unit -> M Store Error B) :
  store_ok o es J m -> (refuse_poisoned ≫= f) o = f tt o.
Proof.
  intros Ho. unfold refuse_poisoned. rewrite bind_assoc, bind_gets. rewrite (fk_poison _ _ _ _ Ho). by rewrite bind_refuse.
Qed.

Lemma bind_stops {S E A B} (m : M S E A) (f : A -> M S E B) s s1 e : m s = (s1, Err e) -> (m ≫= f) s = (s1, Err e).
Proof. intros H. unfold mbind, M_bind. by rewrite H. Qed.

Lemma insert_outcome o es J m run disk o' r :
  store_ok o es J m -> good run -> file_insert_run (EngineError := EngineError) run disk o = (o', r) ->
  serves_on o o' \/ (r <> Ok tt /\ stopped o o' (file_insert_run (EngineError := EngineError) run (appending disk) o).1).
Proof.
  intros Ho Hg. unfold file_insert_run. rewrite !(refuse_poisoned_ok _ _ _ _ _ Ho), !bind_gets. cbn [id].
  assert (Hsame : serves_on o o) by (split; [done | eauto]).
  destruct (fo_runs o !! run_id run) as [l|] eqn:Hl.
  { destruct (live_state l) as [s|e]; [| by intros [= <- <-]; left]. rewrite !(bind_lift _ _ _ s) by done.
    unfold refuse_if. destruct (negb _); intros [= <- <-]; by left. }
  destruct (fo_max_runs o <=? size (fo_runs o))%nat eqn:Hroom; [by intros [= <- <-]; left |]. apply Nat.leb_gt in Hroom.
  rewrite !bind_refuse by done. destruct (good_sealed run Hg) as (e & He & _). rewrite He, !(bind_lift _ _ _ e) by done.
  rewrite (fk_limits _ _ _ _ Ho). destruct (LiveRun_genesis run limits) as [l|x] eqn:Hgen; [| by intros [= <- <-]; left].
  rewrite !(bind_lift _ _ _ l) by done.
  assert (Hlive : live_state (EngineError := EngineError) l = Ok run).
  { unfold LiveRun_genesis in Hgen. apply result_bind_Ok in Hgen as (c0 & _ & [= <-]). done. }
  destruct (append_or_poison (EngineError := EngineError) (JournalEntry.Genesis e) (dk_append_fails disk) o) as [o1 r1] eqn:Ha.
  pose proof Ha as Hcase. apply append_cases in Hcase as [[-> ->]|(b & Hb & Hfit & Hcase)].
  { rewrite (bind_stops _ _ _ _ _ Ha). intros [= <- <-]. right. split; [done |]. split_and!; try done.
    exists []. rewrite app_nil_r. split; [done |]. left. by apply torn_nil. }
  pose proof (store_genesis o es J m run e l b Ho Hg He Hl Hroom Hgen Hb Hfit) as Hnew.
  destruct (dk_append_fails disk) as [n|].
  - destruct Hcase as [-> ->]. rewrite (bind_stops _ _ _ _ _ Ha). intros [= <- <-]. right. split; [done |]. split_and!; try done.
    exists (take n (wal_frame JOURNAL_MAGIC b)). split; [done |]. destruct (torn_or_whole JOURNAL_MAGIC eq_refl n b Hfit) as [Ht| ->]; [by left |].
    right. do 4 eexists. split; [exact Hnew |]. split_and!; [done | done | done |].
    cbn [appending dk_append_fails]. rewrite (bind_run _ _ _ _ _ (append_whole _ _ _ Hb Hfit)). by rewrite (bind_lift _ _ _ run) by done.
  - destruct Hcase as [-> ->]. rewrite (bind_run _ _ _ _ _ Ha), (bind_lift _ _ _ run) by done. intros [= <- <-].
    left. split; [done | eauto].
Qed.
(** Refreshing a run that has not committed changes nothing. *)
Lemma put_runs_same (o : Store) id l : fo_runs o !! id = Some l -> put_runs (<[id := l]> (fo_runs o)) o = o.
Proof. intros Hl. unfold put_runs. rewrite insert_id by done. by destruct o. Qed.

(** The rest of an execution once its record is durable. *)
Definition settle_checkpoint (input : JournalInput) (live : Live) (written : CheckpointWrite) : M Store Error unit :=
  if needs_checkpoint live then checkpoint_live (input_run_id input);; try_checkpoint written else mret tt.
Lemma settle_checkpoint_ok input live written o es J m :
  store_ok o es J m ->
  exists o' m', settle_checkpoint input live written o = (o', Ok tt) /\ store_ok o' es J m' /\ kept o o'.
Proof.
  intros Ho. unfold settle_checkpoint. destruct (needs_checkpoint live); [| by exists o, m].
  destruct (checkpoint_live_ok (input_run_id input) o es J m Ho) as (o1 & H1 & Ho1 & Hk1).
  destruct (try_checkpoint_ok written o1 es J m Ho1) as (o2 & m' & H2 & Ho2 & Hk2).
  exists o2, m'. rewrite (bind_run _ _ _ _ _ H1). split_and!; [done | done |]. by trans o1.
Qed.

Lemma execute_outcome o es J m input adm disk o' r :
  store_ok o es J m -> typed input -> file_execute (EngineError := EngineError) input adm disk o = (o', r) ->
  serves_on o o' \/ ((forall x, r <> Ok x) /\ stopped o o' (file_execute (EngineError := EngineError) input adm (appending disk) o).1).
Proof.
  intros Ho Hty. unfold file_execute. rewrite !(refuse_poisoned_ok _ _ _ _ _ Ho), !bind_gets. cbn [id].
  assert (Hsame : serves_on o o) by (split; [done | eauto]).
  destruct (fo_runs o !! input_run_id input) as [l|] eqn:Hl; [| by intros [= <- <-]; left].
  rewrite !(bind_lift _ _ _ l) by done. destruct (proj1 (fk_runs _ _ _ _ Ho _) ltac:(eauto)) as [[g js] Hj].
  destruct (fk_run _ _ _ _ Ho _ _ _ _ Hj Hl) as [_ _ _ (c0 & _ & Hrok & _)].
  destruct (execute_admitted input adm l) as [l' x] eqn:Hx. rewrite !bind_modify.
  destruct x as [[res|record]|err].
  - rewrite (run_ok_other _ _ _ _ _ _ _ _ _ Hrok Hx ltac:(done)), put_runs_same by done.
    rewrite !(bind_lift _ _ _ (Duplicate res)) by done. intros [= <- <-]. by left.
  - set (o0 := put_runs (<[input_run_id input := l']> (fo_runs o)) o). rewrite !(bind_lift _ _ _ (Committed record)) by done.
    fold (settle_checkpoint input l' (dk_checkpoint_written disk)).
    fold (settle_checkpoint input l' (dk_checkpoint_written (appending disk))).
    destruct (append_or_poison (EngineError := EngineError) (JournalEntry.Command record) (dk_append_fails disk) o0) as [o1 r1] eqn:Ha.
    pose proof Ha as Hcase. apply append_cases in Hcase as [[-> ->]|(b & Hb & Hfit & Hcase)].
    { rewrite (bind_stops _ _ _ _ _ Ha). intros [= <- <-]. right. split; [done |]. split_and!; try done.
      exists []. rewrite app_nil_r. split; [done |]. left. by apply torn_nil. }
    destruct (store_commit o es J m input adm l l' record b Ho Hty Hl Hx Hb Hfit) as [J' Hnew].
    pose proof (append_whole (JournalEntry.Command record) o0 b Hb Hfit) as Hwhole.
    destruct (settle_checkpoint_ok input l' (dk_checkpoint_written disk) _ _ _ _ Hnew) as (o2 & m' & H2 & Ho2 & Hk2).
    destruct (dk_append_fails disk) as [n|].
    + destruct Hcase as [-> ->]. rewrite (bind_stops _ _ _ _ _ Ha). intros [= <- <-]. right. split; [done |]. split_and!; try done.
      exists (take n (wal_frame JOURNAL_MAGIC b)). split; [done |]. destruct (torn_or_whole JOURNAL_MAGIC eq_refl n b Hfit) as [Ht| ->]; [by left |].
      right. do 4 eexists. split; [exact Hnew |]. split_and!; [done | done | done |].
      cbn [appending dk_append_fails dk_checkpoint_written]. rewrite (bind_run _ _ _ _ _ Hwhole), (bind_run _ _ _ _ _ H2).
      symmetry. apply Hk2.
    + destruct Hcase as [-> ->]. rewrite (bind_run _ _ _ _ _ Ha), (bind_run _ _ _ _ _ H2). intros [= <- <-].
      left. split; [by destruct Hk2 as (_ & _ & ->) | eauto].
  - rewrite (run_ok_other _ _ _ _ _ _ _ _ _ Hrok Hx ltac:(done)), put_runs_same by done.
    intros [= <- <-]. by left.
Qed.

Lemma call_outcome o es J m c disk o' r :
  store_ok o es J m -> call_ok c -> store_call c disk o = (o', r) ->
  serves_on o o' \/ (r <> Ok tt /\ stopped o o' (store_call c (appending disk) o).1).
Proof.
  intros Ho Hc. destruct c as [run|input adm|]; cbn [store_call call_ok] in *.
  - by eapply insert_outcome.
  - intros Hrun. destruct (file_execute input adm disk o) as [o1 r1] eqn:Hx.
    pose proof Hx as Hcase. apply (execute_outcome _ _ _ _ _ _ _ _ _ Ho Hc) in Hcase.
    assert (o1 = o') as ->.
    { unfold mbind, M_bind, mret, M_ret in Hrun. rewrite Hx in Hrun. by destruct r1; injection Hrun as <- _. }
    destruct Hcase as [Hs|[Hne Hst]]; [by left |]. right. split.
    + intros ->. apply bind_Ok_inv in Hrun as (o2 & x & H2 & _). rewrite Hx in H2. injection H2 as _ H2. by destruct (Hne x).
    + destruct Hst as (H1 & H2 & H3 & tail & H4 & H5). split_and!; try done. exists tail. split; [done |].
      destruct H5 as [|(o2 & es2 & J2 & m2 & H5 & H6 & H7 & H8 & H9)]; [by left |]. right. exists o2, es2, J2, m2.
      split_and!; try done. rewrite H9. unfold mbind, M_bind. by destruct (file_execute _ _ _ _) as [? []].
  - unfold file_checkpoint. rewrite !(refuse_poisoned_ok _ _ _ _ _ Ho).
    destruct (checkpoint_all_ok o es J m Ho) as (o1 & H1 & Ho1 & Hk1). rewrite (bind_run _ _ _ _ _ H1). intros Hw.
    destruct (write_checkpoint_ok _ _ _ _ _ _ _ Ho1 Hw) as [Hk2 (m' & Ho2)]. left.
    split; [| eauto]. destruct Hk1 as (_ & _ & M1), Hk2 as (_ & _ & M2). congruence.
Qed.

(** ** Stores that have served *)

(** A store opened on an empty disk, after any calls it survived, and after
    any restart: following a call that was served or that stopped it. *)
Inductive alive (max_runs : nat) : Store -> Prop :=
  | alive_fresh disk o : file_open (EngineError := EngineError) None None limits max_runs disk = Ok o -> alive max_runs o
  | alive_call o c disk o' r :
      alive max_runs o -> call_ok c -> store_call c disk o = (o', r) -> fo_poisoned o' = false -> alive max_runs o'
  | alive_restart o c disk o' r disk' o'' :
      alive max_runs o -> call_ok c -> store_call c disk o = (o', r) ->
      file_open (EngineError := EngineError) (fo_checkpoint o') (Some (fo_journal o')) limits max_runs disk' = Ok o'' ->
      alive max_runs o''.

(** What a restart serves, after a call. *)
Definition restarts_as (o o' o_ok : Store) (acknowledged : bool) (o'' : Store) : Prop :=
  if fo_poisoned o' then acknowledged = false /\ (served o'' = served o \/ served o'' = served o_ok)
  else served o'' = served o'.

Lemma call_restarts o es J m c disk o' r disk' :
  store_ok o es J m -> call_ok c -> store_call c disk o = (o', r) ->
  exists o'', file_open (EngineError := EngineError) (fo_checkpoint o') (Some (fo_journal o')) limits (fo_max_runs o) disk' = Ok o'' /\
    restarts_as o o' (store_call c (appending disk) o).1 (match r with Ok _ => true | Err _ => false end) o'' /\
    serves_on o o''.
Proof.
  intros Ho Hc Hrun. destruct (call_outcome _ _ _ _ _ _ _ _ Ho Hc Hrun) as [[Hmax (es' & J' & m' & Ho')]|[Hne Hst]].
  - destruct (store_opens o' es' J' m' [] disk' Ho' (torn_nil JOURNAL_MAGIC eq_refl)) as (o'' & Hopen & Hs & Hm & m2 & Ho2).
    rewrite app_nil_r, Hmax in Hopen. exists o''. split_and!; [done | | by split; [congruence | eauto]].
    unfold restarts_as. by rewrite (fk_poison _ _ _ _ Ho').
  - destruct Hst as (Hpo & Hck & Hmax & tail & Hj & [Ht|(o1 & es1 & J1 & m1 & Ho1 & Hj1 & Hck1 & Hm1 & Hs1)]).
    + destruct (store_opens o es J m tail disk' Ho Ht) as (o'' & Hopen & Hs & Hm & m2 & Ho2).
      rewrite Hck, Hj. exists o''. split_and!; [done | | by split; [done | eauto]]. unfold restarts_as. rewrite Hpo.
      split; [by destruct r as [[]|] | by left].
    + destruct (store_opens o1 es1 J1 m1 [] disk' Ho1 (torn_nil JOURNAL_MAGIC eq_refl)) as (o'' & Hopen & Hs & Hm & m2 & Ho2).
      rewrite app_nil_r, Hj1, Hck1, Hm1 in Hopen. rewrite Hck. exists o''.
      split_and!; [done | | by split; [congruence | eauto]]. unfold restarts_as. rewrite Hpo.
      split; [by destruct r as [[]|] | right; congruence].
Qed.

Lemma fresh_ok max_runs disk :
  exists o, file_open (EngineError := EngineError) None None limits max_runs disk = Ok o /\ fo_max_runs o = max_runs /\ store_ok o [] ∅ ∅.
Proof.
  eexists. split; [reflexivity |]. split; [done |]. split; try done.
  - exists []. split; [constructor | reflexivity].
  - constructor.
  - rewrite map_size_empty. cbn. lia.
  - intros i. by rewrite !lookup_empty.
  - intros i. cbn [fo_runs]. by rewrite !lookup_empty.
Qed.

Lemma alive_ok max_runs o : alive max_runs o -> fo_max_runs o = max_runs /\ exists es J m, store_ok o es J m.
Proof.
  induction 1 as [disk o Ho|o c disk o' r _ [IHm (es & J & m & IH)] Hc Hrun Hpo|o c disk o' r disk' o'' _ [IHm (es & J & m & IH)] Hc Hrun Hopen].
  - destruct (fresh_ok max_runs disk) as (o' & Ho' & Hm & Hok). assert (o' = o) as -> by congruence. eauto.
  - destruct (call_outcome _ _ _ _ _ _ _ _ IH Hc Hrun) as [[Hm Hok]|[_ (Hp & _)]]; [split; [congruence | done] | congruence].
  - destruct (call_restarts _ _ _ _ _ _ _ _ disk' IH Hc Hrun) as (o1 & Ho1 & _ & [Hm Hok]). rewrite IHm in Ho1.
    assert (o1 = o'') as -> by congruence. split; [congruence | done].
Qed.

(** Every call of every store, and the restart after it. *)
Lemma store_survives max_runs o c disk o' r disk' :
  alive max_runs o -> call_ok c -> store_call c disk o = (o', r) ->
  exists o'', file_open (EngineError := EngineError) (fo_checkpoint o') (Some (fo_journal o')) limits max_runs disk' = Ok o'' /\
    restarts_as o o' (store_call c (appending disk) o).1 (match r with Ok _ => true | Err _ => false end) o''.
Proof.
  intros [<- (es & J & m & Ho)]%alive_ok Hc Hrun.
  destruct (call_restarts _ _ _ _ _ _ _ _ disk' Ho Hc Hrun) as (o'' & Hopen & Hr & _). by exists o''.
Qed.
End file_origin.
