(* ===== verification/Durability.v ===== *)
(** * The venue on disk

    The durable origin of [FileOrigin] at the engine's own runs: snapshots
    are [EngineSnapshotEnvelope]s, and what the engine guarantees of
    reachable runs is what the store needs to recover them. *)

From S2P Require Import Prelude Ordered MarketTypes MarketEvents Digest Ledger Book Risk Calendar.
From S2P Require Import Latency Transition Simulation Scenario Engine EngineFrame EngineInvariant.
From S2P Require Import EngineFills EngineSubmit EngineRetire EngineReach EngineTheorems.
From S2P Require Import Origin OriginTheorems Venue WalFrames FileOrigin FileOriginTheorems.
From Stdlib Require Import Ascii.
#[local] Open Scope list_scope.

(** ** [PartialEq for RunState] *)

Ltac decide_equality := solve_decision.
#[export] Instance EngineConfig_eq_dec : EqDecision EngineConfig.
Proof. decide_equality. Defined.
#[export] Instance FxRate_eq_dec : EqDecision FxRate.
Proof. decide_equality. Defined.
#[export] Instance InstrumentKind_eq_dec : EqDecision InstrumentKind.InstrumentKind.
Proof. decide_equality. Defined.
#[export] Instance InstrumentDefinition_eq_dec : EqDecision InstrumentDefinition.
Proof. decide_equality. Defined.
#[export] Instance PriceBounds_eq_dec : EqDecision PriceBounds.
Proof. decide_equality. Defined.
#[export] Instance FeeSchedule_eq_dec : EqDecision FeeSchedule.
Proof. decide_equality. Defined.
#[export] Instance ListingDefinition_eq_dec : EqDecision ListingDefinition.
Proof. decide_equality. Defined.
#[export] Instance Level_eq_dec : EqDecision Book.Level.
Proof. decide_equality. Defined.
#[export] Instance Book_eq_dec : EqDecision Book.
Proof. decide_equality. Defined.
#[export] Instance ListingState_eq_dec : EqDecision ListingState.
Proof. decide_equality. Defined.
#[export] Instance RiskLimits_eq_dec : EqDecision RiskLimits.
Proof. decide_equality. Defined.
#[export] Instance ParticipantDefinition_eq_dec : EqDecision ParticipantDefinition.
Proof. decide_equality. Defined.
#[export] Instance CashBalance_eq_dec : EqDecision Ledger.CashBalance.
Proof. decide_equality. Defined.
#[export] Instance Position_eq_dec : EqDecision Ledger.Position.
Proof. decide_equality. Defined.
#[export] Instance Ledger_eq_dec : EqDecision Ledger.
Proof. decide_equality. Defined.
#[export] Instance Reservation_eq_dec : EqDecision Reservation.
Proof. decide_equality. Defined.
#[export] Instance OwnedOrder_eq_dec : EqDecision OwnedOrder.
Proof. decide_equality. Defined.
#[export] Instance FacilityKind_eq_dec : EqDecision FacilityKind.
Proof. decide_equality. Defined.
#[export] Instance FacilityDefinition_eq_dec : EqDecision FacilityDefinition.
Proof. decide_equality. Defined.
#[export] Instance LogicalClock_eq_dec : EqDecision LogicalClock.
Proof. decide_equality. Defined.
#[export] Instance CashflowKind_eq_dec : EqDecision CashflowKind.
Proof. decide_equality. Defined.
#[export] Instance ScheduledActionKind_eq_dec : EqDecision ScheduledActionKind.
Proof. decide_equality. Defined.
#[export] Instance ScheduledAction_eq_dec : EqDecision ScheduledAction.
Proof. decide_equality. Defined.
#[export] Instance NewsItem_eq_dec : EqDecision NewsItem.
Proof. decide_equality. Defined.
#[export] Instance TradeRecord_eq_dec : EqDecision TradeRecord.
Proof. decide_equality. Defined.
#[export] Instance OhlcBar_eq_dec : EqDecision OhlcBar.
Proof. decide_equality. Defined.
#[export] Instance MarketProjection_eq_dec : EqDecision MarketProjection.
Proof. decide_equality. Defined.
#[export] Instance TenderState_eq_dec : EqDecision TenderState.
Proof. decide_equality. Defined.
#[export] Instance OtcState_eq_dec : EqDecision OtcState.
Proof. decide_equality. Defined.
#[export] Instance FacilityJob_eq_dec : EqDecision FacilityJob.
Proof. decide_equality. Defined.
#[export] Instance ScoreEntry_eq_dec : EqDecision ScoreEntry.
Proof. decide_equality. Defined.
#[export] Instance IterationReport_eq_dec : EqDecision IterationReport.
Proof. decide_equality. Defined.
#[export] Instance AdministratorChange_eq_dec : EqDecision AdministratorChange.
Proof. decide_equality. Defined.
#[export] Instance SimulationState_eq_dec : EqDecision SimulationState.
Proof. decide_equality. Defined.
#[export] Instance VenueSession_eq_dec : EqDecision VenueSession.
Proof. decide_equality. Defined.
#[export] Instance Calendar_eq_dec : EqDecision Calendar.
Proof. decide_equality. Defined.
#[export] Instance RunState_eq_dec : EqDecision RunState.
Proof. decide_equality. Defined.
#[export] Instance EngineSnapshotEnvelope_eq_dec : EqDecision EngineSnapshotEnvelope.
Proof. decide_equality. Defined.

(** ** The engine behind the store *)

Section durability.
Context `{HH : !Sha256} `{HSC : !ScenarioCodec} `{HR : !RunCodec} `{HJ : !JournalCodec}.
#[export] Instance run_snapshots : Snapshots RunState := {|
  Envelope := EngineSnapshotEnvelope;
  envelope_new := fun s => match snapshot_new s with Ok e => Some e | Err _ => None end;
  envelope_verify := fun e => match snapshot_verify e with Ok _ => true | Err _ => false end;
  envelope_state := es_state
|}.
Context `{HC : !StoreCodec RunState}.
Context (limits : RunLimits).

(** A run that some scenario starts and some inputs lead to. *)
Definition well_founded_run (s : RunState) : Prop :=
  exists run_id iteration sc, scenario_typed sc /\ reachable run_id iteration sc s.

(** Serializing a run state does not fail. *)
Hypothesis json_run_total : forall s, is_Some (json_run s).

Lemma well_founded_sealed s :
  well_founded_run s -> exists e, envelope_new s = Some e /\ envelope_verify e = true /\ envelope_state e = s.
Proof.
  intros (run & it & sc & Hty & Hr). destruct (reachable_ok run it sc s Hty Hr) as (Hok & Hst & _).
  destruct (json_run_total s) as [b Hb].
  exists (mkEngineSnapshotEnvelope ENGINE_SNAPSHOT_VERSION (hex (sha256 b)) s).
  cbn [envelope_new envelope_verify envelope_state run_snapshots]. split_and!; [| | done].
  - unfold snapshot_new, run_state_hash, hash_json. by rewrite Hb.
  - unfold snapshot_verify. cbn [es_schema_version es_state es_state_hash]. rewrite (run_validates s Hok Hst).
    unfold run_state_hash, hash_json. rewrite Hb. cbn. by rewrite bool_decide_true.
Qed.
Lemma well_founded_apply i s s' a :
  well_founded_run s -> input_typed i -> apply i s = (s', Ok a) -> well_founded_run s'.
Proof. intros (run & it & sc & Hty & Hr) Hi Ha. exists run, it, sc. split; [done |]. by eapply reach_step. Qed.
Lemma well_founded_sequence s : well_founded_run s -> 0 <= sequence s.
Proof.
  intros (run & it & sc & Hty & Hr). change (0 <= rs_sequence s). induction Hr as [s Hs|s i s' a Hr IH Hi Ha].
  - destruct (from_scenario_event_sequence run it sc s Hs). lia.
  - destruct (apply_input_frame i s s' a Ha) as (-> & _). lia.
Qed.

(** What the store of an engine has served, and its calls. *)
Definition venue_alive : nat -> FileOriginStore RunState -> Prop :=
  alive (EngineError := EngineError) limits well_founded_run input_typed.
Definition venue_call : StoreCall -> Disk -> M (FileOriginStore RunState) (OriginError EngineError) unit := store_call.
Definition venue_call_ok : StoreCall -> Prop := call_ok (RunState := RunState) well_founded_run input_typed.
Definition venue_open (checkpoint journal : option Bytes) (max_runs : nat) (disk : Disk) :
    result (OriginError EngineError) (FileOriginStore RunState) :=
  file_open checkpoint journal limits max_runs disk.

(** C12: what the venue has acknowledged survives a crash. Take a venue's
    durable store at any moment of its life: opened on an empty disk, after
    any insertions, executions and checkpoints, after any restarts. Let one
    more call run, and let the disk fail it at any byte of its append, or
    lose its checkpoint. A restart on the files the call left always
    succeeds. If the store is still serving, the restart serves exactly the
    runs, chains and command indexes the store had, the call's commit
    included. If the append failed, the store serves nothing more, the call
    was not acknowledged, and the restart serves either what the store had
    before the call or what a completed call would have left: never a part of
    a command, and never less than was acknowledged. *)
Theorem acknowledged_commands_survive max_runs o c disk o' r disk' :
  venue_alive max_runs o -> venue_call_ok c -> venue_call c disk o = (o', r) ->
  exists o'', venue_open (fo_checkpoint o') (Some (fo_journal o')) max_runs disk' = Ok o'' /\
    (fo_poisoned o' = false -> served o'' = served o') /\
    (fo_poisoned o' = true -> is_ok r = false /\
       (served o'' = served o \/ served o'' = served (fst (venue_call c (appending disk) o)))).
Proof.
  intros Ho Hc Hrun.
  destruct (store_survives limits well_founded_run input_typed well_founded_sealed well_founded_apply
              well_founded_sequence max_runs o c disk o' r disk' Ho Hc Hrun) as (o'' & Hopen & Hr).
  exists o''. split; [exact Hopen |]. unfold restarts_as in Hr. destruct (fo_poisoned o').
  - split; [done |]. intros _. by destruct r.
  - by split.
Qed.
End durability.

(** ** A sample venue on disk

    The sample run inserted into an empty store, and an order whose append
    reaches the disk only in part. The codec knows the two entries and the
    empty checkpoint. *)
Module SampleDurability.
Import SampleRun SampleVenue.
Import (hints) SampleRun SampleVenue.
#[export] Instance JournalEntry_eq_dec : EqDecision (JournalEntry RunState).
Proof.
  intros [x|x] [y|y]; [| by right | by right |].
  - destruct (EngineSnapshotEnvelope_eq_dec x y) as [Heq|Hne]; [left; by rewrite Heq | right; by intros [= ]].
  - destruct (decide (x = y)) as [Heq|Hne]; [left; by rewrite Heq | right; by intros [= ]].
Defined.

Definition seal (s : RunState) : EngineSnapshotEnvelope :=
  match snapshot_new s with Ok e => e | Err _ => mkEngineSnapshotEnvelope 0 [] s end.
Definition first_entry : JournalEntry RunState := JournalEntry.Genesis (seal genesis).
Definition second_entry : JournalEntry RunState :=
  JournalEntry.Command (record_of (submit_at 1 10 sell) started).
Definition write_empty (c : Checkpoint RunState) : option Bytes :=
  match c with mkCheckpoint v [] => Some [v] | _ => None end.
Definition read_empty (b : Bytes) : option (Checkpoint RunState) :=
  match b with [v] => Some (mkCheckpoint v []) | _ => None end.
#[export] Program Instance store_codec : StoreCodec RunState := {|
  json_entry := fun e => if decide (e = first_entry) then Some [1] else if decide (e = second_entry) then Some [2] else None;
  parse_entry := fun b => if decide (b = [1]) then Some first_entry else if decide (b = [2]) then Some second_entry else None;
  json_checkpoint := write_empty;
  parse_checkpoint := read_empty
|}.
Next Obligation.
  intros e b. cbn beta. destruct (decide (e = first_entry)) as [->|_]; [by intros [= <-] |].
  destruct (decide (e = second_entry)) as [->|_]; [by intros [= <-] | done].
Qed.
Next Obligation.
  intros [v [|? ?]] b Hb; cbn in Hb; [| discriminate Hb]. injection Hb as <-. reflexivity.
Qed.

Definition whole : Disk := mkDisk None Replaced.
Definition cut : Disk := mkDisk (Some 11%nat) Replaced.
Definition no_store : FileOriginStore RunState := mkFileOriginStore ∅ [] None true 0 RunLimits_default.
Definition empty_store : FileOriginStore RunState :=
  match venue_open RunLimits_default None None 4 whole with Ok o => o | Err _ => no_store end.
Definition open_store : FileOriginStore RunState := fst (venue_call (CallInsert genesis) whole empty_store).
Definition order_call : StoreCall (RunState := RunState) := CallExecute (submit_at 1 10 sell) None.
Definition cut_store : FileOriginStore RunState := fst (venue_call order_call cut open_store).
End SampleDurability.

Section durability_witness.
Import SampleRun SampleVenue SampleDurability.
Import (hints) SampleRun SampleVenue SampleDurability.

Lemma acknowledged_commands_survive_witness :
  fo_poisoned cut_store = true /\ snd (venue_call order_call cut open_store) <> Ok tt /\
  size (served (fst (venue_call order_call whole open_store))) = 1%nat /\
  exists o'', venue_open RunLimits_default (fo_checkpoint cut_store) (Some (fo_journal cut_store)) 4 whole = Ok o'' /\
    (served o'' = served open_store \/ served o'' = served (fst (venue_call order_call (appending cut) open_store))).
Proof.
  assert (Hpo : fo_poisoned cut_store = true) by (vm_compute; reflexivity).
  assert (Hjson : forall s, is_Some (json_run s)) by (intros s; eexists; reflexivity).
  split; [exact Hpo |]. split; [vm_compute; discriminate |]. split; [vm_compute; reflexivity |].
  destruct (acknowledged_commands_survive RunLimits_default Hjson 4 open_store order_call cut
              cut_store (snd (venue_call order_call cut open_store)) whole) as (o'' & Hopen & _ & Hs).
  - apply (alive_call _ _ _ _ empty_store (CallInsert genesis) whole _ (snd (venue_call (CallInsert genesis) whole empty_store))).
    + apply (alive_fresh _ _ _ _ whole). vm_compute. reflexivity.
    + exists 7, 1, scenario. split; [exact sample_typed | apply reach_start; exact sample_genesis].
    + apply surjective_pairing.
    + vm_compute. reflexivity.
  - change (input_typed (submit_at 1 10 sell)). apply sample_order_typed; simpl; lia.
  - apply surjective_pairing.
  - exists o''. split; [exact Hopen |]. exact (proj2 (Hs Hpo)).
Defined.
End durability_witness.
