(* ===== verification/SessionStore.v ===== *)
(** * bunting-server: the log of a FIX session

    Models [apps/bunting-server/src/delivery.rs] and [session_store.rs]: the
    reports a session still owes its participant, and the append-only log
    from which a session resumes, one checkpoint followed by deltas.  The log
    file is part of the store's state; what the disk does with a write is an
    argument of the call.  The texts of errors are constructors. *)

From S2P Require Import Prelude Ordered MarketTypes MarketEvents Digest FixWire FixSession FixMapping.
From S2P Require Import Execution Adapter Application FixApplication WalFrames.
From Stdlib Require Import Ascii.
#[local] Open Scope list_scope.

(** ** Delivery *)

Record Unwritten : Type := mkUnwritten {
  uw_last : Z;
  uw_messages : list FixMessage;
  uw_send_at_us : Z
}.
Record Delivery : Type := mkDelivery {
  dl_seen_through : Z;
  dl_unwritten : gmap Z Unwritten
}.
(** [Delivery::at], [restore], [advance_to], [on_batch], [on_written],
    [unwritten_keys], [unwritten], [retain] *)
Definition delivery_at (seen_through : Z) : Delivery := mkDelivery seen_through ∅.
Definition delivery_restore (seen_through : Z) (unwritten : list Unwritten) : Delivery :=
  mkDelivery seen_through (foldl (fun m batch => <[uw_last batch := batch]> m) ∅ unwritten).
Definition advance_to (seen_through : Z) (d : Delivery) : Delivery :=
  mkDelivery (Z.max (dl_seen_through d) seen_through) (dl_unwritten d).
Definition delivery_on_batch (last : Z) (messages : list FixMessage) (send_at_us : Z) (d : Delivery) : Delivery :=
  mkDelivery (Z.max (dl_seen_through d) last)
    (match messages with
     | [] => dl_unwritten d
     | _ => <[last := mkUnwritten last messages send_at_us]> (dl_unwritten d)
     end).
Definition delivery_on_written (now_us : Z) (d : Delivery) : Delivery :=
  mkDelivery (dl_seen_through d) (filter (fun e => now_us < uw_send_at_us e.2) (dl_unwritten d)).
Definition unwritten_keys (d : Delivery) : list Z := keys (dl_unwritten d).
Definition unwritten (d : Delivery) : list Unwritten := values (dl_unwritten d).
Definition delivery_retain (ks : list Z) (d : Delivery) : Delivery :=
  mkDelivery (dl_seen_through d)
    (filter (fun e => is_Some (binary_search_by_key (fun k => k) ks e.1)) (dl_unwritten d)).

(** ** Records of the log *)

(** [fn command_context] *)
Definition log_context (actor run_id correlation_id : Z) : FixCommandContext :=
  mkFixCommandContext actor run_id 0 0 correlation_id.

Module Input.
Inductive Input : Type :=
  | Inbound (message : FixMessage) (actor run_id correlation_id : Z)
  | Committed (actor : Z) (events : list EventEnvelope).
End Input.
Export Input (Input).

Record Mapped : Type := mkMapped {
  md_command : Command;
  md_correlation_id : Z
}.
Record SessionCheckpoint : Type := mkSessionCheckpoint {
  cp_session : SessionSnapshot;
  cp_application : FixApplicationSnapshot;
  cp_seen_through : Z;
  cp_unwritten : list Unwritten;
  cp_in_flight : list Mapped
}.
Record SessionDelta : Type := mkSessionDelta {
  de_incoming_sequence : Z;
  de_outgoing_sequence : Z;
  de_reconnect_generation : Z;
  de_state : ConnectionState;
  de_pending_resend_begin : option Z;
  de_pending_inbound : gmap Z FixMessage;
  de_last_received_millis : Z;
  de_last_sent_millis : Z;
  de_outstanding_test_request : option Text;
  de_added : list JournalEntry;
  de_removed : list Z;
  de_inputs : list Input;
  de_seen_through : Z;
  de_unwritten : list Z
}.
Module SessionRecord.
Inductive SessionRecord : Type :=
  | Checkpoint (checkpoint : SessionCheckpoint)
  | Delta (delta : SessionDelta).
End SessionRecord.
Export SessionRecord (SessionRecord).

(** Send times are skipped by the serialization, and read as 0. *)
Definition due_now (batch : Unwritten) : Unwritten := mkUnwritten (uw_last batch) (uw_messages batch) 0.
Definition as_read (r : SessionRecord) : SessionRecord :=
  match r with
  | SessionRecord.Checkpoint c =>
      SessionRecord.Checkpoint (mkSessionCheckpoint (cp_session c) (cp_application c) (cp_seen_through c)
        (due_now <$> cp_unwritten c) (cp_in_flight c))
  | SessionRecord.Delta d => SessionRecord.Delta d
  end.
(** [serde_json] on the records. *)
Class SessionCodec := {
  json_record : SessionRecord -> option Bytes;
  parse_record : Bytes -> option SessionRecord;
  parse_json_record : forall r b, json_record r = Some b -> parse_record b = Some (as_read r)
}.

Inductive LogError : Type :=
  | InvalidLog
  | CannotEncode
  | RecordOutOfBounds
  | CannotWrite
  | CannotRestoreApplication (e : ApplicationError)
  | CannotRestoreSession (e : SessionError)
  | InvalidSessionConfig (e : SessionError)
  | ReplayFailed (e : ApplicationError).

(** [b"BUNTFIX1"], [MIN_COMPACT_BYTES] *)
Definition SESSION_MAGIC : Bytes := [66; 85; 78; 84; 70; 73; 88; 49].
Definition MIN_COMPACT_BYTES : Z := 8388608.

(** ** The store *)

(** [Writer]: the file is the store's [st_log]. *)
Record Writer : Type := mkWriter {
  wr_journal : gset Z;
  wr_inputs : list Input;
  wr_mapped : list Mapped;
  wr_since_checkpoint : Z;
  wr_checkpoint_bytes : Z
}.
Record SessionStore : Type := mkSessionStore {
  st_application : FixApplicationState;
  st_delivery : Delivery;
  st_writer : option Writer;
  st_log : Bytes
}.
Definition put_application (v : FixApplicationState) (s : SessionStore) : SessionStore :=
  mkSessionStore v (st_delivery s) (st_writer s) (st_log s).
Definition put_delivery (v : Delivery) (s : SessionStore) : SessionStore :=
  mkSessionStore (st_application s) v (st_writer s) (st_log s).
Definition put_writer (v : option Writer) (s : SessionStore) : SessionStore :=
  mkSessionStore (st_application s) (st_delivery s) v (st_log s).
Definition put_log (v : Bytes) (s : SessionStore) : SessionStore :=
  mkSessionStore (st_application s) (st_delivery s) (st_writer s) v.
Definition push_input (i : Input) (w : Writer) : Writer :=
  mkWriter (wr_journal w) (wr_inputs w ++ [i]) (wr_mapped w) (wr_since_checkpoint w) (wr_checkpoint_bytes w).
Definition push_mapped (m : Mapped) (w : Writer) : Writer :=
  mkWriter (wr_journal w) (wr_inputs w) (wr_mapped w ++ [m]) (wr_since_checkpoint w) (wr_checkpoint_bytes w).

(** What the disk does with the writes of one call: the bytes of an append
    that reach it when the append fails; whether a new checkpoint replaces
    the log, and whether that is reported as done. *)
Record LogDisk : Type := mkLogDisk {
  ld_append_fails : option nat;
  ld_replaced : bool;
  ld_installed : bool
}.
Definition to_readmit (journaled : Command -> bool) (mapped : list Mapped) : list Mapped :=
  List.filter (fun m => negb (journaled (md_command m))) mapped.

Section session_store.
Context `{Sha256} `{FixDictionary} `{SessionCodec}.
#[local] Notation Storing A := (M SessionStore LogError A) (only parsing).

(** [fn encode]: the frame is [wal_frame] of these bytes. *)
Definition encode_record (r : SessionRecord) : result LogError Bytes :=
  bytes ← ok_or (json_record r) CannotEncode;
  if record_fits bytes then Ok bytes else Err RecordOutOfBounds.

(** [SessionStore::map_message] *)
Definition store_map_message (message : FixMessage) (context : FixCommandContext) (s : SessionStore)
    : SessionStore * result ApplicationError FixApplicationRequest :=
  let '(application, request) := map_message message context (st_application s) in
  let s := put_application application s in
  match st_writer s with
  | None => (s, request)
  | Some w =>
      let w := push_input (Input.Inbound message (fc_actor context) (fc_run_id context) (fc_correlation_id context)) w in
      let w := match request with
               | Ok (FixApplicationRequest.Command command) =>
                   push_mapped (mkMapped command (fc_correlation_id context)) w
               | _ => w
               end in
      (put_writer (Some w) s, request)
  end.

(** [fn registers_order] *)
Definition registers_order (actor : Z) (events : list EventEnvelope) : bool :=
  existsb (fun event => match ev_payload event with
                        | OrderReceived order _ => so_participant_id order =? actor
                        | _ => false
                        end) events.
(** [SessionStore::committed_messages] *)
Definition store_committed (actor : Z) (events : list EventEnvelope) (send_at_us : Z) (s : SessionStore)
    : SessionStore * result ApplicationError (list FixMessage) :=
  match committed_messages actor events (st_application s) with
  | (application, Err e) => (put_application application s, Err e)
  | (application, Ok messages) =>
      let s := put_application application s in
      let s := match last events with
               | Some e => put_delivery (delivery_on_batch (ev_sequence e) messages send_at_us (st_delivery s)) s
               | None => s
               end in
      let s := match st_writer s with
               | Some w =>
                   if negb (bool_decide (messages = [])) || registers_order actor events
                   then put_writer (Some (push_input (Input.Committed actor events) w)) s else s
               | None => s
               end in
      (s, Ok messages)
  end.
(** [SessionStore::on_written] *)
Definition store_on_written (now_us : Z) (s : SessionStore) : SessionStore :=
  put_delivery (delivery_on_written now_us (st_delivery s)) s.

(** [Writer::checkpoint] *)
Definition checkpoint_record (session : SessionSnapshot) (application : FixApplicationState) (delivery : Delivery)
    (in_flight : list Mapped) : SessionRecord :=
  SessionRecord.Checkpoint (mkSessionCheckpoint session (fix_snapshot application) (dl_seen_through delivery)
    (unwritten delivery) in_flight).
Definition frame_length (bytes : Bytes) : Z := Z.of_nat (length (wal_frame SESSION_MAGIC bytes)).
Definition writer_checkpoint (session : SessionSnapshot) (in_flight : list Mapped) (disk : LogDisk) : Storing unit :=
  s ← gets id;
  bytes ← lift (encode_record (checkpoint_record session (st_application s) (st_delivery s) in_flight));
  (if ld_replaced disk then modify (put_log (wal_frame SESSION_MAGIC bytes)) else mret tt);;
  refuse_if (negb (ld_replaced disk && ld_installed disk)) CannotWrite;;
  modify (put_writer (Some (mkWriter (dom (ss_journal session)) [] in_flight 0 (frame_length bytes)))).

(** The resend journal against what the log knows of it: the frames above
    its last key, and the keys that are gone, found from the front. *)
Definition set_keys (X : gset Z) : list Z := sort_dedup (elements X).
Definition added_entries (recorded : gset Z) (journal : gmap Z JournalEntry) : list JournalEntry :=
  match last (set_keys recorded) with
  | Some l => (filter (fun e => l < e.1) (entries journal)).*2
  | None => values journal
  end.
(** The loop over the recorded keys; [None] once the count has underflowed. *)
Fixpoint find_removed (recorded : list Z) (journal : gmap Z JournalEntry) (missing : option nat)
    : list Z * option nat :=
  match recorded with
  | [] => ([], missing)
  | key :: recorded =>
      if bool_decide (missing = Some 0%nat) then ([], missing)
      else if bool_decide (is_Some (journal !! key)) then find_removed recorded journal missing
      else
        let '(removed, missing) := find_removed recorded journal
          (match missing with Some (S n) => Some n | _ => None end) in
        (key :: removed, missing)
  end.
Definition missing_entries (recorded : gset Z) (added : list JournalEntry) (journal : gmap Z JournalEntry) : option nat :=
  let known := (size recorded + length added)%nat in
  if (known <? size journal)%nat then None else Some (known - size journal)%nat.
Definition delta_record (session : SessionSnapshot) (added : list JournalEntry) (removed : list Z)
    (inputs : list Input) (delivery : Delivery) : SessionRecord :=
  SessionRecord.Delta (mkSessionDelta (ss_incoming_sequence session) (ss_outgoing_sequence session)
    (ss_reconnect_generation session) (ss_state session) (ss_pending_resend_begin session)
    (ss_pending_inbound session) (ss_last_received_millis session) (ss_last_sent_millis session)
    (ss_outstanding_test_request session) added removed inputs (dl_seen_through delivery) (unwritten_keys delivery)).
(** [Writer::append_delta] *)
Definition append_delta (session : SessionSnapshot) (w : Writer) (disk : LogDisk) : Storing bool :=
  let added := added_entries (wr_journal w) (ss_journal session) in
  let '(removed, missing) := find_removed (set_keys (wr_journal w)) (ss_journal session)
    (missing_entries (wr_journal w) added (ss_journal session)) in
  if negb (bool_decide (missing = Some 0%nat)) then mret false
  else
    delivery ← gets st_delivery;
    bytes ← lift (encode_record (delta_record session added removed (wr_inputs w) delivery));
    let frame := wal_frame SESSION_MAGIC bytes in
    match ld_append_fails disk with
    | Some n => modify (fun s => put_log (st_log s ++ take n frame) s);; throw CannotWrite
    | None =>
        modify (fun s => put_log (st_log s ++ frame) s);;
        modify (put_writer (Some (mkWriter
          ((wr_journal w ∖ list_to_set removed) ∪ list_to_set (je_sequence <$> added)) [] (wr_mapped w)
          (saturating_add U64 (wr_since_checkpoint w) (frame_length bytes)) (wr_checkpoint_bytes w))));;
        mret true
    end.
(** [SessionStore::persist] *)
Definition persist (journaled : Command -> bool) (session : FixSession) (disk : LogDisk) : Storing unit :=
  writer ← gets st_writer;
  match writer with
  | None => mret tt
  | Some w =>
      appended ← (if wr_since_checkpoint w <=? Z.max MIN_COMPACT_BYTES (wr_checkpoint_bytes w)
                  then append_delta (fs_snapshot session) w disk else mret false);
      if (appended : bool) then mret tt
      else writer_checkpoint (fs_snapshot session) (to_readmit journaled (wr_mapped w)) disk
  end.

(** ** Reading the log *)

Record Replayed : Type := mkReplayed {
  rp_session : SessionSnapshot;
  rp_application : FixApplicationState;
  rp_delivery : Delivery;
  rp_mapped : list Mapped
}.
#[local] Notation Replaying A := (M Replayed LogError A) (only parsing).
(** One input of [Replayed::apply]. *)
Definition replay_input (i : Input) : Replaying unit := fun r =>
  match i with
  | Input.Inbound message actor run_id correlation_id =>
      let '(application, request) := map_message message (log_context actor run_id correlation_id) (rp_application r) in
      (mkReplayed (rp_session r) application (rp_delivery r)
         (match request with
          | Ok (FixApplicationRequest.Command command) => rp_mapped r ++ [mkMapped command correlation_id]
          | _ => rp_mapped r
          end), Ok tt)
  | Input.Committed actor events =>
      match committed_messages actor events (rp_application r) with
      | (application, Err e) => (mkReplayed (rp_session r) application (rp_delivery r) (rp_mapped r), Err (ReplayFailed e))
      | (application, Ok messages) =>
          (mkReplayed (rp_session r) application
             (match last events with
              | Some e => delivery_on_batch (ev_sequence e) messages 0 (rp_delivery r)
              | None => rp_delivery r
              end) (rp_mapped r), Ok tt)
      end
  end.
(** The session fields of a delta. *)
Definition apply_session (d : SessionDelta) (s : SessionSnapshot) : SessionSnapshot :=
  mkSessionSnapshot (ss_version s) (de_incoming_sequence d) (de_outgoing_sequence d) (de_reconnect_generation d)
    (de_state d)
    (foldl (fun j e => <[je_sequence e := e]> j) (foldl (fun j k => delete k j) (ss_journal s) (de_removed d)) (de_added d))
    (de_pending_resend_begin d) (de_pending_inbound d) (de_last_received_millis d) (de_last_sent_millis d)
    (de_outstanding_test_request d).
(** [Replayed::apply] *)
Definition replayed_apply (d : SessionDelta) : Replaying unit :=
  modify (fun r => mkReplayed (apply_session d (rp_session r)) (rp_application r) (rp_delivery r) (rp_mapped r));;
  for_each replay_input (de_inputs d);;
  modify (fun r => mkReplayed (rp_session r) (rp_application r)
    (delivery_retain (de_unwritten d) (advance_to (de_seen_through d) (rp_delivery r))) (rp_mapped r)).
(** One record of [fn read]. *)
Definition restore_checkpoint (c : SessionCheckpoint) : result LogError Replayed :=
  application ← map_err CannotRestoreApplication (fix_restore (cp_application c));
  Ok (mkReplayed (cp_session c) application (delivery_restore (cp_seen_through c) (cp_unwritten c)) (cp_in_flight c)).
Definition read_record (bytes : Bytes) : M (option Replayed) LogError unit := fun replayed =>
  match parse_record bytes with
  | None => (replayed, Err InvalidLog)
  | Some (SessionRecord.Checkpoint c) =>
      match restore_checkpoint c with
      | Ok r => (Some r, Ok tt)
      | Err e => (replayed, Err e)
      end
  | Some (SessionRecord.Delta d) =>
      match replayed with
      | None => (None, Err InvalidLog)
      | Some r => let '(r, done) := replayed_apply d r in (Some r, done)
      end
  end.
(** [fn read]; [None] is a path without a file. *)
Definition read_log (file : option Bytes) : result LogError (option Replayed) :=
  match file with
  | None => Ok None
  | Some bytes =>
      match scan_file SESSION_MAGIC InvalidLog read_record bytes None with
      | (_, Err e) => Err e
      | (None, Ok _) => Err InvalidLog
      | (Some r, Ok _) => Ok (Some r)
      end
  end.

(** ** Opening *)

Record Recovery : Type := mkRecovery {
  ry_batches_after : option Z;
  ry_owed : list FixMessage;
  ry_readmit : list Mapped
}.
Definition Recovery_default : Recovery := mkRecovery None [] [].
(** The state a session starts from: what the log holds, or a fresh one.  A
    store without a path has no log. *)
Definition store_resume (log : option Bytes) (config : SessionConfig) (fresh : FixApplicationState)
    (current_sequence : Z) (journaled : Command -> bool)
    : result LogError (FixSession * FixApplicationState * Delivery * Recovery) :=
  restored ← read_log log;
  match restored with
  | Some r =>
      session ← map_err CannotRestoreSession (restore config (rp_session r));
      Ok (session, rp_application r, rp_delivery r,
          mkRecovery (Some (dl_seen_through (rp_delivery r))) (unwritten (rp_delivery r) ≫= uw_messages)
            (to_readmit journaled (rp_mapped r)))
  | None =>
      session ← map_err InvalidSessionConfig (FixSession_new config);
      Ok (session, fresh, delivery_at current_sequence, Recovery_default)
  end.
(** [SessionStore::open] with a path. *)
Definition store_open (log : option Bytes) (config : SessionConfig) (fresh : FixApplicationState)
    (current_sequence : Z) (journaled : Command -> bool) (disk : LogDisk)
    : result LogError (SessionStore * FixSession * Recovery) :=
  '(session, application, delivery, recovery) ←
    store_resume log config fresh current_sequence journaled;
  let s := mkSessionStore application delivery None (default [] log) in
  let '(s, done) := writer_checkpoint (fs_snapshot session) (ry_readmit recovery) disk s in
  _ ← done;
  Ok (s, session, recovery).
(** [SessionStore::open] without a path. *)
Definition store_open_memory (config : SessionConfig) (fresh : FixApplicationState) (current_sequence : Z)
    : result LogError (SessionStore * FixSession * Recovery) :=
  '(session, application, delivery, recovery) ←
    store_resume None config fresh current_sequence (fun _ => false);
  Ok (mkSessionStore application delivery None [], session, recovery).
End session_store.
