(* ===== verification/SessionStoreTheorems.v ===== *)
(** * bunting-server: what the log of a FIX session promises

    Whatever a host does with a session, the log reads back as the session,
    application and owed reports of the last write that succeeded; a write
    that fails leaves that or the new state, never a mixture. *)

From S2P Require Import Prelude Ordered MarketTypes MarketEvents Digest Hoare FixWire FixSession FixSessionFacts FixMapping.
From S2P Require Import EngineTheorems FixSessionTheorems.
From S2P Require Import Execution ExecutionFacts ExecutionTheorems Adapter Application FixApplication WalFrames SessionStore.
From Stdlib Require Import Ascii.
#[local] Open Scope list_scope.

(** ** Resend journals *)

(** Outgoing numbers only grow: a frame of the later journal is one of the
    earlier one, or was sent since. *)
Definition journal_grows (s s' : SessionSnapshot) : Prop :=
  ss_outgoing_sequence s <= ss_outgoing_sequence s' /\
  forall k e, ss_journal s' !! k = Some e -> ss_journal s !! k = Some e \/ ss_outgoing_sequence s <= k.
Definition grows (s s' : FixSession) : Prop := journal_grows (fs_snapshot s) (fs_snapshot s').
#[export] Instance journal_grows_preorder : PreOrder journal_grows.
Proof.
  split; [by intros s; split; [| eauto] |]. intros a b c [O1 J1] [O2 J2]. split; [lia |].
  intros k e Hk. destruct (J2 k e Hk) as [Hb|Hb]; [by apply J1 | right; lia].
Qed.
#[export] Instance grows_preorder : PreOrder grows.
Proof. split; [intros s; unfold grows; reflexivity |]. intros a b c. unfold grows. by etransitivity. Qed.

Section session_grows.
Context `{FixDictionary}.

Lemma still (s s' : FixSession) :
  ss_journal (fs_snapshot s') = ss_journal (fs_snapshot s) ->
  ss_outgoing_sequence (fs_snapshot s') = ss_outgoing_sequence (fs_snapshot s) -> grows s s'.
Proof. intros Hj Ho. split; rewrite ?Hj, ?Ho; [lia | eauto]. Qed.

Lemma evict_subseteq fuel max j : evict fuel max j ⊆ j.
Proof.
  revert j. induction fuel as [|fuel IH]; intros j; [done |]. cbn [evict]. destruct (_ <=? _); [| done].
  destruct (first_entry j) as [[k e]|]; [| done]. etrans; [apply IH | apply delete_subseteq].
Qed.
Lemma send_new_grows message timestamp now journal key : stays grows (send_new message timestamp now journal key).
Proof.
  intros s. unfold send_new, configured, snap. do 4 wp_step. cbn [id].
  wp_step. wp_step; [reflexivity |]. wp_step. wp_step; [reflexivity |]. chk.
  wp_step. destruct journal; repeat (unfold update_snapshot; wp_step).
  - split; cbn -[evict]; [lia |]. intros k e.
    destruct (decide (k = ss_outgoing_sequence (fs_snapshot s))) as [->|Hne]; [by right |].
    rewrite lookup_insert_ne by done. intros Hk. left.
    eapply lookup_weaken; [exact Hk |]. etrans; [apply evict_subseteq | apply supersede_subseteq].
  - split; cbn; [lia | eauto].
Qed.

Ltac quietly := repeat first [stays_step | apply send_new_grows | by intros ?; apply still].
Lemma replay_requested_grows request timestamp now : stays grows (replay_requested request timestamp now).
Proof. unfold replay_requested, snap, configured, update_snapshot. quietly. Qed.
Lemma process_grows m timestamp now : stays grows (process_in_sequence m timestamp now).
Proof.
  unfold process_in_sequence, snap, configured, update_snapshot. quietly.
  repeat (case_bool_decide; quietly; try apply replay_requested_grows).
  intros s. apply still; cbn; by case_bool_decide.
Qed.
Lemma drain_grows fuel timestamp now : stays grows (drain_pending fuel timestamp now).
Proof.
  induction fuel as [|fuel IH]; cbn [drain_pending]; unfold snap, update_snapshot; quietly.
  case_match; quietly; [apply process_grows | apply IH].
Qed.
Lemma receive_grows message timestamp now : stays grows (receive message timestamp now).
Proof.
  unfold receive, receive_ahead, snap, configured, update_snapshot. quietly.
  case_match; quietly.
  - case_bool_decide; quietly. apply replay_requested_grows.
  - destruct a6 as [actions queued]. quietly. case_bool_decide; quietly.
  - case_match; quietly; [apply process_grows | apply drain_grows |]. intros s. apply still; cbn; by case_bool_decide.
Qed.
Lemma receive_all_grows messages timestamp now : stays grows (receive_all messages timestamp now).
Proof. induction messages as [|m ms IH]; cbn [receive_all]; quietly; [apply receive_grows | apply IH]. Qed.
Lemma receive_bytes_grows bytes timestamp now : stays grows (receive_bytes_at bytes timestamp now).
Proof.
  unfold receive_bytes_at. quietly. destruct (decoder_push bytes _). quietly. apply receive_all_grows.
Qed.
Lemma run_call_grows call : stays grows (run_call call).
Proof.
  destruct call; cbn [run_call]; unfold connected, receive_bytes, connected_at, send_application,
    send_replaceable_application, request_logout, session_probe, poll, require_established, configured, snap, update_snapshot;
    quietly; try apply receive_bytes_grows.
  case_match; quietly. repeat (case_match; quietly).
Qed.
End session_grows.

(** ** What a delta says of the journal *)

Lemma list_filter_ext {A} (P Q : A -> Prop) `{!forall x, Decision (P x), !forall x, Decision (Q x)} (l : list A) :
  (forall x, x ∈ l -> P x <-> Q x) -> filter P l = filter Q l.
Proof.
  induction l as [|x l IH]; intros Hl; [done |]. rewrite !filter_cons.
  destruct (Hl x) as [H1 H2]; [left |]. rewrite IH by (intros; apply Hl; by right).
  destruct (decide (P x)), (decide (Q x)); tauto.
Qed.
Lemma list_filter_all {A} (P : A -> Prop) `{!forall x, Decision (P x)} (l : list A) : (forall x, P x) -> filter P l = l.
Proof. intros HP. induction l as [|x l IH]; [done |]. by rewrite filter_cons, decide_True, IH. Qed.
Lemma filter_split {A} (P : A -> Prop) `{!forall x, Decision (P x)} (l : list A) :
  (length (filter P l) + length (filter (fun x => ~ P x) l) = length l)%nat.
Proof.
  induction l as [|x l IH]; [done |]. rewrite !filter_cons. destruct (decide (P x)), (decide (~ P x)); cbn; tauto || lia.
Qed.

Lemma set_keys_elem X k : k ∈ set_keys X <-> k ∈ X.
Proof. unfold set_keys. by rewrite elem_of_sort_dedup, elem_of_elements. Qed.
Lemma set_keys_length X : length (set_keys X) = size X.
Proof.
  apply Permutation_length, NoDup_Permutation; [apply NoDup_sort_dedup | apply NoDup_elements |].
  intros k. by rewrite set_keys_elem, elem_of_elements.
Qed.
Lemma set_keys_last X l : last (set_keys X) = Some l -> l ∈ X /\ forall k, k ∈ X -> k <= l.
Proof.
  intros Hl. split; [apply set_keys_elem; by apply last_Some_elem_of |]. intros k Hk%set_keys_elem.
  pose proof (sort_dedup_sorted (elements X)) as Hs. fold (set_keys X) in Hs. apply last_Some in Hl as [l' Hl].
  rewrite Hl in Hs, Hk. apply elem_of_app in Hk as [Hk| ->%list_elem_of_singleton]; [| done].
  apply StronglySorted_app in Hs as (Hs & _ & _). specialize (Hs k l Hk ltac:(by apply list_elem_of_singleton)). lia.
Qed.

Lemma find_removed_all recorded journal :
  find_removed recorded journal (Some (length (filter (fun k => journal !! k = None) recorded)))
  = (filter (fun k => journal !! k = None) recorded, Some 0%nat).
Proof.
  induction recorded as [|k ks IH]; [done |]. cbn [find_removed]. rewrite filter_cons.
  destruct (decide (journal !! k = None)) as [Hk|Hk].
  - rewrite Hk. cbn [length]. rewrite bool_decide_false, bool_decide_false by (by (intros [? ?] || discriminate)).
    by rewrite IH.
  - case_bool_decide as H0.
    + injection H0 as H0. apply length_zero_iff_nil in H0. rewrite H0. done.
    + rewrite bool_decide_true by (by destruct (journal !! k); [eexists |]). done.
Qed.

Lemma foldl_insert_keyed {V} (f : V -> Z) (l : list (Z * V)) (m : gmap Z V) :
  (forall k v, (k, v) ∈ l -> f v = k) ->
  foldl (fun m v => <[f v := v]> m) m l.*2 = foldl (fun m kv => <[id kv.1 := kv.2]> m) m l.
Proof.
  revert m. induction l as [|[k v] l IH]; intros m Hl; [done |]. cbn. rewrite (Hl k v) by left.
  apply IH. intros ???. apply Hl. by right.
Qed.

Section journal_delta.
Context (before now : SessionSnapshot).
Context (Hgrows : journal_grows before now).
Context (Hbefore : map_Forall (fun k _ => k < ss_outgoing_sequence before) (ss_journal before)).
Context (Hnow : map_Forall (fun k e => je_sequence e = k) (ss_journal now)).
#[local] Notation recorded := (dom (ss_journal before)).
#[local] Notation journal := (ss_journal now).
#[local] Notation fresh_entries := (filter (fun e => e.1 ∉ recorded) (entries journal)).

Lemma added_fresh : added_entries recorded journal = fresh_entries.*2.
Proof.
  unfold added_entries. destruct (last (set_keys recorded)) as [l|] eqn:Hl.
  - f_equal. apply set_keys_last in Hl as [Hin Hmax]. apply list_filter_ext. intros [k e] Hk%elem_of_entries. cbn [fst]. split.
    + intros Hlt Hk'%Hmax. lia.
    + intros Hk'. destruct Hgrows as [_ Hj]. destruct (Hj k e Hk) as [Hb|Hb].
      { exfalso. apply Hk', elem_of_dom. eauto. }
      apply elem_of_dom in Hin as [e' He']. specialize (Hbefore l e' He'). cbn in Hbefore. lia.
  - apply last_None in Hl. assert (He : recorded = ∅).
    { apply leibniz_equiv, elem_of_equiv_empty. intros x Hx%set_keys_elem. rewrite Hl in Hx. by apply elem_of_nil in Hx. }
    unfold values. f_equal. symmetry. apply list_filter_all. intros [k e]. rewrite He. set_solver.
Qed.

Lemma missing_removed :
  missing_entries recorded (added_entries recorded journal) journal
  = Some (length (filter (fun k => journal !! k = None) (set_keys recorded))).
Proof.
  rewrite added_fresh. unfold missing_entries. rewrite length_fmap.
  pose proof (filter_split (fun e : Z * JournalEntry => e.1 ∈ recorded) (entries journal)) as H1.
  pose proof (filter_split (fun k => journal !! k = None) (set_keys recorded)) as H2.
  rewrite set_keys_length in H2. rewrite entries_length in H1.
  assert (H3 : length (filter (fun e : Z * JournalEntry => e.1 ∈ recorded) (entries journal))
    = length (filter (fun k => ~ journal !! k = None) (set_keys recorded))).
  { rewrite <- (length_fmap fst). apply Permutation_length, NoDup_Permutation.
    - eapply sublist_NoDup; [apply (NoDup_keys journal) |]. apply fmap_sublist, sublist_filter.
    - eapply sublist_NoDup; [apply NoDup_sort_dedup | apply sublist_filter].
    - intros k. rewrite list_elem_of_filter, set_keys_elem, list_elem_of_fmap. split.
      + intros ([k' e] & -> & [Hr He%elem_of_entries]%list_elem_of_filter). cbn [fst] in *. split; [by rewrite He | done].
      + intros [Hk Hr]. destruct (journal !! k) as [e|] eqn:He; [| done]. exists (k, e). split; [done |].
        apply list_elem_of_filter. split; [done |]. by apply elem_of_entries. }
  rewrite (proj2 (Nat.ltb_ge _ _)) by lia. f_equal. lia.
Qed.

(** The delta's lists rebuild the journal and its keys. *)
Lemma journal_delta :
  exists removed,
    find_removed (set_keys recorded) journal (missing_entries recorded (added_entries recorded journal) journal)
      = (removed, Some 0%nat) /\
    foldl (fun j e => <[je_sequence e := e]> j) (foldl (fun j k => delete k j) (ss_journal before) removed)
      (added_entries recorded journal) = journal /\
    (recorded ∖ list_to_set removed) ∪ list_to_set (je_sequence <$> added_entries recorded journal) = dom journal.
Proof.
  rewrite missing_removed, added_fresh. eexists. split; [apply find_removed_all |].
  set (removed := filter _ (set_keys recorded)).
  assert (Hkeys : je_sequence <$> fresh_entries.*2 = fresh_entries.*1).
  { rewrite <- list_fmap_compose. apply list_fmap_ext. intros i [k e] Hi%list_elem_of_lookup_2.
    apply list_elem_of_filter in Hi as [_ Hi%elem_of_entries]. by apply Hnow in Hi. }
  assert (Hin : forall k, k ∈ fresh_entries.*1 <-> is_Some (journal !! k) /\ k ∉ recorded).
  { intros k. rewrite list_elem_of_fmap. split.
    - intros ([k' e] & -> & [Hr He%elem_of_entries]%list_elem_of_filter). eauto.
    - intros [[e He] Hr]. exists (k, e). split; [done |]. apply list_elem_of_filter. by rewrite elem_of_entries. }
  assert (Hrem : forall k, k ∈ removed <-> journal !! k = None /\ k ∈ recorded).
  { intros k. unfold removed. by rewrite list_elem_of_filter, set_keys_elem. }
  split.
  - rewrite (foldl_insert_keyed je_sequence) by (intros k e [_ He%elem_of_entries]%list_elem_of_filter; by apply Hnow in He).
    apply map_eq. intros k. etrans; [apply (foldl_insert_lookup id fresh_entries _ k) |].
    { eapply sublist_NoDup; [apply (NoDup_keys journal) |]. apply fmap_sublist, sublist_filter. }
    destruct (list_to_map fresh_entries !! k) as [e|] eqn:He.
    + apply elem_of_list_to_map_2, list_elem_of_filter in He as [_ He%elem_of_entries]. done.
    + apply not_elem_of_list_to_map_2 in He. rewrite Hin in He. cbn [id]. rewrite foldl_delete_lookup.
      destruct (decide (k ∈ removed)) as [[Hk _]%Hrem|Hni]; [done |]. rewrite Hrem in Hni.
      destruct (journal !! k) as [e|] eqn:Hj.
      * destruct (ss_journal before !! k) as [e'|] eqn:Hb.
        -- destruct Hgrows as [_ Hg]. destruct (Hg k e Hj) as [?|?]; [congruence |]. specialize (Hbefore k e' Hb). cbn in Hbefore. lia.
        -- exfalso. apply He. split; [eauto |]. intros [? ?]%elem_of_dom. congruence.
      * destruct (ss_journal before !! k) as [e'|] eqn:Hb; [| done]. exfalso. apply Hni. split; [done |]. apply elem_of_dom. eauto.
  - rewrite Hkeys. apply leibniz_equiv. intros k. rewrite elem_of_union, elem_of_difference, !elem_of_list_to_set, Hin, Hrem, (elem_of_dom journal).
    destruct (journal !! k) as [e|] eqn:Hj; [| naive_solver]. destruct (decide (k ∈ recorded)); naive_solver.
Qed.
End journal_delta.

(** ** Delivery *)

Definition report_of (u : Unwritten) : Z * list FixMessage := (uw_last u, uw_messages u).
(** The same batches are seen and the same reports owed. *)
Definition same_reports (d d' : Delivery) : Prop :=
  dl_seen_through d = dl_seen_through d' /\ report_of <$> dl_unwritten d = report_of <$> dl_unwritten d'.
(** The replayed delivery, before a delta trims it. *)
Definition lagging (live rep : Delivery) : Prop :=
  dl_seen_through rep <= dl_seen_through live /\
  forall k u, dl_unwritten live !! k = Some u -> exists u', dl_unwritten rep !! k = Some u' /\ report_of u' = report_of u.
(** Batches are filed under their last event. *)
Definition filed (d : Delivery) : Prop := map_Forall (fun k u => uw_last u = k) (dl_unwritten d).

Lemma same_reports_lag live rep : same_reports rep live -> lagging live rep.
Proof.
  intros [Hs Hu]. split; [lia |]. intros k u Hk. apply (f_equal (fun m : gmap Z (Z * list FixMessage) => m !! k)) in Hu.
  rewrite !lookup_fmap, Hk in Hu. destruct (dl_unwritten rep !! k) as [u'|]; [| done]. injection Hu as Hu.
  exists u'. split; [done |]. unfold report_of. congruence.
Qed.
Lemma lag_on_batch last messages send_at live rep :
  lagging live rep -> lagging (delivery_on_batch last messages send_at live) (delivery_on_batch last messages 0 rep).
Proof.
  intros [Hs Hu]. split; cbn; [lia |]. destruct messages as [|m ms]; [done |]. intros k u.
  destruct (decide (k = last)) as [->|Hne].
  - rewrite !lookup_insert_eq. intros [= <-]. by eexists.
  - rewrite !lookup_insert_ne by done. apply Hu.
Qed.
Lemma lag_silent last send_at live rep : lagging live rep -> lagging (delivery_on_batch last [] send_at live) rep.
Proof. intros [Hs Hu]. split; [cbn; lia | done]. Qed.
Lemma lag_written now live rep : lagging live rep -> lagging (delivery_on_written now live) rep.
Proof. intros [Hs Hu]. split; [done |]. intros k u [Hk _]%map_lookup_filter_Some. by apply Hu. Qed.
Lemma lag_settles live rep :
  lagging live rep -> same_reports (delivery_retain (unwritten_keys live) (advance_to (dl_seen_through live) rep)) live.
Proof.
  intros [Hs Hu]. split; [cbn; lia |]. apply map_eq. intros k. rewrite !lookup_fmap. cbn.
  assert (Hks : is_Some (binary_search_by_key (fun k => k) (unwritten_keys live) k) <-> is_Some (dl_unwritten live !! k)).
  { rewrite <- elem_of_keys. fold (unwritten_keys live). split.
    - intros [i Hi]. apply binary_search_Some in Hi as (x & Hx & ->); [by eapply list_elem_of_lookup_2 |].
      unfold strictly_keyed. rewrite list_fmap_id. apply (keys_increasing (dl_unwritten live)).
    - intros Hk. apply list_elem_of_lookup in Hk as [i Hi]. exists i. apply binary_search_Some; [| by exists k].
      unfold strictly_keyed. rewrite list_fmap_id. apply (keys_increasing (dl_unwritten live)). }
  destruct (dl_unwritten live !! k) as [u|] eqn:Hk.
  - destruct (Hu k u Hk) as (u' & Hu' & He). rewrite (map_lookup_filter_Some_2 _ _ k u'); [cbn; by f_equal | done |].
    cbn. by apply Hks.
  - rewrite map_lookup_filter_None_2; [done |]. right. intros u Hu' Hb. cbn in Hb. apply Hks in Hb as [? ?]. done.
Qed.

Lemma restored_reports live :
  filed live -> same_reports (delivery_restore (dl_seen_through live) (due_now <$> unwritten live)) live.
Proof.
  intros Hf. split; [done |]. cbn [dl_unwritten delivery_restore].
  assert (Hv : due_now <$> unwritten live = (entries (due_now <$> dl_unwritten live)).*2).
  { unfold unwritten, values. rewrite entries_fmap, <- !list_fmap_compose. done. }
  rewrite Hv, (foldl_insert_keyed uw_last).
  - fold (insert_all id (due_now <$> dl_unwritten live) ∅). apply map_eq. intros k.
    rewrite lookup_fmap. etrans; [apply f_equal, (insert_all_lookup id _ _ k) |]. rewrite !lookup_fmap, lookup_empty.
    by destruct (dl_unwritten live !! k).
  - intros k v. rewrite elem_of_entries, lookup_fmap, fmap_Some. intros (u & Hu & ->). by apply Hf in Hu.
Qed.
(** The reports a session owes. *)
Definition owed (d : Delivery) : list FixMessage := unwritten d ≫= uw_messages.
Lemma owed_same d d' : same_reports d d' -> owed d = owed d'.
Proof.
  intros [_ Hu].
  assert (Ho : forall d, owed d = (entries (report_of <$> dl_unwritten d)).*2 ≫= snd); [| by rewrite !Ho, Hu].
  intros d0. unfold owed, unwritten, values. rewrite entries_fmap, <- list_fmap_compose.
  induction (entries (dl_unwritten d0)) as [|[k u] l IH]; [done |]. cbn. by rewrite IH.
Qed.

Lemma filed_on_batch last messages send_at d : filed d -> filed (delivery_on_batch last messages send_at d).
Proof. intros Hd. unfold filed. cbn. destruct messages; [done |]. by apply map_Forall_insert_2. Qed.
Lemma filed_on_written now d : filed d -> filed (delivery_on_written now d).
Proof. intros Hd k u [Hk _]%map_lookup_filter_Some. by apply Hd. Qed.
Lemma filed_same d d' : same_reports d d' -> filed d' -> filed d.
Proof.
  intros [_ Hu] Hd k u Hk. apply (f_equal (fun m : gmap Z (Z * list FixMessage) => m !! k)) in Hu.
  rewrite !lookup_fmap, Hk in Hu. destruct (dl_unwritten d' !! k) as [u'|] eqn:Hk'; [| done].
  apply Hd in Hk'. injection Hu as Hu. cbn in *. congruence.
Qed.

(** ** The application *)

Section application.
Context `{Sha256} `{FixDictionary}.

(** A state that restores. *)
Definition restorable (s : FixApplicationState) : Prop :=
  sound (fa_execution s) /\ orders_bounded (fa_execution s) /\ 1 <= fa_next_intent_id s.
Lemma restorable_restores s : restorable s -> fix_restore (fix_snapshot s) = Ok s.
Proof.
  intros (Hs & Ho & Hn). unfold fix_restore. cbn. replace (fa_next_intent_id s =? 0) with false by lia.
  rewrite (restore_ok _ Hs Ho). by destruct s.
Qed.
Definition keeps_restorable (s s' : FixApplicationState) : Prop := restorable s -> restorable s'.
#[local] Instance keeps_restorable_preorder : PreOrder keeps_restorable.
Proof. split; [by intros s ? | intros a b c; unfold keeps_restorable; tauto]. Qed.

Lemma with_buffer_restorable m :
  stays (preserving sound) m -> stays (preserving orders_bounded) m -> stays keeps_restorable (with_buffer m).
Proof.
  intros H1 H2 s. unfold wp, with_buffer.
  specialize (H1 (mkExecution (fa_execution s) (mkExecutionActionBuffer 2 []))).
  specialize (H2 (mkExecution (fa_execution s) (mkExecutionActionBuffer 2 []))). unfold wp in H1, H2.
  destruct (m _) as [e [u|err]]; intros (Hs & Ho & Hn); (split_and!; [by apply H1 | by apply H2 | done]).
Qed.
Lemma submit_restorable intent : stays keeps_restorable (with_buffer (submit_intent intent)).
Proof.
  apply with_buffer_restorable; (eapply stays_mono; [| apply submit_intent_intended]); intros e e' Hi.
  - intros [H1 H2]. split; [by apply (in_index _ _ Hi) | by apply (in_bounded _ _ Hi)].
  - apply (in_orders _ _ Hi).
Qed.
Lemma report_restorable r : stays keeps_restorable (with_buffer (apply_venue_report r)).
Proof.
  apply with_buffer_restorable.
  - eapply stays_mono; [| apply apply_venue_report_maintained]. by intros e e' [? _].
  - eapply stays_mono; [apply reported_orders | apply apply_venue_report_reported].
Qed.
Lemma map_message_restorable message context : stays keeps_restorable (map_message message context).
Proof.
  unfold map_message. intros s. do 3 wp_step. wp_step; [reflexivity |]. wp_step. wp_step; [reflexivity |]. chk.
  do 2 wp_step. set (s1 := with_next_intent _ s).
  assert (Hk1 : keeps_restorable s s1) by (intros (? & ? & ?); split_and!; cbn; [done | done | lia]).
  assert (Hrest : stays keeps_restorable (match a with
    | InboundApplication.Competition request => mret (FixApplicationRequest.Competition request)
    | InboundApplication.MarketDataRequest request_id key request_type depth types aggregated =>
        mret (FixApplicationRequest.MarketData request_id key request_type depth types aggregated)
    | InboundApplication.Intent intent => map_intent intent message context
    end)).
  { destruct a; try stays_step. unfold map_intent. stays_step; [apply submit_restorable |].
    destruct a as [|action [|? ?]]; [stays_step | | stays_step]. stays_step.
    - destruct (submitted_client intent), action; stays_step; by intros ? (? & ? & ?).
    - repeat stays_step. }
  eapply wp_mono; [apply Hrest | |]; cbn beta; intros; by etransitivity.
Qed.
Lemma report_messages_restorable reports : stays keeps_restorable (report_messages reports).
Proof. induction reports as [|r rs IH]; cbn [report_messages]; repeat first [stays_step | apply report_restorable | apply IH]. Qed.
Lemma committed_restorable actor events : stays keeps_restorable (committed_messages actor events).
Proof.
  destruct events as [|e es]; cbn [committed_messages]; [stays_step |]. stays_step; [stays_step |]. stays_step; [stays_step |].
  destruct (normalize_committed_events _ _ _) as [adapter reports]. repeat first [stays_step | apply report_messages_restorable].
  by intros s (? & ? & ?).
Qed.

(** A batch without reports that registers no order of the participant
    leaves the application as it is. *)
Lemma normalize_silent actor ns (events : list EventEnvelope) a a' :
  registers_order actor events = false ->
  normalize_committed_events actor (localize_event ns <$> events) a = (a', Ok []) -> a' = a.
Proof.
  revert a. induction events as [|e es IH]; intros a Hr Hrun; [by injection Hrun as <- |].
  cbn [registers_order existsb] in Hr. apply orb_false_iff in Hr as [He Hes].
  cbn [fmap list_fmap normalize_committed_events] in Hrun.
  apply bind_Ok_inv in Hrun as (a1 & r1 & H1 & Hrun). apply bind_Ok_inv in Hrun as (a2 & r2 & H2 & Hrun).
  injection Hrun as <- Hnil. apply app_eq_nil in Hnil as [-> ->]. apply IH in H2; [| done]. subst a2.
  unfold normalize_event in H1. apply bind_Ok_inv in H1 as (a3 & c & H3 & H1). destruct c as [[local kind]|].
  { exfalso. apply bind_Ok_inv in H1 as (? & ? & _ & H1). apply bind_Ok_inv in H1 as (? & ? & _ & H1). by injection H1. }
  injection H1 as <-. cbn [localize_event ev_payload] in H3.
  destruct (ev_payload e) eqn:Hp; cbn [localize_payload classify_event] in H3; try (by injection H3 as <-).
  - cbn [so_participant_id with_so_order_id] in H3. rewrite He in H3. by injection H3 as <-.
  - destruct order_id; cbn in H3; [| by injection H3 as <-]. apply bind_Ok_inv in H3 as (? & ? & [= <- <-] & H3). by injection H3 as <-.
  - destruct (_ || _); [| by injection H3 as <-]. apply bind_Ok_inv in H3 as (? & ? & [= <- <-] & H3).
    destruct (if bool_decide _ then _ else _) as [l|]; [| by injection H3 as <-].
    exfalso. repeat (apply bind_Ok_inv in H3 as (? & ? & _ & H3)). by injection H3.
Qed.
Lemma report_messages_length reports s s' messages :
  report_messages reports s = (s', Ok messages) -> length messages = length reports.
Proof.
  revert s s' messages. induction reports as [|r rs IH]; intros s s' messages Hrun; [by injection Hrun as <- <- |].
  cbn [report_messages] in Hrun. rewrite bind_gets in Hrun. cbv zeta in Hrun.
  apply bind_Ok_inv in Hrun as (s1 & _ & _ & Hrun). apply bind_Ok_inv in Hrun as (s2 & m & _ & Hrun).
  apply bind_Ok_inv in Hrun as (s3 & ms & H3 & Hrun). injection Hrun as <- <-. cbn. by rewrite (IH _ _ _ H3).
Qed.
Lemma committed_silent actor events s s' :
  registers_order actor events = false -> committed_messages actor events s = (s', Ok []) -> s' = s.
Proof.
  intros Hr Hrun. destruct events as [|e es]; [by injection Hrun as <- |].
  unfold committed_messages in Hrun. rewrite !bind_gets in Hrun.
  destruct (normalize_committed_events actor _ (fa_adapter s)) as [a r] eqn:Hn. rewrite bind_modify in Hrun.
  apply bind_Ok_inv in Hrun as (? & reports & [-> Hreports]%lift_Ok_inv & Hrun).
  destruct reports as [|? ?]; [| by apply report_messages_length in Hrun]. injection Hrun as <-.
  destruct r as [reports|err]; [| done]. injection Hreports as ->.
  apply normalize_silent in Hn; [| done]. subst a. by destruct s.
Qed.
End application.

(** ** The log and the live session *)

Record Moment : Type := mkMoment {
  mt_session : SessionSnapshot;
  mt_application : FixApplicationState;
  mt_delivery : Delivery;
  mt_mapped : list Mapped
}.
Definition mapped_by (s : SessionStore) : list Mapped := match st_writer s with Some w => wr_mapped w | None => [] end.
Definition moment (s : SessionStore) (session : FixSession) : Moment :=
  mkMoment (fs_snapshot session) (st_application s) (st_delivery s) (mapped_by s).

Section log.
Context `{HH : !Sha256} `{HD : !FixDictionary} `{HC : !SessionCodec} (c : SessionConfig).

(** What a complete log reads as. *)
Definition log_reads (log : Bytes) (r : Replayed) : Prop :=
  exists records, Forall (fun b => record_fits b = true) records /\ log = wal_file SESSION_MAGIC records /\
    for_each read_record records None = (Some r, Ok tt).
Lemma log_reads_back log tail r :
  log_reads log r -> torn SESSION_MAGIC tail -> read_log (Some (A := Bytes) (log ++ tail)) = Ok (Some r).
Proof.
  intros (records & Hf & -> & Hrun) Ht. unfold read_log.
  rewrite (scan_file_frames SESSION_MAGIC eq_refl _ _ records tail) by done. by rewrite (bind_run _ _ _ _ _ Hrun).
Qed.
Lemma for_each_snoc {S E A} (f : A -> M S E unit) (l : list A) (x : A) (s s1 : S) :
  for_each f l s = (s1, Ok tt) -> for_each f (l ++ [x]) s = f x s1.
Proof.
  revert s. induction l as [|y l IH]; intros s Hl.
  - injection Hl as <-. cbn. unfold mbind, M_bind. by destruct (f x s) as [? [[]|]].
  - cbn [for_each app] in *. apply bind_Ok_inv in Hl as (s2 & [] & H1 & H2). rewrite (bind_run _ _ _ _ _ H1). by apply IH.
Qed.

(** The replayed state is that of a moment. *)
Record at_moment (m : Moment) (r : Replayed) : Prop := {
  am_session : rp_session r = mt_session m;
  am_application : rp_application r = mt_application m;
  am_delivery : same_reports (rp_delivery r) (mt_delivery m);
  am_mapped : rp_mapped r = mt_mapped m
}.

(** The session's fields do not take part in replaying inputs. *)
Definition with_session (v : SessionSnapshot) (r : Replayed) : Replayed :=
  mkReplayed v (rp_application r) (rp_delivery r) (rp_mapped r).
Lemma replay_session v inputs r r' :
  for_each replay_input inputs r = (r', Ok tt) ->
  for_each replay_input inputs (with_session v r) = (with_session v r', Ok tt) /\ rp_session r' = rp_session r.
Proof.
  revert r. induction inputs as [|i inputs IH]; intros r Hrun; [by injection Hrun as <- |].
  cbn [for_each] in *. apply bind_Ok_inv in Hrun as (r1 & [] & H1 & H2).
  assert (Hi : replay_input i (with_session v r) = (with_session v r1, Ok tt) /\ rp_session r1 = rp_session r).
  { destruct i as [message actor run_id correlation|actor events]; cbn [replay_input] in *.
    - cbn [rp_application with_session]. destruct (map_message _ _ _) as [app req]. injection H1 as <-. done.
    - cbn [rp_application with_session]. destruct (committed_messages _ _ _) as [app [ms|e]]; [| done].
      by injection H1 as <-. }
  destruct Hi as [Hi Hs]. rewrite (bind_run _ _ _ _ _ Hi). destruct (IH _ H2) as [H3 H4]. split; [done | congruence].
Qed.

(** The log of a live store: a moment [D], and the inputs that lead from
    there to now. *)
Record tracks (D : Moment) (s : SessionStore) (session : FixSession) : Prop := {
  tk_log : exists w r r', st_writer s = Some w /\ log_reads (st_log s) r /\ at_moment D r /\
    wr_journal w = dom (ss_journal (mt_session D)) /\
    for_each replay_input (wr_inputs w) r = (r', Ok tt) /\ rp_application r' = st_application s /\
    rp_mapped r' = wr_mapped w /\ lagging (st_delivery s) (rp_delivery r');
  tk_session : session_ok c session;
  tk_before : session_ok c (mkFixSession c (mt_session D) (fs_decoder session));
  tk_grows : journal_grows (mt_session D) (fs_snapshot session);
  tk_restorable : restorable (st_application s);
  tk_filed : filed (st_delivery s);
  tk_past : restorable (mt_application D) /\ filed (mt_delivery D)
}.

Lemma encode_record_Ok r b : encode_record r = Ok b -> json_record r = Some b /\ record_fits b = true.
Proof.
  unfold encode_record. intros (b' & Hb%ok_or_Ok & H)%result_bind_Ok. destruct (record_fits b') eqn:Hf; [| done]. by injection H as <-.
Qed.
Lemma snapshot_session_ok session (s : FixSession) :
  session_ok c session -> fs_snapshot s = fs_snapshot session -> fs_config s = c -> session_ok c s.
Proof. intros [S1 S2 S3 S4 S5 S6 S7 S8] He Hc. split; rewrite ?He; done. Qed.

(** A delta takes the log to the present. *)
Lemma delta_reads D s session w b :
  tracks D s session -> st_writer s = Some w ->
  (exists removed, find_removed (set_keys (wr_journal w)) (ss_journal (fs_snapshot session))
     (missing_entries (wr_journal w) (added_entries (wr_journal w) (ss_journal (fs_snapshot session))) (ss_journal (fs_snapshot session)))
     = (removed, Some 0%nat) /\
   (wr_journal w ∖ list_to_set removed) ∪ list_to_set (je_sequence <$> added_entries (wr_journal w) (ss_journal (fs_snapshot session)))
     = dom (ss_journal (fs_snapshot session)) /\
   (encode_record (delta_record (fs_snapshot session) (added_entries (wr_journal w) (ss_journal (fs_snapshot session))) removed
      (wr_inputs w) (st_delivery s)) = Ok b ->
    exists r, log_reads (st_log s ++ wal_frame SESSION_MAGIC b) r /\ at_moment (moment s session) r)).
Proof.
  intros [(w0 & r & r' & Hw & (records & Hf & Hlog & Hrecs) & Hr & Hj & Hin & Happ & Hmap & Hlag) Hs Hb Hg _ _ _] Hw'.
  rewrite Hw' in Hw. injection Hw as <-. rewrite Hj.
  destruct (journal_delta (mt_session D) (fs_snapshot session) Hg) as (removed & Hfind & Hjournal & Hkeys).
  { eapply map_Forall_impl; [apply (so_journal c _ Hb) |]. cbn. intros k e (_ & ? & _). lia. }
  { eapply map_Forall_impl; [apply (so_journal c _ Hs) |]. by intros k e (? & _). }
  exists removed. split; [done |]. split; [done |]. intros [Hjson Hfit]%encode_record_Ok.
  destruct (replay_session (fs_snapshot session) _ _ _ Hin) as [Hin2 _].
  eexists. split.
  - exists (records ++ [b]). split; [by apply Forall_app; split; [| constructor] |]. split; [by rewrite Hlog, wal_file_snoc |].
    rewrite (for_each_snoc _ _ _ _ _ Hrecs). unfold read_record. rewrite (parse_json_record _ _ Hjson). cbn [as_read delta_record].
    unfold replayed_apply. rewrite bind_modify. cbn [de_inputs].
    assert (Hses : apply_session (mkSessionDelta (ss_incoming_sequence (fs_snapshot session)) (ss_outgoing_sequence (fs_snapshot session))
       (ss_reconnect_generation (fs_snapshot session)) (ss_state (fs_snapshot session)) (ss_pending_resend_begin (fs_snapshot session))
       (ss_pending_inbound (fs_snapshot session)) (ss_last_received_millis (fs_snapshot session)) (ss_last_sent_millis (fs_snapshot session))
       (ss_outstanding_test_request (fs_snapshot session)) (added_entries (dom (ss_journal (mt_session D))) (ss_journal (fs_snapshot session)))
       removed (wr_inputs w) (dl_seen_through (st_delivery s)) (unwritten_keys (st_delivery s))) (rp_session r) = fs_snapshot session).
    { unfold apply_session. cbn. rewrite (am_session _ _ Hr), Hjournal. pose proof (so_version c _ Hb) as V1. pose proof (so_version c _ Hs) as V2.
      cbn in V1. rewrite V1, <- V2. by destruct (fs_snapshot session). }
    rewrite Hses. fold (with_session (fs_snapshot session) r). rewrite (bind_run _ _ _ _ _ Hin2). reflexivity.
  - split; cbn; [done | done | by apply lag_settles | by rewrite Hmap; unfold mapped_by; rewrite Hw'].
Qed.

(** A checkpoint holds the present. *)
Lemma checkpoint_reads s session in_flight b :
  restorable (st_application s) -> filed (st_delivery s) ->
  encode_record (checkpoint_record session (st_application s) (st_delivery s) in_flight) = Ok b ->
  exists r, log_reads (wal_frame SESSION_MAGIC b) r /\
    at_moment (mkMoment session (st_application s) (st_delivery s) in_flight) r.
Proof.
  intros Hr Hf [Hjson Hfit]%encode_record_Ok. eexists. split.
  - exists [b]. split; [by constructor |]. split; [unfold wal_file; cbn; by rewrite app_nil_r |].
    cbn [for_each]. unfold mbind, M_bind, read_record. rewrite (parse_json_record _ _ Hjson). cbn [as_read checkpoint_record].
    unfold restore_checkpoint. cbn [cp_application]. rewrite (restorable_restores _ Hr). reflexivity.
  - split; cbn; [done | done | by apply restored_reports | done].
Qed.
(** ** Writing *)

(** The present, with the commands to admit again cut to those the origin
    does not hold. *)
Definition present (journaled : Command -> bool) (now m : Moment) : Prop :=
  m = now \/ m = mkMoment (mt_session now) (mt_application now) (mt_delivery now) (to_readmit journaled (mt_mapped now)).

Lemma checkpoint_outcome s session in_flight disk s' r :
  session_ok c session -> restorable (st_application s) -> filed (st_delivery s) ->
  writer_checkpoint (fs_snapshot session) in_flight disk s = (s', r) ->
  match r with
  | Ok _ => moment s' session = mkMoment (fs_snapshot session) (st_application s) (st_delivery s) in_flight /\
      tracks (moment s' session) s' session
  | Err _ => st_log s' = st_log s \/ exists rep, log_reads (st_log s') rep /\
      at_moment (mkMoment (fs_snapshot session) (st_application s) (st_delivery s) in_flight) rep
  end.
Proof.
  intros Hs Hr Hf. unfold writer_checkpoint. rewrite bind_gets. cbn [id].
  destruct (encode_record _) as [b|e] eqn:Hb; [| intros [= <- <-]; by left]. rewrite (bind_lift _ _ _ b) by done.
  destruct (checkpoint_reads s _ in_flight b Hr Hf Hb) as (rep & Hrep & Hat).
  destruct disk as [fails [] []]; cbn [ld_replaced ld_installed andb negb].
  - rewrite !bind_modify, bind_refuse by done. intros [= <- <-]. split; [done |]. split; cbn; try done.
    + eexists _, rep, rep. split; [done |]. split; [exact Hrep |]. split; [exact Hat |]. split; [done |].
      split_and!; [done | apply Hat | apply Hat | apply same_reports_lag, Hat].
    + by eapply snapshot_session_ok.
  - rewrite !bind_modify. intros [= <- <-]. right. by exists rep.
  - intros [= <- <-]. by left.
  - intros [= <- <-]. by left.
Qed.

(** What a write leaves: a log that reads as some moment, with a torn frame
    behind it. *)
Definition leaves {A} (D : Moment) (s : SessionStore) (session : FixSession) (journaled : Command -> bool)
    (s' : SessionStore) (r : result LogError A) : Prop :=
  exists log tail rep m, st_log s' = log ++ tail /\ torn SESSION_MAGIC tail /\ log_reads log rep /\ at_moment m rep /\
    match r with
    | Ok _ => m = moment s' session /\ present journaled (moment s session) m /\ tracks m s' session
    | Err _ => m = D \/ present journaled (moment s session) m
    end.
Lemma leaves_old {A} D s session journaled s' e :
  tracks D s session -> st_log s' = st_log s -> leaves (A := A) D s session journaled s' (Err e).
Proof.
  intros [(w & r & _ & _ & Hlog & Hat & _) _ _ _ _ _ _] He. exists (st_log s), [], r, D. rewrite app_nil_r.
  split_and!; try done; [by apply torn_nil | by left].
Qed.
Lemma checkpoint_leaves D s session w journaled disk s' r :
  tracks D s session -> st_writer s = Some w ->
  writer_checkpoint (fs_snapshot session) (to_readmit journaled (wr_mapped w)) disk s = (s', r) ->
  leaves D s session journaled s' r.
Proof.
  intros Ht Hw Hrun. pose proof Ht as [_ Hs _ _ Hr Hf _]. apply checkpoint_outcome in Hrun; [| done..].
  set (m := mkMoment _ _ _ _) in Hrun.
  assert (Hp : present journaled (moment s session) m) by (right; unfold moment, mapped_by; by rewrite Hw).
  destruct r as [u|e].
  - destruct Hrun as [He Htr]. pose proof (tk_log _ _ _ Htr) as (w' & rep & _ & _ & Hl' & Ha' & _).
    exists (st_log s'), [], rep, (moment s' session). rewrite app_nil_r. split_and!; try done; [by apply torn_nil | by rewrite He].
  - destruct Hrun as [He|(rep & Hl' & Ha')]; [by apply leaves_old |].
    exists (st_log s'), [], rep, m. rewrite app_nil_r. split_and!; try done; [by apply torn_nil | by right].
Qed.
Lemma delta_leaves D s session w journaled disk s' r :
  tracks D s session -> st_writer s = Some w -> append_delta (fs_snapshot session) w disk s = (s', r) ->
  r <> Ok false /\ leaves D s session journaled s' r.
Proof.
  intros Ht Hw. pose proof Ht as [(_ & r0 & _ & _ & Hlog & Hat & _) Hs _ _ Hr Hf _]. unfold append_delta. cbv zeta.
  destruct (delta_reads D s session w [] Ht Hw) as (removed & Hfind & Hkeys & _). rewrite Hfind.
  rewrite bool_decide_true by done. cbn [negb]. rewrite bind_gets.
  destruct (encode_record _) as [b|e] eqn:Hb; [| intros [= <- <-]; split; [done | by apply leaves_old]].
  rewrite (bind_lift _ _ _ b) by done.
  destruct (delta_reads D s session w b Ht Hw) as (removed' & Hfind' & _ & Hrep). rewrite Hfind in Hfind'. injection Hfind' as <-.
  destruct (Hrep Hb) as (rep & Hl' & Ha'). pose proof (proj2 (encode_record_Ok _ _ Hb)) as Hfit.
  destruct (ld_append_fails disk) as [n|].
  - rewrite bind_modify. intros [= <- <-]. split; [done |].
    destruct (torn_or_whole SESSION_MAGIC eq_refl n b Hfit) as [Htorn|Hwhole].
    + exists (st_log s), (take n (wal_frame SESSION_MAGIC b)), r0, D. split_and!; try done. by left.
    + exists (st_log s ++ wal_frame SESSION_MAGIC b), [], rep, (moment s session). rewrite app_nil_r. cbn [put_log st_log]. rewrite Hwhole.
      split_and!; try done; [by apply torn_nil | right; by left].
  - rewrite !bind_modify. intros [= <- <-]. split; [done |].
    exists (st_log s ++ wal_frame SESSION_MAGIC b), [], rep, (moment s session). rewrite app_nil_r.
    set (s1 := put_writer _ _). assert (Hm : moment s1 session = moment s session) by (unfold moment, mapped_by; cbn; by rewrite Hw).
    split_and!; try done; [by apply torn_nil | by left |]. split; cbn; try done.
    + eexists _, rep, rep. split; [done |]. split; [exact Hl' |]. split; [exact Ha' |]. split; [exact Hkeys |].
      split_and!; [done | apply Ha' | rewrite (am_mapped _ _ Ha'); cbn; unfold mapped_by; by rewrite Hw | apply same_reports_lag, Ha'].
    + by eapply snapshot_session_ok.
Qed.
Lemma persist_outcome D s session journaled disk s' r :
  tracks D s session -> persist journaled session disk s = (s', r) -> leaves D s session journaled s' r.
Proof.
  intros Ht. pose proof (tk_log _ _ _ Ht) as (w & _ & _ & Hw & _). unfold persist. rewrite bind_gets, Hw.
  destruct (_ <=? _); [| rewrite bind_ret; by apply checkpoint_leaves].
  destruct (append_delta (fs_snapshot session) w disk s) as [s1 r1] eqn:Ha. unfold mbind, M_bind. rewrite Ha.
  apply (delta_leaves _ _ _ _ journaled _ _ _ Ht Hw) in Ha as [Hne Hl]. destruct r1 as [[]|e]; [| done |].
  - intros [= <- <-]. exact Hl.
  - intros [= <- <-]. exact Hl.
Qed.

(** ** The life of a session *)

(** A session opened for the first time, what its host does with it, and a
    restart from whatever a write, complete or not, has left of the log. *)
Inductive life : Moment -> SessionStore -> FixSession -> Prop :=
  | life_fresh ec epoch current journaled disk s session recovery :
      0 <= ec_max_orders ec -> 0 <= ec_max_seen_reports ec -> 0 <= ec_max_deferred_reports ec ->
      store_open None c (with_identity_epoch epoch (FixApplicationState_new ec)) current journaled disk = Ok (s, session, recovery) ->
      life (moment s session) s session
  | life_call D s session call session' r :
      life D s session -> run_call call session = (session', r) -> life D s session'
  | life_map D s session message actor run_id correlation_id s' r :
      life D s session -> store_map_message message (log_context actor run_id correlation_id) s = (s', r) -> life D s' session
  | life_committed D s session actor events send_at s' messages :
      life D s session -> store_committed actor events send_at s = (s', Ok messages) -> life D s' session
  | life_written D s session now : life D s session -> life D (store_on_written now s) session
  | life_persist D s session journaled disk s' :
      life D s session -> persist journaled session disk s = (s', Ok tt) -> life (moment s' session) s' session
  | life_restart D s session journaled disk s1 r fresh current journaled' disk' s' session' recovery :
      life D s session -> persist journaled session disk s = (s1, r) ->
      store_open (Some (st_log s1)) c fresh current journaled' disk' = Ok (s', session', recovery) ->
      life (moment s' session') s' session'.

Lemma tracks_map D s session message actor run_id correlation_id s' r :
  tracks D s session -> store_map_message message (log_context actor run_id correlation_id) s = (s', r) -> tracks D s' session.
Proof.
  intros [(w & r0 & r1 & Hw & Hlog & Hat & Hj & Hin & Happ & Hmap & Hlag) Hs Hb Hg Hr Hf Hpast]. unfold store_map_message.
  pose proof (map_message_restorable message (log_context actor run_id correlation_id) (st_application s)) as Hk. unfold wp in Hk.
  destruct (map_message _ _ (st_application s)) as [app req] eqn:Hm. cbn [st_writer put_application]. rewrite Hw. intros [= <- <-].
  split; cbn; try done; [| by destruct req; apply Hk].
  eexists _, r0. eexists. split; [done |]. split; [exact Hlog |]. split; [exact Hat |].
  split; [by destruct req as [[]|] |].
  assert (Hwi : wr_inputs (match req with
     | Ok (FixApplicationRequest.Command command) => push_mapped (mkMapped command correlation_id)
         (push_input (Input.Inbound message actor run_id correlation_id) w)
     | _ => push_input (Input.Inbound message actor run_id correlation_id) w end) = wr_inputs w ++ [Input.Inbound message actor run_id correlation_id])
    by (by destruct req as [[]|]).
  cbn [fc_actor fc_run_id fc_correlation_id log_context] in *. rewrite Hwi, (for_each_snoc _ _ _ _ _ Hin).
  cbn [replay_input]. rewrite Happ, Hm. split; [done |]. split; [done |]. split; [| done].
  cbn. rewrite Hmap. by destruct req as [[]|].
Qed.
Lemma tracks_committed D s session actor events send_at s' messages :
  tracks D s session -> store_committed actor events send_at s = (s', Ok messages) -> tracks D s' session.
Proof.
  intros [(w & r0 & r1 & Hw & Hlog & Hat & Hj & Hin & Happ & Hmap & Hlag) Hs Hb Hg Hr Hf Hpast]. unfold store_committed.
  pose proof (committed_restorable actor events (st_application s)) as Hk. unfold wp in Hk.
  destruct (committed_messages actor events (st_application s)) as [app [ms|e]] eqn:Hm; [| done].
  set (s1 := match last events with Some e => _ | None => _ end).
  assert (Hs1 : st_writer s1 = Some w /\ st_log s1 = st_log s /\ st_application s1 = app /\ filed (st_delivery s1)).
  { unfold s1. destruct (last events); cbn; split_and!; try done. by apply filed_on_batch. }
  destruct Hs1 as (Hw1 & Hl1 & Ha1 & Hf1). rewrite Hw1.
  destruct (negb (bool_decide (ms = [])) || registers_order actor events) eqn:Hrec; intros [= <- <-].
  - split; cbn; try done; [| rewrite Ha1; by apply Hk].
    eexists _, r0. eexists. split; [done |]. split; [rewrite Hl1; exact Hlog |]. split; [exact Hat |]. split; [done |].
    cbn [wr_inputs push_input]. rewrite (for_each_snoc _ _ _ _ _ Hin). cbn [replay_input]. rewrite Happ, Hm.
    split; [reflexivity |]. cbn. split_and!; [done | done |]. unfold s1.
    destruct (last events); [by apply lag_on_batch | done].
  - apply orb_false_iff in Hrec as [Hms Hreg]. apply negb_false_iff, bool_decide_eq_true in Hms as ->.
    apply committed_silent in Hm; [| done]. subst app. split; try done; [| rewrite Ha1; done].
    exists w, r0, r1. rewrite Hl1, Ha1. split_and!; try done. unfold s1. destruct (last events); [by apply lag_silent | done].
Qed.

(** What a log gives back. *)
Definition resumes (log : Bytes) (m : Moment) : Prop :=
  forall fresh current journaled, exists session delivery,
    store_resume (Some log) c fresh current journaled =
      Ok (session, mt_application m, delivery,
          mkRecovery (Some (dl_seen_through (mt_delivery m))) (owed (mt_delivery m)) (to_readmit journaled (mt_mapped m))) /\
    session = mkFixSession c (mt_session m) (Decoder_new (sc_wire_limits c)) /\ same_reports delivery (mt_delivery m).
Lemma log_resumes log tail rep m d :
  config_ok c -> torn SESSION_MAGIC tail -> log_reads log rep -> at_moment m rep ->
  session_ok c (mkFixSession c (mt_session m) d) -> resumes (log ++ tail) m.
Proof.
  intros Hc Ht Hl [A1 A2 A3 A4] Hs fresh current journaled. unfold store_resume. rewrite (log_reads_back _ _ _ Hl Ht).
  cbn [mbind result_bind]. rewrite A1. pose proof (session_restores c _ Hc Hs) as Hres. cbn [fs_snapshot] in Hres. rewrite Hres.
  cbn [map_err mbind result_bind]. rewrite A2, A4. do 2 eexists. split; [| split; [done | exact A3]].
  fold (owed (rp_delivery rep)). by rewrite (proj1 A3), (owed_same _ _ A3).
Qed.

(** The moments a write can leave are of sessions that restore. *)
Lemma leaves_resumes {A} D s session journaled s' (r : result LogError A) :
  config_ok c -> tracks D s session -> leaves D s session journaled s' r ->
  exists m, resumes (st_log s') m /\ restorable (mt_application m) /\ filed (mt_delivery m) /\
    session_ok c (mkFixSession c (mt_session m) (fs_decoder session)) /\
    if is_ok r then present journaled (moment s session) m else m = D \/ present journaled (moment s session) m.
Proof.
  intros Hc [_ Hs Hb _ Hr Hf [Hr0 Hf0]] (log & tail & rep & m & -> & Ht & Hl & Ha & Hm).
  assert (Hok : restorable (mt_application m) /\ filed (mt_delivery m) /\ session_ok c (mkFixSession c (mt_session m) (fs_decoder session)) /\
    if is_ok r then present journaled (moment s session) m else m = D \/ present journaled (moment s session) m).
  { assert (Hnow : forall m, present journaled (moment s session) m -> restorable (mt_application m) /\ filed (mt_delivery m) /\
      session_ok c (mkFixSession c (mt_session m) (fs_decoder session))).
    { intros m' [->| ->]; (split_and!; [done | done | by apply (snapshot_session_ok session)]). }
    destruct r as [a|e]; cbn [is_ok].
    - destruct Hm as (_ & Hm & _). destruct (Hnow m Hm) as (? & ? & ?). done.
    - destruct Hm as [->|Hm]; [by split_and!; try done; left |]. destruct (Hnow m Hm) as (? & ? & ?). split_and!; try done. by right. }
  exists m. destruct Hok as (? & ? & Hses & ?). split_and!; try done. by eapply log_resumes.
Qed.

Lemma open_tracks log fresh current journaled disk s session recovery :
  config_ok c -> (match log with None => restorable fresh | Some l => exists m, resumes l m /\ restorable (mt_application m) /\
    filed (mt_delivery m) /\ exists d, session_ok c (mkFixSession c (mt_session m) d) end) ->
  store_open log c fresh current journaled disk = Ok (s, session, recovery) -> tracks (moment s session) s session.
Proof.
  intros Hc Hlog. unfold store_open.
  destruct (store_resume log c fresh current journaled) as [[[[ses app] del] ry]|e] eqn:Hres; [| done]. cbn [mbind result_bind].
  assert (Hok : session_ok c ses /\ restorable app /\ filed del).
  { destruct log as [l|].
    - destruct Hlog as (m & Hm & Hr & Hf & d & Hs). destruct (Hm fresh current journaled) as (ses' & del' & Hres' & -> & Hsame).
      rewrite Hres in Hres'. injection Hres' as -> -> -> ->. split_and!; [| done | by eapply filed_same].
      eapply snapshot_session_ok; [exact Hs | done | done].
    - unfold store_resume in Hres. cbn [read_log mbind result_bind] in Hres.
      destruct (FixSession_new c) as [ses'|] eqn:Hn; [| done]. injection Hres as -> <- <- <-.
      destruct (new_session_ok c ses Hc Hn) as [Hs _]. split_and!; try done. }
  destruct Hok as (Hs & Hr & Hf).
  destruct (writer_checkpoint _ _ disk _) as [s1 [u|e]] eqn:Hck; [| done]. cbn. intros [= <- <- <-].
  apply checkpoint_outcome in Hck; [| done..]. by destruct Hck as [_ Ht].
Qed.

Lemma life_tracks D s session : config_ok c -> life D s session -> tracks D s session.
Proof.
  intros Hc. induction 1 as [ec epoch current journaled disk s session recovery H1 H2 H3 Ho
    |D s session call session' r _ IH Hrun|D s session message actor run_id correlation_id s' r _ IH Hrun
    |D s session actor events send_at s' messages _ IH Hrun|D s session now _ IH|D s session journaled disk s' _ IH Hrun
    |D s session journaled disk s1 r fresh current journaled' disk' s' session' recovery _ IH Hrun Ho].
  - eapply open_tracks; [done | | exact Ho]. split_and!; [by apply empty_sound | done | done].
  - destruct IH as [Hl Hs Hb Hg Hr Hf Hp]. pose proof (run_call_advances c call session Hc Hs) as Hw.
    pose proof (run_call_grows call session) as Hw'. unfold wp in Hw, Hw'. rewrite Hrun in Hw, Hw'.
    assert (Hs' : session_ok c session') by (destruct r; apply Hw).
    assert (Hg' : journal_grows (fs_snapshot session) (fs_snapshot session')) by (by destruct r).
    split; try done; [by apply (snapshot_session_ok _ _ Hb) | by etransitivity].
  - by eapply tracks_map.
  - by eapply tracks_committed.
  - destruct IH as [(w & r0 & r1 & Hw & Hlog & Hat & Hj & Hin & Happ & Hmap & Hlag) Hs Hb Hg Hr Hf Hp]. split; try done.
    + exists w, r0, r1. split_and!; try done. by apply lag_written.
    + by apply filed_on_written.
  - apply persist_outcome with (D := D) in Hrun as (_ & _ & _ & m & _ & _ & _ & _ & -> & _ & Ht); done.
  - apply persist_outcome with (D := D) in Hrun; [| done].
    apply leaves_resumes in Hrun as (m & Hm & Hr & Hf & Hs & _); [| done | done].
    eapply open_tracks; [done | | exact Ho]. exists m. eauto.
Qed.

(** C29: a FIX session resumes where its log left it. Take a session's store
    at any moment of its life: messages received and sent, application
    messages mapped, committed batches applied, reports written, records
    appended, log compacted, venue restarted, in any order. Let it persist
    once more, with the disk failing the write at any byte or losing the new
    checkpoint. Whatever that leaves, the log opens: when the write was
    acknowledged, on exactly the sequence numbers, resend journal, buffered
    messages and order manager of now, owing exactly the reports of applied
    batches that were not yet written and admitting again exactly the
    commands the origin does not hold; when it failed, on exactly that or on
    what was last made durable. *)
Theorem session_resumes D s session journaled disk s' r journaled' fresh current :
  config_ok c -> life D s session -> persist journaled session disk s = (s', r) ->
  (forall command, journaled command = true -> journaled' command = true) ->
  exists m, (m = moment s session \/ (is_ok r = false /\ m = D)) /\
  exists delivery, same_reports delivery (mt_delivery m) /\
    store_resume (Some (st_log s')) c fresh current journaled' =
    Ok (mkFixSession c (mt_session m) (Decoder_new (sc_wire_limits c)), mt_application m, delivery,
        mkRecovery (Some (dl_seen_through (mt_delivery m))) (owed (mt_delivery m)) (to_readmit journaled' (mt_mapped m))).
Proof.
  intros Hc Hlife Hrun Hj. apply life_tracks in Hlife; [| done]. apply persist_outcome with (D := D) in Hrun; [| done].
  apply leaves_resumes in Hrun as (m & Hm & _ & _ & _ & Hcase); [| done | done].
  destruct (Hm fresh current journaled') as (ses & del & Hres & -> & Hsame).
  assert (Hcut : forall l, to_readmit journaled' (to_readmit journaled l) = to_readmit journaled' l).
  { intros l. unfold to_readmit. induction l as [|x l IH]; [done |]. cbn. destruct (journaled (md_command x)) eqn:Hx; cbn.
    - by rewrite (Hj _ Hx).
    - by rewrite IH. }
  assert (Hnow : present journaled (moment s session) m \/ (is_ok r = false /\ m = D)) by (destruct (is_ok r); tauto).
  destruct Hnow as [[->| ->]|[Hr ->]].
  - exists (moment s session). split; [by left |]. by exists del.
  - exists (moment s session). split; [by left |]. exists del. split; [exact Hsame |]. rewrite Hres. cbn [mt_mapped]. by rewrite Hcut.
  - exists D. split; [by right |]. by exists del.
Qed.
End log.

(** ** A sample session

    A venue's session logs on, maps an order and applies the batch that
    accepts it; then its delta is cut after eleven bytes.  The codec knows the
    two records. *)
Module SampleLog.
Import SampleSessions.
#[export] Instance log_dictionary : FixDictionary := {|
  session_message := fun t => bool_decide (t ∈ [text "A"; text "0"; text "1"; text "2"; text "4"; text "5"]);
  application_message := fun t => bool_decide (t ∈ [text "D"; text "8"]);
  session_field := fun t => bool_decide (t ∈ [34; 49; 52; 56; 98; 108; 1137]);
  application_field := fun t => bool_decide (t ∈ [11; 38; 40; 44; 48; 54; 59; 207])
|}.
#[export] Existing Instance SampleRun.checksum.
#[export] Instance Unwritten_eq_dec : EqDecision Unwritten.
Proof. solve_decision. Defined.
#[export] Instance Input_eq_dec : EqDecision Input.
Proof. solve_decision. Defined.
#[export] Instance Mapped_eq_dec : EqDecision Mapped.
Proof. solve_decision. Defined.
#[export] Instance JournalEntry_eq_dec : EqDecision JournalEntry.
Proof. solve_decision. Defined.
#[export] Instance SessionSnapshot_eq_dec : EqDecision SessionSnapshot.
Proof. solve_decision. Defined.
#[export] Instance ExecutionConfig_eq_dec : EqDecision ExecutionConfig.
Proof. solve_decision. Defined.
#[export] Instance DesiredOrder_eq_dec : EqDecision DesiredOrder.
Proof. solve_decision. Defined.
#[export] Instance VenueReportKind_eq_dec : EqDecision VenueReportKind.
Proof. solve_decision. Defined.
#[export] Instance Reason_eq_dec : EqDecision Reason.
Proof. solve_decision. Defined.
#[export] Instance ManagedOrder_eq_dec : EqDecision ManagedOrder.
Proof. solve_decision. Defined.
#[export] Instance NormalizedVenueReport_eq_dec : EqDecision NormalizedVenueReport.
Proof. solve_decision. Defined.
#[export] Instance MarketObservation_eq_dec : EqDecision MarketObservation.
Proof. solve_decision. Defined.
#[export] Instance PositionProjection_eq_dec : EqDecision PositionProjection.
Proof. solve_decision. Defined.
#[export] Instance ExecutionSnapshot_eq_dec : EqDecision ExecutionSnapshot.
Proof. solve_decision. Defined.
#[export] Instance BuntingExecutionAdapter_eq_dec : EqDecision BuntingExecutionAdapter.
Proof. solve_decision. Defined.
#[export] Instance FixApplicationSnapshot_eq_dec : EqDecision FixApplicationSnapshot.
Proof. solve_decision. Defined.
#[export] Instance SessionCheckpoint_eq_dec : EqDecision SessionCheckpoint.
Proof. solve_decision. Defined.
#[export] Instance SessionDelta_eq_dec : EqDecision SessionDelta.
Proof. solve_decision. Defined.
#[export] Instance SessionRecord_eq_dec : EqDecision SessionRecord.
Proof. solve_decision. Defined.

Definition application : FixApplicationState := with_identity_epoch 1 (FixApplicationState_new ExecutionConfig_default).
Definition logged_on : FixSession := (run_call (ConnectedAt now 1) (SampleSessions.fresh venue_config)).1.
Definition first_record : SessionRecord :=
  checkpoint_record initial_snapshot application (delivery_at 0) [].
Definition bare : SessionStore :=
  mkSessionStore application (delivery_at 0) (Some (mkWriter ∅ [] [] 0 0)) [].
Definition order_request : FixMessage :=
  foldl (fun m f => message_push f.1 f.2 m) (FixMessage_new (text "D"))
    [(11, text "42"); (48, text "10"); (207, text "1"); (54, text "1"); (38, text "5"); (40, text "2"); (44, text "40"); (59, text "1")].
Definition no_command : Command := mkCommand 0 0 0 0 0 0 ResetKillSwitch.
Definition ordered : Command :=
  match (map_message order_request (log_context 2 7 9) application).2 with
  | Ok (FixApplicationRequest.Command command) => command | _ => no_command end.
Definition order_of : SubmitOrder :=
  match cmd_payload ordered with PSubmitOrderAtListing _ order => order | _ => mkSubmitOrder 0 0 0 Buy 0 Market false end.
Definition event (n : Z) (payload : EventPayload) : EventEnvelope := mkEventEnvelope EVENT_SCHEMA_VERSION 7 n n 0 2 1 1 None payload.
Definition batch : list EventEnvelope :=
  [event 1 (OrderReceived order_of (Some (mkListingKey 1 10))); event 2 (OrderAccepted (so_order_id order_of))].
Definition map_order (s : SessionStore) : SessionStore := (store_map_message order_request (log_context 2 7 9) s).1.
Definition apply_batch (s : SessionStore) : SessionStore := (store_committed 2 batch 500 s).1.
Definition second_record : SessionRecord :=
  delta_record (fs_snapshot logged_on) (values (ss_journal (fs_snapshot logged_on))) []
    (match st_writer (apply_batch (map_order bare)) with Some w => wr_inputs w | None => [] end)
    (st_delivery (apply_batch (map_order bare))).
Definition write_record (r : SessionRecord) : option Bytes :=
  if decide (r = first_record) then Some [1] else if decide (r = second_record) then Some [2] else None.
Definition parse_known (b : Bytes) : option SessionRecord :=
  if decide (b = [1]) then Some (as_read first_record) else if decide (b = [2]) then Some (as_read second_record) else None.
#[export] Program Instance log_codec : SessionCodec := {| json_record := write_record; parse_record := parse_known |}.
Next Obligation.
  intros r b. unfold write_record. destruct (decide (r = first_record)) as [->|_]; [by intros [= <-] |].
  destruct (decide (r = second_record)) as [->|_]; [by intros [= <-] | done].
Qed.
Definition whole : LogDisk := mkLogDisk None true true.
Definition cut : LogDisk := mkLogDisk (Some 11%nat) true true.
Definition none : Command -> bool := fun _ => false.
Definition opened : SessionStore :=
  match store_open None venue_config application 0 none whole with Ok (s, _, _) => s | Err _ => bare end.
Definition traded : SessionStore := apply_batch (map_order opened).
Definition torn_store : SessionStore := (persist none logged_on cut traded).1.
End SampleLog.

Section log_witness.
Import SampleSessions SampleLog.
Import (hints) SampleLog.

Lemma session_resumes_witness :
  is_ok (snd (persist none logged_on cut traded)) = false /\ is_ok (snd (persist none logged_on whole traded)) = true /\
  length (owed (st_delivery traded)) = 1%nat /\ length (mapped_by traded) = 1%nat /\
  exists m, (m = moment traded logged_on \/ m = moment opened (SampleSessions.fresh venue_config)) /\
  exists delivery, same_reports delivery (mt_delivery m) /\
    store_resume (Some (st_log torn_store)) venue_config application 0 none =
    Ok (mkFixSession venue_config (mt_session m) (Decoder_new (sc_wire_limits venue_config)), mt_application m, delivery,
        mkRecovery (Some (dl_seen_through (mt_delivery m))) (owed (mt_delivery m)) (to_readmit none (mt_mapped m))).
Proof.
  split; [vm_compute; reflexivity |]. split; [vm_compute; reflexivity |]. split; [vm_compute; reflexivity |]. split; [vm_compute; reflexivity |].
  destruct (session_resumes venue_config (moment opened (SampleSessions.fresh venue_config)) traded logged_on none cut
    torn_store (snd (persist none logged_on cut traded)) none application 0) as (m & Hm & Hres).
  - split; [vm_compute; reflexivity | split; vm_compute; discriminate].
  - eapply (life_committed _ _ _ _ 2 batch 500 _ (match snd (store_committed 2 batch 500 (map_order opened)) with Ok ms => ms | Err _ => [] end));
      [eapply (life_map _ _ _ _ order_request 2 7 9) |].
    + eapply (life_call _ _ _ _ (ConnectedAt now 1)); [| apply surjective_pairing].
      apply (life_fresh _ ExecutionConfig_default 1 0 none whole _ _ Recovery_default);
        [vm_compute; discriminate | vm_compute; discriminate | vm_compute; discriminate | vm_compute; reflexivity].
    + apply surjective_pairing.
    + vm_compute. reflexivity.
  - apply surjective_pairing.
  - intros command H. exact H.
  - exists m. split; [| exact Hres]. destruct Hm as [Hm|[_ Hm]]; [left | right]; exact Hm.
Defined.
End log_witness.
