(* ===== verification/Distributor.v ===== *)
(** * bunting-server: committed batches to every session

    Models the queues of [apps/bunting-server/src/distributor.rs]: the fanout
    of shared items to bounded queues, one per subscription, and the
    distributor of committed batches with the window a resuming session is
    served from.  A channel is shared between the fanout, which holds its
    sending end, and the subscription, which holds its receiving end and the
    overflow flag; both name it by the subscription's identity.  Wakers and
    poisoned locks are left out. *)

From S2P Require Import Prelude Ordered MarketTypes MarketEvents Latency Simulation Engine.
From S2P Require Import MarketFeed Application Competition Publishing.
#[local] Open Scope list_scope.

(** ** The fanout *)

Record Channel (T : Type) : Type := mkChannel {
  ch_items : list T;
  ch_overflowed : bool
}.
Arguments mkChannel {T}.
Arguments ch_items {T}.
Arguments ch_overflowed {T}.
(** [Fanout] and the channels of the living subscriptions. *)
Record Fanout (T : Type) : Type := mkFanout {
  fo_capacity : Z;
  fo_next_id : Z;
  fo_subscribers : gset Z;
  fo_channels : gmap Z (Channel T)
}.
Arguments mkFanout {T}.
Arguments fo_capacity {T}.
Arguments fo_next_id {T}.
Arguments fo_subscribers {T}.
Arguments fo_channels {T}.

Section fanout.
Context {T : Type}.

(** [Fanout::new] *)
Definition Fanout_new (capacity : Z) : Fanout T := mkFanout (Z.max capacity 1) 0 ∅ ∅.
(** [Fanout::subscribe] *)
Definition fanout_subscribe (f : Fanout T) : Fanout T * Z :=
  let id := fo_next_id f in
  (mkFanout (fo_capacity f) (wrapping_add U64 id 1) ({[id]} ∪ fo_subscribers f)
     (<[id := mkChannel [] false]> (fo_channels f)), id).
(** [SyncSender::try_send]: the channel after it, and whether to keep the
    subscriber. *)
Definition try_send (capacity : Z) (item : T) (ch : Channel T) : Channel T * bool :=
  if capacity <=? Z.of_nat (length (ch_items ch)) then (mkChannel (ch_items ch) true, false)
  else (mkChannel (ch_items ch ++ [item]) (ch_overflowed ch), true).
(** The subscribers [Fanout::send] retains; a channel without a receiving end
    is [Disconnected]. *)
Definition keeps_subscriber (item : T) (f : Fanout T) (id : Z) : bool :=
  match fo_channels f !! id with
  | Some ch => (try_send (fo_capacity f) item ch).2
  | None => false
  end.
(** [Fanout::send] *)
Definition fanout_send (item : T) (f : Fanout T) : Fanout T :=
  mkFanout (fo_capacity f) (fo_next_id f)
    (filter (fun id => keeps_subscriber item f id = true) (fo_subscribers f))
    (map_imap (fun id ch => Some (if bool_decide (id ∈ fo_subscribers f)
                                  then (try_send (fo_capacity f) item ch).1 else ch)) (fo_channels f)).
(** [Fanout::close_all] *)
Definition close_all (f : Fanout T) : Fanout T :=
  mkFanout (fo_capacity f) (fo_next_id f) ∅
    (map_imap (fun id ch => Some (if bool_decide (id ∈ fo_subscribers f)
                                  then mkChannel (ch_items ch) true else ch)) (fo_channels f)).
(** [Subscription::drain]; an error is the stream closed. *)
Definition subscription_drain (id : Z) (f : Fanout T) : Fanout T * result unit (list T) :=
  match fo_channels f !! id with
  | None => (f, Ok [])
  | Some ch =>
      if ch_overflowed ch then (f, Err tt)
      else (mkFanout (fo_capacity f) (fo_next_id f) (fo_subscribers f)
              (<[id := mkChannel [] false]> (fo_channels f)), Ok (ch_items ch))
  end.
(** [Drop for Subscription] *)
Definition subscription_drop (id : Z) (f : Fanout T) : Fanout T :=
  mkFanout (fo_capacity f) (fo_next_id f) (fo_subscribers f ∖ {[id]}) (delete id (fo_channels f)).

(** The life of one subscription: what was sent since it was made, what its
    drains have handed out, and whether the source closed all streams.  Other
    sessions subscribe, drain and leave in between. *)
Inductive stream (id : Z) : Fanout T -> list T -> list T -> bool -> Prop :=
  | stream_subscribed f f' :
      fanout_subscribe f = (f', id) -> stream id f' [] [] false
  | stream_sent f sent received closed item :
      stream id f sent received closed -> stream id (fanout_send item f) (sent ++ [item]) received closed
  | stream_drained f sent received closed f' items :
      stream id f sent received closed -> subscription_drain id f = (f', Ok items) ->
      stream id f' sent (received ++ items) closed
  | stream_closed f sent received closed :
      stream id f sent received closed -> stream id (close_all f) sent received true
  | stream_other_subscribed f sent received closed f' other :
      stream id f sent received closed -> fanout_subscribe f = (f', other) -> other <> id ->
      stream id f' sent received closed
  | stream_other_drained f sent received closed f' other r :
      stream id f sent received closed -> other <> id -> subscription_drain other f = (f', r) ->
      stream id f' sent received closed
  | stream_other_dropped f sent received closed other :
      stream id f sent received closed -> other <> id -> stream id (subscription_drop other f) sent received closed.

(** Either the subscription is registered and its channel holds exactly what
    it has not read, or it was cut off, and then for a reason. *)
Definition stream_ok (id : Z) (f : Fanout T) (sent received : list T) (closed : bool) : Prop :=
  exists ch, fo_channels f !! id = Some ch /\
  (if ch_overflowed ch
   then id ∉ fo_subscribers f /\
        (closed = true \/ fo_capacity f < Z.of_nat (length sent) - Z.of_nat (length received))
   else id ∈ fo_subscribers f /\ received ++ ch_items ch = sent).

Lemma stream_is_ok id f sent received closed :
  stream id f sent received closed -> stream_ok id f sent received closed.
Proof.
  unfold stream_ok. induction 1 as [f f' Hs|f s r c item _ (ch & Hch & IH)|f s r c f' items _ (ch & Hch & IH) Hd|f s r c _ (ch & Hch & IH)
    |f s r c f' other _ (ch & Hch & IH) Hs Hne|f s r c f' other x _ (ch & Hch & IH) Hne Hd|f s r c other _ (ch & Hch & IH) Hne].
  - unfold fanout_subscribe in Hs. injection Hs as <- <-. cbn. exists (mkChannel [] false). rewrite lookup_insert_eq. split; [done |].
    split; [set_solver | done].
  - unfold fanout_send. cbn [fo_channels fo_subscribers fo_capacity]. rewrite map_lookup_imap, Hch. cbn [mbind option_bind].
    destruct (ch_overflowed ch) eqn:Ho; destruct IH as [Hin IH].
    + rewrite bool_decide_false by done. exists ch. rewrite Ho. split; [done |].
      split; [by intros [_ ?]%elem_of_filter |]. destruct IH as [->|IH]; [by left | right]. rewrite length_app. simpl. lia.
    + rewrite bool_decide_true by done. unfold try_send. destruct (Z.leb_spec (fo_capacity f) (Z.of_nat (length (ch_items ch)))) as [Hfull|Hroom]; eexists; (split; [reflexivity |]); cbn.
      * rewrite elem_of_filter. unfold keeps_subscriber, try_send. rewrite Hch, (proj2 (Z.leb_le _ _) Hfull). split; [by intros [? _] |].
        right. rewrite <- IH, !length_app. simpl. lia.
      * rewrite Ho, elem_of_filter. unfold keeps_subscriber, try_send. rewrite Hch, (proj2 (Z.leb_gt _ _) Hroom). split; [done |].
        by rewrite app_assoc, IH.
  - unfold subscription_drain in Hd. rewrite Hch in Hd. destruct (ch_overflowed ch) eqn:Ho; [done |]. injection Hd as <- <-.
    cbn. exists (mkChannel [] false). rewrite lookup_insert_eq. split; [done |]. cbn. rewrite app_nil_r. exact IH.
  - unfold close_all. cbn [fo_channels fo_subscribers fo_capacity]. rewrite map_lookup_imap, Hch. cbn [mbind option_bind].
    eexists. split; [reflexivity |]. destruct (ch_overflowed ch) eqn:Ho; destruct IH as [Hin IH].
    + rewrite bool_decide_false by done. rewrite Ho. split; [set_solver | by left].
    + rewrite bool_decide_true by done. cbn. split; [set_solver | by left].
  - unfold fanout_subscribe in Hs. injection Hs as <- Hid. cbn. exists ch. rewrite lookup_insert_ne by congruence. split; [done |].
    destruct (ch_overflowed ch); destruct IH as [Hin IH]; (split; [set_solver | done]).
  - unfold subscription_drain in Hd. destruct (fo_channels f !! other) as [ch'|]; [| injection Hd as <- _; by exists ch].
    destruct (ch_overflowed ch'); injection Hd as <- _; [by exists ch |]. cbn. exists ch. by rewrite lookup_insert_ne.
  - cbn. exists ch. rewrite lookup_delete_ne by done. split; [done |].
    destruct (ch_overflowed ch); destruct IH as [Hin IH]; (split; [set_solver | done]).
Qed.

(** C17: a subscription never has a hole. At any point of its life, whatever
    other sessions do, a drain either hands out the rest of everything sent
    since the subscription was made, in order and each item once, or it fails;
    and it fails only when the source closed its streams or the session had
    let more items wait than its queue holds. *)
Theorem subscription_has_no_hole id f sent received closed f' r :
  stream id f sent received closed -> subscription_drain id f = (f', r) ->
  match r with
  | Ok items => received ++ items = sent
  | Err _ => closed = true \/ fo_capacity f < Z.of_nat (length sent) - Z.of_nat (length received)
  end.
Proof.
  intros (ch & Hch & Hok)%stream_is_ok. unfold subscription_drain. rewrite Hch.
  destruct (ch_overflowed ch); intros [= <- <-]; apply Hok.
Qed.
End fanout.

(** Two sessions share a queue of two items: one reads along, the other lets
    a third item find its queue full. *)
Section stream_witness.
#[local] Notation start := (fanout_subscribe (fanout_subscribe (Fanout_new (T := nat) 2)).1).1.
#[local] Notation sent_two := (fanout_send 8%nat (fanout_send 7%nat start)).

Lemma subscription_has_no_hole_witness :
  ([7%nat; 8%nat] ++ [9%nat] = [7; 8; 9]%nat) /\ (false = true \/ 2 < 3 - 0).
Proof.
  assert (H0 : stream 0 start [] [] false).
  { apply (stream_other_subscribed 0 (fanout_subscribe (Fanout_new (T := nat) 2)).1 [] [] false start 1);
      [apply (stream_subscribed 0 (Fanout_new (T := nat) 2)) | | lia]; reflexivity. }
  assert (H1 : stream 1 start [] [] false) by (apply (stream_subscribed 1 (fanout_subscribe (Fanout_new (T := nat) 2)).1); reflexivity).
  assert (H2 : stream 0 (fanout_send 9%nat (subscription_drain 0 sent_two).1) [7; 8; 9]%nat [7; 8]%nat false).
  { apply (stream_sent 0 _ [7; 8]%nat). eapply (stream_drained 0 sent_two [7; 8]%nat [] false _ [7; 8]%nat).
    - apply (stream_sent 0 _ [7%nat]), (stream_sent 0 _ []), H0.
    - vm_compute. reflexivity. }
  assert (H3 : stream 1 (fanout_send 9%nat (subscription_drain 0 sent_two).1) [7; 8; 9]%nat [] false).
  { apply (stream_sent 1 _ [7; 8]%nat). eapply (stream_other_drained 1 sent_two [7; 8]%nat [] false _ 0).
    - apply (stream_sent 1 _ [7%nat]), (stream_sent 1 _ []), H1.
    - lia.
    - vm_compute. reflexivity. }
  split.
  - eapply (subscription_has_no_hole 0 _ _ [7; 8]%nat false _ (Ok [9]%nat) H2). vm_compute. reflexivity.
  - eapply (subscription_has_no_hole 1 _ _ [] false _ (Err tt) H3). vm_compute. reflexivity.
Defined.
End stream_witness.

(** ** The distributor of committed batches *)

Record Committed : Type := mkCommitted {
  cm_durable_us : Z;
  cm_source : Endpoint;
  cm_events : list EventEnvelope;
  cm_ordinal : Z;
  cm_public : list PublicListingUpdate;
  cm_public_gaps : list ListingKey;
  cm_references : list (Z * Z);
  cm_deals : DealChanges
}.
(** What a public feed reads of it. *)
Definition public_part (b : Committed) : CommittedBatch :=
  mkCommittedBatch (cm_durable_us b) (cm_ordinal b) (cm_public b) (cm_public_gaps b).

(** [fn batch_source] *)
Definition event_listing (event : EventEnvelope) : option ListingKey :=
  match ev_payload event with
  | OrderReceived _ key | OrderRested _ _ _ key _ _ _ | OrderCanceled _ _ _ key _ _
  | TradeExecuted _ key _ _ _ _ _ _ _ _ => key
  | _ => None
  end.
Definition batch_source (admission : option AdmissionRecord) (events : list EventEnvelope) : Endpoint :=
  match admission with
  | Some admission => ar_destination admission
  | None => match head (omap event_listing events) with
            | Some key => Venue (lk_venue_id key)
            | None => Hub
            end
  end.

Definition first_sequence (events : list EventEnvelope) : option Z := ev_sequence <$> head events.
Definition last_sequence (events : list EventEnvelope) : option Z := ev_sequence <$> last events.

Record EventDistributor : Type := mkEventDistributor {
  ed_fanout : Fanout Committed;
  ed_published : Z;
  ed_retained : list Committed;
  ed_retain : Z
}.
Definition MAX_PENDING_BATCHES : Z := 4096.
Definition RETAINED_BATCHES : Z := 16384.
(** [EventDistributor::with_retention], [new] *)
Definition with_retention (capacity retain : Z) : EventDistributor := mkEventDistributor (Fanout_new capacity) 0 [] retain.
Definition EventDistributor_new (capacity : Z) : EventDistributor := with_retention capacity RETAINED_BATCHES.
(** [EventDistributor::publish] *)
Definition retain_batch (retain : Z) (batch : Committed) (retained : list Committed) : list Committed :=
  if 0 <? retain then (if retain <=? Z.of_nat (length retained) then tail retained else retained) ++ [batch]
  else retained.
Definition publish_committed (events : list EventEnvelope) (committed_us : Z) (source : Endpoint)
    (public : list PublicListingUpdate) (public_gaps : list ListingKey) (references : list (Z * Z)) (deals : DealChanges)
    (d : EventDistributor) : EventDistributor :=
  match events with
  | [] => d
  | _ =>
      let batch := mkCommitted committed_us source events (ed_published d) public public_gaps references deals in
      mkEventDistributor (fanout_send batch (ed_fanout d)) (wrapping_add U64 (ed_published d) 1)
        (retain_batch (ed_retain d) batch (ed_retained d)) (ed_retain d)
  end.

Module Resume.
Inductive Resume : Type :=
  | Replay (batches : list Committed)
  | Gap.
End Resume.
Export Resume (Resume).
(** [Option<u64>] compares [None] below every [Some]. *)
Definition some_le (after : Z) (last : option Z) : bool :=
  match last with Some last => after <=? last | None => false end.
Definition covered_from (d : EventDistributor) (after : Z) (current : option Z) : bool :=
  match batch ← head (ed_retained d); first_sequence (cm_events batch) with
  | Some oldest =>
      (oldest <=? saturating_add U64 after 1)
      && some_le after (batch ← last (ed_retained d); last_sequence (cm_events batch))
  | None => bool_decide (current = Some after)
  end.
Definition ends_after (after : Z) (events : list EventEnvelope) : bool :=
  match last_sequence events with Some sequence => after <? sequence | None => false end.
(** [EventDistributor::subscribe_resuming]; [current] is what the run's
    committed event sequence reads as under the lock. *)
Definition subscribe_resuming (after : Z) (current : option Z) (d : EventDistributor) : EventDistributor * Z * Resume :=
  let '(fanout, id) := fanout_subscribe (ed_fanout d) in
  (mkEventDistributor fanout (ed_published d) (ed_retained d) (ed_retain d), id,
   if covered_from d after current
   then Resume.Replay (filter (fun b => ends_after after (cm_events b) = true) (ed_retained d))
   else Resume.Gap).

(** ** What a resuming session is served *)

(** Batches in commit order: none is empty and their event sequences rise. *)
Definition batch_ok (events : list EventEnvelope) : Prop :=
  exists a z, first_sequence events = Some a /\ last_sequence events = Some z /\ 0 <= a <= z /\ z <= int_max U64.
Definition before (x y : list EventEnvelope) : Prop :=
  forall z a, last_sequence x = Some z -> first_sequence y = Some a -> z < a.
Definition in_order (batches : list (list EventEnvelope)) : Prop :=
  Forall batch_ok batches /\ StronglySorted before batches.
#[local] Notation missed after := (filter (fun events => ends_after after events = true)).

Lemma batches_in_order_app xs ys :
  in_order (xs ++ ys) -> in_order xs /\ in_order ys /\ forall x y, x ∈ xs -> y ∈ ys -> before x y.
Proof.
  intros [[Hx Hy]%Forall_app Hs]. induction xs as [|x xs IH]; simpl in *.
  - split_and!; [by split; [| constructor] | by split |]. by intros ? ? []%elem_of_nil.
  - apply Forall_cons in Hx as [H0 Hx]. apply StronglySorted_inv in Hs as [Hs Hall].
    destruct (IH Hx Hs) as ([_ H1] & H2 & H3). rewrite Forall_app in Hall. destruct Hall as [Ha Hb].
    split_and!; [split; [by constructor | by constructor] | done |].
    intros x' y [->|Hin]%elem_of_cons Hy'; [by apply (proj1 (Forall_forall _ _) Hb) | by apply H3].
Qed.

Lemma in_order_suffix xs ys : in_order (xs ++ ys) -> in_order ys.
Proof. intros (_ & ? & _)%batches_in_order_app. done. Qed.

Lemma not_after_none after batches :
  (forall x z, x ∈ batches -> last_sequence x = Some z -> z <= after) -> missed after batches = [].
Proof.
  intros H. apply filter_none, Forall_forall. intros x Hx Ha. unfold ends_after in Ha.
  destruct (last_sequence x) as [z|] eqn:Hz; [| done]. specialize (H x z Hx Hz). lia.
Qed.

(** A venue's distributor: started over what the journal holds, it is told
    each commit and serves subscriptions. *)
Inductive distributed : EventDistributor -> list (list EventEnvelope) -> Prop :=
  | distributed_started capacity retain journal : distributed (with_retention capacity retain) journal
  | distributed_published d journal events committed_us source public gaps references deals :
      distributed d journal -> events <> [] ->
      distributed (publish_committed events committed_us source public gaps references deals d) (journal ++ [events])
  | distributed_served d journal fanout :
      distributed d journal ->
      distributed (mkEventDistributor fanout (ed_published d) (ed_retained d) (ed_retain d)) journal.

(** What is retained is the end of what was committed. *)
Lemma retained_window d journal :
  distributed d journal ->
  (0 < ed_retain d \/ ed_retained d = []) /\ exists older, journal = older ++ (cm_events <$> ed_retained d).
Proof.
  induction 1 as [capacity retain journal|d journal events us source public gaps references deals _ [Hr (older & ->)] Hne|d journal fanout _ IH].
  - simpl. split; [by right | exists journal; by rewrite app_nil_r].
  - unfold publish_committed. destruct events as [|e events]; [done |]. set (es := e :: events) in *. cbn [ed_retain ed_retained].
    unfold retain_batch. destruct (Z.ltb_spec 0 (ed_retain d)) as [Hpos|Hneg].
    + split; [by left |]. destruct (ed_retain d <=? _); [| exists older; by rewrite fmap_app, app_assoc].
      destruct (ed_retained d) as [|b bs]; [exists older | exists (older ++ [cm_events b])];
        simpl; rewrite ?fmap_app, ?app_nil_r, <- ?app_assoc; done.
    + destruct Hr as [?|Hr]; [lia |]. rewrite Hr. split; [by right |]. exists (older ++ [es]). simpl. by rewrite !app_nil_r.
  - exact IH.
Qed.

(** The position the run reads as is that of the last commit. *)
Definition position_of (journal : list (list EventEnvelope)) (current : option Z) : Prop :=
  forall after, current = Some after -> missed after journal = [].

(** A replay is everything the session missed: the window is only used when
    it reaches back to the session's position. *)
Lemma replay_is_missed d journal after current :
  distributed d journal -> in_order journal -> position_of journal current -> 0 <= after <= int_max U64 ->
  covered_from d after current = true ->
  cm_events <$> filter (fun b => ends_after after (cm_events b) = true) (ed_retained d) = missed after journal.
Proof.
  intros [_ (older & ->)]%retained_window Hord Hpos Ha Hcov.
  assert (Hf : forall bs : list Committed, cm_events <$> filter (fun b => ends_after after (cm_events b) = true) bs
    = missed after (cm_events <$> bs)).
  { intros bs. induction bs as [|b bs IH]; [done |]. rewrite fmap_cons, !filter_cons.
    case_decide; [by rewrite fmap_cons, IH | done]. }
  rewrite Hf, filter_app. unfold covered_from in Hcov. destruct (ed_retained d) as [|b bs] eqn:Hret; simpl in Hcov.
  - rewrite bool_decide_eq_true in Hcov. apply Hpos in Hcov. by rewrite filter_app in Hcov; apply app_nil in Hcov as [-> ->].
  - destruct (first_sequence (cm_events b)) as [oldest|] eqn:Hfirst.
    + apply andb_true_iff in Hcov as [Hold _]. rewrite (not_after_none after older); [done |].
      intros x z Hx Hz. apply batches_in_order_app in Hord as (_ & _ & Hbefore).
      assert (Hlt : z < oldest) by (apply (Hbefore x (cm_events b) Hx); [left | done | done]).
      unfold saturating_add in Hold. lia.
    + rewrite bool_decide_eq_true in Hcov. apply Hpos in Hcov. rewrite filter_app in Hcov. by apply app_nil in Hcov as [-> ->].
Qed.
