(* ===== verification/Tape.v ===== *)
(** * The consolidated tape

    Models [apps/bunting-server/src/consolidated.rs], the processor at the
    hub that hears every venue's public changes and publishes one numbered
    stream per instrument, and [packages/bunting-client/src/tape.rs], the
    client's copy.  The delay of a venue's path is a method on a state [P]
    (the admission's latency model, whose jitter streams advance); [None] is
    its error.  The thread that runs the processor between two polls is left
    out. *)

From S2P Require Import Prelude Ordered MarketTypes MarketEvents Latency MarketFeed Publishing Distributor.
#[local] Open Scope list_scope.

(** ** The processor *)

(** [type Quote] *)
Definition Quote : Type := option (Z * Z).

(** [InFlight]: a venue's change on its way to the hub, or a skipped report
    with the rebuilt quotes. *)
Record InFlight : Type := mkInFlight {
  nf_listing_key : ListingKey;
  nf_trades : list (Z * Z);
  nf_best_bid : Quote;
  nf_best_ask : Quote;
  nf_gap : bool
}.
Module TapeFailure.
Inductive TapeFailure : Type := PathFailed | TooManyInFlight | QuotesNotRebuilt.
End TapeFailure.
Export TapeFailure (TapeFailure).
Record TapeState : Type := mkTapeState {
  ts_quotes : gmap ListingKey (Quote * Quote);
  ts_next_report : gmap Z Z;
  ts_in_flight : gmap (Z * Z * Z) InFlight;
  ts_failed : option TapeFailure
}.
Record ConsolidatedTape : Type := mkConsolidatedTape {
  ct_processing_us : Z;
  ct_capacity : Z;
  ct_state : TapeState;
  ct_fanout : Fanout TapeRecord
}.
Definition with_state (s : TapeState) (t : ConsolidatedTape) : ConsolidatedTape :=
  mkConsolidatedTape (ct_processing_us t) (ct_capacity t) s (ct_fanout t).
Definition with_quotes (quotes : gmap ListingKey (Quote * Quote)) (s : TapeState) : TapeState :=
  mkTapeState quotes (ts_next_report s) (ts_in_flight s) (ts_failed s).
Definition with_in_flight (in_flight : gmap (Z * Z * Z) InFlight) (s : TapeState) : TapeState :=
  mkTapeState (ts_quotes s) (ts_next_report s) in_flight (ts_failed s).

(** [ConsolidatedTape::new] *)
Definition ConsolidatedTape_new (processing_us capacity : Z) : ConsolidatedTape :=
  mkConsolidatedTape processing_us (Z.max capacity 1) (mkTapeState ∅ ∅ ∅ None) (Fanout_new capacity).
(** [ConsolidatedTape::subscribe] *)
Definition tape_subscribe (t : ConsolidatedTape) : ConsolidatedTape * result TapeFailure Z :=
  match ts_failed (ct_state t) with
  | Some reason => (t, Err reason)
  | None =>
      let '(fanout, id) := fanout_subscribe (ct_fanout t) in
      (mkConsolidatedTape (ct_processing_us t) (ct_capacity t) (ct_state t) fanout, Ok id)
  end.
(** [ConsolidatedTape::prime] *)
Definition prime (quotes : list (ListingKey * (Quote * Quote))) (t : ConsolidatedTape) : ConsolidatedTape :=
  with_state (with_quotes (foldl (fun known e => match known !! e.1 with
                                                 | Some _ => known
                                                 | None => <[e.1 := e.2]> known
                                                 end) (ts_quotes (ct_state t)) quotes) (ct_state t)) t.
(** [ConsolidatedTape::fail], [take_down] *)
Definition tape_fail (reason : TapeFailure) (t : ConsolidatedTape) : ConsolidatedTape :=
  mkConsolidatedTape (ct_processing_us t) (ct_capacity t)
    (mkTapeState (ts_quotes (ct_state t)) (ts_next_report (ct_state t)) ∅ (Some reason)) (close_all (ct_fanout t)).
Definition take_down (reason : TapeFailure) (t : ConsolidatedTape) : ConsolidatedTape :=
  match ts_failed (ct_state t) with Some _ => t | None => tape_fail reason t end.

Section hearing.
Context {P : Type} (delay_to_hub : Z -> P -> P * option Z).

(** The loops of [hear] and [hear_gap]. *)
Fixpoint start_changes (ordinal durable_us index : Z) (changes : list InFlight) (t : ConsolidatedTape) (paths : P)
    : ConsolidatedTape * P :=
  match changes with
  | [] => (t, paths)
  | change :: changes =>
      match delay_to_hub (lk_venue_id (nf_listing_key change)) paths with
      | (paths, None) => (tape_fail TapeFailure.PathFailed t, paths)
      | (paths, Some delay) =>
          if ct_capacity t <=? Z.of_nat (size (ts_in_flight (ct_state t)))
          then (tape_fail TapeFailure.TooManyInFlight t, paths)
          else
            let arrives := saturating_add U64 (saturating_add U64 durable_us delay) (ct_processing_us t) in
            start_changes ordinal durable_us (index + 1) changes
              (with_state (with_in_flight (<[(arrives, ordinal, index) := change]> (ts_in_flight (ct_state t)))
                             (ct_state t)) t) paths
      end
  end.
Definition heard_change (update : PublicListingUpdate) : InFlight :=
  mkInFlight (pu_listing_key update) ((fun trade => (pt_price trade, pt_quantity trade)) <$> pu_trades update)
    (pu_best_bid update) (pu_best_ask update) false.
Definition gap_change (rebuilt : ListingKey * (Quote * Quote)) : InFlight :=
  mkInFlight rebuilt.1 [] rebuilt.2.1 rebuilt.2.2 true.
Definition hear_changes (ordinal durable_us : Z) (changes : list InFlight) (t : ConsolidatedTape) (paths : P)
    : ConsolidatedTape * P :=
  match ts_failed (ct_state t) with
  | Some _ => (t, paths)
  | None => start_changes ordinal durable_us 0 changes t paths
  end.
(** [ConsolidatedTape::hear], [hear_gap] *)
Definition hear (ordinal durable_us : Z) (public : list PublicListingUpdate) : ConsolidatedTape -> P -> ConsolidatedTape * P :=
  hear_changes ordinal durable_us (heard_change <$> public).
Definition hear_gap (ordinal durable_us : Z) (rebuilt : list (ListingKey * (Quote * Quote)))
    : ConsolidatedTape -> P -> ConsolidatedTape * P :=
  hear_changes ordinal durable_us (gap_change <$> rebuilt).
End hearing.

(** One change of [release_locked]: the entries of a quote that moved, and the
    record of a change. *)
Definition quote_entry (key : ListingKey) (side : Side) (old new : Quote) : list (ListingKey * MarketDataIncrement) :=
  if bool_decide (old = new) then []
  else
    let '(action, (price, quantity)) :=
      match old, new with
      | _, None => (ActionDelete, (default 0 (fst <$> old), 0))
      | None, Some quote => (ActionNew, quote)
      | Some _, Some quote => (ActionChange, quote)
      end in
    [(key, IncrementLevel action side price quantity)].
Definition tape_change_entries (old : Quote * Quote) (change : InFlight) : list (ListingKey * MarketDataIncrement) :=
  let key := nf_listing_key change in
  ((fun trade => (key, IncrementTrade trade.1 trade.2 None None None)) <$> nf_trades change)
  ++ quote_entry key Buy old.1 (nf_best_bid change) ++ quote_entry key Sell old.2 (nf_best_ask change).
Definition next_report (s : TapeState) (instrument_id : Z) : Z := default 1 (ts_next_report s !! instrument_id).
Definition release_change (hub_us : Z) (change : InFlight) (s : TapeState) : TapeState * option TapeRecord :=
  let key := nf_listing_key change in
  let i := lk_instrument_id key in
  let quotes := <[key := (nf_best_bid change, nf_best_ask change)]> (ts_quotes s) in
  let numbered count := mkTapeState quotes (<[i := saturating_add U64 (next_report s i) count]> (ts_next_report s))
                          (ts_in_flight s) (ts_failed s) in
  if nf_gap change then (numbered 1, None)
  else
    match tape_change_entries (default (None, None) (ts_quotes s !! key)) change with
    | [] => (with_quotes quotes s, None)
    | moved => (numbered (Z.of_nat (length moved)), Some (mkTapeRecord hub_us i (next_report s i) moved))
    end.
(** [ConsolidatedTape::release_locked]: the records published and the next
    instant something is due.  Each turn removes one change. *)
Fixpoint release_loop (fuel : nat) (now_us : Z) (s : TapeState) : TapeState * list TapeRecord * option Z :=
  match fuel with
  | O => (s, [], None)
  | S fuel =>
      match first_entry (ts_in_flight s) with
      | None => (s, [], None)
      | Some (k, change) =>
          let hub_us := k.1.1 in
          if now_us <? hub_us then (s, [], Some hub_us)
          else
            let '(s, record) := release_change hub_us change (with_in_flight (delete k (ts_in_flight s)) s) in
            let '(s, records, due) := release_loop fuel now_us s in
            (s, option_list record ++ records, due)
      end
  end.
Definition release_due (now_us : Z) (s : TapeState) : TapeState * list TapeRecord * option Z :=
  release_loop (S (size (ts_in_flight s))) now_us s.
Definition release_locked (now_us : Z) (t : ConsolidatedTape) : ConsolidatedTape * option Z :=
  let '(s, records, due) := release_due now_us (ct_state t) in
  (mkConsolidatedTape (ct_processing_us t) (ct_capacity t) s (foldl (fun f record => fanout_send record f) (ct_fanout t) records), due).

Record VenueQuote : Type := mkVenueQuote {
  vq_listing_key : ListingKey;
  vq_side : Side;
  vq_price : Z;
  vq_quantity : Z
}.
(** [ConsolidatedTape::snapshot] *)
Definition side_quotes (key : ListingKey) (quotes : Quote * Quote) : list VenueQuote :=
  option_list ((fun q => mkVenueQuote key Buy q.1 q.2) <$> quotes.1)
  ++ option_list ((fun q => mkVenueQuote key Sell q.1 q.2) <$> quotes.2).
Definition venue_quotes (s : TapeState) (instrument_id : Z) : list VenueQuote :=
  filter (fun e => lk_instrument_id e.1 = instrument_id) (entries (ts_quotes s)) ≫= (fun e => side_quotes e.1 e.2).
Definition last_report (s : TapeState) (instrument_id : Z) : Z :=
  match ts_next_report s !! instrument_id with Some next => Z.max 0 (next - 1) | None => 0 end.
Definition tape_view (instrument_id now_us : Z) (t : ConsolidatedTape)
    : ConsolidatedTape * result TapeFailure (Z * list VenueQuote) :=
  let t := (release_locked now_us t).1 in
  (t, match ts_failed (ct_state t) with
      | Some reason => Err reason
      | None => Ok (last_report (ct_state t) instrument_id, venue_quotes (ct_state t) instrument_id)
      end).
(** [tape_snapshot_job] *)
Definition snapshot_message (request_id instrument_id last_report : Z) (quotes : list VenueQuote) : ServerMessage :=
  TapeSnapshot request_id instrument_id last_report
    ((fun q => mkTapeQuote (lk_venue_id (vq_listing_key q)) (vq_side q) (vq_price q) (vq_quantity q)) <$> quotes).
Definition tape_snapshot (request_id instrument_id now_us : Z) (t : ConsolidatedTape)
    : ConsolidatedTape * result TapeFailure (list ServerMessage) :=
  let '(t, view) := tape_view instrument_id now_us t in
  (t, '(last_report, quotes) ← view; Ok [snapshot_message request_id instrument_id last_report quotes]).

(** ** The client's copy *)

#[export] Instance Side_countable : Countable Side.
Proof.
  refine (inj_countable' (fun s => match s with Buy => true | Sell => false end)
                         (fun b : bool => if b then Buy else Sell) _).
  by intros [].
Defined.
Record TapeTrade : Type := mkTapeTrade { tt_venue_id : Z; tt_price : Z; tt_quantity : Z }.
Record TapeBook : Type := mkTapeBook {
  tb_request_id : Z;
  tb_instrument_id : option Z;
  tb_quotes : gmap (Z * Side) (Z * Z);
  tb_next_report : option Z;
  tb_trades : list TapeTrade
}.
(** [TapeBook::new] *)
Definition TapeBook_new (request_id : Z) : TapeBook := mkTapeBook request_id None ∅ None [].
(** One entry of an update; of a full list the oldest trade leaves first. *)
Definition keep_trade (trade : TapeTrade) (trades : list TapeTrade) : list TapeTrade :=
  (if MAX_TRADES <=? Z.of_nat (length trades) then tail trades else trades) ++ [trade].
Definition set_quote (venue_id : Z) (side : Side) (price quantity : Z) (quotes : gmap (Z * Side) (Z * Z))
    : gmap (Z * Side) (Z * Z) :=
  if quantity =? 0 then delete (venue_id, side) quotes else <[(venue_id, side) := (price, quantity)]> quotes.
Definition tape_entry (b : TapeBook) (e : TapeEntry) : TapeBook :=
  let quoted side := mkTapeBook (tb_request_id b) (tb_instrument_id b)
    (set_quote (te_venue_id e) side (te_price e) (te_quantity e) (tb_quotes b)) (tb_next_report b) (tb_trades b) in
  match te_kind e with
  | EntryTrade => mkTapeBook (tb_request_id b) (tb_instrument_id b) (tb_quotes b) (tb_next_report b)
                    (keep_trade (mkTapeTrade (te_venue_id e) (te_price e) (te_quantity e)) (tb_trades b))
  | EntryBid => quoted Buy
  | EntryAsk => quoted Sell
  end.
(** [TapeBook::apply] *)
Definition snapshot_quotes (quotes : list TapeQuote) : gmap (Z * Side) (Z * Z) :=
  foldl (fun m q => <[(tq_venue_id q, tq_side q) := (tq_price q, tq_quantity q)]> m) ∅ quotes.
Definition tape_book_apply (message : ServerMessage) : M TapeBook FeedError bool := fun b =>
  match message with
  | TapeSnapshot request_id instrument_id last_report quotes =>
      if request_id =? tb_request_id b
      then (mkTapeBook request_id (Some instrument_id) (snapshot_quotes quotes) (Some (saturating_add U64 last_report 1)) [], Ok true)
      else (b, Ok false)
  | TapeUpdate request_id instrument_id first_report entries =>
      if negb (request_id =? tb_request_id b) then (b, Ok false)
      else match tb_next_report b with
           | None => (b, Err FeedError.NoSnapshot)
           | Some expected =>
               if negb (bool_decide (tb_instrument_id b = Some instrument_id)) then (b, Err FeedError.WrongFeed)
               else if negb (first_report =? expected) then (b, Err (FeedError.Gap expected first_report))
               else
                 let b := foldl tape_entry b entries in
                 (mkTapeBook (tb_request_id b) (tb_instrument_id b) (tb_quotes b)
                    (Some (saturating_add U64 expected (Z.of_nat (length entries)))) (tb_trades b), Ok true)
           end
  | _ => (b, Ok false)
  end.
Definition tape_book_apply_all (messages : list ServerMessage) : M TapeBook FeedError unit :=
  for_each (fun message => tape_book_apply message;; mret tt) messages.
(** [TapeBook::quotes], [best]: the keys of the sort are distinct. *)
Definition quote_rank (side : Side) (q : Z * (Z * Z)) : Z * Z :=
  (match side with Buy => - q.2.1 | Sell => q.2.1 end, q.1).
Definition rank_le (side : Side) (a b : Z * (Z * Z)) : Prop := ord_le (quote_rank side a) (quote_rank side b).
#[export] Instance rank_le_dec side : RelDecision (rank_le side).
Proof. intros a b. unfold rank_le. apply ord_le_dec. Defined.
Definition book_quotes (b : TapeBook) (side : Side) : list (Z * (Z * Z)) :=
  merge_sort (rank_le side)
    (omap (fun e => if bool_decide (e.1.2 = side) then Some (e.1.1, e.2) else None) (map_to_list (tb_quotes b))).
Definition tape_best (b : TapeBook) (side : Side) : option (Z * (Z * Z)) := head (book_quotes b side).

(** ** The copy mirrors the processor *)

Definition processor_quote (s : TapeState) (instrument_id venue_id : Z) (side : Side) : Quote :=
  match ts_quotes s !! mkListingKey venue_id instrument_id with
  | Some quotes => match side with Buy => quotes.1 | Sell => quotes.2 end
  | None => None
  end.
(** No quote offers nothing: a quantity of zero is how an update removes one. *)
Definition quote_ok (q : Quote) : Prop := match q with Some (_, quantity) => quantity <> 0 | None => True end.
Record tape_ok (s : TapeState) : Prop := {
  to_quotes : map_Forall (fun _ qs => quote_ok qs.1 /\ quote_ok qs.2) (ts_quotes s);
  to_in_flight : map_Forall (fun _ change => quote_ok (nf_best_bid change) /\ quote_ok (nf_best_ask change)) (ts_in_flight s);
  to_reports : map_Forall (fun _ n => 1 <= n) (ts_next_report s)
}.
Record mirrors (i : Z) (s : TapeState) (b : TapeBook) : Prop := {
  mr_instrument : tb_instrument_id b = Some i;
  mr_next : tb_next_report b = Some (next_report s i);
  mr_quotes : forall venue side, tb_quotes b !! (venue, side) = processor_quote s i venue side
}.

(** The entries of a tape update as a client reads them. *)
Definition tape_entries (entries : list (ListingKey * MarketDataIncrement)) : list TapeEntry :=
  omap (fun e => (fun entry => mkTapeEntry (lk_venue_id e.1) (en_kind entry) (en_price entry) (en_quantity entry))
                 <$> level_entry e.2) entries.
Definition same_stream (b b' : TapeBook) : Prop :=
  tb_request_id b' = tb_request_id b /\ tb_instrument_id b' = tb_instrument_id b /\ tb_next_report b' = tb_next_report b.

Lemma tape_entries_same l : forall b, same_stream b (foldl tape_entry b l).
Proof.
  unfold same_stream. induction l as [|e l IH]; intros b; [done |]. simpl. destruct (IH (tape_entry b e)) as (-> & -> & ->).
  unfold tape_entry. by destruct (te_kind e).
Qed.
Lemma trade_entries_quotes key (trades : list (Z * Z)) : forall b,
  tb_quotes (foldl tape_entry b (tape_entries ((fun t => (key, IncrementTrade t.1 t.2 None None None)) <$> trades))) = tb_quotes b.
Proof. induction trades as [|t trades IH]; intros b; [done |]. simpl. by rewrite IH. Qed.

(** An entry of a moved quote makes the copy show the new quote. *)
Lemma quote_entry_sets key side old new b venue side' :
  quote_ok new -> tb_quotes b !! (lk_venue_id key, side) = old ->
  tb_quotes (foldl tape_entry b (tape_entries (quote_entry key side old new))) !! (venue, side')
  = if bool_decide ((venue, side') = (lk_venue_id key, side)) then new else tb_quotes b !! (venue, side').
Proof.
  intros Hok Hold. unfold quote_entry. case_bool_decide as He; [subst; cbn; case_bool_decide as Hk; congruence |].
  assert (Hset : forall action p n,
    tb_quotes (foldl tape_entry b (tape_entries [(key, IncrementLevel action side p n)])) =
    set_quote (lk_venue_id key) side p n (tb_quotes b)) by (intros; by destruct side).
  destruct new as [[p n]|]; [destruct old as [?|] | destruct old as [?|]; [| done]];
    rewrite Hset; unfold set_quote; simpl in *.
  1, 2: rewrite (proj2 (Z.eqb_neq n 0) Hok).
  all: case_bool_decide as Hk; [rewrite Hk | by rewrite ?lookup_insert_ne, ?lookup_delete_ne by congruence].
  all: first [apply lookup_insert_eq | apply lookup_delete_eq].
Qed.

(** What a client of the instrument's tape receives for a record. *)
Definition record_message (request_id : Z) (record : TapeRecord) : ServerMessage :=
  encode_increment request_id (KindTape (tr_instrument_id record))
    (mkRawIncrement (tr_first_report record) (tr_entries record)).

Lemma tape_entries_app xs ys : tape_entries (xs ++ ys) = tape_entries xs ++ tape_entries ys.
Proof. apply omap_app. Qed.
Lemma length_quote_entry key side old new : length (tape_entries (quote_entry key side old new)) = length (quote_entry key side old new).
Proof. unfold quote_entry. case_bool_decide; [done |]. by destruct old as [[]|], new as [[]|]. Qed.
Lemma length_change_entries old change : length (tape_entries (tape_change_entries old change)) = length (tape_change_entries old change).
Proof.
  unfold tape_change_entries. rewrite !tape_entries_app, !length_app, !length_quote_entry, length_fmap. f_equal.
  induction (nf_trades change) as [|t trades IH]; [done |]. simpl. f_equal. exact IH.
Qed.

Lemma default_side (o : option (Quote * Quote)) side :
  (match side with Buy => (default (None, None) o).1 | Sell => (default (None, None) o).2 end : Quote) =
  match o with Some quotes => match side with Buy => quotes.1 | Sell => quotes.2 end | None => None end.
Proof. by destruct o, side. Qed.

Lemma change_entries_show s change b :
  quote_ok (nf_best_bid change) -> quote_ok (nf_best_ask change) ->
  (forall venue side, tb_quotes b !! (venue, side) = processor_quote s (lk_instrument_id (nf_listing_key change)) venue side) ->
  forall s', ts_quotes s' = <[nf_listing_key change := (nf_best_bid change, nf_best_ask change)]> (ts_quotes s) ->
  forall venue side,
    tb_quotes (foldl tape_entry b (tape_entries (tape_change_entries (default (None, None) (ts_quotes s !! nf_listing_key change)) change)))
      !! (venue, side) = processor_quote s' (lk_instrument_id (nf_listing_key change)) venue side.
Proof.
  intros Hb Ha Hq s' Hs' venue side. destruct (nf_listing_key change) as [v i] eqn:Hkey. simpl in Hq |- *.
  unfold tape_change_entries. rewrite Hkey. rewrite !tape_entries_app, !foldl_app.
  set (b1 := foldl tape_entry b _). assert (H1 : tb_quotes b1 = tb_quotes b) by apply trade_entries_quotes.
  set (old := default (None, None) (ts_quotes s !! mkListingKey v i)).
  assert (Hold : forall side, tb_quotes b !! (v, side) = match side with Buy => old.1 | Sell => old.2 end).
  { intros sd. rewrite Hq. symmetry. apply default_side. }
  set (b2 := foldl tape_entry b1 _).
  assert (H2 : forall venue side, tb_quotes b2 !! (venue, side) =
    if bool_decide ((venue, side) = (v, Buy)) then nf_best_bid change else tb_quotes b !! (venue, side)).
  { intros ??. unfold b2. rewrite (quote_entry_sets _ Buy old.1); [by rewrite H1 | done |]. rewrite H1. apply (Hold Buy). }
  rewrite (quote_entry_sets _ Sell old.2); [| done | rewrite H2, bool_decide_false by done; apply (Hold Sell)].
  rewrite H2. unfold processor_quote. rewrite Hs'.
  destruct (decide (venue = v)) as [->|Hne].
  - rewrite lookup_insert_eq. destruct side; repeat case_bool_decide; try congruence; by cbn.
  - rewrite lookup_insert_ne by congruence. rewrite !bool_decide_false by (intros [= ?]; congruence). apply Hq.
Qed.

(** ** One released change *)

(** The copy is behind: a report it never saw was consumed. *)
Definition lags (i : Z) (s : TapeState) (b : TapeBook) : Prop :=
  tb_instrument_id b = Some i /\ exists n, tb_next_report b = Some n /\ n < next_report s i.

Lemma record_message_apply r b expected :
  tb_instrument_id b = Some (tr_instrument_id r) -> tb_next_report b = Some expected ->
  tape_book_apply (record_message (tb_request_id b) r) b =
  if tr_first_report r =? expected
  then let b' := foldl tape_entry b (tape_entries (tr_entries r)) in
       (mkTapeBook (tb_request_id b') (tb_instrument_id b') (tb_quotes b')
          (Some (saturating_add U64 expected (Z.of_nat (length (tape_entries (tr_entries r)))))) (tb_trades b'), Ok true)
  else (b, Err (FeedError.Gap expected (tr_first_report r))).
Proof.
  intros Hi Hn. unfold record_message, tape_book_apply. cbn [encode_increment ri_first_report ri_entries].
  rewrite Z.eqb_refl, Hn, Hi, bool_decide_true by done. cbn [negb]. by destruct (_ =? _).
Qed.

(** A change of another instrument changes nothing of this one. *)
Lemma release_change_other hub_us change s s' r i :
  release_change hub_us change s = (s', r) -> lk_instrument_id (nf_listing_key change) <> i ->
  next_report s' i = next_report s i /\ (forall venue side, processor_quote s' i venue side = processor_quote s i venue side) /\
  (forall record, r = Some record -> tr_instrument_id record <> i).
Proof.
  intros H Hne. assert (Hq : forall s', ts_quotes s' = <[nf_listing_key change := (nf_best_bid change, nf_best_ask change)]> (ts_quotes s) ->
    forall venue side, processor_quote s' i venue side = processor_quote s i venue side).
  { intros s1 Hs1 venue side. unfold processor_quote. rewrite Hs1. by rewrite lookup_insert_ne by (intros He; by rewrite He in Hne). }
  unfold release_change in H. destruct (nf_gap change); [| destruct (tape_change_entries _ _)]; injection H as <- <-;
    unfold next_report; cbn [ts_next_report]; rewrite ?lookup_insert_ne by done; split_and!; try done; try (by apply Hq).
  by intros record [= <-].
Qed.

(** A change of this instrument: a copy that mirrors the processor goes on to,
    unless a report was skipped; then the copy is behind. *)
Lemma release_change_mirrors hub_us change s s' r b :
  let i := lk_instrument_id (nf_listing_key change) in
  release_change hub_us change s = (s', r) ->
  quote_ok (nf_best_bid change) -> quote_ok (nf_best_ask change) -> mirrors i s b ->
  match r with
  | Some r => tr_instrument_id r = i /\ nf_gap change = false /\
      exists b', tape_book_apply (record_message (tb_request_id b) r) b = (b', Ok true) /\
                 tb_request_id b' = tb_request_id b /\ mirrors i s' b'
  | None => if nf_gap change then next_report s i < int_max U64 -> lags i s' b else mirrors i s' b
  end.
Proof.
  intros i H Hb Ha [Hi Hn Hq]. unfold release_change in H. fold i in H.
  pose proof (change_entries_show s change b Hb Ha Hq) as Hshow. fold i in Hshow. destruct (nf_gap change).
  { injection H as <- <-. intros Hmax. split; [done |]. exists (next_report s i). split; [done |].
    unfold next_report in *. cbn [ts_next_report]. rewrite lookup_insert_eq. unfold saturating_add.
    destruct (ts_next_report s !! i); simpl in *; lia. }
  pose proof (length_change_entries (default (None, None) (ts_quotes s !! nf_listing_key change)) change) as Hlen.
  destruct (tape_change_entries _ _) as [|e es] eqn:He; injection H as <- <-.
  - split; [done | done |]. intros venue side. by apply (Hshow (with_quotes _ s)).
  - split; [done |]. split; [done |]. rewrite (record_message_apply _ _ (next_report s i)) by done.
    cbn [tr_first_report tr_entries]. rewrite Z.eqb_refl, Hlen. cbv zeta. eexists. split; [reflexivity |].
    destruct (tape_entries_same (tape_entries (e :: es)) b) as (Hr & Hi' & _). split; [exact Hr |]. split.
    + cbn [tb_instrument_id]. by rewrite Hi'.
    + cbn [tb_next_report]. unfold next_report in *. cbn [ts_next_report]. by rewrite lookup_insert_eq.
    + cbn [tb_quotes]. apply Hshow. done.
Qed.

Lemma release_change_report hub_us change s s' r i :
  release_change hub_us change s = (s', r) -> next_report s' i < int_max U64 -> next_report s i <= next_report s' i.
Proof.
  intros H Hmax. destruct (decide (lk_instrument_id (nf_listing_key change) = i)) as [<-|Hne].
  - unfold release_change in H. unfold next_report in *.
    destruct (nf_gap change); [| destruct (tape_change_entries _ _)]; injection H as <- <-; cbn [ts_next_report with_quotes] in *;
      [| lia |]; rewrite lookup_insert_eq in *; unfold saturating_add in *; destruct (ts_next_report s !! _); simpl in *; lia.
  - destruct (release_change_other _ _ _ _ _ _ H Hne) as (-> & _). lia.
Qed.
Lemma release_change_ok hub_us change s s' r :
  release_change hub_us change s = (s', r) -> quote_ok (nf_best_bid change) /\ quote_ok (nf_best_ask change) ->
  tape_ok s -> tape_ok s' /\ ts_in_flight s' = ts_in_flight s.
Proof.
  intros H Hq [Hqs Hf Hr]. unfold release_change in H.
  assert (Hn : forall count, 0 <= count -> map_Forall (fun _ n => 1 <= n)
    (<[lk_instrument_id (nf_listing_key change) := saturating_add U64 (next_report s (lk_instrument_id (nf_listing_key change))) count]> (ts_next_report s))).
  { intros count Hc. apply map_Forall_insert_2; [| done]. unfold saturating_add, next_report.
    destruct (ts_next_report s !! _) as [n|] eqn:Hl; simpl; [apply Hr in Hl |]; change (int_max U64) with 18446744073709551615; lia. }
  destruct (nf_gap change); [| destruct (tape_change_entries _ _)]; injection H as <- <-; (split; [| done]);
    split; cbn [ts_quotes ts_in_flight ts_next_report with_quotes]; try done; try (by apply map_Forall_insert_2); apply Hn; lia.
Qed.

Lemma ord_le_time (k k' : Z * Z * Z) : ord_le k k' -> k.1.1 <= k'.1.1.
Proof.
  destruct k as [[a b] c], k' as [[a' b'] c']. intros [[Hab _]|[Hab _]]; simpl in Hab; [| by injection Hab as -> ->].
  destruct Hab as [[Hle _]|[He _]]; simpl in *; [done | by rewrite He].
Qed.
(** The first change in flight, when it is due. *)
Lemma release_loop_S fuel now s s' records due :
  release_loop (S fuel) now s = (s', records, due) ->
  (records = [] /\ s' = s /\ forall k, is_Some (ts_in_flight s !! k) -> now < k.1.1) \/
  exists k change s1 r records1,
    ts_in_flight s !! k = Some change /\ (forall k', is_Some (ts_in_flight s !! k') -> ord_le k k') /\ k.1.1 <= now /\
    release_change k.1.1 change (with_in_flight (delete k (ts_in_flight s)) s) = (s1, r) /\
    release_loop fuel now s1 = (s', records1, due) /\ records = option_list r ++ records1.
Proof.
  cbn [release_loop]. destruct (first_entry (ts_in_flight s)) as [[k change]|] eqn:Hf.
  - apply first_entry_Some in Hf as [Hk Hmin]. destruct (Z.ltb_spec now k.1.1) as [Hlt|Hle].
    + intros [= <- <- <-]. left. split_and!; [done | done |]. intros k' Hk'. apply Hmin, ord_le_time in Hk'. lia.
    + destruct (release_change _ _ _) as [s1 r] eqn:Hc. destruct (release_loop fuel now s1) as [[s2 rs] d] eqn:Hl.
      intros [= <- <- <-]. right. by exists k, change, s1, r, rs.
  - apply first_entry_None in Hf. intros [= <- <- <-]. left. split_and!; [done | done |]. rewrite Hf.
    intros k [? []%lookup_empty_Some].
Qed.

Lemma release_loop_report fuel : forall now s s' records due i,
  release_loop fuel now s = (s', records, due) -> next_report s' i < int_max U64 -> next_report s i <= next_report s' i.
Proof.
  induction fuel as [|fuel IH]; intros now s s' records due i H Hmax; [by injection H as <- _ _ |].
  apply release_loop_S in H as [(_ & -> & _)|(k & change & s1 & r & records1 & _ & _ & _ & Hc & Hl & _)]; [done |].
  pose proof (IH _ _ _ _ _ i Hl Hmax) as H1. apply (release_change_report _ _ _ _ _ i) in Hc; [| lia].
  change (next_report s i <= next_report s1 i) in Hc. lia.
Qed.

(** The messages a client of one instrument's tape gets of some records. *)
Definition tape_messages (request_id i : Z) (records : list TapeRecord) : list ServerMessage :=
  record_message request_id <$> filter (fun r => tr_instrument_id r = i) records.
Definition no_gap (i now : Z) (s : TapeState) : Prop :=
  forall k change, ts_in_flight s !! k = Some change -> k.1.1 <= now -> lk_instrument_id (nf_listing_key change) = i ->
    nf_gap change = false.

Lemma lags_refuses i s b r :
  lags i s b -> tr_instrument_id r = i -> tr_first_report r = next_report s i ->
  exists n m, tape_book_apply (record_message (tb_request_id b) r) b = (b, Err (FeedError.Gap n m)) /\ n < m.
Proof.
  intros (Hi & n & Hn & Hlt) Hr Hf. exists n, (next_report s i). split; [| done].
  rewrite (record_message_apply _ _ n) by congruence. rewrite Hf. by destruct (Z.eqb_spec (next_report s i) n); [lia |].
Qed.
Lemma tape_apply_cons m ms b :
  tape_book_apply_all (m :: ms) b =
  match tape_book_apply m b with
  | (b1, Ok _) => tape_book_apply_all ms b1
  | (b1, Err e) => (b1, Err e)
  end.
Proof. unfold tape_book_apply_all. cbn [for_each]. unfold mbind, M_bind. by destruct (tape_book_apply m b) as [b1 [x|e]]. Qed.
Lemma release_change_first hub_us change s s' r :
  release_change hub_us change s = (s', Some r) ->
  tr_instrument_id r = lk_instrument_id (nf_listing_key change) /\ tr_first_report r = next_report s (tr_instrument_id r).
Proof.
  unfold release_change. destruct (nf_gap change); [done |]. destruct (tape_change_entries _ _); [done |]. by intros [= <- <-].
Qed.

(** How one or more released changes may leave a copy. *)
Definition tape_follows (i : Z) (s s' : TapeState) (gaps : Prop) (b : TapeBook) (run : TapeBook * result FeedError unit) : Prop :=
  match run with
  | (b', Ok _) => tb_request_id b' = tb_request_id b /\ (mirrors i s' b' \/ lags i s' b') /\
                  (mirrors i s b -> ~ gaps -> mirrors i s' b')
  | (_, Err e) => (lags i s b \/ gaps) /\ exists n m, e = FeedError.Gap n m /\ n < m
  end.

Lemma release_step i hub_us change s s' r b :
  release_change hub_us change s = (s', r) -> quote_ok (nf_best_bid change) /\ quote_ok (nf_best_ask change) ->
  next_report s' i < int_max U64 -> mirrors i s b \/ lags i s b ->
  tape_follows i s s' (lk_instrument_id (nf_listing_key change) = i /\ nf_gap change = true) b
    (tape_book_apply_all (tape_messages (tb_request_id b) i (option_list r)) b).
Proof.
  intros H [Hqb Hqa] Hmax Hb. destruct (decide (lk_instrument_id (nf_listing_key change) = i)) as [Hi|Hne].
  - pose proof (release_change_report _ _ _ _ _ i H Hmax) as Hle. destruct r as [r|].
    + destruct (release_change_first _ _ _ _ _ H) as [Hr Hf]. unfold tape_messages. change (option_list (Some r)) with [r].
      rewrite filter_cons_True by congruence. rewrite filter_nil. cbn [fmap list_fmap]. rewrite tape_apply_cons.
      destruct Hb as [Hb|Hb].
      * pose proof (release_change_mirrors _ _ _ _ _ b H Hqb Hqa) as Hm. cbv zeta in Hm. rewrite Hi in Hm.
        destruct (Hm Hb) as (_ & Hg & b' & -> & Hreq & Hb'). cbn. split_and!; [done | by left | done].
      * destruct (lags_refuses i s b r Hb) as (n & m & -> & Hlt); [congruence | congruence |]. split; [by left | by exists n, m].
    + cbn. split; [done |]. destruct Hb as [Hb|Hb].
      * pose proof (release_change_mirrors _ _ _ _ _ b H Hqb Hqa) as Hm. cbv zeta in Hm. rewrite Hi in Hm. specialize (Hm Hb).
        destruct (nf_gap change); [split; [right; apply Hm; lia |] | by split; [left |]]. intros _ Hn. by destruct Hn.
      * split; [right |].
        -- destruct Hb as (? & n & ? & ?). split; [done |]. exists n. split; [done | lia].
        -- intros Hm. destruct Hb as (_ & n & Hn & Hlt), Hm as [_ Hn' _]. rewrite Hn in Hn'. injection Hn' as ->. lia.
  - destruct (release_change_other _ _ _ _ _ _ H Hne) as (Hn & Hq & Hr). unfold tape_messages.
    rewrite filter_none by (destruct r; repeat constructor; by apply Hr). cbn.
    assert (Hm : mirrors i s b -> mirrors i s' b).
    { intros [? ? ?]. split; [done | congruence |]. intros. by rewrite Hq. }
    split; [done |]. split; [| by intros ? _; apply Hm].
    destruct Hb as [Hb|(? & n & ? & ?)]; [left; by apply Hm | right]. split; [done |]. exists n. split; [done | lia].
Qed.

Lemma tape_messages_app request_id i xs ys :
  tape_messages request_id i (xs ++ ys) = tape_messages request_id i xs ++ tape_messages request_id i ys.
Proof. unfold tape_messages. by rewrite filter_app, fmap_app. Qed.
Lemma tape_apply_app ms1 : forall ms2 b,
  tape_book_apply_all (ms1 ++ ms2) b =
  match tape_book_apply_all ms1 b with
  | (b1, Ok _) => tape_book_apply_all ms2 b1
  | (b1, Err e) => (b1, Err e)
  end.
Proof.
  induction ms1 as [|m ms1 IH]; intros ms2 b; [done |]. rewrite <- app_comm_cons, !tape_apply_cons.
  destruct (tape_book_apply m b) as [b1 [x|e]]; [apply IH | done].
Qed.

(** Taking a change out of flight is not seen by a copy. *)
Lemma taken_mirrors i m s b : mirrors i (with_in_flight m s) b <-> mirrors i s b.
Proof. by split; intros [? ? ?]; split. Qed.
Lemma taken_follows i m s s' gaps b run : tape_follows i (with_in_flight m s) s' gaps b run -> tape_follows i s s' gaps b run.
Proof. unfold tape_follows. destruct run as [b' [u|e]]; rewrite ?taken_mirrors; done. Qed.

Lemma release_loop_ok fuel : forall now s s' records due,
  release_loop fuel now s = (s', records, due) -> tape_ok s -> tape_ok s'.
Proof.
  induction fuel as [|fuel IH]; intros now s s' records due H Hok; [by injection H as <- _ _ |].
  apply release_loop_S in H as [(_ & -> & _)|(k & change & s1 & r & records1 & Hk & _ & _ & Hc & Hl & _)]; [done |].
  apply (IH _ _ _ _ _ Hl). pose proof (to_in_flight _ Hok _ _ Hk) as Hq.
  destruct Hok as [? Hf ?]. eapply release_change_ok; [exact Hc | exact Hq |]. split; [done | by apply map_Forall_delete | done].
Qed.

Lemma release_loop_follows fuel : forall i now s s' records due b,
  release_loop fuel now s = (s', records, due) -> tape_ok s -> next_report s' i < int_max U64 ->
  mirrors i s b \/ lags i s b ->
  tape_follows i s s' (~ no_gap i now s) b (tape_book_apply_all (tape_messages (tb_request_id b) i records) b).
Proof.
  induction fuel as [|fuel IH]; intros i now s s' records due b H Hok Hmax Hb; [by injection H as <- <- <- |].
  apply release_loop_S in H as [(-> & -> & _)|(k & change & s1 & r & records1 & Hk & _ & Hdue & Hc & Hl & ->)]; [done |].
  set (s0 := with_in_flight (delete k (ts_in_flight s)) s) in *.
  assert (Hok0 : tape_ok s0) by (destruct Hok as [? Hf ?]; split; [done | by apply map_Forall_delete | done]).
  pose proof (to_in_flight _ Hok _ _ Hk) as Hq. destruct (release_change_ok _ _ _ _ _ Hc Hq Hok0) as [Hok1 Hfl].
  pose proof (release_loop_report _ _ _ _ _ _ i Hl Hmax) as Hle.
  assert (Hstep : tape_follows i s s1 (lk_instrument_id (nf_listing_key change) = i /\ nf_gap change = true) b
    (tape_book_apply_all (tape_messages (tb_request_id b) i (option_list r)) b)).
  { eapply taken_follows, release_step; [exact Hc | exact Hq | lia |]. by rewrite taken_mirrors. }
  rewrite tape_messages_app, tape_apply_app.
  assert (Hsub : no_gap i now s -> no_gap i now s1).
  { intros Hn k' ch Hk'. rewrite Hfl in Hk'. cbn in Hk'. apply lookup_delete_Some in Hk' as [_ Hk']. by apply Hn. }
  assert (Hgap : lk_instrument_id (nf_listing_key change) = i /\ nf_gap change = true -> ~ no_gap i now s).
  { intros [Hi Hg] Hn. specialize (Hn k change Hk Hdue Hi). congruence. }
  destruct (tape_book_apply_all (tape_messages (tb_request_id b) i (option_list r)) b) as [b1 [[]|e]].
  - destruct Hstep as (Hreq & Hb1 & Hm1). pose proof (IH i now s1 s' records1 due b1 Hl Hok1 Hmax Hb1) as Hrest.
    rewrite Hreq in Hrest.
    destruct (tape_book_apply_all (tape_messages (tb_request_id b) i records1) b1) as [b2 [[]|e]].
    + destruct Hrest as (Hreq2 & Hb2 & Hm2). split_and!; [congruence | done |].
      intros Hm Hng. apply Hm2; [apply Hm1; [done |] | intros Hn; apply Hng; intros Hn'; by apply Hn, Hsub].
      intros Hg. by apply Hng, Hgap.
    + destruct Hrest as [Hwhy He]. split; [| done]. destruct Hwhy as [Hlag|Hwhy]; [| right; intros Hn; by apply Hwhy, Hsub].
      destruct Hb as [Hb|Hb]; [right | by left]. intros Hn. assert (Hmir : mirrors i s1 b1).
      { apply Hm1; [done |]. intros Hg. by apply (Hgap Hg). }
      destruct Hlag as (_ & n & Hn1 & Hlt), Hmir as [_ Hn2 _]. rewrite Hn1 in Hn2. injection Hn2 as ->. lia.
  - destruct Hstep as [Hwhy He]. split; [| done]. destruct Hwhy as [?|Hg]; [by left | right; by apply Hgap].
Qed.

(** ** A snapshot and what follows it *)

Definition quote_key (q : TapeQuote) : Z * Side := (tq_venue_id q, tq_side q).
Lemma snapshot_lookup l k (o : Quote) :
  (forall q, q ∈ l -> quote_key q = k -> o = Some (tq_price q, tq_quantity q)) ->
  (forall x, o = Some x -> exists q, q ∈ l /\ quote_key q = k) -> snapshot_quotes l !! k = o.
Proof.
  unfold snapshot_quotes. induction l as [|q l IH] using rev_ind; intros H1 H2.
  - destruct o as [x|]; [| done]. by destruct (H2 x eq_refl) as (q & []%elem_of_nil & _).
  - rewrite foldl_snoc. fold (quote_key q). destruct (decide (quote_key q = k)) as [<-|Hne].
    + rewrite lookup_insert_eq. symmetry. apply (H1 q); [| done]. apply elem_of_app. right. by left.
    + rewrite lookup_insert_ne by done. apply IH.
      * intros q' Hq'. apply H1, elem_of_app. by left.
      * intros x Hx. destruct (H2 x Hx) as (q' & Hq' & Hk). exists q'. split; [| done].
        apply elem_of_app in Hq' as [?|Hq']; [done |]. apply list_elem_of_singleton in Hq'. congruence.
Qed.

Definition wire_quote (q : VenueQuote) : TapeQuote :=
  mkTapeQuote (lk_venue_id (vq_listing_key q)) (vq_side q) (vq_price q) (vq_quantity q).
Lemma elem_of_venue_quotes s i q :
  q ∈ venue_quotes s i <->
  lk_instrument_id (vq_listing_key q) = i /\
  processor_quote s i (lk_venue_id (vq_listing_key q)) (vq_side q) = Some (vq_price q, vq_quantity q).
Proof.
  unfold venue_quotes, processor_quote. rewrite list_elem_of_bind. split.
  - intros ([key [bid ask]] & Hq & [Hi Hin%elem_of_entries]%list_elem_of_filter). simpl in *.
    assert (Hk : mkListingKey (lk_venue_id key) i = key) by (destruct key; simpl in *; by subst).
    unfold side_quotes in Hq. simpl in Hq. apply elem_of_app in Hq as [Hq|Hq].
    + destruct bid as [[p n]|]; [| by apply elem_of_nil in Hq]. apply list_elem_of_singleton in Hq as ->. simpl. by rewrite Hk, Hin.
    + destruct ask as [[p n]|]; [| by apply elem_of_nil in Hq]. apply list_elem_of_singleton in Hq as ->. simpl. by rewrite Hk, Hin.
  - destruct q as [key side p n]. simpl. intros [<- H]. assert (Hk : mkListingKey (lk_venue_id key) (lk_instrument_id key) = key) by by destruct key.
    rewrite Hk in H. destruct (ts_quotes s !! key) as [qs|] eqn:Hl; [| done]. simpl in H.
    exists (key, qs). split; [| apply list_elem_of_filter; split; [done | by apply elem_of_entries]].
    unfold side_quotes. apply elem_of_app. cbn [fst snd]. destruct side; rewrite H; [left | right]; by left.
Qed.

Lemma snapshot_mirrors id i s b :
  tape_ok s -> next_report s i < int_max U64 -> tb_request_id b = id ->
  exists b', tape_book_apply (snapshot_message id i (last_report s i) (venue_quotes s i)) b = (b', Ok true) /\
             tb_request_id b' = id /\ mirrors i s b'.
Proof.
  intros Hok Hmax Hid. unfold tape_book_apply, snapshot_message. rewrite Hid, Z.eqb_refl. eexists. split; [reflexivity |].
  split; [done |]. split; [done | |].
  - cbn [tb_next_report]. unfold last_report, next_report, saturating_add in *. f_equal.
    destruct (ts_next_report s !! i) as [n|] eqn:Hn; simpl in *; [| done]. apply (to_reports _ Hok) in Hn. lia.
  - intros venue side. cbn [tb_quotes]. apply snapshot_lookup.
    + intros q' (q & -> & [Hi Hq]%elem_of_venue_quotes)%list_elem_of_fmap [= <- <-]. exact Hq.
    + intros [p n] Hx. exists (wire_quote (mkVenueQuote (mkListingKey venue i) side p n)). split; [| done].
      apply list_elem_of_fmap. eexists. split; [reflexivity |]. by apply elem_of_venue_quotes.
Qed.

(** The processor from one moment on: it hears more changes and releases
    those that are due.  [clean] promises that no report of the instrument is
    skipped. *)
Inductive tape_life {P} (delay_to_hub : Z -> P -> P * option Z) (i : Z) (clean : bool) (t0 : ConsolidatedTape)
    : ConsolidatedTape -> list TapeRecord -> Prop :=
  | life_start : tape_life delay_to_hub i clean t0 t0 []
  | life_hear t records ordinal durable_us changes paths t' paths' :
      tape_life delay_to_hub i clean t0 t records ->
      Forall (fun change => quote_ok (nf_best_bid change) /\ quote_ok (nf_best_ask change)) changes ->
      hear_changes delay_to_hub ordinal durable_us changes t paths = (t', paths') ->
      tape_life delay_to_hub i clean t0 t' records
  | life_release t records now_us s released due fanout :
      tape_life delay_to_hub i clean t0 t records ->
      release_due now_us (ct_state t) = (s, released, due) ->
      (clean = true -> no_gap i now_us (ct_state t)) ->
      tape_life delay_to_hub i clean t0 (mkConsolidatedTape (ct_processing_us t) (ct_capacity t) s fanout) (records ++ released).

(** Hearing changes moves neither the quotes nor the numbers. *)
Lemma start_changes_keeps {P} (delay_to_hub : Z -> P -> P * option Z) ordinal durable_us changes : forall index t paths t' paths',
  start_changes delay_to_hub ordinal durable_us index changes t paths = (t', paths') ->
  Forall (fun change => quote_ok (nf_best_bid change) /\ quote_ok (nf_best_ask change)) changes ->
  (tape_ok (ct_state t) -> tape_ok (ct_state t')) /\ ts_quotes (ct_state t') = ts_quotes (ct_state t) /\
  ts_next_report (ct_state t') = ts_next_report (ct_state t).
Proof.
  induction changes as [|change changes IH]; intros index t paths t' paths' H Hc; simpl in H; [by injection H as <- _ |].
  apply Forall_cons in Hc as [Hq Hc].
  assert (Hfail : forall reason, (tape_ok (ct_state t) -> tape_ok (ct_state (tape_fail reason t))) /\ ts_quotes (ct_state (tape_fail reason t)) = ts_quotes (ct_state t) /\
    ts_next_report (ct_state (tape_fail reason t)) = ts_next_report (ct_state t)).
  { intros reason. split; [| done]. intros [? ? ?]. split; cbn; [done | apply map_Forall_empty | done]. }
  destruct (delay_to_hub _ paths) as [paths1 [delay|]]; [| by injection H as <- _].
  destruct (_ <=? _); [by injection H as <- _ |].
  destruct (IH _ _ _ _ _ H Hc) as (Hok' & -> & ->). split; [| done]. intros [? ? ?]. apply Hok'.
  split; cbn; [done | | done]. by apply map_Forall_insert_2.
Qed.
Lemma hear_changes_keeps {P} (delay_to_hub : Z -> P -> P * option Z) ordinal durable_us changes t paths t' paths' :
  hear_changes delay_to_hub ordinal durable_us changes t paths = (t', paths') ->
  Forall (fun change => quote_ok (nf_best_bid change) /\ quote_ok (nf_best_ask change)) changes ->
  (tape_ok (ct_state t) -> tape_ok (ct_state t')) /\ ts_quotes (ct_state t') = ts_quotes (ct_state t) /\
  ts_next_report (ct_state t') = ts_next_report (ct_state t).
Proof.
  unfold hear_changes. destruct (ts_failed _); [by intros [= <- _] | apply start_changes_keeps].
Qed.
Lemma same_view_mirrors i s s' b :
  ts_quotes s' = ts_quotes s -> ts_next_report s' = ts_next_report s -> mirrors i s b -> mirrors i s' b.
Proof.
  intros Hq Hn [H1 H2 H3]. split; [done | by unfold next_report in *; rewrite Hn |].
  intros. rewrite H3. unfold processor_quote. by rewrite Hq.
Qed.

Lemma tape_life_ok {P} (delay_to_hub : Z -> P -> P * option Z) i clean t0 t records :
  tape_life delay_to_hub i clean t0 t records -> tape_ok (ct_state t0) -> tape_ok (ct_state t).
Proof.
  intros Hlife Hok. induction Hlife as [|t records ordinal us changes paths t' paths' _ IH Hc Hh|t records now s released due fanout _ IH Hr Hclean]; [done | |].
  - by eapply hear_changes_keeps.
  - by eapply release_loop_ok.
Qed.
Lemma tape_life_copy {P} (delay_to_hub : Z -> P -> P * option Z) i clean t0 t records b0 :
  tape_life delay_to_hub i clean t0 t records -> tape_ok (ct_state t0) -> mirrors i (ct_state t0) b0 ->
  next_report (ct_state t) i < int_max U64 ->
  match tape_book_apply_all (tape_messages (tb_request_id b0) i records) b0 with
  | (b, Ok _) => tb_request_id b = tb_request_id b0 /\ (mirrors i (ct_state t) b \/ lags i (ct_state t) b) /\
                 (clean = true -> mirrors i (ct_state t) b)
  | (_, Err e) => clean = false /\ exists n m, e = FeedError.Gap n m /\ n < m
  end.
Proof.
  intros Hlife Hok0 Hb0. induction Hlife as [|t records ordinal us changes paths t' paths' _ IH Hc Hh|t records now s released due fanout Hlife IH Hr Hclean]; intros Hmax.
  - cbn. split_and!; [done | by left | done].
  - destruct (hear_changes_keeps _ _ _ _ _ _ _ _ Hh Hc) as (_ & Hq & Hn).
    assert (Hm : forall b, mirrors i (ct_state t) b -> mirrors i (ct_state t') b) by (intros b; by apply same_view_mirrors).
    unfold next_report in Hmax. rewrite Hn in Hmax. specialize (IH Hmax).
    destruct (tape_book_apply_all _ b0) as [b [[]|e]]; [| done]. destruct IH as (Hr & Hb & Hcl). split_and!; [done | | by eauto].
    destruct Hb as [Hb|Hb]; [left; by apply Hm | right]. unfold lags, next_report in *. by rewrite Hn.
  - pose proof (release_loop_report _ _ _ _ _ _ i Hr Hmax) as Hle. cbn [ct_state] in *. specialize (IH ltac:(lia)).
    rewrite tape_messages_app, tape_apply_app. destruct (tape_book_apply_all (tape_messages (tb_request_id b0) i records) b0) as [b [[]|e]]; [| done].
    destruct IH as (Hreq & Hb & Hcl).
    pose proof (release_loop_follows _ i _ _ _ _ _ b Hr (tape_life_ok _ _ _ _ _ _ Hlife Hok0) Hmax Hb) as Hf. rewrite Hreq in Hf.
    destruct (tape_book_apply_all (tape_messages (tb_request_id b0) i released) b) as [b' [[]|e]].
    + destruct Hf as (Hreq' & Hb' & Hm). split_and!; [congruence | done |]. intros Hc. apply Hm; [by apply Hcl | intros Hn; by apply Hn, Hclean].
    + destruct Hf as [Hwhy He]. split; [| done]. destruct clean; [exfalso | done].
      destruct Hwhy as [Hlag|Hn]; [| by apply Hn, Hclean].
      destruct (Hcl eq_refl) as [_ Hn2 _], Hlag as (_ & n & Hn1 & Hlt). rewrite Hn1 in Hn2. injection Hn2 as ->. lia.
Qed.

(** C18: a client of the consolidated tape sees every venue's quote, or
    learns that it does not. A copy made from a snapshot of the processor at
    the hub, fed the records published since then in order while the
    processor goes on hearing and releasing changes, shows for every venue
    exactly the best bid and offer the processor holds, as long as no report
    of the instrument was skipped. When one was, the copy either refuses the
    next update as a gap, or no update has come since and its number is
    behind the processor's. *)
Theorem tape_copy_mirrors_processor {P} (delay_to_hub : Z -> P -> P * option Z) id i now_us t0 t1 messages clean t records :
  tape_ok (ct_state t0) ->
  tape_snapshot id i now_us t0 = (t1, Ok messages) ->
  tape_life delay_to_hub i clean t1 t records ->
  next_report (ct_state t) i < int_max U64 ->
  match tape_book_apply_all (messages ++ tape_messages id i records) (TapeBook_new id) with
  | (b, Ok _) => (mirrors i (ct_state t) b \/ lags i (ct_state t) b) /\ (clean = true -> mirrors i (ct_state t) b)
  | (_, Err e) => clean = false /\ exists n m, e = FeedError.Gap n m /\ n < m
  end.
Proof.
  intros Hok Hsnap Hlife Hmax. unfold tape_snapshot, tape_view in Hsnap. unfold release_locked in Hsnap.
  destruct (release_due now_us (ct_state t0)) as [[s rs] due] eqn:Hr. cbn [fst ct_state] in Hsnap.
  destruct (ts_failed s); [done |]. injection Hsnap as <- <-. unfold release_due in Hr. apply release_loop_ok in Hr as Hok1; [| done].
  assert (Hmax1 : next_report s i < int_max U64).
  { assert (Hle : next_report s i <= next_report (ct_state t) i); [| lia]. clear Hok Hr Hok1.
    induction Hlife as [|t records ordinal us changes paths t' paths' _ IH Hc Hh|t records now s' released due' fanout _ IH Hr _]; [done | |].
    - destruct (hear_changes_keeps _ _ _ _ _ _ _ _ Hh Hc) as (_ & _ & Hn). unfold next_report in *. rewrite Hn in *. by apply IH.
    - pose proof (release_loop_report _ _ _ _ _ _ i Hr Hmax). cbn [ct_state] in *. assert (next_report s i <= next_report (ct_state t) i) by (apply IH; lia). lia. }
  destruct (snapshot_mirrors id i s (TapeBook_new id) Hok1 Hmax1 eq_refl) as (b0 & Hb0 & Hid & Hm).
  cbn [app]. rewrite tape_apply_cons, Hb0. pose proof (tape_life_copy _ _ _ _ _ _ b0 Hlife Hok1 Hm Hmax) as H. rewrite Hid in H.
  destruct (tape_book_apply_all _ b0) as [b [[]|e]]; [by destruct H as (_ & ? & ?) | done].
Qed.

(** ** Over steady paths the processor catches up with every venue *)


Definition bests (change : InFlight) : Quote * Quote := (nf_best_bid change, nf_best_ask change).
Definition note_changes (changes : list InFlight) (latest : gmap ListingKey (Quote * Quote)) : gmap ListingKey (Quote * Quote) :=
  foldl (fun m change => <[nf_listing_key change := bests change]> m) latest changes.

Section steady.
Context {P : Type} (delay_to_hub : Z -> P -> P * option Z) (d : Z -> Z).

(** The processor's life over paths whose delays do not vary, with what each
    listing last announced and the ordinal and time of the last commit. *)
Inductive steady_life : ConsolidatedTape -> gmap ListingKey (Quote * Quote) -> Z -> Z -> Prop :=
  | steady_start t ordinal :
      ts_in_flight (ct_state t) = ∅ -> steady_life t (ts_quotes (ct_state t)) ordinal 0
  | steady_hear t latest ordinal us ordinal' us' changes paths t' paths' :
      steady_life t latest ordinal us -> ordinal < ordinal' -> us <= us' ->
      ts_failed (ct_state t) = None -> hear_changes delay_to_hub ordinal' us' changes t paths = (t', paths') ->
      ts_failed (ct_state t') = None ->
      steady_life t' (note_changes changes latest) ordinal' us'
  | steady_release t latest ordinal us now s records due fanout :
      steady_life t latest ordinal us -> release_due now (ct_state t) = (s, records, due) ->
      steady_life (mkConsolidatedTape (ct_processing_us t) (ct_capacity t) s fanout) latest ordinal us.

(** What is in flight arrives no later than a change of this moment would, and
    was heard before it. *)
Definition arrival (t : ConsolidatedTape) (us : Z) (change : InFlight) : Z :=
  saturating_add U64 (saturating_add U64 us (d (lk_venue_id (nf_listing_key change)))) (ct_processing_us t).
Record catching_up (t : ConsolidatedTape) (latest : gmap ListingKey (Quote * Quote)) (ordinal index us : Z) : Prop := {
  cu_bound : forall k change, ts_in_flight (ct_state t) !! k = Some change ->
    k.1.1 <= arrival t us change /\ (k.1.2 < ordinal \/ (k.1.2 = ordinal /\ k.2 < index));
  cu_settled : forall key, (forall k change, ts_in_flight (ct_state t) !! k = Some change -> nf_listing_key change <> key) ->
    ts_quotes (ct_state t) !! key = latest !! key;
  cu_newest : forall k change, ts_in_flight (ct_state t) !! k = Some change ->
    (forall k' change', ts_in_flight (ct_state t) !! k' = Some change' -> nf_listing_key change' = nf_listing_key change -> ord_le k' k) ->
    latest !! nf_listing_key change = Some (bests change)
}.

Lemma earlier_key (k : Z * Z * Z) arrives ordinal index :
  k.1.1 <= arrives -> k.1.2 < ordinal \/ (k.1.2 = ordinal /\ k.2 < index) -> ~ ord_le (arrives, ordinal, index) k.
Proof.
  destruct k as [[a o] i]. simpl. intros Ha Ho [[[[Hlt Hne]|[He Hlt]] Hne2]|[[= -> ->] Hle]]; simpl in *; try lia.
  - subst. destruct (decide (o = ordinal)) as [->|]; [by apply Hne2 | lia].
Qed.

Lemma start_changes_catching ordinal us changes : forall index t paths t' paths' latest,
  (forall v p, snd (delay_to_hub v p) = Some (d v)) ->
  start_changes delay_to_hub ordinal us index changes t paths = (t', paths') ->
  ts_failed (ct_state t) = None -> ts_failed (ct_state t') = None -> catching_up t latest ordinal index us ->
  exists index', catching_up t' (note_changes changes latest) ordinal index' us /\
    ct_processing_us t' = ct_processing_us t.
Proof.
  induction changes as [|change changes IH]; intros index t paths t' paths' latest Hd H Hf Hf' Hc; simpl in H.
  { injection H as <- _. by exists index. }
  specialize (Hd (lk_venue_id (nf_listing_key change)) paths) as Hdc.
  destruct (delay_to_hub _ paths) as [paths1 o]. simpl in Hdc. subst o.
  destruct (_ <=? _) in H; [by injection H as <- _ |].
  fold (arrival t us change) in H. set (k0 := (arrival t us change, ordinal, index)) in *.
  set (t1 := with_state _ t) in H. destruct Hc as [Hb Hs Hn].
  assert (Hnew : forall k c, ts_in_flight (ct_state t) !! k = Some c -> nf_listing_key c = nf_listing_key change -> ~ ord_le k0 k).
  { intros k c Hk He. destruct (Hb k c Hk) as [Ha Ho]. apply earlier_key; [| done]. unfold arrival in *. by rewrite He in Ha. }
  assert (Hfresh : ts_in_flight (ct_state t) !! k0 = None).
  { destruct (ts_in_flight (ct_state t) !! k0) as [c|] eqn:Hk; [| done]. destruct (Hb _ _ Hk) as [_ Ho]. unfold k0 in Ho. simpl in Ho. lia. }
  eapply (IH (index + 1) t1 paths1 t' paths' (<[nf_listing_key change := bests change]> latest)); [done | exact H | done | done |].
  assert (Hfl : ts_in_flight (ct_state t1) = <[k0 := change]> (ts_in_flight (ct_state t))) by done.
  split; rewrite Hfl.
  - intros k c [[<- <-]|[Hne Hk]]%lookup_insert_Some.
    + unfold k0. simpl. split; [unfold arrival; simpl; lia | right; lia].
    + destruct (Hb k c Hk) as [Ha Ho]. split; [exact Ha |]. destruct Ho as [?|[? ?]]; [by left | right; lia].
  - intros key Hno. assert (Hne : nf_listing_key change <> key) by (apply (Hno k0); apply lookup_insert_eq).
    rewrite lookup_insert_ne by done. apply Hs. intros k c Hk. apply (Hno k). by rewrite lookup_insert_ne by congruence.
  - intros k c [[<- <-]|[Hne Hk]]%lookup_insert_Some Hmax; [apply lookup_insert_eq |].
    destruct (decide (nf_listing_key c = nf_listing_key change)) as [He|Hk'].
    + exfalso. apply (Hnew k c Hk He), (Hmax k0 change); [apply lookup_insert_eq | done].
    + rewrite lookup_insert_ne by congruence. apply (Hn k c Hk). intros k' c' Hin He'. apply (Hmax k' c'); [| done].
      by rewrite lookup_insert_ne by congruence.
Qed.

(** Releasing the first change in flight settles or keeps what is newest. *)
Lemma release_change_catching t latest ordinal index us k change s r fanout :
  ts_in_flight (ct_state t) !! k = Some change ->
  (forall k', is_Some (ts_in_flight (ct_state t) !! k') -> ord_le k k') ->
  release_change k.1.1 change (with_in_flight (delete k (ts_in_flight (ct_state t))) (ct_state t)) = (s, r) ->
  catching_up t latest ordinal index us ->
  catching_up (mkConsolidatedTape (ct_processing_us t) (ct_capacity t) s fanout) latest ordinal index us.
Proof.
  intros Hk Hmin H [Hb Hs Hn].
  assert (Hq : ts_quotes s = <[nf_listing_key change := bests change]> (ts_quotes (ct_state t)) /\
               ts_in_flight s = delete k (ts_in_flight (ct_state t))).
  { unfold release_change in H. destruct (nf_gap change); [| destruct (tape_change_entries _ _)]; by injection H as <- <-. }
  destruct Hq as [Hq Hfl]. split; cbn [ct_state]; rewrite Hfl.
  - intros k' c [_ Hk']%lookup_delete_Some. destruct (Hb k' c Hk') as [Ha Ho]. by split.
  - intros key Hno. rewrite Hq. destruct (decide (nf_listing_key change = key)) as [<-|Hne].
    + rewrite lookup_insert_eq. symmetry. apply (Hn k change Hk). intros k' c Hk' He.
      destruct (decide (k' = k)) as [->|Hkk]; [apply ord_le_refl |].
      exfalso. apply (Hno k' c); [by rewrite lookup_delete_ne | done].
    + rewrite lookup_insert_ne by done. apply Hs. intros k' c Hk' <-.
      destruct (decide (k' = k)) as [->|Hkk]; [by replace c with change in Hne by congruence |].
      apply (Hno k' c); [by rewrite lookup_delete_ne | done].
  - intros k' c [Hne Hk']%lookup_delete_Some Hmax. apply (Hn k' c Hk'). intros k2 c2 Hk2 He2.
    destruct (decide (k2 = k)) as [->|Hkk]; [by apply Hmin |]. apply (Hmax k2 c2); [by rewrite lookup_delete_ne | done].
Qed.
Lemma release_loop_catching fuel : forall now t latest ordinal index us s records due fanout,
  release_loop fuel now (ct_state t) = (s, records, due) -> catching_up t latest ordinal index us ->
  catching_up (mkConsolidatedTape (ct_processing_us t) (ct_capacity t) s fanout) latest ordinal index us.
Proof.
  induction fuel as [|fuel IH]; intros now t latest ordinal index us s records due fanout H Hc.
  { injection H as <- _ _. by destruct Hc. }
  apply release_loop_S in H as [(_ & -> & _)|(k & change & s1 & r & records1 & Hk & Hmin & _ & Hrel & Hl & _)]; [by destruct Hc |].
  pose proof (release_change_catching t latest ordinal index us k change s1 r fanout Hk Hmin Hrel Hc) as Hc1.
  exact (IH _ (mkConsolidatedTape (ct_processing_us t) (ct_capacity t) s1 fanout) _ _ _ _ _ _ _ fanout Hl Hc1).
Qed.

(** Enough fuel: a poll leaves nothing that is due. *)
Lemma release_loop_done fuel : forall now s s' records due k,
  release_loop fuel now s = (s', records, due) -> (size (ts_in_flight s) < fuel)%nat ->
  is_Some (ts_in_flight s' !! k) -> is_Some (ts_in_flight s !! k) /\ now < k.1.1.
Proof.
  induction fuel as [|fuel IH]; intros now s s' records due k H Hfuel Hin; [lia |].
  apply release_loop_S in H as [(_ & -> & Hnone)|(k0 & change & s1 & r & records1 & Hk & _ & _ & Hc & Hl & _)]; [by split; [| apply Hnone] |].
  assert (Hfl : ts_in_flight s1 = delete k0 (ts_in_flight s)).
  { unfold release_change in Hc. destruct (nf_gap change); [| destruct (tape_change_entries _ _)]; by injection Hc as <- _. }
  destruct (IH _ _ _ _ _ k Hl) as [[c Hc'] Hlt]; [| done |].
  - rewrite Hfl, map_size_delete_Some by done. assert (size (ts_in_flight s) <> 0%nat); [| lia].
    intros Hz%map_size_empty_inv. by rewrite Hz in Hk.
  - split; [| done]. rewrite Hfl in Hc'. apply lookup_delete_Some in Hc' as [_ ?]. by exists c.
Qed.

Lemma steady_life_catching t latest ordinal us :
  (forall v p, snd (delay_to_hub v p) = Some (d v)) -> steady_life t latest ordinal us ->
  exists index, catching_up t latest ordinal index us.
Proof.
  intros Hd. induction 1 as [t ordinal Hfl|t latest ordinal us ordinal' us' changes paths t' paths' _ [index IH] Ho Hus Hf Hh Hf'
    |t latest ordinal us now s records due fanout _ [index IH] Hr].
  - exists 0. split; rewrite Hfl; [by intros k c ?%lookup_empty_Some | done | by intros k c ?%lookup_empty_Some].
  - unfold hear_changes in Hh. rewrite Hf in Hh.
    destruct (start_changes_catching ordinal' us' changes 0 t paths t' paths' latest Hd Hh Hf Hf') as (i & Hc & _); [| by exists i].
    destruct IH as [Hb Hs Hn]. split; [| done | done]. intros k c Hk. destruct (Hb k c Hk) as [Ha Hord]. split; [| left; lia].
    unfold arrival, saturating_add in *. lia.
  - exists index. eapply release_loop_catching; [exact Hr | exact IH].
Qed.

(** C19: over steady paths the tape catches up. While no venue's path to the
    hub varies, and whatever is heard and released in whatever order, once
    the processor has polled after the last arrival its quotes are, for every
    listing, exactly what that listing announced last. *)
Theorem steady_tape_catches_up t latest ordinal us now s records due key :
  (forall v p, snd (delay_to_hub v p) = Some (d v)) -> steady_life t latest ordinal us ->
  (forall k, is_Some (ts_in_flight (ct_state t) !! k) -> k.1.1 <= now) ->
  release_due now (ct_state t) = (s, records, due) ->
  ts_quotes s !! key = latest !! key.
Proof.
  intros Hd Hlife Harr Hr. destruct (steady_life_catching t latest ordinal us Hd Hlife) as [index Hc].
  pose proof (release_loop_catching _ _ _ _ _ _ _ _ _ _ (ct_fanout t) Hr Hc) as [_ Hs _].
  assert (Hnone : forall k, ~ is_Some (ts_in_flight s !! k)).
  { intros k Hk. destruct (release_loop_done _ _ _ _ _ _ k Hr ltac:(lia) Hk) as [Hk' Hlt]. specialize (Harr k Hk'). lia. }
  apply Hs. intros k c Hk _. by apply (Hnone k).
Qed.
End steady.

(** ** Over varying paths the processor shows what arrived last *)

Section varying.
Context {P : Type} (delay_to_hub : Z -> P -> P * option Z).











End varying.

(** ** Samples *)
Module SampleTape.
Definition key1 : ListingKey := mkListingKey 1 7.
Definition key2 : ListingKey := mkListingKey 2 7.
Definition update (key : ListingKey) (bid : Z) (trades : list PublicTrade) : PublicListingUpdate :=
  mkPublicListingUpdate key trades [] (Some (bid, 5)) (Some (bid + 2, 3)) [].
Definition fresh : ConsolidatedTape := ConsolidatedTape_new 100 16.
(** Venue 1 is far from the hub, venue 2 near; both paths are steady. *)
Definition distance (venue : Z) : Z := if venue =? 1 then 40000 else 1000.
Definition steady_path (venue : Z) (paths : unit) : unit * option Z := (paths, Some (distance venue)).
Definition changes1 : list InFlight := heard_change <$> [update key1 40 []].
Definition changes2 : list InFlight := heard_change <$> [update key1 41 []; update key2 49 []].
Definition changes3 : list InFlight := heard_change <$> [update key2 50 []].
Definition heard1 : ConsolidatedTape := (hear_changes steady_path 0 10 changes1 fresh tt).1.
Definition heard2 : ConsolidatedTape := (hear_changes steady_path 1 20 changes2 heard1 tt).1.
Definition heard3 : ConsolidatedTape := (hear_changes steady_path 2 30 changes3 heard2 tt).1.
(** A subscriber's tape: a snapshot once two venues were heard, then more. *)
Definition opened : ConsolidatedTape := (tape_snapshot 3 7 60000 heard3).1.
Definition more (t : ConsolidatedTape) : ConsolidatedTape :=
  (hear steady_path 3 70000 [update key2 51 []; update key1 43 []] t tt).1.
Definition hears_gap (t : ConsolidatedTape) : ConsolidatedTape :=
  (hear_gap steady_path 4 80000 [(key2, (Some (52, 1), None))] t tt).1.
Definition released (now : Z) (t : ConsolidatedTape) : TapeState := (release_due now (ct_state t)).1.1.
Definition published (now : Z) (t : ConsolidatedTape) : list TapeRecord := (release_due now (ct_state t)).1.2.
Definition view (messages : list ServerMessage) (records : list TapeRecord) : TapeBook :=
  (tape_book_apply_all (messages ++ tape_messages 3 7 records) (TapeBook_new 3)).1.
End SampleTape.

Section tape_witnesses.
Import SampleTape.

Definition first_view : list ServerMessage :=
  match (tape_snapshot 3 7 60000 heard3).2 with Ok messages => messages | Err _ => [] end.
Definition polled : ConsolidatedTape :=
  mkConsolidatedTape 100 16 (released 120000 (more opened)) (ct_fanout opened).
Definition moved : list TapeRecord := published 120000 (more opened).

Lemma sample_changes_ok (changes : list InFlight) :
  forallb (fun change => match nf_best_bid change, nf_best_ask change with
                         | Some (_, n), Some (_, m) => negb (n =? 0) && negb (m =? 0)
                         | _, _ => false
                         end) changes = true ->
  Forall (fun change => quote_ok (nf_best_bid change) /\ quote_ok (nf_best_ask change)) changes.
Proof.
  intros H. apply Forall_forall. intros c Hc. rewrite forallb_forall in H. specialize (H c (proj1 (list_elem_of_In _ _) Hc)).
  destruct (nf_best_bid c) as [[]|], (nf_best_ask c) as [[]|]; try done. simpl. lia.
Qed.

Lemma fresh_tape_ok : tape_ok (ct_state fresh).
Proof. split; cbn; apply map_Forall_empty. Qed.
Lemma heard3_ok : tape_ok (ct_state heard3).
Proof.
  repeat (eapply hear_changes_keeps; [apply surjective_pairing | by apply sample_changes_ok |]). apply fresh_tape_ok.
Qed.

Lemma tape_copy_mirrors_processor_witness :
  length moved = 2%nat /\ mirrors 7 (released 120000 (more opened)) (view first_view moved).
Proof.
  split; [vm_compute; reflexivity |].
  assert (Hlife : tape_life steady_path 7 true opened polled ([] ++ moved)).
  { apply (life_release _ _ _ _ (more opened) [] 120000 (released 120000 (more opened)) moved (release_due 120000 (ct_state (more opened))).2).
    - eapply (life_hear _ _ _ _ opened [] 3 70000 _ tt _ tt); [apply life_start | by apply (sample_changes_ok (heard_change <$> [update key2 51 []; update key1 43 []])) |].
      vm_compute. reflexivity.
    - vm_compute. reflexivity.
    - intros _ k change Hk _ _.
      assert (Hall : forallb (fun e => negb (nf_gap e.2)) (map_to_list (ts_in_flight (ct_state (more opened)))) = true) by (vm_compute; reflexivity).
      rewrite forallb_forall in Hall. apply elem_of_map_to_list, list_elem_of_In in Hk. specialize (Hall _ Hk). simpl in Hall. by destruct (nf_gap change). }
  pose proof (tape_copy_mirrors_processor steady_path 3 7 60000 heard3 opened first_view true polled moved
    heard3_ok ltac:(vm_compute; reflexivity) Hlife ltac:(vm_compute; reflexivity)) as H.
  assert (Hok : (tape_book_apply_all (first_view ++ tape_messages 3 7 moved) (TapeBook_new 3)).2 = Ok tt) by (vm_compute; reflexivity).
  unfold view. destruct (tape_book_apply_all _ _) as [b [[]|e]]; [| discriminate Hok].
  destruct H as [_ H]. exact (H eq_refl).
Defined.


Lemma steady_tape_catches_up_witness :
  ts_quotes (released 50000 heard3) !! key1 = Some (Some (41, 5), Some (43, 3)) /\
  ts_quotes (released 50000 heard3) !! key2 = Some (Some (50, 5), Some (52, 3)).
Proof.
  assert (Hlife : steady_life steady_path heard3 (note_changes changes3 (note_changes changes2 (note_changes changes1 ∅))) 2 30).
  { assert (H1 : steady_life steady_path heard1 (note_changes changes1 ∅) 0 10).
    { apply (steady_hear steady_path fresh ∅ (-1) 0 0 10 changes1 tt heard1 tt); [apply (steady_start steady_path fresh (-1)) | ..];
        first [lia | vm_compute; reflexivity]. }
    assert (H2 : steady_life steady_path heard2 (note_changes changes2 (note_changes changes1 ∅)) 1 20).
    { apply (steady_hear steady_path heard1 _ 0 10 1 20 changes2 tt heard2 tt H1); first [lia | vm_compute; reflexivity]. }
    apply (steady_hear steady_path heard2 _ 1 20 2 30 changes3 tt heard3 tt H2); first [lia | vm_compute; reflexivity]. }
  pose proof (fun key => steady_tape_catches_up steady_path distance heard3 (note_changes changes3 (note_changes changes2 (note_changes changes1 ∅))) 2 30 50000
    (released 50000 heard3) (published 50000 heard3) (release_due 50000 (ct_state heard3)).2 key) as H.
  assert (Harr : forall k, is_Some (ts_in_flight (ct_state heard3) !! k) -> k.1.1 <= 50000).
  { intros k [c Hk]. apply elem_of_map_to_list, list_elem_of_In in Hk.
    assert (Hall : forallb (fun e => e.1.1.1 <=? 50000) (map_to_list (ts_in_flight (ct_state heard3))) = true) by (vm_compute; reflexivity).
    rewrite forallb_forall in Hall. specialize (Hall _ Hk). simpl in Hall. apply Z.leb_le. exact Hall. }
  assert (Hrel : release_due 50000 (ct_state heard3) =
    (released 50000 heard3, published 50000 heard3, (release_due 50000 (ct_state heard3)).2)) by (vm_compute; reflexivity).
  rewrite !(fun key => H key (fun _ _ => eq_refl) Hlife Harr Hrel). split; vm_compute; reflexivity.
Defined.
End tape_witnesses.
