(* ===== verification/Admission.v ===== *)
(** * bunting-server: the admission service

    Models [apps/bunting-server/src/admission.rs]: the service every session
    admits its work to.  It holds the latency model, the sequencer's queue of
    tasks, the health of the connections and the claims of the participants
    on their sessions.  The clock is an argument of each call; locks,
    condition variables and the JSON of the health endpoint are left out.
    A task is an element of a type the service does not look at. *)

From S2P Require Import Prelude Ordered MarketTypes Latency Sequencer.
#[local] Open Scope list_scope.

(** ** Data *)

Module Interface.
Inductive Interface : Type := Fix | Bnp.
End Interface.
Export Interface (Interface).
#[export] Instance Interface_eq_dec : EqDecision Interface.
Proof. solve_decision. Defined.
#[export] Instance Interface_countable : Countable Interface.
Proof.
  refine (inj_countable' (fun i => match i with Interface.Fix => true | Interface.Bnp => false end)
    (fun b : bool => if b then Interface.Fix else Interface.Bnp) _).
  by intros [].
Defined.

(** [AdmissionConfig] of [config.rs] *)
Record AdmissionConfig : Type := mkAdmissionConfig {
  ac_map : LatencyMap;
  ac_probe_interval_ms : Z;
  ac_max_admission_queue : Z;
  ac_max_outbound_hold : Z;
  ac_consolidated_processing_us : Z
}.
(** One inbound unit of work as the session saw it. *)
Record Inbound : Type := mkInbound {
  ib_received_us : Z;
  ib_estimator : DelayEstimator;
  ib_participant : Z;
  ib_destination : Endpoint;
  ib_floor_us : Z
}.
Record ConnectionHealth : Type := mkConnectionHealth {
  ch_participant_id : Z;
  ch_rtt_source : RttSource.RttSource;
  ch_kernel_min_rtt_us : option Z;
  ch_probe_min_rtt_us : option Z;
  ch_probe_samples : Z;
  ch_access_one_way_us : option Z
}.

Section service.
Context {T : Type}.

(** [AdmissionService] with its [Inner]. *)
Record AdmissionService : Type := mkAdmissionService {
  as_config : AdmissionConfig;
  as_model : LatencyModel;
  as_queue : Sequencer T;
  as_connections : gmap Z ConnectionHealth;
  as_next_connection : Z;
  as_sessions : gset (Interface * Z)
}.
Definition with_model (v : LatencyModel) (s : AdmissionService) : AdmissionService :=
  mkAdmissionService (as_config s) v (as_queue s) (as_connections s) (as_next_connection s) (as_sessions s).
Definition with_queue (v : Sequencer T) (s : AdmissionService) : AdmissionService :=
  mkAdmissionService (as_config s) (as_model s) v (as_connections s) (as_next_connection s) (as_sessions s).
Definition with_connections (v : gmap Z ConnectionHealth) (s : AdmissionService) : AdmissionService :=
  mkAdmissionService (as_config s) (as_model s) (as_queue s) v (as_next_connection s) (as_sessions s).
Definition with_sessions (v : gset (Interface * Z)) (s : AdmissionService) : AdmissionService :=
  mkAdmissionService (as_config s) (as_model s) (as_queue s) (as_connections s) (as_next_connection s) v.

(** [AdmissionService::new] *)
Definition AdmissionService_new (config : AdmissionConfig) : result AdmissionError AdmissionService :=
  model ← LatencyModel_new (ac_map config);
  Ok (mkAdmissionService config model (Sequencer_new (ac_max_admission_queue config)) ∅ 1 ∅).

#[local] Notation Admitting A := (M AdmissionService AdmissionError A) (only parsing).
(** Calls of the model and of the queue. *)
Definition on_model {A} (m : M LatencyModel AdmissionError A) : Admitting A := fun s =>
  let '(model, r) := m (as_model s) in (with_model model s, r).
Definition on_queue {A} (m : M (Sequencer T) AdmissionError A) : Admitting A := fun s =>
  let '(queue, r) := m (as_queue s) in (with_queue queue s, r).

(** [AdmissionService::admit] *)
Definition raise_release (floor_us : Z) (r : AdmissionRecord) : AdmissionRecord :=
  with_release r (Z.max (ar_release_us r) floor_us) (ar_arrival_sequence r).
Definition admit_inbound (now_us : Z) (inbound : Inbound) (task : T) : Admitting AdmissionRecord :=
  record ← on_model (decide_admission (ib_received_us inbound) (ib_estimator inbound) (ib_participant inbound)
    (ib_destination inbound));
  on_queue (admit_command now_us (raise_release (ib_floor_us inbound) record) task).
(** [AdmissionService::schedule_task] *)
Definition schedule_task (now_us at_us : Z) (task : T) : Admitting AdmissionRecord :=
  on_queue (admit_command now_us (mkAdmissionRecord at_us None RttSource.None_ Hub 0 None at_us 0) task).
(** [AdmissionService::delay_us], [delay_to_us] *)
Definition service_delay_us (from to : Endpoint) : Admitting Z := on_model (delay_us from to).
Definition delay_to_us (source : Endpoint) (participant : Z) : Admitting Z :=
  service_delay_us source (Participant participant).

(** [AdmissionService::run_sequencer]: one look at the queue, the task it
    takes, and how long the thread sleeps when there is none. *)
Definition release_due (now_us : Z) (s : AdmissionService) : AdmissionService * option (AdmissionRecord * T) :=
  let '(queue, due) := pop_due now_us (as_queue s) in (with_queue queue s, due).
Definition release_wait_us (now_us : Z) (s : AdmissionService) : Z :=
  Z.max 50 (match next_release_us (as_queue s) with
            | Some release => Z.max (release - now_us) 0
            | None => 100000
            end).

(** [AdmissionService::claim_participant]: one look at the registry; the
    claim, when it is dropped, ends the session. *)
Definition claim_participant (interface : Interface) (participant : Z) (s : AdmissionService)
    : AdmissionService * option (Interface * Z) :=
  let key := (interface, participant) in
  if bool_decide (key ∈ as_sessions s) then (s, None) else (with_sessions ({[key]} ∪ as_sessions s) s, Some key).
Definition claim_drop (key : Interface * Z) (s : AdmissionService) : AdmissionService :=
  with_sessions (as_sessions s ∖ {[key]}) s.

(** [register_connection], [report_connection], [remove_connection] *)
Definition register_connection (s : AdmissionService) : AdmissionService * Z :=
  (mkAdmissionService (as_config s) (as_model s) (as_queue s) (as_connections s)
     (wrapping_add U64 (as_next_connection s) 1) (as_sessions s), as_next_connection s).
Definition report_connection (connection : Z) (health : ConnectionHealth) (s : AdmissionService) : AdmissionService :=
  with_connections (<[connection := health]> (as_connections s)) s.
Definition remove_connection (connection : Z) (s : AdmissionService) : AdmissionService :=
  with_connections (delete connection (as_connections s)) s.
End service.
Arguments AdmissionService : clear implicits.

(** ** A session's admissions

    What a session adds ([session_host.rs], [admit_request]): it remembers
    its last release per destination and passes it as the floor of the next
    admission there. *)

#[local] Notation Floors := (gmap Endpoint Z) (only parsing).

Section floors.
Context {T : Type}.
Definition admit_in_order (now_us received_us : Z) (estimator : DelayEstimator) (participant : Z)
    (destination : Endpoint) (task : T) : M (AdmissionService T * Floors) AdmissionError AdmissionRecord := fun sf =>
  let '(s, floors) := sf in
  match admit_inbound now_us (mkInbound received_us estimator participant destination
                                (default 0 (floors !! destination))) task s with
  | (s, Ok record) => (s, <[destination := ar_release_us record]> floors, Ok record)
  | (s, Err e) => (s, floors, Err e)
  end.
End floors.

(** ** A venue's admissions

    Sessions, the timer and the sequencer's thread at work on one service.
    The venue keeps each session's floors, and, to state what happened, what
    was admitted and what was released so far; a task names its session. *)

Section venue.
Context {A : Type}.
Definition Task : Type := option Z * A.
Inductive VenueCall : Type :=
  | CallSession (connection now_us received_us : Z) (estimator : DelayEstimator) (participant : Z)
      (destination : Endpoint) (work : A)
  | CallTimer (now_us at_us : Z) (work : A)
  | CallDelay (from to : Endpoint)
  | CallRelease (now_us : Z).
Record Admissions : Type := mkAdmissions {
  vn_service : AdmissionService Task;
  vn_floors : gmap Z Floors;
  vn_admitted : list (AdmissionRecord * Task);
  vn_released : list (AdmissionRecord * Task)
}.
Definition venue_call (v : Admissions) (c : VenueCall) : Admissions :=
  match c with
  | CallSession connection now received estimator participant destination work =>
      let task : Task := (Some connection, work) in
      match admit_in_order now received estimator participant destination task
              (vn_service v, default ∅ (vn_floors v !! connection)) with
      | (s, floors, Ok record) =>
          mkAdmissions s (<[connection := floors]> (vn_floors v)) (vn_admitted v ++ [(record, task)]) (vn_released v)
      | (s, floors, Err _) => mkAdmissions s (<[connection := floors]> (vn_floors v)) (vn_admitted v) (vn_released v)
      end
  | CallTimer now at_ work =>
      let task : Task := (None, work) in
      match schedule_task now at_ task (vn_service v) with
      | (s, Ok record) => mkAdmissions s (vn_floors v) (vn_admitted v ++ [(record, task)]) (vn_released v)
      | (s, Err _) => mkAdmissions s (vn_floors v) (vn_admitted v) (vn_released v)
      end
  | CallDelay from to =>
      mkAdmissions (service_delay_us from to (vn_service v)).1 (vn_floors v) (vn_admitted v) (vn_released v)
  | CallRelease now =>
      let '(s, due) := release_due now (vn_service v) in
      mkAdmissions s (vn_floors v) (vn_admitted v) (vn_released v ++ option_list due)
  end.
Definition Admissions_new (s : AdmissionService Task) : Admissions := mkAdmissions s ∅ [] [].

(** Two tasks of one session for one destination. *)
Definition same_path (e e' : AdmissionRecord * Task) : Prop :=
  is_Some e.2.1 /\ e'.2.1 = e.2.1 /\ ar_destination e'.1 = ar_destination e.1.
Definition floor_of (v : Admissions) (connection : Z) (destination : Endpoint) : Z :=
  default 0 (default ∅ (vn_floors v !! connection) !! destination).

Record venue_ok (v : Admissions) : Prop := {
  vk_queue : sequencer_ok (as_queue (vn_service v));
  vk_next : sq_next_arrival (as_queue (vn_service v)) = Z.of_nat (length (vn_admitted v));
  vk_numbered : forall n e, vn_admitted v !! n = Some e -> ar_arrival_sequence e.1 = Z.of_nat n;
  vk_kept : forall e, e ∈ vn_admitted v <->
    e ∈ vn_released v \/ sq_items (as_queue (vn_service v)) !! ar_arrival_sequence e.1 = Some e;
  vk_floors : forall (e : AdmissionRecord * Task) c, e ∈ vn_admitted v -> e.2.1 = Some c -> ar_release_us e.1 <= floor_of v c (ar_destination e.1);
  vk_rising : forall m n e e', (m < n)%nat -> vn_admitted v !! m = Some e -> vn_admitted v !! n = Some e' ->
    same_path e e' -> ar_release_us e.1 <= ar_release_us e'.1;
  vk_ordered : forall m n j e e', (m < n)%nat -> vn_admitted v !! m = Some e -> vn_admitted v !! n = Some e' ->
    same_path e e' -> vn_released v !! j = Some e' -> exists i, (i < j)%nat /\ vn_released v !! i = Some e
}.

Lemma Admissions_new_ok config s : AdmissionService_new config = Ok s -> venue_ok (Admissions_new s).
Proof.
  unfold AdmissionService_new. destruct (LatencyModel_new _) as [model|]; [| done]. intros [= <-].
  split; cbn; try done; [apply Sequencer_new_ok | | by intros ?? []%elem_of_nil].
  intros e. split; [by intros []%elem_of_nil |]. intros [[]%elem_of_nil|H]. by apply lookup_empty_Some in H.
Qed.

(** An admission appends to what was admitted. *)
Lemma admitted_ok v now record task q record' floors :
  venue_ok v -> sq_next_arrival (as_queue (vn_service v)) < int_max U64 ->
  admit_command now record task (as_queue (vn_service v)) = (q, Ok record') ->
  (forall c d, floor_of v c d <= default 0 (default ∅ (floors !! c) !! d)) ->
  (forall c, task.1 = Some c -> floor_of v c (ar_destination record') <= ar_release_us record' /\
    ar_release_us record' <= default 0 (default ∅ (floors !! c) !! ar_destination record')) ->
  forall model, venue_ok (mkAdmissions (with_queue q (with_model model (vn_service v))) floors
    (vn_admitted v ++ [(record', task)]) (vn_released v)).
Proof.
  intros [V1 V2 V3 V4 V5 V6 V7] Hmax Ha Hfl Hown model.
  apply admit_command_Ok in Ha as (Q1 & Q2 & Q3 & _ & _ & _ & Q7 & Q8 & _); [| done | done].
  assert (Hrel : forall e, e ∈ vn_released v -> e ∈ vn_admitted v) by (intros e He; apply V4; by left).
  assert (Hsnoc : forall n e, (vn_admitted v ++ [(record', task)]) !! n = Some e ->
    vn_admitted v !! n = Some e \/ (n = length (vn_admitted v) /\ e = (record', task))).
  { intros n e Hn. apply lookup_app_Some in Hn as [?|[Hge Hn]]; [by left | right].
    apply list_lookup_singleton_Some in Hn as [Hz <-]. split; [lia | done]. }
  split; cbn [vn_service vn_floors vn_admitted vn_released as_queue with_queue].
  - exact Q1.
  - rewrite Q3, V2, length_app. simpl. lia.
  - intros n e [Hn|[-> ->]]%Hsnoc; [by apply V3 |]. simpl. lia.
  - intros e. rewrite elem_of_app, list_elem_of_singleton, V4, Q7. split.
    + intros [[H|H]| ->]; [by left | right | right; by rewrite lookup_insert_eq].
      rewrite lookup_insert_ne; [done |]. intros Heq. rewrite <- Heq, Q8 in H. done.
    + intros [H|[[_ <-]|[_ H]]%lookup_insert_Some]; [by left; left | by right | by left; right].
  - intros e c [He| ->%list_elem_of_singleton]%elem_of_app Hc.
    + etrans; [by apply V5 | apply Hfl].
    + apply (Hown c Hc).
  - intros m n e e' Hmn Hm Hn Hp.
    apply Hsnoc in Hm as [Hm|[-> ->]]; apply Hsnoc in Hn as [Hn|[-> ->]].
    + by eapply V6.
    + destruct Hp as ([c Hc] & Hc' & Hd). simpl in Hc', Hd. destruct (Hown c) as [H1 H2]; [congruence |]. simpl.
      apply list_elem_of_lookup_2 in Hm. pose proof (V5 e c Hm Hc) as Hle. rewrite <- Hd in Hle. lia.
    + apply lookup_lt_Some in Hn. lia.
    + lia.
  - intros m n j e e' Hmn Hm Hn Hp Hj.
    apply Hsnoc in Hm as [Hm|[-> ->]]; apply Hsnoc in Hn as [Hn|[-> ->]].
    + by eapply V7.
    + apply list_elem_of_lookup_2, Hrel, list_elem_of_lookup in Hj as [k Hk]. pose proof (lookup_lt_Some _ _ _ Hk).
      apply V3 in Hk. simpl in Hk. lia.
    + apply lookup_lt_Some in Hn. lia.
    + lia.
Qed.
(** Only the queue, the floors and the logs matter. *)
Lemma venue_ok_same v s :
  as_queue s = as_queue (vn_service v) -> venue_ok v -> venue_ok (mkAdmissions s (vn_floors v) (vn_admitted v) (vn_released v)).
Proof. intros He [V1 V2 V3 V4 V5 V6 V7]. split; cbn [vn_service vn_floors vn_admitted vn_released]; rewrite ?He; done. Qed.
Lemma venue_ok_floors v floors :
  (forall c d, default 0 (default ∅ (floors !! c) !! d) = floor_of v c d) -> venue_ok v ->
  venue_ok (mkAdmissions (vn_service v) floors (vn_admitted v) (vn_released v)).
Proof.
  intros He [V1 V2 V3 V4 V5 V6 V7]. split; try done. intros e c He' Hc. unfold floor_of. cbn. rewrite He. by apply V5.
Qed.

Lemma venue_call_ok v c :
  venue_ok v -> sq_next_arrival (as_queue (vn_service v)) < int_max U64 ->
  venue_ok (venue_call v c) /\
  sq_next_arrival (as_queue (vn_service (venue_call v c))) <= sq_next_arrival (as_queue (vn_service v)) + 1.
Proof.
  intros Hv Hmax. destruct c as [c now received estimator participant destination work|now at_ work|from to|now]; cbn [venue_call].
  - unfold admit_in_order, admit_inbound, on_model, on_queue. set (task := (Some c, work) : Task).
    set (floors := default ∅ (vn_floors v !! c)).
    assert (Hsame : forall s, as_queue s = as_queue (vn_service v) ->
      venue_ok (mkAdmissions s (<[c := floors]> (vn_floors v)) (vn_admitted v) (vn_released v))).
    { intros s Hs. apply (venue_ok_floors (mkAdmissions s (vn_floors v) (vn_admitted v) (vn_released v))); [| by apply venue_ok_same].
      intros c' d. unfold floor_of. cbn. destruct (decide (c' = c)) as [->|]; [by rewrite lookup_insert_eq | by rewrite lookup_insert_ne]. }
    unfold mbind, M_bind. destruct (decide_admission _ _ _ _ _) as [model [record|e]] eqn:Hd; [| split; [by apply Hsame | cbn [vn_service as_queue with_model]; lia]].
    destruct (admit_command _ _ _ _) as [q [record'|e]] eqn:Ha; cbn [vn_service as_queue with_queue with_model] in *;
      [| apply admit_command_Err in Ha as ->; split; [by apply Hsame | cbn [vn_service as_queue with_queue with_model]; lia]].
    pose proof (vk_queue _ Hv) as Hq. pose proof Ha as Ha'.
    apply admit_command_Ok in Ha' as (_ & _ & Q3 & _ & _ & Q6 & _); [| done | done].
    split; [| lia]. apply (admitted_ok v now _ task q record'  _ Hv Hmax Ha).
    + intros c' d. unfold floor_of. destruct (decide (c' = c)) as [->|]; [| by rewrite lookup_insert_ne].
      rewrite lookup_insert_eq. fold floors. cbn [from_option]; unfold id. destruct (decide (d = destination)) as [->|]; [| by rewrite lookup_insert_ne].
      rewrite lookup_insert_eq. cbn [from_option]; unfold id. rewrite Q6. unfold raise_release, with_release. cbn [ar_release_us ib_floor_us]; unfold id. lia.
    + assert (Hdest : ar_destination record' = destination).
      { unfold admit_command in Ha. rewrite bind_gets in Ha. apply bind_Ok_inv in Ha as (? & [] & _ & Ha). cbv zeta in Ha.
        rewrite bind_modify in Ha. injection Ha as _ <-. cbn. unfold decide_admission in Hd.
        apply bind_Ok_inv in Hd as (? & [p j] & _ & Hd). by injection Hd as _ <-. }
      intros c' [= <-]. unfold floor_of. fold floors. rewrite lookup_insert_eq, Hdest. cbn [from_option]; unfold id. rewrite lookup_insert_eq. cbn [from_option]; unfold id.
      rewrite Q6. unfold raise_release, with_release. cbn [ar_release_us ib_floor_us]; unfold id. lia.
  - unfold schedule_task, on_queue. destruct (admit_command _ _ _ _) as [q [record'|e]] eqn:Ha.
    + pose proof Ha as Ha'. apply admit_command_Ok in Ha' as (_ & _ & Q3 & _); [| apply Hv | done].
      split; [| cbn [vn_service as_queue with_queue with_model]; lia]. replace (with_queue q (vn_service v)) with (with_queue q (with_model (as_model (vn_service v)) (vn_service v)))
        by (by destruct (vn_service v)).
      apply (admitted_ok v now _ (None, work) q record' (vn_floors v) Hv Hmax Ha); done.
    + apply admit_command_Err in Ha as ->. split; [by apply venue_ok_same | cbn [vn_service as_queue with_queue with_model]; lia].
  - unfold service_delay_us, on_model. destruct (delay_us _ _ _) as [model r]. split; [by apply venue_ok_same | simpl; lia].
  - unfold release_due. destruct (pop_due now (as_queue (vn_service v))) as [q due] eqn:Hp.
    apply pop_due_spec in Hp as (Q1 & Q2 & _ & _ & Hdue); [| apply Hv].
    split; [| cbn [vn_service as_queue with_queue with_model]; lia]. destruct Hv as [V1 V2 V3 V4 V5 V6 V7]. destruct due as [[r t]|].
    + destruct Hdue as (D1 & D2 & D3 & _). set (e0 := (r, t)) in *. simpl.
      assert (Hin : e0 ∈ vn_admitted v) by (apply V4; by right).
      split; cbn [vn_service vn_floors vn_admitted vn_released as_queue with_queue]; try done; [congruence | |].
      * intros e. rewrite elem_of_app, list_elem_of_singleton, D2, V4. split.
        -- intros [H|H]; [by left; left |]. destruct (decide (ar_arrival_sequence e.1 = ar_arrival_sequence r)) as [Heq|Hne].
           ++ left; right. rewrite Heq, D1 in H. by injection H as <-.
           ++ right. by rewrite lookup_delete_ne.
        -- intros [[H| ->]|H]; [by left | by right | right]. by apply lookup_delete_Some in H as [_ H].
      * intros m n j e e' Hmn Hm Hn Hp Hj. apply lookup_app_Some in Hj as [Hj|[Hge Hj]].
        -- destruct (V7 m n j e e' Hmn Hm Hn Hp Hj) as (i & Hi & He). exists i. split; [done |]. by apply lookup_app_l_Some.
        -- apply list_lookup_singleton_Some in Hj as [Hj <-].
           pose proof (list_elem_of_lookup_2 _ _ _ Hm) as [He|He]%V4.
           ++ apply list_elem_of_lookup in He as [i Hi]. pose proof (lookup_lt_Some _ _ _ Hi).
              exists i. split; [lia |]. by apply lookup_app_l_Some.
           ++ exfalso. pose proof (V6 m n e e0 Hmn Hm Hn Hp) as Hle. pose proof (V3 _ _ Hm) as Em. pose proof (V3 _ _ Hn) as En.
              assert (Hh : (ar_release_us e.1, ar_arrival_sequence e.1) ∈ sq_heap (as_queue (vn_service v))).
              { apply (sk_heap _ V1). exists e.1, e.2. by rewrite <- surjective_pairing. }
              pose proof (sk_sorted _ V1) as Hs. rewrite D3 in Hh, Hs. apply StronglySorted_inv in Hs as [_ Hall].
              rewrite Forall_forall in Hall. apply elem_of_cons in Hh as [[= H1 H2]|Hh].
              { change r with e0.1 in H2. lia. }
              specialize (Hall _ Hh). destruct Hall as [Hlt|[_ Hlt]]; simpl in Hlt; change r with e0.1 in Hlt; lia.
    + destruct Hdue as (D1 & _). split; cbn [vn_service vn_floors vn_admitted vn_released as_queue with_queue option_list]; rewrite ?app_nil_r, ?D1, ?Q2; done.
Qed.

(** C15: a session's messages to one venue are served in the order they were
    received. Whatever other sessions, the timer and the sequencer's thread
    do on the admission service, however the paths' jitter falls and whatever
    the sessions' clocks say: of two tasks that one session admitted for the
    same destination, the sequencer releases the second only after the
    first. *)
Theorem one_path_keeps_order config s cs m n j e e' :
  AdmissionService_new config = Ok s -> Z.of_nat (length cs) <= int_max U64 ->
  let v := foldl venue_call (Admissions_new s) cs in
  (m < n)%nat -> vn_admitted v !! m = Some e -> vn_admitted v !! n = Some e' -> same_path e e' ->
  vn_released v !! j = Some e' -> exists i, (i < j)%nat /\ vn_released v !! i = Some e.
Proof.
  intros Hnew Hlen v. assert (Hv : venue_ok v); [| apply (vk_ordered _ Hv)].
  assert (H : forall v0, venue_ok v0 -> sq_next_arrival (as_queue (vn_service v0)) + Z.of_nat (length cs) <= int_max U64 ->
    venue_ok (foldl venue_call v0 cs)).
  { clear Hlen v. induction cs as [|c cs IH]; intros v0 H0 Hmax; [done |]. cbn [length] in Hmax.
    destruct (venue_call_ok v0 c H0 ltac:(lia)) as [H1 H2]. apply IH; [done | lia]. }
  apply H; [by eapply Admissions_new_ok |]. unfold AdmissionService_new in Hnew.
  destruct (LatencyModel_new _); [| done]. injection Hnew as <-. simpl. lia.
Qed.
End venue.

(** Two orders of one session, received together on a path with jitter, and
    one of a session nearer to the venue in between. *)
Module SampleAdmissions.
Definition config : AdmissionConfig := mkAdmissionConfig demo_latency 1000 8 8 500.
Definition service : AdmissionService (@Task string) :=
  mkAdmissionService config (mkLatencyModel demo_latency ∅) (Sequencer_new 8) ∅ 1 ∅.
Definition calls : list (@VenueCall string) :=
  [ CallSession 1 100 100 DelayEstimator_new 2 (Venue 9) "first"; CallSession 2 105 105 DelayEstimator_new 1 (Venue 9) "other";
    CallSession 1 110 100 DelayEstimator_new 2 (Venue 9) "second"; CallTimer 110 120 "tick" ]%string
  ++ (CallRelease <$> [200; 100000000; 100000000; 100000000]).
End SampleAdmissions.

Lemma one_path_keeps_order_witness :
  let v := foldl venue_call (Admissions_new SampleAdmissions.service) SampleAdmissions.calls in
  (fun e => e.2.2) <$> vn_admitted v = ["first"; "other"; "second"; "tick"]%string /\
  exists e e', vn_admitted v !! 0%nat = Some e /\ vn_admitted v !! 2%nat = Some e' /\
    exists j i, vn_released v !! j = Some e' /\ (i < j)%nat /\ vn_released v !! i = Some e.
Proof.
  intros v. split; [vm_compute; reflexivity |].
  destruct (vn_admitted v !! 0%nat) as [e|] eqn:He; [| vm_compute in He; discriminate].
  destruct (vn_admitted v !! 2%nat) as [e'|] eqn:He'; [| vm_compute in He'; discriminate].
  exists e, e'. split; [reflexivity |]. split; [reflexivity |].
  assert (Hp : same_path e e').
  { vm_compute in He, He'. injection He as <-. injection He' as <-. split; [eexists; reflexivity | split; reflexivity]. }
  assert (Hj : exists j, vn_released v !! j = Some e').
  { vm_compute in He'. injection He' as <-. exists 3%nat. vm_compute. reflexivity. }
  destruct Hj as [j Hj]. exists j.
  pose proof (one_path_keeps_order SampleAdmissions.config SampleAdmissions.service SampleAdmissions.calls 0 2 j e e') as H.
  fold v in H.
  destruct H as [i Hi]; [vm_compute; reflexivity | vm_compute; discriminate | lia | exact He | exact He' | exact Hp | exact Hj |].
  exists i. split; [exact Hj | exact Hi].
Defined.
