(* ===== verification/SessionHost.v ===== *)
(** * bunting-server: the host of a FIX session

    Models [apps/bunting-server/src/outbound.rs] and the parts of
    [session_host.rs] and [admission.rs] that decide something: who may log
    on, which frames leave and when, how a restored session catches up with
    what was committed, at what time a message is released, and what a
    released competition request does.  The socket is the list of frames
    written to it; the loop that waits on it is left out. *)

From S2P Require Import Prelude Ordered Decimal MarketTypes MarketEvents Digest Book Latency Sequencer Transition.
From S2P Require Import Simulation Scenario Engine Origin OriginTheorems FixWire FixSession FixMapping Execution.
From S2P Require Import Adapter Application FixApplication ApplicationTheorems Competition BnpMapping.
From S2P Require Import WalFrames FileOrigin SessionStore SessionStoreTheorems MarketFeed Publishing Distributor Admission.
From Stdlib Require Import Ascii.
#[local] Open Scope list_scope.

(** ** Messages held for their departure *)

Section outbound.
Context {A : Type}.

(** [OutboundHold] *)
Record OutboundHold : Type := mkOutboundHold {
  oh_capacity : Z;
  oh_next : Z;
  oh_queue : gmap (Z * Z) A
}.
Definition OutboundHold_new (capacity : Z) : OutboundHold := mkOutboundHold capacity 0 ∅.
(** [OutboundHold::hold]; the error names the limit. *)
Definition hold (message : A) (send_at_us : Z) : M OutboundHold Z unit := fun h =>
  if oh_capacity h <=? Z.of_nat (size (oh_queue h)) then (h, Err (oh_capacity h))
  else (mkOutboundHold (oh_capacity h) (wrapping_add U64 (oh_next h) 1) (<[(send_at_us, oh_next h) := message]> (oh_queue h)), Ok tt).
(** [OutboundHold::next_due_us] *)
Definition next_due_us (h : OutboundHold) : option Z := (fun e => e.1.1) <$> first_entry (oh_queue h).
(** [OutboundHold::take_due]; each turn removes an entry. *)
Fixpoint drain_due (fuel : nat) (now_us : Z) (queue : gmap (Z * Z) A) : gmap (Z * Z) A * list A :=
  match fuel with
  | O => (queue, [])
  | S fuel =>
      match first_entry queue with
      | Some (k, message) =>
          if now_us <? k.1 then (queue, [])
          else let '(queue, due) := drain_due fuel now_us (delete k queue) in (queue, message :: due)
      | None => (queue, [])
      end
  end.
Definition take_due (now_us : Z) (h : OutboundHold) : OutboundHold * list A :=
  let '(queue, due) := drain_due (size (oh_queue h)) now_us (oh_queue h) in
  (mkOutboundHold (oh_capacity h) (oh_next h) queue, due).

(** The specification: an agenda of messages by departure, equal departures
    in the order they were entered. *)
Fixpoint agenda_insert (e : Z * A) (l : list (Z * A)) : list (Z * A) :=
  match l with
  | [] => [e]
  | x :: l' => if x.1 <=? e.1 then x :: agenda_insert e l' else e :: l
  end.
Definition agenda_hold (capacity : Z) (message : A) (send_at_us : Z) (l : list (Z * A)) : list (Z * A) * result Z unit :=
  if capacity <=? Z.of_nat (length l) then (l, Err capacity) else (agenda_insert (send_at_us, message) l, Ok tt).
Fixpoint agenda_due (now_us : Z) (l : list (Z * A)) : list (Z * A) * list A :=
  match l with
  | [] => ([], [])
  | x :: l' => if now_us <? x.1 then (l, []) else let '(rest, due) := agenda_due now_us l' in (rest, x.2 :: due)
  end.

(** Calls of the host, and what each returns. *)
Inductive HoldCall : Type :=
  | CallHold (message : A) (send_at_us : Z)
  | CallTakeDue (now_us : Z).
Definition HoldAnswer : Type := (result Z unit + list A)%type.
Definition hold_call (c : HoldCall) (h : OutboundHold) : OutboundHold * HoldAnswer :=
  match c with
  | CallHold message at_ => let '(h, r) := hold message at_ h in (h, inl r)
  | CallTakeDue now_us => let '(h, due) := take_due now_us h in (h, inr due)
  end.
Definition agenda_call (capacity : Z) (c : HoldCall) (l : list (Z * A)) : list (Z * A) * HoldAnswer :=
  match c with
  | CallHold message at_ => let '(l, r) := agenda_hold capacity message at_ l in (l, inl r)
  | CallTakeDue now_us => let '(l, due) := agenda_due now_us l in (l, inr due)
  end.
Fixpoint run_steps {S} (step : HoldCall -> S -> S * HoldAnswer) (cs : list HoldCall) (s : S) : S * list HoldAnswer :=
  match cs with
  | [] => (s, [])
  | c :: cs => let '(s, answer) := step c s in let '(s, answers) := run_steps step cs s in (s, answer :: answers)
  end.

Definition departure (e : Z * Z * A) : Z * A := (e.1.1, e.2).
(** The queue is the agenda. *)
Definition on_agenda (h : OutboundHold) (l : list (Z * A)) : Prop :=
  departure <$> entries (oh_queue h) = l /\ (forall k, is_Some (oh_queue h !! k) -> k.2 < oh_next h) /\ 0 <= oh_next h.

Fixpoint entry_insert (k : Z * Z) (m : A) (l : list (Z * Z * A)) : list (Z * Z * A) :=
  match l with
  | [] => [(k, m)]
  | x :: l' => if x.1.1 <=? k.1 then x :: entry_insert k m l' else (k, m) :: l
  end.
Lemma elem_of_entry_insert (k : Z * Z) (m : A) (l : list (Z * Z * A)) e : e ∈ entry_insert k m l <-> e = (k, m) \/ e ∈ l.
Proof.
  induction l as [|x l IH]; simpl; [set_solver |]. destruct (_ <=? _); rewrite !elem_of_cons, ?IH; naive_solver.
Qed.
Lemma pair_lt (a b a' b' : Z) : a < a' \/ (a = a' /\ b < b') -> ord_lt (a, b) (a', b').
Proof.
  intros H. split; [| intros [= -> ->]; lia]. destruct H as [H|[-> H]]; [left | right]; simpl.
  - split; [simpl; lia | lia].
  - split; [done | simpl; lia].
Qed.
Lemma entry_insert_sorted (k : Z * Z) (m : A) (l : list (Z * Z * A)) :
  StronglySorted ord_lt l.*1 -> (forall e, e ∈ l -> e.1.2 < k.2) -> StronglySorted ord_lt (entry_insert k m l).*1.
Proof.
  destruct k as [t n]. induction l as [|[[t' n'] x] l IH]; intros Hs Hk; simpl in *; [repeat constructor |].
  apply StronglySorted_inv in Hs as [Hs Hall]. assert (Hn : n' < n) by (apply (Hk (t', n', x)); left).
  destruct (Z.leb_spec t' t) as [Hle|Hlt]; simpl; constructor.
  - apply IH; [done |]. intros e He. apply Hk. by right.
  - apply Forall_forall. intros y (e & -> & He)%list_elem_of_fmap. apply elem_of_entry_insert in He as [->|He].
    + apply pair_lt. lia.
    + rewrite Forall_forall in Hall. apply Hall, list_elem_of_fmap. by exists e.
  - by constructor.
  - constructor; [apply pair_lt; lia |]. eapply Forall_impl; [exact Hall |]. intros y Hy.
    assert (Ho : ord_lt (t, n) (t', n')) by (apply pair_lt; lia). destruct Hy as [Hle Hne], Ho as [Hle' Hne'].
    eapply ord_lt_le_trans; [by split | done].
Qed.
Lemma entries_insert_last (k : Z * Z) (m : A) (q : gmap (Z * Z) A) :
  (forall k', is_Some (q !! k') -> k'.2 < k.2) -> entries (<[k := m]> q) = entry_insert k m (entries q).
Proof.
  intros Hk. apply entries_unique.
  - apply entry_insert_sorted; [apply keys_sorted |]. intros [k' x] He%elem_of_entries. apply Hk. by exists x.
  - intros k' x. rewrite elem_of_entry_insert, elem_of_entries, lookup_insert_Some. split.
    + intros [[= -> ->]|Hx]; [by left | right]. split; [intros ->; specialize (Hk _ (mk_is_Some _ _ Hx)); lia | done].
    + intros [[-> ->]|[_ Hx]]; [by left | by right].
Qed.
Lemma departure_insert (k : Z * Z) (m : A) (l : list (Z * Z * A)) : departure <$> entry_insert k m l = agenda_insert (k.1, m) (departure <$> l).
Proof. induction l as [|x l IH]; [done |]. simpl. destruct (_ <=? _); [| done]. by rewrite fmap_cons, IH. Qed.
Lemma entries_delete_first (k : Z * Z) (m : A) (l : list (Z * Z * A)) (q : gmap (Z * Z) A) : entries q = (k, m) :: l -> entries (delete k q) = l.
Proof.
  intros Hq. pose proof (keys_sorted q) as Hs. unfold keys in Hs. rewrite Hq in Hs. simpl in Hs.
  apply StronglySorted_inv in Hs as [Hs Hall]. apply entries_unique; [done |].
  intros k' x. rewrite lookup_delete_Some, <- elem_of_entries, Hq, elem_of_cons. split.
  - intros Hin. split; [| by right]. intros <-. rewrite Forall_forall in Hall.
    destruct (Hall k) as [_ Hne]; [apply list_elem_of_fmap; by exists (k, x) | done].
  - intros [Hne [[= -> ->]|?]]; done.
Qed.

Lemma drain_due_agenda fuel : forall now q,
  (size q <= fuel)%nat ->
  agenda_due now (departure <$> entries q) = (departure <$> entries (drain_due fuel now q).1, (drain_due fuel now q).2) /\
  forall k, is_Some ((drain_due fuel now q).1 !! k) -> is_Some (q !! k).
Proof.
  induction fuel as [|fuel IH]; intros now q Hsize; cbn [drain_due].
  - assert (Hq : q = ∅) by (apply map_size_empty_inv; lia). subst. by rewrite entries_empty.
  - unfold first_entry. destruct (entries q) as [|[k m] l] eqn:Hq; [cbn; by rewrite Hq |]. cbn [head fmap list_fmap agenda_due].
    change (departure (k, m)).1 with k.1. change (departure (k, m)).2 with m.
    destruct (now <? k.1); [cbn [fst snd]; by rewrite Hq |].
    pose proof (entries_delete_first _ _ _ _ Hq) as Hdel.
    assert (Hk : q !! k = Some m) by (apply elem_of_entries; rewrite Hq; by left).
    destruct (IH now (delete k q)) as [He Hin].
    { rewrite map_size_delete_Some by done. assert (size q <> 0%nat) by (intros Hz%map_size_empty_inv; by rewrite Hz in Hk). lia. }
    rewrite Hdel in He. destruct (drain_due fuel now (delete k q)) as [q' due]. simpl in *. rewrite He. split; [done |].
    intros k' Hk'%Hin. rewrite lookup_delete_is_Some in Hk'. apply Hk'.
Qed.

Lemma hold_call_agenda c h l :
  on_agenda h l -> oh_next h < int_max U64 ->
  exists h' l' a, hold_call c h = (h', a) /\ agenda_call (oh_capacity h) c l = (l', a) /\ on_agenda h' l' /\
    oh_capacity h' = oh_capacity h /\ oh_next h' <= oh_next h + 1.
Proof.
  intros (<- & Hlt & Hpos) Hmax. destruct c as [message at_|now_us]; cbn [hold_call agenda_call].
  - unfold hold, agenda_hold. rewrite length_fmap, entries_length. destruct (_ <=? _).
    { exists h, (departure <$> entries (oh_queue h)), (inl (Err (oh_capacity h))). split_and!; [done | done | by split | done | lia]. }
    assert (Hw : wrapping_add U64 (oh_next h) 1 = oh_next h + 1) by (unfold wrapping_add, wrap; apply Z.mod_small; lia).
    rewrite Hw. eexists _, _, _. split_and!; [reflexivity | reflexivity | | done | simpl; lia].
    split; cbn [oh_queue oh_next]; [by rewrite entries_insert_last, departure_insert by done |].
    split; [| lia]. intros k Hk%lookup_insert_is_Some. destruct Hk as [<-|[_ Hk]]; [simpl; lia |]. specialize (Hlt k Hk). lia.
  - unfold take_due. destruct (drain_due_agenda (size (oh_queue h)) now_us (oh_queue h) ltac:(lia)) as [He Hin].
    destruct (drain_due _ _ _) as [q due]. simpl in He, Hin. rewrite He. eexists _, _, _. split_and!; [reflexivity | reflexivity | | done | simpl; lia].
    split; [done |]. split; [| done]. intros k Hk%Hin. by apply Hlt.
Qed.

(** held messages leave in departure order. Whatever a host holds and
    whenever it polls, the outbound hold answers every call exactly as an
    agenda would: each accepted message leaves once, at the first poll that
    reaches its departure, by departure time and, when that is equal, in the
    order it was held; only a full hold refuses a message. *)
Theorem outbound_hold_is_an_agenda cs capacity :
  Z.of_nat (length cs) < int_max U64 ->
  (run_steps hold_call cs (OutboundHold_new capacity)).2 = (run_steps (agenda_call capacity) cs []).2.
Proof.
  intros Hlen. assert (H : forall h l, on_agenda h l -> oh_next h + Z.of_nat (length cs) < int_max U64 ->
    (run_steps hold_call cs h).2 = (run_steps (agenda_call (oh_capacity h)) cs l).2).
  { clear Hlen. induction cs as [|c cs IH]; intros h l Hl Hmax; [done |]. simpl in Hmax.
    destruct (hold_call_agenda c h l Hl ltac:(lia)) as (h' & l' & a & Hh & Ha & Hl' & Hcap & Hnext).
    cbn [run_steps]. rewrite Hh, Ha. specialize (IH h' l' Hl' ltac:(lia)). rewrite Hcap in IH.
    destruct (run_steps hold_call cs h'), (run_steps _ cs l'). simpl in *. by rewrite IH. }
  apply (H (OutboundHold_new capacity) []); [| done]. split; [apply entries_empty |]. split; [| done].
  intros k [x Hx]. cbn in Hx. by apply lookup_empty_Some in Hx.
Qed.
End outbound.
Arguments OutboundHold : clear implicits.
Arguments HoldCall : clear implicits.

(** ** Logging on *)

(** [RosterEntry], and the settings of [FixConfig] a session reads. *)
Record RosterEntry : Type := mkRosterEntry {
  re_target_comp_id : Text;
  re_username : Text;
  re_password : Text;
  re_role : ActorRole;
  re_participant_id : Z
}.
Record FixConfig : Type := mkFixConfig {
  xc_sender_comp_id : Text;
  xc_roster : list RosterEntry;
  xc_heartbeat_seconds : Z;
  xc_max_message_bytes : Z;
  xc_max_journal_messages : Z;
  xc_max_pending_inbound : Z
}.
(** The loop of [validate_fix] over the roster. *)
Fixpoint roster_valid (entries : list RosterEntry) (participants : gset Z) (usernames comp_ids : gset Text) : bool :=
  match entries with
  | [] => true
  | e :: entries =>
      negb (bool_decide (re_target_comp_id e = []) || bool_decide (re_username e = [])
            || (zlen (re_password e) <? 12) || (re_participant_id e =? 0)
            || bool_decide (re_participant_id e ∈ participants) || bool_decide (re_username e ∈ usernames)
            || bool_decide (re_target_comp_id e ∈ comp_ids))
      && roster_valid entries ({[re_participant_id e]} ∪ participants) ({[re_username e]} ∪ usernames)
           ({[re_target_comp_id e]} ∪ comp_ids)
  end.
Definition roster_ok (c : FixConfig) : bool :=
  negb (bool_decide (xc_sender_comp_id c = []) || bool_decide (xc_roster c = [])) && roster_valid (xc_roster c) ∅ ∅ ∅.

(** [fn constant_time_eq] *)
Definition byte_at (s : Text) (index : nat) : Z :=
  match s !! index with Some c => Z.of_N (N_of_ascii c) | None => 0 end.
Definition constant_time_eq (left right : Text) : bool :=
  let difference := foldl (fun d index => Z.lor d (Z.lxor (byte_at left index) (byte_at right index)))
                      (Z.lxor (zlen left) (zlen right)) (seq 0 256) in
  (difference =? 0) && (zlen left <=? 256) && (zlen right <=? 256).

(** [fn authenticate_logon]; [actor_role_name] is [role_str]. *)
Definition COMPETITION_PROFILE : Text := text "bunting.fixlatest.competition.v1".
Definition actor_role_name (role : ActorRole) : Text := text (role_str role).
Module LogonError.
Inductive LogonError : Type := CredentialsRejected | ProfileInvalid.
End LogonError.
Export LogonError (LogonError).
Definition names_entry (m : FixMessage) (e : RosterEntry) : bool :=
  bool_decide (message_value m 49 = Some (re_target_comp_id e))
  && constant_time_eq (default [] (message_value m 553)) (re_username e).
Definition authenticate_logon (m : FixMessage) (c : FixConfig) : result LogonError RosterEntry :=
  credential ← ok_or (snd <$> list_find (fun e => names_entry m e = true) (xc_roster c)) LogonError.CredentialsRejected;
  if negb (bool_decide (fm_msg_type m = text "A")
           && bool_decide (message_value m 56 = Some (xc_sender_comp_id c))
           && bool_decide (message_value m 1137 = Some FIX_50_SP2_APPL_VER_ID)
           && bool_decide (message_value m 10000 = Some COMPETITION_PROFILE)
           && bool_decide (message_value m 10004 = Some (actor_role_name (re_role credential))))
  then Err LogonError.ProfileInvalid
  else if negb (constant_time_eq (default [] (message_value m 554)) (re_password credential))
  then Err LogonError.CredentialsRejected
  else Ok credential.

(** What [handle_fix_connection] makes of a credential: the session's
    configuration, its first response and its actor. *)
Definition session_config (c : FixConfig) (e : RosterEntry) (limits : WireLimits) : SessionConfig :=
  mkSessionConfig (xc_sender_comp_id c) (re_target_comp_id e) (xc_heartbeat_seconds c) (xc_max_journal_messages c)
    (xc_max_pending_inbound c) limits [].
Definition logon_response (c : FixConfig) (e : RosterEntry) : FixMessage :=
  FixMessage_new (text "A") +: (98, text "0") +: (108, display_uint (xc_heartbeat_seconds c))
    +: (1137, FIX_50_SP2_APPL_VER_ID) +: (10000, COMPETITION_PROFILE) +: (10004, actor_role_name (re_role e)).
Definition session_actor (e : RosterEntry) : result ApplicationError VerifiedActor :=
  try_from_identity (mkActorIdentity (re_participant_id e) (re_role e)
    (if trades (re_role e) then Some (re_participant_id e) else None) None).

(** [fn read_first_message]: the reads of the socket, an empty one when the
    peer has closed it; a failing read is the end of the list. *)
Module LogonReadError.
Inductive LogonReadError : Type := ReadFailed | PeerDisconnected | LogonTooLong | Framing (e : WireError.WireError).
End LogonReadError.
Export LogonReadError (LogonReadError).
Fixpoint read_first_message `{FixDictionary} (reads : list Text) (decoder : Decoder) (collected : Text)
    : result LogonReadError (Text * FixMessage) :=
  match reads with
  | [] => Err LogonReadError.ReadFailed
  | [] :: _ => Err LogonReadError.PeerDisconnected
  | bytes :: reads =>
      let collected := collected ++ bytes in
      if wl_max_message_bytes (dc_limits decoder) <? zlen collected then Err LogonReadError.LogonTooLong
      else
        match decoder_push bytes decoder with
        | (_, Err e) => Err (LogonReadError.Framing e)
        | (_, Ok (message :: _)) => Ok (collected, message)
        | (decoder, Ok []) => read_first_message reads decoder collected
        end
  end.

Lemma foldl_lor_zero (f : nat -> Z) l : forall d,
  foldl (fun d index => Z.lor d (f index)) d l = 0 <-> d = 0 /\ Forall (fun index => f index = 0) l.
Proof.
  induction l as [|i l IH]; intros d; simpl; [naive_solver |]. rewrite IH, Z.lor_eq_0_iff, Forall_cons. naive_solver.
Qed.
Lemma constant_time_eq_spec (left right : Text) :
  constant_time_eq left right = true <-> left = right /\ zlen left <= 256.
Proof.
  unfold constant_time_eq. rewrite !andb_true_iff, Z.eqb_eq, !Z.leb_le, foldl_lor_zero, Z.lxor_eq_0_iff. split.
  - intros [[[Hlen Hall] Hl] Hr]. split; [| done]. unfold zlen in *. apply list_eq. intros i.
    destruct (decide (i < 256)%nat) as [Hi|Hi].
    + rewrite Forall_forall in Hall. specialize (Hall i). rewrite elem_of_seq, Z.lxor_eq_0_iff in Hall. specialize (Hall ltac:(lia)).
      unfold byte_at in Hall. destruct (left !! i) as [a|] eqn:Ha, (right !! i) as [b|] eqn:Hb; try done.
      * apply N2Z.inj, (f_equal ascii_of_N) in Hall. rewrite !ascii_N_embedding in Hall. by subst.
      * apply lookup_lt_Some in Ha. apply lookup_ge_None in Hb. lia.
      * apply lookup_lt_Some in Hb. apply lookup_ge_None in Ha. lia.
    + rewrite !lookup_ge_None_2 by lia. done.
  - intros [-> Hl]. split_and!; try done. apply Forall_forall. intros i _. apply Z.lxor_nilpotent.
Qed.

Lemma roster_valid_distinct es : forall ps us cs,
  roster_valid es ps us cs = true ->
  NoDup (re_target_comp_id <$> es) /\ Forall (fun e => re_target_comp_id e ∉ cs) es.
Proof.
  induction es as [|e es IH]; intros ps us cs; simpl; [split; constructor |].
  intros [Hc H]%andb_true_iff. apply negb_true_iff in Hc. rewrite !orb_false_iff, !bool_decide_eq_false in Hc.
  destruct Hc as [_ Hc]. destruct (IH _ _ _ H) as [Hn Hf]. split.
  - constructor; [| done]. intros (e' & He & Hin)%list_elem_of_fmap. rewrite Forall_forall in Hf. specialize (Hf e' Hin). set_solver.
  - constructor; [done |]. eapply Forall_impl; [exact Hf |]. set_solver.
Qed.

(** What a logon has to carry for a roster entry. *)
Record presents (m : FixMessage) (c : FixConfig) (e : RosterEntry) : Prop := {
  pr_type : fm_msg_type m = text "A";
  pr_sender : message_value m 49 = Some (re_target_comp_id e);
  pr_target : message_value m 56 = Some (xc_sender_comp_id c);
  pr_version : message_value m 1137 = Some FIX_50_SP2_APPL_VER_ID;
  pr_profile : message_value m 10000 = Some COMPETITION_PROFILE;
  pr_role : message_value m 10004 = Some (actor_role_name (re_role e));
  pr_username : default [] (message_value m 553) = re_username e /\ zlen (re_username e) <= 256;
  pr_password : default [] (message_value m 554) = re_password e /\ zlen (re_password e) <= 256
}.

(** C37: a logon is accepted for exactly the roster entry whose credentials
    it carries. With a roster the configuration check passes, a first message
    is accepted as an entry if and only if it is a Logon from that entry's
    company to the venue, with the venue's application version and profile,
    the entry's role, and the entry's username and password to the last byte;
    the comparison in constant time is equality, up to 256 bytes. *)
Theorem logon_needs_the_credential m c e :
  roster_ok c = true -> authenticate_logon m c = Ok e <-> e ∈ xc_roster c /\ presents m c e.
Proof.
  intros [_ [Hnd _]%roster_valid_distinct]%andb_true_iff. unfold authenticate_logon.
  assert (Hnames : forall e, names_entry m e = true <-> message_value m 49 = Some (re_target_comp_id e) /\
    default [] (message_value m 553) = re_username e /\ zlen (re_username e) <= 256).
  { intros e'. unfold names_entry. rewrite andb_true_iff, bool_decide_eq_true, constant_time_eq_spec. naive_solver congruence. }
  split.
  - destruct (list_find _ (xc_roster c)) as [[i x]|] eqn:Hf; [| done]. cbn.
    apply list_find_Some in Hf as (Hi & Hx & _). apply Hnames in Hx as (H1 & H2 & H3).
    destruct (negb _) eqn:Hp; [done |]. apply negb_false_iff in Hp. rewrite !andb_true_iff, !bool_decide_eq_true in Hp.
    destruct Hp as [[[[? ?] ?] ?] ?]. destruct (constant_time_eq (default [] (message_value m 554)) _) eqn:Hpw; [| done]. intros [= <-].
    apply constant_time_eq_spec in Hpw as [Hpw Hl]. split; [by eapply list_elem_of_lookup_2 |].
    split; try done. split; [done | congruence].
  - intros [Hin [H1 H2 H3 H4 H5 H6 [H7 H7'] [H8 H8']]]. apply list_elem_of_lookup in Hin as [i Hi].
    assert (Hf : list_find (fun e => names_entry m e = true) (xc_roster c) = Some (i, e)).
    { apply list_find_Some. split; [done |]. split; [by apply Hnames |]. intros j y Hj Hlt [Hy _]%Hnames.
      assert (i = j); [| lia]. eapply (NoDup_lookup _ i j (re_target_comp_id e) Hnd); rewrite list_lookup_fmap.
      - by rewrite Hi.
      - rewrite Hj. simpl. congruence. }
    rewrite Hf. cbn. rewrite H1, H3, H4, H5, H6. rewrite !bool_decide_true by done. cbn.
    rewrite (proj2 (constant_time_eq_spec _ _)); [done |]. by rewrite H8.
Qed.

(** ** The session's host

    What [handle_fix_connection] keeps: the session, its store, the messages
    held for their departure, the connection's probes and delay estimate, the
    latency model it asks for delays, the rate window, and the bytes written
    to the socket so far. *)

Module HostError.
Inductive HostError : Type :=
  | SessionLog (e : LogError)
  | Session (e : SessionError)
  | ReportMapping (e : ApplicationError)
  | OutboundFull (limit : Z)
  | NoDelay (e : AdmissionError)
  | MarketFeed (e : FeedFailure)
  | RunRead (e : ApplicationError)
  | StreamClosed
  | SocketWrite
  | JobFailed
  | JournalUnreadable
  | UnhandledApplication
  | DisconnectRequested.
End HostError.
Export HostError (HostError).

(** [ConnectionLatency]; its health is reported to the admission service. *)
Record ConnectionLatency : Type := mkConnectionLatency {
  cl_connection : Z;
  cl_estimator : DelayEstimator;
  cl_probes : gmap Z Z;
  cl_next_probe_id : Z;
  cl_next_probe_us : Z
}.
Definition ConnectionLatency_new (connection : Z) : ConnectionLatency := mkConnectionLatency connection DelayEstimator_new ∅ 0 0.
Definition LOGON_PROBES : nat := 3.
Definition MAX_OUTSTANDING_PROBES : nat := 16.
(** [u64::rotate_left(32)], [fn spread] *)
Definition rotate_left_32 (v : Z) : Z := Z.lor (Z.shiftl v 32 mod 2 ^ 64) (Z.shiftr v 32).
Definition spread (connection probe : Z) : Z := splitmix64 (Z.lxor connection (rotate_left_32 probe)).
(** [while self.probes.len() > MAX_OUTSTANDING_PROBES { self.probes.pop_first() }] *)
Fixpoint drop_oldest (fuel : nat) (probes : gmap Z Z) : gmap Z Z :=
  match fuel with
  | O => probes
  | S fuel =>
      if (size probes <=? MAX_OUTSTANDING_PROBES)%nat then probes
      else match first_entry probes with
           | Some (id, _) => drop_oldest fuel (delete id probes)
           | None => probes
           end
  end.
Definition saturating_mul (t : int_ty) (a b : Z) : Z := Z.min (a * b) (int_max t).
(** [ConnectionLatency::probe], after the frame is written. *)
Definition probe_sent (probe_interval_ms id sent_us : Z) (l : ConnectionLatency) : ConnectionLatency :=
  let probes := <[id := sent_us]> (cl_probes l) in
  let base_us := Z.max (saturating_mul U64 probe_interval_ms 1000) 2 in
  mkConnectionLatency (cl_connection l) (cl_estimator l) (drop_oldest (size probes) probes) (cl_next_probe_id l)
    (saturating_add U64 (saturating_add U64 sent_us (base_us / 2)) (spread (cl_connection l) id mod base_us)).
(** [ConnectionLatency::on_response] *)
Definition probe_key (id : Text) : option Z :=
  if bool_decide (take 4 id = text "rtt-") then parse_uint U64 (drop 4 id) else None.
Definition on_response (id : Text) (now_us : Z) (l : ConnectionLatency) : ConnectionLatency :=
  match key ← probe_key id; (fun sent_us => (key, sent_us)) <$> cl_probes l !! key with
  | Some (key, sent_us) =>
      mkConnectionLatency (cl_connection l) (record_probe (saturating_sub now_us sent_us) (cl_estimator l))
        (delete key (cl_probes l)) (cl_next_probe_id l) (cl_next_probe_us l)
  | None => l
  end.
(** [ConnectionLatency::refresh_kernel] with the kernel's reading, [report] *)
Definition refresh_kernel (reading : option Z) (l : ConnectionLatency) : ConnectionLatency :=
  match reading with
  | Some min_rtt_us => mkConnectionLatency (cl_connection l) (record_kernel_min min_rtt_us (cl_estimator l)) (cl_probes l)
                         (cl_next_probe_id l) (cl_next_probe_us l)
  | None => l
  end.
Definition connection_health (participant : Z) (l : ConnectionLatency) : ConnectionHealth :=
  mkConnectionHealth participant (rtt_source (cl_estimator l)) (de_kernel_min_us (cl_estimator l))
    (de_probe_min_us (cl_estimator l)) (de_probe_samples (cl_estimator l)) (one_way_us (cl_estimator l)).

Record FixHost : Type := mkFixHost {
  fh_session : FixSession;
  fh_store : SessionStore;
  fh_outbound : OutboundHold FixMessage;
  fh_latency : ConnectionLatency;
  fh_model : LatencyModel;
  fh_rate_started_ms : Z;
  fh_rate_messages : Z;
  fh_socket : Text
}.
Definition with_session_state (v : FixSession) (h : FixHost) : FixHost :=
  mkFixHost v (fh_store h) (fh_outbound h) (fh_latency h) (fh_model h) (fh_rate_started_ms h) (fh_rate_messages h) (fh_socket h).
Definition with_store (v : SessionStore) (h : FixHost) : FixHost :=
  mkFixHost (fh_session h) v (fh_outbound h) (fh_latency h) (fh_model h) (fh_rate_started_ms h) (fh_rate_messages h) (fh_socket h).
Definition with_outbound (v : OutboundHold FixMessage) (h : FixHost) : FixHost :=
  mkFixHost (fh_session h) (fh_store h) v (fh_latency h) (fh_model h) (fh_rate_started_ms h) (fh_rate_messages h) (fh_socket h).
Definition with_latency (v : ConnectionLatency) (h : FixHost) : FixHost :=
  mkFixHost (fh_session h) (fh_store h) (fh_outbound h) v (fh_model h) (fh_rate_started_ms h) (fh_rate_messages h) (fh_socket h).
Definition with_delays (v : LatencyModel) (h : FixHost) : FixHost :=
  mkFixHost (fh_session h) (fh_store h) (fh_outbound h) (fh_latency h) v (fh_rate_started_ms h) (fh_rate_messages h) (fh_socket h).
Definition with_rate (started_ms messages : Z) (h : FixHost) : FixHost :=
  mkFixHost (fh_session h) (fh_store h) (fh_outbound h) (fh_latency h) (fh_model h) started_ms messages (fh_socket h).
Definition with_socket (v : Text) (h : FixHost) : FixHost :=
  mkFixHost (fh_session h) (fh_store h) (fh_outbound h) (fh_latency h) (fh_model h) (fh_rate_started_ms h) (fh_rate_messages h) v.

(** What the world answers to one write: the commands the origin holds, the
    disk, and the bytes the socket takes before it fails. *)
Record Wire : Type := mkWire {
  wi_journaled : MarketEvents.Command -> bool;
  wi_disk : LogDisk;
  wi_takes : option nat
}.
(** One read: the bytes, when they arrived and what the clocks say. *)
Record Arrival : Type := mkArrival {
  av_bytes : Text;
  av_received_us : Z;
  av_timestamp : Text;
  av_millis : Z;
  av_rate_ms : Z;
  av_now_us : Z
}.
(** The settings of the venue the loop reads. *)
Record HostSettings : Type := mkHostSettings {
  hs_participant : Z;
  hs_run_id : Z;
  hs_rate_limit_window_ms : Z;
  hs_max_messages_per_interval : Z;
  hs_probe_interval_ms : Z
}.

(** [fn frames_of] *)
Fixpoint frames_of (actions : list SessionAction) : result HostError (list Text * bool) :=
  match actions with
  | [] => Ok ([], false)
  | SessionAction.Send frame :: actions =>
      '(frames, disconnect) ← frames_of actions; Ok (frame :: frames, disconnect)
  | SessionAction.Disconnect :: _ => Ok ([], true)
  | SessionAction.Application _ :: _ => Err HostError.UnhandledApplication
  | (SessionAction.Persist | SessionAction.PeerLogon _ | SessionAction.TestResponse _) :: actions => frames_of actions
  end.
(** [fn inbound_complete] *)
Definition inbound_complete (s : FixSession) : bool :=
  bool_decide (ss_state (fs_snapshot s) = ConnectionState.Established)
  && bool_decide (ss_pending_resend_begin (fs_snapshot s) = None)
  && bool_decide (ss_pending_inbound (fs_snapshot s) = ∅).

Section host.
Context `{HH : !Sha256} `{HD : !FixDictionary} `{HC : !SessionCodec}.
(** The settings, and the text of a mapping error. *)
Context (hs : HostSettings) (describe : ApplicationError -> Text).
#[local] Notation Hosting A := (M FixHost HostError A) (only parsing).

Definition on_session {A} (m : M FixSession SessionError A) : Hosting A := fun h =>
  let '(s, r) := m (fh_session h) in (with_session_state s h, map_err HostError.Session r).
(** [ConnectionLatency::delay_from] *)
Definition delay_from (source : Endpoint) : Hosting Z := fun h =>
  let '(model, r) := delay_us source (Participant (hs_participant hs)) (fh_model h) in
  (with_delays model h, map_err HostError.NoDelay r).
Definition hold_message (message : FixMessage) (send_at_us : Z) : Hosting unit := fun h =>
  let '(outbound, r) := hold message send_at_us (fh_outbound h) in (with_outbound outbound h, map_err HostError.OutboundFull r).
Definition persist_session (w : Wire) : Hosting unit := fun h =>
  let '(s, r) := persist (wi_journaled w) (fh_session h) (wi_disk w) (fh_store h) in
  (with_store s h, map_err HostError.SessionLog r).
(** [fn write_frames], [fn write_frame] *)
Definition write_frames (w : Wire) (frames : list Text) : Hosting unit := fun h =>
  let bytes := List.concat frames in
  match wi_takes w with
  | Some n => if (n <? length bytes)%nat then (with_socket (fh_socket h ++ take n bytes) h, Err HostError.SocketWrite)
              else (with_socket (fh_socket h ++ bytes) h, Ok tt)
  | None => (with_socket (fh_socket h ++ bytes) h, Ok tt)
  end.
(** [fn process_session_actions] *)
Definition process_session_actions (actions : list SessionAction) (w : Wire) : Hosting unit :=
  '(frames, disconnect) ← lift (frames_of actions);
  (match frames with [] => mret tt | _ => persist_session w;; write_frames w frames end);;
  refuse_if disconnect HostError.DisconnectRequested.
(** [fn send_messages]; each message has its own timestamp. *)
Fixpoint sequence_messages (messages : list (FixMessage * Text)) : Hosting (list SessionAction) :=
  match messages with
  | [] => mret []
  | (message, timestamp) :: messages =>
      actions ← on_session (send_application message timestamp);
      more ← sequence_messages messages;
      mret (actions ++ more)
  end.
Definition send_messages (messages : list (FixMessage * Text)) (w : Wire) : Hosting unit :=
  actions ← sequence_messages messages;
  process_session_actions actions w.
(** [ConnectionLatency::probe] *)
Definition host_probe (timestamp : Text) (millis sent_us : Z) (w : Wire) : Hosting unit :=
  id ← gets (fun h => cl_next_probe_id (fh_latency h));
  modify (fun h => with_latency (mkConnectionLatency (cl_connection (fh_latency h)) (cl_estimator (fh_latency h))
    (cl_probes (fh_latency h)) (wrapping_add U64 id 1) (cl_next_probe_us (fh_latency h))) h);;
  actions ← on_session (session_probe (text "rtt-" ++ display_uint id) timestamp millis);
  '(frames, disconnect) ← lift (frames_of actions);
  persist_session w;;
  write_frames w frames;;
  refuse_if disconnect HostError.DisconnectRequested;;
  modify (fun h => with_latency (probe_sent (hs_probe_interval_ms hs) id sent_us (fh_latency h)) h).

(** ** Inbound messages *)

(** The rate window, and [admit_message]; [admitted] says what
    [admit_request] answers to the mapped requests of one read, one after the
    other: the reason a request is refused, if it is. *)
Definition over_rate (now_ms : Z) : Hosting bool :=
  started ← gets fh_rate_started_ms;
  (if hs_rate_limit_window_ms hs <=? now_ms - started then modify (with_rate now_ms 0) else mret tt);;
  messages ← gets fh_rate_messages;
  if hs_max_messages_per_interval hs <=? messages then mret true
  else (started ← gets fh_rate_started_ms;
        modify (with_rate started (saturating_add U64 messages 1));;
        mret false).
Definition admit_message (admitted : FixApplicationRequest -> result HostError (option Text)) (message : FixMessage) (request_id : Z)
    : Hosting (option Text) := fun h =>
  let '(store, request) := store_map_message message (log_context (hs_participant hs) (hs_run_id hs) request_id) (fh_store h) in
  (with_store store h, match request with Ok request => admitted request | Err e => Ok (Some (describe e)) end).
Definition rate_reason : Text :=
  text "max_messages_per_interval limit " ++ display_uint (hs_max_messages_per_interval hs).
Definition on_application (a : Arrival) (admitted : FixApplicationRequest -> result HostError (option Text)) (message : FixMessage)
    : Hosting unit :=
  over ← over_rate (av_rate_ms a);
  rejection ← (if (over : bool) then mret (Some rate_reason)
               else (request_id ← gets (fun h => ss_incoming_sequence (fs_snapshot (fh_session h)));
                     admit_message admitted message request_id));
  match rejection with
  | Some reason =>
      delay ← delay_from Hub;
      hold_message (business_reject (fm_msg_type message) reason) (saturating_add U64 (av_received_us a) delay)
  | None => mret tt
  end.
(** The loop over the actions of one read: application messages are admitted,
    the replies are what is left. *)
Fixpoint take_actions (a : Arrival) (admitted : nat -> FixApplicationRequest -> result HostError (option Text)) (actions : list SessionAction)
    : Hosting (list SessionAction) :=
  match actions with
  | [] => mret []
  | SessionAction.Application message :: actions =>
      on_application a (admitted 0%nat) message;;
      take_actions a (fun i => admitted (S i)) actions
  | SessionAction.TestResponse id :: actions =>
      modify (fun h => with_latency (on_response id (av_now_us a) (fh_latency h)) h);;
      take_actions a admitted actions
  | SessionAction.PeerLogon _ :: actions => take_actions a admitted actions
  | SessionAction.Disconnect :: _ => mret [SessionAction.Disconnect]
  | other :: actions => replies ← take_actions a admitted actions; mret (other :: replies)
  end.
Definition host_bytes (a : Arrival) (admitted : nat -> FixApplicationRequest -> result HostError (option Text)) (w : Wire) : Hosting unit :=
  actions ← on_session (receive_bytes_at (av_bytes a) (av_timestamp a) (av_millis a));
  replies ← take_actions a admitted actions;
  process_session_actions replies w.
(** The first message, authenticated before, and the response to it. *)
Definition host_logon (a : Arrival) (response : FixMessage) (timestamp : Text) (w w' : Wire) : Hosting unit :=
  actions ← on_session (receive_bytes_at (av_bytes a) (av_timestamp a) (av_millis a));
  process_session_actions actions w;;
  send_messages [(response, timestamp)] w'.
Definition host_poll (millis : Z) (timestamp : Text) (w : Wire) : Hosting unit :=
  actions ← on_session (poll millis timestamp);
  process_session_actions actions w.

(** ** Outbound messages *)

Definition hold_all (messages : list FixMessage) (send_at_us : Z) : Hosting unit :=
  for_each (fun message => hold_message message send_at_us) messages.
(** The answer of a released job; [sent_us] is when the market data feed it
    starts last sent a message. *)
Definition not_before (sent_us : option Z) (send_at_us : Z) : Z :=
  match sent_us with Some sent_us => Z.max sent_us send_at_us | None => send_at_us end.
Definition host_reply (result : option (list FixMessage)) (completed_us : Z) (source : Endpoint) (sent_us : option Z)
    : Hosting unit :=
  messages ← lift (ok_or result HostError.JobFailed);
  delay ← delay_from source;
  hold_all messages (not_before sent_us (saturating_add U64 completed_us delay)).
(** [fn hold_feed] for a feed that last sent a message at [sent_us]. *)
Definition host_hold (message : FixMessage) (available_us : Z) (source : Endpoint) (sent_us : option Z) : Hosting unit :=
  delay ← delay_from source;
  hold_message message (not_before sent_us (saturating_add U64 available_us delay)).
(** [fn hold_reports] *)
Definition hold_reports (events : list EventEnvelope) (send_at_us : Z) : Hosting unit :=
  messages ← (fun h =>
    let '(store, r) := store_committed (hs_participant hs) events send_at_us (fh_store h) in
    (with_store store h, map_err HostError.ReportMapping r));
  hold_all messages send_at_us.
(** A batch the distributor retained, a live batch, and the catch-up of a
    restored session: from what the distributor retained, or from the
    origin's journal. *)
Definition hold_batch (b : Committed) : Hosting unit :=
  delay ← delay_from (cm_source b);
  hold_reports (cm_events b) (saturating_add U64 (cm_durable_us b) delay).
Definition live_batch (b : Committed) : Hosting unit :=
  seen ← gets (fun h => dl_seen_through (st_delivery (fh_store h)));
  match last_sequence (cm_events b) with
  | Some last => if last <=? seen then mret tt else hold_batch b
  | None => hold_batch b
  end.
Section host_catch_up.
Context `{HS : !Snapshots RunState} `{HW : !StoreCodec RunState} `{HJ : !JournalCodec}.
Definition host_catch_up (resume : Resume) (journal : Bytes) (now_us : Z) : Hosting unit :=
  match resume with
  | Resume.Replay batches => for_each hold_batch batches
  | Resume.Gap =>
      after ← gets (fun h => dl_seen_through (st_delivery (fh_store h)));
      committed_batches_after (EngineError := EngineError) HostError.JournalUnreadable journal (hs_run_id hs) after
        (fun events => hold_reports events now_us);;
      mret tt
  end.
End host_catch_up.
(** The due messages, each with its timestamp; marked written first. *)
Definition host_write (now_us : Z) (stamp : nat -> Text) (w : Wire) : Hosting unit :=
  due ← (fun h => let '(outbound, due) := take_due now_us (fh_outbound h) in (with_outbound outbound h, Ok due));
  match (due : list FixMessage) with
  | [] => mret tt
  | _ =>
      modify (fun h => with_store (store_on_written now_us (fh_store h)) h);;
      send_messages (imap (fun i message => (message, stamp i)) due) w
  end.
End host.

(** ** Witnesses *)

Lemma outbound_hold_is_an_agenda_witness :
  Z.of_nat 4 < int_max U64 /\
  (run_steps hold_call [CallHold 1%nat 50; CallHold 2%nat 40; CallHold 3%nat 50; CallTakeDue 60] (OutboundHold_new 2)).2
    = [inl (Ok tt); inl (Ok tt); inl (Err 2); inr [2%nat; 1%nat]].
Proof.
  split; [done |]. etrans.
  - apply (outbound_hold_is_an_agenda [CallHold 1%nat 50; CallHold 2%nat 40; CallHold 3%nat 50; CallTakeDue 60] 2). done.
  - vm_compute. reflexivity.
Defined.

Module SampleLogon.
Definition first : RosterEntry := mkRosterEntry (text "TEAM1") (text "one") (text "password one") ActorRole.Participant 1.
Definition second : RosterEntry := mkRosterEntry (text "TEAM2") (text "two") (text "password two") ActorRole.Participant 2.
Definition config : FixConfig := mkFixConfig (text "VENUE") [first; second] 30 4096 128 16.
Definition logon (password : String.string) : FixMessage :=
  FixMessage_new (text "A") +: (49, text "TEAM2") +: (56, text "VENUE") +: (1137, FIX_50_SP2_APPL_VER_ID)
    +: (10000, COMPETITION_PROFILE) +: (10004, text "participant") +: (553, text "two") +: (554, text password).
End SampleLogon.

Lemma logon_needs_the_credential_witness :
  roster_ok SampleLogon.config = true /\
  (authenticate_logon (SampleLogon.logon "password two") SampleLogon.config = Ok SampleLogon.second <->
   SampleLogon.second ∈ xc_roster SampleLogon.config /\
   presents (SampleLogon.logon "password two") SampleLogon.config SampleLogon.second) /\
  authenticate_logon (SampleLogon.logon "password two") SampleLogon.config = Ok SampleLogon.second.
Proof.
  assert (H : roster_ok SampleLogon.config = true) by (vm_compute; reflexivity).
  split; [exact H |]. split; [apply (logon_needs_the_credential _ _ _ H) | vm_compute; reflexivity].
Defined.
