(* ===== verification/HostTheorems.v ===== *)
(** * What a FIX session's host keeps and shows

    The host writes its log ahead of the socket, and a restored session
    applies every batch it missed exactly once. *)

From S2P Require Import Prelude Ordered Hoare MarketTypes MarketEvents Digest Latency Transition Engine Origin.
From S2P Require Import EngineTheorems Venue Durability.
From S2P Require Import FixWire FixSession FixSessionFacts FixSessionTheorems FixMapping Execution Adapter Application FixApplication Competition.
From S2P Require Import WalFrames FileOrigin FileOriginTheorems SessionStore SessionStoreTheorems MarketFeed Publishing Distributor.
From S2P Require Import Admission SessionHost.
#[local] Open Scope list_scope.

(** ** The calls of the session loop *)

Section host.
Context `{HH : !Sha256} `{HD : !FixDictionary} `{HC : !SessionCodec}.
Context (hs : HostSettings) (describe : ApplicationError -> Text) (c : SessionConfig).
#[local] Notation Hosting A := (M FixHost HostError A) (only parsing).

Inductive HostCall : Type :=
  | CallFirst (a : Arrival) (w : Wire)
  | CallRespond (response : FixMessage) (timestamp : Text) (w : Wire)
  | CallBytes (a : Arrival) (admitted : nat -> FixApplicationRequest -> result HostError (option Text)) (w : Wire)
  | CallPoll (millis : Z) (timestamp : Text) (w : Wire)
  | CallProbe (timestamp : Text) (millis sent_us : Z) (w : Wire)
  | CallReply (result : option (list FixMessage)) (completed_us : Z) (source : Endpoint) (sent_us : option Z)
  | CallHold (message : FixMessage) (available_us : Z) (source : Endpoint) (sent_us : option Z)
  | CallOwed (messages : list FixMessage) (now_us : Z)
  | CallMissed (events : list EventEnvelope) (send_at_us : Z)
  | CallBatch (b : Committed)
  | CallWrite (now_us : Z) (stamp : nat -> Text) (w : Wire)
  | CallClose (w : Wire).
Definition host_call (call : HostCall) : Hosting unit :=
  match call with
  | CallFirst a w =>
      actions ← on_session (receive_bytes_at (av_bytes a) (av_timestamp a) (av_millis a));
      process_session_actions actions w
  | CallRespond response timestamp w => send_messages [(response, timestamp)] w
  | CallBytes a admitted w => host_bytes hs describe a admitted w
  | CallPoll millis timestamp w => host_poll millis timestamp w
  | CallProbe timestamp millis sent_us w => host_probe hs timestamp millis sent_us w
  | CallReply result completed_us source sent_us => host_reply hs result completed_us source sent_us
  | CallHold message available_us source sent_us => host_hold hs message available_us source sent_us
  | CallOwed messages now_us => hold_all messages now_us
  | CallMissed events send_at_us => hold_reports hs events send_at_us
  | CallBatch b => live_batch hs b
  | CallWrite now_us stamp w => host_write now_us stamp w
  | CallClose w => persist_session w
  end.
Lemma host_logon_calls a response timestamp w w' h :
  host_logon a response timestamp w w' h = (host_call (CallFirst a w);; host_call (CallRespond response timestamp w')) h.
Proof.
  unfold host_logon. cbn [host_call]. unfold mbind, M_bind. by destruct (on_session _ h) as [h1 [actions|e]].
Qed.

(** ** Calls that leave socket and log alone *)

Record unlogged (h h' : FixHost) : Prop := {
  ul_socket : fh_socket h' = fh_socket h;
  ul_log : st_log (fh_store h') = st_log (fh_store h)
}.
Record quiet (h h' : FixHost) : Prop := {
  qu_unlogged : unlogged h h';
  qu_life : forall D, life c D (fh_store h) (fh_session h) -> life c D (fh_store h') (fh_session h')
}.
#[local] Instance unlogged_preorder : PreOrder unlogged.
Proof. split; [by split |]. intros x y z [? ?] [? ?]. split; congruence. Qed.
#[local] Instance quiet_preorder : PreOrder quiet.
Proof. split; [by split |]. intros x y z [? ?] [? ?]. split; [by etransitivity | eauto]. Qed.

Lemma quiet_same h h' :
  fh_socket h' = fh_socket h -> fh_store h' = fh_store h -> fh_session h' = fh_session h -> quiet h h'.
Proof. intros H1 H2 H3. split; [split; congruence |]. by rewrite H2, H3. Qed.

Definition calm {A} (m : Hosting A) : Prop := forall h, wp m (fun _ => quiet h) (unlogged h) h.
Lemma calm_ret {A} (a : A) : calm (mret a).
Proof. intros h. by apply wp_ret. Qed.
Lemma calm_gets {A} (f : FixHost -> A) : calm (gets f).
Proof. intros h. by apply wp_gets. Qed.
Lemma calm_lift {A} (r : result HostError A) : calm (lift r).
Proof. intros h. by apply wp_lift. Qed.
Lemma calm_refuse b e : calm (refuse_if b e).
Proof. intros h. by apply wp_refuse. Qed.
Lemma calm_modify f : (forall h, quiet h (f h)) -> calm (modify f).
Proof. intros Hf h. apply wp_modify, Hf. Qed.
Lemma calm_bind {A B} (m : Hosting A) (f : A -> Hosting B) : calm m -> (forall a, calm (f a)) -> calm (m ≫= f).
Proof.
  intros Hm Hf h. apply wp_bind. eapply wp_mono; [apply Hm | | done]. intros a h1 H1.
  eapply wp_mono; [apply Hf | |].
  - intros b h2 H2. exact (transitivity H1 H2).
  - intros h2 H2. exact (transitivity (qu_unlogged _ _ H1) H2).
Qed.
Lemma calm_for_each {A} (f : A -> Hosting unit) l : (forall x, calm (f x)) -> calm (for_each f l).
Proof. intros Hf. induction l as [|x l IH]; [apply calm_ret |]. apply calm_bind; [done |]. by intros []. Qed.
Ltac calm_step :=
  lazymatch goal with
  | |- calm (mbind _ _) => apply calm_bind; [| intros ?]
  | |- calm (mret _) => apply calm_ret
  | |- calm (gets _) => apply calm_gets
  | |- calm (lift _) => apply calm_lift
  | |- calm (refuse_if _ _) => apply calm_refuse
  | |- calm (modify _) => apply calm_modify; intros ?; by apply quiet_same
  | |- calm (for_each _ _) => apply calm_for_each; intros ?
  | |- calm (match ?x with _ => _ end) => destruct x
  end.

Lemma calm_session call : calm (on_session (run_call call)).
Proof.
  intros h. unfold wp, on_session. destruct (run_call call (fh_session h)) as [s r] eqn:Hr.
  assert (Hl : forall D, life c D (fh_store h) (fh_session h) -> life c D (fh_store h) s) by (intros D Hd; by eapply life_call).
  by destruct r.
Qed.
Lemma calm_delay source : calm (delay_from hs source).
Proof. intros h. unfold wp, delay_from. destruct (delay_us _ _ _) as [model [d|e]]; by apply quiet_same. Qed.
Lemma calm_hold message send_at_us : calm (hold_message message send_at_us).
Proof. intros h. unfold wp, hold_message. destruct (hold _ _ _) as [o [u|e]]; by apply quiet_same. Qed.
Lemma calm_hold_all messages send_at_us : calm (hold_all messages send_at_us).
Proof. apply calm_for_each. intros. apply calm_hold. Qed.
Lemma calm_hold_reports events send_at_us : calm (hold_reports hs events send_at_us).
Proof.
  apply calm_bind; [| intros; apply calm_hold_all]. intros h. unfold wp.
  destruct (store_committed _ events send_at_us (fh_store h)) as [s r] eqn:Hr.
  assert (Hlog : st_log s = st_log (fh_store h)).
  { unfold store_committed in Hr. destruct (committed_messages _ _ _) as [app [ms|e]]; [| by injection Hr as <- <-].
    destruct (last events), (st_writer _) as [w|] eqn:Hw in Hr; cbn in Hr, Hw; try rewrite Hw in Hr; try (destruct (_ || _) in Hr); by injection Hr as <- <-. }
  destruct r as [ms|e]; [| done]. split; [done |]. intros D Hd. by eapply life_committed.
Qed.
Lemma calm_batch b : calm (hold_batch hs b).
Proof. unfold hold_batch. calm_step; [apply calm_delay | apply calm_hold_reports]. Qed.
Lemma calm_live b : calm (live_batch hs b).
Proof. unfold live_batch. repeat (calm_step || apply calm_batch). Qed.
Lemma calm_admit admitted message request_id : calm (admit_message hs describe admitted message request_id).
Proof.
  intros h. unfold wp, admit_message. destruct (store_map_message message _ (fh_store h)) as [s r] eqn:Hr.
  assert (Hul : unlogged h (with_store s h)).
  { split; [done |]. cbn. unfold store_map_message in Hr. destruct (map_message _ _ _) as [app q]. cbn in Hr.
    destruct (st_writer (fh_store h)); by injection Hr as <- <-. }
  assert (Hq : quiet h (with_store s h)) by (split; [done |]; intros D Hd; by eapply life_map).
  destruct r as [request|e]; [| done]. by destruct (admitted request).
Qed.
Lemma calm_application a admitted message : calm (on_application hs describe a admitted message).
Proof. unfold on_application, over_rate. repeat (calm_step || apply calm_admit || apply calm_delay || apply calm_hold). Qed.
Lemma calm_take_actions a actions : forall admitted, calm (take_actions hs describe a admitted actions).
Proof. induction actions as [|[] actions IH]; intros admitted; cbn [take_actions]; repeat (calm_step || apply calm_application || apply IH). Qed.
Lemma calm_sequence messages : calm (sequence_messages messages).
Proof.
  induction messages as [|[m t] messages IH]; cbn [sequence_messages]; [calm_step |].
  calm_step; [apply (calm_session (SendApplication m t)) | repeat (calm_step || apply IH)].
Qed.

(** ** What a call leaves *)

(** A logged state shows the host of a moment. *)
Definition shows_host (m : Moment) (h : FixHost) : Prop :=
  mt_session m = fs_snapshot (fh_session h) /\ mt_application m = st_application (fh_store h) /\
  mt_delivery m = st_delivery (fh_store h).
Inductive outcome (D : Moment) (h h' : FixHost) (ok : bool) : Prop :=
  | outcome_unlogged :
      fh_socket h' = fh_socket h -> life c D (fh_store h') (fh_session h') -> outcome D h h' ok
  | outcome_logged : life c (moment (fh_store h') (fh_session h')) (fh_store h') (fh_session h') -> outcome D h h' ok
  | outcome_failed m :
      ok = false -> fh_socket h' = fh_socket h -> resumes c (st_log (fh_store h')) m -> m = D \/ shows_host m h' ->
      outcome D h h' ok.

Lemma tracks_resumes D s session : config_ok c -> tracks c D s session -> resumes c (st_log s) D.
Proof.
  intros Hc [(w & r & r' & _ & Hl & Ha & _) _ Hb _ _ _ _]. rewrite <- (app_nil_r (st_log s)).
  eapply log_resumes; [done | by apply torn_nil | exact Hl | exact Ha | exact Hb].
Qed.
Lemma calm_outcome {A} (m : Hosting A) D h h' r :
  config_ok c -> calm m -> life c D (fh_store h) (fh_session h) -> m h = (h', r) ->
  outcome D h h' (is_ok r) /\ (is_ok r = true -> quiet h h').
Proof.
  intros Hc Hm Hd Hr. specialize (Hm h). unfold wp in Hm. rewrite Hr in Hm. destruct r as [a|e].
  - split; [| done]. destruct Hm as [[] Hl]. apply outcome_unlogged; [done | by apply Hl].
  - split; [| done]. destruct Hm as [Hs Hl]. eapply (outcome_failed _ _ _ _ D); [done | done | | by left].
    rewrite Hl. eapply tracks_resumes; [done |]. by apply life_tracks.
Qed.

Definition same_work (s s' : SessionStore) : Prop :=
  st_application s' = st_application s /\ st_delivery s' = st_delivery s.
#[local] Instance same_work_preorder : PreOrder same_work.
Proof. split; [done |]. intros x y z [? ?] [? ?]. split; congruence. Qed.
Lemma persist_same_work journaled session disk : stays same_work (persist journaled session disk).
Proof.
  assert (Hc : forall session in_flight, stays same_work (writer_checkpoint session in_flight disk)).
  { intros s l. unfold writer_checkpoint. repeat (stays_step || case_match); done. }
  unfold persist, append_delta. repeat (stays_step || case_match || apply Hc); done.
Qed.
Lemma persist_outcome_host w D h h' r :
  config_ok c -> life c D (fh_store h) (fh_session h) -> persist_session w h = (h', r) ->
  outcome D h h' (is_ok r) /\ fh_session h' = fh_session h /\
  (is_ok r = true -> life c (moment (fh_store h') (fh_session h')) (fh_store h') (fh_session h')).
Proof.
  intros Hc Hd. unfold persist_session. destruct (persist _ _ _ _) as [s r'] eqn:Hp. intros [= <- <-].
  pose proof (stays_state _ _ (fh_store h) (persist_same_work (wi_journaled w) (fh_session h) (wi_disk w))) as [Ha Hdl].
  rewrite Hp in Ha, Hdl. cbn [fst] in Ha, Hdl. destruct r' as [[]|e]; cbn [is_ok map_err fh_store fh_session with_store].
  - assert (Hl : life c (moment s (fh_session h)) s (fh_session h)) by (by eapply life_persist).
    split; [by apply outcome_logged | done].
  - split; [| done]. pose proof (life_tracks _ _ _ _ Hc Hd) as Ht.
    apply (persist_outcome c D) in Hp; [| done]. apply leaves_resumes in Hp as (m & Hm & _ & _ & _ & Hcase); [| done | done].
    eapply (outcome_failed _ _ _ _ m); [done | done | exact Hm |]. cbn [is_ok] in Hcase.
    destruct Hcase as [->|Hpres]; [by left | right]. unfold shows_host. cbn. rewrite Ha, Hdl. by destruct Hpres as [->| ->].
Qed.

(** Once the log holds the moment, the rest of a call may use the socket. *)
Definition socket_only (h h' : FixHost) : Prop := fh_store h' = fh_store h /\ fh_session h' = fh_session h.
#[local] Instance socket_only_preorder : PreOrder socket_only.
Proof. split; [done |]. intros x y z [? ?] [? ?]. split; congruence. Qed.
Lemma write_frames_only w frames : stays socket_only (write_frames w frames).
Proof. intros h. unfold wp, write_frames, socket_only. destruct (wi_takes w) as [n|]; [destruct (n <? _)%nat |]; done. Qed.
Lemma after_persist {A} w (rest : Hosting A) D h h' r :
  config_ok c -> stays socket_only rest -> life c D (fh_store h) (fh_session h) ->
  (persist_session w;; rest) h = (h', r) -> outcome D h h' (is_ok r).
Proof.
  intros Hc Hrest Hd. unfold mbind, M_bind. destruct (persist_session w h) as [h1 [[]|e]] eqn:Hp.
  - intros Hr. pose proof (stays_state _ _ h1 Hrest) as [Hs Hses]. rewrite Hr in Hs, Hses. cbn [fst] in *.
    apply persist_outcome_host with (D := D) in Hp as (_ & _ & Hl); [| done | done]. apply outcome_logged.
    rewrite Hs, Hses. by apply Hl.
  - intros [= <- <-]. apply persist_outcome_host with (D := D) in Hp as (Ho & _); done.
Qed.
(** A call that first works quietly. *)
Lemma after_calm {A B} (m : Hosting A) (rest : A -> Hosting B) D h h' r :
  config_ok c -> calm m -> life c D (fh_store h) (fh_session h) ->
  (forall a h1 h' r, life c D (fh_store h1) (fh_session h1) -> rest a h1 = (h', r) -> outcome D h1 h' (is_ok r)) ->
  (m ≫= rest) h = (h', r) -> outcome D h h' (is_ok r).
Proof.
  intros Hc Hm Hd Hrest. unfold mbind, M_bind. destruct (m h) as [h1 [a|e]] eqn:H1.
  - intros Hr. apply (calm_outcome m D) in H1 as [_ Hq]; [| done..]. destruct (Hq eq_refl) as [[Hs _] Hl].
    apply Hrest in Hr; [| by apply Hl]. destruct Hr as [Hsock Hlife|Hlife|m0 Hok Hsock Hres Hm0].
    + apply outcome_unlogged; [congruence | done].
    + by apply outcome_logged.
    + eapply outcome_failed; [done | congruence | done | done].
  - intros [= <- <-]. by apply (calm_outcome m D) in H1 as [? _].
Qed.
Lemma process_outcome actions w D h h' r :
  config_ok c -> life c D (fh_store h) (fh_session h) -> process_session_actions actions w h = (h', r) ->
  outcome D h h' (is_ok r).
Proof.
  intros Hc Hd. unfold process_session_actions. apply after_calm; [done | apply calm_lift | done |].
  intros [frames disconnect] h1 h2 r2 H1. destruct frames as [|f frames].
  - rewrite bind_ret. intros Hr. by apply (calm_outcome (refuse_if disconnect HostError.DisconnectRequested) D) in Hr as [? _]; [| | apply calm_refuse |].
  - unfold mbind at 1, M_bind at 1. intros Hr.
    apply (after_persist w (write_frames w (f :: frames);; refuse_if disconnect HostError.DisconnectRequested) D h1);
      [done | | done |].
    + stays_step; [apply write_frames_only | stays_step].
    + revert Hr. unfold mbind, M_bind. destruct (persist_session w h1) as [h3 [[]|e]]; [| done]. by destruct (write_frames w _ h3) as [h4 [[]|e]].
Qed.

Lemma host_call_outcome call D h h' r :
  config_ok c -> life c D (fh_store h) (fh_session h) -> host_call call h = (h', r) -> outcome D h h' (is_ok r).
Proof.
  intros Hc Hd. pose proof (fun A m D h h' r Hm Hd Hr => proj1 (@calm_outcome A m D h h' r Hc Hm Hd Hr)) as Hcalm.
  destruct call as [a w|response timestamp w|a admitted w|millis timestamp w|timestamp millis sent_us w
    |result completed_us source sent_us|message available_us source sent_us|messages now_us|events send_at_us|b|now_us stamp w|w]; cbn [host_call].
  - apply after_calm; [done | apply (calm_session (ReceiveBytesAt (av_bytes a) (av_timestamp a) (av_millis a))) | done |].
    intros actions h1 h2 r2 H1. by apply process_outcome.
  - apply after_calm; [done | apply calm_sequence | done |]. intros actions h1 h2 r2 H1. by apply process_outcome.
  - unfold host_bytes. apply after_calm; [done | apply (calm_session (ReceiveBytesAt (av_bytes a) (av_timestamp a) (av_millis a))) | done |].
    intros actions h1 h2 r2 H1. apply after_calm; [done | apply calm_take_actions | done |].
    intros replies h3 h4 r4 H3. by apply process_outcome.
  - unfold host_poll. apply after_calm; [done | apply (calm_session (Poll millis timestamp)) | done |].
    intros actions h1 h2 r2 H1. by apply process_outcome.
  - unfold host_probe. apply after_calm; [done | apply calm_gets | done |]. intros id h1 h2 r2 H1.
    apply after_calm; [done | calm_step | done |]. intros _ h3 h4 r4 H3.
    apply after_calm; [done | apply (calm_session (Probe _ timestamp millis)) | done |]. intros actions h5 h6 r6 H5.
    apply after_calm; [done | apply calm_lift | done |]. intros [frames disconnect] h7 h8 r8 H7.
    apply after_persist; [done | | done]. stays_step; [apply write_frames_only |]. stays_step; [stays_step |]. stays_step. done.
  - apply Hcalm; [| done]. unfold host_reply. repeat (calm_step || apply calm_delay || apply calm_hold_all).
  - apply Hcalm; [| done]. unfold host_hold. repeat (calm_step || apply calm_delay || apply calm_hold).
  - apply Hcalm; [apply calm_hold_all | done].
  - apply Hcalm; [apply calm_hold_reports | done].
  - apply Hcalm; [apply calm_live | done].
  - unfold host_write. apply after_calm; [done | | done |].
    { intros h1. unfold wp. destruct (take_due now_us (fh_outbound h1)). by apply quiet_same. }
    intros [|m due] h1 h2 r2 H1; [apply Hcalm; [calm_step | done] |].
    apply after_calm; [done | | done |].
    { apply calm_modify. intros h3. split; [done |]. intros D3 H3. by apply life_written. }
    intros _ h3 h4 r4 H3. apply after_calm; [done | apply calm_sequence | done |]. intros actions h5 h6 r6 H5. by apply process_outcome.
  - intros Hr. by apply (persist_outcome_host w D) in Hr as [? _].
Qed.

(** ** A run of the loop *)

(** Where the log resumes, in terms of the calls made so far. *)
Definition host_run (calls : list HostCall) : Hosting unit := for_each host_call calls.
Definition at_a_point (calls : list HostCall) (h h' : FixHost) (m : Moment) : Prop :=
  exists before rest h1 r1, calls = before ++ rest /\ host_run before h = (h1, r1) /\
    fh_socket h1 = fh_socket h' /\ shows_host m h1.
Lemma host_run_cons call calls h h1 h2 r :
  host_call call h = (h1, Ok tt) -> host_run calls h1 = (h2, r) -> host_run (call :: calls) h = (h2, r).
Proof. intros H1 H2. unfold host_run in *. cbn [for_each]. by rewrite (bind_run _ _ _ _ _ H1). Qed.
Lemma host_run_stop call calls h h1 e :
  host_call call h = (h1, Err e) -> host_run (call :: calls) h = (h1, Err e).
Proof. intros H1. unfold host_run. cbn [for_each]. unfold mbind, M_bind. by rewrite H1. Qed.
Lemma shows_now h : shows_host (moment (fh_store h) (fh_session h)) h.
Proof. done. Qed.

Lemma run_resumes calls : forall D h h' r,
  config_ok c -> life c D (fh_store h) (fh_session h) -> host_run calls h = (h', r) ->
  exists m, resumes c (st_log (fh_store h')) m /\ ((m = D /\ fh_socket h' = fh_socket h) \/ at_a_point calls h h' m).
Proof.
  induction calls as [|call calls IH]; intros D h h' r Hc Hd Hr.
  { injection Hr as <- <-. exists D. split; [| by left]. eapply tracks_resumes; [done |]. by apply life_tracks. }
  destruct (host_call call h) as [h1 [[]|e]] eqn:H1.
  - assert (Hr' : host_run calls h1 = (h', r)).
    { unfold host_run in Hr. cbn [for_each] in Hr. by rewrite (bind_run _ _ _ _ _ H1) in Hr. }
    assert (Hlift : forall m, at_a_point calls h1 h' m -> at_a_point (call :: calls) h h' m).
    { intros m (before & rest & h2 & r2 & -> & H2 & Hs & Hm). exists (call :: before), rest, h2, r2.
      split_and!; [done | by eapply host_run_cons | done | done]. }
    apply (host_call_outcome call D) in H1 as Ho; [| done..]. destruct Ho as [Hs Hl|Hl|m Hok _ _ _]; [| | done].
    + destruct (IH D h1 h' r Hc Hl Hr') as (m & Hm & [[-> Hs']|Hp]); exists m || exists D; (split; [done |]).
      * left. split; [done | congruence].
      * right. by apply Hlift.
    + destruct (IH _ h1 h' r Hc Hl Hr') as (m & Hm & [[-> Hs']|Hp]); eexists; (split; [exact Hm |]); right.
      * exists [call], calls, h1, (Ok tt). split_and!; [done | by eapply host_run_cons | done | apply shows_now].
      * by apply Hlift.
  - pose proof (host_run_stop call calls h h1 e H1) as Hstop. rewrite Hstop in Hr. injection Hr as <- <-.
    assert (Hpoint : forall m, shows_host m h1 -> at_a_point (call :: calls) h h1 m).
    { intros m Hm. exists (call :: calls), [], h1, (Err e). by rewrite app_nil_r. }
    apply (host_call_outcome call D) in H1; [| done..]. destruct H1 as [Hs Hl|Hl|m _ Hs Hm [->|Hsh]].
    + exists D. split; [| by left]. eapply tracks_resumes; [done |]. by apply life_tracks.
    + eexists. split; [eapply tracks_resumes; [done | by apply life_tracks] | right; apply Hpoint, shows_now].
    + exists D. split; [done | by left].
    + exists m. split; [done | right; by apply Hpoint].
Qed.

(** C30: nothing the participant may have seen is forgotten. Run a session's
    host from a fresh or restored store over any reads, polls, probes,
    replies, committed batches and writes, with the disk failing any log
    write and the socket taking any part of any frame, up to the call that
    fails. Whatever the log then holds resumes as the session, order manager
    and delivery of a point of that run from which on not one more byte was
    put on the socket: no sequence number, frame or report that may have left
    the venue is ever taken back by a crash. *)
Theorem nothing_shown_is_forgotten calls h h' r fresh current journaled :
  config_ok c -> life c (moment (fh_store h) (fh_session h)) (fh_store h) (fh_session h) ->
  host_run calls h = (h', r) ->
  exists before rest h1 r1 m delivery,
    calls = before ++ rest /\ host_run before h = (h1, r1) /\ fh_socket h1 = fh_socket h' /\
    same_reports delivery (st_delivery (fh_store h1)) /\
    store_resume (Some (st_log (fh_store h'))) c fresh current journaled =
      Ok (mkFixSession c (fs_snapshot (fh_session h1)) (Decoder_new (sc_wire_limits c)),
          st_application (fh_store h1), delivery,
          mkRecovery (Some (dl_seen_through (st_delivery (fh_store h1)))) (owed (st_delivery (fh_store h1)))
            (to_readmit journaled m)).
Proof.
  intros Hc Hd Hr. apply (run_resumes calls _ h h' r Hc Hd) in Hr as (m & Hm & Hcase).
  assert (Hp : at_a_point calls h h' m).
  { destruct Hcase as [[-> Hs]|Hp]; [| done]. exists [], calls, h, (Ok tt). by rewrite Hs. }
  destruct Hp as (before & rest & h1 & r1 & -> & H1 & Hs & H2 & H3 & H4).
  destruct (Hm fresh current journaled) as (session & delivery & Hres & -> & Hsame).
  exists before, rest, h1, r1, (mt_mapped m), delivery. rewrite <- H2, <- H3, <- H4. done.
Qed.
(** ** What a restored session applies *)

#[local] Notation missed after := (filter (fun events => ends_after after events = true)).
#[local] Notation p := (hs_participant hs).
#[local] Notation seen h := (dl_seen_through (st_delivery (fh_store h))).

(** The reference: batches applied one after another. *)
Fixpoint apply_batches (batches : list (list EventEnvelope)) : M FixApplicationState ApplicationError (list FixMessage) :=
  match batches with
  | [] => mret []
  | events :: batches =>
      messages ← committed_messages p events;
      more ← apply_batches batches;
      mret (messages ++ more)
  end.
Lemma apply_batches_app xs ys a a1 a2 ms1 ms2 :
  apply_batches xs a = (a1, Ok ms1) -> apply_batches ys a1 = (a2, Ok ms2) -> apply_batches (xs ++ ys) a = (a2, Ok (ms1 ++ ms2)).
Proof.
  revert a ms1. induction xs as [|x xs IH]; intros a ms1 H1 H2; [by injection H1 as -> <- |].
  cbn [apply_batches app] in *. apply bind_Ok_inv in H1 as (a' & m & Hm & H1). apply bind_Ok_inv in H1 as (a'' & ms & Hms & [= -> <-]).
  rewrite (bind_run _ _ _ _ _ Hm), (bind_run _ _ _ _ _ (IH _ _ Hms H2)). cbn. by rewrite app_assoc.
Qed.

(** Reports are filed under the last event of their batch, which is seen. *)
Definition delivery_ok (d : Delivery) : Prop := map_Forall (fun k _ => k <= dl_seen_through d) (dl_unwritten d).
Lemma owed_on_batch last messages send_at d :
  delivery_ok d -> dl_seen_through d < last ->
  delivery_ok (delivery_on_batch last messages send_at d) /\
  owed (delivery_on_batch last messages send_at d) = owed d ++ messages.
Proof.
  intros Hd Hlt. unfold delivery_on_batch. destruct messages as [|m ms].
  { rewrite app_nil_r. split; [| done]. intros k u Hk. specialize (Hd k u Hk). cbn in *. lia. }
  set (u0 := mkUnwritten _ _ _). split.
  { intros k u Hk. cbn in *. apply lookup_insert_Some in Hk as [[<- _]|[_ Hk]]; [lia |]. specialize (Hd k u Hk). cbn in Hd. lia. }
  unfold owed, unwritten, values. cbn [dl_unwritten].
  assert (He : entries (<[last := u0]> (dl_unwritten d)) = entries (dl_unwritten d) ++ [(last, u0)]).
  { apply entries_unique.
    - rewrite fmap_app. pose proof (keys_sorted (dl_unwritten d)) as Hs. unfold keys in Hs.
      assert (Hall : Forall (fun k => ord_lt k last) (entries (dl_unwritten d)).*1).
      { apply Forall_forall. intros k Hk. change (k ∈ keys (dl_unwritten d)) in Hk. apply elem_of_keys in Hk as [u Hu].
        specialize (Hd k u Hu). cbn in Hd. split; [cbn; lia | lia]. }
      induction (entries (dl_unwritten d)).*1 as [|k l IH]; [repeat constructor |].
      apply StronglySorted_inv in Hs as [Hs Hk]. apply Forall_cons in Hall as [Hkl Hall]. simpl. constructor; [by apply IH |].
      apply Forall_app. split; [done | by constructor].
    - intros k u. rewrite elem_of_app, list_elem_of_singleton, elem_of_entries, lookup_insert_Some. split.
      + intros [Hk|[= -> ->]]; [right | by left]. split; [| done]. intros ->. specialize (Hd k u Hk). cbn in Hd. lia.
      + intros [[-> ->]|[_ Hk]]; [by right | by left]. }
  rewrite He, fmap_app, bind_app. f_equal. apply app_nil_r.
Qed.

(** A host that applied some batches, in order. *)
Record applies (h h' : FixHost) (batches : list (list EventEnvelope)) : Prop := {
  ap_application : exists messages,
    apply_batches batches (st_application (fh_store h)) = (st_application (fh_store h'), Ok messages) /\
    (delivery_ok (st_delivery (fh_store h)) ->
     delivery_ok (st_delivery (fh_store h')) /\ owed (st_delivery (fh_store h')) = owed (st_delivery (fh_store h)) ++ messages);
  ap_seen : seen h' = from_option (fun events => default 0 (last_sequence events)) (seen h) (last batches)
}.
Lemma applies_none h h' : fh_store h' = fh_store h -> applies h h' [].
Proof. intros Hs. split; [| by rewrite Hs]. exists []. rewrite Hs, app_nil_r. done. Qed.
Lemma applies_trans h1 h2 h3 xs ys : applies h1 h2 xs -> applies h2 h3 ys -> applies h1 h3 (xs ++ ys).
Proof.
  intros [(ms1 & A1 & O1) S1] [(ms2 & A2 & O2) S2]. split.
  - exists (ms1 ++ ms2). split; [by eapply apply_batches_app |]. intros Hd. destruct (O1 Hd) as [D1 E1]. destruct (O2 D1) as [D2 E2].
    split; [done |]. by rewrite E2, E1, app_assoc.
  - rewrite S2, last_app. by destruct (last ys).
Qed.
Lemma hold_all_store messages send_at_us : stays (fun h h' => fh_store h' = fh_store h) (hold_all messages send_at_us).
Proof.
  apply stays_for_each; [split; [done | by intros ??? -> ->] |]. intros m h. unfold wp, hold_message.
  by destruct (hold _ _ _) as [o [u|e]].
Qed.
Lemma hold_reports_applies events send_at_us z h h' :
  last_sequence events = Some z -> seen h < z -> hold_reports hs events send_at_us h = (h', Ok tt) -> applies h h' [events].
Proof.
  intros Hz Hlt. unfold hold_reports. intros Hr. apply bind_Ok_inv in Hr as (h1 & messages & H1 & H2).
  pose proof (stays_state _ _ h1 (hold_all_store messages send_at_us)) as Hs. rewrite H2 in Hs. cbn [fst] in Hs.
  unfold last_sequence in Hz. destruct (last events) as [e|] eqn:He; [| done]. injection Hz as <-.
  unfold store_committed in H1. rewrite He in H1.
  destruct (committed_messages p events (st_application (fh_store h))) as [a [ms|err]] eqn:Hm; [| done].
  set (s1 := put_delivery _ _) in H1.
  assert (Hs1 : st_application (fh_store h1) = a /\ st_delivery (fh_store h1) = delivery_on_batch (ev_sequence e) ms send_at_us (st_delivery (fh_store h)) /\ messages = ms).
  { destruct (st_writer s1); [destruct (_ || _) |]; by injection H1 as <- <-. }
  destruct Hs1 as (Ha & Hd & ->). split; rewrite Hs.
  - exists ms. cbn [apply_batches]. rewrite (bind_run _ _ _ _ _ Hm). rewrite bind_ret, Ha, app_nil_r. split; [done |].
    intros Hok. rewrite Hd. by apply owed_on_batch.
  - rewrite Hd. cbn. unfold last_sequence. rewrite He. cbn. lia.
Qed.

(** Batches in order rise. *)
Lemma before_last x y a b : batch_ok y -> before x y -> last_sequence x = Some a -> last_sequence y = Some b -> a < b.
Proof. intros (f & z & Hf & Hz & Hle & _) Hb Ha Hy. specialize (Hb a f Ha Hf). rewrite Hy in Hz. injection Hz as <-. lia. Qed.
Lemma in_order_cons x xs :
  in_order (x :: xs) -> in_order xs /\ exists z, last_sequence x = Some z /\ 0 <= z <= int_max U64 /\
    forall y w, y ∈ xs -> last_sequence y = Some w -> z < w.
Proof.
  intros [[Hx Hxs]%Forall_cons [Hs Hall]%StronglySorted_inv]. split; [by split |].
  pose proof Hx as (f & z & _ & Hz & ? & ?). exists z. split_and!; [done | lia | lia |].
  intros y w Hy Hw. rewrite Forall_forall in Hxs, Hall. by eapply before_last; [apply Hxs | apply Hall | |].
Qed.
Lemma missed_all after xs : (forall y w, y ∈ xs -> last_sequence y = Some w -> after < w) -> Forall batch_ok xs -> missed after xs = xs.
Proof.
  intros Hall Hok. apply filter_all. apply Forall_forall. intros y Hy. rewrite Forall_forall in Hok.
  destruct (Hok y Hy) as (f & z & _ & Hz & _). unfold ends_after. rewrite Hz. specialize (Hall y z Hy Hz). lia.
Qed.

(** A loop that applies batches in order, all of them not seen before. *)
Lemma loop_applies {A} (f : A -> Hosting unit) (ev : A -> list EventEnvelope) l : forall h h',
  (forall a h1 h2, f a h1 = (h2, Ok tt) -> exists t h0, fh_store h0 = fh_store h1 /\ hold_reports hs (ev a) t h0 = (h2, Ok tt)) ->
  in_order (ev <$> l) -> (forall y w, y ∈ ev <$> l -> last_sequence y = Some w -> seen h < w) ->
  for_each f l h = (h', Ok tt) -> applies h h' (ev <$> l).
Proof.
  induction l as [|a l IH]; intros h h' Hf Ho Hlt Hr; [injection Hr as <-; by apply applies_none |].
  cbn [for_each] in Hr. apply bind_Ok_inv in Hr as (h1 & [] & H1 & Hr). rewrite fmap_cons in *.
  apply in_order_cons in Ho as (Ho & z & Hz & _ & Hz').
  destruct (Hf a h h1 H1) as (t & h0 & Hh0 & H0).
  assert (Ha : applies h h1 [ev a]).
  { apply (hold_reports_applies _ _ z) in H0; [| done |]; [| rewrite Hh0; by apply (Hlt (ev a)); [left |]].
    destruct H0 as [H0 H0']. rewrite Hh0 in H0, H0'. by split. }
  apply (applies_trans h h1 h' [ev a] (ev <$> l)); [done |]. apply IH; [done | done | | done].
  intros y w Hy Hw. rewrite (ap_seen _ _ _ Ha). cbn. rewrite Hz. cbn. by apply (Hz' y w).
Qed.
Lemma hold_batch_inv b h h' :
  hold_batch hs b h = (h', Ok tt) -> exists t h0, fh_store h0 = fh_store h /\ hold_reports hs (cm_events b) t h0 = (h', Ok tt).
Proof.
  unfold hold_batch. intros Hr. apply bind_Ok_inv in Hr as (h1 & d & H1 & Hr). do 2 eexists. split; [| exact Hr].
  unfold delay_from in H1. destruct (delay_us _ _ _) as [model [x|e]]; [| done]. by injection H1 as <- _.
Qed.

(** Live batches: what was seen is skipped. *)
Lemma live_applies L : forall h h',
  in_order (cm_events <$> L) -> for_each (live_batch hs) L h = (h', Ok tt) -> applies h h' (missed (seen h) (cm_events <$> L)).
Proof.
  induction L as [|b L IH]; intros h h' Ho Hr; [injection Hr as <-; by apply applies_none |].
  cbn [for_each] in Hr. apply bind_Ok_inv in Hr as (h1 & [] & H1 & Hr). rewrite fmap_cons in *.
  apply in_order_cons in Ho as (Ho & z & Hz & _ & Hz'). rewrite filter_cons.
  assert (He : ends_after (seen h) (cm_events b) = (seen h <? z)) by (unfold ends_after; by rewrite Hz).
  unfold live_batch in H1. rewrite bind_gets, Hz in H1. destruct (Z.leb_spec z (seen h)) as [Hle|Hlt].
  - injection H1 as <-. rewrite decide_False by (rewrite He; lia). by apply IH.
  - rewrite decide_True by (rewrite He; lia). apply hold_batch_inv in H1 as (t & h0 & Hh0 & H0).
    assert (Ha : applies h h1 [cm_events b]).
    { apply (hold_reports_applies _ _ z) in H0; [| done | by rewrite Hh0]. destruct H0 as [H0 H0']. rewrite Hh0 in H0, H0'. by split. }
    apply (applies_trans h h1 h' [cm_events b]); [done |]. specialize (IH h1 h' Ho Hr).
    assert (Hs : seen h1 = z) by (rewrite (ap_seen _ _ _ Ha); cbn; by rewrite Hz).
    rewrite !missed_all in *; [done | | apply Ho | | apply Ho]; intros y w Hy Hw; specialize (Hz' y w Hy Hw); lia.
Qed.

Section host_catch_up.
Context `{HS : !Snapshots RunState} `{HW : !StoreCodec RunState} `{HJ : !JournalCodec}.

(** The batches of a run in the entries of a journal. *)
Definition entry_batch (run : Z) (entry : FileOrigin.JournalEntry.JournalEntry RunState) : option (list EventEnvelope) :=
  match entry with
  | JournalEntry.Command record =>
      if bool_decide (input_run_id (rc_input record) = run /\ rc_events record <> []) then Some (rc_events record) else None
  | JournalEntry.Genesis _ => None
  end.
Lemma journal_applies es now_us after : forall v v',
  for_each (visit_batch (EngineError := EngineError) (hs_run_id hs) after (fun events => hold_reports hs events now_us)) es v = (v', Ok tt) ->
  for_each (fun events => hold_reports hs events now_us) (missed after (omap (entry_batch (hs_run_id hs)) es)) (vb_state _ _ v)
    = (vb_state _ _ v', Ok tt).
Proof.
  induction es as [|e es IH]; intros v v' Hr; [by injection Hr as <- |].
  cbn [for_each] in Hr. apply bind_Ok_inv in Hr as (v1 & [] & H1 & Hr). apply IH in Hr. cbn [omap list_omap].
  destruct e as [g|record]; cbn [visit_batch entry_batch] in *; [by injection H1 as <- |].
  destruct (last (rc_events record)) as [e|] eqn:He.
  2:{ injection H1 as <-. apply last_None in He. rewrite bool_decide_false by tauto. done. }
  assert (Hne : rc_events record <> []) by (intros Hn; by rewrite Hn in He).
  destruct (Z.eqb_spec (input_run_id (rc_input record)) (hs_run_id hs)) as [Hid|Hid]; cbn [andb] in H1.
  2:{ injection H1 as <-. rewrite bool_decide_false by tauto. done. }
  rewrite bool_decide_true by done. rewrite filter_cons.
  assert (Ha : ends_after after (rc_events record) = (after <? ev_sequence e)) by (unfold ends_after, last_sequence; by rewrite He).
  destruct (after <? ev_sequence e).
  - rewrite decide_True by done. destruct (hold_reports _ _ _ _) as [h1 [[]|err]] eqn:Hh; [| done]. injection H1 as <-.
    cbn [for_each]. by rewrite (bind_run _ _ _ _ _ Hh).
  - rewrite decide_False by (by rewrite Ha). by injection H1 as <-.
Qed.
Lemma batches_after_applies es bs tail now_us after h h' through :
  encoded es bs -> torn JOURNAL_MAGIC tail ->
  committed_batches_after (EngineError := EngineError) HostError.JournalUnreadable (wal_file JOURNAL_MAGIC bs ++ tail) (hs_run_id hs) after
    (fun events => hold_reports hs events now_us) h = (h', Ok through) ->
  for_each (fun events => hold_reports hs events now_us) (missed after (omap (entry_batch (hs_run_id hs)) es)) h = (h', Ok tt).
Proof.
  intros He Ht. unfold committed_batches_after, journal_scan.
  rewrite (scan_file_frames JOURNAL_MAGIC eq_refl) by (done || by eapply encoded_fits).
  unfold mbind, M_bind. rewrite (visit_encoded _ es bs) by done.
  match goal with |- context [for_each ?visit es ?v0] => destruct (for_each visit es v0) as [v [[]|e]] eqn:Hv end; [| done].
  cbn. intros [= <- _]. by apply journal_applies in Hv.
Qed.

Lemma Forall_missed (P : list EventEnvelope -> Prop) after (xs : list (list EventEnvelope)) : Forall P xs -> Forall P (missed after xs).
Proof. rewrite !Forall_forall. intros Hx x [_ Hin]%list_elem_of_filter. by apply Hx. Qed.
Lemma in_order_missed after xs : in_order xs -> in_order (missed after xs).
Proof.
  intros [Hf Hs]. split; [by apply Forall_missed |]. induction Hs as [|x xs Hs IH Hall]; [constructor |].
  apply Forall_cons in Hf as [_ Hf]. rewrite filter_cons. case_decide; [| by apply IH]. constructor; [by apply IH | by apply Forall_missed].
Qed.
Lemma missed_rises after (xs : list (list EventEnvelope)) y w : y ∈ missed after xs -> last_sequence y = Some w -> after < w.
Proof. intros [Ha _]%list_elem_of_filter Hw. unfold ends_after in Ha. rewrite Hw in Ha. lia. Qed.
(** Having applied what was missed of [xs], the live batches that follow are
    applied as those missed since the same position. *)
Lemma live_after_missed after xs ys :
  in_order (xs ++ ys) ->
  missed (from_option (fun events => default 0 (last_sequence events)) after (last (missed after xs))) ys = missed after ys.
Proof.
  intros (Hx & Hy & Hb)%batches_in_order_app. destruct (last (missed after xs)) as [x|] eqn:Hl; [| done]. cbn.
  apply last_Some in Hl as (l & Hl). assert (Hin : x ∈ missed after xs) by (rewrite Hl; apply elem_of_app; right; by left).
  pose proof Hin as [Ha Hxin]%list_elem_of_filter. unfold ends_after in Ha. destruct (last_sequence x) as [z|] eqn:Hz; [| done].
  cbn. assert (Hlate : forall y w, y ∈ ys -> last_sequence y = Some w -> z < w).
  { intros y w Hyin Hw. destruct Hy as [Hyf _]. rewrite Forall_forall in Hyf. by eapply before_last; [apply Hyf | apply Hb | |]. }
  rewrite !missed_all; [done | | apply Hy | done | apply Hy]. intros y w Hyin Hw. specialize (Hlate y w Hyin Hw). lia.
Qed.

Lemma last_max xs : forall x y z w,
  in_order xs -> last xs = Some x -> last_sequence x = Some z -> y ∈ xs -> last_sequence y = Some w -> w <= z.
Proof.
  intros x y z w Ho (l & ->)%last_Some Hz [Hy|Hy%list_elem_of_singleton]%elem_of_app Hw; [| subst; rewrite Hz in Hw; by injection Hw as <-].
  apply batches_in_order_app in Ho as (_ & [Hx _] & Hb). rewrite Forall_singleton in Hx.
  assert (w < z); [| lia]. eapply before_last; [exact Hx | apply Hb; [exact Hy | by left] | done | done].
Qed.
Lemma last_missed_max after xs y w :
  in_order xs -> y ∈ xs -> last_sequence y = Some w ->
  w <= from_option (fun events => default 0 (last_sequence events)) after (last (missed after xs)).
Proof.
  intros Ho Hy Hw. assert (Hcase : y ∈ missed after xs \/ w <= after).
  { destruct (Z.leb_spec w after) as [|Hlt]; [by right | left]. apply list_elem_of_filter. split; [| done].
    unfold ends_after. rewrite Hw. lia. }
  destruct (last (missed after xs)) as [x|] eqn:Hl; cbn [from_option].
  - pose proof Hl as (l & Hm)%last_Some. assert (Hx : x ∈ missed after xs) by (rewrite Hm; apply elem_of_app; right; by left).
    pose proof Hx as [Ha _]%list_elem_of_filter. unfold ends_after in Ha. destruct (last_sequence x) as [z|] eqn:Hz; [| done]. cbn.
    destruct Hcase as [Hin|Hle]; [| unfold id; lia]. unfold id. eapply last_max; [apply (in_order_missed after _ Ho) | exact Hl | done | exact Hin | done].
  - apply last_None in Hl. rewrite Hl in Hcase. destruct Hcase as [[]%elem_of_nil|]; done.
Qed.

(** C31: a restored session applies every batch it missed, once and in order.
    A session restored at a position subscribes to the distributor and
    catches up, from the batches the distributor retained or, when those do
    not reach back, from the origin's journal, which may by then hold batches
    that also wait on the subscription; then it goes through its live
    batches. When none of this fails, its order manager went through exactly
    the batches committed after its position, each once and in commit order,
    and it owes the reports of exactly those, besides what it owed before. *)
Theorem missed_batches_apply_once d J L current d' subscription resume es bs tail k now_us h h' :
  distributed d J -> in_order (J ++ (cm_events <$> L)) -> position_of J current ->
  0 <= seen h <= int_max U64 -> delivery_ok (st_delivery (fh_store h)) ->
  subscribe_resuming (seen h) current d = (d', subscription, resume) ->
  encoded es bs -> torn JOURNAL_MAGIC tail -> omap (entry_batch (hs_run_id hs)) es = J ++ take k (cm_events <$> L) ->
  (host_catch_up hs resume (wal_file JOURNAL_MAGIC bs ++ tail) now_us;; for_each (live_batch hs) L) h = (h', Ok tt) ->
  exists messages,
    apply_batches (missed (seen h) (J ++ (cm_events <$> L))) (st_application (fh_store h)) = (st_application (fh_store h'), Ok messages) /\
    owed (st_delivery (fh_store h')) = owed (st_delivery (fh_store h)) ++ messages.
Proof.
  intros Hd Ho Hpos Hseen Hok Hsub Henc Htorn Hes Hr. apply bind_Ok_inv in Hr as (h1 & [] & H1 & H2).
  assert (Hcase : exists n, applies h h1 (missed (seen h) (J ++ take n (cm_events <$> L)))).
  { unfold subscribe_resuming in Hsub. destruct (fanout_subscribe _) as [fanout fid]. destruct (covered_from d (seen h) current) eqn:Hcov; injection Hsub as _ _ <-; cbn [host_catch_up] in H1.
    - exists 0%nat. rewrite take_0, app_nil_r. apply batches_in_order_app in Ho as (HoJ & _ & _).
      pose proof (replay_is_missed d J (seen h) current Hd HoJ Hpos Hseen Hcov) as Hrep. rewrite <- Hrep.
      eapply (loop_applies (hold_batch hs) cm_events); [intros b ha hb; apply hold_batch_inv | | | exact H1].
      + rewrite Hrep. by apply in_order_missed.
      + rewrite Hrep. intros y w. apply missed_rises.
    - exists k. rewrite bind_gets in H1. apply bind_Ok_inv in H1 as (h2 & through & H1 & [= <-]).
      apply batches_after_applies with (es := es) in H1; [| done..]. rewrite Hes in H1. rewrite <- (list_fmap_id (missed _ _)).
      assert (Hok' : in_order (J ++ take k (cm_events <$> L))).
      { apply (batches_in_order_app _ (drop k (cm_events <$> L))). by rewrite <- app_assoc, take_drop. }
      eapply (loop_applies (fun events => hold_reports hs events now_us) id); [intros b ha hb Hb; by exists now_us, ha | | | exact H1]; rewrite list_fmap_id.
      + by apply in_order_missed.
      + intros y w. apply missed_rises. }
  destruct Hcase as [n Ha]. pose proof (ap_seen _ _ _ Ha) as Hs.
  apply live_applies in H2; [| by apply batches_in_order_app in Ho as (_ & ? & _)]. rewrite Hs in H2.
  set (late := from_option _ _ _) in H2.
  assert (Hsplit : missed late (cm_events <$> L) = missed (seen h) (drop n (cm_events <$> L))).
  { rewrite <- (take_drop n (cm_events <$> L)) at 1. rewrite filter_app.
    rewrite <- (take_drop n (cm_events <$> L)), app_assoc in Ho.
    pose proof (live_after_missed (seen h) _ _ Ho) as Hlate. fold late in Hlate. rewrite Hlate.
    rewrite (not_after_none late (take n (cm_events <$> L))); [done |]. intros y w Hy Hw.
    apply batches_in_order_app in Ho as (Ho & _ & _). eapply last_missed_max; [exact Ho | apply elem_of_app; by right | done]. }
  rewrite Hsplit in H2. pose proof (applies_trans _ _ _ _ _ Ha H2) as [(messages & Happ & Howed) _].
  rewrite <- filter_app, <- app_assoc, take_drop in Happ. exists messages. split; [done |]. by apply Howed.
Qed.
End host_catch_up.
End host.

(** ** A sample connection

    A trader logs on, sends an order and hears of its acceptance, but the
    socket takes only five bytes of the report.  The codec knows the three
    records the venue writes. *)
Module SampleHost.
Import SampleSessions SampleLog.
Import (hints) SampleLog.
Definition settings : HostSettings := mkHostSettings 2 7 1000 10 1000.
Definition unexplained (_ : ApplicationError) : Text := text "refused".
Definition host_of (session : FixSession) (s : SessionStore) : FixHost :=
  mkFixHost session s (OutboundHold_new 8) (ConnectionLatency_new 1) (mkLatencyModel demo_latency ∅) 0 0 [].
Definition order_frame : Text :=
  concat (frames (actions_of
    (send_application order_request now (run_calls [ConnectedAt now 1; hears venue_logon] (fresh trader_config)).1).2)).
Definition open_wire : Wire := mkWire SampleLog.none whole None.
Definition cut_wire : Wire := mkWire SampleLog.none whole (Some 5%nat).
Definition reading (bytes : Text) : Arrival := mkArrival bytes 100 now 5 0 100.
Definition response : FixMessage := FixMessage_new (text "A") +: (98, text "0") +: (108, text "30").
Definition connect : list HostCall :=
  [CallFirst (reading (concat trader_logon)) open_wire; CallRespond response now open_wire].
Definition trade : list HostCall := [CallBytes (reading order_frame) (fun _ _ => Ok None) open_wire; CallMissed batch 500].
Definition calls : list HostCall := connect ++ trade ++ [CallWrite 600 (fun _ => now) cut_wire].

(** The records, from runs that write none. *)
Definition unlogged_store (w : option Writer) : SessionStore := mkSessionStore application (delivery_at 0) w [].
Definition connected_host : FixHost := (host_run settings unexplained connect (host_of (fresh venue_config) (unlogged_store None))).1.
Definition traded_host : FixHost :=
  (host_run settings unexplained trade
     (with_store (unlogged_store (Some (mkWriter {[1]} [] [] 0 0))) connected_host)).1.
Definition last_host : FixHost :=
  (host_run settings unexplained calls (host_of (fresh venue_config) (unlogged_store None))).1.
Definition connect_record : SessionRecord :=
  delta_record (fs_snapshot (fh_session connected_host)) (values (ss_journal (fs_snapshot (fh_session connected_host)))) [] []
    (delivery_at 0).
Definition report_record : SessionRecord :=
  delta_record (fs_snapshot (fh_session last_host)) (added_entries {[1]} (ss_journal (fs_snapshot (fh_session last_host)))) []
    (match st_writer (fh_store traded_host) with Some w => wr_inputs w | None => [] end) (st_delivery (fh_store last_host)).
Definition records : list SessionRecord := [first_record; connect_record; report_record].
Definition write_known (r : SessionRecord) : option Bytes :=
  (fun e => [1 + Z.of_nat e.1]) <$> list_find (fun x => x = r) records.
Definition read_known (b : Bytes) : option SessionRecord :=
  match b with [n] => as_read <$> records !! Z.to_nat (n - 1) | _ => None end.
#[export] Program Instance host_codec : SessionCodec := {| json_record := write_known; parse_record := read_known |}.
Next Obligation.
  intros r b. unfold write_known. rewrite fmap_Some. intros ([i x] & (Hi & -> & _)%list_find_Some & ->).
  cbn [read_known fst]. replace (1 + Z.of_nat i - 1) with (Z.of_nat i) by lia. by rewrite Nat2Z.id, Hi.
Qed.
Definition opened_store : SessionStore :=
  match store_open None venue_config application 0 SampleLog.none whole with Ok (s, _, _) => s | Err _ => bare end.
End SampleHost.

Section host_witness.
Import SampleSessions SampleLog SampleHost.
Import (hints) SampleLog SampleHost.

Lemma nothing_shown_is_forgotten_witness :
  let run := host_run settings unexplained calls (host_of (fresh venue_config) opened_store) in
  run.2 = Err HostError.SocketWrite /\ length (fh_socket run.1) = 90%nat /\
  exists before rest h1 r1 m delivery,
    calls = before ++ rest /\
    host_run settings unexplained before (host_of (fresh venue_config) opened_store) = (h1, r1) /\ fh_socket h1 = fh_socket run.1 /\
    same_reports delivery (st_delivery (fh_store h1)) /\
    store_resume (Some (st_log (fh_store run.1))) venue_config application 0 SampleLog.none =
      Ok (mkFixSession venue_config (fs_snapshot (fh_session h1)) (Decoder_new (sc_wire_limits venue_config)),
          st_application (fh_store h1), delivery,
          mkRecovery (Some (dl_seen_through (st_delivery (fh_store h1)))) (owed (st_delivery (fh_store h1)))
            (to_readmit SampleLog.none m)).
Proof.
  intros run. split; [vm_compute; reflexivity |]. split; [vm_compute; reflexivity |].
  apply (nothing_shown_is_forgotten settings unexplained venue_config calls (host_of (fresh venue_config) opened_store)
    run.1 run.2 application 0 SampleLog.none).
  - split; [vm_compute; reflexivity | split; vm_compute; discriminate].
  - apply (life_fresh _ ExecutionConfig_default 1 0 SampleLog.none whole _ _ Recovery_default);
      [vm_compute; discriminate | vm_compute; discriminate | vm_compute; discriminate | vm_compute; reflexivity].
  - apply surjective_pairing.
Defined.
End host_witness.

(** The venue restarts: its distributor holds nothing, the order of
    participant 1 is in the journal, its cancellation is committed live. *)
Section resume_witness.
Import SampleSessions SampleLog SampleHost SampleDurability.
Import (hints) SampleLog SampleHost SampleRun SampleDurability.
#[local] Notation restarted := (with_retention 4 4).
#[local] Notation resumed := (host_of (fresh venue_config) (unlogged_store None)).
#[local] Notation at_venue := (mkHostSettings 1 7 1000 10 1000).
#[local] Notation placed := (match second_entry with JournalEntry.Command r => rc_events r | _ => [] end).
#[local] Notation live := [mkCommitted 900 Hub [event 4 (OrderCanceled 100 1 10 (Some (mkListingKey 1 10)) 10 CancelReason.Requested)] 0 [] [] [] (mkDealChanges [] [])].
#[local] Notation journal := (wal_file JOURNAL_MAGIC [[1]; [2]] ++ []).
#[local] Notation run := ((host_catch_up at_venue Resume.Gap journal 500;; for_each (live_batch at_venue) live) resumed).

Lemma missed_batches_apply_once_witness :
  (subscribe_resuming 0 (Some 3) restarted).2 = Resume.Gap /\
  exists messages,
    apply_batches at_venue (filter (fun events => ends_after 0 events = true) ([placed] ++ (cm_events <$> live))) application
      = (st_application (fh_store run.1), Ok messages) /\
    owed (st_delivery (fh_store run.1)) = messages /\ length messages = 2%nat.
Proof.
  split; [vm_compute; reflexivity |].
  destruct (missed_batches_apply_once at_venue restarted [placed] live (Some 3) (subscribe_resuming 0 (Some 3) restarted).1.1
    (subscribe_resuming 0 (Some 3) restarted).1.2 Resume.Gap [first_entry; second_entry] [[1]; [2]] [] 0 500 resumed run.1)
    as (messages & Ha & Ho).
  - constructor.
  - split.
    + constructor; [exists 1, 3 | constructor; [exists 4, 4 | constructor]];
        (split; [vm_compute; reflexivity | split; [vm_compute; reflexivity | split; [lia | vm_compute; discriminate]]]).
    + assert (Hbefore : before placed (cm_events (mkCommitted 900 Hub [event 4 (OrderCanceled 100 1 10 (Some (mkListingKey 1 10)) 10 CancelReason.Requested)] 0 [] [] [] (mkDealChanges [] [])))).
      { assert (H1 : last_sequence placed = Some 3) by (vm_compute; reflexivity).
        intros z a Hz Ha. rewrite H1 in Hz. injection Hz as <-. injection Ha as <-. reflexivity. }
      constructor; [constructor; constructor | constructor; [exact Hbefore | constructor]].
  - intros after [= <-]. vm_compute. reflexivity.
  - split; vm_compute; discriminate.
  - apply map_Forall_empty.
  - vm_compute. reflexivity.
  - repeat constructor; vm_compute; reflexivity.
  - by apply torn_nil.
  - vm_compute. reflexivity.
  - assert (Hok : run.2 = Ok tt) by (vm_compute; reflexivity). exact (eq_trans (surjective_pairing run) (f_equal (pair run.1) Hok)).
  - assert (H0 : owed (st_delivery (fh_store resumed)) = []) by (vm_compute; reflexivity). rewrite H0 in Ho.
    exists messages. split; [exact Ha |]. split; [exact Ho |]. cbn [app] in Ho. rewrite <- Ho. vm_compute. reflexivity.
Defined.
End resume_witness.
