(* ===== verification/SessionJobs.v ===== *)
(** * bunting-server: the work a FIX message performs

    Models the rest of [apps/bunting-server/src/session_host.rs]: how a mapped
    request is admitted ([admit_request]), the job it becomes and what the
    sequencer's thread does with it ([job_for], [reply_task] of
    [admission.rs], [JobContext::run_time] of [run_clock.rs]), the competition
    requests with their reports, and the market data feeds of a FIX session.
    A boxed closure is the record of what it captures, with the function that
    runs it.  The JSON of [serde_json] is a parameter. *)

From S2P Require Import Prelude Ordered Decimal MarketTypes MarketEvents Digest BookTheorems Latency Sequencer Transition.
From S2P Require Import Simulation Scenario Engine EngineFrame EngineReach EngineTheorems Origin OriginTheorems Venue ApplicationTheorems.
From S2P Require Import FixWire FixMapping Application FixApplication Competition.
From S2P Require Import FixSession FixSessionTheorems SessionStore RunClock BnpWire BnpMapping MarketFeed Publishing Distributor Tape Admission SessionHost HostTheorems.
From Stdlib Require Import Ascii.
#[local] Open Scope list_scope.

(** ** Data *)

(** [serde_json] on the payloads of operators and on the competition views. *)
Record TenderPayload : Type := mkTenderPayload {
  ot_tender_id : Z;
  ot_participant_id : Z;
  ot_instrument_id : Z;
  ot_side : MarketEvents.Side;
  ot_quantity : Z;
  ot_price : Z;
  ot_expires_at : Z
}.
Record NewsPayload : Type := mkNewsPayload {
  pn_news_id : Z;
  pn_audience : MarketEvents.NewsAudience;
  pn_headline : string;
  pn_body : string
}.
Record FinePayload : Type := mkFinePayload {
  fp_participant_id : Z;
  fp_currency_id : Z;
  fp_amount : Z;
  fp_reason : string
}.
Class CompetitionCodec := {
  advance_of_json : Text -> option Z;
  reason_of_json : Text -> option string;
  news_of_json : Text -> option NewsPayload;
  tender_of_json : Text -> option TenderPayload;
  fine_of_json : Text -> option FinePayload;
  json_discovery : DiscoveryView -> option Text;
  json_account : AccountView -> option Text;
  json_news : list NewsItem -> option Text;
  json_tenders : list TenderState -> option Text;
  json_latest_score : option ScoreEntry -> option Text;
  json_risk : RiskScoreView -> option Text
}.

Module JobError.
Inductive JobError : Type :=
  | CommandLookup (e : OriginError EngineError)
  | RunRead (e : ApplicationError)
  | CommandFailed (e : ApplicationError)
  | TapeDown (e : TapeFailure)
  | DisplayedOrders (e : EngineError)
  | MarketProjection (e : ApplicationError)
  | MissingTenderIdentity
  | NoParticipantIdentity
  | InvalidPayload
  | UnsupportedAction (action : Text)
  | TenderDecisionFailed (e : ApplicationError)
  | OperatorCommandFailed (e : ApplicationError)
  | View (e : ApplicationError)
  | ReportMapping (e : MappingError).
End JobError.
Export JobError (JobError).

(** What jobs act on: the store, the run clock and the consolidated tape. *)
Record JobWorld : Type := mkJobWorld {
  jw_origin : InMemoryOrigin RunState;
  jw_clock : RunClock;
  jw_tape : ConsolidatedTape
}.
Definition with_job_origin (v : InMemoryOrigin RunState) (w : JobWorld) : JobWorld := mkJobWorld v (jw_clock w) (jw_tape w).
Definition with_job_clock (v : RunClock) (w : JobWorld) : JobWorld := mkJobWorld (jw_origin w) v (jw_tape w).
Definition with_job_tape (v : ConsolidatedTape) (w : JobWorld) : JobWorld := mkJobWorld (jw_origin w) (jw_clock w) v.

(** [JobContext]: the record the job was admitted with, and the venue time
    at which it runs. *)
Record JobContext : Type := mkJobContext {
  jc_admission : AdmissionRecord;
  jc_now_us : Z
}.
(** The closure of [job_for], wrapped by [reply_task]. *)
Record FixJob : Type := mkFixJob {
  fj_request : FixApplicationRequest;
  fj_actor : VerifiedActor;
  fj_run_id : Z;
  fj_request_id : Z;
  fj_source : Endpoint;
  fj_feed : option Text
}.
Record Reply : Type := mkReply {
  rp_result : result JobError (list FixMessage);
  rp_completed_us : Z;
  rp_source : Endpoint;
  rp_published_before : Z;
  rp_feed : option Text
}.

(** [const fn competition_command_id] *)
Definition competition_command_id (sequence : Z) : Z := Z.lor (Z.shiftl 1 127) sequence.
(** [fn is_consolidated] *)
Definition is_consolidated (key : ListingKey) : bool := lk_venue_id key =? CONSOLIDATED_EXCHANGE.
(** [fn typed_levels]: no list is as long as [usize::MAX]. *)
Definition typed_levels (levels : list (Z * Z)) (depth : Z) : list (Z * Z) :=
  take (Z.to_nat (Z.min depth (zlen levels))) levels.

(** ** Competition requests *)

(** [fn operator_command] *)
Definition fix_operator_command `{CompetitionCodec} (action : Text) (payload_json : option Text)
    : result JobError SimulationCommand :=
  let payload := default (text "{}") payload_json in
  let named a := bool_decide (action = text a) in
  if named "start" then Ok StartRun
  else if named "pause" then Ok PauseRun
  else if named "resume" then Ok ResumeRun
  else if named "advance" then steps ← ok_or (advance_of_json payload) JobError.InvalidPayload; Ok (Advance steps)
  else if named "terminate" then reason ← ok_or (reason_of_json payload) JobError.InvalidPayload; Ok (Terminate reason)
  else if named "publish_news" then
    v ← ok_or (news_of_json payload) JobError.InvalidPayload;
    Ok (PublishNews (pn_news_id v) (pn_audience v) (pn_headline v) (pn_body v))
  else if named "open_tender" then
    v ← ok_or (tender_of_json payload) JobError.InvalidPayload;
    Ok (OpenTender (ot_tender_id v) (ot_participant_id v) (ot_instrument_id v) (ot_side v) (ot_quantity v) (ot_price v)
          (ot_expires_at v))
  else if named "score" then Ok ScoreIteration
  else if named "fine" then
    v ← ok_or (fine_of_json payload) JobError.InvalidPayload;
    Ok (ApplyFine (fp_participant_id v) (fp_currency_id v) (fp_amount v) (fp_reason v))
  else Err (JobError.UnsupportedAction action).

(** The head of [fn competition_messages]: the command a request commits, if
    it commits one, with the context of its failure, and its actor. *)
Definition competition_mutation `{CompetitionCodec} (request : CompetitionRequest)
    : result JobError (option (SimulationCommand * (ApplicationError -> JobError))) :=
  match request with
  | CompetitionRequest.Tender TenderAction.List _ => Ok None
  | CompetitionRequest.Tender action tender_id =>
      let decision := match action with TenderAction.Accept => TenderDecision.Accept | _ => TenderDecision.Decline end in
      id ← ok_or tender_id JobError.MissingTenderIdentity;
      Ok (Some (DecideTender id decision, JobError.TenderDecisionFailed))
  | CompetitionRequest.RunControl action payload_json | CompetitionRequest.RiskAdmin action payload_json =>
      command ← fix_operator_command action payload_json;
      Ok (Some (command, JobError.OperatorCommandFailed))
  | _ => Ok None
  end.
Definition competition_actor (actor : VerifiedActor) (request : CompetitionRequest) : result JobError Z :=
  match request with
  | CompetitionRequest.Tender _ _ => ok_or (va_participant_id actor) JobError.NoParticipantIdentity
  | _ => Ok (ai_actor_id (va_identity actor))
  end.

(** ** Competition reports *)

(** The loop of [fn append_reference_data] over the pages of
    [reference_data]; [None] when the fuel runs out. *)
Definition listed (instruments : list InstrumentInfo) (l : ListingReference) : option (ListingReference * InstrumentInfo) :=
  '(_, i) ← list_find (fun i => ii_instrument_id i = ls_instrument_id (lr_listing l)) instruments;
  Some (l, i).
Fixpoint reference_entries (fuel : nat) (s : RunState) (after : option Z) : option (list (ListingReference * InstrumentInfo)) :=
  match fuel with
  | O => None
  | S fuel =>
      let '(next_after, _, instruments, listings) := reference_data s after 0 in
      let entries := omap (listed instruments) listings in
      match next_after with
      | Some next => more ← reference_entries fuel s (Some next); Some (entries ++ more)
      | None => Some entries
      end
  end.
Definition all_reference_entries (s : RunState) : list (ListingReference * InstrumentInfo) :=
  default [] (reference_entries (S (size (rs_instruments s))) s None).
Definition security_type (kind : BnpWire.InstrumentKind.InstrumentKind) : Text :=
  match kind with
  | BnpWire.InstrumentKind.Equity => text "CS"
  | BnpWire.InstrumentKind.Currency => text "FXSPOT"
  | BnpWire.InstrumentKind.Bond => text "CORP"
  | BnpWire.InstrumentKind.Option => text "OPT"
  | BnpWire.InstrumentKind.Future => text "FUT"
  | BnpWire.InstrumentKind.Commodity => text "CMDTY"
  | BnpWire.InstrumentKind.Synthetic => text "MLEG"
  end.
Definition bytes_text (bytes : Bytes) : Text := (fun b => ascii_of_nat (Z.to_nat b)) <$> bytes.
Definition push_reference (m : FixMessage) (e : ListingReference * InstrumentInfo) : FixMessage :=
  let '(listing, instrument) := e in
  m +: (55, bytes_text (lr_symbol listing)) +: (48, display_uint (ls_instrument_id (lr_listing listing)))
    +: (207, display_uint (ls_venue_id (lr_listing listing))) +: (167, security_type (ii_kind instrument))
    +: (15, display_uint (ii_currency_id instrument)) +: (231, display_int (ii_multiplier instrument))
    +: (969, display_int (lr_tick_size listing)) +: (10023, display_uint (ii_quoted_decimals instrument)).
Definition append_reference_data (report : FixMessage) (s : RunState) : FixMessage :=
  let entries := all_reference_entries s in
  foldl push_reference (report +: (146, display_uint (zlen entries))) entries.

(** [fn competition_report_for] *)
Definition competition_report_for `{CompetitionCodec} (s : RunState) (actor : VerifiedActor) (request : CompetitionRequest)
    : result JobError FixMessage :=
  let report msg_type audience kind action status json :=
    map_err JobError.ReportMapping
      (competition_report (text msg_type) (text audience) (text kind) action (text status) (rs_sequence s) json) in
  match request with
  | CompetitionRequest.Discovery =>
      m ← report "y" "public" "discovery" (text "snapshot") "ok" (json_discovery (discovery s));
      Ok (append_reference_data m s)
  | CompetitionRequest.Account =>
      view ← map_err JobError.View (account s actor);
      report "AP" "private" "account" (text "snapshot") "ok" (json_account view)
  | CompetitionRequest.News =>
      view ← map_err JobError.View (news_tenders s actor);
      report "B" "private" "news" (text "list") "ok" (json_news (nv_news view))
  | CompetitionRequest.Tender _ _ =>
      _ ← ok_or (va_participant_id actor) JobError.NoParticipantIdentity;
      view ← map_err JobError.View (news_tenders s actor);
      report "U6" "private" "tender" (text "list") "ok" (json_tenders (nv_tenders view))
  | CompetitionRequest.Score =>
      view ← map_err JobError.View (risk_score s actor);
      report "U9" "private" "score" (text "snapshot") "ok" (json_latest_score (rv_latest_score view))
  | CompetitionRequest.Risk =>
      view ← map_err JobError.View (risk_score s actor);
      report "UB" "private" "risk" (text "snapshot") "ok" (json_risk view)
  | CompetitionRequest.RunControl action _ | CompetitionRequest.RiskAdmin action _ =>
      report "UA" "admin" "run_control" action "committed" (json_discovery (discovery s))
  end.

(** ** Jobs *)

Section jobs.
Context `{HH : !Sha256} `{HS : !ScenarioCodec} `{HR : !RunCodec} `{HJ : !JournalCodec} `{HC : !CompetitionCodec}.
#[local] Notation Job A := (M JobWorld JobError A) (only parsing).

(** A call of [ApplicationService], and of the tape. *)
Definition on_service {A} (context : ApplicationError -> JobError) (m : M (InMemoryOrigin RunState) ApplicationError A)
    : Job A := fun w =>
  let '(o, r) := m (jw_origin w) in (with_job_origin o w, map_err context r).
Definition read_job {T} (context : ApplicationError -> JobError) (run_id : Z) (read : RunState -> T) : Job T :=
  on_service context (service_read run_id read).
(** [JobContext::run_time] *)
Definition stamp_run (run_id : Z) (view : ClockView) (release_us : Z) : Job Z := fun w =>
  let '(clock, at_) := stamp (jw_clock w) run_id view release_us in (with_job_clock clock w, Ok at_).
Definition run_time (c : JobContext) (run_id : Z) : Job Z :=
  view ← read_job JobError.RunRead run_id ClockView_of;
  stamp_run run_id view (ar_release_us (jc_admission c)).

(** [fn competition_messages] *)
Definition competition_input (run_id now request_id sequence participant : Z) (command : SimulationCommand)
    : SimulationCommandRequest :=
  mkSimulationCommandRequest run_id (competition_command_id request_id) request_id now sequence participant command.
Definition commit_competition (actor : VerifiedActor) (run_id now : Z) (request : CompetitionRequest) (request_id : Z)
    (command : SimulationCommand) (context : ApplicationError -> JobError) : Job unit :=
  expected_sequence ← read_job JobError.RunRead run_id rs_sequence;
  participant ← lift (competition_actor actor request);
  on_service context (service_execute_simulation actor
    (competition_input run_id now request_id expected_sequence participant command) None);;
  mret tt.
Definition competition_messages (actor : VerifiedActor) (run_id now : Z) (request : CompetitionRequest) (request_id : Z)
    : Job (list FixMessage) :=
  mutation ← lift (competition_mutation request);
  (match mutation with
   | Some (command, context) => commit_competition actor run_id now request request_id command context
   | None => mret tt
   end);;
  report ← read_job JobError.RunRead run_id (fun s => competition_report_for s actor request);
  report ← lift report;
  mret [report].

(** The arm of a command: one that the store already holds is not sent
    again. *)
Definition stamped_command (sequence logical_time : Z) (c : MarketEvents.Command) : MarketEvents.Command :=
  mkCommand (cmd_run_id c) (cmd_command_id c) (cmd_correlation_id c) logical_time sequence (cmd_actor c) (cmd_payload c).
Definition lookup_command (run_id command_id : Z) : Job (option (list ascii * CommandResult)) := fun w =>
  (w, map_err JobError.CommandLookup (find_command (EngineError := EngineError) (jw_origin w) run_id command_id)).
Definition command_job (c : JobContext) (actor : VerifiedActor) (run_id : Z) (command : MarketEvents.Command)
    : Job (list FixMessage) :=
  known ← lookup_command run_id (cmd_command_id command);
  match known with
  | Some _ => mret []
  | None =>
      sequence ← read_job JobError.RunRead run_id rs_sequence;
      at_ ← run_time c run_id;
      on_service JobError.CommandFailed
        (service_execute actor (stamped_command sequence at_ command) (Some (jc_admission c)));;
      mret []
  end.

(** The arms of a market data request. *)
Definition quote_tuple (q : VenueQuote) : ListingKey * MarketEvents.Side * Z * Z :=
  (vq_listing_key q, vq_side q, vq_price q, vq_quantity q).
Definition view_tape (instrument_id now_us : Z) : Job (Z * list VenueQuote) := fun w =>
  let '(tape, r) := tape_view instrument_id now_us (jw_tape w) in (with_job_tape tape w, map_err JobError.TapeDown r).
Definition consolidated_job (c : JobContext) (request_id : Text) (instrument_id : Z) : Job (list FixMessage) :=
  '(last_report, quotes) ← view_tape instrument_id (jc_now_us c);
  mret [consolidated_snapshot request_id instrument_id last_report (quote_tuple <$> quotes)].
Definition snapshot_order (order : DisplayedOrder) : SnapshotOrder :=
  mkSnapshotOrder (dp_side order) (dp_reference order) (dp_price order) (dp_quantity order) (dp_broker order).
Definition orders_job (run_id : Z) (request_id : Text) (key : ListingKey) : Job (list FixMessage) :=
  orders ← read_job JobError.RunRead run_id (fun s => displayed_orders s key);
  orders ← lift (map_err JobError.DisplayedOrders orders);
  mret [fix_order_snapshot request_id key (snapshot_order <$> orders)].
Definition levels_job (run_id : Z) (request_id : Text) (key : ListingKey) (request_type : MarketDataRequestType)
    (market_depth : Z) : Job (list FixMessage) :=
  let depth := match request_type with
               | MarketDataRequestType.Subscribe => int_max Usize
               | _ => if market_depth =? 0 then int_max Usize else market_depth
               end in
  projection ← read_job JobError.RunRead run_id (fun s => project_market s key);
  projection ← lift (map_err JobError.MarketProjection projection);
  mret [market_snapshot request_id key (typed_levels (mp_bids projection) depth) (typed_levels (mp_asks projection) depth)].

(** [fn job_for] *)
Definition run_job (c : JobContext) (j : FixJob) : Job (list FixMessage) :=
  match fj_request j with
  | FixApplicationRequest.Command command => command_job c (fj_actor j) (fj_run_id j) command
  | FixApplicationRequest.MarketData request_id key request_type depth _ aggregated =>
      if is_consolidated key then consolidated_job c request_id (lk_instrument_id key)
      else if negb aggregated then orders_job (fj_run_id j) request_id key
      else levels_job (fj_run_id j) request_id key request_type depth
  | FixApplicationRequest.Competition request =>
      now ← run_time c (fj_run_id j);
      competition_messages (fj_actor j) (fj_run_id j) now request (fj_request_id j)
  end.
(** [fn reply_task]; [published] is the distributor's count of batches after
    the job. *)
Definition reply_task (c : JobContext) (j : FixJob) (completed_us published : Z) (w : JobWorld) : JobWorld * Reply :=
  let '(w, r) := run_job c j w in
  (w, mkReply r completed_us (fj_source j) published (fj_feed j)).
End jobs.

(** ** Admission of a request

    What a FIX session adds around the admission service: its market data
    feeds and its last release per destination.  A feed's identity is the
    request's text; the feeds of [MarketFeed] count by numbers, so that the
    text stands there as its code, from which it can be read back. *)

Definition request_code (request_id : Text) : Z := Z.pos (countable.encode request_id).
Definition request_text (code : Z) : Text := default [] (countable.decode (Z.to_pos code)).

Module AdmitRefusal.
Inductive AdmitRefusal : Type :=
  | NoSubscription (request_id : Text)
  | Subscription (e : FeedRefusal)
  | Admission (e : AdmissionError).
End AdmitRefusal.
Export AdmitRefusal (AdmitRefusal).

(** The parts of the session and of the venue a request reaches. *)
Record Gate : Type := mkGate {
  gt_service : AdmissionService FixJob;
  gt_floors : gmap Endpoint Z;
  gt_feeds : PublicFeeds;
  gt_publisher : Publisher
}.
Definition with_gate_feeds (v : PublicFeeds) (g : Gate) : Gate := mkGate (gt_service g) (gt_floors g) v (gt_publisher g).
Definition with_gate_publisher (v : Publisher) (g : Gate) : Gate := mkGate (gt_service g) (gt_floors g) (gt_feeds g) v.
Definition with_gate_service (v : AdmissionService FixJob * gmap Endpoint Z) (g : Gate) : Gate :=
  mkGate v.1 v.2 (gt_feeds g) (gt_publisher g).
(** [AdmitContext], with the connection's delay estimate, whether the tape
    accepts a subscriber, and the time of the call. *)
Record AdmitContext : Type := mkAdmitContext {
  ac_actor : VerifiedActor;
  ac_participant : Z;
  ac_run_id : Z;
  ac_received_us : Z;
  ac_request_id : Z;
  ac_estimator : DelayEstimator;
  ac_tape_up : bool;
  ac_now_us : Z
}.

Definition wants (t : MarketDataEntryType) (types : list MarketDataEntryType) : bool :=
  existsb (fun t' => match t, t' with
                     | MarketDataEntryType.Bid, MarketDataEntryType.Bid | MarketDataEntryType.Offer, MarketDataEntryType.Offer
                     | MarketDataEntryType.Trade, MarketDataEntryType.Trade => true
                     | _, _ => false
                     end) types.

Section admission.
#[local] Notation Gated A := (M Gate ApplicationError A) (only parsing).

Definition on_gate_feeds {A} (f : PublicFeeds -> PublicFeeds * A) : Gated A := fun g =>
  let '(feeds, a) := f (gt_feeds g) in (with_gate_feeds feeds g, Ok a).
(** The subscription a request starts or stops, before it is admitted: the
    refusal, or the feed it starts. *)
Definition start_feed (tape_up : bool) (request_id : Text) (key : ListingKey) (types : list MarketDataEntryType)
    (aggregated : bool) : Gated (option FeedRefusal) :=
  if is_consolidated key
  then on_gate_feeds (feeds_subscribe_consolidated (request_code request_id) (lk_instrument_id key) tape_up)
  else
    (if negb aggregated then modify (fun g => with_gate_publisher (enable_order_feeds (gt_publisher g)) g) else mret tt);;
    on_gate_feeds (feeds_subscribe (request_code request_id) key (wants MarketDataEntryType.Bid types)
      (wants MarketDataEntryType.Offer types) (wants MarketDataEntryType.Trade types) aggregated).
(** The destination of a request. *)
Definition destination_of (o : InMemoryOrigin RunState) (run_id : Z) (request : FixApplicationRequest)
    : result ApplicationError Endpoint :=
  match request with
  | FixApplicationRequest.Command command =>
      listing ← map_err (fun e => ApplicationError.Transaction (transaction_error e))
                  (read_run (EngineError := EngineError) o run_id (fun s => listing_for_command s command));
      Ok (match listing with Some key => Latency.Venue (lk_venue_id key) | None => Hub end)
  | FixApplicationRequest.MarketData _ key _ _ _ _ => Ok (if is_consolidated key then Hub else Latency.Venue (lk_venue_id key))
  | FixApplicationRequest.Competition _ => Ok Hub
  end.
(** The end of [fn admit_request]: the job is admitted at the floor of its
    destination; the feed it started goes when it is refused. *)
Definition admit_job (c : AdmitContext) (request : FixApplicationRequest) (feed : option Text) (destination : Endpoint)
    : Gated (option AdmitRefusal) := fun g =>
  let job := mkFixJob request (ac_actor c) (ac_run_id c) (ac_request_id c) destination feed in
  let '(sf, r) := admit_in_order (ac_now_us c) (ac_received_us c) (ac_estimator c) (ac_participant c) destination job
                    (gt_service g, gt_floors g) in
  let g := with_gate_service sf g in
  match r with
  | Ok _ => (g, Ok None)
  | Err e =>
      (match feed with
       | Some feed => with_gate_feeds (feeds_unsubscribe (request_code feed) (gt_feeds g)).1 g
       | None => g
       end, Ok (Some (AdmitRefusal.Admission e)))
  end.
(** [fn admit_request] *)
Definition admit_request (o : InMemoryOrigin RunState) (c : AdmitContext) (request : FixApplicationRequest)
    : Gated (option AdmitRefusal) :=
  let queue_job feed :=
    destination ← lift (destination_of o (ac_run_id c) request);
    admit_job c request feed destination in
  match request with
  | FixApplicationRequest.MarketData request_id _ MarketDataRequestType.Unsubscribe _ _ _ =>
      existed ← on_gate_feeds (feeds_unsubscribe (request_code request_id));
      mret (if (existed : bool) then None else Some (AdmitRefusal.NoSubscription request_id))
  | FixApplicationRequest.MarketData request_id key MarketDataRequestType.Subscribe _ types aggregated =>
      refused ← start_feed (ac_tape_up c) request_id key types aggregated;
      match refused with
      | Some reason => mret (Some (AdmitRefusal.Subscription reason))
      | None => queue_job (Some request_id)
      end
  | _ => queue_job None
  end.
End admission.

(** ** The host with its market data feeds *)

(** The connection of [handle_fix_connection], its feeds and the venue it
    admits to. *)
Record FeedHost : Type := mkFeedHost {
  ht_host : FixHost;
  ht_gate : Gate
}.

Section feeds.
Context `{HH : !Sha256} `{HD : !FixDictionary} `{HC : !SessionCodec}.
(** The settings, the session's actor, and the texts of a mapping error and
    of a refusal. *)
Context (hs : HostSettings) (actor : VerifiedActor).
Context (describe : ApplicationError -> Text) (describe_refusal : AdmitRefusal -> Text).
#[local] Notation Feeding A := (M FeedHost HostError A) (only parsing).

Definition on_host {A} (m : M FixHost HostError A) : Feeding A := fun h =>
  let '(host, r) := m (ht_host h) in (mkFeedHost host (ht_gate h), r).
Definition on_gate {A} (m : M Gate ApplicationError A) : Feeding A := fun h =>
  let '(gate, r) := m (ht_gate h) in (mkFeedHost (ht_host h) gate, map_err HostError.RunRead r).
Definition on_feeds {A} (f : PublicFeeds -> PublicFeeds * A) : Feeding A := fun h =>
  let '(feeds, a) := f (gt_feeds (ht_gate h)) in (mkFeedHost (ht_host h) (with_gate_feeds feeds (ht_gate h)), Ok a).
Definition feeds_call {A} (m : M PublicFeeds FeedFailure A) : Feeding A := fun h =>
  let '(feeds, r) := m (gt_feeds (ht_gate h)) in
  (mkFeedHost (ht_host h) (with_gate_feeds feeds (ht_gate h)), map_err HostError.MarketFeed r).

(** [fn admit_message] in full, with the run the origin serves. *)
Definition feed_admit (o : InMemoryOrigin RunState) (tape_up : bool) (a : Arrival) (message : FixMessage) (request_id : Z)
    : Feeding (option Text) := fun h =>
  let host := ht_host h in
  let '(store, request) := store_map_message message (log_context (hs_participant hs) (hs_run_id hs) request_id) (fh_store host) in
  let h := mkFeedHost (with_store store host) (ht_gate h) in
  match request with
  | Err e => (h, Ok (Some (describe e)))
  | Ok request =>
      let c := mkAdmitContext actor (hs_participant hs) (hs_run_id hs) (av_received_us a) request_id
                 (cl_estimator (fh_latency host)) tape_up (av_now_us a) in
      (refused ← on_gate (admit_request o c request); mret (describe_refusal <$> refused)) h
  end.
Definition feed_application (o : InMemoryOrigin RunState) (tape_up : bool) (a : Arrival) (message : FixMessage) : Feeding unit :=
  over ← on_host (over_rate hs (av_rate_ms a));
  rejection ← (if (over : bool) then mret (Some (rate_reason hs))
               else (request_id ← on_host (gets (fun h => ss_incoming_sequence (fs_snapshot (fh_session h))));
                     feed_admit o tape_up a message request_id));
  match rejection with
  | Some reason =>
      delay ← on_host (delay_from hs Hub);
      on_host (hold_message (business_reject (fm_msg_type message) reason) (saturating_add U64 (av_received_us a) delay))
  | None => mret tt
  end.
Fixpoint feed_actions (o : InMemoryOrigin RunState) (tape_up : bool) (a : Arrival) (actions : list SessionAction)
    : Feeding (list SessionAction) :=
  match actions with
  | [] => mret []
  | SessionAction.Application message :: actions =>
      feed_application o tape_up a message;;
      feed_actions o tape_up a actions
  | SessionAction.TestResponse id :: actions =>
      on_host (modify (fun h => with_latency (on_response id (av_now_us a) (fh_latency h)) h));;
      feed_actions o tape_up a actions
  | SessionAction.PeerLogon _ :: actions => feed_actions o tape_up a actions
  | SessionAction.Disconnect :: _ => mret [SessionAction.Disconnect]
  | other :: actions => replies ← feed_actions o tape_up a actions; mret (other :: replies)
  end.
Definition feed_bytes (o : InMemoryOrigin RunState) (tape_up : bool) (a : Arrival) (w : Wire) : Feeding unit :=
  actions ← on_host (on_session (receive_bytes_at (av_bytes a) (av_timestamp a) (av_millis a)));
  replies ← feed_actions o tape_up a actions;
  on_host (process_session_actions replies w).

(** [fn hold_feed]; the message is encoded as FIX. *)
Definition fix_increment (m : FeedMessage) : FixMessage :=
  market_incremental (request_text (fm_request_id m)) (ri_first_report (fm_message m)) (ri_entries (fm_message m)).
Definition hold_feed (increment : FeedMessage) : Feeding unit :=
  delay ← on_host (delay_from hs (fm_source increment));
  send_at ← on_feeds (send_time (fm_request_id increment) (saturating_add U64 (fm_available_us increment) delay));
  on_host (hold_message (fix_increment increment) send_at).
(** [PublicFeeds::activate] *)
Definition snapshot_report (messages : list FixMessage) : Z :=
  default 0 (m ← head messages; v ← message_value m 83; parse_uint U64 v).
Definition activate (request_id : Text) (published_before : Z) (messages : list FixMessage) (p : PublicFeeds)
    : PublicFeeds * list FeedMessage :=
  activate_after (request_code request_id) published_before (snapshot_report messages) p.

(** A turn of the loop for one reply, for what the tape hands out, and for
    one live batch. *)
Definition resume_feed (r : Reply) (messages : list FixMessage) (send_at_us : Z) : Feeding (Z * list FeedMessage) :=
  match rp_feed r with
  | Some feed =>
      send_at_us ← on_feeds (send_time (request_code feed) send_at_us);
      resumed ← on_feeds (activate feed (rp_published_before r) messages);
      mret (send_at_us, resumed)
  | None => mret (send_at_us, [])
  end.
Definition reply_turn (r : Reply) : Feeding unit :=
  (match rp_result r, rp_feed r with
   | Err _, Some feed => _ ← on_feeds (feeds_unsubscribe (request_code feed)); mret tt
   | _, _ => mret tt
   end);;
  messages ← lift (map_err (fun _ => HostError.JobFailed) (rp_result r));
  delay ← on_host (delay_from hs (rp_source r));
  '(send_at_us, resumed) ← resume_feed r messages (saturating_add U64 (rp_completed_us r) delay);
  on_host (hold_all messages send_at_us);;
  for_each hold_feed resumed.
Definition tape_turn (records : option (list TapeRecord)) : Feeding unit :=
  increments ← feeds_call (drain_tape records);
  for_each hold_feed increments.
Definition batch_turn (b : Committed) : Feeding unit :=
  seen ← on_host (gets (fun h => dl_seen_through (st_delivery (fh_store h))));
  if match last_sequence (cm_events b) with Some last => last <=? seen | None => false end then mret tt
  else
    increments ← feeds_call (on_batch (public_part b));
    for_each hold_feed increments;;
    on_host (hold_batch hs b).

(** The calls of the loop: the ones that neither admit nor feed are the
    host's own. *)
Inductive FeedCall : Type :=
  | FeedHostCall (call : HostCall)
  | FeedBytes (o : InMemoryOrigin RunState) (tape_up : bool) (a : Arrival) (w : Wire)
  | FeedReply (r : Reply)
  | FeedTape (records : option (list TapeRecord))
  | FeedBatch (b : Committed).
Definition feed_call (call : FeedCall) : Feeding unit :=
  match call with
  | FeedHostCall call => on_host (host_call hs describe call)
  | FeedBytes o tape_up a w => feed_bytes o tape_up a w
  | FeedReply r => reply_turn r
  | FeedTape records => tape_turn records
  | FeedBatch b => batch_turn b
  end.
Definition feed_run (calls : list FeedCall) : Feeding unit := for_each feed_call calls.
End feeds.

(** ** Feeds and the host's guarantees *)

Section feed_host.
Context `{HH : !Sha256} `{HD : !FixDictionary} `{HC : !SessionCodec}.
Context (hs : HostSettings) (actor : VerifiedActor).
Context (describe : ApplicationError -> Text) (describe_refusal : AdmitRefusal -> Text).
#[local] Notation host_run := (host_run hs describe) (only parsing).

(** What a call of the loop does to the host alone. *)
Lemma on_host_inv {A} (m : M FixHost HostError A) h h' r : on_host m h = (h', r) -> m (ht_host h) = (ht_host h', r).
Proof. unfold on_host. destruct (m (ht_host h)) as [host x]. by intros [= <- <-]. Qed.
Lemma on_host_bind {A B} (m : M FixHost HostError A) (f : A -> M FeedHost HostError B) (g : A -> M FixHost HostError B) h h' r :
  (on_host m ≫= f) h = (h', r) ->
  (forall a h1, f a h1 = (h', r) -> g a (ht_host h1) = (ht_host h', r)) -> (m ≫= g) (ht_host h) = (ht_host h', r).
Proof.
  unfold mbind, M_bind, on_host. destruct (m (ht_host h)) as [host [a|e]]; [| by intros [= <- <-]].
  intros Hf Hg. by apply Hg in Hf.
Qed.

(** *** The host's own calls that a call of the loop stands for *)

(** When a feed last sent a message. *)
Fixpoint feed_last_sent (id : Z) (feeds : list Feed) : option Z :=
  match feeds with
  | [] => None
  | f :: feeds => if fe_request_id f =? id then Some (fe_last_send_us f) else feed_last_sent id feeds
  end.
Fixpoint tape_last_sent (id : Z) (feeds : list TapeFeed) : option Z :=
  match feeds with
  | [] => None
  | f :: feeds => if tf_request_id f =? id then Some (tf_last_send_us f) else tape_last_sent id feeds
  end.
Definition last_sent (id : Z) (p : PublicFeeds) : option Z :=
  match feed_last_sent id (pf_feeds p) with Some t => Some t | None => tape_last_sent id (pf_tape_feeds p) end.

(** Holding the messages a feed handed out. *)
Fixpoint held_calls (ms : list FeedMessage) (h : FeedHost) : list HostCall :=
  match ms with
  | [] => []
  | m :: ms =>
      CallHold (fix_increment m) (fm_available_us m) (fm_source m) (last_sent (fm_request_id m) (gt_feeds (ht_gate h)))
      :: held_calls ms (hold_feed hs m h).1
  end.

(** The gate's answers to the requests among the actions of a read. *)
Definition gate_answer (o : InMemoryOrigin RunState) (tape_up : bool) (a : Arrival) (request_id : Z) (h : FeedHost)
    (request : FixApplicationRequest) : result HostError (option Text) :=
  let c := mkAdmitContext actor (hs_participant hs) (hs_run_id hs) (av_received_us a) request_id
             (cl_estimator (fh_latency (ht_host h))) tape_up (av_now_us a) in
  match (admit_request o c request (ht_gate h)).2 with
  | Ok refused => Ok (describe_refusal <$> refused)
  | Err e => Err (HostError.RunRead e)
  end.
Definition application_answer (o : InMemoryOrigin RunState) (tape_up : bool) (a : Arrival) (h : FeedHost)
    : FixApplicationRequest -> result HostError (option Text) :=
  let h := (on_host (over_rate hs (av_rate_ms a)) h).1 in
  gate_answer o tape_up a (ss_incoming_sequence (fs_snapshot (fh_session (ht_host h)))) h.
Fixpoint answers (o : InMemoryOrigin RunState) (tape_up : bool) (a : Arrival) (actions : list SessionAction) (h : FeedHost)
    : nat -> FixApplicationRequest -> result HostError (option Text) :=
  match actions with
  | SessionAction.Application message :: actions => fun i =>
      match i with
      | O => application_answer o tape_up a h
      | S i => answers o tape_up a actions (feed_application hs actor describe describe_refusal o tape_up a message h).1 i
      end
  | SessionAction.TestResponse id :: actions =>
      answers o tape_up a actions
        (on_host (modify (fun h => with_latency (on_response id (av_now_us a) (fh_latency h)) h)) h).1
  | SessionAction.Disconnect :: _ | [] => fun _ _ => Ok None
  | _ :: actions => answers o tape_up a actions h
  end.
Definition read_answers (o : InMemoryOrigin RunState) (tape_up : bool) (a : Arrival) (h : FeedHost)
    : nat -> FixApplicationRequest -> result HostError (option Text) :=
  match on_host (on_session (receive_bytes_at (av_bytes a) (av_timestamp a) (av_millis a))) h with
  | (h, Ok actions) => answers o tape_up a actions h
  | (_, Err _) => fun _ _ => Ok None
  end.

Definition reply_feed_sent (r : Reply) (p : PublicFeeds) : option Z :=
  match rp_feed r with Some feed => last_sent (request_code feed) p | None => None end.

(** What a reply, the tape and a batch hand out to the feeds, and the host
    once the reply itself is held. *)
Definition reply_sent (r : Reply) : M FeedHost HostError (list FeedMessage) :=
  messages ← lift (map_err (fun _ => HostError.JobFailed) (rp_result r));
  delay ← on_host (delay_from hs (rp_source r));
  '(send_at_us, resumed) ← resume_feed r messages (saturating_add U64 (rp_completed_us r) delay);
  on_host (hold_all messages send_at_us);;
  mret resumed.
Definition handed (run : FeedHost * result HostError (list FeedMessage)) : list HostCall :=
  match run with (h, Ok ms) => held_calls ms h | (_, Err _) => [] end.
Definition batch_fails (b : Committed) (h : FeedHost) : bool :=
  match feeds_call (on_batch (public_part b)) h with (_, Ok _) => false | (_, Err _) => true end.
Definition already_seen (b : Committed) (h : FeedHost) : bool :=
  match last_sequence (cm_events b) with
  | Some last => last <=? dl_seen_through (st_delivery (fh_store (ht_host h)))
  | None => false
  end.
(** The host's calls for one call of the loop: a reply is answered and the
    feed it starts catches up; what a batch moved is sent and then the batch
    itself is taken as a live one, unless its feeds fail. *)
Definition host_calls_of (call : FeedCall) (h : FeedHost) : list HostCall :=
  match call with
  | FeedHostCall call => [call]
  | FeedBytes o tape_up a w => [CallBytes a (read_answers o tape_up a h) w]
  | FeedReply r =>
      CallReply (match rp_result r with Ok messages => Some messages | Err _ => None end) (rp_completed_us r) (rp_source r)
        (reply_feed_sent r (gt_feeds (ht_gate h)))
      :: handed (reply_sent r h)
  | FeedTape records => handed (feeds_call (drain_tape records) h)
  | FeedBatch b =>
      if already_seen b h then [CallBatch b]
      else if batch_fails b h then []
      else handed (feeds_call (on_batch (public_part b)) h) ++ [CallBatch b]
  end.
Fixpoint host_calls (calls : list FeedCall) (h : FeedHost) : list HostCall :=
  match calls with
  | [] => []
  | call :: calls =>
      host_calls_of call h ++
      match feed_call hs actor describe describe_refusal call h with
      | (h, Ok _) => host_calls calls h
      | (_, Err _) => []
      end
  end.

(** *** Every call of the loop is those calls of the host *)

Lemma feed_admit_host o tape_up a message request_id h h' r :
  feed_admit hs actor describe describe_refusal o tape_up a message request_id h = (h', r) ->
  admit_message hs describe (gate_answer o tape_up a request_id h) message request_id (ht_host h) = (ht_host h', r).
Proof.
  unfold feed_admit, admit_message. intros Hx.
  destruct (store_map_message _ _ _) as [store [request|e]]; [| by injection Hx as <- <-].
  unfold mbind, M_bind, on_gate in Hx. cbn [ht_gate ht_host] in Hx. unfold gate_answer.
  change (fh_latency (with_store store (ht_host h))) with (fh_latency (ht_host h)) in Hx.
  destruct (admit_request _ _ _ _) as [gate [refused|e]]; by injection Hx as <- <-.
Qed.
Lemma feed_application_host o tape_up a message h h' r :
  feed_application hs actor describe describe_refusal o tape_up a message h = (h', r) ->
  on_application hs describe a (application_answer o tape_up a h) message (ht_host h) = (ht_host h', r).
Proof.
  unfold feed_application, on_application, application_answer. intros Hx.
  assert (Hreject : forall rejection h1,
    match rejection with
    | Some reason =>
        delay ← on_host (delay_from hs Hub);
        on_host (hold_message (business_reject (fm_msg_type message) reason) (saturating_add U64 (av_received_us a) delay))
    | None => mret tt
    end h1 = (h', r) ->
    match rejection with
    | Some reason =>
        delay ← delay_from hs Hub;
        hold_message (business_reject (fm_msg_type message) reason) (saturating_add U64 (av_received_us a) delay)
    | None => mret tt
    end (ht_host h1) = (ht_host h', r)).
  { intros [reason|] h1 H1; [| by injection H1 as <- <-]. eapply on_host_bind; [exact H1 |]. intros delay h2. apply on_host_inv. }
  unfold mbind at 1, M_bind at 1, on_host at 1 in Hx. unfold mbind at 1, M_bind at 1, on_host at 1 2.
  destruct (over_rate hs (av_rate_ms a) (ht_host h)) as [host [[]|e]]; [| | by injection Hx as <- <-].
  { exact (Hreject (Some (rate_reason hs)) _ Hx). }
  rewrite bind_assoc in Hx. unfold mbind at 1, M_bind at 1, on_host at 1 in Hx. cbn [ht_host gets fst] in Hx |- *.
  set (h1 := mkFeedHost _ _) in *. unfold mbind at 1, M_bind at 1 in Hx.
  destruct (feed_admit _ _ _ _ _ _ _ _ _ h1) as [h2 x] eqn:Ha in Hx. apply feed_admit_host in Ha.
  unfold mbind, M_bind. change (ht_host h1) with host in Ha. cbn. rewrite Ha. destruct x as [rejection|e]; [| by injection Hx as <- <-].
  by apply Hreject in Hx.
Qed.
Lemma feed_actions_host o tape_up a actions : forall h h' r,
  feed_actions hs actor describe describe_refusal o tape_up a actions h = (h', r) ->
  take_actions hs describe a (answers o tape_up a actions h) actions (ht_host h) = (ht_host h', r).
Proof.
  induction actions as [|action actions IH]; intros h h' r Hx; [by injection Hx as <- <-|].
  destruct action; cbn [feed_actions take_actions answers] in *;
    try (unfold mbind at 1, M_bind at 1 in Hx; destruct (feed_actions _ _ _ _ _ _ _ actions h) as [h1 x] eqn:H1 in Hx;
      apply IH in H1; unfold mbind, M_bind; rewrite H1; destruct x; by injection Hx as <- <-).
  - by apply IH in Hx.
  - unfold mbind at 1, M_bind at 1 in Hx. destruct (feed_application _ _ _ _ _ _ _ _ h) as [h1 x] eqn:H1 in Hx |- *.
    apply feed_application_host in H1. unfold mbind, M_bind. rewrite H1. destruct x as [[]|e]; [by apply IH in Hx | by injection Hx as <- <-].
  - by injection Hx as <- <-.
  - by apply IH in Hx.
Qed.
Lemma feed_bytes_host o tape_up a w h h' r :
  feed_bytes hs actor describe describe_refusal o tape_up a w h = (h', r) ->
  host_bytes hs describe a (read_answers o tape_up a h) w (ht_host h) = (ht_host h', r).
Proof.
  unfold feed_bytes, host_bytes, read_answers. intros Hx. unfold mbind at 1, M_bind at 1, on_host at 1 in Hx. unfold mbind at 1, M_bind at 1, on_host at 1.
  destruct (on_session _ (ht_host h)) as [host [actions|e]]; [| by injection Hx as <- <-].
  unfold mbind at 1, M_bind at 1 in Hx. destruct (feed_actions _ _ _ _ _ _ _ actions _) as [h1 x] eqn:H1 in Hx.
  apply feed_actions_host in H1. unfold mbind at 1, M_bind at 1. cbn [ht_host] in H1. rewrite H1.
  destruct x; [by apply on_host_inv in Hx | by injection Hx as <- <-].
Qed.

(** Holding a feed's messages. *)
Lemma send_feed_sent id t fs : snd <$> send_feed id t fs = (fun last => Z.max last t) <$> feed_last_sent id fs.
Proof. induction fs as [|f fs IH]; [done |]. cbn. destruct (_ =? _); [done |]. rewrite <- IH. by destruct (send_feed id t fs) as [[]|]. Qed.
Lemma send_tape_feed_sent id t fs : snd <$> send_tape_feed id t fs = (fun last => Z.max last t) <$> tape_last_sent id fs.
Proof. induction fs as [|f fs IH]; [done |]. cbn. destruct (_ =? _); [done |]. rewrite <- IH. by destruct (send_tape_feed id t fs) as [[]|]. Qed.
Lemma send_time_sent id t p : (send_time id t p).2 = not_before (last_sent id p) t.
Proof.
  unfold send_time, last_sent. pose proof (send_feed_sent id t (pf_feeds p)) as H1. pose proof (send_tape_feed_sent id t (pf_tape_feeds p)) as H2.
  destruct (send_feed id t _) as [[]|], (feed_last_sent id _); simplify_eq/=; [done |].
  destruct (send_tape_feed id t _) as [[]|], (tape_last_sent id _); by simplify_eq/=.
Qed.
Lemma hold_feed_host m h h' r :
  hold_feed hs m h = (h', r) ->
  host_hold hs (fix_increment m) (fm_available_us m) (fm_source m) (last_sent (fm_request_id m) (gt_feeds (ht_gate h))) (ht_host h) = (ht_host h', r) /\
  fh_store (ht_host h') = fh_store (ht_host h).
Proof.
  unfold hold_feed, host_hold. intros Hx.
  unfold mbind, M_bind, on_host, on_feeds in Hx. unfold mbind, M_bind. unfold delay_from in *.
  destruct (delay_us _ _ _) as [model [delay|e]]; cbn [map_err] in *; [| by injection Hx as <- <-].
  cbn [ht_gate ht_host] in Hx. pose proof (send_time_sent (fm_request_id m) (saturating_add U64 (fm_available_us m) delay) (gt_feeds (ht_gate h))) as Hsent.
  destruct (send_time _ _ _) as [feeds t]. cbn in Hsent, Hx. subst t. unfold hold_message in *.
  cbn [fh_outbound with_delays] in *.
  destruct (hold _ _ _) as [out x] eqn:Hh. by injection Hx as <- <-.
Qed.
Lemma hold_feeds_host ms : forall h h' r,
  for_each (hold_feed hs) ms h = (h', r) ->
  host_run (held_calls ms h) (ht_host h) = (ht_host h', r) /\ fh_store (ht_host h') = fh_store (ht_host h).
Proof.
  induction ms as [|m ms IH]; intros h h' r Hx; [by injection Hx as <- <-|].
  cbn [for_each held_calls] in *. unfold mbind, M_bind in Hx. destruct (hold_feed hs m h) as [h1 x] eqn:H1.
  destruct (hold_feed_host _ _ _ _ H1) as [Hs Hst]. destruct x as [[]|e].
  - destruct (IH _ _ _ Hx) as [Hc Hst']. split; [| congruence]. eapply host_run_cons; [exact Hs | exact Hc].
  - injection Hx as <- <-. split; [| exact Hst]. apply host_run_stop. exact Hs.
Qed.
Lemma resume_feed_sent r ms t host gate :
  exists gate' resumed, resume_feed r ms t (mkFeedHost host gate)
    = (mkFeedHost host gate', Ok (not_before (reply_feed_sent r (gt_feeds gate)) t, resumed)).
Proof.
  unfold resume_feed, reply_feed_sent. destruct (rp_feed r) as [feed|]; [| by exists gate, []].
  pose proof (send_time_sent (request_code feed) t (gt_feeds gate)) as Hsent.
  unfold mbind, M_bind, on_feeds. cbn [ht_gate ht_host].
  destruct (send_time _ _ _) as [feeds t']. cbn in Hsent. subst t'. cbn [ht_gate ht_host].
  destruct (activate _ _ _ _) as [feeds' resumed]. by eexists _, _.
Qed.
Lemma host_run_app calls calls' h h1 h2 r :
  host_run calls h = (h1, Ok tt) -> host_run calls' h1 = (h2, r) -> host_run (calls ++ calls') h = (h2, r).
Proof.
  revert h. induction calls as [|call calls IH]; intros h H1 H2; [by injection H1 as <- |].
  unfold HostTheorems.host_run in *. cbn [for_each app] in *. unfold mbind, M_bind in *.
  destruct (host_call hs describe call h) as [h3 [[]|e]]; [| done]. by apply IH.
Qed.
Lemma host_run_app_stop calls calls' h h1 e :
  host_run calls h = (h1, Err e) -> host_run (calls ++ calls') h = (h1, Err e).
Proof.
  revert h. induction calls as [|call calls IH]; intros h H1; [done |].
  unfold HostTheorems.host_run in *. cbn [for_each app] in *. unfold mbind, M_bind in *.
  destruct (host_call hs describe call h) as [h3 [[]|e']]; [by apply IH | done].
Qed.

(** What the host of a call of the loop is after the calls it stands for: the
    same outcome, unless the feeds fail. *)
Definition followed (r r' : result HostError unit) : Prop :=
  r' = r \/ (r' = Ok tt /\ exists e, r = Err (HostError.MarketFeed e)).
Lemma followed_Ok r' : followed (Ok tt) r' -> r' = Ok tt.
Proof. by intros [->|[_ [e [=]]]]. Qed.

Lemma reply_sent_host rp h h1 x :
  reply_sent rp h = (h1, x) ->
  host_reply hs (match rp_result rp with Ok messages => Some messages | Err _ => None end) (rp_completed_us rp) (rp_source rp)
    (reply_feed_sent rp (gt_feeds (ht_gate h))) (ht_host h) = (ht_host h1, match x with Ok _ => Ok tt | Err e => Err e end).
Proof.
  unfold reply_sent, host_reply. destruct (rp_result rp) as [messages|e]; [| by intros [= <- <-]].
  rewrite (bind_lift _ _ _ messages) by done. cbn [ok_or]. rewrite (bind_lift _ _ _ messages) by done. intros Hx.
  unfold mbind at 1, M_bind at 1, on_host at 1 in Hx. unfold mbind, M_bind.
  destruct (delay_from hs (rp_source rp) (ht_host h)) as [host [delay|e]]; [| by injection Hx as <- <-].
  destruct (resume_feed_sent rp messages (saturating_add U64 (rp_completed_us rp) delay) host (ht_gate h)) as (gate & resumed & Hr).
  rewrite (bind_run _ _ _ _ _ Hr) in Hx. unfold mbind, M_bind, on_host in Hx. cbn [ht_host ht_gate] in Hx.
  destruct (hold_all _ _ host) as [host' [[]|e]]; by injection Hx as <- <-.
Qed.
Lemma reply_turn_sent rp h : 
  match rp_result rp with
  | Ok _ => reply_turn hs rp h = match reply_sent rp h with (h1, Ok ms) => for_each (hold_feed hs) ms h1 | (h1, Err e) => (h1, Err e) end
  | Err _ => exists h1, reply_turn hs rp h = (h1, Err HostError.JobFailed) /\ ht_host h1 = ht_host h
  end.
Proof.
  unfold reply_turn, reply_sent. destruct (rp_result rp) as [messages|e].
  - rewrite bind_ret. cbn [map_err]. rewrite !(bind_lift _ _ _ messages) by done. unfold mbind, M_bind, mret, M_ret.
    destruct (on_host _ h) as [h1 [delay|e]]; [| done]. destruct (resume_feed _ _ _ h1) as [h2 [[send_at_us resumed]|e]]; [| done].
    by destruct (on_host (hold_all _ _) h2) as [h3 [[]|e]].
  - destruct (rp_feed rp) as [feed|]; cbn; unfold mbind, M_bind, on_feeds, lift, mret, M_ret; cbn; eexists; by split.
Qed.
Lemma reply_turn_host rp h h' r :
  reply_turn hs rp h = (h', r) -> host_run (host_calls_of (FeedReply rp) h) (ht_host h) = (ht_host h', r).
Proof.
  intros Hx. cbn [host_calls_of]. pose proof (reply_turn_sent rp h) as Ht. destruct (reply_sent rp h) as [h1 x] eqn:Hs.
  apply reply_sent_host in Hs. destruct (rp_result rp) as [messages|e] eqn:Hres.
  - rewrite Hx in Ht. destruct x as [ms|e]; cbn [handed].
    + eapply host_run_cons; [exact Hs |]. symmetry in Ht. by apply hold_feeds_host in Ht as [Ht _].
    + injection Ht as -> ->. by apply host_run_stop.
  - destruct Ht as (h2 & Ht & Hh). rewrite Hx in Ht. injection Ht as -> ->. rewrite Hh. by apply host_run_stop.
Qed.
Lemma feeds_call_host {A} (m : M PublicFeeds FeedFailure A) h h1 x :
  feeds_call m h = (h1, x) -> ht_host h1 = ht_host h /\ forall e, x = Err e -> exists e', e = HostError.MarketFeed e'.
Proof.
  unfold feeds_call. destruct (m _) as [feeds [a|e]]; intros [= <- <-]; (split; [done |]); [done |]. intros e' [= <-]. by exists e.
Qed.
Lemma tape_turn_host records h h' r :
  tape_turn hs records h = (h', r) ->
  exists r', host_run (host_calls_of (FeedTape records) h) (ht_host h) = (ht_host h', r') /\ followed r r'.
Proof.
  unfold tape_turn, mbind, M_bind. cbn [host_calls_of]. intros Hx. destruct (feeds_call _ h) as [h1 x] eqn:Hf.
  apply feeds_call_host in Hf as [<- He]. destruct x as [ms|e]; cbn [handed].
  - apply hold_feeds_host in Hx as [Hc _]. exists r. split; [done | by left].
  - injection Hx as <- <-. exists (Ok tt). split; [done | right]. split; [done |]. destruct (He e eq_refl) as [e' ->]. by exists e'.
Qed.
Lemma batch_turn_host b h h' r :
  batch_turn hs b h = (h', r) ->
  exists r', host_run (host_calls_of (FeedBatch b) h) (ht_host h) = (ht_host h', r') /\ followed r r'.
Proof.
  unfold batch_turn. intros Hx. unfold mbind at 1, M_bind at 1, on_host at 1 in Hx. cbn [gets ht_host] in Hx.
  cbn [host_calls_of]. unfold already_seen, batch_fails. set (seen := dl_seen_through _) in *.
  assert (Hh : {| ht_host := ht_host h; ht_gate := ht_gate h |} = h) by by destruct h. cbn in Hx. rewrite Hh in Hx.
  destruct (match last_sequence (cm_events b) with Some last => last <=? seen | None => false end) eqn:Hseen.
  { injection Hx as <- <-. exists (Ok tt). split; [| by left]. apply host_run_cons with (h1 := ht_host h); [| done].
    cbn [host_call]. unfold live_batch. rewrite bind_gets. fold seen. destruct (last_sequence (cm_events b)); [by rewrite Hseen | done]. }
  unfold mbind at 1, M_bind at 1 in Hx. destruct (feeds_call _ h) as [h1 x] eqn:Hf. apply feeds_call_host in Hf as [Hh1 He].
  destruct x as [ms|e]; cbn [handed].
  2:{ injection Hx as <- <-. rewrite Hh1. exists (Ok tt). split; [done | right]. split; [done |]. destruct (He e eq_refl) as [e' ->]. by exists e'. }
  unfold mbind at 1, M_bind at 1 in Hx. destruct (for_each (hold_feed hs) ms _) as [h2 x] eqn:H1 in Hx.
  destruct (hold_feeds_host _ _ _ _ H1) as [Hc Hst]. rewrite Hh1 in Hc, Hst. exists r. split; [| by left]. destruct x as [[]|e].
  2:{ injection Hx as <- <-. by apply host_run_app_stop. }
  apply on_host_inv in Hx. eapply host_run_app; [exact Hc |].
  assert (Hlive : host_call hs describe (CallBatch b) (ht_host h2) = (ht_host h', r)).
  { cbn [host_call]. unfold live_batch. rewrite bind_gets, Hst. fold seen.
    destruct (last_sequence (cm_events b)); [by rewrite Hseen | done]. }
  destruct r as [[]|e]; [by eapply host_run_cons | by apply host_run_stop].
Qed.
Lemma feed_call_host call h h' r :
  feed_call hs actor describe describe_refusal call h = (h', r) ->
  exists r', host_run (host_calls_of call h) (ht_host h) = (ht_host h', r') /\ followed r r'.
Proof.
  destruct call as [call|o tape_up a w|rp|records|b]; cbn [feed_call]; intros Hx.
  - apply on_host_inv in Hx. exists r. split; [| by left]. destruct r as [[]|e]; [by eapply host_run_cons | by apply host_run_stop].
  - apply feed_bytes_host in Hx. exists r. split; [| by left]. destruct r as [[]|e]; [by eapply host_run_cons | by apply host_run_stop].
  - exists r. split; [| by left]. by apply reply_turn_host.
  - by apply tape_turn_host.
  - by apply batch_turn_host.
Qed.

(** The batches of a run. *)
Definition call_batch (call : HostCall) : option Distributor.Committed :=
  match call with CallBatch b => Some b | _ => None end.
Definition fed_batch (call : FeedCall) : option Distributor.Committed :=
  match call with FeedBatch b => Some b | FeedHostCall call => call_batch call | _ => None end.
Lemma held_calls_batches ms : forall h, omap call_batch (held_calls ms h) = [].
Proof. induction ms as [|m ms IH]; intros h; [done |]. cbn. apply IH. Qed.
Lemma handed_batches run : omap call_batch (handed run) = [].
Proof. destruct run as [h [ms|e]]; [apply held_calls_batches | done]. Qed.
Lemma host_calls_batches call h h' :
  feed_call hs actor describe describe_refusal call h = (h', Ok tt) ->
  omap call_batch (host_calls_of call h) = option_list (fed_batch call).
Proof.
  destruct call as [call|o tape_up a w|rp|records|b]; cbn [feed_call host_calls_of fed_batch]; intros Hx; [by destruct call | done | | |].
  - cbn. apply handed_batches.
  - apply handed_batches.
  - destruct (already_seen b h) eqn:Hs; [done |]. unfold batch_fails. destruct (feeds_call _ h) as [h1 [ms|e]] eqn:Hf.
    + rewrite omap_app, handed_batches. done.
    + exfalso. unfold batch_turn, mbind at 1, M_bind at 1, on_host at 1 in Hx. cbn [gets ht_host] in Hx.
      assert (Hh : {| ht_host := ht_host h; ht_gate := ht_gate h |} = h) by by destruct h. cbn in Hx. rewrite Hh in Hx.
      unfold already_seen in Hs. rewrite Hs in Hx. unfold mbind, M_bind in Hx. by rewrite Hf in Hx.
Qed.

(** C35: market data and its admission leave the host's guarantees alone.
    Whatever a session subscribes to, is refused or is sent of public data, a
    run of the loop is, for the session, its log, the reports it owes, the
    messages held and the socket, exactly the run of the host's own calls
    that its calls stand for, and it stops where that run stops unless a feed
    fails first: a read is that read with the gate's own answers, a reply
    that reply with the feed it starts, a committed batch that batch taken
    live (once, and not at all when it was seen) after the public data it
    moved, and the tape only public data; a call of the host is itself. A
    run that succeeds takes live exactly the batches it was fed, in order. So
    what holds of every run of the host (what was shown is never forgotten)
    holds of a session with market data. *)
Theorem feed_run_is_a_host_run calls : forall h h' r,
  feed_run hs actor describe describe_refusal calls h = (h', r) ->
  (exists r', host_run (host_calls calls h) (ht_host h) = (ht_host h', r') /\ followed r r') /\
  (r = Ok tt -> omap call_batch (host_calls calls h) = omap fed_batch calls).
Proof.
  induction calls as [|call calls IH]; intros h h' r Hx; [injection Hx as <- <-; split; [exists (Ok tt); split; [done | by left] | done] |].
  unfold feed_run in Hx. cbn [for_each] in Hx. unfold mbind, M_bind in Hx. cbn [host_calls].
  destruct (feed_call _ _ _ _ call h) as [h1 x] eqn:H1. destruct (feed_call_host _ _ _ _ H1) as (r1 & Hc & Hr1). destruct x as [[]|e].
  - apply followed_Ok in Hr1 as ->. apply host_calls_batches in H1. destruct (IH _ _ _ Hx) as [(r2 & Hc' & Hr2) Hb]. split.
    + exists r2. split; [| done]. by eapply host_run_app.
    + intros Hok. rewrite omap_app, H1, (Hb Hok). cbn. by destruct (fed_batch call).
  - injection Hx as <- <-. rewrite app_nil_r. split; [by exists r1 | done].
Qed.
End feed_host.

(** ** What a job leaves in the journal *)

Section journal.
Context `{HH : !Sha256} `{HS : !ScenarioCodec} `{HR : !RunCodec} `{HJ : !JournalCodec} `{HC : !CompetitionCodec}.
Context (run_id : Z) (g : RunState) (limits : RunLimits).

(** The run that the store serves, with its journal. *)
Definition runs (o : InMemoryOrigin RunState) (js : list CommandRecord) (l : LiveRun RunState) : Prop :=
  mo_runs o !! run_id = Some l /\ history (EngineError := EngineError) g limits js l.
Definition job_runs (w : JobWorld) (js : list CommandRecord) (l : LiveRun RunState) : Prop := runs (jw_origin w) js l.

Lemma runs_put (o : InMemoryOrigin RunState) js l : history (EngineError := EngineError) g limits js l -> runs (put_run run_id l o) js l.
Proof. intros Hh. split; [| done]. simpl. by rewrite lookup_insert_eq. Qed.

Lemma read_job_runs {T} context (read : RunState -> T) w js l :
  job_runs w js l -> read_job context run_id read w = (w, Ok (read (lr_state l))).
Proof.
  intros [Hl Hh]. unfold read_job, on_service. rewrite (service_read_live run_id g limits read (jw_origin w) js l Hl Hh).
  by destruct w.
Qed.
Lemma bind_read_job {T B} context (read : RunState -> T) (f : T -> M JobWorld JobError B) w js l :
  job_runs w js l -> (read_job context run_id read ≫= f) w = f (read (lr_state l)) w.
Proof. intros Hw. unfold mbind, M_bind. by rewrite (read_job_runs context read w js l Hw). Qed.

(** The identities the index of a live run knows are those of its journal. *)
Lemma commits_known k rs k' id :
  commits (EngineError := EngineError) limits k rs k' ->
  is_Some (k'.2 !! id) <-> is_Some (k.2 !! id) \/ exists r, r ∈ rs /\ input_command_id (rc_input r) = id.
Proof.
  induction 1 as [k|k r k1 rs k2 Hc Hcs IH].
  { split; [by left | intros [|(r & []%elem_of_nil & _)]; done]. }
  rewrite IH. destruct (cm_fingerprint _ _ _ _ Hc) as (f & _ & _ & ->).
  destruct (decide (input_command_id (rc_input r) = id)) as [<-|Hne].
  - rewrite lookup_insert_eq. split; [| by left; eexists]. intros _. right. exists r. split; [by left | done].
  - rewrite lookup_insert_ne by done. split.
    + intros [|(r' & Hr' & Hid)]; [by left |]. right. exists r'. split; [by right | done].
    + intros [|(r' & [->|Hr']%elem_of_cons & Hid)]; [by left | done |]. right. by exists r'.
Qed.
Lemma find_journaled o js l id :
  runs o js l ->
  find_command (EngineError := EngineError) o run_id id = Ok (find l id) /\
  (is_Some (find l id) <-> exists r, r ∈ js /\ input_command_id (rc_input r) = id).
Proof.
  intros [Hl Hh]. split; [unfold find_command; by rewrite Hl |].
  destruct (history_ok _ _ _ _ Hh) as (c0 & _ & Hcs%run_ok_commits). unfold find. rewrite fmap_is_Some.
  pose proof (commits_known (g, c0, ∅) js (core l) id Hcs) as Hk. cbn [core snd] in Hk.
  rewrite lookup_empty in Hk. rewrite Hk. split; [intros [[]|]; [done | done] | by right].
Qed.

(** What one input does to the run. *)
Definition commits_input (input : JournalInput) (o o' : InMemoryOrigin RunState)
    (js : list CommandRecord) : Prop :=
  exists rec l', o' = put_run run_id l' o /\ rc_input rec = input /\ runs o' (js ++ [rec]) l'.

Lemma transact_duplicate input adm o o' js l e :
  input_run_id input = run_id -> runs o js l -> transact input adm o = (o', Ok e) -> et_duplicate e = true ->
  exists r, r ∈ js /\ input_command_id (rc_input r) = input_command_id input.
Proof.
  intros Hid Hw. pose proof Hw as [Hl Hh]. unfold transact. destruct (origin_execute_admitted input adm o) as [o1 x] eqn:Hx.
  intros [= <- Hr] Hd. destruct x as [x|]; [| done]. injection Hr as <-. cbn in Hd.
  unfold origin_execute_admitted in Hx. rewrite bind_gets in Hx. change (Datatypes.id o) with o in Hx.
  rewrite (bind_lift _ _ _ l) in Hx by (by rewrite Hid, Hl).
  destruct (execute_admitted input adm l) as [l1 y] eqn:Hy. rewrite bind_modify in Hx.
  destruct (history_ok _ _ _ _ Hh) as (c0 & _ & [_ Hrb _]). apply (execute_admitted_cases _ _ _ _ _ Hrb) in Hy.
  destruct y as [[res|rec]|]; [| | done].
  - destruct Hy as (_ & f & en & _ & Hix & _). apply (find_journaled o js l); [done |]. unfold find. by rewrite Hix.
  - rewrite (bind_lift _ _ _ (Origin.Committed rec)) in Hx by done. unfold mbind, M_bind in Hx.
    destruct (needs_checkpoint l1); [destruct (checkpoint l1) as [? [[]|]] |]; cbn in Hx; (discriminate Hx || (injection Hx as _ ?; subst; discriminate Hd)).
Qed.
Lemma transact_commits input adm o o' js l r :
  input_run_id input = run_id -> runs o js l -> transact input adm o = (o', r) ->
  match r with
  | Err _ => o' = o
  | Ok e => (o' = o /\ exists rec, rec ∈ js /\ input_command_id (rc_input rec) = input_command_id input) \/ commits_input input o o' js
  end.
Proof.
  intros Hid Hw Hx. pose proof Hw as [Hl Hh]. rewrite <- Hid in Hl.
  pose proof (transact_cases g limits _ _ _ _ _ _ _ Hl Hh Hx) as Hc. destruct r as [e|]; [| done].
  destruct (et_duplicate e) eqn:Hd.
  - left. split; [done |]. by eapply transact_duplicate.
  - right. destruct Hc as (rec & l' & -> & Hin & _ & _ & Hh' & _). exists rec, l'. rewrite Hid. split_and!; [done | done |].
    by apply runs_put.
Qed.

(** C32: a command is committed at most once, whatever is resent. A command's
    job stamps the command with the run's sequence and a run time and commits
    exactly one record of it, or it
    fails and the run is as it was; and once the journal holds its identity,
    whenever and for whomever the job runs again it answers nothing and
    changes nothing, the clock included. *)
Theorem command_job_commits_once (c : JobContext) actor command w w' r js l :
  cmd_run_id command = run_id -> job_runs w js l -> command_job c actor run_id command w = (w', r) ->
  match r with
  | Err _ => jw_origin w' = jw_origin w
  | Ok messages => messages = [] /\
      ((w' = w /\ exists rec, rec ∈ js /\ input_command_id (rc_input rec) = cmd_command_id command) \/
       (exists at_, commits_input (InputCommand (stamped_command (rs_sequence (lr_state l)) at_ command))
                      (jw_origin w) (jw_origin w') js))
  end /\
  (forall c2 actor2 w2 js2 l2, job_runs w2 js2 l2 ->
     (exists rec, rec ∈ js2 /\ input_command_id (rc_input rec) = cmd_command_id command) ->
     command_job c2 actor2 run_id command w2 = (w2, Ok [])).
Proof.
  intros Hrun Hw Hx.
  assert (Hlook : forall w2 js2 l2, job_runs w2 js2 l2 ->
    lookup_command run_id (cmd_command_id command) w2 = (w2, Ok (find l2 (cmd_command_id command))) /\
    (is_Some (find l2 (cmd_command_id command)) <->
     exists rec, rec ∈ js2 /\ input_command_id (rc_input rec) = cmd_command_id command)).
  { intros w2 js2 l2 Hw2. destruct (find_journaled (jw_origin w2) js2 l2 (cmd_command_id command) Hw2) as [Hf Hi].
    split; [| exact Hi]. unfold lookup_command. by rewrite Hf. }
  split.
  - destruct (Hlook w js l Hw) as [Hl Hi]. unfold command_job in Hx.
    rewrite (bind_run _ _ _ _ _ Hl) in Hx. destruct (find l (cmd_command_id command)) as [en|].
    { injection Hx as <- <-. split; [done |]. left. split; [done |]. by apply Hi. }
    rewrite (bind_read_job _ _ _ w js l Hw) in Hx. unfold run_time in Hx. rewrite bind_assoc in Hx.
    rewrite (bind_read_job _ _ _ w js l Hw) in Hx. unfold stamp_run in Hx. unfold mbind at 1, M_bind at 1 in Hx.
    destruct (stamp _ _ _ _) as [clock at_]. unfold on_service, service_execute in Hx.
    unfold mbind at 1, M_bind at 1 in Hx.
    destruct (authorize_command _ _) as [u|e] eqn:Ha in Hx; [| by injection Hx as <- <-].
    rewrite (bind_lift _ _ _ u) in Hx by done. destruct (transact _ _ _) as [o1 x] eqn:Ht in Hx.
    apply (transact_commits _ _ _ _ js l) in Ht; [| done | done].
    destruct x as [e|e]; injection Hx as <- <-; [| exact Ht]. split; [done |]. right. exists at_.
    destruct Ht as [(_ & rec & Hin & Hid)|Hc]; [| exact Hc]. exfalso.
    assert (is_Some (@None (list ascii * CommandResult))) as [? [=]] by (apply Hi; by exists rec).
  - intros c2 actor2 w2 js2 l2 Hw2 Hin. destruct (Hlook w2 js2 l2 Hw2) as [Hl Hi]. apply Hi in Hin as [en Hen].
    unfold command_job. rewrite (bind_run _ _ _ _ _ Hl), Hen. done.
Qed.

(** What the commit of a competition request does. *)
Lemma commit_competition_cases actor now request n command context w w' r js l :
  job_runs w js l -> commit_competition actor run_id now request n command context w = (w', r) ->
  jw_clock w' = jw_clock w /\ jw_tape w' = jw_tape w /\
  match r with
  | Err _ => jw_origin w' = jw_origin w
  | Ok _ => exists p, competition_actor actor request = Ok p /\
      let input := competition_input run_id now n (rs_sequence (lr_state l)) p command in
      authorize_simulation_command actor input = Ok tt /\
      ((jw_origin w' = jw_origin w /\ exists rec, rec ∈ js /\ input_command_id (rc_input rec) = competition_command_id n) \/
       commits_input (InputSimulation input) (jw_origin w) (jw_origin w') js)
  end.
Proof.
  intros Hw Hx. unfold commit_competition in Hx. rewrite (bind_read_job _ _ _ w js l Hw) in Hx.
  destruct (competition_actor actor request) as [p|e]; [| by injection Hx as <- <-].
  rewrite (bind_lift _ _ _ p) in Hx by done. unfold on_service, service_execute_simulation in Hx.
  unfold mbind at 1, M_bind at 1 in Hx.
  destruct (authorize_simulation_command _ _) as [[]|e] eqn:Ha in Hx; [| by injection Hx as <- <-].
  rewrite (bind_lift _ _ _ tt) in Hx by done. destruct (transact _ _ _) as [o1 x] eqn:Ht in Hx.
  apply (transact_commits _ _ _ _ js l) in Ht; [| done | done].
  destruct x as [e|e]; injection Hx as <- <-; split_and!; try done. by exists p.
Qed.

(** C33: a competition request commits in its own actor's name, or nothing.
    A request that only asks changes nothing at all.  A decision or an
    operator's request commits at most one record: the command the request
    asks for, at the run's sequence, in the name of the session's own
    participant (of the operator itself), which the authority checks allow;
    and whatever it answers is the one report of the run as it then is, so
    that a failure to build the report is the only way to commit and answer
    an error. *)
Theorem competition_commits_in_its_own_name actor now request n w w' r js l :
  job_runs w js l -> competition_messages actor run_id now request n w = (w', r) ->
  (competition_mutation request = Ok None -> w' = w) /\
  jw_clock w' = jw_clock w /\ jw_tape w' = jw_tape w /\
  (jw_origin w' = jw_origin w \/ exists command context p,
     competition_mutation request = Ok (Some (command, context)) /\ competition_actor actor request = Ok p /\
     let input := competition_input run_id now n (rs_sequence (lr_state l)) p command in
     authorize_simulation_command actor input = Ok tt /\
     commits_input (InputSimulation input) (jw_origin w) (jw_origin w') js) /\
  match r with
  | Ok messages => exists js' l' m, job_runs w' js' l' /\ messages = [m] /\ competition_report_for (lr_state l') actor request = Ok m
  | Err e => jw_origin w' = jw_origin w \/ exists js' l', job_runs w' js' l' /\ competition_report_for (lr_state l') actor request = Err e
  end.
Proof.
  intros Hw Hx. unfold competition_messages in Hx.
  destruct (competition_mutation request) as [mutation|e]; [| injection Hx as <- <-; by split_and!; auto].
  rewrite (bind_lift _ _ _ mutation) in Hx by done.
  assert (Hrest : forall w1 js1 l1, job_runs w1 js1 l1 ->
    (report ← read_job JobError.RunRead run_id (fun s => competition_report_for s actor request);
     report ← lift report; mret [report]) w1 = (w', r) ->
    w1 = w' /\ (forall m, r = Ok m -> exists x, m = [x] /\ competition_report_for (lr_state l1) actor request = Ok x) /\
    (forall e, r = Err e -> competition_report_for (lr_state l1) actor request = Err e)).
  { intros w1 js1 l1 Hw1 H. rewrite (bind_read_job _ _ _ w1 js1 l1 Hw1) in H.
    destruct (competition_report_for (lr_state l1) actor request) as [x|e]; injection H as <- <-; split_and!; try done.
    - intros ? [= <-]. by exists x.
    - by intros ? [= <-]. }
  assert (Hanswer : forall js1 l1, job_runs w' js1 l1 ->
    (forall m, r = Ok m -> exists x, m = [x] /\ competition_report_for (lr_state l1) actor request = Ok x) /\
    (forall e, r = Err e -> competition_report_for (lr_state l1) actor request = Err e) ->
    match r with
    | Ok messages => exists js' l' m, job_runs w' js' l' /\ messages = [m] /\ competition_report_for (lr_state l') actor request = Ok m
    | Err e => jw_origin w' = jw_origin w \/ exists js' l', job_runs w' js' l' /\ competition_report_for (lr_state l') actor request = Err e
    end).
  { intros js1 l1 Hw1 [Hm He]. destruct r as [m|e].
    - destruct (Hm m eq_refl) as (x & -> & Hrep). by exists js1, l1, x.
    - right. exists js1, l1. split; [done | by apply He]. }
  destruct mutation as [[command context]|].
  - unfold mbind at 1, M_bind at 1 in Hx.
    destruct (commit_competition _ _ _ _ _ _ _ w) as [w1 [[]|e]] eqn:Hc;
      apply (commit_competition_cases _ _ _ _ _ _ _ _ _ js l) in Hc as (Hk & Ht & Hc); try done.
    2:{ injection Hx as <- <-. split_and!; auto; done. }
    destruct Hc as (p & Hp & Ha & Hc). destruct Hc as [[Ho _]|Hc].
    + assert (Hw1 : job_runs w1 js l) by (unfold job_runs; by rewrite Ho).
      destruct (Hrest w1 js l Hw1 Hx) as [<- Hr]. split_and!; try done; [by left | by eapply Hanswer].
    + pose proof Hc as (rec & l' & Ho & _ & Hw1). destruct (Hrest w1 _ l' Hw1 Hx) as [<- Hr].
      split_and!; try done; [| by eapply Hanswer]. right. by exists command, context, p.
  - destruct (Hrest w js l Hw Hx) as [<- Hr]. split_and!; try done; [by left | by eapply Hanswer].
Qed.

Lemma transact_conflict input (o : InMemoryOrigin RunState) js l rec f f' :
  input_run_id input = run_id -> run_id = rs_run_id (lr_state l) -> runs o js l -> rec ∈ js ->
  input_command_id (rc_input rec) = input_command_id input ->
  fingerprint_bytes (EngineError := EngineError) input = Ok f ->
  fingerprint_bytes (EngineError := EngineError) (rc_input rec) = Ok f' -> f <> f' ->
  transact input None o = (o, Err (ApplicationError.Transaction TransactionError.IdempotencyConflict)).
Proof.
  intros Hid Hrun [Hl Hh] Hin Hc Hf Hf' Hne.
  destruct (committed_input_is_idempotent g limits js l rec None input Hh Hin) as [_ Hx];
    [by rewrite Hid | done |]. specialize (Hx f f' Hf Hf' Hne).
  unfold transact, origin_execute_admitted. rewrite bind_gets. change (Datatypes.id o) with o.
  rewrite (bind_lift _ _ _ l) by (by rewrite Hid, Hl). rewrite Hx, bind_modify. cbn.
  unfold put_run. rewrite Hid, insert_id by done. by destruct o.
Qed.

(** C34: a defect. The identity of a competition command is the number of the
    message in its own session, with one bit set and nothing of whose session
    it is.  So once the journal holds any input with the number of a
    participant's (or an operator's) decision, such as the decision another
    session sent under the same number, the decision is refused as a
    conflict although it is allowed and new, and the answer ends the
    session. *)
Theorem competition_numbers_collide actor now request n command context p w js l rec f f' :
  job_runs w js l -> run_id = rs_run_id (lr_state l) ->
  rec ∈ js -> input_command_id (rc_input rec) = competition_command_id n ->
  competition_mutation request = Ok (Some (command, context)) -> competition_actor actor request = Ok p ->
  let input := competition_input run_id now n (rs_sequence (lr_state l)) p command in
  authorize_simulation_command actor input = Ok tt ->
  fingerprint_bytes (EngineError := EngineError) (InputSimulation input) = Ok f ->
  fingerprint_bytes (EngineError := EngineError) (rc_input rec) = Ok f' -> f <> f' ->
  let answer := competition_messages actor run_id now request n w in
  answer = (w, Err (context (ApplicationError.Transaction TransactionError.IdempotencyConflict))) /\
  forall hs completed_us source published h,
    snd (reply_turn hs (mkReply answer.2 completed_us source published None) h) = Err HostError.JobFailed.
Proof.
  intros Hw Hrun Hin Hid Hm Hp input Ha Hf Hf' Hne answer.
  assert (Hans : answer = (w, Err (context (ApplicationError.Transaction TransactionError.IdempotencyConflict)))).
  { subst answer. unfold competition_messages. rewrite Hm, (bind_lift _ _ _ (Some (command, context))) by done.
    unfold commit_competition. rewrite bind_assoc, (bind_read_job _ _ _ w js l Hw), bind_assoc.
    rewrite Hp, (bind_lift _ _ _ p) by done. unfold on_service, service_execute_simulation.
    rewrite bind_assoc. unfold mbind at 1, M_bind at 1. fold input. rewrite Ha, (bind_lift _ _ _ tt) by done.
    rewrite (transact_conflict (InputSimulation input) (jw_origin w) js l rec f f') by done. by destruct w. }
  split; [exact Hans |]. intros. by rewrite Hans.
Qed.
End journal.

(** ** The reference data of a discovery report *)

Section reference.
Context (s : RunState).
#[local] Notation id := id_instrument_id (only parsing).
#[local] Notation instruments := (values (rs_instruments s)).

(** The instruments still to come, and the listings of some of them. *)
Definition coming (after : option Z) : list InstrumentDefinition := filter (fun d => follows after d = true) instruments.
Definition of_instruments (ds : list InstrumentDefinition) (e : ListingKey * ListingState) : bool :=
  existsb (fun d => id d =? lk_instrument_id e.1) ds.
Definition their_listings (ds : list InstrumentDefinition) : list (ListingKey * ListingState) :=
  filter (fun e => of_instruments ds e = true) (entries (rs_listings s)).
Definition entry_of (d : InstrumentDefinition) (e : ListingKey * ListingState) : ListingReference * InstrumentInfo :=
  (listing_reference s e, instrument_info d).

Lemma instrument_info_id d : ii_instrument_id (instrument_info d) = id d.
Proof. unfold instrument_info. by destruct (id_kind d). Qed.
Lemma of_instruments_spec ds e : of_instruments ds e = true <-> exists d, d ∈ ds /\ id d = lk_instrument_id e.1.
Proof.
  unfold of_instruments. rewrite existsb_exists. split.
  - intros (d & Hd%list_elem_of_In & Hi%Z.eqb_eq). by exists d.
  - intros (d & Hd & Hi). exists d. split; [by apply list_elem_of_In | by apply Z.eqb_eq].
Qed.

(** The instruments are keyed by their own identities. *)
Context (Hids : map_Forall (fun i d => id d = i) (rs_instruments s)).

Lemma instruments_sorted : StronglySorted (fun d d' => id d < id d') instruments.
Proof.
  pose proof (keys_increasing (rs_instruments s)) as Hs. unfold keys in Hs. unfold values.
  assert (Hk : Forall (fun e => id e.2 = e.1) (entries (rs_instruments s))).
  { apply Forall_forall. intros [k d] He%elem_of_entries. by apply (Hids k d). }
  revert Hs Hk. induction (entries (rs_instruments s)) as [|[k d] l IH]; intros Hs Hk; [constructor |].
  apply Forall_cons in Hk as [Hd Hk]. apply StronglySorted_inv in Hs as [Hs Hall]. constructor; [by apply IH |].
  rewrite Forall_forall in Hall. rewrite Forall_forall in Hk. apply Forall_forall.
  intros d' ((k' & d2) & -> & He)%list_elem_of_fmap. pose proof (Hk _ He) as Hd2. cbn in *. rewrite Hd, Hd2.
  apply Hall, list_elem_of_fmap. by exists (k', d2).
Qed.
Lemma coming_sorted after : StronglySorted (fun d d' => id d < id d') (coming after).
Proof. apply filter_sorted, instruments_sorted. Qed.

(** After a page, what is left of the instruments. *)
Lemma after_page after n x : last (take n (coming after)) = Some x -> coming (Some (id x)) = drop n (coming after).
Proof.
  intros (pre & Hpre)%last_Some. pose proof (take_drop n (coming after)) as Hsplit. rewrite Hpre in Hsplit.
  pose proof (coming_sorted after) as Hs. rewrite <- Hsplit in Hs.
  apply StronglySorted_app in Hs as (Hap & Hl & _). apply StronglySorted_app in Hl as (Hlx & _ & _).
  assert (Hx : follows after x = true).
  { assert (Hin : x ∈ coming after) by (rewrite <- Hsplit; set_solver). by apply list_elem_of_filter in Hin as [Hf _]. }
  assert (Hf : coming (Some (id x)) = filter (fun d => follows (Some (id x)) d = true) (coming after)).
  { unfold coming. rewrite list_filter_filter. apply list_filter_iff. intros d. split; [| by intros []].
    cbn. intros Hd%Z.ltb_lt. split; [by apply Z.ltb_lt |]. destruct after as [a|]; [| done]. cbn in Hx |- *.
    apply Z.ltb_lt in Hx. apply Z.ltb_lt. lia. }
  rewrite Hf, <- Hsplit at 1. rewrite filter_app, (filter_none _ (pre ++ [x])), (filter_all _ (drop n _)); [done | |].
  - apply Forall_forall. intros d Hd. apply Z.ltb_lt. apply Hap; [set_solver | done].
  - apply Forall_forall. intros d Hd Hlt%Z.ltb_lt. apply elem_of_app in Hd as [Hd|Hd]; [| apply list_elem_of_singleton in Hd as ->; lia].
    specialize (Hlx d x Hd ltac:(set_solver)). lia.
Qed.

(** The listings of two disjoint parts. *)
Lemma their_listings_app xs ys :
  (forall x y, x ∈ xs -> y ∈ ys -> id x <> id y) -> their_listings xs ++ their_listings ys ≡ₚ their_listings (xs ++ ys).
Proof.
  intros Hdis. unfold their_listings. induction (entries (rs_listings s)) as [|e l IH]; [done |].
  rewrite !filter_cons. assert (Hor : of_instruments (xs ++ ys) e = of_instruments xs e || of_instruments ys e).
  { unfold of_instruments. apply existsb_app. }
  destruct (of_instruments xs e) eqn:Hx; destruct (of_instruments ys e) eqn:Hy; rewrite Hor; simpl.
  - apply of_instruments_spec in Hx as (x & Hx & Hxe). apply of_instruments_spec in Hy as (y & Hy & Hye).
    destruct (Hdis x y Hx Hy). congruence.
  - by rewrite IH.
  - rewrite <- IH. by rewrite Permutation_middle.
  - done.
Qed.

(** One page. *)
Definition named (e : ListingReference * InstrumentInfo) : Prop := exists key listing d,
  rs_listings s !! key = Some listing /\ rs_instruments s !! lk_instrument_id key = Some d /\
  e = (listing_reference s (key, listing), instrument_info d).
Lemma listed_some page e :
  page ⊆ instruments -> rs_listings s !! e.1 = Some e.2 -> of_instruments page e = true ->
  exists i, listed (instrument_info <$> page) (listing_reference s e) = Some (listing_reference s e, i) /\
    named (listing_reference s e, i).
Proof.
  intros Hsub He (d & Hd & Hid)%of_instruments_spec.
  destruct (list_find_elem_of (fun i => ii_instrument_id i = lk_instrument_id e.1) (instrument_info <$> page) (instrument_info d))
    as ([n i] & Hf); [by apply list_elem_of_fmap_2 | by rewrite instrument_info_id |].
  exists i. split; [unfold listed; cbn; by rewrite Hf |].
  apply list_find_Some in Hf as (Hi & Hii & _). apply list_elem_of_lookup_2, list_elem_of_fmap in Hi as (d' & -> & Hd').
  rewrite instrument_info_id in Hii. apply Hsub, elem_of_values in Hd' as (k & Hk). pose proof (Hids k d' Hk) as Hkd. cbn in Hkd.
  exists e.1, e.2, d'. split_and!; [done | congruence | by destruct e].
Qed.
Lemma listed_page page :
  page ⊆ instruments ->
  let es := omap (listed (instrument_info <$> page)) (listing_reference s <$> their_listings page) in
  es.*1 = listing_reference s <$> their_listings page /\ Forall named es.
Proof.
  intros Hsub es. subst es.
  assert (Hl : Forall (fun e => rs_listings s !! e.1 = Some e.2 /\ of_instruments page e = true) (their_listings page)).
  { apply Forall_forall. intros [k l] (Hof & Hin%elem_of_entries)%list_elem_of_filter. done. }
  induction Hl as [|e l [He Hof] _ [IH1 IH2]]; [by split |].
  destruct (listed_some page e Hsub He Hof) as (i & Hli & Hn). 
  assert (Hcons : omap (listed (instrument_info <$> page)) (listing_reference s <$> e :: l)
    = (listing_reference s e, i) :: omap (listed (instrument_info <$> page)) (listing_reference s <$> l)).
  { cbn [fmap list_fmap omap list_omap]. by rewrite Hli. }
  rewrite Hcons, !fmap_cons, IH1. split; [done | by constructor].
Qed.
Lemma page_limit_all : page_limit 0 = 64%nat.
Proof. reflexivity. Qed.

(** The loop ends with every listing of the instruments still to come. *)
Lemma reference_entries_spec fuel : forall after, (length (coming after) < fuel)%nat ->
  exists es, reference_entries fuel s after = Some es /\
    es.*1 ≡ₚ listing_reference s <$> their_listings (coming after) /\ Forall named es.
Proof.
  induction fuel as [|fuel IH]; intros after Hf; [lia |]. cbn [reference_entries]. unfold reference_data.
  rewrite page_limit_all. fold (coming after). set (page := take 64 (coming after)).
  change (filter _ (entries (rs_listings s))) with (their_listings page).
  assert (Hsub : page ⊆ instruments).
  { intros d Hd. apply (list_elem_of_filter (fun d => follows after d = true)). fold (coming after).
    rewrite <- (take_drop 64 (coming after)). apply elem_of_app. by left. }
  destruct (listed_page page Hsub) as [Hp1 Hp2]. destruct (drop 64 (coming after)) as [|y rest] eqn:Hdrop.
  - exists (omap (listed (instrument_info <$> page)) (listing_reference s <$> their_listings page)).
    split_and!; [done | | exact Hp2]. rewrite Hp1. assert (Hall : page = coming after); [| by rewrite Hall].
    unfold page. rewrite <- (take_drop 64 (coming after)) at 2. by rewrite Hdrop, app_nil_r.
  - destruct (last page) as [x|] eqn:Hlast.
    2:{ apply last_None in Hlast. unfold page in Hlast. by destruct (coming after). }
    cbn [fmap option_fmap option_map]. pose proof (after_page after 64 x Hlast) as Hnext.
    pose proof (take_drop 64 (coming after)) as Hsplit. fold page in Hsplit.
    assert (Hlen : (length (drop 64 (coming after)) < length (coming after))%nat).
    { rewrite length_skipn. destruct (coming after) as [|c l] eqn:Hcoming; [discriminate Hdrop | simpl; lia]. }
    destruct (IH (Some (id x))) as (es & Hes & He1 & He2); [rewrite Hnext; lia |].
    rewrite Hes. simpl. eexists. split; [done |]. split; [| by apply Forall_app].
    rewrite fmap_app, Hp1, He1, Hnext, <- fmap_app, <- Hsplit at 1. apply fmap_Permutation.
    rewrite Hsplit at 1. rewrite their_listings_app; [by rewrite Hsplit |].
    intros a b Ha Hb. pose proof (coming_sorted after) as Hs. rewrite <- Hsplit in Hs.
    apply StronglySorted_app in Hs as (Hap & _). specialize (Hap a b Ha Hb). lia.
Qed.

Lemma reference_entries_more fuel k : forall after es,
  reference_entries fuel s after = Some es -> reference_entries (fuel + k) s after = Some es.
Proof.
  induction fuel as [|fuel IH]; intros after es; [done |]. cbn [reference_entries Nat.add].
  destruct (reference_data s after 0) as [[[next cs] is_] ls]. destruct next as [next|]; [| done].
  destruct (reference_entries fuel s (Some next)) as [more|] eqn:Hm; [| done]. by rewrite (IH _ _ Hm).
Qed.
End reference.

(** C36: a discovery report lists every listing. In every reachable run the
    loop over the pages of the reference data ends, however many instruments
    there are (one more turn than there are instruments is always enough),
    and lists every listing of the run exactly once, page by page, each with
    the terms of its own instrument; no listing is dropped for want of its
    instrument. *)
Theorem discovery_lists_every_listing `{!Sha256} `{!ScenarioCodec} `{!RunCodec} run_id iteration sc s :
  scenario_typed sc -> reachable run_id iteration sc s ->
  (forall fuel, (size (rs_instruments s) < fuel)%nat -> reference_entries fuel s None = Some (all_reference_entries s)) /\
  (all_reference_entries s).*1 ≡ₚ listing_reference s <$> entries (rs_listings s) /\
  Forall (named s) (all_reference_entries s).
Proof.
  intros Hty Hs. destruct (reachable_ok run_id iteration sc s Hty Hs) as (_ & Hst & _).
  pose proof (so_instruments _ Hst) as Hids. pose proof (so_listed _ Hst) as Hlisted.
  assert (Hnone : coming s None = values (rs_instruments s)) by (apply filter_all, Forall_forall; done).
  assert (Hlen : length (values (rs_instruments s)) = size (rs_instruments s)).
  { unfold values. rewrite length_fmap. apply entries_length. }
  destruct (reference_entries_spec s Hids (S (size (rs_instruments s))) None) as (es & Hes & He1 & He2);
    [rewrite Hnone; lia |].
  assert (Hall : all_reference_entries s = es) by (unfold all_reference_entries; by rewrite Hes).
  rewrite Hall. split_and!; [| | exact He2].
  - intros fuel Hf. replace fuel with (S (size (rs_instruments s)) + (fuel - S (size (rs_instruments s))))%nat by lia.
    by apply reference_entries_more.
  - rewrite He1, Hnone. apply fmap_Permutation. unfold their_listings. rewrite filter_all; [done |].
    apply Forall_forall. intros [key l] Hin%elem_of_entries. apply of_instruments_spec.
    destruct (Hlisted key ltac:(by exists l)) as [d Hd]. exists d. split; [apply elem_of_values; by eexists |].
    by apply (Hids (lk_instrument_id key) d).
Qed.

(** ** Witnesses *)

Module SampleJobs.
Import SampleRun SampleVenue SampleService.
Import (hints) SampleRun.
#[export] Program Instance job_codec : JournalCodec := {|
  json_command := fun c => Some [cmd_command_id c mod 256; cmd_actor c mod 256];
  json_simulation := fun r => Some [sr_command_id r mod 256; sr_actor r mod 256];
  json_chained := fun c => Some [cr_committed_sequence (ch_result c) mod 256]
|}.
Next Obligation. intros c. by eexists. Qed.
#[export] Instance competition_codec : CompetitionCodec := {|
  advance_of_json := fun _ => None; reason_of_json := fun _ => None; news_of_json := fun _ => None;
  tender_of_json := fun _ => None; fine_of_json := fun _ => None;
  json_discovery := fun _ => Some (text "{}"); json_account := fun _ => Some (text "{}"); json_news := fun _ => Some (text "[]");
  json_tenders := fun ts => Some (display_uint (zlen ts)); json_latest_score := fun _ => Some (text "null");
  json_risk := fun _ => Some (text "{}")
|}.

#[local] Notation executed i l := (execute_admitted (EngineError := EngineError) (H1 := job_codec) i None l) (only parsing).
Definition step (i : JournalInput) (l : LiveRun RunState) : LiveRun RunState := (executed i l).1.
Definition record_of (i : JournalInput) (l : LiveRun RunState) : CommandRecord :=
  match (executed i l).2 with Ok (Origin.Committed r) => r | _ => no_record end.
Definition started : LiveRun RunState :=
  match LiveRun_genesis (EngineError := EngineError) genesis RunLimits_default with Ok l => l | Err _ => no_live end.

(** An operator opens a tender for each of two participants; each of their
    sessions then sends its decision as its fifth message. *)
Definition opens (n sequence tender participant : Z) : JournalInput :=
  InputSimulation (competition_input 7 10 n sequence 99 (OpenTender tender participant 10 MarketEvents.Buy 5 50 1000)).
Definition accepts (tender : Z) : CompetitionRequest := CompetitionRequest.Tender TenderAction.Accept (Some tender).
Definition decides (sequence tender participant : Z) : JournalInput :=
  InputSimulation (competition_input 7 20 5 sequence participant (DecideTender tender TenderDecision.Accept)).
Definition actor_of (participant : Z) : VerifiedActor :=
  mkVerifiedActor (mkActorIdentity participant ActorRole.Participant (Some participant) None) (Some participant).
Definition opened1 : LiveRun RunState := step (opens 1 0 1 1) started.
Definition opened : LiveRun RunState := step (opens 2 1 2 2) opened1.
Definition opened_journal : list CommandRecord := [record_of (opens 1 0 1 1) started; record_of (opens 2 1 2 2) opened1].
Definition decided : LiveRun RunState := step (decides 2 1 1) opened.
Definition decided_journal : list CommandRecord := opened_journal ++ [record_of (decides 2 1 1) opened].
Definition world_of (l : LiveRun RunState) : JobWorld := mkJobWorld (store l) RunClock_default (ConsolidatedTape_new 100 16).
Definition context : JobContext := mkJobContext admission 30.

(** Seventy instruments, two of them listed, one twice. *)
Definition instrument (i : Z) : InstrumentDefinition :=
  mkInstrumentDefinition i "ABC" 1 Simulation.InstrumentKind.Equity 1 false (Some 50) 0 "" "".
Definition instruments : gmap Z InstrumentDefinition := list_to_map ((fun i => (i, instrument i)) <$> seqZ 1 70).
Definition listing (k : ListingKey) : ListingDefinition :=
  mkListingDefinition k "ABC" (mkPriceBounds 1 1000) (mkFeeSchedule 2 1) false (lk_venue_id k =? 1) 1.
Definition wide_keys : list ListingKey := [mkListingKey 1 1; mkListingKey 1 70; mkListingKey 2 1].
Definition wide_scenario : ScenarioDefinition :=
  mkScenarioDefinition SCENARIO_SCHEMA_VERSION 5 1 1 [] instruments (list_to_map ((fun k => (k, listing k)) <$> wide_keys))
    {[ 1 := mkParticipantDefinition 1 true SampleRun.limits {[ 1 := 100000 ]} {[ 1 := 100 ]} ]} SimulationScenario_default None.
Definition wide : RunState := match from_scenario 7 1 wide_scenario with Ok s => s | Err _ => empty_run end.
End SampleJobs.

Section job_witnesses.
Import SampleRun SampleService SampleJobs.
Import (hints) SampleRun SampleJobs.

Lemma job_commit js l i :
  history (EngineError := EngineError) genesis RunLimits_default js l -> committed (execute_admitted i None l) = true ->
  history (EngineError := EngineError) genesis RunLimits_default (js ++ [record_of i l]) (step i l).
Proof.
  intros Hh Hc. apply (history_commit _ _ js l i None); [exact Hh |]. unfold committed, step, record_of in *.
  destruct (execute_admitted i None l) as [l' [[]|]]; simpl in *; done.
Qed.
Lemma started_history : history (EngineError := EngineError) genesis RunLimits_default [] started.
Proof. apply history_genesis. vm_compute. reflexivity. Qed.
Lemma opened_history : history (EngineError := EngineError) genesis RunLimits_default opened_journal opened.
Proof. apply (job_commit [_]); [apply (job_commit []); [exact started_history |] |]; vm_compute; reflexivity. Qed.
Lemma decided_history : history (EngineError := EngineError) genesis RunLimits_default decided_journal decided.
Proof. apply job_commit; [exact opened_history | vm_compute; reflexivity]. Qed.

Lemma command_job_commits_once_witness :
  let w := (command_job context (actor_of 1) 7 selling (world_of started)).1 in
  exists js l, job_runs 7 genesis RunLimits_default w js l /\ length js = 1%nat /\
    command_job context (actor_of 1) 7 selling w = (w, Ok []).
Proof.
  destruct (command_job context (actor_of 1) 7 selling (world_of started)) as [w r] eqn:Hx. cbn [fst].
  assert (Hok : exists ms, r = Ok ms).
  { assert (Hr : Prelude.is_ok r = true); [| destruct r; [eauto | discriminate Hr]].
    change r with (w, r).2. rewrite <- Hx. vm_compute. reflexivity. }
  destruct Hok as [ms ->].
  destruct (command_job_commits_once 7 genesis RunLimits_default context (actor_of 1) selling (world_of started) w (Ok ms) [] started
    eq_refl (conj eq_refl started_history) Hx) as [(_ & Hc) Hagain].
  destruct Hc as [(_ & rec & []%elem_of_nil & _)|(at_ & rec & l' & _ & Hrec & Hw)].
  exists [rec], l'. split_and!; [exact Hw | reflexivity |].
  apply (Hagain context (actor_of 1) w [rec] l' Hw). exists rec. split; [by left | by rewrite Hrec].
Defined.

Lemma competition_commits_in_its_own_name_witness :
  let run := competition_messages (actor_of 1) 7 20 (accepts 1) 5 (world_of opened) in
  exists js' l' m, job_runs 7 genesis RunLimits_default run.1 js' l' /\ run.2 = Ok [m] /\
    competition_report_for (lr_state l') (actor_of 1) (accepts 1) = Ok m.
Proof.
  destruct (competition_messages (actor_of 1) 7 20 (accepts 1) 5 (world_of opened)) as [w r] eqn:Hx. cbn [fst snd].
  assert (Hok : Prelude.is_ok r = true).
  { change r with (w, r).2. rewrite <- Hx. vm_compute. reflexivity. }
  destruct (competition_commits_in_its_own_name 7 genesis RunLimits_default (actor_of 1) 20 (accepts 1) 5 (world_of opened) w r
    opened_journal opened (conj eq_refl opened_history) Hx) as (_ & _ & _ & _ & Hans).
  destruct r as [ms|e]; [| discriminate Hok]. destruct Hans as (js' & l' & m & Hw & -> & Hm). exists js', l', m. exact (conj Hw (conj eq_refl Hm)).
Defined.

(** Participant 2's decision comes under the number participant 1 used. *)
Lemma competition_numbers_collide_witness :
  (competition_messages (actor_of 2) 7 20 (accepts 2) 5 (world_of opened)).2 <>
  (competition_messages (actor_of 2) 7 20 (accepts 2) 5 (world_of decided)).2 /\
  (competition_messages (actor_of 2) 7 20 (accepts 2) 5 (world_of decided)).2 =
    Err (JobError.TenderDecisionFailed (ApplicationError.Transaction TransactionError.IdempotencyConflict)).
Proof.
  assert (Hfirst : Prelude.is_ok (competition_messages (actor_of 2) 7 20 (accepts 2) 5 (world_of opened)).2 = true)
    by (vm_compute; reflexivity).
  destruct (competition_numbers_collide 7 genesis RunLimits_default (actor_of 2) 20 (accepts 2) 5
    (DecideTender 2 TenderDecision.Accept) JobError.TenderDecisionFailed 2 (world_of decided) decided_journal decided
    (record_of (decides 2 1 1) opened) (sha256 [5; 2]) (sha256 [5; 1])) as [Hans _].
  - exact (conj eq_refl decided_history).
  - vm_compute. reflexivity.
  - apply elem_of_app. right. by left.
  - vm_compute. reflexivity.
  - reflexivity.
  - reflexivity.
  - vm_compute. reflexivity.
  - vm_compute. reflexivity.
  - vm_compute. reflexivity.
  - discriminate.
  - rewrite Hans. split; [| reflexivity]. intros E. rewrite E in Hfirst. discriminate Hfirst.
Defined.

Lemma wide_typed : scenario_typed wide_scenario.
Proof.
  split.
  - intros i d Hd%elem_of_list_to_map_2. apply list_elem_of_fmap in Hd as (j & [= -> ->] & _).
    split; [ranges; simpl; lia |]. intros m [= <-]. ranges. lia.
  - apply map_Forall_singleton, map_Forall_singleton. ranges. lia.
  - intros k d Hd%elem_of_list_to_map_2. apply list_elem_of_fmap in Hd as (j & [= -> ->] & _). simpl. lia.
Qed.
Lemma discovery_lists_every_listing_witness :
  (page_limit 0 < size (rs_instruments wide))%nat /\ length (all_reference_entries wide) = 3%nat /\
  reference_entries 71 wide None = Some (all_reference_entries wide).
Proof.
  assert (Hw : from_scenario 7 1 wide_scenario = Ok wide).
  { assert (H : SampleRun.is_ok (from_scenario 7 1 wide_scenario) = true) by (vm_compute; reflexivity).
    unfold wide. by destruct (from_scenario 7 1 wide_scenario). }
  destruct (discovery_lists_every_listing 7 1 wide_scenario wide wide_typed (reach_start 7 1 wide_scenario wide Hw))
    as (Hfuel & _ & _).
  assert (Hs : size (rs_instruments wide) = 70%nat) by (vm_compute; reflexivity). rewrite Hs.
  split_and!; [by apply Nat.ltb_lt | vm_compute; reflexivity |]. apply Hfuel. rewrite Hs. lia.
Defined.
End job_witnesses.

(** A trader logs on, subscribes to the bids of a listing, and the snapshot
    comes back while a batch is on its way. *)
Module SampleFeeds.
Import SampleRun SampleService SampleSessions SampleHost SampleJobs.
Import (hints) SampleRun SampleHost SampleJobs.
#[export] Instance feed_dictionary : FixDictionary := {|
  session_message := fun t => bool_decide (t ∈ [text "A"; text "0"; text "1"; text "2"; text "4"; text "5"]);
  application_message := fun t => bool_decide (t ∈ [text "V"; text "W"; text "X"]);
  session_field := fun t => bool_decide (t ∈ [7; 16; 34; 36; 43; 49; 52; 56; 58; 98; 108; 112; 122; 123; 1137]);
  application_field := fun t => bool_decide (t ∈ [48; 207; 262; 263; 264; 267; 268; 269; 270; 271])
|}.
Definition subscription : FixMessage :=
  FixMessage_new (text "V") +: (262, text "md1") +: (263, text "1") +: (264, text "0") +: (267, text "1") +: (269, text "0")
    +: (207, text "1") +: (48, text "10").
Definition frame : Text :=
  List.concat (frames (actions_of (send_application subscription now
    (FixSession.run_calls [ConnectedAt now 1; hears venue_logon] (fresh trader_config)).1).2)).
Definition gate : Gate :=
  mkGate (mkAdmissionService SampleAdmissions.config (mkLatencyModel demo_latency ∅) (Sequencer_new 8) ∅ 1 ∅) ∅
    (mkPublicFeeds [] [] false) (mkPublisher ∅ ∅ false 0 0).
Definition start : FeedHost := mkFeedHost (host_of (fresh venue_config) (unlogged_store None)) gate.
Definition snapshot : Reply :=
  (reply_task context (mkFixJob
     (FixApplicationRequest.MarketData (text "md1") key MarketDataRequestType.Subscribe 0 [MarketDataEntryType.Bid] true)
     (actor_of 2) 7 2 (Latency.Venue 1) (Some (text "md1"))) 200 0 (world_of SampleJobs.started)).2.
Definition batch : Distributor.Committed :=
  Distributor.mkCommitted 250 (Latency.Venue 1) [] 0
    [mkPublicListingUpdate key [] [mkLevelChange MarketEvents.Buy 40 0 3] (Some (40, 3)) None []] [] [] (mkDealChanges [] []).
Definition feed_calls : list FeedCall :=
  (FeedHostCall <$> connect)
  ++ [FeedBytes (store SampleJobs.started) true (reading frame) open_wire; FeedReply snapshot; FeedBatch batch].
Definition fed : FeedHost * result HostError unit :=
  feed_run settings (actor_of 2) unexplained (fun _ => text "refused") feed_calls start.
End SampleFeeds.

Section feed_witness.
Import SampleHost SampleFeeds.
Import (hints) SampleRun SampleHost SampleFeeds.
Definition host_kind (call : HostCall) : nat :=
  match call with
  | CallFirst _ _ => 0 | CallRespond _ _ _ => 1 | CallBytes _ _ _ => 2 | CallPoll _ _ _ => 3 | CallProbe _ _ _ _ => 4
  | CallReply _ _ _ _ => 5 | CallHold _ _ _ _ => 6 | CallOwed _ _ => 7 | CallMissed _ _ => 8 | CallBatch _ => 9
  | CallWrite _ _ _ => 10 | CallClose _ => 11
  end.
Definition sample_host_calls : list HostCall :=
  host_calls settings (SampleJobs.actor_of 2) unexplained (fun _ => text "refused") feed_calls start.
(** The logon, the subscription, the snapshot, the increment of the batch and
    the batch itself. *)
Lemma feed_run_is_a_host_run_witness :
  fed.2 = Ok tt /\ host_kind <$> sample_host_calls = [0; 1; 2; 5; 6; 9]%nat /\
  (fun e => fm_msg_type e.2) <$> entries (oh_queue (fh_outbound (ht_host fed.1))) = [text "W"; text "X"] /\
  host_run settings unexplained sample_host_calls (ht_host start) = (ht_host fed.1, Ok tt) /\
  omap call_batch sample_host_calls = [batch].
Proof.
  assert (Hok : fed.2 = Ok tt) by (vm_compute; reflexivity).
  split; [exact Hok |]. split; [vm_compute; reflexivity |]. split; [vm_compute; reflexivity |].
  assert (Hfed : feed_run settings (SampleJobs.actor_of 2) unexplained (fun _ => text "refused") feed_calls start = (fed.1, Ok tt)).
  { rewrite <- Hok. apply surjective_pairing. }
  destruct (feed_run_is_a_host_run settings (SampleJobs.actor_of 2) unexplained (fun _ => text "refused") feed_calls start
    fed.1 (Ok tt) Hfed) as [(r' & Hrun & Hr) Hb]. rewrite (followed_Ok _ Hr) in Hrun.
  split; [exact Hrun |]. exact (Hb eq_refl).
Defined.
End feed_witness.
